(* ===== verification/_CoqProject ===== *)
-Q . S2P
Prelude.v
CMem.v
StunTypes.v
StunMessage.v
StunWire.v
StunAppend.v
StunAccess.v
StunMessageProps.v
StunCrc32.v
StunAgent.v
StunIntegrity.v
StunAgentSpec.v
StunAgentProps.v
StunAgentSafety.v
StunTimer.v
StunIce.v
StunIceProps.v
StunTurn.v
PseudoTcpFifo.v
PseudoTcpTypes.v
PseudoTcp.v
PseudoTcpProcess.v
PseudoTcpApi.v
PseudoTcpSend.v
PseudoTcpStream.v
PseudoTcpRecv.v
PseudoTcpLife.v
PseudoTcpTimeout.v
Address.v
Candidate.v
IceTypes.v
IceEnv.v
CheckList.v
CheckDriver.v
Discovery.v
CheckTick.v
KeepAlive.v
AgentConfig.v
CheckNominate.v
CheckResponse.v
DiscoveryReply.v
CheckInbound.v
Sdp.v
RemoteCandidates.v
Streams.v
Gather.v
CheckInv.v
DiscoveryInv.v
CheckProps.v
CheckTickInv.v
CheckInboundInv.v
StreamsInv.v
CheckMain.v
TimerProps.v
SdpProps.v
GatherProps.v
CheckReady.v
IoMessage.v
NiceSock.v
TcpSocket.v
TcpSocketProps.v
TurnTcp.v
TurnTcpProps.v
PseudoSsl.v
Socks5.v
ProxyProps.v
Http.v
HttpProps.v
TurnSocket.v
TurnEvents.v
TurnWire.v
TurnSound.v
TurnTick.v
TurnOps.v
TurnRelayProps.v
AgentIo.v
AgentFrame.v
AgentIoProps.v
