(* ===== verification/Prelude.v ===== *)
(** * A verification library for the libnice sources of JavaICE

    JavaICE wraps libnice, a C implementation of Interactive Connectivity
    Establishment (RFC 8445): two agents gather transport addresses, exchange
    them, test pairs of them with STUN messages, and select pairs over which
    the application then sends data, through TURN relays, proxies or a
    pseudo-TCP connection where necessary.  This library models the C code
    under src/libnice and proves what makes it correct.  This file is its root:
    after this overview it has the notations, tactics and lemmas that every
    other file uses.

    ** How C is modelled

    - Code that may go wrong returns [res A]: a value, or a [fault] for an
      access outside an object, a null or freed pointer, a failing assertion, a
      read of an uninitialised variable, or an exhausted loop bound.  A theorem
      that a function returns [Ok] therefore includes memory safety.
    - Integers are [Z]; conversions to a width are written ([u8], [u16], [u32],
      [u64], [s32]).  The target is LP64 and little-endian.
    - Byte objects are lists of integers with checked accesses (CMem).  Strings
      are lists of bytes without their terminator.
    - Structures are records; a function that mutates one returns it.  Pairs of
      candidates, which the code shares between lists, are objects of a heap
      [a_pairs] and lists hold their keys; candidates are values with the
      address they lie at ([c_ptr]), and an update through a pointer goes to
      every place that holds that candidate.
    - What the process asks of its environment (sockets, timers, random
      numbers) and the signals it emits are a log, [a_log]; the answers are
      classes of functions of that log, so that they may depend on everything
      that happened before.
    - Locks are left out: each operation runs under the agent lock, and
      callbacks run after it is released; they appear as log entries.

    ** Parts of the program, files and theorems

    STUN messages (src/libnice/stun).  StunTypes and StunMessage
    translate stunmessage.c, utils.c and stun5389.c.  StunWire is an
    independent decoder of the wire format; StunAppend, StunAccess and
    StunMessageProps show that validation accepts exactly the well-formed
    messages, that lookups stay inside the message, that appended attributes
    are found again, and a case in which the padding is written behind the
    buffer.  StunCrc32: the table-driven CRC is the bitwise one and detects
    bursts.  StunAgent, StunIntegrity, StunAgentSpec, StunAgentProps and
    StunAgentSafety: the keyed hashes, the transaction table, construction
    and validation of messages in stunagent.c; authenticated messages are
    accepted, and only those; a response is used up.  HMAC and MD5 are the
    class [CryptoLib].  StunTimer: the retransmission timer.  StunIce,
    StunIceProps, StunTurn: the messages of connectivity checks and of TURN
    (usages/ice.c, bind.c, turn.c), with the resolution of role conflicts.

    Pseudo-TCP (agent/pseudotcp.c).  PseudoTcpFifo: the ring buffer refines a
    queue.  PseudoTcpTypes, PseudoTcp, PseudoTcpProcess, PseudoTcpApi: the
    socket.  PseudoTcpSend and PseudoTcpStream: the send queue tiles the send
    buffer and packets carry the stream.  PseudoTcpRecv: out-of-order segments
    are reassembled into the stream of the peer.  PseudoTcpLife: every sequence
    of operations follows the diagram of connection states.  PseudoTcpTimeout:
    a silent peer is given up after a bounded number of timeouts.

    The ICE agent (agent/*.c).  Address, Candidate: addresses, candidates and
    priorities.  IceTypes is the state of an agent with its streams and
    components, IceEnv its environment and the discovery lists.
    - conncheck.c: CheckList (check lists, freezing, pruning, states),
      CheckDriver (lookups, triggered checks, roles), CheckTick (sending and pacing),
      CheckNominate (nomination, the timer callback), CheckResponse and
      CheckInbound (messages from the network), KeepAlive (keepalives and
      consent).
    - discovery.c: Discovery (candidates), DiscoveryReply (answers, the timer).
    - agent.c, stream.c, component.c: AgentConfig (a new agent and its
      properties), Streams (streams, credentials, restart, selection,
      removal), Gather (gathering, resolved server names), RemoteCandidates,
      Sdp.
    The invariant of the check lists is in CheckInv; CheckTickInv,
    CheckInboundInv and StreamsInv show that every operation keeps it (by the
    tactic [keep] and its hints), and CheckMain concludes it for every sequence
    of operations of the application, the network and the timers, from a new
    agent on.  CheckProps and CheckReady describe the algorithms: role
    switches, unfreezing, the size limit, the conclusion of a component,
    nomination.  DiscoveryInv: local candidates stay distinct and foundations
    tell bases apart.  TimerProps: the discovery timer stops when everything is
    done; consent expires.  SdpProps: a generated description is read back.
    GatherProps: the port search ends and tries every port; and some defects
    found on the way.

    Sockets (socket/*.c).  IoMessage: messages as arrays of vectors (agent.c).
    NiceSock: the table of socket functions as a class, and [StreamSocket],
    what the layered sockets expect of a byte stream.  TcpSocket: the send
    queue of socket.c and tcp-bsd.c over the class [GSocket]; it implements
    [StreamSocket].  TcpSocketProps: the stream keeps its order, and two
    defects.  TurnTcp and TurnTcpProps: TURN over TCP, proved against
    [StreamSocket]: what is framed is delivered whatever the segmentation; a
    frame can overflow the buffer.  PseudoSsl, Socks5, ProxyProps: the sockets
    that wait for a handshake implement the interface [Gated], against which
    it is proved that nothing is sent before the handshake is over.  Http and
    HttpProps: the HTTP proxy with its ring buffer and the parser of the reply,
    another [Gated] socket; and a reply that is refused when it arrives in
    pieces.

    Application data (agent.c, component.c).  AgentIo: a received packet is
    told apart into TURN, STUN and data ([agent_recv_message_unlocked]), the
    RFC 4571 buffer of an ICE-TCP connection, and sending
    ([nice_agent_send_messages_nonblocking_internal], [nice_agent_send]).
    AgentFrame: the buffer represents the bytes that were read and not yet
    delivered, against the interface [StreamSource] of a connected socket; the
    packets of a message, against [StreamSink].  AgentIoProps: data is delivered
    in order and whole whatever the segmentation, only from sources that were
    checked; what is sent is framed; and a message of several vectors that is
    split wrongly.

    The TURN socket (socket/udp-turn.c).  TurnSocket has its state, timers and
    requests, TurnEvents sending, receiving and the callbacks, both for every
    compatibility mode.  TurnWire describes the messages the socket
    writes.  TurnSound has the abstract machine [relay], which holds back what
    is for a peer without permission and passes the rest on in order, the
    invariant [sound], the interface [RelayBase] of the socket below (it
    reports what it took) and the simulation [refines]; TurnTick and TurnOps
    show that timers, sends and received packets are steps of the machine and
    that the mutual recursion of the timers ends.
    TurnRelayProps concludes for every run of a new RFC 5766 socket: payloads
    are relayed in order and only to the server, channel numbers differ, no
    timer outlives the socket, channel data is received; and an expired
    binding is never dropped.

    ** Bounds

    Loops over lists are structural.  Where a loop has no structural measure,
    a bound is part of the definition and a theorem or lemma shows that it is
    enough: attribute walks are bounded by the length of the buffer; the search
    for a port by twice the size of the range ([port_fuel], theorem
    gather_ports_terminate); the search for a free foundation by the number of
    candidates plus one ([highest_loop]); the loops of pseudo-TCP by the length
    of the segment list or of the options; the recursion of the timers of the
    TURN socket by two levels and its loops by the lengths of their lists
    ([TICK_DEPTH], theorem turn_tick_terminates; [channel_fuel], theorem
    turn_channels_numbered); the parser of the HTTP proxy by the number of
    bytes in its ring ([ring_fuel], [retry_fuel]; theorem http_holds_back
    includes that it ends); the packets of a message by its length (theorem
    ice_tcp_send_frames).  The clock of a TURN socket stands still during
    an operation.

    ** Assumptions

    The classes of the environment carry only documented behaviour and each
    has an instance: [GMalloc], [AutoArray] (fresh memory has unspecified
    contents of the right length), [GSocketLaws] (bytes sent are a prefix of
    those offered, bytes received are the next ones), [RandomRange] (GLib's
    random integers lie in their range), [PrintableBytes] (the generator of
    printable characters gives as many as asked), [NumericHost] (the resolver
    reads the numeric addresses it prints), [ComponentEnv] (what creation of a
    component asks of the system), [TurnRandomLaws] (transaction ids are 16
    bytes), [RelayBase] (a socket below a TURN socket takes a message whole or
    refuses it, and says which), [StreamSource] (reads take bytes from the front
    of the stream of the peer) and [StreamSink] (a message is taken whole or not
    at all).  The classes [IoWorld] and [PseudoTcpPort] have the operations the
    data path calls, without laws.  The theorems on the TURN socket are for
    RFC 5766, peers with an IPv4 or IPv6 address and messages of at most
    65000 bytes ([MAX_PAYLOAD]).  The class [Keepalive] stands between the
    timer of the checks and the keepalives; KeepAlive implements it.  The
    invariant of the check lists is proved for runs with renomination off that
    do not set the property controlling-mode.

    ** Not modelled

    The I/O callback of agent.c ([component_io_cb]) and the blocking receive
    functions around [agent_recv_message_unlocked], the clock and the callbacks
    of the pseudo-TCP socket of a component.  They unlock the agent, run the
    application and look the objects up again, which is a model of interleaving
    of its own.  Left out for good:
    operating-system sockets (udp-bsd.c, tcp-active.c, tcp-passive.c, the
    creation of a TCP connection), GObject and GSource plumbing, the GIO
    streams, destruction of objects, UPnP (not compiled in), debug output, the
    blocking helper of usages/bind.c, command line tools, examples, tests, the
    GStreamer elements and the Java side, which only calls the C interface. *)
From Stdlib Require Export ZArith Lia Bool.
From stdpp Require Export base list numbers option.

#[global] Open Scope Z_scope.

(** ** C computations that may go wrong

    [res A] is the result of running a piece of C code: [Ok a] when it runs to
    completion, [Fault f] when the code reaches undefined behaviour (an access
    outside an object), a failing [assert]/[g_assert], or, for loops that are
    translated with a bound, exhausts that bound. *)
Inductive fault : Set :=
  | OutOfBounds    (** a read or write outside the object *)
  | AssertFailed   (** [assert (0)], [g_assert], [g_assert_not_reached] *)
  | BadShift       (** a shift by at least the width of the promoted operand *)
  | DivByZero      (** a division or remainder by zero *)
  | Uninitialised  (** a read of an automatic variable that was never set *)
  | OutOfFuel.     (** the bound given to a translated loop was too small *)

Inductive res (A : Type) : Type :=
  | Ok (a : A)
  | Fault (f : fault).
Arguments Ok {A} a.
Arguments Fault {A} f.

#[global] Instance res_ret : MRet res := fun A a => Ok a.
#[global] Instance res_bind : MBind res := fun A B f x =>
  match x with Ok a => f a | Fault e => Fault e end.
#[global] Instance res_fmap : FMap res := fun A B f x =>
  match x with Ok a => Ok (f a) | Fault e => Fault e end.

Definition is_ok {A} (x : res A) : bool :=
  match x with Ok _ => true | Fault _ => false end.

(** [assert_ok b] is the C statement [assert (b)]. *)
Definition assert_ok (b : bool) : res unit :=
  if b then Ok tt else Fault AssertFailed.

Section res_lemmas.
Context {A B : Type}.

Lemma bind_Ok_inv (f : A -> res B) (x : res A) (b : B) :
  (x ≫= f) = Ok b -> exists a, x = Ok a /\ f a = Ok b.
Proof. destruct x; simpl; eauto; discriminate. Qed.

Lemma bind_Ok (f : A -> res B) (x : res A) (a : A) :
  x = Ok a -> (x ≫= f) = f a.
Proof. by intros ->. Qed.

Lemma assert_ok_true (b : bool) : b = true -> assert_ok b = Ok tt.
Proof. by intros ->. Qed.

Lemma assert_ok_inv (b : bool) : assert_ok b = Ok tt -> b = true.
Proof. by destruct b. Qed.
End res_lemmas.

(** ** Machine integers

    A [w]-bit unsigned integer is a [Z] in [0, 2^w); a conversion or an
    operation that wraps is written with the corresponding function. *)
Definition u8  (x : Z) : Z := x mod 256.
Definition u16 (x : Z) : Z := x mod 65536.
Definition u32 (x : Z) : Z := x mod 4294967296.
Definition u64 (x : Z) : Z := x mod 18446744073709551616.

(** Conversion to [int32_t] (two's complement). *)
Definition s32 (x : Z) : Z :=
  let y := u32 x in if y <? 2147483648 then y else y - 4294967296.

Lemma u8_range x : 0 <= u8 x < 256.
Proof. apply Z.mod_pos_bound; lia. Qed.
Lemma u16_range x : 0 <= u16 x < 65536.
Proof. apply Z.mod_pos_bound; lia. Qed.
Lemma u32_range x : 0 <= u32 x < 4294967296.
Proof. apply Z.mod_pos_bound; lia. Qed.
Lemma u64_range x : 0 <= u64 x < 18446744073709551616.
Proof. apply Z.mod_pos_bound; lia. Qed.

Lemma u8_small x : 0 <= x < 256 -> u8 x = x.
Proof. apply Z.mod_small. Qed.
Lemma u16_small x : 0 <= x < 65536 -> u16 x = x.
Proof. apply Z.mod_small. Qed.
Lemma u32_small x : 0 <= x < 4294967296 -> u32 x = x.
Proof. apply Z.mod_small. Qed.
Lemma u64_small x : 0 <= x < 18446744073709551616 -> u64 x = x.
Proof. apply Z.mod_small. Qed.

(** [s32] is the representative of its class modulo 2^32 in [-2^31, 2^31). *)
Lemma s32_spec x : -2147483648 <= s32 x < 2147483648 /\ exists k, s32 x = x + k * 4294967296.
Proof.
  unfold s32, u32. pose proof (Z.mod_pos_bound x 4294967296 ltac:(lia)).
  pose proof (Z.div_mod x 4294967296 ltac:(lia)).
  destruct (Z.ltb_spec (x mod 4294967296) 2147483648); (split; [lia|]).
  - exists (- (x / 4294967296)). lia.
  - exists (- (x / 4294967296) - 1). lia.
Qed.
Lemma s32_small x : -2147483648 <= x < 2147483648 -> s32 x = x.
Proof. intros. destruct (s32_spec x) as [? [k ?]]. assert (k = 0) by lia. lia. Qed.

Create HintDb cint.
Create Rewrite HintDb cint_rw.
Create Rewrite HintDb zlen.
#[export] Hint Resolve u8_range u16_range u32_range u64_range : cint.
#[export] Hint Rewrite u8_small u16_small u32_small u64_small using lia : cint_rw.

(** [flag x m] is the C test [x & m] used as a condition. *)
Definition flag (x m : Z) : bool := negb (Z.land x m =? 0).

(** ** Lists *)

(** The length of a list as an integer ([size_t] in the sources). *)
Definition zlen {A} (l : list A) : Z := Z.of_nat (length l).

Section zlen_lemmas.
Context {A : Type}.
Implicit Types l k : list A.

Lemma zlen_nonneg l : 0 <= zlen l.
Proof. unfold zlen; lia. Qed.
Lemma zlen_nil : zlen (@nil A) = 0.
Proof. reflexivity. Qed.
Lemma zlen_cons x l : zlen (x :: l) = 1 + zlen l.
Proof. unfold zlen; simpl length; lia. Qed.
Lemma zlen_app l k : zlen (l ++ k) = zlen l + zlen k.
Proof. unfold zlen; rewrite length_app; lia. Qed.
Lemma zlen_replicate n (x : A) : zlen (replicate n x) = Z.of_nat n.
Proof. unfold zlen; by rewrite length_replicate. Qed.
Lemma to_nat_zlen l : Z.to_nat (zlen l) = length l.
Proof. unfold zlen; lia. Qed.
Lemma zlen_0_nil l : zlen l = 0 -> l = [].
Proof. destruct l; [done|]. rewrite zlen_cons. pose proof (zlen_nonneg l); lia. Qed.
Lemma zlen_take n l :
  0 <= n <= zlen l -> zlen (take (Z.to_nat n) l) = n.
Proof. unfold zlen; intros; rewrite length_take; lia. Qed.
Lemma zlen_drop n l :
  0 <= n <= zlen l -> zlen (drop (Z.to_nat n) l) = zlen l - n.
Proof. unfold zlen; intros; rewrite length_drop; lia. Qed.
Lemma zlen_insert i (x : A) l : zlen (<[i:=x]> l) = zlen l.
Proof. unfold zlen; by rewrite length_insert. Qed.
End zlen_lemmas.
Lemma zlen_map {A B} (f : A -> B) l : zlen (map f l) = zlen l.
Proof. unfold zlen; by rewrite length_map. Qed.

#[export] Hint Rewrite @zlen_nil @zlen_cons @zlen_app @zlen_replicate @zlen_map
  @zlen_insert : zlen.
#[export] Hint Resolve zlen_nonneg : cint.

(** ** Tactics *)

(** Split boolean conditions of the code into propositions [lia] can use. *)
Ltac bool_prop :=
  repeat match goal with
  | H : _ && _ = true |- _ => apply andb_true_iff in H; destruct H
  | H : _ || _ = false |- _ => apply orb_false_iff in H; destruct H
  | H : negb _ = true |- _ => apply negb_true_iff in H
  | H : negb _ = false |- _ => apply negb_false_iff in H
  | H : (_ <=? _) = true |- _ => apply Z.leb_le in H
  | H : (_ <=? _) = false |- _ => apply Z.leb_gt in H
  | H : (_ <? _) = true |- _ => apply Z.ltb_lt in H
  | H : (_ <? _) = false |- _ => apply Z.ltb_ge in H
  | H : (_ =? _) = true |- _ => apply Z.eqb_eq in H
  | H : (_ =? _) = false |- _ => apply Z.eqb_neq in H
  end.

(** Invert a successful sequence of monadic steps found in a hypothesis. *)
Ltac inv_res :=
  repeat match goal with
  | H : Ok _ = Ok _ |- _ => injection H; clear H; intros
  | H : Fault _ = Ok _ |- _ => discriminate H
  | H : Ok _ = Fault _ |- _ => discriminate H
  | H : mret _ = Ok _ |- _ => unfold mret, res_ret in H
  | H : mbind _ _ = Ok _ |- _ =>
      let a := fresh "a" in let Ha := fresh "Ha" in
      apply bind_Ok_inv in H; destruct H as (a & Ha & H)
  | H : assert_ok _ = Ok ?u |- _ => destruct u; apply assert_ok_inv in H
  end; subst.

(** Arithmetic on list lengths. *)
Ltac zlen_norm := autorewrite with zlen in *.
Ltac zlen_pos :=
  repeat match goal with
  | |- context [zlen ?l] => lazymatch goal with
      | _ : 0 <= zlen l |- _ => fail | _ => pose proof (zlen_nonneg l) end
  | _ : context [zlen ?l] |- _ => lazymatch goal with
      | _ : 0 <= zlen l |- _ => fail | _ => pose proof (zlen_nonneg l) end
  end.
Ltac zlia := zlen_norm; zlen_pos; lia.
