(* ===== verification/CMem.v ===== *)
(** * Byte buffers

    A C object of type [uint8_t\[n\]] is a list of [n] integers in [0, 256).
    Every access goes through [rd], [wr], [rd_bytes] or [wr_bytes], which
    fault outside the object, so that a theorem that a function returns [Ok]
    includes its memory safety.  The host is little-endian (the x86-64 and
    Windows targets the Java loader ships), so [htons] and [htonl] swap bytes
    and a load of a wider integer takes the low byte first. *)
From S2P Require Import Prelude.

Definition is_byte (x : Z) : Prop := 0 <= x < 256.
Definition bytes (b : list Z) : Prop := Forall is_byte b.

#[global] Instance is_byte_dec x : Decision (is_byte x).
Proof. unfold is_byte. apply _. Defined.
#[global] Instance bytes_dec b : Decision (bytes b).
Proof. unfold bytes. apply _. Defined.

(** ** Accesses *)

Definition rd (b : list Z) (i : Z) : res Z :=
  if (0 <=? i) && (i <? zlen b) then Ok (nth (Z.to_nat i) b 0)
  else Fault OutOfBounds.

(** The bytes [b[off .. off+n)]. *)
Definition slice (b : list Z) (off n : Z) : list Z :=
  take (Z.to_nat n) (drop (Z.to_nat off) b).

(** [b] with the bytes [bs] stored from offset [off] on. *)
Definition splice (b : list Z) (off : Z) (bs : list Z) : list Z :=
  take (Z.to_nat off) b ++ bs ++ drop (Z.to_nat (off + zlen bs)) b.

Definition rd_bytes (b : list Z) (off n : Z) : res (list Z) :=
  if (0 <=? off) && (0 <=? n) && (off + n <=? zlen b) then Ok (slice b off n)
  else Fault OutOfBounds.

Definition wr_bytes (b : list Z) (off : Z) (bs : list Z) : res (list Z) :=
  if (0 <=? off) && (off + zlen bs <=? zlen b) then Ok (splice b off bs)
  else Fault OutOfBounds.

Definition wr (b : list Z) (i v : Z) : res (list Z) := wr_bytes b i [u8 v].

(** [memset (b + off, v, n)]. *)
Definition memset (b : list Z) (off v n : Z) : res (list Z) :=
  wr_bytes b off (replicate (Z.to_nat n) (u8 v)).

(** ** Byte order *)

Definition bswap16 (x : Z) : Z :=
  Z.lor (Z.shiftl (Z.land x 255) 8) (Z.land (Z.shiftr x 8) 255).

Definition bswap32 (x : Z) : Z :=
  Z.lor (Z.shiftl (bswap16 (Z.land x 65535)) 16) (bswap16 (Z.land (Z.shiftr x 16) 65535)).

Definition htons (x : Z) : Z := bswap16 (u16 x).
Definition ntohs (x : Z) : Z := bswap16 (u16 x).
Definition htonl (x : Z) : Z := bswap32 (u32 x).
Definition ntohl (x : Z) : Z := bswap32 (u32 x).

(** The object representation of an [n]-byte unsigned integer, and back. *)
Fixpoint le_bytes (n : nat) (x : Z) : list Z :=
  match n with
  | O => []
  | S n => x mod 256 :: le_bytes n (x / 256)
  end.

Fixpoint le_value (l : list Z) : Z :=
  match l with
  | [] => 0
  | x :: l => x + 256 * le_value l
  end.

(** Network (big-endian) order, the reference the swaps are compared with. *)
Definition be_bytes (n : nat) (x : Z) : list Z := rev (le_bytes n x).
Definition be_value (l : list Z) : Z := le_value (rev l).

(** ** Lemmas on accesses *)

Lemma rd_Ok b i : 0 <= i < zlen b -> rd b i = Ok (nth (Z.to_nat i) b 0).
Proof.
  intros. unfold rd. destruct (0 <=? i) eqn:?, (i <? zlen b) eqn:?; bool_prop; try lia; done.
Qed.

Lemma rd_inv b i v : rd b i = Ok v -> 0 <= i < zlen b /\ v = nth (Z.to_nat i) b 0.
Proof. unfold rd. case_match; [|done]. intros [= <-]. bool_prop; split; [lia|done]. Qed.

Lemma rd_app_l l k i : i < zlen l -> rd (l ++ k) i = rd l i.
Proof.
  intros. unfold rd. rewrite zlen_app.
  destruct (0 <=? i) eqn:?, (i <? zlen l) eqn:E1, (i <? zlen l + zlen k) eqn:E2;
    bool_prop; zlen_pos; try lia; try done; cbn.
  f_equal. apply app_nth1. unfold zlen in *; lia.
Qed.

Lemma rd_app_r l k i : 0 <= i -> rd (l ++ k) (zlen l + i) = rd k i.
Proof.
  intros. unfold rd. rewrite zlen_app.
  destruct (0 <=? zlen l + i) eqn:?, (0 <=? i) eqn:?, (i <? zlen k) eqn:?,
    (zlen l + i <? zlen l + zlen k) eqn:?; bool_prop; zlen_pos; try lia; try done; cbn.
  f_equal. rewrite app_nth2 by (unfold zlen in *; lia). f_equal. unfold zlen; lia.
Qed.

Lemma rd_hd x l : rd (x :: l) 0 = Ok x.
Proof. by rewrite rd_Ok by zlia. Qed.

Lemma rd_tl x l i : 0 < i -> rd (x :: l) i = rd l (i - 1).
Proof. intros. rewrite <-(rd_app_r [x] l (i - 1)) by lia. f_equal. rewrite zlen_cons, zlen_nil. lia. Qed.

Lemma rd_1 a b l : rd (a :: b :: l) 1 = Ok b.
Proof. rewrite rd_tl by lia. apply rd_hd. Qed.
Lemma rd_2 a b c l : rd (a :: b :: c :: l) 2 = Ok c.
Proof. rewrite rd_tl by lia. apply rd_1. Qed.
Lemma rd_3 a b c d l : rd (a :: b :: c :: d :: l) 3 = Ok d.
Proof. rewrite rd_tl by lia. apply rd_2. Qed.

Lemma rd_bytes_Ok b off n :
  0 <= off -> 0 <= n -> off + n <= zlen b -> rd_bytes b off n = Ok (slice b off n).
Proof.
  intros. unfold rd_bytes.
  destruct (0 <=? off) eqn:?, (0 <=? n) eqn:?, (off + n <=? zlen b) eqn:?; bool_prop; try lia; done.
Qed.

Lemma rd_bytes_inv b off n l :
  rd_bytes b off n = Ok l -> 0 <= off /\ 0 <= n /\ off + n <= zlen b /\ l = slice b off n.
Proof. unfold rd_bytes. case_match; [|done]. intros [= <-]. bool_prop. auto. Qed.

Lemma wr_bytes_Ok b off bs :
  0 <= off -> off + zlen bs <= zlen b -> wr_bytes b off bs = Ok (splice b off bs).
Proof.
  intros. unfold wr_bytes.
  destruct (0 <=? off) eqn:?, (off + zlen bs <=? zlen b) eqn:?; bool_prop; try lia; done.
Qed.

Lemma wr_bytes_inv b off bs b' :
  wr_bytes b off bs = Ok b' -> 0 <= off /\ off + zlen bs <= zlen b /\ b' = splice b off bs.
Proof. unfold wr_bytes. case_match; [|done]. intros [= <-]. bool_prop. auto. Qed.

Lemma zlen_slice b off n :
  0 <= off -> 0 <= n -> off + n <= zlen b -> zlen (slice b off n) = n.
Proof. intros. unfold slice, zlen in *. rewrite length_take, length_drop. lia. Qed.

Lemma zlen_splice b off bs :
  0 <= off -> off + zlen bs <= zlen b -> zlen (splice b off bs) = zlen b.
Proof.
  intros. unfold splice, zlen in *. rewrite !length_app, length_take, length_drop. lia.
Qed.

Lemma wr_bytes_len b off bs b' : wr_bytes b off bs = Ok b' -> zlen b' = zlen b.
Proof. intros (?&?&->)%wr_bytes_inv. by apply zlen_splice. Qed.

Lemma slice_app l m r : slice (l ++ m ++ r) (zlen l) (zlen m) = m.
Proof.
  unfold slice, zlen. rewrite !Nat2Z.id, drop_app_length. apply take_app_length.
Qed.

Lemma splice_app l m m' r : zlen m = zlen m' ->
  splice (l ++ m ++ r) (zlen l) m' = l ++ m' ++ r.
Proof.
  intros Hm. unfold splice. rewrite <-Hm.
  replace (Z.to_nat (zlen l)) with (length l) by (unfold zlen; lia).
  rewrite take_app_length. do 2 f_equal.
  replace (Z.to_nat (zlen l + zlen m)) with (length (l ++ m))
    by (unfold zlen in *; rewrite length_app; lia).
  by rewrite app_assoc, drop_app_length.
Qed.

(** Every in-range window of a buffer splits it in three. *)
Lemma split_at b off n : 0 <= off -> 0 <= n -> off + n <= zlen b ->
  exists l m r : list Z, b = l ++ m ++ r /\ zlen l = off /\ zlen m = n.
Proof.
  intros. exists (take (Z.to_nat off) b), (slice b off n), (drop (Z.to_nat (off + n)) b).
  split; [|split].
  - unfold slice. rewrite <-(take_drop (Z.to_nat off) b) at 1. f_equal.
    rewrite <-(take_drop (Z.to_nat n) (drop (Z.to_nat off) b)) at 1. f_equal.
    rewrite drop_drop. f_equal. lia.
  - by rewrite zlen_take by lia.
  - by apply zlen_slice.
Qed.

(** Stores and loads at a position given by a decomposition of the buffer. *)
Lemma wr_bytes_eq b l m m' r off :
  b = l ++ m ++ r -> off = zlen l -> zlen m = zlen m' -> wr_bytes b off m' = Ok (l ++ m' ++ r).
Proof.
  intros -> -> Hm. rewrite wr_bytes_Ok by zlia. f_equal. by apply splice_app.
Qed.

Lemma rd_bytes_eq b l m r off n :
  b = l ++ m ++ r -> off = zlen l -> n = zlen m -> rd_bytes b off n = Ok m.
Proof.
  intros -> -> ->. rewrite rd_bytes_Ok by zlia. f_equal. apply slice_app.
Qed.

(** Two adjacent stores are one store. *)
Lemma splice_splice b off xs ys :
  0 <= off -> off + zlen xs + zlen ys <= zlen b ->
  splice (splice b off xs) (off + zlen xs) ys = splice b off (xs ++ ys).
Proof.
  intros. destruct (split_at b off (zlen xs + zlen ys)) as (l & m & r & -> & <- & Hm);
    zlen_pos; try lia.
  destruct (split_at m 0 (zlen xs)) as (l' & m1 & m2 & -> & Hl' & Hm1); zlen_pos; try lia.
  apply zlen_0_nil in Hl' as ->. cbn [app] in *. rewrite zlen_app in Hm.
  replace (l ++ (m1 ++ m2) ++ r) with (l ++ m1 ++ m2 ++ r) by (by rewrite <-!app_assoc).
  rewrite splice_app by done.
  replace (l ++ xs ++ m2 ++ r) with ((l ++ xs) ++ m2 ++ r) by (by rewrite <-!app_assoc).
  replace (zlen l + zlen xs) with (zlen (l ++ xs)) by zlia.
  rewrite splice_app by lia.
  replace (l ++ m1 ++ m2 ++ r) with (l ++ (m1 ++ m2) ++ r) by (by rewrite <-!app_assoc).
  rewrite splice_app by zlia. by rewrite <-!app_assoc.
Qed.

Lemma splice_nil b off : 0 <= off <= zlen b -> splice b off [] = b.
Proof. intros. unfold splice. rewrite zlen_nil, Z.add_0_r. apply take_drop. Qed.

(** A store does not change the bytes of a disjoint window. *)
Lemma slice_splice_same b off bs :
  0 <= off -> off + zlen bs <= zlen b -> slice (splice b off bs) off (zlen bs) = bs.
Proof.
  intros. destruct (split_at b off (zlen bs)) as (l & m & r & -> & <- & Hm); zlen_pos; try lia.
  rewrite splice_app by lia. apply slice_app.
Qed.

Lemma slice_app_l l r off n : 0 <= off -> 0 <= n -> off + n <= zlen l ->
  slice (l ++ r) off n = slice l off n.
Proof.
  intros. unfold slice, zlen in *.
  rewrite drop_app_le, take_app_le by (rewrite ?length_drop; lia). done.
Qed.

Lemma slice_app_r l r off n : 0 <= off ->
  slice (l ++ r) (zlen l + off) n = slice r off n.
Proof.
  intros. unfold slice, zlen. rewrite drop_app_ge by lia. do 2 f_equal. lia.
Qed.

Lemma slice_splice_before b off bs o n :
  0 <= o -> 0 <= n -> o + n <= off -> off + zlen bs <= zlen b ->
  slice (splice b off bs) o n = slice b o n.
Proof.
  intros. destruct (split_at b off (zlen bs)) as (l & m & r & -> & <- & Hm); zlen_pos; try lia.
  rewrite splice_app by lia. rewrite !slice_app_l by lia. done.
Qed.

Lemma slice_splice_after b off bs o n :
  0 <= off -> 0 <= n -> off + zlen bs <= o -> off + zlen bs <= zlen b ->
  slice (splice b off bs) o n = slice b o n.
Proof.
  intros. destruct (split_at b off (zlen bs)) as (l & m & r & -> & <- & Hm); zlen_pos; try lia.
  rewrite splice_app by lia.
  replace o with (zlen l + (zlen bs + (o - zlen l - zlen bs))) by lia.
  rewrite !slice_app_r by lia. rewrite <-Hm at 2. by rewrite !slice_app_r by lia.
Qed.

Lemma slice_all b : slice b 0 (zlen b) = b.
Proof. unfold slice, zlen. rewrite Nat2Z.id. simpl. apply take_ge. lia. Qed.

(** ** Bytes *)

Lemma bytes_app l k : bytes (l ++ k) <-> bytes l /\ bytes k.
Proof. apply Forall_app. Qed.
Lemma bytes_cons x l : bytes (x :: l) <-> is_byte x /\ bytes l.
Proof. apply Forall_cons_iff. Qed.
Lemma bytes_nil : bytes [].
Proof. constructor. Qed.
Lemma bytes_slice b off n : bytes b -> bytes (slice b off n).
Proof. intros. by apply Forall_take, Forall_drop. Qed.
Lemma bytes_splice b off bs : bytes b -> bytes bs -> bytes (splice b off bs).
Proof.
  intros. unfold splice. rewrite !bytes_app. split; [by apply Forall_take|split; [done|by apply Forall_drop]].
Qed.
Lemma bytes_replicate n x : is_byte x -> bytes (replicate n x).
Proof. intros. by apply Forall_replicate. Qed.
Lemma bytes_le_bytes n x : bytes (le_bytes n x).
Proof.
  revert x; induction n as [|n IH]; intros x; simpl; [constructor|].
  constructor; [|apply IH]. unfold is_byte. apply Z.mod_pos_bound. lia.
Qed.
Lemma bytes_be_bytes n x : bytes (be_bytes n x).
Proof. unfold be_bytes. apply Forall_rev, bytes_le_bytes. Qed.
Lemma rd_byte b i v : bytes b -> rd b i = Ok v -> is_byte v.
Proof.
  intros Hb (Hi & ->)%rd_inv. unfold bytes in Hb. rewrite Forall_forall in Hb.
  apply Hb. apply nth_In. unfold zlen in *; lia.
Qed.
Lemma wr_bytes_bytes b off bs b' :
  bytes b -> bytes bs -> wr_bytes b off bs = Ok b' -> bytes b'.
Proof. intros ?? (_&_&->)%wr_bytes_inv. by apply bytes_splice. Qed.

#[export] Hint Resolve bytes_nil bytes_slice bytes_splice bytes_le_bytes bytes_be_bytes
  bytes_replicate : cint.

(** ** Byte order lemmas *)

Lemma length_le_bytes n x : length (le_bytes n x) = n.
Proof. revert x; induction n; intros; simpl; auto. Qed.
Lemma zlen_le_bytes n x : zlen (le_bytes n x) = Z.of_nat n.
Proof. unfold zlen; by rewrite length_le_bytes. Qed.
Lemma zlen_be_bytes n x : zlen (be_bytes n x) = Z.of_nat n.
Proof. unfold be_bytes, zlen; by rewrite length_rev, length_le_bytes. Qed.
#[export] Hint Rewrite zlen_le_bytes zlen_be_bytes : zlen.

Lemma le_value_bytes n x : le_value (le_bytes n x) = x mod 256 ^ Z.of_nat n.
Proof.
  revert x; induction n as [|n IH]; intros x; cbn [le_bytes le_value].
  - by rewrite Z.mod_1_r.
  - rewrite IH, Nat2Z.inj_succ, Z.pow_succ_r by lia.
    rewrite (Z.rem_mul_r x 256) by (try apply Z.pow_nonzero; lia). lia.
Qed.

Lemma le_value_app l k :
  le_value (l ++ k) = le_value l + 256 ^ zlen l * le_value k.
Proof.
  induction l as [|x l IH]; cbn [le_value app].
  - change (zlen (@nil Z)) with 0. lia.
  - rewrite IH, zlen_cons, Z.pow_add_r by zlia. lia.
Qed.

Lemma le_value_range l : bytes l -> 0 <= le_value l < 256 ^ zlen l.
Proof.
  induction 1 as [|x l Hx _ IH]; cbn [le_value]; [done|].
  rewrite zlen_cons, Z.pow_add_r by zlia. unfold is_byte in Hx. lia.
Qed.

Lemma le_bytes_value l : bytes l -> le_bytes (length l) (le_value l) = l.
Proof.
  induction 1 as [|x l Hx _ IH]; simpl; [done|]. unfold is_byte in Hx.
  rewrite Z.mul_comm, Z.mod_add, Z.mod_small by lia.
  rewrite Z.div_add, Z.div_small, Z.add_0_l by lia. by rewrite IH.
Qed.

Lemma be_value_range l : bytes l -> 0 <= be_value l < 256 ^ zlen l.
Proof.
  intros. unfold be_value. pose proof (le_value_range (rev l) ltac:(by apply Forall_rev)) as Hr.
  unfold zlen in *. by rewrite length_rev in Hr.
Qed.

Lemma be_value_app l k : be_value (l ++ k) = be_value l * 256 ^ zlen k + be_value k.
Proof.
  unfold be_value. rewrite rev_app_distr, le_value_app.
  replace (zlen (rev k)) with (zlen k) by (unfold zlen; by rewrite length_rev). lia.
Qed.

Lemma be_value_bytes n x : be_value (be_bytes n x) = x mod 256 ^ Z.of_nat n.
Proof. unfold be_value, be_bytes. rewrite rev_involutive. apply le_value_bytes. Qed.

Lemma be_bytes_value l : bytes l -> be_bytes (length l) (be_value l) = l.
Proof.
  intros. unfold be_bytes, be_value. rewrite <-(length_rev l).
  rewrite le_bytes_value by (by apply Forall_rev). apply rev_involutive.
Qed.

(** Or-ing a shifted value with a value below the shift is an addition. *)
Lemma lor_shiftl_add a b n :
  0 <= n -> 0 <= b < 2 ^ n -> Z.lor (Z.shiftl a n) b = a * 2 ^ n + b.
Proof.
  intros Hn Hb. rewrite <-Z.shiftl_mul_pow2 by done.
  assert (Hl : Z.land (Z.shiftl a n) b = 0).
  { apply Z.bits_inj'. intros i Hi. rewrite Z.land_spec, Z.bits_0, Z.shiftl_spec by done.
    destruct (decide (i < n)) as [Hin|Hin].
    - by rewrite Z.testbit_neg_r by lia.
    - rewrite <-(Z.mod_small b (2 ^ n)), Z.mod_pow2_bits_high by lia. apply andb_false_r. }
  rewrite <-Z.lxor_lor by done. symmetry. by apply Z.add_nocarry_lxor.
Qed.

Lemma land_ones_mod x n : 0 <= n -> Z.land x (2 ^ n - 1) = x mod 2 ^ n.
Proof. intros. rewrite <-Z.land_ones, Z.ones_equiv by done. done. Qed.

Lemma land_255 x : Z.land x 255 = x mod 256.
Proof. apply (land_ones_mod x 8). lia. Qed.
Lemma land_65535 x : Z.land x 65535 = x mod 65536.
Proof. apply (land_ones_mod x 16). lia. Qed.

Lemma bswap16_arith x : bswap16 x = (x mod 256) * 256 + (x / 256) mod 256.
Proof.
  unfold bswap16. rewrite !land_255, Z.shiftr_div_pow2 by lia. change (2 ^ 8) with 256.
  apply lor_shiftl_add; [lia|]. apply Z.mod_pos_bound. lia.
Qed.

Lemma bswap32_arith x :
  bswap32 x = (x mod 256) * 16777216 + (x / 256) mod 256 * 65536
    + (x / 65536) mod 256 * 256 + (x / 16777216) mod 256.
Proof.
  unfold bswap32. rewrite !land_65535, Z.shiftr_div_pow2 by lia. change (2 ^ 16) with 65536.
  rewrite lor_shiftl_add; [|lia|]; rewrite ?bswap16_arith; change (2 ^ 16) with 65536.
  - Z.to_euclidean_division_equations; lia.
  - Z.to_euclidean_division_equations; lia.
Qed.

(** Compare two explicit lists element by element. *)
Ltac list_cong := repeat first [apply (f_equal2 (@cons Z)) | reflexivity].

Lemma le_bytes_htons x : le_bytes 2 (htons x) = be_bytes 2 x.
Proof.
  unfold htons. rewrite bswap16_arith. unfold be_bytes, u16. cbn [le_bytes rev app].
  list_cong; Z.to_euclidean_division_equations; lia.
Qed.

Lemma le_bytes_htonl x : le_bytes 4 (htonl x) = be_bytes 4 x.
Proof.
  unfold htonl. rewrite bswap32_arith. unfold be_bytes, u32. cbn [le_bytes rev app].
  list_cong; Z.to_euclidean_division_equations; lia.
Qed.

Lemma ntohs_le_value a b : is_byte a -> is_byte b -> ntohs (le_value [a; b]) = be_value [a; b].
Proof.
  unfold is_byte, ntohs, be_value. intros. rewrite bswap16_arith. unfold u16. cbn [le_value rev app].
  Z.to_euclidean_division_equations; lia.
Qed.

Lemma ntohl_le_value a b c d : is_byte a -> is_byte b -> is_byte c -> is_byte d ->
  ntohl (le_value [a; b; c; d]) = be_value [a; b; c; d].
Proof.
  unfold is_byte, ntohl, be_value. intros. rewrite bswap32_arith. unfold u32. cbn [le_value rev app].
  Z.to_euclidean_division_equations; lia.
Qed.
