(* ===== verification/StunTypes.v ===== *)
(** * STUN constants, enumerations and structures

    The constants of constants.h and of the enumerations StunMethod,
    StunAttribute and StunError (several names of which share a value) are
    integers; the other enumerations of stunmessage.h and stunagent.h are
    inductive types; the structures are records. *)
From S2P Require Import Prelude CMem.
Local Open Scope Z_scope.

(** ** Layout constants (constants.h) *)

Definition STUN_MESSAGE_TYPE_POS : Z := 0.
Definition STUN_MESSAGE_TYPE_LEN : Z := 2.
Definition STUN_MESSAGE_LENGTH_POS : Z := STUN_MESSAGE_TYPE_POS + STUN_MESSAGE_TYPE_LEN.
Definition STUN_MESSAGE_LENGTH_LEN : Z := 2.
Definition STUN_MESSAGE_TRANS_ID_POS : Z := STUN_MESSAGE_LENGTH_POS + STUN_MESSAGE_LENGTH_LEN.
Definition STUN_MESSAGE_TRANS_ID_LEN : Z := 16.
Definition STUN_MESSAGE_ATTRIBUTES_POS : Z := STUN_MESSAGE_TRANS_ID_POS + STUN_MESSAGE_TRANS_ID_LEN.
Definition STUN_MESSAGE_HEADER_LENGTH : Z := STUN_MESSAGE_ATTRIBUTES_POS.
Definition STUN_ATTRIBUTE_TYPE_POS : Z := 0.
Definition STUN_ATTRIBUTE_TYPE_LEN : Z := 2.
Definition STUN_ATTRIBUTE_LENGTH_POS : Z := STUN_ATTRIBUTE_TYPE_POS + STUN_ATTRIBUTE_TYPE_LEN.
Definition STUN_ATTRIBUTE_LENGTH_LEN : Z := 2.
Definition STUN_ATTRIBUTE_VALUE_POS : Z := STUN_ATTRIBUTE_LENGTH_POS + STUN_ATTRIBUTE_LENGTH_LEN.
Definition STUN_ATTRIBUTE_HEADER_LENGTH : Z := STUN_ATTRIBUTE_VALUE_POS.
Definition STUN_AGENT_MAX_SAVED_IDS : Z := 200.
Definition STUN_AGENT_MAX_UNKNOWN_ATTRIBUTES : Z := 256.
Definition STUN_MAGIC_COOKIE : Z := 0x2112A442.
Definition TURN_MAGIC_COOKIE : Z := 0x72c64bc6.

(** ** Methods, attributes and error codes (stunmessage.h) *)

Definition STUN_BINDING : Z := 0x1.
Definition STUN_SHARED_SECRET : Z := 0x2.
Definition STUN_ALLOCATE : Z := 0x3.
Definition STUN_SET_ACTIVE_DST : Z := 0x4.
Definition STUN_REFRESH : Z := 0x4.
Definition STUN_SEND : Z := 0x4.
Definition STUN_CONNECT : Z := 0x5.
Definition STUN_OLD_SET_ACTIVE_DST : Z := 0x6.
Definition STUN_IND_SEND : Z := 0x6.
Definition STUN_IND_DATA : Z := 0x7.
Definition STUN_IND_CONNECT_STATUS : Z := 0x8.
Definition STUN_CREATEPERMISSION : Z := 0x8.
Definition STUN_CHANNELBIND : Z := 0x9.

Definition STUN_ATTRIBUTE_MAPPED_ADDRESS : Z := 0x1.
Definition STUN_ATTRIBUTE_RESPONSE_ADDRESS : Z := 0x2.
Definition STUN_ATTRIBUTE_CHANGE_REQUEST : Z := 0x3.
Definition STUN_ATTRIBUTE_SOURCE_ADDRESS : Z := 0x4.
Definition STUN_ATTRIBUTE_CHANGED_ADDRESS : Z := 0x5.
Definition STUN_ATTRIBUTE_USERNAME : Z := 0x6.
Definition STUN_ATTRIBUTE_PASSWORD : Z := 0x7.
Definition STUN_ATTRIBUTE_MESSAGE_INTEGRITY : Z := 0x8.
Definition STUN_ATTRIBUTE_ERROR_CODE : Z := 0x9.
Definition STUN_ATTRIBUTE_UNKNOWN_ATTRIBUTES : Z := 0xa.
Definition STUN_ATTRIBUTE_REFLECTED_FROM : Z := 0xb.
Definition STUN_ATTRIBUTE_CHANNEL_NUMBER : Z := 0xc.
Definition STUN_ATTRIBUTE_LIFETIME : Z := 0xd.
Definition STUN_ATTRIBUTE_MS_ALTERNATE_SERVER : Z := 0xe.
Definition STUN_ATTRIBUTE_MAGIC_COOKIE : Z := 0xf.
Definition STUN_ATTRIBUTE_BANDWIDTH : Z := 0x10.
Definition STUN_ATTRIBUTE_DESTINATION_ADDRESS : Z := 0x11.
Definition STUN_ATTRIBUTE_REMOTE_ADDRESS : Z := 0x12.
Definition STUN_ATTRIBUTE_PEER_ADDRESS : Z := 0x12.
Definition STUN_ATTRIBUTE_XOR_PEER_ADDRESS : Z := 0x12.
Definition STUN_ATTRIBUTE_DATA : Z := 0x13.
Definition STUN_ATTRIBUTE_REALM : Z := 0x14.
Definition STUN_ATTRIBUTE_NONCE : Z := 0x15.
Definition STUN_ATTRIBUTE_RELAY_ADDRESS : Z := 0x16.
Definition STUN_ATTRIBUTE_RELAYED_ADDRESS : Z := 0x16.
Definition STUN_ATTRIBUTE_XOR_RELAYED_ADDRESS : Z := 0x16.
Definition STUN_ATTRIBUTE_REQUESTED_ADDRESS_TYPE : Z := 0x17.
Definition STUN_ATTRIBUTE_REQUESTED_PORT_PROPS : Z := 0x18.
Definition STUN_ATTRIBUTE_REQUESTED_PROPS : Z := 0x18.
Definition STUN_ATTRIBUTE_EVEN_PORT : Z := 0x18.
Definition STUN_ATTRIBUTE_REQUESTED_TRANSPORT : Z := 0x19.
Definition STUN_ATTRIBUTE_DONT_FRAGMENT : Z := 0x1a.
Definition STUN_ATTRIBUTE_XOR_MAPPED_ADDRESS : Z := 0x20.
Definition STUN_ATTRIBUTE_TIMER_VAL : Z := 0x21.
Definition STUN_ATTRIBUTE_REQUESTED_IP : Z := 0x22.
Definition STUN_ATTRIBUTE_RESERVATION_TOKEN : Z := 0x22.
Definition STUN_ATTRIBUTE_CONNECT_STAT : Z := 0x23.
Definition STUN_ATTRIBUTE_PRIORITY : Z := 0x24.
Definition STUN_ATTRIBUTE_USE_CANDIDATE : Z := 0x25.
Definition STUN_ATTRIBUTE_OPTIONS : Z := 0x8001.
Definition STUN_ATTRIBUTE_MS_VERSION : Z := 0x8008.
Definition STUN_ATTRIBUTE_MS_XOR_MAPPED_ADDRESS : Z := 0x8020.
Definition STUN_ATTRIBUTE_SOFTWARE : Z := 0x8022.
Definition STUN_ATTRIBUTE_ALTERNATE_SERVER : Z := 0x8023.
Definition STUN_ATTRIBUTE_FINGERPRINT : Z := 0x8028.
Definition STUN_ATTRIBUTE_ICE_CONTROLLED : Z := 0x8029.
Definition STUN_ATTRIBUTE_ICE_CONTROLLING : Z := 0x802a.
Definition STUN_ATTRIBUTE_MS_SEQUENCE_NUMBER : Z := 0x8050.
Definition STUN_ATTRIBUTE_CANDIDATE_IDENTIFIER : Z := 0x8054.
Definition STUN_ATTRIBUTE_MS_IMPLEMENTATION_VERSION : Z := 0x8070.
Definition STUN_ATTRIBUTE_NOMINATION : Z := 0xc001.

Definition STUN_ERROR_TRY_ALTERNATE : Z := 300.
Definition STUN_ERROR_BAD_REQUEST : Z := 400.
Definition STUN_ERROR_UNAUTHORIZED : Z := 401.
Definition STUN_ERROR_FORBIDDEN : Z := 403.
Definition STUN_ERROR_UNKNOWN_ATTRIBUTE : Z := 420.
Definition STUN_ERROR_ALLOCATION_MISMATCH : Z := 437.
Definition STUN_ERROR_STALE_NONCE : Z := 438.
Definition STUN_ERROR_ACT_DST_ALREADY : Z := 439.
Definition STUN_ERROR_UNSUPPORTED_FAMILY : Z := 440.
Definition STUN_ERROR_WRONG_CREDENTIALS : Z := 441.
Definition STUN_ERROR_UNSUPPORTED_TRANSPORT : Z := 442.
Definition STUN_ERROR_INVALID_IP : Z := 443.
Definition STUN_ERROR_INVALID_PORT : Z := 444.
Definition STUN_ERROR_OP_TCP_ONLY : Z := 445.
Definition STUN_ERROR_CONN_ALREADY : Z := 446.
Definition STUN_ERROR_ALLOCATION_QUOTA_REACHED : Z := 486.
Definition STUN_ERROR_ROLE_CONFLICT : Z := 487.
Definition STUN_ERROR_SERVER_ERROR : Z := 500.
Definition STUN_ERROR_SERVER_CAPACITY : Z := 507.
Definition STUN_ERROR_INSUFFICIENT_CAPACITY : Z := 508.
Definition STUN_ERROR_MAX : Z := 699.

(** The zero-terminated tables of comprehended attributes. *)
Definition STUN_ALL_KNOWN_ATTRIBUTES : list Z :=
  [ STUN_ATTRIBUTE_MAPPED_ADDRESS;
    STUN_ATTRIBUTE_RESPONSE_ADDRESS;
    STUN_ATTRIBUTE_CHANGE_REQUEST;
    STUN_ATTRIBUTE_SOURCE_ADDRESS;
    STUN_ATTRIBUTE_CHANGED_ADDRESS;
    STUN_ATTRIBUTE_USERNAME;
    STUN_ATTRIBUTE_PASSWORD;
    STUN_ATTRIBUTE_MESSAGE_INTEGRITY;
    STUN_ATTRIBUTE_ERROR_CODE;
    STUN_ATTRIBUTE_UNKNOWN_ATTRIBUTES;
    STUN_ATTRIBUTE_REFLECTED_FROM;
    STUN_ATTRIBUTE_CHANNEL_NUMBER;
    STUN_ATTRIBUTE_LIFETIME;
    STUN_ATTRIBUTE_MAGIC_COOKIE;
    STUN_ATTRIBUTE_BANDWIDTH;
    STUN_ATTRIBUTE_DESTINATION_ADDRESS;
    STUN_ATTRIBUTE_REMOTE_ADDRESS;
    STUN_ATTRIBUTE_PEER_ADDRESS;
    STUN_ATTRIBUTE_XOR_PEER_ADDRESS;
    STUN_ATTRIBUTE_DATA;
    STUN_ATTRIBUTE_REALM;
    STUN_ATTRIBUTE_NONCE;
    STUN_ATTRIBUTE_RELAY_ADDRESS;
    STUN_ATTRIBUTE_RELAYED_ADDRESS;
    STUN_ATTRIBUTE_XOR_RELAYED_ADDRESS;
    STUN_ATTRIBUTE_REQUESTED_ADDRESS_TYPE;
    STUN_ATTRIBUTE_REQUESTED_PORT_PROPS;
    STUN_ATTRIBUTE_REQUESTED_PROPS;
    STUN_ATTRIBUTE_EVEN_PORT;
    STUN_ATTRIBUTE_REQUESTED_TRANSPORT;
    STUN_ATTRIBUTE_DONT_FRAGMENT;
    STUN_ATTRIBUTE_XOR_MAPPED_ADDRESS;
    STUN_ATTRIBUTE_TIMER_VAL;
    STUN_ATTRIBUTE_REQUESTED_IP;
    STUN_ATTRIBUTE_RESERVATION_TOKEN;
    STUN_ATTRIBUTE_CONNECT_STAT;
    STUN_ATTRIBUTE_PRIORITY;
    STUN_ATTRIBUTE_USE_CANDIDATE;
    0 ].

Definition STUN_MSOC_KNOWN_ATTRIBUTES : list Z :=
  [ STUN_ATTRIBUTE_MAPPED_ADDRESS;
    STUN_ATTRIBUTE_USERNAME;
    STUN_ATTRIBUTE_MESSAGE_INTEGRITY;
    STUN_ATTRIBUTE_ERROR_CODE;
    STUN_ATTRIBUTE_UNKNOWN_ATTRIBUTES;
    STUN_ATTRIBUTE_LIFETIME;
    STUN_ATTRIBUTE_MS_ALTERNATE_SERVER;
    STUN_ATTRIBUTE_MAGIC_COOKIE;
    STUN_ATTRIBUTE_BANDWIDTH;
    STUN_ATTRIBUTE_DESTINATION_ADDRESS;
    STUN_ATTRIBUTE_REMOTE_ADDRESS;
    STUN_ATTRIBUTE_DATA;
    STUN_ATTRIBUTE_NONCE;
    STUN_ATTRIBUTE_REALM;
    0 ].

(** ** Enumerations *)

Inductive StunClass : Set := STUN_REQUEST | STUN_INDICATION | STUN_RESPONSE | STUN_ERROR.

Definition class_code (c : StunClass) : Z :=
  match c with STUN_REQUEST => 0 | STUN_INDICATION => 1 | STUN_RESPONSE => 2 | STUN_ERROR => 3 end.

(** The conversion of an integer to the enumeration; the sources only convert
    values in [0, 3]. *)
Definition class_of_code (x : Z) : StunClass :=
  if x =? 0 then STUN_REQUEST else if x =? 1 then STUN_INDICATION
  else if x =? 2 then STUN_RESPONSE else STUN_ERROR.

Inductive StunMessageReturn : Set :=
  | STUN_MESSAGE_RETURN_SUCCESS
  | STUN_MESSAGE_RETURN_NOT_FOUND
  | STUN_MESSAGE_RETURN_INVALID
  | STUN_MESSAGE_RETURN_NOT_ENOUGH_SPACE
  | STUN_MESSAGE_RETURN_UNSUPPORTED_ADDRESS.

Inductive StunCompatibility : Set :=
  | STUN_COMPATIBILITY_RFC3489
  | STUN_COMPATIBILITY_RFC5389
  | STUN_COMPATIBILITY_MSICE2
  | STUN_COMPATIBILITY_OC2007.

Inductive StunValidationStatus : Set :=
  | STUN_VALIDATION_SUCCESS
  | STUN_VALIDATION_NOT_STUN
  | STUN_VALIDATION_INCOMPLETE_STUN
  | STUN_VALIDATION_BAD_REQUEST
  | STUN_VALIDATION_UNAUTHORIZED_BAD_REQUEST
  | STUN_VALIDATION_UNAUTHORIZED
  | STUN_VALIDATION_UNMATCHED_RESPONSE
  | STUN_VALIDATION_UNKNOWN_REQUEST_ATTRIBUTE
  | STUN_VALIDATION_UNKNOWN_ATTRIBUTE
  | STUN_VALIDATION_FORBIDDEN.

#[global] Instance StunClass_eq_dec : EqDecision StunClass.
Proof. solve_decision. Defined.
#[global] Instance StunMessageReturn_eq_dec : EqDecision StunMessageReturn.
Proof. solve_decision. Defined.
#[global] Instance StunCompatibility_eq_dec : EqDecision StunCompatibility.
Proof. solve_decision. Defined.
#[global] Instance StunValidationStatus_eq_dec : EqDecision StunValidationStatus.
Proof. solve_decision. Defined.

(** Usage flags of an agent, a bit set. *)
Definition STUN_AGENT_USAGE_SHORT_TERM_CREDENTIALS : Z := Z.shiftl 1 0.
Definition STUN_AGENT_USAGE_LONG_TERM_CREDENTIALS : Z := Z.shiftl 1 1.
Definition STUN_AGENT_USAGE_USE_FINGERPRINT : Z := Z.shiftl 1 2.
Definition STUN_AGENT_USAGE_ADD_SOFTWARE : Z := Z.shiftl 1 3.
Definition STUN_AGENT_USAGE_IGNORE_CREDENTIALS : Z := Z.shiftl 1 4.
Definition STUN_AGENT_USAGE_NO_INDICATION_AUTH : Z := Z.shiftl 1 5.
Definition STUN_AGENT_USAGE_FORCE_VALIDATER : Z := Z.shiftl 1 6.
Definition STUN_AGENT_USAGE_NO_ALIGNED_ATTRIBUTES : Z := Z.shiftl 1 7.
Definition STUN_AGENT_USAGE_CONSENT_FRESHNESS : Z := Z.shiftl 1 8.

(** ** Structures

    Message operations read only [compatibility] and [usage_flags] of the
    agent a message points to, and these two fields are written only by
    [stun_agent_init]; a message carries them as [StunAgentInfo].  A key
    pointer and its length, which the sources always copy together, are one
    optional list of bytes. *)
Record StunAgentInfo : Set := mkAgentInfo {
  compatibility : StunCompatibility;
  usage_flags : Z
}.

Record StunMessage : Set := mkMessage {
  agent : option StunAgentInfo;
  buffer : list Z;            (** the object [msg->buffer] points to *)
  buffer_len : Z;
  key : option (list Z);
  long_term_key : list Z;
  long_term_valid : bool
}.

Record StunAgentSavedIds : Set := mkSavedId {
  si_id : list Z;
  si_method : Z;
  si_key : option (list Z);
  si_long_term_key : list Z;
  si_long_term_valid : bool;
  si_valid : bool
}.

Record StunAgent : Set := mkAgent {
  ag_info : StunAgentInfo;
  ag_sent_ids : list StunAgentSavedIds;
  ag_known_attributes : list Z;
  ag_software_attribute : option (list Z);
  ag_ms_ice2_send_legacy_connchecks : bool
}.

Record StunInputVector : Set := mkInputVector {
  iv_buffer : option (list Z);   (** [None] is the null pointer *)
  iv_size : Z
}.

(** [struct sockaddr_storage] as the sources use it: by address family, with
    the integers in the byte order they have in memory. *)
Inductive sockaddr : Set :=
  | sockaddr_in (sin_port : Z) (s_addr : Z)
  | sockaddr_in6 (sin6_port sin6_flowinfo : Z) (s6_addr : list Z) (sin6_scope_id : Z)
  | sockaddr_other (sa_family : Z).

(** [sizeof] of the address structures. *)
Definition sizeof_sockaddr : Z := 16.
Definition sizeof_sockaddr_in : Z := 16.
Definition sizeof_sockaddr_in6 : Z := 28.
Definition sizeof_sockaddr_storage : Z := 128.

Definition set_buffer (m : StunMessage) (b : list Z) : StunMessage :=
  mkMessage (agent m) b (buffer_len m) (key m) (long_term_key m) (long_term_valid m).

Definition has_flag (a : StunAgentInfo) (f : Z) : bool := flag (usage_flags a) f.

(** Replace the layout constants by their values. *)
Ltac layout :=
  unfold STUN_MESSAGE_HEADER_LENGTH, STUN_MESSAGE_ATTRIBUTES_POS, STUN_MESSAGE_TRANS_ID_POS,
    STUN_MESSAGE_TRANS_ID_LEN, STUN_MESSAGE_LENGTH_POS, STUN_MESSAGE_LENGTH_LEN,
    STUN_MESSAGE_TYPE_POS, STUN_MESSAGE_TYPE_LEN, STUN_ATTRIBUTE_HEADER_LENGTH,
    STUN_ATTRIBUTE_VALUE_POS, STUN_ATTRIBUTE_LENGTH_POS, STUN_ATTRIBUTE_LENGTH_LEN,
    STUN_ATTRIBUTE_TYPE_POS, STUN_ATTRIBUTE_TYPE_LEN in *.

(** * stun/utils.c: alignment, 16-bit fields, message types, address masking *)

(** ** Operations *)

Definition stun_padding (l : Z) : Z := Z.land (4 - Z.land l 3) 3.

Definition stun_align (l : Z) : Z := u64 (Z.land (l + 3) (Z.lnot 3)).

(** [stun_getw (b + off)] *)
Definition stun_getw (b : list Z) (off : Z) : res Z :=
  x ← rd b off; y ← rd b (off + 1); Ok (u16 (Z.lor (Z.shiftl x 8) y)).

(** [stun_setw (b + off, value)]; the returned pointer is [off + 2]. *)
Definition stun_setw (b : list Z) (off value : Z) : res (list Z) :=
  b ← wr b off (Z.shiftr (u16 value) 8);
  wr b (off + 1) (Z.land (u16 value) 255).

Definition stun_set_type (h : list Z) (c : StunClass) (m : Z) : res (list Z) :=
  let c := class_code c in
  h ← wr h 0 (Z.lor (Z.shiftr c 1) (Z.land (Z.shiftr m 6) 0x3e));
  wr h 1 (Z.lor (Z.lor (Z.land (Z.shiftl c 4) 0x10) (Z.land (Z.shiftl m 1) 0xe0))
            (Z.land m 0x0f)).

Definition stun_xor_address (msg : StunMessage) (addr : sockaddr) (addrlen magic_cookie : Z)
    : res (StunMessageReturn * sockaddr) :=
  match addr with
  | sockaddr_in port a =>
      if addrlen <? sizeof_sockaddr_in then Ok (STUN_MESSAGE_RETURN_INVALID, addr)
      else Ok (STUN_MESSAGE_RETURN_SUCCESS,
               sockaddr_in (Z.lxor port (htons (Z.shiftr magic_cookie 16)))
                           (Z.lxor a (htonl magic_cookie)))
  | sockaddr_in6 port flow a scope =>
      if addrlen <? sizeof_sockaddr_in6 then Ok (STUN_MESSAGE_RETURN_INVALID, addr)
      else
        mask ← rd_bytes (buffer msg) 4 16;
        Ok (STUN_MESSAGE_RETURN_SUCCESS,
            sockaddr_in6 (Z.lxor port (htons (Z.shiftr magic_cookie 16))) flow
                         (zip_with Z.lxor a mask) scope)
  | sockaddr_other _ => Ok (STUN_MESSAGE_RETURN_UNSUPPORTED_ADDRESS, addr)
  end.

(** ** Lemmas *)

Lemma land_3 x : Z.land x 3 = x mod 4.
Proof. apply (land_ones_mod x 2). lia. Qed.

Lemma stun_padding_arith l : stun_padding l = (- l) mod 4.
Proof. unfold stun_padding. rewrite !land_3. Z.to_euclidean_division_equations; lia. Qed.

Lemma land_lnot_3 x : Z.land x (Z.lnot 3) = x - x mod 4.
Proof.
  rewrite <-land_3. change (Z.land x (Z.lnot 3)) with (Z.ldiff x 3).
  pose proof (Z.sub_nocarry_ldiff x (Z.land x 3)) as H.
  rewrite H.
  - apply Z.bits_inj'. intros i Hi. rewrite !Z.ldiff_spec, Z.land_spec.
    by destruct (Z.testbit x i), (Z.testbit 3 i).
  - apply Z.bits_inj'. intros i Hi. rewrite Z.ldiff_spec, Z.land_spec, Z.bits_0.
    by destruct (Z.testbit x i), (Z.testbit 3 i).
Qed.

Lemma stun_align_arith l :
  0 <= l < 2 ^ 63 -> stun_align l = l + stun_padding l.
Proof.
  intros. unfold stun_align. rewrite land_lnot_3, stun_padding_arith, u64_small;
    Z.to_euclidean_division_equations; lia.
Qed.

(** The size arithmetic every STUN length goes through: the padding is less
    than a word, and the aligned length is the least multiple of four that is
    not below the length. *)
Lemma stun_padding_range l : 0 <= stun_padding l < 4.
Proof. rewrite stun_padding_arith. apply Z.mod_pos_bound. lia. Qed.

Lemma stun_padding_mod4 l : l mod 4 = 0 -> stun_padding l = 0.
Proof. rewrite stun_padding_arith. Z.to_euclidean_division_equations; lia. Qed.

Lemma stun_padding_add l : (l + stun_padding l) mod 4 = 0.
Proof. rewrite stun_padding_arith. Z.to_euclidean_division_equations; lia. Qed.

#[export] Hint Resolve stun_padding_range : cint.

Lemma stun_getw_cons l x y r :
  is_byte x -> is_byte y -> stun_getw (l ++ x :: y :: r) (zlen l) = Ok (x * 256 + y).
Proof.
  unfold is_byte. intros Hx Hy. unfold stun_getw.
  replace (zlen l) with (zlen l + 0) at 1 by lia. rewrite !rd_app_r by lia.
  rewrite rd_hd, rd_tl by lia. rewrite rd_hd. simpl. rewrite lor_shiftl_add by lia.
  rewrite u16_small by lia. done.
Qed.

Lemma stun_getw_Ok b off :
  bytes b -> 0 <= off -> off + 2 <= zlen b ->
  exists x, stun_getw b off = Ok x /\ 0 <= x < 65536.
Proof.
  intros Hb ??. unfold stun_getw. rewrite !rd_Ok by lia. cbn. eexists; split; [done|].
  apply u16_range.
Qed.

Lemma wr_splice b i v : 0 <= i < zlen b -> wr b i v = Ok (splice b i [u8 v]).
Proof. intros. unfold wr. rewrite wr_bytes_Ok; zlia || done. Qed.

Lemma wr_app l x v r : wr (l ++ x :: r) (zlen l) v = Ok (l ++ u8 v :: r).
Proof.
  rewrite wr_splice by zlia. f_equal.
  exact (splice_app l [x] [u8 v] r eq_refl).
Qed.

(** [stun_setw] stores the value in network order. *)
Lemma stun_setw_app l x y v r :
  stun_setw (l ++ x :: y :: r) (zlen l) v = Ok (l ++ be_bytes 2 v ++ r).
Proof.
  unfold stun_setw. rewrite wr_app. cbn.
  replace (l ++ u8 (u16 v ≫ 8) :: y :: r) with ((l ++ [u8 (u16 v ≫ 8)]) ++ y :: r)
    by (by rewrite <-app_assoc).
  replace (zlen l + 1) with (zlen (l ++ [u8 (u16 v ≫ 8)])) by zlia.
  rewrite wr_app. f_equal. rewrite <-app_assoc. f_equal. unfold be_bytes. cbn [rev le_bytes app].
  rewrite Z.shiftr_div_pow2, land_255 by lia. change (2 ^ 8) with 256. unfold u8, u16.
  list_cong; Z.to_euclidean_division_equations; lia.
Qed.

Lemma be_bytes_2 v : be_bytes 2 v = [(v / 256) mod 256; v mod 256].
Proof. reflexivity. Qed.

(** Reading back a 16-bit field. *)
Lemma stun_getw_be l v r :
  0 <= v < 65536 -> stun_getw (l ++ be_bytes 2 v ++ r) (zlen l) = Ok v.
Proof.
  intros. rewrite be_bytes_2. cbn [app]. rewrite stun_getw_cons.
  - f_equal. Z.to_euclidean_division_equations; lia.
  - unfold is_byte. apply Z.mod_pos_bound. lia.
  - unfold is_byte. apply Z.mod_pos_bound. lia.
Qed.

(** The same facts for a position given by a decomposition of the buffer. *)
Lemma stun_setw_eq b l x y r off v :
  b = l ++ x :: y :: r -> off = zlen l -> stun_setw b off v = Ok (l ++ be_bytes 2 v ++ r).
Proof. intros -> ->. apply stun_setw_app. Qed.

Lemma stun_getw_eq b l v r off :
  b = l ++ be_bytes 2 v ++ r -> off = zlen l -> 0 <= v < 65536 -> stun_getw b off = Ok v.
Proof. intros -> ->. apply stun_getw_be. Qed.

Lemma wr_eq b l x r i v : b = l ++ x :: r -> i = zlen l -> wr b i v = Ok (l ++ u8 v :: r).
Proof. intros -> ->. apply wr_app. Qed.

(** Equality of concatenations up to associativity. *)
Ltac lassoc := rewrite ?be_bytes_2; repeat (rewrite <-app_assoc); cbn [app]; reflexivity.
