(* ===== verification/StunMessage.v ===== *)
(** * stun/stunmessage.c (and the two message functions of stun/stun5389.c)

    A function that returns a pointer into [msg->buffer] returns its offset;
    an output parameter that may be left unset is an [option]; a function that
    stores into the message returns the message after the stores. *)
From Stdlib Require Import String Ascii.
From S2P Require Import Prelude CMem StunTypes.
#[local] Open Scope Z_scope.

(** The bytes of a string literal, without its terminator. *)
Fixpoint cstr (s : string) : list Z :=
  match s with
  | EmptyString => []
  | String c s => Z.of_N (N_of_ascii c) :: cstr s
  end.

(** ** Header *)

Definition stun_message_init (msg : StunMessage) (c : StunClass) (m : Z) (id : list Z)
    : res (bool * StunMessage) :=
  if buffer_len msg <? STUN_MESSAGE_HEADER_LENGTH then Ok (false, msg)
  else
    b ← memset (buffer msg) 0 0 4;
    b ← stun_set_type b c m;
    id ← rd_bytes id 0 STUN_MESSAGE_TRANS_ID_LEN;
    b ← wr_bytes b STUN_MESSAGE_TRANS_ID_POS id;
    Ok (true, set_buffer msg b).

Definition stun_message_length (msg : StunMessage) : res Z :=
  l ← stun_getw (buffer msg) STUN_MESSAGE_LENGTH_POS;
  Ok (u16 (l + STUN_MESSAGE_HEADER_LENGTH)).

Definition stun_message_id (msg : StunMessage) : res (list Z) :=
  rd_bytes (buffer msg) STUN_MESSAGE_TRANS_ID_POS STUN_MESSAGE_TRANS_ID_LEN.

(** The google/msn data indication 0x0115 is read as 0x0017. *)
Definition type_hack (t : Z) : Z := if t =? 0x0115 then 0x0017 else t.

Definition stun_message_get_method (msg : StunMessage) : res Z :=
  t ← stun_getw (buffer msg) 0;
  let t := type_hack t in
  Ok (Z.lor (Z.lor (Z.shiftr (Z.land t 0x3e00) 2) (Z.shiftr (Z.land t 0x00e0) 1))
            (Z.land t 0x000f)).

Definition stun_message_get_class (msg : StunMessage) : res StunClass :=
  t ← stun_getw (buffer msg) 0;
  let t := type_hack t in
  Ok (class_of_code (Z.lor (Z.shiftr (Z.land t 0x0100) 7) (Z.shiftr (Z.land t 0x0010) 4))).

(** stun5389.c: the first four bytes of the transaction id against the
    network-order cookie. *)
Definition stun_message_has_cookie (msg : StunMessage) : res bool :=
  id ← stun_message_id msg;
  Ok (bool_decide (take 4 id = le_bytes 4 (htonl STUN_MAGIC_COOKIE))).

Definition stun_optional (t : Z) : bool := Z.shiftr t 15 =? 1.

(** ** Looking up attributes *)

Definition is_oc2007 (msg : StunMessage) : bool :=
  match agent msg with
  | Some a => bool_decide (compatibility a = STUN_COMPATIBILITY_OC2007)
  | None => false
  end.

(** In MS-TURN the types of REALM and NONCE are swapped. *)
Definition swap_realm_nonce (msg : StunMessage) (type : Z) : Z :=
  if is_oc2007 msg then
    if type =? STUN_ATTRIBUTE_REALM then STUN_ATTRIBUTE_NONCE
    else if type =? STUN_ATTRIBUTE_NONCE then STUN_ATTRIBUTE_REALM else type
  else type.

Definition no_aligned (msg : StunMessage) : bool :=
  match agent msg with
  | Some a => has_flag a STUN_AGENT_USAGE_NO_ALIGNED_ATTRIBUTES
  | None => false
  end.

(** The [while] loop of [stun_message_find], from [offset]. *)
Fixpoint find_loop (fuel : nat) (msg : StunMessage) (type length offset : Z)
    : res (option (Z * Z)) :=
  if negb (offset <? length) then Ok None
  else match fuel with
  | O => Fault OutOfFuel
  | S fuel =>
      atype ← stun_getw (buffer msg) offset;
      alen ← stun_getw (buffer msg) (offset + STUN_ATTRIBUTE_TYPE_LEN);
      let offset := offset + STUN_ATTRIBUTE_VALUE_POS in
      if atype =? type then Ok (Some (offset, alen))
      else if (atype =? STUN_ATTRIBUTE_MESSAGE_INTEGRITY)
              && negb (type =? STUN_ATTRIBUTE_FINGERPRINT) then Ok None
      else if atype =? STUN_ATTRIBUTE_FINGERPRINT then Ok None
      else
        let alen := if no_aligned msg then alen else stun_align alen in
        find_loop fuel msg type length (offset + alen)
  end.

(** The offset and length of the attribute's value, [None] for [NULL].  Each
    iteration advances by at least four bytes: [length] iterations suffice. *)
Definition stun_message_find (msg : StunMessage) (type : Z) : res (option (Z * Z)) :=
  length ← stun_message_length msg;
  find_loop (Z.to_nat length) msg (swap_realm_nonce msg type) length STUN_MESSAGE_ATTRIBUTES_POS.

Definition stun_message_has_attribute (msg : StunMessage) (type : Z) : res bool :=
  r ← stun_message_find msg type; Ok (match r with Some _ => true | None => false end).

Definition stun_message_find_flag (msg : StunMessage) (type : Z) : res StunMessageReturn :=
  r ← stun_message_find msg type;
  match r with
  | None => Ok STUN_MESSAGE_RETURN_NOT_FOUND
  | Some (_, len) =>
      Ok (if len =? 0 then STUN_MESSAGE_RETURN_SUCCESS else STUN_MESSAGE_RETURN_INVALID)
  end.

Definition stun_message_find32 (msg : StunMessage) (type : Z)
    : res (StunMessageReturn * option Z) :=
  r ← stun_message_find msg type;
  match r with
  | None => Ok (STUN_MESSAGE_RETURN_NOT_FOUND, None)
  | Some (ptr, len) =>
      if len =? 4 then
        v ← rd_bytes (buffer msg) ptr 4;
        Ok (STUN_MESSAGE_RETURN_SUCCESS, Some (ntohl (le_value v)))
      else Ok (STUN_MESSAGE_RETURN_INVALID, None)
  end.

Definition stun_message_find64 (msg : StunMessage) (type : Z)
    : res (StunMessageReturn * option Z) :=
  r ← stun_message_find msg type;
  match r with
  | None => Ok (STUN_MESSAGE_RETURN_NOT_FOUND, None)
  | Some (ptr, len) =>
      if len =? 8 then
        t0 ← rd_bytes (buffer msg) ptr 4;
        t1 ← rd_bytes (buffer msg) (ptr + 4) 4;
        Ok (STUN_MESSAGE_RETURN_SUCCESS,
            Some (Z.lor (Z.shiftl (ntohl (le_value t0)) 32) (ntohl (le_value t1))))
      else Ok (STUN_MESSAGE_RETURN_INVALID, None)
  end.

(** [buf] is the caller's object of at least [buflen] characters. *)
Definition stun_message_find_string (msg : StunMessage) (type : Z) (buf : list Z) (buflen : Z)
    : res (StunMessageReturn * list Z) :=
  r ← stun_message_find msg type;
  match r with
  | None => Ok (STUN_MESSAGE_RETURN_NOT_FOUND, buf)
  | Some (ptr, len) =>
      if buflen <=? len then Ok (STUN_MESSAGE_RETURN_NOT_ENOUGH_SPACE, buf)
      else
        s ← rd_bytes (buffer msg) ptr len;
        buf ← wr_bytes buf 0 s;
        buf ← wr buf len 0;
        Ok (STUN_MESSAGE_RETURN_SUCCESS, buf)
  end.

(** Returns the status, [*addr] and [*addrlen]. *)
Definition stun_message_find_addr (msg : StunMessage) (type : Z) (addr : sockaddr) (addrlen : Z)
    : res (StunMessageReturn * sockaddr * Z) :=
  r ← stun_message_find msg type;
  match r with
  | None => Ok (STUN_MESSAGE_RETURN_NOT_FOUND, addr, addrlen)
  | Some (ptr, len) =>
      if len <? 4 then Ok (STUN_MESSAGE_RETURN_INVALID, addr, addrlen)
      else
        family ← rd (buffer msg) (ptr + 1);
        if family =? 1 then
          if (addrlen <? sizeof_sockaddr_in) || negb (len =? 8) then
            Ok (STUN_MESSAGE_RETURN_INVALID, addr, sizeof_sockaddr_in)
          else if sizeof_sockaddr_storage <? addrlen then Fault OutOfBounds
          else
            p ← rd_bytes (buffer msg) (ptr + 2) 2;
            a ← rd_bytes (buffer msg) (ptr + 4) 4;
            Ok (STUN_MESSAGE_RETURN_SUCCESS, sockaddr_in (le_value p) (le_value a),
                sizeof_sockaddr_in)
        else if family =? 2 then
          if (addrlen <? sizeof_sockaddr_in6) || negb (len =? 20) then
            Ok (STUN_MESSAGE_RETURN_INVALID, addr, sizeof_sockaddr_in6)
          else if sizeof_sockaddr_storage <? addrlen then Fault OutOfBounds
          else
            p ← rd_bytes (buffer msg) (ptr + 2) 2;
            a ← rd_bytes (buffer msg) (ptr + 4) 16;
            Ok (STUN_MESSAGE_RETURN_SUCCESS, sockaddr_in6 (le_value p) 0 a 0,
                sizeof_sockaddr_in6)
        else Ok (STUN_MESSAGE_RETURN_UNSUPPORTED_ADDRESS, addr, addrlen)
  end.

Definition stun_message_find_xor_addr_full (msg : StunMessage) (type : Z) (addr : sockaddr)
    (addrlen magic_cookie : Z) : res (StunMessageReturn * sockaddr * Z) :=
  '(val, addr, addrlen) ← stun_message_find_addr msg type addr addrlen;
  match val with
  | STUN_MESSAGE_RETURN_SUCCESS =>
      '(val, addr) ← stun_xor_address msg addr addrlen magic_cookie;
      Ok (val, addr, addrlen)
  | _ => Ok (val, addr, addrlen)
  end.

Definition stun_message_find_xor_addr (msg : StunMessage) (type : Z) (addr : sockaddr)
    (addrlen : Z) : res (StunMessageReturn * sockaddr * Z) :=
  '(val, addr, addrlen) ← stun_message_find_addr msg type addr addrlen;
  match val with
  | STUN_MESSAGE_RETURN_SUCCESS =>
      '(val, addr) ← stun_xor_address msg addr addrlen STUN_MAGIC_COOKIE;
      Ok (val, addr, addrlen)
  | _ => Ok (val, addr, addrlen)
  end.

Definition stun_message_find_error (msg : StunMessage) : res (StunMessageReturn * option Z) :=
  r ← stun_message_find msg STUN_ATTRIBUTE_ERROR_CODE;
  match r with
  | None => Ok (STUN_MESSAGE_RETURN_NOT_FOUND, None)
  | Some (ptr, alen) =>
      if alen <? 4 then Ok (STUN_MESSAGE_RETURN_INVALID, None)
      else
        c ← rd (buffer msg) (ptr + 2);
        let class := Z.land c 0x7 in
        number ← rd (buffer msg) (ptr + 3);
        if (class <? 3) || (6 <? class) || (99 <? number) then
          Ok (STUN_MESSAGE_RETURN_INVALID, None)
        else Ok (STUN_MESSAGE_RETURN_SUCCESS, Some (class * 100 + number))
  end.

(** ** Appending attributes *)

(** Returns the offset of the value of the new attribute, [None] for [NULL]. *)
Definition stun_message_append (msg : StunMessage) (type length : Z)
    : res (option Z * StunMessage) :=
  mlen ← stun_message_length msg;
  let type := swap_realm_nonce msg type in
  if buffer_len msg <? u64 (mlen + STUN_ATTRIBUTE_HEADER_LENGTH + length) then Ok (None, msg)
  else
    b ← stun_setw (buffer msg) mlen type;
    let a := mlen + 4 in
    '(b, mlen) ←
      (if no_aligned msg then b ← stun_setw b (mlen + 2) length; Ok (b, mlen)
       else
         cookie ← stun_message_has_cookie (set_buffer msg b);
         b ← stun_setw b (mlen + 2) (if cookie : bool then length else stun_align length);
         if 0 <? stun_padding length then
           b ← memset b (a + length) 0 (stun_padding length);
           Ok (b, u16 (mlen + stun_padding length))
         else Ok (b, mlen));
    let mlen := u16 (mlen + (4 + length)) in
    b ← stun_setw b STUN_MESSAGE_LENGTH_POS (mlen - STUN_MESSAGE_HEADER_LENGTH);
    Ok (Some a, set_buffer msg b).

Definition stun_message_append_bytes (msg : StunMessage) (type : Z) (data : list Z)
    : res (StunMessageReturn * StunMessage) :=
  '(ptr, msg) ← stun_message_append msg type (zlen data);
  match ptr with
  | None => Ok (STUN_MESSAGE_RETURN_NOT_ENOUGH_SPACE, msg)
  | Some ptr =>
      if 0 <? zlen data then
        b ← wr_bytes (buffer msg) ptr data;
        Ok (STUN_MESSAGE_RETURN_SUCCESS, set_buffer msg b)
      else Ok (STUN_MESSAGE_RETURN_SUCCESS, msg)
  end.

Definition stun_message_append_flag (msg : StunMessage) (type : Z)
    : res (StunMessageReturn * StunMessage) := stun_message_append_bytes msg type [].

Definition stun_message_append32 (msg : StunMessage) (type value : Z)
    : res (StunMessageReturn * StunMessage) :=
  stun_message_append_bytes msg type (le_bytes 4 (htonl value)).

Definition stun_message_append64 (msg : StunMessage) (type value : Z)
    : res (StunMessageReturn * StunMessage) :=
  stun_message_append_bytes msg type
    (le_bytes 4 (htonl (u32 (Z.shiftr value 32))) ++ le_bytes 4 (htonl (u32 value))).

(** [str] is the contents of the string, up to its terminator. *)
Definition stun_message_append_string (msg : StunMessage) (type : Z) (str : list Z)
    : res (StunMessageReturn * StunMessage) := stun_message_append_bytes msg type str.

Definition stun_message_append_addr (msg : StunMessage) (type : Z) (addr : sockaddr) (addrlen : Z)
    : res (StunMessageReturn * StunMessage) :=
  if addrlen <? sizeof_sockaddr then Ok (STUN_MESSAGE_RETURN_INVALID, msg)
  else
    let put family port pa :=
      '(ptr, msg) ← stun_message_append msg type (4 + zlen pa);
      match ptr with
      | None => Ok (STUN_MESSAGE_RETURN_NOT_ENOUGH_SPACE, msg)
      | Some ptr =>
          b ← wr (buffer msg) ptr 0;
          b ← wr b (ptr + 1) family;
          b ← wr_bytes b (ptr + 2) (le_bytes 2 port);
          b ← wr_bytes b (ptr + 4) pa;
          Ok (STUN_MESSAGE_RETURN_SUCCESS, set_buffer msg b)
      end in
    match addr with
    | sockaddr_in port a => put 1 port (le_bytes 4 a)
    | sockaddr_in6 port _ a _ =>
        if addrlen <? sizeof_sockaddr_in6 then Ok (STUN_MESSAGE_RETURN_INVALID, msg)
        else put 2 port a
    | sockaddr_other _ => Ok (STUN_MESSAGE_RETURN_UNSUPPORTED_ADDRESS, msg)
    end.

Definition stun_message_append_xor_addr_full (msg : StunMessage) (type : Z) (addr : sockaddr)
    (addrlen magic_cookie : Z) : res (StunMessageReturn * StunMessage) :=
  let addrlen := if sizeof_sockaddr_storage <? addrlen then sizeof_sockaddr_storage else addrlen in
  if addrlen <? 2 then Fault Uninitialised   (* [tmpaddr.ss_family] was not copied *)
  else
    '(val, tmpaddr) ← stun_xor_address msg addr addrlen magic_cookie;
    match val with
    | STUN_MESSAGE_RETURN_SUCCESS => stun_message_append_addr msg type tmpaddr addrlen
    | _ => Ok (val, msg)
    end.

Definition stun_message_append_xor_addr (msg : StunMessage) (type : Z) (addr : sockaddr)
    (addrlen : Z) : res (StunMessageReturn * StunMessage) :=
  let addrlen := if sizeof_sockaddr_storage <? addrlen then sizeof_sockaddr_storage else addrlen in
  if addrlen <? 2 then Fault Uninitialised
  else
    '(val, tmpaddr) ← stun_xor_address msg addr addrlen STUN_MAGIC_COOKIE;
    match val with
    | STUN_MESSAGE_RETURN_SUCCESS => stun_message_append_addr msg type tmpaddr addrlen
    | _ => Ok (val, msg)
    end.

Definition strerror_tab : list (Z * string) :=
  [ (STUN_ERROR_TRY_ALTERNATE, "Try alternate server");
    (STUN_ERROR_BAD_REQUEST, "Bad request");
    (STUN_ERROR_UNAUTHORIZED, "Unauthorized");
    (STUN_ERROR_UNKNOWN_ATTRIBUTE, "Unknown Attribute");
    (STUN_ERROR_ALLOCATION_MISMATCH, "Allocation Mismatch");
    (STUN_ERROR_STALE_NONCE, "Stale Nonce");
    (STUN_ERROR_ACT_DST_ALREADY, "Active Destination Already Set");
    (STUN_ERROR_UNSUPPORTED_FAMILY, "Address Family not Supported");
    (STUN_ERROR_UNSUPPORTED_TRANSPORT, "Unsupported Transport Protocol");
    (STUN_ERROR_INVALID_IP, "Invalid IP Address");
    (STUN_ERROR_INVALID_PORT, "Invalid Port");
    (STUN_ERROR_OP_TCP_ONLY, "Operation for TCP Only");
    (STUN_ERROR_CONN_ALREADY, "Connection Already Exists");
    (STUN_ERROR_ALLOCATION_QUOTA_REACHED, "Allocation Quota Reached");
    (STUN_ERROR_ROLE_CONFLICT, "Role conflict");
    (STUN_ERROR_SERVER_ERROR, "Server Error");
    (STUN_ERROR_SERVER_CAPACITY, "Insufficient Capacity");
    (STUN_ERROR_INSUFFICIENT_CAPACITY, "Insufficient Capacity") ]%string.

Definition stun_strerror (code : Z) : list Z :=
  match List.find (fun '(c, _) => c =? code) strerror_tab with
  | Some (_, phrase) => cstr phrase
  | None => cstr "Unknown error"
  end.

Definition stun_message_append_error (msg : StunMessage) (code : Z)
    : res (StunMessageReturn * StunMessage) :=
  let str := stun_strerror code in
  let len := zlen str in
  '(ptr, msg) ← stun_message_append msg STUN_ATTRIBUTE_ERROR_CODE (4 + len);
  match ptr with
  | None => Ok (STUN_MESSAGE_RETURN_NOT_ENOUGH_SPACE, msg)
  | Some ptr =>
      b ← memset (buffer msg) ptr 0 2;
      b ← wr b (ptr + 2) (Z.quot code 100);
      b ← wr b (ptr + 3) (Z.rem code 100);
      b ← wr_bytes b (ptr + 4) str;
      Ok (STUN_MESSAGE_RETURN_SUCCESS, set_buffer msg b)
  end.

(** stun5389.c: [utf8_skip_data], by runs. *)
Definition utf8_skip_data : list Z :=
  replicate 192 1 ++ replicate 32 2 ++ replicate 16 3 ++ replicate 8 4 ++ replicate 4 5
    ++ [6; 6; 1; 1].

(** The loop of [stun_message_append_software] over [software], an object that
    ends with the terminator; [len] counts characters. *)
Fixpoint software_loop (fuel : nat) (software : list Z) (ptr len : Z) : res Z :=
  c ← rd software ptr;
  if negb (c =? 0) && (len <? 128) then
    match fuel with
    | O => Fault OutOfFuel
    | S fuel =>
        skip ← rd utf8_skip_data c;
        software_loop fuel software (ptr + skip) (len + 1)
    end
  else Ok ptr.

(** [package_string] is the build's [PACKAGE_STRING]. *)
Definition stun_message_append_software (package_string : list Z) (msg : StunMessage)
    (software : option (list Z)) : res (StunMessageReturn * StunMessage) :=
  let software := (match software with Some s => s | None => package_string end) ++ [0] in
  ptr ← software_loop 128 software 0 0;
  s ← rd_bytes software 0 ptr;
  stun_message_append_bytes msg STUN_ATTRIBUTE_SOFTWARE s.

(** ** Validating the framing of a received buffer *)

Definition STUN_MESSAGE_BUFFER_INCOMPLETE : Z := 0.
Definition STUN_MESSAGE_BUFFER_INVALID : Z := -1.

Definition vec_at (buffers : list StunInputVector) (i : nat) : res StunInputVector :=
  match buffers !! i with Some v => Ok v | None => Fault OutOfBounds end.

(** [buffers[i].buffer + off], loaded. *)
Definition vec_rd (v : StunInputVector) (off : Z) : res Z :=
  match iv_buffer v with Some b => rd b off | None => Fault OutOfBounds end.

(** The "skip bytes" loop; returns [i] and [skip_remaining]. *)
Fixpoint skip_loop (fuel : nat) (buffers : list StunInputVector) (n_buffers : Z) (i : nat)
    (skip_remaining : Z) : res (nat * Z) :=
  more ← (if 0 <=? n_buffers then Ok (Z.of_nat i <? n_buffers)
          else v ← vec_at buffers i;
               Ok (match iv_buffer v with Some _ => true | None => false end));
  if negb more then Ok (i, skip_remaining)
  else match fuel with
  | O => Fault OutOfFuel
  | S fuel =>
      v ← vec_at buffers i;
      if iv_size v <=? skip_remaining then
        skip_loop fuel buffers n_buffers (S i) (skip_remaining - iv_size v)
      else Ok (i, skip_remaining)
  end.

Definition stun_message_validate_buffer_length_fast (buffers : list StunInputVector)
    (n_buffers total_length : Z) (has_padding : bool) : res Z :=
  if (total_length <? 1) || (n_buffers =? 0) then Ok STUN_MESSAGE_BUFFER_INVALID else
  v0 ← vec_at buffers 0;
  match iv_buffer v0 with
  | None => Ok STUN_MESSAGE_BUFFER_INVALID
  | Some b0 =>
      x ← rd b0 0;
      if negb (Z.shiftr x 6 =? 0) then Ok STUN_MESSAGE_BUFFER_INVALID
      else if total_length <? STUN_MESSAGE_LENGTH_POS + STUN_MESSAGE_LENGTH_LEN then
        Ok STUN_MESSAGE_BUFFER_INCOMPLETE
      else
        mlen ←
          (if STUN_MESSAGE_LENGTH_POS + STUN_MESSAGE_LENGTH_LEN <=? iv_size v0 then
             stun_getw b0 STUN_MESSAGE_LENGTH_POS
           else
             '(i, skip_remaining) ←
               skip_loop (length buffers) buffers n_buffers 0 STUN_MESSAGE_LENGTH_POS;
             v ← vec_at buffers i;
             if 1 <? u64 (iv_size v - skip_remaining) then
               match iv_buffer v with
               | Some b => stun_getw b skip_remaining
               | None => Fault OutOfBounds
               end
             else
               x ← vec_rd v skip_remaining;
               v' ← vec_at buffers (S i);
               y ← vec_rd v' 0;
               Ok (Z.lor (Z.shiftl x 8) y));
        let mlen := mlen + STUN_MESSAGE_HEADER_LENGTH in
        if has_padding && negb (stun_padding mlen =? 0) then Ok STUN_MESSAGE_BUFFER_INVALID
        else if total_length <? mlen then Ok STUN_MESSAGE_BUFFER_INCOMPLETE
        else Ok mlen
  end.

(** The attribute loop: [msg] is the offset of the next attribute and [len]
    the number of bytes left. *)
Fixpoint validate_loop (fuel : nat) (b : list Z) (msg len : Z) (has_padding : bool) : res bool :=
  if negb (0 <? len) then Ok true
  else match fuel with
  | O => Fault OutOfFuel
  | S fuel =>
      if len <? 4 then Ok false
      else
        alen ← stun_getw b (msg + STUN_ATTRIBUTE_TYPE_LEN);
        let alen := if has_padding then stun_align alen else alen in
        let len := len - 4 in
        if len <? alen then Ok false
        else validate_loop fuel b (msg + (4 + alen)) (len - alen) has_padding
  end.

Definition stun_message_validate_buffer_length (msg : list Z) (length : Z) (has_padding : bool)
    : res Z :=
  fast_retval ← stun_message_validate_buffer_length_fast [mkInputVector (Some msg) length] 1
                  length has_padding;
  if fast_retval <=? 0 then Ok fast_retval
  else
    let mlen := fast_retval in
    ok ← validate_loop (Z.to_nat (mlen - 20)) msg 20 (mlen - 20) has_padding;
    Ok (if ok : bool then mlen else STUN_MESSAGE_BUFFER_INVALID).
