(* ===== verification/StunWire.v ===== *)
(** * The wire format of STUN messages, and what the message operations do to it

    A message on the wire is a header and a sequence of attributes.  [parse]
    is an independent decoder of the attribute area; [spec_find] and list
    concatenation are the abstract operations.  The theorems show that
    - [stun_message_validate_buffer_length] accepts a buffer exactly when its
      header is well formed and [parse] decodes its attribute area;
    - on such a buffer [stun_message_find] never reads outside the message
      and implements [spec_find];
    - [stun_message_append_bytes] implements appending one attribute. *)
From S2P Require Import Prelude CMem StunTypes StunMessage.

(** ** Abstract messages *)

Record wattr : Set := mkAttr { w_type : Z; w_val : list Z; w_pad : list Z }.

Definition enc (a : wattr) : list Z :=
  be_bytes 2 (w_type a) ++ be_bytes 2 (zlen (w_val a)) ++ w_val a ++ w_pad a.

Definition enc_all (l : list wattr) : list Z := concat (map enc l).

(** The padding that follows a value of [n] bytes. *)
Definition pad_len (pad : bool) (n : Z) : Z := if pad then stun_padding n else 0.

Record wf_attr (pad : bool) (a : wattr) : Prop := {
  wf_type : 0 <= w_type a < 65536;
  wf_val_len : zlen (w_val a) < 65536;
  wf_val : bytes (w_val a);
  wf_pad : bytes (w_pad a);
  wf_pad_len : zlen (w_pad a) = pad_len pad (zlen (w_val a))
}.

(** A decoder of the attribute area that does not follow the code. *)
Fixpoint parse (fuel : nat) (pad : bool) (b : list Z) : option (list wattr) :=
  match b with
  | [] => Some []
  | t0 :: t1 :: l0 :: l1 :: rest =>
      match fuel with
      | O => None
      | S fuel =>
          let n := Z.to_nat (l0 * 256 + l1) in
          let p := Z.to_nat (pad_len pad (l0 * 256 + l1)) in
          if (n + p <=? length rest)%nat then
            attrs ← parse fuel pad (drop (n + p) rest);
            Some (mkAttr (t0 * 256 + t1) (take n rest) (take p (drop n rest)) :: attrs)
          else None
      end
  | _ => None
  end.

(** Only FINGERPRINT may follow MESSAGE-INTEGRITY and nothing may follow
    FINGERPRINT; misordered attributes are ignored. *)
Fixpoint spec_find (type : Z) (l : list wattr) : option (list Z) :=
  match l with
  | [] => None
  | a :: l =>
      if w_type a =? type then Some (w_val a)
      else if w_type a =? STUN_ATTRIBUTE_FINGERPRINT then None
      else if (w_type a =? STUN_ATTRIBUTE_MESSAGE_INTEGRITY)
              && negb (type =? STUN_ATTRIBUTE_FINGERPRINT) then None
      else spec_find type l
  end.

(** [msg_repr m ty id attrs rest]: the buffer of [m] holds the message with
    type field [ty], transaction id [id] and attributes [attrs], followed by
    unused bytes [rest]. *)
Record msg_repr (m : StunMessage) (ty id : list Z) (attrs : list wattr) (rest : list Z) : Prop := {
  mr_buffer : buffer m = ty ++ be_bytes 2 (zlen (enc_all attrs)) ++ id ++ enc_all attrs ++ rest;
  mr_ty : zlen ty = 2;
  mr_id : zlen id = 16;
  mr_len : 20 + zlen (enc_all attrs) < 65536;
  mr_wf : Forall (wf_attr (negb (no_aligned m))) attrs;
  mr_bytes : bytes (buffer m)
}.

(** ** The encoder and the decoder *)

Lemma zlen_enc a : zlen (enc a) = 4 + zlen (w_val a) + zlen (w_pad a).
Proof. unfold enc. autorewrite with zlen. lia. Qed.

Lemma enc_all_cons a l : enc_all (a :: l) = enc a ++ enc_all l.
Proof. reflexivity. Qed.
Lemma enc_all_app l k : enc_all (l ++ k) = enc_all l ++ enc_all k.
Proof. unfold enc_all. by rewrite map_app, concat_app. Qed.
#[export] Hint Rewrite zlen_enc enc_all_cons enc_all_app : zlen.

Lemma length_enc_all l : (length l <= length (enc_all l))%nat.
Proof.
  induction l as [|a l IH]; [done|]. rewrite enc_all_cons, length_app.
  pose proof (zlen_enc a). zlen_pos. unfold zlen in *. simpl; lia.
Qed.

Lemma bytes_enc pad a : wf_attr pad a -> bytes (enc a).
Proof.
  intros []. unfold enc. rewrite !bytes_app. repeat split; auto with cint.
Qed.
Lemma bytes_enc_all pad l : Forall (wf_attr pad) l -> bytes (enc_all l).
Proof.
  induction 1 as [|a l Ha _ IH]; [constructor|]. rewrite enc_all_cons, bytes_app.
  split; eauto using bytes_enc.
Qed.

Lemma be2_value x : 0 <= x < 65536 -> (x / 256) mod 256 * 256 + x mod 256 = x.
Proof. intros. Z.to_euclidean_division_equations; lia. Qed.

(** Decoding what was encoded. *)
Lemma parse_enc_all pad l fuel :
  Forall (wf_attr pad) l -> (length l <= fuel)%nat -> parse fuel pad (enc_all l) = Some l.
Proof.
  intros Hl. revert fuel. induction Hl as [|a l Ha _ IH]; intros fuel Hf; [by destruct fuel|].
  destruct fuel as [|fuel]; [simpl in Hf; lia|]. destruct Ha as [? ? ? ? Hp].
  rewrite enc_all_cons. unfold enc. rewrite !be_bytes_2. cbn [app parse].
  zlen_pos. rewrite !be2_value by lia.
  rewrite <-Hp, !to_nat_zlen.
  rewrite <-!app_assoc, !length_app.
  destruct (Nat.leb_spec (length (w_val a) + length (w_pad a))
             (length (w_val a) + (length (w_pad a) + length (enc_all l)))); [|lia].
  rewrite <-drop_drop, drop_app_length, drop_app_length, IH by (simpl in Hf; lia). cbn.
  rewrite take_app_length, take_app_length. by destruct a.
Qed.

Lemma be2_split x y : is_byte x -> is_byte y -> be_bytes 2 (x * 256 + y) = [x; y].
Proof.
  unfold is_byte. intros. rewrite be_bytes_2. list_cong; Z.to_euclidean_division_equations; lia.
Qed.

(** What the decoder returns is well formed and encodes to its input. *)
Lemma parse_sound fuel pad b l :
  bytes b -> parse fuel pad b = Some l -> enc_all l = b /\ Forall (wf_attr pad) l.
Proof.
  revert b l. induction fuel as [|fuel IH]; intros b l Hb.
  { destruct b as [|? [|? [|? [|]]]]; try discriminate. by intros [= <-]. }
  destruct b as [|t0 [|t1 [|l0 [|l1 rest]]]]; try discriminate; [by intros [= <-]|].
  rewrite !bytes_cons in Hb. destruct Hb as (Ht0 & Ht1 & Hl0 & Hl1 & Hr).
  cbn [parse]. destruct (Nat.leb_spec (Z.to_nat (l0 * 256 + l1) + Z.to_nat (pad_len pad (l0 * 256 + l1)))
    (length rest)) as [Hle|]; [|discriminate].
  set (n := Z.to_nat (l0 * 256 + l1)) in *.
  set (p := Z.to_nat (pad_len pad (l0 * 256 + l1))) in *.
  destruct (parse fuel pad (drop (n + p) rest)) as [attrs|] eqn:E; [|discriminate].
  intros [= <-]. apply IH in E as [E1 E2]; [|by apply Forall_drop].
  assert (Hn : zlen (take n rest) = l0 * 256 + l1).
  { unfold zlen. rewrite length_take. unfold is_byte in *. lia. }
  assert (Hp0 : 0 <= pad_len pad (l0 * 256 + l1)).
  { unfold pad_len. destruct pad; [apply stun_padding_range|lia]. }
  split.
  - rewrite enc_all_cons, E1. unfold enc. cbn [w_type w_val w_pad].
    rewrite Hn, !be2_split by done. cbn [app]. do 4 f_equal.
    rewrite <-app_assoc, <-drop_drop, !take_drop. done.
  - constructor; [|done]. constructor; cbn [w_type w_val w_pad].
    + unfold is_byte in *; lia.
    + rewrite Hn. unfold is_byte in *; lia.
    + by apply Forall_take.
    + by apply Forall_take, Forall_drop.
    + rewrite Hn. unfold zlen. rewrite length_take, length_drop. unfold p, n in *. lia.
Qed.

Lemma length_parse fuel pad b l : parse fuel pad b = Some l -> (4 * length l <= length b)%nat.
Proof.
  revert b l. induction fuel as [|fuel IH]; intros b l.
  { destruct b as [|? [|? [|? [|]]]]; try discriminate. intros [= <-]; simpl; lia. }
  destruct b as [|t0 [|t1 [|l0 [|l1 rest]]]]; try discriminate; [intros [= <-]; simpl; lia|].
  cbn [parse]. case_match; [|discriminate].
  destruct (parse fuel pad _) as [attrs|] eqn:E; [|discriminate].
  intros [= <-]. apply IH in E. rewrite length_drop in E. simpl. lia.
Qed.

(** ** The header *)

Section repr.
Context {m : StunMessage} {ty id : list Z} {attrs : list wattr} {rest : list Z}.
Hypothesis Hm : msg_repr m ty id attrs rest.

Lemma repr_length : stun_message_length m = Ok (20 + zlen (enc_all attrs)).
Proof.
  destruct Hm as [Hb Hty Hid Hl _ _]. zlen_pos. unfold stun_message_length.
  rewrite (stun_getw_eq _ ty (zlen (enc_all attrs)) (id ++ enc_all attrs ++ rest));
    [|done|done|lia].
  cbn [mbind res_bind]. change STUN_MESSAGE_HEADER_LENGTH with 20.
  rewrite u16_small by lia. f_equal. lia.
Qed.

Lemma repr_id : stun_message_id m = Ok id.
Proof.
  destruct Hm as [Hb Hty Hid Hl _ _]. zlen_pos. unfold stun_message_id.
  apply (rd_bytes_eq _ (ty ++ be_bytes 2 (zlen (enc_all attrs))) id (enc_all attrs ++ rest)).
  - rewrite Hb. lassoc.
  - layout; zlen_norm; lia.
  - done.
Qed.

Lemma repr_has_cookie :
  stun_message_has_cookie m = Ok (bool_decide (take 4 id = be_bytes 4 STUN_MAGIC_COOKIE)).
Proof.
  unfold stun_message_has_cookie. rewrite repr_id. cbn [mbind res_bind].
  by rewrite le_bytes_htonl.
Qed.

Lemma repr_getw0 x y : ty = [x; y] -> stun_getw (buffer m) 0 = Ok (x * 256 + y).
Proof.
  intros ->. destruct Hm as [Hb _ _ _ _ Hbs]. rewrite Hb in *.
  rewrite !bytes_app, !bytes_cons in Hbs. apply (stun_getw_cons []); apply Hbs.
Qed.
End repr.

(** ** Searching *)

(** The loop from an arbitrary attribute boundary. *)
Lemma find_loop_spec m type attrs hd rest fuel :
  buffer m = hd ++ enc_all attrs ++ rest ->
  Forall (wf_attr (negb (no_aligned m))) attrs ->
  (length attrs <= fuel)%nat ->
  match spec_find type attrs with
  | None => find_loop fuel m type (zlen hd + zlen (enc_all attrs)) (zlen hd) = Ok None
  | Some v => exists pre a post, attrs = pre ++ a :: post /\ w_type a = type /\ w_val a = v /\
      Forall (fun b => w_type b <> type) pre /\
      find_loop fuel m type (zlen hd + zlen (enc_all attrs)) (zlen hd) =
      Ok (Some (zlen hd + zlen (enc_all pre) + 4, zlen v))
  end.
Proof.
  intros Hb Hwf. revert hd fuel Hb. induction Hwf as [|a attrs Ha _ IH]; intros hd fuel Hb Hf.
  { cbn [spec_find]. replace (zlen hd + zlen (enc_all [])) with (zlen hd) by (change (zlen (enc_all [])) with 0; lia).
    destruct fuel; cbn [find_loop]; by rewrite Z.ltb_irrefl. }
  destruct fuel as [|fuel]; [simpl in Hf; lia|].
  destruct Ha as [Ht Hv _ _ Hp]. rewrite enc_all_cons in *.
  assert (Hpos : 0 <= pad_len (negb (no_aligned m)) (zlen (w_val a))) by (rewrite <-Hp; zlen_pos; lia).
  cbn [find_loop]. zlen_pos. rewrite zlen_app, zlen_enc.
  destruct (Z.ltb_spec (zlen hd)
    (zlen hd + (4 + zlen (w_val a) + zlen (w_pad a) + zlen (enc_all attrs)))); [|lia].
  cbn [negb].
  rewrite (stun_getw_eq _ hd (w_type a)
    (be_bytes 2 (zlen (w_val a)) ++ w_val a ++ w_pad a ++ enc_all attrs ++ rest) (zlen hd));
    [|rewrite Hb; unfold enc; lassoc|done|done].
  rewrite (stun_getw_eq _ (hd ++ be_bytes 2 (w_type a)) (zlen (w_val a))
    (w_val a ++ w_pad a ++ enc_all attrs ++ rest));
    [|rewrite Hb; unfold enc; lassoc|layout; zlen_norm; lia|lia].
  cbn [mbind res_bind spec_find].
  change STUN_ATTRIBUTE_VALUE_POS with 4. destruct (Z.eqb_spec (w_type a) type).
  { exists [], a, attrs. change (zlen (enc_all [])) with 0. rewrite Z.add_0_r. auto. }
  assert (Hnext : zlen hd + 4 + (if no_aligned m then zlen (w_val a) else stun_align (zlen (w_val a)))
    = zlen (hd ++ enc a)).
  { zlen_norm. rewrite Hp. unfold pad_len. destruct (no_aligned m); cbn [negb]; [lia|].
    rewrite stun_align_arith by lia. lia. }
  destruct (_ =? STUN_ATTRIBUTE_FINGERPRINT) eqn:EF.
  { destruct ((_ =? STUN_ATTRIBUTE_MESSAGE_INTEGRITY) && _); done. }
  destruct ((_ =? STUN_ATTRIBUTE_MESSAGE_INTEGRITY) && _); [done|].
  rewrite Hnext.
  specialize (IH (hd ++ enc a) fuel). rewrite zlen_app, zlen_enc in *.
  replace (zlen hd + (4 + zlen (w_val a) + zlen (w_pad a) + zlen (enc_all attrs)))
    with (zlen hd + (4 + zlen (w_val a) + zlen (w_pad a)) + zlen (enc_all attrs)) by lia.
  assert (Hb' : buffer m = (hd ++ enc a) ++ enc_all attrs ++ rest) by (rewrite Hb; lassoc).
  specialize (IH Hb' ltac:(simpl in Hf; lia)).
  destruct (spec_find type attrs); [|done].
  destruct IH as (pre & x & post & -> & ? & ? & ? & ->). exists (a :: pre), x, post.
  rewrite enc_all_cons, zlen_app, zlen_enc. do 3 (split; [done|]). split; [by constructor|]. do 3 f_equal. lia.
Qed.

(** ** Validation of the framing *)

Lemma validate_loop_spec pad fuel b hd body rest :
  b = hd ++ body ++ rest -> bytes body -> (length body <= fuel)%nat ->
  validate_loop fuel b (zlen hd) (zlen body) pad =
    Ok (match parse fuel pad body with Some _ => true | None => false end).
Proof.
  revert hd body. induction fuel as [|fuel IH]; intros hd body Hb Hbs Hf.
  { destruct body; [done|simpl in Hf; lia]. }
  destruct body as [|t0 body]; [done|]. cbn [validate_loop].
  destruct (Z.ltb_spec 0 (zlen (t0 :: body))); [|zlia]. cbn [negb].
  destruct body as [|t1 [|l0 [|l1 body]]]; try done.
  destruct (Z.ltb_spec (zlen (t0 :: t1 :: l0 :: l1 :: body)) 4); [zlia|].
  rewrite !bytes_cons in Hbs. destruct Hbs as (Ht0 & Ht1 & Hl0 & Hl1 & Hbs).
  assert (Hb2 : b = (hd ++ [t0; t1]) ++ l0 :: l1 :: body ++ rest) by (rewrite Hb; lassoc).
  replace (zlen hd + STUN_ATTRIBUTE_TYPE_LEN) with (zlen (hd ++ [t0; t1])) by (layout; zlia).
  rewrite Hb2 at 1. rewrite stun_getw_cons by done. cbn [mbind res_bind parse].
  set (n := l0 * 256 + l1). assert (Hn : 0 <= n < 65536) by (unfold n, is_byte in *; lia).
  assert (Hal : (if pad then stun_align n else n) = n + pad_len pad n).
  { unfold pad_len. destruct pad; [|lia]. by rewrite stun_align_arith by lia. }
  assert (Hp : 0 <= pad_len pad n < 4).
  { unfold pad_len. destruct pad; [apply stun_padding_range|lia]. }
  rewrite Hal. zlen_norm.
  destruct (Z.ltb_spec (1 + (1 + (1 + (1 + zlen body))) - 4) (n + pad_len pad n)) as [Hlt|Hge].
  { destruct (Nat.leb_spec (Z.to_nat n + Z.to_nat (pad_len pad n)) (length body));
      [unfold zlen in *; lia|done]. }
  destruct (Nat.leb_spec (Z.to_nat n + Z.to_nat (pad_len pad n)) (length body)) as [Hle|];
    [|unfold zlen in *; lia].
  set (k := (Z.to_nat n + Z.to_nat (pad_len pad n))%nat) in *.
  assert (Htk : zlen (take k body) = n + pad_len pad n)
    by (unfold zlen; rewrite length_take; unfold k; lia).
  assert (Hdk : zlen (drop k body) = zlen body - (n + pad_len pad n))
    by (unfold zlen; rewrite length_drop; unfold k; lia).
  replace (zlen hd + (4 + (n + pad_len pad n)))
    with (zlen (hd ++ [t0; t1; l0; l1] ++ take k body)) by (zlen_norm; lia).
  replace (1 + (1 + (1 + (1 + zlen body))) - 4 - (n + pad_len pad n)) with (zlen (drop k body))
    by lia.
  rewrite IH.
  - by destruct (parse fuel pad (drop k body)).
  - rewrite Hb. repeat (rewrite <-app_assoc). cbn [app].
    do 5 f_equal. by rewrite app_assoc, take_drop.
  - by apply Forall_drop.
  - rewrite length_drop. simpl in Hf. lia.
Qed.

(** The framing check as one function of the received bytes. *)
Definition spec_validate (pad : bool) (b : list Z) : Z :=
  match b with
  | [] => -1
  | x :: b' =>
      if 64 <=? x then -1
      else match b' with
      | _ :: l0 :: l1 :: _ =>
          let mlen := l0 * 256 + l1 + 20 in
          if pad && negb (mlen mod 4 =? 0) then -1
          else if zlen b <? mlen then 0
          else match parse (Z.to_nat (mlen - 20)) pad (slice b 20 (mlen - 20)) with
               | Some _ => mlen
               | None => -1
               end
      | _ => 0
      end
  end.

Lemma shiftr_6 x : is_byte x -> (Z.shiftr x 6 =? 0) = (x <? 64).
Proof.
  unfold is_byte. intros. rewrite Z.shiftr_div_pow2 by lia. change (2 ^ 6) with 64.
  destruct (Z.ltb_spec x 64), (Z.eqb_spec (x / 64) 0); try done; Z.to_euclidean_division_equations; lia.
Qed.

Lemma stun_padding_0 l : (stun_padding l =? 0) = (l mod 4 =? 0).
Proof.
  rewrite stun_padding_arith.
  destruct (Z.eqb_spec ((- l) mod 4) 0), (Z.eqb_spec (l mod 4) 0); try done;
    Z.to_euclidean_division_equations; lia.
Qed.

Lemma vec_at_hd v l : vec_at (v :: l) 0 = Ok v.
Proof. reflexivity. Qed.

Lemma validate_spec pad b :
  bytes b -> stun_message_validate_buffer_length b (zlen b) pad = Ok (spec_validate pad b).
Proof.
  intros Hb. unfold stun_message_validate_buffer_length, stun_message_validate_buffer_length_fast.
  destruct b as [|x b']; [done|].
  destruct (Z.ltb_spec (zlen (x :: b')) 1); [zlia|]. change (1 =? 0) with false.
  cbn [orb]. rewrite vec_at_hd.
  cbn [mbind res_bind iv_buffer iv_size]. rewrite rd_hd. cbn [mbind res_bind spec_validate].
  apply bytes_cons in Hb as [Hx Hb']. rewrite shiftr_6 by done.
  rewrite (Z.leb_antisym x 64). destruct (x <? 64) eqn:Ex; cbn [negb]; [|done].
  change (STUN_MESSAGE_LENGTH_POS + STUN_MESSAGE_LENGTH_LEN) with 4.
  destruct b' as [|t1 [|l0 [|l1 rest]]]; try done.
  destruct (Z.ltb_spec (zlen (x :: t1 :: l0 :: l1 :: rest)) 4); [zlia|].
  destruct (Z.leb_spec 4 (zlen (x :: t1 :: l0 :: l1 :: rest))); [|zlia].
  rewrite !bytes_cons in Hb'. destruct Hb' as (Ht1 & Hl0 & Hl1 & Hr).
  pose proof (stun_getw_cons [x; t1] l0 l1 rest Hl0 Hl1) as Hg. cbn [app] in Hg.
  change (zlen [x; t1]) with STUN_MESSAGE_LENGTH_POS in Hg. rewrite Hg. cbn [mbind res_bind].
  change STUN_MESSAGE_HEADER_LENGTH with 20. rewrite stun_padding_0.
  set (b := x :: t1 :: l0 :: l1 :: rest) in *. set (mlen := l0 * 256 + l1 + 20).
  assert (Hm : 20 <= mlen) by (unfold mlen, is_byte in *; lia).
  destruct (pad && negb (mlen mod 4 =? 0)); [done|].
  destruct (Z.ltb_spec (zlen b) mlen); [done|]. cbn [mbind res_bind].
  destruct (Z.leb_spec mlen 0); [lia|].
  destruct (split_at b 20 (mlen - 20)) as (h & body & rst & Eb & Hh & Hbd); try lia.
  assert (Hbb : bytes b) by (unfold b; rewrite !bytes_cons; auto).
  pose proof (slice_app h body rst) as Hs.
  pose proof (validate_loop_spec pad (Z.to_nat (mlen - 20)) b h body rst Eb) as HL.
  rewrite <-Eb, Hh, Hbd in Hs. rewrite Hh, Hbd in HL. rewrite Eb, !bytes_app in Hbb.
  rewrite HL by (apply Hbb || (unfold zlen in Hbd; lia)). rewrite Hs.
  cbn [mbind res_bind]. by destruct (parse _ pad body).
Qed.

Lemma enc_all_mod4 l : Forall (wf_attr true) l -> zlen (enc_all l) mod 4 = 0.
Proof.
  induction 1 as [|a l [_ _ _ _ Hp] _ IH]; [done|]. rewrite enc_all_cons. zlen_norm.
  rewrite Hp. unfold pad_len. pose proof (stun_padding_add (zlen (w_val a))).
  Z.to_euclidean_division_equations; lia.
Qed.

Lemma bytes_2 (l : list Z) : zlen l = 2 -> exists x y, l = [x; y].
Proof.
  destruct l as [|x [|y [|z l]]]; rewrite ?zlen_cons, ?zlen_nil; intros; zlen_pos; try lia.
  by exists x, y.
Qed.

(** Acceptance of a buffer is decodability of its attribute area. *)
Lemma validate_accepts pad b r :
  bytes b -> 0 < r ->
  spec_validate pad b = r <->
  exists ty id attrs rest,
    b = ty ++ be_bytes 2 (zlen (enc_all attrs)) ++ id ++ enc_all attrs ++ rest /\
    zlen ty = 2 /\ nth 0 ty 0 < 64 /\ zlen id = 16 /\ zlen (enc_all attrs) < 65536 /\
    Forall (wf_attr pad) attrs /\ r = 20 + zlen (enc_all attrs).
Proof.
  intros Hb Hr. split.
  - unfold spec_validate. intros Hs.
    destruct b as [|x b']; [lia|]. destruct (Z.leb_spec 64 x); [lia|].
    destruct b' as [|t1 [|l0 [|l1 rest]]]; try lia.
    destruct (pad && _); [lia|]. set (b := x :: t1 :: l0 :: l1 :: rest) in *.
    destruct (Z.ltb_spec (zlen b) (l0 * 256 + l1 + 20)); [lia|].
    destruct (parse _ pad _) as [attrs|] eqn:E; [|lia].
    assert (Hb0 : is_byte x /\ is_byte t1 /\ is_byte l0 /\ is_byte l1 /\ bytes rest)
      by (unfold b in Hb; by rewrite !bytes_cons in Hb).
    destruct Hb0 as (_ & _ & Hl0 & Hl1 & _).
    apply parse_sound in E as [Eb Hwf]; [|by apply bytes_slice].
    assert (Hlen : zlen (enc_all attrs) = l0 * 256 + l1).
    { rewrite Eb. rewrite zlen_slice; unfold is_byte in *; lia. }
    exists [x; t1], (slice b 4 16), attrs, (drop (Z.to_nat (l0 * 256 + l1 + 20)) b).
    repeat split; try done; unfold is_byte in *; try lia; try (apply zlen_slice; lia).
    rewrite Hlen, be2_split by (unfold is_byte; lia). rewrite Eb.
    unfold b at 1. cbn [app]. do 4 f_equal. unfold slice.
    rewrite <-(take_drop 16 rest) at 1. f_equal.
    change (drop (Z.to_nat 20) b) with (drop 16 rest).
    rewrite <-(take_drop (Z.to_nat (l0 * 256 + l1 + 20 - 20)) (drop 16 rest)) at 1. f_equal.
    unfold b. rewrite drop_drop.
    replace (Z.to_nat (l0 * 256 + l1 + 20))
      with (4 + (16 + Z.to_nat (l0 * 256 + l1 + 20 - 20)))%nat by lia. done.
  - intros (ty & id & attrs & rest & Eb & Hty & Hx & Hid & Hl & Hwf & ->).
    apply bytes_2 in Hty as (x & y & ->). cbn in Hx. zlen_pos.
    pose proof (be2_value (zlen (enc_all attrs)) ltac:(lia)) as Hbe.
    assert (Hsl : slice b 20 (zlen (enc_all attrs)) = enc_all attrs).
    { rewrite Eb. replace 20 with (zlen ([x; y] ++ be_bytes 2 (zlen (enc_all attrs)) ++ id))
        by (zlen_norm; lia).
      replace ([x; y] ++ _) with (([x; y] ++ be_bytes 2 (zlen (enc_all attrs)) ++ id) ++
        enc_all attrs ++ rest) by lassoc. apply slice_app. }
    assert (Hlen : zlen b = 20 + zlen (enc_all attrs) + zlen rest) by (rewrite Eb; zlen_norm; lia).
    rewrite be_bytes_2 in Eb. cbn [app] in Eb. unfold spec_validate. rewrite Eb at 1.
    destruct (Z.leb_spec 64 x); [lia|]. rewrite Hbe.
    assert (Hmod : pad && negb ((zlen (enc_all attrs) + 20) mod 4 =? 0) = false).
    { destruct pad; [|done]. pose proof (enc_all_mod4 attrs Hwf). cbn.
      apply negb_false_iff, Z.eqb_eq. Z.to_euclidean_division_equations; lia. }
    rewrite Hmod. destruct (Z.ltb_spec (zlen b) (zlen (enc_all attrs) + 20)); [zlen_pos; lia|].
    replace (zlen (enc_all attrs) + 20 - 20) with (zlen (enc_all attrs)) by lia.
    rewrite Hsl, to_nat_zlen, parse_enc_all; [lia|done|].
    apply length_enc_all.
Qed.

(** The result is never anything else than "invalid", "incomplete" or a
    length between a header and the received bytes. *)
Lemma spec_validate_range pad b :
  bytes b -> let r := spec_validate pad b in r = -1 \/ r = 0 \/ 20 <= r <= zlen b.
Proof.
  intros Hb r. unfold r, spec_validate.
  destruct b as [|x b']; [auto|]. destruct (64 <=? x); [auto|].
  destruct b' as [|t1 [|l0 [|l1 rest]]]; auto.
  rewrite !bytes_cons in Hb. unfold is_byte in Hb.
  destruct (pad && _); [auto|]. destruct (Z.ltb_spec (zlen (x :: t1 :: l0 :: l1 :: rest))
    (l0 * 256 + l1 + 20)); [auto|]. destruct (parse _ _ _); [right; right; lia|auto].
Qed.

(** The messages the agent looks into: those it has accepted. *)
Lemma validate_repr m r :
  bytes (buffer m) ->
  stun_message_validate_buffer_length (buffer m) (zlen (buffer m)) (negb (no_aligned m)) = Ok r ->
  0 < r < 65536 ->
  exists ty id attrs rest, msg_repr m ty id attrs rest /\ r = 20 + zlen (enc_all attrs).
Proof.
  intros Hb Hv Hr. rewrite validate_spec in Hv by done. injection Hv as Hv.
  apply validate_accepts in Hv as (ty & id & attrs & rest & ? & ? & ? & ? & ? & ? & ->); [|done|lia].
  exists ty, id, attrs, rest. split; [|done]. constructor; auto; lia.
Qed.

(** [stun_message_find], with the position of the attribute it selects. *)
Lemma find_split m ty id attrs rest type :
  msg_repr m ty id attrs rest ->
  match spec_find (swap_realm_nonce m type) attrs with
  | None => stun_message_find m type = Ok None
  | Some v => exists pre a post, attrs = pre ++ a :: post /\
      w_type a = swap_realm_nonce m type /\ w_val a = v /\
      Forall (fun b => w_type b <> swap_realm_nonce m type) pre /\
      stun_message_find m type = Ok (Some (24 + zlen (enc_all pre), zlen v))
  end.
Proof.
  intros Hm. unfold stun_message_find. rewrite (repr_length Hm). cbn [mbind res_bind].
  destruct Hm as [Hb Hty Hid Hl Hwf _]. zlen_pos.
  pose proof (find_loop_spec m (swap_realm_nonce m type) attrs
    (ty ++ be_bytes 2 (zlen (enc_all attrs)) ++ id) rest
    (Z.to_nat (20 + zlen (enc_all attrs)))) as H3.
  replace (zlen (ty ++ be_bytes 2 (zlen (enc_all attrs)) ++ id)) with 20 in H3
    by (zlen_norm; lia).
  change STUN_MESSAGE_ATTRIBUTES_POS with 20.
  assert (Hf : (length attrs <= Z.to_nat (20 + zlen (enc_all attrs)))%nat)
    by (pose proof (length_enc_all attrs); unfold zlen in *; lia).
  specialize (H3 ltac:(rewrite Hb; lassoc) Hwf Hf). destruct (spec_find _ attrs); [|done].
  destruct H3 as (pre & a & post & ? & ? & ? & ? & ->). exists pre, a, post.
  do 4 (split; [done|]). do 3 f_equal. lia.
Qed.

Lemma find_spec m ty id attrs rest type :
  msg_repr m ty id attrs rest ->
  match spec_find (swap_realm_nonce m type) attrs with
  | None => stun_message_find m type = Ok None
  | Some v => exists o,
      stun_message_find m type = Ok (Some (o, zlen v)) /\
      24 <= o /\ o + zlen v <= 20 + zlen (enc_all attrs) /\ slice (buffer m) o (zlen v) = v
  end.
Proof.
  intros Hm. pose proof (find_split _ _ _ _ _ type Hm) as Hf. destruct (spec_find _ attrs); [|done].
  destruct Hf as (pre & a & post & -> & _ & <- & _ & ->). destruct Hm as [Hb Hty Hid _ _ _].
  eexists. split; [done|]. split; [zlia|]. split; [zlia|]. rewrite Hb, enc_all_app, enc_all_cons.
  set (L := be_bytes 2 (zlen _)). set (H := ty ++ L ++ id ++ enc_all pre ++ be_bytes 2 (w_type a) ++ be_bytes 2 (zlen (w_val a))).
  replace (24 + zlen (enc_all pre)) with (zlen H) by (unfold H, L; zlen_norm; lia).
  transitivity (slice (H ++ w_val a ++ w_pad a ++ enc_all post ++ rest) (zlen H) (zlen (w_val a)));
    [f_equal; unfold H, enc; lassoc|apply slice_app].
Qed.
