(* ===== verification/StunAppend.v ===== *)
(** * Appending attributes, and reading back what was appended

    [stun_message_append] and the functions built on it implement, on the
    abstract attribute sequence of [StunWire], the addition of one attribute
    at the end; the typed accessors are inverse to the typed appenders. *)
From S2P Require Import Prelude CMem StunTypes StunMessage StunWire.

Definition cookie_id (id : list Z) : bool :=
  bool_decide (take 4 id = be_bytes 4 STUN_MAGIC_COOKIE).

(** The attribute that appending the value [v] adds: with unaligned attributes
    the bare value; otherwise the value and zero padding, which counts as part
    of the value when the message carries no cookie (RFC 3489). *)
Definition zeros (n : Z) : list Z := replicate (Z.to_nat (stun_padding n)) 0.

Definition new_attr (m : StunMessage) (id : list Z) (type : Z) (v : list Z) : wattr :=
  let t := u16 (swap_realm_nonce m type) in
  if no_aligned m then mkAttr t v []
  else if cookie_id id then mkAttr t v (zeros (zlen v))
  else mkAttr t (v ++ zeros (zlen v)) [].

(** Bytes an attribute with a value of [n] bytes takes. *)
Definition attr_size (m : StunMessage) (n : Z) : Z := 4 + n + pad_len (negb (no_aligned m)) n.

Lemma zlen_zeros n : zlen (zeros n) = stun_padding n.
Proof. unfold zeros. rewrite zlen_replicate. pose proof (stun_padding_range n). lia. Qed.
#[export] Hint Rewrite zlen_zeros : zlen.

Lemma pad_len_range pad n : 0 <= pad_len pad n < 4.
Proof. unfold pad_len. destruct pad; [apply stun_padding_range|lia]. Qed.

Lemma attr_size_mod4 m n : n mod 4 = 0 -> attr_size m n = 4 + n.
Proof.
  intros Hn. unfold attr_size, pad_len. pose proof (stun_padding_0 n) as H0. rewrite Hn in H0.
  apply Z.eqb_eq in H0. destruct (negb _); lia.
Qed.

Lemma be_bytes_2_u16 v : be_bytes 2 (u16 v) = be_bytes 2 v.
Proof.
  rewrite !be_bytes_2. unfold u16. list_cong; Z.to_euclidean_division_equations; lia.
Qed.

(** The field [type | declared length] of the new attribute. *)
Definition decl_len (m : StunMessage) (id : list Z) (n : Z) : Z :=
  if no_aligned m then n else if cookie_id id then n else stun_align n.

Lemma enc_new_attr m id type v :
  zlen v < 65536 ->
  enc (new_attr m id type v) =
    be_bytes 2 (swap_realm_nonce m type) ++ be_bytes 2 (decl_len m id (zlen v)) ++
    v ++ (if no_aligned m then [] else zeros (zlen v)).
Proof.
  intros Hv. zlen_pos. unfold new_attr, decl_len, enc.
  destruct (no_aligned m); [|destruct (cookie_id id)]; cbn [w_type w_val w_pad];
    rewrite be_bytes_2_u16; [done|done|].
  rewrite zlen_app, zlen_zeros, stun_align_arith by lia. rewrite app_nil_r. done.
Qed.

Lemma zlen_enc_new_attr m id type v :
  zlen v < 65536 -> zlen (enc (new_attr m id type v)) = attr_size m (zlen v).
Proof.
  intros. rewrite enc_new_attr by done. unfold attr_size, pad_len.
  destruct (no_aligned m); cbn [negb]; zlen_norm; lia.
Qed.

Lemma wf_new_attr m id type v :
  bytes v -> attr_size m (zlen v) < 65536 ->
  wf_attr (negb (no_aligned m)) (new_attr m id type v).
Proof.
  intros Hv Hs. zlen_pos. unfold attr_size, pad_len, new_attr in *.
  assert (Hz : bytes (zeros (zlen v))) by (apply bytes_replicate; done).
  pose proof (stun_padding_range (zlen v)).
  destruct (no_aligned m); [|destruct (cookie_id id)]; cbn [negb] in *;
    constructor; cbn [w_type w_val w_pad]; zlen_norm; unfold pad_len;
    auto using u16_range, bytes_nil; try lia.
  - by apply bytes_app.
  - symmetry. apply stun_padding_mod4, stun_padding_add.
Qed.

(** Splitting the unused part of the buffer. *)
Lemma rest_split (rest : list Z) n p :
  0 <= n -> 0 <= p -> 4 + n + p <= zlen rest ->
  exists x0 x1 x2 x3 v q r, rest = x0 :: x1 :: x2 :: x3 :: v ++ q ++ r /\
    zlen v = n /\ zlen q = p.
Proof.
  intros. destruct rest as [|x0 [|x1 [|x2 [|x3 rest]]]]; rewrite ?zlen_cons, ?zlen_nil in *; try lia.
  destruct (split_at rest n p) as (v & q & r & -> & ? & ?); try lia.
  by exists x0, x1, x2, x3, v, q, r.
Qed.

Section append.
Context {m : StunMessage} {ty id : list Z} {attrs : list wattr} {rest : list Z}.
Hypothesis Hm : msg_repr m ty id attrs rest.

(** The buffer after [stun_message_append] of a value of [n] bytes, whose
    place holds the bytes [v]. *)
Definition appended (type n : Z) (v r : list Z) : list Z :=
  ty ++ be_bytes 2 (zlen (enc_all attrs) + attr_size m n) ++ id ++ enc_all attrs ++
  be_bytes 2 (swap_realm_nonce m type) ++ be_bytes 2 (decl_len m id n) ++
  v ++ (if no_aligned m then [] else zeros n) ++ r.

Lemma repr_set_cookie b r : buffer m = b ++ r ->
  zlen b = 20 + zlen (enc_all attrs) -> forall r',
  stun_message_has_cookie (set_buffer m (b ++ r')) = Ok (cookie_id id).
Proof.
  intros Hb Hl r'. destruct Hm as [Hb' Hty Hid _ _ _]. zlen_pos.
  assert (Heq : b = ty ++ be_bytes 2 (zlen (enc_all attrs)) ++ id ++ enc_all attrs).
  { rewrite Hb' in Hb. apply (f_equal (take (length b))) in Hb.
    rewrite take_app_length in Hb. rewrite <-Hb.
    replace (ty ++ _) with ((ty ++ be_bytes 2 (zlen (enc_all attrs)) ++ id ++ enc_all attrs) ++ rest)
      by lassoc.
    replace (length b) with (length (ty ++ be_bytes 2 (zlen (enc_all attrs)) ++ id ++ enc_all attrs));
      [by rewrite take_app_length|].
    rewrite <-!to_nat_zlen. f_equal. zlen_norm. lia. }
  unfold stun_message_has_cookie, stun_message_id. cbn [buffer set_buffer].
  rewrite (rd_bytes_eq _ (ty ++ be_bytes 2 (zlen (enc_all attrs))) id (enc_all attrs ++ r'));
    [|rewrite Heq; lassoc|layout; zlen_norm; lia|layout; lia].
  cbn [mbind res_bind]. by rewrite le_bytes_htonl.
Qed.

(** The padding stored after the value [v], where [q] was. *)
Lemma pad_store B W v q r n mlen :
  zlen v = n -> zlen B = mlen + 2 -> zlen q = stun_padding n -> 0 <= mlen < 65536 - stun_padding n ->
  (if 0 <? stun_padding n
   then b ← memset (B ++ be_bytes 2 W ++ v ++ q ++ r) (mlen + 4 + n) 0 (stun_padding n);
        Ok (b, u16 (mlen + stun_padding n))
   else Ok (B ++ be_bytes 2 W ++ v ++ q ++ r, mlen)) =
  Ok (B ++ be_bytes 2 W ++ v ++ zeros n ++ r, mlen + stun_padding n).
Proof.
  intros Hv HB Hq Hm16. pose proof (stun_padding_range n).
  destruct (Z.ltb_spec 0 (stun_padding n)) as [Hpos|Hz].
  - unfold memset. rewrite (wr_bytes_eq _ (B ++ be_bytes 2 W ++ v) q _ r).
    + cbn [mbind res_bind]. rewrite u16_small by lia. do 2 f_equal. lassoc.
    + lassoc.
    + zlen_norm. lia.
    + change (replicate (Z.to_nat (stun_padding n)) (u8 0)) with (zeros n). zlen_norm. lia.
  - assert (Hz0 : stun_padding n = 0) by lia. unfold zeros. rewrite Hz0 in *.
    apply zlen_0_nil in Hq as ->. cbn [app replicate Z.to_nat]. do 2 f_equal. lia.
Qed.

Lemma append_buffer type n :
  0 <= n -> attr_size m n <= zlen rest ->
  24 + zlen (enc_all attrs) + n <= buffer_len m ->
  20 + zlen (enc_all attrs) + attr_size m n < 65536 ->
  exists v r, zlen v = n /\ bytes v /\ r = drop (Z.to_nat (attr_size m n)) rest /\
    stun_message_append m type n =
      Ok (Some (24 + zlen (enc_all attrs)), set_buffer m (appended type n v r)).
Proof.
  intros Hn Hroom Hbl H16. unfold attr_size in *.
  set (p := pad_len (negb (no_aligned m)) n) in *.
  assert (Hp : 0 <= p < 4) by apply pad_len_range.
  destruct (rest_split rest n p) as (x0 & x1 & x2 & x3 & v & q & r & Er & Hv & Hq); try lia.
  exists v, r. split; [done|]. split.
  { pose proof (mr_bytes _ _ _ _ _ Hm) as Hbs. rewrite (mr_buffer _ _ _ _ _ Hm), Er, !bytes_app, !bytes_cons, !bytes_app in Hbs.
    apply Hbs. }
  split.
  { rewrite Er. replace (Z.to_nat (4 + n + p)) with (4 + length (v ++ q))%nat
      by (rewrite length_app; unfold zlen in *; lia).
    cbn [drop Nat.add]. by rewrite app_assoc, drop_app_length. }
  unfold stun_message_append. rewrite (repr_length Hm). cbn [mbind res_bind].
  pose proof Hm as [Hb Hty Hid Hl _ _]. zlen_pos. change STUN_ATTRIBUTE_HEADER_LENGTH with 4.
  rewrite u64_small by lia.
  destruct (Z.ltb_spec (buffer_len m) (20 + zlen (enc_all attrs) + 4 + n)); [lia|].
  set (L := be_bytes 2 (zlen (enc_all attrs))) in *.
  set (A := ty ++ L ++ id ++ enc_all attrs).
  assert (HA : zlen A = 20 + zlen (enc_all attrs)) by (unfold A, L; zlen_norm; lia).
  assert (HbA : buffer m = A ++ x0 :: x1 :: x2 :: x3 :: v ++ q ++ r)
    by (rewrite Hb, Er; unfold A; lassoc).
  set (T := be_bytes 2 (swap_realm_nonce m type)).
  rewrite (stun_setw_eq _ A x0 x1 (x2 :: x3 :: v ++ q ++ r)); [|done|lia]. cbn [mbind res_bind].
  fold T.
  assert (Hlen2 : forall W, stun_setw (A ++ T ++ x2 :: x3 :: v ++ q ++ r)
    (20 + zlen (enc_all attrs) + 2) W = Ok ((A ++ T) ++ be_bytes 2 W ++ v ++ q ++ r)).
  { intros W. apply (stun_setw_eq _ (A ++ T) x2 x3 (v ++ q ++ r)); [lassoc|].
    unfold T. zlen_norm. lia. }
  assert (Hset : forall W Q k, zlen Q = p -> k = zlen (enc_all attrs) + (4 + n + p) ->
    stun_setw ((A ++ T) ++ be_bytes 2 W ++ v ++ Q ++ r) STUN_MESSAGE_LENGTH_POS k =
    Ok (ty ++ be_bytes 2 (zlen (enc_all attrs) + (4 + n + p)) ++ id ++ enc_all attrs ++ T ++
        be_bytes 2 W ++ v ++ Q ++ r)).
  { intros W Q k HQ ->. unfold A, L. rewrite be_bytes_2 at 1.
    erewrite (stun_setw_eq _ ty _ _ (id ++ enc_all attrs ++ T ++ be_bytes 2 W ++ v ++ Q ++ r));
      [done| |layout; lia]. lassoc. }
  unfold appended, decl_len. fold p. unfold attr_size.
  destruct (no_aligned m) eqn:Ena.
  - rewrite Hlen2. cbn [mbind res_bind]. unfold p, pad_len in *. cbn [negb] in *.
    apply zlen_0_nil in Hq as ->. cbn [app] in *.
    rewrite u16_small by lia. change STUN_MESSAGE_HEADER_LENGTH with 20.
    pose proof (Hset n [] (20 + zlen (enc_all attrs) + (4 + n) - 20)) as Hs. cbn [app] in Hs.
    rewrite Hs by (done || lia). cbn [mbind res_bind].
    replace (20 + zlen (enc_all attrs) + 4) with (24 + zlen (enc_all attrs)) by lia. done.
  - rewrite (repr_set_cookie A _ HbA HA). cbn [mbind res_bind].
    rewrite Hlen2. cbn [mbind res_bind]. unfold p, pad_len in *. cbn [negb] in *.
    rewrite (pad_store (A ++ T) (if cookie_id id then n else stun_align n) v q r);
      [|done|unfold T; zlen_norm; lia|lia|lia]. cbn [mbind res_bind].
    rewrite u16_small by lia. change STUN_MESSAGE_HEADER_LENGTH with 20.
    rewrite Hset by (zlen_norm; lia). cbn [mbind res_bind].
    replace (20 + zlen (enc_all attrs) + 4) with (24 + zlen (enc_all attrs)) by lia. done.
Qed.
End append.

(** ** Messages under construction *)

(** A message whose buffer object has the size it claims and, unless
    attributes are unaligned, a multiple of four. *)
Record msg_ok (m : StunMessage) (ty id : list Z) (attrs : list wattr) : Prop := {
  mo_repr : exists rest, msg_repr m ty id attrs rest;
  mo_size : buffer_len m = zlen (buffer m);
  mo_align : no_aligned m = false -> buffer_len m mod 4 = 0
}.

(** [m'] differs from [m] at most in the contents of the buffer. *)
Definition same_meta (m m' : StunMessage) : Prop :=
  agent m' = agent m /\ buffer_len m' = buffer_len m /\ key m' = key m /\
  long_term_key m' = long_term_key m /\ long_term_valid m' = long_term_valid m.

Lemma same_meta_refl m : same_meta m m.
Proof. done. Qed.
Lemma same_meta_trans m1 m2 m3 : same_meta m1 m2 -> same_meta m2 m3 -> same_meta m1 m3.
Proof. unfold same_meta. intuition congruence. Qed.
Lemma same_meta_set m b : same_meta m (set_buffer m b).
Proof. done. Qed.
#[export] Hint Resolve same_meta_refl same_meta_set : cint.

Lemma no_aligned_meta m m' : same_meta m m' -> no_aligned m' = no_aligned m.
Proof. intros [Ha _]. unfold no_aligned. by rewrite Ha. Qed.
Lemma swap_meta m m' t : same_meta m m' -> swap_realm_nonce m' t = swap_realm_nonce m t.
Proof. intros [Ha _]. unfold swap_realm_nonce, is_oc2007. by rewrite Ha. Qed.
Lemma new_attr_meta m m' id t v : same_meta m m' -> new_attr m' id t v = new_attr m id t v.
Proof. intros H. unfold new_attr. by rewrite (no_aligned_meta _ _ H), (swap_meta _ _ _ H). Qed.
Lemma attr_size_meta m m' n : same_meta m m' -> attr_size m' n = attr_size m n.
Proof. intros H. unfold attr_size. by rewrite (no_aligned_meta _ _ H). Qed.

Lemma bytes_meta_size m ty id attrs rest :
  msg_repr m ty id attrs rest -> zlen (buffer m) = 20 + zlen (enc_all attrs) + zlen rest.
Proof. intros [Hb ? ? _ _ _]. rewrite Hb. zlen_norm. lia. Qed.

(** The test of the code, which leaves the padding out, is enough for a
    buffer whose size is a multiple of four. *)
Lemma room_for m ty id attrs rest n :
  msg_repr m ty id attrs rest -> buffer_len m = zlen (buffer m) ->
  (no_aligned m = false -> buffer_len m mod 4 = 0) -> 0 <= n ->
  24 + zlen (enc_all attrs) + n <= buffer_len m -> attr_size m n <= zlen rest.
Proof.
  intros Hm Hs Ha Hn Hle. pose proof (bytes_meta_size _ _ _ _ _ Hm). unfold attr_size, pad_len.
  destruct (no_aligned m) eqn:E; cbn [negb]; [lia|]. specialize (Ha eq_refl).
  pose proof (mr_wf _ _ _ _ _ Hm) as Hwf. rewrite E in Hwf. apply enc_all_mod4 in Hwf.
  pose proof (stun_padding_add n). pose proof (stun_padding_range n).
  Z.to_euclidean_division_equations; lia.
Qed.

Lemma zlen_appended m id ty attrs type n v r :
  zlen v = n -> zlen (@appended m ty id attrs type n v r) =
  zlen ty + 2 + zlen id + zlen (enc_all attrs) + attr_size m n + zlen r.
Proof.
  intros. unfold appended, attr_size, pad_len. zlen_norm.
  destruct (no_aligned m); cbn [negb]; zlen_norm; lia.
Qed.

(** [stun_message_append] on such a message: when the attribute fits, the
    returned pointer is a window of the right size whose every contents makes
    the message the old one with that attribute added; when it does not, the
    message is untouched. *)
Lemma append_spec m ty id attrs type n :
  msg_ok m ty id attrs -> 0 <= n -> 20 + zlen (enc_all attrs) + attr_size m n < 65536 ->
  if buffer_len m <? 24 + zlen (enc_all attrs) + n then
    stun_message_append m type n = Ok (None, m)
  else exists b', stun_message_append m type n =
        Ok (Some (24 + zlen (enc_all attrs)), set_buffer m b') /\
      24 + zlen (enc_all attrs) + n <= zlen b' /\
      bytes (slice b' (24 + zlen (enc_all attrs)) n) /\
      forall v, zlen v = n -> bytes v ->
        msg_ok (set_buffer m (splice b' (24 + zlen (enc_all attrs)) v)) ty id
          (attrs ++ [new_attr m id type v]).
Proof.
  intros [[rest Hm] Hs Ha] Hn H16. zlen_pos.
  destruct (Z.ltb_spec (buffer_len m) (24 + zlen (enc_all attrs) + n)) as [Hlt|Hge].
  - unfold stun_message_append. rewrite (repr_length Hm). cbn [mbind res_bind].
    change STUN_ATTRIBUTE_HEADER_LENGTH with 4. pose proof (pad_len_range (negb (no_aligned m)) n).
    unfold attr_size in *. rewrite u64_small by lia.
    destruct (Z.ltb_spec (buffer_len m) (20 + zlen (enc_all attrs) + 4 + n)); [done|lia].
  - pose proof (room_for _ _ _ _ _ _ Hm Hs Ha Hn Hge) as Hroom.
    destruct (append_buffer Hm type n Hn Hroom Hge H16) as (v0 & r & Hv0 & Hbv0 & Hr & ->).
    eexists. split; [done|]. pose proof Hm as [Hb Hty Hid Hl Hwf Hbs].
    pose proof (bytes_meta_size _ _ _ _ _ Hm) as Hsz.
    pose proof (pad_len_range (negb (no_aligned m)) n) as Hpl.
    assert (Hal : zlen (@appended m ty id attrs type n v0 r) = zlen (buffer m)).
    { rewrite zlen_appended by done. rewrite Hr, zlen_drop by (unfold attr_size in *; lia). lia. }
    split; [rewrite Hal; unfold attr_size in *; lia|].
    set (F := ty ++ be_bytes 2 (zlen (enc_all attrs) + attr_size m n) ++ id ++ enc_all attrs ++
      be_bytes 2 (swap_realm_nonce m type) ++ be_bytes 2 (decl_len m id n)).
    set (z := if no_aligned m then [] else zeros n).
    assert (HF : 24 + zlen (enc_all attrs) = zlen F) by (unfold F; zlen_norm; lia).
    assert (Hap : forall v, @appended m ty id attrs type n v r = F ++ v ++ z ++ r)
      by (intros; unfold appended, F; lassoc).
    split; [by rewrite Hap, HF, <-Hv0, slice_app|]. intros v Hv Hbv.
    assert (Hsp : splice (@appended m ty id attrs type n v0 r) (24 + zlen (enc_all attrs)) v
      = @appended m ty id attrs type n v r) by (rewrite !Hap, HF; apply splice_app; lia).
    assert (Hev : enc_all (attrs ++ [new_attr m id type v]) = enc_all attrs ++
      enc (new_attr m id type v)) by (rewrite enc_all_app; cbn; by rewrite app_nil_r).
    assert (Hsv : zlen v < 65536) by (unfold attr_size in *; lia).
    rewrite Hsp. constructor; cbn [buffer set_buffer buffer_len].
    + exists r. constructor; cbn [buffer set_buffer]; auto.
      * rewrite Hev, enc_new_attr, zlen_app by done.
        rewrite <-(enc_new_attr m id type v) at 1 by done. rewrite zlen_enc_new_attr by done.
        rewrite Hv. unfold appended. lassoc.
      * rewrite Hev, zlen_app, zlen_enc_new_attr by done. rewrite Hv. lia.
      * change (no_aligned (set_buffer m _)) with (no_aligned m). rewrite Forall_app. split; [done|].
        constructor; [|done]. apply wf_new_attr; [done|]. rewrite Hv. unfold attr_size in *; lia.
      * unfold appended. rewrite Hb in Hbs. rewrite !bytes_app in *.
        repeat split; try apply Hbs; auto with cint.
        -- destruct (no_aligned m); [constructor|by apply bytes_replicate].
        -- rewrite Hr. apply Forall_drop. apply Hbs.
    + rewrite zlen_appended by done. rewrite zlen_appended in Hal by done. lia.
    + done.
Qed.

Lemma append_bytes_spec m ty id attrs type v :
  msg_ok m ty id attrs -> bytes v -> 20 + zlen (enc_all attrs) + attr_size m (zlen v) < 65536 ->
  if buffer_len m <? 24 + zlen (enc_all attrs) + zlen v then
    stun_message_append_bytes m type v = Ok (STUN_MESSAGE_RETURN_NOT_ENOUGH_SPACE, m)
  else exists m', stun_message_append_bytes m type v = Ok (STUN_MESSAGE_RETURN_SUCCESS, m') /\
      msg_ok m' ty id (attrs ++ [new_attr m id type v]) /\ same_meta m m'.
Proof.
  intros Hm Hv H16. zlen_pos. pose proof (append_spec m ty id attrs type (zlen v) Hm) as Ha.
  unfold stun_message_append_bytes.
  destruct (_ <? _); [by rewrite Ha by lia|].
  destruct Ha as (b' & -> & Hsz & _ & Hspec); [lia..|]. cbn [mbind res_bind buffer set_buffer].
  specialize (Hspec v eq_refl Hv).
  destruct (Z.ltb_spec 0 (zlen v)) as [Hpos|Hz].
  - rewrite wr_bytes_Ok by lia. eexists. done.
  - eexists. split; [done|]. split; [|done].
    assert (v = []) as -> by (apply zlen_0_nil; lia). by rewrite splice_nil in Hspec by lia.
Qed.
