(* ===== verification/StunAccess.v ===== *)
(** * Typed attribute accessors: behaviour on every message, and round trips *)
From S2P Require Import Prelude CMem StunTypes StunMessage StunWire StunAppend.
Local Open Scope Z_scope.

(** ** Reading inside a found value *)

Lemma find_cases m ty id attrs rest type :
  msg_repr m ty id attrs rest ->
  match spec_find (swap_realm_nonce m type) attrs with
  | None => stun_message_find m type = Ok None
  | Some v => exists l r, stun_message_find m type = Ok (Some (zlen l, zlen v)) /\
      buffer m = l ++ v ++ r /\ bytes v
  end.
Proof.
  intros Hm. pose proof (find_spec _ _ _ _ _ type Hm) as Hf.
  destruct (spec_find _ attrs) as [v|]; [|done]. destruct Hf as (o & -> & Ho & Hle & Hs).
  pose proof (bytes_meta_size _ _ _ _ _ Hm). zlen_pos.
  destruct (split_at (buffer m) o (zlen v)) as (l & v' & r & Hb & <- & Hv'); [lia..|].
  assert (v' = v) as ->.
  { rewrite <-Hs, Hb, <-Hv'. symmetry. apply slice_app. }
  exists l, r. split; [done|]. split; [done|].
  pose proof (mr_bytes _ _ _ _ _ Hm) as Hbs. rewrite Hb, !bytes_app in Hbs. apply Hbs.
Qed.

Lemma rd_window l v r i : 0 <= i < zlen v -> rd (l ++ v ++ r) (zlen l + i) = rd v i.
Proof. intros. rewrite rd_app_r by lia. apply rd_app_l. lia. Qed.

Lemma rd_bytes_window l v r i n :
  0 <= i -> 0 <= n -> i + n <= zlen v ->
  rd_bytes (l ++ v ++ r) (zlen l + i) n = Ok (slice v i n).
Proof.
  intros. rewrite rd_bytes_Ok by zlia. f_equal. rewrite slice_app_r by lia.
  by apply slice_app_l.
Qed.

Lemma zlen_4_inv (v : list Z) : zlen v = 4 -> exists a b c d, v = [a; b; c; d].
Proof.
  intros H. destruct v as [|a [|b [|c [|d [|e v]]]]]; rewrite ?zlen_cons, ?zlen_nil in H;
    zlen_pos; try lia. by exists a, b, c, d.
Qed.

Lemma ntohl_le_be v : bytes v -> zlen v = 4 -> ntohl (le_value v) = be_value v.
Proof.
  intros Hb Hl. apply zlen_4_inv in Hl as (a & b & c & d & ->).
  rewrite !bytes_cons in Hb. apply ntohl_le_value; apply Hb.
Qed.

(** ** What each accessor returns, from the abstract attribute value *)

Section access.
Context {m : StunMessage} {ty id : list Z} {attrs : list wattr} {rest : list Z}.
Hypothesis Hm : msg_repr m ty id attrs rest.

(** The value [stun_message_find] selects. *)
Definition val_of (type : Z) : option (list Z) := spec_find (swap_realm_nonce m type) attrs.

Ltac find_value type v Hv :=
  let Hf := fresh in let l := fresh "l" in let r := fresh "r" in let Hb := fresh "Hb" in
  pose proof (find_cases _ _ _ _ _ type Hm) as Hf; unfold val_of;
  destruct (spec_find _ attrs) as [v|];
  [destruct Hf as (l & r & Hf & Hb & Hv)|]; rewrite Hf; cbn [mbind res_bind]; clear Hf.

Lemma has_attribute_spec type :
  stun_message_has_attribute m type = Ok (match val_of type with Some _ => true | None => false end).
Proof. unfold stun_message_has_attribute. by find_value type v Hv. Qed.

Lemma find_flag_spec type :
  stun_message_find_flag m type = Ok (match val_of type with
    | None => STUN_MESSAGE_RETURN_NOT_FOUND
    | Some v => if zlen v =? 0 then STUN_MESSAGE_RETURN_SUCCESS else STUN_MESSAGE_RETURN_INVALID
    end).
Proof. unfold stun_message_find_flag. by find_value type v Hv. Qed.

Lemma find32_spec type :
  stun_message_find32 m type = Ok (match val_of type with
    | None => (STUN_MESSAGE_RETURN_NOT_FOUND, None)
    | Some v => if zlen v =? 4 then (STUN_MESSAGE_RETURN_SUCCESS, Some (be_value v))
                else (STUN_MESSAGE_RETURN_INVALID, None)
    end).
Proof.
  unfold stun_message_find32. find_value type v Hv; [|done].
  destruct (Z.eqb_spec (zlen v) 4) as [E|]; [|done].
  rewrite (rd_bytes_eq _ l v r) by (done || lia). cbn [mbind res_bind].
  by rewrite ntohl_le_be.
Qed.

Lemma find64_spec type :
  stun_message_find64 m type = Ok (match val_of type with
    | None => (STUN_MESSAGE_RETURN_NOT_FOUND, None)
    | Some v => if zlen v =? 8 then (STUN_MESSAGE_RETURN_SUCCESS, Some (be_value v))
                else (STUN_MESSAGE_RETURN_INVALID, None)
    end).
Proof.
  unfold stun_message_find64. find_value type v Hv; [|done].
  destruct (Z.eqb_spec (zlen v) 8) as [E|]; [|done].
  destruct (split_at v 0 4) as (n & v1 & v2 & -> & Hn & H1); [zlen_pos; lia..|].
  apply zlen_0_nil in Hn as ->. cbn [app] in *. rewrite bytes_app in Hv. destruct Hv as [Hv1 Hv2].
  assert (H2 : zlen v2 = 4) by (rewrite zlen_app in E; lia).
  rewrite (rd_bytes_eq _ l v1 (v2 ++ r) (zlen l) 4) by (rewrite ?Hb; (done || lassoc)).
  rewrite (rd_bytes_eq _ (l ++ v1) v2 r (zlen l + 4) 4)
    by (rewrite ?Hb; (zlen_norm; lia) || lassoc).
  cbn [mbind res_bind]. do 3 f_equal. rewrite !ntohl_le_be by done.
  pose proof (be_value_range v2 Hv2) as Hr. rewrite H2 in Hr.
  rewrite lor_shiftl_add by (done || lia). by rewrite be_value_app, H2.
Qed.

Lemma find_error_spec :
  stun_message_find_error m = Ok (match val_of STUN_ATTRIBUTE_ERROR_CODE with
    | Some (_ :: _ :: c :: n :: _) =>
        let class := Z.land c 7 in
        if (class <? 3) || (6 <? class) || (99 <? n) then (STUN_MESSAGE_RETURN_INVALID, None)
        else (STUN_MESSAGE_RETURN_SUCCESS, Some (class * 100 + n))
    | Some _ => (STUN_MESSAGE_RETURN_INVALID, None)
    | None => (STUN_MESSAGE_RETURN_NOT_FOUND, None)
    end).
Proof.
  unfold stun_message_find_error. find_value STUN_ATTRIBUTE_ERROR_CODE v Hv; [|done].
  destruct v as [|v0 [|v1 [|c [|n v]]]]; try done.
  destruct (Z.ltb_spec (zlen (v0 :: v1 :: c :: n :: v)) 4); [zlia|].
  rewrite Hb, !rd_window by zlia. rewrite rd_2, rd_3. cbn [mbind res_bind].
  by destruct (_ || _ || _).
Qed.

Lemma find_addr_spec type addr addrlen :
  addrlen <= sizeof_sockaddr_storage ->
  stun_message_find_addr m type addr addrlen = Ok (match val_of type with
    | None => (STUN_MESSAGE_RETURN_NOT_FOUND, addr, addrlen)
    | Some (_ :: fam :: p0 :: p1 :: a) =>
        if fam =? 1 then
          if (addrlen <? sizeof_sockaddr_in) || negb (zlen a =? 4) then
            (STUN_MESSAGE_RETURN_INVALID, addr, sizeof_sockaddr_in)
          else (STUN_MESSAGE_RETURN_SUCCESS, sockaddr_in (le_value [p0; p1]) (le_value a),
                sizeof_sockaddr_in)
        else if fam =? 2 then
          if (addrlen <? sizeof_sockaddr_in6) || negb (zlen a =? 16) then
            (STUN_MESSAGE_RETURN_INVALID, addr, sizeof_sockaddr_in6)
          else (STUN_MESSAGE_RETURN_SUCCESS, sockaddr_in6 (le_value [p0; p1]) 0 a 0,
                sizeof_sockaddr_in6)
        else (STUN_MESSAGE_RETURN_UNSUPPORTED_ADDRESS, addr, addrlen)
    | Some _ => (STUN_MESSAGE_RETURN_INVALID, addr, addrlen)
    end).
Proof.
  intros Hal. unfold stun_message_find_addr. find_value type v Hv; [|done].
  destruct v as [|v0 [|fam [|p0 [|p1 a]]]]; try done.
  destruct (Z.ltb_spec (zlen (v0 :: fam :: p0 :: p1 :: a)) 4); [zlia|].
  rewrite Hb. rewrite rd_window, rd_1 by zlia. cbn [mbind res_bind].
  assert (Hsz : forall k, (zlen (v0 :: fam :: p0 :: p1 :: a) =? 4 + k) = (zlen a =? k)).
  { intros k. rewrite !zlen_cons. destruct (Z.eqb_spec (zlen a) k), (Z.eqb_spec (1 + (1 + (1 + (1 + zlen a)))) (4 + k)); try done; lia. }
  assert (Hrd : forall k, zlen a = k ->
    rd_bytes (l ++ (v0 :: fam :: p0 :: p1 :: a) ++ r) (zlen l + 2) 2 = Ok [p0; p1] /\
    rd_bytes (l ++ (v0 :: fam :: p0 :: p1 :: a) ++ r) (zlen l + 4) k = Ok a).
  { intros k <-. zlen_pos. split; rewrite rd_bytes_window by zlia; [done|]. f_equal. unfold slice.
    change (drop (Z.to_nat 4) (v0 :: fam :: p0 :: p1 :: a)) with a. rewrite to_nat_zlen.
    by apply take_ge. }
  change 8 with (4 + 4) at 1. change 20 with (4 + 16) at 1. rewrite !Hsz.
  destruct (Z.ltb_spec sizeof_sockaddr_storage addrlen); [lia|].
  destruct (fam =? 1); [|destruct (fam =? 2); [|done]].
  - destruct (_ || _) eqn:E; [done|]. bool_prop.
    destruct (Hrd 4) as [-> ->]; done.
  - destruct (_ || _) eqn:E; [done|]. bool_prop.
    destruct (Hrd 16) as [-> ->]; done.
Qed.
End access.

(** ** Message types *)

(** The two bytes [stun_set_type] stores. *)
Definition type_bytes (c : StunClass) (m : Z) : list Z :=
  let c := class_code c in
  [ u8 (Z.lor (Z.shiftr c 1) (Z.land (Z.shiftr m 6) 0x3e));
    u8 (Z.lor (Z.lor (Z.land (Z.shiftl c 4) 0x10) (Z.land (Z.shiftl m 1) 0xe0)) (Z.land m 0x0f)) ].

(** Class and method of a type field. *)
Definition class_of_type (t : Z) : StunClass :=
  class_of_code (Z.lor (Z.shiftr (Z.land (type_hack t) 0x0100) 7)
                       (Z.shiftr (Z.land (type_hack t) 0x0010) 4)).
Definition method_of_type (t : Z) : Z :=
  Z.lor (Z.lor (Z.shiftr (Z.land (type_hack t) 0x3e00) 2) (Z.shiftr (Z.land (type_hack t) 0x00e0) 1))
        (Z.land (type_hack t) 0x000f).

(** Class and method a receiver sees for a message built with [c] and [m]:
    the same, except for an error response of method CONNECT. *)
Definition seen_as (c : StunClass) (m : Z) : StunClass * Z :=
  match c with
  | STUN_ERROR => if m =? STUN_CONNECT then (STUN_INDICATION, STUN_IND_DATA) else (c, m)
  | _ => (c, m)
  end.

Definition type_check (m : Z) : bool :=
  forallb (fun c =>
    match type_bytes c m with
    | [x; y] => bool_decide ((class_of_type (x * 256 + y), method_of_type (x * 256 + y)) = seen_as c m)
                && (x <? 64)
    | _ => false
    end) [STUN_REQUEST; STUN_INDICATION; STUN_RESPONSE; STUN_ERROR].

Lemma type_check_all : forallb (fun n => type_check (Z.of_nat n)) (seq 0 4096) = true.
Proof. vm_compute. reflexivity. Qed.

Lemma type_decode c m x y :
  0 <= m < 4096 -> type_bytes c m = [x; y] ->
  (class_of_type (x * 256 + y), method_of_type (x * 256 + y)) = seen_as c m /\ x < 64.
Proof.
  intros Hm Ht. pose proof type_check_all as H. rewrite forallb_forall in H.
  specialize (H (Z.to_nat m)). rewrite Z2Nat.id in H by lia.
  assert (Hin : In (Z.to_nat m) (seq 0 4096)) by (apply in_seq; lia).
  apply H in Hin. unfold type_check in Hin. rewrite forallb_forall in Hin.
  specialize (Hin c). rewrite Ht in Hin.
  destruct (andb_prop _ _ (Hin ltac:(destruct c; simpl; auto))) as [H1 H2].
  apply bool_decide_eq_true in H1. apply Z.ltb_lt in H2. done.
Qed.

Lemma repr_class m ty id attrs rest x y :
  msg_repr m ty id attrs rest -> ty = [x; y] ->
  stun_message_get_class m = Ok (class_of_type (x * 256 + y)) /\
  stun_message_get_method m = Ok (method_of_type (x * 256 + y)).
Proof.
  intros Hm Hty. unfold stun_message_get_class, stun_message_get_method.
  by rewrite (repr_getw0 Hm x y Hty).
Qed.

Lemma set_type_spec a b r c m : stun_set_type (a :: b :: r) c m = Ok (type_bytes c m ++ r).
Proof.
  unfold stun_set_type. rewrite (wr_eq _ [] a (b :: r)) by done. cbn [mbind res_bind app].
  by erewrite (wr_eq _ [_] b r) by done.
Qed.

(** [stun_message_init] builds an empty message. *)
Lemma init_spec m c meth id :
  bytes (buffer m) -> bytes id -> zlen id = 16 -> buffer_len m = zlen (buffer m) ->
  (no_aligned m = false -> buffer_len m mod 4 = 0) ->
  if buffer_len m <? 20 then stun_message_init m c meth id = Ok (false, m)
  else exists m', stun_message_init m c meth id = Ok (true, m') /\
    msg_ok m' (type_bytes c meth) id [] /\ same_meta m m'.
Proof.
  intros Hb Hidb Hid Hs Hal. unfold stun_message_init. change STUN_MESSAGE_HEADER_LENGTH with 20.
  destruct (Z.ltb_spec (buffer_len m) 20) as [|Hge]; [done|].
  destruct (split_at (buffer m) 0 20) as (n & h & r & E & Hn & Hh); [lia..|].
  apply zlen_0_nil in Hn as ->. cbn [app] in E.
  destruct h as [|a [|b [|c0 [|d h]]]]; rewrite ?zlen_cons, ?zlen_nil in Hh; zlen_pos; try lia.
  unfold memset. rewrite E. cbn [app].
  rewrite (wr_bytes_eq _ [] [a; b; c0; d] _ (h ++ r)) by done. cbn [mbind res_bind].
  change ([] ++ replicate (Z.to_nat 4) (u8 0) ++ h ++ r) with (0 :: 0 :: 0 :: 0 :: h ++ r).
  rewrite set_type_spec. cbn [mbind res_bind]. rewrite rd_bytes_Ok by (layout; lia).
  replace (slice id 0 STUN_MESSAGE_TRANS_ID_LEN) with id
    by (change STUN_MESSAGE_TRANS_ID_LEN with 16; rewrite <-Hid; by rewrite slice_all).
  cbn [mbind res_bind]. set (ty := type_bytes c meth).
  rewrite (wr_bytes_eq _ (ty ++ [0; 0]) h id r); [|lassoc|done|lia]. cbn [mbind res_bind].
  eexists. split; [done|]. split; [|done].
  constructor; cbn [buffer set_buffer buffer_len].
  - exists r. constructor; cbn [buffer set_buffer]; try done.
    rewrite E, !bytes_app in Hb. rewrite !bytes_app. repeat split; auto; try apply Hb.
    + unfold ty, type_bytes. rewrite !bytes_cons. split; [apply u8_range|split; [apply u8_range|constructor]].
    + by apply bytes_replicate with (n := 2%nat).
  - rewrite Hs, E. zlen_norm. change (zlen ty) with 2. lia.
  - done.
Qed.

(** ** Appending structured values *)

Lemma wr_bytes_seq b off xs ys :
  0 <= off -> off + zlen xs + zlen ys <= zlen b ->
  (b' ← wr_bytes b off xs; wr_bytes b' (off + zlen xs) ys) = wr_bytes b off (xs ++ ys).
Proof.
  intros. zlen_pos. rewrite wr_bytes_Ok by lia. cbn [mbind res_bind].
  rewrite !wr_bytes_Ok by (rewrite ?zlen_splice; zlia). f_equal. by apply splice_splice.
Qed.

(** The value of an address attribute. *)
Definition addr_value (family port : Z) (pa : list Z) : list Z :=
  [0; family] ++ le_bytes 2 port ++ pa.

(** The value of an ERROR-CODE attribute. *)
Definition error_value (code : Z) : list Z :=
  [0; 0; u8 (Z.quot code 100); u8 (Z.rem code 100)] ++ stun_strerror code.

Lemma bytes_strerror code : bytes (stun_strerror code).
Proof.
  assert (Hs : forall s, bytes (cstr s)).
  { induction s as [|c s IH]; [constructor|]. constructor; [|done].
    unfold is_byte. pose proof (Ascii.N_ascii_bounded c). lia. }
  unfold stun_strerror. destruct (List.find _ _) as [[]|]; apply Hs.
Qed.

Lemma zlen_strerror code : 0 <= zlen (stun_strerror code) < 32.
Proof.
  assert (H : forallb (fun '(_, s) => zlen (cstr s) <? 32) strerror_tab = true) by (vm_compute; done).
  zlen_pos. split; [lia|]. unfold stun_strerror. destruct (List.find _ _) as [[c s]|] eqn:E; [|vm_compute; done].
  apply List.find_some in E as [E _]. rewrite forallb_forall in H. apply H in E. by apply Z.ltb_lt in E.
Qed.

Section append_values.
Context {m : StunMessage} {ty id : list Z} {attrs : list wattr}.
Hypothesis Hm : msg_ok m ty id attrs.

(** Storing an address piecewise is storing its value. *)
Lemma append_addr_bytes type family port pa :
  20 + zlen (enc_all attrs) + attr_size m (4 + zlen pa) < 65536 -> is_byte family ->
  ('(ptr, msg) ← stun_message_append m type (4 + zlen pa);
   match ptr with
   | None => Ok (STUN_MESSAGE_RETURN_NOT_ENOUGH_SPACE, msg)
   | Some ptr =>
       b ← wr (buffer msg) ptr 0;
       b ← wr b (ptr + 1) family;
       b ← wr_bytes b (ptr + 2) (le_bytes 2 port);
       b ← wr_bytes b (ptr + 4) pa;
       Ok (STUN_MESSAGE_RETURN_SUCCESS, set_buffer msg b)
   end) = stun_message_append_bytes m type (addr_value family port pa).
Proof.
  intros H16 Hf. zlen_pos. unfold stun_message_append_bytes.
  assert (Hl : zlen (addr_value family port pa) = 4 + zlen pa)
    by (unfold addr_value; zlen_norm; lia).
  rewrite Hl. pose proof (append_spec m ty id attrs type (4 + zlen pa) Hm) as Ha.
  destruct (_ <? _); [by rewrite Ha by lia|]. destruct Ha as (b & -> & Hsz & _); [lia..|].
  cbn [mbind res_bind buffer set_buffer]. set (o := 24 + zlen (enc_all attrs)) in *.
  destruct (Z.ltb_spec 0 (4 + zlen pa)); [|lia].
  unfold addr_value, wr. rewrite u8_small by done. change (u8 0) with 0.
  rewrite (wr_bytes_Ok b o [0]) by zlia. cbn [mbind res_bind].
  replace (o + 1) with (o + zlen [0]) by zlia.
  rewrite wr_bytes_Ok by (rewrite ?zlen_splice; zlia). cbn [mbind res_bind].
  rewrite splice_splice by zlia. replace (o + 2) with (o + zlen ([0] ++ [family])) by zlia.
  rewrite wr_bytes_Ok by (rewrite ?zlen_splice; zlia). cbn [mbind res_bind].
  rewrite splice_splice by zlia.
  replace (o + 4) with (o + zlen (([0] ++ [family]) ++ le_bytes 2 port)) by zlia.
  rewrite wr_bytes_Ok by (rewrite ?zlen_splice; zlia). cbn [mbind res_bind].
  rewrite splice_splice by zlia.
  rewrite wr_bytes_Ok by zlia. by rewrite <-!app_assoc.
Qed.

Lemma append_error_bytes code :
  20 + zlen (enc_all attrs) + attr_size m (4 + zlen (stun_strerror code)) < 65536 ->
  stun_message_append_error m code =
    stun_message_append_bytes m STUN_ATTRIBUTE_ERROR_CODE (error_value code).
Proof.
  intros H16. zlen_pos. unfold stun_message_append_error, stun_message_append_bytes.
  assert (Hl : zlen (error_value code) = 4 + zlen (stun_strerror code))
    by (unfold error_value; zlen_norm; lia).
  rewrite Hl. pose proof (append_spec m ty id attrs STUN_ATTRIBUTE_ERROR_CODE
    (4 + zlen (stun_strerror code)) Hm) as Ha.
  destruct (_ <? _); [by rewrite Ha by lia|]. destruct Ha as (b & -> & Hsz & _); [lia..|].
  cbn [mbind res_bind buffer set_buffer]. set (o := 24 + zlen (enc_all attrs)) in *.
  destruct (Z.ltb_spec 0 (4 + zlen (stun_strerror code))); [|lia].
  unfold memset, wr. change (replicate (Z.to_nat 2) (u8 0)) with [0; 0].
  rewrite (wr_bytes_Ok b o [0; 0]) by zlia. cbn [mbind res_bind].
  replace (o + 2) with (o + zlen [0; 0]) by zlia.
  rewrite wr_bytes_Ok by (rewrite ?zlen_splice; zlia). cbn [mbind res_bind].
  rewrite splice_splice by zlia.
  replace (o + 3) with (o + zlen ([0; 0] ++ [u8 (code ÷ 100)])) by zlia.
  rewrite wr_bytes_Ok by (rewrite ?zlen_splice; zlia). cbn [mbind res_bind].
  rewrite splice_splice by zlia.
  replace (o + 4) with (o + zlen (([0; 0] ++ [u8 (code ÷ 100)]) ++ [u8 (Z.rem code 100)])) by zlia.
  rewrite wr_bytes_Ok by (rewrite ?zlen_splice; zlia). cbn [mbind res_bind].
  rewrite splice_splice by zlia.
  rewrite wr_bytes_Ok by zlia. by rewrite <-!app_assoc.
Qed.
End append_values.

(** ** Searching an extended message *)

(** No attribute of [attrs] hides a later attribute of type [t]. *)
Definition visible (t : Z) (attrs : list wattr) : Prop :=
  Forall (fun a => w_type a <> t /\ w_type a <> STUN_ATTRIBUTE_FINGERPRINT /\
    (w_type a = STUN_ATTRIBUTE_MESSAGE_INTEGRITY -> t = STUN_ATTRIBUTE_FINGERPRINT)) attrs.

Lemma spec_find_snoc_eq attrs a :
  visible (w_type a) attrs -> spec_find (w_type a) (attrs ++ [a]) = Some (w_val a).
Proof.
  induction 1 as [|x l (Hx & Hf & Hi) _ IH]; cbn [app spec_find]; [by rewrite Z.eqb_refl|].
  destruct (Z.eqb_spec (w_type x) (w_type a)); [done|].
  destruct (Z.eqb_spec (w_type x) STUN_ATTRIBUTE_FINGERPRINT); [done|].
  destruct (Z.eqb_spec (w_type x) STUN_ATTRIBUTE_MESSAGE_INTEGRITY) as [E|]; [|done].
  rewrite (Hi E), Z.eqb_refl. cbn [andb negb]. by rewrite <-(Hi E).
Qed.

Lemma spec_find_snoc_ne t attrs a :
  w_type a <> t -> spec_find t (attrs ++ [a]) = spec_find t attrs.
Proof.
  intros Ha. induction attrs as [|x l IH]; cbn [app spec_find].
  - destruct (Z.eqb_spec (w_type a) t); [done|]. destruct (_ =? _); [done|]. by destruct (_ && _).
  - by rewrite IH.
Qed.

Lemma w_type_new_attr m id t v : w_type (new_attr m id t v) = u16 (swap_realm_nonce m t).
Proof. unfold new_attr. by destruct (no_aligned m), (cookie_id id). Qed.

Lemma w_val_new_attr m id t v :
  no_aligned m = true \/ cookie_id id = true \/ zlen v mod 4 = 0 ->
  w_val (new_attr m id t v) = v.
Proof.
  unfold new_attr. intros H. destruct (no_aligned m), (cookie_id id); try done.
  destruct H as [?|[?|H]]; try done. unfold zeros. cbn.
  rewrite stun_padding_mod4 by done. apply app_nil_r.
Qed.

Lemma u16_attr m t : 0 <= t < 65536 -> u16 (swap_realm_nonce m t) = swap_realm_nonce m t.
Proof.
  intros. apply u16_small. unfold swap_realm_nonce.
  destruct (is_oc2007 m); [|done]. destruct (_ =? _); [done|]. by destruct (_ =? _).
Qed.

(** * Transport addresses in attributes

    The value of an address attribute, how the XOR mask acts on addresses, and
    what the address accessors do with such values. *)

(** Addresses with fields of their C types. *)
Definition wf_sockaddr (a : sockaddr) : Prop :=
  match a with
  | sockaddr_in port x => 0 <= port < 65536 /\ 0 <= x < 2 ^ 32
  | sockaddr_in6 port flow x scope =>
      0 <= port < 65536 /\ bytes x /\ zlen x = 16 /\ flow = 0 /\ scope = 0
  | sockaddr_other _ => False
  end.

Definition sizeof_addr (a : sockaddr) : Z :=
  match a with sockaddr_in6 _ _ _ _ => sizeof_sockaddr_in6 | _ => sizeof_sockaddr_in end.

Ltac sizes := unfold sizeof_addr, sizeof_sockaddr, sizeof_sockaddr_in, sizeof_sockaddr_in6,
  sizeof_sockaddr_storage in *.

Lemma lxor_range a b n : 0 <= n -> 0 <= a < 2 ^ n -> 0 <= b < 2 ^ n -> 0 <= Z.lxor a b < 2 ^ n.
Proof.
  intros Hn Ha Hb. assert (H0 : 0 <= Z.lxor a b) by (apply Z.lxor_nonneg; lia). split; [done|].
  destruct (decide (Z.lxor a b = 0)) as [->|Hnz]; [lia|]. apply Z.log2_lt_pow2; [lia|].
  pose proof (Z.log2_lxor a b ltac:(lia) ltac:(lia)) as Hl.
  assert (H : forall x, 0 <= x < 2 ^ n -> 0 < n -> Z.log2 x < n).
  { intros x Hx Hn0. destruct (decide (x = 0)) as [->|]; [done|]. apply Z.log2_lt_pow2; lia. }
  destruct (decide (n = 0)) as [->|]; [change (2 ^ 0) with 1 in *; assert (a = 0) by lia;
    assert (b = 0) by lia; by subst|].
  pose proof (H a Ha ltac:(lia)). pose proof (H b Hb ltac:(lia)). lia.
Qed.

Lemma htons_range x : 0 <= htons x < 65536.
Proof. unfold htons. rewrite bswap16_arith. unfold u16. Z.to_euclidean_division_equations; lia. Qed.
Lemma htonl_range x : 0 <= htonl x < 2 ^ 32.
Proof. unfold htonl. rewrite bswap32_arith. unfold u32. Z.to_euclidean_division_equations; lia. Qed.

Lemma zip_lxor_involutive a k : length a = length k ->
  zip_with Z.lxor (zip_with Z.lxor a k) k = a.
Proof.
  revert k. induction a as [|x a IH]; intros [|y k] Hl; try done. cbn. f_equal.
  - rewrite Z.lxor_assoc, Z.lxor_nilpotent. apply Z.lxor_0_r.
  - apply IH. simpl in Hl; lia.
Qed.

Lemma bytes_zip_lxor a k : bytes a -> bytes k -> bytes (zip_with Z.lxor a k).
Proof.
  intros Ha. revert k. induction Ha as [|x a Hx _ IH]; intros [|y k] Hk; try constructor.
  - apply bytes_cons in Hk as [Hy _]. apply (lxor_range x y 8); done || lia.
  - apply bytes_cons in Hk as [_ Hk]. by apply IH.
Qed.

(** The masked address. *)
Definition mask_addr (id : list Z) (cookie : Z) (a : sockaddr) : sockaddr :=
  match a with
  | sockaddr_in port x =>
      sockaddr_in (Z.lxor port (htons (Z.shiftr cookie 16))) (Z.lxor x (htonl cookie))
  | sockaddr_in6 port flow x scope =>
      sockaddr_in6 (Z.lxor port (htons (Z.shiftr cookie 16))) flow (zip_with Z.lxor x id) scope
  | _ => a
  end.

Lemma xor_address_spec m ty id attrs rest a len cookie :
  msg_repr m ty id attrs rest -> wf_sockaddr a -> sizeof_addr a <= len ->
  stun_xor_address m a len cookie = Ok (STUN_MESSAGE_RETURN_SUCCESS, mask_addr id cookie a).
Proof.
  intros Hm Ha Hl. destruct a as [port x|port flow x scope|]; [| |done]; cbn [stun_xor_address].
  - destruct (Z.ltb_spec len sizeof_sockaddr_in); [sizes; lia|done].
  - destruct (Z.ltb_spec len sizeof_sockaddr_in6); [sizes; lia|].
    pose proof (repr_id Hm) as Hid. unfold stun_message_id in Hid. layout.
    change (0 + 2 + 2) with 4 in Hid. by rewrite Hid.
Qed.

Lemma wf_mask_addr id cookie a : bytes id -> zlen id = 16 ->
  wf_sockaddr a -> wf_sockaddr (mask_addr id cookie a) /\ sizeof_addr (mask_addr id cookie a) = sizeof_addr a
    /\ mask_addr id cookie (mask_addr id cookie a) = a.
Proof.
  intros Hid Hl. destruct a as [port x|port flow x scope|]; [| |done]; cbn.
  - intros [Hp Hx]. rewrite !Z.lxor_assoc, !Z.lxor_nilpotent, !Z.lxor_0_r. split; [|done].
    split; [apply (lxor_range _ _ 16)|apply (lxor_range _ _ 32)]; auto using htons_range, htonl_range; lia.
  - intros (Hp & Hx & Hxl & -> & ->).
    assert (length x = length id) by (unfold zlen in *; lia).
    rewrite zip_lxor_involutive, Z.lxor_assoc, Z.lxor_nilpotent, Z.lxor_0_r by done.
    split; [|done]. split; [apply (lxor_range _ _ 16); auto using htons_range; lia|].
    split; [by apply bytes_zip_lxor|]. split; [|done].
    unfold zlen in *. rewrite length_zip_with. lia.
Qed.

Lemma le_bytes_2_inv port : 0 <= port < 65536 -> le_value (le_bytes 2 port) = port.
Proof. intros. rewrite le_value_bytes. apply Z.mod_small. done. Qed.

(** The value of the attribute for an address. *)
Definition addr_bytes (a : sockaddr) : list Z :=
  match a with
  | sockaddr_in port x => addr_value 1 port (le_bytes 4 x)
  | sockaddr_in6 port _ x _ => addr_value 2 port x
  | sockaddr_other _ => []
  end.

Lemma addr_bytes_spec a :
  wf_sockaddr a -> bytes (addr_bytes a) /\ zlen (addr_bytes a) mod 4 = 0 /\ 8 <= zlen (addr_bytes a) <= 20.
Proof.
  destruct a as [port x|port flow x scope|]; [| |done]; cbn [addr_bytes wf_sockaddr]; intros Ha.
  - split; [|done]. unfold addr_value. rewrite !bytes_app. repeat split; auto with cint.
    apply (bool_decide_eq_true_1 _); reflexivity.
  - destruct Ha as (Hp & Hx & Hxl & _ & _).
    replace (zlen (addr_value 2 port x)) with 20 by (unfold addr_value; zlen_norm; lia). split; [|by split; [|lia]].
    unfold addr_value. rewrite !bytes_app. repeat split; auto with cint.
    apply (bool_decide_eq_true_1 _); reflexivity.
Qed.

Lemma append_addr_value m ty id attrs type a len :
  msg_ok m ty id attrs -> 20 + zlen (enc_all attrs) + 24 < 65536 -> wf_sockaddr a -> sizeof_addr a <= len ->
  stun_message_append_addr m type a len = stun_message_append_bytes m type (addr_bytes a).
Proof.
  intros Hm H16 Ha Hl. assert (Hs : attr_size m 8 = 12 /\ attr_size m 20 = 24)
    by (unfold attr_size, pad_len; by destruct (negb _)).
  destruct Hs as [Hs8 Hs20]. unfold stun_message_append_addr.
  destruct (Z.ltb_spec len sizeof_sockaddr); [destruct a; [sizes; lia|sizes; lia|done]|].
  destruct a as [port x|port flow x scope|]; [| |done]; cbn in Ha, Hl.
  - apply (append_addr_bytes Hm); [change (4 + zlen (le_bytes 4 x)) with 8; lia|done].
  - destruct Ha as (Hp & Hx & Hxl & -> & ->). destruct (Z.ltb_spec len sizeof_sockaddr_in6); [lia|].
    apply (append_addr_bytes Hm); [rewrite Hxl; change (4 + 16) with 20; lia|done].
Qed.

Lemma find_addr_value m ty id attrs rest type a a0 len0 :
  msg_repr m ty id attrs rest -> spec_find (swap_realm_nonce m type) attrs = Some (addr_bytes a) ->
  wf_sockaddr a -> sizeof_addr a <= len0 <= sizeof_sockaddr_storage ->
  stun_message_find_addr m type a0 len0 = Ok (STUN_MESSAGE_RETURN_SUCCESS, a, sizeof_addr a).
Proof.
  intros Hr Hf Ha Hl0. rewrite (find_addr_spec Hr) by lia. unfold val_of. rewrite Hf.
  destruct a as [port x|port flow x scope|]; [| |done]; cbn in Ha, Hl0.
  - cbn [addr_bytes addr_value app le_bytes]. change (1 =? 1) with true. cbv iota.
    destruct (Z.ltb_spec len0 sizeof_sockaddr_in); [lia|]. cbn [orb]. change (negb (zlen _ =? 4)) with false.
    cbv iota. do 3 f_equal. f_equal; [exact (le_bytes_2_inv port (proj1 Ha))|].
    change (le_value (le_bytes 4 x) = x). rewrite le_value_bytes. apply Z.mod_small. apply Ha.
  - destruct Ha as (Hp & Hx & Hxl & -> & ->).
    cbn [addr_bytes addr_value app le_bytes]. change (2 =? 1) with false. change (2 =? 2) with true. cbv iota.
    destruct (Z.ltb_spec len0 sizeof_sockaddr_in6); [lia|]. rewrite Hxl. cbn [orb].
    change (negb (16 =? 16)) with false. cbv iota. do 3 f_equal.
    f_equal. exact (le_bytes_2_inv port Hp).
Qed.

(** The same for masked addresses. *)
Lemma append_xor_value m ty id attrs type a len cookie :
  msg_ok m ty id attrs -> 20 + zlen (enc_all attrs) + 24 < 65536 -> wf_sockaddr a -> sizeof_addr a <= len ->
  stun_message_append_xor_addr_full m type a len cookie =
  stun_message_append_bytes m type (addr_bytes (mask_addr id cookie a)).
Proof.
  intros Hm H16 Ha Hl. pose proof Hm as [[rest Hr] _ _].
  pose proof Hr as [Hb _ Hid _ _ Hbs]. rewrite Hb, !bytes_app in Hbs.
  destruct (wf_mask_addr id cookie a) as (Hwf & Hsz & Hinv); [apply Hbs|done|done|].
  unfold stun_message_append_xor_addr_full.
  assert (Hsza : 16 <= sizeof_addr a <= 28) by (destruct a; sizes; lia).
  set (len' := if sizeof_sockaddr_storage <? len then sizeof_sockaddr_storage else len) in *.
  assert (Hl' : sizeof_addr a <= len').
  { unfold len'. destruct (Z.ltb_spec sizeof_sockaddr_storage len); [|done]. destruct a; sizes; lia. }
  destruct (Z.ltb_spec len' 2); [lia|].
  rewrite (xor_address_spec _ _ _ _ _ _ _ _ Hr) by done. cbn [mbind res_bind].
  apply (append_addr_value m ty id attrs); try done. by rewrite Hsz.
Qed.

Lemma find_xor_value m ty id attrs rest type a a0 len0 cookie :
  msg_repr m ty id attrs rest -> bytes id ->
  spec_find (swap_realm_nonce m type) attrs = Some (addr_bytes (mask_addr id cookie a)) ->
  wf_sockaddr a -> sizeof_addr a <= len0 <= sizeof_sockaddr_storage ->
  stun_message_find_xor_addr_full m type a0 len0 cookie = Ok (STUN_MESSAGE_RETURN_SUCCESS, a, sizeof_addr a).
Proof.
  intros Hr Hbi Hf Ha Hl0. pose proof Hr as [_ _ Hid _ _ _].
  destruct (wf_mask_addr id cookie a) as (Hwf & Hsz & Hinv); [done..|].
  unfold stun_message_find_xor_addr_full.
  rewrite (find_addr_value _ _ _ _ _ _ _ a0 len0 Hr Hf Hwf) by (by rewrite Hsz). cbn [mbind res_bind].
  rewrite (xor_address_spec _ _ _ _ _ _ _ _ Hr) by done. cbn [mbind res_bind]. by rewrite Hinv, Hsz.
Qed.
