(* ===== verification/StunMessageProps.v ===== *)
(** * Properties of the STUN message component

    The theorems on stun/stunmessage.c, stun/utils.c and stun/stun5389.c that
    the rest of the library is entitled to rely on. *)
From S2P Require Import Prelude CMem StunTypes StunMessage StunWire StunAppend StunAccess.

(** A small request with a cookie, used to instantiate the theorems. *)
Definition ex_id : list Z := be_bytes 4 STUN_MAGIC_COOKIE ++ [1; 2; 3; 4; 5; 6; 7; 8; 9; 10; 11; 12].
Definition ex_msg : StunMessage :=
  mkMessage None ([0; 1; 0; 0] ++ ex_id ++ replicate 60 7) 80 None [] false.

Lemma ex_msg_ok : msg_ok ex_msg [0; 1] ex_id [].
Proof.
  constructor; [|reflexivity|reflexivity]. exists (replicate 60 7).
  constructor; try reflexivity; [constructor|].
  apply (bool_decide_eq_true_1 _). vm_compute. reflexivity.
Qed.

(** A received buffer: the request above with a PRIORITY attribute. *)
Definition ex_buf : list Z := [0; 1; 0; 8] ++ ex_id ++ [0; 36; 0; 4; 110; 0; 1; 255].
Definition ex_rcv : StunMessage := mkMessage None ex_buf 28 None [] false.

Lemma ex_rcv_repr : msg_repr ex_rcv [0; 1] ex_id [mkAttr 36 [110; 0; 1; 255] []] [].
Proof.
  constructor; try reflexivity.
  - constructor; [|constructor]. constructor; try done; apply (bool_decide_eq_true_1 _);
      vm_compute; reflexivity.
  - apply (bool_decide_eq_true_1 _). vm_compute. reflexivity.
Qed.

(** ** Received buffers *)

(** C8: once [stun_message_validate_buffer_length] has accepted a buffer
    (with a length that fits the 16-bit length arithmetic of the message
    functions), [stun_message_find] terminates without reading outside the
    message for every attribute type, and the window it returns lies inside
    the accepted length, after the header. *)
Theorem stun_message_find_safe m type r :
  bytes (buffer m) ->
  stun_message_validate_buffer_length (buffer m) (zlen (buffer m)) (negb (no_aligned m)) = Ok r ->
  0 < r < 65536 ->
  exists found, stun_message_find m type = Ok found /\
    forall o n, found = Some (o, n) -> 24 <= o /\ 0 <= n /\ o + n <= r.
Proof.
  intros Hb Hv Hr. destruct (validate_repr m r Hb Hv Hr) as (ty & id & attrs & rest & Hm & ->).
  pose proof (find_spec _ _ _ _ _ type Hm) as Hf.
  destruct (spec_find _ attrs) as [v|]; [|by eexists].
  destruct Hf as (o & Hf & ? & ? & _). eexists. split; [done|].
  intros o' n' [= <- <-]. zlen_pos. lia.
Qed.

Lemma stun_message_find_safe_witness :
  exists found, stun_message_find ex_rcv STUN_ATTRIBUTE_PRIORITY = Ok found /\
    forall o n, found = Some (o, n) -> 24 <= o /\ 0 <= n /\ o + n <= 28.
Proof.
  apply (stun_message_find_safe ex_rcv STUN_ATTRIBUTE_PRIORITY 28).
  - apply (bool_decide_eq_true_1 _). vm_compute. reflexivity.
  - vm_compute. reflexivity.
  - lia.
Defined.

(** C10: the framing check accepts a buffer with length [r] exactly when the
    buffer starts with two zero bits and is a 20-byte header followed by a
    sequence of well-formed attributes of the announced total length: it
    agrees with an independent decoder of the wire format. *)
Theorem validate_iff_decodable pad b r :
  bytes b -> 0 < r ->
  stun_message_validate_buffer_length b (zlen b) pad = Ok r <->
  exists ty id attrs rest,
    b = ty ++ be_bytes 2 (zlen (enc_all attrs)) ++ id ++ enc_all attrs ++ rest /\
    zlen ty = 2 /\ nth 0 ty 0 < 64 /\ zlen id = 16 /\ zlen (enc_all attrs) < 65536 /\
    Forall (wf_attr pad) attrs /\ r = 20 + zlen (enc_all attrs).
Proof.
  intros Hb Hr. rewrite validate_spec by done. rewrite <-validate_accepts by done.
  split; [by intros [= ->]|by intros ->].
Qed.

Lemma validate_iff_decodable_witness :
  stun_message_validate_buffer_length ex_buf (zlen ex_buf) true = Ok 28 <->
  exists ty id attrs rest,
    ex_buf = ty ++ be_bytes 2 (zlen (enc_all attrs)) ++ id ++ enc_all attrs ++ rest /\
    zlen ty = 2 /\ nth 0 ty 0 < 64 /\ zlen id = 16 /\ zlen (enc_all attrs) < 65536 /\
    Forall (wf_attr true) attrs /\ 28 = 20 + zlen (enc_all attrs).
Proof.
  apply (validate_iff_decodable true ex_buf 28); [|lia].
  apply (bool_decide_eq_true_1 _). vm_compute. reflexivity.
Defined.

(** On every byte string whatsoever the framing check terminates
    without an out-of-bounds access, and its result is "invalid",
    "incomplete", or a length of at least a header and at most the bytes
    received. *)
Theorem validate_total pad b :
  bytes b -> exists r, stun_message_validate_buffer_length b (zlen b) pad = Ok r /\
    (r = STUN_MESSAGE_BUFFER_INVALID \/ r = STUN_MESSAGE_BUFFER_INCOMPLETE \/ 20 <= r <= zlen b).
Proof.
  intros Hb. eexists. split; [by apply validate_spec|]. by apply spec_validate_range.
Qed.

Lemma validate_total_witness :
  exists r, stun_message_validate_buffer_length [255; 1] (zlen [255; 1]) true = Ok r /\
    (r = STUN_MESSAGE_BUFFER_INVALID \/ r = STUN_MESSAGE_BUFFER_INCOMPLETE \/ 20 <= r <= 2).
Proof.
  apply (validate_total true [255; 1]). apply (bool_decide_eq_true_1 _). reflexivity.
Defined.

(** [stun_message_find] implements the lookup of the abstract
    attribute sequence: it returns a pointer to the value of the first
    attribute of the requested type (REALM and NONCE exchanged for MS-TURN
    agents) that no misordered MESSAGE-INTEGRITY or FINGERPRINT hides, and
    [NULL] when there is none. *)
Theorem stun_message_find_refines m ty id attrs rest type :
  msg_repr m ty id attrs rest ->
  match spec_find (swap_realm_nonce m type) attrs with
  | None => stun_message_find m type = Ok None
  | Some v => exists o, stun_message_find m type = Ok (Some (o, zlen v)) /\
      slice (buffer m) o (zlen v) = v
  end.
Proof.
  intros Hm. pose proof (find_spec _ _ _ _ _ type Hm) as Hf.
  destruct (spec_find _ attrs) as [v|]; [|done]. destruct Hf as (o & ? & _ & _ & ?). eauto.
Qed.

Lemma stun_message_find_refines_witness :
  exists o, stun_message_find ex_rcv STUN_ATTRIBUTE_PRIORITY = Ok (Some (o, zlen [110; 0; 1; 255])) /\
    slice (buffer ex_rcv) o (zlen [110; 0; 1; 255]) = [110; 0; 1; 255].
Proof.
  exact (stun_message_find_refines ex_rcv _ _ _ _ STUN_ATTRIBUTE_PRIORITY ex_rcv_repr).
Defined.

(** ** Messages under construction *)

(** Appending bytes to a message whose buffer has the announced size
    (a multiple of four unless attributes are unaligned) either reports
    "not enough space" and leaves the message untouched, exactly when the
    attribute does not fit, or succeeds and yields the message with that one
    attribute added at the end, padded with zeros, and nothing else changed;
    no store leaves the buffer. *)
Theorem append_bytes_refines m ty id attrs type v :
  msg_ok m ty id attrs -> bytes v -> 20 + zlen (enc_all attrs) + attr_size m (zlen v) < 65536 ->
  if buffer_len m <? 24 + zlen (enc_all attrs) + zlen v then
    stun_message_append_bytes m type v = Ok (STUN_MESSAGE_RETURN_NOT_ENOUGH_SPACE, m)
  else exists m', stun_message_append_bytes m type v = Ok (STUN_MESSAGE_RETURN_SUCCESS, m') /\
      msg_ok m' ty id (attrs ++ [new_attr m id type v]) /\ same_meta m m'.
Proof. apply append_bytes_spec. Qed.

Lemma append_bytes_refines_witness :
  exists m', stun_message_append_bytes ex_msg STUN_ATTRIBUTE_USERNAME [97; 98; 99] =
      Ok (STUN_MESSAGE_RETURN_SUCCESS, m') /\
    msg_ok m' [0; 1] ex_id ([] ++ [new_attr ex_msg ex_id STUN_ATTRIBUTE_USERNAME [97; 98; 99]]) /\
    same_meta ex_msg m'.
Proof.
  apply (append_bytes_refines ex_msg [0; 1] ex_id [] STUN_ATTRIBUTE_USERNAME [97; 98; 99] ex_msg_ok).
  - apply (bool_decide_eq_true_1 _). vm_compute. reflexivity.
  - vm_compute. reflexivity.
Defined.

(** What a successful append of [v] leaves behind. *)
Lemma append_find_raw m ty id attrs type v m' :
  msg_ok m ty id attrs -> bytes v -> 20 + zlen (enc_all attrs) + attr_size m (zlen v) < 65536 ->
  0 <= type < 65536 -> visible (swap_realm_nonce m type) attrs ->
  stun_message_append_bytes m type v = Ok (STUN_MESSAGE_RETURN_SUCCESS, m') ->
  exists rest', msg_repr m' ty id (attrs ++ [new_attr m id type v]) rest' /\
    spec_find (swap_realm_nonce m' type) (attrs ++ [new_attr m id type v]) =
      Some (w_val (new_attr m id type v)) /\
    same_meta m m'.
Proof.
  intros Hm Hv H16 Ht Hvis Happ. pose proof (append_bytes_spec m ty id attrs type v Hm Hv H16) as Hs.
  destruct (_ <? _); [congruence|]. destruct Hs as (m'' & Hs & [[rest' Hr] _ _] & Hmeta).
  rewrite Happ in Hs. injection Hs as <-. exists rest'. split; [done|]. split; [|done].
  rewrite (swap_meta m m' type Hmeta), <-(u16_attr m type), <-(w_type_new_attr m id type v) by done.
  apply spec_find_snoc_eq. by rewrite w_type_new_attr, u16_attr.
Qed.

Lemma append_find_value m ty id attrs type v m' :
  msg_ok m ty id attrs -> bytes v -> 20 + zlen (enc_all attrs) + attr_size m (zlen v) < 65536 ->
  0 <= type < 65536 -> visible (swap_realm_nonce m type) attrs ->
  no_aligned m = true \/ cookie_id id = true \/ zlen v mod 4 = 0 ->
  stun_message_append_bytes m type v = Ok (STUN_MESSAGE_RETURN_SUCCESS, m') ->
  exists rest', msg_repr m' ty id (attrs ++ [new_attr m id type v]) rest' /\
    spec_find (swap_realm_nonce m' type) (attrs ++ [new_attr m id type v]) = Some v /\
    same_meta m m'.
Proof.
  intros ?????? Happ. destruct (append_find_raw m ty id attrs type v m') as (r & ? & Hf & ?); auto.
  rewrite w_val_new_attr in Hf by done. eauto.
Qed.



(** 32-bit and 64-bit attributes survive the trip: what
    [stun_message_append32] and [stun_message_append64] store (in network
    order) is what [stun_message_find32] and [stun_message_find64] return,
    for every value of the type. *)
Theorem append_int_roundtrip m ty id attrs type x m' :
  msg_ok m ty id attrs -> 20 + zlen (enc_all attrs) + 12 < 65536 ->
  0 <= type < 65536 -> visible (swap_realm_nonce m type) attrs ->
  (0 <= x < 2 ^ 32 -> stun_message_append32 m type x = Ok (STUN_MESSAGE_RETURN_SUCCESS, m') ->
   stun_message_find32 m' type = Ok (STUN_MESSAGE_RETURN_SUCCESS, Some x)) /\
  (0 <= x < 2 ^ 64 -> stun_message_append64 m type x = Ok (STUN_MESSAGE_RETURN_SUCCESS, m') ->
   stun_message_find64 m' type = Ok (STUN_MESSAGE_RETURN_SUCCESS, Some x)).
Proof.
  intros Hm H16 Ht Hvis. unfold stun_message_append32, stun_message_append64.
  assert (Hsz : attr_size m 4 = 8 /\ attr_size m 8 = 12).
  { unfold attr_size, pad_len. by destruct (negb _). }
  destruct Hsz as [Hs4 Hs8]. rewrite !le_bytes_htonl. split; intros Hx Happ.
  - destruct (append_find_value m ty id attrs type (be_bytes 4 x) m') as (rest' & Hr & Hf & _); auto with cint.
    { rewrite zlen_be_bytes. change (Z.of_nat 4) with 4. lia. }
    rewrite (find32_spec Hr). unfold val_of. rewrite Hf, zlen_be_bytes. change (Z.of_nat 4 =? 4) with true. cbv iota.
    rewrite be_value_bytes. change (256 ^ Z.of_nat 4) with (2 ^ 32). by rewrite Z.mod_small.
  - set (v := be_bytes 4 (u32 (Z.shiftr x 32)) ++ be_bytes 4 (u32 x)) in *.
    assert (Hv : zlen v = 8) by (unfold v; by zlen_norm).
    destruct (append_find_value m ty id attrs type v m') as (rest' & Hr & Hf & _); auto.
    { unfold v. rewrite bytes_app. auto with cint. }
    { rewrite Hv. lia. }
    rewrite (find64_spec Hr). unfold val_of. rewrite Hf, Hv. change (8 =? 8) with true. cbv iota. do 3 f_equal. unfold v.
    rewrite be_value_app, !be_value_bytes, zlen_be_bytes, Z.shiftr_div_pow2 by lia. unfold u32.
    change (256 ^ Z.of_nat 4) with 4294967296. change (2 ^ 32) with 4294967296.
    rewrite !Z.mod_mod by lia. rewrite (Z.mod_small (x / _)) by
      (change (2 ^ 64) with (4294967296 * 4294967296) in Hx; Z.to_euclidean_division_equations; lia).
    Z.to_euclidean_division_equations; lia.
Qed.

Lemma append_int_roundtrip_witness : exists m',
  stun_message_append64 ex_msg STUN_ATTRIBUTE_ICE_CONTROLLING 0x1122334455667788 =
    Ok (STUN_MESSAGE_RETURN_SUCCESS, m') /\
  stun_message_find64 m' STUN_ATTRIBUTE_ICE_CONTROLLING =
    Ok (STUN_MESSAGE_RETURN_SUCCESS, Some 0x1122334455667788).
Proof.
  eexists. split; [vm_compute; reflexivity|].
  apply (append_int_roundtrip ex_msg [0; 1] ex_id [] STUN_ATTRIBUTE_ICE_CONTROLLING
    0x1122334455667788).
  - exact ex_msg_ok.
  - vm_compute. reflexivity.
  - vm_compute. split; [discriminate|reflexivity].
  - constructor.
  - vm_compute. split; [discriminate|reflexivity].
  - vm_compute. reflexivity.
Defined.

(** ** Addresses *)

(** Transport addresses survive the trip through an XOR-masked
    attribute: for every IPv4 or IPv6 address and every cookie, the address
    [stun_message_append_xor_addr_full] stores is the one
    [stun_message_find_xor_addr_full] returns, together with the size of its
    structure (the mask is an involution, and appending does not disturb the
    transaction id it is made of). *)
Theorem xor_addr_roundtrip m ty id attrs type a len m' a0 len0 cookie :
  msg_ok m ty id attrs -> 20 + zlen (enc_all attrs) + 24 < 65536 ->
  0 <= type < 65536 -> visible (swap_realm_nonce m type) attrs ->
  wf_sockaddr a -> sizeof_addr a <= len -> sizeof_addr a <= len0 <= sizeof_sockaddr_storage ->
  stun_message_append_xor_addr_full m type a len cookie = Ok (STUN_MESSAGE_RETURN_SUCCESS, m') ->
  stun_message_find_xor_addr_full m' type a0 len0 cookie =
    Ok (STUN_MESSAGE_RETURN_SUCCESS, a, sizeof_addr a).
Proof.
  intros Hm H16 Ht Hvis Ha Hl Hl0 Happ. pose proof Hm as [[rest Hr] _ _].
  pose proof Hr as [Hb _ Hid _ _ Hbs]. rewrite Hb, !bytes_app in Hbs.
  destruct (wf_mask_addr id cookie a) as (Hwf & _ & _); [apply Hbs|done|done|].
  rewrite (append_xor_value m ty id attrs) in Happ by done.
  destruct (addr_bytes_spec _ Hwf) as (Hvb & Hv4 & Hvl).
  destruct (append_find_value m ty id attrs type _ m' Hm Hvb) as (rest' & Hr' & Hf & _); auto.
  - rewrite attr_size_mod4 by done. lia.
  - apply (find_xor_value _ _ _ _ _ _ _ _ _ _ Hr'); [apply Hbs|done..].
Qed.

Definition ex_addr : sockaddr :=
  sockaddr_in6 0x5634 0 [32; 1; 13; 184; 0; 0; 0; 0; 0; 0; 0; 0; 0; 0; 0; 1] 0.

Lemma xor_addr_roundtrip_witness : exists m',
  stun_message_find_xor_addr_full m' STUN_ATTRIBUTE_XOR_MAPPED_ADDRESS (sockaddr_other 0) 128
    STUN_MAGIC_COOKIE = Ok (STUN_MESSAGE_RETURN_SUCCESS, ex_addr, 28).
Proof.
  eexists. apply (xor_addr_roundtrip ex_msg [0; 1] ex_id [] STUN_ATTRIBUTE_XOR_MAPPED_ADDRESS
    ex_addr 128 _ (sockaddr_other 0) 128 STUN_MAGIC_COOKIE).
  - exact ex_msg_ok.
  - vm_compute. reflexivity.
  - vm_compute. split; [discriminate|reflexivity].
  - constructor.
  - split; [lia|]. split; [apply (bool_decide_eq_true_1 _); vm_compute; reflexivity|].
    repeat split; reflexivity.
  - vm_compute. discriminate.
  - vm_compute. split; discriminate.
  - vm_compute. reflexivity.
Defined.

(** ** Error codes, message types *)

(** Every error code from 300 to 699 written by
    [stun_message_append_error] is the code [stun_message_find_error] reads. *)
Theorem error_code_roundtrip m ty id attrs code m' :
  msg_ok m ty id attrs -> 20 + zlen (enc_all attrs) + 44 < 65536 -> 300 <= code <= STUN_ERROR_MAX ->
  visible STUN_ATTRIBUTE_ERROR_CODE attrs ->
  stun_message_append_error m code = Ok (STUN_MESSAGE_RETURN_SUCCESS, m') ->
  stun_message_find_error m' = Ok (STUN_MESSAGE_RETURN_SUCCESS, Some code).
Proof.
  intros Hm H16 Hc Hvis Happ. unfold STUN_ERROR_MAX in Hc. pose proof (zlen_strerror code) as Hs.
  assert (Hsz : attr_size m (4 + zlen (stun_strerror code)) < 43).
  { unfold attr_size. pose proof (pad_len_range (negb (no_aligned m)) (4 + zlen (stun_strerror code))). lia. }
  rewrite (append_error_bytes Hm) in Happ by lia.
  assert (Hq : u8 (Z.quot code 100) = code / 100 /\ u8 (Z.rem code 100) = code mod 100).
  { rewrite Z.quot_div_nonneg, Z.rem_mod_nonneg by lia. unfold u8.
    split; Z.to_euclidean_division_equations; lia. }
  destruct Hq as [Hq Hrm].
  assert (Hswap : swap_realm_nonce m STUN_ATTRIBUTE_ERROR_CODE = STUN_ATTRIBUTE_ERROR_CODE)
    by (unfold swap_realm_nonce; by destruct (is_oc2007 m)).
  destruct (append_find_raw m ty id attrs STUN_ATTRIBUTE_ERROR_CODE (error_value code) m')
    as (rest' & Hr & Hf & _); auto.
  - unfold error_value. rewrite bytes_app. split; [|apply bytes_strerror].
    rewrite !bytes_cons. repeat (split; [first [done|apply u8_range]|]). apply bytes_nil.
  - unfold error_value. zlen_norm.
    replace (1 + (1 + (1 + (1 + 0))) + zlen (stun_strerror code)) with (4 + zlen (stun_strerror code)) by lia.
    lia.
  - done.
  - by rewrite Hswap.
  - rewrite (find_error_spec Hr). unfold val_of. rewrite Hf.
    assert (Hv : exists r, w_val (new_attr m id STUN_ATTRIBUTE_ERROR_CODE (error_value code)) =
      0 :: 0 :: code / 100 :: code mod 100 :: r).
    { unfold new_attr, error_value. rewrite Hq, Hrm. cbn [app].
      destruct (no_aligned m), (cookie_id id); cbn [w_val app]; eauto. }
    destruct Hv as [r ->]. cbv zeta.
    change 7 with (2 ^ 3 - 1). rewrite land_ones_mod by lia. change (2 ^ 3) with 8.
    rewrite (Z.mod_small (code / 100)) by (Z.to_euclidean_division_equations; lia).
    destruct (Z.ltb_spec (code / 100) 3); [Z.to_euclidean_division_equations; lia|].
    destruct (Z.ltb_spec 6 (code / 100)); [Z.to_euclidean_division_equations; lia|].
    destruct (Z.ltb_spec 99 (code mod 100)); [Z.to_euclidean_division_equations; lia|].
    cbn [orb]. do 3 f_equal. Z.to_euclidean_division_equations; lia.
Qed.

Lemma error_code_roundtrip_witness : exists m',
  stun_message_find_error m' = Ok (STUN_MESSAGE_RETURN_SUCCESS, Some STUN_ERROR_ROLE_CONFLICT).
Proof.
  eexists. apply (error_code_roundtrip ex_msg [0; 1] ex_id [] STUN_ERROR_ROLE_CONFLICT).
  - exact ex_msg_ok.
  - vm_compute. reflexivity.
  - vm_compute. split; discriminate.
  - constructor.
  - vm_compute. reflexivity.
Defined.

(** A message initialised with class [c] and a 12-bit method reads back
    with that class and method, and is an empty, valid message with the given
    transaction id; the one exception is an error response of method CONNECT,
    whose type 0x0115 the readers take for a data indication. *)
Theorem message_type_roundtrip m c meth id :
  bytes (buffer m) -> bytes id -> zlen id = 16 -> buffer_len m = zlen (buffer m) ->
  (no_aligned m = false -> buffer_len m mod 4 = 0) -> 20 <= buffer_len m -> 0 <= meth < 4096 ->
  exists m', stun_message_init m c meth id = Ok (true, m') /\
    stun_message_get_class m' = Ok (fst (seen_as c meth)) /\
    stun_message_get_method m' = Ok (snd (seen_as c meth)) /\
    stun_message_id m' = Ok id /\ stun_message_length m' = Ok 20 /\
    (forall t, stun_message_find m' t = Ok None).
Proof.
  intros Hb Hidb Hid Hs Hal Hge Hmeth. pose proof (init_spec m c meth id Hb Hidb Hid Hs Hal) as Hi.
  destruct (Z.ltb_spec (buffer_len m) 20); [lia|].
  destruct Hi as (m' & Hi & [[rest Hm] _ _] & _). exists m'. split; [done|].
  destruct (type_decode c meth _ _ Hmeth eq_refl) as [Ht _].
  destruct (repr_class _ _ _ _ _ _ _ Hm eq_refl) as [-> ->].
  rewrite <-Ht. do 2 (split; [done|]). split; [apply (repr_id Hm)|]. split; [apply (repr_length Hm)|].
  intros t. exact (find_spec _ _ _ _ _ t Hm).
Qed.

Lemma message_type_roundtrip_witness :
  exists m', stun_message_init ex_msg STUN_RESPONSE STUN_BINDING ex_id = Ok (true, m') /\
    stun_message_get_class m' = Ok STUN_RESPONSE /\ stun_message_get_method m' = Ok STUN_BINDING /\
    stun_message_id m' = Ok ex_id /\ stun_message_length m' = Ok 20 /\
    (forall t, stun_message_find m' t = Ok None).
Proof.
  apply (message_type_roundtrip ex_msg STUN_RESPONSE STUN_BINDING ex_id); try reflexivity;
    try (apply (bool_decide_eq_true_1 _); vm_compute; reflexivity); vm_compute; try split;
    try discriminate; reflexivity.
Defined.

(** ** Vectored input *)

Definition vec_of (b : list Z) : StunInputVector := mkInputVector (Some b) (zlen b).

Lemma vec_at_map pre b suf :
  vec_at (map vec_of (pre ++ b :: suf)) (length pre) = Ok (vec_of b).
Proof.
  unfold vec_at. rewrite map_app. cbn [map]. rewrite lookup_app_r by (rewrite length_map; lia).
  by rewrite length_map, Nat.sub_diag.
Qed.

Lemma skip_loop_spec suf pre s fuel :
  0 <= s < zlen (concat suf) -> (length suf <= fuel)%nat ->
  exists pre' b suf' s', pre ++ suf = pre' ++ b :: suf' /\
    skip_loop fuel (map vec_of (pre ++ suf)) (zlen (pre ++ suf)) (length pre) s = Ok (length pre', s') /\
    0 <= s' < zlen b /\ zlen (concat pre') + s' = zlen (concat pre) + s.
Proof.
  revert pre s fuel. induction suf as [|b suf IH]; intros pre s fuel Hs Hf.
  { change (zlen (concat [])) with 0 in Hs. lia. }
  destruct fuel as [|fuel]; [simpl in Hf; lia|]. cbn [skip_loop].
  destruct (Z.leb_spec 0 (zlen (pre ++ b :: suf))); [|zlia]. cbn [mbind res_bind].
  destruct (Z.ltb_spec (Z.of_nat (length pre)) (zlen (pre ++ b :: suf))) as [_|Hge];
    [|rewrite zlen_app, zlen_cons in Hge; unfold zlen in Hge; lia].
  cbn [negb]. rewrite vec_at_map. cbn [mbind res_bind iv_size vec_of].
  destruct (Z.leb_spec (zlen b) s) as [Hle|Hlt].
  - destruct (IH (pre ++ [b]) (s - zlen b) fuel) as (pre' & b' & suf' & s' & E & Hl & Hs' & Hsum).
    + cbn [concat] in Hs. rewrite zlen_app in Hs. lia.
    + simpl in Hf; lia.
    + rewrite <-app_assoc in E, Hl. cbn [app] in E, Hl. rewrite length_app in Hl. simpl in Hl.
      rewrite Nat.add_1_r in Hl.
      exists pre', b', suf', s'. split; [done|]. split; [done|]. split; [done|].
      rewrite Hsum, concat_app, zlen_app. cbn [concat]. rewrite app_nil_r. lia.
  - exists pre, b, suf, s. repeat split; try done; lia.
Qed.

Lemma bytes_lor x y : is_byte x -> is_byte y -> u16 (Z.lor (Z.shiftl x 8) y) = Z.lor (Z.shiftl x 8) y.
Proof.
  unfold is_byte. intros. rewrite lor_shiftl_add by lia. change (2 ^ 8) with 256. apply u16_small. lia.
Qed.

(** The two bytes of the length field, wherever the vector boundaries fall. *)
Lemma vectored_length bs :
  Forall (fun b => b <> []) bs -> bytes (concat bs) -> 4 <= zlen (concat bs) < 2 ^ 63 ->
  ('(i, skip_remaining) ← skip_loop (length (map vec_of bs)) (map vec_of bs) (zlen bs) 0 2;
   v ← vec_at (map vec_of bs) i;
   if 1 <? u64 (iv_size v - skip_remaining) then
     match iv_buffer v with Some b => stun_getw b skip_remaining | None => Fault OutOfBounds end
   else x ← vec_rd v skip_remaining; v' ← vec_at (map vec_of bs) (S i);
        y ← vec_rd v' 0; Ok (Z.lor (Z.shiftl x 8) y)) = stun_getw (concat bs) 2.
Proof.
  intros Hne Hb Hl. destruct (skip_loop_spec bs [] 2 (length (map vec_of bs)))
    as (pre & b & suf & s & E & Hsk & Hs & Hsum); [lia|by rewrite length_map|].
  cbn [app concat] in *. change (zlen (@nil Z)) with 0 in Hsum. change (length []) with 0%nat in Hsk.
  rewrite Hsk. cbn [mbind res_bind]. rewrite E in *. rewrite vec_at_map. cbn [mbind res_bind vec_of iv_size iv_buffer].
  rewrite concat_app in *. cbn [concat] in *. rewrite !zlen_app in Hl. zlen_pos.
  rewrite u64_small by lia. rewrite !bytes_app in Hb. destruct Hb as (HbP & Hbb & HbS).
  assert (Hpos2 : 2 = zlen (concat pre) + s) by lia.
  assert (Hx : rd (concat pre ++ b ++ concat suf) 2 = rd b s) by (rewrite Hpos2; apply rd_window; lia).
  unfold stun_getw at 2. rewrite Hx. destruct (rd b s) as [x|] eqn:Ex; [|by rewrite rd_Ok in Ex].
  assert (Hbx : is_byte x) by (apply (rd_byte b s); done). cbn [mbind res_bind].
  destruct (Z.ltb_spec 1 (zlen b - s)) as [Hw1|Hw1].
  - unfold stun_getw. rewrite Ex. cbn [mbind res_bind].
    replace (2 + 1) with (zlen (concat pre) + (s + 1)) by lia. by rewrite rd_window by lia.
  - change (vec_rd (vec_of b) s) with (rd b s). rewrite Ex. cbn [mbind res_bind].
    destruct suf as [|b2 suf]; [cbn in *; change (zlen (@nil Z)) with 0 in *; lia|].
    replace (S (length pre)) with (length (pre ++ [b])) by (rewrite length_app; simpl; lia).
    replace (pre ++ b :: b2 :: suf) with ((pre ++ [b]) ++ b2 :: suf) by (by rewrite <-app_assoc).
    rewrite vec_at_map. cbn [mbind res_bind vec_of iv_buffer vec_rd].
    assert (Hb2 : b2 <> []).
    { rewrite Forall_app in Hne. destruct Hne as [_ Hne]. by inversion Hne as [|? ? _ Hn2]; inversion Hn2. }
    destruct b2 as [|y b2]; [done|]. cbn [concat] in *. rewrite rd_hd. cbn [mbind res_bind].
    replace (2 + 1) with (zlen (concat pre ++ b) + 0) by (zlen_norm; lia).
    rewrite app_assoc, rd_app_r by lia. cbn [app]. rewrite rd_hd. cbn [mbind res_bind].
    f_equal. symmetry. apply bytes_lor; [done|]. rewrite bytes_app, bytes_cons in HbS. apply HbS.
Qed.

(** The vectored framing check gives the same answer as on the
    concatenation of its buffers, however the bytes of the header are spread
    over them, provided no buffer is empty; in particular the slow path never
    reads outside a buffer. *)
Theorem fast_vectored_eq bs pad :
  Forall (fun b => b <> []) bs -> bytes (concat bs) -> zlen (concat bs) < 2 ^ 63 ->
  stun_message_validate_buffer_length_fast (map vec_of bs) (zlen bs) (zlen (concat bs)) pad =
  stun_message_validate_buffer_length_fast [vec_of (concat bs)] 1 (zlen (concat bs)) pad.
Proof.
  intros Hne Hb Hl. unfold stun_message_validate_buffer_length_fast.
  destruct (Z.ltb_spec (zlen (concat bs)) 1); [done|].
  destruct bs as [|b0 bs]; [done|]. destruct (Z.eqb_spec (zlen (b0 :: bs)) 0); [zlia|].
  change (1 =? 0) with false. cbn [orb map]. rewrite !vec_at_hd. cbn [mbind res_bind vec_of iv_buffer iv_size].
  inversion_clear Hne as [|? ? Hb0 Hbs]. destruct b0 as [|x b0]; [done|].
  cbn [concat app]. rewrite !rd_hd. cbn [mbind res_bind]. destruct (negb _); [done|].
  change (STUN_MESSAGE_LENGTH_POS + STUN_MESSAGE_LENGTH_LEN) with 4.
  destruct (Z.ltb_spec (zlen (x :: b0 ++ concat bs)) 4); [done|].
  destruct (Z.leb_spec 4 (zlen (x :: b0 ++ concat bs))); [|lia].
  change STUN_MESSAGE_LENGTH_POS with 2.
  destruct (Z.leb_spec 4 (zlen (x :: b0))).
  - assert (Hg : stun_getw (x :: b0 ++ concat bs) 2 = stun_getw (x :: b0) 2).
    { unfold stun_getw. change (x :: b0 ++ concat bs) with ((x :: b0) ++ concat bs).
      by rewrite !rd_app_l by lia. }
    by rewrite Hg.
  - pose proof (vectored_length ((x :: b0) :: bs)) as Hv. cbn [concat app map] in Hv.
    rewrite Hv; [done|by constructor|done|split; [lia|exact Hl]].
Qed.

Lemma fast_vectored_eq_witness :
  stun_message_validate_buffer_length_fast (map vec_of [[0]; [1; 0]; [8]; drop 4 ex_buf]) 4 28 true = Ok 28.
Proof.
  transitivity (stun_message_validate_buffer_length_fast [vec_of ex_buf] 1 28 true); [|vm_compute; reflexivity].
  apply (fast_vectored_eq [[0]; [1; 0]; [8]; drop 4 ex_buf] true).
  - repeat constructor; discriminate.
  - apply (bool_decide_eq_true_1 _). vm_compute. reflexivity.
  - vm_compute. reflexivity.
Defined.

(** ** Where the checks of the code are not enough *)

(** C29: The space check of [stun_message_append] leaves out the padding:
    for a message whose buffer ends fewer than the padding bytes after the
    value, the padding is stored past the end of the buffer. *)
Theorem append_padding_overflow m ty id attrs rest type n :
  msg_repr m ty id attrs rest -> buffer_len m = zlen (buffer m) -> no_aligned m = false -> 0 <= n ->
  24 + zlen (enc_all attrs) + n <= buffer_len m < 24 + zlen (enc_all attrs) + n + stun_padding n ->
  20 + zlen (enc_all attrs) + n + 4 < 65536 ->
  stun_message_append m type n = Fault OutOfBounds.
Proof.
  intros Hm Hs Hna Hn Hsz H16. pose proof (bytes_meta_size _ _ _ _ _ Hm) as Hlen. zlen_pos.
  pose proof (stun_padding_range n).
  destruct (rest_split rest n 0) as (x0 & x1 & x2 & x3 & v & q & r & Er & Hv & Hq); [lia..|].
  apply zlen_0_nil in Hq as ->. cbn [app] in Er.
  unfold stun_message_append. rewrite (repr_length Hm). cbn [mbind res_bind].
  change STUN_ATTRIBUTE_HEADER_LENGTH with 4. rewrite u64_small by lia.
  destruct (Z.ltb_spec (buffer_len m) (20 + zlen (enc_all attrs) + 4 + n)); [lia|].
  pose proof Hm as [Hb Hty Hid Hl _ _].
  set (A := ty ++ be_bytes 2 (zlen (enc_all attrs)) ++ id ++ enc_all attrs).
  assert (HA : zlen A = 20 + zlen (enc_all attrs)) by (unfold A; zlen_norm; lia).
  assert (HbA : buffer m = A ++ x0 :: x1 :: x2 :: x3 :: v ++ r) by (rewrite Hb, Er; unfold A; lassoc).
  rewrite (stun_setw_eq _ A x0 x1 (x2 :: x3 :: v ++ r)) by (done || lia). cbn [mbind res_bind].
  rewrite Hna, (repr_set_cookie Hm A _ HbA HA). cbn [mbind res_bind].
  set (T := be_bytes 2 (swap_realm_nonce m type)).
  erewrite (stun_setw_eq _ (A ++ T) x2 x3 (v ++ r)); [|lassoc|unfold T; zlen_norm; lia].
  cbn [mbind res_bind]. destruct (Z.ltb_spec 0 (stun_padding n)); [|lia].
  unfold memset, wr_bytes. match goal with |- context [?a && ?b] => replace b with false end.
  - by rewrite andb_false_r.
  - symmetry. apply Z.leb_gt. unfold T. rewrite Er in Hlen. zlen_norm. lia.
Qed.

Lemma append_padding_overflow_witness :
  stun_message_append (mkMessage None (take 25 (buffer ex_msg)) 25 None [] false)
    STUN_ATTRIBUTE_USERNAME 1 = Fault OutOfBounds.
Proof.
  apply (append_padding_overflow _ [0; 1] ex_id [] (replicate 5 7)); try reflexivity; try lia.
  - constructor; try reflexivity; [constructor|].
    apply (bool_decide_eq_true_1 _). vm_compute. reflexivity.
  - vm_compute. split; [discriminate|reflexivity].
Defined.
