(* ===== verification/StunCrc32.v ===== *)
(** * CRC-32 and the FINGERPRINT value (stuncrc32.c, stun5389.c)

    The table and the loops of [stun_crc32], the checksum of
    [stun_fingerprint], a bit-serial reference definition of the CRC and the
    lemmas that relate them. *)
From S2P Require Import Prelude CMem.

(** ** The code *)

Definition crc32_tab : list Z :=
  [
    0x00000000; 0x77073096; 0xee0e612c; 0x990951ba; 0x076dc419; 0x706af48f; 0xe963a535; 0x9e6495a3;
    0x0edb8832; 0x79dcb8a4; 0xe0d5e91e; 0x97d2d988; 0x09b64c2b; 0x7eb17cbd; 0xe7b82d07; 0x90bf1d91;
    0x1db71064; 0x6ab020f2; 0xf3b97148; 0x84be41de; 0x1adad47d; 0x6ddde4eb; 0xf4d4b551; 0x83d385c7;
    0x136c9856; 0x646ba8c0; 0xfd62f97a; 0x8a65c9ec; 0x14015c4f; 0x63066cd9; 0xfa0f3d63; 0x8d080df5;
    0x3b6e20c8; 0x4c69105e; 0xd56041e4; 0xa2677172; 0x3c03e4d1; 0x4b04d447; 0xd20d85fd; 0xa50ab56b;
    0x35b5a8fa; 0x42b2986c; 0xdbbbc9d6; 0xacbcf940; 0x32d86ce3; 0x45df5c75; 0xdcd60dcf; 0xabd13d59;
    0x26d930ac; 0x51de003a; 0xc8d75180; 0xbfd06116; 0x21b4f4b5; 0x56b3c423; 0xcfba9599; 0xb8bda50f;
    0x2802b89e; 0x5f058808; 0xc60cd9b2; 0xb10be924; 0x2f6f7c87; 0x58684c11; 0xc1611dab; 0xb6662d3d;
    0x76dc4190; 0x01db7106; 0x98d220bc; 0xefd5102a; 0x71b18589; 0x06b6b51f; 0x9fbfe4a5; 0xe8b8d433;
    0x7807c9a2; 0x0f00f934; 0x9609a88e; 0xe10e9818; 0x7f6a0dbb; 0x086d3d2d; 0x91646c97; 0xe6635c01;
    0x6b6b51f4; 0x1c6c6162; 0x856530d8; 0xf262004e; 0x6c0695ed; 0x1b01a57b; 0x8208f4c1; 0xf50fc457;
    0x65b0d9c6; 0x12b7e950; 0x8bbeb8ea; 0xfcb9887c; 0x62dd1ddf; 0x15da2d49; 0x8cd37cf3; 0xfbd44c65;
    0x4db26158; 0x3ab551ce; 0xa3bc0074; 0xd4bb30e2; 0x4adfa541; 0x3dd895d7; 0xa4d1c46d; 0xd3d6f4fb;
    0x4369e96a; 0x346ed9fc; 0xad678846; 0xda60b8d0; 0x44042d73; 0x33031de5; 0xaa0a4c5f; 0xdd0d7cc9;
    0x5005713c; 0x270241aa; 0xbe0b1010; 0xc90c2086; 0x5768b525; 0x206f85b3; 0xb966d409; 0xce61e49f;
    0x5edef90e; 0x29d9c998; 0xb0d09822; 0xc7d7a8b4; 0x59b33d17; 0x2eb40d81; 0xb7bd5c3b; 0xc0ba6cad;
    0xedb88320; 0x9abfb3b6; 0x03b6e20c; 0x74b1d29a; 0xead54739; 0x9dd277af; 0x04db2615; 0x73dc1683;
    0xe3630b12; 0x94643b84; 0x0d6d6a3e; 0x7a6a5aa8; 0xe40ecf0b; 0x9309ff9d; 0x0a00ae27; 0x7d079eb1;
    0xf00f9344; 0x8708a3d2; 0x1e01f268; 0x6906c2fe; 0xf762575d; 0x806567cb; 0x196c3671; 0x6e6b06e7;
    0xfed41b76; 0x89d32be0; 0x10da7a5a; 0x67dd4acc; 0xf9b9df6f; 0x8ebeeff9; 0x17b7be43; 0x60b08ed5;
    0xd6d6a3e8; 0xa1d1937e; 0x38d8c2c4; 0x4fdff252; 0xd1bb67f1; 0xa6bc5767; 0x3fb506dd; 0x48b2364b;
    0xd80d2bda; 0xaf0a1b4c; 0x36034af6; 0x41047a60; 0xdf60efc3; 0xa867df55; 0x316e8eef; 0x4669be79;
    0xcb61b38c; 0xbc66831a; 0x256fd2a0; 0x5268e236; 0xcc0c7795; 0xbb0b4703; 0x220216b9; 0x5505262f;
    0xc5ba3bbe; 0xb2bd0b28; 0x2bb45a92; 0x5cb36a04; 0xc2d7ffa7; 0xb5d0cf31; 0x2cd99e8b; 0x5bdeae1d;
    0x9b64c2b0; 0xec63f226; 0x756aa39c; 0x026d930a; 0x9c0906a9; 0xeb0e363f; 0x72076785; 0x05005713;
    0x95bf4a82; 0xe2b87a14; 0x7bb12bae; 0x0cb61b38; 0x92d28e9b; 0xe5d5be0d; 0x7cdcefb7; 0x0bdbdf21;
    0x86d3d2d4; 0xf1d4e242; 0x68ddb3f8; 0x1fda836e; 0x81be16cd; 0xf6b9265b; 0x6fb077e1; 0x18b74777;
    0x88085ae6; 0xff0f6a70; 0x66063bca; 0x11010b5c; 0x8f659eff; 0xf862ae69; 0x616bffd3; 0x166ccf45;
    0xa00ae278; 0xd70dd2ee; 0x4e048354; 0x3903b3c2; 0xa7672661; 0xd06016f7; 0x4969474d; 0x3e6e77db;
    0xaed16a4a; 0xd9d65adc; 0x40df0b66; 0x37d83bf0; 0xa9bcae53; 0xdebb9ec5; 0x47b2cf7f; 0x30b5ffe9;
    0xbdbdf21c; 0xcabac28a; 0x53b39330; 0x24b4a3a6; 0xbad03605; 0xcdd70693; 0x54de5729; 0x23d967bf;
    0xb3667a2e; 0xc4614ab8; 0x5d681b02; 0x2a6f2b94; 0xb40bbe37; 0xc30c8ea1; 0x5a05df1b; 0x2d02ef8d ].

(** A [crc_data]: a pointer, as an object and an offset into it, and a size. *)
Record crc_data : Set := mkCrcData { crc_obj : list Z; crc_off : Z; crc_len : Z }.

(** The table look-up, with the mistyped entry of Windows Live Messenger 2009. *)
Definition crc_lookup (typo : bool) (idx : Z) : res Z :=
  lkp ← rd crc32_tab idx;
  Ok (if (lkp =? 0x8bbeb8ea) && typo then 0x8bbe8ea else lkp).

(** [while (size--)]; every iteration reads the next byte of the object, so
    one more than its size is enough fuel. *)
Fixpoint crc_while (fuel : nat) (typo : bool) (obj : list Z) (p size crc : Z) : res Z :=
  if size =? 0 then Ok crc
  else match fuel with
  | O => Fault OutOfFuel
  | S fuel =>
      x ← rd obj p;
      lkp ← crc_lookup typo (Z.land (Z.lxor crc x) 0xFF);
      crc_while fuel typo obj (p + 1) (size - 1) (Z.lxor lkp (Z.shiftr crc 8))
  end.

Fixpoint crc_for (typo : bool) (data : list crc_data) (crc : Z) : res Z :=
  match data with
  | [] => Ok crc
  | d :: data =>
      crc ← crc_while (S (length (crc_obj d))) typo (crc_obj d) (crc_off d) (crc_len d) crc;
      crc_for typo data crc
  end.

Definition stun_crc32 (data : list crc_data) (wlm2009_stupid_crc32_typo : bool) : res Z :=
  crc ← crc_for wlm2009_stupid_crc32_typo data 0xffffffff;
  Ok (Z.lxor crc 0xffffffff).

Definition stun_fingerprint (msg : list Z) (len : Z) (wlm2009_stupid_crc32_typo : bool) : res Z :=
  let fakelen := htons (len - 20) in
  let data := [ mkCrcData msg 0 2; mkCrcData (le_bytes 2 fakelen) 0 2;
                mkCrcData msg 4 (u64 (len - 12)) ] in
  crc ← stun_crc32 data wlm2009_stupid_crc32_typo;
  Ok (htonl (Z.lxor crc 0x5354554e)).

(** ** Reference: the CRC one bit at a time

    The reflected CRC-32 with generator 0xEDB88320. *)

Definition crc_poly : Z := 0xEDB88320.

Definition crc_bit (x : Z) : Z :=
  Z.lxor (Z.shiftr x 1) (if Z.testbit x 0 then crc_poly else 0).

Definition crc_byte (crc x : Z) : Z := Nat.iter 8 crc_bit (Z.lxor crc x).

Definition crc_bytes (crc : Z) (l : list Z) : Z := foldl crc_byte crc l.

Definition crc32 (l : list Z) : Z := Z.lxor (crc_bytes 0xffffffff l) 0xffffffff.

(** The bytes a FINGERPRINT covers: the header with the length field [len],
    and the attributes before it. *)
Definition fingerprint_of (ty : list Z) (len : Z) (id attrs : list Z) : Z :=
  Z.lxor (crc32 (ty ++ be_bytes 2 len ++ id ++ attrs)) 0x5354554e.

(** ** The table is the generator's table *)

Lemma crc32_tab_entry i :
  0 <= i < 256 -> rd crc32_tab i = Ok (Nat.iter 8 crc_bit i).
Proof.
  intros Hi. assert (Hall : forallb (fun n => match rd crc32_tab (Z.of_nat n) with
      Ok v => v =? Nat.iter 8 crc_bit (Z.of_nat n) | Fault _ => false end) (seq 0 256) = true)
    by (vm_compute; reflexivity).
  rewrite forallb_forall in Hall. specialize (Hall (Z.to_nat i)).
  rewrite Z2Nat.id in Hall by lia. destruct (rd crc32_tab i); [|exfalso].
  - f_equal. apply Z.eqb_eq, Hall. apply in_seq. lia.
  - enough (false = true) by done. apply Hall, in_seq. lia.
Qed.

(** ** The bit step is linear and injective on 32-bit states *)

Definition is_u32 (x : Z) : Prop := 0 <= x < 2 ^ 32.

Lemma crc_bit_lxor x y : crc_bit (Z.lxor x y) = Z.lxor (crc_bit x) (crc_bit y).
Proof.
  unfold crc_bit. rewrite Z.shiftr_lxor, Z.lxor_spec.
  apply Z.bits_inj'. intros n _. destruct (Z.testbit x 0), (Z.testbit y 0);
    rewrite !Z.lxor_spec; cbn [xorb]; rewrite ?Z.bits_0;
    repeat match goal with |- context [Z.testbit ?a n] => destruct (Z.testbit a n) end; reflexivity.
Qed.

Lemma iter_crc_bit_lxor n x y :
  Nat.iter n crc_bit (Z.lxor x y) = Z.lxor (Nat.iter n crc_bit x) (Nat.iter n crc_bit y).
Proof. induction n as [|n IH]; [done|]. rewrite !Nat.iter_succ. rewrite <-crc_bit_lxor. by f_equal. Qed.

Lemma iter_crc_bit_shiftl n x : Nat.iter n crc_bit (Z.shiftl x (Z.of_nat n)) = x.
Proof.
  revert x. induction n as [|n IH]; intros x; [apply Z.shiftl_0_r|].
  replace (Z.shiftl x (Z.of_nat (S n))) with (Z.shiftl (Z.shiftl x 1) (Z.of_nat n))
    by (rewrite Z.shiftl_shiftl by lia; f_equal; lia).
  rewrite !Nat.iter_succ. rewrite IH. unfold crc_bit.
  rewrite Z.shiftl_spec_low by lia. rewrite Z.shiftr_shiftl_l by lia. apply Z.lxor_0_r.
Qed.

Lemma lxor_u32 x y : is_u32 x -> is_u32 y -> is_u32 (Z.lxor x y).
Proof.
  unfold is_u32. intros Hx Hy. split; [apply Z.lxor_nonneg; lia|].
  destruct (Z.eq_dec (Z.lxor x y) 0) as [->|]; [done|].
  assert (0 <= Z.lxor x y) by (apply Z.lxor_nonneg; lia).
  apply Z.log2_lt_pow2; [lia|]. eapply Z.le_lt_trans; [apply Z.log2_lxor; lia|].
  apply Z.max_lub_lt; [destruct (Z.eq_dec x 0) as [->|]|destruct (Z.eq_dec y 0) as [->|]];
    try done; apply Z.log2_lt_pow2; lia.
Qed.

Lemma crc_bit_u32 x : is_u32 x -> is_u32 (crc_bit x).
Proof.
  intros Hx. apply lxor_u32; unfold is_u32 in *.
  - rewrite Z.shiftr_div_pow2 by lia. change (2 ^ 1) with 2.
    split; [apply Z.div_pos; lia|apply Z.div_lt_upper_bound; lia].
  - destruct (Z.testbit x 0); unfold crc_poly; lia.
Qed.

(** The generator's top bit is set, so the dropped bit shows in the result. *)
Lemma crc_bit_top x : is_u32 x -> Z.testbit (crc_bit x) 31 = Z.testbit x 0.
Proof.
  unfold crc_bit, is_u32. intros Hx. rewrite Z.lxor_spec, Z.shiftr_spec by lia.
  rewrite (Z.bits_above_log2 x (31 + 1)).
  - by destruct (Z.testbit x 0).
  - lia.
  - destruct (Z.eq_dec x 0) as [->|]; [done|]. apply Z.log2_lt_pow2; lia.
Qed.

Lemma crc_bit_inj x y : is_u32 x -> is_u32 y -> crc_bit x = crc_bit y -> x = y.
Proof.
  intros Hx Hy E. assert (E0 : Z.testbit x 0 = Z.testbit y 0)
    by (rewrite <-!crc_bit_top by done; by rewrite E).
  unfold crc_bit in E. rewrite E0 in E. apply (f_equal (fun z => Z.lxor z (if Z.testbit y 0 then crc_poly else 0))) in E.
  rewrite !Z.lxor_assoc, !Z.lxor_nilpotent, !Z.lxor_0_r in E.
  rewrite (Z.div2_odd x), (Z.div2_odd y). rewrite !Z.div2_spec, E.
  by rewrite <-!Z.bit0_odd, E0.
Qed.

Lemma iter_crc_bit_u32 n x : is_u32 x -> is_u32 (Nat.iter n crc_bit x).
Proof. intros. induction n; [done|]. rewrite Nat.iter_succ. by apply crc_bit_u32. Qed.

Lemma iter_crc_bit_inj n x y : is_u32 x -> is_u32 y ->
  Nat.iter n crc_bit x = Nat.iter n crc_bit y -> x = y.
Proof.
  intros Hx Hy. induction n as [|n IH]; [done|]. rewrite !Nat.iter_succ. intros E.
  apply IH, crc_bit_inj; auto using iter_crc_bit_u32.
Qed.

Lemma byte_u32 x : is_byte x -> is_u32 x.
Proof. unfold is_byte, is_u32. lia. Qed.

Lemma crc_byte_u32 crc x : is_u32 crc -> is_byte x -> is_u32 (crc_byte crc x).
Proof. intros. apply iter_crc_bit_u32, lxor_u32; auto using byte_u32. Qed.

Lemma crc_bytes_u32 l crc : is_u32 crc -> bytes l -> is_u32 (crc_bytes crc l).
Proof.
  revert crc. induction l as [|x l IH]; intros crc Hc Hb; [done|].
  rewrite bytes_cons in Hb. destruct Hb. apply IH; [|done]. by apply crc_byte_u32.
Qed.

Lemma crc_bytes_app crc l k : crc_bytes crc (l ++ k) = crc_bytes (crc_bytes crc l) k.
Proof. apply foldl_app. Qed.

(** ** The table step computes the eight bit steps *)

Lemma crc_table_step x :
  0 <= x -> Nat.iter 8 crc_bit x = Z.lxor (Nat.iter 8 crc_bit (Z.land x 0xFF)) (Z.shiftr x 8).
Proof.
  intros Hx. rewrite <-(iter_crc_bit_shiftl 8 (Z.shiftr x 8)) at 1.
  rewrite <-iter_crc_bit_lxor. f_equal. apply Z.bits_inj'. intros n Hn.
  rewrite Z.lxor_spec, Z.land_spec. change 255 with (Z.ones 8).
  destruct (Z.ltb_spec n 8).
  - rewrite Z.ones_spec_low, Z.shiftl_spec_low by lia. by destruct (Z.testbit x n).
  - rewrite Z.ones_spec_high, Z.shiftl_spec, Z.shiftr_spec by lia.
    rewrite andb_false_r. cbn [xorb]. f_equal. lia.
Qed.

Lemma shiftr_byte x : is_byte x -> Z.shiftr x 8 = 0.
Proof. intros. rewrite Z.shiftr_div_pow2 by lia. apply Z.div_small. exact H. Qed.

Lemma crc_lookup_byte crc x :
  is_u32 crc -> is_byte x ->
  (lkp ← crc_lookup false (Z.land (Z.lxor crc x) 0xFF); Ok (Z.lxor lkp (Z.shiftr crc 8))) =
  Ok (crc_byte crc x).
Proof.
  intros Hc Hx. assert (Hu : is_u32 (Z.lxor crc x)) by auto using lxor_u32, byte_u32.
  assert (Hi : 0 <= Z.land (Z.lxor crc x) 255 < 256) by (rewrite land_255; apply Z.mod_pos_bound; lia).
  unfold crc_lookup. rewrite crc32_tab_entry by done. cbn [mbind res_bind]. rewrite andb_false_r.
  unfold crc_byte. rewrite (crc_table_step (Z.lxor crc x)) by (unfold is_u32 in Hu; lia).
  by rewrite Z.shiftr_lxor, (shiftr_byte x), Z.lxor_0_r.
Qed.

Lemma crc_while_spec l pre suf fuel crc :
  is_u32 crc -> bytes l -> (length l < fuel)%nat ->
  crc_while fuel false (pre ++ l ++ suf) (zlen pre) (zlen l) crc = Ok (crc_bytes crc l).
Proof.
  revert pre fuel crc. induction l as [|x l IH]; intros pre fuel crc Hc Hb Hf.
  { destruct fuel; reflexivity. }
  destruct fuel as [|fuel]; [simpl in Hf; lia|]. rewrite bytes_cons in Hb. destruct Hb as [Hx Hl].
  cbn [crc_while]. destruct (Z.eqb_spec (zlen (x :: l)) 0); [zlia|].
  rewrite <-(Z.add_0_r (zlen pre)) at 1. rewrite rd_app_r by lia. cbn [app]. rewrite rd_hd.
  cbn [mbind res_bind]. pose proof (crc_lookup_byte crc x Hc Hx) as E.
  destruct (crc_lookup false _); cbn [mbind res_bind] in *; [|done]. injection E as ->.
  replace (pre ++ x :: l ++ suf) with ((pre ++ [x]) ++ l ++ suf) by (by rewrite <-app_assoc).
  replace (zlen pre + 1) with (zlen (pre ++ [x])) by zlia.
  replace (zlen (x :: l) - 1) with (zlen l) by zlia.
  rewrite IH; auto using crc_byte_u32. simpl in Hf; lia.
Qed.

(** ** The loops compute the reference *)

Definition crc_slice (d : crc_data) : list Z := slice (crc_obj d) (crc_off d) (crc_len d).

Definition crc_valid (d : crc_data) : Prop :=
  bytes (crc_obj d) /\ 0 <= crc_off d /\ 0 <= crc_len d /\ crc_off d + crc_len d <= zlen (crc_obj d).
#[global] Instance crc_valid_dec d : Decision (crc_valid d).
Proof. unfold crc_valid. apply _. Defined.

Lemma crc_while_slice d crc :
  is_u32 crc -> crc_valid d ->
  crc_while (S (length (crc_obj d))) false (crc_obj d) (crc_off d) (crc_len d) crc =
  Ok (crc_bytes crc (crc_slice d)).
Proof.
  intros Hc (Hb & Ho & Hn & Hl). unfold crc_slice.
  destruct (split_at (crc_obj d) (crc_off d) (crc_len d)) as (pre & l & suf & E & Hpre & Hlen); [done..|].
  rewrite E, <-Hpre, <-Hlen, slice_app. apply crc_while_spec; [done| |].
  - rewrite E, !bytes_app in Hb. tauto.
  - rewrite !length_app. lia.
Qed.

Lemma crc_for_spec data crc :
  is_u32 crc -> Forall crc_valid data ->
  crc_for false data crc = Ok (crc_bytes crc (concat (map crc_slice data))).
Proof.
  intros Hc Hd. revert crc Hc. induction Hd as [|d data Hd _ IH]; intros crc Hc; [done|].
  cbn [crc_for map concat]. rewrite crc_while_slice by done. cbn [mbind res_bind].
  rewrite crc_bytes_app. apply IH, crc_bytes_u32; [done|]. by apply bytes_slice, Hd.
Qed.

Lemma init_u32 : is_u32 0xffffffff.
Proof. unfold is_u32. lia. Qed.

Lemma stun_crc32_spec data :
  Forall crc_valid data -> stun_crc32 data false = Ok (crc32 (concat (map crc_slice data))).
Proof. intros Hd. unfold stun_crc32. by rewrite crc_for_spec by auto using init_u32. Qed.

Lemma stun_fingerprint_spec ty lf id body tl len :
  bytes ty -> zlen ty = 2 -> zlen lf = 2 -> zlen id = 16 -> bytes (ty ++ lf ++ id ++ body ++ tl) ->
  len = 28 + zlen body -> 8 <= zlen tl -> zlen body < 2 ^ 32 ->
  stun_fingerprint (ty ++ lf ++ id ++ body ++ tl) len false =
  Ok (htonl (fingerprint_of ty (8 + zlen body) id body)).
Proof.
  intros Hbt Ht Hf Hi Hb -> Htl Hbig. zlen_pos. unfold stun_fingerprint.
  rewrite u64_small by lia. rewrite stun_crc32_spec.
  - cbn [mbind res_bind map concat]. unfold crc_slice, fingerprint_of. cbn [crc_obj crc_off crc_len].
    rewrite le_bytes_htons.
    replace (slice (ty ++ _) 0 2) with ty
      by (rewrite <-Ht; symmetry; exact (slice_app [] ty _)).
    replace (slice (be_bytes 2 _) 0 2) with (be_bytes 2 (8 + zlen body)).
    2:{ symmetry. replace (28 + zlen body - 20) with (8 + zlen body) by lia. apply (slice_all (be_bytes 2 _)). }
    replace (slice (ty ++ _) 4 _) with (id ++ body); [by rewrite app_nil_r|].
    symmetry. replace 4 with (zlen (ty ++ lf)) by zlia.
    replace (28 + zlen body - 12) with (zlen (id ++ body)) by zlia.
    replace (ty ++ lf ++ id ++ body ++ tl) with ((ty ++ lf) ++ (id ++ body) ++ tl) by (by rewrite <-!app_assoc).
    apply slice_app.
  - assert (bytes (le_bytes 2 (htons (28 + zlen body - 20)))) by apply bytes_le_bytes.
    repeat apply List.Forall_cons; unfold crc_valid; cbn [crc_obj crc_off crc_len];
      [..|apply List.Forall_nil]; repeat split_and; first [done | zlia].
Qed.

(** ** Burst errors *)

Lemma lxor_add_shift x y : is_byte x -> Z.lxor x (Z.shiftl y 8) = x + 256 * y.
Proof.
  intros Hx. unfold is_byte in Hx. rewrite Z.shiftl_mul_pow2 by lia.
  rewrite <-Z.add_nocarry_lxor; [change (2 ^ 8) with 256; lia|].
  rewrite <-Z.shiftl_mul_pow2 by lia. apply Z.bits_inj'. intros n Hn.
  rewrite Z.land_spec, Z.bits_0. destruct (Z.ltb_spec n 8).
  - rewrite (Z.shiftl_spec_low y) by lia. apply andb_false_r.
  - rewrite (Z.bits_above_log2 x n); [done|lia|].
    destruct (Z.eq_dec x 0) as [->|]; [cbn; lia|]. apply Z.lt_le_trans with 8; [|done].
    apply Z.log2_lt_pow2; lia.
Qed.

Lemma crc_bytes_word w crc :
  bytes w -> crc_bytes crc w = Nat.iter (8 * length w) crc_bit (Z.lxor crc (le_value w)).
Proof.
  revert crc. induction w as [|x w IH]; intros crc Hb; [cbn; by rewrite Z.lxor_0_r|].
  rewrite bytes_cons in Hb. destruct Hb as [Hx Hw].
  change (crc_bytes crc (x :: w)) with (crc_bytes (crc_byte crc x) w). rewrite IH by done.
  replace (8 * length (x :: w))%nat with (8 * length w + 8)%nat by (simpl; lia).
  rewrite Nat.iter_add. f_equal. unfold crc_byte.
  rewrite <-(iter_crc_bit_shiftl 8 (le_value w)) at 1. rewrite <-iter_crc_bit_lxor. f_equal.
  rewrite Z.lxor_assoc. f_equal. cbn [le_value]. by apply lxor_add_shift.
Qed.

Lemma crc_bytes_inj_state l x y : is_u32 x -> is_u32 y -> bytes l ->
  crc_bytes x l = crc_bytes y l -> x = y.
Proof.
  revert x y. induction l as [|b l IH]; intros x y Hx Hy Hl; [done|].
  rewrite bytes_cons in Hl. destruct Hl as [Hb Hl]. intros E.
  apply IH in E; auto using crc_byte_u32. apply iter_crc_bit_inj in E; auto using lxor_u32, byte_u32.
  apply (f_equal (fun z => Z.lxor z b)) in E.
  by rewrite !Z.lxor_assoc, !Z.lxor_nilpotent, !Z.lxor_0_r in E.
Qed.

Lemma lxor_inj_r x y z : Z.lxor x z = Z.lxor y z -> x = y.
Proof.
  intros E. apply (f_equal (fun t => Z.lxor t z)) in E.
  by rewrite !Z.lxor_assoc, !Z.lxor_nilpotent, !Z.lxor_0_r in E.
Qed.

Lemma crc32_burst pre w w' suf :
  bytes (pre ++ w ++ suf) -> bytes w' -> length w = length w' -> (length w <= 4)%nat ->
  crc32 (pre ++ w ++ suf) = crc32 (pre ++ w' ++ suf) -> w = w'.
Proof.
  rewrite !bytes_app. intros (Hp & Hw & Hs) Hw' Hl Hl4 E. apply lxor_inj_r in E.
  rewrite !crc_bytes_app in E. pose proof (crc_bytes_u32 pre _ init_u32 Hp) as Hu.
  apply crc_bytes_inj_state in E; auto using crc_bytes_u32.
  assert (Hv : forall v, bytes v -> (length v <= 4)%nat -> is_u32 (le_value v)).
  { intros v Hv Hvl. pose proof (le_value_range v Hv). unfold is_u32. split; [lia|].
    apply Z.lt_le_trans with (256 ^ zlen v); [lia|]. change (2 ^ 32) with (256 ^ 4).
    apply Z.pow_le_mono_r; unfold zlen; lia. }
  rewrite (crc_bytes_word w), (crc_bytes_word w'), <-Hl in E by done.
  apply iter_crc_bit_inj in E; try (apply lxor_u32; auto; apply Hv; auto; lia).
  rewrite !(Z.lxor_comm (crc_bytes _ _)) in E. apply lxor_inj_r in E.
  rewrite <-(le_bytes_value w), <-(le_bytes_value w'), Hl by done. by rewrite E.
Qed.

Lemma htonl_inj x y : is_u32 x -> is_u32 y -> htonl x = htonl y -> x = y.
Proof.
  intros Hx Hy E. apply (f_equal (le_bytes 4)) in E. rewrite !le_bytes_htonl in E.
  apply (f_equal be_value) in E. rewrite !be_value_bytes in E.
  unfold is_u32 in *. change (256 ^ Z.of_nat 4) with (2 ^ 32) in E. by rewrite !Z.mod_small in E by lia.
Qed.

Lemma crc32_u32 l : bytes l -> is_u32 (crc32 l).
Proof. intros. apply lxor_u32; auto using crc_bytes_u32, init_u32. Qed.

Lemma fingerprint_of_u32 ty n id attrs :
  bytes ty -> bytes id -> bytes attrs -> is_u32 (fingerprint_of ty n id attrs).
Proof.
  intros. apply lxor_u32; [|unfold is_u32; lia]. apply crc32_u32.
  rewrite !bytes_app. auto using bytes_be_bytes.
Qed.

(** ** Claims *)

(** C30: the table-driven [stun_crc32] computes the bit-serial CRC-32 with
    generator 0xEDB88320 of the concatenation of its chunks, for any number of
    chunks that lie inside their objects (with the entry of the table that
    Windows Live Messenger mistyped left as it should be). *)
Theorem stun_crc32_reference data :
  Forall crc_valid data -> stun_crc32 data false = Ok (crc32 (concat (map crc_slice data))).
Proof. apply stun_crc32_spec. Qed.

Lemma stun_crc32_reference_witness :
  stun_crc32 [mkCrcData [48; 49; 50; 51; 52; 53] 1 4; mkCrcData [53; 54; 55; 56; 57] 0 5] false =
  Ok (crc32 [49; 50; 51; 52; 53; 54; 55; 56; 57]) /\ crc32 [49; 50; 51; 52; 53; 54; 55; 56; 57] = 0xCBF43926.
Proof.
  split; [|vm_compute; reflexivity].
  apply (stun_crc32_reference [mkCrcData [48; 49; 50; 51; 52; 53] 1 4; mkCrcData [53; 54; 55; 56; 57] 0 5]).
  apply (bool_decide_eq_true_1 _). vm_compute. reflexivity.
Defined.

(** C31: the FINGERPRINT of a message detects every corruption confined to
    four consecutive bytes of the transaction id and the attributes before it:
    two messages of the same length that differ only there never have the same
    fingerprint. *)
Theorem fingerprint_detects_burst hdr pre w w' suf tl :
  bytes (hdr ++ pre ++ w ++ suf ++ tl) -> bytes w' -> length w = length w' -> (length w <= 4)%nat ->
  zlen hdr = 4 -> zlen tl = 8 -> 16 <= zlen (pre ++ w ++ suf) < 2 ^ 32 -> w <> w' ->
  exists f f', f <> f' /\
  stun_fingerprint (hdr ++ pre ++ w ++ suf ++ tl) (12 + zlen (pre ++ w ++ suf)) false = Ok f /\
  stun_fingerprint (hdr ++ pre ++ w' ++ suf ++ tl) (12 + zlen (pre ++ w ++ suf)) false = Ok f'.
Proof.
  intros Hb Hw' Hl H4 Hh Htl Hsz Hne.
  destruct hdr as [|h0 [|h1 [|h2 [|h3 [|]]]]]; try (exfalso; zlia).
  assert (F : forall v, bytes v -> length v = length w ->
    stun_fingerprint ([h0; h1; h2; h3] ++ pre ++ v ++ suf ++ tl) (12 + zlen (pre ++ w ++ suf)) false =
    Ok (htonl (Z.lxor (crc32 ((h0 :: h1 :: be_bytes 2 (zlen (pre ++ w ++ suf) - 8) ++ pre) ++ v ++ suf)) 0x5354554e))).
  { intros v Hv Hvl. assert (Hz : zlen (pre ++ v ++ suf) = zlen (pre ++ w ++ suf)) by (unfold zlen; rewrite !length_app; lia).
    rewrite <-Hz in *. destruct (split_at (pre ++ v ++ suf) 0 16) as (n & id & body & Eq & Hn & Hid); [lia..|].
    apply zlen_0_nil in Hn as ->. cbn [app] in Eq.
    replace ([h0; h1; h2; h3] ++ pre ++ v ++ suf ++ tl) with ([h0; h1] ++ [h2; h3] ++ id ++ body ++ tl)
      by (rewrite !app_assoc, <-(app_assoc _ id body), <-Eq; by rewrite <-!app_assoc).
    rewrite Eq in *. rewrite zlen_app, Hid in *. rewrite !bytes_app in Hb.
    assert (Hib : bytes (id ++ body)) by (rewrite <-Eq, !bytes_app; tauto). rewrite bytes_app in Hib.
    rewrite (stun_fingerprint_spec [h0; h1] [h2; h3] id body tl); try done; try lia.
    - unfold fingerprint_of. do 4 f_equal. replace (16 + zlen body - 8) with (8 + zlen body) by lia.
      cbn [app]. by rewrite <-app_assoc, Eq.
    - rewrite !bytes_cons in *. tauto.
    - rewrite !bytes_app. rewrite !bytes_cons in *. repeat split; try tauto; apply Hb. }
  rewrite !bytes_app, !bytes_cons in Hb. destruct Hb as ((? & ? & ? & ? & _) & Hp & Hw & Hs & Ht).
  do 2 eexists. split; [|by rewrite !F by done]. intros E. apply Hne.
  assert (Hall : forall v, bytes v -> bytes ((h0 :: h1 :: be_bytes 2 (zlen (pre ++ w ++ suf) - 8) ++ pre) ++ v ++ suf)).
  { intros v Hv. rewrite !bytes_app, !bytes_cons, bytes_app. auto using bytes_be_bytes. }
  apply htonl_inj, lxor_inj_r in E; [|apply lxor_u32; [by apply crc32_u32, Hall|by unfold is_u32]..].
  eapply crc32_burst; eauto.
Qed.

Lemma fingerprint_detects_burst_witness :
  exists f f', f <> f' /\
  stun_fingerprint ([0; 1; 0; 8] ++ replicate 10 7 ++ [1; 2; 3] ++ replicate 7 9 ++ replicate 8 0) 32 false = Ok f /\
  stun_fingerprint ([0; 1; 0; 8] ++ replicate 10 7 ++ [1; 2; 4] ++ replicate 7 9 ++ replicate 8 0) 32 false = Ok f'.
Proof.
  apply (fingerprint_detects_burst [0; 1; 0; 8] (replicate 10 7) [1; 2; 3] [1; 2; 4] (replicate 7 9) (replicate 8 0));
    try reflexivity; try discriminate; try (apply (bool_decide_eq_true_1 _); vm_compute; reflexivity).
Defined.
