(* ===== verification/StunAgent.v ===== *)
(** * The STUN agent (stunagent.c)

    The agent's table of outstanding transactions, the construction of
    requests, indications, responses and errors, the integrity and fingerprint
    attributes added by [stun_agent_finish_message], and the validation of
    received messages by [stun_agent_validate].

    Operations return the new agent and message next to their result.  The
    table [ag_sent_ids] has STUN_AGENT_MAX_SAVED_IDS entries ([agent_ok]). *)
From S2P Require Import Prelude CMem StunTypes StunMessage StunCrc32.
Local Open Scope Z_scope.

(** * Message integrity and long-term keys (stunhmac.c)

    HMAC-SHA1 and MD5 come from a cryptographic library outside the
    repository; [CryptoLib] is what the sources rely on of it. *)

(** The digests have the sizes the sources allocate for them (20 and 16
    bytes). *)
Class CryptoLib : Type := {
  hmac_sha1 : list Z -> list Z -> list Z;       (** key, data *)
  md5_digest : list Z -> list Z;
  hmac_sha1_len : forall k d, zlen (hmac_sha1 k d) = 20;
  hmac_sha1_bytes : forall k d, bytes (hmac_sha1 k d);
  md5_digest_len : forall d, zlen (md5_digest d) = 16;
  md5_digest_bytes : forall d, bytes (md5_digest d)
}.

Section code.
Context {CL : CryptoLib}.

(** [stun_sha1]: the value stored at [sha]. *)
Definition stun_sha1 (msg : list Z) (len msg_len : Z) (key : list Z) (padding : bool) : res (list Z) :=
  let fakelen := htons msg_len in
  _ ← assert_ok (44 <=? len);
  d0 ← rd_bytes msg 0 2;
  d1 ← rd_bytes msg 4 (len - 28);
  let d2 :=
    if padding && (0 <? (len - 24) mod 64) then replicate (Z.to_nat (u16 (64 - (len - 24) mod 64))) 0 else [] in
  Ok (hmac_sha1 key (d0 ++ le_bytes 2 fakelen ++ d1 ++ d2)).

(** The two loops of [priv_trim_var]; a pointer is an offset into the object
    [obj], and [var_len] is a [size_t]. *)
Fixpoint trim_left (fuel : nat) (obj : list Z) (ptr var_len : Z) : res (Z * Z) :=
  c ← rd obj ptr;
  if c =? 34 then
    match fuel with
    | O => Fault OutOfFuel
    | S fuel => trim_left fuel obj (ptr + 1) (u64 (var_len - 1))
    end
  else Ok (ptr, var_len).

Fixpoint trim_right (fuel : nat) (obj : list Z) (ptr var_len : Z) : res Z :=
  c ← rd obj (ptr + u64 (var_len - 1));
  if (c =? 34) || (c =? 0) then
    match fuel with
    | O => Fault OutOfFuel
    | S fuel => trim_right fuel obj ptr (u64 (var_len - 1))
    end
  else Ok var_len.

Definition priv_trim_var (obj : list Z) (var var_len : Z) : res (Z * Z) :=
  '(ptr, var_len) ← trim_left (S (length obj)) obj var var_len;
  var_len ← trim_right (S (length obj)) obj ptr var_len;
  Ok (ptr, var_len).

(** A pointer argument with its length: an object, an offset and a size. *)
Definition stun_hash_creds (realm username password : list Z * Z * Z) : res (list Z) :=
  let '(uo, u, ul) := username in
  let '(po, p, pl) := password in
  let '(ro, r, rl) := realm in
  '(username_trimmed, username_len) ← priv_trim_var uo u ul;
  '(password_trimmed, password_len) ← priv_trim_var po p pl;
  '(realm_trimmed, realm_len) ← priv_trim_var ro r rl;
  ud ← rd_bytes uo username_trimmed username_len;
  rdat ← rd_bytes ro realm_trimmed realm_len;
  pd ← rd_bytes po password_trimmed password_len;
  Ok (md5_digest (ud ++ [58] ++ rdat ++ [58] ++ pd)).

End code.

(** Conditions that may fault, with the evaluation order of C. *)
Declare Scope res_scope.
Notation "a '&&&' b" := (x ← a; if (x : bool) then b else Ok false) (at level 40, left associativity) : res_scope.
Notation "a '|||' b" := (x ← a; if (x : bool) then Ok true else b) (at level 50, left associativity) : res_scope.
Notation "'!!!' a" := (x ← a; Ok (negb (x : bool))) (at level 35, right associativity) : res_scope.
Delimit Scope res_scope with res.
#[global] Open Scope res_scope.

(** ** State *)

Definition set_valid (s : StunAgentSavedIds) (v : bool) : StunAgentSavedIds :=
  mkSavedId (si_id s) (si_method s) (si_key s) (si_long_term_key s) (si_long_term_valid s) v.

Definition set_sent_ids (a : StunAgent) (l : list StunAgentSavedIds) : StunAgent :=
  mkAgent (ag_info a) l (ag_known_attributes a) (ag_software_attribute a)
    (ag_ms_ice2_send_legacy_connchecks a).

Definition set_legacy (a : StunAgent) (v : bool) : StunAgent :=
  mkAgent (ag_info a) (ag_sent_ids a) (ag_known_attributes a) (ag_software_attribute a) v.

Definition is_rfc5389 (a : StunAgent) : bool :=
  bool_decide (compatibility (ag_info a) = STUN_COMPATIBILITY_RFC5389) ||
  bool_decide (compatibility (ag_info a) = STUN_COMPATIBILITY_MSICE2).

Definition agent_flag (a : StunAgent) (f : Z) : bool := has_flag (ag_info a) f.

(** The first entry of the table that satisfies [p], or the table's size. *)
Fixpoint slot_index (p : StunAgentSavedIds -> bool) (l : list StunAgentSavedIds) : nat :=
  match l with
  | [] => O
  | s :: l => if p s then O else S (slot_index p l)
  end.

Definition agent_ok (a : StunAgent) : Prop := zlen (ag_sent_ids a) = STUN_AGENT_MAX_SAVED_IDS.

(** The structure [agent] points to may hold anything before. *)
Definition stun_agent_init (old : StunAgent) (known_attributes : list Z)
    (compat : StunCompatibility) (flags : Z) : StunAgent :=
  mkAgent (mkAgentInfo compat flags)
    (map (fun s => set_valid s false) (ag_sent_ids old)) known_attributes None
    (bool_decide (compat = STUN_COMPATIBILITY_MSICE2)).

Definition stun_agent_set_software (a : StunAgent) (software : option (list Z)) : StunAgent :=
  mkAgent (ag_info a) (ag_sent_ids a) (ag_known_attributes a) software
    (ag_ms_ice2_send_legacy_connchecks a).

(** ** Password look-up

    A validater gets the agent, the message, the username ([None] for the
    null pointer) and the key found so far; it returns its verdict and the
    key. *)
Definition StunMessageIntegrityValidate : Type :=
  StunAgent -> StunMessage -> option (list Z) -> option (list Z) -> bool * option (list Z).

(** One entry of the null-terminated array given to the default validater. *)
Record StunDefaultValidaterData : Set := mkValidaterData {
  vd_username : list Z;
  vd_password : option (list Z)
}.

Definition stun_agent_default_validater (data : list StunDefaultValidaterData)
    : StunMessageIntegrityValidate := fun _ _ username password =>
  match List.find (fun v => bool_decide (default [] username = vd_username v)) data with
  | Some v => (true, vd_password v)
  | None => (false, password)
  end.

(** ** Unknown attributes *)

Fixpoint is_unknown_loop (known : list Z) (type : Z) : res bool :=
  match known with
  | [] => Fault OutOfBounds      (* the array lacks its terminator *)
  | k :: known =>
      if k =? 0 then Ok true else if k =? type then Ok false else is_unknown_loop known type
  end.

Definition stun_agent_is_unknown (a : StunAgent) (type : Z) : res bool :=
  is_unknown_loop (ag_known_attributes a) type.

(** The loop of [stun_agent_find_unknowns]; [found] is the part of the
    caller's [list] stored so far. *)
Fixpoint find_unknowns_loop (fuel : nat) (a : StunAgent) (msg : StunMessage) (len offset max : Z)
    (found : list Z) : res (list Z) :=
  if (offset <? len) && (zlen found <? max) then
    match fuel with
    | O => Fault OutOfFuel
    | S fuel =>
        alen ← stun_getw (buffer msg) (offset + STUN_ATTRIBUTE_TYPE_LEN);
        atype ← stun_getw (buffer msg) offset;
        unknown ← Ok (negb (stun_optional atype)) &&& stun_agent_is_unknown a atype;
        let found := if (unknown : bool) then found ++ [htons atype] else found in
        let alen := if negb (agent_flag a STUN_AGENT_USAGE_NO_ALIGNED_ATTRIBUTES)
                    then stun_align alen else alen in
        find_unknowns_loop fuel a msg len (offset + STUN_ATTRIBUTE_VALUE_POS + alen) max found
    end
  else Ok found.

Definition stun_agent_find_unknowns (a : StunAgent) (msg : StunMessage) (max : Z) : res (list Z) :=
  len ← stun_message_length msg;
  find_unknowns_loop (Z.to_nat len) a msg len STUN_MESSAGE_ATTRIBUTES_POS max [].

(** ** Fingerprint *)

Definition stun_agent_check_fingerprint (a : StunAgent) (msg : StunMessage) : res bool :=
  '(ret, val) ← stun_message_find32 msg STUN_ATTRIBUTE_FINGERPRINT;
  match ret, val with
  | STUN_MESSAGE_RETURN_SUCCESS, Some fpr =>
      msg_len ← stun_message_length msg;
      crc32 ← stun_fingerprint (buffer msg) msg_len false;
      let fpr := ntohl fpr in
      if negb (fpr =? crc32) then
        Ok (bool_decide (compatibility (ag_info a) = STUN_COMPATIBILITY_MSICE2)) &&&
        !!! stun_message_has_attribute msg STUN_ATTRIBUTE_MS_IMPLEMENTATION_VERSION &&&
        (typo ← stun_fingerprint (buffer msg) msg_len true; Ok (fpr =? typo))
      else Ok true
  | _, _ => Ok false
  end.

(** ** Integrity *)

Section integrity.
Context {CL : CryptoLib}.

(** The [stun_sha1] call of [stun_agent_validate], for either kind of key;
    [hash] is the offset of the attribute's value. *)
Definition validate_sha1 (a : StunAgent) (msg : StunMessage) (hash : Z) (k : list Z) : res (list Z) :=
  match compatibility (ag_info a) with
  | STUN_COMPATIBILITY_RFC3489 | STUN_COMPATIBILITY_OC2007 =>
      stun_sha1 (buffer msg) (hash + 20) hash k true
  | STUN_COMPATIBILITY_MSICE2 =>
      l ← stun_message_length msg;
      stun_sha1 (buffer msg) (hash + 20) (l - 20) k true
  | STUN_COMPATIBILITY_RFC5389 => stun_sha1 (buffer msg) (hash + 20) hash k false
  end.

(** The [stun_sha1] call of [stun_agent_finish_message]. *)
Definition finish_sha1 (a : StunAgent) (msg : StunMessage) (k : list Z) : res (list Z) :=
  l ← stun_message_length msg;
  match compatibility (ag_info a) with
  | STUN_COMPATIBILITY_RFC3489 | STUN_COMPATIBILITY_OC2007 =>
      stun_sha1 (buffer msg) l (l - 20) k true
  | STUN_COMPATIBILITY_MSICE2 =>
      let minus := if agent_flag a STUN_AGENT_USAGE_USE_FINGERPRINT then 20 - 8 else 20 in
      stun_sha1 (buffer msg) l (l - minus) k true
  | STUN_COMPATIBILITY_RFC5389 => stun_sha1 (buffer msg) l (l - 20) k false
  end.

Definition set_long_term (m : StunMessage) (k : list Z) : StunMessage :=
  mkMessage (agent m) (buffer m) (buffer_len m) (key m) k true.

Definition set_key (m : StunMessage) (k : option (list Z)) : StunMessage :=
  mkMessage (agent m) (buffer m) (buffer_len m) k (long_term_key m) (long_term_valid m).

(** An attribute's value as a pointer argument. *)
Definition value_ptr (m : StunMessage) (v : Z * Z) : list Z * Z * Z := (buffer m, fst v, snd v).
Definition key_ptr (k : list Z) : list Z * Z * Z := (k, 0, zlen k).

(** ** Validation *)

(** Entry of the table a response belongs to. *)
Definition slot_matches (meth : Z) (id : list Z) (s : StunAgentSavedIds) : bool :=
  si_valid s && (si_method s =? meth) && bool_decide (id = si_id s).

(** Lines 196-216: [None] is the unmatched response; otherwise the entry's
    index, if the message is a response or an error. *)
Definition match_response (a : StunAgent) (msg : StunMessage) (c : StunClass)
    : res (option (option nat)) :=
  if bool_decide (c = STUN_RESPONSE) || bool_decide (c = STUN_ERROR) then
    msg_id ← stun_message_id msg;
    meth ← stun_message_get_method msg;
    let idx := slot_index (slot_matches meth msg_id) (ag_sent_ids a) in
    if Z.of_nat idx =? STUN_AGENT_MAX_SAVED_IDS then Ok None else Ok (Some (Some idx))
  else Ok (Some None).

Definition code_in (c : option Z) (l : list Z) : bool :=
  match c with Some c => bool_decide (c ∈ l) | None => false end.

(** Is the message an error whose code is in [codes]; the second component is
    [error_code] after the test. *)
Definition is_error_in (msg : StunMessage) (c : StunClass) (codes : list Z) (error_code : option Z)
    : res (bool * option Z) :=
  if bool_decide (c = STUN_ERROR) then
    '(ret, code) ← stun_message_find_error msg;
    if bool_decide (ret = STUN_MESSAGE_RETURN_SUCCESS) then Ok (code_in code codes, code)
    else Ok (false, error_code)
  else Ok (false, error_code).

(** Lines 218-229. *)
Definition ignore_credentials (a : StunAgent) (msg : StunMessage) (c : StunClass)
    : res (bool * option Z) :=
  if agent_flag a STUN_AGENT_USAGE_IGNORE_CREDENTIALS then Ok (true, None)
  else
    '(e, error_code) ← is_error_in msg c
        [STUN_ERROR_BAD_REQUEST; STUN_ERROR_UNAUTHORIZED; STUN_ERROR_STALE_NONCE; STUN_ERROR_TRY_ALTERNATE] None;
    if (e : bool) then Ok (true, error_code)
    else Ok (bool_decide (c = STUN_INDICATION) &&
             (agent_flag a STUN_AGENT_USAGE_LONG_TERM_CREDENTIALS ||
              agent_flag a STUN_AGENT_USAGE_NO_INDICATION_AUTH), error_code).

(** Lines 231-248: credentials that must be present are missing. *)
Definition missing_credentials (a : StunAgent) (msg : StunMessage) (c : StunClass)
    (k : option (list Z)) (ignore : bool) : res bool :=
  let has := stun_message_has_attribute msg in
  if bool_decide (k = None) && negb ignore &&
     (bool_decide (c = STUN_REQUEST) || bool_decide (c = STUN_INDICATION)) then
    (Ok (agent_flag a STUN_AGENT_USAGE_SHORT_TERM_CREDENTIALS) &&&
      (!!! has STUN_ATTRIBUTE_USERNAME ||| !!! has STUN_ATTRIBUTE_MESSAGE_INTEGRITY)) |||
    (Ok (agent_flag a STUN_AGENT_USAGE_LONG_TERM_CREDENTIALS) &&& Ok (bool_decide (c = STUN_REQUEST)) &&&
      (!!! has STUN_ATTRIBUTE_USERNAME ||| !!! has STUN_ATTRIBUTE_MESSAGE_INTEGRITY |||
       !!! has STUN_ATTRIBUTE_NONCE ||| !!! has STUN_ATTRIBUTE_REALM)) |||
    (Ok (negb (agent_flag a STUN_AGENT_USAGE_IGNORE_CREDENTIALS)) &&&
      has STUN_ATTRIBUTE_USERNAME &&& !!! has STUN_ATTRIBUTE_MESSAGE_INTEGRITY)
  else Ok false.

(** Lines 250-261: [None] when the validater refuses, else the key. *)
Definition run_validater (a : StunAgent) (msg : StunMessage) (k : option (list Z)) (ignore : bool)
    (validater : option StunMessageIntegrityValidate) : res (option (option (list Z))) :=
  mi ← stun_message_has_attribute msg STUN_ATTRIBUTE_MESSAGE_INTEGRITY;
  if mi && ((bool_decide (k = None) && negb ignore) || agent_flag a STUN_AGENT_USAGE_FORCE_VALIDATER) then
    u ← stun_message_find msg STUN_ATTRIBUTE_USERNAME;
    username ← (match u with
                | Some (p, n) => v ← rd_bytes (buffer msg) p n; Ok (Some v)
                | None => Ok None end);
    match validater with
    | None => Ok None
    | Some f => let '(ok, k) := f a msg username k in Ok (if ok : bool then Some k else None)
    end
  else Ok (Some k).

(** Lines 263-338: whether the message passes, the message (with its keys) and
    [error_code]. *)
Definition check_integrity (a : StunAgent) (msg : StunMessage) (c : StunClass)
    (k : option (list Z)) (long_term : option (list Z)) (ignore : bool) (error_code : option Z)
    : res (bool * StunMessage * option Z) :=
  match k with
  | Some kv =>
      if negb ignore && (0 <? zlen kv) then
        h ← stun_message_find msg STUN_ATTRIBUTE_MESSAGE_INTEGRITY;
        match h with
        | Some (hash, _) =>
            md5 ← (if agent_flag a STUN_AGENT_USAGE_LONG_TERM_CREDENTIALS then
                     match long_term with
                     | Some md5 => Ok (Some (Some md5))
                     | None =>
                         r ← stun_message_find msg STUN_ATTRIBUTE_REALM;
                         u ← stun_message_find msg STUN_ATTRIBUTE_USERNAME;
                         match u, r with
                         | Some u, Some r =>
                             md5 ← stun_hash_creds (value_ptr msg r) (value_ptr msg u) (key_ptr kv);
                             Ok (Some (Some md5))
                         | _, _ => Ok None
                         end
                     end
                   else Ok (Some None));
            match md5 with
            | None => Ok (false, msg, error_code)
            | Some md5 =>
                let msg := match md5 with Some m => set_long_term msg m | None => msg end in
                sha ← validate_sha1 a msg hash (default kv md5);
                received ← rd_bytes (buffer msg) hash 20;
                if bool_decide (sha = received) then
                  Ok (true, set_key msg k, error_code)
                else Ok (false, msg, error_code)
            end
        | None =>
            '(e, error_code) ← is_error_in msg c [STUN_ERROR_BAD_REQUEST; STUN_ERROR_UNAUTHORIZED] error_code;
            Ok (e, msg, error_code)
        end
      else Ok (true, msg, error_code)
  | None => Ok (true, msg, error_code)
  end.

(** Lines 340-346: [error_code] is read even when no code was found. *)
Definition check_forbidden (a : StunAgent) (msg : StunMessage) (c : StunClass) (error_code : option Z)
    : res bool :=
  if agent_flag a STUN_AGENT_USAGE_CONSENT_FRESHNESS && bool_decide (c = STUN_ERROR) then
    '(_, code) ← stun_message_find_error msg;
    match (match code with Some _ => code | None => error_code end) with
    | Some code => Ok (code =? STUN_ERROR_FORBIDDEN)
    | None => Fault Uninitialised
    end
  else Ok false.

(** Lines 348-364. *)
Definition accept_message (a : StunAgent) (msg : StunMessage) (c : StunClass) (slot : option nat)
    : res (StunValidationStatus * StunAgent * StunMessage) :=
  let a := match slot with
           | Some i => set_sent_ids a (alter (fun s => set_valid s false) i (ag_sent_ids a))
           | None => a end in
  '(ret, _) ← stun_message_find32 msg STUN_ATTRIBUTE_MS_IMPLEMENTATION_VERSION;
  let a := if bool_decide (ret = STUN_MESSAGE_RETURN_SUCCESS) then set_legacy a false else a in
  unknowns ← stun_agent_find_unknowns a msg 1;
  Ok (if 0 <? zlen unknowns then
        if bool_decide (c = STUN_REQUEST) then STUN_VALIDATION_UNKNOWN_REQUEST_ATTRIBUTE
        else STUN_VALIDATION_UNKNOWN_ATTRIBUTE
      else STUN_VALIDATION_SUCCESS, a, msg).

(** Lines 196-364, on a framed message. *)
Definition validate_framed (a : StunAgent) (msg : StunMessage)
    (validater : option StunMessageIntegrityValidate)
    : res (StunValidationStatus * StunAgent * StunMessage) :=
  c ← stun_message_get_class msg;
  m ← match_response a msg c;
  match m with
  | None => Ok (STUN_VALIDATION_UNMATCHED_RESPONSE, a, msg)
  | Some slot =>
      let saved := slot ≫= fun i => ag_sent_ids a !! i in
      let k := saved ≫= si_key in
      let long_term := saved ≫= fun s => if si_long_term_valid s then Some (si_long_term_key s) else None in
      '(ignore, error_code) ← ignore_credentials a msg c;
      missing ← missing_credentials a msg c k ignore;
      if (missing : bool) then Ok (STUN_VALIDATION_UNAUTHORIZED_BAD_REQUEST, a, msg)
      else
        v ← run_validater a msg k ignore validater;
        match v with
        | None => Ok (STUN_VALIDATION_UNAUTHORIZED, a, msg)
        | Some k =>
            '(ok, msg, error_code) ← check_integrity a msg c k long_term ignore error_code;
            if negb ok then Ok (STUN_VALIDATION_UNAUTHORIZED, a, msg)
            else
              forbidden ← check_forbidden a msg c error_code;
              if (forbidden : bool) then Ok (STUN_VALIDATION_FORBIDDEN, a, msg)
              else accept_message a msg c slot
        end
  end.

Definition stun_agent_validate (a : StunAgent) (msg : StunMessage) (buf : list Z) (buf_len : Z)
    (validater : option StunMessageIntegrityValidate)
    : res (StunValidationStatus * StunAgent * StunMessage) :=
  len ← stun_message_validate_buffer_length buf buf_len
          (negb (agent_flag a STUN_AGENT_USAGE_NO_ALIGNED_ATTRIBUTES));
  if len =? STUN_MESSAGE_BUFFER_INVALID then Ok (STUN_VALIDATION_NOT_STUN, a, msg)
  else if len =? STUN_MESSAGE_BUFFER_INCOMPLETE then Ok (STUN_VALIDATION_INCOMPLETE_STUN, a, msg)
  else if negb (len =? s32 buf_len) then Ok (STUN_VALIDATION_NOT_STUN, a, msg)
  else
    let msg := mkMessage (Some (ag_info a)) buf buf_len None (long_term_key msg) false in
    bad ← Ok (is_rfc5389 a) &&& !!! stun_message_has_cookie msg;
    if (bad : bool) then Ok (STUN_VALIDATION_BAD_REQUEST, a, msg)
    else
      bad ← Ok (is_rfc5389 a && agent_flag a STUN_AGENT_USAGE_USE_FINGERPRINT) &&&
            !!! stun_agent_check_fingerprint a msg;
      if (bad : bool) then Ok (STUN_VALIDATION_BAD_REQUEST, a, msg)
      else validate_framed a msg validater.

(** ** Outstanding transactions *)

Definition stun_agent_forget_transaction (a : StunAgent) (id : list Z) : bool * StunAgent :=
  let i := slot_index (fun s => si_valid s && bool_decide (id = si_id s)) (ag_sent_ids a) in
  if Z.of_nat i =? STUN_AGENT_MAX_SAVED_IDS then (false, a)
  else (true, set_sent_ids a (alter (fun s => set_valid s false) i (ag_sent_ids a))).

(** Lines 561-570: is the transaction of the message to be remembered. *)
Definition remember_transaction (a : StunAgent) (msg : StunMessage) : res bool :=
  c ← stun_message_get_class msg;
  send ← Ok (bool_decide (compatibility (ag_info a) = STUN_COMPATIBILITY_OC2007)) &&&
         (m ← stun_message_get_method msg; Ok (m =? STUN_SEND));
  Ok (bool_decide (c = STUN_REQUEST) && negb send).

(** Lines 589-660: the MESSAGE-INTEGRITY attribute.  [false] when it does not
    fit.  Without username or realm an agent with long-term credentials adds
    none. *)
Definition add_integrity (a : StunAgent) (msg : StunMessage) (k : list Z) : res (bool * StunMessage) :=
  '(skip, md5, msg) ←
    (if long_term_valid msg then Ok (false, Some (long_term_key msg), msg)
     else if agent_flag a STUN_AGENT_USAGE_LONG_TERM_CREDENTIALS then
       r ← stun_message_find msg STUN_ATTRIBUTE_REALM;
       u ← stun_message_find msg STUN_ATTRIBUTE_USERNAME;
       match u, r with
       | Some u, Some r =>
           md5 ← stun_hash_creds (value_ptr msg r) (value_ptr msg u) (key_ptr k);
           Ok (false, Some md5, set_long_term msg md5)
       | _, _ => Ok (true, None, msg)
       end
     else Ok (false, None, msg));
  if (skip : bool) then Ok (true, msg)
  else
    '(ptr, msg) ← stun_message_append msg STUN_ATTRIBUTE_MESSAGE_INTEGRITY 20;
    match ptr with
    | None => Ok (false, msg)
    | Some ptr =>
        sha_key ← (if agent_flag a STUN_AGENT_USAGE_LONG_TERM_CREDENTIALS then
                     match md5 with Some m => Ok m | None => Fault Uninitialised end
                   else Ok k);
        sha ← finish_sha1 a msg sha_key;
        b ← wr_bytes (buffer msg) ptr sha;
        Ok (true, set_buffer msg b)
    end.

(** Lines 662-674: the FINGERPRINT attribute. *)
Definition add_fingerprint (a : StunAgent) (msg : StunMessage) : res (bool * StunMessage) :=
  if is_rfc5389 a && agent_flag a STUN_AGENT_USAGE_USE_FINGERPRINT then
    '(ptr, msg) ← stun_message_append msg STUN_ATTRIBUTE_FINGERPRINT 4;
    match ptr with
    | None => Ok (false, msg)
    | Some ptr =>
        l ← stun_message_length msg;
        fpr ← stun_fingerprint (buffer msg) l false;
        b ← wr_bytes (buffer msg) ptr (le_bytes 4 fpr);
        Ok (true, set_buffer msg b)
    end
  else Ok (true, msg).

(** Returns the size of the message, 0 on failure. *)
Definition stun_agent_finish_message (a : StunAgent) (msg : StunMessage) (k : option (list Z))
    : res (Z * StunAgent * StunMessage) :=
  remember ← remember_transaction a msg;
  let saved_id_idx := if (remember : bool) then slot_index (fun s => negb (si_valid s)) (ag_sent_ids a) else O in
  if Z.of_nat saved_id_idx =? STUN_AGENT_MAX_SAVED_IDS then Ok (0, a, msg)
  else
    let k := match key msg with Some _ => key msg | None => k end in
    '(ok, msg) ← (match k with Some kv => add_integrity a msg kv | None => Ok (true, msg) end);
    if negb ok then Ok (0, a, msg)
    else
      '(ok, msg) ← add_fingerprint a msg;
      if negb ok then Ok (0, a, msg)
      else
        a ← (if (remember : bool) then
               id ← stun_message_id msg;
               m ← stun_message_get_method msg;
               Ok (set_sent_ids a (<[saved_id_idx :=
                     mkSavedId id m k (long_term_key msg) (long_term_valid msg) true]> (ag_sent_ids a)))
             else Ok a);
        let msg := set_key msg k in
        l ← stun_message_length msg;
        Ok (l, a, msg).

(** ** Building messages

    [transid] is the result of [stun_make_transid]: 16 bytes from the random
    number generator.  [package_string] is the build's PACKAGE_STRING. *)

Definition set_cookie (a : StunAgent) (msg : StunMessage) : res StunMessage :=
  if is_rfc5389 a then
    b ← wr_bytes (buffer msg) STUN_MESSAGE_TRANS_ID_POS (le_bytes 4 (htonl STUN_MAGIC_COOKIE));
    Ok (set_buffer msg b)
  else Ok msg.

Definition add_software (package_string : list Z) (a : StunAgent) (msg : StunMessage) : res StunMessage :=
  if is_rfc5389 a && (bool_decide (is_Some (ag_software_attribute a)) ||
                      agent_flag a STUN_AGENT_USAGE_ADD_SOFTWARE) then
    '(_, msg) ← stun_message_append_software package_string msg (ag_software_attribute a);
    Ok msg
  else Ok msg.

Definition stun_agent_init_request (package_string : list Z) (transid : list Z) (a : StunAgent)
    (msg : StunMessage) (buf : list Z) (buf_len : Z) (m : Z) : res (bool * StunMessage) :=
  let msg := mkMessage (Some (ag_info a)) buf buf_len None (long_term_key msg) false in
  '(ret, msg) ← stun_message_init msg STUN_REQUEST m transid;
  if (ret : bool) then
    msg ← set_cookie a msg;
    msg ← add_software package_string a msg;
    Ok (true, msg)
  else Ok (false, msg).

Definition stun_agent_init_indication (transid : list Z) (a : StunAgent)
    (msg : StunMessage) (buf : list Z) (buf_len : Z) (m : Z) : res (bool * StunMessage) :=
  let msg := mkMessage (Some (ag_info a)) buf buf_len None (long_term_key msg) false in
  '(ret, msg) ← stun_message_init msg STUN_INDICATION m transid;
  if (ret : bool) then
    msg ← set_cookie a msg;
    Ok (true, msg)
  else Ok (false, msg).

Definition stun_agent_init_response (package_string : list Z) (a : StunAgent)
    (msg : StunMessage) (buf : list Z) (buf_len : Z) (request : StunMessage) : res (bool * StunMessage) :=
  c ← stun_message_get_class request;
  if negb (bool_decide (c = STUN_REQUEST)) then Ok (false, msg)
  else
    let msg := mkMessage (Some (ag_info a)) buf buf_len (key request) (long_term_key request)
                 (long_term_valid request) in
    id ← stun_message_id request;
    meth ← stun_message_get_method request;
    '(ret, msg) ← stun_message_init msg STUN_RESPONSE meth id;
    if (ret : bool) then
      msg ← add_software package_string a msg;
      Ok (true, msg)
    else Ok (false, msg).

Definition stun_agent_init_error (package_string : list Z) (a : StunAgent)
    (msg : StunMessage) (buf : list Z) (buf_len : Z) (request : StunMessage) (err : Z)
    : res (bool * StunMessage) :=
  c ← stun_message_get_class request;
  if negb (bool_decide (c = STUN_REQUEST)) then Ok (false, msg)
  else
    let msg := mkMessage (Some (ag_info a)) buf buf_len (key request) (long_term_key request)
                 (long_term_valid request) in
    id ← stun_message_id request;
    meth ← stun_message_get_method request;
    '(ret, msg) ← stun_message_init msg STUN_ERROR meth id;
    if (ret : bool) then
      msg ← add_software package_string a msg;
      '(r, msg) ← stun_message_append_error msg err;
      Ok (bool_decide (r = STUN_MESSAGE_RETURN_SUCCESS), msg)
    else Ok (false, msg).

(** [ids] has room for STUN_AGENT_MAX_UNKNOWN_ATTRIBUTES entries, 16-bit
    integers in memory order. *)
Definition stun_agent_build_unknown_attributes_error (package_string : list Z) (a : StunAgent)
    (msg : StunMessage) (buf : list Z) (buf_len : Z) (request : StunMessage)
    : res (Z * StunAgent * StunMessage) :=
  ids ← stun_agent_find_unknowns a request STUN_AGENT_MAX_UNKNOWN_ATTRIBUTES;
  '(ret, msg) ← stun_agent_init_error package_string a msg buf buf_len request STUN_ERROR_UNKNOWN_ATTRIBUTE;
  if negb ret then Ok (0, a, msg)
  else
    odd ← !!! stun_message_has_cookie request &&& Ok (flag (zlen ids) 1);
    ids ← (if (odd : bool) then
             if zlen ids <? STUN_AGENT_MAX_UNKNOWN_ATTRIBUTES then Ok (ids ++ take 1 ids)
             else Fault OutOfBounds
           else Ok ids);
    '(r, msg) ← stun_message_append_bytes msg STUN_ATTRIBUTE_UNKNOWN_ATTRIBUTES
                  (concat (map (le_bytes 2) ids));
    if bool_decide (r = STUN_MESSAGE_RETURN_SUCCESS) then
      stun_agent_finish_message a msg (key request)
    else Ok (0, a, msg).

End integrity.
