(* ===== verification/StunIntegrity.v ===== *)
(** * What the integrity and fingerprint attributes contain, and who accepts them

    Specifications, on the abstract attribute sequence, of the HMAC and CRC
    computations of stunagent.c and of the two attributes that
    [stun_agent_finish_message] appends. *)
From S2P Require Import Prelude CMem StunTypes StunMessage StunWire StunAppend StunAccess StunCrc32 StunAgent.

(** ** Keys: what [priv_trim_var] keeps *)

Definition is_trailer (c : Z) : bool := (c =? 34) || (c =? 0).

Fixpoint drop_while (p : Z -> bool) (l : list Z) : list Z :=
  match l with
  | [] => []
  | x :: l' => if p x then drop_while p l' else l
  end.

Definition trim (l : list Z) : list Z :=
  rev (drop_while is_trailer (rev (drop_while (Z.eqb 34) l))).

Lemma drop_while_split p l :
  exists pre, l = pre ++ drop_while p l /\ Forall (fun x => p x = true) pre /\
    (forall x r, drop_while p l = x :: r -> p x = false).
Proof.
  induction l as [|x l (pre & E & Hp & Hh)]; [by exists []|]. cbn [drop_while].
  destruct (p x) eqn:Ex.
  - exists (x :: pre). split; [by rewrite E at 1|]. split; [by constructor|done].
  - exists []. split; [done|]. split; [constructor|]. by intros ? ? [= <- _].
Qed.

Lemma trim_split l :
  exists pre post, l = pre ++ trim l ++ post /\ Forall (fun x => x = 34) pre /\
    Forall (fun x => is_trailer x = true) post /\
    (trim l <> [] -> exists x r, trim l = x :: r /\ x <> 34) /\
    (trim l <> [] -> exists r x, trim l = r ++ [x] /\ is_trailer x = false).
Proof.
  unfold trim. destruct (drop_while_split (Z.eqb 34) l) as (pre & E & Hp & Hh).
  set (d := drop_while (Z.eqb 34) l) in *.
  destruct (drop_while_split is_trailer (rev d)) as (post & E2 & Hp2 & Hh2).
  set (t := drop_while is_trailer (rev d)) in *.
  assert (Ed : d = rev t ++ rev post) by (rewrite <-(rev_involutive d), E2; apply rev_app_distr).
  exists pre, (rev post). split; [by rewrite E, Ed at 1|]. split.
  { eapply List.Forall_impl; [|exact Hp]. intros x Hx%Z.eqb_eq. lia. }
  split; [by apply Forall_rev|]. split; intros Hne.
  - destruct (rev t) as [|x r] eqn:Et; [done|]. exists x, r. split; [done|].
    specialize (Hh x (r ++ rev post)). rewrite Ed in Hh. specialize (Hh eq_refl). apply Z.eqb_neq in Hh. lia.
  - destruct t as [|x r] eqn:Et; [done|]. exists (rev r), x. split; [done|]. by apply (Hh2 x r).
Qed.

Lemma trim_left_spec q obj pre l post var_len fuel :
  obj = pre ++ q ++ l ++ post -> Forall (fun x => x = 34) q -> (exists x r, l = x :: r /\ x <> 34) ->
  zlen q <= var_len < 2 ^ 63 -> (length q <= fuel)%nat ->
  trim_left fuel obj (zlen pre) var_len = Ok (zlen pre + zlen q, var_len - zlen q).
Proof.
  revert pre var_len fuel. induction q as [|c q IH]; intros pre var_len fuel Hobj Hq (x & r & Hl & Hx) Hlen Hf.
  - rewrite !Hobj, Hl. change (zlen []) with 0. rewrite Z.add_0_r, Z.sub_0_r. cbn [app].
    assert (E : rd (pre ++ x :: r ++ post) (zlen pre) = Ok x)
      by (rewrite <-(Z.add_0_r (zlen pre)), rd_app_r by lia; apply rd_hd).
    destruct fuel; cbn [trim_left]; rewrite E; cbn [mbind res_bind];
      (destruct (Z.eqb_spec x 34); [done|reflexivity]).
  - destruct fuel as [|fuel]; [simpl in Hf; lia|]. inversion Hq as [|? ? -> Hq']; subst.
    cbn [trim_left app]. rewrite <-(Z.add_0_r (zlen pre)) at 1. rewrite rd_app_r by lia. rewrite rd_hd.
    cbn [mbind res_bind]. rewrite Z.eqb_refl. rewrite zlen_cons in *. zlen_pos.
    rewrite u64_small by lia. replace (zlen pre + 1) with (zlen (pre ++ [34])) by zlia.
    rewrite (IH (pre ++ [34])); eauto; [|by rewrite <-app_assoc|lia|simpl in Hf; lia].
    zlen_norm. do 2 f_equal; lia.
Qed.

Lemma trim_right_spec q obj pre l post fuel :
  obj = pre ++ l ++ q ++ post -> Forall (fun x => is_trailer x = true) q ->
  (exists r x, l = r ++ [x] /\ is_trailer x = false) ->
  zlen l + zlen q < 2 ^ 63 -> (length q <= fuel)%nat ->
  trim_right fuel obj (zlen pre) (zlen l + zlen q) = Ok (zlen l).
Proof.
  revert post fuel. induction q as [|c q IH] using rev_ind;
    intros post fuel Hobj Hq (r & x & Hl & Hx) Hlen Hf; zlen_pos.
  - rewrite Hobj, Hl. change (zlen []) with 0. rewrite Z.add_0_r. cbn [app].
    assert (E : rd (pre ++ (r ++ [x]) ++ post) (zlen pre + u64 (zlen (r ++ [x]) - 1)) = Ok x).
    { rewrite Hl in *. zlen_norm. zlen_pos. rewrite u64_small by lia.
      replace (zlen r + (1 + 0) - 1) with (zlen r + 0) by lia.
      rewrite rd_app_r, <-app_assoc, rd_app_r by lia. apply rd_hd. }
    destruct fuel; cbn [trim_right]; rewrite E; cbn [mbind res_bind];
      fold (is_trailer x); rewrite Hx; done.
  - rewrite Forall_app in Hq. destruct Hq as [Hq Hc]. inversion Hc as [|? ? Hc' _]. subst.
    rewrite length_app in Hf. simpl in Hf. destruct fuel as [|fuel]; [lia|].
    assert (E : rd (pre ++ (r ++ [x]) ++ (q ++ [c]) ++ post)
        (zlen pre + u64 (zlen (r ++ [x]) + zlen (q ++ [c]) - 1)) = Ok c).
    { rewrite (u64_small (_ - 1)) by (zlen_norm; zlen_pos; lia).
      replace (zlen (r ++ [x]) + zlen (q ++ [c]) - 1) with (zlen ((r ++ [x]) ++ q) + 0) by zlia.
      rewrite rd_app_r by zlia.
      replace ((r ++ [x]) ++ (q ++ [c]) ++ post) with (((r ++ [x]) ++ q) ++ c :: post)
        by (by rewrite <-!app_assoc).
      rewrite rd_app_r, rd_hd by lia. done. }
    cbn [trim_right]. rewrite E. cbn [mbind res_bind]. fold (is_trailer c). rewrite Hc'.
    rewrite (u64_small (_ - 1)) by (zlen_norm; zlen_pos; lia).
    replace (zlen (r ++ [x]) + zlen (q ++ [c]) - 1) with (zlen (r ++ [x]) + zlen q) by zlia.
    apply (IH (c :: post)); [by rewrite <-!app_assoc|done|eauto|zlia|lia].
Qed.

(** A pointer argument whose bytes are [v]. *)
Definition points_to (p : list Z * Z * Z) (v : list Z) : Prop :=
  exists pre post, p = (pre ++ v ++ post, zlen pre, zlen v).

Lemma priv_trim_var_spec pre l post :
  trim l <> [] -> zlen l < 2 ^ 62 ->
  exists p, priv_trim_var (pre ++ l ++ post) (zlen pre) (zlen l) = Ok (p, zlen (trim l)) /\
    rd_bytes (pre ++ l ++ post) p (zlen (trim l)) = Ok (trim l).
Proof.
  intros Hne Hsz. destruct (trim_split l) as (q & q' & El & Hq & Hq' & Hl & Hr).
  specialize (Hl Hne). specialize (Hr Hne). set (t := trim l) in *.
  assert (Hz : zlen l = zlen q + zlen t + zlen q') by (rewrite El at 1; zlia).
  exists (zlen (pre ++ q)). zlen_pos. rewrite El at 1. unfold priv_trim_var.
  rewrite (trim_left_spec q _ pre (t ++ q') post).
  - cbn [mbind res_bind]. replace (zlen l - zlen q) with (zlen t + zlen q') by lia.
    rewrite <-zlen_app. rewrite (trim_right_spec q' _ (pre ++ q) t post); try done.
    + cbn [mbind res_bind]. split; [done|]. apply (rd_bytes_eq _ (pre ++ q) t (q' ++ post)); [|done..].
      rewrite El at 1. lassoc.
    + lassoc.
    + lia.
    + rewrite !length_app. lia.
  - lassoc.
  - done.
  - destruct Hl as (x & r & -> & Hx). by exists x, (r ++ q').
  - lia.
  - rewrite !length_app. lia.
Qed.

Section mac.
Context {CL : CryptoLib}.

Lemma stun_hash_creds_spec realm username password r u p :
  points_to realm r -> points_to username u -> points_to password p ->
  trim r <> [] -> trim u <> [] -> trim p <> [] ->
  zlen r < 2 ^ 62 -> zlen u < 2 ^ 62 -> zlen p < 2 ^ 62 ->
  stun_hash_creds realm username password =
  Ok (md5_digest (trim u ++ [58] ++ trim r ++ [58] ++ trim p)).
Proof.
  intros (r0 & r1 & ->) (u0 & u1 & ->) (p0 & p1 & ->) Hr Hu Hp Lr Lu Lp. unfold stun_hash_creds.
  destruct (priv_trim_var_spec r0 r r1 Hr Lr) as (ro & -> & Er).
  destruct (priv_trim_var_spec u0 u u1 Hu Lu) as (uo & -> & Eu).
  destruct (priv_trim_var_spec p0 p p1 Hp Lp) as (po & -> & Ep).
  cbn [mbind res_bind]. by rewrite Eu, Er, Ep.
Qed.

(** ** The message authentication code *)

(** RFC 3489 pads the authenticated part to a multiple of 64 bytes. *)
Definition hmac_pad (padding : bool) (n : Z) : list Z :=
  if padding && (0 <? n mod 64) then replicate (Z.to_nat (64 - n mod 64)) 0 else [].

Definition pads (c : StunCompatibility) : bool :=
  negb (bool_decide (c = STUN_COMPATIBILITY_RFC5389)).

(** The length field under the HMAC: up to the MESSAGE-INTEGRITY attribute, or
    with MS-ICE2 of the whole message. *)
Definition mac_len (c : StunCompatibility) (before whole : Z) : Z :=
  if bool_decide (c = STUN_COMPATIBILITY_MSICE2) then whole else before + 24.

Definition mac_value (c : StunCompatibility) (k ty id body : list Z) (n : Z) : list Z :=
  hmac_sha1 k (ty ++ be_bytes 2 n ++ id ++ body ++ hmac_pad (pads c) (20 + zlen body)).

Lemma mac_value_len c k ty id body n : zlen (mac_value c k ty id body n) = 20.
Proof. apply hmac_sha1_len. Qed.
Lemma mac_value_bytes c k ty id body n : bytes (mac_value c k ty id body n).
Proof. apply hmac_sha1_bytes. Qed.

Lemma stun_sha1_spec ty lf id body tl n k p :
  zlen ty = 2 -> zlen lf = 2 -> zlen id = 16 ->
  stun_sha1 (ty ++ lf ++ id ++ body ++ tl) (44 + zlen body) n k p =
  Ok (hmac_sha1 k (ty ++ be_bytes 2 n ++ id ++ body ++ hmac_pad p (20 + zlen body))).
Proof.
  intros Ht Hf Hi. zlen_pos. unfold stun_sha1. rewrite assert_ok_true by (apply Z.leb_le; lia).
  cbn [mbind res_bind]. rewrite (rd_bytes_eq _ [] ty (lf ++ id ++ body ++ tl) 0 2) by (done || lia).
  cbn [mbind res_bind]. rewrite (rd_bytes_eq _ (ty ++ lf) (id ++ body) tl) by (lassoc || zlia).
  cbn [mbind res_bind]. rewrite le_bytes_htons. do 2 f_equal. rewrite <-(app_assoc id).
  do 4 f_equal. unfold hmac_pad. replace (44 + zlen body - 24) with (20 + zlen body) by lia.
  pose proof (Z.mod_pos_bound (20 + zlen body) 64). by rewrite u16_small by lia.
Qed.

Lemma validate_sha1_spec a m ty id pre x post rest k :
  msg_repr m ty id (pre ++ x :: post) rest ->
  validate_sha1 a m (24 + zlen (enc_all pre)) k =
  Ok (mac_value (compatibility (ag_info a)) k ty id (enc_all pre)
       (mac_len (compatibility (ag_info a)) (zlen (enc_all pre)) (zlen (enc_all (pre ++ x :: post))))).
Proof.
  intros Hm. unfold validate_sha1. rewrite (repr_length Hm). cbn [mbind res_bind].
  destruct Hm as [Hb Ht Hi _ _ _]. rewrite Hb. set (L := zlen (enc_all (pre ++ x :: post))).
  rewrite enc_all_app, <-(app_assoc (enc_all pre)).
  replace (24 + zlen (enc_all pre) + 20) with (44 + zlen (enc_all pre)) by lia.
  unfold mac_value, mac_len. destruct (compatibility (ag_info a)); cbn [pads bool_decide decide_rel];
    rewrite stun_sha1_spec by zlia;
    rewrite ?(Z.add_comm 24), ?Z.add_simpl_l; reflexivity.
Qed.

(** ** Appending a value computed from the message

    [stun_message_append] returns a window; the HMAC and the CRC are computed
    over the message with the window's old contents and stored into it. *)

Lemma splice_self b off n : 0 <= off -> 0 <= n -> off + n <= zlen b -> splice b off (slice b off n) = b.
Proof.
  intros. destruct (split_at b off n) as (l & m & r & -> & <- & <-); [done..|].
  rewrite slice_app. by apply splice_app.
Qed.

Lemma new_attr_plain m id type v :
  zlen v mod 4 = 0 -> swap_realm_nonce m type = type -> 0 <= type < 65536 ->
  new_attr m id type v = mkAttr type v [].
Proof.
  intros Hv Hs Ht. unfold new_attr. rewrite Hs, u16_small by done.
  assert (Hz : zeros (zlen v) = []).
  { unfold zeros. pose proof (stun_padding_0 (zlen v)) as H0. rewrite Hv in H0. cbn in H0.
    apply Z.eqb_eq in H0. by rewrite H0. }
  rewrite Hz, app_nil_r. by destruct (no_aligned m), (cookie_id id).
Qed.

Lemma append_window m ty id attrs type n :
  msg_ok m ty id attrs -> 0 <= n -> n mod 4 = 0 -> swap_realm_nonce m type = type -> 0 <= type < 65536 ->
  24 + zlen (enc_all attrs) + n <= buffer_len m -> 24 + zlen (enc_all attrs) + n < 65536 ->
  exists b' v0, stun_message_append m type n = Ok (Some (24 + zlen (enc_all attrs)), set_buffer m b') /\
    zlen v0 = n /\ msg_ok (set_buffer m b') ty id (attrs ++ [mkAttr type v0 []]) /\
    forall v, zlen v = n -> bytes v ->
      wr_bytes b' (24 + zlen (enc_all attrs)) v = Ok (splice b' (24 + zlen (enc_all attrs)) v) /\
      msg_ok (set_buffer m (splice b' (24 + zlen (enc_all attrs)) v)) ty id (attrs ++ [mkAttr type v []]).
Proof.
  intros Hm Hn H4 Hs Ht Hroom H16. pose proof (append_spec m ty id attrs type n Hm Hn) as Ha.
  rewrite attr_size_mod4 in Ha by done. destruct (Z.ltb_spec (buffer_len m) (24 + zlen (enc_all attrs) + n)); [lia|].
  destruct Ha as (b' & Ea & Hsz & Hb & Hv); [lia|]. zlen_pos.
  set (v0 := slice b' (24 + zlen (enc_all attrs)) n) in *.
  assert (Hv0 : zlen v0 = n) by (apply zlen_slice; lia).
  exists b', v0. split; [done|]. split; [done|]. split.
  - pose proof (Hv v0 Hv0 Hb) as Hok. unfold v0 at 1 in Hok. rewrite splice_self in Hok by lia.
    by rewrite new_attr_plain in Hok by (done || by rewrite Hv0).
  - intros v Hvn Hvb. split; [apply wr_bytes_Ok; lia|]. specialize (Hv v Hvn Hvb).
    by rewrite new_attr_plain in Hv by (done || by rewrite Hvn).
Qed.

Lemma finish_sha1_spec a m ty id attrs v0 k :
  msg_ok m ty id (attrs ++ [mkAttr STUN_ATTRIBUTE_MESSAGE_INTEGRITY v0 []]) -> zlen v0 = 20 ->
  finish_sha1 a m k = Ok (mac_value (compatibility (ag_info a)) k ty id (enc_all attrs)
    (mac_len (compatibility (ag_info a)) (zlen (enc_all attrs))
      (zlen (enc_all attrs) + 24 + if agent_flag a STUN_AGENT_USAGE_USE_FINGERPRINT then 8 else 0))).
Proof.
  intros [[rest Hm] _ _] Hv. unfold finish_sha1. rewrite (repr_length Hm). cbn [mbind res_bind].
  destruct Hm as [Hb Ht Hi _ _ _]. rewrite Hb. set (L := be_bytes 2 _).
  rewrite enc_all_app, <-(app_assoc (enc_all attrs)). zlen_norm. cbn [w_val w_pad]. rewrite Hv.
  change (zlen []) with 0. change (zlen (enc_all [])) with 0.
  replace (20 + (zlen (enc_all attrs) + (4 + 20 + 0 + 0))) with (44 + zlen (enc_all attrs)) by lia.
  unfold mac_value, mac_len. destruct (compatibility (ag_info a)); cbn [pads bool_decide decide_rel];
    rewrite stun_sha1_spec by (done || (unfold L; zlen_norm; lia));
    try (replace (44 + zlen (enc_all attrs) - 20) with (zlen (enc_all attrs) + 24) by lia; reflexivity).
  destruct (agent_flag _ _).
  - replace (44 + zlen (enc_all attrs) - (20 - 8)) with (zlen (enc_all attrs) + 24 + 8) by lia. reflexivity.
  - replace (44 + zlen (enc_all attrs) - 20) with (zlen (enc_all attrs) + 24 + 0) by lia. reflexivity.
Qed.

(** ** The key a message is signed with *)

(** [signing a m attrs k ek m']: finishing [m] with key [k] signs it with
    [ek], and records a long-term key in [m']. *)
Inductive signing (a : StunAgent) (m : StunMessage) (attrs : list wattr) (k : list Z)
    : list Z -> StunMessage -> Prop :=
  | sign_short :
      agent_flag a STUN_AGENT_USAGE_LONG_TERM_CREDENTIALS = false -> signing a m attrs k k m
  | sign_saved :
      agent_flag a STUN_AGENT_USAGE_LONG_TERM_CREDENTIALS = true -> long_term_valid m = true ->
      signing a m attrs k (long_term_key m) m
  | sign_creds u r :
      agent_flag a STUN_AGENT_USAGE_LONG_TERM_CREDENTIALS = true -> long_term_valid m = false ->
      spec_find (swap_realm_nonce m STUN_ATTRIBUTE_USERNAME) attrs = Some u ->
      spec_find (swap_realm_nonce m STUN_ATTRIBUTE_REALM) attrs = Some r ->
      trim u <> [] -> trim r <> [] -> trim k <> [] -> zlen k < 2 ^ 62 ->
      let ek := md5_digest (trim u ++ [58] ++ trim r ++ [58] ++ trim k) in
      signing a m attrs k ek (set_long_term m ek).

Lemma swap_other m t :
  t <> STUN_ATTRIBUTE_REALM -> t <> STUN_ATTRIBUTE_NONCE -> swap_realm_nonce m t = t.
Proof.
  intros H1 H2. unfold swap_realm_nonce. apply Z.eqb_neq in H1, H2. rewrite H1, H2.
  by destruct (is_oc2007 m).
Qed.

Lemma find_points m ty id attrs rest type v :
  msg_repr m ty id attrs rest -> spec_find (swap_realm_nonce m type) attrs = Some v ->
  exists p, stun_message_find m type = Ok (Some p) /\ points_to (value_ptr m p) v /\ zlen v < 65536.
Proof.
  intros Hm E. pose proof (find_spec _ _ _ _ _ type Hm) as Hf. rewrite E in Hf.
  destruct Hf as (o & -> & Ho & Hle & Hs). eexists. split; [done|].
  pose proof (bytes_meta_size _ _ _ _ _ Hm). pose proof (mr_len _ _ _ _ _ Hm). zlen_pos.
  split; [|lia]. destruct (split_at (buffer m) o (zlen v)) as (l & v' & r & Hb & <- & Hv'); [lia..|].
  rewrite Hb, <-Hv', slice_app in Hs. subst v'. exists l, r. unfold value_ptr. by rewrite Hb.
Qed.

Lemma add_integrity_spec a m ty id attrs k ek m1 :
  msg_ok m ty id attrs -> signing a m attrs k ek m1 ->
  44 + zlen (enc_all attrs) <= buffer_len m -> 44 + zlen (enc_all attrs) < 65536 ->
  exists m', add_integrity a m k = Ok (true, m') /\ same_meta m1 m' /\
    msg_ok m' ty id (attrs ++ [mkAttr STUN_ATTRIBUTE_MESSAGE_INTEGRITY
      (mac_value (compatibility (ag_info a)) ek ty id (enc_all attrs)
        (mac_len (compatibility (ag_info a)) (zlen (enc_all attrs))
          (zlen (enc_all attrs) + 24 + if agent_flag a STUN_AGENT_USAGE_USE_FINGERPRINT then 8 else 0))) []]).
Proof.
  intros Hm Hsig Hroom H16.
  assert (Hok1 : msg_ok m1 ty id attrs /\ buffer_len m1 = buffer_len m).
  { split; [|by inversion Hsig]. destruct Hm as [[rest [? ? ? ? ? ?]] ? ?].
    inversion Hsig; subst; (split; [exists rest; by constructor|done..]). }
  destruct Hok1 as [Hm1 Hl1].
  assert (E : add_integrity a m k =
    ('(ptr, msg) ← stun_message_append m1 STUN_ATTRIBUTE_MESSAGE_INTEGRITY 20;
     match ptr with
     | None => Ok (false, msg)
     | Some ptr => sha ← finish_sha1 a msg ek; b ← wr_bytes (buffer msg) ptr sha; Ok (true, set_buffer msg b)
     end)).
  { unfold add_integrity. inversion Hsig as [Hf|Hf Hv|u r Hf Hv Hu Hr Tu Tr Tk Hk]; subst; rewrite ?Hf, ?Hv.
    - by destruct (long_term_valid m1).
    - done.
    - destruct Hm as [[rest Hm] _ _].
      destruct (find_points _ _ _ _ _ _ _ Hm Hu) as (pu & -> & Pu & Lu).
      destruct (find_points _ _ _ _ _ _ _ Hm Hr) as (pr & -> & Pr & Lr). cbn [mbind res_bind].
      rewrite (stun_hash_creds_spec _ _ _ r u k) by (done || lia || (exists [], []; by rewrite app_nil_r)). done. }
  destruct (append_window m1 ty id attrs STUN_ATTRIBUTE_MESSAGE_INTEGRITY 20 Hm1)
    as (b' & v0 & Ea & Hv0 & Hok & Hw); [done|done|by apply swap_other|done|lia|lia|].
  rewrite E, Ea. cbn [mbind res_bind].
  rewrite (finish_sha1_spec _ _ _ _ _ _ _ Hok Hv0). cbn [mbind res_bind buffer set_buffer].
  edestruct Hw as [-> Hfin]; [apply mac_value_len|apply mac_value_bytes|]. cbn [mbind res_bind].
  eexists. split; [done|]. split; [done|]. exact Hfin.
Qed.

Lemma add_fingerprint_spec a m ty id attrs :
  msg_ok m ty id attrs -> is_rfc5389 a && agent_flag a STUN_AGENT_USAGE_USE_FINGERPRINT = true ->
  28 + zlen (enc_all attrs) <= buffer_len m -> 28 + zlen (enc_all attrs) < 65536 ->
  exists m', add_fingerprint a m = Ok (true, m') /\ same_meta m m' /\
    msg_ok m' ty id (attrs ++ [mkAttr STUN_ATTRIBUTE_FINGERPRINT
      (be_bytes 4 (fingerprint_of ty (8 + zlen (enc_all attrs)) id (enc_all attrs))) []]).
Proof.
  intros Hm Hf Hroom H16. unfold add_fingerprint. rewrite Hf.
  destruct (append_window m ty id attrs STUN_ATTRIBUTE_FINGERPRINT 4 Hm)
    as (b' & v0 & Ea & Hv0 & Hok & Hw); [done|done|by apply swap_other|done|lia|lia|].
  rewrite Ea. cbn [mbind res_bind]. pose proof Hok as [[rest Hr] _ _].
  rewrite (repr_length Hr). cbn [mbind res_bind]. zlen_pos.
  assert (Efp : stun_fingerprint (buffer (set_buffer m b'))
      (20 + zlen (enc_all (attrs ++ [mkAttr STUN_ATTRIBUTE_FINGERPRINT v0 []]))) false =
    Ok (htonl (fingerprint_of ty (8 + zlen (enc_all attrs)) id (enc_all attrs)))).
  { destruct Hr as [Hb Ht Hi Hl _ Hbs]. rewrite Hb in Hbs |- *. set (L := be_bytes 2 _) in *.
    rewrite enc_all_app in *. rewrite <-(app_assoc (enc_all attrs)) in *.
    apply stun_fingerprint_spec; try done; try lia.
    - rewrite !bytes_app in Hbs. apply Hbs.
    - zlen_norm. cbn [w_val w_pad]. rewrite Hv0. change (zlen (enc_all [])) with 0. change (zlen []) with 0. lia.
    - zlen_norm. cbn [w_val w_pad]. rewrite Hv0. zlen_pos. lia. }
  rewrite Efp. cbn [mbind res_bind buffer set_buffer]. rewrite le_bytes_htonl.
  destruct (Hw (be_bytes 4 (fingerprint_of ty (8 + zlen (enc_all attrs)) id (enc_all attrs))))
    as [-> Hfin]; [done|apply bytes_be_bytes|]. cbn [mbind res_bind].
  eexists. split; [done|]. split; [done|]. exact Hfin.
Qed.
End mac.
