(* ===== verification/StunAgentSpec.v ===== *)
(** * Behaviour of the agent's operations on the abstract attribute sequence

    Specifications of [stun_agent_finish_message] and of the stages of
    [stun_agent_validate], from which the theorems of [StunAgentProps]
    follow. *)
From stdpp Require Import sets.
From S2P Require Import Prelude CMem StunTypes StunMessage StunWire StunAppend StunAccess StunCrc32 StunAgent StunIntegrity.

(** ** Unknown attributes *)

(** The attribute types before the terminator of [known_attributes]. *)
Fixpoint known_set (known : list Z) : list Z :=
  match known with
  | [] => []
  | k :: known => if k =? 0 then [] else k :: known_set known
  end.

Definition is_unknown_type (known : list Z) (t : Z) : bool :=
  negb (stun_optional t) && bool_decide (t ∉ known_set known).

(** Mandatory attributes the agent does not know, in the order they appear. *)
Definition unknown_types (known : list Z) (attrs : list wattr) : list Z :=
  List.filter (is_unknown_type known) (map w_type attrs).

Lemma is_unknown_loop_spec known t :
  In 0 known -> is_unknown_loop known t = Ok (bool_decide (t ∉ known_set known)).
Proof.
  induction known as [|k known IH]; [done|]. cbn [is_unknown_loop known_set In].
  destruct (Z.eqb_spec k 0) as [->|Hk]; [intros _; by rewrite bool_decide_eq_true_2 by set_solver|].
  intros [->|Hin]; [done|]. destruct (Z.eqb_spec k t) as [->|Ht].
  - by rewrite bool_decide_eq_false_2 by set_solver.
  - rewrite IH by done. f_equal. apply bool_decide_ext. rewrite not_elem_of_cons. split; [by split; [congruence|]|by intros []].
Qed.

Lemma find_unknowns_loop_spec a m attrs hd rest max found fuel :
  buffer m = hd ++ enc_all attrs ++ rest -> agent m = Some (ag_info a) -> In 0 (ag_known_attributes a) ->
  Forall (wf_attr (negb (no_aligned m))) attrs -> (length attrs <= fuel)%nat -> zlen found <= max ->
  find_unknowns_loop fuel a m (zlen hd + zlen (enc_all attrs)) (zlen hd) max found =
  Ok (take (Z.to_nat max) (found ++ map htons (unknown_types (ag_known_attributes a) attrs))).
Proof.
  intros Hb Ha Hk Hwf. revert hd fuel found Hb.
  induction Hwf as [|x attrs Hx _ IH]; intros hd fuel found Hb Hf Hmax.
  { replace (zlen hd + zlen (enc_all [])) with (zlen hd) by (change (zlen (enc_all [])) with 0; lia).
    cbn [unknown_types map List.filter]. rewrite app_nil_r, take_ge by (unfold zlen in *; lia).
    destruct fuel; cbn [find_unknowns_loop]; by rewrite Z.ltb_irrefl. }
  destruct fuel as [|fuel]; [simpl in Hf; lia|]. destruct Hx as [Ht Hv _ _ Hp]. rewrite enc_all_cons in *.
  assert (Hpos : 0 <= pad_len (negb (no_aligned m)) (zlen (w_val x))) by (rewrite <-Hp; zlen_pos; lia).
  cbn [find_unknowns_loop]. zlen_pos. rewrite zlen_app, zlen_enc.
  destruct (Z.ltb_spec (zlen hd) (zlen hd + (4 + zlen (w_val x) + zlen (w_pad x) + zlen (enc_all attrs)))); [|lia].
  cbn [andb]. destruct (Z.ltb_spec (zlen found) max) as [Hlt|Hge].
  2:{ assert (Hfl : length found = Z.to_nat max) by (unfold zlen in *; lia).
      by rewrite <-Hfl, take_app_length. }
  rewrite (stun_getw_eq _ (hd ++ be_bytes 2 (w_type x)) (zlen (w_val x))
    (w_val x ++ w_pad x ++ enc_all attrs ++ rest) (zlen hd + STUN_ATTRIBUTE_TYPE_LEN));
    [|rewrite Hb; unfold enc; lassoc|layout; zlen_norm; lia|lia].
  rewrite (stun_getw_eq _ hd (w_type x)
    (be_bytes 2 (zlen (w_val x)) ++ w_val x ++ w_pad x ++ enc_all attrs ++ rest) (zlen hd));
    [|rewrite Hb; unfold enc; lassoc|done|done].
  cbn [mbind res_bind]. unfold stun_agent_is_unknown. rewrite (is_unknown_loop_spec _ (w_type x) Hk).
  change (unknown_types (ag_known_attributes a) (x :: attrs)) with
    (List.filter (is_unknown_type (ag_known_attributes a)) (w_type x :: map w_type attrs)).
  cbn [List.filter]. unfold is_unknown_type at 1.
  assert (Hna : no_aligned m = agent_flag a STUN_AGENT_USAGE_NO_ALIGNED_ATTRIBUTES)
    by (unfold no_aligned; by rewrite Ha).
  assert (Hnext : zlen hd + STUN_ATTRIBUTE_VALUE_POS +
      (if negb (agent_flag a STUN_AGENT_USAGE_NO_ALIGNED_ATTRIBUTES) then stun_align (zlen (w_val x)) else zlen (w_val x))
    = zlen (hd ++ enc x)).
  { change STUN_ATTRIBUTE_VALUE_POS with 4. rewrite <-Hna. zlen_norm. rewrite Hp. unfold pad_len.
    destruct (no_aligned m); cbn [negb]; [lia|]. rewrite stun_align_arith by lia. lia. }
  set (u := negb (stun_optional (w_type x)) && bool_decide (w_type x ∉ known_set (ag_known_attributes a))).
  assert (Eu : (if negb (stun_optional (w_type x)) then Ok (bool_decide (w_type x ∉ known_set (ag_known_attributes a)))
    else Ok false) = Ok u) by (unfold u; by destruct (stun_optional (w_type x))).
  rewrite Eu. cbn [mbind res_bind]. rewrite Hnext.
  replace (zlen hd + (4 + zlen (w_val x) + zlen (w_pad x) + zlen (enc_all attrs)))
    with (zlen (hd ++ enc x) + zlen (enc_all attrs)) by (zlen_norm; lia).
  rewrite IH; [|rewrite Hb; lassoc|simpl in Hf; lia|destruct u; zlen_norm; lia].
  destruct u; [|done]. cbn [map]. by rewrite <-app_assoc.
Qed.

Lemma find_unknowns_spec a m ty id attrs rest max :
  msg_repr m ty id attrs rest -> agent m = Some (ag_info a) -> In 0 (ag_known_attributes a) -> 0 <= max ->
  stun_agent_find_unknowns a m max =
  Ok (take (Z.to_nat max) (map htons (unknown_types (ag_known_attributes a) attrs))).
Proof.
  intros Hm Ha Hk Hmax. unfold stun_agent_find_unknowns. rewrite (repr_length Hm). cbn [mbind res_bind].
  destruct Hm as [Hb Ht Hi _ Hwf _].
  pose proof (find_unknowns_loop_spec a m attrs (ty ++ be_bytes 2 (zlen (enc_all attrs)) ++ id) rest max []
    (Z.to_nat (20 + zlen (enc_all attrs)))) as Hl.
  replace (zlen (ty ++ be_bytes 2 (zlen (enc_all attrs)) ++ id)) with 20 in Hl by (zlen_norm; lia).
  change STUN_MESSAGE_ATTRIBUTES_POS with 20. apply Hl; try done; [rewrite Hb; lassoc|].
  pose proof (length_enc_all attrs). unfold zlen; lia.
Qed.

(** ** Finishing a message *)

Section agent_spec.
Context {CL : CryptoLib}.

Definition uses_fingerprint (a : StunAgent) : bool :=
  is_rfc5389 a && agent_flag a STUN_AGENT_USAGE_USE_FINGERPRINT.

Definition integrity_attr (a : StunAgent) (ek ty id : list Z) (attrs : list wattr) : wattr :=
  mkAttr STUN_ATTRIBUTE_MESSAGE_INTEGRITY
    (mac_value (compatibility (ag_info a)) ek ty id (enc_all attrs)
      (mac_len (compatibility (ag_info a)) (zlen (enc_all attrs))
        (zlen (enc_all attrs) + 24 + if agent_flag a STUN_AGENT_USAGE_USE_FINGERPRINT then 8 else 0))) [].

Definition fingerprint_attr (ty id : list Z) (attrs : list wattr) : wattr :=
  mkAttr STUN_ATTRIBUTE_FINGERPRINT
    (be_bytes 4 (fingerprint_of ty (8 + zlen (enc_all attrs)) id (enc_all attrs))) [].

Definition with_fingerprint (a : StunAgent) (ty id : list Z) (attrs : list wattr) : list wattr :=
  if uses_fingerprint a then attrs ++ [fingerprint_attr ty id attrs] else attrs.

(** The attributes of the finished message. *)
Definition finished (a : StunAgent) (ek ty id : list Z) (attrs : list wattr) : list wattr :=
  with_fingerprint a ty id (attrs ++ [integrity_attr a ek ty id attrs]).

(** Is a transaction with this type field remembered. *)
Definition remembered (a : StunAgent) (t : Z) : bool :=
  bool_decide (class_of_type t = STUN_REQUEST) &&
  negb (bool_decide (compatibility (ag_info a) = STUN_COMPATIBILITY_OC2007) && (method_of_type t =? STUN_SEND)).

Definition free_slot (a : StunAgent) : nat := slot_index (fun s => negb (si_valid s)) (ag_sent_ids a).

Lemma remember_spec a m ty id attrs rest x y :
  msg_repr m ty id attrs rest -> ty = [x; y] ->
  remember_transaction a m = Ok (remembered a (x * 256 + y)).
Proof.
  intros Hm Ht. destruct (repr_class _ _ _ _ _ _ _ Hm Ht) as [Hc Hmeth]. unfold remember_transaction, remembered.
  rewrite Hc, Hmeth. cbn [mbind res_bind]. by destruct (bool_decide (compatibility (ag_info a) = _)).
Qed.

Lemma zlen_integrity_attr a ek ty id attrs : zlen (enc (integrity_attr a ek ty id attrs)) = 24.
Proof. rewrite zlen_enc. cbn [w_val w_pad integrity_attr]. rewrite mac_value_len. done. Qed.

Lemma zlen_fingerprint_attr ty id attrs : zlen (enc (fingerprint_attr ty id attrs)) = 8.
Proof. done. Qed.

Lemma with_fingerprint_spec a m ty id attrs :
  msg_ok m ty id attrs -> 28 + zlen (enc_all attrs) <= buffer_len m -> 28 + zlen (enc_all attrs) < 65536 ->
  exists m', add_fingerprint a m = Ok (true, m') /\ same_meta m m' /\ msg_ok m' ty id (with_fingerprint a ty id attrs).
Proof.
  intros Hm Hroom H16. unfold with_fingerprint. destruct (uses_fingerprint a) eqn:E.
  - by apply add_fingerprint_spec.
  - exists m. unfold add_fingerprint. unfold uses_fingerprint in E. by rewrite E.
Qed.

(** The agent after it remembered a transaction. *)
Definition remember (a : StunAgent) (id : list Z) (meth : Z) (k : option (list Z)) (m : StunMessage) : StunAgent :=
  set_sent_ids a (<[free_slot a := mkSavedId id meth k (long_term_key m) (long_term_valid m) true]> (ag_sent_ids a)).

Lemma finish_spec a m ty id attrs x y k0 k ek m1 :
  msg_ok m ty id attrs -> ty = [x; y] ->
  (match key m with Some _ => key m | None => k0 end) = Some k -> signing a m attrs k ek m1 ->
  (remembered a (x * 256 + y) = true -> Z.of_nat (free_slot a) <> STUN_AGENT_MAX_SAVED_IDS) ->
  52 + zlen (enc_all attrs) <= buffer_len m -> 52 + zlen (enc_all attrs) < 65536 ->
  exists m', msg_ok m' ty id (finished a ek ty id attrs) /\ same_meta (set_key m1 (Some k)) m' /\
    stun_agent_finish_message a m k0 =
    Ok (20 + zlen (enc_all (finished a ek ty id attrs)),
        if remembered a (x * 256 + y) then remember a id (method_of_type (x * 256 + y)) (Some k) m1 else a, m').
Proof.
  intros Hm Ht Hk Hsig Hslot Hroom H16. unfold stun_agent_finish_message.
  pose proof Hm as [[rest Hr] _ _]. rewrite (remember_spec _ _ _ _ _ _ _ _ Hr Ht). cbn [mbind res_bind].
  set (rem := remembered a (x * 256 + y)) in *. fold (free_slot a).
  assert (Hi : (Z.of_nat (if rem then free_slot a else 0%nat) =? STUN_AGENT_MAX_SAVED_IDS) = false)
    by (destruct rem; [apply Z.eqb_neq; auto|done]).
  rewrite Hi, Hk. assert (Hl1 : buffer_len m1 = buffer_len m) by (by inversion Hsig).
  destruct (add_integrity_spec a m ty id attrs k ek m1 Hm Hsig) as (m2 & -> & Hm12 & Hok2); [lia..|].
  fold (integrity_attr a ek ty id attrs) in Hok2. cbn [mbind res_bind negb].
  assert (Hl2 : zlen (enc_all (attrs ++ [integrity_attr a ek ty id attrs])) = zlen (enc_all attrs) + 24)
    by (rewrite enc_all_app, zlen_app, enc_all_cons, zlen_app, zlen_integrity_attr; done).
  assert (Hb2 : buffer_len m2 = buffer_len m) by (rewrite <-Hl1; apply Hm12).
  destruct (with_fingerprint_spec a m2 ty id _ Hok2) as (m3 & -> & Hm23 & Hok3); [lia..|].
  cbn [mbind res_bind negb]. fold (finished a ek ty id attrs) in Hok3.
  pose proof (same_meta_trans _ _ _ Hm12 Hm23) as Hm13.
  pose proof Hok3 as [[rest3 Hr3] Hs3 Ha3]. rewrite (repr_id Hr3).
  destruct (repr_class _ _ _ _ _ _ _ Hr3 Ht) as [_ ->]. cbn [mbind res_bind].
  exists (set_key m3 (Some k)). split; [|split].
  - split; [exists rest3; destruct Hr3; by constructor|done..].
  - unfold same_meta in *. cbn. intuition.
  - destruct Hm13 as (_ & _ & _ & HL & HV). unfold remember. rewrite HL, HV.
    assert (El : stun_message_length (set_key m3 (Some k)) = Ok (20 + zlen (enc_all (finished a ek ty id attrs))))
      by exact (repr_length Hr3).
    destruct rem; cbn [mbind res_bind]; by rewrite El.
Qed.

(** ** Received messages *)

Definition wire (ty id : list Z) (attrs : list wattr) : list Z :=
  ty ++ be_bytes 2 (zlen (enc_all attrs)) ++ id ++ enc_all attrs.

(** The message [stun_agent_validate] sets up for a received buffer. *)
Definition received (a : StunAgent) (buf ltk : list Z) : StunMessage :=
  mkMessage (Some (ag_info a)) buf (zlen buf) None ltk false.

Lemma zlen_wire ty id attrs : zlen ty = 2 -> zlen id = 16 -> zlen (wire ty id attrs) = 20 + zlen (enc_all attrs).
Proof. intros. unfold wire. zlen_norm. lia. Qed.

Lemma take_wire m ty id attrs :
  msg_ok m ty id attrs -> take (Z.to_nat (20 + zlen (enc_all attrs))) (buffer m) = wire ty id attrs.
Proof.
  intros [[rest [Hb Ht Hi _ _ _]] _ _]. rewrite <-(zlen_wire ty id attrs), to_nat_zlen by done.
  replace (buffer m) with (wire ty id attrs ++ rest) by (rewrite Hb; unfold wire; lassoc). apply take_app_length.
Qed.

Definition agent_pad (a : StunAgent) : bool := negb (agent_flag a STUN_AGENT_USAGE_NO_ALIGNED_ATTRIBUTES).

Lemma received_repr a ty id attrs ltk :
  zlen ty = 2 -> zlen id = 16 -> bytes ty -> bytes id -> 20 + zlen (enc_all attrs) < 65536 ->
  Forall (wf_attr (agent_pad a)) attrs -> msg_repr (received a (wire ty id attrs) ltk) ty id attrs [].
Proof.
  intros Ht Hi Hbt Hbi Hl Hw. constructor; auto.
  - cbn [buffer received]. by rewrite app_nil_r.
  - cbn [buffer received]. unfold wire. rewrite !bytes_app. eauto using bytes_be_bytes, bytes_enc_all.
Qed.

Lemma received_ok m a b ty id attrs ltk :
  msg_ok m ty id attrs -> agent m = Some (ag_info a) -> ag_info b = ag_info a -> 
  msg_repr (received b (wire ty id attrs) ltk) ty id attrs [].
Proof.
  intros [[rest [Hb Ht Hi Hl Hw Hbs]] _ _] Ha Hab. rewrite Hb, !bytes_app in Hbs.
  apply received_repr; try tauto. replace (agent_pad b) with (negb (no_aligned m)); [done|].
  unfold agent_pad, no_aligned, agent_flag. by rewrite Ha, Hab.
Qed.

Lemma framing_ok pad ty id attrs :
  zlen ty = 2 -> zlen id = 16 -> bytes ty -> bytes id -> nth 0 ty 0 < 64 -> zlen (enc_all attrs) < 65516 ->
  Forall (wf_attr pad) attrs ->
  stun_message_validate_buffer_length (wire ty id attrs) (20 + zlen (enc_all attrs)) pad =
  Ok (20 + zlen (enc_all attrs)).
Proof.
  intros Ht Hi Hbt Hbi H64 Hl Hw. zlen_pos. rewrite <-(zlen_wire ty id attrs) at 1 by done.
  assert (Hbw : bytes (wire ty id attrs)).
  { unfold wire. rewrite !bytes_app. eauto using bytes_be_bytes, bytes_enc_all. }
  rewrite validate_spec by done. f_equal. apply validate_accepts; [done|lia|].
  exists ty, id, attrs, []. rewrite app_nil_r. repeat split; try done; lia.
Qed.

(** Attributes among which integrity and fingerprint do not occur. *)
Definition plain (attrs : list wattr) : Prop :=
  Forall (fun x => w_type x <> STUN_ATTRIBUTE_MESSAGE_INTEGRITY /\ w_type x <> STUN_ATTRIBUTE_FINGERPRINT) attrs.

Lemma spec_find_mi attrs x post :
  plain attrs -> w_type x = STUN_ATTRIBUTE_MESSAGE_INTEGRITY ->
  spec_find STUN_ATTRIBUTE_MESSAGE_INTEGRITY (attrs ++ x :: post) = Some (w_val x).
Proof.
  intros Hp Hx. induction Hp as [|y attrs [Hm Hf] _ IH]; cbn [app spec_find].
  - by rewrite Hx.
  - apply Z.eqb_neq in Hm, Hf. by rewrite Hm, Hf.
Qed.

Lemma spec_find_other t attrs x post :
  plain attrs -> w_type x = STUN_ATTRIBUTE_MESSAGE_INTEGRITY ->
  t <> STUN_ATTRIBUTE_MESSAGE_INTEGRITY -> t <> STUN_ATTRIBUTE_FINGERPRINT ->
  spec_find t (attrs ++ x :: post) = spec_find t attrs.
Proof.
  intros Hp Hx H1 H2. induction Hp as [|y attrs [Hm Hf] _ IH]; cbn [app spec_find].
  - rewrite Hx. destruct (Z.eqb_spec STUN_ATTRIBUTE_MESSAGE_INTEGRITY t); [congruence|].
    apply Z.eqb_neq in H2. by rewrite H2.
  - apply Z.eqb_neq in Hm, Hf. rewrite Hm, Hf. by rewrite IH.
Qed.

Lemma spec_find_fpr attrs x :
  Forall (fun y => w_type y <> STUN_ATTRIBUTE_FINGERPRINT) attrs -> w_type x = STUN_ATTRIBUTE_FINGERPRINT ->
  spec_find STUN_ATTRIBUTE_FINGERPRINT (attrs ++ [x]) = Some (w_val x).
Proof.
  intros Hp Hx. induction Hp as [|y attrs Hf _ IH]; cbn [app spec_find].
  - by rewrite Hx.
  - apply Z.eqb_neq in Hf. rewrite Hf, Z.eqb_refl. by rewrite andb_false_r.
Qed.

Lemma first_unique t (pre l : list wattr) x y post r :
  pre ++ x :: post = l ++ y :: r -> w_type x = t -> w_type y = t ->
  Forall (fun z => w_type z <> t) pre -> Forall (fun z => w_type z <> t) l -> pre = l /\ x = y /\ post = r.
Proof.
  intros E Hx Hy Hp. revert l E. induction Hp as [|z pre Hz _ IH]; intros [|z' l] E Hl; cbn [app] in E.
  - by injection E as -> ->.
  - injection E as -> _. by inversion Hl.
  - injection E as -> _. done.
  - injection E as -> E. inversion Hl; subst. destruct (IH l E) as (-> & -> & ->); done.
Qed.

(** ** The stages of validation *)

Lemma check_fingerprint_ok a m ty id attrs rest :
  msg_repr m ty id (attrs ++ [fingerprint_attr ty id attrs]) rest ->
  Forall (fun y => w_type y <> STUN_ATTRIBUTE_FINGERPRINT) attrs ->
  stun_agent_check_fingerprint a m = Ok true.
Proof.
  intros Hm Hp. unfold stun_agent_check_fingerprint.
  rewrite (find32_spec Hm). unfold val_of. rewrite swap_other, spec_find_fpr by done.
  cbn [mbind res_bind w_val fingerprint_attr]. change (zlen (be_bytes 4 _) =? 4) with true. cbn [mbind res_bind].
  rewrite (repr_length Hm). cbn [mbind res_bind]. destruct Hm as [Hb Ht Hi Hl _ Hbs].
  rewrite enc_all_app in Hb, Hl |- *. rewrite Hb in Hbs |- *. set (L := be_bytes 2 (zlen (_ ++ _))) in *.
  rewrite <-(app_assoc (enc_all attrs)) in *.
  assert (Htl : zlen (enc_all [fingerprint_attr ty id attrs]) = 8) by done.
  assert (Hall := Hbs). rewrite !bytes_app in Hall.
  rewrite stun_fingerprint_spec; try done; try tauto; try (zlen_norm; zlen_pos; lia).
  cbn [mbind res_bind]. rewrite be_value_bytes.
  assert (Hu : is_u32 (fingerprint_of ty (8 + zlen (enc_all attrs)) id (enc_all attrs)))
    by (apply fingerprint_of_u32; tauto).
  change (256 ^ Z.of_nat 4) with (2 ^ 32). rewrite Z.mod_small by exact Hu.
  change (ntohl ?z) with (htonl z). by rewrite Z.eqb_refl.
Qed.

(** [verifying a m attrs kv lt ek m']: with key [kv] and the saved long-term
    key [lt], a received message is checked against [ek]. *)
Inductive verifying (a : StunAgent) (m : StunMessage) (attrs : list wattr) (kv : list Z)
    : option (list Z) -> list Z -> StunMessage -> Prop :=
  | verify_short lt :
      agent_flag a STUN_AGENT_USAGE_LONG_TERM_CREDENTIALS = false -> verifying a m attrs kv lt kv m
  | verify_saved ek :
      agent_flag a STUN_AGENT_USAGE_LONG_TERM_CREDENTIALS = true ->
      verifying a m attrs kv (Some ek) ek (set_long_term m ek)
  | verify_creds u r :
      agent_flag a STUN_AGENT_USAGE_LONG_TERM_CREDENTIALS = true ->
      spec_find (swap_realm_nonce m STUN_ATTRIBUTE_USERNAME) attrs = Some u ->
      spec_find (swap_realm_nonce m STUN_ATTRIBUTE_REALM) attrs = Some r ->
      trim u <> [] -> trim r <> [] -> trim kv <> [] -> zlen kv < 2 ^ 62 ->
      let ek := md5_digest (trim u ++ [58] ++ trim r ++ [58] ++ trim kv) in
      verifying a m attrs kv None ek (set_long_term m ek).

Lemma check_integrity_spec a m ty id pre x post rest c kv lt ek m1 ec :
  msg_repr m ty id (pre ++ x :: post) rest -> 
  spec_find STUN_ATTRIBUTE_MESSAGE_INTEGRITY (pre ++ x :: post) = Some (w_val x) ->
  w_type x = STUN_ATTRIBUTE_MESSAGE_INTEGRITY ->
  Forall (fun y => w_type y <> STUN_ATTRIBUTE_MESSAGE_INTEGRITY) pre ->
  verifying a m (pre ++ x :: post) kv lt ek m1 -> 0 < zlen kv ->
  check_integrity a m c (Some kv) lt false ec =
  (recv ← rd_bytes (buffer m) (24 + zlen (enc_all pre)) 20;
   Ok (let ok := bool_decide (mac_value (compatibility (ag_info a)) ek ty id (enc_all pre)
         (mac_len (compatibility (ag_info a)) (zlen (enc_all pre)) (zlen (enc_all (pre ++ x :: post)))) = recv) in
       (ok, if ok then set_key m1 (Some kv) else m1, ec))).
Proof.
  intros Hm Hf Hx Hpre Hver Hk. unfold check_integrity. apply Z.ltb_lt in Hk. rewrite Hk. cbn [negb andb].
  pose proof (find_split _ _ _ _ _ STUN_ATTRIBUTE_MESSAGE_INTEGRITY Hm) as Hs.
  rewrite swap_other, Hf in Hs by done. destruct Hs as (pre' & x' & post' & E & Hx' & _ & Hpre' & ->).
  destruct (first_unique _ _ _ _ _ _ _ E Hx Hx' Hpre Hpre') as (<- & <- & <-). cbn [mbind res_bind].
  assert (Hfin : forall md5, default kv md5 = ek -> m1 = (match md5 with Some e => set_long_term m e | None => m end) ->
    (sha ← validate_sha1 a (match md5 with Some e => set_long_term m e | None => m end) (24 + zlen (enc_all pre)) (default kv md5);
     recv ← rd_bytes (buffer (match md5 with Some e => set_long_term m e | None => m end)) (24 + zlen (enc_all pre)) 20;
     if bool_decide (sha = recv) then Ok (true, set_key (match md5 with Some e => set_long_term m e | None => m end) (Some kv), ec)
     else Ok (false, match md5 with Some e => set_long_term m e | None => m end, ec)) =
    (recv ← rd_bytes (buffer m) (24 + zlen (enc_all pre)) 20;
     Ok (let ok := bool_decide (mac_value (compatibility (ag_info a)) ek ty id (enc_all pre)
         (mac_len (compatibility (ag_info a)) (zlen (enc_all pre)) (zlen (enc_all (pre ++ x :: post)))) = recv) in
       (ok, if ok then set_key m1 (Some kv) else m1, ec)))).
  { intros md5 Hek Hm1.
    assert (Hm' : msg_repr (match md5 with Some e => set_long_term m e | None => m end) ty id (pre ++ x :: post) rest)
      by (destruct md5; [destruct Hm; by constructor|done]).
    rewrite (validate_sha1_spec _ _ _ _ _ _ _ _ _ Hm'). cbn [mbind res_bind]. rewrite <-Hm1, Hek.
    replace (buffer m1) with (buffer m) by (rewrite Hm1; by destruct md5).
    destruct (rd_bytes _ _ 20); [|done]. cbn [mbind res_bind]. by destruct (bool_decide _). }
  inversion Hver as [lt' Hfl|ek' Hfl|u r Hfl Hu Hr Tu Tr Tk Hkl]; subst; rewrite Hfl; cbn [mbind res_bind].
  - by apply (Hfin None).
  - by apply (Hfin (Some _)).
  - destruct (find_points _ _ _ _ _ _ _ Hm Hu) as (pu & -> & Pu & Lu).
    destruct (find_points _ _ _ _ _ _ _ Hm Hr) as (pr & -> & Pr & Lr). cbn [mbind res_bind].
    rewrite (stun_hash_creds_spec _ _ _ r u kv) by (done || lia || (exists [], []; by rewrite app_nil_r)).
    cbn [mbind res_bind]. by apply (Hfin (Some _)).
Qed.

(** Framing, cookie and fingerprint of a received message. *)
Lemma validate_prefix a m0 ty id attrs vd :
  zlen ty = 2 -> zlen id = 16 -> bytes ty -> bytes id -> nth 0 ty 0 < 64 -> zlen (enc_all attrs) < 65516 ->
  Forall (wf_attr (agent_pad a)) attrs ->
  (is_rfc5389 a = true -> cookie_id id = true) ->
  (uses_fingerprint a = true ->
    stun_agent_check_fingerprint a (received a (wire ty id attrs) (long_term_key m0)) = Ok true) ->
  stun_agent_validate a m0 (wire ty id attrs) (20 + zlen (enc_all attrs)) vd =
  validate_framed a (received a (wire ty id attrs) (long_term_key m0)) vd.
Proof.
  intros Ht Hi Hbt Hbi H64 Hl Hw Hc Hf. unfold stun_agent_validate. fold (agent_pad a).
  rewrite framing_ok by done. cbn [mbind res_bind]. zlen_pos.
  destruct (Z.eqb_spec (20 + zlen (enc_all attrs)) STUN_MESSAGE_BUFFER_INVALID) as [E|_];
    [unfold STUN_MESSAGE_BUFFER_INVALID in E; lia|].
  destruct (Z.eqb_spec (20 + zlen (enc_all attrs)) STUN_MESSAGE_BUFFER_INCOMPLETE) as [E|_];
    [unfold STUN_MESSAGE_BUFFER_INCOMPLETE in E; lia|].
  assert (Hs : s32 (20 + zlen (enc_all attrs)) = 20 + zlen (enc_all attrs)).
  { unfold s32. rewrite u32_small by lia. destruct (Z.ltb_spec (20 + zlen (enc_all attrs)) 2147483648); lia. }
  rewrite Hs, Z.eqb_refl. cbn [negb]. rewrite <-(zlen_wire ty id attrs) by done.
  fold (received a (wire ty id attrs) (long_term_key m0)).
  assert (Hr : msg_repr (received a (wire ty id attrs) (long_term_key m0)) ty id attrs [])
    by (apply received_repr; auto; lia).
  rewrite (repr_has_cookie Hr). fold (cookie_id id).
  unfold uses_fingerprint in Hf. destruct (is_rfc5389 a); cbn [mbind res_bind andb] in *; [|done].
  rewrite Hc by done. cbn [mbind res_bind negb]. destruct (agent_flag a STUN_AGENT_USAGE_USE_FINGERPRINT); [|done].
  by rewrite Hf.
Qed.

(** A finished message as its receiver sees it. *)
Lemma finished_shape a ek ty id attrs :
  exists post, finished a ek ty id attrs = attrs ++ integrity_attr a ek ty id attrs :: post /\
    post = if uses_fingerprint a then [fingerprint_attr ty id (attrs ++ [integrity_attr a ek ty id attrs])] else [].
Proof.
  unfold finished, with_fingerprint. destruct (uses_fingerprint a); eexists; split; try done; by rewrite <-?app_assoc.
Qed.

Lemma zlen_finished a ek ty id attrs :
  zlen (enc_all (finished a ek ty id attrs)) =
  zlen (enc_all attrs) + 24 + if uses_fingerprint a then 8 else 0.
Proof.
  destruct (finished_shape a ek ty id attrs) as (post & -> & ->).
  rewrite enc_all_app, zlen_app, enc_all_cons, zlen_app, zlen_integrity_attr.
  destruct (uses_fingerprint a).
  - rewrite enc_all_cons, zlen_app, zlen_fingerprint_attr. change (zlen (enc_all [])) with 0. lia.
  - change (zlen (enc_all [])) with 0. lia.
Qed.

(** What the receiver computes over a finished message is what the sender put
    into it. *)
Lemma finished_mac a b ek ty id attrs :
  ag_info b = ag_info a ->
  mac_value (compatibility (ag_info b)) ek ty id (enc_all attrs)
    (mac_len (compatibility (ag_info b)) (zlen (enc_all attrs)) (zlen (enc_all (finished a ek ty id attrs)))) =
  w_val (integrity_attr a ek ty id attrs).
Proof.
  intros ->. cbn [w_val integrity_attr]. f_equal. unfold mac_len. rewrite zlen_finished.
  destruct (bool_decide (compatibility (ag_info a) = STUN_COMPATIBILITY_MSICE2)) eqn:E; [|done].
  apply bool_decide_eq_true in E. unfold uses_fingerprint, is_rfc5389. rewrite E. done.
Qed.

Lemma plain_not_fpr attrs : plain attrs -> Forall (fun y => w_type y <> STUN_ATTRIBUTE_FINGERPRINT) attrs.
Proof. intros Hp. eapply List.Forall_impl; [|exact Hp]. by intros y []. Qed.
Lemma plain_not_mi attrs : plain attrs -> Forall (fun y => w_type y <> STUN_ATTRIBUTE_MESSAGE_INTEGRITY) attrs.
Proof. intros Hp. eapply List.Forall_impl; [|exact Hp]. by intros y []. Qed.

Lemma uses_fingerprint_info a b : ag_info b = ag_info a -> uses_fingerprint b = uses_fingerprint a.
Proof. intros E. unfold uses_fingerprint, is_rfc5389, agent_flag. by rewrite E. Qed.

(** A finished message passes the receiver's first checks. *)
Lemma finished_prefix a b m0 m ek ty id attrs vd :
  msg_ok m ty id (finished a ek ty id attrs) -> agent m = Some (ag_info a) -> ag_info b = ag_info a ->
  plain attrs -> nth 0 ty 0 < 64 -> (is_rfc5389 a = true -> cookie_id id = true) ->
  let n := 20 + zlen (enc_all (finished a ek ty id attrs)) in
  stun_agent_validate b m0 (take (Z.to_nat n) (buffer m)) n vd =
  validate_framed b (received b (wire ty id (finished a ek ty id attrs)) (long_term_key m0)) vd.
Proof.
  intros Hm Ha Hab Hp H64 Hc n. unfold n. rewrite (take_wire _ _ _ _ Hm).
  pose proof (received_ok m a b ty id _ (long_term_key m0) Hm Ha Hab) as Hr.
  pose proof Hr as [_ Ht Hi Hl Hw Hbs]. cbn [buffer received] in Hbs. unfold wire in Hbs. rewrite !bytes_app in Hbs.
  apply validate_prefix; try tauto; try lia.
  - unfold is_rfc5389 in *. rewrite Hab. exact Hc.
  - rewrite (uses_fingerprint_info a b Hab). intros Hu. destruct (finished_shape a ek ty id attrs) as (post & E & Epost).
    rewrite Hu in Epost. subst post. replace (finished a ek ty id attrs) with
      ((attrs ++ [integrity_attr a ek ty id attrs]) ++ [fingerprint_attr ty id (attrs ++ [integrity_attr a ek ty id attrs])])
      in Hr |- * by (rewrite E; by rewrite <-app_assoc).
    eapply check_fingerprint_ok; [exact Hr|]. rewrite Forall_app. split; [by apply plain_not_fpr|].
    constructor; [done|constructor].
Qed.
End agent_spec.
