(* ===== verification/StunAgentProps.v ===== *)
(** * Theorems about the STUN agent

    End-to-end authentication of requests and responses, the life of an entry
    of the transaction table, and the reporting of unknown attributes. *)
From stdpp Require Import sets.
From S2P Require Import Prelude CMem StunTypes StunMessage StunWire StunAppend StunAccess StunCrc32 StunAgent StunIntegrity StunAgentSpec.

Section auth.
Context {CL : CryptoLib}.

(** ** Shared steps *)

Definition has_val (m : StunMessage) (attrs : list wattr) (t : Z) : Prop :=
  is_Some (spec_find (swap_realm_nonce m t) attrs).

Lemma has_attr_true m ty id attrs rest t :
  msg_repr m ty id attrs rest -> has_val m attrs t -> stun_message_has_attribute m t = Ok true.
Proof. intros Hm [v Hv]. rewrite (has_attribute_spec Hm). unfold val_of. by rewrite Hv. Qed.

(** With every credential attribute present nothing is missing. *)
Lemma missing_false a m c k ty id attrs rest :
  msg_repr m ty id attrs rest ->
  has_val m attrs STUN_ATTRIBUTE_USERNAME -> has_val m attrs STUN_ATTRIBUTE_MESSAGE_INTEGRITY ->
  (agent_flag a STUN_AGENT_USAGE_LONG_TERM_CREDENTIALS = true ->
    has_val m attrs STUN_ATTRIBUTE_NONCE /\ has_val m attrs STUN_ATTRIBUTE_REALM) ->
  missing_credentials a m c k false = Ok false.
Proof.
  intros Hm Hu Hi Hlt. unfold missing_credentials. destruct (_ && _ && _); [|done].
  rewrite (has_attr_true _ _ _ _ _ _ Hm Hu), (has_attr_true _ _ _ _ _ _ Hm Hi). cbn [mbind res_bind negb].
  destruct (agent_flag a STUN_AGENT_USAGE_LONG_TERM_CREDENTIALS).
  - destruct (Hlt eq_refl) as [Hn Hr].
    rewrite (has_attr_true _ _ _ _ _ _ Hm Hn), (has_attr_true _ _ _ _ _ _ Hm Hr).
    by destruct (agent_flag a STUN_AGENT_USAGE_SHORT_TERM_CREDENTIALS), (bool_decide _), (agent_flag a _).
  - by destruct (agent_flag a STUN_AGENT_USAGE_SHORT_TERM_CREDENTIALS), (agent_flag a _).
Qed.

(** Reading the value back from the message. *)
Lemma read_value m ty id attrs rest t v :
  msg_repr m ty id attrs rest -> spec_find (swap_realm_nonce m t) attrs = Some v ->
  (u ← stun_message_find m t;
   match u with Some (p, n) => w ← rd_bytes (buffer m) p n; Ok (Some w) | None => Ok None end) = Ok (Some v).
Proof.
  intros Hm Hv. pose proof (find_cases _ _ _ _ _ t Hm) as Hf. rewrite Hv in Hf.
  destruct Hf as (l & r & -> & Hb & _). cbn [mbind res_bind]. by rewrite (rd_bytes_eq _ l v r).
Qed.

(** The last stage, for a message whose attributes are all known. *)
Definition clear_slot (a : StunAgent) (slot : option nat) : StunAgent :=
  match slot with
  | Some i => set_sent_ids a (alter (fun s => set_valid s false) i (ag_sent_ids a))
  | None => a
  end.

Lemma accept_spec a m ty id attrs rest c slot :
  msg_repr m ty id attrs rest -> agent m = Some (ag_info a) -> In 0 (ag_known_attributes a) ->
  exists legacy, accept_message a m c slot =
    Ok (match unknown_types (ag_known_attributes a) attrs with
        | [] => STUN_VALIDATION_SUCCESS
        | _ => if bool_decide (c = STUN_REQUEST) then STUN_VALIDATION_UNKNOWN_REQUEST_ATTRIBUTE
               else STUN_VALIDATION_UNKNOWN_ATTRIBUTE
        end, set_legacy (clear_slot a slot) legacy, m).
Proof.
  intros Hm Ha Hk. unfold accept_message. fold (clear_slot a slot).
  destruct (stun_message_find32 m _) as [[ret v]|] eqn:E; rewrite (find32_spec Hm) in E; [|done].
  cbn [mbind res_bind]. clear E.
  set (a' := clear_slot a slot).
  assert (Hi : ag_info a' = ag_info a /\ ag_known_attributes a' = ag_known_attributes a) by (by destruct slot).
  destruct Hi as [Hi Hkn].
  assert (HL : forall b, ag_info b = ag_info a' -> ag_known_attributes b = ag_known_attributes a' ->
    stun_agent_find_unknowns b m 1 = Ok (take 1 (map htons (unknown_types (ag_known_attributes a) attrs)))).
  { intros b Hb Hkb. rewrite <-Hkn, <-Hkb. apply (find_unknowns_spec b m ty id attrs rest 1); try done.
    - by rewrite Hb, Hi.
    - by rewrite Hkb, Hkn. }
  exists (if bool_decide (ret = STUN_MESSAGE_RETURN_SUCCESS) then false else ag_ms_ice2_send_legacy_connchecks a').
  destruct (bool_decide (ret = STUN_MESSAGE_RETURN_SUCCESS)); rewrite HL by done; cbn [mbind res_bind];
    destruct (unknown_types _ attrs); try done; by destruct a'.
Qed.

(** The receiver checks the same key as the sender signed with. *)
Lemma signing_verifying a b m r attrs x post k ek m1 :
  signing a m attrs k ek m1 -> long_term_valid m = false -> ag_info b = ag_info a ->
  agent m = Some (ag_info a) -> agent r = Some (ag_info b) ->
  plain attrs -> w_type x = STUN_ATTRIBUTE_MESSAGE_INTEGRITY ->
  exists r1, verifying b r (attrs ++ x :: post) k None ek r1 /\ buffer r1 = buffer r /\ agent r1 = agent r.
Proof.
  intros Hs Hlv Hab Ham Har Hp Hx.
  assert (Hsw : forall t, swap_realm_nonce r t = swap_realm_nonce m t)
    by (intros; unfold swap_realm_nonce, is_oc2007; by rewrite Ham, Har, Hab).
  assert (Hsf : forall t, t = STUN_ATTRIBUTE_USERNAME \/ t = STUN_ATTRIBUTE_REALM ->
    spec_find (swap_realm_nonce r t) (attrs ++ x :: post) = spec_find (swap_realm_nonce m t) attrs).
  { intros t Ht. rewrite Hsw. apply spec_find_other; try done;
      unfold swap_realm_nonce; destruct (is_oc2007 m); destruct Ht as [->| ->]; done. }
  assert (Hfl : forall f, agent_flag b f = agent_flag a f) by (intros; unfold agent_flag; by rewrite Hab).
  inversion Hs as [Hf|Hf Hv|u r' Hf Hv Hu Hr Tu Tr Tk Hk]; subst.
  - exists r. split; [|done]. apply verify_short. by rewrite Hfl.
  - congruence.
  - eexists. split; [eapply (verify_creds b r _ k u r'); rewrite ?Hfl, ?Hsf; auto|done].
Qed.

Lemma unknown_finished a ek ty id attrs known :
  unknown_types known attrs = [] -> In STUN_ATTRIBUTE_MESSAGE_INTEGRITY (known_set known) ->
  unknown_types known (finished a ek ty id attrs) = [].
Proof.
  intros Hu Hk. destruct (finished_shape a ek ty id attrs) as (post & -> & ->).
  unfold unknown_types in *. rewrite map_app, List.filter_app, Hu. cbn [map List.filter app].
  assert (Hm : is_unknown_type known (w_type (integrity_attr a ek ty id attrs)) = false).
  { unfold is_unknown_type. cbn [w_type integrity_attr]. rewrite bool_decide_eq_false_2; [apply andb_false_r|].
    intros Hn. apply Hn. by apply list_elem_of_In. }
  rewrite Hm. by destruct (uses_fingerprint a).
Qed.

(** The receiver's integrity check over a finished message. *)
Lemma finished_integrity a b r c kv lt ek ty id attrs r1 ec :
  msg_repr r ty id (finished a ek ty id attrs) [] -> ag_info b = ag_info a -> plain attrs -> 0 < zlen kv ->
  verifying b r (finished a ek ty id attrs) kv lt ek r1 ->
  check_integrity b r c (Some kv) lt false ec = Ok (true, set_key r1 (Some kv), ec).
Proof.
  intros Hr Hab Hp Hk Hv. pose proof (finished_mac a b ek ty id attrs Hab) as Hmac.
  destruct (finished_shape a ek ty id attrs) as (post & E & _). rewrite E in *.
  rewrite (check_integrity_spec b r ty id attrs (integrity_attr a ek ty id attrs) post [] c kv lt ek r1 ec);
    auto using plain_not_mi; [|by apply spec_find_mi].
  destruct Hr as [Hb Ht Hi _ _ _].
  rewrite (rd_bytes_eq _ (ty ++ be_bytes 2 (zlen (enc_all (attrs ++ integrity_attr a ek ty id attrs :: post))) ++ id ++
      enc_all attrs ++ be_bytes 2 (w_type (integrity_attr a ek ty id attrs)) ++
      be_bytes 2 (zlen (w_val (integrity_attr a ek ty id attrs)))) (w_val (integrity_attr a ek ty id attrs)) (enc_all post)).
  - cbn [mbind res_bind]. by rewrite bool_decide_eq_true_2 by exact Hmac.
  - rewrite Hb. set (L := be_bytes 2 (zlen (enc_all (_ ++ _)))). rewrite enc_all_app, enc_all_cons.
    unfold enc. cbn [w_pad integrity_attr]. rewrite !app_nil_r. lassoc.
  - zlen_norm. lia.
  - cbn [w_val integrity_attr]. by rewrite mac_value_len.
Qed.

Lemma ignore_false a m c :
  agent_flag a STUN_AGENT_USAGE_IGNORE_CREDENTIALS = false -> c = STUN_REQUEST \/ c = STUN_RESPONSE ->
  ignore_credentials a m c = Ok (false, None).
Proof. intros Hi Hc. unfold ignore_credentials. rewrite Hi. by destruct Hc as [-> | ->]. Qed.

(** A finished request in the receiver's hands. *)
Lemma framed_request a b m r ek ty id attrs x y k m1 f u :
  msg_repr r ty id (finished a ek ty id attrs) [] -> agent r = Some (ag_info b) ->
  agent m = Some (ag_info a) -> ag_info b = ag_info a -> long_term_valid m = false ->
  ty = [x; y] -> class_of_type (x * 256 + y) = STUN_REQUEST ->
  plain attrs -> signing a m attrs k ek m1 -> 0 < zlen k ->
  agent_flag a STUN_AGENT_USAGE_IGNORE_CREDENTIALS = false ->
  spec_find STUN_ATTRIBUTE_USERNAME attrs = Some u ->
  (agent_flag a STUN_AGENT_USAGE_LONG_TERM_CREDENTIALS = true -> has_val m attrs STUN_ATTRIBUTE_NONCE) ->
  f b r (Some u) None = (true, Some k) ->
  In 0 (ag_known_attributes b) -> In STUN_ATTRIBUTE_MESSAGE_INTEGRITY (known_set (ag_known_attributes b)) ->
  unknown_types (ag_known_attributes b) attrs = [] ->
  exists legacy r', validate_framed b r (Some f) = Ok (STUN_VALIDATION_SUCCESS, set_legacy b legacy, r') /\
    key r' = Some k /\ buffer r' = buffer r.
Proof.
  intros Hr Har Ham Hab Hlv Ht Hc Hp Hs Hk Hig Hu Hno Hf Hk0 Hkm Hun.
  destruct (finished_shape a ek ty id attrs) as (post & E & _).
  assert (Hfl : forall g, agent_flag b g = agent_flag a g) by (intros; unfold agent_flag; by rewrite Hab).
  assert (Hsw : forall t, swap_realm_nonce r t = swap_realm_nonce m t)
    by (intros; unfold swap_realm_nonce, is_oc2007; by rewrite Ham, Har, Hab).
  assert (Hval : forall t, has_val m attrs t -> t <> STUN_ATTRIBUTE_MESSAGE_INTEGRITY -> t <> STUN_ATTRIBUTE_FINGERPRINT ->
    has_val r (finished a ek ty id attrs) t).
  { intros t Hv H1 H2. unfold has_val in *. rewrite E, Hsw, spec_find_other; try done;
      unfold swap_realm_nonce; by (destruct (is_oc2007 m); [destruct (t =? STUN_ATTRIBUTE_REALM); [|destruct (t =? STUN_ATTRIBUTE_NONCE)]|]). }
  assert (Hmi : has_val r (finished a ek ty id attrs) STUN_ATTRIBUTE_MESSAGE_INTEGRITY).
  { unfold has_val. rewrite swap_other, E, spec_find_mi by done. by eexists. }
  unfold validate_framed. destruct (repr_class _ _ _ _ _ _ _ Hr Ht) as [-> _]. rewrite Hc. cbn [mbind res_bind].
  change (match_response b r STUN_REQUEST) with (@Ok (option (option nat)) (Some None)). cbn [mbind res_bind].
  rewrite (ignore_false b r STUN_REQUEST) by first [by left | by rewrite Hfl]. cbn [mbind res_bind option_bind].
  rewrite (missing_false _ _ _ _ _ _ _ _ Hr).
  2:{ apply Hval; [|done..]. unfold has_val. rewrite swap_other, Hu by done. by eexists. }
  2:{ done. }
  2:{ rewrite Hfl. intros Hlt. split; apply Hval; auto; try done. inversion Hs; subst; try congruence. by eexists. }
  cbn [mbind res_bind]. unfold run_validater. rewrite (has_attr_true _ _ _ _ _ _ Hr Hmi). cbn [mbind res_bind andb negb].
  rewrite bool_decide_eq_true_2 by done. cbn [andb orb].
  pose proof (read_value r ty id _ [] STUN_ATTRIBUTE_USERNAME u Hr) as Hrv.
  rewrite swap_other, E, spec_find_other in Hrv by done. specialize (Hrv Hu).
  destruct (stun_message_find r STUN_ATTRIBUTE_USERNAME) as [w|]; cbn [mbind res_bind] in Hrv |- *; [|done].
  rewrite Hrv. cbn [mbind res_bind]. rewrite Hf. cbn [mbind res_bind].
  destruct (signing_verifying a b m r attrs (integrity_attr a ek ty id attrs) post k ek m1)
    as (r1 & Hver & Hb1 & Ha1); try done. rewrite <-E in Hver.
  rewrite (finished_integrity a b r _ k None ek ty id attrs r1) by done. cbn [mbind res_bind negb].
  unfold check_forbidden. rewrite andb_false_r. cbn [mbind res_bind].
  destruct (accept_spec b (set_key r1 (Some k)) ty id (finished a ek ty id attrs) [] STUN_REQUEST None)
    as [legacy ->]; try done.
  - destruct Hr as [? ? ? ? Hw ?]. constructor; cbn; rewrite ?Hb1; try done.
    unfold no_aligned in *. cbn. by rewrite Ha1.
  - cbn. by rewrite Ha1.
  - rewrite unknown_finished by done. exists legacy, (set_key r1 (Some k)). by cbn.
Qed.

Lemma signing_agent a m attrs k ek m1 : signing a m attrs k ek m1 -> agent m1 = agent m.
Proof. by intros []. Qed.

(** C32: a request that one agent finishes with a key is accepted by a peer
    with the same compatibility and usage flags whose validater knows the key
    for its username, whatever else the message carries: framing, cookie,
    fingerprint and message integrity all pass, with short-term and with
    long-term credentials.  The peer ends up with the same key. *)
Theorem request_authenticates a b m m0 ty id attrs x y k ek m1 f u :
  msg_ok m ty id attrs -> agent m = Some (ag_info a) -> ag_info b = ag_info a ->
  key m = None -> long_term_valid m = false ->
  ty = [x; y] -> x < 64 -> class_of_type (x * 256 + y) = STUN_REQUEST ->
  (is_rfc5389 a = true -> cookie_id id = true) -> plain attrs ->
  signing a m attrs k ek m1 -> 0 < zlen k ->
  agent_flag a STUN_AGENT_USAGE_IGNORE_CREDENTIALS = false ->
  spec_find STUN_ATTRIBUTE_USERNAME attrs = Some u ->
  (agent_flag a STUN_AGENT_USAGE_LONG_TERM_CREDENTIALS = true -> has_val m attrs STUN_ATTRIBUTE_NONCE) ->
  (forall r, f b r (Some u) None = (true, Some k)) ->
  In 0 (ag_known_attributes b) -> In STUN_ATTRIBUTE_MESSAGE_INTEGRITY (known_set (ag_known_attributes b)) ->
  unknown_types (ag_known_attributes b) attrs = [] ->
  Z.of_nat (free_slot a) <> STUN_AGENT_MAX_SAVED_IDS ->
  52 + zlen (enc_all attrs) <= buffer_len m -> 52 + zlen (enc_all attrs) < 65536 ->
  exists n a' m' b' r,
    stun_agent_finish_message a m (Some k) = Ok (n, a', m') /\ 20 + zlen (enc_all attrs) + 24 <= n /\
    stun_agent_validate b m0 (take (Z.to_nat n) (buffer m')) n (Some f) = Ok (STUN_VALIDATION_SUCCESS, b', r) /\
    key r = Some k /\ ag_sent_ids b' = ag_sent_ids b.
Proof.
  intros Hm Ham Hab Hkm Hlv Ht Hx Hc Hck Hp Hs Hk Hig Hu Hno Hf Hk0 Hmi Hun Hslot Hroom H16.
  destruct (finish_spec a m ty id attrs x y (Some k) k ek m1 Hm Ht) as (m' & Hok & Hmeta & Hfin);
    [by rewrite Hkm|done|by intros _|done|done|].
  assert (Ham' : agent m' = Some (ag_info a))
    by (destruct Hmeta as [-> _]; cbn; by rewrite (signing_agent _ _ _ _ _ _ Hs)).
  assert (Hr : msg_repr (received b (wire ty id (finished a ek ty id attrs)) (long_term_key m0)) ty id
    (finished a ek ty id attrs) []) by (eapply received_ok; eauto).
  destruct (framed_request a b m _ ek ty id attrs x y k m1 f u Hr) as (legacy & r & Hv & Hkr & _); try done.
  do 5 eexists. split; [exact Hfin|]. rewrite zlen_finished. split; [destruct (uses_fingerprint a); lia|].
  rewrite <-zlen_finished with (a := a) (ek := ek) (ty := ty) (id := id).
  rewrite (finished_prefix a b m0 m' ek ty id attrs (Some f)) by (done || by rewrite Ht). split; [exact Hv|]. done.
Qed.
End auth.

(** A stand-in for the cryptographic library: any functions with digests of
    the right sizes will do for the examples below. *)
#[global, refine] Instance toy_crypto : CryptoLib := {
  hmac_sha1 k d := be_bytes 20 (foldl (fun acc c => (acc * 257 + c + 1) mod 2 ^ 160) 7 (k ++ d));
  md5_digest d := be_bytes 16 (foldl (fun acc c => (acc * 263 + c + 1) mod 2 ^ 128) 5 d)
}.
Proof. all: intros; first [apply zlen_be_bytes | apply bytes_be_bytes]. Defined.

Definition ex_slots : list StunAgentSavedIds := replicate 200 (mkSavedId [] 0 None [] false false).

(** An ICE agent: RFC 5389, short-term credentials and fingerprint. *)
Definition ex_agent : StunAgent :=
  stun_agent_init (mkAgent (mkAgentInfo STUN_COMPATIBILITY_RFC3489 0) ex_slots [] None false)
    STUN_ALL_KNOWN_ATTRIBUTES STUN_COMPATIBILITY_RFC5389
    (Z.lor STUN_AGENT_USAGE_SHORT_TERM_CREDENTIALS STUN_AGENT_USAGE_USE_FINGERPRINT).

Definition ex_tid : list Z := be_bytes 4 STUN_MAGIC_COOKIE ++ [1; 2; 3; 4; 5; 6; 7; 8; 9; 10; 11; 12].
Definition ex_user : wattr := mkAttr STUN_ATTRIBUTE_USERNAME [97; 58; 98] [0].
Definition ex_request : StunMessage :=
  mkMessage (Some (ag_info ex_agent)) (wire [0; 1] ex_tid [ex_user] ++ replicate 100 170) 128 None [] false.

Lemma ex_request_ok : msg_ok ex_request [0; 1] ex_tid [ex_user].
Proof.
  constructor; [|reflexivity|reflexivity]. exists (replicate 100 170). constructor; try reflexivity.
  - constructor; [|constructor]. constructor; try reflexivity; try (vm_compute; split; [discriminate|reflexivity]);
      apply (bool_decide_eq_true_1 _); vm_compute; reflexivity.
  - apply (bool_decide_eq_true_1 _). vm_compute. reflexivity.
Qed.

Definition ex_validater : StunMessageIntegrityValidate :=
  stun_agent_default_validater [mkValidaterData [120] None; mkValidaterData [97; 58; 98] (Some [112; 119])].

Lemma request_authenticates_witness :
  exists n a' m' b' r,
    stun_agent_finish_message ex_agent ex_request (Some [112; 119]) = Ok (n, a', m') /\ 52 <= n /\
    stun_agent_validate ex_agent ex_request (take (Z.to_nat n) (buffer m')) n (Some ex_validater) =
      Ok (STUN_VALIDATION_SUCCESS, b', r) /\
    key r = Some [112; 119] /\ ag_sent_ids b' = ag_sent_ids ex_agent.
Proof.
  apply (request_authenticates ex_agent ex_agent ex_request ex_request [0; 1] ex_tid [ex_user] 0 1 [112; 119]
    [112; 119] ex_request ex_validater [97; 58; 98]); try reflexivity; try discriminate; try lia.
  - exact ex_request_ok.
  - constructor; [done|constructor].
  - by apply sign_short.
  - vm_compute. tauto.
  - vm_compute. tauto.
Defined.

(** ** Unknown attributes and long-term keys *)

(** On a well-formed message [stun_agent_find_unknowns] returns, in
    network byte order and in the order of the message, the first [max]
    attribute types that are mandatory (below 0x8000) and not among the
    agent's known attributes. *)
Theorem find_unknowns_exact a m ty id attrs rest max :
  msg_repr m ty id attrs rest -> agent m = Some (ag_info a) -> In 0 (ag_known_attributes a) -> 0 <= max ->
  stun_agent_find_unknowns a m max =
  Ok (take (Z.to_nat max) (map htons (unknown_types (ag_known_attributes a) attrs))).
Proof. apply find_unknowns_spec. Qed.

Lemma find_unknowns_exact_witness :
  stun_agent_find_unknowns (mkAgent (ag_info ex_agent) [] [1; 0] None false) ex_request 1 = Ok [1536].
Proof.
  destruct ex_request_ok as [[rest Hr] _ _].
  apply (find_unknowns_exact (mkAgent (ag_info ex_agent) [] [1; 0] None false) ex_request _ _ _ rest 1 Hr);
    [reflexivity|simpl; tauto|lia].
Defined.

(** The long-term key is the MD5 of the username, realm and password
    separated by colons, each stripped of leading quotes and of trailing
    quotes and zero bytes, provided something is left of each. *)
Theorem hash_creds_trims {CL : CryptoLib} realm username password r u p :
  points_to realm r -> points_to username u -> points_to password p ->
  trim r <> [] -> trim u <> [] -> trim p <> [] ->
  zlen r < 2 ^ 62 -> zlen u < 2 ^ 62 -> zlen p < 2 ^ 62 ->
  stun_hash_creds realm username password =
  Ok (md5_digest (trim u ++ [58] ++ trim r ++ [58] ++ trim p)).
Proof. apply stun_hash_creds_spec. Qed.

Lemma hash_creds_trims_witness :
  stun_hash_creds ([7; 34; 114; 34; 0; 9], 1, 4) ([117], 0, 1) ([112; 0], 0, 2) =
  Ok (md5_digest [117; 58; 114; 58; 112]).
Proof.
  apply (hash_creds_trims ([7; 34; 114; 34; 0; 9], 1, 4) ([117], 0, 1) ([112; 0], 0, 2)
    [34; 114; 34; 0] [117] [112; 0]); try discriminate; try reflexivity.
  - by exists [7], [9].
  - by exists [], [].
  - by exists [], [].
Defined.

(** The trimming loops have no other bound: an empty value (or one of quotes
    and zero bytes only, up to the end of its object) makes them run outside
    it. *)
Lemma trim_empty_faults obj var c :
  rd obj var = Ok c -> c <> 34 -> zlen obj < 2 ^ 63 -> priv_trim_var obj var 0 = Fault OutOfBounds.
Proof.
  intros Hc Hne Hl. unfold priv_trim_var. cbn [trim_left]. rewrite Hc. cbn [mbind res_bind].
  apply Z.eqb_neq in Hne. rewrite Hne. cbn [mbind res_bind trim_right].
  apply rd_inv in Hc as [Hr _]. unfold rd at 1. change (u64 (0 - 1)) with (2 ^ 64 - 1).
  destruct (Z.leb_spec 0 (var + (2 ^ 64 - 1))), (Z.ltb_spec (var + (2 ^ 64 - 1)) (zlen obj)); try lia; done.
Qed.

(** With consent freshness an error response without a usable ERROR-CODE makes
    the agent read a code that was never set. *)
Lemma forbidden_reads_unset a m ty id attrs rest :
  msg_repr m ty id attrs rest -> spec_find STUN_ATTRIBUTE_ERROR_CODE attrs = None ->
  agent_flag a STUN_AGENT_USAGE_CONSENT_FRESHNESS = true ->
  check_forbidden a m STUN_ERROR None = Fault Uninitialised.
Proof.
  intros Hm He Hf. unfold check_forbidden. rewrite Hf. cbn [andb]. rewrite bool_decide_eq_true_2 by done.
  rewrite (find_error_spec Hm). unfold val_of. rewrite swap_other, He by done. done.
Qed.
