(* ===== verification/StunAgentSafety.v ===== *)
(** * What acceptance by [stun_agent_validate] implies

    The converse direction of [StunAgentProps]: a message is accepted only if
    its integrity value is right, and a response only if it answers an
    outstanding transaction, which it uses up. *)
From stdpp Require Import sets.
From S2P Require Import Prelude CMem StunTypes StunMessage StunWire StunAppend StunAccess StunCrc32 StunAgent StunIntegrity StunAgentSpec StunAgentProps.
Local Open Scope Z_scope.

(** The statuses with which the agent hands a message to its user. *)
Definition accepted (st : StunValidationStatus) : bool :=
  match st with
  | STUN_VALIDATION_SUCCESS | STUN_VALIDATION_UNKNOWN_REQUEST_ATTRIBUTE | STUN_VALIDATION_UNKNOWN_ATTRIBUTE => true
  | _ => false
  end.

(** A status that is not accepted. *)
Ltac refused :=
  match goal with
  | H : Ok (_, _, _) = Ok (_, _, _), Hst : accepted _ = true |- _ =>
      injection H; intros; subst; discriminate Hst
  end.

Section inversion.
Context {CL : CryptoLib}.

Lemma validate_accept_inv a m0 buf vd st a' r :
  bytes buf -> zlen buf < 65536 ->
  stun_agent_validate a m0 buf (zlen buf) vd = Ok (st, a', r) -> accepted st = true ->
  let m := received a buf (long_term_key m0) in
  (exists ty id attrs, msg_repr m ty id attrs []) /\
  (forall b m1, ag_info b = ag_info a -> long_term_key m1 = long_term_key m0 ->
    stun_agent_validate b m1 buf (zlen buf) vd = validate_framed b m vd) /\
  validate_framed a m vd = Ok (st, a', r).
Proof.
  intros Hb H16 Hv Hst m. unfold stun_agent_validate in *.
  rewrite (validate_spec (negb (agent_flag a STUN_AGENT_USAGE_NO_ALIGNED_ATTRIBUTES))) in Hv by done. cbn [mbind res_bind] in Hv.
  set (n := spec_validate (negb (agent_flag a STUN_AGENT_USAGE_NO_ALIGNED_ATTRIBUTES)) buf) in *. zlen_pos.
  destruct (n =? STUN_MESSAGE_BUFFER_INVALID) eqn:E1; [refused|].
  destruct (n =? STUN_MESSAGE_BUFFER_INCOMPLETE) eqn:E2; [refused|].
  assert (Hs : s32 (zlen buf) = zlen buf).
  { unfold s32. rewrite u32_small by lia. destruct (Z.ltb_spec (zlen buf) 2147483648); lia. }
  rewrite Hs in *. destruct (negb (n =? zlen buf)) eqn:E3; [refused|].
  fold (received a buf (long_term_key m0)) in Hv. fold m in Hv.
  apply bind_Ok_inv in Hv as (bad1 & Hb1 & Hv). destruct bad1; [refused|].
  apply bind_Ok_inv in Hv as (bad2 & Hb2 & Hv). destruct bad2; [refused|].
  split; [|split; [|done]].
  - assert (Hn : n = zlen buf) by (bool_prop; lia). pose proof (spec_validate_range (negb (agent_flag a STUN_AGENT_USAGE_NO_ALIGNED_ATTRIBUTES)) buf Hb) as Hrg.
    fold n in Hrg. bool_prop. unfold STUN_MESSAGE_BUFFER_INVALID, STUN_MESSAGE_BUFFER_INCOMPLETE in *.
    destruct (validate_repr m n) as (ty & id & attrs & rest & Hr & Hlen); [done|by apply validate_spec|lia|].
    exists ty, id, attrs. pose proof (bytes_meta_size _ _ _ _ _ Hr) as Hsz. cbn [buffer received m] in Hsz.
    replace rest with (@nil Z) in Hr by (symmetry; apply zlen_0_nil; unfold m, received in Hsz; cbn in Hsz; lia). done.
  - intros b m1 Hab Hm1.
    assert (Hfl : forall g, agent_flag b g = agent_flag a g) by (intros; unfold agent_flag; by rewrite Hab).
    assert (H53 : is_rfc5389 b = is_rfc5389 a) by (unfold is_rfc5389; by rewrite Hab).
    rewrite !Hfl, validate_spec by done. cbn [mbind res_bind]. fold n.
    rewrite E1, E2, E3, Hm1.
    replace (mkMessage (Some (ag_info b)) buf (zlen buf) None (long_term_key m0) false) with m
      by (unfold m, received; by rewrite Hab).
    rewrite H53, Hb1. cbn [mbind res_bind]. unfold stun_agent_check_fingerprint in *. rewrite Hab, Hb2. done.
Qed.

Lemma framed_accept_inv a m vd st a' r :
  validate_framed a m vd = Ok (st, a', r) -> accepted st = true ->
  exists c slot ignore ec k msg' ec',
    stun_message_get_class m = Ok c /\ match_response a m c = Ok (Some slot) /\
    ignore_credentials a m c = Ok (ignore, ec) /\
    let saved := slot ≫= fun i => ag_sent_ids a !! i in
    missing_credentials a m c (saved ≫= si_key) ignore = Ok false /\
    run_validater a m (saved ≫= si_key) ignore vd = Ok (Some k) /\
    check_integrity a m c k (saved ≫= fun s => if si_long_term_valid s then Some (si_long_term_key s) else None)
      ignore ec = Ok (true, msg', ec') /\
    accept_message a msg' c slot = Ok (st, a', r).
Proof.
  intros H Hst. unfold validate_framed in H. apply bind_Ok_inv in H as (c & Hc & H).
  apply bind_Ok_inv in H as ([slot|] & Hm & H); [|refused].
  apply bind_Ok_inv in H as ([ignore ec] & Hi & H). apply bind_Ok_inv in H as (missing & Hmi & H).
  destruct missing; [refused|]. apply bind_Ok_inv in H as ([k|] & Hk & H); [|refused].
  apply bind_Ok_inv in H as ([[ok msg'] ec'] & Hci & H). destruct ok; cbn [negb] in H; [|refused].
  apply bind_Ok_inv in H as (forbidden & Hfb & H). destruct forbidden; [refused|].
  by exists c, slot, ignore, ec, k, msg', ec'.
Qed.

Lemma accept_inv a msg c slot st a' r :
  accept_message a msg c slot = Ok (st, a', r) ->
  r = msg /\ exists legacy, a' = set_legacy (clear_slot a slot) legacy.
Proof.
  intros H. unfold accept_message in H. fold (clear_slot a slot) in H.
  apply bind_Ok_inv in H as ([ret v] & Hf & H). apply bind_Ok_inv in H as (u & Hu & H). simplify_eq.
  split; [done|]. exists (if bool_decide (ret = STUN_MESSAGE_RETURN_SUCCESS) then false else
    ag_ms_ice2_send_legacy_connchecks (clear_slot a slot)). destruct (bool_decide _); [done|]. by destruct (clear_slot a slot).
Qed.

(** The message keeps its buffer and agent through the integrity check. *)
Lemma accept_agent_check a m c k lt ignore ec ok m' ec' :
  check_integrity a m c k lt ignore ec = Ok (ok, m', ec') -> agent m' = agent m /\ buffer m' = buffer m.
Proof.
  unfold check_integrity. destruct k as [kv|]; [|by intros [= <- <- <-]].
  destruct (negb ignore && _); [|by intros [= <- <- <-]]. intros H.
  apply bind_Ok_inv in H as ([[hash n]|] & Hf & H).
  - apply bind_Ok_inv in H as ([md5|] & Hmd & H); [|by simplify_eq].
    apply bind_Ok_inv in H as (sha & Hsha & H). apply bind_Ok_inv in H as (recv & Hrecv & H).
    destruct (bool_decide _); simplify_eq; by destruct md5.
  - apply bind_Ok_inv in H as ([e ec2] & He & H). by simplify_eq.
Qed.

Lemma check_integrity_buffer a m c k lt ignore ec ok m' ec' :
  check_integrity a m c k lt ignore ec = Ok (ok, m', ec') -> buffer m' = buffer m.
Proof. by intros [_ H]%accept_agent_check. Qed.

(** ** The table of outstanding transactions *)

Lemma slot_index_le p l : (slot_index p l <= length l)%nat.
Proof. induction l as [|s l IH]; cbn; [lia|]. destruct (p s); lia. Qed.

Lemma slot_index_lookup p l :
  (slot_index p l < length l)%nat -> exists s, l !! slot_index p l = Some s /\ p s = true.
Proof.
  induction l as [|s l IH]; cbn; [lia|]. destruct (p s) eqn:E; [by exists s|].
  intros Hl. destruct IH as (s' & Hs & Hp); [lia|]. by exists s'.
Qed.

Lemma slot_index_none p l : Forall (fun s => p s = false) l -> slot_index p l = length l.
Proof. induction 1 as [|s l Hs _ IH]; [done|]. cbn. by rewrite Hs, IH. Qed.

Lemma match_response_inv a m c slot :
  agent_ok a -> match_response a m c = Ok (Some slot) -> c = STUN_RESPONSE \/ c = STUN_ERROR ->
  exists i s id meth, slot = Some i /\ ag_sent_ids a !! i = Some s /\ stun_message_id m = Ok id /\
    stun_message_get_method m = Ok meth /\ slot_matches meth id s = true.
Proof.
  intros Hok Hm Hc. unfold match_response in Hm.
  replace (bool_decide (c = STUN_RESPONSE) || bool_decide (c = STUN_ERROR)) with true in Hm
    by (by destruct Hc as [-> | ->]).
  apply bind_Ok_inv in Hm as (id & Hid & Hm). apply bind_Ok_inv in Hm as (meth & Hme & Hm).
  destruct (Z.eqb_spec (Z.of_nat (slot_index (slot_matches meth id) (ag_sent_ids a))) STUN_AGENT_MAX_SAVED_IDS) as [|Hne];
    [done|]. injection Hm as <-. unfold agent_ok, zlen in Hok.
  pose proof (slot_index_le (slot_matches meth id) (ag_sent_ids a)).
  destruct (slot_index_lookup (slot_matches meth id) (ag_sent_ids a)) as (s & Hs & Hp); [lia|].
  by exists (slot_index (slot_matches meth id) (ag_sent_ids a)), s, id, meth.
Qed.

Lemma slot_matches_inv meth id s : slot_matches meth id s = true -> si_valid s = true /\ si_method s = meth /\ si_id s = id.
Proof.
  unfold slot_matches. intros H. bool_prop. match goal with H : bool_decide _ = true |- _ => apply bool_decide_eq_true in H end.
  auto.
Qed.

Lemma alter_insert_slot i s (l : list StunAgentSavedIds) :
  l !! i = Some s -> alter (fun s => set_valid s false) i l = <[i := set_valid s false]> l.
Proof.
  intros Hs. apply list_eq. intros j. destruct (decide (i = j)) as [<-|Hij].
  - rewrite list_lookup_alter_eq, list_lookup_insert_eq, Hs by (by eapply lookup_lt_Some). done.
  - by rewrite list_lookup_alter_ne, list_lookup_insert_ne by done.
Qed.

(** The agent accepts a success or error response only if it answers an
    outstanding transaction: an entry of the table is in use with the
    response's transaction id and method.  Accepting frees that entry and
    changes no other. *)
Theorem response_consumes_transaction a m0 buf vd st a' r c :
  agent_ok a -> bytes buf -> zlen buf < 65536 ->
  stun_agent_validate a m0 buf (zlen buf) vd = Ok (st, a', r) -> accepted st = true ->
  stun_message_get_class r = Ok c -> c = STUN_RESPONSE \/ c = STUN_ERROR ->
  exists i s, ag_sent_ids a !! i = Some s /\ si_valid s = true /\
    stun_message_id r = Ok (si_id s) /\ stun_message_get_method r = Ok (si_method s) /\
    ag_sent_ids a' = <[i := set_valid s false]> (ag_sent_ids a) /\ agent_ok a'.
Proof.
  intros Hok Hb H16 Hv Hst Hc Hcl.
  destruct (validate_accept_inv _ _ _ _ _ _ _ Hb H16 Hv Hst) as (_ & _ & Hfr).
  destruct (framed_accept_inv _ _ _ _ _ _ Hfr Hst) as (c' & slot & ig & ec & k & msg & ec' & Hc' & Hmr & _ & _ & _ & Hci & Hac).
  apply check_integrity_buffer in Hci. destruct (accept_inv _ _ _ _ _ _ _ Hac) as (-> & legacy & ->).
  unfold stun_message_get_class, stun_message_id, stun_message_get_method in *. rewrite Hci in *.
  assert (c' = c) as -> by congruence.
  destruct (match_response_inv _ _ _ _ Hok Hmr Hcl) as (i & s & id & meth & -> & Hs & Hid & Hme & Hsm).
  apply slot_matches_inv in Hsm as (? & <- & <-). exists i, s. do 4 (split; [done|]).
  cbn [clear_slot set_legacy set_sent_ids ag_sent_ids]. rewrite (alter_insert_slot _ _ _ Hs). split; [done|].
  unfold agent_ok in *. cbn [set_legacy set_sent_ids ag_sent_ids clear_slot]. by rewrite ?(alter_insert_slot _ _ _ Hs), zlen_insert.
Qed.

(** C12: a response is accepted at most once: after it was accepted, the
    same bytes presented again are an unmatched response, provided no other
    entry of the table is in use with the same transaction id and method (the
    ids are random). *)
Theorem replayed_response_rejected a m0 buf vd st a' r c :
  agent_ok a -> bytes buf -> zlen buf < 65536 ->
  stun_agent_validate a m0 buf (zlen buf) vd = Ok (st, a', r) -> accepted st = true ->
  stun_message_get_class r = Ok c -> c = STUN_RESPONSE \/ c = STUN_ERROR ->
  (forall i j s t, ag_sent_ids a !! i = Some s -> ag_sent_ids a !! j = Some t ->
    si_valid s = true -> si_valid t = true -> si_id s = si_id t -> si_method s = si_method t -> i = j) ->
  exists r', stun_agent_validate a' m0 buf (zlen buf) vd = Ok (STUN_VALIDATION_UNMATCHED_RESPONSE, a', r').
Proof.
  intros Hok Hb H16 Hv Hst Hc Hcl Huniq.
  destruct (validate_accept_inv _ _ _ _ _ _ _ Hb H16 Hv Hst) as (_ & Hagain & Hfr).
  destruct (framed_accept_inv _ _ _ _ _ _ Hfr Hst) as (c' & slot & ig & ec & k & msg & ec' & Hc' & Hmr & _ & _ & _ & Hci & Hac).
  apply check_integrity_buffer in Hci. destruct (accept_inv _ _ _ _ _ _ _ Hac) as (-> & legacy & ->).
  assert (Hcc : stun_message_get_class msg = stun_message_get_class (received a buf (long_term_key m0)))
    by (unfold stun_message_get_class; by rewrite Hci).
  assert (c' = c) as -> by congruence.
  destruct (match_response_inv _ _ _ _ Hok Hmr Hcl) as (i & s & id & meth & -> & Hs & Hid & Hme & Hsm).
  apply slot_matches_inv in Hsm as (Hval & <- & <-).
  exists (received a buf (long_term_key m0)). rewrite Hagain by done.
  unfold validate_framed. rewrite Hc'. cbn [mbind res_bind]. unfold match_response.
  replace (bool_decide (c = STUN_RESPONSE) || bool_decide (c = STUN_ERROR)) with true by (by destruct Hcl as [-> | ->]).
  rewrite Hid, Hme. cbn [mbind res_bind clear_slot set_legacy set_sent_ids ag_sent_ids]. rewrite (alter_insert_slot _ _ _ Hs).
  rewrite slot_index_none.
  - rewrite length_insert. unfold agent_ok, zlen in Hok. rewrite Hok, Z.eqb_refl. done.
  - apply Forall_lookup. intros j t Ht. destruct (decide (i = j)) as [->|Hij].
    + rewrite list_lookup_insert_eq in Ht by (by eapply lookup_lt_Some). by injection Ht as <-.
    + rewrite list_lookup_insert_ne in Ht by done. destruct (slot_matches _ _ t) eqn:E; [|done].
      apply slot_matches_inv in E as (? & ? & ?). exfalso. apply Hij. eapply Huniq; eauto.
Qed.

(** ** Integrity *)

(** The bytes of the MESSAGE-INTEGRITY value that the check compares, and what
    they are compared with, for the attribute [x] after [pre]. *)
Definition mac_of (a : StunAgent) (kv ty id : list Z) (pre : list wattr) (x : wattr) (post : list wattr) : list Z :=
  mac_value (compatibility (ag_info a)) kv ty id (enc_all pre)
    (mac_len (compatibility (ag_info a)) (zlen (enc_all pre)) (zlen (enc_all (pre ++ x :: post)))).

Definition carries_mac (a : StunAgent) (kv buf : list Z) : Prop :=
  exists ty id pre x post, buf = wire ty id (pre ++ x :: post) /\
    w_type x = STUN_ATTRIBUTE_MESSAGE_INTEGRITY /\
    take 20 (w_val x ++ w_pad x ++ enc_all post) = mac_of a kv ty id pre x post.

Lemma integrity_sound a buf ltk ty id attrs c kv lt ec m' ec' :
  msg_repr (received a buf ltk) ty id attrs [] -> 0 < zlen kv ->
  agent_flag a STUN_AGENT_USAGE_LONG_TERM_CREDENTIALS = false ->
  is_Some (spec_find STUN_ATTRIBUTE_MESSAGE_INTEGRITY attrs) ->
  check_integrity a (received a buf ltk) c (Some kv) lt false ec = Ok (true, m', ec') -> carries_mac a kv buf.
Proof.
  intros Hm Hk Hlt [v Hv] Hci.
  pose proof (find_split _ _ _ _ _ STUN_ATTRIBUTE_MESSAGE_INTEGRITY Hm) as Hs. rewrite swap_other, Hv in Hs by done.
  destruct Hs as (pre & x & post & -> & Hx & <- & Hpre & _).
  rewrite (check_integrity_spec a _ ty id pre x post [] c kv lt kv (received a buf ltk)) in Hci;
    [|done|done|done|done|by apply verify_short|done].
  apply bind_Ok_inv in Hci as (recv & Hrd & Hci). apply rd_bytes_inv in Hrd as (_ & _ & _ & ->).
  destruct (bool_decide _) eqn:E; [|done]. apply bool_decide_eq_true in E.
  destruct Hm as [Hb Ht Hi _ _ _]. cbn [buffer received] in *. rewrite app_nil_r in Hb.
  exists ty, id, pre, x, post. split; [exact Hb|]. split; [done|].
  unfold mac_of. rewrite E. rewrite Hb. set (L := be_bytes 2 (zlen (enc_all (pre ++ x :: post)))).
  set (F := ty ++ L ++ id ++ enc_all pre ++ be_bytes 2 (w_type x) ++ be_bytes 2 (zlen (w_val x))).
  replace (24 + zlen (enc_all pre)) with (zlen F) by (unfold F, L; zlen_norm; lia).
  replace (ty ++ L ++ id ++ enc_all (pre ++ x :: post)) with (F ++ w_val x ++ w_pad x ++ enc_all post)
    by (rewrite enc_all_app, enc_all_cons; unfold F, enc; lassoc).
  unfold slice. rewrite to_nat_zlen, drop_app_length. done.
Qed.

Lemma request_credentials a m c k0 ig vd k ty id attrs rest :
  msg_repr m ty id attrs rest -> agent_flag a STUN_AGENT_USAGE_SHORT_TERM_CREDENTIALS = true ->
  c = STUN_REQUEST -> k0 = None -> ig = false ->
  missing_credentials a m c k0 ig = Ok false -> run_validater a m k0 ig vd = Ok (Some k) ->
  is_Some (spec_find STUN_ATTRIBUTE_MESSAGE_INTEGRITY attrs) /\
  exists u f, spec_find STUN_ATTRIBUTE_USERNAME attrs = Some u /\ vd = Some f /\ f a m (Some u) None = (true, k).
Proof.
  intros Hm Hst -> -> -> Hmi Hrv. unfold missing_credentials in Hmi. cbn [bool_decide decide_rel negb andb orb] in Hmi.
  rewrite bool_decide_eq_true_2 in Hmi by done. rewrite Hst in Hmi. cbn in Hmi.
  rewrite !(has_attribute_spec Hm) in Hmi. unfold val_of in Hmi.
  unfold run_validater in Hrv. rewrite (has_attribute_spec Hm) in Hrv. unfold val_of in Hrv.
  rewrite !(swap_other m STUN_ATTRIBUTE_USERNAME) in * by done.
  rewrite !(swap_other m STUN_ATTRIBUTE_MESSAGE_INTEGRITY) in * by done.
  destruct (spec_find STUN_ATTRIBUTE_USERNAME attrs) as [u|] eqn:Eu; [|done].
  destruct (spec_find STUN_ATTRIBUTE_MESSAGE_INTEGRITY attrs) as [h|] eqn:Eh; [|done].
  split; [by eexists|]. cbn [mbind res_bind andb negb] in Hrv. rewrite bool_decide_eq_true_2 in Hrv by done.
  cbn [andb orb] in Hrv.
  pose proof (read_value m ty id attrs rest STUN_ATTRIBUTE_USERNAME u Hm) as Hread.
  rewrite swap_other in Hread by done. specialize (Hread Eu).
  destruct (stun_message_find m STUN_ATTRIBUTE_USERNAME) as [w|]; cbn [mbind res_bind] in *; [|done].
  rewrite Hread in Hrv. cbn [mbind res_bind] in Hrv. destruct vd as [f|]; [|done].
  destruct (f a m (Some u) None) as [[] k'] eqn:Ef; [|done]. injection Hrv as ->. by exists u, f.
Qed.

(** C6: with short-term credentials the agent hands a request to its user
    only if the validater accepted the request's username and, for the
    (non-empty) key the validater returned, the message carries the HMAC of
    everything before its MESSAGE-INTEGRITY attribute under that key. *)
Theorem accepted_request_is_authentic a m0 buf vd st a' r :
  bytes buf -> zlen buf < 65536 ->
  agent_flag a STUN_AGENT_USAGE_SHORT_TERM_CREDENTIALS = true ->
  agent_flag a STUN_AGENT_USAGE_LONG_TERM_CREDENTIALS = false ->
  agent_flag a STUN_AGENT_USAGE_IGNORE_CREDENTIALS = false ->
  stun_agent_validate a m0 buf (zlen buf) vd = Ok (st, a', r) -> accepted st = true ->
  stun_message_get_class r = Ok STUN_REQUEST ->
  exists u f k, vd = Some f /\ f a (received a buf (long_term_key m0)) (Some u) None = (true, k) /\
    stun_message_has_attribute r STUN_ATTRIBUTE_USERNAME = Ok true /\
    (forall kv, k = Some kv -> 0 < zlen kv -> carries_mac a kv buf).
Proof.
  intros Hb H16 Hsh Hlt Hig Hv Hst Hc.
  destruct (validate_accept_inv _ _ _ _ _ _ _ Hb H16 Hv Hst) as ((ty & id & attrs & Hm) & _ & Hfr).
  destruct (framed_accept_inv _ _ _ _ _ _ Hfr Hst) as (c' & slot & ig & ec & k & msg & ec' & Hc' & Hmr & Hi & Hmi & Hrv & Hci & Hac).
  pose proof (check_integrity_buffer _ _ _ _ _ _ _ _ _ _ Hci) as Hbuf.
  destruct (accept_inv _ _ _ _ _ _ _ Hac) as (-> & legacy & ->).
  assert (Hcc : stun_message_get_class msg = stun_message_get_class (received a buf (long_term_key m0)))
    by (unfold stun_message_get_class; by rewrite Hbuf).
  assert (c' = STUN_REQUEST) as -> by congruence.
  change (match_response a _ STUN_REQUEST) with (@Ok (option (option nat)) (Some None)) in Hmr. injection Hmr as <-.
  rewrite (ignore_false a _ STUN_REQUEST Hig) in Hi by (by left). injection Hi as <- <-.
  destruct (request_credentials _ _ _ _ _ _ _ _ _ _ _ Hm Hsh eq_refl eq_refl eq_refl Hmi Hrv)
    as (Hmis & u & f & Hu & -> & Hf).
  exists u, f, k. do 2 (split; [done|]). split.
  - assert (Hm' : msg_repr msg ty id attrs []).
    { destruct (accept_agent_check _ _ _ _ _ _ _ _ _ _ Hci) as [Ha _]. destruct Hm. constructor; rewrite ?Hbuf; try done.
      unfold no_aligned in *. by rewrite Ha. }
    rewrite (has_attribute_spec Hm'). unfold val_of. by rewrite swap_other, Hu by done.
  - intros kv -> Hk. eapply integrity_sound; eauto.
Qed.

(** C11: with short-term credentials and a (non-empty) key kept for its
    transaction, the agent accepts a success response only if it carries the
    HMAC of its contents under that key. *)
Theorem accepted_response_is_authentic a m0 buf vd st a' r :
  agent_ok a -> bytes buf -> zlen buf < 65536 ->
  agent_flag a STUN_AGENT_USAGE_LONG_TERM_CREDENTIALS = false ->
  agent_flag a STUN_AGENT_USAGE_IGNORE_CREDENTIALS = false ->
  agent_flag a STUN_AGENT_USAGE_FORCE_VALIDATER = false ->
  stun_agent_validate a m0 buf (zlen buf) vd = Ok (st, a', r) -> accepted st = true ->
  stun_message_get_class r = Ok STUN_RESPONSE ->
  exists i s, ag_sent_ids a !! i = Some s /\ si_valid s = true /\ stun_message_id r = Ok (si_id s) /\
    (forall kv, si_key s = Some kv -> 0 < zlen kv -> carries_mac a kv buf).
Proof.
  intros Hok Hb H16 Hlt Hig Hfv Hv Hst Hc.
  destruct (validate_accept_inv _ _ _ _ _ _ _ Hb H16 Hv Hst) as ((ty & id & attrs & Hm) & _ & Hfr).
  destruct (framed_accept_inv _ _ _ _ _ _ Hfr Hst) as (c' & slot & ig & ec & k & msg & ec' & Hc' & Hmr & Hi & Hmi & Hrv & Hci & Hac).
  pose proof (check_integrity_buffer _ _ _ _ _ _ _ _ _ _ Hci) as Hbuf.
  destruct (accept_inv _ _ _ _ _ _ _ Hac) as (-> & legacy & ->).
  assert (Hcc : stun_message_get_class msg = stun_message_get_class (received a buf (long_term_key m0)))
    by (unfold stun_message_get_class; by rewrite Hbuf).
  assert (c' = STUN_RESPONSE) as -> by congruence.
  destruct (match_response_inv _ _ _ _ Hok Hmr) as (i & s & id' & meth & -> & Hs & Hid & Hme & Hsm); [by left|].
  apply slot_matches_inv in Hsm as (Hval & <- & <-).
  exists i, s. do 2 (split; [done|]). split; [unfold stun_message_id in *; by rewrite Hbuf|].
  intros kv Hkv Hk. cbn [mbind option_bind] in *. rewrite Hs in *. cbn [mbind option_bind] in *. rewrite Hkv in *.
  rewrite (ignore_false a _ STUN_RESPONSE Hig) in Hi by (by right). injection Hi as <- <-.
  unfold run_validater in Hrv. rewrite (has_attribute_spec Hm) in Hrv. cbn [mbind res_bind] in Hrv.
  rewrite Hfv, andb_false_r in Hrv. injection Hrv as <-.
  eapply integrity_sound; eauto.
  unfold check_integrity in Hci. apply Z.ltb_lt in Hk. rewrite Hk in Hci. cbn [negb andb] in Hci.
  pose proof (find_spec _ _ _ _ _ STUN_ATTRIBUTE_MESSAGE_INTEGRITY Hm) as Hf. rewrite swap_other in Hf by done.
  destruct (spec_find STUN_ATTRIBUTE_MESSAGE_INTEGRITY attrs); [by eexists|]. rewrite Hf in Hci. by cbn in Hci.
Qed.
End inversion.

(** * The life of a transaction

    Responses signed with the key of their transaction are accepted by the
    agent that sent the request; the table of outstanding transactions fills,
    drops and forgets entries as the code intends. *)

Section transaction.
Context {CL : CryptoLib}.

Lemma match_response_slot a m c ty id attrs rest x y i :
  msg_repr m ty id attrs rest -> ty = [x; y] -> c = STUN_RESPONSE \/ c = STUN_ERROR ->
  slot_index (slot_matches (method_of_type (x * 256 + y)) id) (ag_sent_ids a) = i ->
  Z.of_nat i <> STUN_AGENT_MAX_SAVED_IDS -> match_response a m c = Ok (Some (Some i)).
Proof.
  intros Hm Ht Hc Hi Hne. unfold match_response. destruct (repr_class _ _ _ _ _ _ _ Hm Ht) as [_ ->].
  rewrite (repr_id Hm). cbn [mbind res_bind]. rewrite Hi. apply Z.eqb_neq in Hne. rewrite Hne.
  by destruct Hc as [-> | ->].
Qed.

(** A finished response in the hands of the agent that sent the request. *)
Lemma framed_response a b r ek ty id attrs x y k r1 vd i s :
  msg_repr r ty id (finished b ek ty id attrs) [] -> agent r = Some (ag_info a) -> ag_info a = ag_info b ->
  ty = [x; y] -> class_of_type (x * 256 + y) = STUN_RESPONSE -> plain attrs -> 0 < zlen k ->
  agent_flag a STUN_AGENT_USAGE_IGNORE_CREDENTIALS = false ->
  agent_flag a STUN_AGENT_USAGE_FORCE_VALIDATER = false ->
  slot_index (slot_matches (method_of_type (x * 256 + y)) id) (ag_sent_ids a) = i ->
  Z.of_nat i <> STUN_AGENT_MAX_SAVED_IDS -> ag_sent_ids a !! i = Some s -> si_key s = Some k ->
  verifying a r (finished b ek ty id attrs) k
    (if si_long_term_valid s then Some (si_long_term_key s) else None) ek r1 ->
  In 0 (ag_known_attributes a) -> In STUN_ATTRIBUTE_MESSAGE_INTEGRITY (known_set (ag_known_attributes a)) ->
  unknown_types (ag_known_attributes a) attrs = [] ->
  exists legacy r', validate_framed a r vd =
    Ok (STUN_VALIDATION_SUCCESS, set_legacy (clear_slot a (Some i)) legacy, r') /\ key r' = Some k.
Proof.
  intros Hr Har Hab Ht Hc Hp Hk Hig Hfv Hi Hne Hs Hsk Hver Hk0 Hkm Hun.
  unfold validate_framed. destruct (repr_class _ _ _ _ _ _ _ Hr Ht) as [-> _]. rewrite Hc. cbn [mbind res_bind].
  rewrite (match_response_slot a r STUN_RESPONSE ty id _ [] x y i Hr Ht) by (done || by left).
  cbn [mbind res_bind option_bind]. rewrite Hs. cbn [mbind res_bind option_bind]. rewrite Hsk.
  rewrite (ignore_false a r STUN_RESPONSE Hig) by (by right). cbn [mbind res_bind].
  change (missing_credentials a r STUN_RESPONSE (Some k) false) with (@Ok bool false). cbn [mbind res_bind].
  assert (Hrv : run_validater a r (Some k) false vd = Ok (Some (Some k))).
  { unfold run_validater. rewrite (has_attribute_spec Hr). cbn [mbind res_bind]. by rewrite Hfv, andb_false_r. }
  rewrite Hrv. cbn [mbind res_bind].
  rewrite (finished_integrity b a r STUN_RESPONSE k _ ek ty id attrs r1) by done. cbn [mbind res_bind negb].
  unfold check_forbidden. rewrite andb_false_r. cbn [mbind res_bind].
  assert (Hb1 : buffer r1 = buffer r /\ agent r1 = agent r) by (by inversion Hver). destruct Hb1 as [Hb1 Ha1].
  destruct (accept_spec a (set_key r1 (Some k)) ty id (finished b ek ty id attrs) [] STUN_RESPONSE (Some i))
    as [legacy ->]; try done.
  - destruct Hr as [? ? ? ? Hw ?]. constructor; cbn; rewrite ?Hb1; try done.
    unfold no_aligned in *. cbn. by rewrite Ha1.
  - cbn. by rewrite Ha1.
  - rewrite unknown_finished by done. by exists legacy, (set_key r1 (Some k)).
Qed.

(** A success response that a peer finishes with the key of the request
    is accepted by the agent whose table holds the transaction (same id and
    method, same key, and with long-term credentials the same derived key);
    the transaction's entry is freed. *)
Theorem response_authenticates a b m m0 vd ty id attrs x y k k0 i s :
  msg_ok m ty id attrs -> agent m = Some (ag_info b) -> ag_info a = ag_info b -> key m = Some k ->
  ty = [x; y] -> x < 64 -> class_of_type (x * 256 + y) = STUN_RESPONSE ->
  (is_rfc5389 b = true -> cookie_id id = true) -> plain attrs -> 0 < zlen k ->
  agent_flag a STUN_AGENT_USAGE_IGNORE_CREDENTIALS = false ->
  agent_flag a STUN_AGENT_USAGE_FORCE_VALIDATER = false ->
  slot_index (slot_matches (method_of_type (x * 256 + y)) id) (ag_sent_ids a) = i ->
  Z.of_nat i <> STUN_AGENT_MAX_SAVED_IDS -> ag_sent_ids a !! i = Some s -> si_key s = Some k ->
  (agent_flag a STUN_AGENT_USAGE_LONG_TERM_CREDENTIALS = true ->
    si_long_term_valid s = true /\ long_term_valid m = true /\ si_long_term_key s = long_term_key m) ->
  In 0 (ag_known_attributes a) -> In STUN_ATTRIBUTE_MESSAGE_INTEGRITY (known_set (ag_known_attributes a)) ->
  unknown_types (ag_known_attributes a) attrs = [] ->
  52 + zlen (enc_all attrs) <= buffer_len m -> 52 + zlen (enc_all attrs) < 65536 ->
  exists n b' m' a' r,
    stun_agent_finish_message b m k0 = Ok (n, b', m') /\ ag_sent_ids b' = ag_sent_ids b /\
    stun_agent_validate a m0 (take (Z.to_nat n) (buffer m')) n vd = Ok (STUN_VALIDATION_SUCCESS, a', r) /\
    key r = Some k /\ ag_sent_ids a' = <[i := set_valid s false]> (ag_sent_ids a).
Proof.
  intros Hm Ham Hab Hkm Ht Hx Hc Hck Hp Hk Hig Hfv Hi Hne Hs Hsk Hlt Hk0 Hmi Hun Hroom H16.
  assert (Hfl : forall g, agent_flag b g = agent_flag a g) by (intros; unfold agent_flag; by rewrite Hab).
  assert (Hsig : exists ek, signing b m attrs k ek m /\ forall r, exists r1, verifying a r (finished b ek ty id attrs) k
    (if si_long_term_valid s then Some (si_long_term_key s) else None) ek r1).
  { destruct (agent_flag a STUN_AGENT_USAGE_LONG_TERM_CREDENTIALS) eqn:E.
    - destruct (Hlt eq_refl) as (-> & Hv & ->). exists (long_term_key m). split; [by apply sign_saved; rewrite ?Hfl|].
      intros r. eexists. by apply verify_saved.
    - exists k. split; [apply sign_short; by rewrite Hfl|]. intros r. eexists. by apply verify_short. }
  destruct Hsig as (ek & Hsig & Hver).
  assert (Hrem : remembered b (x * 256 + y) = false) by (unfold remembered; by rewrite Hc).
  destruct (finish_spec b m ty id attrs x y k0 k ek m Hm Ht) as (m' & Hok & Hmeta & Hfin);
    [by rewrite Hkm|done|by rewrite Hrem|done|done|]. rewrite Hrem in Hfin.
  assert (Ham' : agent m' = Some (ag_info b)) by (by destruct Hmeta as [-> _]).
  assert (Hr : msg_repr (received a (wire ty id (finished b ek ty id attrs)) (long_term_key m0)) ty id
    (finished b ek ty id attrs) []) by (eapply received_ok; eauto).
  destruct (Hver (received a (wire ty id (finished b ek ty id attrs)) (long_term_key m0))) as [r1 Hv1].
  destruct (framed_response a b _ ek ty id attrs x y k r1 vd i s Hr) as (legacy & r & Hv & Hkr); try done.
  do 5 eexists. split; [exact Hfin|]. split; [done|].
  rewrite (finished_prefix b a m0 m' ek ty id attrs vd) by (done || by rewrite Ht). split; [exact Hv|].
  split; [done|]. cbn [clear_slot set_legacy set_sent_ids ag_sent_ids]. by apply alter_insert_slot.
Qed.

(** ** The table *)

(** When every entry of the table is in use, finishing a request drops
    it: the result is 0 and neither the agent nor the message changes. *)
Theorem full_table_drops_request a m ty id attrs x y k :
  agent_ok a -> Forall (fun s => si_valid s = true) (ag_sent_ids a) ->
  msg_ok m ty id attrs -> ty = [x; y] -> remembered a (x * 256 + y) = true ->
  stun_agent_finish_message a m k = Ok (0, a, m).
Proof.
  intros Hok Hall [[rest Hr] _ _] Ht Hrem. unfold stun_agent_finish_message.
  rewrite (remember_spec _ _ _ _ _ _ _ _ Hr Ht). cbn [mbind res_bind]. rewrite Hrem, slot_index_none.
  - unfold agent_ok, zlen in Hok. by rewrite Hok, Z.eqb_refl.
  - eapply List.Forall_impl; [|exact Hall]. by intros s ->.
Qed.

Lemma slot_index_free p l : Exists (fun s => p s = true) l -> (slot_index p l < length l)%nat.
Proof. induction 1 as [s l Hs|s l _ IH]; cbn; [rewrite Hs; lia|]. destruct (p s); lia. Qed.

(** Forgetting a transaction finds it exactly when some entry in use
    has its id, and then frees one such entry and changes nothing else. *)
Theorem forget_transaction_frees a id :
  agent_ok a ->
  let '(found, a') := stun_agent_forget_transaction a id in
  if found then exists i s, ag_sent_ids a !! i = Some s /\ si_valid s = true /\ si_id s = id /\
      a' = set_sent_ids a (<[i := set_valid s false]> (ag_sent_ids a)) /\ agent_ok a'
  else a' = a /\ Forall (fun s => si_valid s = true -> si_id s <> id) (ag_sent_ids a).
Proof.
  intros Hok. unfold stun_agent_forget_transaction.
  set (p := fun s => si_valid s && bool_decide (id = si_id s)).
  pose proof (slot_index_le p (ag_sent_ids a)) as Hle. unfold agent_ok, zlen in Hok.
  destruct (Z.eqb_spec (Z.of_nat (slot_index p (ag_sent_ids a))) STUN_AGENT_MAX_SAVED_IDS) as [E|E].
  - split; [done|]. apply Forall_lookup. intros i s Hs Hv Hid.
    assert (Hex : Exists (fun s => p s = true) (ag_sent_ids a)).
    { apply Exists_exists. exists s. split; [apply list_elem_of_In; by eapply list_elem_of_lookup_2|].
      unfold p. rewrite Hv. cbn [andb]. apply bool_decide_eq_true. done. }
    apply slot_index_free in Hex. lia.
  - destruct (slot_index_lookup p (ag_sent_ids a)) as (s & Hs & Hp); [lia|].
    unfold p in Hp. apply andb_true_iff in Hp as [Hv Hid]. apply bool_decide_eq_true in Hid.
    exists (slot_index p (ag_sent_ids a)), s. rewrite (alter_insert_slot _ _ _ Hs). do 4 (split; [done|]).
    unfold agent_ok. cbn [set_sent_ids ag_sent_ids]. rewrite zlen_insert. exact Hok.
Qed.
End transaction.

(** ** A complete exchange *)

(** The agent of the example after it sent its request. *)
Definition ex_client : StunAgent :=
  match stun_agent_finish_message ex_agent ex_request (Some [112; 119]) with
  | Ok (_, a, _) => a
  | Fault _ => ex_agent
  end.

Definition ex_slot : StunAgentSavedIds := mkSavedId ex_tid 1 (Some [112; 119]) [] false true.

Definition ex_reply : StunMessage :=
  mkMessage (Some (ag_info ex_agent)) (wire [1; 1] ex_tid [] ++ replicate 80 170) 100 (Some [112; 119]) [] false.

Lemma ex_reply_ok : msg_ok ex_reply [1; 1] ex_tid [].
Proof.
  constructor; [|reflexivity|reflexivity]. exists (replicate 80 170). constructor; try reflexivity.
  - constructor.
  - apply (bool_decide_eq_true_1 _). vm_compute. reflexivity.
Qed.

Lemma response_authenticates_witness :
  exists n b' m' a' r,
    stun_agent_finish_message ex_agent ex_reply None = Ok (n, b', m') /\ ag_sent_ids b' = ag_sent_ids ex_agent /\
    stun_agent_validate ex_client ex_request (take (Z.to_nat n) (buffer m')) n None = Ok (STUN_VALIDATION_SUCCESS, a', r) /\
    key r = Some [112; 119] /\ ag_sent_ids a' = <[0%nat := set_valid ex_slot false]> (ag_sent_ids ex_client).
Proof.
  apply (response_authenticates ex_client ex_agent ex_reply ex_request None [1; 1] ex_tid [] 1 1 [112; 119] None 0 ex_slot);
    try (vm_compute; reflexivity); try (vm_compute; discriminate).
  - exact ex_reply_ok.
  - constructor.
  - vm_compute. tauto.
  - vm_compute. tauto.
Defined.

(** The bytes of the request and of the response on the wire. *)
Definition ex_request_bytes : list Z :=
  Eval vm_compute in match stun_agent_finish_message ex_agent ex_request (Some [112; 119]) with
    | Ok (n, _, m) => take (Z.to_nat n) (buffer m) | Fault _ => [] end.
Definition ex_response_bytes : list Z :=
  Eval vm_compute in match stun_agent_finish_message ex_agent ex_reply None with
    | Ok (n, _, m) => take (Z.to_nat n) (buffer m) | Fault _ => [] end.

Definition ex_client_after : StunAgent :=
  match stun_agent_validate ex_client ex_request ex_response_bytes (zlen ex_response_bytes) None with
  | Ok (_, a, _) => a | Fault _ => ex_client end.
Definition ex_response_msg : StunMessage :=
  match stun_agent_validate ex_client ex_request ex_response_bytes (zlen ex_response_bytes) None with
  | Ok (_, _, m) => m | Fault _ => ex_request end.
Definition ex_server_after : StunAgent :=
  match stun_agent_validate ex_agent ex_request ex_request_bytes (zlen ex_request_bytes) (Some ex_validater) with
  | Ok (_, a, _) => a | Fault _ => ex_agent end.
Definition ex_request_msg : StunMessage :=
  match stun_agent_validate ex_agent ex_request ex_request_bytes (zlen ex_request_bytes) (Some ex_validater) with
  | Ok (_, _, m) => m | Fault _ => ex_request end.

Lemma response_consumes_transaction_witness :
  exists i s, ag_sent_ids ex_client !! i = Some s /\ si_valid s = true /\
    stun_message_id ex_response_msg = Ok (si_id s) /\ stun_message_get_method ex_response_msg = Ok (si_method s) /\
    ag_sent_ids ex_client_after = <[i := set_valid s false]> (ag_sent_ids ex_client) /\ agent_ok ex_client_after.
Proof.
  apply (response_consumes_transaction ex_client ex_request ex_response_bytes None STUN_VALIDATION_SUCCESS
    ex_client_after ex_response_msg STUN_RESPONSE); try (vm_compute; reflexivity).
  - apply (bool_decide_eq_true_1 _). vm_compute. reflexivity.
  - by left.
Defined.

Lemma ex_client_unique i j s t :
  ag_sent_ids ex_client !! i = Some s -> ag_sent_ids ex_client !! j = Some t ->
  si_valid s = true -> si_valid t = true -> i = j.
Proof.
  assert (H : forall i s, ag_sent_ids ex_client !! i = Some s -> si_valid s = true -> i = 0%nat).
  { assert (E : ag_sent_ids ex_client = ex_slot :: replicate 199 (mkSavedId [] 0 None [] false false)) by (vm_compute; reflexivity).
    rewrite E. intros [|k] u; [done|]. cbn [lookup list_lookup]. intros Hu Hv.
    apply lookup_replicate in Hu as [-> _]. discriminate Hv. }
  intros Hs Ht Hvs Hvt. by rewrite (H i s Hs Hvs), (H j t Ht Hvt).
Qed.

Lemma replayed_response_rejected_witness :
  exists r', stun_agent_validate ex_client_after ex_request ex_response_bytes (zlen ex_response_bytes) None =
    Ok (STUN_VALIDATION_UNMATCHED_RESPONSE, ex_client_after, r').
Proof.
  apply (replayed_response_rejected ex_client ex_request ex_response_bytes None STUN_VALIDATION_SUCCESS
    ex_client_after ex_response_msg STUN_RESPONSE); try (vm_compute; reflexivity).
  - apply (bool_decide_eq_true_1 _). vm_compute. reflexivity.
  - by left.
  - intros i j s t Hs Ht Hvs Hvt _ _. exact (ex_client_unique i j s t Hs Ht Hvs Hvt).
Defined.

Lemma accepted_request_is_authentic_witness :
  exists u f k, Some ex_validater = Some f /\
    f ex_agent (received ex_agent ex_request_bytes []) (Some u) None = (true, k) /\
    stun_message_has_attribute ex_request_msg STUN_ATTRIBUTE_USERNAME = Ok true /\
    (forall kv, k = Some kv -> 0 < zlen kv -> carries_mac ex_agent kv ex_request_bytes).
Proof.
  apply (accepted_request_is_authentic ex_agent ex_request ex_request_bytes (Some ex_validater) STUN_VALIDATION_SUCCESS
    ex_server_after ex_request_msg); try (vm_compute; reflexivity).
  apply (bool_decide_eq_true_1 _). vm_compute. reflexivity.
Defined.

Lemma accepted_response_is_authentic_witness :
  exists i s, ag_sent_ids ex_client !! i = Some s /\ si_valid s = true /\ stun_message_id ex_response_msg = Ok (si_id s) /\
    (forall kv, si_key s = Some kv -> 0 < zlen kv -> carries_mac ex_client kv ex_response_bytes).
Proof.
  apply (accepted_response_is_authentic ex_client ex_request ex_response_bytes None STUN_VALIDATION_SUCCESS
    ex_client_after ex_response_msg); try (vm_compute; reflexivity).
  apply (bool_decide_eq_true_1 _). vm_compute. reflexivity.
Defined.

Definition ex_full : StunAgent := set_sent_ids ex_agent (replicate 200 ex_slot).

Lemma full_table_drops_request_witness :
  stun_agent_finish_message ex_full ex_request (Some [112; 119]) = Ok (0, ex_full, ex_request).
Proof.
  apply (full_table_drops_request ex_full ex_request [0; 1] ex_tid [ex_user] 0 1); try (vm_compute; reflexivity).
  - by apply Forall_replicate.
  - exact ex_request_ok.
Defined.

Lemma forget_transaction_frees_witness :
  exists i s, ag_sent_ids ex_client !! i = Some s /\ si_valid s = true /\ si_id s = ex_tid /\
    snd (stun_agent_forget_transaction ex_client ex_tid) =
      set_sent_ids ex_client (<[i := set_valid s false]> (ag_sent_ids ex_client)) /\
    agent_ok (snd (stun_agent_forget_transaction ex_client ex_tid)).
Proof.
  pose proof (forget_transaction_frees ex_client ex_tid) as H.
  assert (E : fst (stun_agent_forget_transaction ex_client ex_tid) = true) by (vm_compute; reflexivity).
  destruct (stun_agent_forget_transaction ex_client ex_tid) as [found a']. cbn [fst snd] in E |- *. subst found.
  apply H. vm_compute. reflexivity.
Defined.
