(* ===== verification/StunTimer.v ===== *)
(** * The retransmission timer (usages/timer.c)

    The clock is an input: every operation that calls [stun_gettime] takes the
    time it returned.  [tv_sec] is a 64-bit count of seconds and is not
    bounded here; [delay] and the counters are 32-bit. *)
From S2P Require Import Prelude CMem.

(** ** The code *)

Record timeval : Set := mkTimeval { tv_sec : Z; tv_usec : Z }.

Record StunTimer : Set := mkTimer {
  tm_deadline : timeval;
  tm_delay : Z;
  tm_retransmissions : Z;
  tm_max_retransmissions : Z
}.

Inductive StunUsageTimerReturn : Set :=
  | STUN_USAGE_TIMER_RETURN_SUCCESS
  | STUN_USAGE_TIMER_RETURN_RETRANSMIT
  | STUN_USAGE_TIMER_RETURN_TIMEOUT.

#[global] Instance StunUsageTimerReturn_eq_dec : EqDecision StunUsageTimerReturn.
Proof. solve_decision. Defined.

Definition STUN_TIMER_DEFAULT_TIMEOUT : Z := 500.
Definition STUN_TIMER_DEFAULT_MAX_RETRANSMISSIONS : Z := 3.
Definition STUN_TIMER_DEFAULT_RELIABLE_TIMEOUT : Z := 2000.

(** [while (ts->tv_usec > 1000000)]; the sum of two values below a million
    needs at most one round. *)
Fixpoint normalise (fuel : nat) (ts : timeval) : res timeval :=
  if 1000000 <? tv_usec ts then
    match fuel with
    | O => Fault OutOfFuel
    | S fuel => normalise fuel (mkTimeval (tv_sec ts + 1) (tv_usec ts - 1000000))
    end
  else Ok ts.

Definition set_delay (now : timeval) (delay : Z) : res timeval :=
  normalise 2 (mkTimeval (tv_sec now + delay / 1000) (tv_usec now + (delay mod 1000) * 1000)).

Definition stun_timer_start (now : timeval) (initial_timeout max_retransmissions : Z) : res StunTimer :=
  deadline ← set_delay now initial_timeout;
  Ok (mkTimer deadline initial_timeout 1 max_retransmissions).

Definition stun_timer_start_reliable (now : timeval) (initial_timeout : Z) : res StunTimer :=
  stun_timer_start now initial_timeout 0.

(** [(signed) x / 1000] truncates towards zero. *)
Definition stun_timer_remainder (now : timeval) (timer : StunTimer) : Z :=
  if tv_sec (tm_deadline timer) <? tv_sec now then 0
  else
    let delay := u32 (tv_sec (tm_deadline timer) - tv_sec now) in
    if (delay =? 0) && (tv_usec (tm_deadline timer) <=? tv_usec now) then 0
    else u32 (u32 (delay * 1000) + Z.quot (s32 (tv_usec (tm_deadline timer) - tv_usec now)) 1000).

Definition stun_timer_refresh (now : timeval) (timer : StunTimer) : res (StunUsageTimerReturn * StunTimer) :=
  let delay := stun_timer_remainder now timer in
  if delay =? 0 then
    if tm_max_retransmissions timer <=? tm_retransmissions timer then
      Ok (STUN_USAGE_TIMER_RETURN_TIMEOUT, timer)
    else
      let d := if tm_retransmissions timer =? u32 (tm_max_retransmissions timer - 1)
               then tm_delay timer / 2 else u32 (tm_delay timer * 2) in
      deadline ← set_delay now d;
      Ok (STUN_USAGE_TIMER_RETURN_RETRANSMIT,
          mkTimer deadline d (u32 (tm_retransmissions timer + 1)) (tm_max_retransmissions timer))
  else Ok (STUN_USAGE_TIMER_RETURN_SUCCESS, timer).

(** ** Time in microseconds *)

Definition usecs (t : timeval) : Z := tv_sec t * 1000000 + tv_usec t.

(** A reading of the clock, and a deadline: [set_delay] may leave a full
    million in [tv_usec]. *)
Definition clock_ok (t : timeval) : Prop := 0 <= tv_usec t < 1000000.
Definition deadline_ok (t : timeval) : Prop := 0 <= tv_usec t <= 1000000.

Definition unsigned32 (x : Z) : Prop := 0 <= x < 4294967296.

Lemma set_delay_spec now d :
  clock_ok now -> 0 <= d ->
  exists t, set_delay now d = Ok t /\ usecs t = usecs now + d * 1000 /\ deadline_ok t.
Proof.
  unfold clock_ok, deadline_ok. intros Hn Hd. unfold set_delay.
  pose proof (Z.mod_pos_bound d 1000 ltac:(lia)) as Hm. pose proof (Z.div_mod d 1000 ltac:(lia)) as Hdm.
  cbn [normalise tv_usec tv_sec].
  destruct (Z.ltb_spec 1000000 (tv_usec now + d mod 1000 * 1000)); cbn [normalise tv_usec tv_sec].
  - destruct (Z.ltb_spec 1000000 (tv_usec now + d mod 1000 * 1000 - 1000000)); [lia|].
    eexists. split; [done|]. unfold usecs. cbn [tv_usec tv_sec]. lia.
  - eexists. split; [done|]. unfold usecs. cbn [tv_usec tv_sec]. lia.
Qed.

(** What [stun_timer_remainder] returns for a deadline at most about 24 days
    away. *)
Lemma remainder_spec now timer :
  clock_ok now -> deadline_ok (tm_deadline timer) ->
  tv_sec (tm_deadline timer) - tv_sec now <= 2147486 ->
  let left := usecs (tm_deadline timer) - usecs now in
  let r := stun_timer_remainder now timer in
  (left <= 0 -> r = 0) /\ (0 <= left -> left - 1000 < r * 1000 < left + 1000).
Proof.
  intros Hn Hok Hsm. unfold clock_ok, deadline_ok, usecs in *. unfold stun_timer_remainder.
  destruct (tm_deadline timer) as [ts tu]. cbn [tv_sec tv_usec] in *.
  destruct (Z.ltb_spec ts (tv_sec now)) as [Hs|Hs]; [split; intros; lia|].
  rewrite (u32_small (ts - tv_sec now)) by lia.
  rewrite (u32_small ((ts - tv_sec now) * 1000)) by lia.
  rewrite s32_small by lia. pose proof (Z.quot_rem' (tu - tv_usec now) 1000) as Hq.
  pose proof (Z.rem_bound_abs (tu - tv_usec now) 1000 ltac:(lia)) as Hb.
  destruct (Z.eqb_spec (ts - tv_sec now) 0) as [E0|E0];
    destruct (Z.leb_spec tu (tv_usec now)); cbn [andb];
    try (split; intros; lia); rewrite ?(u32_small (_ + _)) by (Z.to_euclidean_division_equations; lia);
    split; intros; lia.
Qed.

(** Starting a timer sets its deadline exactly the initial timeout after
    the current time, and [stun_timer_remainder] tells how many milliseconds
    are left with an error of less than one: 0 is only returned when less than
    a millisecond is left, so a timer never expires a millisecond early, and
    it is returned as soon as the deadline has passed. *)
Theorem remainder_accurate now now' d n :
  clock_ok now -> clock_ok now' -> 0 <= d < 2 ^ 31 -> tv_sec now <= tv_sec now' ->
  exists timer, stun_timer_start now d n = Ok timer /\
    usecs (tm_deadline timer) = usecs now + d * 1000 /\
    let left := usecs (tm_deadline timer) - usecs now' in
    let r := stun_timer_remainder now' timer in
    (left <= 0 -> r = 0) /\ (0 <= left -> left - 1000 < r * 1000 < left + 1000).
Proof.
  intros Hn Hn' Hd Hmono. unfold stun_timer_start.
  destruct (set_delay_spec now d Hn) as (t & -> & Ht & Hok); [lia|]. cbn [mbind res_bind].
  eexists. split; [done|]. split; [done|]. apply remainder_spec; [done..|].
  cbn [tm_deadline]. unfold clock_ok, deadline_ok, usecs in *. lia.
Qed.

Lemma remainder_accurate_witness :
  exists timer, stun_timer_start (mkTimeval 7 600000) 500 3 = Ok timer /\
    usecs (tm_deadline timer) = 8100000 /\
    (usecs (tm_deadline timer) - 7900000 <= 0 -> stun_timer_remainder (mkTimeval 7 900000) timer = 0) /\
    (0 <= usecs (tm_deadline timer) - 7900000 ->
      usecs (tm_deadline timer) - 7900000 - 1000 < stun_timer_remainder (mkTimeval 7 900000) timer * 1000 <
      usecs (tm_deadline timer) - 7900000 + 1000).
Proof.
  apply (remainder_accurate (mkTimeval 7 600000) (mkTimeval 7 900000) 500 3); vm_compute; try done;
    split; try done; discriminate.
Defined.

(** ** Polling the timer *)

(** The loop of a user of the timer: refresh at each of the given times until
    the timer reports a timeout. *)
Fixpoint timer_run (nows : list timeval) (timer : StunTimer) : res (list StunUsageTimerReturn) :=
  match nows with
  | [] => Ok []
  | now :: nows =>
      '(r, timer) ← stun_timer_refresh now timer;
      if bool_decide (r = STUN_USAGE_TIMER_RETURN_TIMEOUT) then Ok [r]
      else rs ← timer_run nows timer; Ok (r :: rs)
  end.

Definition retransmits (rs : list StunUsageTimerReturn) : Z :=
  zlen (List.filter (fun r => bool_decide (r = STUN_USAGE_TIMER_RETURN_RETRANSMIT)) rs).

Lemma timer_run_spec nows timer :
  Forall clock_ok nows -> 0 <= tm_delay timer -> 0 <= tm_max_retransmissions timer < 4294967296 ->
  1 <= tm_retransmissions timer <= Z.max 1 (tm_max_retransmissions timer) ->
  exists rs, timer_run nows timer = Ok rs /\
    tm_retransmissions timer + retransmits rs <= Z.max 1 (tm_max_retransmissions timer) /\
    (In STUN_USAGE_TIMER_RETURN_TIMEOUT rs ->
      tm_retransmissions timer + retransmits rs = Z.max 1 (tm_max_retransmissions timer)).
Proof.
  intros Hn. revert timer. induction Hn as [|now nows Hnow _ IH]; intros timer Hd Hmax Hre.
  { exists []. split; [done|]. change (retransmits []) with 0. split; [lia|done]. }
  cbn [timer_run]. unfold stun_timer_refresh. destruct (stun_timer_remainder now timer =? 0).
  - destruct (Z.leb_spec (tm_max_retransmissions timer) (tm_retransmissions timer)) as [Hle|Hlt].
    + eexists. split; [done|]. change (retransmits _) with 0. lia.
    + match goal with |- context [set_delay now ?e] => set (d := e) end.
      assert (Hd0 : 0 <= d) by (unfold d; destruct (_ =? _); [apply Z.div_pos; lia|apply u32_range]).
      destruct (set_delay_spec now d Hnow Hd0) as (t & -> & _). cbn [mbind res_bind].
      rewrite bool_decide_eq_false_2 by done. rewrite u32_small by lia.
      destruct (IH (mkTimer t d (tm_retransmissions timer + 1) (tm_max_retransmissions timer)))
        as (rs & -> & Hc & Hto); cbn [tm_delay tm_retransmissions tm_max_retransmissions] in *; try lia.
      cbn [mbind res_bind]. eexists. split; [done|].
      change (retransmits (STUN_USAGE_TIMER_RETURN_RETRANSMIT :: rs)) with (zlen (STUN_USAGE_TIMER_RETURN_RETRANSMIT ::
        List.filter (fun r => bool_decide (r = STUN_USAGE_TIMER_RETURN_RETRANSMIT)) rs)). rewrite zlen_cons. fold (retransmits rs).
      split; [lia|]. intros [?|Hin]; [done|]. specialize (Hto Hin). lia.
  - cbn [mbind res_bind]. rewrite bool_decide_eq_false_2 by done.
    destruct (IH timer Hd Hmax Hre) as (rs & -> & Hc & Hto). cbn [mbind res_bind]. eexists. split; [done|].
    change (retransmits (STUN_USAGE_TIMER_RETURN_SUCCESS :: rs)) with (retransmits rs).
    split; [lia|]. intros [?|Hin]; [done|auto].
Qed.

(** C33: whenever and however often the timer is polled, it asks for at most
    [max_retransmissions - 1] retransmissions, so the request goes out at most
    [max_retransmissions] times, and it reports the timeout only after it
    asked for all of them. *)
Theorem timer_transmission_count now nows d n :
  clock_ok now -> Forall clock_ok nows -> 0 <= d -> 1 <= n < 2 ^ 32 ->
  exists timer rs, stun_timer_start now d n = Ok timer /\ timer_run nows timer = Ok rs /\
    1 + retransmits rs <= n /\ (In STUN_USAGE_TIMER_RETURN_TIMEOUT rs -> 1 + retransmits rs = n).
Proof.
  intros Hn Hnows Hd Hmax. unfold stun_timer_start.
  destruct (set_delay_spec now d Hn Hd) as (t & -> & _). cbn [mbind res_bind].
  destruct (timer_run_spec nows (mkTimer t d 1 n)) as (rs & Hr & Hc & Hto); cbn; try done; try lia.
  cbn in Hc, Hto. do 2 eexists. split; [done|]. split; [exact Hr|]. split; [lia|]. intros Hin. specialize (Hto Hin). lia.
Qed.

Lemma timer_transmission_count_witness :
  exists timer rs, stun_timer_start (mkTimeval 7 600000) 500 3 = Ok timer /\
    timer_run [mkTimeval 8 200000; mkTimeval 8 300000; mkTimeval 9 500000; mkTimeval 10 0] timer = Ok rs /\
    1 + retransmits rs <= 3 /\ (In STUN_USAGE_TIMER_RETURN_TIMEOUT rs -> 1 + retransmits rs = 3).
Proof.
  apply (timer_transmission_count (mkTimeval 7 600000)
    [mkTimeval 8 200000; mkTimeval 8 300000; mkTimeval 9 500000; mkTimeval 10 0] 500 3); try lia;
    repeat constructor; vm_compute; try done; discriminate.
Defined.

(** ** The schedule *)

Definition clock_of (t : timeval) : timeval :=
  if tv_usec t =? 1000000 then mkTimeval (tv_sec t + 1) 0 else t.

(** The delays before each expiry, when the timer is refreshed as soon as it
    expires. *)
Fixpoint schedule (fuel : nat) (timer : StunTimer) : res (list Z) :=
  match fuel with
  | O => Fault OutOfFuel
  | S fuel =>
      '(r, timer') ← stun_timer_refresh (clock_of (tm_deadline timer)) timer;
      match r with
      | STUN_USAGE_TIMER_RETURN_TIMEOUT => Ok [tm_delay timer]
      | STUN_USAGE_TIMER_RETURN_RETRANSMIT => ds ← schedule fuel timer'; Ok (tm_delay timer :: ds)
      | STUN_USAGE_TIMER_RETURN_SUCCESS => Fault AssertFailed
      end
  end.

Definition sum (l : list Z) : Z := foldr Z.add 0 l.

Lemma clock_of_ok t : deadline_ok t -> clock_ok (clock_of t) /\ usecs (clock_of t) = usecs t.
Proof.
  unfold deadline_ok, clock_ok, clock_of, usecs. intros.
  destruct (Z.eqb_spec (tv_usec t) 1000000); cbn; lia.
Qed.

Lemma schedule_spec j timer fuel :
  deadline_ok (tm_deadline timer) -> 1 <= tm_retransmissions timer ->
  tm_retransmissions timer + Z.of_nat j + 1 = tm_max_retransmissions timer -> tm_max_retransmissions timer < 2 ^ 31 ->
  0 <= tm_delay timer -> tm_delay timer * 2 ^ Z.of_nat j < 4294967296 -> (j + 1 < fuel)%nat ->
  exists ds, schedule fuel timer = Ok ds /\ length ds = (j + 2)%nat /\
    sum ds = tm_delay timer * (2 ^ (Z.of_nat j + 1) - 1) + tm_delay timer * 2 ^ Z.of_nat j / 2.
Proof.
  revert timer fuel. induction j as [|j IH]; intros timer fuel Hdl Hre Hmax Hm31 Hd H32 Hf;
    (destruct fuel as [|fuel]; [lia|]); cbn [schedule];
    destruct (clock_of_ok _ Hdl) as [Hc Hu];
    (destruct (remainder_spec (clock_of (tm_deadline timer)) timer Hc Hdl) as [Hr _];
      [unfold clock_of; destruct (_ =? _); cbn; lia|]); rewrite Hu in Hr; specialize (Hr ltac:(lia));
    unfold stun_timer_refresh; rewrite Hr; cbn [Z.eqb];
    (destruct (Z.leb_spec (tm_max_retransmissions timer) (tm_retransmissions timer)); [lia|]);
    rewrite (u32_small (tm_max_retransmissions timer - 1)) by lia.
  - destruct (Z.eqb_spec (tm_retransmissions timer) (tm_max_retransmissions timer - 1)); [|lia].
    destruct (set_delay_spec _ (tm_delay timer / 2) Hc) as (t & -> & _ & Ht); [apply Z.div_pos; lia|].
    cbn [mbind res_bind]. destruct fuel as [|fuel]; [lia|]. cbn [schedule tm_deadline].
    destruct (clock_of_ok _ Ht) as [Hc' Hu']. unfold stun_timer_refresh.
    edestruct remainder_spec as [Hr' _]; [exact Hc'| |
      |rewrite Hr'; [|cbn [tm_deadline]; rewrite Hu'; lia]]; [exact Ht|
      cbn; unfold clock_of; destruct (tv_usec t =? _); cbn; lia|].
    cbn [Z.eqb tm_retransmissions tm_max_retransmissions tm_delay]. rewrite u32_small by lia.
    destruct (Z.leb_spec (tm_max_retransmissions timer) (tm_retransmissions timer + 1)); [|lia].
    cbn [mbind res_bind]. eexists. split; [done|]. split; [done|]. unfold sum; cbn [foldr].
    change (2 ^ Z.of_nat 0) with 1. change (2 ^ (Z.of_nat 0 + 1)) with 2. rewrite !Z.mul_1_r. lia.
  - assert (Hp : 2 ^ Z.of_nat (S j) = 2 * 2 ^ Z.of_nat j) by (rewrite Nat2Z.inj_succ, Z.pow_succ_r by lia; lia).
    assert (Hp1 : 2 ^ (Z.of_nat (S j) + 1) = 2 * 2 ^ (Z.of_nat j + 1))
      by (replace (Z.of_nat (S j) + 1) with (Z.succ (Z.of_nat j + 1)) by lia; apply Z.pow_succ_r; lia).
    assert (Hpos : 1 <= 2 ^ Z.of_nat j) by (pose proof (Z.pow_pos_nonneg 2 (Z.of_nat j)); lia).
    destruct (Z.eqb_spec (tm_retransmissions timer) (tm_max_retransmissions timer - 1)); [lia|].
    rewrite (u32_small (tm_delay timer * 2)) by nia.
    destruct (set_delay_spec _ (tm_delay timer * 2) Hc) as (t & -> & _ & Ht); [lia|]. cbn [mbind res_bind].
    rewrite u32_small by lia.
    destruct (IH (mkTimer t (tm_delay timer * 2) (tm_retransmissions timer + 1) (tm_max_retransmissions timer)) fuel)
      as (ds & -> & Hl & Hsum); cbn [tm_deadline tm_retransmissions tm_max_retransmissions tm_delay] in *; try done; try lia.
    cbn [mbind res_bind]. eexists. split; [done|]. split; [simpl; lia|].
    change (sum (tm_delay timer :: ds)) with (tm_delay timer + sum ds). rewrite Hsum, Hp, Hp1.
    replace (tm_delay timer * 2 * 2 ^ Z.of_nat j) with (tm_delay timer * (2 * 2 ^ Z.of_nat j)) by lia. nia.
Qed.


