(* ===== verification/StunIce.v ===== *)
(** * Connectivity checks and binding discovery (usages/ice.c, usages/bind.c)

    Construction and processing of the Binding requests of ICE connectivity
    checks, of their replies with the handling of role conflicts, and of plain
    binding discovery.  [package_string] is the build's PACKAGE_STRING and
    [transid] the random transaction id, as in [StunAgent]. *)
From S2P Require Import Prelude CMem StunTypes StunMessage StunCrc32 StunAgent.

Inductive StunUsageIceCompatibility : Set :=
  | STUN_USAGE_ICE_COMPATIBILITY_RFC5245
  | STUN_USAGE_ICE_COMPATIBILITY_GOOGLE
  | STUN_USAGE_ICE_COMPATIBILITY_MSN
  | STUN_USAGE_ICE_COMPATIBILITY_MSICE2.

Inductive StunUsageIceReturn : Set :=
  | STUN_USAGE_ICE_RETURN_SUCCESS
  | STUN_USAGE_ICE_RETURN_ERROR
  | STUN_USAGE_ICE_RETURN_INVALID
  | STUN_USAGE_ICE_RETURN_ROLE_CONFLICT
  | STUN_USAGE_ICE_RETURN_INVALID_REQUEST
  | STUN_USAGE_ICE_RETURN_INVALID_METHOD
  | STUN_USAGE_ICE_RETURN_MEMORY_ERROR
  | STUN_USAGE_ICE_RETURN_INVALID_ADDRESS
  | STUN_USAGE_ICE_RETURN_NO_MAPPED_ADDRESS.

Inductive StunUsageBindReturn : Set :=
  | STUN_USAGE_BIND_RETURN_SUCCESS
  | STUN_USAGE_BIND_RETURN_ERROR
  | STUN_USAGE_BIND_RETURN_INVALID
  | STUN_USAGE_BIND_RETURN_ALTERNATE_SERVER
  | STUN_USAGE_BIND_RETURN_TIMEOUT.

#[global] Instance StunUsageIceCompatibility_eq_dec : EqDecision StunUsageIceCompatibility.
Proof. solve_decision. Defined.
#[global] Instance StunUsageIceReturn_eq_dec : EqDecision StunUsageIceReturn.
Proof. solve_decision. Defined.

Definition is_success (r : StunMessageReturn) : bool := bool_decide (r = STUN_MESSAGE_RETURN_SUCCESS).

Definition with_role (c : StunUsageIceCompatibility) : bool :=
  bool_decide (c = STUN_USAGE_ICE_COMPATIBILITY_RFC5245) || bool_decide (c = STUN_USAGE_ICE_COMPATIBILITY_MSICE2).

(** A sequence of appends of which the first failure ends the function with
    size 0: [if (val != STUN_MESSAGE_RETURN_SUCCESS) return 0]. *)
Definition step_append (append : StunMessage -> res (StunMessageReturn * StunMessage))
    (st : bool * StunMessage) : res (bool * StunMessage) :=
  let '(ok, msg) := st in
  if (ok : bool) then '(val, msg) ← append msg; Ok (is_success val, msg) else Ok (false, msg).

Definition skip_append (cond : bool) (append : StunMessage -> res (StunMessageReturn * StunMessage))
    (st : bool * StunMessage) : res (bool * StunMessage) :=
  if cond then step_append append st else Ok st.

Section usages.
Context {CL : CryptoLib} (package_string : list Z).

(** MS-ICE2: the candidate identifier, zero-padded to a multiple of four. *)
Definition padded_identifier (identifier : list Z) : list Z :=
  let modulo4 := zlen identifier mod 4 in
  identifier ++ (if modulo4 =? 0 then [] else replicate (Z.to_nat (4 - modulo4)) 0).

Definition stun_usage_ice_conncheck_create (transid : list Z) (a : StunAgent) (msg : StunMessage)
    (buf : list Z) (buf_len : Z) (username password : option (list Z)) (cand_use controlling : bool)
    (priority tie : Z) (candidate_identifier : option (list Z)) (compat : StunUsageIceCompatibility)
    : res (Z * StunAgent * StunMessage) :=
  '(_, msg) ← stun_agent_init_request package_string transid a msg buf buf_len STUN_BINDING;
  st ← skip_append (with_role compat && cand_use)
         (fun m => stun_message_append_flag m STUN_ATTRIBUTE_USE_CANDIDATE) (true, msg);
  st ← skip_append (with_role compat) (fun m => stun_message_append32 m STUN_ATTRIBUTE_PRIORITY priority) st;
  st ← skip_append (with_role compat)
         (fun m => stun_message_append64 m (if controlling then STUN_ATTRIBUTE_ICE_CONTROLLING
                                            else STUN_ATTRIBUTE_ICE_CONTROLLED) tie) st;
  st ← (match username with
        | Some u => skip_append (0 <? zlen u) (fun m => stun_message_append_bytes m STUN_ATTRIBUTE_USERNAME u) st
        | None => Ok st end);
  st ← (match candidate_identifier with
        | Some i =>
            if bool_decide (compat = STUN_USAGE_ICE_COMPATIBILITY_MSICE2) then
              st ← step_append (fun m => stun_message_append_bytes m STUN_ATTRIBUTE_CANDIDATE_IDENTIFIER
                                           (padded_identifier i)) st;
              step_append (fun m => stun_message_append32 m STUN_ATTRIBUTE_MS_IMPLEMENTATION_VERSION 2) st
            else Ok st
        | None => Ok st end);
  let '(ok, msg) := st in
  if negb ok then Ok (0, a, msg) else stun_agent_finish_message a msg password.

(** The cookie that MSN peers take from the transaction id. *)
Definition msn_cookie (id : list Z) : Z := htonl (le_value (take 4 id)).

(** Returns the result, [*addr] and [*addrlen]. *)
Definition stun_usage_ice_conncheck_process (msg : StunMessage) (addr : sockaddr) (addrlen : Z)
    (compat : StunUsageIceCompatibility) : res (StunUsageIceReturn * sockaddr * Z) :=
  meth ← stun_message_get_method msg;
  if negb (meth =? STUN_BINDING) then Ok (STUN_USAGE_ICE_RETURN_INVALID, addr, addrlen)
  else
    c ← stun_message_get_class msg;
    match c with
    | STUN_REQUEST | STUN_INDICATION => Ok (STUN_USAGE_ICE_RETURN_INVALID, addr, addrlen)
    | STUN_ERROR =>
        '(val, code) ← stun_message_find_error msg;
        match val, code with
        | STUN_MESSAGE_RETURN_SUCCESS, Some code =>
            Ok (if code =? STUN_ERROR_ROLE_CONFLICT then STUN_USAGE_ICE_RETURN_ROLE_CONFLICT
                else STUN_USAGE_ICE_RETURN_ERROR, addr, addrlen)
        | _, _ => Ok (STUN_USAGE_ICE_RETURN_INVALID, addr, addrlen)
        end
    | STUN_RESPONSE =>
        '(val, addr, addrlen) ←
          (if bool_decide (compat = STUN_USAGE_ICE_COMPATIBILITY_MSN) then
             id ← stun_message_id msg;
             stun_message_find_xor_addr_full msg STUN_ATTRIBUTE_XOR_MAPPED_ADDRESS addr addrlen (msn_cookie id)
           else stun_message_find_xor_addr msg STUN_ATTRIBUTE_XOR_MAPPED_ADDRESS addr addrlen);
        if negb (is_success val) then
          '(val, addr, addrlen) ← stun_message_find_addr msg STUN_ATTRIBUTE_MAPPED_ADDRESS addr addrlen;
          Ok (if is_success val then STUN_USAGE_ICE_RETURN_SUCCESS
              else STUN_USAGE_ICE_RETURN_NO_MAPPED_ADDRESS, addr, addrlen)
        else Ok (STUN_USAGE_ICE_RETURN_SUCCESS, addr, addrlen)
    end.

(** Returns [*plen], the agent and the message. *)
Definition stun_bind_error (a : StunAgent) (msg : StunMessage) (buf : list Z) (len : Z)
    (req : StunMessage) (code : Z) : res (Z * StunAgent * StunMessage) :=
  '(val, msg) ← stun_agent_init_error package_string a msg buf len req code;
  if negb val then Ok (0, a, msg) else stun_agent_finish_message a msg None.

(** Lines 376-392, with [*plen] still 0. *)
Definition reply_failure (val : StunMessageReturn) : res StunUsageIceReturn :=
  match val with
  | STUN_MESSAGE_RETURN_NOT_ENOUGH_SPACE => Ok STUN_USAGE_ICE_RETURN_MEMORY_ERROR
  | STUN_MESSAGE_RETURN_INVALID | STUN_MESSAGE_RETURN_UNSUPPORTED_ADDRESS =>
      Ok STUN_USAGE_ICE_RETURN_INVALID_ADDRESS
  | STUN_MESSAGE_RETURN_SUCCESS => Fault AssertFailed
  | STUN_MESSAGE_RETURN_NOT_FOUND => Ok STUN_USAGE_ICE_RETURN_ERROR
  end.

(** What a check tells about the roles: a conflict when it carries the role
    this agent has. *)
Inductive role_decision : Set := RoleKeep | RoleSwitch | RoleRefuse.

(** Lines 275-315. *)
Definition role_conflict (req : StunMessage) (control : bool) (tie : Z) : res role_decision :=
  '(val, q) ← stun_message_find64 req (if control then STUN_ATTRIBUTE_ICE_CONTROLLING
                                       else STUN_ATTRIBUTE_ICE_CONTROLLED);
  match val, q with
  | STUN_MESSAGE_RETURN_SUCCESS, Some q =>
      Ok (if ((tie <? q) && control) || ((q <=? tie) && negb control) then RoleSwitch else RoleRefuse)
  | _, _ =>
      _ ← stun_message_find64 req (if control then STUN_ATTRIBUTE_ICE_CONTROLLED
                                   else STUN_ATTRIBUTE_ICE_CONTROLLING);
      Ok RoleKeep
  end.

(** Lines 317-374: the success response. *)
Definition build_reply (a : StunAgent) (req msg : StunMessage) (buf : list Z) (len : Z)
    (src : sockaddr) (srclen : Z) (compat : StunUsageIceCompatibility) (ret : StunUsageIceReturn)
    : res (StunUsageIceReturn * Z * StunAgent * StunMessage) :=
  '(ok, msg) ← stun_agent_init_response package_string a msg buf len req;
  if negb ok then
    r ← reply_failure STUN_MESSAGE_RETURN_SUCCESS; Ok (r, 0, a, msg)
  else
    '(val, msg) ←
      (if bool_decide (compat = STUN_USAGE_ICE_COMPATIBILITY_MSN) then
         id ← stun_message_id msg;
         stun_message_append_xor_addr_full msg STUN_ATTRIBUTE_XOR_MAPPED_ADDRESS src srclen (msn_cookie id)
       else
         cookie ← stun_message_has_cookie msg;
         if cookie && negb (bool_decide (compat = STUN_USAGE_ICE_COMPATIBILITY_GOOGLE)) then
           stun_message_append_xor_addr msg STUN_ATTRIBUTE_XOR_MAPPED_ADDRESS src srclen
         else stun_message_append_addr msg STUN_ATTRIBUTE_MAPPED_ADDRESS src srclen);
    if negb (is_success val) then r ← reply_failure val; Ok (r, 0, a, msg)
    else
      u ← stun_message_find req STUN_ATTRIBUTE_USERNAME;
      '(val, msg) ←
        (match u with
         | Some (p, n) =>
             username ← rd_bytes (buffer req) p n;
             stun_message_append_bytes msg STUN_ATTRIBUTE_USERNAME username
         | None => Ok (val, msg)
         end);
      if negb (is_success val) then r ← reply_failure val; Ok (r, 0, a, msg)
      else
        '(val, msg) ←
          (if bool_decide (compat = STUN_USAGE_ICE_COMPATIBILITY_MSICE2) then
             stun_message_append32 msg STUN_ATTRIBUTE_MS_IMPLEMENTATION_VERSION 2
           else Ok (val, msg));
        if negb (is_success val) then r ← reply_failure val; Ok (r, 0, a, msg)
        else
          '(len, a, msg) ← stun_agent_finish_message a msg None;
          if len =? 0 then r ← reply_failure val; Ok (r, 0, a, msg)
          else Ok (ret, len, a, msg).

(** Returns the result, [*plen], [*control], the agent and the message. *)
Definition stun_usage_ice_conncheck_create_reply (a : StunAgent) (req msg : StunMessage)
    (buf : list Z) (plen : Z) (src : sockaddr) (srclen : Z) (control : bool) (tie : Z)
    (compat : StunUsageIceCompatibility)
    : res (StunUsageIceReturn * Z * bool * StunAgent * StunMessage) :=
  c ← stun_message_get_class req;
  if negb (bool_decide (c = STUN_REQUEST)) then
    Ok (STUN_USAGE_ICE_RETURN_INVALID_REQUEST, 0, control, a, msg)
  else
    meth ← stun_message_get_method req;
    if negb (meth =? STUN_BINDING) then
      '(len, a, msg) ← stun_bind_error a msg buf plen req STUN_ERROR_BAD_REQUEST;
      Ok (STUN_USAGE_ICE_RETURN_INVALID_METHOD, len, control, a, msg)
    else
      d ← role_conflict req control tie;
      match d with
      | RoleRefuse =>
          '(len, a, msg) ← stun_bind_error a msg buf plen req STUN_ERROR_ROLE_CONFLICT;
          Ok (STUN_USAGE_ICE_RETURN_ROLE_CONFLICT, len, control, a, msg)
      | RoleSwitch =>
          '(ret, len, a, msg) ← build_reply a req msg buf plen src srclen compat STUN_USAGE_ICE_RETURN_ROLE_CONFLICT;
          Ok (ret, len, negb control, a, msg)
      | RoleKeep =>
          '(ret, len, a, msg) ← build_reply a req msg buf plen src srclen compat STUN_USAGE_ICE_RETURN_SUCCESS;
          Ok (ret, len, control, a, msg)
      end.

Definition stun_usage_ice_conncheck_priority (msg : StunMessage) : res Z :=
  '(val, v) ← stun_message_find32 msg STUN_ATTRIBUTE_PRIORITY;
  Ok (match val, v with STUN_MESSAGE_RETURN_SUCCESS, Some v => v | _, _ => 0 end).

Definition stun_usage_ice_conncheck_use_candidate (msg : StunMessage) : res bool :=
  val ← stun_message_find_flag msg STUN_ATTRIBUTE_USE_CANDIDATE; Ok (is_success val).

(** ** Binding discovery *)

Definition stun_usage_bind_create (transid : list Z) (a : StunAgent) (msg : StunMessage) (buf : list Z)
    (buf_len : Z) : res (Z * StunAgent * StunMessage) :=
  '(_, msg) ← stun_agent_init_request package_string transid a msg buf buf_len STUN_BINDING;
  stun_agent_finish_message a msg None.

Definition stun_usage_bind_keepalive (transid : list Z) (a : StunAgent) (msg : StunMessage) (buf : list Z)
    (len : Z) : res (Z * StunAgent * StunMessage) :=
  '(_, msg) ← stun_agent_init_indication transid a msg buf len STUN_BINDING;
  stun_agent_finish_message a msg None.

(** Returns the result, [*addr], [*addrlen] and the alternate server (with its
    size), which is [None] when the caller passed a null pointer. *)
Definition stun_usage_bind_process (msg : StunMessage) (addr : sockaddr) (addrlen : Z)
    (alternate_server : option (sockaddr * Z))
    : res (StunUsageBindReturn * sockaddr * Z * option (sockaddr * Z)) :=
  meth ← stun_message_get_method msg;
  if negb (meth =? STUN_BINDING) then Ok (STUN_USAGE_BIND_RETURN_INVALID, addr, addrlen, alternate_server)
  else
    c ← stun_message_get_class msg;
    match c with
    | STUN_REQUEST | STUN_INDICATION => Ok (STUN_USAGE_BIND_RETURN_INVALID, addr, addrlen, alternate_server)
    | STUN_ERROR =>
        '(val, code) ← stun_message_find_error msg;
        match val, code with
        | STUN_MESSAGE_RETURN_SUCCESS, Some code =>
            if Z.quot code 100 =? 3 then
              match alternate_server with
              | Some (alt, altlen) =>
                  '(val, alt, altlen) ← stun_message_find_addr msg STUN_ATTRIBUTE_ALTERNATE_SERVER alt altlen;
                  Ok (if is_success val then STUN_USAGE_BIND_RETURN_ALTERNATE_SERVER
                      else STUN_USAGE_BIND_RETURN_ERROR, addr, addrlen, Some (alt, altlen))
              | None =>
                  has ← stun_message_has_attribute msg STUN_ATTRIBUTE_ALTERNATE_SERVER;
                  Ok (if has : bool then STUN_USAGE_BIND_RETURN_ALTERNATE_SERVER
                      else STUN_USAGE_BIND_RETURN_ERROR, addr, addrlen, None)
              end
            else Ok (STUN_USAGE_BIND_RETURN_ERROR, addr, addrlen, alternate_server)
        | _, _ => Ok (STUN_USAGE_BIND_RETURN_INVALID, addr, addrlen, alternate_server)
        end
    | STUN_RESPONSE =>
        '(val, addr, addrlen) ← stun_message_find_xor_addr msg STUN_ATTRIBUTE_XOR_MAPPED_ADDRESS addr addrlen;
        if negb (is_success val) then
          '(val, addr, addrlen) ← stun_message_find_addr msg STUN_ATTRIBUTE_MAPPED_ADDRESS addr addrlen;
          Ok (if is_success val then STUN_USAGE_BIND_RETURN_SUCCESS else STUN_USAGE_BIND_RETURN_ERROR,
              addr, addrlen, alternate_server)
        else Ok (STUN_USAGE_BIND_RETURN_SUCCESS, addr, addrlen, alternate_server)
    end.
End usages.
