(* ===== verification/StunIceProps.v ===== *)
(** * Theorems about ICE connectivity checks

    A check that passed validation is answered, the answer tells its sender
    the address the check came from, and a role conflict ends with the two
    agents in different roles. *)
From stdpp Require Import sets.
From S2P Require Import Prelude CMem StunTypes StunMessage StunWire StunAppend StunAccess StunCrc32 StunAgent StunIntegrity StunAgentSpec StunAgentProps StunIce.

Section reply.
Context {CL : CryptoLib} (package_string : list Z).

(** ** Steps of building a reply *)

(** The agent adds no SOFTWARE attribute. *)
Definition no_software (a : StunAgent) : Prop :=
  ag_software_attribute a = None /\ agent_flag a STUN_AGENT_USAGE_ADD_SOFTWARE = false.

Lemma add_software_none a m : no_software a -> add_software package_string a m = Ok m.
Proof. intros [H1 H2]. unfold add_software. rewrite H1, H2. by rewrite andb_false_r. Qed.

Definition reply_to (a : StunAgent) (req : StunMessage) (buf : list Z) (b : list Z) : StunMessage :=
  mkMessage (Some (ag_info a)) b (zlen buf) (key req) (long_term_key req) (long_term_valid req).

Definition buffer_ok (buf : list Z) : Prop :=
  bytes buf /\ zlen buf mod 4 = 0 /\ 20 <= zlen buf.

Lemma init_reply_spec a req ty id attrs rest x y msg buf c :
  msg_repr req ty id attrs rest -> ty = [x; y] -> class_of_type (x * 256 + y) = STUN_REQUEST -> buffer_ok buf ->
  c = STUN_RESPONSE \/ c = STUN_ERROR ->
  exists b, msg_ok (reply_to a req buf b) (type_bytes c (method_of_type (x * 256 + y))) id [] /\
    (c' ← stun_message_get_class req;
     if negb (bool_decide (c' = STUN_REQUEST)) then Ok (false, msg)
     else
       id ← stun_message_id req; meth ← stun_message_get_method req;
       stun_message_init (mkMessage (Some (ag_info a)) buf (zlen buf) (key req) (long_term_key req)
         (long_term_valid req)) c meth id) = Ok (true, reply_to a req buf b).
Proof.
  intros Hr Ht Hc (Hb & H4 & H20) Hcl. destruct (repr_class _ _ _ _ _ _ _ Hr Ht) as [-> ->].
  rewrite Hc, (repr_id Hr). cbn [mbind res_bind negb]. rewrite bool_decide_eq_true_2 by done. cbn [negb].
  pose proof Hr as [Hbu _ Hid _ _ Hbs]. rewrite Hbu, !bytes_app in Hbs.
  pose proof (init_spec (reply_to a req buf buf) c (method_of_type (x * 256 + y)) id Hb) as Hi.
  destruct (Z.ltb_spec (buffer_len (reply_to a req buf buf)) 20) as [Hlt|_]; [cbn in Hlt; lia|].
  destruct Hi as (m' & Hi & Hok & (H1 & H2 & H3 & H5 & H6)); [apply Hbs|done|done|done|].
  exists (buffer m'). destruct m' as [ag bu bl ky lk lv]. cbn in H1, H2, H3, H5, H6 |- *. subst.
  split; [exact Hok|exact Hi].
Qed.

Lemma init_response_spec a req ty id attrs rest x y msg buf :
  msg_repr req ty id attrs rest -> ty = [x; y] -> class_of_type (x * 256 + y) = STUN_REQUEST -> buffer_ok buf ->
  no_software a ->
  exists b, msg_ok (reply_to a req buf b) (type_bytes STUN_RESPONSE (method_of_type (x * 256 + y))) id [] /\
    stun_agent_init_response package_string a msg buf (zlen buf) req = Ok (true, reply_to a req buf b).
Proof.
  intros Hr Ht Hc Hb Hs. destruct (init_reply_spec a req ty id attrs rest x y msg buf STUN_RESPONSE)
    as (b & Hok & E); auto. exists b. split; [done|]. unfold stun_agent_init_response.
  destruct (stun_message_get_class req) as [c'|]; [|done]. cbn [mbind res_bind] in *.
  destruct (negb _); [done|]. destruct (stun_message_id req); [|done]. cbn [mbind res_bind] in *.
  destruct (stun_message_get_method req); [|done]. cbn [mbind res_bind] in *. rewrite E. cbn [mbind res_bind].
  by rewrite add_software_none.
Qed.

Lemma init_error_spec a req ty id attrs rest x y msg buf err :
  msg_repr req ty id attrs rest -> ty = [x; y] -> class_of_type (x * 256 + y) = STUN_REQUEST -> buffer_ok buf ->
  no_software a -> 60 <= zlen buf -> cookie_id id = true ->
  exists b pad, msg_ok (reply_to a req buf b) (type_bytes STUN_ERROR (method_of_type (x * 256 + y))) id
      [mkAttr STUN_ATTRIBUTE_ERROR_CODE (error_value err) pad] /\
    zlen (enc_all [mkAttr STUN_ATTRIBUTE_ERROR_CODE (error_value err) pad]) <= 40 /\
    stun_agent_init_error package_string a msg buf (zlen buf) req err = Ok (true, reply_to a req buf b).
Proof.
  intros Hr Ht Hc Hb Hs H60 Hck. destruct (init_reply_spec a req ty id attrs rest x y msg buf STUN_ERROR)
    as (b & Hok & E); auto. unfold stun_agent_init_error.
  destruct (stun_message_get_class req) as [c'|]; [|done]. cbn [mbind res_bind] in *.
  destruct (negb _); [done|]. destruct (stun_message_id req); [|done]. cbn [mbind res_bind] in *.
  destruct (stun_message_get_method req); [|done]. cbn [mbind res_bind] in *. rewrite E. cbn [mbind res_bind].
  rewrite add_software_none by done. cbn [mbind res_bind].
  assert (Hel : 4 <= zlen (error_value err) < 36)
    by (unfold error_value; zlen_norm; pose proof (zlen_strerror err); lia).
  pose proof (pad_len_range (negb (no_aligned (reply_to a req buf b))) (zlen (error_value err))) as Hpl.
  assert (Hsz : attr_size (reply_to a req buf b) (zlen (error_value err)) <= 40).
  { unfold attr_size, pad_len in *. destruct (negb _); [|lia].
    pose proof (stun_padding_add (zlen (error_value err))). Z.to_euclidean_division_equations; lia. }
  change (zlen (enc_all [])) with 0 in *.
  assert (Hev : 4 + zlen (stun_strerror err) = zlen (error_value err)) by (unfold error_value; zlen_norm; lia).
  rewrite (append_error_bytes Hok) by (change (zlen (enc_all [])) with 0; rewrite Hev; lia).
  pose proof (append_bytes_spec _ _ _ _ STUN_ATTRIBUTE_ERROR_CODE (error_value err) Hok) as Ha.
  change (zlen (enc_all [])) with 0 in Ha.
  destruct (Z.ltb_spec (buffer_len (reply_to a req buf b)) (24 + 0 + zlen (error_value err))) as [Hlt|_];
    [change (buffer_len _) with (zlen buf) in Hlt; lia|].
  destruct Ha as (m' & -> & Hok' & (H1 & H2 & H3 & H5 & H6)).
  { unfold error_value. rewrite bytes_app. split; [|apply bytes_strerror].
    rewrite !bytes_cons. repeat split; try apply u8_range; try (unfold is_byte; lia). constructor. }
  { lia. }
  cbn [mbind res_bind app] in *. destruct m' as [ag bu bl ky lk lv]. cbn in H1, H2, H3, H5, H6. subst.
  fold (reply_to a req buf bu) in *.
  assert (En : exists pad, new_attr (reply_to a req buf b) id STUN_ATTRIBUTE_ERROR_CODE (error_value err) =
    mkAttr STUN_ATTRIBUTE_ERROR_CODE (error_value err) pad).
  { unfold new_attr. rewrite Hck, swap_other by done. destruct (no_aligned _); by eexists. }
  destruct En as [pad En]. exists bu, pad. rewrite <-En. split; [exact Hok'|]. split; [|done].
  cbn [enc_all map concat]. rewrite app_nil_r, zlen_enc_new_attr by lia. exact Hsz.
Qed.

(** ** Binding requests that passed validation *)

(** [req], received by [a], is a Binding request with attributes [attrs] from
    the user [u], authenticated with the key [k]. *)
Record valid_check (a : StunAgent) (req : StunMessage) (id : list Z) (attrs : list wattr) (k u : list Z) : Prop := {
  vc_repr : exists rest, msg_repr req [0; 1] id attrs rest;
  vc_agent : agent req = Some (ag_info a);
  vc_key : key req = Some k;
  vc_user : spec_find STUN_ATTRIBUTE_USERNAME attrs = Some u;
  vc_cookie : cookie_id id = true;
  vc_long_term : agent_flag a STUN_AGENT_USAGE_LONG_TERM_CREDENTIALS = true -> long_term_valid req = true
}.

(** The key that signs the reply. *)
Definition reply_key (a : StunAgent) (req : StunMessage) (k : list Z) : list Z :=
  if agent_flag a STUN_AGENT_USAGE_LONG_TERM_CREDENTIALS then long_term_key req else k.

Lemma reply_signing a req buf b attrs' k :
  (agent_flag a STUN_AGENT_USAGE_LONG_TERM_CREDENTIALS = true -> long_term_valid req = true) ->
  signing a (reply_to a req buf b) attrs' k (reply_key a req k) (reply_to a req buf b).
Proof.
  intros Hlt. unfold reply_key. destruct (agent_flag a STUN_AGENT_USAGE_LONG_TERM_CREDENTIALS) eqn:E.
  - apply (sign_saved a (reply_to a req buf b)); [done|]. by apply Hlt.
  - by apply sign_short.
Qed.

(** Finishing a reply: it is never remembered, so the agent stays as it is. *)
Lemma finish_reply a req buf b x y id attrs' k :
  msg_ok (reply_to a req buf b) [x; y] id attrs' -> class_of_type (x * 256 + y) <> STUN_REQUEST ->
  key req = Some k ->
  (agent_flag a STUN_AGENT_USAGE_LONG_TERM_CREDENTIALS = true -> long_term_valid req = true) ->
  52 + zlen (enc_all attrs') <= zlen buf -> 52 + zlen (enc_all attrs') < 65536 ->
  exists m', msg_ok m' [x; y] id (finished a (reply_key a req k) [x; y] id attrs') /\ agent m' = Some (ag_info a) /\
    stun_agent_finish_message a (reply_to a req buf b) None =
    Ok (20 + zlen (enc_all (finished a (reply_key a req k) [x; y] id attrs')), a, m').
Proof.
  intros Hok Hc Hk Hlt Hroom H16.
  destruct (finish_spec a (reply_to a req buf b) [x; y] id attrs' x y None k (reply_key a req k) (reply_to a req buf b) Hok)
    as (m' & Hm' & Hmeta & Hfin); try done.
  - cbn. by rewrite Hk.
  - by apply reply_signing.
  - unfold remembered. by rewrite bool_decide_eq_false_2.
  - exists m'. split; [done|]. split; [by destruct Hmeta as [-> _]|].
    unfold remembered in Hfin. by rewrite bool_decide_eq_false_2 in Hfin by done.
Qed.

(** One more attribute on a reply. *)
Lemma append_reply a req buf b ty id attrs' type v :
  msg_ok (reply_to a req buf b) ty id attrs' -> bytes v -> cookie_id id = true ->
  swap_realm_nonce (reply_to a req buf b) type = type -> 0 <= type < 65536 ->
  27 + zlen (enc_all attrs') + zlen v <= zlen buf -> 27 + zlen (enc_all attrs') + zlen v < 65536 ->
  exists b' pad, stun_message_append_bytes (reply_to a req buf b) type v =
      Ok (STUN_MESSAGE_RETURN_SUCCESS, reply_to a req buf b') /\
    msg_ok (reply_to a req buf b') ty id (attrs' ++ [mkAttr type v pad]) /\ zlen pad < 4.
Proof.
  intros Hok Hv Hck Hsw Ht Hroom H16. zlen_pos.
  pose proof (pad_len_range (negb (no_aligned (reply_to a req buf b))) (zlen v)) as Hpl.
  pose proof (append_bytes_spec _ _ _ _ type v Hok Hv) as Ha.
  destruct (Z.ltb_spec (buffer_len (reply_to a req buf b)) (24 + zlen (enc_all attrs') + zlen v)) as [Hlt|_];
    [change (buffer_len _) with (zlen buf) in Hlt; lia|].
  destruct Ha as (m' & -> & Hok' & (M1 & M2 & M3 & M5 & M6)); [unfold attr_size; lia|].
  destruct m' as [ag bu bl ky lk lv]. cbn in M1, M2, M3, M5, M6. subst.
  assert (En : exists pad, new_attr (reply_to a req buf b) id type v = mkAttr type v pad /\ zlen pad < 4).
  { unfold new_attr. rewrite Hck, Hsw, u16_small by done. destruct (no_aligned _); eexists; split; try done.
    rewrite zlen_zeros. apply stun_padding_range. }
  destruct En as (pad & En & Hpad). rewrite En in Hok'. by exists bu, pad.
Qed.

Lemma bytes_spec_find t attrs pad v : Forall (wf_attr pad) attrs -> spec_find t attrs = Some v -> bytes v.
Proof.
  induction 1 as [|x attrs [? ? Hb ? ?] _ IH]; cbn [spec_find]; [done|].
  destruct (w_type x =? t); [by intros [= <-]|]. destruct (_ =? STUN_ATTRIBUTE_FINGERPRINT); [done|].
  destruct (_ && _); [done|]. done.
Qed.

(** The attributes of the success reply to a check from [src]. *)
Definition reply_attrs (id : list Z) (src : sockaddr) (u padu pada : list Z) : list wattr :=
  [mkAttr STUN_ATTRIBUTE_XOR_MAPPED_ADDRESS (addr_bytes (mask_addr id STUN_MAGIC_COOKIE src)) pada;
   mkAttr STUN_ATTRIBUTE_USERNAME u padu].

Lemma build_reply_spec a req id attrs k u msg buf src srclen ret :
  valid_check a req id attrs k u -> buffer_ok buf -> no_software a ->
  wf_sockaddr src -> sizeof_addr src <= srclen -> 110 + zlen u <= zlen buf -> zlen u < 60000 ->
  exists n m' pada padu,
    build_reply package_string a req msg buf (zlen buf) src srclen STUN_USAGE_ICE_COMPATIBILITY_RFC5245 ret =
      Ok (ret, n, a, m') /\
    agent m' = Some (ag_info a) /\
    n = 20 + zlen (enc_all (finished a (reply_key a req k) [1; 1] id (reply_attrs id src u padu pada))) /\
    msg_ok m' [1; 1] id (finished a (reply_key a req k) [1; 1] id (reply_attrs id src u padu pada)).
Proof.
  intros [[rest Hr] Hag Hk Hu Hck Hlt] Hb Hs Hsrc Hsl Hroom Hul. zlen_pos.
  pose proof Hr as [Hbu _ Hid _ Hwf Hbs]. rewrite Hbu, !bytes_app in Hbs.
  assert (Hbid : bytes id) by apply Hbs.
  destruct (init_response_spec a req [0; 1] id attrs rest 0 1 msg buf Hr) as (b0 & Hok0 & E0); try done.
  change (type_bytes STUN_RESPONSE (method_of_type (0 * 256 + 1))) with [1; 1] in Hok0.
  destruct (wf_mask_addr id STUN_MAGIC_COOKIE src) as (Hwm & _ & _); [done..|].
  destruct (addr_bytes_spec _ Hwm) as (Hab & _ & Hal).
  unfold build_reply. rewrite E0. cbn [mbind res_bind negb].
  rewrite (bool_decide_eq_false_2 (_ = STUN_USAGE_ICE_COMPATIBILITY_MSN)) by done.
  pose proof Hok0 as [[rest0 Hr0] _ _]. rewrite (repr_has_cookie Hr0). fold (cookie_id id). rewrite Hck.
  cbn [mbind res_bind]. rewrite (bool_decide_eq_false_2 (_ = STUN_USAGE_ICE_COMPATIBILITY_GOOGLE)) by done. cbn [andb negb].
  change (stun_message_append_xor_addr (reply_to a req buf b0) STUN_ATTRIBUTE_XOR_MAPPED_ADDRESS src srclen) with
    (stun_message_append_xor_addr_full (reply_to a req buf b0) STUN_ATTRIBUTE_XOR_MAPPED_ADDRESS src srclen STUN_MAGIC_COOKIE).
  rewrite (append_xor_value _ _ _ _ _ _ _ _ Hok0) by (done || (change (zlen (enc_all [])) with 0; lia)).
  destruct (append_reply a req buf b0 [1; 1] id [] STUN_ATTRIBUTE_XOR_MAPPED_ADDRESS
    (addr_bytes (mask_addr id STUN_MAGIC_COOKIE src))) as (b1 & pada & -> & Hok1 & Hpa);
    try done; try (change (zlen (enc_all [])) with 0; lia); [by apply swap_other|].
  cbn [mbind res_bind]. change (negb (is_success STUN_MESSAGE_RETURN_SUCCESS)) with false. cbv iota.
  pose proof (find_cases _ _ _ _ _ STUN_ATTRIBUTE_USERNAME Hr) as Hf. rewrite swap_other, Hu in Hf by done.
  destruct Hf as (l & r & -> & Hbr & _). cbn [mbind res_bind]. rewrite (rd_bytes_eq _ l u r) by done. cbn [mbind res_bind].
  assert (Hl1 : zlen (enc_all ([] ++ [mkAttr STUN_ATTRIBUTE_XOR_MAPPED_ADDRESS
      (addr_bytes (mask_addr id STUN_MAGIC_COOKIE src)) pada])) <= 27).
  { cbn [app]. rewrite enc_all_cons, zlen_app, zlen_enc. cbn [w_val w_pad]. change (zlen (enc_all [])) with 0. lia. }
  destruct (append_reply a req buf b1 [1; 1] id _ STUN_ATTRIBUTE_USERNAME u Hok1) as (b2 & padu & -> & Hok2 & Hpu);
    try done; try lia; [eapply bytes_spec_find; eauto|by apply swap_other|].
  cbn [mbind res_bind app] in *. change (negb (is_success STUN_MESSAGE_RETURN_SUCCESS)) with false. cbv iota.
  rewrite (bool_decide_eq_false_2 (_ = STUN_USAGE_ICE_COMPATIBILITY_MSICE2)) by done. cbn [mbind res_bind].
  change (negb (is_success STUN_MESSAGE_RETURN_SUCCESS)) with false. cbv iota.
  fold (reply_attrs id src u padu pada) in Hok2.
  assert (Hl2 : zlen (enc_all (reply_attrs id src u padu pada)) <= 34 + zlen u).
  { unfold reply_attrs. rewrite enc_all_cons, zlen_app. rewrite enc_all_cons, zlen_app in Hl1.
    change (zlen (enc_all [])) with 0 in Hl1. rewrite enc_all_cons, zlen_app, (zlen_enc (mkAttr STUN_ATTRIBUTE_USERNAME u padu)).
    cbn [w_val w_pad]. change (zlen (enc_all [])) with 0. lia. }
  destruct (finish_reply a req buf b2 1 1 id (reply_attrs id src u padu pada) k Hok2) as (m' & Hok' & Ham & ->);
    try done; try lia.
  cbn [mbind res_bind]. set (n := 20 + _). assert (Hn : 0 < n) by (unfold n; zlen_pos; lia).
  destruct (Z.eqb_spec n 0); [lia|]. by exists n, m', pada, padu.
Qed.

(** ** What the sender of the check makes of the reply *)

Lemma process_reply a r ek id src u padu pada rest a0 len0 :
  msg_repr r [1; 1] id (finished a ek [1; 1] id (reply_attrs id src u padu pada)) rest -> bytes id ->
  wf_sockaddr src -> sizeof_addr src <= len0 <= sizeof_sockaddr_storage ->
  stun_usage_ice_conncheck_process r a0 len0 STUN_USAGE_ICE_COMPATIBILITY_RFC5245 =
  Ok (STUN_USAGE_ICE_RETURN_SUCCESS, src, sizeof_addr src).
Proof.
  intros Hr Hbi Hsrc Hl. unfold stun_usage_ice_conncheck_process.
  destruct (repr_class _ _ _ _ _ _ _ Hr eq_refl) as [-> ->].
  change (class_of_type (1 * 256 + 1)) with STUN_RESPONSE. change (method_of_type (1 * 256 + 1) =? STUN_BINDING) with true.
  cbn [mbind res_bind negb]. rewrite bool_decide_eq_false_2 by done.
  change (stun_message_find_xor_addr r STUN_ATTRIBUTE_XOR_MAPPED_ADDRESS a0 len0) with
    (stun_message_find_xor_addr_full r STUN_ATTRIBUTE_XOR_MAPPED_ADDRESS a0 len0 STUN_MAGIC_COOKIE).
  rewrite (find_xor_value _ _ _ _ _ _ src a0 len0 _ Hr Hbi); [done| |done|done].
  rewrite swap_other by done. destruct (finished_shape a ek [1; 1] id (reply_attrs id src u padu pada)) as (post & -> & _).
  rewrite spec_find_other; [done| |done..]. repeat constructor; done.
Qed.

Lemma process_role_conflict a r ek id pad rest a0 len0 :
  msg_repr r [1; 17] id (finished a ek [1; 17] id
    [mkAttr STUN_ATTRIBUTE_ERROR_CODE (error_value STUN_ERROR_ROLE_CONFLICT) pad]) rest ->
  stun_usage_ice_conncheck_process r a0 len0 STUN_USAGE_ICE_COMPATIBILITY_RFC5245 =
  Ok (STUN_USAGE_ICE_RETURN_ROLE_CONFLICT, a0, len0).
Proof.
  intros Hr. unfold stun_usage_ice_conncheck_process. destruct (repr_class _ _ _ _ _ _ _ Hr eq_refl) as [-> ->].
  change (class_of_type (1 * 256 + 17)) with STUN_ERROR. change (method_of_type (1 * 256 + 17) =? STUN_BINDING) with true.
  cbn [mbind res_bind negb]. rewrite (find_error_spec Hr). unfold val_of. rewrite swap_other by done.
  edestruct (finished_shape a ek [1; 17] id) as (post & -> & _). rewrite spec_find_other; [| |done..].
  - reflexivity.
  - repeat constructor; done.
Qed.

(** A connectivity check that passed validation and conflicts in no role
    is answered with a success response, built without changing the responder's
    agent; whoever receives that response (with the same usage) processes it
    successfully and learns the address the check came from. *)
Theorem conncheck_reply_roundtrip a c req id attrs k u msg buf src srclen control tie a0 len0 ltk :
  valid_check a req id attrs k u -> buffer_ok buf -> no_software a -> ag_info c = ag_info a ->
  wf_sockaddr src -> sizeof_addr src <= srclen -> sizeof_addr src <= len0 <= sizeof_sockaddr_storage ->
  110 + zlen u <= zlen buf -> zlen u < 60000 -> role_conflict req control tie = Ok RoleKeep ->
  exists n m', stun_usage_ice_conncheck_create_reply package_string a req msg buf (zlen buf) src srclen control tie
      STUN_USAGE_ICE_COMPATIBILITY_RFC5245 = Ok (STUN_USAGE_ICE_RETURN_SUCCESS, n, control, a, m') /\
    stun_usage_ice_conncheck_process (received c (take (Z.to_nat n) (buffer m')) ltk) a0 len0
      STUN_USAGE_ICE_COMPATIBILITY_RFC5245 = Ok (STUN_USAGE_ICE_RETURN_SUCCESS, src, sizeof_addr src).
Proof.
  intros Hv Hb Hs Hca Hsrc Hsl Hl0 Hroom Hu Hrole.
  destruct (build_reply_spec a req id attrs k u msg buf src srclen STUN_USAGE_ICE_RETURN_SUCCESS Hv)
    as (n & m' & pada & padu & Hbr & Ham & Hn & Hok); try done.
  exists n, m'. destruct Hv as [[rest Hr] _ _ _ _ _]. pose proof Hr as [Hbu _ _ _ _ Hbs]. rewrite Hbu, !bytes_app in Hbs. split.
  - unfold stun_usage_ice_conncheck_create_reply. destruct (repr_class _ _ _ _ _ _ _ Hr eq_refl) as [-> ->].
    change (class_of_type (0 * 256 + 1)) with STUN_REQUEST. cbn [mbind res_bind]. rewrite bool_decide_eq_true_2 by done.
    change (method_of_type (0 * 256 + 1) =? STUN_BINDING) with true. cbn [mbind res_bind negb].
    rewrite Hrole. cbn [mbind res_bind]. by rewrite Hbr.
  - rewrite Hn, (take_wire _ _ _ _ Hok).
    apply (process_reply a _ (reply_key a req k) id src u padu pada []); try done; [|apply Hbs].
    by apply (received_ok m' a).
Qed.

(** ** Role conflicts *)

(** The check carries the sender's role (controlling or not) and tie breaker. *)
Definition carries_role (attrs : list wattr) (controlling : bool) (tie : Z) : Prop :=
  spec_find (if controlling then STUN_ATTRIBUTE_ICE_CONTROLLING else STUN_ATTRIBUTE_ICE_CONTROLLED) attrs =
  Some (be_bytes 8 tie).

Lemma role_conflict_spec req ty id attrs rest control tie q :
  msg_repr req ty id attrs rest -> carries_role attrs control q -> 0 <= q < 2 ^ 64 ->
  role_conflict req control tie =
  Ok (if ((tie <? q) && control) || ((q <=? tie) && negb control) then RoleSwitch else RoleRefuse).
Proof.
  intros Hr Hq Hrg. unfold role_conflict. rewrite !(find64_spec Hr). unfold val_of.
  rewrite (swap_other req (if control then STUN_ATTRIBUTE_ICE_CONTROLLING else STUN_ATTRIBUTE_ICE_CONTROLLED))
    by (by destruct control).
  unfold carries_role in Hq. rewrite Hq. change (zlen (be_bytes 8 q) =? 8) with true. cbn [mbind res_bind].
  rewrite be_value_bytes. change (256 ^ Z.of_nat 8) with (2 ^ 64). by rewrite Z.mod_small by lia.
Qed.

Lemma bind_error_spec a req id attrs k u msg buf :
  valid_check a req id attrs k u -> buffer_ok buf -> no_software a -> 110 <= zlen buf ->
  exists n m', stun_bind_error package_string a msg buf (zlen buf) req STUN_ERROR_ROLE_CONFLICT = Ok (n, a, m') /\
    forall c ltk a0 len0, ag_info c = ag_info a ->
    stun_usage_ice_conncheck_process (received c (take (Z.to_nat n) (buffer m')) ltk) a0 len0
      STUN_USAGE_ICE_COMPATIBILITY_RFC5245 = Ok (STUN_USAGE_ICE_RETURN_ROLE_CONFLICT, a0, len0).
Proof.
  intros [[rest Hr] _ Hk _ Hck Hlt] Hb Hs Hroom.
  destruct (init_error_spec a req [0; 1] id attrs rest 0 1 msg buf STUN_ERROR_ROLE_CONFLICT Hr)
    as (b & pad & Hok & Hlen & E); try done; [lia|].
  change (type_bytes STUN_ERROR (method_of_type (0 * 256 + 1))) with [1; 17] in Hok.
  unfold stun_bind_error. rewrite E. cbn [mbind res_bind negb].
  destruct (finish_reply a req buf b 1 17 id _ k Hok) as (m' & Hok' & Ham & ->); try done; try lia.
  do 2 eexists. split; [done|]. intros c ltk a0 len0 Hca. rewrite (take_wire _ _ _ _ Hok').
  eapply process_role_conflict. by apply (received_ok m' a).
Qed.

(** The answer to a check whose sender claims the role the responder has. *)
Lemma conflicting_check a req id attrs k u msg buf src srclen control tie q :
  valid_check a req id attrs k u -> buffer_ok buf -> no_software a ->
  wf_sockaddr src -> sizeof_addr src <= srclen -> 110 + zlen u <= zlen buf -> zlen u < 60000 ->
  carries_role attrs control q -> 0 <= q < 2 ^ 64 ->
  let switch := ((tie <? q) && control) || ((q <=? tie) && negb control) in
  exists n m', stun_usage_ice_conncheck_create_reply package_string a req msg buf (zlen buf) src srclen control tie
      STUN_USAGE_ICE_COMPATIBILITY_RFC5245 = Ok (STUN_USAGE_ICE_RETURN_ROLE_CONFLICT, n, xorb control switch, a, m') /\
    (switch = false -> forall c ltk a0 len0, ag_info c = ag_info a ->
      stun_usage_ice_conncheck_process (received c (take (Z.to_nat n) (buffer m')) ltk) a0 len0
        STUN_USAGE_ICE_COMPATIBILITY_RFC5245 = Ok (STUN_USAGE_ICE_RETURN_ROLE_CONFLICT, a0, len0)).
Proof.
  intros Hv Hb Hs Hsrc Hsl Hroom Hu Hq Hrg switch. zlen_pos.
  assert (Hpre : forall r, stun_usage_ice_conncheck_create_reply package_string a req msg buf (zlen buf) src srclen control tie
      STUN_USAGE_ICE_COMPATIBILITY_RFC5245 = r <->
    (if switch then
      '(ret, len, a, msg) ← build_reply package_string a req msg buf (zlen buf) src srclen
         STUN_USAGE_ICE_COMPATIBILITY_RFC5245 STUN_USAGE_ICE_RETURN_ROLE_CONFLICT;
      Ok (ret, len, negb control, a, msg)
     else
      '(len, a, msg) ← stun_bind_error package_string a msg buf (zlen buf) req STUN_ERROR_ROLE_CONFLICT;
      Ok (STUN_USAGE_ICE_RETURN_ROLE_CONFLICT, len, control, a, msg)) = r).
  { destruct Hv as [[rest Hr] _ _ _ _ _]. unfold stun_usage_ice_conncheck_create_reply.
    destruct (repr_class _ _ _ _ _ _ _ Hr eq_refl) as [-> ->].
    change (class_of_type (0 * 256 + 1)) with STUN_REQUEST. cbn [mbind res_bind]. rewrite bool_decide_eq_true_2 by done.
    change (method_of_type (0 * 256 + 1) =? STUN_BINDING) with true. cbn [mbind res_bind negb].
    intros r. rewrite (role_conflict_spec _ _ _ _ _ _ tie q Hr Hq Hrg). fold switch. by destruct switch. }
  destruct switch.
  - destruct (build_reply_spec a req id attrs k u msg buf src srclen STUN_USAGE_ICE_RETURN_ROLE_CONFLICT Hv)
      as (n & m' & pada & padu & Hbr & _); try done.
    exists n, m'. split; [|done]. apply Hpre. rewrite Hbr. by rewrite xorb_true_r.
  - destruct (bind_error_spec a req id attrs k u msg buf Hv) as (n & m' & Hbe & Hp); try done; [lia|].
    exists n, m'. split; [|by intros _]. apply Hpre. rewrite Hbe. by rewrite xorb_false_r.
Qed.

End reply.

(** ** Examples *)

Definition ex_check_attrs (controlling : bool) (tie : Z) : list wattr :=
  [mkAttr (if controlling then STUN_ATTRIBUTE_ICE_CONTROLLING else STUN_ATTRIBUTE_ICE_CONTROLLED) (be_bytes 8 tie) [];
   ex_user].

Definition ex_check (controlling : bool) (tie : Z) : StunMessage :=
  mkMessage (Some (ag_info ex_agent)) (wire [0; 1] ex_tid (ex_check_attrs controlling tie)) 40 (Some [112; 119]) [] false.

Lemma ex_check_valid tie :
  valid_check ex_agent (ex_check true tie) ex_tid (ex_check_attrs true tie) [112; 119] [97; 58; 98].
Proof.
  constructor; try reflexivity; [|intros H; vm_compute in H; discriminate H].
  exists []. constructor; try reflexivity.
  - constructor; [|constructor; [|constructor]]; constructor; cbn [w_val w_pad w_type];
      try apply bytes_be_bytes; try (apply (bool_decide_eq_true_1 _); vm_compute; reflexivity); try done.
  - cbn [buffer ex_check]. unfold wire, ex_check_attrs. rewrite enc_all_cons. unfold enc at 2.
    rewrite !bytes_app. cbn [w_val w_pad w_type].
    repeat match goal with |- _ /\ _ => split end; try apply bytes_be_bytes; try apply bytes_nil;
      apply (bool_decide_eq_true_1 _); vm_compute; reflexivity.
Qed.

Definition ex_buf : list Z := replicate 200 0.
Definition ex_src : sockaddr := sockaddr_in 0x3412 0x0100007f.

Lemma ex_buf_ok : buffer_ok ex_buf.
Proof. split; [|done]. apply (bool_decide_eq_true_1 _). vm_compute. reflexivity. Qed.

Lemma conncheck_reply_roundtrip_witness :
  exists n m', stun_usage_ice_conncheck_create_reply [] ex_agent (ex_check true 5) ex_request ex_buf 200 ex_src 16 false 9
      STUN_USAGE_ICE_COMPATIBILITY_RFC5245 = Ok (STUN_USAGE_ICE_RETURN_SUCCESS, n, false, ex_agent, m') /\
    stun_usage_ice_conncheck_process (received ex_agent (take (Z.to_nat n) (buffer m')) []) (sockaddr_other 0) 128
      STUN_USAGE_ICE_COMPATIBILITY_RFC5245 = Ok (STUN_USAGE_ICE_RETURN_SUCCESS, ex_src, 16).
Proof.
  apply (conncheck_reply_roundtrip [] ex_agent ex_agent (ex_check true 5) ex_tid (ex_check_attrs true 5) [112; 119]
    [97; 58; 98] ex_request ex_buf ex_src 16 false 9 (sockaddr_other 0) 128 []); try (vm_compute; reflexivity);
    try (vm_compute; discriminate).
  - apply ex_check_valid.
  - apply ex_buf_ok.
  - done.
  - split; lia.
  - vm_compute. split; discriminate.
Defined.

