(* ===== verification/StunTurn.v ===== *)
(** * TURN allocations (usages/turn.c)

    Building Allocate, Refresh and CreatePermission requests and processing
    the answers, for each of the protocol dialects the sources know. *)
From S2P Require Import Prelude CMem StunTypes StunMessage StunWire StunAppend StunAccess StunCrc32 StunAgent StunIntegrity StunIce.

Inductive StunUsageTurnRequestPorts : Set :=
  | STUN_USAGE_TURN_REQUEST_PORT_NORMAL
  | STUN_USAGE_TURN_REQUEST_PORT_EVEN
  | STUN_USAGE_TURN_REQUEST_PORT_EVEN_AND_RESERVE.

Inductive StunUsageTurnCompatibility : Set :=
  | STUN_USAGE_TURN_COMPATIBILITY_DRAFT9
  | STUN_USAGE_TURN_COMPATIBILITY_GOOGLE
  | STUN_USAGE_TURN_COMPATIBILITY_MSN
  | STUN_USAGE_TURN_COMPATIBILITY_OC2007
  | STUN_USAGE_TURN_COMPATIBILITY_RFC5766.

Inductive StunUsageTurnReturn : Set :=
  | STUN_USAGE_TURN_RETURN_RELAY_SUCCESS
  | STUN_USAGE_TURN_RETURN_MAPPED_SUCCESS
  | STUN_USAGE_TURN_RETURN_ERROR
  | STUN_USAGE_TURN_RETURN_INVALID
  | STUN_USAGE_TURN_RETURN_ALTERNATE_SERVER.

#[global] Instance StunUsageTurnRequestPorts_eq_dec : EqDecision StunUsageTurnRequestPorts.
Proof. solve_decision. Defined.
#[global] Instance StunUsageTurnCompatibility_eq_dec : EqDecision StunUsageTurnCompatibility.
Proof. solve_decision. Defined.
#[global] Instance StunUsageTurnReturn_eq_dec : EqDecision StunUsageTurnReturn.
Proof. solve_decision. Defined.

Definition REQUESTED_PROPS_E : Z := 0x80000000.
Definition REQUESTED_PROPS_R : Z := 0x40000000.
Definition STUN_ATTRIBUTE_MSN_MAPPED_ADDRESS : Z := 0x8000.
Definition TURN_REQUESTED_TRANSPORT_UDP : Z := 0x11000000.

Definition turn_modern (c : StunUsageTurnCompatibility) : bool :=
  bool_decide (c = STUN_USAGE_TURN_COMPATIBILITY_DRAFT9) || bool_decide (c = STUN_USAGE_TURN_COMPATIBILITY_RFC5766).

(** The value of an attribute of the previous response, if it is there. *)
Definition prev_value (previous : StunMessage) (type : Z) : res (option (list Z)) :=
  r ← stun_message_find previous type;
  match r with
  | Some (p, n) => v ← rd_bytes (buffer previous) p n; Ok (Some v)
  | None => Ok None
  end.

(** Append an attribute when there is a value for it. *)
Definition opt_append (type : Z) (v : option (list Z)) (st : bool * StunMessage) : res (bool * StunMessage) :=
  match v with
  | Some v => step_append (fun m => stun_message_append_bytes m type v) st
  | None => Ok st
  end.

(** REALM and NONCE of the previous response (lines 134-147 and 195-208). *)
Definition copy_credentials (previous : StunMessage) (st : bool * StunMessage) : res (bool * StunMessage) :=
  realm ← prev_value previous STUN_ATTRIBUTE_REALM;
  st ← opt_append STUN_ATTRIBUTE_REALM realm st;
  nonce ← prev_value previous STUN_ATTRIBUTE_NONCE;
  opt_append STUN_ATTRIBUTE_NONCE nonce st.

Section turn.
Context {CL : CryptoLib} (package_string : list Z).

(** Lines 157-163 and 212-218. *)
Definition turn_username (a : StunAgent) (previous : option StunMessage) (username : option (list Z))
    (st : bool * StunMessage) : res (bool * StunMessage) :=
  match username with
  | Some u =>
      skip_append ((0 <? zlen u) && (agent_flag a STUN_AGENT_USAGE_SHORT_TERM_CREDENTIALS ||
                                     bool_decide (is_Some previous)))
        (fun m => stun_message_append_bytes m STUN_ATTRIBUTE_USERNAME u) st
  | None => Ok st
  end.

Definition turn_finish (a : StunAgent) (st : bool * StunMessage) (password : option (list Z))
    : res (Z * StunAgent * StunMessage) :=
  let '(ok, msg) := st in
  if negb ok then Ok (0, a, msg) else stun_agent_finish_message a msg password.

Definition request_port_props (p : StunUsageTurnRequestPorts) : Z :=
  match p with
  | STUN_USAGE_TURN_REQUEST_PORT_EVEN_AND_RESERVE => Z.lor REQUESTED_PROPS_R REQUESTED_PROPS_E
  | STUN_USAGE_TURN_REQUEST_PORT_EVEN => REQUESTED_PROPS_E
  | STUN_USAGE_TURN_REQUEST_PORT_NORMAL => 0
  end.

Definition stun_usage_turn_create (transid : list Z) (a : StunAgent) (msg : StunMessage) (buf : list Z)
    (buf_len : Z) (previous_response : option StunMessage) (request_props : StunUsageTurnRequestPorts)
    (bandwidth lifetime : Z) (username password : option (list Z)) (compat : StunUsageTurnCompatibility)
    : res (Z * StunAgent * StunMessage) :=
  '(_, msg) ← stun_agent_init_request package_string transid a msg buf buf_len STUN_ALLOCATE;
  st ← (if turn_modern compat then
          st ← step_append (fun m => stun_message_append32 m STUN_ATTRIBUTE_REQUESTED_TRANSPORT
                                       TURN_REQUESTED_TRANSPORT_UDP) (true, msg);
          skip_append (0 <=? bandwidth) (fun m => stun_message_append32 m STUN_ATTRIBUTE_BANDWIDTH bandwidth) st
        else step_append (fun m => stun_message_append32 m STUN_ATTRIBUTE_MAGIC_COOKIE TURN_MAGIC_COOKIE) (true, msg));
  st ← skip_append (bool_decide (compat = STUN_USAGE_TURN_COMPATIBILITY_OC2007))
         (fun m => stun_message_append32 m STUN_ATTRIBUTE_MS_VERSION 1) st;
  st ← skip_append (0 <=? lifetime) (fun m => stun_message_append32 m STUN_ATTRIBUTE_LIFETIME lifetime) st;
  st ← skip_append (turn_modern compat && negb (bool_decide (request_props = STUN_USAGE_TURN_REQUEST_PORT_NORMAL)))
         (fun m => stun_message_append32 m STUN_ATTRIBUTE_REQUESTED_PORT_PROPS (request_port_props request_props)) st;
  st ← (match previous_response with
        | Some previous =>
            st ← copy_credentials previous st;
            '(val, reservation) ← stun_message_find64 previous STUN_ATTRIBUTE_RESERVATION_TOKEN;
            match val, reservation with
            | STUN_MESSAGE_RETURN_SUCCESS, Some reservation =>
                step_append (fun m => stun_message_append64 m STUN_ATTRIBUTE_RESERVATION_TOKEN reservation) st
            | _, _ => Ok st
            end
        | None => Ok st
        end);
  st ← turn_username a previous_response username st;
  turn_finish a st password.

Definition stun_usage_turn_create_refresh (transid : list Z) (a : StunAgent) (msg : StunMessage) (buf : list Z)
    (buf_len : Z) (previous_response : option StunMessage) (lifetime : Z)
    (username password : option (list Z)) (compat : StunUsageTurnCompatibility)
    : res (Z * StunAgent * StunMessage) :=
  if negb (turn_modern compat) then
    stun_usage_turn_create transid a msg buf buf_len previous_response STUN_USAGE_TURN_REQUEST_PORT_NORMAL 0
      lifetime username password compat
  else
    '(_, msg) ← stun_agent_init_request package_string transid a msg buf buf_len STUN_REFRESH;
    st ← skip_append (0 <=? lifetime) (fun m => stun_message_append32 m STUN_ATTRIBUTE_LIFETIME lifetime) (true, msg);
    st ← (match previous_response with Some previous => copy_credentials previous st | None => Ok st end);
    st ← turn_username a previous_response username st;
    turn_finish a st password.

Definition stun_usage_turn_create_permission (transid : list Z) (a : StunAgent) (msg : StunMessage) (buf : list Z)
    (buf_len : Z) (username password realm nonce : option (list Z)) (peer : option sockaddr)
    : res (Z * StunAgent * StunMessage) :=
  match peer with
  | None => Ok (0, a, msg)
  | Some peer =>
      '(_, msg) ← stun_agent_init_request package_string transid a msg buf buf_len STUN_CREATEPERMISSION;
      st ← step_append (fun m => stun_message_append_xor_addr m STUN_ATTRIBUTE_XOR_PEER_ADDRESS peer
                                   sizeof_sockaddr_storage) (true, msg);
      st ← opt_append STUN_ATTRIBUTE_NONCE nonce st;
      st ← opt_append STUN_ATTRIBUTE_REALM realm st;
      st ← (if agent_flag a STUN_AGENT_USAGE_SHORT_TERM_CREDENTIALS ||
               (bool_decide (is_Some nonce) && bool_decide (is_Some realm))
            then opt_append STUN_ATTRIBUTE_USERNAME username st else Ok st);
      turn_finish a st password
  end.

End turn.

(** ** Processing answers *)

(** An address output parameter with its size. *)
Definition out_addr : Type := sockaddr * Z.

Record turn_out : Type := mkTurnOut {
  to_relay : out_addr;
  to_mapped : out_addr;
  to_alternate : option out_addr;   (** [None] is the null pointer *)
  to_bandwidth : option Z;          (** [None] while the caller's variable is untouched *)
  to_lifetime : option Z
}.

Definition set_relay (o : turn_out) (a : out_addr) := mkTurnOut a (to_mapped o) (to_alternate o) (to_bandwidth o) (to_lifetime o).
Definition set_mapped (o : turn_out) (a : out_addr) := mkTurnOut (to_relay o) a (to_alternate o) (to_bandwidth o) (to_lifetime o).
Definition set_alternate (o : turn_out) (a : option out_addr) := mkTurnOut (to_relay o) (to_mapped o) a (to_bandwidth o) (to_lifetime o).

Definition find_into (find : out_addr -> res (StunMessageReturn * sockaddr * Z)) (a : out_addr)
    : res (bool * out_addr) :=
  '(val, addr, len) ← find a; Ok (is_success val, (addr, len)).

Definition find_plain (msg : StunMessage) (type : Z) : out_addr -> res (bool * out_addr) :=
  find_into (fun a => stun_message_find_addr msg type (fst a) (snd a)).
Definition find_xored (msg : StunMessage) (type : Z) : out_addr -> res (bool * out_addr) :=
  find_into (fun a => stun_message_find_xor_addr msg type (fst a) (snd a)).

(** Lines 294-336. *)
Definition turn_process_error (msg : StunMessage) (compat : StunUsageTurnCompatibility) (o : turn_out)
    : res (StunUsageTurnReturn * turn_out) :=
  '(val, code) ← stun_message_find_error msg;
  match val, code with
  | STUN_MESSAGE_RETURN_SUCCESS, Some code =>
      o ← (match to_alternate o with
           | Some alt =>
               if bool_decide (compat = STUN_USAGE_TURN_COMPATIBILITY_OC2007) then
                 '(_, alt) ← find_plain msg STUN_ATTRIBUTE_MS_ALTERNATE_SERVER alt;
                 Ok (set_alternate o (Some alt))
               else Ok o
           | None => Ok o
           end);
      if Z.quot code 100 =? 3 then
        match to_alternate o with
        | Some alt =>
            '(ok, alt) ← find_plain msg STUN_ATTRIBUTE_ALTERNATE_SERVER alt;
            Ok (if ok : bool then STUN_USAGE_TURN_RETURN_ALTERNATE_SERVER else STUN_USAGE_TURN_RETURN_ERROR,
                set_alternate o (Some alt))
        | None =>
            has ← stun_message_has_attribute msg STUN_ATTRIBUTE_ALTERNATE_SERVER;
            Ok (if has : bool then STUN_USAGE_TURN_RETURN_ALTERNATE_SERVER else STUN_USAGE_TURN_RETURN_ERROR, o)
        end
      else Ok (STUN_USAGE_TURN_RETURN_ERROR, o)
  | _, _ => Ok (STUN_USAGE_TURN_RETURN_INVALID, o)
  end.

(** The mapped address is optional, the relayed one is not. *)
Definition turn_addresses (mapped relay : out_addr -> res (bool * out_addr)) (o : turn_out)
    : res (StunUsageTurnReturn * turn_out) :=
  '(got, m) ← mapped (to_mapped o);
  let o := set_mapped o m in
  '(ok, r) ← relay (to_relay o);
  Ok (if negb ok then STUN_USAGE_TURN_RETURN_ERROR
      else if got : bool then STUN_USAGE_TURN_RETURN_MAPPED_SUCCESS
      else STUN_USAGE_TURN_RETURN_RELAY_SUCCESS, set_relay o r).

(** Lines 345-401. *)
Definition turn_process_addresses (msg : StunMessage) (compat : StunUsageTurnCompatibility) (o : turn_out)
    : res (StunUsageTurnReturn * turn_out) :=
  match compat with
  | STUN_USAGE_TURN_COMPATIBILITY_DRAFT9 | STUN_USAGE_TURN_COMPATIBILITY_RFC5766 =>
      turn_addresses (find_xored msg STUN_ATTRIBUTE_XOR_MAPPED_ADDRESS) (find_xored msg STUN_ATTRIBUTE_RELAY_ADDRESS) o
  | STUN_USAGE_TURN_COMPATIBILITY_GOOGLE =>
      turn_addresses (fun m => Ok (false, m)) (find_plain msg STUN_ATTRIBUTE_MAPPED_ADDRESS) o
  | STUN_USAGE_TURN_COMPATIBILITY_MSN =>
      turn_addresses (find_plain msg STUN_ATTRIBUTE_MSN_MAPPED_ADDRESS) (find_plain msg STUN_ATTRIBUTE_MAPPED_ADDRESS) o
  | STUN_USAGE_TURN_COMPATIBILITY_OC2007 =>
      turn_addresses
        (find_into (fun a => id ← stun_message_id msg;
           stun_message_find_xor_addr_full msg STUN_ATTRIBUTE_MS_XOR_MAPPED_ADDRESS (fst a) (snd a) (msn_cookie id)))
        (find_plain msg STUN_ATTRIBUTE_MAPPED_ADDRESS) o
  end.

Definition update_opt (old new : option Z) : option Z := match new with Some _ => new | None => old end.

Definition stun_usage_turn_process (msg : StunMessage) (o : turn_out) (compat : StunUsageTurnCompatibility)
    : res (StunUsageTurnReturn * turn_out) :=
  meth ← stun_message_get_method msg;
  if negb (meth =? STUN_ALLOCATE) then Ok (STUN_USAGE_TURN_RETURN_INVALID, o)
  else
    c ← stun_message_get_class msg;
    match c with
    | STUN_REQUEST | STUN_INDICATION => Ok (STUN_USAGE_TURN_RETURN_INVALID, o)
    | STUN_ERROR => turn_process_error msg compat o
    | STUN_RESPONSE =>
        '(ret, o) ← turn_process_addresses msg compat o;
        if bool_decide (ret = STUN_USAGE_TURN_RETURN_ERROR) then Ok (ret, o)
        else
          '(_, lifetime) ← stun_message_find32 msg STUN_ATTRIBUTE_LIFETIME;
          '(_, bandwidth) ← stun_message_find32 msg STUN_ATTRIBUTE_BANDWIDTH;
          Ok (ret, mkTurnOut (to_relay o) (to_mapped o) (to_alternate o)
                     (update_opt (to_bandwidth o) bandwidth) (update_opt (to_lifetime o) lifetime))
    end.

Definition stun_usage_turn_refresh_process (msg : StunMessage) (lifetime : option Z)
    (compat : StunUsageTurnCompatibility) : res (StunUsageTurnReturn * option Z) :=
  meth ← stun_message_get_method msg;
  if negb (meth =? (if turn_modern compat then STUN_REFRESH else STUN_ALLOCATE)) then
    Ok (STUN_USAGE_TURN_RETURN_INVALID, lifetime)
  else
    c ← stun_message_get_class msg;
    match c with
    | STUN_REQUEST | STUN_INDICATION => Ok (STUN_USAGE_TURN_RETURN_INVALID, lifetime)
    | STUN_ERROR =>
        '(val, _) ← stun_message_find_error msg;
        Ok (if is_success val then STUN_USAGE_TURN_RETURN_ERROR else STUN_USAGE_TURN_RETURN_INVALID, lifetime)
    | STUN_RESPONSE =>
        '(_, l) ← stun_message_find32 msg STUN_ATTRIBUTE_LIFETIME;
        Ok (STUN_USAGE_TURN_RETURN_RELAY_SUCCESS, update_opt lifetime l)
    end.

(** ** Theorem *)

(** An Allocate success response of RFC 5766 that carries a relayed and a
    mapped address, masked with the cookie, is processed into exactly those
    addresses and into the granted lifetime. *)
Theorem turn_allocate_processed msg ty id attrs rest x y relay mapped life o :
  msg_repr msg ty id attrs rest -> ty = [x; y] -> bytes id ->
  class_of_type (x * 256 + y) = STUN_RESPONSE -> method_of_type (x * 256 + y) = STUN_ALLOCATE ->
  wf_sockaddr relay -> wf_sockaddr mapped -> 0 <= life < 2 ^ 32 ->
  spec_find STUN_ATTRIBUTE_RELAY_ADDRESS attrs = Some (addr_bytes (mask_addr id STUN_MAGIC_COOKIE relay)) ->
  spec_find STUN_ATTRIBUTE_XOR_MAPPED_ADDRESS attrs = Some (addr_bytes (mask_addr id STUN_MAGIC_COOKIE mapped)) ->
  spec_find STUN_ATTRIBUTE_LIFETIME attrs = Some (be_bytes 4 life) ->
  28 <= snd (to_relay o) <= sizeof_sockaddr_storage -> 28 <= snd (to_mapped o) <= sizeof_sockaddr_storage ->
  exists o', stun_usage_turn_process msg o STUN_USAGE_TURN_COMPATIBILITY_RFC5766 =
      Ok (STUN_USAGE_TURN_RETURN_MAPPED_SUCCESS, o') /\
    to_relay o' = (relay, sizeof_addr relay) /\ to_mapped o' = (mapped, sizeof_addr mapped) /\
    to_lifetime o' = Some life.
Proof.
  intros Hr Ht Hbi Hc Hmeth Hwr Hwm Hl Hfr Hfm Hfl Hsr Hsm.
  assert (Hsz : forall s, wf_sockaddr s -> sizeof_addr s <= 28) by (intros []; cbn; sizes; lia).
  unfold stun_usage_turn_process. destruct (repr_class _ _ _ _ _ _ _ Hr Ht) as [-> ->]. rewrite Hc, Hmeth.
  cbn [mbind res_bind]. change (negb (STUN_ALLOCATE =? STUN_ALLOCATE)) with false. cbv iota.
  unfold turn_process_addresses, turn_addresses, find_xored, find_into.
  change (stun_message_find_xor_addr msg ?t ?a ?l) with (stun_message_find_xor_addr_full msg t a l STUN_MAGIC_COOKIE).
  rewrite (find_xor_value _ _ _ _ _ STUN_ATTRIBUTE_XOR_MAPPED_ADDRESS mapped _ _ _ Hr Hbi);
    [|by rewrite swap_other|done|specialize (Hsz _ Hwm); lia].
  cbn [mbind res_bind set_mapped to_relay]. change (is_success STUN_MESSAGE_RETURN_SUCCESS) with true.
  rewrite (find_xor_value _ _ _ _ _ STUN_ATTRIBUTE_RELAY_ADDRESS relay _ _ _ Hr Hbi);
    [|by rewrite swap_other|done|specialize (Hsz _ Hwr); lia].
  cbn [mbind res_bind]. change (is_success STUN_MESSAGE_RETURN_SUCCESS) with true. cbn [negb].
  rewrite bool_decide_eq_false_2 by done. rewrite !(find32_spec Hr). unfold val_of.
  rewrite (swap_other _ STUN_ATTRIBUTE_LIFETIME) by done. rewrite Hfl. change (zlen (be_bytes 4 life) =? 4) with true.
  cbn [mbind res_bind]. rewrite be_value_bytes. change (256 ^ Z.of_nat 4) with (2 ^ 32). rewrite Z.mod_small by lia.
  destruct (spec_find (swap_realm_nonce msg STUN_ATTRIBUTE_BANDWIDTH) attrs) as [bw|]; [destruct (zlen bw =? 4)|];
    cbn [mbind res_bind]; (eexists; split; [reflexivity|done]).
Qed.

(** ** Examples *)

Definition ex_alloc_tid : list Z := [33; 18; 164; 66; 1; 2; 3; 4; 5; 6; 7; 8; 9; 10; 11; 12].
Definition ex_relay : sockaddr := sockaddr_in 0x3412 0x0100007f.
Definition ex_mapped : sockaddr := sockaddr_in 0x7856 0x0200000a.
Definition ex_alloc_attrs : list wattr :=
  [mkAttr STUN_ATTRIBUTE_RELAY_ADDRESS (addr_bytes (mask_addr ex_alloc_tid STUN_MAGIC_COOKIE ex_relay)) [];
   mkAttr STUN_ATTRIBUTE_XOR_MAPPED_ADDRESS (addr_bytes (mask_addr ex_alloc_tid STUN_MAGIC_COOKIE ex_mapped)) [];
   mkAttr STUN_ATTRIBUTE_LIFETIME (be_bytes 4 600) []].
Definition ex_alloc : StunMessage :=
  mkMessage None ([1; 3] ++ be_bytes 2 (zlen (enc_all ex_alloc_attrs)) ++ ex_alloc_tid ++ enc_all ex_alloc_attrs)
    52 None [] false.
Definition ex_out : turn_out := mkTurnOut (sockaddr_other 0, 128) (sockaddr_other 0, 128) None None None.

Lemma ex_alloc_repr : msg_repr ex_alloc [1; 3] ex_alloc_tid ex_alloc_attrs [].
Proof.
  constructor; try reflexivity.
  - repeat constructor; cbn [w_val w_pad w_type]; try (apply (bool_decide_eq_true_1 _); vm_compute; reflexivity).
  - apply (bool_decide_eq_true_1 _). vm_compute. reflexivity.
Qed.

Lemma turn_allocate_processed_witness :
  exists o', stun_usage_turn_process ex_alloc ex_out STUN_USAGE_TURN_COMPATIBILITY_RFC5766 =
      Ok (STUN_USAGE_TURN_RETURN_MAPPED_SUCCESS, o') /\
    to_relay o' = (ex_relay, sizeof_addr ex_relay) /\ to_mapped o' = (ex_mapped, sizeof_addr ex_mapped) /\
    to_lifetime o' = Some 600.
Proof.
  apply (turn_allocate_processed ex_alloc [1; 3] ex_alloc_tid ex_alloc_attrs [] 1 3 ex_relay ex_mapped 600 ex_out);
    try (vm_compute; reflexivity); try (vm_compute; split; discriminate); try lia.
  - apply ex_alloc_repr.
  - apply (bool_decide_eq_true_1 _). vm_compute. reflexivity.
  - vm_compute. split; split; (discriminate || reflexivity).
  - vm_compute. split; split; (discriminate || reflexivity).
Defined.
