(* ===== verification/PseudoTcpFifo.v ===== *)
(** * The ring buffer of pseudo-TCP (agent/pseudotcp.c, PseudoTcpFifo)

    The circular byte buffer that holds the data waiting to be acknowledged
    and the data waiting to be read.  Its operations are compared with the
    [ring]: the buffer rotated so that it starts at the read position. *)
From S2P Require Import Prelude CMem.

(** GLib's slice allocator: a block of the requested size whose contents are
    not specified. *)
Class SliceAlloc := {
  g_slice_alloc : Z -> list Z;
  g_slice_alloc_len : forall n, 0 <= n -> zlen (g_slice_alloc n) = n;
  g_slice_alloc_bytes : forall n, bytes (g_slice_alloc n)
}.

Record PseudoTcpFifo : Set := mkFifo {
  ff_buffer : list Z;
  ff_buffer_length : Z;
  ff_data_length : Z;
  ff_read_position : Z
}.

(** ** Operations *)

(** The struct is zeroed when the socket is allocated. *)
Definition pseudo_tcp_fifo_init {SA : SliceAlloc} (size : Z) : PseudoTcpFifo :=
  mkFifo (g_slice_alloc size) size 0 0.

Definition pseudo_tcp_fifo_clear (b : PseudoTcpFifo) : PseudoTcpFifo :=
  mkFifo [] 0 (ff_data_length b) (ff_read_position b).

Definition pseudo_tcp_fifo_get_buffered (b : PseudoTcpFifo) : Z := ff_data_length b.

Definition pseudo_tcp_fifo_set_capacity {SA : SliceAlloc} (b : PseudoTcpFifo) (size : Z) : res (bool * PseudoTcpFifo) :=
  if size <? ff_data_length b then Ok (false, b)
  else if negb (size =? ff_data_length b) then
    let copy := ff_data_length b in
    let tail_copy := Z.min copy (u64 (ff_buffer_length b - ff_read_position b)) in
    t ← rd_bytes (ff_buffer b) (ff_read_position b) tail_copy;
    buffer ← wr_bytes (g_slice_alloc size) 0 t;
    h ← rd_bytes (ff_buffer b) 0 (copy - tail_copy);
    buffer ← wr_bytes buffer tail_copy h;
    Ok (true, mkFifo buffer size (ff_data_length b) 0)
  else Ok (true, b).

(** [x % n]. *)
Definition umod (x n : Z) : res Z := if n =? 0 then Fault DivByZero else Ok (x mod n).

Definition pseudo_tcp_fifo_consume_read_data (b : PseudoTcpFifo) (size : Z) : res PseudoTcpFifo :=
  _ ← assert_ok (size <=? ff_data_length b);
  p ← umod (u64 (ff_read_position b + size)) (ff_buffer_length b);
  Ok (mkFifo (ff_buffer b) (ff_buffer_length b) (ff_data_length b - size) p).

Definition pseudo_tcp_fifo_consume_write_buffer (b : PseudoTcpFifo) (size : Z) : res PseudoTcpFifo :=
  _ ← assert_ok (size <=? u64 (ff_buffer_length b - ff_data_length b));
  Ok (mkFifo (ff_buffer b) (ff_buffer_length b) (ff_data_length b + size) (ff_read_position b)).

Definition pseudo_tcp_fifo_get_write_remaining (b : PseudoTcpFifo) : Z :=
  u64 (ff_buffer_length b - ff_data_length b).

(** The bytes copied to the caller's buffer are returned after their number. *)
Definition pseudo_tcp_fifo_read_offset (b : PseudoTcpFifo) (bytes offset : Z) : res (Z * list Z) :=
  let available := u64 (ff_data_length b - offset) in
  read_position ← umod (u64 (ff_read_position b + offset)) (ff_buffer_length b);
  let copy := Z.min bytes available in
  let tail_copy := Z.min copy (u64 (ff_buffer_length b - read_position)) in
  if ff_data_length b <=? offset then Ok (0, [])
  else
    t ← rd_bytes (ff_buffer b) read_position tail_copy;
    h ← rd_bytes (ff_buffer b) 0 (copy - tail_copy);
    Ok (copy, t ++ h).

Definition pseudo_tcp_fifo_write_offset (b : PseudoTcpFifo) (buffer : list Z) (bytes offset : Z)
    : res (Z * PseudoTcpFifo) :=
  let available := u64 (ff_buffer_length b - ff_data_length b - offset) in
  write_position ← umod (u64 (ff_read_position b + ff_data_length b + offset)) (ff_buffer_length b);
  let copy := Z.min bytes available in
  let tail_copy := Z.min copy (u64 (ff_buffer_length b - write_position)) in
  if ff_buffer_length b <=? u64 (ff_data_length b + offset) then Ok (0, b)
  else
    t ← rd_bytes buffer 0 tail_copy;
    buf ← wr_bytes (ff_buffer b) write_position t;
    h ← rd_bytes buffer tail_copy (copy - tail_copy);
    buf ← wr_bytes buf 0 h;
    Ok (copy, mkFifo buf (ff_buffer_length b) (ff_data_length b) (ff_read_position b)).

Definition pseudo_tcp_fifo_read (b : PseudoTcpFifo) (bytes : Z) : res (Z * list Z * PseudoTcpFifo) :=
  '(copy, data) ← pseudo_tcp_fifo_read_offset b bytes 0;
  p ← umod (u64 (ff_read_position b + copy)) (ff_buffer_length b);
  Ok (copy, data, mkFifo (ff_buffer b) (ff_buffer_length b) (ff_data_length b - copy) p).

Definition pseudo_tcp_fifo_write (b : PseudoTcpFifo) (buffer : list Z) (bytes : Z) : res (Z * PseudoTcpFifo) :=
  '(copy, b) ← pseudo_tcp_fifo_write_offset b buffer bytes 0;
  Ok (copy, mkFifo (ff_buffer b) (ff_buffer_length b) (ff_data_length b + copy) (ff_read_position b)).

(** ** The ring *)

Definition ring (b : PseudoTcpFifo) : list Z :=
  drop (Z.to_nat (ff_read_position b)) (ff_buffer b) ++ take (Z.to_nat (ff_read_position b)) (ff_buffer b).

(** The bytes waiting in the buffer, oldest first. *)
Definition contents (b : PseudoTcpFifo) : list Z := take (Z.to_nat (ff_data_length b)) (ring b).

Record fifo_ok (b : PseudoTcpFifo) : Prop := {
  fo_len : zlen (ff_buffer b) = ff_buffer_length b;
  fo_size : 0 < ff_buffer_length b < 2 ^ 62;
  fo_data : 0 <= ff_data_length b <= ff_buffer_length b;
  fo_pos : 0 <= ff_read_position b < ff_buffer_length b;
  fo_bytes : bytes (ff_buffer b)
}.

Lemma umod_Ok x n : n <> 0 -> umod x n = Ok (x mod n).
Proof. intros. unfold umod. by destruct (Z.eqb_spec n 0). Qed.

(** A buffer of [L] bytes read from position [p]: [A] before it, [B] from it on. *)
Lemma split_pos (l : list Z) p : 0 <= p <= zlen l ->
  exists A B, l = A ++ B /\ zlen A = p /\ take (Z.to_nat p) l = A /\ drop (Z.to_nat p) l = B.
Proof.
  intros. exists (take (Z.to_nat p) l), (drop (Z.to_nat p) l). rewrite take_drop, zlen_take by lia. done.
Qed.

Lemma wrap_cases p i L : 0 <= p < L -> 0 <= i < L ->
  (p + i < L /\ (p + i) mod L = p + i) \/ (L <= p + i /\ (p + i) mod L = p + i - L).
Proof.
  intros. destruct (Z_lt_ge_dec (p + i) L).
  - left. split; [lia|]. apply Z.mod_small. lia.
  - right. split; [lia|]. symmetry. apply (Z.mod_unique _ _ 1); lia.
Qed.

Lemma split_len (l : list Z) n : 0 <= n <= zlen l -> exists x y, l = x ++ y /\ zlen x = n.
Proof. intros. destruct (split_pos l n) as (x & y & ? & ? & _); [done|]. by exists x, y. Qed.

(** Reading [c] bytes from offset [i] in two pieces reads them from the ring. *)
Lemma ring_read buf p L i c : zlen buf = L -> 0 <= p < L -> 0 <= i < L -> 0 <= c -> i + c <= L ->
  let q := (p + i) mod L in let t := Z.min c (L - q) in
  exists x y, rd_bytes buf q t = Ok x /\ rd_bytes buf 0 (c - t) = Ok y /\
    x ++ y = slice (drop (Z.to_nat p) buf ++ take (Z.to_nat p) buf) i c.
Proof.
  intros HL Hp Hi Hc Hic. cbv zeta.
  destruct (split_pos buf p) as (A & B & -> & HA & -> & ->); [lia|]. rewrite zlen_app in HL.
  destruct (wrap_cases p i L) as [[Hw ->]|[Hw ->]]; [lia|lia| |].
  - destruct (split_len B i) as (B1 & B' & -> & HB1); [lia|]. zlen_norm.
    destruct (Z_le_gt_dec c (L - (p + i))).
    + destruct (split_len B' c) as (M & B2 & -> & HM); [lia|]. zlen_norm.
      rewrite Z.min_l by lia. rewrite (rd_bytes_eq _ (A ++ B1) M B2) by (rewrite <-?app_assoc; zlia || done).
      exists M, []. split; [done|]. rewrite Z.sub_diag. split; [by rewrite rd_bytes_Ok by zlia|].
      rewrite app_nil_r, <-!app_assoc, <-HB1, <-HM. symmetry. apply slice_app.
    + rewrite Z.min_r by lia. destruct (split_len A (c - (L - (p + i)))) as (M & A2 & -> & HM); [lia|]. zlen_norm.
      rewrite (rd_bytes_eq _ ((M ++ A2) ++ B1) B' []) by (rewrite ?app_nil_r, <-?app_assoc; zlia || done).
      rewrite (rd_bytes_eq _ [] M (A2 ++ B1 ++ B')) by (rewrite <-?app_assoc; zlia || done).
      exists B', M. do 2 (split; [done|]). rewrite <-!app_assoc, (app_assoc B' M A2), <-HB1.
      replace c with (zlen (B' ++ M)) by zlia. symmetry. apply slice_app.
  - destruct (split_len A (p + i - L)) as (A1 & A' & -> & HA1); [lia|]. zlen_norm.
    destruct (split_len A' c) as (M & A2 & -> & HM); [lia|]. zlen_norm. rewrite Z.min_l by lia.
    rewrite (rd_bytes_eq _ A1 M (A2 ++ B)) by (rewrite <-?app_assoc; zlia || done).
    exists M, []. split; [done|]. rewrite Z.sub_diag. split; [by rewrite rd_bytes_Ok by zlia|].
    rewrite app_nil_r, (app_assoc B A1), <-HM. replace i with (zlen (B ++ A1)) by zlia. symmetry. apply slice_app.
Qed.

(** Writing the bytes [src] from offset [i] in two pieces writes them into the ring. *)
Lemma ring_write buf p L i src : zlen buf = L -> 0 <= p < L -> 0 <= i < L -> i + zlen src <= L ->
  let q := (p + i) mod L in let t := Z.min (zlen src) (L - q) in
  exists b1 b2, wr_bytes buf q (take (Z.to_nat t) src) = Ok b1 /\ wr_bytes b1 0 (drop (Z.to_nat t) src) = Ok b2 /\
    zlen b2 = L /\
    drop (Z.to_nat p) b2 ++ take (Z.to_nat p) b2 =
    splice (drop (Z.to_nat p) buf ++ take (Z.to_nat p) buf) i src.
Proof.
  intros HL Hp Hi Hic. cbv zeta.
  assert (Hrot : forall A B : list Z, zlen A = p -> drop (Z.to_nat p) (A ++ B) ++ take (Z.to_nat p) (A ++ B) = B ++ A).
  { intros A B <-. rewrite to_nat_zlen, drop_app_length, take_app_length. done. }
  destruct (split_pos buf p) as (A & B & -> & HA & _); [lia|]. rewrite zlen_app in HL. rewrite (Hrot A B) by done.
  destruct (wrap_cases p i L) as [[Hw ->]|[Hw ->]]; [lia|lia| |].
  - destruct (split_len B i) as (B1 & B' & -> & HB1); [lia|]. zlen_norm.
    destruct (Z_le_gt_dec (zlen src) (L - (p + i))).
    + destruct (split_len B' (zlen src)) as (M & B2 & -> & HM); [zlia|]. zlen_norm.
      rewrite Z.min_l by lia. rewrite to_nat_zlen, firstn_all, skipn_all.
      rewrite (wr_bytes_eq _ (A ++ B1) M src B2) by (rewrite <-?app_assoc; zlia || done).
      do 2 eexists. split; [done|]. split; [by rewrite wr_bytes_Ok, splice_nil by zlia|].
      split; [zlia|]. rewrite <-!app_assoc, Hrot by done. rewrite <-HB1, splice_app by done.
      by rewrite <-!app_assoc.
    + rewrite Z.min_r by lia.
      destruct (split_pos src (L - (p + i))) as (s1 & s2 & -> & Hs1 & -> & ->); [zlia|]. zlen_norm.
      destruct (split_len A (zlen s2)) as (M & A2 & -> & HM); [zlia|]. zlen_norm.
      rewrite (wr_bytes_eq _ ((M ++ A2) ++ B1) B' s1 []) by (rewrite ?app_nil_r, <-?app_assoc; zlia || done).
      do 2 eexists. split; [done|].
      rewrite (wr_bytes_eq _ [] M s2 (A2 ++ B1 ++ s1)) by (rewrite ?app_nil_r, <-?app_assoc; zlia || done).
      split; [done|]. split; [zlia|].
      rewrite app_nil_l, (app_assoc s2 A2), Hrot by zlia.
      rewrite <-!app_assoc, (app_assoc B' M), <-HB1, splice_app by zlia. by rewrite <-!app_assoc.
  - destruct (split_len A (p + i - L)) as (A1 & A' & -> & HA1); [lia|]. zlen_norm.
    destruct (split_len A' (zlen src)) as (M & A2 & -> & HM); [zlia|]. zlen_norm.
    rewrite Z.min_l by lia. rewrite to_nat_zlen, firstn_all, skipn_all.
    rewrite (wr_bytes_eq _ A1 M src (A2 ++ B)) by (rewrite <-?app_assoc; zlia || done).
    do 2 eexists. split; [done|]. split; [by rewrite wr_bytes_Ok, splice_nil by zlia|].
    split; [zlia|]. replace (B ++ A1 ++ M ++ A2) with ((B ++ A1) ++ M ++ A2) by (by rewrite <-!app_assoc).
    replace i with (zlen (B ++ A1)) by zlia. rewrite splice_app by done.
    replace (A1 ++ src ++ A2 ++ B) with ((A1 ++ src ++ A2) ++ B) by (by rewrite <-!app_assoc).
    rewrite Hrot by zlia. by rewrite <-!app_assoc.
Qed.

(** ** Specification of the operations *)

Section ops.
Context (b : PseudoTcpFifo) (Hb : fifo_ok b).

Lemma zlen_ring : zlen (ring b) = ff_buffer_length b.
Proof. destruct Hb. unfold ring. rewrite zlen_app, zlen_take, zlen_drop; lia. Qed.

Lemma zlen_contents : zlen (contents b) = ff_data_length b.
Proof. destruct Hb. unfold contents. rewrite zlen_take; [done|]. rewrite zlen_ring. lia. Qed.

Lemma bytes_ring : bytes (ring b).
Proof.
  destruct Hb. unfold ring. apply bytes_app. split; [by apply Forall_drop|by apply Forall_take].
Qed.

Lemma bytes_contents : bytes (contents b).
Proof. pose proof bytes_ring as H. unfold contents. by apply Forall_take. Qed.

Lemma write_remaining_spec : pseudo_tcp_fifo_get_write_remaining b = ff_buffer_length b - ff_data_length b.
Proof. destruct Hb. apply u64_small. lia. Qed.

Lemma read_offset_spec n off :
  0 <= n -> 0 <= off <= ff_data_length b -> let c := Z.min n (ff_data_length b - off) in
  pseudo_tcp_fifo_read_offset b n off = Ok (c, slice (contents b) off c).
Proof.
  destruct Hb. intros. unfold pseudo_tcp_fifo_read_offset. rewrite umod_Ok by lia. cbn [mbind res_bind].
  rewrite (u64_small (ff_data_length b - off)), (u64_small (ff_read_position b + off)) by lia.
  destruct (Z.leb_spec (ff_data_length b) off).
  { unfold c. rewrite Z.min_r by lia. replace (ff_data_length b - off) with 0 by lia. done. }
  pose proof (Z.mod_pos_bound (ff_read_position b + off) (ff_buffer_length b) ltac:(lia)).
  rewrite u64_small by lia. fold c.
  destruct (ring_read (ff_buffer b) (ff_read_position b) (ff_buffer_length b) off c) as (x & y & -> & Hy & Hxy);
    try lia. cbn [mbind res_bind]. rewrite Hy. cbn [mbind res_bind]. rewrite Hxy. do 2 f_equal.
  fold (ring b). unfold contents, slice.
  rewrite skipn_firstn_comm, firstn_firstn. f_equal. lia.
Qed.

Lemma write_offset_spec src n off :
  bytes src -> 0 <= n <= zlen src -> 0 <= off -> ff_data_length b + off <= ff_buffer_length b ->
  let c := Z.min n (ff_buffer_length b - ff_data_length b - off) in
  exists b', pseudo_tcp_fifo_write_offset b src n off = Ok (c, b') /\ fifo_ok b' /\
    ff_buffer_length b' = ff_buffer_length b /\ ff_data_length b' = ff_data_length b /\
    ring b' = splice (ring b) (ff_data_length b + off) (take (Z.to_nat c) src).
Proof.
  destruct Hb. intros Hbs Hn Hoff Hle c. unfold pseudo_tcp_fifo_write_offset. rewrite umod_Ok by lia.
  cbn [mbind res_bind].
  rewrite (u64_small (ff_data_length b + off)), (u64_small (ff_buffer_length b - ff_data_length b - off)),
    (u64_small (ff_read_position b + ff_data_length b + off)) by lia. fold c.
  destruct (Z.leb_spec (ff_buffer_length b) (ff_data_length b + off)).
  { unfold c. rewrite Z.min_r by lia. replace (ff_buffer_length b - ff_data_length b - off) with 0 by lia.
    exists b. do 4 (split; [done|]). cbn. rewrite splice_nil; [done|]. rewrite zlen_ring. lia. }
  rewrite <-Z.add_assoc. set (i := ff_data_length b + off) in *.
  pose proof (Z.mod_pos_bound (ff_read_position b + i) (ff_buffer_length b) ltac:(lia)).
  rewrite u64_small by lia. set (q := (ff_read_position b + i) mod ff_buffer_length b) in *.
  assert (Hsrc : zlen (take (Z.to_nat c) src) = c) by (rewrite zlen_take; lia).
  assert (0 <= c) by lia. assert (Ht : 0 <= Z.min c (ff_buffer_length b - q) <= c) by lia.
  destruct (ring_write (ff_buffer b) (ff_read_position b) (ff_buffer_length b) i (take (Z.to_nat c) src))
    as (b1 & b2 & Hw1 & Hw2 & Hw3 & Hw4); try lia. fold q in Hw1, Hw2. rewrite Hsrc in Hw1, Hw2.
  set (t := Z.min c (ff_buffer_length b - q)) in *.
  rewrite !rd_bytes_Ok by lia. unfold slice. rewrite drop_0. cbn [mbind res_bind].
  assert (E1 : take (Z.to_nat t) src = take (Z.to_nat t) (take (Z.to_nat c) src)).
  { rewrite firstn_firstn. f_equal. lia. }
  assert (E2 : take (Z.to_nat (c - t)) (drop (Z.to_nat t) src) = drop (Z.to_nat t) (take (Z.to_nat c) src)).
  { rewrite skipn_firstn_comm. f_equal. lia. }
  rewrite E1, Hw1. cbn [mbind res_bind]. rewrite E2, Hw2. cbn [mbind res_bind].
  eexists. split; [done|]. split; [|done]. split; cbn; try done.
  eapply wr_bytes_bytes; [eapply wr_bytes_bytes; [exact fo_bytes0| |exact Hw1]| |exact Hw2];
    repeat (first [apply Forall_take|apply Forall_drop]); done.
Qed.
End ops.

(** Advancing the read position rotates the ring. *)
Lemma ring_rotate (buf : list Z) p L n : zlen buf = L -> 0 <= p < L -> 0 <= n <= L ->
  let p' := (p + n) mod L in let r := drop (Z.to_nat p) buf ++ take (Z.to_nat p) buf in
  drop (Z.to_nat p') buf ++ take (Z.to_nat p') buf = drop (Z.to_nat n) r ++ take (Z.to_nat n) r.
Proof.
  intros HL Hp Hn. cbv zeta.
  assert (Hrot : forall q (A B : list Z), zlen A = q ->
    drop (Z.to_nat q) (A ++ B) ++ take (Z.to_nat q) (A ++ B) = B ++ A).
  { intros q A B <-. by rewrite to_nat_zlen, drop_app_length, take_app_length. }
  destruct (split_pos buf p) as (A & B & -> & HA & _); [lia|]. zlen_norm. rewrite (Hrot p A B) by done.
  destruct (Z_lt_ge_dec (p + n) L).
  - rewrite Z.mod_small by lia. destruct (split_len B n) as (B1 & B2 & -> & HB); [zlia|].
    rewrite app_assoc, Hrot by zlia. rewrite <-(app_assoc B1), (Hrot n B1) by done. by rewrite <-!app_assoc.
  - rewrite <-(Z.mod_unique (p + n) L 1 (p + n - L)) by lia.
    destruct (split_len A (p + n - L)) as (A1 & A2 & -> & HA1); [zlia|].
    rewrite <-(app_assoc A1), Hrot by done. rewrite (app_assoc B A1 A2), (Hrot n (B ++ A1)) by zlia.
    by rewrite <-!app_assoc.
Qed.

Section ops2.
Context (b : PseudoTcpFifo) (Hb : fifo_ok b).

Definition advanced (n : Z) : PseudoTcpFifo :=
  mkFifo (ff_buffer b) (ff_buffer_length b) (ff_data_length b - n)
    ((ff_read_position b + n) mod ff_buffer_length b).

Lemma advanced_spec n : 0 <= n <= ff_data_length b ->
  fifo_ok (advanced n) /\ contents (advanced n) = drop (Z.to_nat n) (contents b) /\
  ring (advanced n) = drop (Z.to_nat n) (ring b) ++ take (Z.to_nat n) (ring b).
Proof.
  pose proof (zlen_ring b Hb) as HR. destruct Hb. intros.
  assert (Hr : ring (advanced n) = drop (Z.to_nat n) (ring b) ++ take (Z.to_nat n) (ring b)).
  { apply (ring_rotate _ _ (ff_buffer_length b)); try done; lia. }
  split; [|split; [|done]].
  - split; cbn; try done; try lia. apply Z.mod_pos_bound. lia.
  - unfold contents at 1. rewrite Hr. cbn [advanced ff_data_length].
    rewrite take_app_le by (rewrite length_drop; unfold zlen in *; lia).
    unfold contents. rewrite skipn_firstn_comm. f_equal. lia.
Qed.

Lemma consume_read_spec n : 0 <= n <= ff_data_length b ->
  pseudo_tcp_fifo_consume_read_data b n = Ok (advanced n).
Proof.
  destruct Hb. intros. unfold pseudo_tcp_fifo_consume_read_data. rewrite assert_ok_true by (apply Z.leb_le; lia).
  cbn [mbind res_bind]. rewrite umod_Ok, u64_small by lia. done.
Qed.

Lemma read_spec n : 0 <= n -> let c := Z.min n (ff_data_length b) in
  pseudo_tcp_fifo_read b n = Ok (c, take (Z.to_nat c) (contents b), advanced c).
Proof.
  intros Hn c. unfold pseudo_tcp_fifo_read. rewrite (read_offset_spec b Hb n 0) by (destruct Hb; lia).
  rewrite Z.sub_0_r. fold c. cbn [mbind res_bind].
  destruct Hb. rewrite umod_Ok, u64_small by lia. done.
Qed.

(** [n] bytes stored after the contents become part of them. *)
Definition extended (n : Z) : PseudoTcpFifo :=
  mkFifo (ff_buffer b) (ff_buffer_length b) (ff_data_length b + n) (ff_read_position b).

Lemma extended_spec n : 0 <= n <= ff_buffer_length b - ff_data_length b ->
  fifo_ok (extended n) /\ ring (extended n) = ring b /\
  contents (extended n) = contents b ++ slice (ring b) (ff_data_length b) n.
Proof.
  pose proof (zlen_ring b Hb) as HR. destruct Hb. intros. split; [split; cbn; try done; lia|].
  split; [done|]. unfold contents, slice. cbn [extended ff_data_length]. change (ring (extended n)) with (ring b).
  rewrite Z2Nat.inj_add by lia. rewrite <-take_take_drop. done.
Qed.

Lemma consume_write_spec n : 0 <= n <= ff_buffer_length b - ff_data_length b ->
  pseudo_tcp_fifo_consume_write_buffer b n = Ok (extended n).
Proof.
  destruct Hb. intros. unfold pseudo_tcp_fifo_consume_write_buffer.
  rewrite assert_ok_true; [done|]. apply Z.leb_le. rewrite u64_small; lia.
Qed.

Lemma write_spec src n : bytes src -> 0 <= n <= zlen src ->
  let c := Z.min n (ff_buffer_length b - ff_data_length b) in
  exists b', pseudo_tcp_fifo_write b src n = Ok (c, b') /\ fifo_ok b' /\
    ff_buffer_length b' = ff_buffer_length b /\ ff_data_length b' = ff_data_length b + c /\
    contents b' = contents b ++ take (Z.to_nat c) src.
Proof.
  intros Hs Hn c. unfold pseudo_tcp_fifo_write.
  destruct (write_offset_spec b Hb src n 0) as (b' & -> & Hb' & Hbl & Hdl & Hr); [done|done|lia|destruct Hb; lia|].
  rewrite Z.sub_0_r in *. fold c in Hr |- *. cbn [mbind res_bind]. rewrite Z.add_0_r in Hr.
  pose proof (zlen_ring b Hb) as HR. destruct Hb, Hb'.
  assert (Hc : zlen (take (Z.to_nat c) src) = c) by (rewrite zlen_take; lia).
  eexists. split; [done|]. split; [split; cbn; try done; lia|]. cbn. split; [done|]. split; [lia|].
  unfold contents. cbn [ff_data_length]. unfold ring at 1. cbn [ff_read_position ff_buffer]. fold (ring b'). rewrite Hr, Hdl.
  unfold splice. rewrite app_assoc. rewrite take_app_le; [apply take_ge|];
    rewrite length_app, length_take; unfold zlen in *; lia.
Qed.
End ops2.

Section capacity.
Context {SA : SliceAlloc}.

Lemma init_fifo_spec size : 0 < size < 2 ^ 62 ->
  fifo_ok (pseudo_tcp_fifo_init size) /\ contents (pseudo_tcp_fifo_init size) = [].
Proof.
  intros. split; [|done]. split; cbn; try lia; [apply g_slice_alloc_len; lia|apply g_slice_alloc_bytes].
Qed.

Lemma set_capacity_spec b size : fifo_ok b -> 0 <= size < 2 ^ 62 ->
  exists b', pseudo_tcp_fifo_set_capacity b size = Ok (ff_data_length b <=? size, b') /\ fifo_ok b' /\
    contents b' = contents b /\ ff_data_length b' = ff_data_length b /\
    ff_buffer_length b' = if ff_data_length b <? size then size else ff_buffer_length b.
Proof.
  intros Hb Hs. unfold pseudo_tcp_fifo_set_capacity.
  destruct (Z.ltb_spec size (ff_data_length b)), (Z.leb_spec (ff_data_length b) size),
    (Z.ltb_spec (ff_data_length b) size), (Z.eqb_spec size (ff_data_length b)); try lia; cbn [negb];
    try (exists b; done).
  pose proof (zlen_contents b Hb) as Hc. pose proof (bytes_contents b Hb) as Hcb.
  pose proof (zlen_ring b Hb) as HR. destruct Hb as [Hl Hsz Hd Hp Hby]. rewrite u64_small by lia.
  destruct (ring_read (ff_buffer b) (ff_read_position b) (ff_buffer_length b) 0 (ff_data_length b))
    as (x & y & Hx & Hy & Hxy); try lia.
  rewrite Z.add_0_r, Z.mod_small in * by lia. rewrite Hx. cbn [mbind res_bind].
  set (t := Z.min (ff_data_length b) (ff_buffer_length b - ff_read_position b)) in *.
  apply rd_bytes_inv in Hx as (?&?&?&Hx). pose proof (zlen_slice (ff_buffer b) (ff_read_position b) t) as Hxl.
  rewrite <-Hx in Hxl. fold (ring b) in Hxy. unfold slice in Hxy. rewrite drop_0 in Hxy. fold (contents b) in Hxy.
  assert (Hyl : t + zlen y = ff_data_length b) by (rewrite <-Hc, <-Hxy, zlen_app; lia).
  destruct (split_at (g_slice_alloc size) 0 t) as (l & m & r & Hal & Hl0 & Hm);
    [lia|lia|rewrite g_slice_alloc_len; lia|]. apply zlen_0_nil in Hl0 as ->.
  assert (Hr : zlen r = size - t) by (pose proof (g_slice_alloc_len size); rewrite Hal in *; zlia).
  rewrite (wr_bytes_eq _ [] m x r) by (done || lia). cbn [mbind res_bind app]. rewrite Hy. cbn [mbind res_bind].
  destruct (split_len r (zlen y)) as (m2 & r2 & -> & Hm2); [zlia|].
  rewrite (wr_bytes_eq _ x m2 y r2) by (done || lia). cbn [mbind res_bind].
  eexists. split; [done|]. split; [|split; [|done]].
  - split; cbn; try lia; [zlia|].
    pose proof (g_slice_alloc_bytes size) as Hba. rewrite Hal, app_assoc, <-Hxy in *.
    rewrite !bytes_app in *. tauto.
  - unfold contents at 1, ring. cbn. rewrite drop_0, take_0, app_nil_r, app_assoc, Hxy, <-Hc, to_nat_zlen.
    apply take_app_length.
Qed.

(** ** The queue it implements *)

Inductive fifo_op : Set :=
  | FWrite (data : list Z)
  | FRead (n : Z)
  | FPeek (n off : Z)
  | FConsume (n : Z)
  | FResize (size : Z)
  | FSizes.

Inductive fifo_out : Set :=
  | OCount (n : Z)
  | OBytes (data : list Z)
  | OFlag (f : bool)
  | OSizes (buffered remaining : Z)
  | ONone.

Definition fifo_step (b : PseudoTcpFifo) (op : fifo_op) : res (fifo_out * PseudoTcpFifo) :=
  match op with
  | FWrite data => '(n, b) ← pseudo_tcp_fifo_write b data (zlen data); Ok (OCount n, b)
  | FRead n => '(_, data, b) ← pseudo_tcp_fifo_read b n; Ok (OBytes data, b)
  | FPeek n off => '(_, data) ← pseudo_tcp_fifo_read_offset b n off; Ok (OBytes data, b)
  | FConsume n => b ← pseudo_tcp_fifo_consume_read_data b n; Ok (ONone, b)
  | FResize size => '(f, b) ← pseudo_tcp_fifo_set_capacity b size; Ok (OFlag f, b)
  | FSizes => Ok (OSizes (pseudo_tcp_fifo_get_buffered b) (pseudo_tcp_fifo_get_write_remaining b), b)
  end.

(** A bounded queue: its capacity and its bytes.  A resize to exactly the
    number of queued bytes keeps the capacity (pseudotcp.c:312). *)
Definition queue_step (s : Z * list Z) (op : fifo_op) : fifo_out * (Z * list Z) :=
  let '(cap, q) := s in
  match op with
  | FWrite data => let d := take (Z.to_nat (cap - zlen q)) data in (OCount (zlen d), (cap, q ++ d))
  | FRead n => (OBytes (take (Z.to_nat n) q), (cap, drop (Z.to_nat n) q))
  | FPeek n off => (OBytes (take (Z.to_nat n) (drop (Z.to_nat off) q)), s)
  | FConsume n => (ONone, (cap, drop (Z.to_nat n) q))
  | FResize size => (OFlag (zlen q <=? size), (if zlen q <? size then size else cap, q))
  | FSizes => (OSizes (zlen q) (cap - zlen q), s)
  end.

(** What the callers guarantee: byte data, sizes in range, and nothing
    consumed that is not there. *)
Definition op_allowed (q : list Z) (op : fifo_op) : Prop :=
  match op with
  | FWrite data => bytes data
  | FRead n => 0 <= n
  | FPeek n off => 0 <= n /\ 0 <= off <= zlen q
  | FConsume n => 0 <= n <= zlen q
  | FResize size => 0 <= size < 2 ^ 62
  | FSizes => True
  end.

Definition fifo_repr (b : PseudoTcpFifo) (s : Z * list Z) : Prop :=
  fifo_ok b /\ ff_buffer_length b = fst s /\ contents b = snd s.

Lemma take_min_zlen (l : list Z) n : take (Z.to_nat (Z.min n (zlen l))) l = take (Z.to_nat n) l.
Proof.
  destruct (Z_le_gt_dec n (zlen l)); [by rewrite Z.min_l by lia|].
  rewrite Z.min_r, !take_ge; unfold zlen in *; done || lia.
Qed.

Lemma drop_min_zlen (l : list Z) n : drop (Z.to_nat (Z.min n (zlen l))) l = drop (Z.to_nat n) l.
Proof.
  destruct (Z_le_gt_dec n (zlen l)); [by rewrite Z.min_l by lia|].
  rewrite Z.min_r, !drop_ge; unfold zlen in *; done || lia.
Qed.

Lemma fifo_step_refines b s op : fifo_repr b s -> op_allowed (snd s) op ->
  exists b', fifo_step b op = Ok (fst (queue_step s op), b') /\ fifo_repr b' (snd (queue_step s op)).
Proof.
  destruct s as [cap q]. intros (Hb & Hcap & Hq) Ha. cbn [fst snd] in *. subst.
  pose proof (zlen_contents b Hb) as Hc. pose proof Hb as [Hl Hsz Hd Hp Hby].
  destruct op as [data|n|n off|n|size|]; cbn [fifo_step queue_step fst snd op_allowed] in *.
  - destruct (write_spec b Hb data (zlen data)) as (b' & -> & Hb' & Hbl & Hdl & Hct); [done|zlen_pos; lia|].
    cbn [mbind res_bind]. exists b'. rewrite Hc.
    assert (E : take (Z.to_nat (Z.min (zlen data) (ff_buffer_length b - ff_data_length b))) data =
      take (Z.to_nat (ff_buffer_length b - ff_data_length b)) data).
    { rewrite Z.min_comm. apply take_min_zlen. }
    rewrite E in Hct. rewrite <-E at 1. rewrite zlen_take by (zlen_pos; lia). done.
  - rewrite (read_spec b Hb) by lia. cbn [mbind res_bind]. eexists. rewrite <-Hc, take_min_zlen. split; [done|].
    destruct (advanced_spec b Hb (Z.min n (zlen (contents b)))) as (Ho & Hct & _); [lia|].
    split; [done|]. split; [done|]. rewrite Hct. apply drop_min_zlen.
  - rewrite (read_offset_spec b Hb) by lia. cbn [mbind res_bind]. exists b. split; [|done]. do 3 f_equal.
    unfold slice. rewrite <-Hc. replace (zlen (contents b) - off) with (zlen (drop (Z.to_nat off) (contents b)))
      by (rewrite zlen_drop; lia). apply take_min_zlen.
  - rewrite (consume_read_spec b Hb) by lia. cbn [mbind res_bind]. eexists. split; [done|].
    destruct (advanced_spec b Hb n) as (Ho & Hct & _); [lia|]. done.
  - destruct (set_capacity_spec b size Hb) as (b' & -> & Hb' & Hct & Hdl & Hbl); [lia|]. cbn [mbind res_bind].
    exists b'. rewrite Hc. done.
  - exists b. rewrite write_remaining_spec by done. unfold pseudo_tcp_fifo_get_buffered. rewrite Hc. done.
Qed.

Fixpoint fifo_run (b : PseudoTcpFifo) (ops : list fifo_op) : res (list fifo_out) :=
  match ops with
  | [] => Ok []
  | op :: ops => '(o, b) ← fifo_step b op; os ← fifo_run b ops; Ok (o :: os)
  end.

Fixpoint queue_run (s : Z * list Z) (ops : list fifo_op) : list fifo_out :=
  match ops with
  | [] => []
  | op :: ops => let '(o, s) := queue_step s op in o :: queue_run s ops
  end.

Fixpoint ops_allowed (s : Z * list Z) (ops : list fifo_op) : Prop :=
  match ops with
  | [] => True
  | op :: ops => op_allowed (snd s) op /\ ops_allowed (snd (queue_step s op)) ops
  end.

(** C23: the ring buffer is a bounded byte queue: any sequence of writes,
    reads, reads at an offset, consumptions and resizes that a caller may make
    on a freshly initialised buffer runs without an access outside it, and
    returns what the same sequence returns on a plain list of bytes. *)
Theorem fifo_refines_queue size ops :
  0 < size < 2 ^ 62 -> ops_allowed (size, []) ops ->
  fifo_run (pseudo_tcp_fifo_init size) ops = Ok (queue_run (size, []) ops).
Proof.
  intros Hs. destruct (init_fifo_spec size Hs) as [Ho Hc].
  assert (Hr : fifo_repr (pseudo_tcp_fifo_init size) (size, [])) by done. clear Ho Hc. revert Hr.
  generalize (pseudo_tcp_fifo_init size), (size, @nil Z). clear. intros b s.
  revert b s. induction ops as [|op ops IH]; intros b s Hr; [done|]. intros [Ha Has].
  destruct (fifo_step_refines b s op Hr Ha) as (b' & Hstep & Hr'). cbn [fifo_run queue_run]. rewrite Hstep.
  cbn [mbind res_bind]. rewrite (IH b' _ Hr' Has). by destruct (queue_step s op).
Qed.
End capacity.

Lemma zero_alloc_len n : 0 <= n -> zlen (replicate (Z.to_nat n) 0) = n.
Proof. intros. rewrite zlen_replicate. lia. Qed.

Lemma zero_alloc_bytes n : bytes (replicate (Z.to_nat n) 0).
Proof. apply bytes_replicate. done. Qed.

(** An allocator that returns zeroed blocks. *)
Definition zero_alloc : SliceAlloc :=
  {| g_slice_alloc n := replicate (Z.to_nat n) 0;
     g_slice_alloc_len := zero_alloc_len; g_slice_alloc_bytes := fun n => zero_alloc_bytes n |}.

Lemma fifo_refines_queue_witness :
  fifo_run (SA := zero_alloc) (pseudo_tcp_fifo_init (SA := zero_alloc) 4)
    [FWrite [1; 2; 3]; FRead 2; FWrite [4; 5; 6; 7]; FPeek 9 1; FResize 6; FConsume 1; FSizes] =
  Ok [OCount 3; OBytes [1; 2]; OCount 3; OBytes [4; 5; 6]; OFlag true; ONone; OSizes 3 3].
Proof.
  apply (fifo_refines_queue (SA := zero_alloc) 4); [lia|]. cbn. unfold zlen. cbn.
  repeat split; try lia; apply (bool_decide_eq_true_1 _); vm_compute; reflexivity.
Defined.
