(* ===== verification/PseudoTcpTypes.v ===== *)
(** * Pseudo-TCP: data types and sequence arithmetic (agent/pseudotcp.c, pseudotcp.h)

    The constants, the segments, the socket's private struct and the
    comparisons of 32-bit sequence numbers and times. *)
From S2P Require Import Prelude CMem PseudoTcpFifo.

(** ** Constants *)

Definition PACKET_MAXIMUMS : list Z := [65535; 32000; 17914; 8166; 4352; 2002; 1492; 1006; 508; 296; 0].
Definition DEF_MTU : Z := 1400.
Definition MAX_PACKET : Z := 65532.
Definition MIN_PACKET : Z := 296.
Definition IP_HEADER_SIZE : Z := 20.
Definition UDP_HEADER_SIZE : Z := 8.
Definition JINGLE_HEADER_SIZE : Z := 64.
Definition HEADER_SIZE : Z := 24.
Definition PACKET_OVERHEAD : Z := HEADER_SIZE + UDP_HEADER_SIZE + IP_HEADER_SIZE + JINGLE_HEADER_SIZE.
Definition MIN_RTO : Z := 1000.
Definition DEF_RTO : Z := 1000.
Definition MAX_RTO : Z := 60000.
Definition DEFAULT_ACK_DELAY : Z := 100.
Definition DEFAULT_NO_DELAY : bool := true.
Definition DEFAULT_RCV_BUF_SIZE : Z := 60 * 1024.
Definition DEFAULT_SND_BUF_SIZE : Z := 90 * 1024.
Definition TCP_OPT_EOL : Z := 0.
Definition TCP_OPT_NOOP : Z := 1.
Definition TCP_OPT_MSS : Z := 2.
Definition TCP_OPT_WND_SCALE : Z := 3.
Definition TCP_OPT_FIN_ACK : Z := 254.
Definition FLAG_NONE : Z := 0.
Definition FLAG_FIN : Z := 1.
Definition FLAG_CTL : Z := 2.
Definition FLAG_RST : Z := 4.
Definition CTL_CONNECT : Z := 0.
Definition DEFAULT_TIMEOUT : Z := 4000.
Definition CLOSED_TIMEOUT : Z := 60 * 1000.
Definition TIME_WAIT_TIMEOUT : Z := 1.

(** [errno] values of the x86-64 Linux ABI. *)
Definition EWOULDBLOCK : Z := 11.
Definition EINVAL : Z := 22.
Definition EPIPE : Z := 32.
Definition EMSGSIZE : Z := 90.
Definition ECONNABORTED : Z := 103.
Definition ECONNRESET : Z := 104.
Definition ENOTCONN : Z := 107.
Definition ETIMEDOUT : Z := 110.

(** ** Sequence numbers and times *)

Definition bound (lower middle upper : Z) : Z := Z.min (Z.max lower middle) upper.

Definition time_is_between (later middle earlier : Z) : bool :=
  if earlier <=? later then (earlier <=? middle) && (middle <=? later)
  else negb ((later <? middle) && (middle <? earlier)).

Definition time_diff (later earlier : Z) : Z :=
  let LAST := 0xFFFFFFFF in
  let HALF := 0x80000000 in
  s32 (if time_is_between (u32 (earlier + HALF)) later earlier then
         if earlier <=? later then u32 (later - earlier) else u32 (later + (LAST - earlier) + 1)
       else
         if later <=? earlier then - u32 (earlier - later) else - u32 (earlier + (LAST - later) + 1)).

Definition LARGER (a b : Z) : bool := u32 (a - b - 1) <? 0x7FFFFFFF.
Definition LARGER_OR_EQUAL (a b : Z) : bool := u32 (a - b) <? 0x7FFFFFFF.
Definition SMALLER (a b : Z) : bool := LARGER b a.
Definition SMALLER_OR_EQUAL (a b : Z) : bool := LARGER_OR_EQUAL b a.

(** ** The socket *)

Inductive PseudoTcpState : Set :=
  | PSEUDO_TCP_LISTEN
  | PSEUDO_TCP_SYN_SENT
  | PSEUDO_TCP_SYN_RECEIVED
  | PSEUDO_TCP_ESTABLISHED
  | PSEUDO_TCP_CLOSED
  | PSEUDO_TCP_FIN_WAIT_1
  | PSEUDO_TCP_FIN_WAIT_2
  | PSEUDO_TCP_CLOSING
  | PSEUDO_TCP_TIME_WAIT
  | PSEUDO_TCP_CLOSE_WAIT
  | PSEUDO_TCP_LAST_ACK.

Inductive PseudoTcpWriteResult : Set := WR_SUCCESS | WR_TOO_LARGE | WR_FAIL.
Inductive PseudoTcpShutdown : Set := PSEUDO_TCP_SHUTDOWN_RD | PSEUDO_TCP_SHUTDOWN_WR | PSEUDO_TCP_SHUTDOWN_RDWR.
Inductive Shutdown : Set := SD_NONE | SD_GRACEFUL | SD_FORCEFUL.
Inductive SendFlags : Set := sfNone | sfDelayedAck | sfImmediateAck | sfFin | sfRst | sfDuplicateAck.
Inductive ClosedownSource : Set := CLOSEDOWN_LOCAL | CLOSEDOWN_REMOTE.

#[global] Instance PseudoTcpState_eq_dec : EqDecision PseudoTcpState.
Proof. solve_decision. Defined.
#[global] Instance PseudoTcpWriteResult_eq_dec : EqDecision PseudoTcpWriteResult.
Proof. solve_decision. Defined.
#[global] Instance Shutdown_eq_dec : EqDecision Shutdown.
Proof. solve_decision. Defined.
#[global] Instance SendFlags_eq_dec : EqDecision SendFlags.
Proof. solve_decision. Defined.
#[global] Instance PseudoTcpShutdown_eq_dec : EqDecision PseudoTcpShutdown.
Proof. solve_decision. Defined.

(** Which of the optional callbacks are set; [WritePacket] always is. *)
Record PseudoTcpCallbacks : Set := mkCallbacks {
  PseudoTcpOpened : bool;
  PseudoTcpReadable : bool;
  PseudoTcpWritable : bool;
  PseudoTcpClosed : bool
}.

(** Calls of the callbacks.  The application acts on them after the
    operation that made the call has returned. *)
Inductive event : Set :=
  | EvPacket (data : list Z) (r : PseudoTcpWriteResult)
  | EvOpened
  | EvReadable
  | EvWritable
  | EvClosed (err : Z).

(** A received segment; [seg_data] and [seg_len] are its payload. *)
Record Segment : Set := mkSegment {
  seg_conv : Z; seg_seq : Z; seg_ack : Z;
  seg_flags : Z;
  seg_wnd : Z;
  seg_data : list Z;
  seg_len : Z;
  seg_tsval : Z; seg_tsecr : Z
}.

(** A segment of the send queue; [ss_ptr] is its address. *)
Record SSegment : Set := mkSSegment {
  ss_ptr : Z;
  ss_seq : Z; ss_len : Z;
  ss_xmit : Z;
  ss_flags : Z
}.

Record RSegment : Set := mkRSegment { rs_seq : Z; rs_len : Z }.

Record PseudoTcpSocket : Set := mkSocket {
  callbacks : PseudoTcpCallbacks;
  shutdown : Shutdown;   (** only used without FIN-ACK support *)
  shutdown_reads : bool;
  error : Z;
  state : PseudoTcpState;
  conv : Z;
  bReadEnable : bool;
  bWriteEnable : bool;
  bOutgoing : bool;
  last_traffic : Z;
  rlist : list RSegment;
  rbuf_len : Z;
  rcv_nxt : Z;
  rcv_wnd : Z;
  lastrecv : Z;
  rwnd_scale : Z;
  rbuf : PseudoTcpFifo;
  rcv_fin : Z;   (** sequence number of the received FIN, or 0 *)
  slist : list SSegment;
  unsent_slist : list Z;   (** pointers into [slist] *)
  sbuf_len : Z;
  snd_nxt : Z;
  snd_wnd : Z;
  lastsend : Z;
  snd_una : Z;   (** oldest unacknowledged sequence number *)
  swnd_scale : Z;
  sbuf : PseudoTcpFifo;
  mss : Z;
  msslevel : Z;
  largest : Z;
  mtu_advise : Z;
  rto_base : Z;
  ts_recent : Z;
  ts_lastack : Z;
  rx_rttvar : Z;
  rx_srtt : Z;
  rx_rto : Z;
  ssthresh : Z;
  cwnd : Z;
  dup_acks : Z;
  recover : Z;
  fast_recovery : bool;
  t_ack : Z;   (** time a delayed ack was scheduled, or 0 *)
  last_acked_ts : Z;
  use_nagling : bool;
  ack_delay : Z;
  support_wnd_scale : bool;
  current_time : Z;
  support_fin_ack : bool;
  next_ptr : Z;   (** address of the next [SSegment] to be allocated *)
  ticks : nat;   (** how often the monotonic clock was read *)
  trace : list event   (** what the socket did to its environment, latest first *)
}.

(** ** Field updates

    [s <| f := v |>] is [s] after the assignment [f = v]. *)

Class Updater {A : Type} (f : PseudoTcpSocket -> A) : Type :=
  update : (A -> A) -> PseudoTcpSocket -> PseudoTcpSocket.
#[global] Hint Mode Updater - ! : typeclass_instances.
Arguments update {A} f {_} g s.

Notation "s <| f := v |>" := (update f (fun _ => v) s)
  (at level 1, left associativity, f at level 1, v at level 200, format "s  <| f  :=  v |>").

Definition eta (s : PseudoTcpSocket) : PseudoTcpSocket :=
  mkSocket
    (callbacks s) (shutdown s) (shutdown_reads s) (error s) (state s) (conv s) (bReadEnable s) (bWriteEnable s)
    (bOutgoing s) (last_traffic s) (rlist s) (rbuf_len s) (rcv_nxt s) (rcv_wnd s) (lastrecv s) (rwnd_scale s)
    (rbuf s) (rcv_fin s) (slist s) (unsent_slist s) (sbuf_len s) (snd_nxt s) (snd_wnd s) (lastsend s)
    (snd_una s) (swnd_scale s) (sbuf s) (mss s) (msslevel s) (largest s) (mtu_advise s) (rto_base s)
    (ts_recent s) (ts_lastack s) (rx_rttvar s) (rx_srtt s) (rx_rto s) (ssthresh s) (cwnd s) (dup_acks s)
    (recover s) (fast_recovery s) (t_ack s) (last_acked_ts s) (use_nagling s) (ack_delay s)
    (support_wnd_scale s) (current_time s) (support_fin_ack s) (next_ptr s) (ticks s) (trace s).

Ltac updater :=
  lazymatch goal with |- Updater ?f =>
    let g := fresh "g" in let s := fresh "s" in
    intros g s;
    let e := eval cbv beta delta [eta] in (eta s) in
    let e := eval pattern (f s) in e in
    lazymatch e with ?h _ => let t := eval cbv beta in (h (g (f s))) in exact t end
  end.

#[global] Instance upd_callbacks : Updater callbacks := ltac:(updater).
#[global] Instance upd_shutdown : Updater shutdown := ltac:(updater).
#[global] Instance upd_shutdown_reads : Updater shutdown_reads := ltac:(updater).
#[global] Instance upd_error : Updater error := ltac:(updater).
#[global] Instance upd_state : Updater state := ltac:(updater).
#[global] Instance upd_conv : Updater conv := ltac:(updater).
#[global] Instance upd_bReadEnable : Updater bReadEnable := ltac:(updater).
#[global] Instance upd_bWriteEnable : Updater bWriteEnable := ltac:(updater).
#[global] Instance upd_bOutgoing : Updater bOutgoing := ltac:(updater).
#[global] Instance upd_last_traffic : Updater last_traffic := ltac:(updater).
#[global] Instance upd_rlist : Updater rlist := ltac:(updater).
#[global] Instance upd_rbuf_len : Updater rbuf_len := ltac:(updater).
#[global] Instance upd_rcv_nxt : Updater rcv_nxt := ltac:(updater).
#[global] Instance upd_rcv_wnd : Updater rcv_wnd := ltac:(updater).
#[global] Instance upd_lastrecv : Updater lastrecv := ltac:(updater).
#[global] Instance upd_rwnd_scale : Updater rwnd_scale := ltac:(updater).
#[global] Instance upd_rbuf : Updater rbuf := ltac:(updater).
#[global] Instance upd_rcv_fin : Updater rcv_fin := ltac:(updater).
#[global] Instance upd_slist : Updater slist := ltac:(updater).
#[global] Instance upd_unsent_slist : Updater unsent_slist := ltac:(updater).
#[global] Instance upd_sbuf_len : Updater sbuf_len := ltac:(updater).
#[global] Instance upd_snd_nxt : Updater snd_nxt := ltac:(updater).
#[global] Instance upd_snd_wnd : Updater snd_wnd := ltac:(updater).
#[global] Instance upd_lastsend : Updater lastsend := ltac:(updater).
#[global] Instance upd_snd_una : Updater snd_una := ltac:(updater).
#[global] Instance upd_swnd_scale : Updater swnd_scale := ltac:(updater).
#[global] Instance upd_sbuf : Updater sbuf := ltac:(updater).
#[global] Instance upd_mss : Updater mss := ltac:(updater).
#[global] Instance upd_msslevel : Updater msslevel := ltac:(updater).
#[global] Instance upd_largest : Updater largest := ltac:(updater).
#[global] Instance upd_mtu_advise : Updater mtu_advise := ltac:(updater).
#[global] Instance upd_rto_base : Updater rto_base := ltac:(updater).
#[global] Instance upd_ts_recent : Updater ts_recent := ltac:(updater).
#[global] Instance upd_ts_lastack : Updater ts_lastack := ltac:(updater).
#[global] Instance upd_rx_rttvar : Updater rx_rttvar := ltac:(updater).
#[global] Instance upd_rx_srtt : Updater rx_srtt := ltac:(updater).
#[global] Instance upd_rx_rto : Updater rx_rto := ltac:(updater).
#[global] Instance upd_ssthresh : Updater ssthresh := ltac:(updater).
#[global] Instance upd_cwnd : Updater cwnd := ltac:(updater).
#[global] Instance upd_dup_acks : Updater dup_acks := ltac:(updater).
#[global] Instance upd_recover : Updater recover := ltac:(updater).
#[global] Instance upd_fast_recovery : Updater fast_recovery := ltac:(updater).
#[global] Instance upd_t_ack : Updater t_ack := ltac:(updater).
#[global] Instance upd_last_acked_ts : Updater last_acked_ts := ltac:(updater).
#[global] Instance upd_use_nagling : Updater use_nagling := ltac:(updater).
#[global] Instance upd_ack_delay : Updater ack_delay := ltac:(updater).
#[global] Instance upd_support_wnd_scale : Updater support_wnd_scale := ltac:(updater).
#[global] Instance upd_current_time : Updater current_time := ltac:(updater).
#[global] Instance upd_support_fin_ack : Updater support_fin_ack := ltac:(updater).
#[global] Instance upd_next_ptr : Updater next_ptr := ltac:(updater).
#[global] Instance upd_ticks : Updater ticks := ltac:(updater).
#[global] Instance upd_trace : Updater trace := ltac:(updater).

(** Read fields through updates.  The equations are checked for a variable
    socket, so that their cost does not depend on the term at hand. *)
Ltac read_update p q k :=
  lazymatch p with @update _ _ _ _ => fail | _ => idtac end;
  let L := fresh "L" in
  first [constr_eq p q; assert (L : forall s g, p (update p g s) = g (p s)) by (intros; reflexivity)
        |assert (L : forall s g, p (update q g s) = p s) by (intros; reflexivity)];
  k L; clear L.
Ltac psimpl :=
  repeat match goal with
  | |- context [?p (update ?q ?g ?s)] => read_update p q ltac:(fun L => rewrite (L s g); cbv beta)
  end.
Ltac psimpl_in H :=
  repeat match type of H with
  | context [?p (update ?q ?g ?s)] => read_update p q ltac:(fun L => rewrite (L s g) in H; cbv beta in H)
  end.

(** ** Wrap-around *)

Lemma u32_diff x y : exists k, u32 x - u32 y = x - y + k * 4294967296.
Proof.
  exists (y / 4294967296 - x / 4294967296). unfold u32.
  pose proof (Z.div_mod x 4294967296 ltac:(lia)). pose proof (Z.div_mod y 4294967296 ltac:(lia)). lia.
Qed.

(** [u32 x] is the representative of [x] in [0, 2^32). *)
Lemma u32_rep x y : 0 <= y < 4294967296 -> (exists k, y = x + k * 4294967296) -> u32 x = y.
Proof.
  intros Hy [k Hk]. unfold u32. symmetry. apply (Z.mod_unique _ _ (- k)); lia.
Qed.

Lemma u32_sub x y : 0 <= x - y < 4294967296 -> u32 (u32 x - u32 y) = x - y.
Proof. intros. destruct (u32_diff x y) as [k Hk]. apply u32_rep; [lia|]. exists (- k). lia. Qed.

Lemma u32_congr x y : (exists k, x = y + k * 4294967296) -> u32 x = u32 y.
Proof.
  intros [k ->]. unfold u32. rewrite Z_mod_plus_full. done.
Qed.

Lemma u32_idem x : u32 (u32 x) = u32 x.
Proof. apply u32_small. apply u32_range. Qed.

Lemma time_diff_spec a b : 0 <= a < 4294967296 -> 0 <= b < 4294967296 -> time_diff a b = s32 (a - b).
Proof.
  intros. unfold time_diff, time_is_between.
  assert (Hs : forall x y, (exists k, x = y + k * 4294967296) -> s32 x = s32 y).
  { intros x y Hk. unfold s32. by rewrite (u32_congr x y Hk). }
  assert (Hu : forall x, exists k, u32 x = x + k * 4294967296).
  { intros x. exists (- (x / 4294967296)). unfold u32. pose proof (Z.div_mod x 4294967296 ltac:(lia)). lia. }
  apply Hs.
  destruct (Hu (a - b)) as [k1 E1], (Hu (a + (0xFFFFFFFF - b) + 1)) as [k2 E2], (Hu (b - a)) as [k3 E3],
    (Hu (b + (0xFFFFFFFF - a) + 1)) as [k4 E4].
  repeat case_match; first [exists k1; lia|exists (k2 + 1); lia|exists (- k3); lia|exists (- k4 - 1); lia].
Qed.

(** The comparison macros order positions less than 2^31 - 1 apart. *)
Lemma larger_spec x y : -2147483647 < x - y < 2147483647 ->
  LARGER (u32 x) (u32 y) = (y <? x) /\ LARGER_OR_EQUAL (u32 x) (u32 y) = (y <=? x).
Proof.
  intros Hxy. destruct (u32_diff x y) as [k Hk]. unfold LARGER, LARGER_OR_EQUAL. split.
  - destruct (Z.ltb_spec y x).
    + rewrite (u32_rep _ (x - y - 1)); [apply Z.ltb_lt; lia|lia|exists (- k); lia].
    + rewrite (u32_rep _ (x - y - 1 + 4294967296)); [apply Z.ltb_ge; lia|lia|exists (1 - k); lia].
  - destruct (Z.leb_spec y x).
    + rewrite (u32_rep _ (x - y)); [apply Z.ltb_lt; lia|lia|exists (- k); lia].
    + rewrite (u32_rep _ (x - y + 4294967296)); [apply Z.ltb_ge; lia|lia|exists (1 - k); lia].
Qed.

(** Sequence numbers and times may wrap around: for two positions less
    than 2^31 - 1 apart, whatever their reductions modulo 2^32, the
    comparison macros order the reductions as the positions themselves are
    ordered, and [time_diff] returns the distance, with its sign. *)
Theorem sequence_wraparound x y :
  -2147483647 < x - y < 2147483647 ->
  LARGER (u32 x) (u32 y) = (y <? x) /\ LARGER_OR_EQUAL (u32 x) (u32 y) = (y <=? x) /\
  SMALLER (u32 x) (u32 y) = (x <? y) /\ SMALLER_OR_EQUAL (u32 x) (u32 y) = (x <=? y) /\
  time_diff (u32 x) (u32 y) = x - y.
Proof.
  intros Hxy. destruct (larger_spec x y Hxy), (larger_spec y x ltac:(lia)). do 4 (split; [done|]).
  rewrite time_diff_spec by apply u32_range. destruct (s32_spec (u32 x - u32 y)) as [? [j Hj]].
  destruct (u32_diff x y) as [k Hk]. assert (j + k = 0) by lia. lia.
Qed.

Lemma sequence_wraparound_witness :
  LARGER 5 4294967290 = true /\ LARGER_OR_EQUAL 5 4294967290 = true /\ SMALLER 5 4294967290 = false /\
  SMALLER_OR_EQUAL 5 4294967290 = false /\ time_diff 5 4294967290 = 11.
Proof. apply (sequence_wraparound (4294967296 + 5) 4294967290). lia. Defined.
