(* ===== verification/PseudoTcp.v ===== *)
(** * Pseudo-TCP: the socket's operations (agent/pseudotcp.c)

    Every operation of the socket as a function on [PseudoTcpSocket].  What
    the socket asks of its environment (the [WritePacket] callback, the
    monotonic clock, the allocator) is the class [PtcpEnv]; a failing
    [g_assert], a null or dangling pointer and an undefined shift are
    [Fault]s. *)
From S2P Require Import Prelude CMem PseudoTcpFifo PseudoTcpTypes.

(** [WritePacket] may answer differently every time: its result depends on
    everything the socket did before. *)
Class PtcpEnv := {
  ptcp_alloc :: SliceAlloc;
  WritePacket : list event -> list Z -> PseudoTcpWriteResult;
  g_get_monotonic_time : nat -> Z
}.

Section ptcp.
Context {E : PtcpEnv}.
Implicit Types s : PseudoTcpSocket.

(** ** Clock, state and callbacks *)

Definition get_current_time s : Z * PseudoTcpSocket :=
  if negb (current_time s =? 0) then (current_time s, s)
  else (u32 (g_get_monotonic_time (ticks s) / 1000), s <| ticks := S (ticks s) |>).

Definition pseudo_tcp_socket_set_time s (time : Z) : PseudoTcpSocket := s <| current_time := time |>.

Definition emit (e : event) s : PseudoTcpSocket := s <| trace := e :: trace s |>.

Definition pseudo_tcp_state_has_sent_fin (st : PseudoTcpState) : bool :=
  match st with
  | PSEUDO_TCP_LISTEN | PSEUDO_TCP_SYN_SENT | PSEUDO_TCP_SYN_RECEIVED | PSEUDO_TCP_ESTABLISHED
  | PSEUDO_TCP_CLOSE_WAIT => false
  | PSEUDO_TCP_CLOSED | PSEUDO_TCP_FIN_WAIT_1 | PSEUDO_TCP_FIN_WAIT_2 | PSEUDO_TCP_CLOSING
  | PSEUDO_TCP_TIME_WAIT | PSEUDO_TCP_LAST_ACK => true
  end.

Definition pseudo_tcp_state_has_received_fin (st : PseudoTcpState) : bool :=
  match st with
  | PSEUDO_TCP_LISTEN | PSEUDO_TCP_SYN_SENT | PSEUDO_TCP_SYN_RECEIVED | PSEUDO_TCP_ESTABLISHED
  | PSEUDO_TCP_FIN_WAIT_1 | PSEUDO_TCP_FIN_WAIT_2 => false
  | PSEUDO_TCP_CLOSED | PSEUDO_TCP_CLOSING | PSEUDO_TCP_TIME_WAIT | PSEUDO_TCP_CLOSE_WAIT
  | PSEUDO_TCP_LAST_ACK => true
  end.

Definition pseudo_tcp_state_has_received_fin_ack (st : PseudoTcpState) : bool :=
  match st with
  | PSEUDO_TCP_CLOSED | PSEUDO_TCP_TIME_WAIT => true
  | _ => false
  end.

(** The transitions [set_state] asserts. *)
Definition valid_transition (old new : PseudoTcpState) : bool :=
  match old, new with
  | PSEUDO_TCP_CLOSED, PSEUDO_TCP_SYN_SENT
  | PSEUDO_TCP_SYN_SENT, PSEUDO_TCP_CLOSED
  | PSEUDO_TCP_CLOSED, PSEUDO_TCP_LISTEN
  | PSEUDO_TCP_LISTEN, PSEUDO_TCP_CLOSED
  | PSEUDO_TCP_LISTEN, PSEUDO_TCP_SYN_SENT
  | PSEUDO_TCP_LISTEN, PSEUDO_TCP_SYN_RECEIVED
  | PSEUDO_TCP_SYN_SENT, PSEUDO_TCP_SYN_RECEIVED
  | PSEUDO_TCP_SYN_RECEIVED, PSEUDO_TCP_ESTABLISHED
  | PSEUDO_TCP_SYN_SENT, PSEUDO_TCP_ESTABLISHED
  | PSEUDO_TCP_SYN_RECEIVED, PSEUDO_TCP_FIN_WAIT_1
  | PSEUDO_TCP_ESTABLISHED, PSEUDO_TCP_FIN_WAIT_1
  | PSEUDO_TCP_ESTABLISHED, PSEUDO_TCP_CLOSE_WAIT
  | PSEUDO_TCP_FIN_WAIT_1, PSEUDO_TCP_FIN_WAIT_2
  | PSEUDO_TCP_FIN_WAIT_1, PSEUDO_TCP_CLOSING
  | PSEUDO_TCP_CLOSE_WAIT, PSEUDO_TCP_LAST_ACK
  | PSEUDO_TCP_FIN_WAIT_2, PSEUDO_TCP_TIME_WAIT
  | PSEUDO_TCP_CLOSING, PSEUDO_TCP_TIME_WAIT
  | PSEUDO_TCP_LAST_ACK, PSEUDO_TCP_CLOSED
  | PSEUDO_TCP_TIME_WAIT, PSEUDO_TCP_CLOSED
  | PSEUDO_TCP_SYN_RECEIVED, PSEUDO_TCP_LISTEN
  | PSEUDO_TCP_FIN_WAIT_1, PSEUDO_TCP_TIME_WAIT => true
  | _, _ => false
  end.

Definition set_state s (new_state : PseudoTcpState) : res PseudoTcpSocket :=
  if bool_decide (new_state = state s) then Ok s
  else
    _ ← assert_ok (valid_transition (state s) new_state);
    Ok (s <| state := new_state |>).

(** The MTU ladder: [PACKET_MAXIMUMS\[i\]]. *)
Definition packet_maximum (i : Z) : res Z := rd PACKET_MAXIMUMS i.

(** The loop of [adjustMTU]. *)
Fixpoint mss_level (fuel : nat) (mtu level : Z) : res Z :=
  match fuel with
  | O => Fault OutOfFuel
  | S fuel =>
      next ← packet_maximum (level + 1);
      if 0 <? next then
        here ← packet_maximum level;
        if here <=? mtu then Ok level else mss_level fuel mtu (level + 1)
      else Ok level
  end.

Definition adjustMTU s : res PseudoTcpSocket :=
  level ← mss_level 12 (mtu_advise s) 0;
  let s := s <| msslevel := level |> in
  let s := s <| mss := u32 (mtu_advise s - PACKET_OVERHEAD) |> in
  let s := s <| ssthresh := Z.max (ssthresh s) (u32 (2 * mss s)) |> in
  Ok (s <| cwnd := Z.max (cwnd s) (mss s) |>).

Definition set_state_established s : res PseudoTcpSocket :=
  s ← set_state s PSEUDO_TCP_ESTABLISHED;
  s ← adjustMTU s;
  Ok (if PseudoTcpOpened (callbacks s) then emit EvOpened s else s).

Definition set_state_closed s (err : Z) : res PseudoTcpSocket :=
  s ← set_state s PSEUDO_TCP_CLOSED;
  Ok (if PseudoTcpClosed (callbacks s) && negb (err =? 0) then emit (EvClosed err) s else s).

(** ** Buffers *)

Definition resize_send_buffer s (new_size : Z) : res PseudoTcpSocket :=
  let s := s <| sbuf_len := new_size |> in
  '(_, b) ← pseudo_tcp_fifo_set_capacity (sbuf s) new_size;
  Ok (s <| sbuf := b |>).

(** [while (new_size > 0xFFFF) { ++scale_factor; new_size >>= 1; }] *)
Fixpoint scale_loop (fuel : nat) (scale_factor new_size : Z) : res (Z * Z) :=
  if 0xFFFF <? new_size then
    match fuel with
    | O => Fault OutOfFuel
    | S fuel => scale_loop fuel (u8 (scale_factor + 1)) (Z.shiftr new_size 1)
    end
  else Ok (scale_factor, new_size).

Definition resize_receive_buffer s (new_size : Z) : res PseudoTcpSocket :=
  if rbuf_len s =? new_size then Ok s
  else
    '(scale_factor, new_size) ← scale_loop 32 0 new_size;
    let new_size := u32 (Z.shiftl new_size scale_factor) in
    '(result, b) ← pseudo_tcp_fifo_set_capacity (rbuf s) new_size;
    let s := s <| rbuf := b |> in
    _ ← assert_ok result;
    let s := s <| rbuf_len := new_size |> in
    let s := s <| rwnd_scale := scale_factor |> in
    let s := s <| ssthresh := new_size |> in
    Ok (s <| rcv_wnd := u32 (pseudo_tcp_fifo_get_write_remaining (rbuf s)) |>).

(** ** Options *)

Definition apply_window_scale_option s (scale_factor : Z) : PseudoTcpSocket := s <| swnd_scale := scale_factor |>.
Definition apply_fin_ack_option s : PseudoTcpSocket := s <| support_fin_ack := true |>.

Definition apply_option s (kind : Z) (data : list Z) (off len : Z) : res PseudoTcpSocket :=
  if kind =? TCP_OPT_WND_SCALE then
    if negb (len =? 1) then Ok s
    else d ← rd data off; Ok (apply_window_scale_option s d)
  else if kind =? TCP_OPT_FIN_ACK then Ok (apply_fin_ack_option s)
  else Ok s.

(** Lines 2403-2444; [None] is the return from [parse_options], otherwise
    whether the window scale and the FIN-ACK options were seen. *)
Fixpoint options_loop (fuel : nat) s (data : list Z) (len pos : Z) (ws fa : bool)
    : res (option (bool * bool) * PseudoTcpSocket) :=
  if pos <? len then
    match fuel with
    | O => Fault OutOfFuel
    | S fuel =>
        if len <? u32 (pos + 1) then Ok (None, s)
        else
          kind ← rd data pos;
          let pos := u32 (pos + 1) in
          if kind =? TCP_OPT_EOL then Ok (Some (ws, fa), s)
          else if kind =? TCP_OPT_NOOP then options_loop fuel s data len pos ws fa
          else if len <? u32 (pos + 1) then Ok (None, s)
          else
            opt_len ← rd data pos;
            let pos := u32 (pos + 1) in
            if len <? u32 (pos + opt_len) then Ok (None, s)
            else if opt_len <=? u32 (len - pos) then
              s ← apply_option s kind data pos opt_len;
              let pos := u32 (pos + opt_len) in
              options_loop fuel s data len pos (ws || (kind =? TCP_OPT_WND_SCALE))
                (fa || (negb (kind =? TCP_OPT_WND_SCALE) && (kind =? TCP_OPT_FIN_ACK)))
            else Ok (None, s)
    end
  else Ok (Some (ws, fa), s).

Definition parse_options s (data : list Z) (len : Z) : res PseudoTcpSocket :=
  '(seen, s) ← options_loop (Z.to_nat len) s data len 0 false false;
  match seen with
  | None => Ok s
  | Some (has_window_scaling_option, has_fin_ack_option) =>
      s ← (if negb has_window_scaling_option && (0 <? rwnd_scale s) then
             s ← resize_receive_buffer s DEFAULT_RCV_BUF_SIZE;
             Ok (s <| swnd_scale := 0 |>)
           else Ok s);
      Ok (if negb has_fin_ack_option then s <| support_fin_ack := false |> else s)
  end.

(** ** Sending *)

(** Dereferencing a pointer to a segment of the send queue. *)
Definition seg_at s (p : Z) : res SSegment :=
  match list_find (fun x => ss_ptr x = p) (slist s) with
  | Some (_, x) => Ok x
  | None => Fault OutOfBounds
  end.

(** Storing through such a pointer. *)
Definition seg_set (p : Z) (f : SSegment -> SSegment) (l : list SSegment) : list SSegment :=
  map (fun x => if ss_ptr x =? p then f x else x) l.

Definition with_len (n : Z) (x : SSegment) : SSegment := mkSSegment (ss_ptr x) (ss_seq x) n (ss_xmit x) (ss_flags x).
Definition with_xmit (n : Z) (x : SSegment) : SSegment := mkSSegment (ss_ptr x) (ss_seq x) (ss_len x) n (ss_flags x).

(** [g_queue_insert_after (q, g_queue_find (q, p), x)]. *)
Fixpoint insert_after (p : Z) (x : SSegment) (l : list SSegment) : list SSegment :=
  match l with
  | [] => []
  | y :: l => if ss_ptr y =? p then y :: x :: l else y :: insert_after p x l
  end.

Fixpoint insert_ptr_after (p x : Z) (l : list Z) : list Z :=
  match l with
  | [] => []
  | y :: l => if y =? p then y :: x :: l else y :: insert_ptr_after p x l
  end.

Definition queue s (data : list Z) (len flags : Z) : res (Z * PseudoTcpSocket) :=
  let available_space := pseudo_tcp_fifo_get_write_remaining (sbuf s) in
  len ← (if available_space <? len then _ ← assert_ok (flags =? FLAG_NONE); Ok (u32 available_space) else Ok len);
  let s :=
    match list.last (slist s) with
    | Some t =>
        if (ss_flags t =? flags) && (ss_xmit t =? 0) then
          s <| slist := seg_set (ss_ptr t) (with_len (u32 (ss_len t + len))) (slist s) |>
        else
          let sseg := mkSSegment (next_ptr s) (u32 (snd_una s + pseudo_tcp_fifo_get_buffered (sbuf s))) len 0 flags in
          s <| slist := slist s ++ [sseg] |> <| unsent_slist := unsent_slist s ++ [ss_ptr sseg] |>
            <| next_ptr := next_ptr s + 1 |>
    | None =>
        let sseg := mkSSegment (next_ptr s) (u32 (snd_una s + pseudo_tcp_fifo_get_buffered (sbuf s))) len 0 flags in
        s <| slist := slist s ++ [sseg] |> <| unsent_slist := unsent_slist s ++ [ss_ptr sseg] |>
          <| next_ptr := next_ptr s + 1 |>
    end in
  '(n, b) ← pseudo_tcp_fifo_write (sbuf s) data len;
  Ok (u32 n, s <| sbuf := b |>).

Definition queue_connect_message s : res PseudoTcpSocket :=
  let buf := [CTL_CONNECT] ++ (if support_wnd_scale s then [TCP_OPT_WND_SCALE; 1; rwnd_scale s] else [])
               ++ (if support_fin_ack s then [TCP_OPT_FIN_ACK; 1; 0] else []) in
  let s := s <| snd_wnd := zlen buf |> in
  '(_, s) ← queue s buf (zlen buf) FLAG_CTL;
  Ok s.

Definition queue_fin_message s : res PseudoTcpSocket :=
  _ ← assert_ok (support_fin_ack s);
  '(_, s) ← queue s [] 0 FLAG_FIN;
  Ok s.

Definition queue_rst_message s : res PseudoTcpSocket :=
  _ ← assert_ok (support_fin_ack s);
  '(_, s) ← queue s [] 0 FLAG_RST;
  Ok s.

(** The header [packet] writes, bytes 0 to 23. *)
Definition header s (seq flags now : Z) : res (list Z) :=
  if rwnd_scale s <? 32 then
    Ok (le_bytes 4 (htonl (conv s)) ++ le_bytes 4 (htonl seq) ++ le_bytes 4 (htonl (rcv_nxt s)) ++
        [0; u8 flags] ++ le_bytes 2 (htons (u16 (Z.shiftr (rcv_wnd s) (rwnd_scale s)))) ++
        le_bytes 4 (htonl now) ++ le_bytes 4 (htonl (ts_recent s)))
  else Fault BadShift.

Definition packet s (seq flags offset len now : Z) : res (PseudoTcpWriteResult * PseudoTcpSocket) :=
  _ ← assert_ok (u32 (HEADER_SIZE + len) <=? MAX_PACKET);
  h ← header s seq flags now;
  let s := s <| ts_lastack := rcv_nxt s |> in
  payload ← (if negb (len =? 0) then
               '(bytes_read, d) ← pseudo_tcp_fifo_read_offset (sbuf s) len offset;
               _ ← assert_ok (bytes_read =? len);
               Ok d
             else Ok []);
  let wres := WritePacket (trace s) (h ++ payload) in
  let s := emit (EvPacket (h ++ payload) wres) s in
  if negb (bool_decide (wres = WR_SUCCESS)) && negb (len =? 0) then Ok (wres, s)
  else
    let s := s <| t_ack := 0 |> in
    let s := if 0 <? len then s <| lastsend := now |> else s in
    Ok (WR_SUCCESS, s <| last_traffic := now |> <| bOutgoing := true |>).

(** Lines 2096-2112: the next lower level of the MTU ladder below
    [nTransmit]; [None] when the ladder ends ([EMSGSIZE]). *)
Fixpoint lower_mss (fuel : nat) s (nTransmit : Z) : res (option Z * PseudoTcpSocket) :=
  match fuel with
  | O => Fault OutOfFuel
  | S fuel =>
      next ← packet_maximum (msslevel s + 1);
      if next =? 0 then Ok (None, s)
      else
        let s := s <| msslevel := u32 (msslevel s + 1) |> in
        let s := s <| mss := u32 (next - PACKET_OVERHEAD) |> in
        let s := s <| cwnd := u32 (2 * mss s) |> in
        if mss s <? nTransmit then Ok (Some (mss s), s) else lower_mss fuel s nTransmit
  end.

(** Lines 2074-2114: the transmitted length, or an error. *)
Fixpoint transmit_loop (fuel : nat) s (segment : SSegment) (nTransmit now : Z)
    : res ((Z + Z) * PseudoTcpSocket) :=
  match fuel with
  | O => Fault OutOfFuel
  | S fuel =>
      let offset := u32 (ss_seq segment - snd_una s) in
      _ ← assert_ok (offset <=? 1024 * 1024 * 64);
      '(wres, s) ← packet s (ss_seq segment) (u8 (ss_flags segment)) offset nTransmit now;
      match wres with
      | WR_SUCCESS => Ok (inl nTransmit, s)
      | WR_FAIL => Ok (inr ECONNABORTED, s)
      | WR_TOO_LARGE =>
          '(n, s) ← lower_mss 12 s nTransmit;
          match n with
          | None => Ok (inr EMSGSIZE, s)
          | Some n => transmit_loop fuel s segment n now
          end
      end
  end.

(** Lines 2116-2131: the part of the segment that was not sent becomes a
    segment of its own. *)
Definition split_segment s (segment : SSegment) (nTransmit : Z) : PseudoTcpSocket :=
  if nTransmit <? ss_len segment then
    let subseg := mkSSegment (next_ptr s) (u32 (ss_seq segment + nTransmit)) (u32 (ss_len segment - nTransmit))
                    (ss_xmit segment) (ss_flags segment) in
    let s := s <| slist := insert_after (ss_ptr segment) subseg
                             (seg_set (ss_ptr segment) (with_len nTransmit) (slist s)) |>
               <| next_ptr := next_ptr s + 1 |> in
    if ss_xmit subseg =? 0 then
      s <| unsent_slist := insert_ptr_after (ss_ptr segment) (ss_ptr subseg) (unsent_slist s) |>
    else s
  else s.

Definition transmit s (p : Z) (now : Z) : res (Z * PseudoTcpSocket) :=
  segment ← seg_at s p;
  let nTransmit := Z.min (ss_len segment) (mss s) in
  if (if bool_decide (state s = PSEUDO_TCP_ESTABLISHED) then 15 else 30) <=? ss_xmit segment then Ok (ETIMEDOUT, s)
  else
    '(r, s) ← transmit_loop 12 s segment nTransmit now;
    match r with
    | inr err => Ok (err, s)
    | inl nTransmit =>
        let s := split_segment s segment nTransmit in
        segment ← seg_at s p;
        s ← (if ss_xmit segment =? 0 then
               _ ← assert_ok (bool_decide (list.head (unsent_slist s) = Some p));
               let s := s <| unsent_slist := list.tail (unsent_slist s) |> in
               let s := s <| snd_nxt := u32 (snd_nxt s + ss_len segment) |> in
               Ok (if (ss_len segment =? 0) && flag (ss_flags segment) FLAG_FIN then
                     s <| snd_nxt := u32 (snd_nxt s + 1) |>
                   else s)
             else Ok s);
        let s := s <| slist := seg_set p (fun x => with_xmit (u8 (ss_xmit x + 1)) x) (slist s) |> in
        Ok (0, if rto_base s =? 0 then s <| rto_base := now |> else s)
    end.

(** [transmit (self, g_queue_peek_head (&priv->slist), now)]; the head of an
    empty queue is a null pointer. *)
Definition transmit_head s (now : Z) : res (Z * PseudoTcpSocket) :=
  match slist s with
  | [] => Fault OutOfBounds
  | x :: _ => transmit s (ss_ptr x) now
  end.

(** [closedown (self, err, CLOSEDOWN_REMOTE)]: lines 2292-2317. *)
Definition closedown_remote s (err : Z) : res PseudoTcpSocket :=
  s ← match state s with
      | PSEUDO_TCP_SYN_RECEIVED | PSEUDO_TCP_ESTABLISHED =>
          s ← set_state s PSEUDO_TCP_FIN_WAIT_1;
          s ← set_state s PSEUDO_TCP_FIN_WAIT_2;
          set_state s PSEUDO_TCP_TIME_WAIT
      | PSEUDO_TCP_FIN_WAIT_1 =>
          s ← set_state s PSEUDO_TCP_FIN_WAIT_2;
          set_state s PSEUDO_TCP_TIME_WAIT
      | PSEUDO_TCP_FIN_WAIT_2 | PSEUDO_TCP_CLOSING => set_state s PSEUDO_TCP_TIME_WAIT
      | PSEUDO_TCP_CLOSE_WAIT => set_state s PSEUDO_TCP_LAST_ACK
      | PSEUDO_TCP_LISTEN | PSEUDO_TCP_SYN_SENT | PSEUDO_TCP_LAST_ACK | PSEUDO_TCP_TIME_WAIT
      | PSEUDO_TCP_CLOSED => Ok s
      end;
  set_state_closed s err.

(** Lines 2176-2196: the window, the bytes in flight and how many bytes may
    be sent now. *)
Definition send_window s : Z * Z :=
  let cw := if (dup_acks s =? 1) || (dup_acks s =? 2) then u32 (cwnd s + u32 (dup_acks s * mss s)) else cwnd s in
  let nWindow := Z.min (snd_wnd s) cw in
  let nInFlight := u32 (snd_nxt s - snd_una s) in
  let nUseable := if nInFlight <? nWindow then nWindow - nInFlight else 0 in
  let snd_buffered := pseudo_tcp_fifo_get_buffered (sbuf s) in
  let nAvailable := if snd_buffered <? nInFlight then 0 else Z.min (snd_buffered - nInFlight) (mss s) in
  (nWindow,
   if nUseable <? nAvailable then if u32 (nUseable * 4) <? nWindow then 0 else nUseable else nAvailable).

Definition forced (sflags : SendFlags) : bool := bool_decide (sflags = sfFin) || bool_decide (sflags = sfRst).

(** One round of the loop of [attempt_send]: [None] when it returns,
    otherwise the flags of the next round. *)
Definition send_round s (sflags : SendFlags) (now : Z) : res (PseudoTcpSocket * option SendFlags) :=
  let '(_, nAvailable) := send_window s in
  if bool_decide (sflags = sfDuplicateAck) then
    '(_, s) ← packet s (snd_nxt s) 0 0 0 now;
    Ok (s, Some sfNone)
  else if (nAvailable =? 0) && negb (forced sflags) then
    if bool_decide (sflags = sfNone) then Ok (s, None)
    else if bool_decide (sflags = sfImmediateAck) || bool_decide (sflags = sfDuplicateAck) || negb (t_ack s =? 0) then
      '(_, s) ← packet s (snd_nxt s) 0 0 0 now;
      Ok (s, None)
    else Ok (s <| t_ack := now |>, None)
  else if use_nagling s && negb (forced sflags) && (snd_una s <? snd_nxt s) && (nAvailable <? mss s) then Ok (s, None)
  else
    match unsent_slist s with
    | [] => Ok (s, None)
    | p :: _ =>
        sseg ← seg_at s p;
        let s :=
          if (nAvailable <? ss_len sseg) && negb (forced sflags) then
            let subseg := mkSSegment (next_ptr s) (u32 (ss_seq sseg + nAvailable)) (ss_len sseg - nAvailable) 0
                            (ss_flags sseg) in
            s <| unsent_slist := insert_ptr_after p (ss_ptr subseg) (unsent_slist s) |>
              <| slist := insert_after p subseg (seg_set p (with_len nAvailable) (slist s)) |>
              <| next_ptr := next_ptr s + 1 |>
          else s in
        '(transmit_status, s) ← transmit s p now;
        if negb (transmit_status =? 0) then
          s ← closedown_remote s (u32 transmit_status);
          Ok (s, None)
        else
          Ok (s, Some (if bool_decide (sflags = sfImmediateAck) || bool_decide (sflags = sfDelayedAck) then sfNone
                       else sflags))
    end.

Fixpoint send_loop (fuel : nat) s (sflags : SendFlags) (now : Z) : res PseudoTcpSocket :=
  match fuel with
  | O => Fault OutOfFuel
  | S fuel =>
      '(s, next) ← send_round s sflags now;
      match next with
      | None => Ok s
      | Some sflags => send_loop fuel s sflags now
      end
  end.

(** Every round sends a byte or an empty segment, except the one that answers
    [sfDuplicateAck] and the one that returns. *)
Definition send_fuel s : nat :=
  (3 + Z.to_nat (ff_data_length (sbuf s)) + length (unsent_slist s))%nat.

Definition attempt_send s (sflags : SendFlags) : res PseudoTcpSocket :=
  let '(now, s) := get_current_time s in
  let s := if rx_rto s <? time_diff now (lastsend s) then s <| cwnd := mss s |> else s in
  send_loop (send_fuel s) s sflags now.

Definition closedown s (err : Z) (source : ClosedownSource) : res PseudoTcpSocket :=
  s ← match source with
      | CLOSEDOWN_LOCAL =>
          if support_fin_ack s then
            s ← queue_rst_message s;
            attempt_send s sfRst
          else Ok (s <| shutdown := SD_FORCEFUL |>)
      | CLOSEDOWN_REMOTE => Ok s
      end;
  closedown_remote s err.
End ptcp.
