(* ===== verification/PseudoTcpProcess.v ===== *)
(** * Pseudo-TCP: receiving and the public operations (agent/pseudotcp.c)

    [process] is split the way its comments divide it; each part returns the
    socket and, where the code may return early, an option.  Then the
    operations an application calls. *)
From S2P Require Import Prelude CMem PseudoTcpFifo PseudoTcpTypes PseudoTcp.

Section process.
Context {E : PtcpEnv}.
Implicit Types s : PseudoTcpSocket.

(** ** Parts of [process] *)

(** Lines 1632-1653: control data; [None] is the early return, otherwise
    [bConnect]. *)
Definition process_control s (seg : Segment) : res (option bool * PseudoTcpSocket) :=
  if flag (seg_flags seg) FLAG_CTL then
    if seg_len seg =? 0 then Ok (None, s)
    else
      c ← rd (seg_data seg) 0;
      if c =? CTL_CONNECT then
        s ← parse_options s (drop 1 (seg_data seg)) (seg_len seg - 1);
        s ← (if bool_decide (state s = PSEUDO_TCP_LISTEN) then
               s ← set_state s PSEUDO_TCP_SYN_RECEIVED;
               queue_connect_message s
             else if bool_decide (state s = PSEUDO_TCP_SYN_SENT) then set_state_established s
             else Ok s);
        Ok (Some true, s)
      else Ok (None, s)
  else Ok (Some false, s).

(** Lines 1655-1659. *)
Definition update_timestamp s (seg : Segment) : PseudoTcpSocket :=
  if SMALLER_OR_EQUAL (seg_seq seg) (ts_lastack s) && SMALLER (ts_lastack s) (u32 (seg_seq seg + seg_len seg)) then
    s <| ts_recent := seg_tsval seg |>
  else s.

(** Lines 1670-1693: the round-trip time; [None] is the early return. *)
Definition update_rtt s (seg : Segment) (now : Z) : option PseudoTcpSocket :=
  if negb (seg_tsecr seg =? 0) then
    let rtt := time_diff now (seg_tsecr seg) in
    if 0 <=? rtt then
      let s :=
        if rx_srtt s =? 0 then s <| rx_srtt := u32 rtt |> <| rx_rttvar := u32 (rtt / 2) |>
        else
          let s := s <| rx_rttvar := u32 ((u32 (3 * rx_rttvar s) + Z.abs (rtt - rx_srtt s)) / 4) |> in
          s <| rx_srtt := u32 ((u32 (7 * rx_srtt s) + rtt) / 8) |> in
      let s := s <| rx_rto := bound MIN_RTO (u32 (rx_srtt s + Z.max 1 (u32 (4 * rx_rttvar s)))) MAX_RTO |> in
      Some (s <| last_acked_ts := seg_tsecr seg |>)
    else None
  else Some s.

(** [seg->wnd << priv->swnd_scale]: the window is promoted to [int]. *)
Definition scaled_window (wnd scale : Z) : res Z :=
  if (scale <? 32) && (Z.shiftl wnd scale <? 2 ^ 31) then Ok (Z.shiftl wnd scale) else Fault BadShift.

(** Lines 1713-1731: drop acknowledged bytes from the send queue; also the
    new value of [largest]. *)
Fixpoint free_acked (l : list SSegment) (nFree lg : Z) : res (list SSegment * Z) :=
  if 0 <? nFree then
    match l with
    | [] => Fault AssertFailed
    | data :: l =>
        if nFree <? ss_len data then
          Ok (mkSSegment (ss_ptr data) (u32 (ss_seq data + nFree)) (ss_len data - nFree) (ss_xmit data)
                (ss_flags data) :: l, lg)
        else free_acked l (nFree - ss_len data) (if lg <? ss_len data then ss_len data else lg)
    end
  else Ok (l, lg).

(** Lines 1695-1731: take the acknowledgement; the number of acknowledged
    bytes and whether it acknowledges our FIN. *)
Definition take_ack s (seg : Segment) (now : Z) : res (Z * bool * PseudoTcpSocket) :=
  w ← scaled_window (seg_wnd seg) (swnd_scale s);
  let s := s <| snd_wnd := w |> in
  let nAcked := u32 (seg_ack seg - snd_una s) in
  let s := s <| snd_una := seg_ack seg |> in
  let s := s <| rto_base := if snd_una s =? snd_nxt s then 0 else now |> in
  let is_fin_ack := (nAcked =? ff_data_length (sbuf s) + 1) && pseudo_tcp_state_has_sent_fin (state s) in
  let nAcked := if is_fin_ack then u32 (nAcked - 1) else nAcked in
  b ← pseudo_tcp_fifo_consume_read_data (sbuf s) nAcked;
  let s := s <| sbuf := b |> in
  '(l, lg) ← free_acked (slist s) nAcked (largest s);
  Ok (nAcked, is_fin_ack, s <| slist := l |> <| largest := lg |>).

(** Lines 1733-1764: NewReno recovery, slow start and congestion avoidance;
    [false] is the early return after a failed retransmission. *)
Definition ack_congestion s (nAcked now : Z) : res (bool * PseudoTcpSocket) :=
  if 3 <=? dup_acks s then
    if LARGER_OR_EQUAL (snd_una s) (recover s) then
      let nInFlight := u32 (snd_nxt s - snd_una s) in
      let s := s <| cwnd := Z.min (ssthresh s) (u32 (Z.max nInFlight (mss s) + mss s)) |> in
      Ok (true, s <| fast_recovery := false |> <| dup_acks := 0 |>)
    else
      '(transmit_status, s) ← transmit_head s now;
      if negb (transmit_status =? 0) then
        s ← closedown s (u32 transmit_status) CLOSEDOWN_LOCAL;
        Ok (false, s)
      else
        Ok (true, s <| cwnd := u32 (cwnd s + ((if mss s <? nAcked then mss s else 0) - Z.min nAcked (cwnd s))) |>)
  else
    let s := s <| dup_acks := 0 |> in
    if cwnd s <? ssthresh s then Ok (true, s <| cwnd := u32 (cwnd s + mss s) |>)
    else if cwnd s =? 0 then Fault DivByZero
    else Ok (true, s <| cwnd := u32 (cwnd s + Z.max 1 (u32 (mss s * mss s) / cwnd s)) |>).

(** Lines 1765-1818: a duplicate acknowledgement. *)
Definition process_dup_ack s (seg : Segment) (now : Z) : res (bool * PseudoTcpSocket) :=
  w ← scaled_window (seg_wnd seg) (swnd_scale s);
  let s := s <| snd_wnd := w |> in
  if 0 <? seg_len seg then Ok (true, s)
  else if negb (snd_una s =? snd_nxt s) then
    let s := s <| dup_acks := u8 (dup_acks s + 1) |> in
    if dup_acks s =? 3 then
      if LARGER_OR_EQUAL (snd_una s) (recover s) || (seg_tsecr seg =? last_acked_ts s) then
        '(transmit_status, s) ← transmit_head s now;
        if negb (transmit_status =? 0) then
          s ← closedown s (u32 transmit_status) CLOSEDOWN_LOCAL;
          Ok (false, s)
        else
          let s := s <| recover := snd_nxt s |> in
          let nInFlight := u32 (snd_nxt s - snd_una s) in
          let s := s <| ssthresh := Z.max (nInFlight / 2) (u32 (2 * mss s)) |> in
          Ok (true, s <| cwnd := u32 (ssthresh s + u32 (3 * mss s)) |> <| fast_recovery := true |>)
      else Ok (true, s)
    else if (3 <? dup_acks s) && fast_recovery s then Ok (true, s <| cwnd := u32 (cwnd s + mss s) |>)
    else Ok (true, s)
  else Ok (true, s <| dup_acks := 0 |>).

(** Lines 1661-1818: [None] is an early return, otherwise [is_fin_ack]. *)
Definition process_ack s (seg : Segment) (now : Z) : res (option bool * PseudoTcpSocket) :=
  let is_valuable_ack := LARGER (seg_ack seg) (snd_una s) && SMALLER_OR_EQUAL (seg_ack seg) (snd_nxt s) in
  let is_duplicate_ack := seg_ack seg =? snd_una s in
  if is_valuable_ack then
    match update_rtt s seg now with
    | None => Ok (None, s)
    | Some s =>
        '(nAcked, is_fin_ack, s) ← take_ack s seg now;
        '(go, s) ← ack_congestion s nAcked now;
        Ok (if go : bool then Some is_fin_ack else None, s)
    end
  else if is_duplicate_ack then
    '(go, s) ← process_dup_ack s seg now;
    Ok (if go : bool then Some false else None, s)
  else Ok (Some false, s).

(** Lines 1825-1912: connection closure; [None] is the early return,
    otherwise [received_fin]. *)
Definition process_fin s (seg : Segment) (is_fin_ack : bool) : res (option bool * PseudoTcpSocket) :=
  if support_fin_ack s then
    let fin := flag (seg_flags seg) FLAG_FIN in
    let s := if fin then s <| rcv_fin := seg_seq seg |> else s in
    if fin && negb (seg_len seg =? 0) then Ok (None, s)
    else
      let received_fin := negb (rcv_nxt s =? 0) && (u32 (rcv_nxt s + seg_len seg) =? rcv_fin s) in
      s ← match state s with
          | PSEUDO_TCP_ESTABLISHED => if received_fin then set_state s PSEUDO_TCP_CLOSE_WAIT else Ok s
          | PSEUDO_TCP_CLOSING => if is_fin_ack then set_state s PSEUDO_TCP_TIME_WAIT else Ok s
          | PSEUDO_TCP_LAST_ACK => if is_fin_ack then set_state_closed s 0 else Ok s
          | PSEUDO_TCP_FIN_WAIT_1 =>
              if is_fin_ack && received_fin then set_state s PSEUDO_TCP_TIME_WAIT
              else if is_fin_ack then set_state s PSEUDO_TCP_FIN_WAIT_2
              else if received_fin then set_state s PSEUDO_TCP_CLOSING
              else Ok s
          | PSEUDO_TCP_FIN_WAIT_2 => if received_fin then set_state s PSEUDO_TCP_TIME_WAIT else Ok s
          | PSEUDO_TCP_LISTEN | PSEUDO_TCP_SYN_SENT | PSEUDO_TCP_SYN_RECEIVED | PSEUDO_TCP_TIME_WAIT
          | PSEUDO_TCP_CLOSED | PSEUDO_TCP_CLOSE_WAIT => Ok s
          end;
      Ok (Some received_fin, s)
  else Ok (Some false, s).

(** Lines 1914-1924. *)
Definition notify_writable s : PseudoTcpSocket :=
  let kIdealRefillSize := u32 (sbuf_len s + rbuf_len s) / 2 in
  if bWriteEnable s && (pseudo_tcp_fifo_get_buffered (sbuf s) <? kIdealRefillSize) then
    let s := s <| bWriteEnable := false |> in
    if PseudoTcpWritable (callbacks s) then emit EvWritable s else s
  else s.

(** Lines 1936-1948: which acknowledgement the segment asks for. *)
Definition ack_flags s (seg : Segment) (received_fin : bool) : SendFlags :=
  if negb (seg_seq seg =? rcv_nxt s) then sfDuplicateAck
  else if negb (seg_len seg =? 0) then if ack_delay s =? 0 then sfImmediateAck else sfDelayedAck
  else if received_fin then sfImmediateAck
  else sfNone.

Definition with_data (seg : Segment) (seq : Z) (data : list Z) (len : Z) : Segment :=
  mkSegment (seg_conv seg) seq (seg_ack seg) (seg_flags seg) (seg_wnd seg) data len (seg_tsval seg) (seg_tsecr seg).

(** Lines 1958-1979: cut the segment to what is new and fits the buffer. *)
Definition adjust_segment s (seg : Segment) : Segment :=
  let seg :=
    if SMALLER (seg_seq seg) (rcv_nxt s) then
      let nAdjust := u32 (rcv_nxt s - seg_seq seg) in
      if nAdjust <? seg_len seg then
        with_data seg (u32 (seg_seq seg + nAdjust)) (drop (Z.to_nat nAdjust) (seg_data seg)) (seg_len seg - nAdjust)
      else with_data seg (seg_seq seg) (seg_data seg) 0
    else seg in
  let available_space := pseudo_tcp_fifo_get_write_remaining (rbuf s) in
  let reach := u32 (seg_seq seg + seg_len seg - rcv_nxt s) in
  if available_space <? reach then
    let nAdjust := u32 (reach - available_space) in
    if nAdjust <? seg_len seg then with_data seg (seg_seq seg) (seg_data seg) (seg_len seg - nAdjust)
    else with_data seg (seg_seq seg) (seg_data seg) 0
  else seg.

(** Lines 2008-2024: out-of-order data the segment connects to. *)
Fixpoint recover_loop s (l : list RSegment) (sflags : SendFlags) : res (SendFlags * PseudoTcpSocket) :=
  match l with
  | data :: l' =>
      if SMALLER_OR_EQUAL (rs_seq data) (rcv_nxt s) then
        '(sflags, s) ← (if LARGER (u32 (rs_seq data + rs_len data)) (rcv_nxt s) then
            let nAdjust := u32 (u32 (rs_seq data + rs_len data) - rcv_nxt s) in
            b ← pseudo_tcp_fifo_consume_write_buffer (rbuf s) nAdjust;
            Ok (sfImmediateAck, s <| rbuf := b |> <| rcv_nxt := u32 (rcv_nxt s + nAdjust) |>
                                  <| rcv_wnd := u32 (rcv_wnd s - nAdjust) |>)
          else Ok (sflags, s));
        recover_loop s l' sflags
      else Ok (sflags, s <| rlist := l |>)
  | [] => Ok (sflags, s <| rlist := [] |>)
  end.

(** Lines 2033-2037. *)
Fixpoint insert_rseg (rseg : RSegment) (l : list RSegment) : list RSegment :=
  match l with
  | x :: l' => if SMALLER (rs_seq x) (rs_seq rseg) then x :: insert_rseg rseg l' else rseg :: l
  | [] => [rseg]
  end.

(** Lines 1981-2040: store the data; the flags for the acknowledgement and
    [bNewData]. *)
Definition accept_data s (seg : Segment) (sflags : SendFlags) : res (SendFlags * bool * PseudoTcpSocket) :=
  let bIgnoreData := flag (seg_flags seg) FLAG_CTL ||
    (negb (support_fin_ack s) && negb (bool_decide (shutdown s = SD_NONE))) in
  if 0 <? seg_len seg then
    if bIgnoreData then
      Ok (sflags, false,
          if seg_seq seg =? rcv_nxt s then s <| rcv_nxt := u32 (rcv_nxt s + seg_len seg) |> else s)
    else
      let nOffset := u32 (seg_seq seg - rcv_nxt s) in
      '(n, b) ← pseudo_tcp_fifo_write_offset (rbuf s) (seg_data seg) (seg_len seg) nOffset;
      let s := s <| rbuf := b |> in
      _ ← assert_ok (n =? seg_len seg);
      if seg_seq seg =? rcv_nxt s then
        b ← pseudo_tcp_fifo_consume_write_buffer (rbuf s) (seg_len seg);
        let s := s <| rbuf := b |> <| rcv_nxt := u32 (rcv_nxt s + seg_len seg) |>
                   <| rcv_wnd := u32 (rcv_wnd s - seg_len seg) |> in
        '(sflags, s) ← recover_loop s (rlist s) sflags;
        Ok (sflags, true, s)
      else
        Ok (sflags, false, s <| rlist := insert_rseg (mkRSegment (seg_seq seg) (seg_len seg)) (rlist s) |>)
  else Ok (sflags, false, s).

(** ** [process] *)

(** Lines 1914-2060: from the point where the acknowledgement and the state
    have been dealt with. *)
Definition process_data s (seg : Segment) (received_fin : bool) : res (bool * PseudoTcpSocket) :=
  let s := notify_writable s in
  let sflags := ack_flags s seg received_fin in
  let seg := adjust_segment s seg in
  '(sflags, bNewData, s) ← accept_data s seg sflags;
  let s := if received_fin then s <| rcv_nxt := u32 (rcv_nxt s + 1) |> else s in
  s ← attempt_send s sflags;
  Ok (true, if bNewData && bReadEnable s && PseudoTcpReadable (callbacks s) then emit EvReadable s else s).

Definition process s (seg : Segment) : res (bool * PseudoTcpSocket) :=
  if negb (seg_conv seg =? conv s) then Ok (false, s)
  else
    let '(now, s) := get_current_time s in
    let s := s <| last_traffic := now |> <| lastrecv := now |> <| bOutgoing := false |> in
    if bool_decide (state s = PSEUDO_TCP_CLOSED)
       || (pseudo_tcp_state_has_received_fin_ack (state s) && (0 <? seg_len seg)) then
      s ← (if negb (flag (seg_flags seg) FLAG_RST) then closedown s 0 CLOSEDOWN_LOCAL else Ok s);
      Ok (false, s)
    else if flag (seg_flags seg) FLAG_RST then
      s ← closedown s ECONNRESET CLOSEDOWN_REMOTE;
      Ok (false, s)
    else
      '(c, s) ← process_control s seg;
      match c with
      | None => Ok (false, s)
      | Some bConnect =>
          let s := update_timestamp s seg in
          '(a, s) ← process_ack s seg now;
          match a with
          | None => Ok (false, s)
          | Some is_fin_ack =>
              s ← (if bool_decide (state s = PSEUDO_TCP_SYN_RECEIVED) && negb bConnect then set_state_established s
                   else Ok s);
              '(f, s) ← process_fin s seg is_fin_ack;
              match f with
              | None => Ok (false, s)
              | Some received_fin => process_data s seg received_fin
              end
          end
      end.

(** The 32-bit and 16-bit loads of [parse]. *)
Definition rd32 (b : list Z) (i : Z) : res Z := d ← rd_bytes b (4 * i) 4; Ok (ntohl (le_value d)).
Definition rd16 (b : list Z) (i : Z) : res Z := d ← rd_bytes b (2 * i) 2; Ok (ntohs (le_value d)).

(** Lines 1483-1498: the fields of the header. *)
Definition parse_segment (header_buf data_buf : list Z) (data_buf_len : Z) : res Segment :=
  c ← rd32 header_buf 0;
  seq ← rd32 header_buf 1;
  ack ← rd32 header_buf 2;
  flags ← rd header_buf 13;
  wnd ← rd16 header_buf 7;
  tsval ← rd32 header_buf 4;
  tsecr ← rd32 header_buf 5;
  Ok (mkSegment c seq ack flags wnd data_buf (u32 data_buf_len) tsval tsecr).

Definition parse s (header_buf : list Z) (header_buf_len : Z) (data_buf : list Z) (data_buf_len : Z)
    : res (bool * PseudoTcpSocket) :=
  if negb (header_buf_len =? 24) then Ok (false, s)
  else seg ← parse_segment header_buf data_buf data_buf_len; process s seg.
End process.
