(* ===== verification/PseudoTcpApi.v ===== *)
(** * Pseudo-TCP: the operations an application calls (agent/pseudotcp.c)

    Creating and configuring a socket, connecting, sending, receiving,
    closing, and the notifications about packets, clock and MTU. *)
From S2P Require Import Prelude CMem PseudoTcpFifo PseudoTcpTypes PseudoTcp PseudoTcpProcess.

Section api.
Context {E : PtcpEnv}.
Implicit Types s : PseudoTcpSocket.

(** ** Creation and properties *)

(** The struct is allocated zeroed; [pseudo_tcp_socket_new] then sets the
    construction properties. *)
Definition pseudo_tcp_socket_init (cb : PseudoTcpCallbacks) (conversation : Z) : PseudoTcpSocket :=
  let rbuf_len := DEFAULT_RCV_BUF_SIZE in
  let sbuf_len := DEFAULT_SND_BUF_SIZE in
  let mss := MIN_PACKET - PACKET_OVERHEAD in
  mkSocket cb
    SD_NONE false 0
    PSEUDO_TCP_LISTEN conversation true false false 0
    [] rbuf_len 0 rbuf_len 0 0 (pseudo_tcp_fifo_init rbuf_len) 0
    [] [] sbuf_len 0 1 0 0 0 (pseudo_tcp_fifo_init sbuf_len)
    mss 0 0 DEF_MTU
    0
    0 0
    0 0 DEF_RTO
    rbuf_len (2 * mss) 0 0 false 0 0
    (negb DEFAULT_NO_DELAY) DEFAULT_ACK_DELAY true 0 true
    1 O [].

Definition pseudo_tcp_socket_new (conversation : Z) (cb : PseudoTcpCallbacks) : PseudoTcpSocket :=
  pseudo_tcp_socket_init cb conversation.

Inductive ptcp_property : Set :=
  | PROP_CONVERSATION (v : Z)
  | PROP_CALLBACKS (c : PseudoTcpCallbacks)
  | PROP_STATE (v : PseudoTcpState)
  | PROP_ACK_DELAY (v : Z)
  | PROP_NO_DELAY (v : bool)
  | PROP_RCV_BUF (v : Z)
  | PROP_SND_BUF (v : Z)
  | PROP_SUPPORT_FIN_ACK (v : bool).

(** The state is read-only: setting it is the default case. *)
Definition pseudo_tcp_socket_set_property s (p : ptcp_property) : res PseudoTcpSocket :=
  match p with
  | PROP_CONVERSATION v => Ok (s <| conv := v |>)
  | PROP_CALLBACKS c => Ok (s <| callbacks := c |>)
  | PROP_STATE _ => Ok s
  | PROP_ACK_DELAY v => Ok (s <| ack_delay := v |>)
  | PROP_NO_DELAY v => Ok (s <| use_nagling := negb v |>)
  | PROP_RCV_BUF v => if bool_decide (state s = PSEUDO_TCP_LISTEN) then resize_receive_buffer s v else Ok s
  | PROP_SND_BUF v => if bool_decide (state s = PSEUDO_TCP_LISTEN) then resize_send_buffer s v else Ok s
  | PROP_SUPPORT_FIN_ACK v => Ok (s <| support_fin_ack := v |>)
  end.

(** [get_property (id)] with the value it stores; the argument of the
    constructor passed in is ignored. *)
Definition pseudo_tcp_socket_get_property s (p : ptcp_property) : ptcp_property :=
  match p with
  | PROP_CONVERSATION _ => PROP_CONVERSATION (conv s)
  | PROP_CALLBACKS _ => PROP_CALLBACKS (callbacks s)
  | PROP_STATE _ => PROP_STATE (state s)
  | PROP_ACK_DELAY _ => PROP_ACK_DELAY (ack_delay s)
  | PROP_NO_DELAY _ => PROP_NO_DELAY (negb (use_nagling s))
  | PROP_RCV_BUF _ => PROP_RCV_BUF (rbuf_len s)
  | PROP_SND_BUF _ => PROP_SND_BUF (sbuf_len s)
  | PROP_SUPPORT_FIN_ACK _ => PROP_SUPPORT_FIN_ACK (support_fin_ack s)
  end.

Definition pseudo_tcp_socket_get_error s : Z := error s.
Definition pseudo_tcp_socket_is_closed s : bool := bool_decide (state s = PSEUDO_TCP_CLOSED).
Definition pseudo_tcp_socket_is_closed_remotely s : bool := pseudo_tcp_state_has_received_fin (state s).
Definition pseudo_tcp_socket_get_available_bytes s : Z := s32 (pseudo_tcp_fifo_get_buffered (rbuf s)).

Definition pseudo_tcp_socket_get_available_send_space s : Z * PseudoTcpSocket :=
  let ret := if negb (pseudo_tcp_state_has_sent_fin (state s)) then pseudo_tcp_fifo_get_write_remaining (sbuf s)
             else 0 in
  (ret, if ret =? 0 then s <| bWriteEnable := true |> else s).

Definition pseudo_tcp_socket_can_send s : bool * PseudoTcpSocket :=
  let '(n, s) := pseudo_tcp_socket_get_available_send_space s in (0 <? n, s).

(** ** Notifications *)

Definition pseudo_tcp_socket_connect s : res (bool * PseudoTcpSocket) :=
  if negb (bool_decide (state s = PSEUDO_TCP_LISTEN)) then Ok (false, s <| error := EINVAL |>)
  else
    s ← set_state s PSEUDO_TCP_SYN_SENT;
    s ← queue_connect_message s;
    s ← attempt_send s sfNone;
    Ok (true, s).

Definition pseudo_tcp_socket_notify_mtu s (mtu : Z) : res PseudoTcpSocket :=
  let s := s <| mtu_advise := mtu |> in
  if bool_decide (state s = PSEUDO_TCP_ESTABLISHED) then adjustMTU s else Ok s.

(** [priv->state < PSEUDO_TCP_ESTABLISHED]. *)
Definition before_established (st : PseudoTcpState) : bool :=
  match st with
  | PSEUDO_TCP_LISTEN | PSEUDO_TCP_SYN_SENT | PSEUDO_TCP_SYN_RECEIVED => true
  | _ => false
  end.

(** Lines 973-1016: retransmission; [false] is the early return. *)
Definition clock_retransmit s (now : Z) : res (bool * PseudoTcpSocket) :=
  if negb (rto_base s =? 0) && (time_diff (u32 (rto_base s + rx_rto s)) now <=? 0) then
    _ ← assert_ok (negb (zlen (slist s) =? 0));
    '(transmit_status, s) ← transmit_head s now;
    if negb (transmit_status =? 0) then
      s ← closedown s (u32 transmit_status) CLOSEDOWN_LOCAL;
      Ok (false, s)
    else
      let nInFlight := u32 (snd_nxt s - snd_una s) in
      let s := s <| ssthresh := Z.max (nInFlight / 2) (u32 (2 * mss s)) |> in
      let s := s <| cwnd := mss s |> in
      let rto_limit := if before_established (state s) then DEF_RTO else MAX_RTO in
      let s := s <| rx_rto := Z.min rto_limit (u32 (rx_rto s * 2)) |> <| rto_base := now |>
                 <| recover := snd_nxt s |> in
      Ok (true, if 3 <=? dup_acks s then s <| dup_acks := 0 |> <| fast_recovery := false |> else s)
  else Ok (true, s).

(** Lines 1018-1033: window probes. *)
Definition clock_probe s (now : Z) : res (bool * PseudoTcpSocket) :=
  if (snd_wnd s =? 0) && (time_diff (u32 (lastsend s + rx_rto s)) now <=? 0) then
    if 15000 <=? time_diff now (lastrecv s) then
      s ← closedown s ECONNABORTED CLOSEDOWN_LOCAL;
      Ok (false, s)
    else
      '(_, s) ← packet s (u32 (snd_nxt s - 1)) 0 0 0 now;
      let s := s <| lastsend := now |> in
      Ok (true, s <| rx_rto := Z.min MAX_RTO (u32 (rx_rto s * 2)) |>)
  else Ok (true, s).

Definition pseudo_tcp_socket_notify_clock s : res PseudoTcpSocket :=
  let '(now, s) := get_current_time s in
  if bool_decide (state s = PSEUDO_TCP_CLOSED) then Ok s
  else
    s ← (if support_fin_ack s && bool_decide (state s = PSEUDO_TCP_TIME_WAIT) then set_state_closed s 0 else Ok s);
    s ← (if support_fin_ack s && bool_decide (state s = PSEUDO_TCP_LAST_ACK) then
           s ← queue_fin_message s;
           attempt_send s sfFin
         else Ok s);
    '(go, s) ← clock_retransmit s now;
    if negb go then Ok s
    else
      '(go, s) ← clock_probe s now;
      if negb go then Ok s
      else if negb (t_ack s =? 0) && (time_diff (u32 (t_ack s + ack_delay s)) now <=? 0) then
        '(_, s) ← packet s (snd_nxt s) 0 0 0 now;
        Ok s
      else Ok s.

Definition pseudo_tcp_socket_notify_packet s (buffer : list Z) (len : Z) : res (bool * PseudoTcpSocket) :=
  if MAX_PACKET <? len then Ok (false, s <| error := EMSGSIZE |>)
  else if len <? HEADER_SIZE then Ok (false, s <| error := EINVAL |>)
  else parse s (take (Z.to_nat HEADER_SIZE) buffer) HEADER_SIZE (drop (Z.to_nat HEADER_SIZE) buffer) (len - HEADER_SIZE).

(** A [NiceInputMessage]: its buffers and the number of received bytes. *)
Record NiceInputMessage : Set := mkInputMessage { im_buffers : list (list Z); im_length : Z }.

Definition pseudo_tcp_socket_notify_message s (message : NiceInputMessage) : res (bool * PseudoTcpSocket) :=
  match im_buffers message with
  | [] => Fault AssertFailed
  | [b] => pseudo_tcp_socket_notify_packet s b (u32 (zlen b))
  | [h; d] =>
      _ ← assert_ok (zlen h =? HEADER_SIZE);
      if MAX_PACKET <? im_length message then Ok (false, s)
      else if im_length message <? HEADER_SIZE then Ok (false, s)
      else parse s h (zlen h) d (im_length message - zlen h)
  | _ => Fault AssertFailed
  end.

(** [None] is the return of FALSE; otherwise the next timeout. *)
Definition pseudo_tcp_socket_get_next_clock s (timeout : Z) : res (option Z * PseudoTcpSocket) :=
  let '(now, s) := get_current_time s in
  let snd_buffered := pseudo_tcp_fifo_get_buffered (sbuf s) in
  if bool_decide (shutdown s = SD_FORCEFUL) then
    s ← closedown s 0 CLOSEDOWN_REMOTE; Ok (None, s)
  else if bool_decide (shutdown s = SD_GRACEFUL) && (negb (bool_decide (state s = PSEUDO_TCP_ESTABLISHED))
            || ((snd_buffered =? 0) && (t_ack s =? 0))) then
    s ← closedown s 0 CLOSEDOWN_REMOTE; Ok (None, s)
  else
    let time_wait := support_fin_ack s && bool_decide (state s = PSEUDO_TCP_TIME_WAIT) in
    let closed_timeout := if time_wait then TIME_WAIT_TIMEOUT else CLOSED_TIMEOUT in
    if support_fin_ack s && bool_decide (state s = PSEUDO_TCP_CLOSED) then Ok (None, s)
    else
      let timeout := if (timeout =? 0) || (timeout <? now) then u32 (now + closed_timeout) else timeout in
      if time_wait then Ok (Some (Z.min timeout (u32 (now + TIME_WAIT_TIMEOUT))), s)
      else if bool_decide (state s = PSEUDO_TCP_CLOSED) && negb (support_fin_ack s) then
        Ok (Some (Z.min timeout (u32 (now + CLOSED_TIMEOUT))), s)
      else
        let timeout := Z.min timeout (u32 (now + DEFAULT_TIMEOUT)) in
        let timeout := if negb (t_ack s =? 0) then Z.min timeout (u32 (t_ack s + ack_delay s)) else timeout in
        let timeout := if negb (rto_base s =? 0) then Z.min timeout (u32 (rto_base s + rx_rto s)) else timeout in
        Ok (Some (if snd_wnd s =? 0 then Z.min timeout (u32 (lastsend s + rx_rto s)) else timeout), s).

(** ** Data *)

(** The result, -1 for an error, and the bytes stored in the caller's buffer. *)
Definition pseudo_tcp_socket_recv s (len : Z) : res (Z * list Z * PseudoTcpSocket) :=
  if support_fin_ack s && shutdown_reads s then Ok (0, [], s)
  else if negb (support_fin_ack s) && pseudo_tcp_socket_is_closed s then Ok (0, [], s)
  else if negb (support_fin_ack s) && negb (bool_decide (state s = PSEUDO_TCP_ESTABLISHED)) then
    Ok (-1, [], s <| error := ENOTCONN |>)
  else if len =? 0 then Ok (0, [], s)
  else
    '(bytesread, data, b) ← pseudo_tcp_fifo_read (rbuf s) len;
    let s := s <| rbuf := b |> in
    if (bytesread =? 0) && negb (pseudo_tcp_state_has_received_fin (state s)
                                 || pseudo_tcp_state_has_received_fin_ack (state s)) then
      Ok (-1, [], s <| bReadEnable := true |> <| error := EWOULDBLOCK |>)
    else
      let available_space := pseudo_tcp_fifo_get_write_remaining (rbuf s) in
      s ← (if Z.min (rbuf_len s / 2) (mss s) <=? u64 (available_space - rcv_wnd s) then
             let bWasClosed := rcv_wnd s =? 0 in
             let s := s <| rcv_wnd := u32 available_space |> in
             if bWasClosed then attempt_send s sfImmediateAck else Ok s
           else Ok s);
      Ok (s32 bytesread, data, s).

Definition pseudo_tcp_socket_send s (buffer : list Z) (len : Z) : res (Z * PseudoTcpSocket) :=
  if negb (bool_decide (state s = PSEUDO_TCP_ESTABLISHED)) then
    Ok (-1, s <| error := if pseudo_tcp_state_has_sent_fin (state s) then EPIPE else ENOTCONN |>)
  else if pseudo_tcp_fifo_get_write_remaining (sbuf s) =? 0 then
    Ok (-1, s <| bWriteEnable := true |> <| error := EWOULDBLOCK |>)
  else
    '(written, s) ← queue s buffer len FLAG_NONE;
    let written := s32 written in
    s ← attempt_send s sfNone;
    Ok (written, if (0 <? written) && (written <? len) then s <| bWriteEnable := true |> else s).

(** ** Closing *)

Definition pseudo_tcp_socket_shutdown s (how : PseudoTcpShutdown) : res PseudoTcpSocket :=
  if negb (support_fin_ack s) then
    Ok (if bool_decide (shutdown s = SD_NONE) then s <| shutdown := SD_GRACEFUL |> else s)
  else
    let s := match how with
             | PSEUDO_TCP_SHUTDOWN_RD | PSEUDO_TCP_SHUTDOWN_RDWR => s <| shutdown_reads := true |>
             | PSEUDO_TCP_SHUTDOWN_WR => s
             end in
    if bool_decide (how = PSEUDO_TCP_SHUTDOWN_RD) then Ok s
    else
      match state s with
      | PSEUDO_TCP_LISTEN | PSEUDO_TCP_SYN_SENT => set_state_closed s 0
      | PSEUDO_TCP_SYN_RECEIVED | PSEUDO_TCP_ESTABLISHED =>
          if 0 <? pseudo_tcp_socket_get_available_bytes s then closedown s ECONNABORTED CLOSEDOWN_LOCAL
          else
            s ← queue_fin_message s;
            s ← attempt_send s sfFin;
            set_state s PSEUDO_TCP_FIN_WAIT_1
      | PSEUDO_TCP_CLOSE_WAIT =>
          s ← queue_fin_message s;
          s ← attempt_send s sfFin;
          set_state s PSEUDO_TCP_LAST_ACK
      | PSEUDO_TCP_CLOSING | PSEUDO_TCP_CLOSED | PSEUDO_TCP_FIN_WAIT_1 | PSEUDO_TCP_FIN_WAIT_2
      | PSEUDO_TCP_TIME_WAIT | PSEUDO_TCP_LAST_ACK => Ok s
      end.

Definition pseudo_tcp_socket_close s (force : bool) : res PseudoTcpSocket :=
  if force && negb (bool_decide (state s = PSEUDO_TCP_CLOSED)) then closedown s ECONNABORTED CLOSEDOWN_LOCAL
  else pseudo_tcp_socket_shutdown s PSEUDO_TCP_SHUTDOWN_RDWR.
End api.
