(* ===== verification/PseudoTcpSend.v ===== *)
(** * Pseudo-TCP: the send queue

    The invariant of the send queue and that transmitting keeps it: the
    queued segments tile the send buffer from the first unacknowledged byte
    on, those that were never sent come last, and every packet carries the
    bytes queued at its sequence number. *)
From S2P Require Import Prelude CMem PseudoTcpFifo PseudoTcpTypes PseudoTcp.

(** ** The invariant *)

Fixpoint tiled (pos : Z) (l : list SSegment) : Prop :=
  match l with
  | [] => True
  | x :: l => ss_seq x = u32 pos /\ 0 <= ss_len x /\ tiled (pos + ss_len x) l
  end.

Definition total (l : list SSegment) : Z := foldr (fun x n => ss_len x + n) 0 l.

(** A FIN that was sent takes a sequence number. *)
Definition is_fin (x : SSegment) : bool := (ss_len x =? 0) && flag (ss_flags x) FLAG_FIN.
Definition fins (l : list SSegment) : Z := zlen (List.filter is_fin l).

Record snd_inv (s : PseudoTcpSocket) (sent unsent : list SSegment) : Prop := {
  sv_fifo : fifo_ok (sbuf s);
  sv_cap : ff_buffer_length (sbuf s) <= 2 ^ 26;
  sv_list : slist s = sent ++ unsent;
  sv_sent : Forall (fun x => 0 < ss_xmit x <= 30) sent;
  sv_unsent : Forall (fun x => ss_xmit x = 0) unsent;
  sv_ptrs : unsent_slist s = map ss_ptr unsent;
  sv_nodup : NoDup (map ss_ptr (slist s));
  sv_fresh : Forall (fun x => ss_ptr x < next_ptr s) (slist s);
  sv_tiled : tiled (snd_una s) (slist s);
  sv_total : total (slist s) = ff_data_length (sbuf s);
  sv_fins : fins (slist s) < 2 ^ 31;
  sv_una : 0 <= snd_una s < 2 ^ 32;
  sv_nxt : snd_nxt s = u32 (snd_una s + total sent + fins sent);
  sv_mss : 0 < mss s <= MAX_PACKET - HEADER_SIZE;
  sv_level : 0 <= msslevel s <= 9;
  sv_scale : 0 <= rwnd_scale s < 32
}.

(** The fields of the invariant as hypotheses. *)
Ltac open_inv H :=
  pose proof (sv_fifo _ _ _ H) as Ififo; pose proof (sv_cap _ _ _ H) as Icap; pose proof (sv_list _ _ _ H) as Ilist;
  pose proof (sv_sent _ _ _ H) as Isent; pose proof (sv_unsent _ _ _ H) as Iunsent;
  pose proof (sv_ptrs _ _ _ H) as Iptrs; pose proof (sv_nodup _ _ _ H) as Inodup;
  pose proof (sv_fresh _ _ _ H) as Ifresh; pose proof (sv_tiled _ _ _ H) as Itiled;
  pose proof (sv_total _ _ _ H) as Itotal; pose proof (sv_fins _ _ _ H) as Ifins; pose proof (sv_una _ _ _ H) as Iuna;
  pose proof (sv_nxt _ _ _ H) as Inxt; pose proof (sv_mss _ _ _ H) as Imss; pose proof (sv_level _ _ _ H) as Ilevel;
  pose proof (sv_scale _ _ _ H) as Iscale.

Lemma total_app l k : total (l ++ k) = total l + total k.
Proof. induction l as [|x l IH]; cbn; [done|]. fold (total (l ++ k)). rewrite IH. unfold total. lia. Qed.
Lemma total_cons x l : total (x :: l) = ss_len x + total l.
Proof. reflexivity. Qed.
Lemma tiled_app pos l k : tiled pos (l ++ k) <-> tiled pos l /\ tiled (pos + total l) k.
Proof.
  revert pos. induction l as [|x l IH]; intros pos; cbn.
  - rewrite Z.add_0_r. tauto.
  - fold (total l). rewrite IH. replace (pos + ss_len x + total l) with (pos + (ss_len x + total l)) by lia. tauto.
Qed.
Lemma tiled_total pos l : tiled pos l -> 0 <= total l.
Proof. revert pos. induction l as [|x l IH]; intros pos; cbn; [lia|]. intros (_ & ? & H). apply IH in H. unfold total in *. lia. Qed.
Lemma fins_app l k : fins (l ++ k) = fins l + fins k.
Proof. unfold fins. by rewrite List.filter_app, zlen_app. Qed.
Lemma fins_one x : fins [x] = if is_fin x then 1 else 0.
Proof. unfold fins. cbn. by destruct (is_fin x). Qed.
Lemma fins_nonneg l : 0 <= fins l.
Proof. apply zlen_nonneg. Qed.

Lemma tiled_congr pos pos' l : u32 pos = u32 pos' -> tiled pos l -> tiled pos' l.
Proof.
  revert pos pos'. induction l as [|x l IH]; intros pos pos' Hp; cbn; [done|].
  intros (-> & ? & H). split; [done|]. split; [done|]. eapply IH; [|done].
  unfold u32 in *. rewrite Zplus_mod, Hp, <-Zplus_mod. done.
Qed.

(** ** Pointers into the queue *)

Section pointers.
Context (l1 l2 : list SSegment) (x : SSegment).
Hypothesis Hnd : NoDup (map ss_ptr (l1 ++ x :: l2)).

Lemma nodup_ne y : y ∈ l1 \/ y ∈ l2 -> ss_ptr y <> ss_ptr x.
Proof.
  rewrite map_app in Hnd. cbn in Hnd. apply stdpp.list_relations.list.NoDup_app in Hnd as (_ & H1 & H2).
  apply stdpp.list_relations.list.NoDup_cons in H2 as [H2 _]. intros [Hy|Hy] Heq.
  - apply (H1 (ss_ptr y)); [by apply (list_elem_of_fmap_2 ss_ptr)|]. rewrite Heq. left.
  - apply H2. rewrite <-Heq. by apply (list_elem_of_fmap_2 ss_ptr).
Qed.

Lemma find_ptr : list_find (fun y => ss_ptr y = ss_ptr x) (l1 ++ x :: l2) = Some (length l1, x).
Proof.
  apply list_find_Some. split; [by apply list_lookup_middle|]. split; [done|].
  intros j y Hy Hj. apply nodup_ne. left. rewrite lookup_app_l in Hy by done. by eapply list_elem_of_lookup_2.
Qed.

Lemma seg_set_split f : seg_set (ss_ptr x) f (l1 ++ x :: l2) = l1 ++ f x :: l2.
Proof.
  unfold seg_set. rewrite map_app. cbn [map]. rewrite Z.eqb_refl. f_equal; [|f_equal].
  - rewrite <-(map_id l1) at 2. apply map_ext_in. intros y Hy. apply list_elem_of_In in Hy.
    destruct (Z.eqb_spec (ss_ptr y) (ss_ptr x)) as [e|]; [|done]. by apply nodup_ne in e; [|left].
  - rewrite <-(map_id l2) at 2. apply map_ext_in. intros y Hy. apply list_elem_of_In in Hy.
    destruct (Z.eqb_spec (ss_ptr y) (ss_ptr x)) as [e|]; [|done]. by apply nodup_ne in e; [|right].
Qed.

Lemma insert_after_split z y : ss_ptr z = ss_ptr x -> insert_after (ss_ptr x) y (l1 ++ z :: l2) = l1 ++ z :: y :: l2.
Proof.
  assert (H : forall w, w ∈ l1 -> ss_ptr w <> ss_ptr x) by (intros; apply nodup_ne; by left).
  clear Hnd. induction l1 as [|w l IH]; intros Hz; cbn.
  - by rewrite Hz, Z.eqb_refl.
  - destruct (Z.eqb_spec (ss_ptr w) (ss_ptr x)) as [e|]; [by apply H in e; [|left]|].
    rewrite IH; [done| |done]. intros v Hv. apply H. by right.
Qed.
End pointers.

Lemma nodup_replace l1 (x y : SSegment) l2 : ss_ptr x = ss_ptr y ->
  NoDup (map ss_ptr (l1 ++ x :: l2)) -> NoDup (map ss_ptr (l1 ++ y :: l2)).
Proof. intros E. rewrite !map_app. cbn. by rewrite E. Qed.

Lemma nodup_insert l1 (x y : SSegment) l2 n :
  Forall (fun z => ss_ptr z < n) (l1 ++ x :: l2) -> ss_ptr y = n ->
  NoDup (map ss_ptr (l1 ++ x :: l2)) -> NoDup (map ss_ptr (l1 ++ x :: y :: l2)).
Proof.
  intros Hf Hy Hn.
  assert (Hperm : map ss_ptr (l1 ++ x :: y :: l2) ≡ₚ ss_ptr y :: map ss_ptr (l1 ++ x :: l2)).
  { rewrite !map_app. cbn. rewrite <-!Permutation_middle. by rewrite (Permutation_swap (ss_ptr x)). }
  rewrite Hperm. apply stdpp.list_relations.list.NoDup_cons. split; [|done]. intros Hin. apply list_elem_of_fmap in Hin as (z & Hz & Hin).
  apply list_elem_of_In in Hin. rewrite Forall_forall in Hf. specialize (Hf z Hin). cbn in Hf. lia.
Qed.

(** ** Sending one packet *)

(** What transmitting a packet leaves alone. *)
Record kept (s s' : PseudoTcpSocket) : Prop := {
  kp_slist : slist s' = slist s;
  kp_unsent : unsent_slist s' = unsent_slist s;
  kp_sbuf : sbuf s' = sbuf s;
  kp_una : snd_una s' = snd_una s;
  kp_nxt : snd_nxt s' = snd_nxt s;
  kp_ptr : next_ptr s' = next_ptr s;
  kp_scale : rwnd_scale s' = rwnd_scale s;
  kp_wnd : snd_wnd s' = snd_wnd s;
  kp_rcv : rcv_nxt s' = rcv_nxt s;
  kp_rbuf : rbuf s' = rbuf s;
  kp_rlist : rlist s' = rlist s;
  kp_state : state s' = state s;
  kp_fin : support_fin_ack s' = support_fin_ack s;
  kp_callbacks : callbacks s' = callbacks s;
  kp_base : rto_base s' = rto_base s;
  kp_rto : rx_rto s' = rx_rto s
}.

#[export] Instance kept_refl : Reflexive kept.
Proof. intros s. by constructor. Qed.
#[export] Instance kept_trans : Transitive kept.
Proof. intros s t u [] []. constructor; congruence. Qed.

(** The packet [d] carries bytes of the queue [q] whose first byte has
    sequence number [una]: those queued at the sequence number in its header. *)
Definition carries (una : Z) (q d : list Z) : Prop :=
  HEADER_SIZE <= zlen d /\
  (HEADER_SIZE < zlen d -> exists off, 0 <= off /\ slice d 4 4 = be_bytes 4 (una + off) /\
    off + (zlen d - HEADER_SIZE) <= zlen q /\
    drop (Z.to_nat HEADER_SIZE) d = slice q off (zlen d - HEADER_SIZE)).

(** Packets sent between two states, latest first. *)
Definition emits (P : list Z -> Prop) (s s' : PseudoTcpSocket) : Prop :=
  exists es, trace s' = es ++ trace s /\ Forall (fun e => match e with EvPacket d _ => P d | _ => True end) es.

Lemma emits_refl P s s' : trace s' = trace s -> emits P s s'.
Proof. intros H. exists []. by rewrite H. Qed.
Lemma emits_trans P s t u : emits P s t -> emits P t u -> emits P s u.
Proof.
  intros (e1 & H1 & F1) (e2 & H2 & F2). exists (e2 ++ e1). rewrite H2, H1, app_assoc. split; [done|].
  apply Forall_app. done.
Qed.

Section packets.
Context {E : PtcpEnv}.
Implicit Types s : PseudoTcpSocket.

Lemma header_spec s seq flags now : 0 <= rwnd_scale s < 32 ->
  exists h, header s seq flags now = Ok h /\ zlen h = HEADER_SIZE /\ slice h 4 4 = be_bytes 4 seq.
Proof.
  intros. unfold header. destruct (Z.ltb_spec (rwnd_scale s) 32); [|lia].
  eexists. split; [done|]. split; [by autorewrite with zlen; rewrite ?zlen_le_bytes|].
  rewrite <-le_bytes_htonl. set (a := le_bytes 4 (htonl (conv s))). set (m := le_bytes 4 (htonl seq)).
  change 4 with (zlen a) at 1. change 4 with (zlen m). apply slice_app.
Qed.

Lemma packet_spec s seq flags off len now :
  fifo_ok (sbuf s) -> 0 <= rwnd_scale s < 32 -> 0 <= len <= MAX_PACKET - HEADER_SIZE ->
  (0 < len -> 0 <= off /\ off + len <= ff_data_length (sbuf s)) ->
  exists r s', packet s seq flags off len now = Ok (r, s') /\ kept s s' /\ mss s' = mss s /\ msslevel s' = msslevel s /\
    (len = 0 -> r = WR_SUCCESS) /\ (0 < len -> r = WR_SUCCESS -> lastsend s' = now) /\
    (forall una, be_bytes 4 seq = be_bytes 4 (una + off) -> emits (carries una (contents (sbuf s))) s s') /\
    (len = 0 -> forall una, emits (carries una (contents (sbuf s))) s s').
Proof.
  intros Hf Hs Hlen Hoff. unfold packet. cbn in Hlen. unfold MAX_PACKET, HEADER_SIZE in Hlen.
  rewrite assert_ok_true by (apply Z.leb_le; cbn; rewrite u32_small; unfold MAX_PACKET, HEADER_SIZE; lia).
  cbn [mbind res_bind]. destruct (header_spec s seq flags now Hs) as (h & -> & Hh & Hseq). cbn [mbind res_bind]. psimpl.
  pose proof (zlen_contents _ Hf) as Hc. set (q := contents (sbuf s)) in *.
  assert (Hp : (if negb (len =? 0) then
               '(bytes_read, d) ← pseudo_tcp_fifo_read_offset (sbuf s) len off;
               _ ← assert_ok (bytes_read =? len); Ok d else Ok []) = Ok (slice q off len)).
  { destruct (Z.eqb_spec len 0) as [->|]; [done|]. cbn [negb]. rewrite read_offset_spec by (done || lia).
    rewrite Z.min_l by lia. cbn [mbind res_bind]. by rewrite Z.eqb_refl. }
  rewrite Hp. cbn [mbind res_bind]. clear Hp. set (d := h ++ slice q off len).
  set (w := WritePacket _ d).
  assert (Hd : zlen d = HEADER_SIZE + len).
  { unfold d. rewrite zlen_app, Hh. destruct (Z.eqb_spec len 0) as [->|]; [done|]. rewrite zlen_slice; lia. }
  assert (Hcar : forall una, be_bytes 4 seq = be_bytes 4 (una + off) \/ len = 0 -> carries una q d).
  { intros una Hu. split; [unfold HEADER_SIZE in *; lia|]. intros Hlt. exists off.
    destruct Hu as [Hu|Hu]; [|unfold HEADER_SIZE in *; lia].
    unfold d at 1. rewrite slice_app_l by (unfold HEADER_SIZE in *; lia). rewrite Hseq.
    rewrite Hd in *. replace (HEADER_SIZE + len - HEADER_SIZE) with len by lia. split; [lia|]. split; [done|].
    split; [lia|]. unfold d. rewrite <-Hh, to_nat_zlen. apply drop_app_length. }
  assert (Hem : forall una, be_bytes 4 seq = be_bytes 4 (una + off) \/ len = 0 ->
    forall s', trace s' = EvPacket d w :: trace s -> emits (carries una q) s s').
  { intros una Hu s' Ht. exists [EvPacket d w]. split; [done|]. constructor; [by apply Hcar|constructor]. }
  destruct (bool_decide_reflect (w = WR_SUCCESS)) as [Hw|Hw], (Z.eqb_spec len 0) as [Hl|Hl]; cbn [negb andb];
    destruct (Z.ltb_spec 0 len); try lia; do 2 eexists; (split; [reflexivity|]);
    repeat (split; [first [done | by constructor | intros; lia
      | intros; eapply Hem; [by left|by psimpl] | intros; eapply Hem; [by right|by psimpl]]|]);
    try (intros; lia); intros; (eapply Hem; [by (left + right)|by psimpl]).
Qed.

(** ** The MTU ladder *)

Lemma ladder level : 0 <= level <= 9 ->
  exists next, packet_maximum (level + 1) = Ok next /\
    (next = 0 \/ level <= 8 /\ 180 <= next - PACKET_OVERHEAD <= MAX_PACKET - HEADER_SIZE).
Proof.
  intros. assert (level = 0 \/ level = 1 \/ level = 2 \/ level = 3 \/ level = 4 \/ level = 5 \/ level = 6 \/ level = 7
    \/ level = 8 \/ level = 9) as Hc by lia.
  repeat (destruct Hc as [->|Hc]); try (subst level); (eexists; split; [vm_compute; reflexivity|]);
    first [by left|right; vm_compute; repeat split; discriminate].
Qed.

Lemma lower_mss_spec fuel s n : 0 < mss s <= MAX_PACKET - HEADER_SIZE -> 0 <= msslevel s <= 9 ->
  (Z.to_nat (9 - msslevel s) < fuel)%nat ->
  exists r s', lower_mss fuel s n = Ok (r, s') /\ kept s s' /\ trace s' = trace s /\
    0 < mss s' <= MAX_PACKET - HEADER_SIZE /\ msslevel s <= msslevel s' <= 9 /\
    match r with Some m => 180 <= m < n /\ m = mss s' /\ msslevel s < msslevel s' | None => True end.
Proof.
  revert s. induction fuel as [|fuel IH]; intros s Hm Hl Hf; [lia|]. cbn [lower_mss].
  destruct (ladder (msslevel s) Hl) as (next & -> & Hn). cbn [mbind res_bind].
  destruct (Z.eqb_spec next 0) as [->|Hne].
  { do 2 eexists. split; [done|]. split; [done|]. split; [done|]. repeat split; lia. }
  destruct Hn as [?|[H8 Hn]]; [done|]. psimpl.
  rewrite (u32_small (next - PACKET_OVERHEAD)) by (unfold MAX_PACKET, HEADER_SIZE in *; lia).
  rewrite (u32_small (msslevel s + 1)) by lia.
  destruct (Z.ltb_spec (next - PACKET_OVERHEAD) n).
  - do 2 eexists. split; [done|]. split; [by constructor|]. psimpl. repeat split; lia.
  - match goal with |- context [lower_mss fuel ?t n] => set (s1 := t) end.
    destruct (IH s1) as (r & s' & -> & Hk & Ht & Hm' & Hl' & Hr); unfold s1; psimpl; [lia|lia|lia|].
    do 2 eexists. split; [done|]. unfold s1 in Hk, Ht, Hl', Hr. psimpl_in Ht. psimpl_in Hl'.
    split; [etransitivity; [|exact Hk]; by constructor|]. split; [done|]. split; [done|]. split; [lia|].
    destruct r; [|done]. psimpl_in Hr. lia.
Qed.

(** ** Transmitting a segment *)

Lemma be_bytes_u32 x y : u32 x = u32 y -> be_bytes 4 x = be_bytes 4 y.
Proof.
  intros H. rewrite <-(le_bytes_htonl x), <-(le_bytes_htonl y). unfold htonl. by rewrite H.
Qed.

Lemma transmit_loop_spec fuel s x n now o :
  fifo_ok (sbuf s) -> ff_buffer_length (sbuf s) <= 2 ^ 26 -> 0 <= rwnd_scale s < 32 ->
  0 < mss s <= MAX_PACKET - HEADER_SIZE -> 0 <= msslevel s <= 9 -> 0 <= n <= MAX_PACKET - HEADER_SIZE ->
  0 <= snd_una s < 2 ^ 32 -> ss_seq x = u32 (snd_una s + o) -> 0 <= o -> o + n <= ff_data_length (sbuf s) ->
  (Z.to_nat (9 - msslevel s) < fuel)%nat ->
  exists r s', transmit_loop fuel s x n now = Ok (r, s') /\ kept s s' /\
    0 < mss s' <= MAX_PACKET - HEADER_SIZE /\ 0 <= msslevel s' <= 9 /\
    emits (carries (snd_una s) (contents (sbuf s))) s s' /\
    match r with inl m => 0 <= m <= n /\ (0 < n -> 0 < m) /\ (m = n \/ 2 <= m) | inr err => 0 < err < 2 ^ 31 end.
Proof.
  revert s n. induction fuel as [|fuel IH]; intros s n Hf Hcap Hs Hm Hl Hn Hu Hx Ho Hon Hfu; [lia|].
  pose proof Hf as Hf'. destruct Hf' as [_ Hsz Hd _ _]. cbn [transmit_loop].
  assert (Hoff : u32 (ss_seq x - snd_una s) = o).
  { rewrite Hx. rewrite <-(u32_small (snd_una s)) at 2 by lia. rewrite u32_sub; lia. }
  rewrite Hoff, assert_ok_true by (apply Z.leb_le; lia). cbn [mbind res_bind].
  destruct (packet_spec s (ss_seq x) (u8 (ss_flags x)) o n now) as (w & s1 & -> & Hk & Hm1 & Hl1 & _ & _ & Hem & _);
    [done|done|done|lia|]. cbn [mbind res_bind].
  assert (Hem1 : emits (carries (snd_una s) (contents (sbuf s))) s s1).
  { apply Hem. apply be_bytes_u32. rewrite Hx. apply u32_idem. }
  destruct w.
  - do 2 eexists. split; [done|]. split; [done|]. rewrite Hm1, Hl1. do 3 (split; [done|]). lia.
  - destruct (lower_mss_spec 12 s1 n) as (r & s2 & -> & Hk2 & Ht & Hm2 & Hl2 & Hr); [lia|lia|lia|].
    cbn [mbind res_bind].
    assert (Hem2 : emits (carries (snd_una s) (contents (sbuf s))) s s2).
    { eapply emits_trans; [exact Hem1|by apply emits_refl]. }
    assert (Hk' : kept s s2) by (etransitivity; done).
    destruct r as [m|].
    + destruct (IH s2 m) as (r & s3 & -> & Hk3 & Hm3 & Hl3 & Hem3 & Hr3);
        rewrite ?(kp_sbuf _ _ Hk'), ?(kp_una _ _ Hk'), ?(kp_scale _ _ Hk'); try done; try lia.
      do 2 eexists. split; [done|]. split; [etransitivity; done|]. do 2 (split; [done|]).
      rewrite (kp_sbuf _ _ Hk'), (kp_una _ _ Hk') in Hem3. split; [by eapply emits_trans|].
      destruct r; [lia|done].
    + do 2 eexists. split; [done|]. split; [done|]. split; [done|]. split; [lia|]. split; [done|].
      split; vm_compute; reflexivity.
  - do 2 eexists. split; [done|]. split; [done|]. rewrite Hm1, Hl1. do 3 (split; [done|]).
    split; vm_compute; reflexivity.
Qed.
End packets.

(** ** Splitting and marking segments *)

(** What every send operation leaves alone. *)
Record framed (s s' : PseudoTcpSocket) : Prop := {
  fr_sbuf : sbuf s' = sbuf s;
  fr_una : snd_una s' = snd_una s;
  fr_scale : rwnd_scale s' = rwnd_scale s;
  fr_wnd : snd_wnd s' = snd_wnd s;
  fr_rcv : rcv_nxt s' = rcv_nxt s;
  fr_rbuf : rbuf s' = rbuf s;
  fr_rlist : rlist s' = rlist s;
  fr_fin : support_fin_ack s' = support_fin_ack s;
  fr_callbacks : callbacks s' = callbacks s
}.

#[export] Instance framed_refl : Reflexive framed.
Proof. intros s. by constructor. Qed.
#[export] Instance framed_trans : Transitive framed.
Proof. intros s t u [] []. constructor; congruence. Qed.
Lemma kept_framed s s' : kept s s' -> framed s s'.
Proof. intros []. by constructor. Qed.

Lemma inv_kept s s' sent unsent :
  snd_inv s sent unsent -> kept s s' -> 0 < mss s' <= MAX_PACKET - HEADER_SIZE -> 0 <= msslevel s' <= 9 ->
  snd_inv s' sent unsent.
Proof.
  intros [] [] ? ?. constructor;
    rewrite ?kp_slist0, ?kp_unsent0, ?kp_sbuf0, ?kp_una0, ?kp_nxt0, ?kp_ptr0, ?kp_scale0; done.
Qed.

(** [x] cut after [m] bytes; the rest gets the address [p]. *)
Definition cut_rest (x : SSegment) (m p : Z) : SSegment :=
  mkSSegment p (u32 (ss_seq x + m)) (ss_len x - m) (ss_xmit x) (ss_flags x).

Lemma u32_add_l x y : u32 (u32 x + y) = u32 (x + y).
Proof. unfold u32. by rewrite Zplus_mod_idemp_l. Qed.

Lemma tiled_cut pos l1 x l2 m p : 0 <= m <= ss_len x ->
  tiled pos (l1 ++ x :: l2) -> tiled pos (l1 ++ with_len m x :: cut_rest x m p :: l2).
Proof.
  intros Hm. rewrite !tiled_app. cbn. intros (H1 & Hs & Hl & H2). split; [done|]. split; [done|].
  split; [lia|]. split; [by rewrite Hs, u32_add_l|]. split; [lia|].
  by replace (pos + total l1 + m + (ss_len x - m)) with (pos + total l1 + ss_len x) by lia.
Qed.

Lemma total_cut l1 x l2 m p : total (l1 ++ with_len m x :: cut_rest x m p :: l2) = total (l1 ++ x :: l2).
Proof. rewrite !total_app, !total_cons. cbn. lia. Qed.

Lemma fins_cut l1 x l2 m p : 0 < m < ss_len x ->
  fins (l1 ++ with_len m x :: cut_rest x m p :: l2) = fins (l1 ++ x :: l2).
Proof.
  intros. rewrite !fins_app. f_equal. unfold fins. cbn [List.filter].
  assert (Hlen : forall y, ss_len y <> 0 -> is_fin y = false).
  { intros y Hy. unfold is_fin. by destruct (Z.eqb_spec (ss_len y) 0). }
  rewrite !Hlen; cbn; try done; lia.
Qed.

Lemma fresh_cut l1 x l2 m n : Forall (fun z => ss_ptr z < n) (l1 ++ x :: l2) ->
  Forall (fun z => ss_ptr z < n + 1) (l1 ++ with_len m x :: cut_rest x m n :: l2).
Proof.
  intros Hf. apply Forall_app in Hf as [H1 H2]. apply list.Forall_cons in H2 as [Hx H2].
  assert (Hi : forall l : list SSegment, Forall (fun z => ss_ptr z < n) l -> Forall (fun z => ss_ptr z < n + 1) l).
  { intros l. apply Forall_impl. intros; lia. }
  apply Forall_app. split; [by apply Hi|]. constructor; [cbn; lia|]. constructor; [cbn; lia|by apply Hi].
Qed.

Lemma nodup_cut l1 x l2 m n : Forall (fun z => ss_ptr z < n) (l1 ++ x :: l2) ->
  NoDup (map ss_ptr (l1 ++ x :: l2)) -> NoDup (map ss_ptr (l1 ++ with_len m x :: cut_rest x m n :: l2)).
Proof.
  intros Hf Hn. eapply nodup_insert; [|done|].
  - apply Forall_app in Hf as [H1 H2]. apply list.Forall_cons in H2 as [Hx H2]. apply Forall_app. split; [exact H1|].
    constructor; [exact Hx|exact H2].
  - by eapply nodup_replace; [|exact Hn].
Qed.

(** Marking a segment as sent once more changes only its counter. *)
Lemma tiled_xmit pos l1 x n l2 : tiled pos (l1 ++ x :: l2) -> tiled pos (l1 ++ with_xmit n x :: l2).
Proof. by rewrite !tiled_app. Qed.
Lemma total_xmit l1 x n l2 : total (l1 ++ with_xmit n x :: l2) = total (l1 ++ x :: l2).
Proof. by rewrite !total_app, !total_cons. Qed.
Lemma fins_xmit l1 x n l2 : fins (l1 ++ with_xmit n x :: l2) = fins (l1 ++ x :: l2).
Proof. rewrite !fins_app. f_equal. unfold fins. cbn. change (is_fin (with_xmit n x)) with (is_fin x). by destruct (is_fin x). Qed.
Lemma fresh_xmit k l1 x n l2 : Forall (fun z => ss_ptr z < k) (l1 ++ x :: l2) ->
  Forall (fun z => ss_ptr z < k) (l1 ++ with_xmit n x :: l2).
Proof.
  intros Hf. apply Forall_app in Hf as [H1 H2]. apply list.Forall_cons in H2 as [Hx H2]. apply Forall_app.
  split; [exact H1|]. constructor; [exact Hx|exact H2].
Qed.

Section transmit.
Context {E : PtcpEnv}.
Implicit Types s : PseudoTcpSocket.

Lemma seg_at_split s l1 x l2 : slist s = l1 ++ x :: l2 -> NoDup (map ss_ptr (l1 ++ x :: l2)) ->
  seg_at s (ss_ptr x) = Ok x.
Proof. intros Hl Hn. unfold seg_at. rewrite Hl, find_ptr by done. done. Qed.

(** The segment's position in the send buffer. *)
Lemma tiled_offset s l1 x l2 : tiled (snd_una s) (l1 ++ x :: l2) -> total (l1 ++ x :: l2) = ff_data_length (sbuf s) ->
  ss_seq x = u32 (snd_una s + total l1) /\ 0 <= total l1 /\ 0 <= ss_len x /\
  total l1 + ss_len x <= ff_data_length (sbuf s).
Proof.
  rewrite tiled_app, total_app, total_cons. cbn. intros (H1 & Hs & Hl & H2) Ht.
  apply tiled_total in H1, H2. split; [done|]. lia.
Qed.

(** The first part of [transmit]: it fails and changes nothing of the queue,
    or it sends the first [m] bytes of the segment. *)
Lemma transmit_start s sent unsent l1 x l2 now :
  snd_inv s sent unsent -> slist s = l1 ++ x :: l2 -> 0 <= ss_xmit x <= 30 ->
  exists r s1, kept s s1 /\ emits (carries (snd_una s) (contents (sbuf s))) s s1 /\ snd_inv s1 sent unsent /\
    match r with
    | inr err => transmit s (ss_ptr x) now = Ok (err, s1) /\ 0 < err < 2 ^ 31
    | inl m => 0 <= m <= ss_len x /\ (m = Z.min (ss_len x) (mss s) \/ 2 <= m) /\ (0 < ss_len x -> 0 < m) /\ ss_xmit x < 30 /\
        transmit s (ss_ptr x) now =
        (let s := split_segment s1 x m in
         segment ← seg_at s (ss_ptr x);
         s ← (if ss_xmit segment =? 0 then
                _ ← assert_ok (bool_decide (list.head (unsent_slist s) = Some (ss_ptr x)));
                let s := s <| unsent_slist := list.tail (unsent_slist s) |> in
                let s := s <| snd_nxt := u32 (snd_nxt s + ss_len segment) |> in
                Ok (if (ss_len segment =? 0) && flag (ss_flags segment) FLAG_FIN then
                      s <| snd_nxt := u32 (snd_nxt s + 1) |>
                    else s)
              else Ok s);
         let s := s <| slist := seg_set (ss_ptr x) (fun x => with_xmit (u8 (ss_xmit x + 1)) x) (slist s) |> in
         Ok (0, if rto_base s =? 0 then s <| rto_base := now |> else s))
    end.
Proof.
  intros Hi Hl Hx. pose proof Hi as [Hf Hcap _ _ _ _ Hnd _ Ht Htot _ Hu _ Hm Hlv Hs]. rewrite Hl in Hnd, Ht, Htot.
  destruct (tiled_offset _ _ _ _ Ht Htot) as (Hseq & H0 & H1 & H2).
  unfold transmit. rewrite (seg_at_split _ _ _ _ Hl Hnd). cbn [mbind res_bind].
  set (lim := if bool_decide (state s = PSEUDO_TCP_ESTABLISHED) then 15 else 30).
  assert (lim <= 30) by (unfold lim; case_match; lia).
  destruct (Z.leb_spec lim (ss_xmit x)).
  { exists (inr ETIMEDOUT), s. split; [done|]. split; [by apply emits_refl|]. split; [done|].
    split; [done|]. split; vm_compute; reflexivity. }
  destruct (transmit_loop_spec 12 s x (Z.min (ss_len x) (mss s)) now (total l1)) as
    (r & s1 & Htl & Hk & Hm1 & Hl1 & Hem & Hr); try done; try lia.
  exists r, s1. split; [done|]. split; [done|]. split; [by eapply inv_kept|]. rewrite Htl. cbn [mbind res_bind].
  destruct r as [m|err]; [|done]. split; [lia|]. split; [lia|]. split; [lia|]. split; [lia|]. done.
Qed.

Lemma split_segment_keep s x m : ss_len x <= m -> split_segment s x m = s.
Proof. intros. unfold split_segment. by destruct (Z.ltb_spec m (ss_len x)); [lia|]. Qed.

(** Cutting the first segment that was never sent. *)
Lemma cut_unsent s sent x rest m :
  snd_inv s sent (x :: rest) -> 0 < m < ss_len x ->
  forall s', slist s' = sent ++ with_len m x :: cut_rest x m (next_ptr s) :: rest ->
    unsent_slist s' = ss_ptr x :: next_ptr s :: map ss_ptr rest -> next_ptr s' = next_ptr s + 1 ->
    framed s s' -> snd_nxt s' = snd_nxt s -> mss s' = mss s -> msslevel s' = msslevel s ->
    snd_inv s' sent (with_len m x :: cut_rest x m (next_ptr s) :: rest).
Proof.
  intros [] Hm s' Hl Hu Hp [] Hn Hms Hlv. rewrite sv_list0 in *.
  apply list.Forall_cons in sv_unsent0 as [Hx0 Hrest].
  constructor; rewrite ?Hl, ?Hp, ?fr_sbuf0, ?fr_una0, ?fr_scale0, ?Hms, ?Hlv, ?Hn; try done.
  - constructor; [done|]. constructor; done.
  - by apply nodup_cut.
  - by apply fresh_cut.
  - apply tiled_cut; [lia|done].
  - by rewrite total_cut.
  - by rewrite fins_cut.
Qed.

Lemma split_unsent s sent x rest m :
  snd_inv s sent (x :: rest) -> 0 < m < ss_len x ->
  framed s (split_segment s x m) /\ trace (split_segment s x m) = trace s /\
  state (split_segment s x m) = state s /\ mss (split_segment s x m) = mss s /\
  snd_inv (split_segment s x m) sent (with_len m x :: cut_rest x m (next_ptr s) :: rest).
Proof.
  intros Hi Hm. pose proof Hi as []. unfold split_segment. destruct (Z.ltb_spec m (ss_len x)); [|lia].
  apply list.Forall_cons in sv_unsent0 as [Hx0 Hrest]. cbn [ss_xmit]. rewrite Hx0. cbn [Z.eqb].
  rewrite sv_list0 in *. destruct (tiled_offset _ _ _ _ sv_tiled0 sv_total0) as (Hseq & ? & ? & ?).
  destruct sv_fifo0. rewrite (u32_small (ss_len x - m)) by lia.
  replace (mkSSegment (next_ptr s) (u32 (ss_seq x + m)) (ss_len x - m) 0 (ss_flags x))
    with (cut_rest x m (next_ptr s)) by (unfold cut_rest; by rewrite Hx0).
  split; [by constructor|]. do 3 (split; [done|]). apply (cut_unsent s); try done; psimpl.
  - rewrite seg_set_split by done.
    apply (insert_after_split sent rest x sv_nodup0 (with_len m x)). done.
  - rewrite sv_ptrs0. cbn. by rewrite Z.eqb_refl.
Qed.

(** Taking the first unsent segment off the unsent queue. *)
Lemma mark_first s s' sent x rest :
  snd_inv s sent (x :: rest) -> framed s s' -> mss s' = mss s -> msslevel s' = msslevel s -> next_ptr s' = next_ptr s ->
  slist s' = sent ++ with_xmit 1 x :: rest -> unsent_slist s' = map ss_ptr rest ->
  snd_nxt s' = u32 (snd_nxt s + ss_len x + if is_fin x then 1 else 0) ->
  snd_inv s' (sent ++ [with_xmit 1 x]) rest.
Proof.
  intros [] [] Hm Hl Hp Hsl Hun Hnx. rewrite sv_list0 in *.
  apply list.Forall_cons in sv_unsent0 as [Hx0 Hrest].
  constructor; rewrite ?Hsl, ?Hun, ?Hp, ?Hm, ?Hl, ?fr_sbuf0, ?fr_una0, ?fr_scale0; try done.
  - by rewrite <-app_assoc.
  - apply Forall_app. split; [done|]. constructor; [|constructor]. cbn. lia.
  - by eapply nodup_replace; [|exact sv_nodup0].
  - by apply fresh_xmit.
  - by apply tiled_xmit.
  - by rewrite total_xmit.
  - by rewrite fins_xmit.
  - rewrite Hnx, sv_nxt0, total_app, fins_app, fins_one. change (is_fin (with_xmit 1 x)) with (is_fin x).
    cbn [total foldr]. rewrite <-Z.add_assoc, u32_add_l. f_equal. cbn. lia.
Qed.

Lemma transmit_first s sent x rest now :
  snd_inv s sent (x :: rest) ->
  exists st s', transmit s (ss_ptr x) now = Ok (st, s') /\ framed s s' /\ state s' = state s /\
    emits (carries (snd_una s) (contents (sbuf s))) s s' /\ 0 <= st < 2 ^ 31 /\
    (0 < st -> snd_inv s' sent (x :: rest)) /\
    (st = 0 -> exists y rest', snd_inv s' (sent ++ [y]) rest' /\ ss_len y <= ss_len x /\
       total rest' = total rest + ss_len x - ss_len y /\
       (ss_len y = ss_len x /\ zlen rest' = zlen rest \/
        0 < ss_len y < ss_len x /\ zlen rest' = zlen rest + 1 /\ (ss_len y = mss s \/ 2 <= ss_len y))).
Proof.
  intros Hi. pose proof Hi as [_ _ Hl _ Hun _ _ _ _ _ _ _ _ _ _ _].
  apply list.Forall_cons in Hun as [Hx0 Hrest].
  destruct (transmit_start s sent (x :: rest) sent x rest now Hi Hl) as (r & s1 & Hk & Hem & Hi1 & Hr); [lia|].
  destruct r as [m|err].
  2: { destruct Hr as [-> He]. do 2 eexists. split; [done|]. split; [by apply kept_framed|].
       split; [apply Hk|]. split; [done|]. split; [lia|]. split; [done|lia]. }
  destruct Hr as (Hm & Hms & Hm0 & Hx30 & ->).
  (** after the split the segment is the first unsent one with [m] bytes *)
  assert (exists z rest', framed s1 (split_segment s1 x m) /\ trace (split_segment s1 x m) = trace s1 /\
    state (split_segment s1 x m) = state s1 /\
    snd_inv (split_segment s1 x m) sent (z :: rest') /\ ss_ptr z = ss_ptr x /\ ss_xmit z = 0 /\ ss_len z = m /\
    total rest' = total rest + ss_len x - m /\
    (m = ss_len x /\ zlen rest' = zlen rest \/ 0 < m < ss_len x /\ zlen rest' = zlen rest + 1 /\ (m = mss s \/ 2 <= m)))
    as (z & rest' & Hf2 & Ht2 & Hst2 & Hi2 & Hp & Hz0 & Hzm & Htot & Hmeas).
  { destruct (Z.eq_dec m (ss_len x)) as [->|Hne].
    - exists x, rest. rewrite split_segment_keep by lia. split; [done|]. split_and!; try done; lia.
    - destruct (split_unsent s1 sent x rest m Hi1) as (Ha & Hb & Hc & _ & Hd); [lia|].
      exists (with_len m x), (cut_rest x m (next_ptr s1) :: rest). rewrite total_cons, zlen_cons. cbn [with_len cut_rest ss_ptr ss_xmit ss_len].
      split_and!; try done; lia. }
  set (s2 := split_segment s1 x m) in *. pose proof Hi2 as [_ _ Hl2 _ _ Hu2 Hnd2 _ _ _ _ _ _ _ _ _].
  rewrite Hl2 in Hnd2. cbv zeta. rewrite <-Hp, (seg_at_split _ _ _ _ Hl2 Hnd2). cbn [mbind res_bind].
  rewrite Hz0. cbn [Z.eqb]. rewrite Hu2. cbn [map list.head list.tail].
  rewrite assert_ok_true by (by apply bool_decide_eq_true). cbn [mbind res_bind].
  assert (Hfr : framed s s2) by (etransitivity; [by apply kept_framed|done]).
  assert (Hem2 : emits (carries (snd_una s) (contents (sbuf s))) s s2).
  { eapply emits_trans; [exact Hem|by apply emits_refl]. }
  change ((ss_len z =? 0) && flag (ss_flags z) FLAG_FIN) with (is_fin z).
  do 2 eexists. split; [reflexivity|].
  match goal with |- context [framed s ?t] => set (s3 := t) end.
  assert (H3 : framed s2 s3 /\ state s3 = state s2 /\ trace s3 = trace s2 /\ mss s3 = mss s2 /\ msslevel s3 = msslevel s2 /\
    next_ptr s3 = next_ptr s2 /\ slist s3 = sent ++ with_xmit 1 z :: rest' /\ unsent_slist s3 = map ss_ptr rest' /\
    snd_nxt s3 = u32 (snd_nxt s2 + ss_len z + if is_fin z then 1 else 0)).
  { unfold s3. destruct (is_fin z); case_match; (split; [by constructor|]); do 5 (split; [done|]); psimpl;
      rewrite Hl2, seg_set_split, Hz0 by done; (split; [done|]); (split; [done|]);
      rewrite ?u32_add_l, ?Z.add_0_r; done. }
  destruct H3 as (Hf3 & Hst3 & Ht3 & Hm3 & Hl3 & Hp3 & Hsl3 & Hu3 & Hn3).
  split; [etransitivity; done|]. split; [rewrite Hst3, Hst2; apply Hk|].
  split; [eapply emits_trans; [exact Hem2|by apply emits_refl]|]. split; [lia|]. split; [lia|]. intros _.
  exists (with_xmit 1 z), rest'. split; [by eapply (mark_first s2)|]. cbn [with_xmit ss_len].
  split; [lia|]. split; lia.
Qed.
End transmit.

(** ** Closing down and sending what the window allows *)

Section sending.
Context {E : PtcpEnv}.
Implicit Types s : PseudoTcpSocket.

Lemma set_state_to s st : st <> state s -> valid_transition (state s) st = true ->
  set_state s st = Ok (s <| state := st |>).
Proof. intros Hne Hv. unfold set_state. by rewrite bool_decide_eq_false_2, Hv. Qed.
Lemma set_state_same s st : state s = st -> set_state s st = Ok s.
Proof. intros <-. unfold set_state. by rewrite bool_decide_eq_true_2. Qed.

(** Closing down never fails, from any state, and ends in CLOSED. *)
Lemma closedown_remote_spec s err :
  exists tr, closedown_remote s err = Ok (s <| state := PSEUDO_TCP_CLOSED |> <| trace := tr |>) /\
    (tr = trace s \/ tr = EvClosed err :: trace s).
Proof.
  unfold closedown_remote, set_state_closed, emit.
  destruct (state s) eqn:Hs; cbn [mbind res_bind];
    repeat (rewrite set_state_to by (psimpl; rewrite ?Hs; done); cbn [mbind res_bind]);
    try (rewrite (set_state_same s) by done; cbn [mbind res_bind]);
    psimpl; (destruct (PseudoTcpClosed (callbacks s) && negb (err =? 0));
      [exists (EvClosed err :: trace s); split; [|by right]|exists (trace s); split; [|by left]]);
    destruct s; cbn in Hs; subst; reflexivity.
Qed.

Lemma inv_total s sent unsent : snd_inv s sent unsent -> 0 <= total sent /\ 0 <= total unsent /\
  total sent + total unsent = ff_data_length (sbuf s) /\ ff_data_length (sbuf s) <= 2 ^ 26 /\ 0 <= fins sent < 2 ^ 31.
Proof.
  intros []. rewrite sv_list0 in *. rewrite total_app in sv_total0. apply tiled_app in sv_tiled0 as [H1 H2].
  apply tiled_total in H1, H2. rewrite fins_app in sv_fins0. pose proof (fins_nonneg sent). pose proof (fins_nonneg unsent).
  destruct sv_fifo0. lia.
Qed.

Lemma in_flight s sent unsent : snd_inv s sent unsent ->
  u32 (snd_nxt s - snd_una s) = total sent + fins sent.
Proof.
  intros Hi. destruct (inv_total _ _ _ Hi) as (?&?&?&?&?). destruct Hi. rewrite sv_nxt0.
  rewrite <-(u32_small (snd_una s)) at 2 by lia. rewrite u32_sub; lia.
Qed.

(** How much may be sent: at most what the peer's window leaves. *)
Lemma send_window_spec s sent unsent : snd_inv s sent unsent ->
  let '(_, n) := send_window s in 0 <= n <= mss s /\ (0 < n -> total sent + fins sent + n <= snd_wnd s).
Proof.
  intros Hi. destruct (inv_total _ _ _ Hi) as (?&?&?&?&?). unfold send_window. rewrite (in_flight _ _ _ Hi).
  pose proof (sv_mss _ _ _ Hi). unfold pseudo_tcp_fifo_get_buffered. cbv zeta.
  set (nw := Z.min (snd_wnd s) _). assert (nw <= snd_wnd s) by (unfold nw; lia). clearbody nw.
  set (use := if _ <? nw then _ else 0). assert (0 <= use /\ (0 < use -> total sent + fins sent + use <= nw)) as [? ?]
    by (unfold use; destruct (Z.ltb_spec (total sent + fins sent) nw); lia). clearbody use.
  set (av := if ff_data_length (sbuf s) <? _ then 0 else _).
  assert (0 <= av <= mss s) by (unfold av; destruct (Z.ltb_spec (ff_data_length (sbuf s)) (total sent + fins sent)); lia).
  clearbody av. destruct (Z.ltb_spec use av); [destruct (u32 (use * 4) <? nw)|]; lia.
Qed.

(** Nothing of the invariant depends on the fields these assign. *)
Lemma inv_ack s sent unsent now : snd_inv s sent unsent -> snd_inv (s <| t_ack := now |>) sent unsent.
Proof. intros []. by constructor. Qed.
Lemma inv_closed s sent unsent st tr :
  snd_inv s sent unsent -> snd_inv (s <| state := st |> <| trace := tr |>) sent unsent.
Proof. intros []. by constructor. Qed.

Lemma empty_packet s sent unsent seq flags off now : snd_inv s sent unsent ->
  exists s', packet s seq flags off 0 now = Ok (WR_SUCCESS, s') /\ framed s s' /\ snd_inv s' sent unsent /\
    emits (carries (snd_una s) (contents (sbuf s))) s s' /\ state s' = state s.
Proof.
  intros Hi. pose proof Hi as [].
  destruct (packet_spec s seq flags off 0 now) as (r & s' & Hp & Hk & Hm & Hl & Hr & _ & _ & Hem);
    try done; try lia. rewrite Hr in Hp by done. exists s'. split; [done|]. split; [by apply kept_framed|].
  split; [eapply inv_kept; [done|done|by rewrite Hm|by rewrite Hl]|]. split; [by apply Hem|apply Hk].
Qed.

Definition measure (unsent : list SSegment) : Z := total unsent + zlen unsent.

(** [attempt_send]'s cut of the first unsent segment. *)
Lemma cut_available s sent x rest n :
  snd_inv s sent (x :: rest) -> 0 < n < ss_len x ->
  let s' := s <| unsent_slist := insert_ptr_after (ss_ptr x) (next_ptr s) (unsent_slist s) |>
              <| slist := insert_after (ss_ptr x)
                   (mkSSegment (next_ptr s) (u32 (ss_seq x + n)) (ss_len x - n) 0 (ss_flags x))
                   (seg_set (ss_ptr x) (with_len n) (slist s)) |>
              <| next_ptr := next_ptr s + 1 |> in
  snd_inv s' sent (with_len n x :: cut_rest x n (next_ptr s) :: rest).
Proof.
  intros Hi Hn. pose proof Hi as [_ _ Hl _ Hun Hp Hnd _ _ _ _ _ _ _ _ _]. cbv zeta.
  apply list.Forall_cons in Hun as [Hx0 _].
  apply (cut_unsent s); try done; psimpl; [|by rewrite Hp; cbn; rewrite Z.eqb_refl].
  rewrite Hl in *. rewrite seg_set_split by done.
  rewrite (insert_after_split sent rest x Hnd (with_len n x)) by done.
  do 3 f_equal. unfold cut_rest. by rewrite Hx0.
Qed.

(** What one round of [attempt_send] guarantees. *)
Record round_ok s sent (M : Z) (sflags : SendFlags) s' (next : option SendFlags) sent' unsent' : Prop := {
  ro_frame : framed s s';
  ro_emits : emits (carries (snd_una s) (contents (sbuf s))) s s';
  ro_inv : snd_inv s' sent' unsent';
  ro_window : forced sflags = false -> total sent' <= Z.max (total sent) (snd_wnd s);
  ro_state : state s' = state s \/ (state s' = PSEUDO_TCP_CLOSED /\ next = None);
  ro_next : forall f, next = Some f -> forced f = forced sflags /\ f <> sfDuplicateAck /\
    (sflags = sfDuplicateAck -> measure unsent' = M) /\ (sflags <> sfDuplicateAck -> measure unsent' < M)
}.

Lemma round_stop s sent unsent M sflags s' : framed s s' ->
  emits (carries (snd_una s) (contents (sbuf s))) s s' -> snd_inv s' sent unsent -> state s' = state s ->
  round_ok s sent M sflags s' None sent unsent.
Proof. intros. constructor; try done; [lia|by left]. Qed.

(** The part of a round that transmits the first unsent segment [x], of at
    most [n] bytes unless the sending is forced. *)
Lemma round_transmit s sent x rest sflags n now M :
  snd_inv s sent (x :: rest) -> sflags <> sfDuplicateAck ->
  (forced sflags = false -> ss_len x <= n /\ total sent + n <= snd_wnd s) ->
  measure (x :: rest) <= M \/ measure (x :: rest) = M + 1 /\ 0 < ss_len x <= mss s ->
  exists s' next sent' unsent',
    ('(transmit_status, s) ← transmit s (ss_ptr x) now;
     if negb (transmit_status =? 0) then s ← closedown_remote s (u32 transmit_status); Ok (s, None)
     else Ok (s, Some (if bool_decide (sflags = sfImmediateAck) || bool_decide (sflags = sfDelayedAck) then sfNone
                       else sflags))) = Ok (s', next) /\
    round_ok s sent M sflags s' next sent' unsent'.
Proof.
  intros Hi Hnd Hn HM. assert (0 <= ss_len x).
  { destruct Hi. rewrite sv_list0 in *. by destruct (tiled_offset _ _ _ _ sv_tiled0 sv_total0) as (_ & _ & ? & _). }
  destruct (transmit_first s sent x rest now Hi) as (st & s1 & -> & Hf & Hst & Hem & Hr & Hbad & Hok).
  cbn [mbind res_bind]. destruct (Z.eqb_spec st 0) as [E0|Hne]; cbn [negb].
  - destruct (Hok E0) as (y & rest' & Hi' & Hly & Htr & Hme). do 4 eexists. split; [done|].
    constructor; [done|done|exact Hi'| |by left|].
    + intros Hfo. specialize (Hn Hfo). rewrite total_app. cbn. lia.
    + intros f [= <-]. unfold measure, forced in *. rewrite total_cons, zlen_cons in HM.
      split; [|split; [|split; [done|intros _; lia]]];
        destruct sflags; (done || (cbn; discriminate)).
  - destruct (closedown_remote_spec s1 (u32 st)) as (tr & -> & Htr). cbn [mbind res_bind].
    do 4 eexists. split; [done|]. specialize (Hbad ltac:(lia)).
    constructor; [|..|apply inv_closed; exact Hbad| | |].
    + etransitivity; [exact Hf|by constructor].
    + eapply emits_trans; [exact Hem|]. destruct Htr as [->| ->]; [by apply emits_refl|].
      exists [EvClosed (u32 st)]. split; [done|]. constructor; [done|constructor].
    + lia.
    + by right.
    + done.
Qed.

Lemma send_round_spec s sent unsent sflags now :
  snd_inv s sent unsent ->
  exists s' next sent' unsent', send_round s sflags now = Ok (s', next) /\
    round_ok s sent (measure unsent) sflags s' next sent' unsent'.
Proof.
  intros Hi. unfold send_round. pose proof (send_window_spec _ _ _ Hi) as Hw.
  destruct (send_window s) as [w n]. destruct Hw as [Hn Hwin].
  destruct (bool_decide_reflect (sflags = sfDuplicateAck)) as [->|Hdup].
  { destruct (empty_packet s sent unsent (snd_nxt s) 0 0 now Hi) as (s' & -> & Hf & Hi' & Hem & Hst). cbn [mbind res_bind].
    do 4 eexists. split; [done|]. constructor; [done|done|exact Hi'|lia|by left|].
    intros f [= <-]. split; [done|]. split; [done|]. split; [done|by intros []]. }
  destruct ((n =? 0) && negb (forced sflags)) eqn:Hz.
  { destruct (bool_decide (sflags = sfNone)).
    { do 4 eexists. split; [done|]. apply round_stop; done || by apply emits_refl. }
    case_match.
    - destruct (empty_packet s sent unsent (snd_nxt s) 0 0 now Hi) as (s' & -> & Hf & Hi' & Hem & Hst). cbn [mbind res_bind].
      do 4 eexists. split; [done|]. by apply round_stop.
    - do 4 eexists. split; [done|]. apply round_stop; [by constructor|by apply emits_refl|by apply inv_ack|done]. }
  case_match. { do 4 eexists. split; [done|]. apply round_stop; done || by apply emits_refl. }
  pose proof Hi as [_ _ Hl _ _ Hp Hnd _ Ht Htot _ _ _ _ _ _]. rewrite Hp.
  destruct unsent as [|x rest]; cbn [map].
  { do 4 eexists. split; [done|]. apply round_stop; done || by apply emits_refl. }
  rewrite Hl in Hnd, Ht, Htot. rewrite (seg_at_split _ _ _ _ Hl Hnd). cbn [mbind res_bind].
  destruct ((n <? ss_len x) && negb (forced sflags)) eqn:Hcut.
  - bool_prop. assert (Hn0 : 0 < n < ss_len x).
    { rewrite andb_false_iff in Hz. destruct Hz as [Hz|Hz]; bool_prop; [lia|congruence]. }
    pose proof (cut_available s sent x rest n Hi Hn0) as Hi1. cbv zeta in Hi1. cbn [ss_ptr].
    rewrite Hp in Hi1. cbn [map] in Hi1.
    match type of Hi1 with snd_inv ?t _ _ => set (s1 := t) in * end.
    destruct (round_transmit s1 sent _ _ sflags n now (measure (x :: rest)) Hi1 Hdup)
      as (s' & next & sent' & unsent' & Heq & Hro).
    { intros _. cbn. unfold s1. psimpl. split; [lia|]. pose proof (fins_nonneg sent). lia. }
    { right. unfold measure. rewrite !total_cons, !zlen_cons. unfold s1. psimpl. cbn. lia. }
    cbn [with_len ss_ptr] in Heq. rewrite Heq. do 4 eexists. split; [done|]. destruct Hro.
    constructor; [|exact ro_emits0|exact ro_inv0|exact ro_window0|exact ro_state0|exact ro_next0].
    etransitivity; [|exact ro_frame0]. by constructor.
  - destruct (round_transmit s sent x rest sflags n now (measure (x :: rest)) Hi Hdup)
      as (s' & next & sent' & unsent' & Heq & Hro).
    { intros Hfo. rewrite Hfo, andb_true_r in Hcut, Hz. bool_prop. pose proof (fins_nonneg sent). lia. }
    { left. done. }
    rewrite Heq. by do 4 eexists.
Qed.

Lemma send_loop_spec fuel s sent unsent sflags now :
  snd_inv s sent unsent ->
  (Z.to_nat (measure unsent) + (if bool_decide (sflags = sfDuplicateAck) then 2 else 1) <= fuel)%nat ->
  exists s' sent' unsent', send_loop fuel s sflags now = Ok s' /\ framed s s' /\
    emits (carries (snd_una s) (contents (sbuf s))) s s' /\ snd_inv s' sent' unsent' /\
    (forced sflags = false -> total sent' <= Z.max (total sent) (snd_wnd s)) /\
    (state s' = state s \/ state s' = PSEUDO_TCP_CLOSED).
Proof.
  revert s sent unsent sflags. induction fuel as [|fuel IH]; intros s sent unsent sflags Hi Hf.
  { case_bool_decide; lia. }
  cbn [send_loop]. destruct (send_round_spec s sent unsent sflags now Hi) as (s1 & next & sent1 & unsent1 & -> & []).
  cbn [mbind res_bind]. destruct next as [f|].
  2: { exists s1, sent1, unsent1. do 5 (split; [done|]). destruct ro_state0 as [?|[? _]]; auto. }
  destruct (ro_next0 f eq_refl) as (Hfo & Hnd & Hm1 & Hm2).
  assert (Hmp : 0 <= measure unsent1).
  { unfold measure. destruct (inv_total _ _ _ ro_inv0) as (?&?&?&?&?). zlen_pos. lia. }
  destruct (IH s1 sent1 unsent1 f ro_inv0) as (s' & sent' & unsent' & -> & Hfr & Hem & Hi' & Hw & Hst).
  { rewrite (bool_decide_eq_false_2 (f = sfDuplicateAck)) by done.
    destruct (bool_decide_reflect (sflags = sfDuplicateAck)) as [Hd|Hd]; [specialize (Hm1 Hd)|specialize (Hm2 Hd)]; lia. }
  rewrite (fr_una _ _ ro_frame0), (fr_sbuf _ _ ro_frame0), (fr_wnd _ _ ro_frame0) in *.
  exists s', sent', unsent'. split; [done|]. split; [etransitivity; done|]. split; [by eapply emits_trans|].
  split; [done|]. split.
  - intros Hfs. specialize (ro_window0 Hfs). rewrite <-Hfo in Hfs. specialize (Hw Hfs). lia.
  - destruct Hst as [->|]; [|by right]. destruct ro_state0 as [?|[_ ?]]; [by left|done].
Qed.

Lemma inv_ticks s sent unsent n : snd_inv s sent unsent -> snd_inv (s <| ticks := n |>) sent unsent.
Proof. intros []. by constructor. Qed.
Lemma inv_cwnd s sent unsent c : snd_inv s sent unsent -> snd_inv (s <| cwnd := c |>) sent unsent.
Proof. intros []. by constructor. Qed.

Lemma current_time_spec s : exists now n, get_current_time s = (now, s) \/ get_current_time s = (now, s <| ticks := n |>).
Proof. unfold get_current_time. case_match; [exists (current_time s), O|do 2 eexists]; [by left|by right]. Qed.

Lemma attempt_send_spec s sent unsent sflags :
  snd_inv s sent unsent ->
  exists s' sent' unsent', attempt_send s sflags = Ok s' /\ framed s s' /\
    emits (carries (snd_una s) (contents (sbuf s))) s s' /\ snd_inv s' sent' unsent' /\
    (forced sflags = false -> total sent' <= Z.max (total sent) (snd_wnd s)) /\
    (state s' = state s \/ state s' = PSEUDO_TCP_CLOSED).
Proof.
  intros Hi. unfold attempt_send.
  assert (exists now s1, get_current_time s = (now, s1) /\ framed s s1 /\ trace s1 = trace s /\ state s1 = state s /\
    snd_inv s1 sent unsent) as (now & s1 & -> & Hf1 & Ht1 & Hst1 & Hi1).
  { destruct (current_time_spec s) as (now & n & [-> | ->]); do 2 eexists; (split; [done|]); (split; [by constructor|]);
      (split; [done|]); (split; [done|]); [done|by apply inv_ticks]. }
  match goal with |- context [send_loop _ ?t] => set (s2 := t) end.
  assert (framed s1 s2 /\ trace s2 = trace s1 /\ state s2 = state s1 /\ snd_inv s2 sent unsent) as (Hf2 & Ht2 & Hst2 & Hi2).
  { unfold s2. case_match; [|done]. split; [by constructor|]. split; [done|]. split; [done|]. by apply inv_cwnd. }
  clearbody s2. destruct (send_loop_spec (send_fuel s2) s2 sent unsent sflags now Hi2)
    as (s' & sent' & unsent' & Heq & Hf & Hem & Hi' & Hw & Hst).
  { unfold send_fuel, measure. destruct (inv_total _ _ _ Hi2) as (?&?&?&?&?). rewrite (sv_ptrs _ _ _ Hi2), length_map.
    unfold zlen. case_bool_decide; lia. }
  assert (Hf12 : framed s s2) by (etransitivity; done).
  rewrite (fr_una _ _ Hf12), (fr_sbuf _ _ Hf12), (fr_wnd _ _ Hf12) in *.
  exists s', sent', unsent'. split; [done|]. split; [etransitivity; done|].
  split; [eapply emits_trans; [apply emits_refl; by rewrite Ht2, Ht1|done]|]. split; [done|]. split; [done|].
  by rewrite <-Hst1, <-Hst2.
Qed.
End sending.
