(* ===== verification/PseudoTcpStream.v ===== *)
(** * Pseudo-TCP: the outgoing byte stream

    Queueing data and taking acknowledgements against the send queue's
    invariant, and what an application's send does. *)
From S2P Require Import Prelude CMem PseudoTcpFifo PseudoTcpTypes PseudoTcp PseudoTcpProcess PseudoTcpApi PseudoTcpSend.

Section stream.
Context {E : PtcpEnv}.
Implicit Types s : PseudoTcpSocket.

(** ** Queueing *)

(** What queueing leaves alone. *)
Record queued s s' : Prop := {
  qd_una : snd_una s' = snd_una s;
  qd_nxt : snd_nxt s' = snd_nxt s;
  qd_wnd : snd_wnd s' = snd_wnd s;
  qd_scale : rwnd_scale s' = rwnd_scale s;
  qd_state : state s' = state s;
  qd_trace : trace s' = trace s;
  qd_rcv : rcv_nxt s' = rcv_nxt s;
  qd_rbuf : rbuf s' = rbuf s;
  qd_rlist : rlist s' = rlist s;
  qd_fin : support_fin_ack s' = support_fin_ack s;
  qd_mss : mss s' = mss s;
  qd_level : msslevel s' = msslevel s;
  qd_callbacks : callbacks s' = callbacks s
}.

Lemma last_split {A} (l : list A) x : list.last l = Some x -> exists k, l = k ++ [x].
Proof. intros H. apply last_Some in H as [k ->]. by exists k. Qed.

(** The last segment of the queue can only be extended if it was never sent. *)
Lemma last_unsent s sent unsent t : snd_inv s sent unsent -> list.last (slist s) = Some t -> ss_xmit t = 0 ->
  exists u, unsent = u ++ [t].
Proof.
  intros Hi Hl Ht. open_inv Hi. rewrite Ilist in Hl.
  destruct (list.last unsent) as [t'|] eqn:Hu.
  - rewrite last_app, Hu in Hl. injection Hl as ->. by apply last_split in Hu.
  - apply last_None in Hu as ->. rewrite app_nil_r in Hl. apply last_split in Hl as [k ->].
    apply Forall_app in Isent as [_ H]. inversion H; subst. lia.
Qed.

(** A new segment at the end of the queue, its bytes at the end of the buffer. *)
Definition queue_fresh (s : PseudoTcpSocket) (flags n : Z) : SSegment :=
  mkSSegment (next_ptr s) (u32 (snd_una s + pseudo_tcp_fifo_get_buffered (sbuf s))) n 0 flags.

Lemma queue_fresh_inv s sent unsent b flags n :
  snd_inv s sent unsent -> fifo_ok b -> ff_buffer_length b = ff_buffer_length (sbuf s) ->
  ff_data_length b = ff_data_length (sbuf s) + n -> 0 <= n -> fins (slist s) + 1 < 2 ^ 31 ->
  let sseg := queue_fresh s flags n in
  snd_inv (s <| slist := slist s ++ [sseg] |> <| unsent_slist := unsent_slist s ++ [ss_ptr sseg] |>
             <| next_ptr := next_ptr s + 1 |> <| sbuf := b |>) sent (unsent ++ [sseg]).
Proof.
  intros Hi Hbok Hbl Hbd Hn0 Hfin sseg. open_inv Hi. pose proof (fo_size _ Ififo). pose proof (fo_data _ Ififo).
  constructor; psimpl; try done.
  - by rewrite Hbl.
  - by rewrite Ilist, app_assoc.
  - apply Forall_app. split; [done|]. by constructor.
  - by rewrite Iptrs, map_app.
  - rewrite map_app. cbn. apply stdpp.list_relations.list.NoDup_app. split; [done|]. split.
    + intros p Hp Hin. apply list_elem_of_fmap in Hp as (z & -> & Hz). apply list_elem_of_singleton in Hin.
      apply list_elem_of_In in Hz. rewrite Forall_forall in Ifresh. specialize (Ifresh z Hz). cbn in *. lia.
    + apply NoDup_singleton.
  - apply Forall_app. split; [eapply Forall_impl; [|exact Ifresh]; intros; cbn in *; lia|]. constructor; [cbn; lia|done].
  - apply tiled_app. split; [done|]. cbn. unfold pseudo_tcp_fifo_get_buffered. rewrite Itotal.
    split; [done|]. lia.
  - rewrite total_app, Itotal, Hbd. cbn. lia.
  - rewrite fins_app, fins_one. case_match; lia.
Qed.

(** The last segment, not sent yet, grows by the new bytes. *)
Lemma queue_grow_inv s sent u t b n :
  snd_inv s sent (u ++ [t]) -> fifo_ok b -> ff_buffer_length b = ff_buffer_length (sbuf s) ->
  ff_data_length b = ff_data_length (sbuf s) + n -> 0 <= n -> fins (slist s) + 1 < 2 ^ 31 ->
  snd_inv (s <| sbuf := b |> <| slist := (sent ++ u) ++ [with_len (ss_len t + n) t] |>) sent
    (u ++ [with_len (ss_len t + n) t]).
Proof.
  intros Hi Hbok Hbl Hbd Hn0 Hfin. open_inv Hi.
  assert (Hsl : slist s = (sent ++ u) ++ [t]) by (by rewrite Ilist, app_assoc). rewrite Hsl in *.
  apply Forall_app in Iunsent as [Hu Ht0]. apply Forall_app in Ifresh as [Hf1 Hf2].
  constructor; psimpl; try done.
  - by rewrite Hbl.
  - by rewrite <-app_assoc.
  - apply Forall_app. split; [done|]. inversion Ht0; subst. by constructor.
  - by rewrite Iptrs, !map_app.
  - by eapply nodup_replace; [|exact Inodup].
  - apply Forall_app. split; [done|]. inversion Hf2; subst. by constructor.
  - rewrite tiled_app in *. cbn in *. split; [tauto|]. split; [tauto|]. split; [lia|done].
  - rewrite total_app in *. cbn in *. lia.
  - rewrite fins_app, fins_one in *. repeat case_match; lia.
Qed.

Lemma queue_spec s sent unsent data len flags :
  snd_inv s sent unsent -> bytes data -> 0 <= len <= zlen data -> len < 2 ^ 32 ->
  let room := ff_buffer_length (sbuf s) - ff_data_length (sbuf s) in
  (room < len -> flags = FLAG_NONE) -> fins (slist s) + 1 < 2 ^ 31 ->
  let n := Z.min len room in
  exists s' unsent', queue s data len flags = Ok (n, s') /\ snd_inv s' sent unsent' /\ queued s s' /\
    ff_buffer_length (sbuf s') = ff_buffer_length (sbuf s) /\
    contents (sbuf s') = contents (sbuf s) ++ take (Z.to_nat n) data.
Proof.
  intros Hi Hb Hlen H32 room Hfl Hfin n. open_inv Hi. pose proof (inv_total _ _ _ Hi) as (?&?&?&?&?).
  unfold queue. rewrite write_remaining_spec by done. fold room.
  assert (Hn : (if room <? len then _ ← assert_ok (flags =? FLAG_NONE); Ok (u32 room) else Ok len) = Ok n).
  { pose proof (fo_size _ Ififo); pose proof (fo_data _ Ififo). unfold n. destruct (Z.ltb_spec room len).
    - rewrite (Hfl ltac:(lia)). cbn [assert_ok mbind res_bind Z.eqb FLAG_NONE]. rewrite Z.min_r, u32_small by lia. done.
    - by rewrite Z.min_l by lia. }
  rewrite Hn. cbn [mbind res_bind]. clear Hn.
  destruct (write_spec (sbuf s) Ififo data n) as (b & Hw & Hbok & Hbl & Hbd & Hbc);
    [done|pose proof (fo_size _ Ififo); pose proof (fo_data _ Ififo); lia|]. fold room in Hw, Hbd, Hbc. rewrite Z.min_l in Hw, Hbd, Hbc by lia.
  assert (Hn0 : 0 <= n <= room) by (pose proof (fo_data _ Ififo); unfold n, room; lia).
  pose proof (queue_fresh_inv s sent unsent b flags n Hi Hbok Hbl Hbd (proj1 Hn0) Hfin) as Hfresh.
  set (sseg := queue_fresh s flags n) in *.
  set (fresh := s <| slist := slist s ++ [sseg] |> <| unsent_slist := unsent_slist s ++ [ss_ptr sseg] |>
                  <| next_ptr := next_ptr s + 1 |>) in *.
  assert (Hq : queued s (fresh <| sbuf := b |>)) by by constructor.
  assert (Hres : (let s := fresh in '(m, b) ← pseudo_tcp_fifo_write (sbuf s) data n; Ok (u32 m, s <| sbuf := b |>))
    = Ok (n, fresh <| sbuf := b |>)).
  { cbv zeta. unfold fresh. psimpl. rewrite Hw. cbn [mbind res_bind]. rewrite u32_small by (lia). done. }
  destruct (list.last (slist s)) as [t|] eqn:Hlast.
  - destruct ((ss_flags t =? flags) && (ss_xmit t =? 0)) eqn:Hc.
    + bool_prop. destruct (last_unsent _ _ _ _ Hi Hlast) as [u ->]; [done|].
      assert (Hsl : slist s = (sent ++ u) ++ [t]) by (by rewrite Ilist, app_assoc).
      rewrite Hsl in Inodup. cbv zeta. psimpl. rewrite Hw. cbn [mbind res_bind].
      rewrite Hsl, (seg_set_split (sent ++ u) [] t Inodup).
      destruct (tiled_offset s (sent ++ u) t []) as (Hseq & ? & ? & ?); [by rewrite <-Hsl|by rewrite <-Hsl|].
      rewrite (u32_small (ss_len t + n)), (u32_small n) by (lia).
      eexists _, (u ++ [with_len (ss_len t + n) t]). split; [done|]. split; [|split; [by constructor|done]].
      apply queue_grow_inv; try done. lia.
    + exists (fresh <| sbuf := b |>), (unsent ++ [sseg]). split; [exact Hres|done].
  - exists (fresh <| sbuf := b |>), (unsent ++ [sseg]). split; [exact Hres|done].
Qed.

(** ** Sending *)

(** On an established connection with room in the send buffer,
    [pseudo_tcp_socket_send] never fails: it accepts the longest prefix of the
    data that fits and appends it to the outgoing stream.  The packets it
    sends carry exactly the bytes of the stream at their sequence numbers,
    whatever the results of [WritePacket], and unless more was in flight
    already the bytes in flight stay within the window the peer advertised. *)
Theorem socket_send_stream s sent unsent data :
  snd_inv s sent unsent -> state s = PSEUDO_TCP_ESTABLISHED -> bytes data -> zlen data < 2 ^ 31 ->
  fins (slist s) + 1 < 2 ^ 31 -> ff_data_length (sbuf s) < ff_buffer_length (sbuf s) ->
  let n := Z.min (zlen data) (ff_buffer_length (sbuf s) - ff_data_length (sbuf s)) in
  exists s' sent' unsent', pseudo_tcp_socket_send s data (zlen data) = Ok (n, s') /\
    snd_inv s' sent' unsent' /\ snd_una s' = snd_una s /\
    contents (sbuf s') = contents (sbuf s) ++ take (Z.to_nat n) data /\
    emits (carries (snd_una s) (contents (sbuf s'))) s s' /\
    total sent' <= Z.max (total sent) (snd_wnd s).
Proof.
  intros Hi Hst Hb Hlen Hfin Hroom n. unfold pseudo_tcp_socket_send. rewrite Hst, bool_decide_eq_true_2 by done. cbn [negb].
  open_inv Hi. pose proof (inv_total _ _ _ Hi) as (?&?&?&?&?). rewrite write_remaining_spec by done.
  destruct (Z.eqb_spec (ff_buffer_length (sbuf s) - ff_data_length (sbuf s)) 0); [lia|].
  destruct (queue_spec s sent unsent data (zlen data) FLAG_NONE Hi) as (s1 & unsent1 & -> & Hi1 & Hq & _ & Hc);
    [done|zlen_pos; lia|lia|done|done|]. fold n in Hc |- *. cbn [mbind res_bind].
  assert (Hn : 0 <= n < 2 ^ 31) by (pose proof (zlen_nonneg data); lia). rewrite s32_small by lia.
  destruct (attempt_send_spec s1 sent unsent1 sfNone Hi1) as (s2 & sent2 & unsent2 & -> & Hf & Hem & Hi2 & Hw & _).
  cbn [mbind res_bind]. destruct Hq. rewrite qd_una0, qd_wnd0 in *.
  match goal with |- context [Ok (n, ?t)] => set (s3 := t) end.
  assert (Hs3x : snd_inv s3 sent2 unsent2 /\ snd_una s3 = snd_una s2 /\ sbuf s3 = sbuf s2 /\ trace s3 = trace s2).
  { unfold s3. case_match; [|done]. split; [|done]. destruct Hi2. by constructor. }
  destruct Hs3x as (Hi3 & Hu3 & Hs3 & Ht3). exists s3, sent2, unsent2. split; [done|]. split; [done|].
  split; [rewrite Hu3, (fr_una _ _ Hf); done|]. rewrite Hs3, (fr_sbuf _ _ Hf). split; [done|].
  split; [|apply Hw; done]. destruct Hem as (es & He & Hes). exists es. by rewrite Ht3, He, qd_trace0.
Qed.

(** ** Acknowledgements *)

(** Dropping the first [k] bytes of a tiled queue. *)
Lemma free_acked_spec l r k lg pos : tiled pos (l ++ r) -> fins l = 0 -> 0 <= k <= total l ->
  exists l' lg', free_acked (l ++ r) k lg = Ok (l' ++ r, lg') /\ tiled (pos + k) (l' ++ r) /\
    total l' = total l - k /\ fins l' = 0 /\
    (forall P : Z -> Prop, Forall (fun x => P (ss_xmit x)) l -> Forall (fun x => P (ss_xmit x)) l') /\
    exists d, map ss_ptr l = d ++ map ss_ptr l'.
Proof.
  revert k lg pos. induction l as [|x l IH]; intros k lg pos Ht Hf Hk.
  { cbn in Hk. assert (k = 0) as -> by lia. exists [], lg. cbn. rewrite Z.add_0_r.
    split; [by destruct r|]. do 4 (split; [done|]). by exists []. }
  rewrite total_cons in Hk. cbn [app] in *. destruct Ht as (Hs & Hl & Ht).
  assert (Hfl : fins l = 0 /\ is_fin x = false).
  { unfold fins in *. cbn in Hf. destruct (is_fin x); [|done]. zlen_norm. zlen_pos. lia. }
  destruct (Z.eq_dec k 0) as [->|Hk0].
  { exists (x :: l), lg. rewrite Z.add_0_r, total_cons. do 2 (split; [done|]). split; [lia|].
    split; [done|]. split; [done|]. by exists []. }
  cbn [free_acked]. destruct (Z.ltb_spec 0 k); [|lia]. destruct (Z.ltb_spec k (ss_len x)).
  - eexists (mkSSegment (ss_ptr x) (u32 (ss_seq x + k)) (ss_len x - k) (ss_xmit x) (ss_flags x) :: l), lg.
    split; [done|]. cbn [app tiled ss_seq ss_len]. rewrite !total_cons, Hs, u32_add_l. cbn [ss_len].
    split; [split; [done|split; [lia|]]|].
    { by replace (pos + k + (ss_len x - k)) with (pos + ss_len x) by lia. }
    split; [lia|]. split.
    { unfold fins. cbn. unfold is_fin at 1. cbn. destruct (Z.eqb_spec (ss_len x - k) 0); [lia|]. apply Hfl. }
    split; [|by exists []]. intros P HP. inversion HP; subst. by constructor.
  - destruct (IH (k - ss_len x) (if lg <? ss_len x then ss_len x else lg) (pos + ss_len x) Ht (proj1 Hfl)) as
      (l' & lg' & -> & Ht' & Htot & Hf' & HP & d & Hd); [lia|].
    exists l', lg'. split; [done|]. split; [by replace (pos + k) with (pos + ss_len x + (k - ss_len x)) by lia|].
    split; [rewrite total_cons; lia|]. split; [done|]. split.
    + intros P H'. apply HP. by inversion H'.
    + exists (ss_ptr x :: d). cbn. by rewrite Hd.
Qed.

(** An acknowledgement of [k] bytes that were sent (any FIN comes after
    them) releases exactly those bytes: the outgoing stream loses its first
    [k] bytes, the first unacknowledged sequence number advances to the
    acknowledged one, [k] bytes fewer are in flight, and the send queue still
    tiles the buffer. *)
Theorem ack_releases_bytes s d f unsent seg now k :
  snd_inv s (d ++ f) unsent -> fins d = 0 -> 0 < k <= total d -> seg_ack seg = u32 (snd_una s + k) ->
  0 <= seg_wnd seg < 65536 -> 0 <= swnd_scale s <= 14 ->
  exists s' d', take_ack s seg now = Ok (k, false, s') /\ snd_inv s' (d' ++ f) unsent /\
    snd_una s' = seg_ack seg /\ contents (sbuf s') = drop (Z.to_nat k) (contents (sbuf s)) /\
    total d' = total d - k /\ snd_nxt s' = snd_nxt s /\ snd_wnd s' = seg_wnd seg * 2 ^ swnd_scale s.
Proof.
  intros Hi Hfd Hk Hack Hw Hsc. open_inv Hi. pose proof (inv_total _ _ _ Hi) as (?&?&Htt&?&?).
  unfold take_ack, scaled_window. rewrite Z.shiftl_mul_pow2 by lia.
  assert (H14 : 1 <= 2 ^ swnd_scale s <= 2 ^ 14) by (split; [|apply Z.pow_le_mono_r; lia]; pose proof (Z.pow_pos_nonneg 2 (swnd_scale s)); lia).
  destruct (Z.ltb_spec (swnd_scale s) 32); [|lia]. destruct (Z.ltb_spec (seg_wnd seg * 2 ^ swnd_scale s) (2 ^ 31)); [|nia].
  cbn [andb mbind res_bind]. cbv zeta. psimpl.
  assert (Hf0 : 0 <= total f).
  { rewrite Ilist, tiled_app, tiled_app in Itiled. destruct Itiled as [[_ Hf'] _]. by apply tiled_total in Hf'. }
  rewrite total_app in *. assert (Hka : u32 (seg_ack seg - snd_una s) = k).
  { rewrite Hack. rewrite <-(u32_small (snd_una s)) at 2 by lia. rewrite u32_sub; lia. }
  rewrite Hka. destruct (Z.eqb_spec k (ff_data_length (sbuf s) + 1)); [lia|]. cbn [andb].
  rewrite consume_read_spec by (done || lia). cbn [mbind res_bind]. psimpl.
  destruct (advanced_spec (sbuf s) Ififo k) as (Hao & Hac & _); [lia|].
  rewrite Ilist in *. rewrite <-app_assoc in *.
  destruct (free_acked_spec d (f ++ unsent) k (largest s) (snd_una s) Itiled Hfd) as
    (d' & lg & -> & Ht & Htot & Hf' & HP & dr & Hdr); [lia|]. cbn [mbind res_bind].
  rewrite map_app, Hdr, <-app_assoc in Inodup. apply stdpp.list_relations.list.NoDup_app in Inodup as (_ & _ & Hnd).
  apply Forall_app in Isent as [Hsd Hsf]. apply Forall_app in Ifresh as [Hfrd Hfrf].
  assert (Hfr' : Forall (fun x => ss_ptr x < next_ptr s) d').
  { apply Forall_forall. intros x Hx. apply list_elem_of_In in Hx.
    assert (Hin : ss_ptr x ∈ map ss_ptr d) by (rewrite Hdr; apply elem_of_app; right; by apply list_elem_of_fmap_2).
    apply list_elem_of_fmap in Hin as (y & -> & Hy). apply list_elem_of_In in Hy.
    rewrite Forall_forall in Hfrd. by apply Hfrd. }
  match goal with |- exists s' d', Ok (k, false, ?t) = _ /\ _ => set (s1 := t) end.
  assert (F : sbuf s1 = advanced (sbuf s) k /\ slist s1 = d' ++ f ++ unsent /\ unsent_slist s1 = unsent_slist s /\
    next_ptr s1 = next_ptr s /\ snd_una s1 = seg_ack seg /\ snd_nxt s1 = snd_nxt s /\ mss s1 = mss s /\
    msslevel s1 = msslevel s /\ rwnd_scale s1 = rwnd_scale s /\ snd_wnd s1 = seg_wnd seg * 2 ^ swnd_scale s).
  { unfold s1. psimpl. split_and!; reflexivity. }
  clearbody s1. destruct F as (Fb & Fl & Fu & Fp & Fa & Fn & Fm & Fv & Fs & Fw).
  exists s1, d'. split; [done|]. split; [|rewrite Fb; done].
  constructor; rewrite ?Fb, ?Fl, ?Fu, ?Fp, ?Fa, ?Fn, ?Fm, ?Fv, ?Fs.
  - exact Hao.
  - exact Icap.
  - by rewrite <-app_assoc.
  - apply Forall_app. split; [by apply (HP (fun n => 0 < n <= 30))|done].
  - exact Iunsent.
  - exact Iptrs.
  - by rewrite map_app.
  - by apply Forall_app.
  - eapply tiled_congr; [|exact Ht]. by rewrite Hack, u32_idem.
  - rewrite !total_app in *. cbn. lia.
  - rewrite fins_app in *. lia.
  - rewrite Hack. apply u32_range.
  - rewrite Inxt, Hack, !total_app, !fins_app. apply u32_congr.
    destruct (u32_diff (snd_una s + k) 0) as [j Hj]. change (u32 0) with 0 in Hj. exists (- j). lia.
  - exact Imss.
  - exact Ilevel.
  - exact Iscale.
Qed.
End stream.

(** ** Examples *)

Definition ex_env : PtcpEnv :=
  {| ptcp_alloc := zero_alloc; WritePacket := fun _ _ => WR_SUCCESS;
     g_get_monotonic_time := fun n => 1000000 + Z.of_nat n |}.

Definition ex_callbacks : PseudoTcpCallbacks := mkCallbacks true true true true.

Definition ex_socket : PseudoTcpSocket :=
  (pseudo_tcp_socket_new (E := ex_env) 7 ex_callbacks) <| state := PSEUDO_TCP_ESTABLISHED |> <| snd_wnd := 1000 |>.

Lemma new_socket_inv {E : PtcpEnv} c cb : snd_inv (pseudo_tcp_socket_new c cb) [] [].
Proof.
  constructor; unfold pseudo_tcp_socket_new, pseudo_tcp_socket_init;
    cbn [sbuf slist unsent_slist next_ptr snd_una snd_nxt mss msslevel rwnd_scale app map];
    try done; try (vm_compute; split; congruence).
  - apply init_fifo_spec. vm_compute. done.
  - constructor.
Qed.

Lemma ex_socket_inv : snd_inv ex_socket [] [].
Proof. destruct (new_socket_inv (E := ex_env) 7 ex_callbacks). by constructor. Qed.

Lemma socket_send_stream_witness :
  exists s' sent' unsent', pseudo_tcp_socket_send (E := ex_env) ex_socket [1; 2; 3] 3 = Ok (3, s') /\
    snd_inv s' sent' unsent' /\ snd_una s' = 0 /\ contents (sbuf s') = [1; 2; 3] /\
    emits (carries 0 (contents (sbuf s'))) ex_socket s' /\ total sent' <= 1000.
Proof.
  apply (socket_send_stream (E := ex_env) ex_socket [] [] [1; 2; 3]); try reflexivity.
  - apply ex_socket_inv.
  - repeat (constructor; [split; (discriminate || reflexivity)|]). constructor.
Defined.

Definition ex_sending : PseudoTcpSocket :=
  ex_socket <| sbuf := mkFifo [5; 6; 7; 8] 4 3 1 |> <| slist := [mkSSegment 1 9 3 1 0] |>
    <| snd_una := 9 |> <| snd_nxt := 12 |> <| next_ptr := 2 |>.

Lemma ex_sending_inv : snd_inv ex_sending [mkSSegment 1 9 3 1 0] [].
Proof.
  constructor; unfold ex_sending; psimpl; try done; try (cbn; lia); try (vm_compute; split; congruence).
  - constructor; cbn; try done; try lia. repeat constructor; (discriminate || reflexivity).
  - repeat constructor; cbn; lia.
  - apply NoDup_singleton.
  - repeat constructor.
Qed.

Definition ex_ack : Segment := mkSegment 7 0 11 0 100 [] 0 0 0.

Lemma ack_releases_bytes_witness :
  exists s' d', take_ack ex_sending ex_ack 5 = Ok (2, false, s') /\
    snd_inv s' (d' ++ []) [] /\ snd_una s' = seg_ack ex_ack /\
    contents (sbuf s') = drop (Z.to_nat 2) (contents (sbuf ex_sending)) /\
    total d' = total [mkSSegment 1 9 3 1 0] - 2 /\ snd_nxt s' = snd_nxt ex_sending /\
    snd_wnd s' = seg_wnd ex_ack * 2 ^ swnd_scale ex_sending.
Proof.
  apply (ack_releases_bytes ex_sending [mkSSegment 1 9 3 1 0] [] [] ex_ack 5 2).
  - apply ex_sending_inv.
  - reflexivity.
  - split; [reflexivity|discriminate].
  - reflexivity.
  - split; [discriminate|reflexivity].
  - split; discriminate.
Defined.
