(* ===== verification/PseudoTcpRecv.v ===== *)
(** * Pseudo-TCP: the incoming byte stream

    The receive buffer against the stream the peer sends.  A stream is a
    function from positions (unbounded integers) to bytes; the sequence
    number of a position is its residue modulo 2^32.  The buffer holds the
    stream before [pos], the position of [rcv_nxt], and the out-of-order
    ranges the socket keeps in [rlist]. *)
From Stdlib Require Import Sorting.Sorted.
From S2P Require Import Prelude CMem PseudoTcpFifo PseudoTcpTypes PseudoTcp PseudoTcpProcess PseudoTcpApi PseudoTcpSend PseudoTcpStream.

(** ** Streams *)

Definition stream_at (f : Z -> Z) (p n : Z) : list Z := map (fun i => f (p + Z.of_nat i)) (seq 0 (Z.to_nat n)).

Lemma zlen_stream_at f p n : 0 <= n -> zlen (stream_at f p n) = n.
Proof. intros. unfold stream_at, zlen. rewrite length_map, length_seq. lia. Qed.

Lemma stream_at_lookup f p n i : 0 <= i < n -> stream_at f p n !! Z.to_nat i = Some (f (p + i)).
Proof.
  intros. unfold stream_at. rewrite list_lookup_fmap, lookup_seq_lt by lia. cbn. do 2 f_equal. lia.
Qed.

Lemma stream_at_app f p a b : 0 <= a -> 0 <= b -> stream_at f p (a + b) = stream_at f p a ++ stream_at f (p + a) b.
Proof.
  intros. unfold stream_at. rewrite Z2Nat.inj_add, seq_app, map_app by lia. f_equal.
  replace (0 + Z.to_nat a)%nat with (Z.to_nat a + 0)%nat by lia. rewrite <-fmap_add_seq.
  change (@fmap list list_fmap nat nat) with (@map nat nat). rewrite map_map.
  apply map_ext. intros i. f_equal. lia.
Qed.

(** Two lists with the same entries on a range. *)
Lemma slice_stream (l : list Z) off n f p : 0 <= off -> 0 <= n ->
  (forall i, 0 <= i < n -> l !! Z.to_nat (off + i) = Some (f (p + i))) -> slice l off n = stream_at f p n.
Proof.
  intros Ho Hn Hl. apply list_eq. intros i. destruct (decide (Z.of_nat i < n)).
  - rewrite <-(Nat2Z.id i), stream_at_lookup by lia. unfold slice. rewrite lookup_take_lt by lia. rewrite lookup_drop.
    rewrite <-Hl by lia. f_equal. lia.
  - rewrite !lookup_ge_None_2; [done| |].
    + unfold stream_at. rewrite length_map, length_seq. lia.
    + unfold slice. rewrite length_take. lia.
Qed.

Lemma lookup_splice (b bs : list Z) off i : 0 <= off -> off + zlen bs <= zlen b -> 0 <= i ->
  splice b off bs !! Z.to_nat i =
  if (off <=? i) && (i <? off + zlen bs) then bs !! Z.to_nat (i - off) else b !! Z.to_nat i.
Proof.
  intros Ho Hl Hi. unfold splice, zlen in *. destruct (Z.leb_spec off i); cbn [andb].
  - rewrite lookup_app_r by (rewrite length_take; lia). rewrite length_take.
    replace (Z.to_nat i - Z.to_nat off `min` length b)%nat with (Z.to_nat (i - off)) by lia.
    destruct (Z.ltb_spec i (off + Z.of_nat (length bs))).
    + by rewrite lookup_app_l by lia.
    + rewrite lookup_app_r by lia. rewrite lookup_drop. f_equal. lia.
  - rewrite lookup_app_l by (rewrite length_take; lia). by rewrite lookup_take_lt by lia.
Qed.

(** ** The invariant *)

Definition rseg (x : Z * Z) : RSegment := mkRSegment (u32 (fst x)) (snd x).

(** The buffer's byte for position [p], where position [base] is the oldest. *)
Definition holds (b : PseudoTcpFifo) (f : Z -> Z) (base p : Z) : Prop := ring b !! Z.to_nat (p - base) = Some (f p).

(** The buffer up to [pos], without the out-of-order ranges. *)
Record rcv_core (s : PseudoTcpSocket) (f : Z -> Z) (pos : Z) : Prop := {
  rc_fifo : fifo_ok (rbuf s);
  rc_cap : ff_buffer_length (rbuf s) <= 2 ^ 30;
  rc_nxt : rcv_nxt s = u32 pos;
  rc_held : forall p, pos - ff_data_length (rbuf s) <= p < pos -> holds (rbuf s) f (pos - ff_data_length (rbuf s)) p
}.

(** A range received out of order: in the window, its bytes in the buffer. *)
Record range_ok (s : PseudoTcpSocket) (f : Z -> Z) (base low : Z) (x : Z * Z) : Prop := {
  rg_low : low < fst x;
  rg_len : 0 <= snd x;
  rg_high : fst x + snd x <= base + ff_buffer_length (rbuf s);
  rg_held : forall p, fst x <= p < fst x + snd x -> holds (rbuf s) f base p
}.

Definition by_position (x y : Z * Z) : Prop := fst x <= fst y.

Record rcv_inv (s : PseudoTcpSocket) (f : Z -> Z) (pos : Z) (rl : list (Z * Z)) : Prop := {
  rv_core : rcv_core s f pos;
  rv_list : rlist s = map rseg rl;
  rv_sorted : StronglySorted by_position rl;
  rv_ranges : Forall (range_ok s f (pos - ff_data_length (rbuf s)) pos) rl
}.

(** What may be read is the stream before [pos]. *)
Lemma contents_stream s f pos : rcv_core s f pos ->
  contents (rbuf s) = stream_at f (pos - ff_data_length (rbuf s)) (ff_data_length (rbuf s)).
Proof.
  intros [Hf _ _ Hh]. pose proof (fo_data _ Hf).
  change (contents (rbuf s)) with (slice (ring (rbuf s)) 0 (ff_data_length (rbuf s))).
  apply slice_stream; [lia|lia|]. intros i Hi. rewrite <-(Hh (pos - ff_data_length (rbuf s) + i)) by lia.
  f_equal. lia.
Qed.

(** ** Joining out-of-order data *)

Lemma holds_extended b f base p n : holds b f base p -> holds (extended b n) f base p.
Proof. done. Qed.

(** The next [n] bytes of the stream, already in the buffer, become readable. *)
Lemma commit_core s s' f pos n :
  rcv_core s f pos -> 0 <= n -> pos + n <= pos - ff_data_length (rbuf s) + ff_buffer_length (rbuf s) ->
  (forall p, pos <= p < pos + n -> holds (rbuf s) f (pos - ff_data_length (rbuf s)) p) ->
  rbuf s' = extended (rbuf s) n -> rcv_nxt s' = u32 (rcv_nxt s + n) -> rcv_core s' f (pos + n).
Proof.
  intros [Hf Hc Hn Hh] Hn0 Hfit Hnew Hb Hx. destruct (extended_spec (rbuf s) Hf n) as (Hfo & _ & _); [lia|].
  constructor; rewrite ?Hb; [done|done|rewrite Hx, Hn; apply u32_add_l|].
  cbn [extended ff_data_length]. intros p Hp. replace (pos + n - (ff_data_length (rbuf s) + n)) with
    (pos - ff_data_length (rbuf s)) in * by lia.
  destruct (decide (p < pos)); [apply Hh; lia|apply Hnew; lia].
Qed.

Lemma range_ext s s' f base low low' x : ff_buffer_length (rbuf s') = ff_buffer_length (rbuf s) ->
  ring (rbuf s') = ring (rbuf s) -> low' < fst x -> range_ok s f base low x -> range_ok s' f base low' x.
Proof. intros Hl Hr Hlow []. constructor; [done|done|by rewrite Hl|]. unfold holds. by rewrite Hr. Qed.

Lemma recover_loop_spec rl : forall s f pos sflags,
  rcv_core s f pos -> StronglySorted by_position rl ->
  Forall (range_ok s f (pos - ff_data_length (rbuf s)) (pos - ff_data_length (rbuf s) - 1)) rl ->
  exists sf' s' pos' rl', recover_loop s (map rseg rl) sflags = Ok (sf', s') /\ rcv_inv s' f pos' rl' /\ pos <= pos' /\
    pos' - ff_data_length (rbuf s') = pos - ff_data_length (rbuf s) /\
    ff_buffer_length (rbuf s') = ff_buffer_length (rbuf s) /\ ring (rbuf s') = ring (rbuf s).
Proof.
  induction rl as [|[q l] rl IH]; intros s f pos sflags Hc Hs Hr.
  { do 2 eexists. exists pos, []. split; [done|]. psimpl. split; [|done].
    constructor; [destruct Hc; by constructor|done|done|done]. }
  apply StronglySorted_inv in Hs as [Hs Hq]. inversion Hr as [|? ? Hx Hr']; subst.
  pose proof (rc_fifo _ _ _ Hc) as Hf. pose proof (fo_data _ Hf). pose proof (fo_size _ Hf). pose proof (rc_cap _ _ _ Hc).
  destruct Hx as [Hlow Hlen Hhigh Hheld]. cbn [fst snd] in *.
  cbn [map recover_loop rseg rs_seq rs_len fst snd]. rewrite (rc_nxt _ _ _ Hc).
  unfold SMALLER_OR_EQUAL. destruct (larger_spec pos q) as [_ ->]; [lia|].
  destruct (Z.leb_spec q pos).
  - rewrite u32_add_l. destruct (larger_spec (q + l) pos) as [-> _]; [lia|].
    destruct (Z.ltb_spec pos (q + l)).
    + rewrite u32_sub by lia. rewrite consume_write_spec by (done || lia). cbn [mbind res_bind].
      match goal with |- context [recover_loop ?t _ _] => set (s1 := t) end.
      assert (Hc1 : rcv_core s1 f (q + l)).
      { replace (q + l) with (pos + (q + l - pos)) by lia. eapply commit_core; [exact Hc|lia|lia| | |].
        - intros p Hp. apply Hheld. lia.
        - unfold s1. by psimpl.
        - unfold s1. psimpl. by rewrite (rc_nxt _ _ _ Hc). }
      assert (Hb1 : rbuf s1 = extended (rbuf s) (q + l - pos)) by (unfold s1; by psimpl). clearbody s1.
      assert (Hbase : q + l - ff_data_length (rbuf s1) = pos - ff_data_length (rbuf s)) by (rewrite Hb1; cbn; lia).
      destruct (IH s1 f (q + l) sfImmediateAck Hc1 Hs) as (sf' & s' & pos' & rl' & -> & Hi & Hp & Hba & Hbl & Hri).
      { rewrite Hbase. apply Forall_forall. intros x Hin.
        eapply Forall_forall in Hr'; [|exact Hin]. pose proof (rg_low _ _ _ _ _ Hr').
        by eapply (range_ext s); [by rewrite Hb1|by rewrite Hb1| |exact Hr']. }
      do 4 eexists. split; [done|]. split; [exact Hi|]. rewrite Hba, Hbl, Hri, Hbase, Hb1. split; [lia|done].
    + cbn [mbind res_bind]. by apply IH.
  - do 2 eexists. exists pos, ((q, l) :: rl). split; [done|]. psimpl. split; [|done].
    constructor; [destruct Hc; by constructor|done|by constructor|]. psimpl.
    apply Forall_forall. intros x Hin.
    assert (pos < fst x).
    { destruct Hin as [<-|Hin]; [done|]. eapply Forall_forall in Hq; [|exact Hin]. unfold by_position in Hq. cbn in Hq. lia. }
    eapply (range_ext s); [done|done|done|]. by eapply Forall_forall in Hr.
Qed.

(** ** Segments *)

(** The payload of the segment is the stream from position [q] on. *)
Record seg_carries (seg : Segment) (f : Z -> Z) (q : Z) : Prop := {
  sc_seq : seg_seq seg = u32 q;
  sc_len : 0 <= seg_len seg <= zlen (seg_data seg);
  sc_bytes : bytes (seg_data seg);
  sc_data : take (Z.to_nat (seg_len seg)) (seg_data seg) = stream_at f q (seg_len seg)
}.

(** The part of the range [q, q + n) in [lo, hi). *)
Definition clip (lo hi q n : Z) : Z := Z.max 0 (Z.min (q + n) hi - Z.max q lo).

Lemma carries_drop seg f q k : seg_carries seg f q -> 0 <= k <= seg_len seg ->
  seg_carries (with_data seg (u32 (seg_seq seg + k)) (drop (Z.to_nat k) (seg_data seg)) (seg_len seg - k)) f (q + k).
Proof.
  intros [Hs Hl Hb Hd] Hk. constructor; cbn.
  - by rewrite Hs, u32_add_l.
  - rewrite zlen_drop; lia.
  - by apply Forall_drop.
  - replace (seg_len seg) with (k + (seg_len seg - k)) in Hd by lia.
    rewrite stream_at_app in Hd by lia. rewrite Z2Nat.inj_add, <-take_take_drop in Hd by lia.
    apply app_inj_1 in Hd as [_ Hd]; [done|]. unfold stream_at.
    rewrite length_take, length_map, length_seq. unfold zlen in Hl. lia.
Qed.

Lemma carries_take seg f q n : seg_carries seg f q -> 0 <= n <= seg_len seg ->
  seg_carries (with_data seg (seg_seq seg) (seg_data seg) n) f q.
Proof.
  intros [Hs Hl Hb Hd] Hk. constructor; cbn; [done|lia|done|].
  replace (seg_len seg) with (n + (seg_len seg - n)) in Hd by lia.
  rewrite stream_at_app in Hd by lia. rewrite Z2Nat.inj_add, <-take_take_drop in Hd by lia.
  apply app_inj_1 in Hd as [Hd _]; [done|]. unfold stream_at.
  rewrite length_take, length_map, length_seq. unfold zlen in Hl. lia.
Qed.

Lemma adjust_segment_spec s f pos seg q :
  rcv_core s f pos -> seg_carries seg f q -> -2 ^ 30 < q - pos < 2 ^ 30 -> seg_len seg < 2 ^ 16 ->
  let top := pos - ff_data_length (rbuf s) + ff_buffer_length (rbuf s) in
  exists q', seg_carries (adjust_segment s seg) f q' /\ seg_flags (adjust_segment s seg) = seg_flags seg /\
    seg_len (adjust_segment s seg) = clip pos top q (seg_len seg) /\
    (0 < seg_len (adjust_segment s seg) -> q' = Z.max q pos).
Proof.
  intros Hc Hs Hq Hlen top. pose proof (rc_fifo _ _ _ Hc) as Hf. pose proof (fo_data _ Hf). pose proof (fo_size _ Hf).
  pose proof (rc_cap _ _ _ Hc). pose proof (sc_len _ _ _ Hs). unfold adjust_segment. rewrite write_remaining_spec by done.
  rewrite (rc_nxt _ _ _ Hc). unfold SMALLER. pose proof (sc_seq _ _ _ Hs) as Hseq. rewrite Hseq.
  destruct (larger_spec pos q) as [-> _]; [lia|].
  (** the first cut leaves the stream from [q1] on *)
  set (seg1 := if q <? pos then _ else seg).
  assert (exists q1, seg_carries seg1 f q1 /\ seg_flags seg1 = seg_flags seg /\
    (seg_len seg1 = 0 /\ q1 = q /\ q + seg_len seg <= pos \/ seg_len seg1 = Z.max 0 (q + seg_len seg - q1) /\ q1 = Z.max q pos /\ (q < pos -> 0 < seg_len seg1)))
    as (q1 & Hs1 & Hfl1 & Hcase).
  { unfold seg1. destruct (Z.ltb_spec q pos) as [Hlt|Hge].
    - rewrite u32_sub by lia. destruct (Z.ltb_spec (pos - q) (seg_len seg)).
      + exists pos. rewrite <-Hseq. pose proof (carries_drop seg f q (pos - q) Hs ltac:(lia)) as Hd.
        replace (q + (pos - q)) with pos in Hd by lia. split; [exact Hd|]. split; [done|]. right. cbn. lia.
      + exists q. rewrite <-Hseq. split; [apply carries_take; [done|lia]|]. split; [done|]. left. cbn. lia.
    - exists q. split; [done|]. split; [done|]. right. lia. }
  clearbody seg1. pose proof (sc_len _ _ _ Hs1). rewrite (sc_seq _ _ _ Hs1) in *.
  assert (Hreach : u32 (u32 q1 + seg_len seg1 - u32 pos) = u32 (q1 + seg_len seg1 - pos)).
  { unfold u32. rewrite Zminus_mod_idemp_r, <-Z.add_sub_assoc, Zplus_mod_idemp_l. f_equal. lia. }
  rewrite Hreach. set (av := ff_buffer_length (rbuf s) - ff_data_length (rbuf s)) in *. unfold clip, top.
  destruct Hcase as [(Hl0 & -> & Hle)|(Hl1 & -> & Hp1)].
  - rewrite Hl0 in *. exists q. destruct (av <? u32 (q + 0 - pos)).
    + destruct (Z.ltb_spec (u32 (u32 (q + 0 - pos) - av)) 0); [pose proof (u32_range (u32 (q + 0 - pos) - av)); lia|].
      rewrite <-(sc_seq _ _ _ Hs1). split; [apply carries_take; [done|lia]|]. split; [done|]. cbn. lia.
    + split; [done|]. split; [done|]. rewrite Hl0. lia.
  - rewrite (u32_small (Z.max q pos + seg_len seg1 - pos)) by lia. exists (Z.max q pos).
    destruct (Z.ltb_spec av (Z.max q pos + seg_len seg1 - pos)).
    + rewrite u32_small by lia. destruct (Z.ltb_spec (Z.max q pos + seg_len seg1 - pos - av) (seg_len seg1));
        (rewrite <-(sc_seq _ _ _ Hs1); split; [apply carries_take; [done|lia]|]; split; [done|]; cbn; lia).
    + split; [done|]. split; [done|]. lia.
Qed.

(** Storing the stream's own bytes keeps every byte the buffer holds. *)
Lemma holds_write b b' f base q n p :
  zlen (ring b) = ff_buffer_length b -> ring b' = splice (ring b) (q - base) (stream_at f q n) ->
  0 <= n -> base <= q -> q + n <= base + ff_buffer_length b -> base <= p ->
  holds b f base p \/ q <= p < q + n -> holds b' f base p.
Proof.
  intros Hz Hr Hn Hq Htop Hp Hh. unfold holds in *. rewrite Hr, lookup_splice by (rewrite ?zlen_stream_at; lia).
  rewrite zlen_stream_at by lia. destruct ((q - base <=? p - base) && (p - base <? q - base + n)) eqn:Hb.
  - bool_prop. replace (p - base - (q - base)) with (p - q) by lia. rewrite stream_at_lookup by lia. do 2 f_equal. lia.
  - rewrite andb_false_iff in Hb. destruct Hh as [Hh|Hh]; [done|]. destruct Hb; bool_prop; lia.
Qed.

Lemma insert_rseg_spec x rl : StronglySorted by_position rl ->
  Forall (fun y => -2 ^ 30 < fst x - fst y < 2 ^ 30) rl ->
  exists rl', insert_rseg (rseg x) (map rseg rl) = map rseg rl' /\ StronglySorted by_position rl' /\
    forall P : Z * Z -> Prop, P x -> Forall P rl -> Forall P rl'.
Proof.
  intros Hs Hd. induction rl as [|y rl IH]; cbn.
  { exists [x]. split; [done|]. split; [constructor; constructor|]. intros. by constructor. }
  apply StronglySorted_inv in Hs as [Hs Hy]. inversion Hd as [|? ? Hd1 Hd2]; subst. unfold SMALLER.
  destruct (larger_spec (fst x) (fst y)) as [-> _]; [lia|]. destruct (Z.ltb_spec (fst y) (fst x)).
  - destruct (IH Hs Hd2) as (rl' & -> & Hs' & HP). exists (y :: rl'). split; [done|]. split.
    + constructor; [done|]. apply HP; [unfold by_position; lia|done].
    + intros P Px Pr. inversion Pr; subst. constructor; [done|by apply HP].
  - exists (x :: y :: rl). split; [done|]. split; [|by intros; constructor].
    constructor; [by constructor|]. constructor; [by unfold by_position; lia|].
    eapply Forall_impl; [|exact Hy]. unfold by_position. intros; lia.
Qed.

(** Storing a segment's bytes at their place in the buffer. *)
Lemma store_segment s f pos rl seg q :
  rcv_inv s f pos rl -> seg_carries seg f q -> pos <= q ->
  q + seg_len seg <= pos - ff_data_length (rbuf s) + ff_buffer_length (rbuf s) ->
  exists b, pseudo_tcp_fifo_write_offset (rbuf s) (seg_data seg) (seg_len seg) (q - pos) = Ok (seg_len seg, b) /\
    rcv_inv (s <| rbuf := b |>) f pos rl /\ ff_data_length b = ff_data_length (rbuf s) /\
    ff_buffer_length b = ff_buffer_length (rbuf s) /\
    range_ok (s <| rbuf := b |>) f (pos - ff_data_length (rbuf s)) (pos - ff_data_length (rbuf s) - 1) (q, seg_len seg).
Proof.
  intros [Hc Hl Hs Hr] Hseg Hq Htop. pose proof (rc_fifo _ _ _ Hc) as Hf. pose proof (fo_data _ Hf).
  pose proof (sc_len _ _ _ Hseg). pose proof (zlen_ring _ Hf) as Hz.
  destruct (write_offset_spec (rbuf s) Hf (seg_data seg) (seg_len seg) (q - pos)) as (b & Hw & Hb & Hbl & Hbd & Hri);
    [apply Hseg|lia|lia|lia|]. rewrite Z.min_l in Hw, Hri by lia. rewrite (sc_data _ _ _ Hseg) in Hri.
  set (base := pos - ff_data_length (rbuf s)) in *.
  replace (ff_data_length (rbuf s) + (q - pos)) with (q - base) in Hri by lia.
  assert (Hh : forall p, base <= p -> holds (rbuf s) f base p \/ q <= p < q + seg_len seg -> holds b f base p).
  { intros p Hp. apply (holds_write (rbuf s) b f base q (seg_len seg) p Hz Hri); lia. }
  exists b. split; [done|]. split; [|split; [done|split; [done|]]].
  - constructor; psimpl; [|done|done|].
    + destruct Hc as [_ Hcap Hn Hh0]. constructor; psimpl; rewrite ?Hbl, ?Hbd; try done.
      fold base. intros p Hp. apply Hh; [lia|]. left. by apply Hh0.
    + rewrite Hbd. fold base. eapply Forall_impl; [|exact Hr]. intros x []. constructor; psimpl; rewrite ?Hbl; try done.
      intros p Hp. apply Hh; [lia|]. left. by apply rg_held0.
  - constructor; psimpl; cbn [fst snd]; [lia|lia|rewrite Hbl; lia|]. intros p Hp. apply Hh; [lia|by right].
Qed.

(** Positions less than 2^32 apart are told apart by their sequence numbers. *)
Lemma u32_eqb_near a b : -2 ^ 32 < a - b < 2 ^ 32 -> (u32 a =? u32 b) = (a =? b).
Proof.
  intros H. destruct (Z.eqb_spec a b) as [->|Hne]; [apply Z.eqb_refl|]. apply Z.eqb_neq. intros Hu.
  destruct (u32_diff a b) as [k Hk]. rewrite Hu in Hk. lia.
Qed.

(** What is readable grows by the stream's next bytes when [pos] moves and
    the oldest position of the buffer does not. *)
Lemma contents_continue s s' f pos pos' :
  rcv_core s f pos -> rcv_core s' f pos' -> pos <= pos' ->
  pos' - ff_data_length (rbuf s') = pos - ff_data_length (rbuf s) ->
  contents (rbuf s') = contents (rbuf s) ++ stream_at f pos (pos' - pos).
Proof.
  intros Hc Hc' Hp Hb. pose proof (fo_data _ (rc_fifo _ _ _ Hc)).
  rewrite (contents_stream _ _ _ Hc), (contents_stream _ _ _ Hc'), Hb.
  replace (ff_data_length (rbuf s')) with (ff_data_length (rbuf s) + (pos' - pos)) by lia.
  rewrite stream_at_app by lia. do 2 f_equal. lia.
Qed.

(** A stored segment at the expected position: it becomes readable, and so
    does what it joins up with. *)
Lemma commit_in_order s s2 f pos rl n sflags :
  rcv_inv s f pos rl ->
  range_ok s f (pos - ff_data_length (rbuf s)) (pos - ff_data_length (rbuf s) - 1) (pos, n) ->
  rbuf s2 = extended (rbuf s) n -> rcv_nxt s2 = u32 (rcv_nxt s + n) ->
  exists sf' s' pos' rl', recover_loop s2 (map rseg rl) sflags = Ok (sf', s') /\ rcv_inv s' f pos' rl' /\
    pos + n <= pos' /\ pos' - ff_data_length (rbuf s') = pos - ff_data_length (rbuf s).
Proof.
  intros Hi [Hlow Hlen Hhigh Hheld] Hb Hx. cbn [fst snd] in *.
  assert (Hc2 : rcv_core s2 f (pos + n)) by (by eapply (commit_core s); [apply Hi|lia|lia| | |]).
  assert (Hbase : pos + n - ff_data_length (rbuf s2) = pos - ff_data_length (rbuf s)) by (rewrite Hb; cbn; lia).
  destruct (recover_loop_spec rl s2 f (pos + n) sflags Hc2 (rv_sorted _ _ _ _ Hi))
    as (sf' & s' & pos' & rl' & -> & Hi' & Hp' & Hb' & _).
  { rewrite Hbase. eapply Forall_impl; [|exact (rv_ranges _ _ _ _ Hi)]. intros x Hx'.
    pose proof (rg_low _ _ _ _ _ Hx'). eapply (range_ext s); [by rewrite Hb|by rewrite Hb|lia|exact Hx']. }
  do 4 eexists. split; [done|]. split; [exact Hi'|]. lia.
Qed.

(** A stored segment after the expected position is remembered in order. *)
Lemma keep_out_of_order s f pos rl q n :
  rcv_inv s f pos rl -> pos < q < pos + 2 ^ 30 ->
  range_ok s f (pos - ff_data_length (rbuf s)) (pos - ff_data_length (rbuf s) - 1) (q, n) ->
  exists rl', rcv_inv (s <| rlist := insert_rseg (mkRSegment (u32 q) n) (rlist s) |>) f pos rl'.
Proof.
  intros Hi Hq Hrg. pose proof (rc_fifo _ _ _ (rv_core _ _ _ _ Hi)) as Hf. pose proof (fo_data _ Hf).
  pose proof (rc_cap _ _ _ (rv_core _ _ _ _ Hi)).
  destruct (insert_rseg_spec (q, n) rl (rv_sorted _ _ _ _ Hi)) as (rl' & Hins & Hso & HP).
  { eapply Forall_impl; [|exact (rv_ranges _ _ _ _ Hi)]. intros x []. cbn. lia. }
  assert (Hri : Forall (range_ok s f (pos - ff_data_length (rbuf s)) pos) rl').
  { apply HP; [|apply Hi]. destruct Hrg. constructor; try done. cbn. lia. }
  exists rl'. constructor; psimpl.
  - destruct (rv_core _ _ _ _ Hi). by constructor.
  - rewrite (rv_list _ _ _ _ Hi). by rewrite <-Hins.
  - done.
  - eapply Forall_impl; [|exact Hri]. intros x []. by constructor.
Qed.

(** C13: reassembly.  A data segment whose payload is the peer's stream at
    its sequence number, early, late, overlapping or out of order (within
    2^30 of the expected position), is always stored without an error, and
    what becomes readable is exactly the continuation of the stream: nothing
    is lost, repeated or reordered.  If the segment does not start after the
    expected position, all of it that is new and fits the buffer becomes
    readable, together with any data that arrived out of order before it. *)
Theorem segment_reassembly s f pos rl seg q sflags :
  rcv_inv s f pos rl -> seg_carries seg f q -> -2 ^ 30 < q - pos < 2 ^ 30 -> seg_len seg < 2 ^ 16 ->
  flag (seg_flags seg) FLAG_CTL = false -> support_fin_ack s = true \/ shutdown s = SD_NONE ->
  exists sf' new s' pos' rl',
    accept_data s (adjust_segment s seg) sflags = Ok (sf', new, s') /\ rcv_inv s' f pos' rl' /\ pos <= pos' /\
    contents (rbuf s') = contents (rbuf s) ++ stream_at f pos (pos' - pos) /\
    (q <= pos -> pos + clip pos (pos - ff_data_length (rbuf s) + ff_buffer_length (rbuf s)) q (seg_len seg) <= pos').
Proof.
  intros Hi Hseg Hq Hlen Hctl Hsup. pose proof (rv_core _ _ _ _ Hi) as Hc. pose proof (rc_fifo _ _ _ Hc) as Hf.
  pose proof (fo_data _ Hf). pose proof (rc_cap _ _ _ Hc). pose proof (fo_size _ Hf).
  destruct (adjust_segment_spec s f pos seg q Hc Hseg Hq Hlen) as (q' & Hs' & Hfl & Hlen' & Hq').
  set (sg := adjust_segment s seg) in *. clearbody sg. pose proof (sc_len _ _ _ Hs').
  set (top := pos - ff_data_length (rbuf s) + ff_buffer_length (rbuf s)) in *.
  unfold accept_data. rewrite Hfl, Hctl. cbn [orb].
  assert (negb (support_fin_ack s) && negb (bool_decide (shutdown s = SD_NONE)) = false) as ->.
  { destruct Hsup as [-> | ->]; [done|]. by rewrite bool_decide_eq_true_2, andb_false_r. }
  destruct (Z.ltb_spec 0 (seg_len sg)) as [Hpos|Hz].
  2: { do 3 eexists. exists pos, rl. split; [done|]. split; [done|]. split; [lia|]. rewrite Z.sub_diag. cbn.
       rewrite app_nil_r. split; [done|]. intros. lia. }
  specialize (Hq' Hpos). assert (Hfit : q' + seg_len sg <= top) by (rewrite Hlen' in *; unfold clip in *; lia).
  rewrite (sc_seq _ _ _ Hs'), (rc_nxt _ _ _ Hc), u32_sub by (unfold clip in *; lia).
  destruct (store_segment s f pos rl sg q' Hi Hs') as (b & Hw & Hi1 & Hbd & Hbl & Hrg); [lia|done|].
  rewrite Hw. cbn [mbind res_bind]. rewrite assert_ok_true by apply Z.eqb_refl. cbn [mbind res_bind]. psimpl.
  rewrite (rc_nxt _ _ _ Hc), (u32_eqb_near q' pos) by (unfold clip in *; lia).
  set (s1 := s <| rbuf := b |>) in *. assert (Hr1 : rbuf s1 = b) by done.
  rewrite <-Hbd, <-Hr1 in Hrg. assert (Hc1 := rv_core _ _ _ _ Hi1).
  destruct (Z.eqb_spec q' pos) as [->|Hne].
  - rewrite consume_write_spec by (try apply Hc1; rewrite Hbd, Hbl; lia). cbn [mbind res_bind].
    match goal with |- context [recover_loop ?t ?l ?g] => set (s2 := t);
      destruct (commit_in_order s1 s2 f pos rl (seg_len sg) g Hi1 Hrg) as (sf' & s' & pos' & rl' & Hrec & Hi' & Hp' & Hb') end.
    { by unfold s2; psimpl. }
    { unfold s2; psimpl. by rewrite ?(rc_nxt _ _ _ Hc1), ?(rc_nxt _ _ _ Hc). }
    replace (rlist s2) with (map rseg rl) by (symmetry; unfold s2; psimpl; apply Hi). rewrite Hrec.
    rewrite Hr1, Hbd in Hb'. cbn [mbind res_bind]. do 5 eexists. split; [done|]. split; [exact Hi'|].
    split; [lia|]. split; [|lia]. apply (contents_continue s); [done|apply Hi'|lia|done].
  - destruct (keep_out_of_order s1 f pos rl q' (seg_len sg) Hi1) as [rl' Hi']; [unfold clip in *; lia|done|].
    do 3 eexists. exists pos, rl'. split; [done|]. split; [exact Hi'|]. split; [lia|]. split; [|lia].
    apply (contents_continue s); [done|apply Hi'|lia|]. psimpl. rewrite Hr1. lia.
Qed.

(** ** Reading *)

Lemma rcv_same s s' f pos rl : rbuf s' = rbuf s -> rcv_nxt s' = rcv_nxt s -> rlist s' = rlist s ->
  rcv_inv s f pos rl -> rcv_inv s' f pos rl.
Proof.
  intros Hb Hn Hl [[Hf Hc Hx Hh] Hrl Hs Hr].
  constructor; [constructor; rewrite ?Hb, ?Hn; done|by rewrite Hl|done|].
  rewrite Hb. eapply Forall_impl; [|exact Hr]. intros x []. constructor; rewrite ?Hb; done.
Qed.

(** Reading [k] bytes moves the oldest position of the buffer by [k]. *)
Lemma rcv_advanced s f pos rl k : rcv_inv s f pos rl -> 0 <= k <= ff_data_length (rbuf s) ->
  rcv_inv (s <| rbuf := advanced (rbuf s) k |>) f pos rl.
Proof.
  intros [[Hf Hc Hx Hh] Hrl Hs Hr] Hk. pose proof (fo_data _ Hf). pose proof (zlen_ring _ Hf) as Hz.
  destruct (advanced_spec (rbuf s) Hf k Hk) as (Hfa & _ & Hra).
  assert (Hb : forall p, pos - ff_data_length (rbuf s) + k <= p < pos - ff_data_length (rbuf s) + ff_buffer_length (rbuf s) ->
    holds (rbuf s) f (pos - ff_data_length (rbuf s)) p ->
    holds (advanced (rbuf s) k) f (pos - (ff_data_length (rbuf s) - k)) p).
  { intros p Hp. unfold holds. rewrite Hra, lookup_app_l by (rewrite length_drop; unfold zlen in Hz; lia).
    rewrite lookup_drop. intros <-. f_equal. lia. }
  constructor; psimpl; [|done|done|].
  - constructor; psimpl; [done|done|done|]. cbn [advanced ff_data_length]. intros p Hp. apply Hb; [lia|]. apply Hh. lia.
  - cbn [advanced ff_data_length]. eapply Forall_impl; [|exact Hr]. intros x []. constructor; psimpl; [done|done| |].
    + cbn [advanced ff_buffer_length]. lia.
    + intros p Hp. apply Hb; [lia|]. by apply rg_held0.
Qed.

Lemma inv_rbuf s sent unsent b w : snd_inv s sent unsent ->
  snd_inv (s <| rbuf := b |>) sent unsent /\ snd_inv (s <| rbuf := b |> <| rcv_wnd := w |>) sent unsent.
Proof. intros []. split; by constructor. Qed.

(** Reading returns the stream in order: with data in the receive
    buffer, [pseudo_tcp_socket_recv] returns the next bytes of the peer's
    stream, as many as were asked for or are there, leaves the rest of the
    buffer and the out-of-order data in place, and never fails, whether or
    not it has to announce the reopened window. *)
Theorem recv_returns_stream {E : PtcpEnv} s f pos rl sent unsent n :
  rcv_inv s f pos rl -> snd_inv s sent unsent -> support_fin_ack s = true -> shutdown_reads s = false ->
  0 < n -> 0 < ff_data_length (rbuf s) < 2 ^ 31 ->
  let base := pos - ff_data_length (rbuf s) in
  let k := Z.min n (ff_data_length (rbuf s)) in
  exists s', pseudo_tcp_socket_recv s n = Ok (k, stream_at f base k, s') /\ rcv_inv s' f pos rl /\
    ff_data_length (rbuf s') = ff_data_length (rbuf s) - k /\ (exists sent' unsent', snd_inv s' sent' unsent').
Proof.
  intros Hi Hsi Hfa Hsr Hn Hd base k. unfold pseudo_tcp_socket_recv. rewrite Hfa, Hsr. cbn [negb andb].
  destruct (Z.eqb_spec n 0); [lia|]. pose proof (rv_core _ _ _ _ Hi) as Hc. pose proof (rc_fifo _ _ _ Hc) as Hf.
  rewrite read_spec by (done || lia). fold k. cbn [mbind res_bind].
  destruct (Z.eqb_spec k 0); [lia|]. cbn [andb]. psimpl. rewrite s32_small by lia.
  assert (Hdata : take (Z.to_nat k) (contents (rbuf s)) = stream_at f base k).
  { rewrite (contents_stream _ _ _ Hc). fold base. replace (ff_data_length (rbuf s)) with (k + (ff_data_length (rbuf s) - k)) by lia.
    rewrite stream_at_app by lia. rewrite take_app_le, take_ge; [done| |];
      unfold stream_at; rewrite length_map, length_seq; lia. }
  rewrite Hdata. pose proof (rcv_advanced s f pos rl k Hi ltac:(lia)) as Hi1.
  match goal with |- context [u64 (?a - rcv_wnd s)] => generalize a; intros room end.
  destruct (inv_rbuf s sent unsent (advanced (rbuf s) k) (u32 room) Hsi) as [Hs1 Hs2].
  case_match; [|].
  - assert (Hi2 : rcv_inv (s <| rbuf := advanced (rbuf s) k |> <| rcv_wnd := u32 room |>) f pos rl).
    { eapply rcv_same; [| | |exact Hi1]; by psimpl. }
    case_match.
    + destruct (attempt_send_spec _ _ _ sfImmediateAck Hs2) as (s' & sent' & unsent' & -> & Hfr & _ & Hs' & _ & _).
      cbn [mbind res_bind]. exists s'. split; [done|]. split; [by eapply rcv_same; [apply Hfr|apply Hfr|apply Hfr|]|].
      split; [by rewrite (fr_rbuf _ _ Hfr); psimpl|eauto].
    + cbn [mbind res_bind]. eexists. split; [done|]. split; [done|]. split; [by psimpl|eauto].
  - cbn [mbind res_bind]. eexists. split; [done|]. split; [done|]. split; [by psimpl|eauto].
Qed.

(** ** Examples *)

(** A stream, a socket that waits for position 9 and holds position 10, and
    the missing segment. *)
Definition ex_stream (p : Z) : Z := p mod 256.

Definition ex_receiving : PseudoTcpSocket :=
  ex_socket <| rbuf := mkFifo [10; 0; 7; 8; 0] 5 2 2 |> <| rcv_nxt := 9 |> <| rlist := [mkRSegment 10 1] |>.

Definition ex_missing : Segment := mkSegment 7 8 0 0 100 [8; 9] 2 0 0.

Lemma ex_receiving_inv : rcv_inv ex_receiving ex_stream 9 [(10, 1)].
Proof.
  unfold ex_receiving. constructor; psimpl.
  - constructor; psimpl; cbn [ff_data_length ff_buffer_length]; [|lia|reflexivity|].
    + constructor; cbn; try done; try lia. repeat constructor; (discriminate || reflexivity).
    + intros p Hp. assert (p = 7 \/ p = 8) as [-> | ->] by lia; reflexivity.
  - reflexivity.
  - repeat constructor.
  - cbn [ff_data_length]. repeat constructor; psimpl; cbn; try lia.
    intros p Hp. assert (p = 10) as -> by lia. reflexivity.
Qed.

Lemma segment_reassembly_witness :
  exists sf' new s' pos' rl',
    accept_data ex_receiving (adjust_segment ex_receiving ex_missing) sfNone = Ok (sf', new, s') /\
    rcv_inv s' ex_stream pos' rl' /\ 9 <= pos' /\
    contents (rbuf s') = contents (rbuf ex_receiving) ++ stream_at ex_stream 9 (pos' - 9) /\
    (8 <= 9 -> 9 + clip 9 (9 - ff_data_length (rbuf ex_receiving) + ff_buffer_length (rbuf ex_receiving)) 8
                 (seg_len ex_missing) <= pos').
Proof.
  apply (segment_reassembly ex_receiving ex_stream 9 [(10, 1)] ex_missing 8 sfNone).
  - apply ex_receiving_inv.
  - constructor; cbn; try lia; try reflexivity; [split; discriminate|].
    repeat constructor; (discriminate || reflexivity).
  - lia.
  - reflexivity.
  - reflexivity.
  - by right.
Defined.

Lemma recv_returns_stream_witness :
  exists s', pseudo_tcp_socket_recv (E := ex_env) ex_receiving 1 = Ok (1, [7], s') /\
    rcv_inv s' ex_stream 9 [(10, 1)] /\ ff_data_length (rbuf s') = 1 /\
    (exists sent' unsent', snd_inv s' sent' unsent').
Proof.
  apply (recv_returns_stream (E := ex_env) ex_receiving ex_stream 9 [(10, 1)] [] [] 1); try reflexivity.
  - apply ex_receiving_inv.
  - destruct ex_socket_inv. by constructor.
  - split; reflexivity.
Defined.
