(* ===== verification/PseudoTcpLife.v ===== *)
(** * Pseudo-TCP: the life of a connection

    The diagram of connection states as a step relation, and that every
    sequence of operations of an application follows it. *)
From stdpp Require Import relations.
From S2P Require Import Prelude CMem PseudoTcpFifo PseudoTcpTypes PseudoTcp PseudoTcpProcess PseudoTcpApi PseudoTcpSend PseudoTcpStream.

(** ** The state diagram *)

(** The connection state diagram (RFC 793, figure 6), with the transitions of
    an endpoint that closes for good: nothing leaves CLOSED. *)
Inductive tcp_step : PseudoTcpState -> PseudoTcpState -> Prop :=
  | listen_connect : tcp_step PSEUDO_TCP_LISTEN PSEUDO_TCP_SYN_SENT
  | listen_syn : tcp_step PSEUDO_TCP_LISTEN PSEUDO_TCP_SYN_RECEIVED
  | listen_close : tcp_step PSEUDO_TCP_LISTEN PSEUDO_TCP_CLOSED
  | sent_syn : tcp_step PSEUDO_TCP_SYN_SENT PSEUDO_TCP_SYN_RECEIVED
  | sent_ack : tcp_step PSEUDO_TCP_SYN_SENT PSEUDO_TCP_ESTABLISHED
  | sent_close : tcp_step PSEUDO_TCP_SYN_SENT PSEUDO_TCP_CLOSED
  | received_ack : tcp_step PSEUDO_TCP_SYN_RECEIVED PSEUDO_TCP_ESTABLISHED
  | received_close : tcp_step PSEUDO_TCP_SYN_RECEIVED PSEUDO_TCP_FIN_WAIT_1
  | established_close : tcp_step PSEUDO_TCP_ESTABLISHED PSEUDO_TCP_FIN_WAIT_1
  | established_fin : tcp_step PSEUDO_TCP_ESTABLISHED PSEUDO_TCP_CLOSE_WAIT
  | wait1_ack : tcp_step PSEUDO_TCP_FIN_WAIT_1 PSEUDO_TCP_FIN_WAIT_2
  | wait1_fin : tcp_step PSEUDO_TCP_FIN_WAIT_1 PSEUDO_TCP_CLOSING
  | wait1_fin_ack : tcp_step PSEUDO_TCP_FIN_WAIT_1 PSEUDO_TCP_TIME_WAIT
  | wait2_fin : tcp_step PSEUDO_TCP_FIN_WAIT_2 PSEUDO_TCP_TIME_WAIT
  | closing_ack : tcp_step PSEUDO_TCP_CLOSING PSEUDO_TCP_TIME_WAIT
  | close_wait_close : tcp_step PSEUDO_TCP_CLOSE_WAIT PSEUDO_TCP_LAST_ACK
  | last_ack : tcp_step PSEUDO_TCP_LAST_ACK PSEUDO_TCP_CLOSED
  | time_wait_timeout : tcp_step PSEUDO_TCP_TIME_WAIT PSEUDO_TCP_CLOSED.

Create HintDb ptcp_life.
#[export] Hint Constructors tcp_step : ptcp_life.

(** [s'] is later in the life of the connection than [s]. *)
Abbreviation later s s' := (rtc tcp_step (state s) (state s')).

(** ** Every part of an operation moves forward *)

(** One branch of a computation that returned. *)
Ltac ok_step :=
  match goal with
  | H : Fault _ = Ok _ |- _ => discriminate H
  | H : Ok _ = Ok _ |- _ => injection H; clear H; intros; subst
  | H : (_ ≫= _) = Ok _ |- _ => apply bind_Ok_inv in H as (? & ? & H)
  | H : (let '(_, _) := ?p in _) = Ok _ |- _ => destruct p eqn:?
  | H : (if ?b then _ else _) = Ok _ |- _ => destruct b eqn:?
  | H : match ?x with _ => _ end = Ok _ |- _ => destruct x eqn:?
  end.
(** Every such branch. *)
Ltac ok_cases := repeat (ok_step; cbv zeta beta in * |-).

(** Follow the known steps of a branch. *)
Ltac follow :=
  repeat match goal with
  | H : state ?t = _ |- _ => progress (rewrite H in *); clear H
  | H : rtc tcp_step ?a ?b |- rtc tcp_step ?a ?c => transitivity b; [exact H|clear H]
  end; try reflexivity.
Ltac settle := repeat case_match; cbn [fst snd] in *; subst; psimpl; follow.

Section life.
Context {E : PtcpEnv}.
Implicit Types s : PseudoTcpSocket.

Lemma valid_transition_step a b :
  valid_transition a b = true -> a <> PSEUDO_TCP_CLOSED -> b <> PSEUDO_TCP_LISTEN -> tcp_step a b.
Proof. intros H Ha Hb. destruct a, b; first [discriminate|congruence|auto with ptcp_life]. Qed.

Lemma set_state_later s new s' : set_state s new = Ok s' -> new <> PSEUDO_TCP_LISTEN ->
  (new = PSEUDO_TCP_SYN_SENT -> state s <> PSEUDO_TCP_CLOSED) -> later s s' /\ state s' = new.
Proof.
  unfold set_state. intros H Hl Hs. ok_cases.
  - apply bool_decide_eq_true_1 in Heqb. done.
  - destruct (valid_transition (state s) new) eqn:Hv; [|done]. psimpl. split; [|done].
    apply rtc_once, valid_transition_step; [done| |done].
    intros Hc. rewrite Hc in *. destruct new; try discriminate Hv; [done|by apply Hs].
Qed.

Lemma set_state_closed_later s err s' : set_state_closed s err = Ok s' -> later s s' /\ state s' = PSEUDO_TCP_CLOSED.
Proof.
  unfold set_state_closed, emit. intros H. ok_cases; apply set_state_later in H0 as []; try done.
  split; settle; done.
Qed.

Lemma adjustMTU_state s s' : adjustMTU s = Ok s' -> state s' = state s.
Proof. unfold adjustMTU. intros H. ok_cases. by psimpl. Qed.

Lemma set_state_established_later s s' : set_state_established s = Ok s' -> later s s'.
Proof.
  unfold set_state_established, emit. intros H. ok_cases; apply set_state_later in H0 as [? _]; try done;
    apply adjustMTU_state in H1; follow; settle.
Qed.

Lemma closedown_remote_later s err s' : closedown_remote s err = Ok s' -> later s s'.
Proof.
  unfold closedown_remote. intros H. ok_cases; apply set_state_closed_later in H as [? _];
    repeat match goal with H : set_state _ _ = Ok _ |- _ => apply set_state_later in H as [? _]; [|done|done] end; follow.
Qed.

Lemma resize_receive_buffer_state s n s' : resize_receive_buffer s n = Ok s' -> state s' = state s.
Proof. unfold resize_receive_buffer. intros H. ok_cases; by psimpl. Qed.

Lemma apply_option_state s k d off n s' : apply_option s k d off n = Ok s' -> state s' = state s.
Proof. unfold apply_option, apply_window_scale_option, apply_fin_ack_option. intros H. ok_cases; by psimpl. Qed.

Lemma options_loop_state fuel : forall s d n pos ws fa r s',
  options_loop fuel s d n pos ws fa = Ok (r, s') -> state s' = state s.
Proof.
  induction fuel as [|fuel IH]; cbn [options_loop]; intros s d n pos ws fa r s' H; ok_cases; try done.
  - by apply IH in H.
  - apply apply_option_state in H2. apply IH in H. congruence.
Qed.

Lemma parse_options_state s d n s' : parse_options s d n = Ok s' -> state s' = state s.
Proof.
  unfold parse_options. intros H. ok_cases; psimpl;
    repeat match goal with
    | H : options_loop _ _ _ _ _ _ _ = Ok _ |- _ => apply options_loop_state in H
    | H : resize_receive_buffer _ _ = Ok _ |- _ => apply resize_receive_buffer_state in H
    end; repeat case_match; psimpl; congruence.
Qed.

Lemma queue_state s d n f r s' : queue s d n f = Ok (r, s') -> state s' = state s.
Proof. unfold queue. intros H. ok_cases; psimpl; repeat case_match; by psimpl. Qed.

Lemma queue_connect_state s s' : queue_connect_message s = Ok s' -> state s' = state s.
Proof. unfold queue_connect_message. intros H. ok_cases; apply queue_state in H0; by psimpl_in H0. Qed.
Lemma queue_fin_state s s' : queue_fin_message s = Ok s' -> state s' = state s.
Proof. unfold queue_fin_message. intros H. ok_cases; by apply queue_state in H1. Qed.
Lemma queue_rst_state s s' : queue_rst_message s = Ok s' -> state s' = state s.
Proof. unfold queue_rst_message. intros H. ok_cases; by apply queue_state in H1. Qed.
(** *** Transmission *)

Lemma current_time_state s now s' : get_current_time s = (now, s') -> state s' = state s.
Proof. unfold get_current_time. case_match; intros [= _ <-]; by psimpl. Qed.

Lemma packet_state s q f off n now r s' : packet s q f off n now = Ok (r, s') -> state s' = state s.
Proof. unfold packet, emit. intros H. ok_cases; repeat case_match; by psimpl. Qed.

Lemma lower_mss_state fuel : forall s n r s', lower_mss fuel s n = Ok (r, s') -> state s' = state s.
Proof.
  induction fuel as [|fuel IH]; cbn [lower_mss]; intros s n r s' H; ok_cases; try by psimpl.
  apply IH in H. by psimpl_in H.
Qed.

Lemma transmit_loop_state fuel : forall s x n now r s', transmit_loop fuel s x n now = Ok (r, s') -> state s' = state s.
Proof.
  induction fuel as [|fuel IH]; cbn [transmit_loop]; intros s x n now r s' H; ok_cases;
    repeat match goal with
    | H : packet _ _ _ _ _ _ = Ok _ |- _ => apply packet_state in H
    | H : lower_mss _ _ _ = Ok _ |- _ => apply lower_mss_state in H
    | H : transmit_loop _ _ _ _ _ = Ok _ |- _ => apply IH in H
    end; congruence.
Qed.

Lemma split_segment_state s x n : state (split_segment s x n) = state s.
Proof. unfold split_segment. repeat case_match; by psimpl. Qed.

Lemma transmit_state s p now r s' : transmit s p now = Ok (r, s') -> state s' = state s.
Proof.
  unfold transmit. intros H. ok_cases; try done; try (by apply transmit_loop_state in H1);
    apply transmit_loop_state in H1; repeat case_match; psimpl; rewrite ?split_segment_state; done.
Qed.

Lemma transmit_head_state s now r s' : transmit_head s now = Ok (r, s') -> state s' = state s.
Proof. unfold transmit_head. intros H. ok_cases. by apply transmit_state in H. Qed.

Lemma send_round_later s sf now r s' : send_round s sf now = Ok (s', r) -> later s s'.
Proof.
  unfold send_round. intros H. ok_cases; try settle;
    repeat match goal with
    | H : packet _ _ _ _ _ _ = Ok _ |- _ => apply packet_state in H
    | H : transmit _ _ _ = Ok _ |- _ => apply transmit_state in H
    | H : closedown_remote _ _ = Ok _ |- _ => apply closedown_remote_later in H
    | H : state _ = state (if ?b then _ else _) |- _ => destruct b; psimpl_in H
    end; follow.
Qed.

Lemma send_loop_later fuel : forall s sf now s', send_loop fuel s sf now = Ok s' -> later s s'.
Proof.
  induction fuel as [|fuel IH]; cbn [send_loop]; intros s sf now s' H; ok_cases; apply send_round_later in H0; follow.
  by apply IH in H.
Qed.

Lemma attempt_send_later s sf s' : attempt_send s sf = Ok s' -> later s s'.
Proof.
  unfold attempt_send. intros H. destruct (get_current_time s) as [now t] eqn:Ht. apply current_time_state in Ht.
  apply send_loop_later in H. destruct (_ <? _) in H; psimpl_in H; follow.
Qed.

Lemma closedown_later s err src s' : closedown s err src = Ok s' -> later s s'.
Proof.
  unfold closedown. intros H. ok_cases; apply closedown_remote_later in H; try done;
    repeat match goal with
    | H : queue_rst_message _ = Ok _ |- _ => apply queue_rst_state in H
    | H : attempt_send _ _ = Ok _ |- _ => apply attempt_send_later in H
    end; follow.
Qed.
(** *** Receiving *)

(** Replace the parts of a branch that returned by what they do to the state. *)
Ltac advance :=
  repeat match goal with
  | H : packet _ _ _ _ _ _ = Ok _ |- _ => apply packet_state in H
  | H : get_current_time _ = _ |- _ => apply current_time_state in H
  | H : queue _ _ _ _ = Ok _ |- _ => apply queue_state in H
  | H : queue_connect_message _ = Ok _ |- _ => apply queue_connect_state in H
  | H : queue_fin_message _ = Ok _ |- _ => apply queue_fin_state in H
  | H : parse_options _ _ _ = Ok _ |- _ => apply parse_options_state in H
  | H : transmit_head _ _ = Ok _ |- _ => apply transmit_head_state in H
  | H : closedown _ _ _ = Ok _ |- _ => apply closedown_later in H
  | H : attempt_send _ _ = Ok _ |- _ => apply attempt_send_later in H
  | H : set_state_established _ = Ok _ |- _ => apply set_state_established_later in H
  | H : set_state_closed _ _ = Ok _ |- _ => apply set_state_closed_later in H as [? _]
  | H : set_state _ _ = Ok _ |- _ => apply set_state_later in H as [? _]; [|done|congruence]
  | H : state _ = state _ |- _ => progress psimpl_in H
  | H : rtc tcp_step _ _ |- _ => progress psimpl_in H
  | H : context [state (if ?b then _ else _)] |- _ => destruct b
  end.

Lemma process_control_later s seg r s' : process_control s seg = Ok (r, s') -> later s s'.
Proof. unfold process_control. intros H. ok_cases; advance; follow. Qed.
Lemma update_timestamp_state s seg : state (update_timestamp s seg) = state s.
Proof. unfold update_timestamp. case_match; by psimpl. Qed.

Lemma update_rtt_state s seg now s' : update_rtt s seg now = Some s' -> state s' = state s.
Proof. unfold update_rtt. repeat case_match; intros [= <-]; by psimpl. Qed.

Lemma take_ack_state s seg now r s' : take_ack s seg now = Ok (r, s') -> state s' = state s.
Proof. unfold take_ack. intros H. ok_cases; by psimpl. Qed.

Lemma ack_congestion_later s n now r s' : ack_congestion s n now = Ok (r, s') -> later s s'.
Proof. unfold ack_congestion. intros H. ok_cases; advance; settle. Qed.

Lemma process_dup_ack_later s seg now r s' : process_dup_ack s seg now = Ok (r, s') -> later s s'.
Proof. unfold process_dup_ack. intros H. ok_cases; advance; settle. Qed.

Lemma process_ack_later s seg now r s' : process_ack s seg now = Ok (r, s') -> later s s'.
Proof.
  unfold process_ack. intros H. ok_cases;
    repeat match goal with
    | H : update_rtt _ _ _ = Some _ |- _ => apply update_rtt_state in H
    | H : take_ack _ _ _ = Ok _ |- _ => apply take_ack_state in H
    | H : ack_congestion _ _ _ = Ok _ |- _ => apply ack_congestion_later in H
    | H : process_dup_ack _ _ _ = Ok _ |- _ => apply process_dup_ack_later in H
    end; follow.
Qed.

Lemma process_fin_later s seg b r s' : process_fin s seg b = Ok (r, s') -> later s s'.
Proof.
  unfold process_fin. intros H. destruct (support_fin_ack s); [|ok_cases; done].
  assert (Hs : state (if flag (seg_flags seg) FLAG_FIN then s <| rcv_fin := seg_seq seg |> else s) = state s)
    by (destruct (flag _ _); by psimpl).
  set (t := if flag (seg_flags seg) FLAG_FIN then _ else s) in *. clearbody t. rewrite <-Hs. clear Hs.
  ok_cases; advance; follow.
Qed.

Lemma notify_writable_state s : state (notify_writable s) = state s.
Proof. unfold notify_writable, emit. repeat case_match; by psimpl. Qed.

Lemma recover_loop_state l : forall s sf r s', recover_loop s l sf = Ok (r, s') -> state s' = state s.
Proof.
  induction l as [|x l IH]; cbn [recover_loop]; intros s sf r s' H; ok_cases; try by psimpl.
  - apply IH in H. by psimpl_in H.
  - by apply IH in H.
Qed.

Lemma accept_data_state s seg sf r s' : accept_data s seg sf = Ok (r, s') -> state s' = state s.
Proof.
  unfold accept_data. intros H. ok_cases; try (repeat case_match; by psimpl).
  apply recover_loop_state in H3. by psimpl_in H3.
Qed.

Lemma process_data_later s seg b r s' : process_data s seg b = Ok (r, s') -> later s s'.
Proof.
  unfold process_data, emit. intros H. ok_cases; apply accept_data_state in H0; rewrite notify_writable_state in H0;
    advance; settle.
Qed.

Lemma process_later s seg r s' : process s seg = Ok (r, s') -> later s s'.
Proof.
  unfold process. intros H. ok_cases; advance;
    repeat match goal with
    | H : process_control _ _ = Ok _ |- _ => apply process_control_later in H; psimpl_in H
    | H : process_ack _ _ _ = Ok _ |- _ => apply process_ack_later in H; rewrite update_timestamp_state in H
    | H : process_fin _ _ _ = Ok _ |- _ => apply process_fin_later in H
    | H : process_data _ _ _ = Ok _ |- _ => apply process_data_later in H
    end; settle.
Qed.

Lemma parse_later s h n d m r s' : parse s h n d m = Ok (r, s') -> later s s'.
Proof. unfold parse. intros H. ok_cases; [done|]. by apply process_later in H. Qed.
(** *** The operations of the application *)

Lemma clock_retransmit_later s now r s' : clock_retransmit s now = Ok (r, s') -> later s s'.
Proof. unfold clock_retransmit. intros H. ok_cases; advance; settle. Qed.

Lemma clock_probe_later s now r s' : clock_probe s now = Ok (r, s') -> later s s'.
Proof. unfold clock_probe. intros H. ok_cases; advance; settle. Qed.

Lemma notify_clock_later s s' : pseudo_tcp_socket_notify_clock s = Ok s' -> later s s'.
Proof.
  unfold pseudo_tcp_socket_notify_clock. intros H. ok_cases; advance;
    repeat match goal with
    | H : clock_retransmit _ _ = Ok _ |- _ => apply clock_retransmit_later in H
    | H : clock_probe _ _ = Ok _ |- _ => apply clock_probe_later in H
    end; settle.
Qed.

Lemma connect_later s r s' : pseudo_tcp_socket_connect s = Ok (r, s') -> later s s'.
Proof.
  unfold pseudo_tcp_socket_connect. intros H. destruct (bool_decide_reflect (state s = PSEUDO_TCP_LISTEN)) as [Hl|];
    cbn [negb] in H; ok_cases; advance; settle.
Qed.

Lemma recv_later s n r s' : pseudo_tcp_socket_recv s n = Ok (r, s') -> later s s'.
Proof. unfold pseudo_tcp_socket_recv. intros H. ok_cases; advance; settle. Qed.

Lemma send_later s d n r s' : pseudo_tcp_socket_send s d n = Ok (r, s') -> later s s'.
Proof. unfold pseudo_tcp_socket_send. intros H. ok_cases; advance; settle. Qed.

Lemma shutdown_later s how s' : pseudo_tcp_socket_shutdown s how = Ok s' -> later s s'.
Proof.
  unfold pseudo_tcp_socket_shutdown. intros H. destruct (support_fin_ack s); cbn [negb] in H; [|ok_cases; settle].
  assert (Hs : state (match how with PSEUDO_TCP_SHUTDOWN_WR => s | _ => s <| shutdown_reads := true |> end) = state s)
    by (destruct how; by psimpl).
  set (t := match how with PSEUDO_TCP_SHUTDOWN_WR => s | _ => _ end) in *. clearbody t. rewrite <-Hs. clear Hs.
  ok_cases; advance; follow.
Qed.

Lemma close_later s force s' : pseudo_tcp_socket_close s force = Ok s' -> later s s'.
Proof. unfold pseudo_tcp_socket_close. intros H. ok_cases; advance; [done|by apply shutdown_later in H]. Qed.

Lemma next_clock_later s n r s' : pseudo_tcp_socket_get_next_clock s n = Ok (r, s') -> later s s'.
Proof. unfold pseudo_tcp_socket_get_next_clock. intros H. ok_cases; advance; follow. Qed.

Lemma notify_packet_later s b n r s' : pseudo_tcp_socket_notify_packet s b n = Ok (r, s') -> later s s'.
Proof. unfold pseudo_tcp_socket_notify_packet. intros H. ok_cases; try settle. by apply parse_later in H. Qed.

Lemma notify_message_later s m r s' : pseudo_tcp_socket_notify_message s m = Ok (r, s') -> later s s'.
Proof.
  unfold pseudo_tcp_socket_notify_message. intros H. ok_cases; try settle;
    [by apply notify_packet_later in H|by apply parse_later in H].
Qed.

Lemma notify_mtu_later s m s' : pseudo_tcp_socket_notify_mtu s m = Ok s' -> later s s'.
Proof. unfold pseudo_tcp_socket_notify_mtu. intros H. ok_cases; [apply adjustMTU_state in H; psimpl_in H|]; settle. Qed.

Lemma set_property_later s p s' : pseudo_tcp_socket_set_property s p = Ok s' -> later s s'.
Proof.
  unfold pseudo_tcp_socket_set_property, resize_send_buffer. intros H.
  ok_cases; try settle. apply resize_receive_buffer_state in H. settle.
Qed.

(** Everything an application can do with a socket. *)
Inductive ptcp_op : Set :=
  | OpSetTime (now : Z)
  | OpSetProperty (p : ptcp_property)
  | OpSendSpace
  | OpConnect
  | OpNotifyMtu (mtu : Z)
  | OpNotifyClock
  | OpNotifyPacket (buffer : list Z) (len : Z)
  | OpNotifyMessage (m : NiceInputMessage)
  | OpNextClock (timeout : Z)
  | OpRecv (len : Z)
  | OpSend (buffer : list Z) (len : Z)
  | OpShutdown (how : PseudoTcpShutdown)
  | OpClose (force : bool).

Definition ptcp_do s (op : ptcp_op) : res PseudoTcpSocket :=
  match op with
  | OpSetTime now => Ok (pseudo_tcp_socket_set_time s now)
  | OpSetProperty p => pseudo_tcp_socket_set_property s p
  | OpSendSpace => Ok (snd (pseudo_tcp_socket_get_available_send_space s))
  | OpConnect => snd <$> pseudo_tcp_socket_connect s
  | OpNotifyMtu mtu => pseudo_tcp_socket_notify_mtu s mtu
  | OpNotifyClock => pseudo_tcp_socket_notify_clock s
  | OpNotifyPacket b n => snd <$> pseudo_tcp_socket_notify_packet s b n
  | OpNotifyMessage m => snd <$> pseudo_tcp_socket_notify_message s m
  | OpNextClock t => snd <$> pseudo_tcp_socket_get_next_clock s t
  | OpRecv n => snd <$> pseudo_tcp_socket_recv s n
  | OpSend b n => snd <$> pseudo_tcp_socket_send s b n
  | OpShutdown how => pseudo_tcp_socket_shutdown s how
  | OpClose force => pseudo_tcp_socket_close s force
  end.

Fixpoint ptcp_run s (ops : list ptcp_op) : res PseudoTcpSocket :=
  match ops with
  | [] => Ok s
  | op :: ops => s ← ptcp_do s op; ptcp_run s ops
  end.

Lemma fmap_Ok_inv {A B} (f : A -> B) (x : res A) b : (f <$> x) = Ok b -> exists a, x = Ok a /\ f a = b.
Proof. destruct x; intros [= <-]. eauto. Qed.

Lemma ptcp_do_later s op s' : ptcp_do s op = Ok s' -> later s s'.
Proof.
  destruct op; cbn [ptcp_do]; intros H; try (apply fmap_Ok_inv in H as ([r t] & H & Ht); cbn in Ht; subst t).
  - injection H as <-. done.
  - by apply set_property_later in H.
  - injection H as <-. unfold pseudo_tcp_socket_get_available_send_space. cbn [snd]. repeat case_match; by psimpl.
  - by apply connect_later in H.
  - by apply notify_mtu_later in H.
  - by apply notify_clock_later in H.
  - by apply notify_packet_later in H.
  - by apply notify_message_later in H.
  - by apply next_clock_later in H.
  - by apply recv_later in H.
  - by apply send_later in H.
  - by apply shutdown_later in H.
  - by apply close_later in H.
Qed.

(** A flag of the state that no step clears stays set. *)
Lemma stable_flag (P : PseudoTcpState -> bool) a b :
  (forall x y, tcp_step x y -> P x = true -> P y = true) -> rtc tcp_step a b -> P a = true -> P b = true.
Proof. intros HP. induction 1; eauto. Qed.

(** C7: whatever an application and the network do with a socket, in any
    order, as long as the operations return, the connection only moves
    forward along the state diagram: a closed connection stays closed, a FIN
    that was sent or received is not forgotten, and the established state is
    never entered again after closing has begun. *)
Theorem connection_lifecycle s ops s' :
  ptcp_run s ops = Ok s' ->
  rtc tcp_step (state s) (state s') /\
  (state s = PSEUDO_TCP_CLOSED -> state s' = PSEUDO_TCP_CLOSED) /\
  (pseudo_tcp_state_has_sent_fin (state s) = true -> pseudo_tcp_state_has_sent_fin (state s') = true) /\
  (pseudo_tcp_state_has_received_fin (state s) = true -> pseudo_tcp_state_has_received_fin (state s') = true) /\
  (pseudo_tcp_state_has_received_fin_ack (state s) = true ->
   pseudo_tcp_state_has_received_fin_ack (state s') = true).
Proof.
  intros H. assert (Hl : later s s').
  { revert s H. induction ops as [|op ops IH]; cbn [ptcp_run]; intros s H; [by injection H as <-|].
    ok_cases. apply ptcp_do_later in H0. apply IH in H. by etrans. }
  split; [done|]. split.
  { intros Hc. rewrite Hc in Hl. inversion Hl as [|? ? ? Hst]; [done|inversion Hst]. }
  split_and!; intros HP; eapply stable_flag; try exact Hl; try exact HP; intros x y []; done.
Qed.
End life.

(** ** Example *)

(** Connect, lose patience, close by force and look at the clock. *)
Definition ex_life : list ptcp_op := [OpConnect; OpSetTime 9; OpNotifyClock; OpClose true; OpNotifyClock].

Lemma connection_lifecycle_witness :
  exists s', ptcp_run (E := ex_env) (pseudo_tcp_socket_new (E := ex_env) 7 ex_callbacks) ex_life = Ok s' /\
    rtc tcp_step PSEUDO_TCP_LISTEN (state s') /\ state s' = PSEUDO_TCP_CLOSED.
Proof.
  assert (Hok : (state <$> ptcp_run (E := ex_env) (pseudo_tcp_socket_new (E := ex_env) 7 ex_callbacks) ex_life)
                = Ok PSEUDO_TCP_CLOSED) by (vm_compute; reflexivity).
  destruct (ptcp_run _ _) as [s'|] eqn:H; [|discriminate Hok]. exists s'. split; [reflexivity|].
  split; [exact (proj1 (connection_lifecycle (E := ex_env) _ ex_life s' H))|injection Hok; trivial].
Defined.
