(* ===== verification/PseudoTcpTimeout.v ===== *)
(** * Pseudo-TCP: retransmission and giving up

    Retransmitting the oldest segment, closing down with a reset, and that a
    connection whose peer stays silent is given up after a bounded number of
    timeouts. *)
From S2P Require Import Prelude CMem PseudoTcpFifo PseudoTcpTypes PseudoTcp PseudoTcpProcess PseudoTcpApi PseudoTcpSend PseudoTcpStream PseudoTcpLife.

Section timeout.
Context {E : PtcpEnv}.
Implicit Types s : PseudoTcpSocket.

(** ** Closing down *)

Lemma closedown_remote_event s err s' : closedown_remote s err = Ok s' ->
  PseudoTcpClosed (callbacks s) = true -> err <> 0 -> EvClosed err ∈ trace s'.
Proof.
  assert (Hset : forall s st s', set_state s st = Ok s' -> callbacks s' = callbacks s).
  { unfold set_state. intros ? ? ? H. ok_cases; by psimpl. }
  unfold closedown_remote, set_state_closed, emit. intros H Hcb Herr.
  apply bind_Ok_inv in H as (t & Ht & H). apply bind_Ok_inv in H as (u & Hu & H). injection H as <-.
  assert (callbacks u = callbacks s) as ->.
  { rewrite (Hset _ _ _ Hu). ok_cases; try done;
      repeat match goal with H : set_state _ _ = Ok _ |- _ => apply Hset in H end; congruence. }
  rewrite Hcb. destruct (Z.eqb_spec err 0); [done|]. cbn [andb negb]. psimpl. left.
Qed.

(** Closing down locally returns whatever the network does, ends in CLOSED and
    tells the application. *)
Lemma closedown_local_spec s sent unsent err :
  snd_inv s sent unsent -> fins (slist s) + 1 < 2 ^ 31 ->
  exists s' sent' unsent', closedown s err CLOSEDOWN_LOCAL = Ok s' /\ snd_inv s' sent' unsent' /\
    state s' = PSEUDO_TCP_CLOSED /\ contents (sbuf s') = contents (sbuf s) /\
    (PseudoTcpClosed (callbacks s) = true -> err <> 0 -> EvClosed err ∈ trace s').
Proof.
  intros Hi Hfin. unfold closedown.
  assert (exists t sent' unsent', (if support_fin_ack s then s ← queue_rst_message s; attempt_send s sfRst
      else Ok (s <| shutdown := SD_FORCEFUL |>)) = Ok t /\ snd_inv t sent' unsent' /\ callbacks t = callbacks s /\
      contents (sbuf t) = contents (sbuf s)) as (t & sent' & unsent' & -> & Ht & Hcb & Hc).
  { destruct (support_fin_ack s) eqn:Hfa.
    - unfold queue_rst_message. rewrite Hfa. cbn [assert_ok mbind res_bind]. open_inv Hi.
      destruct (queue_spec s sent unsent [] 0 FLAG_RST Hi) as (s1 & u1 & -> & Hi1 & Hq & _ & Hc1);
        [constructor|done|done|pose proof (fo_data _ Ififo); lia|done|]. cbn [mbind res_bind].
      destruct (attempt_send_spec s1 sent u1 sfRst Hi1) as (s2 & s3 & u3 & -> & Hf & _ & Hi2 & _).
      exists s2, s3, u3. split; [done|]. split; [done|]. split; [by rewrite (fr_callbacks _ _ Hf), (qd_callbacks _ _ Hq)|].
      rewrite (fr_sbuf _ _ Hf), Hc1, take_nil. by rewrite app_nil_r.
    - exists (s <| shutdown := SD_FORCEFUL |>), sent, unsent. split; [done|]. split; [destruct Hi; by constructor|done]. }
  cbn [mbind res_bind]. destruct (closedown_remote_spec t err) as (tr & Heq & _). rewrite Heq.
  exists (t <| state := PSEUDO_TCP_CLOSED |> <| trace := tr |>), sent', unsent'. split; [done|].
  split; [by apply inv_closed|]. split; [done|]. split; [done|].
  intros Hcl Herr. apply (closedown_remote_event t err); [done|by rewrite Hcb|done].
Qed.

(** ** Retransmitting the oldest segment *)

(** Cutting a segment that was sent before. *)
Lemma split_sent s x sent unsent m :
  snd_inv s (x :: sent) unsent -> 0 < m < ss_len x ->
  let s' := split_segment s x m in
  kept s (s' <| slist := slist s |> <| next_ptr := next_ptr s |>) /\ mss s' = mss s /\ msslevel s' = msslevel s /\
  snd_inv s' (with_len m x :: cut_rest x m (next_ptr s) :: sent) unsent.
Proof.
  intros Hi Hm. cbv zeta. open_inv Hi. apply list.Forall_cons in Isent as [Hx Hsent].
  rewrite Ilist in *. cbn [app] in *. change (x :: sent ++ unsent) with ([] ++ x :: (sent ++ unsent)) in *.
  destruct (tiled_offset s _ _ _ Itiled Itotal) as (Hseq & ? & ? & ?). pose proof (fo_data _ Ififo).
  unfold split_segment. destruct (Z.ltb_spec m (ss_len x)); [|lia]. cbn [ss_xmit].
  destruct (Z.eqb_spec (ss_xmit x) 0); [lia|].
  rewrite (u32_small (ss_len x - m)) by (pose proof (fo_size _ Ififo); lia).
  replace (mkSSegment (next_ptr s) (u32 (ss_seq x + m)) (ss_len x - m) (ss_xmit x) (ss_flags x))
    with (cut_rest x m (next_ptr s)) by done.
  split; [by constructor|]. split; [done|]. split; [done|].
  assert (Hl : insert_after (ss_ptr x) (cut_rest x m (next_ptr s)) (seg_set (ss_ptr x) (with_len m) (slist s)) =
    with_len m x :: cut_rest x m (next_ptr s) :: sent ++ unsent).
  { rewrite Ilist, (seg_set_split [] (sent ++ unsent) x Inodup).
    by apply (insert_after_split [] (sent ++ unsent) x Inodup (with_len m x)). }
  constructor; psimpl; rewrite ?Hl;
    try done.
  - constructor; [done|]. by constructor.
  - by apply (nodup_cut [] x (sent ++ unsent)).
  - by apply (fresh_cut [] x (sent ++ unsent)).
  - apply (tiled_cut _ [] x (sent ++ unsent)); [lia|done].
  - rewrite <-Itotal. apply (total_cut [] x (sent ++ unsent)).
  - pose proof (fins_cut [] x (sent ++ unsent) m (next_ptr s) Hm) as Hfi. cbn [app] in Hfi. by rewrite Hfi.
  - rewrite Inxt. pose proof (total_cut [] x sent m (next_ptr s)) as Ht. pose proof (fins_cut [] x sent m (next_ptr s) Hm) as Hfi.
    cbn [app] in Ht, Hfi. by rewrite Ht, Hfi.
Qed.
(** Counting one more transmission of the oldest segment. *)
Lemma mark_again s s' x sent unsent n :
  snd_inv s (x :: sent) unsent -> framed s s' -> unsent_slist s' = unsent_slist s -> snd_nxt s' = snd_nxt s ->
  mss s' = mss s -> msslevel s' = msslevel s -> next_ptr s' = next_ptr s ->
  slist s' = with_xmit n x :: sent ++ unsent -> 0 < n <= 30 -> snd_inv s' (with_xmit n x :: sent) unsent.
Proof.
  intros Hi Hf Hu Hn Hm Hlv Hp Hl Hx. open_inv Hi. pose proof (list.Forall_cons_1 _ _ _ Isent) as [_ Hsent].
  rewrite Ilist in *. cbn [app] in *.
  constructor; rewrite ?Hl, ?Hu, ?Hn, ?Hm, ?Hlv, ?Hp, ?(fr_sbuf _ _ Hf), ?(fr_una _ _ Hf), ?(fr_scale _ _ Hf); try done.
  - constructor; [exact Hx|exact Hsent].
  - by apply (fresh_xmit _ [] x _ (sent ++ unsent)).
  - pose proof (fins_xmit [] x n (sent ++ unsent)) as He. cbn [app] in He. by rewrite He.
  - rewrite Inxt. pose proof (fins_xmit [] x n sent) as He. cbn [app] in He. by rewrite He.
Qed.

(** The number of transmissions after which [transmit] gives up. *)
Definition xmit_limit (st : PseudoTcpState) : Z := if bool_decide (st = PSEUDO_TCP_ESTABLISHED) then 15 else 30.

(** The oldest segment is sent again and counted, or the connection has failed. *)
Lemma transmit_again s x sent unsent now :
  snd_inv s (x :: sent) unsent ->
  exists st s' y sent', transmit_head s now = Ok (st, s') /\ snd_inv s' (y :: sent') unsent /\ 0 <= st < 2 ^ 31 /\
    fins (slist s') = fins (slist s) /\ rx_rto s' = rx_rto s /\ state s' = state s /\
    callbacks s' = callbacks s /\ support_fin_ack s' = support_fin_ack s /\
    (st = 0 -> ss_xmit x < xmit_limit (state s) /\ ss_xmit y = ss_xmit x + 1).
Proof.
  intros Hi. open_inv Hi. pose proof (list.Forall_cons_1 _ _ _ Isent) as [Hx _]. cbn in Hx.
  assert (transmit_head s now = transmit s (ss_ptr x) now) as -> by (unfold transmit_head; by rewrite Ilist).
  destruct (Z.le_gt_cases (xmit_limit (state s)) (ss_xmit x)) as [Hlim|Hlim].
  { rewrite Ilist in Inodup. unfold transmit. rewrite (seg_at_split s [] x (sent ++ unsent) Ilist Inodup). cbn [mbind res_bind].
    fold (xmit_limit (state s)). destruct (Z.leb_spec (xmit_limit (state s)) (ss_xmit x)); [|lia].
    exists ETIMEDOUT, s, x, sent. split; [done|]. split; [done|]. split; [split; vm_compute; congruence|]. do 5 (split; [done|]). discriminate. }
  destruct (transmit_start s (x :: sent) unsent [] x (sent ++ unsent) now Hi Ilist) as (r & s1 & Hk & _ & Hi1 & Hr); [lia|].
  destruct r as [m|err].
  2: { destruct Hr as [-> He]. exists err, s1, x, sent. split; [done|]. split; [done|]. split; [lia|].
       rewrite (kp_slist _ _ Hk), (kp_rto _ _ Hk), (kp_state _ _ Hk), (kp_callbacks _ _ Hk), (kp_fin _ _ Hk).
       do 5 (split; [done|]). lia. }
  destruct Hr as (Hm & _ & Hm0 & Hx30 & ->). cbv zeta.
  (** after the split the first segment has [m] bytes *)
  assert (exists z sent2, kept s ((split_segment s1 x m) <| slist := slist s |> <| next_ptr := next_ptr s |>) /\
    snd_inv (split_segment s1 x m) (z :: sent2) unsent /\ ss_ptr z = ss_ptr x /\ ss_xmit z = ss_xmit x /\
    fins (slist (split_segment s1 x m)) = fins (slist s)) as (z & sent2 & Hk2 & Hi2 & Hp & Hz & Hfi).
  { destruct (Z.eq_dec m (ss_len x)) as [->|Hne].
    - exists x, sent. rewrite split_segment_keep by lia. split; [destruct Hk; constructor; psimpl; congruence|].
      rewrite (kp_slist _ _ Hk). done.
    - destruct (split_sent s1 x sent unsent m Hi1) as (Ha & _ & _ & Hd); [lia|].
      exists (with_len m x), (cut_rest x m (next_ptr s1) :: sent). split.
      { destruct Hk, Ha. constructor; repeat match goal with H : _ |- _ => progress psimpl_in H end; psimpl; congruence. }
      split; [done|]. split; [done|]. split; [done|]. rewrite (sv_list _ _ _ Hd). cbn [app].
      rewrite Ilist. apply (fins_cut [] x (sent ++ unsent)). lia. }
  clear Hi1 Hk. set (s2 := split_segment s1 x m) in *. clearbody s2. pose proof (sv_list _ _ _ Hi2) as Hl2.
  pose proof (sv_nodup _ _ _ Hi2) as Hnd2. rewrite Hl2 in Hnd2. cbn [app] in Hl2, Hnd2.
  rewrite <-Hp, (seg_at_split s2 [] z (sent2 ++ unsent) Hl2 Hnd2). cbn [mbind res_bind].
  destruct (Z.eqb_spec (ss_xmit z) 0); [lia|]. cbn [mbind res_bind].
  rewrite Hl2, (seg_set_split [] (sent2 ++ unsent) z Hnd2). cbn [app].
  assert (xmit_limit (state s) <= 30) by (unfold xmit_limit; case_bool_decide; lia).
  rewrite (u8_small (ss_xmit z + 1)) by lia.
  exists 0. eexists _, (with_xmit (ss_xmit z + 1) z), sent2. split; [reflexivity|].
  match goal with |- snd_inv ?t _ _ /\ _ => set (s3 := t) end.
  assert (H3 : framed s2 s3 /\ unsent_slist s3 = unsent_slist s2 /\ snd_nxt s3 = snd_nxt s2 /\ mss s3 = mss s2 /\
    msslevel s3 = msslevel s2 /\ next_ptr s3 = next_ptr s2 /\ rx_rto s3 = rx_rto s2 /\ state s3 = state s2 /\
    slist s3 = with_xmit (ss_xmit z + 1) z :: sent2 ++ unsent).
  { unfold s3. case_match; (split; [by constructor|]); done. }
  clearbody s3. destruct H3 as (Hf3 & Hu3 & Hn3 & Hm3 & Hlv3 & Hp3 & Hr3 & Hst3 & Hl3).
  assert (Hfi3 : fins (slist s3) = fins (slist s2)).
  { rewrite Hl3, Hl2. apply (fins_xmit [] z _ (sent2 ++ unsent)). }
  split; [eapply (mark_again s2); eauto; lia|].
  pose proof (kp_rto _ _ Hk2) as Hk3. pose proof (kp_state _ _ Hk2) as Hk4. pose proof (kp_callbacks _ _ Hk2) as Hk5.
  pose proof (kp_fin _ _ Hk2) as Hk6. psimpl_in Hk3. psimpl_in Hk4. psimpl_in Hk5. psimpl_in Hk6.
  rewrite Hfi3, Hfi, Hr3, Hst3, (fr_callbacks _ _ Hf3), (fr_fin _ _ Hf3).
  split; [lia|]. do 5 (split; [done|]). intros _. split; [lia|]. cbn. lia.
Qed.
(** ** Timeouts *)

(** An empty packet changes nothing that the timeouts depend on. *)
Lemma probe_packet s sent unsent seq now : snd_inv s sent unsent ->
  exists s', packet s seq 0 0 0 now = Ok (WR_SUCCESS, s') /\ kept s s' /\
    (forall sent unsent, snd_inv s sent unsent -> snd_inv s' sent unsent).
Proof.
  intros Hi. open_inv Hi.
  destruct (packet_spec s seq 0 0 0 now) as (r & s' & Hp & Hk & Hm & Hl & Hr & _); try done; try lia.
  rewrite Hr in Hp by done. exists s'. split; [done|]. split; [done|].
  intros ? ? Hi'. eapply inv_kept; [done|done|by rewrite Hm|by rewrite Hl].
Qed.

(** A segment was sent [k] times and the timer runs since [t]; in LAST-ACK and
    TIME-WAIT the clock does other things. *)
Record waiting s (t k : Z) : Prop := {
  wt_inv : exists x sent unsent, snd_inv s (x :: sent) unsent /\ ss_xmit x = k;
  wt_base : rto_base s = u32 t;
  wt_timer : u32 t <> 0;
  wt_rto : 0 <= rx_rto s <= MAX_RTO;
  wt_fins : fins (slist s) + 1 < 2 ^ 31;
  wt_state : state s <> PSEUDO_TCP_CLOSED /\ state s <> PSEUDO_TCP_TIME_WAIT /\ state s <> PSEUDO_TCP_LAST_ACK
}.

(** The connection has been given up and the application was told. *)
Definition given_up s s' : Prop :=
  state s' = PSEUDO_TCP_CLOSED /\
  (PseudoTcpClosed (callbacks s) = true -> exists err, err <> 0 /\ EvClosed err ∈ trace s').

Lemma closedown_gives_up s sent unsent err : snd_inv s sent unsent -> fins (slist s) + 1 < 2 ^ 31 -> err <> 0 ->
  exists s', closedown s err CLOSEDOWN_LOCAL = Ok s' /\ given_up s s'.
Proof.
  intros Hi Hf He. destruct (closedown_local_spec s sent unsent err Hi Hf) as (s' & ? & ? & -> & _ & Hst & _ & Hev).
  exists s'. split; [done|]. split; [done|]. intros Hcb. exists err. auto.
Qed.

Lemma timer_due a d b : 0 <= d <= 60000 -> 60000 <= b - a <= 2 ^ 30 -> time_diff (u32 (u32 a + d)) (u32 b) <= 0.
Proof.
  intros. rewrite time_diff_spec by apply u32_range. rewrite u32_add_l.
  destruct (s32_spec (u32 (a + d) - u32 b)) as [? [j Hj]]. destruct (u32_diff (a + d) b) as [k Hk]. lia.
Qed.

(** One retransmission. *)
Lemma clock_retransmit_step s t k t' :
  waiting s t k -> MAX_RTO <= t' - t <= 2 ^ 30 -> u32 t' <> 0 ->
  exists go s', clock_retransmit s (u32 t') = Ok (go, s') /\
    (if go : bool then k < xmit_limit (state s) /\ waiting s' t' (k + 1) /\ state s' = state s /\ callbacks s' = callbacks s
     else given_up s s').
Proof.
  intros Hw Ht Hnz. destruct Hw as [(x & sent & unsent & Hi & Hk) Hb Htm Hr Hf Hst]. unfold clock_retransmit.
  rewrite Hb. destruct (Z.eqb_spec (u32 t) 0); [done|]. cbn [negb andb].
  pose proof (timer_due t (rx_rto s) t' Hr Ht). destruct (Z.leb_spec (time_diff (u32 (u32 t + rx_rto s)) (u32 t')) 0); [|lia].
  rewrite (sv_list _ _ _ Hi). cbn [app]. rewrite zlen_cons, assert_ok_true.
  2: { apply negb_true_iff, Z.eqb_neq. pose proof (zlen_nonneg (sent ++ unsent)). lia. }
  cbn [mbind res_bind].
  destruct (transmit_again s x sent unsent (u32 t') Hi) as (st & s1 & y & sent1 & -> & Hi1 & Hst1 & Hf1 & Hr1 & Hs1 & Hc1 & Hfa1 & Hz).
  cbn [mbind res_bind]. destruct (Z.eqb_spec st 0) as [->|Hne]; cbn [negb].
  - destruct (Hz eq_refl) as [Hlim Hy]. do 2 eexists. split; [reflexivity|]. cbv beta iota.
    match goal with |- context [waiting ?t _ _] => set (s2 := t) end.
    assert (snd_inv s2 (y :: sent1) unsent /\ rto_base s2 = u32 t' /\ 0 <= rx_rto s2 <= MAX_RTO /\ slist s2 = slist s1 /\
      state s2 = state s1 /\ callbacks s2 = callbacks s1) as (Hi2 & Hb2 & Hr2 & Hl2 & Hs2 & Hc2).
    { assert (0 <= Z.min (if before_established (state s1) then DEF_RTO else MAX_RTO) (u32 (rx_rto s1 * 2)) <= MAX_RTO)
        by (pose proof (u32_range (rx_rto s1 * 2)); unfold DEF_RTO, MAX_RTO; case_match; lia).
      unfold s2. psimpl. destruct (3 <=? dup_acks s1); psimpl; (split; [destruct Hi1; by constructor|]); done. }
    clearbody s2. rewrite Hs2, Hc2, Hs1, Hc1. split; [by rewrite <-Hk|]. split; [|done].
    constructor; [exists y, sent1, unsent; split; [done|lia]|done|done|done|rewrite Hl2, Hf1; done|by rewrite Hs2, Hs1].
  - destruct (closedown_gives_up s1 (y :: sent1) unsent (u32 st) Hi1) as (s2 & -> & Hg); [lia|rewrite u32_small; lia|].
    cbn [mbind res_bind]. exists false, s2. split; [done|]. destruct Hg as [Hg1 Hg2]. split; [done|]. by rewrite <-Hc1.
Qed.
Lemma waiting_kept s s' t k : waiting s t k -> kept s s' -> (forall sent unsent, snd_inv s sent unsent -> snd_inv s' sent unsent) ->
  waiting s' t k.
Proof.
  intros [(x & sent & unsent & Hi & Hk) Hb Htm Hr Hf Hst] Hkp Hinv.
  constructor; rewrite ?(kp_base _ _ Hkp), ?(kp_rto _ _ Hkp), ?(kp_slist _ _ Hkp), ?(kp_state _ _ Hkp); try done.
  exists x, sent, unsent. auto.
Qed.

(** A window probe, if one is due. *)
Lemma clock_probe_step s t k now : waiting s t k ->
  exists go s', clock_probe s now = Ok (go, s') /\
    (if go : bool then waiting s' t k /\ state s' = state s /\ callbacks s' = callbacks s else given_up s s').
Proof.
  intros Hw. pose proof Hw as [(x & sent & unsent & Hi & Hk) Hb Htm Hr Hf Hst]. unfold clock_probe.
  destruct (_ && _); [|by exists true, s].
  destruct (15000 <=? time_diff now (lastrecv s)).
  - destruct (closedown_gives_up s _ _ ECONNABORTED Hi Hf) as (s1 & -> & Hg); [done|]. by exists false, s1.
  - destruct (probe_packet s _ _ (u32 (snd_nxt s - 1)) now Hi) as (s1 & -> & Hk1 & Hi1). cbn [mbind res_bind].
    do 2 eexists. split; [reflexivity|]. cbv beta iota. psimpl. rewrite (kp_state _ _ Hk1), (kp_callbacks _ _ Hk1).
    split; [|done]. pose proof (u32_range (rx_rto s1 * 2)). constructor; psimpl.
    + exists x, sent, unsent. split; [destruct (Hi1 _ _ Hi); by constructor|done].
    + by rewrite (kp_base _ _ Hk1).
    + done.
    + unfold MAX_RTO. lia.
    + by rewrite (kp_slist _ _ Hk1).
    + by rewrite (kp_state _ _ Hk1).
Qed.

(** A clock notification at time [t']. *)
Definition clock_at (t : Z) : list ptcp_op := [OpSetTime (u32 t); OpNotifyClock].

Lemma clock_step s t k t' :
  waiting s t k -> MAX_RTO <= t' - t <= 2 ^ 30 -> u32 t' <> 0 ->
  exists s', ptcp_run s (clock_at t') = Ok s' /\
    (given_up s s' \/
     k < xmit_limit (state s) /\ waiting s' t' (k + 1) /\ state s' = state s /\ callbacks s' = callbacks s).
Proof.
  intros Hw Ht Hnz. unfold clock_at. cbn [ptcp_run ptcp_do mbind res_bind].
  unfold pseudo_tcp_socket_set_time. set (s0 := s <| current_time := u32 t' |>).
  assert (Hw0 : waiting s0 t k).
  { destruct Hw as [(x & sent & unsent & Hi & Hk) ?????]. constructor; try done. exists x, sent, unsent. split; [|done].
    destruct Hi; by constructor. }
  change (state s) with (state s0). change (callbacks s) with (callbacks s0).
  assert (Hg : forall s', given_up s0 s' -> given_up s s') by done.
  unfold pseudo_tcp_socket_notify_clock, get_current_time. change (current_time s0) with (u32 t').
  destruct (Z.eqb_spec (u32 t') 0); [done|]. cbn [negb]. clearbody s0. destruct (wt_state _ _ _ Hw0) as (Hx1 & Hx2 & Hx3).
  rewrite !bool_decide_eq_false_2 by done. rewrite !andb_false_r. cbn [mbind res_bind].
  rewrite bool_decide_eq_false_2, andb_false_r by done. cbn [mbind res_bind].
  destruct (clock_retransmit_step s0 t k t' Hw0 Ht Hnz) as (go & s1 & -> & H1). cbn [mbind res_bind].
  destruct go; cbn [negb]; [|exists s1; split; [done|left; by apply Hg]].
  destruct H1 as (Hlim & Hw1 & Hs1 & Hc1).
  destruct (clock_probe_step s1 t' (k + 1) (u32 t') Hw1) as (go & s2 & -> & H2). cbn [mbind res_bind].
  destruct go; cbn [negb].
  2: { exists s2. split; [done|]. left. apply Hg. destruct H2 as [H2 H3]. split; [done|]. by rewrite <-Hc1. }
  destruct H2 as (Hw2 & Hs2 & Hc2). rewrite <-Hs1, <-Hc1, <-Hs2, <-Hc2. rewrite <-Hs1 in Hlim. rewrite Hs2 in *.
  destruct (negb _ && _); [|exists s2; split; [done|right; done]].
  destruct (wt_inv _ _ _ Hw2) as (x & sent & unsent & Hi & Hk).
  destruct (probe_packet s2 _ _ (snd_nxt s2) (u32 t') Hi) as (s3 & -> & Hk3 & Hi3). cbn [mbind res_bind].
  exists s3. split; [done|]. right. rewrite (kp_state _ _ Hk3), (kp_callbacks _ _ Hk3). split; [done|]. split; [|done].
  eapply waiting_kept; [exact Hw2|exact Hk3|exact Hi3].
Qed.
(** Clock notifications at least the longest retransmission timeout apart. *)
Fixpoint spaced (t : Z) (ts : list Z) : Prop :=
  match ts with
  | [] => True
  | u :: ts => MAX_RTO <= u - t <= 2 ^ 30 /\ u32 u <> 0 /\ spaced u ts
  end.

Lemma ptcp_run_app s ops ops' : ptcp_run s (ops ++ ops') = (s ← ptcp_run s ops; ptcp_run s ops').
Proof.
  revert s. induction ops as [|op ops IH]; intros s; cbn [app ptcp_run]; [done|].
  destruct (ptcp_do s op); cbn [mbind res_bind]; [apply IH|done].
Qed.

(** The clock does nothing to a closed socket. *)
Lemma closed_clocks s t ts : state s = PSEUDO_TCP_CLOSED -> spaced t ts ->
  exists s', ptcp_run s (flat_map clock_at ts) = Ok s' /\ state s' = PSEUDO_TCP_CLOSED /\ trace s' = trace s.
Proof.
  revert s t. induction ts as [|u ts IH]; intros s t Hs Hsp; [by exists s|]. destruct Hsp as (_ & Hu & Hsp).
  cbn [flat_map]. rewrite ptcp_run_app. change (clock_at u) with [OpSetTime (u32 u); OpNotifyClock]. cbn [ptcp_run ptcp_do mbind res_bind].
  unfold pseudo_tcp_socket_notify_clock, pseudo_tcp_socket_set_time, get_current_time. psimpl.
  destruct (Z.eqb_spec (u32 u) 0); [done|]. cbn [negb]. psimpl. rewrite Hs, bool_decide_eq_true_2 by done.
  cbn [mbind res_bind].
  set (s1 := s <| current_time := u32 u |>). by apply (IH s1 u).
Qed.

(** C24: a peer that stays silent is given up.  When the oldest segment has
    been sent [k] times and the retransmission timer runs, then after at most
    15 timeouts on an established connection (30 while it is being opened or
    closed) the connection is closed and the application is told, whatever
    the results of [WritePacket]; none of the clock notifications fails. *)
Theorem silent_peer_given_up s t k ts :
  waiting s t k -> spaced t ts -> Z.max 1 (xmit_limit (state s) - k + 1) <= zlen ts ->
  exists s', ptcp_run s (flat_map clock_at ts) = Ok s' /\ given_up s s'.
Proof.
  revert s t k. induction ts as [|u ts IH]; intros s t k Hw Hsp Hn; [change (zlen (@nil Z)) with 0 in Hn; lia|].
  destruct Hsp as (Hu & Hnz & Hsp). rewrite zlen_cons in Hn. cbn [flat_map]. rewrite ptcp_run_app.
  destruct (clock_step s t k u Hw Hu Hnz) as (s1 & -> & [Hg|(Hlim & Hw1 & Hs1 & Hc1)]); cbn [mbind res_bind].
  - destruct (closed_clocks s1 u ts (proj1 Hg) Hsp) as (s2 & -> & Hs2 & Ht2). exists s2. split; [done|].
    split; [done|]. rewrite Ht2. apply Hg.
  - destruct (IH s1 u (k + 1) Hw1 Hsp) as (s2 & -> & Hg2); [rewrite Hs1; lia|]. exists s2. split; [done|].
    destruct Hg2 as [Hg2 Hg3]. split; [done|]. by rewrite <-Hc1.
Qed.
End timeout.

(** ** Example *)

Lemma snd_inv_rto_base s d q v : snd_inv s d q -> snd_inv (s <| rto_base := v |>) d q.
Proof. intros []. by constructor. Qed.

Lemma ex_waiting : waiting (ex_sending <| rto_base := 1000 |>) 1000 1.
Proof.
  constructor; psimpl.
  - exists (mkSSegment 1 9 3 1 0), [], []. split; [apply snd_inv_rto_base, ex_sending_inv|reflexivity].
  - reflexivity.
  - discriminate.
  - unfold ex_sending, ex_socket. psimpl. cbn [rx_rto pseudo_tcp_socket_new pseudo_tcp_socket_init]. vm_compute. split; discriminate.
  - unfold ex_sending. psimpl. reflexivity.
  - unfold ex_sending, ex_socket. psimpl. repeat split; discriminate.
Qed.

Definition ex_times : list Z := map (fun i => 1000 + 60000 * Z.of_nat i) (seq 1 15).

Lemma silent_peer_given_up_witness :
  exists s', ptcp_run (E := ex_env) (ex_sending <| rto_base := 1000 |>) (flat_map clock_at ex_times) = Ok s' /\
    given_up (ex_sending <| rto_base := 1000 |>) s'.
Proof.
  apply (silent_peer_given_up (E := ex_env) _ 1000 1 ex_times).
  - apply ex_waiting.
  - vm_compute. repeat split; discriminate.
  - vm_compute. discriminate.
Defined.
