(* ===== verification/Address.v ===== *)
(** * IP addresses (agent/address.c, address.h) and the list of local addresses (agent/interfaces.c)

    [NiceAddress] is a union of the [sockaddr] structures, which are the
    constructors of [sockaddr]; the integers are in memory order.  What the C
    library and the kernel answer ([inet_ntop], [getnameinfo],
    [getaddrinfo], [getifaddrs], [if_nametoindex]) is the class [NetEnv].
    Strings are lists of bytes without the terminating zero. *)
From S2P Require Import Prelude CMem StunTypes.

Definition NiceAddress : Set := sockaddr.

#[global] Instance sockaddr_eq_dec : EqDecision sockaddr.
Proof. solve_decision. Defined.

(** An entry of the list [getifaddrs] returns. *)
Record ifaddrs : Set := mkIfaddrs {
  ifa_name : option (list Z);
  ifa_flags : Z;
  ifa_addr : option sockaddr
}.

Class NetEnv := {
  inet_ntop : sockaddr -> list Z;
  getaddrinfo : list Z -> option sockaddr;
  getnameinfo : sockaddr -> option (list Z);
  getifaddrs : list ifaddrs;
  if_nametoindex : list Z -> Z;
  ignored_iface_prefix_list : list (list Z)
}.

(** ** Operations on addresses *)

Definition AF_UNSPEC : Z := 0.
Definition nice_address_init : NiceAddress := sockaddr_other AF_UNSPEC.
Definition nice_address_new : NiceAddress := nice_address_init.

Definition nice_address_set_ipv4 (addr : NiceAddress) (addr_ipv4 : Z) : NiceAddress :=
  sockaddr_in 0 (if negb (addr_ipv4 =? 0) then htonl addr_ipv4 else 0).

(** [sin6_flowinfo] keeps what the union held; for an address that was not
    IPv6 before it is whatever the bytes were, here zero. *)
Definition nice_address_set_ipv6 (addr : NiceAddress) (addr_ipv6 : list Z) : NiceAddress :=
  sockaddr_in6 0 (match addr with sockaddr_in6 _ f _ _ => f | _ => 0 end) (take 16 addr_ipv6) 0.

Definition nice_address_set_port (addr : NiceAddress) (port : Z) : NiceAddress :=
  match addr with
  | sockaddr_in _ a => sockaddr_in (htons port) a
  | sockaddr_in6 _ f a s => sockaddr_in6 (htons port) f a s
  | sockaddr_other _ => addr
  end.

Definition nice_address_get_port (addr : NiceAddress) : Z :=
  match addr with
  | sockaddr_in p _ => ntohs p
  | sockaddr_in6 p _ _ _ => ntohs p
  | sockaddr_other _ => 0
  end.

(** Another family leaves the address as it is. *)
Definition nice_address_set_from_sockaddr (addr : NiceAddress) (sa : sockaddr) : NiceAddress :=
  match sa with
  | sockaddr_other _ => addr
  | _ => sa
  end.

Definition nice_address_copy_to_sockaddr (addr : NiceAddress) (sa : sockaddr) : sockaddr :=
  match addr with
  | sockaddr_other _ => sa
  | _ => addr
  end.

Definition nice_address_equal (a b : NiceAddress) : bool :=
  match a, b with
  | sockaddr_in p a, sockaddr_in q b => (a =? b) && (p =? q)
  | sockaddr_in6 p _ a s, sockaddr_in6 q _ b t =>
      bool_decide (a = b) && (p =? q) && ((s =? 0) || (t =? 0) || (s =? t))
  | _, _ => false
  end.

Definition nice_address_equal_no_port (a b : NiceAddress) : bool :=
  match a, b with
  | sockaddr_in _ a, sockaddr_in _ b => a =? b
  | sockaddr_in6 _ _ a s, sockaddr_in6 _ _ b t => bool_decide (a = b) && ((s =? 0) || (t =? 0) || (s =? t))
  | _, _ => false
  end.

Definition nice_address_dup (a : NiceAddress) : NiceAddress := a.

Definition ipv4_address_is_private (a : Z) : bool :=
  let addr := ntohl a in
  (Z.land addr 0xff000000 =? 0x0a000000) || (Z.land addr 0xfff00000 =? 0xac100000) ||
  (Z.land addr 0xffff0000 =? 0xc0a80000) || (Z.land addr 0xffff0000 =? 0xa9fe0000) ||
  (Z.land addr 0xff000000 =? 0x7f000000).

Definition ipv6_address_is_private (addr : list Z) : res bool :=
  a0 ← rd addr 0;
  if a0 =? 0xfe then
    a1 ← rd addr 1;
    Ok (if Z.land a1 0xc0 =? 0x80 then true
        else (a0 =? 0xfd) || (Z.land a0 0xfe =? 0xfc) || bool_decide (take 16 addr = replicate 15 0 ++ [1]))
  else Ok ((a0 =? 0xfd) || (Z.land a0 0xfe =? 0xfc) || bool_decide (take 16 addr = replicate 15 0 ++ [1])).

Definition nice_address_is_private (a : NiceAddress) : res bool :=
  match a with
  | sockaddr_in _ a => Ok (ipv4_address_is_private a)
  | sockaddr_in6 _ _ a _ => ipv6_address_is_private a
  | sockaddr_other _ => Ok false
  end.

Definition ipv4_address_is_linklocal (a : Z) : bool := Z.land (ntohl a) 0xffff0000 =? 0xa9fe0000.

Definition ipv6_address_is_linklocal (addr : list Z) : res bool :=
  a0 ← rd addr 0;
  if a0 =? 0xfe then a1 ← rd addr 1; Ok (Z.land a1 0xc0 =? 0x80) else Ok false.

Definition nice_address_is_linklocal (a : NiceAddress) : res bool :=
  match a with
  | sockaddr_in _ a => Ok (ipv4_address_is_linklocal a)
  | sockaddr_in6 _ _ a _ => ipv6_address_is_linklocal a
  | sockaddr_other _ => Ok false
  end.

Definition nice_address_is_valid (a : NiceAddress) : bool :=
  match a with sockaddr_other _ => false | _ => true end.

Definition nice_address_ip_version (a : NiceAddress) : Z :=
  match a with sockaddr_in _ _ => 4 | sockaddr_in6 _ _ _ _ => 6 | sockaddr_other _ => 0 end.

(** [a->s.addr.sa_family == b->s.addr.sa_family] as other files test it. *)
Definition same_family (a b : NiceAddress) : bool :=
  match a, b with
  | sockaddr_in _ _, sockaddr_in _ _ | sockaddr_in6 _ _ _ _, sockaddr_in6 _ _ _ _ => true
  | sockaddr_other f, sockaddr_other g => f =? g
  | _, _ => false
  end.

Section text.
Context {N : NetEnv}.

(** The string written to [dst], or what it held before. *)
Definition nice_address_to_string (addr : NiceAddress) (dst : list Z) : list Z :=
  match addr with
  | sockaddr_other _ => dst
  | _ => inet_ntop addr
  end.

Definition nice_address_dup_string (addr : NiceAddress) : list Z := nice_address_to_string addr [].

Definition nice_address_set_from_string (addr : NiceAddress) (str : list Z) : bool * NiceAddress :=
  match getaddrinfo str with
  | None => (false, addr)
  | Some sa => (true, nice_address_set_from_sockaddr addr sa)
  end.

(** ** The local addresses (interfaces.c, with getifaddrs) *)

Definition IFF_UP : Z := 0x1.
Definition IFF_LOOPBACK : Z := 0x8.
Definition IFF_RUNNING : Z := 0x40.

Definition sockaddr_to_string (addr : sockaddr) : option (list Z) :=
  match addr with
  | sockaddr_other _ => None
  | _ => getnameinfo addr
  end.

Definition nice_interfaces_is_private_ip (sa : sockaddr) : res bool :=
  nice_address_is_private (nice_address_set_from_sockaddr nice_address_init sa).

Definition add_ip_to_list (l : list (list Z)) (ip : list Z) (append : bool) : list (list Z) :=
  if bool_decide (ip ∈ l) then l else if append then l ++ [ip] else ip :: l.

(** [g_str_has_prefix]. *)
Definition str_has_prefix (s p : list Z) : bool := bool_decide (take (length p) s = p).

(** One interface of the loop: the addresses and the loopback addresses. *)
Definition add_interface (include_loopback : bool) (ifa : ifaddrs) (acc : list (list Z) * list (list Z))
    : res (list (list Z) * list (list Z)) :=
  let '(ips, loopbacks) := acc in
  if negb (flag (ifa_flags ifa) IFF_UP) then Ok acc
  else if negb (flag (ifa_flags ifa) IFF_RUNNING) then Ok acc
  else
    match ifa_addr ifa with
    | None => Ok acc
    | Some sa =>
        if negb (nice_address_is_valid sa) then Ok acc
        else
          match sockaddr_to_string sa with
          | None => Ok acc
          | Some addr_string =>
              if flag (ifa_flags ifa) IFF_LOOPBACK then
                Ok (ips, if include_loopback then add_ip_to_list loopbacks addr_string true else loopbacks)
              else
                match ifa_name ifa with
                | None => Fault OutOfBounds
                | Some name =>
                    if existsb (str_has_prefix name) ignored_iface_prefix_list then Ok acc
                    else
                      private ← nice_interfaces_is_private_ip sa;
                      Ok (add_ip_to_list ips addr_string private, loopbacks)
                end
          end
    end.

Fixpoint interfaces_loop (include_loopback : bool) (l : list ifaddrs) (acc : list (list Z) * list (list Z))
    : res (list (list Z) * list (list Z)) :=
  match l with
  | [] => Ok acc
  | ifa :: l => acc ← add_interface include_loopback ifa acc; interfaces_loop include_loopback l acc
  end.

Definition nice_interfaces_get_local_ips (include_loopback : bool) : res (list (list Z)) :=
  '(ips, loopbacks) ← interfaces_loop include_loopback getifaddrs ([], []);
  Ok (ips ++ loopbacks).

Fixpoint if_index_loop (l : list ifaddrs) (addr : NiceAddress) (if_index : Z) : Z :=
  match l with
  | [] => if_index
  | ifa :: l =>
      if negb (flag (ifa_flags ifa) IFF_UP) then if_index_loop l addr if_index
      else if negb (flag (ifa_flags ifa) IFF_RUNNING) then if_index_loop l addr if_index
      else
        match ifa_addr ifa, ifa_name ifa with
        | Some sa, Some name =>
            if negb (nice_address_equal_no_port sa addr) then if_index_loop l addr if_index
            else
              let if_index := if_nametoindex name in
              if negb (if_index =? 0) then if_index else if_index_loop l addr if_index
        | _, _ => if_index_loop l addr if_index
        end
  end.

Definition nice_interfaces_get_if_index_by_addr (addr : NiceAddress) : Z := if_index_loop getifaddrs addr 0.
End text.

(** ** Which addresses are private *)

Lemma mask_high v n k : 0 <= n -> 0 <= k -> 0 <= v < 2 ^ (n + k) ->
  Z.land v (Z.shiftl (Z.ones k) n) = (v / 2 ^ n) * 2 ^ n.
Proof.
  intros Hn Hk Hv. rewrite <-Z.shiftl_mul_pow2, <-Z.shiftr_div_pow2 by done. apply Z.bits_inj'. intros i Hi.
  rewrite Z.land_spec, !Z.shiftl_spec by done. destruct (Z.ltb_spec i n).
  - rewrite (Z.testbit_neg_r (Z.ones k)), (Z.testbit_neg_r (Z.shiftr v n)) by lia. by rewrite andb_false_r.
  - rewrite Z.shiftr_spec by lia. replace (i - n + n) with i by lia. destruct (Z.ltb_spec (i - n) k).
    + rewrite Z.ones_spec_low by lia. by rewrite andb_true_r.
    + rewrite Z.ones_spec_high by lia. rewrite andb_false_r. symmetry.
      destruct (Z.eq_dec v 0) as [->|]; [apply Z.bits_0|]. apply Z.bits_above_log2; [lia|].
      assert (Z.log2 v < n + k) by (apply Z.log2_lt_pow2; lia). lia.
Qed.

Lemma mask_test v n k x : 0 <= n -> 0 <= k -> 0 <= v < 2 ^ (n + k) ->
  (Z.land v (Z.shiftl (Z.ones k) n) =? x * 2 ^ n) = (v / 2 ^ n =? x).
Proof.
  intros. rewrite mask_high by done. pose proof (Z.pow_pos_nonneg 2 n ltac:(lia) ltac:(done)).
  destruct (Z.eqb_spec (v / 2 ^ n) x) as [->|]; [by rewrite Z.eqb_refl|]. apply Z.eqb_neq. nia.
Qed.

(** The host-order value of a dotted address. *)
Definition dotted (a b c d : Z) : Z := a * 2 ^ 24 + b * 2 ^ 16 + c * 2 ^ 8 + d.

(** Byte order twice is nothing. *)
Lemma ntohl_htonl x : 0 <= x < 2 ^ 32 -> ntohl (htonl x) = x.
Proof.
  intros Hx. assert (Hr : 0 <= htonl x < 256 ^ 4).
  { unfold htonl. rewrite bswap32_arith. unfold u32. Z.to_euclidean_division_equations; lia. }
  rewrite <-(Z.mod_small _ _ Hr). change 4 with (Z.of_nat 4). rewrite <-le_value_bytes, le_bytes_htonl.
  pose proof (bytes_be_bytes 4 x) as Hb. pose proof (be_value_bytes 4 x) as Hv.
  rewrite Z.mod_small in Hv by (change (256 ^ Z.of_nat 4) with (2 ^ 32); lia).
  assert (length (be_bytes 4 x) = 4%nat) as Hl by (unfold be_bytes; rewrite length_rev; apply length_le_bytes).
  destruct (be_bytes 4 x) as [|b0 [|b1 [|b2 [|b3 [|]]]]]; try discriminate Hl.
  unfold bytes in Hb. rewrite !list.Forall_cons in Hb. destruct Hb as (? & ? & ? & ? & _).
  rewrite ntohl_le_value by done. exact Hv.
Qed.

(** [nice_address_is_private] recognises exactly the IPv4 blocks its
    comments name: 10/8, 172.16/12, 192.168/16, 169.254/16 and 127/8. *)
Theorem private_ipv4_blocks x a b c d :
  0 <= a < 256 -> 0 <= b < 256 -> 0 <= c < 256 -> 0 <= d < 256 ->
  nice_address_is_private (nice_address_set_ipv4 x (dotted a b c d)) =
  Ok ((a =? 10) || ((a =? 172) && (16 <=? b) && (b <=? 31)) || ((a =? 192) && (b =? 168)) ||
      ((a =? 169) && (b =? 254)) || (a =? 127)).
Proof.
  intros Ha Hb Hc Hd. set (v := dotted a b c d). assert (Hv : 0 <= v < 2 ^ 32) by (unfold v, dotted; lia).
  assert (H24 : v / 2 ^ 24 = a) by (unfold v, dotted; Z.to_euclidean_division_equations; lia).
  assert (H20 : v / 2 ^ 20 = a * 16 + b / 16) by (unfold v, dotted; Z.to_euclidean_division_equations; lia).
  assert (H16 : v / 2 ^ 16 = a * 256 + b) by (unfold v, dotted; Z.to_euclidean_division_equations; lia).
  unfold nice_address_set_ipv4.
  assert ((if negb (v =? 0) then htonl v else 0) = htonl v) as -> by (by destruct (Z.eqb_spec v 0) as [->|]).
  cbn [nice_address_is_private]. f_equal. unfold ipv4_address_is_private. rewrite ntohl_htonl by done. cbv zeta.
  clearbody v. change 0xff000000 with (Z.shiftl (Z.ones 8) 24). change 0xfff00000 with (Z.shiftl (Z.ones 12) 20).
  change 0xffff0000 with (Z.shiftl (Z.ones 16) 16). change 0x0a000000 with (10 * 2 ^ 24).
  change 0xac100000 with (0xac1 * 2 ^ 20). change 0xc0a80000 with (0xc0a8 * 2 ^ 16).
  change 0xa9fe0000 with (0xa9fe * 2 ^ 16). change 0x7f000000 with (0x7f * 2 ^ 24).
  rewrite !mask_test by (done || lia).
  rewrite H24, H20, H16. clear H24 H20 H16.
  apply eq_true_iff_eq. rewrite !orb_true_iff, !andb_true_iff, !Z.eqb_eq, !Z.leb_le.
  assert (a * 16 + b / 16 = 0xac1 <-> (a = 172 /\ 16 <= b) /\ b <= 31) by (Z.to_euclidean_division_equations; lia).
  assert (a * 256 + b = 0xc0a8 <-> a = 192 /\ b = 168) by lia.
  assert (a * 256 + b = 0xa9fe <-> a = 169 /\ b = 254) by lia. tauto.
Qed.

Lemma private_ipv4_blocks_witness :
  nice_address_is_private (nice_address_set_ipv4 nice_address_init (dotted 172 20 0 1)) = Ok true /\
  nice_address_is_private (nice_address_set_ipv4 nice_address_init (dotted 172 32 0 1)) = Ok false.
Proof.
  split; [apply (private_ipv4_blocks nice_address_init 172 20 0 1)|apply (private_ipv4_blocks nice_address_init 172 32 0 1)]; lia.
Defined.
