(* ===== verification/Candidate.v ===== *)
(** * ICE candidates and their priorities (agent/candidate.c, candidate.h, candidate-priv.h)

    A candidate is the struct [NiceCandidateImpl] with the address it lies at
    ([c_ptr]): the code compares candidates by address.  [agent.c]'s
    [agent_candidate_pair_priority] is here too. *)
From S2P Require Import Prelude CMem StunTypes Address.

(** ** Types *)

Inductive NiceCandidateType : Set :=
  | NICE_CANDIDATE_TYPE_HOST
  | NICE_CANDIDATE_TYPE_SERVER_REFLEXIVE
  | NICE_CANDIDATE_TYPE_PEER_REFLEXIVE
  | NICE_CANDIDATE_TYPE_RELAYED.

Inductive NiceCandidateTransport : Set :=
  | NICE_CANDIDATE_TRANSPORT_UDP
  | NICE_CANDIDATE_TRANSPORT_TCP_ACTIVE
  | NICE_CANDIDATE_TRANSPORT_TCP_PASSIVE
  | NICE_CANDIDATE_TRANSPORT_TCP_SO.

Inductive NiceRelayType : Set := NICE_RELAY_TYPE_TURN_UDP | NICE_RELAY_TYPE_TURN_TCP | NICE_RELAY_TYPE_TURN_TLS.

#[global] Instance NiceCandidateType_eq_dec : EqDecision NiceCandidateType.
Proof. solve_decision. Defined.
#[global] Instance NiceCandidateTransport_eq_dec : EqDecision NiceCandidateTransport.
Proof. solve_decision. Defined.
#[global] Instance NiceRelayType_eq_dec : EqDecision NiceRelayType.
Proof. solve_decision. Defined.

Definition NICE_CANDIDATE_MAX_FOUNDATION : Z := 32 + 1.
Definition NICE_CANDIDATE_MAX_TURN_SERVERS : Z := 8.
Definition NICE_CANDIDATE_MAX_LOCAL_ADDRESSES : Z := 64.
Definition NICE_CANDIDATE_TYPE_PREF_HOST : Z := 120.
Definition NICE_CANDIDATE_TYPE_PREF_PEER_REFLEXIVE : Z := 110.
Definition NICE_CANDIDATE_TYPE_PREF_NAT_ASSISTED : Z := 105.
Definition NICE_CANDIDATE_TYPE_PREF_SERVER_REFLEXIVE : Z := 100.
Definition NICE_CANDIDATE_TYPE_PREF_RELAYED_UDP : Z := 30.
Definition NICE_CANDIDATE_TYPE_PREF_RELAYED : Z := 20.
Definition NICE_CANDIDATE_TRANSPORT_MS_PREF_UDP : Z := 15.
Definition NICE_CANDIDATE_TRANSPORT_MS_PREF_TCP : Z := 6.
Definition NICE_CANDIDATE_DIRECTION_MS_PREF_PASSIVE : Z := 2.
Definition NICE_CANDIDATE_DIRECTION_MS_PREF_ACTIVE : Z := 5.

Record TurnServer : Set := mkTurnServer {
  ts_ptr : Z;
  ts_server : NiceAddress;
  ts_server_address : option (list Z);
  ts_server_port : Z;
  ts_username : list Z;
  ts_password : list Z;
  ts_type : NiceRelayType;
  ts_preference : Z;
  ts_resolution_failed : bool
}.

Record NiceCandidate : Set := mkCandidate {
  c_ptr : Z;
  c_type : NiceCandidateType;
  c_transport : NiceCandidateTransport;
  c_addr : NiceAddress;
  c_base_addr : NiceAddress;
  c_priority : Z;
  c_stream_id : Z;
  c_component_id : Z;
  c_foundation : list Z;
  c_username : option (list Z);
  c_password : option (list Z);
  c_turn : option TurnServer;
  c_sockptr : option Z;
  c_keepalive_next_tick : Z;
  c_stun_server : option NiceAddress
}.

(** ** Creation and comparison *)

(** A zeroed struct at a fresh address. *)
Definition nice_candidate_new (p : Z) (type : NiceCandidateType) : NiceCandidate :=
  mkCandidate p type NICE_CANDIDATE_TRANSPORT_UDP (sockaddr_other 0) (sockaddr_other 0) 0 0 0 [] None None None None 0 None.

Definition nice_candidate_copy (p : Z) (c : NiceCandidate) : NiceCandidate :=
  mkCandidate p (c_type c) (c_transport c) (c_addr c) (c_base_addr c) (c_priority c) (c_stream_id c)
    (c_component_id c) (c_foundation c) (c_username c) (c_password c) None (c_sockptr c) (c_keepalive_next_tick c)
    (nice_address_dup <$> c_stun_server c).

Definition nice_candidate_equal_target (candidate1 candidate2 : NiceCandidate) : bool :=
  bool_decide (c_transport candidate1 = c_transport candidate2) && nice_address_equal (c_addr candidate1) (c_addr candidate2).

Definition nice_candidate_relay_address (c : NiceCandidate) (addr : NiceAddress) : res NiceAddress :=
  match c_type c with
  | NICE_CANDIDATE_TYPE_RELAYED =>
      match c_turn c with Some t => Ok (ts_server t) | None => Fault OutOfBounds end
  | _ => Ok addr
  end.

Definition nice_candidate_stun_server_address (c : NiceCandidate) (addr : NiceAddress) : bool * NiceAddress :=
  match c_type c, c_stun_server c with
  | NICE_CANDIDATE_TYPE_SERVER_REFLEXIVE, Some a => (true, a)
  | _, _ => (false, addr)
  end.

(** ** Priorities *)

Definition nice_candidate_jingle_priority (c : NiceCandidate) : Z :=
  match c_type c with
  | NICE_CANDIDATE_TYPE_HOST => 1000
  | NICE_CANDIDATE_TYPE_SERVER_REFLEXIVE => 900
  | NICE_CANDIDATE_TYPE_PEER_REFLEXIVE => 900
  | NICE_CANDIDATE_TYPE_RELAYED => 500
  end.

Definition nice_candidate_msn_priority (c : NiceCandidate) : Z :=
  match c_type c with
  | NICE_CANDIDATE_TYPE_HOST => 830
  | NICE_CANDIDATE_TYPE_SERVER_REFLEXIVE => 550
  | NICE_CANDIDATE_TYPE_PEER_REFLEXIVE => 550
  | NICE_CANDIDATE_TYPE_RELAYED => 450
  end.

Definition nice_candidate_ice_priority_full (type_preference local_preference component_id : Z) : Z :=
  u32 (0x1000000 * type_preference + 0x100 * local_preference + (0x100 - component_id)).

Definition nice_candidate_ice_local_preference_full (direction_preference turn_preference other_preference : Z) : res Z :=
  _ ← assert_ok (other_preference <? NICE_CANDIDATE_MAX_LOCAL_ADDRESSES);
  _ ← assert_ok (turn_preference <? NICE_CANDIDATE_MAX_TURN_SERVERS);
  _ ← assert_ok (direction_preference <? 8);
  Ok (u16 (Z.shiftl direction_preference 13 + Z.shiftl turn_preference 6 + other_preference)).

Definition nice_candidate_ms_ice_local_preference_full
    (transport_preference direction_preference turn_preference other_preference : Z) : res Z :=
  _ ← assert_ok (other_preference <? NICE_CANDIDATE_MAX_LOCAL_ADDRESSES);
  _ ← assert_ok (turn_preference <? NICE_CANDIDATE_MAX_TURN_SERVERS);
  _ ← assert_ok (direction_preference <? 8);
  _ ← assert_ok (transport_preference <? 16);
  Ok (u16 (Z.shiftl transport_preference 12 + Z.shiftl direction_preference 9 + Z.shiftl turn_preference 6
           + other_preference)).

(** [g_strsplit (s, "%", 2)\[0\]]: the part before the scope. *)
Fixpoint before_scope (s : list Z) : list Z :=
  match s with
  | [] => []
  | c :: s => if c =? 37 then [] else c :: before_scope s
  end.

(** The loop over the local addresses: the position of the first match. *)
Fixpoint ip_position (ips : list (list Z)) (ip : list Z) (preference : Z) : Z :=
  match ips with
  | [] => preference
  | x :: ips => if bool_decide (ip = before_scope x) then preference else ip_position ips ip (preference + 1)
  end.

Section priorities.
Context {N : NetEnv}.

Definition nice_candidate_ip_local_preference (c : NiceCandidate) : res Z :=
  let ip_string :=
    match c_type c with
    | NICE_CANDIDATE_TYPE_HOST => nice_address_to_string (c_addr c) []
    | _ => nice_address_to_string (c_base_addr c) []
    end in
  ips ← nice_interfaces_get_local_ips true;
  Ok (ip_position ips ip_string 0).

(** The TURN server's preference of a relayed candidate. *)
Definition turn_preference_of (c : NiceCandidate) : res Z :=
  match c_type c, c_turn c with
  | NICE_CANDIDATE_TYPE_RELAYED, Some t => Ok (ts_preference t)
  | NICE_CANDIDATE_TYPE_RELAYED, None => Fault AssertFailed
  | _, _ => Ok 0
  end.

Definition direction_preference_of (c : NiceCandidate) : Z :=
  let near := bool_decide (c_type c = NICE_CANDIDATE_TYPE_SERVER_REFLEXIVE) ||
              bool_decide (c_type c = NICE_CANDIDATE_TYPE_HOST) in
  match c_transport c with
  | NICE_CANDIDATE_TRANSPORT_TCP_ACTIVE => if near then 4 else 6
  | NICE_CANDIDATE_TRANSPORT_TCP_PASSIVE => if near then 2 else 4
  | NICE_CANDIDATE_TRANSPORT_TCP_SO => if near then 6 else 2
  | NICE_CANDIDATE_TRANSPORT_UDP => 1
  end.

Definition nice_candidate_ice_local_preference (c : NiceCandidate) : res Z :=
  turn_preference ← turn_preference_of c;
  other ← nice_candidate_ip_local_preference c;
  nice_candidate_ice_local_preference_full (direction_preference_of c) turn_preference other.

Definition ms_preferences_of (c : NiceCandidate) : Z * Z :=
  match c_transport c with
  | NICE_CANDIDATE_TRANSPORT_TCP_SO | NICE_CANDIDATE_TRANSPORT_TCP_ACTIVE =>
      (NICE_CANDIDATE_TRANSPORT_MS_PREF_TCP, NICE_CANDIDATE_DIRECTION_MS_PREF_ACTIVE)
  | NICE_CANDIDATE_TRANSPORT_TCP_PASSIVE =>
      (NICE_CANDIDATE_TRANSPORT_MS_PREF_TCP, NICE_CANDIDATE_DIRECTION_MS_PREF_PASSIVE)
  | NICE_CANDIDATE_TRANSPORT_UDP => (NICE_CANDIDATE_TRANSPORT_MS_PREF_UDP, 0)
  end.

Definition nice_candidate_ms_ice_local_preference (c : NiceCandidate) : res Z :=
  let '(transport_preference, direction_preference) := ms_preferences_of c in
  turn_preference ← turn_preference_of c;
  other ← nice_candidate_ip_local_preference c;
  nice_candidate_ms_ice_local_preference_full transport_preference direction_preference turn_preference other.

Definition nice_candidate_ice_type_preference (c : NiceCandidate) (reliable nat_assisted : bool) : res Z :=
  type_preference ←
    match c_type c with
    | NICE_CANDIDATE_TYPE_HOST => Ok NICE_CANDIDATE_TYPE_PREF_HOST
    | NICE_CANDIDATE_TYPE_PEER_REFLEXIVE => Ok NICE_CANDIDATE_TYPE_PREF_PEER_REFLEXIVE
    | NICE_CANDIDATE_TYPE_SERVER_REFLEXIVE =>
        Ok (if nat_assisted then NICE_CANDIDATE_TYPE_PREF_NAT_ASSISTED else NICE_CANDIDATE_TYPE_PREF_SERVER_REFLEXIVE)
    | NICE_CANDIDATE_TYPE_RELAYED =>
        match c_turn c with
        | None => Fault OutOfBounds
        | Some t => Ok (if bool_decide (ts_type t = NICE_RELAY_TYPE_TURN_UDP) then NICE_CANDIDATE_TYPE_PREF_RELAYED_UDP
                        else NICE_CANDIDATE_TYPE_PREF_RELAYED)
        end
    end;
  let udp := bool_decide (c_transport c = NICE_CANDIDATE_TRANSPORT_UDP) in
  Ok (if (reliable && udp) || (negb reliable && negb udp) then type_preference / 2 else type_preference).

Definition nice_candidate_ice_priority (c : NiceCandidate) (reliable nat_assisted : bool) : res Z :=
  type_preference ← nice_candidate_ice_type_preference c reliable nat_assisted;
  local_preference ← nice_candidate_ice_local_preference c;
  Ok (nice_candidate_ice_priority_full type_preference local_preference (c_component_id c)).

Definition nice_candidate_ms_ice_priority (c : NiceCandidate) (reliable nat_assisted : bool) : res Z :=
  type_preference ← nice_candidate_ice_type_preference c reliable nat_assisted;
  local_preference ← nice_candidate_ms_ice_local_preference c;
  Ok (nice_candidate_ice_priority_full type_preference (u16 local_preference) (c_component_id c)).
End priorities.

(** [2 * max] is computed in 32 bits. *)
Definition nice_candidate_pair_priority (o_prio a_prio : Z) : Z :=
  let max := if a_prio <? o_prio then o_prio else a_prio in
  let min := if o_prio <? a_prio then o_prio else a_prio in
  u64 (Z.shiftl 1 32 * min + u32 (2 * max) + (if a_prio <? o_prio then 1 else 0)).

(** agent.c *)
Definition agent_candidate_pair_priority (controlling_mode : bool) (local remote : NiceCandidate) : Z :=
  if controlling_mode then nice_candidate_pair_priority (c_priority local) (c_priority remote)
  else nice_candidate_pair_priority (c_priority remote) (c_priority local).

(** ** The order of the priorities *)

Lemma priority_full_spec t l c : 0 <= t <= 126 -> 0 <= l < 65536 -> 1 <= c <= 255 ->
  nice_candidate_ice_priority_full t l c = t * 16777216 + l * 256 + (256 - c).
Proof. intros. unfold nice_candidate_ice_priority_full. rewrite u32_small; lia. Qed.

(** The order of (type preference, local preference, component), where a
    lower component comes first. *)
Definition preferred (t l c t' l' c' : Z) : Prop := t' < t \/ t' = t /\ (l' < l \/ l' = l /\ c < c').

Lemma priority_full_order t l c t' l' c' :
  0 <= t <= 126 -> 0 <= l < 65536 -> 1 <= c <= 255 -> 0 <= t' <= 126 -> 0 <= l' < 65536 -> 1 <= c' <= 255 ->
  nice_candidate_ice_priority_full t' l' c' < nice_candidate_ice_priority_full t l c <-> preferred t l c t' l' c'.
Proof. intros. rewrite !priority_full_spec by lia. unfold preferred. lia. Qed.

Section order.
Context {N : NetEnv}.

Lemma type_preference_range c r n t : nice_candidate_ice_type_preference c r n = Ok t -> 0 <= t <= 126.
Proof.
  unfold nice_candidate_ice_type_preference. intros H. inv_res.
  assert (0 <= a <= 126) by (repeat case_match; inv_res; vm_compute; split; discriminate).
  clear Ha. destruct (_ || _); Z.to_euclidean_division_equations; lia.
Qed.

Lemma local_preference_range c l : nice_candidate_ice_local_preference c = Ok l -> 0 <= l < 65536.
Proof.
  unfold nice_candidate_ice_local_preference, nice_candidate_ice_local_preference_full. intros H. inv_res. apply u16_range.
Qed.

(** Candidate priorities order candidates as the ICE formula intends.
    The priority of a candidate with a component id from 1 to 255 lies
    between 1 and 0x7effffff, and of two candidates the one with the higher
    type preference has the higher priority, then the one with the higher
    local preference, then the one with the lower component id; nothing
    overflows from one field into the next. *)
Theorem ice_priority_order c c' reliable nat_assisted t l t' l' :
  nice_candidate_ice_type_preference c reliable nat_assisted = Ok t -> nice_candidate_ice_local_preference c = Ok l ->
  nice_candidate_ice_type_preference c' reliable nat_assisted = Ok t' -> nice_candidate_ice_local_preference c' = Ok l' ->
  1 <= c_component_id c <= 255 -> 1 <= c_component_id c' <= 255 ->
  exists p p', nice_candidate_ice_priority c reliable nat_assisted = Ok p /\
    nice_candidate_ice_priority c' reliable nat_assisted = Ok p' /\
    1 <= p <= 0x7effffff /\ (p' < p <-> preferred t l (c_component_id c) t' l' (c_component_id c')).
Proof.
  intros Ht Hl Ht' Hl' Hc Hc'. unfold nice_candidate_ice_priority. rewrite Ht, Hl, Ht', Hl'. cbn [mbind res_bind].
  apply type_preference_range in Ht, Ht'. apply local_preference_range in Hl, Hl'.
  do 2 eexists. split; [done|]. split; [done|]. split; [rewrite priority_full_spec by done; lia|].
  by apply priority_full_order.
Qed.
End order.

Lemma pair_priority_spec o a : 0 <= o < 2 ^ 31 -> 0 <= a < 2 ^ 31 ->
  nice_candidate_pair_priority o a = 2 ^ 32 * Z.min o a + 2 * Z.max o a + (if a <? o then 1 else 0).
Proof.
  intros. unfold nice_candidate_pair_priority. rewrite Z.shiftl_1_l.
  destruct (Z.ltb_spec a o), (Z.ltb_spec o a); try lia.
  - rewrite (Z.min_r o a), (Z.max_l o a), (u32_small (2 * o)), u64_small; lia.
  - rewrite (Z.min_l o a), (Z.max_r o a), (u32_small (2 * a)), u64_small; lia.
  - rewrite (Z.min_l o a), (Z.max_r o a), (u32_small (2 * a)), u64_small; lia.
Qed.

(** Pair priorities.  For candidate priorities below 2^31 the priority
    of a pair fits 63 bits, both agents compute the same value for the pair
    whichever side they are on, pairs are ordered by their lower priority,
    then by their higher one, then in favour of the controlling agent, and
    the priority determines the priorities of both candidates. *)
Theorem pair_priority_order l r l' r' :
  0 <= c_priority l < 2 ^ 31 -> 0 <= c_priority r < 2 ^ 31 -> 0 <= c_priority l' < 2 ^ 31 -> 0 <= c_priority r' < 2 ^ 31 ->
  let p := agent_candidate_pair_priority true l r in
  let p' := agent_candidate_pair_priority true l' r' in
  let lo x y := Z.min (c_priority x) (c_priority y) in
  let hi x y := Z.max (c_priority x) (c_priority y) in
  0 <= p < 2 ^ 63 /\
  agent_candidate_pair_priority false r l = p /\
  (p' < p <-> lo l' r' < lo l r \/ lo l' r' = lo l r /\ (hi l' r' < hi l r \/
     hi l' r' = hi l r /\ c_priority l' < c_priority l)) /\
  (p = p' <-> c_priority l = c_priority l' /\ c_priority r = c_priority r').
Proof.
  intros Hl Hr Hl' Hr' p p' lo hi. unfold p, p', lo, hi, agent_candidate_pair_priority.
  rewrite !pair_priority_spec by done.
  destruct (Z.ltb_spec (c_priority r) (c_priority l)), (Z.ltb_spec (c_priority r') (c_priority l'));
    (split; [lia|]); (split; [done|]); split; lia.
Qed.

(** A peer's priority of 2^31 or more loses its top bit in [2 * max]. *)
Lemma pair_priority_wraps : nice_candidate_pair_priority 5 (2 ^ 31) < nice_candidate_pair_priority 5 6.
Proof. vm_compute. reflexivity. Qed.

(** ** Examples *)

(** One interface, 192.0.2.1 on eth0. *)
Definition ex_net : NetEnv := {|
  inet_ntop := fun _ => [49];
  getaddrinfo := fun _ => None;
  getnameinfo := fun _ => Some [49];
  getifaddrs := [mkIfaddrs (Some [101; 48]) (IFF_UP + IFF_RUNNING) (Some (sockaddr_in 0 (htonl (dotted 192 0 2 1))))];
  if_nametoindex := fun _ => 1;
  ignored_iface_prefix_list := [[100; 111; 99; 107; 101; 114]]
|}.

Definition ex_cand (p : Z) (type : NiceCandidateType) (prio comp : Z) : NiceCandidate :=
  mkCandidate p type NICE_CANDIDATE_TRANSPORT_UDP (sockaddr_in 0 (htonl (dotted 192 0 2 1)))
    (sockaddr_in 0 (htonl (dotted 192 0 2 1))) prio 1 comp [49] None None None (Some 1) 0 None.

Lemma ice_priority_order_witness :
  exists p p',
    nice_candidate_ice_priority (N := ex_net) (ex_cand 1 NICE_CANDIDATE_TYPE_HOST 0 2) false false = Ok p /\
    nice_candidate_ice_priority (N := ex_net) (ex_cand 2 NICE_CANDIDATE_TYPE_SERVER_REFLEXIVE 0 1) false false = Ok p' /\
    1 <= p <= 0x7effffff /\ (p' < p <-> preferred 120 8192 2 100 8192 1).
Proof.
  apply (ice_priority_order (N := ex_net) (ex_cand 1 NICE_CANDIDATE_TYPE_HOST 0 2)
           (ex_cand 2 NICE_CANDIDATE_TYPE_SERVER_REFLEXIVE 0 1) false false 120 8192 100 8192);
    first [vm_compute; reflexivity|vm_compute; split; discriminate].
Defined.

Lemma pair_priority_order_witness :
  let l := ex_cand 1 NICE_CANDIDATE_TYPE_HOST 2015363327 1 in
  let r := ex_cand 2 NICE_CANDIDATE_TYPE_RELAYED 335544319 1 in
  0 <= agent_candidate_pair_priority true l r < 2 ^ 63 /\
  agent_candidate_pair_priority false r l = agent_candidate_pair_priority true l r.
Proof.
  intros l r. destruct (pair_priority_order l r r l) as (H1 & H2 & _); try (vm_compute; split; congruence). done.
Defined.
