(* ===== verification/IceTypes.v ===== *)
(** * The state of an ICE agent (agent/agent-priv.h, stream.h, component.h, conncheck.h)

    Candidate pairs are heap objects that the check lists, the triggered
    check queue and other pairs point to: [a_pairs] is that heap, a pointer is
    its key, and following a pointer to a freed pair is a fault.  Streams and
    components are found by their ids, as the code does. *)
From stdpp Require Export gmap.
From S2P Require Import Prelude CMem StunTypes StunAgent StunTimer Address Candidate.
Local Open Scope Z_scope.

(** ** Enumerations *)

Inductive NiceCompatibility : Set :=
  | NICE_COMPATIBILITY_RFC5245 | NICE_COMPATIBILITY_GOOGLE | NICE_COMPATIBILITY_MSN | NICE_COMPATIBILITY_WLM2009
  | NICE_COMPATIBILITY_OC2007 | NICE_COMPATIBILITY_OC2007R2.

Inductive NiceNominationMode : Set := NICE_NOMINATION_MODE_REGULAR | NICE_NOMINATION_MODE_AGGRESSIVE.

Inductive NiceComponentState : Set :=
  | NICE_COMPONENT_STATE_DISCONNECTED
  | NICE_COMPONENT_STATE_GATHERING
  | NICE_COMPONENT_STATE_CONNECTING
  | NICE_COMPONENT_STATE_CONNECTED
  | NICE_COMPONENT_STATE_READY
  | NICE_COMPONENT_STATE_FAILED.

Inductive NiceCheckState : Set :=
  | NICE_CHECK_WAITING
  | NICE_CHECK_IN_PROGRESS
  | NICE_CHECK_SUCCEEDED
  | NICE_CHECK_FAILED
  | NICE_CHECK_FROZEN
  | NICE_CHECK_DISCOVERED.

#[global] Instance NiceCompatibility_eq_dec : EqDecision NiceCompatibility.
Proof. solve_decision. Defined.
#[global] Instance NiceNominationMode_eq_dec : EqDecision NiceNominationMode.
Proof. solve_decision. Defined.
#[global] Instance NiceComponentState_eq_dec : EqDecision NiceComponentState.
Proof. solve_decision. Defined.
#[global] Instance NiceCheckState_eq_dec : EqDecision NiceCheckState.
Proof. solve_decision. Defined.

Definition NICE_CANDIDATE_PAIR_MAX_FOUNDATION : Z := NICE_CANDIDATE_MAX_FOUNDATION * 2.
Definition NICE_COMPONENT_MAX_VALID_CANDIDATES : Z := 50.

(** ** Structures *)

(** [stx_message] is [None] while [message.buffer] is NULL. *)
Record StunTransaction : Set := mkTransaction {
  stx_ptr : Z;
  stx_next_tick : Z;
  stx_timer : StunTimer;
  stx_message : option StunMessage
}.

Record CandidateCheckPair : Set := mkPair {
  cp_stream_id : Z;
  cp_component_id : Z;
  cp_local : NiceCandidate;
  cp_remote : NiceCandidate;
  cp_sockptr : option Z;
  cp_foundation : list Z;
  cp_state : NiceCheckState;
  cp_nominated : bool;
  cp_valid : bool;
  cp_use_candidate_on_next_check : bool;
  cp_mark_nominated_on_response_arrival : bool;
  cp_retransmit : bool;
  cp_discovered_pair : option Z;
  cp_succeeded_pair : option Z;
  cp_priority : Z;
  cp_stun_priority : Z;
  cp_stun_transactions : list StunTransaction
}.

(** The selected pair of a component; all zero when none is selected.
    [sp_consent_tick] is the delay of [remote_consent.tick_source] when it is
    set. *)
Record CandidatePair : Set := mkSelected {
  sp_local : option NiceCandidate;
  sp_remote : option NiceCandidate;
  sp_priority : Z;
  sp_stun_priority : Z;
  sp_remote_consent_have : bool;
  sp_consent_tick : option Z;
  sp_consent_last_received : Z;
  sp_keepalive_next_tick : Z;
  sp_keepalive_stream_id : Z;
  sp_keepalive_component_id : Z
}.

Record IncomingCheck : Set := mkIncoming {
  ic_from : NiceAddress;
  ic_local_socket : option Z;
  ic_priority : Z;
  ic_use_candidate : bool;
  ic_username : option (list Z)
}.

Record NiceComponent : Set := mkComponent {
  co_id : Z;
  co_state : NiceComponentState;
  co_local_candidates : list NiceCandidate;
  co_remote_candidates : list NiceCandidate;
  co_valid_candidates : list NiceCandidate;
  co_selected_pair : CandidatePair;
  co_turn_candidate : option NiceCandidate;
  co_stun_agent : StunAgent;
  co_incoming_checks : list IncomingCheck;
  co_have_local_consent : bool;
  co_turn_servers : list TurnServer;
  co_restart_candidate : option NiceCandidate;
  co_fallback_mode : bool;
  co_min_port : Z;
  co_max_port : Z
}.

(** The credentials are the strings in [local_ufrag] and its like; what those
    buffers hold after the terminator of the local ones is the slack. *)
Record NiceStream : Set := mkStream {
  str_id : Z;
  str_n_components : Z;
  str_components : list NiceComponent;
  str_conncheck_list : list Z;
  str_local_ufrag : list Z;
  str_remote_ufrag : list Z;
  str_remote_password : list Z;
  str_tick_counter : Z;
  str_initial_binding_request_received : bool;
  str_local_password : list Z;
  str_gathering : bool;
  str_gathering_started : bool;
  str_peer_gathering_done : bool;
  str_name : option (list Z);
  str_tos : Z;
  str_local_ufrag_slack : list Z;
  str_local_password_slack : list Z
}.

(** A candidate discovery in progress.  [cd_stun_message] is [None] while
    [stun_message.buffer] is NULL, and [cd_stun_resp_msg] likewise. *)
Record CandidateDiscovery : Set := mkDiscovery {
  cd_ptr : Z;
  cd_type : NiceCandidateType;
  cd_nicesock : option Z;
  cd_server : NiceAddress;
  cd_next_tick : Z;
  cd_pending : bool;
  cd_done : bool;
  cd_stream_id : Z;
  cd_component_id : Z;
  cd_turn : option TurnServer;
  cd_stun_agent : StunAgent;
  cd_timer : StunTimer;
  cd_stun_message : option StunMessage;
  cd_stun_resp_msg : option StunMessage
}.

(** A TURN allocation to keep or to remove.  The timer fields hold the delay
    of the source that is set; [cr_destroy_data] is the pruning that waits
    for it. *)
Record CandidateRefresh : Set := mkRefresh {
  cr_ptr : Z;
  cr_nicesock : option Z;
  cr_server : NiceAddress;
  cr_candidate : NiceCandidate;
  cr_stream_id : Z;
  cr_component_id : Z;
  cr_stun_agent : StunAgent;
  cr_timer_source : option Z;
  cr_tick_source : option Z;
  cr_destroy_source : option Z;
  cr_timer : StunTimer;
  cr_stun_message : option StunMessage;
  cr_stun_resp_msg : option StunMessage;
  cr_disposing : bool;
  cr_destroy_data : option Z
}.

(** What is called when the refreshes of a pruning are gone. *)
Inductive prune_callback : Set :=
  | CandidateRefreshesPruned (cand : NiceCandidate)
  | StreamRefreshesPruned (stream_id : Z).

Record RefreshPruneAsyncData : Set := mkPruneData {
  pd_ptr : Z;
  pd_items_to_free : Z;
  pd_cb : prune_callback
}.

(** What the checks ask of the rest of the agent, in order: signals to the
    application, and work of other parts. *)
Inductive effect : Set :=
  | FxComponentState (stream_id component_id : Z) (st : NiceComponentState)
  | FxNewSelectedPair (stream_id component_id : Z) (local remote : NiceCandidate)
  | FxProcessQueuedTcp (stream_id component_id : Z)
  | FxNewCandidate (cand : NiceCandidate)
  | FxNewRemoteCandidate (cand : NiceCandidate)
  | FxCreateSocket (sock : option Z) (addr : NiceAddress)
  | FxFreeSocket (sock : Z)
  | FxRandom (n : Z)
  | FxRandomInt (low high : Z)
  | FxSend (reliable : bool) (sock : option Z) (addr : NiceAddress) (bytes : list Z)
  | FxTcpConnect (sock : option Z) (addr : NiceAddress)
  | FxAttachSocket (stream_id component_id : Z) (sock : Z)
  | FxInitialBindingRequest (stream_id : Z)
  | FxGatheringDone (stream_id : Z)
  | FxStreamsRemoved (stream_id : Z)
  | FxResolveStun (stream_id : Z)
  | FxResolveTurn (stream_id component_id : Z) (turn : TurnServer)
  | FxFreeSocketSources (stream_id component_id : Z)
  | FxDetachSocket (stream_id component_id : Z) (sock : option Z)
  | FxClosePseudoTcp (stream_id component_id : Z)
  | FxCreatePseudoTcp (stream_id component_id : Z)
  | FxCancelResolving (stream_id : Z)
  | FxTurnSocketRealm (sock : option Z) (msg : list Z)
  | FxTurnSocketConnectionId (sock : option Z) (msg : list Z)
  | FxTurnSocketCacheNonce (sock : option Z) (msg : list Z)
  | FxRefreshesPruned (cb : prune_callback).

Record NiceAgent : Set := mkAgentState {
  a_compatibility : NiceCompatibility;
  a_nomination_mode : NiceNominationMode;
  a_controlling_mode : bool;
  a_reliable : bool;
  a_force_relay : bool;
  a_max_conn_checks : Z;
  a_timer_ta : Z;
  a_stun_max_retransmissions : Z;
  a_stun_reliable_timeout : Z;
  a_idle_timeout : Z;
  a_tie_breaker : Z;
  a_streams : list NiceStream;
  a_pairs : gmap Z CandidateCheckPair;
  a_next_ptr : Z;
  a_next_candidate_id : Z;
  a_triggered_check_queue : list Z;
  a_discovery_list : list CandidateDiscovery;
  a_conncheck_timer : bool;
  a_keepalive_timer : option Z;
  a_conncheck_ongoing_idle_delay : Z;
  a_log : list effect;
  a_stun_initial_timeout : Z;
  a_support_renomination : bool;
  a_use_ice_tcp : bool;
  a_close_forced : bool;
  a_media_after_tick : bool;
  a_discovery_unsched_items : Z;
  a_discovery_timer : bool;
  a_refresh_list : list CandidateRefresh;
  a_pruning_refreshes : list Z;
  a_prunings : list RefreshPruneAsyncData;
  a_consent_freshness : bool;
  a_keepalive_conncheck : bool;
  a_stun_server_ip : option (list Z);
  a_stun_server_port : Z;
  a_software_attribute : option (list Z);
  a_use_ice_udp : bool;
  a_use_ice_trickle : bool;
  a_full_mode : bool;
  a_saved_controlling_mode : bool;
  a_local_addresses : list NiceAddress;
  a_next_stream_id : Z;
  a_stun_resolving_list : list Z;
  a_turn_resolving_count : Z;
  a_pruning_streams : list NiceStream
}.

(** ** Updates *)

(** [r <| f := v |>] is [r] after the assignment [f = v]. *)
Class Setter {R A : Type} (f : R -> A) : Type := set_field : (A -> A) -> R -> R.
#[global] Hint Mode Setter - - ! : typeclass_instances.
Arguments set_field {R A} f {_} g r.

Notation "s <| f := v |>" := (set_field f (fun _ => v) s)
  (at level 1, left associativity, f at level 1, v at level 200, format "s  <| f  :=  v |>").

(** Builds the setter of a field from the record's projections. *)
Ltac setter eta :=
  lazymatch goal with |- Setter ?f =>
    let g := fresh "g" in let s := fresh "s" in
    intros g s;
    let e := eval cbv beta delta [eta] in (eta s) in
    let e := eval pattern (f s) in e in
    lazymatch e with ?h _ => let t := eval cbv beta in (h (g (f s))) in exact t end
  end.

Definition eta_transaction (r : StunTransaction) :=
  mkTransaction (stx_ptr r) (stx_next_tick r) (stx_timer r) (stx_message r).
Definition eta_pair (r : CandidateCheckPair) :=
  mkPair (cp_stream_id r) (cp_component_id r) (cp_local r) (cp_remote r) (cp_sockptr r) (cp_foundation r) (cp_state r)
    (cp_nominated r) (cp_valid r) (cp_use_candidate_on_next_check r) (cp_mark_nominated_on_response_arrival r)
    (cp_retransmit r) (cp_discovered_pair r) (cp_succeeded_pair r) (cp_priority r) (cp_stun_priority r)
    (cp_stun_transactions r).
Definition eta_component (r : NiceComponent) :=
  mkComponent (co_id r) (co_state r) (co_local_candidates r) (co_remote_candidates r) (co_valid_candidates r)
    (co_selected_pair r) (co_turn_candidate r) (co_stun_agent r) (co_incoming_checks r) (co_have_local_consent r)
    (co_turn_servers r) (co_restart_candidate r) (co_fallback_mode r) (co_min_port r) (co_max_port r).
Definition eta_stream (r : NiceStream) :=
  mkStream (str_id r) (str_n_components r) (str_components r) (str_conncheck_list r) (str_local_ufrag r)
    (str_remote_ufrag r) (str_remote_password r) (str_tick_counter r) (str_initial_binding_request_received r)
    (str_local_password r) (str_gathering r) (str_gathering_started r) (str_peer_gathering_done r)
    (str_name r) (str_tos r) (str_local_ufrag_slack r) (str_local_password_slack r).
Definition eta_agent (r : NiceAgent) :=
  mkAgentState (a_compatibility r) (a_nomination_mode r) (a_controlling_mode r) (a_reliable r) (a_force_relay r)
    (a_max_conn_checks r) (a_timer_ta r) (a_stun_max_retransmissions r) (a_stun_reliable_timeout r) (a_idle_timeout r)
    (a_tie_breaker r) (a_streams r) (a_pairs r) (a_next_ptr r) (a_next_candidate_id r) (a_triggered_check_queue r)
    (a_discovery_list r) (a_conncheck_timer r) (a_keepalive_timer r) (a_conncheck_ongoing_idle_delay r) (a_log r)
    (a_stun_initial_timeout r) (a_support_renomination r) (a_use_ice_tcp r) (a_close_forced r) (a_media_after_tick r)
    (a_discovery_unsched_items r) (a_discovery_timer r) (a_refresh_list r) (a_pruning_refreshes r) (a_prunings r)
    (a_consent_freshness r) (a_keepalive_conncheck r) (a_stun_server_ip r) (a_stun_server_port r) (a_software_attribute r)
    (a_use_ice_udp r) (a_use_ice_trickle r) (a_full_mode r) (a_saved_controlling_mode r) (a_local_addresses r)
    (a_next_stream_id r) (a_stun_resolving_list r) (a_turn_resolving_count r) (a_pruning_streams r).
Definition eta_selected (r : CandidatePair) :=
  mkSelected (sp_local r) (sp_remote r) (sp_priority r) (sp_stun_priority r) (sp_remote_consent_have r) (sp_consent_tick r)
    (sp_consent_last_received r) (sp_keepalive_next_tick r) (sp_keepalive_stream_id r) (sp_keepalive_component_id r).
Definition eta_discovery (r : CandidateDiscovery) :=
  mkDiscovery (cd_ptr r) (cd_type r) (cd_nicesock r) (cd_server r) (cd_next_tick r) (cd_pending r) (cd_done r) (cd_stream_id r)
    (cd_component_id r) (cd_turn r) (cd_stun_agent r) (cd_timer r) (cd_stun_message r) (cd_stun_resp_msg r).
Definition eta_refresh (r : CandidateRefresh) :=
  mkRefresh (cr_ptr r) (cr_nicesock r) (cr_server r) (cr_candidate r) (cr_stream_id r) (cr_component_id r) (cr_stun_agent r)
    (cr_timer_source r) (cr_tick_source r) (cr_destroy_source r) (cr_timer r) (cr_stun_message r) (cr_stun_resp_msg r)
    (cr_disposing r) (cr_destroy_data r).

Definition eta_candidate (r : NiceCandidate) :=
  mkCandidate (c_ptr r) (c_type r) (c_transport r) (c_addr r) (c_base_addr r) (c_priority r) (c_stream_id r) (c_component_id r)
    (c_foundation r) (c_username r) (c_password r) (c_turn r) (c_sockptr r) (c_keepalive_next_tick r) (c_stun_server r).

Definition eta_turn (r : TurnServer) :=
  mkTurnServer (ts_ptr r) (ts_server r) (ts_server_address r) (ts_server_port r) (ts_username r) (ts_password r) (ts_type r)
    (ts_preference r) (ts_resolution_failed r).

#[global] Instance set_c_transport : Setter c_transport := ltac:(setter eta_candidate).
#[global] Instance set_c_addr : Setter c_addr := ltac:(setter eta_candidate).
#[global] Instance set_c_base_addr : Setter c_base_addr := ltac:(setter eta_candidate).
#[global] Instance set_c_priority : Setter c_priority := ltac:(setter eta_candidate).
#[global] Instance set_c_stream_id : Setter c_stream_id := ltac:(setter eta_candidate).
#[global] Instance set_c_component_id : Setter c_component_id := ltac:(setter eta_candidate).
#[global] Instance set_c_foundation : Setter c_foundation := ltac:(setter eta_candidate).
#[global] Instance set_c_username : Setter c_username := ltac:(setter eta_candidate).
#[global] Instance set_c_password : Setter c_password := ltac:(setter eta_candidate).
#[global] Instance set_c_turn : Setter c_turn := ltac:(setter eta_candidate).
#[global] Instance set_c_sockptr : Setter c_sockptr := ltac:(setter eta_candidate).
#[global] Instance set_c_stun_server : Setter c_stun_server := ltac:(setter eta_candidate).
#[global] Instance set_cp_sockptr : Setter cp_sockptr := ltac:(setter eta_pair).
#[global] Instance set_cp_state : Setter cp_state := ltac:(setter eta_pair).
#[global] Instance set_cp_nominated : Setter cp_nominated := ltac:(setter eta_pair).
#[global] Instance set_cp_valid : Setter cp_valid := ltac:(setter eta_pair).
#[global] Instance set_cp_use_candidate : Setter cp_use_candidate_on_next_check := ltac:(setter eta_pair).
#[global] Instance set_cp_mark : Setter cp_mark_nominated_on_response_arrival := ltac:(setter eta_pair).
#[global] Instance set_cp_retransmit : Setter cp_retransmit := ltac:(setter eta_pair).
#[global] Instance set_cp_discovered : Setter cp_discovered_pair := ltac:(setter eta_pair).
#[global] Instance set_cp_priority : Setter cp_priority := ltac:(setter eta_pair).
#[global] Instance set_cp_transactions : Setter cp_stun_transactions := ltac:(setter eta_pair).
#[global] Instance set_co_state : Setter co_state := ltac:(setter eta_component).
#[global] Instance set_co_local : Setter co_local_candidates := ltac:(setter eta_component).
#[global] Instance set_co_remote : Setter co_remote_candidates := ltac:(setter eta_component).
#[global] Instance set_co_valid : Setter co_valid_candidates := ltac:(setter eta_component).
#[global] Instance set_co_selected : Setter co_selected_pair := ltac:(setter eta_component).
#[global] Instance set_co_turn : Setter co_turn_candidate := ltac:(setter eta_component).
#[global] Instance set_co_agent : Setter co_stun_agent := ltac:(setter eta_component).
#[global] Instance set_str_name : Setter str_name := ltac:(setter eta_stream).
#[global] Instance set_str_ufrag_slack : Setter str_local_ufrag_slack := ltac:(setter eta_stream).
#[global] Instance set_str_password_slack : Setter str_local_password_slack := ltac:(setter eta_stream).
#[global] Instance set_str_tos : Setter str_tos := ltac:(setter eta_stream).
#[global] Instance set_str_components : Setter str_components := ltac:(setter eta_stream).
#[global] Instance set_str_tick : Setter str_tick_counter := ltac:(setter eta_stream).
#[global] Instance set_stx_next_tick : Setter stx_next_tick := ltac:(setter eta_transaction).
#[global] Instance set_stx_timer : Setter stx_timer := ltac:(setter eta_transaction).
#[global] Instance set_stx_message : Setter stx_message := ltac:(setter eta_transaction).
#[global] Instance set_str_list : Setter str_conncheck_list := ltac:(setter eta_stream).
#[global] Instance set_a_controlling : Setter a_controlling_mode := ltac:(setter eta_agent).
#[global] Instance set_a_streams : Setter a_streams := ltac:(setter eta_agent).
#[global] Instance set_a_pairs : Setter a_pairs := ltac:(setter eta_agent).
#[global] Instance set_a_next_ptr : Setter a_next_ptr := ltac:(setter eta_agent).
#[global] Instance set_a_next_candidate_id : Setter a_next_candidate_id := ltac:(setter eta_agent).
#[global] Instance set_a_queue : Setter a_triggered_check_queue := ltac:(setter eta_agent).
#[global] Instance set_a_timer : Setter a_conncheck_timer := ltac:(setter eta_agent).
#[global] Instance set_a_keepalive : Setter a_keepalive_timer := ltac:(setter eta_agent).
#[global] Instance set_a_idle : Setter a_conncheck_ongoing_idle_delay := ltac:(setter eta_agent).
#[global] Instance set_a_log : Setter a_log := ltac:(setter eta_agent).
#[global] Instance set_a_media : Setter a_media_after_tick := ltac:(setter eta_agent).
#[global] Instance set_a_discovery : Setter a_discovery_list := ltac:(setter eta_agent).
#[global] Instance set_a_unsched : Setter a_discovery_unsched_items := ltac:(setter eta_agent).
#[global] Instance set_a_discovery_timer : Setter a_discovery_timer := ltac:(setter eta_agent).
#[global] Instance set_a_refresh : Setter a_refresh_list := ltac:(setter eta_agent).
#[global] Instance set_a_pruning : Setter a_pruning_refreshes := ltac:(setter eta_agent).
#[global] Instance set_a_prunings : Setter a_prunings := ltac:(setter eta_agent).
#[global] Instance set_co_incoming : Setter co_incoming_checks := ltac:(setter eta_component).
#[global] Instance set_str_initial : Setter str_initial_binding_request_received := ltac:(setter eta_stream).
#[global] Instance set_sp_have : Setter sp_remote_consent_have := ltac:(setter eta_selected).
#[global] Instance set_sp_consent_tick : Setter sp_consent_tick := ltac:(setter eta_selected).
#[global] Instance set_sp_last_received : Setter sp_consent_last_received := ltac:(setter eta_selected).
#[global] Instance set_cd_nicesock : Setter cd_nicesock := ltac:(setter eta_discovery).
#[global] Instance set_cd_server : Setter cd_server := ltac:(setter eta_discovery).
#[global] Instance set_cd_next_tick : Setter cd_next_tick := ltac:(setter eta_discovery).
#[global] Instance set_cd_pending : Setter cd_pending := ltac:(setter eta_discovery).
#[global] Instance set_cd_done : Setter cd_done := ltac:(setter eta_discovery).
#[global] Instance set_cd_turn : Setter cd_turn := ltac:(setter eta_discovery).
#[global] Instance set_cd_stun_agent : Setter cd_stun_agent := ltac:(setter eta_discovery).
#[global] Instance set_cd_timer : Setter cd_timer := ltac:(setter eta_discovery).
#[global] Instance set_cd_stun_message : Setter cd_stun_message := ltac:(setter eta_discovery).
#[global] Instance set_cd_stun_resp_msg : Setter cd_stun_resp_msg := ltac:(setter eta_discovery).
#[global] Instance set_cr_stun_agent : Setter cr_stun_agent := ltac:(setter eta_refresh).
#[global] Instance set_cr_timer_source : Setter cr_timer_source := ltac:(setter eta_refresh).
#[global] Instance set_cr_tick_source : Setter cr_tick_source := ltac:(setter eta_refresh).
#[global] Instance set_cr_destroy_source : Setter cr_destroy_source := ltac:(setter eta_refresh).
#[global] Instance set_cr_candidate : Setter cr_candidate := ltac:(setter eta_refresh).
#[global] Instance set_cp_local : Setter cp_local := ltac:(setter eta_pair).
#[global] Instance set_sp_local : Setter sp_local := ltac:(setter eta_selected).
#[global] Instance set_cr_timer : Setter cr_timer := ltac:(setter eta_refresh).
#[global] Instance set_cr_stun_message : Setter cr_stun_message := ltac:(setter eta_refresh).
#[global] Instance set_cr_stun_resp_msg : Setter cr_stun_resp_msg := ltac:(setter eta_refresh).
#[global] Instance set_cr_disposing : Setter cr_disposing := ltac:(setter eta_refresh).
#[global] Instance set_cr_destroy_data : Setter cr_destroy_data := ltac:(setter eta_refresh).
#[global] Instance set_c_type : Setter c_type := ltac:(setter eta_candidate).
#[global] Instance set_c_keepalive : Setter c_keepalive_next_tick := ltac:(setter eta_candidate).
#[global] Instance set_cp_remote : Setter cp_remote := ltac:(setter eta_pair).
#[global] Instance set_cp_foundation : Setter cp_foundation := ltac:(setter eta_pair).
#[global] Instance set_sp_remote : Setter sp_remote := ltac:(setter eta_selected).
#[global] Instance set_sp_priority : Setter sp_priority := ltac:(setter eta_selected).
#[global] Instance set_sp_keepalive_next : Setter sp_keepalive_next_tick := ltac:(setter eta_selected).
#[global] Instance set_sp_keepalive_stream : Setter sp_keepalive_stream_id := ltac:(setter eta_selected).
#[global] Instance set_sp_keepalive_component : Setter sp_keepalive_component_id := ltac:(setter eta_selected).
#[global] Instance set_co_consent : Setter co_have_local_consent := ltac:(setter eta_component).
#[global] Instance set_co_turn_servers : Setter co_turn_servers := ltac:(setter eta_component).
#[global] Instance set_co_restart : Setter co_restart_candidate := ltac:(setter eta_component).
#[global] Instance set_co_fallback : Setter co_fallback_mode := ltac:(setter eta_component).
#[global] Instance set_co_min_port : Setter co_min_port := ltac:(setter eta_component).
#[global] Instance set_co_max_port : Setter co_max_port := ltac:(setter eta_component).
#[global] Instance set_str_gathering : Setter str_gathering := ltac:(setter eta_stream).
#[global] Instance set_str_gathering_started : Setter str_gathering_started := ltac:(setter eta_stream).
#[global] Instance set_str_peer_done : Setter str_peer_gathering_done := ltac:(setter eta_stream).
#[global] Instance set_str_local_ufrag : Setter str_local_ufrag := ltac:(setter eta_stream).
#[global] Instance set_str_local_password : Setter str_local_password := ltac:(setter eta_stream).
#[global] Instance set_str_remote_ufrag : Setter str_remote_ufrag := ltac:(setter eta_stream).
#[global] Instance set_str_remote_password : Setter str_remote_password := ltac:(setter eta_stream).
#[global] Instance set_a_nomination_mode : Setter a_nomination_mode := ltac:(setter eta_agent).
#[global] Instance set_a_saved : Setter a_saved_controlling_mode := ltac:(setter eta_agent).
#[global] Instance set_a_local_addresses : Setter a_local_addresses := ltac:(setter eta_agent).
#[global] Instance set_a_next_stream_id : Setter a_next_stream_id := ltac:(setter eta_agent).
#[global] Instance set_a_stun_resolving : Setter a_stun_resolving_list := ltac:(setter eta_agent).
#[global] Instance set_a_turn_resolving : Setter a_turn_resolving_count := ltac:(setter eta_agent).
#[global] Instance set_a_pruning_streams : Setter a_pruning_streams := ltac:(setter eta_agent).
#[global] Instance set_a_compat : Setter a_compatibility := ltac:(setter eta_agent).
#[global] Instance set_a_reliable : Setter a_reliable := ltac:(setter eta_agent).
#[global] Instance set_a_force_relay : Setter a_force_relay := ltac:(setter eta_agent).
#[global] Instance set_a_max_checks : Setter a_max_conn_checks := ltac:(setter eta_agent).
#[global] Instance set_a_timer_ta : Setter a_timer_ta := ltac:(setter eta_agent).
#[global] Instance set_a_max_retrans : Setter a_stun_max_retransmissions := ltac:(setter eta_agent).
#[global] Instance set_a_reliable_timeout : Setter a_stun_reliable_timeout := ltac:(setter eta_agent).
#[global] Instance set_a_idle_timeout : Setter a_idle_timeout := ltac:(setter eta_agent).
#[global] Instance set_a_initial_timeout : Setter a_stun_initial_timeout := ltac:(setter eta_agent).
#[global] Instance set_a_renomination : Setter a_support_renomination := ltac:(setter eta_agent).
#[global] Instance set_a_ice_tcp : Setter a_use_ice_tcp := ltac:(setter eta_agent).
#[global] Instance set_a_close_forced : Setter a_close_forced := ltac:(setter eta_agent).
#[global] Instance set_a_consent : Setter a_consent_freshness := ltac:(setter eta_agent).
#[global] Instance set_a_keepalive_conncheck : Setter a_keepalive_conncheck := ltac:(setter eta_agent).
#[global] Instance set_a_stun_ip : Setter a_stun_server_ip := ltac:(setter eta_agent).
#[global] Instance set_a_stun_port : Setter a_stun_server_port := ltac:(setter eta_agent).
#[global] Instance set_a_software : Setter a_software_attribute := ltac:(setter eta_agent).
#[global] Instance set_a_ice_udp : Setter a_use_ice_udp := ltac:(setter eta_agent).
#[global] Instance set_a_trickle : Setter a_use_ice_trickle := ltac:(setter eta_agent).
#[global] Instance set_a_full : Setter a_full_mode := ltac:(setter eta_agent).
#[global] Instance set_ts_server : Setter ts_server := ltac:(setter eta_turn).
#[global] Instance set_ts_server_address : Setter ts_server_address := ltac:(setter eta_turn).
#[global] Instance set_ts_server_port : Setter ts_server_port := ltac:(setter eta_turn).
#[global] Instance set_ts_preference : Setter ts_preference := ltac:(setter eta_turn).
#[global] Instance set_ts_resolution_failed : Setter ts_resolution_failed := ltac:(setter eta_turn).
#[global] Instance set_ts_ptr : Setter ts_ptr := ltac:(setter eta_turn).

(** Read fields through updates. *)
Ltac read_field p q k :=
  lazymatch p with @set_field _ _ _ _ => fail | _ => idtac end;
  let L := fresh "L" in
  first [constr_eq p q; assert (L : forall s g, p (set_field p g s) = g (p s)) by (intros; reflexivity)
        |assert (L : forall s g, p (set_field q g s) = p s) by (intros; reflexivity)];
  k L; clear L.
Ltac rsimpl :=
  repeat match goal with
  | |- context [?p (set_field ?q ?g ?s)] => read_field p q ltac:(fun L => rewrite (L s g); cbv beta)
  end.
Ltac rsimpl_in H :=
  repeat match type of H with
  | context [?p (set_field ?q ?g ?s)] => read_field p q ltac:(fun L => rewrite (L s g) in H; cbv beta in H)
  end.

Definition log (e : effect) (a : NiceAgent) : NiceAgent := a <| a_log := a_log a ++ [e] |>.
