(* ===== verification/IceEnv.v ===== *)
(** * The environment of the ICE agent

    Sockets, clocks and random numbers.  What they answer may depend on
    everything that was asked of them before, the log of the agent. *)
From S2P Require Import Prelude CMem StunTypes StunAgent StunTimer Address Candidate IceTypes.
Local Open Scope Z_scope.

(** The result of opening a socket. *)
Inductive new_socket : Set := SocketCreated (sock : Z) | SocketAddressInUse | SocketFailed.

(** A socket is a handle; what it is and does is the environment's. *)
Inductive NiceSocketType : Set :=
  | NICE_SOCKET_TYPE_UDP_BSD | NICE_SOCKET_TYPE_TCP_BSD | NICE_SOCKET_TYPE_PSEUDOSSL | NICE_SOCKET_TYPE_HTTP
  | NICE_SOCKET_TYPE_SOCKS5 | NICE_SOCKET_TYPE_UDP_TURN | NICE_SOCKET_TYPE_UDP_TURN_OVER_TCP
  | NICE_SOCKET_TYPE_TCP_ACTIVE | NICE_SOCKET_TYPE_TCP_PASSIVE | NICE_SOCKET_TYPE_TCP_SO.

#[global] Instance NiceSocketType_eq_dec : EqDecision NiceSocketType.
Proof. solve_decision. Defined.

Class CheckEnv : Type := {
  g_get_monotonic_time : list effect -> Z;
  gettimeofday : list effect -> timeval;
  stun_make_transid : Z -> list Z;                    (** random; the argument is the transaction *)
  nice_rng_generate_bytes : list effect -> Z -> list Z;
  nice_rng_generate_bytes_print : list effect -> Z -> list Z;
  nice_socket_is_reliable : option Z -> bool;
  socket_has_fileno : option Z -> bool;
  socket_type : option Z -> NiceSocketType;
  nice_tcp_bsd_socket_get_passive_parent : option Z -> option Z;
  socket_addr : option Z -> NiceAddress;
  nice_socket_send_messages_reliable : list effect -> option Z -> NiceAddress -> list Z -> Z;
  nice_socket_send_reliable : list effect -> option Z -> NiceAddress -> list Z -> Z;
  nice_socket_send : list effect -> option Z -> NiceAddress -> list Z -> Z;
  nice_tcp_active_socket_connect : list effect -> option Z -> NiceAddress -> option Z;
  nice_udp_bsd_socket_new : list effect -> NiceAddress -> new_socket;
  nice_tcp_active_socket_new : list effect -> NiceAddress -> new_socket;
  nice_tcp_passive_socket_new : list effect -> NiceAddress -> new_socket;
  nice_udp_turn_socket_new : list effect -> NiceAddress -> option Z -> TurnServer -> option Z;
  agent_create_tcp_turn_socket : list effect -> option Z -> NiceAddress -> NiceRelayType -> bool -> option Z
}.

(** The keepalives, as the checks use them: selecting a pair runs their timer
    callback at once.  KeepAlive has the implementation. *)
Class Keepalive : Type := keepalive_tick : NiceAgent -> res (bool * NiceAgent).

(** GLib's Base64. *)
Class Base64 : Type := {
  g_base64_decode : list Z -> list Z;
  g_base64_encode : list Z -> list Z
}.

Section sockets.
Context {E : CheckEnv}.

Definition socket_is_udp_turn (sock : option Z) : bool := bool_decide (socket_type sock = NICE_SOCKET_TYPE_UDP_TURN).
Definition socket_is_udp_bsd (sock : option Z) : bool := bool_decide (socket_type sock = NICE_SOCKET_TYPE_UDP_BSD).

(** [Some transport] is the return of TRUE. *)
Definition nice_socket_has_compatible_transport (socket : option Z) : option NiceCandidateTransport :=
  match socket_type socket with
  | NICE_SOCKET_TYPE_TCP_BSD =>
      Some (match nice_tcp_bsd_socket_get_passive_parent socket with
            | Some _ => NICE_CANDIDATE_TRANSPORT_TCP_PASSIVE
            | None => NICE_CANDIDATE_TRANSPORT_TCP_ACTIVE
            end)
  | NICE_SOCKET_TYPE_TCP_PASSIVE => Some NICE_CANDIDATE_TRANSPORT_TCP_PASSIVE
  | NICE_SOCKET_TYPE_TCP_ACTIVE => Some NICE_CANDIDATE_TRANSPORT_TCP_ACTIVE
  | NICE_SOCKET_TYPE_UDP_BSD => Some NICE_CANDIDATE_TRANSPORT_UDP
  | _ => None
  end.
End sockets.

(** * The lists of discoveries and of TURN refreshes (agent/discovery.c)

    Removing discoveries and refreshes, at once or, for refreshes, after the
    allocation on the server was removed: then the refresh is marked and a
    source is set up that sends the request, and whoever asked is told when
    the last of its refreshes is gone. *)

(** ** Discoveries *)

Definition discovery_free (a : NiceAgent) : NiceAgent :=
  let a := a <| a_discovery_list := [] |> <| a_discovery_unsched_items := 0 |> in
  if a_discovery_timer a then a <| a_discovery_timer := false |> else a.

(** Keeps the discoveries that are not to be pruned; without any left, the
    timer goes too. *)
Definition discovery_prune (a : NiceAgent) (prune : CandidateDiscovery -> bool) : NiceAgent :=
  let a := a <| a_discovery_list := List.filter (fun d => negb (prune d)) (a_discovery_list a) |> in
  match a_discovery_list a with [] => discovery_free a | _ => a end.

Definition discovery_prune_stream (a : NiceAgent) (stream_id : Z) : NiceAgent :=
  discovery_prune a (fun cand => cd_stream_id cand =? stream_id).

Definition discovery_prune_socket (a : NiceAgent) (sock : option Z) : NiceAgent :=
  discovery_prune a (fun discovery => bool_decide (cd_nicesock discovery = sock)).

(** ** Refreshes *)

(** [g_slist_remove] of the refresh at an address. *)
Definition remove_refresh (ptr : Z) (l : list CandidateRefresh) : list CandidateRefresh :=
  List.filter (fun r => negb (cr_ptr r =? ptr)) l.

Definition find_prune_data (a : NiceAgent) (data : Z) : option RefreshPruneAsyncData :=
  List.find (fun d => pd_ptr d =? data) (a_prunings a).
Definition set_items (data n : Z) (d : RefreshPruneAsyncData) : RefreshPruneAsyncData :=
  if pd_ptr d =? data then mkPruneData (pd_ptr d) n (pd_cb d) else d.

(** [data] is freed when it has called its function. *)
Definition on_refresh_removed (a : NiceAgent) (data : Z) : res NiceAgent :=
  match find_prune_data a data with
  | None => Fault OutOfBounds
  | Some d =>
      if (pd_items_to_free d =? 0) || (pd_items_to_free d - 1 =? 0) then
        Ok (log (FxRefreshesPruned (pd_cb d)) (a <| a_prunings := List.filter (fun d => negb (pd_ptr d =? data)) (a_prunings a) |>))
      else Ok (a <| a_prunings := set_items data (pd_items_to_free d - 1) <$> a_prunings a |>)
  end.

Definition refresh_free (a : NiceAgent) (cand : CandidateRefresh) : res NiceAgent :=
  let a := a <| a_refresh_list := remove_refresh (cr_ptr cand) (a_refresh_list a) |>
             <| a_pruning_refreshes := List.filter (fun p => negb (p =? cr_ptr cand)) (a_pruning_refreshes a) |> in
  match cr_destroy_data cand with
  | Some data => on_refresh_removed a data
  | None => Ok a
  end.

(** The refresh at [ptr] gets [f] of its value. *)
Definition upd_refresh (a : NiceAgent) (ptr : Z) (f : CandidateRefresh -> CandidateRefresh) : NiceAgent :=
  a <| a_refresh_list := (fun r => if cr_ptr r =? ptr then f r else r) <$> a_refresh_list a |>.

Fixpoint prune_loop (a : NiceAgent) (data timeout items : Z) (refreshes : list CandidateRefresh) : Z * NiceAgent :=
  match refreshes with
  | [] => (items, a)
  | cand :: refreshes =>
      if cr_disposing cand then prune_loop a data timeout items refreshes
      else
        let a := a <| a_pruning_refreshes := a_pruning_refreshes a ++ [cr_ptr cand] |> in
        let timeout := u32 (timeout + a_timer_ta a) in
        let a := upd_refresh a (cr_ptr cand) (fun r => r <| cr_disposing := true |> <| cr_destroy_data := Some data |>
                                                         <| cr_destroy_source := Some timeout |>) in
        prune_loop a data timeout (items + 1) refreshes
  end.

(** The count of the data is raised as the loop goes; nothing reads it before
    the loop is done. *)
Definition refresh_prune_async (a : NiceAgent) (refreshes : list CandidateRefresh) (function : prune_callback) : res NiceAgent :=
  let data := a_next_ptr a in
  let a := a <| a_next_ptr := data + 1 |> in
  let '(items_to_free, a) := prune_loop a data 0 0 refreshes in
  let a := a <| a_prunings := a_prunings a ++ [mkPruneData data items_to_free function] |> in
  if items_to_free =? 0 then on_refresh_removed a data else Ok a.

Definition refresh_prune_stream_async (a : NiceAgent) (stream_id : Z) : res NiceAgent :=
  refresh_prune_async a (List.filter (fun cand => cr_stream_id cand =? stream_id) (a_refresh_list a)) (StreamRefreshesPruned stream_id).

Fixpoint refresh_free_all (a : NiceAgent) (l : list CandidateRefresh) : res NiceAgent :=
  match l with
  | [] => Ok a
  | r :: l => a ← refresh_free a r; refresh_free_all a l
  end.

Definition refresh_prune_candidate (a : NiceAgent) (candidate : NiceCandidate) : res NiceAgent :=
  refresh_free_all a (List.filter (fun r => c_ptr (cr_candidate r) =? c_ptr candidate) (a_refresh_list a)).

Definition refresh_prune_candidate_async (a : NiceAgent) (candidate : NiceCandidate) : res NiceAgent :=
  refresh_prune_async a (List.filter (fun r => c_ptr (cr_candidate r) =? c_ptr candidate) (a_refresh_list a))
    (CandidateRefreshesPruned candidate).

(** The second loop runs over [pruning_refreshes]; its elements are on
    [refresh_list] as well. *)
Definition refresh_prune_socket (a : NiceAgent) (nicesock : option Z) : res NiceAgent :=
  a ← refresh_free_all a (List.filter (fun r => bool_decide (cr_nicesock r = nicesock)) (a_refresh_list a));
  refresh_free_all a
    (List.filter (fun r => bool_decide (cr_nicesock r = nicesock) && bool_decide (cr_ptr r ∈ a_pruning_refreshes a)) (a_refresh_list a)).
