(* ===== verification/CheckList.v ===== *)
(** * Connectivity checks: the check lists (agent/conncheck.c)

    The operations on the check lists of an agent: the triggered check queue,
    freezing and unfreezing, the size limit, pair creation, pruning,
    nomination and the component states that follow from them
    ([agent_signal_component_state_change] of agent.c,
    [nice_component_update_selected_pair] of component.c). *)
From S2P Require Import Prelude CMem StunTypes StunMessage StunAgent StunTimer Address Candidate IceTypes IceEnv.
Local Open Scope Z_scope.

(** ** Finding things *)

(** Follow a pointer to a pair; a freed pair is a fault. *)
Definition deref (a : NiceAgent) (p : Z) : res CandidateCheckPair :=
  match a_pairs a !! p with Some x => Ok x | None => Fault OutOfBounds end.

(** Assign through a pointer. *)
Definition modify (a : NiceAgent) (p : Z) (f : CandidateCheckPair -> CandidateCheckPair) : res NiceAgent :=
  x ← deref a p; Ok (a <| a_pairs := <[p := f x]> (a_pairs a) |>).

(** [SET_PAIR_STATE]. *)
Definition SET_PAIR_STATE (a : NiceAgent) (p : Z) (st : NiceCheckState) : res NiceAgent :=
  modify a p (fun x => x <| cp_state := st |>).

Definition agent_find_stream (a : NiceAgent) (stream_id : Z) : option NiceStream :=
  snd <$> list_find (fun s => str_id s = stream_id) (a_streams a).

Definition nice_stream_find_component_by_id (s : NiceStream) (id : Z) : option NiceComponent :=
  snd <$> list_find (fun c => co_id c = id) (str_components s).

Definition agent_find_component (a : NiceAgent) (stream_id component_id : Z) : option (NiceStream * NiceComponent) :=
  s ← agent_find_stream a stream_id;
  c ← nice_stream_find_component_by_id s component_id;
  Some (s, c).

(** A stream or component pointer the caller holds. *)
Definition the_stream (a : NiceAgent) (sid : Z) : res NiceStream :=
  match agent_find_stream a sid with Some s => Ok s | None => Fault OutOfBounds end.
Definition the_component (a : NiceAgent) (sid cid : Z) : res NiceComponent :=
  match agent_find_component a sid cid with Some (_, c) => Ok c | None => Fault OutOfBounds end.

(** Assign to a field of the first stream, component with that id. *)
Fixpoint upd_first {A} (P : A -> bool) (f : A -> A) (l : list A) : list A :=
  match l with
  | [] => []
  | x :: l => if P x then f x :: l else x :: upd_first P f l
  end.
Definition upd_stream (a : NiceAgent) (sid : Z) (f : NiceStream -> NiceStream) : NiceAgent :=
  a <| a_streams := upd_first (fun s => str_id s =? sid) f (a_streams a) |>.
Definition upd_component (a : NiceAgent) (sid cid : Z) (f : NiceComponent -> NiceComponent) : NiceAgent :=
  upd_stream a sid (fun s => s <| str_components := upd_first (fun c => co_id c =? cid) f (str_components s) |>).

(** Every pair of every stream, in the order the loops visit them. *)
Definition all_checks (a : NiceAgent) : list Z := flat_map str_conncheck_list (a_streams a).

Definition is_compatible_with_rfc5245_or_oc2007r2 (a : NiceAgent) : bool :=
  bool_decide (a_compatibility a = NICE_COMPATIBILITY_RFC5245) ||
  bool_decide (a_compatibility a = NICE_COMPATIBILITY_OC2007R2).

(** ** Timers and the triggered check queue *)

Definition priv_schedule_next (a : NiceAgent) : NiceAgent :=
  let a := if a_conncheck_timer a then a else a <| a_conncheck_timer := true |> in
  match a_keepalive_timer a with Some _ => a | None => a <| a_keepalive_timer := Some (a_timer_ta a) |> end.

Definition conn_check_stop (a : NiceAgent) : NiceAgent :=
  if a_conncheck_timer a then a <| a_conncheck_timer := false |> <| a_conncheck_ongoing_idle_delay := 0 |> else a.

Definition priv_add_pair_to_triggered_check_queue (a : NiceAgent) (p : Z) : NiceAgent :=
  if bool_decide (p ∈ a_triggered_check_queue a) then a
  else priv_schedule_next (a <| a_triggered_check_queue := a_triggered_check_queue a ++ [p] |>).

(** [g_slist_remove]: the first occurrence. *)
Fixpoint remove_first (p : Z) (l : list Z) : list Z :=
  match l with
  | [] => []
  | x :: l => if x =? p then l else x :: remove_first p l
  end.

Definition priv_remove_pair_from_triggered_check_queue (a : NiceAgent) (p : Z) : NiceAgent :=
  a <| a_triggered_check_queue := remove_first p (a_triggered_check_queue a) |>.

Definition priv_get_pair_from_triggered_check_queue (a : NiceAgent) : option Z * NiceAgent :=
  match a_triggered_check_queue a with
  | [] => (None, a)
  | p :: _ => (Some p, priv_remove_pair_from_triggered_check_queue a p)
  end.

(** ** Pair states *)

Fixpoint priv_conn_check_find_next_waiting (a : NiceAgent) (l : list Z) : res (option Z) :=
  match l with
  | [] => Ok None
  | p :: l =>
      x ← deref a p;
      if bool_decide (cp_state x = NICE_CHECK_WAITING) then Ok (Some p) else priv_conn_check_find_next_waiting a l
  end.

(** The second loop of [priv_conn_check_unfreeze_next]. *)
Fixpoint unfreeze_loop (a : NiceAgent) (l : list Z) (foundation_list : list (list Z)) (result : bool)
    : res (bool * NiceAgent) :=
  match l with
  | [] => Ok (result, a)
  | p :: l =>
      x ← deref a p;
      if bool_decide (cp_foundation x ∈ foundation_list) then unfreeze_loop a l foundation_list result
      else if bool_decide (cp_state x = NICE_CHECK_FROZEN) then
        a ← SET_PAIR_STATE a p NICE_CHECK_WAITING;
        unfreeze_loop a l (cp_foundation x :: foundation_list) true
      else unfreeze_loop a l foundation_list result
  end.

Definition priv_conn_check_unfreeze_next (a : NiceAgent) : res (bool * NiceAgent) :=
  w ← priv_conn_check_find_next_waiting a (all_checks a);
  match w with
  | Some _ => Ok (true, a)
  | None => unfreeze_loop a (all_checks a) [] false
  end.

(** [strncmp (f, g, n) == 0] for strings without their terminators. *)
Definition strncmp_eq (f g : list Z) (n : Z) : bool := bool_decide (take (Z.to_nat n) f = take (Z.to_nat n) g).

Fixpoint unfreeze_related_loop (a : NiceAgent) (foundation : list Z) (l : list Z) : res NiceAgent :=
  match l with
  | [] => Ok a
  | p :: l =>
      x ← deref a p;
      a ← (if bool_decide (cp_state x = NICE_CHECK_FROZEN) &&
              strncmp_eq (cp_foundation x) foundation NICE_CANDIDATE_PAIR_MAX_FOUNDATION then
             SET_PAIR_STATE a p NICE_CHECK_WAITING
           else Ok a);
      unfreeze_related_loop a foundation l
  end.

Definition conn_check_unfreeze_related (a : NiceAgent) (pair : Z) : res NiceAgent :=
  x ← deref a pair;
  _ ← assert_ok (bool_decide (cp_state x = NICE_CHECK_SUCCEEDED));
  unfreeze_related_loop a (cp_foundation x) (all_checks a).

Fixpoint unfreeze_maybe_loop (a : NiceAgent) (pair : Z) (l : list Z) : res NiceAgent :=
  match l with
  | [] => Ok a
  | p :: l =>
      x ← deref a p;
      y ← deref a pair;
      a ← (if bool_decide (cp_state x = NICE_CHECK_SUCCEEDED) &&
              strncmp_eq (cp_foundation x) (cp_foundation y) NICE_CANDIDATE_PAIR_MAX_FOUNDATION then
             SET_PAIR_STATE a pair NICE_CHECK_WAITING
           else Ok a);
      unfreeze_maybe_loop a pair l
  end.

Definition priv_conn_check_unfreeze_maybe (a : NiceAgent) (pair : Z) : res NiceAgent :=
  x ← deref a pair;
  _ ← assert_ok (bool_decide (cp_state x = NICE_CHECK_FROZEN));
  unfreeze_maybe_loop a pair (all_checks a).

(** ** Transactions of a pair *)

Fixpoint conn_check_stun_transactions_count (a : NiceAgent) (l : list Z) : res Z :=
  match l with
  | [] => Ok 0
  | p :: l => x ← deref a p; n ← conn_check_stun_transactions_count a l; Ok (zlen (cp_stun_transactions x) + n)
  end.

Definition priv_add_stun_transaction (a : NiceAgent) (pair ptr : Z) (t : StunTimer) : res NiceAgent :=
  modify a pair (fun x => x <| cp_stun_transactions := mkTransaction ptr 0 t None :: cp_stun_transactions x |>
                            <| cp_retransmit := true |>).

Definition priv_forget_stun_transaction (ag : StunAgent) (t : StunTransaction) : res StunAgent :=
  match stx_message t with
  | None => Ok ag
  | Some m => id ← stun_message_id m; Ok (snd (stun_agent_forget_transaction ag id))
  end.

Fixpoint forget_all (ag : StunAgent) (l : list StunTransaction) : res StunAgent :=
  match l with
  | [] => Ok ag
  | t :: l => ag ← priv_forget_stun_transaction ag t; forget_all ag l
  end.

Fixpoint remove_transaction (ptr : Z) (l : list StunTransaction) : list StunTransaction :=
  match l with
  | [] => []
  | t :: l => if stx_ptr t =? ptr then l else t :: remove_transaction ptr l
  end.

Definition priv_remove_stun_transaction (a : NiceAgent) (pair : Z) (stun : StunTransaction) (sid cid : Z) : res NiceAgent :=
  c ← the_component a sid cid;
  ag ← priv_forget_stun_transaction (co_stun_agent c) stun;
  let a := upd_component a sid cid (fun c => c <| co_stun_agent := ag |>) in
  modify a pair (fun x =>
    let x := x <| cp_stun_transactions := remove_transaction (stx_ptr stun) (cp_stun_transactions x) |> in
    match cp_stun_transactions x with [] => x <| cp_retransmit := false |> | _ => x end).

(** [None] is a null [component]. *)
Definition priv_free_all_stun_transactions (a : NiceAgent) (pair : Z) (component : option (Z * Z)) : res NiceAgent :=
  x ← deref a pair;
  a ← match component with
      | None => Ok a
      | Some (sid, cid) =>
          c ← the_component a sid cid;
          ag ← forget_all (co_stun_agent c) (cp_stun_transactions x);
          Ok (upd_component a sid cid (fun c => c <| co_stun_agent := ag |>))
      end;
  modify a pair (fun x => x <| cp_stun_transactions := [] |> <| cp_retransmit := false |>).

Definition candidate_check_pair_fail (a : NiceAgent) (sid p : Z) : res NiceAgent :=
  s ← the_stream a sid;
  x ← deref a p;
  let component := (fun _ => (sid, cp_component_id x)) <$> nice_stream_find_component_by_id s (cp_component_id x) in
  a ← SET_PAIR_STATE a p NICE_CHECK_FAILED;
  a ← priv_free_all_stun_transactions a p component;
  match cp_discovered_pair x with
  | None => Ok a
  | Some d => SET_PAIR_STATE a d NICE_CHECK_FAILED
  end.

Definition candidate_check_pair_free (a : NiceAgent) (pair : Z) : res NiceAgent :=
  let a := priv_remove_pair_from_triggered_check_queue a pair in
  a ← priv_free_all_stun_transactions a pair None;
  Ok (a <| a_pairs := delete pair (a_pairs a) |>).

(** ** Component states (agent.c) *)

(** The transitions the assertion allows. *)
Definition valid_state_change (old_state new_state : NiceComponentState) : bool :=
  match old_state, new_state with
  | _, NICE_COMPONENT_STATE_FAILED
  | NICE_COMPONENT_STATE_DISCONNECTED, NICE_COMPONENT_STATE_GATHERING
  | NICE_COMPONENT_STATE_GATHERING, NICE_COMPONENT_STATE_CONNECTING
  | NICE_COMPONENT_STATE_CONNECTING, NICE_COMPONENT_STATE_CONNECTED
  | NICE_COMPONENT_STATE_CONNECTED, NICE_COMPONENT_STATE_READY
  | NICE_COMPONENT_STATE_READY, NICE_COMPONENT_STATE_CONNECTED
  | NICE_COMPONENT_STATE_FAILED, NICE_COMPONENT_STATE_CONNECTING
  | NICE_COMPONENT_STATE_FAILED, NICE_COMPONENT_STATE_GATHERING
  | NICE_COMPONENT_STATE_DISCONNECTED, NICE_COMPONENT_STATE_CONNECTING
  | NICE_COMPONENT_STATE_CONNECTED, NICE_COMPONENT_STATE_CONNECTING
  | _, NICE_COMPONENT_STATE_GATHERING => true
  | _, _ => false
  end.

Definition agent_signal_component_state_change (a : NiceAgent) (stream_id component_id : Z) (new_state : NiceComponentState)
    : res NiceAgent :=
  match agent_find_component a stream_id component_id with
  | None => Ok a
  | Some (_, component) =>
      if bool_decide (new_state = co_state component) then Ok a
      else
        _ ← assert_ok (valid_state_change (co_state component) new_state);
        let a := upd_component a stream_id component_id (fun c => c <| co_state := new_state |>) in
        let a := if a_reliable a then log (FxProcessQueuedTcp stream_id component_id) a else a in
        Ok (log (FxComponentState stream_id component_id new_state) a)
  end.

(** The numeric value of a state, for the comparisons [<]. *)
Definition component_state_value (st : NiceComponentState) : Z :=
  match st with
  | NICE_COMPONENT_STATE_DISCONNECTED => 0
  | NICE_COMPONENT_STATE_GATHERING => 1
  | NICE_COMPONENT_STATE_CONNECTING => 2
  | NICE_COMPONENT_STATE_CONNECTED => 3
  | NICE_COMPONENT_STATE_READY => 4
  | NICE_COMPONENT_STATE_FAILED => 5
  end.

(** ** Pruning after a nomination *)

(** [stream->conncheck_list = g_slist_delete_link (stream->conncheck_list, i)]
    for the link of [p]. *)
Definition delete_link (a : NiceAgent) (sid p : Z) : NiceAgent :=
  upd_stream a sid (fun s => s <| str_conncheck_list := remove_first p (str_conncheck_list s) |>).

Definition free_and_delete (a : NiceAgent) (sid p : Z) : res NiceAgent :=
  a ← candidate_check_pair_free a p; Ok (delete_link a sid p).

(** One pair of the loop of [priv_prune_pending_checks], and whether it is
    still pending. *)
Definition prune_pending_pair (a : NiceAgent) (sid : Z) (priority : Z) (p : Z) : res (Z * NiceAgent) :=
  x ← deref a p;
  if bool_decide (p ∈ a_triggered_check_queue a) && negb (bool_decide (cp_state x = NICE_CHECK_IN_PROGRESS)) then
    if cp_priority x <? priority then a ← free_and_delete a sid p; Ok (0, a) else Ok (1, a)
  else
    match cp_state x with
    | NICE_CHECK_FROZEN | NICE_CHECK_WAITING => a ← free_and_delete a sid p; Ok (0, a)
    | NICE_CHECK_IN_PROGRESS =>
        if cp_priority x <? priority then
          let a := priv_remove_pair_from_triggered_check_queue a p in
          a ← (if cp_retransmit x then modify a p (fun x => x <| cp_retransmit := false |>) else Ok a);
          Ok (0, a)
        else
          a ← (if negb (cp_retransmit x) && negb (bool_decide (cp_stun_transactions x = [])) then
                 modify a p (fun x => x <| cp_retransmit := true |>)
               else Ok a);
          Ok (1, a)
    | NICE_CHECK_SUCCEEDED | NICE_CHECK_FAILED | NICE_CHECK_DISCOVERED => Ok (0, a)
    end.

Fixpoint prune_pending_loop (a : NiceAgent) (sid cid priority : Z) (l : list Z) (pending : Z) : res (Z * NiceAgent) :=
  match l with
  | [] => Ok (pending, a)
  | p :: l =>
      x ← deref a p;
      if negb (cp_component_id x =? cid) then prune_pending_loop a sid cid priority l pending
      else
        '(n, a) ← prune_pending_pair a sid priority p;
        prune_pending_loop a sid cid priority l (pending + n)
  end.

Definition priv_prune_pending_checks (a : NiceAgent) (sid cid : Z) : res (Z * NiceAgent) :=
  s ← the_stream a sid;
  c ← the_component a sid cid;
  let priority := sp_priority (co_selected_pair c) in
  _ ← assert_ok (0 <? priority);
  prune_pending_loop a sid cid priority (str_conncheck_list s) 0.

(** The number of valid and nominated pairs of a component. *)
Fixpoint count_nominated (a : NiceAgent) (cid : Z) (l : list Z) : res Z :=
  match l with
  | [] => Ok 0
  | p :: l =>
      x ← deref a p;
      n ← count_nominated a cid l;
      Ok (if (cp_component_id x =? cid) && cp_valid x && cp_nominated x then 1 + n else n)
  end.

(** The signals that lead a component to READY. *)
Definition signal_progress (a : NiceAgent) (sid cid : Z) : res NiceAgent :=
  c ← the_component a sid cid;
  a ← (if (component_state_value (co_state c) <? component_state_value NICE_COMPONENT_STATE_CONNECTING)
          || bool_decide (co_state c = NICE_COMPONENT_STATE_FAILED) then
         agent_signal_component_state_change a sid cid NICE_COMPONENT_STATE_CONNECTING
       else Ok a);
  c ← the_component a sid cid;
  a ← (if component_state_value (co_state c) <? component_state_value NICE_COMPONENT_STATE_CONNECTED then
         agent_signal_component_state_change a sid cid NICE_COMPONENT_STATE_CONNECTED
       else Ok a);
  agent_signal_component_state_change a sid cid NICE_COMPONENT_STATE_READY.

Definition conn_check_update_check_list_state_for_ready (a : NiceAgent) (sid cid : Z) : res NiceAgent :=
  s ← the_stream a sid;
  nominated ← count_nominated a cid (str_conncheck_list s);
  if 0 <? nominated then
    '(pending, a) ← priv_prune_pending_checks a sid cid;
    if pending =? 0 then signal_progress a sid cid else Ok a
  else Ok a.

(** ** Removing a socket *)

(** The loop of [conn_check_prune_socket]: whether a pair failed, how many
    pairs of the component are left, and how many of them are nominated. *)
Fixpoint prune_socket_loop (a : NiceAgent) (sid cid : Z) (sock : option Z) (l : list Z)
    (selected_pair_failed pair_failed : bool) (p_count p_nominated : Z) : res (bool * Z * Z * NiceAgent) :=
  match l with
  | [] => Ok (pair_failed, p_count, p_nominated, a)
  | p :: l =>
      x ← deref a p;
      if negb (cp_component_id x =? cid) then
        prune_socket_loop a sid cid sock l selected_pair_failed pair_failed p_count p_nominated
      else
        a ← (if selected_pair_failed && negb (cp_retransmit x) && negb (bool_decide (cp_stun_transactions x = [])) then
               modify a p (fun x => x <| cp_retransmit := true |>)
             else Ok a);
        if bool_decide (c_sockptr (cp_local x) = sock) || bool_decide (c_sockptr (cp_remote x) = sock) ||
           bool_decide (cp_sockptr x = sock) then
          c ← the_component a sid cid;
          let selected_pair_failed :=
            selected_pair_failed ||
            (bool_decide (c_ptr <$> sp_local (co_selected_pair c) = Some (c_ptr (cp_local x))) &&
             bool_decide (c_ptr <$> sp_remote (co_selected_pair c) = Some (c_ptr (cp_remote x)))) in
          a ← candidate_check_pair_fail a sid p;
          a ← free_and_delete a sid p;
          prune_socket_loop a sid cid sock l selected_pair_failed true p_count p_nominated
        else
          prune_socket_loop a sid cid sock l selected_pair_failed pair_failed (p_count + 1)
            (if cp_nominated x then p_nominated + 1 else p_nominated)
  end.

(** READY becomes FAILED and CONNECTED becomes CONNECTING. *)
Definition signal_step_down (a : NiceAgent) (sid cid : Z) : res NiceAgent :=
  c ← the_component a sid cid;
  match co_state c with
  | NICE_COMPONENT_STATE_READY => agent_signal_component_state_change a sid cid NICE_COMPONENT_STATE_FAILED
  | NICE_COMPONENT_STATE_CONNECTED => agent_signal_component_state_change a sid cid NICE_COMPONENT_STATE_CONNECTING
  | _ => Ok a
  end.

Definition conn_check_prune_socket (a : NiceAgent) (sid cid : Z) (sock : option Z) : res NiceAgent :=
  c ← the_component a sid cid;
  let selected_pair_failed :=
    match sp_local (co_selected_pair c) with Some l => bool_decide (c_sockptr l = sock) | None => false end in
  a ← (if selected_pair_failed then signal_step_down a sid cid else Ok a);
  s ← the_stream a sid;
  '(pair_failed, p_count, p_nominated, a) ←
    prune_socket_loop a sid cid sock (str_conncheck_list s) selected_pair_failed false 0 0;
  if pair_failed : bool then
    a ← (if p_count =? 0 then agent_signal_component_state_change a sid cid NICE_COMPONENT_STATE_FAILED
         else if p_nominated =? 0 then signal_step_down a sid cid
         else Ok a);
    conn_check_update_check_list_state_for_ready a sid cid
  else Ok a.

(** ** The selected pair (component.c) *)

Definition no_pair : CandidatePair := mkSelected None None 0 0 false None 0 0 0 0.

Definition nice_component_clear_selected_pair (c : NiceComponent) : NiceComponent := c <| co_selected_pair := no_pair |>.

(** The copy gets an address of its own; the last candidate goes when there
    are more than the maximum. *)
Definition nice_component_add_valid_candidate (a : NiceAgent) (sid cid : Z) (candidate : NiceCandidate) : res NiceAgent :=
  c ← the_component a sid cid;
  if existsb (fun cand => nice_candidate_equal_target cand candidate) (co_valid_candidates c) then Ok a
  else
    let l := nice_candidate_copy (a_next_ptr a) candidate :: co_valid_candidates c in
    let l := if NICE_COMPONENT_MAX_VALID_CANDIDATES <? zlen (co_valid_candidates c) then take (length l - 1) l else l in
    Ok ((upd_component a sid cid (fun c => c <| co_valid_candidates := l |>)) <| a_next_ptr := a_next_ptr a + 1 |>).

Definition nice_component_update_selected_pair (a : NiceAgent) (sid cid : Z) (pair : CandidatePair) : res NiceAgent :=
  c ← the_component a sid cid;
  a ← match sp_local (co_selected_pair c), co_turn_candidate c with
      | Some l, Some t =>
          if c_ptr l =? c_ptr t then
            let a := discovery_prune_socket a (c_sockptr t) in
            a ← conn_check_prune_socket a sid cid (c_sockptr t);
            a ← refresh_prune_candidate_async a t;
            Ok (upd_component a sid cid (fun c => c <| co_turn_candidate := None |>))
          else Ok a
      | _, _ => Ok a
      end;
  let a := upd_component a sid cid (fun c => (nice_component_clear_selected_pair c) <| co_selected_pair := pair |>) in
  match sp_remote pair with
  | Some r => nice_component_add_valid_candidate a sid cid r
  | None => Fault OutOfBounds
  end.

Section selection.
Context {K : Keepalive}.

Definition conn_check_update_selected_pair (a : NiceAgent) (sid cid pair : Z) : res NiceAgent :=
  c ← the_component a sid cid;
  x ← deref a pair;
  _ ← assert_ok (cp_nominated x);
  if sp_priority (co_selected_pair c) <? cp_priority x then
    let cpair := mkSelected (Some (cp_local x)) (Some (cp_remote x)) (cp_priority x) (cp_stun_priority x) true None 0 0 0 0 in
    a ← nice_component_update_selected_pair a sid cid cpair;
    '(_, a) ← keepalive_tick a;
    x ← deref a pair;
    Ok (log (FxNewSelectedPair (cp_stream_id x) cid (cp_local x) (cp_remote x)) a)
  else Ok a.

(** ** Failed components *)

(** The inner loop: whether a pair is nominated and whether all are done. *)
Fixpoint component_checks (a : NiceAgent) (sid cid : Z) (l : list Z) (nominated : Z) (completed : bool) : res (Z * bool) :=
  match l with
  | [] => Ok (nominated, completed)
  | p :: l =>
      x ← deref a p;
      _ ← assert_ok (cp_stream_id x =? sid);
      if cp_component_id x =? cid then
        component_checks a sid cid l (if cp_nominated x then nominated + 1 else nominated)
          (match cp_state x with
           | NICE_CHECK_FAILED | NICE_CHECK_SUCCEEDED | NICE_CHECK_DISCOVERED => completed
           | _ => false
           end)
      else component_checks a sid cid l nominated completed
  end.

Fixpoint failed_components_loop (a : NiceAgent) (sid : Z) (c : Z) (n : nat) : res NiceAgent :=
  match n with
  | O => Ok a
  | S n =>
      match agent_find_component a sid (c + 1) with
      | None => failed_components_loop a sid (c + 1) n
      | Some (s, component) =>
          '(nominated, completed) ← component_checks a sid (c + 1) (str_conncheck_list s) 0 true;
          a ← (if completed && (nominated =? 0) && negb (bool_decide (length (co_remote_candidates component) = 0%nat)) then
                 agent_signal_component_state_change a sid (c + 1) NICE_COMPONENT_STATE_FAILED
               else Ok a);
          failed_components_loop a sid (c + 1) n
      end
  end.

Definition priv_update_check_list_failed_components (a : NiceAgent) (sid : Z) : res NiceAgent :=
  s ← the_stream a sid;
  match str_conncheck_list s with
  | [] => Ok a
  | _ =>
      match a_discovery_list a with
      | [] => failed_components_loop a sid 0 (Z.to_nat (str_n_components s))
      | _ => Ok a
      end
  end.

(** ** Nomination by the peer *)

(** The link after that of [p], as [i->next] reads it when the loop body is
    done; a freed link is a fault. *)
Fixpoint next_link (l : list Z) (p : Z) : res (option Z) :=
  match l with
  | [] => Fault OutOfBounds
  | x :: l => if x =? p then Ok (list.head l) else next_link l p
  end.

(** The body for a pair that has the candidates looked for. *)
Definition mark_pair (a : NiceAgent) (sid cid pair : Z) : res (bool * NiceAgent) :=
  x ← deref a pair;
  pair ← match cp_discovered_pair x with
         | Some d =>
             if bool_decide (cp_state x = NICE_CHECK_SUCCEEDED) then
               y ← deref a d;
               _ ← assert_ok (bool_decide (cp_state y = NICE_CHECK_DISCOVERED));
               Ok d
             else Ok pair
         | None => Ok pair
         end;
  x ← deref a pair;
  let rfc := is_compatible_with_rfc5245_or_oc2007r2 a in
  let later := rfc && (bool_decide (pair ∈ a_triggered_check_queue a) || bool_decide (cp_state x = NICE_CHECK_IN_PROGRESS)) in
  a ← (if later then modify a pair (fun x => x <| cp_mark_nominated_on_response_arrival := true |>) else Ok a);
  a ← (if cp_valid x || negb rfc then modify a pair (fun x => x <| cp_nominated := true |>) else Ok a);
  a ← (if cp_valid x then
         c ← the_component a sid cid;
         a ← (if bool_decide (co_state c = NICE_COMPONENT_STATE_FAILED) then
                agent_signal_component_state_change a sid cid NICE_COMPONENT_STATE_CONNECTING
              else Ok a);
         a ← conn_check_update_selected_pair a sid cid pair;
         c ← the_component a sid cid;
         if bool_decide (co_state c = NICE_COMPONENT_STATE_CONNECTING) then
           agent_signal_component_state_change a sid cid NICE_COMPONENT_STATE_CONNECTED
         else Ok a
       else Ok a);
  x ← deref a pair;
  if cp_nominated x then a ← conn_check_update_check_list_state_for_ready a sid cid; Ok (true, a)
  else Ok (later, a).

Fixpoint mark_loop (fuel : nat) (a : NiceAgent) (sid cid : Z) (localcand remotecand : NiceCandidate) (i : option Z)
    (res : bool) : Prelude.res (bool * NiceAgent) :=
  match i with
  | None => Ok (res, a)
  | Some p =>
      match fuel with
      | O => Fault OutOfFuel
      | S fuel =>
          x ← deref a p;
          '(r, a) ← (if (c_ptr (cp_local x) =? c_ptr localcand) && (c_ptr (cp_remote x) =? c_ptr remotecand) then
                       mark_pair a sid cid p
                     else Ok (false, a));
          s ← the_stream a sid;
          next ← next_link (str_conncheck_list s) p;
          mark_loop fuel a sid cid localcand remotecand next (res || r)
      end
  end.

Definition priv_mark_pair_nominated (a : NiceAgent) (sid cid : Z) (localcand remotecand : NiceCandidate)
    : res (bool * NiceAgent) :=
  if is_compatible_with_rfc5245_or_oc2007r2 a && a_controlling_mode a then Ok (false, a)
  else
    s ← the_stream a sid;
    mark_loop (length (str_conncheck_list s)) a sid cid localcand remotecand (list.head (str_conncheck_list s)) false.

End selection.

(** ** The size limit *)

Fixpoint limit_loop (a : NiceAgent) (sid pair : Z) (l : list Z) (valid : Z) (deleted : bool) : res (bool * NiceAgent) :=
  match l with
  | [] => Ok (deleted, a)
  | p :: l =>
      x ← deref a p;
      let valid := valid + 1 in
      if ((a_max_conn_checks a <? valid) && bool_decide (cp_state x = NICE_CHECK_FROZEN))
         || bool_decide (cp_state x = NICE_CHECK_FAILED) then
        a ← free_and_delete a sid p;
        limit_loop a sid pair l valid (deleted || (p =? pair))
      else limit_loop a sid pair l valid deleted
  end.

Definition priv_limit_conn_check_list_size (a : NiceAgent) (sid pair : Z) : res (bool * NiceAgent) :=
  s ← the_stream a sid;
  limit_loop a sid pair (str_conncheck_list s) 0 false.

(** ** New pairs *)

(** [conn_check_compare (a, b) <= 0]: [a] comes before [b]. *)
Definition conn_check_compare (x y : CandidateCheckPair) : Z :=
  if cp_priority y <? cp_priority x then -1 else if cp_priority x <? cp_priority y then 1 else 0.

(** [g_slist_insert_sorted]: before the first link whose pair does not come
    before the new one. *)
Fixpoint insert_sorted (a : NiceAgent) (p : Z) (x : CandidateCheckPair) (l : list Z) : res (list Z) :=
  match l with
  | [] => Ok [p]
  | q :: l' =>
      y ← deref a q;
      if 0 <? conn_check_compare x y then k ← insert_sorted a p x l'; Ok (q :: k) else Ok (p :: l)
  end.

(** Put a new pair on the heap and on the check list of its stream. *)
Definition add_pair (a : NiceAgent) (sid : Z) (x : CandidateCheckPair) : res (Z * NiceAgent) :=
  s ← the_stream a sid;
  let p := a_next_ptr a in
  l ← insert_sorted a p x (str_conncheck_list s);
  let a := a <| a_pairs := <[p := x]> (a_pairs a) |> <| a_next_ptr := p + 1 |> in
  Ok (p, upd_stream a sid (fun s => s <| str_conncheck_list := l |>)).

Definition pair_foundation (l r : list Z) : list Z :=
  take (Z.to_nat (NICE_CANDIDATE_PAIR_MAX_FOUNDATION - 1)) (l ++ [58] ++ r).

Definition conn_check_match_transport (transport : NiceCandidateTransport) : NiceCandidateTransport :=
  match transport with
  | NICE_CANDIDATE_TRANSPORT_TCP_ACTIVE => NICE_CANDIDATE_TRANSPORT_TCP_PASSIVE
  | NICE_CANDIDATE_TRANSPORT_TCP_PASSIVE => NICE_CANDIDATE_TRANSPORT_TCP_ACTIVE
  | NICE_CANDIDATE_TRANSPORT_TCP_SO | NICE_CANDIDATE_TRANSPORT_UDP => transport
  end.

Definition is_linklocal_to_non_linklocal (laddr raddr : NiceAddress) : res bool :=
  l ← nice_address_is_linklocal laddr;
  r ← nice_address_is_linklocal raddr;
  Ok (negb (Bool.eqb l r)).

Section pairs.
Context {N : NetEnv}.

Definition peer_reflexive_candidate_priority (a : NiceAgent) (local : NiceCandidate) : res Z :=
  let c := mkCandidate 0 NICE_CANDIDATE_TYPE_PEER_REFLEXIVE (c_transport local) (sockaddr_other 0) (c_addr local) 0 0
             (c_component_id local) [] None None None None 0 None in
  match a_compatibility a with
  | NICE_COMPATIBILITY_GOOGLE => Ok (nice_candidate_jingle_priority c)
  | NICE_COMPATIBILITY_MSN | NICE_COMPATIBILITY_OC2007 => Ok (nice_candidate_msn_priority c)
  | NICE_COMPATIBILITY_OC2007R2 => nice_candidate_ms_ice_priority c (a_reliable a) false
  | NICE_COMPATIBILITY_RFC5245 | NICE_COMPATIBILITY_WLM2009 => nice_candidate_ice_priority c (a_reliable a) false
  end.

Definition stun_request_priority (a : NiceAgent) (local : NiceCandidate) : res Z :=
  match c_type local with
  | NICE_CANDIDATE_TYPE_HOST => peer_reflexive_candidate_priority a local
  | _ => Ok (c_priority local)
  end.

(** [None] is the return of NULL. *)
Definition priv_add_new_check_pair (a : NiceAgent) (sid cid : Z) (local remote : NiceCandidate)
    (initial_state : NiceCheckState) : res (option Z * NiceAgent) :=
  let priority := agent_candidate_pair_priority (a_controlling_mode a) local remote in
  c ← the_component a sid cid;
  let selected := sp_priority (co_selected_pair c) in
  if negb (selected =? 0) && (priority <? selected) then Ok (None, a)
  else
    let sockptr :=
      if bool_decide (c_transport local = NICE_CANDIDATE_TRANSPORT_TCP_PASSIVE) &&
         bool_decide (c_type remote = NICE_CANDIDATE_TYPE_PEER_REFLEXIVE) then c_sockptr remote
      else c_sockptr local in
    stun_priority ← stun_request_priority a local;
    let x := mkPair sid cid local remote sockptr (pair_foundation (c_foundation local) (c_foundation remote))
               initial_state false false false false false None None priority stun_priority [] in
    '(p, a) ← add_pair a sid x;
    let a := priv_schedule_next a in
    a ← (if bool_decide (initial_state = NICE_CHECK_FROZEN) then priv_conn_check_unfreeze_maybe a p else Ok a);
    if bool_decide (a_compatibility a = NICE_COMPATIBILITY_RFC5245) then
      '(deleted, a) ← priv_limit_conn_check_list_size a sid p;
      Ok (if deleted : bool then None else Some p, a)
    else Ok (Some p, a).

Definition priv_conn_check_add_for_candidate_pair_matched (a : NiceAgent) (sid cid : Z) (local remote : NiceCandidate)
    (initial_state : NiceCheckState) : res (option Z * NiceAgent) :=
  '(np, a) ← priv_add_new_check_pair a sid cid local remote initial_state;
  match np with
  | None => Ok (None, a)
  | Some p =>
      c ← the_component a sid cid;
      a ← match co_state c with
          | NICE_COMPONENT_STATE_CONNECTED | NICE_COMPONENT_STATE_READY =>
              agent_signal_component_state_change a sid cid NICE_COMPONENT_STATE_CONNECTED
          | _ => agent_signal_component_state_change a sid cid NICE_COMPONENT_STATE_CONNECTING
          end;
      Ok (Some p, a)
  end.

Definition conn_check_add_for_candidate_pair (a : NiceAgent) (sid cid : Z) (local remote : NiceCandidate)
    : res (bool * NiceAgent) :=
  let reflexive := bool_decide (c_type local = NICE_CANDIDATE_TYPE_SERVER_REFLEXIVE) ||
                   bool_decide (c_type local = NICE_CANDIDATE_TYPE_PEER_REFLEXIVE) in
  let rfc := bool_decide (a_compatibility a = NICE_COMPATIBILITY_RFC5245) ||
             bool_decide (a_compatibility a = NICE_COMPATIBILITY_WLM2009) ||
             bool_decide (a_compatibility a = NICE_COMPATIBILITY_OC2007R2) in
  if rfc && reflexive then Ok (false, a)
  else if bool_decide (c_transport local = NICE_CANDIDATE_TRANSPORT_TCP_PASSIVE) then Ok (false, a)
  else if bool_decide (c_transport local = conn_check_match_transport (c_transport remote)) &&
          same_family (c_addr local) (c_addr remote) then
    crossed ← is_linklocal_to_non_linklocal (c_addr local) (c_addr remote);
    if crossed : bool then Ok (false, a)
    else
      '(np, a) ← priv_conn_check_add_for_candidate_pair_matched a sid cid local remote NICE_CHECK_FROZEN;
      Ok (match np with Some _ => true | None => false end, a)
  else Ok (false, a).

Fixpoint add_for_candidate_loop (a : NiceAgent) (sid cid : Z) (l : list NiceCandidate) (remote : NiceCandidate) (added : Z)
    : res (Z * NiceAgent) :=
  match l with
  | [] => Ok (added, a)
  | local :: l =>
      if a_force_relay a && negb (bool_decide (c_type local = NICE_CANDIDATE_TYPE_RELAYED)) then
        add_for_candidate_loop a sid cid l remote added
      else
        '(ret, a) ← conn_check_add_for_candidate_pair a sid cid local remote;
        add_for_candidate_loop a sid cid l remote (if ret : bool then added + 1 else added)
  end.

Definition conn_check_add_for_candidate (a : NiceAgent) (sid cid : Z) (remote : NiceCandidate) : res (Z * NiceAgent) :=
  if is_compatible_with_rfc5245_or_oc2007r2 a && bool_decide (c_type remote = NICE_CANDIDATE_TYPE_PEER_REFLEXIVE) then
    Ok (0, a)
  else
    c ← the_component a sid cid;
    add_for_candidate_loop a sid cid (co_local_candidates c) remote 0.

Fixpoint add_for_local_loop (a : NiceAgent) (sid cid : Z) (l : list NiceCandidate) (local : NiceCandidate) (added : Z)
    : res (Z * NiceAgent) :=
  match l with
  | [] => Ok (added, a)
  | remote :: l =>
      '(ret, a) ← conn_check_add_for_candidate_pair a sid cid local remote;
      add_for_local_loop a sid cid l local (if ret : bool then added + 1 else added)
  end.

Definition conn_check_add_for_local_candidate (a : NiceAgent) (sid cid : Z) (local : NiceCandidate) : res (Z * NiceAgent) :=
  if is_compatible_with_rfc5245_or_oc2007r2 a && bool_decide (c_type local = NICE_CANDIDATE_TYPE_PEER_REFLEXIVE) then
    Ok (0, a)
  else
    c ← the_component a sid cid;
    add_for_local_loop a sid cid (co_remote_candidates c) local 0.
End pairs.
