(* ===== verification/CheckDriver.v ===== *)
(** * Connectivity checks: triggering, nomination and roles (agent/conncheck.c)

    Triggered checks, the nomination step of the timer, peer-reflexive pairs,
    role conflicts, the credentials of a check, and tearing down check
    lists. *)
From S2P Require Import Prelude CMem StunTypes StunMessage StunAgent StunTimer Address Candidate IceTypes IceEnv CheckList.
Local Open Scope Z_scope.

(** * Looking up streams and components

    What [agent_find_stream] and [agent_find_component] find after an
    assignment to a stream or a component. *)

Lemma upd_first_find {A} (P : A -> Prop) `{forall x, Decision (P x)} (b : A -> bool) f l :
  (forall x, b x = bool_decide (P x)) -> (forall x, P (f x) <-> P x) ->
  snd <$> list_find P (upd_first b f l) = f <$> (snd <$> list_find P l).
Proof.
  intros Hb Hf. induction l as [|x l IH]; [done|]. cbn [upd_first]. rewrite Hb. destruct (bool_decide_reflect (P x)) as [Hx|Hx]; cbn [list_find].
  - rewrite decide_True by (by apply Hf). by rewrite decide_True by done.
  - rewrite !decide_False by done. destruct (list_find P (upd_first b f l)) as [[]|], (list_find P l) as [[]|]; by cbn in *; simplify_eq.
Qed.

Lemma upd_first_other {A} (P Q : A -> Prop) `{forall x, Decision (P x)} (b : A -> bool) f l :
  (forall x, b x = true -> Q x) -> (forall x, Q x -> ~ P x) -> (forall x, Q x -> Q (f x)) ->
  snd <$> list_find P (upd_first b f l) = snd <$> list_find P l.
Proof.
  intros Hb HQ Hf. induction l as [|x l IH]; [done|]. cbn [upd_first]. destruct (b x) eqn:E; cbn [list_find].
  - assert (Q x) by auto. by rewrite !decide_False by auto.
  - destruct (decide (P x)); [done|]. destruct (list_find P (upd_first b f l)) as [[]|], (list_find P l) as [[]|]; by cbn in *; simplify_eq.
Qed.

Lemma find_stream_upd a sid f : (forall s, str_id (f s) = str_id s) ->
  agent_find_stream (upd_stream a sid f) sid = f <$> agent_find_stream a sid.
Proof. intros Hf. apply upd_first_find; [intros s; apply eq_true_iff_eq; by rewrite Z.eqb_eq, bool_decide_eq_true|intros s; by rewrite Hf]. Qed.

Lemma the_component_inv a sid cid c : the_component a sid cid = Ok c ->
  exists s, agent_find_stream a sid = Some s /\ nice_stream_find_component_by_id s cid = Some c.
Proof.
  unfold the_component, agent_find_component. destruct (agent_find_stream a sid) as [s|]; [|done]. cbn.
  destruct (nice_stream_find_component_by_id s cid) as [c'|] eqn:Hc; [|done]. intros [= ->]. eauto.
Qed.

Lemma the_component_intro a sid cid s c : agent_find_stream a sid = Some s -> nice_stream_find_component_by_id s cid = Some c ->
  the_component a sid cid = Ok c.
Proof. intros Hs Hc. unfold the_component, agent_find_component. rewrite Hs. cbn. by rewrite Hc. Qed.

Lemma the_component_upd a sid cid f c : (forall c, co_id (f c) = co_id c) -> the_component a sid cid = Ok c ->
  the_component (upd_component a sid cid f) sid cid = Ok (f c).
Proof.
  intros Hf (s & Hs & Hc)%the_component_inv. eapply the_component_intro.
  - unfold upd_component. rewrite find_stream_upd by done. by rewrite Hs.
  - unfold nice_stream_find_component_by_id in *. rsimpl. rewrite upd_first_find; [by rewrite Hc| |].
    + intros x. apply eq_true_iff_eq. by rewrite Z.eqb_eq, bool_decide_eq_true.
    + intros x. by rewrite Hf.
Qed.

Lemma the_component_log e a sid cid : the_component (log e a) sid cid = the_component a sid cid.
Proof. done. Qed.

(** ** Tearing down *)

Fixpoint free_pairs (a : NiceAgent) (l : list Z) : res NiceAgent :=
  match l with
  | [] => Ok a
  | p :: l => a ← candidate_check_pair_free a p; free_pairs a l
  end.

(** The check list of one stream. *)
Definition free_conncheck_list (a : NiceAgent) (sid : Z) : res NiceAgent :=
  s ← the_stream a sid;
  a ← free_pairs a (str_conncheck_list s);
  Ok (upd_stream a sid (fun s => s <| str_conncheck_list := [] |>)).

Fixpoint conn_check_free_loop (a : NiceAgent) (l : list NiceStream) : res NiceAgent :=
  match l with
  | [] => Ok a
  | s :: l => a ← free_conncheck_list a (str_id s); conn_check_free_loop a l
  end.

Definition conn_check_free (a : NiceAgent) : res NiceAgent :=
  a ← conn_check_free_loop a (a_streams a);
  Ok (conn_check_stop a).

Definition conn_check_prune_stream (a : NiceAgent) (sid : Z) : res NiceAgent :=
  a ← free_conncheck_list a sid;
  Ok (if forallb (fun s => bool_decide (str_conncheck_list s = [])) (a_streams a) then conn_check_stop a else a).

(** ** Triggered checks *)

Fixpoint find_triggered (a : NiceAgent) (cid : Z) (local_socket : option Z) (remote_cand : NiceCandidate) (l : list Z)
    : res (option Z) :=
  match l with
  | [] => Ok None
  | p :: l =>
      x ← deref a p;
      if (cp_component_id x =? cid) && (c_ptr (cp_remote x) =? c_ptr remote_cand) &&
         bool_decide (cp_sockptr x = local_socket) then Ok (Some p)
      else find_triggered a cid local_socket remote_cand l
  end.

(** The switch on the state of the pair found. *)
Definition trigger_pair (a : NiceAgent) (sid cid p : Z) : res NiceAgent :=
  x ← deref a p;
  c ← the_component a sid cid;
  let better := sp_priority (co_selected_pair c) <? cp_priority x in
  match cp_state x with
  | NICE_CHECK_WAITING | NICE_CHECK_FROZEN => Ok (priv_add_pair_to_triggered_check_queue a p)
  | NICE_CHECK_IN_PROGRESS => Ok (if better then priv_add_pair_to_triggered_check_queue a p else a)
  | NICE_CHECK_FAILED =>
      if better then
        let a := priv_add_pair_to_triggered_check_queue a p in
        match co_state c with
        | NICE_COMPONENT_STATE_FAILED => agent_signal_component_state_change a sid cid NICE_COMPONENT_STATE_CONNECTING
        | NICE_COMPONENT_STATE_READY => agent_signal_component_state_change a sid cid NICE_COMPONENT_STATE_CONNECTED
        | _ => Ok a
        end
      else Ok a
  | NICE_CHECK_SUCCEEDED | NICE_CHECK_DISCOVERED => Ok a
  end.

Section trigger.
Context {N : NetEnv}.

Definition priv_schedule_triggered_check (a : NiceAgent) (sid cid : Z) (local_socket : option Z) (remote_cand : NiceCandidate)
    : res (bool * NiceAgent) :=
  s ← the_stream a sid;
  found ← find_triggered a cid local_socket remote_cand (str_conncheck_list s);
  match found with
  | Some p =>
      x ← deref a p;
      p ← match cp_succeeded_pair x with
          | Some q => _ ← assert_ok (bool_decide (cp_state x = NICE_CHECK_DISCOVERED)); Ok q
          | None => Ok p
          end;
      a ← trigger_pair a sid cid p;
      Ok (true, a)
  | None =>
      c ← the_component a sid cid;
      match list_find (fun l => c_sockptr l = local_socket) (co_local_candidates c) with
      | Some (_, local) =>
          '(np, a) ← priv_conn_check_add_for_candidate_pair_matched a sid cid local remote_cand NICE_CHECK_WAITING;
          Ok (true, match np with Some p => priv_add_pair_to_triggered_check_queue a p | None => a end)
      | None => Ok (false, a)
      end
  end.
End trigger.

(** ** Peer-reflexive pairs *)

Definition priv_add_peer_reflexive_pair (a : NiceAgent) (sid cid : Z) (local_cand : NiceCandidate) (parent_pair : Z)
    : res (Z * NiceAgent) :=
  parent ← deref a parent_pair;
  let p := a_next_ptr a in
  a ← modify a parent_pair (fun x => x <| cp_discovered_pair := Some p |>);
  let priority :=
    if a_controlling_mode a then nice_candidate_pair_priority (c_priority local_cand) (c_priority (cp_remote parent))
    else nice_candidate_pair_priority (c_priority (cp_remote parent)) (c_priority local_cand) in
  add_pair a sid
    (mkPair sid cid local_cand (cp_remote parent) (c_sockptr local_cand)
       (pair_foundation (c_foundation local_cand) (c_foundation (cp_remote parent)))
       NICE_CHECK_DISCOVERED (cp_nominated parent) false false false false None (Some parent_pair)
       priority (cp_stun_priority parent) []).

(** ** Roles *)

Fixpoint recalculate_loop (a : NiceAgent) (l : list Z) : res NiceAgent :=
  match l with
  | [] => Ok a
  | p :: l =>
      x ← deref a p;
      a ← modify a p (fun x => x <| cp_priority := agent_candidate_pair_priority (a_controlling_mode a) (cp_local x) (cp_remote x) |>);
      recalculate_loop a l
  end.

(** [g_slist_sort], a stable sort. *)
Fixpoint sort_pairs (a : NiceAgent) (l : list Z) : res (list Z) :=
  match l with
  | [] => Ok []
  | p :: l => k ← sort_pairs a l; x ← deref a p; insert_sorted a p x k
  end.

Definition recalculate_stream (a : NiceAgent) (s : NiceStream) : res NiceAgent :=
  a ← recalculate_loop a (str_conncheck_list s);
  l ← sort_pairs a (str_conncheck_list s);
  Ok (upd_stream a (str_id s) (fun s => s <| str_conncheck_list := l |>)).

Fixpoint recalculate_streams (a : NiceAgent) (l : list NiceStream) : res NiceAgent :=
  match l with
  | [] => Ok a
  | s :: l => a ← recalculate_stream a s; recalculate_streams a l
  end.

Definition recalculate_pair_priorities (a : NiceAgent) : res NiceAgent := recalculate_streams a (a_streams a).

Definition priv_check_for_role_conflict (a : NiceAgent) (control : bool) : res NiceAgent :=
  if negb (Bool.eqb control (a_controlling_mode a)) then
    recalculate_pair_priorities (a <| a_controlling_mode := control |>)
  else Ok a.

(** ** Credentials and timing of a check *)

Fixpoint active_checks (a : NiceAgent) (l : list Z) : res Z :=
  match l with
  | [] => Ok 0
  | p :: l =>
      x ← deref a p;
      n ← active_checks a l;
      Ok (match cp_state x with NICE_CHECK_IN_PROGRESS | NICE_CHECK_WAITING => 1 + n | _ => n end)
  end.

Definition priv_compute_conncheck_timer (a : NiceAgent) : res Z :=
  waiting_and_in_progress ← active_checks a (all_checks a);
  let rto := u32 (a_timer_ta a * waiting_and_in_progress) in
  Ok (Z.max rto STUN_TIMER_DEFAULT_TIMEOUT).

(** ["%d"] of a component id. *)
Fixpoint decimal_digits (fuel : nat) (n : Z) : list Z :=
  match fuel with
  | O => []
  | S fuel => (if n <? 10 then [] else decimal_digits fuel (n / 10)) ++ [48 + n mod 10]
  end.

Section credentials.
Context {B : Base64}.

(** The bytes written to [dest]; their number is the value returned. *)
Definition priv_gen_username (a : NiceAgent) (component_id : Z) (remote local : list Z) (dest_len : Z) : list Z :=
  if (0 <? zlen remote) && (0 <? zlen local) then
    match a_compatibility a with
    | NICE_COMPATIBILITY_RFC5245 =>
        if zlen remote + zlen local + 1 <=? dest_len then remote ++ [58] ++ local else []
    | NICE_COMPATIBILITY_WLM2009 | NICE_COMPATIBILITY_OC2007R2 =>
        if zlen remote + zlen local + 4 <=? dest_len then
          let u := remote ++ [58] ++ local in
          if negb (zlen u mod 4 =? 0) then u ++ replicate (Z.to_nat (4 - zlen u mod 4)) 0 else u
        else []
    | NICE_COMPATIBILITY_GOOGLE => if zlen remote + zlen local <=? dest_len then remote ++ local else []
    | NICE_COMPATIBILITY_MSN | NICE_COMPATIBILITY_OC2007 =>
        let component_str := take 9 (decimal_digits 20 component_id) in
        let local_decoded := g_base64_decode local in
        let remote_decoded := g_base64_decode remote in
        let total_len := zlen remote_decoded + zlen local_decoded + 3 + 2 * zlen component_str in
        let padding := 4 - total_len mod 4 in
        if total_len + padding <=? dest_len then
          remote_decoded ++ [58] ++ component_str ++ [58] ++ local_decoded ++ [58] ++ component_str
            ++ replicate (Z.to_nat padding) 0
        else []
    end
  else [].

(** [None] for the strings is a null pointer. *)
Definition priv_create_username (a : NiceAgent) (stream : option NiceStream) (component_id : Z)
    (remote local : option NiceCandidate) (dest_len : Z) (inbound : bool) : list Z :=
  let remote_username := match remote with Some r => c_username r | None => None end in
  let local_username := match local with Some l => c_username l | None => None end in
  let remote_username :=
    match remote_username, stream with None, Some s => Some (str_remote_ufrag s) | _, _ => remote_username end in
  let local_username :=
    match local_username, stream with None, Some s => Some (str_local_ufrag s) | _, _ => local_username end in
  match local_username, remote_username with
  | Some l, Some r =>
      if inbound then priv_gen_username a component_id l r dest_len else priv_gen_username a component_id r l dest_len
  | _, _ => []
  end.

Definition priv_get_password (a : NiceAgent) (stream : option NiceStream) (remote : option NiceCandidate) : option (list Z) :=
  match a_compatibility a with
  | NICE_COMPATIBILITY_GOOGLE => None
  | _ =>
      match remote, stream with
      | Some r, _ =>
          match c_password r, stream with
          | Some p, _ => Some p
          | None, Some s => Some (str_remote_password s)
          | None, None => None
          end
      | None, Some s => Some (str_remote_password s)
      | None, None => None
      end
  end.
End credentials.
