(* ===== verification/Discovery.v ===== *)
(** * Local and remote candidates (agent/discovery.c)

    Creating host, server-reflexive, relayed and peer-reflexive candidates:
    elimination of redundant candidates, foundations, credentials. *)
From S2P Require Import Prelude CMem StunTypes StunMessage StunAgent StunTimer Address Candidate IceTypes IceEnv CheckList CheckDriver.
Local Open Scope Z_scope.

Inductive HostCandidateResult : Set :=
  | HOST_CANDIDATE_SUCCESS
  | HOST_CANDIDATE_FAILED
  | HOST_CANDIDATE_CANT_CREATE_SOCKET
  | HOST_CANDIDATE_REDUNDANT
  | HOST_CANDIDATE_DUPLICATE_PORT.

(** [g_snprintf (foundation, NICE_CANDIDATE_MAX_FOUNDATION, ...)] and
    [g_strlcpy] keep this much. *)
Definition foundation_text (s : list Z) : list Z := take (Z.to_nat (NICE_CANDIDATE_MAX_FOUNDATION - 1)) s.

(** ["%u"]. *)
Definition decimal (n : Z) : list Z := decimal_digits 20 n.

(** Every local, remote candidate, in the order the loops visit them. *)
Definition all_local_candidates (a : NiceAgent) : list NiceCandidate :=
  flat_map (fun s => flat_map co_local_candidates (str_components s)) (a_streams a).
Definition all_remote_candidates (a : NiceAgent) : list NiceCandidate :=
  flat_map (fun s => flat_map co_remote_candidates (str_components s)) (a_streams a).

(** ** Redundant candidates *)

Definition same_type (c d : NiceCandidate) (t : NiceCandidateType) : bool :=
  bool_decide (c_type c = t) && bool_decide (c_type d = t).

Definition redundant (c candidate : NiceCandidate) : bool :=
  (nice_address_equal (c_base_addr c) (c_base_addr candidate) && nice_address_equal (c_addr c) (c_addr candidate) &&
   bool_decide (c_transport c = c_transport candidate)) ||
  (same_type c candidate NICE_CANDIDATE_TYPE_RELAYED && bool_decide (c_transport c = c_transport candidate) &&
   nice_address_equal_no_port (c_addr c) (c_addr candidate)) ||
  (same_type c candidate NICE_CANDIDATE_TYPE_SERVER_REFLEXIVE && bool_decide (c_transport c = c_transport candidate) &&
   nice_address_equal_no_port (c_addr c) (c_addr candidate)).

(** ** Foundations *)

(** The text ["remote%u"]. *)
Definition remote_foundation (n : Z) : list Z := foundation_text ([114; 101; 109; 111; 116; 101] ++ decimal n).

Fixpoint highest_loop (fuel : nat) (remotes : list NiceCandidate) (highest : Z) : res Z :=
  match fuel with
  | O => Fault OutOfFuel
  | S fuel =>
      if existsb (fun cand => strncmp_eq (remote_foundation highest) (c_foundation cand) NICE_CANDIDATE_MAX_FOUNDATION) remotes then
        highest_loop fuel remotes (u32 (highest + 1))
      else Ok highest
  end.

(** One more round than there are remote candidates. *)
Definition priv_highest_remote_foundation (component : NiceComponent) : res Z :=
  highest_loop (S (length (co_remote_candidates component))) (co_remote_candidates component) 1.

Definition priv_compare_turn_servers (turn1 turn2 : option TurnServer) : bool :=
  match turn1, turn2 with
  | None, None => true
  | Some t1, Some t2 => (ts_ptr t1 =? ts_ptr t2) || nice_address_equal_no_port (ts_server t1) (ts_server t2)
  | _, _ => false
  end.

(** Whether [candidate] takes the foundation of [n]. *)
Definition shares_foundation (a : NiceAgent) (candidate n : NiceCandidate) : bool :=
  let relayed := bool_decide (c_type candidate = NICE_CANDIDATE_TYPE_RELAYED) in
  bool_decide (c_type candidate = c_type n) && bool_decide (c_transport candidate = c_transport n) &&
  (if relayed then
     nice_address_equal_no_port (c_addr candidate) (c_addr n) && priv_compare_turn_servers (c_turn candidate) (c_turn n) &&
     negb (bool_decide (a_compatibility a = NICE_COMPATIBILITY_GOOGLE))
   else nice_address_equal_no_port (c_base_addr candidate) (c_base_addr n)).

(** The first such candidate; [candidate] itself must not be on the list. *)
Fixpoint find_foundation (P : NiceCandidate -> bool) (candidate : NiceCandidate) (l : list NiceCandidate) : res (option NiceCandidate) :=
  match l with
  | [] => Ok None
  | n :: l =>
      _ ← assert_ok (negb (c_ptr candidate =? c_ptr n));
      if P n then Ok (Some n) else find_foundation P candidate l
  end.

(** The foundation and the credentials of [n]. *)
Definition copy_foundation (candidate n : NiceCandidate) : NiceCandidate :=
  let candidate := candidate <| c_foundation := foundation_text (c_foundation n) |> in
  let candidate := match c_username n with Some u => candidate <| c_username := Some u |> | None => candidate end in
  match c_password n with Some p => candidate <| c_password := Some p |> | None => candidate end.

Definition priv_assign_foundation (a : NiceAgent) (candidate : NiceCandidate) : res (NiceCandidate * NiceAgent) :=
  found ← find_foundation (shares_foundation a candidate) candidate (all_local_candidates a);
  match found with
  | Some n => Ok (copy_foundation candidate n, a)
  | None =>
      Ok (candidate <| c_foundation := foundation_text (decimal (a_next_candidate_id a)) |>,
          a <| a_next_candidate_id := u32 (a_next_candidate_id a + 1) |>)
  end.

(** The last component visited that has the id. *)
Definition last_component (a : NiceAgent) (cid : Z) : option NiceComponent :=
  last (filter (fun c => co_id c = cid) (flat_map str_components (a_streams a))).

Definition priv_assign_remote_foundation (a : NiceAgent) (candidate : NiceCandidate) : res NiceCandidate :=
  found ← find_foundation (fun n =>
      bool_decide (c_type candidate = c_type n) && bool_decide (c_transport candidate = c_transport n) &&
      (c_stream_id candidate =? c_stream_id n) && nice_address_equal_no_port (c_addr candidate) (c_addr n))
    candidate (all_remote_candidates a);
  match found with
  | Some n => Ok (copy_foundation candidate n)
  | None =>
      match last_component a (c_component_id candidate) with
      | Some component =>
          next_remote_id ← priv_highest_remote_foundation component;
          Ok (candidate <| c_foundation := remote_foundation next_remote_id |>)
      | None => Ok candidate
      end
  end.

(** ** Host candidates with the same port *)

(** The candidates of the loops with the ids of their stream and component. *)
Definition located_candidates (a : NiceAgent) : list (Z * Z * NiceCandidate) :=
  flat_map (fun s => flat_map (fun c => (fun l => (str_id s, co_id c, l)) <$> co_local_candidates c) (str_components s)) (a_streams a).

Definition same_port (candidate c : NiceCandidate) : bool :=
  bool_decide (c_transport candidate = c_transport c) &&
  (nice_address_ip_version (c_addr candidate) =? nice_address_ip_version (c_addr c)) &&
  (nice_address_get_port (c_addr candidate) =? nice_address_get_port (c_addr c)).

Definition priv_local_host_candidate_duplicate_port (a : NiceAgent) (candidate : NiceCandidate) (accept_duplicate : bool) : bool :=
  if bool_decide (c_transport candidate = NICE_CANDIDATE_TRANSPORT_TCP_ACTIVE) then false
  else
    match list_find (fun x => same_port candidate x.2 = true) (located_candidates a) with
    | Some (_, (sid, cid, _)) => negb (accept_duplicate && (c_stream_id candidate =? sid) && (c_component_id candidate =? cid))
    | None => false
    end.

(** ** New candidates *)

Section candidates.
Context {E : CheckEnv} {B : Base64} {N : NetEnv}.

Definition priv_add_local_candidate_pruned (a : NiceAgent) (sid cid : Z) (candidate : NiceCandidate) : res (bool * NiceAgent) :=
  component ← the_component a sid cid;
  if existsb (fun c => redundant c candidate) (co_local_candidates component) then Ok (false, a)
  else
    let a := upd_component a sid cid (fun c => c <| co_local_candidates := co_local_candidates c ++ [candidate] |>) in
    '(_, a) ← conn_check_add_for_local_candidate a sid cid candidate;
    Ok (true, a).

Definition priv_generate_candidate_credentials (a : NiceAgent) (candidate : NiceCandidate) : NiceCandidate * NiceAgent :=
  match a_compatibility a with
  | NICE_COMPATIBILITY_MSN | NICE_COMPATIBILITY_OC2007 =>
      let username := nice_rng_generate_bytes (a_log a) 32 in
      let a := log (FxRandom 32) a in
      let password := nice_rng_generate_bytes (a_log a) 16 in
      (candidate <| c_username := Some (g_base64_encode username) |> <| c_password := Some (g_base64_encode password) |>,
       log (FxRandom 16) a)
  | NICE_COMPATIBILITY_GOOGLE =>
      let username := nice_rng_generate_bytes_print (a_log a) 16 in
      (candidate <| c_password := None |> <| c_username := Some username |>, log (FxRandom 16) a)
  | _ => (candidate, a)
  end.

(** The priority of a candidate in the compatibility mode of the agent. *)
Definition candidate_priority (a : NiceAgent) (candidate : NiceCandidate) (nat_assisted : bool) : res Z :=
  match a_compatibility a with
  | NICE_COMPATIBILITY_GOOGLE => Ok (nice_candidate_jingle_priority candidate)
  | NICE_COMPATIBILITY_MSN | NICE_COMPATIBILITY_OC2007 => Ok (nice_candidate_msn_priority candidate)
  | NICE_COMPATIBILITY_OC2007R2 => nice_candidate_ms_ice_priority candidate (a_reliable a) nat_assisted
  | NICE_COMPATIBILITY_RFC5245 | NICE_COMPATIBILITY_WLM2009 => nice_candidate_ice_priority candidate (a_reliable a) nat_assisted
  end.

(** [nice_candidate_new] takes the next free address. *)
Definition new_candidate (a : NiceAgent) (type : NiceCandidateType) : NiceCandidate * NiceAgent :=
  (nice_candidate_new (a_next_ptr a) type, a <| a_next_ptr := a_next_ptr a + 1 |>).

(** The socket of a host candidate. *)
Definition open_host_socket (a : NiceAgent) (transport : NiceCandidateTransport) (address : NiceAddress) : new_socket * NiceAgent :=
  let r := match transport with
           | NICE_CANDIDATE_TRANSPORT_UDP => nice_udp_bsd_socket_new (a_log a) address
           | NICE_CANDIDATE_TRANSPORT_TCP_ACTIVE => nice_tcp_active_socket_new (a_log a) address
           | NICE_CANDIDATE_TRANSPORT_TCP_PASSIVE => nice_tcp_passive_socket_new (a_log a) address
           | NICE_CANDIDATE_TRANSPORT_TCP_SO => SocketFailed
           end in
  (r, log (FxCreateSocket None address) a).

(** The candidate is the value stored at [*outcandidate]. *)
Definition discovery_add_local_host_candidate (a : NiceAgent) (sid cid : Z) (address : NiceAddress)
    (transport : NiceCandidateTransport) (accept_duplicate : bool)
    : res (HostCandidateResult * option NiceCandidate * NiceAgent) :=
  match agent_find_component a sid cid with
  | None => Ok (HOST_CANDIDATE_FAILED, None, a)
  | Some _ =>
      let '(nicesock, a) := open_host_socket a transport address in
      match nicesock with
      | SocketAddressInUse => Ok (HOST_CANDIDATE_DUPLICATE_PORT, None, a)
      | SocketFailed => Ok (HOST_CANDIDATE_CANT_CREATE_SOCKET, None, a)
      | SocketCreated nicesock =>
          let '(candidate, a) := new_candidate a NICE_CANDIDATE_TYPE_HOST in
          let candidate := candidate <| c_transport := transport |> <| c_stream_id := sid |> <| c_component_id := cid |>
                             <| c_addr := address |> <| c_base_addr := address |> in
          priority ← candidate_priority a candidate false;
          let '(candidate, a) := priv_generate_candidate_credentials a (candidate <| c_priority := priority |>) in
          '(candidate, a) ← priv_assign_foundation a candidate;
          let candidate := candidate <| c_sockptr := Some nicesock |> <| c_addr := socket_addr (Some nicesock) |>
                             <| c_base_addr := socket_addr (Some nicesock) |> in
          if priv_local_host_candidate_duplicate_port a candidate accept_duplicate then
            Ok (HOST_CANDIDATE_DUPLICATE_PORT, None, log (FxFreeSocket nicesock) a)
          else
            '(added, a) ← priv_add_local_candidate_pruned a sid cid candidate;
            if added : bool then
              Ok (HOST_CANDIDATE_SUCCESS, Some candidate, log (FxAttachSocket sid cid nicesock) a)
            else Ok (HOST_CANDIDATE_REDUNDANT, None, log (FxFreeSocket nicesock) a)
      end
  end.

Definition discovery_add_server_reflexive_candidate (a : NiceAgent) (sid cid : Z) (address : NiceAddress)
    (transport : NiceCandidateTransport) (base_socket : option Z) (server_address : option NiceAddress) (nat_assisted : bool)
    : res NiceAgent :=
  match agent_find_component a sid cid with
  | None => Ok a
  | Some _ =>
      let '(candidate, a) := new_candidate a NICE_CANDIDATE_TYPE_SERVER_REFLEXIVE in
      let candidate := candidate <| c_transport := transport |> <| c_stream_id := sid |> <| c_component_id := cid |>
                         <| c_addr := address |> <| c_sockptr := base_socket |> <| c_base_addr := socket_addr base_socket |> in
      priority ← candidate_priority a candidate nat_assisted;
      let candidate := candidate <| c_priority := priority |> in
      let candidate := match server_address with Some s => candidate <| c_stun_server := Some (nice_address_dup s) |> | None => candidate end in
      let '(candidate, a) := priv_generate_candidate_credentials a candidate in
      '(candidate, a) ← priv_assign_foundation a candidate;
      '(result, a) ← priv_add_local_candidate_pruned a sid cid candidate;
      Ok (if result : bool then log (FxNewCandidate candidate) a else a)
  end.

(** The loop over the candidates there are; new ones are appended to the
    list it walks, and are server reflexive.  [address] keeps the port set
    last. *)
Fixpoint tcp_reflexive_loop (a : NiceAgent) (sid cid : Z) (base_addr address : NiceAddress) (server_addr : option NiceAddress)
    (l : list NiceCandidate) : res NiceAgent :=
  match l with
  | [] => Ok a
  | c :: l =>
      let caddr := nice_address_set_port (c_addr c) 0 in
      if negb (a_force_relay a) && negb (bool_decide (c_transport c = NICE_CANDIDATE_TRANSPORT_UDP)) &&
         bool_decide (c_type c = NICE_CANDIDATE_TYPE_HOST) && nice_address_equal base_addr caddr then
        let address := nice_address_set_port address (nice_address_get_port (c_addr c)) in
        a ← discovery_add_server_reflexive_candidate a sid cid address (c_transport c) (c_sockptr c) server_addr false;
        tcp_reflexive_loop a sid cid base_addr address server_addr l
      else tcp_reflexive_loop a sid cid base_addr address server_addr l
  end.

Definition discovery_discover_tcp_server_reflexive_candidates (a : NiceAgent) (sid cid : Z) (address : NiceAddress)
    (base_socket : option Z) (server_addr : option NiceAddress) : res NiceAgent :=
  match agent_find_component a sid cid with
  | None => Ok a
  | Some (_, component) =>
      let base_addr := nice_address_set_port (socket_addr base_socket) 0 in
      tcp_reflexive_loop a sid cid base_addr address server_addr (co_local_candidates component)
  end.

(** Returns the candidate, [*lifetime] and the agent. *)
Definition discovery_add_relay_candidate (a : NiceAgent) (sid cid : Z) (address : NiceAddress)
    (transport : NiceCandidateTransport) (base_socket : option Z) (turn : TurnServer) (lifetime : option Z)
    : res (option NiceCandidate * option Z * NiceAgent) :=
  match agent_find_component a sid cid with
  | None => Ok (None, lifetime, a)
  | Some _ =>
      let '(candidate, a) := new_candidate a NICE_CANDIDATE_TYPE_RELAYED in
      let candidate := candidate <| c_transport := transport |> <| c_stream_id := sid |> <| c_component_id := cid |>
                         <| c_addr := address |> <| c_turn := Some turn |> in
      let relay_socket := nice_udp_turn_socket_new (a_log a) address base_socket turn in
      let a := log (FxCreateSocket base_socket address) a in
      match relay_socket with
      | None => Ok (None, lifetime, a)
      | Some relay_socket =>
          let candidate := candidate <| c_sockptr := Some relay_socket |> <| c_base_addr := socket_addr base_socket |> in
          priority ← candidate_priority a candidate false;
          let '(candidate, a) := priv_generate_candidate_credentials a (candidate <| c_priority := priority |>) in
          let candidate := if bool_decide (a_compatibility a = NICE_COMPATIBILITY_GOOGLE)
                           then candidate <| c_username := Some (ts_username turn) |> else candidate in
          '(candidate, a) ← priv_assign_foundation a candidate;
          '(added, a) ← priv_add_local_candidate_pruned a sid cid candidate;
          if added : bool then
            Ok (Some candidate, lifetime, log (FxNewCandidate candidate) (log (FxAttachSocket sid cid relay_socket) a))
          else Ok (Some candidate, (fun _ => 0) <$> lifetime, a)
      end
  end.

(** ** Peer-reflexive candidates *)

Definition is_msn_or_oc2007 (a : NiceAgent) : bool :=
  bool_decide (a_compatibility a = NICE_COMPATIBILITY_MSN) || bool_decide (a_compatibility a = NICE_COMPATIBILITY_OC2007).

(** The user name of the MSN modes: both names, decoded, joined and encoded;
    a null name is never decoded. *)
Definition joined_username (first second : NiceCandidate) : res (list Z) :=
  match c_username first, c_username second with
  | Some u, Some v => Ok (g_base64_encode (g_base64_decode u ++ g_base64_decode v))
  | _, _ => Fault Uninitialised
  end.

Definition transport_of_socket (sock : option Z) (otherwise : NiceCandidateTransport) : NiceCandidateTransport :=
  if socket_is_udp_bsd sock || socket_is_udp_turn sock then NICE_CANDIDATE_TRANSPORT_UDP else otherwise.

Definition discovery_add_peer_reflexive_candidate (a : NiceAgent) (sid cid priority : Z) (address : NiceAddress)
    (base_socket : option Z) (local remote : option NiceCandidate) : res (option NiceCandidate * NiceAgent) :=
  match agent_find_component a sid cid with
  | None => Ok (None, a)
  | Some _ =>
      let '(candidate, a) := new_candidate a NICE_CANDIDATE_TYPE_PEER_REFLEXIVE in
      let transport := match local, remote with
                       | Some l, _ => c_transport l
                       | None, Some r => conn_check_match_transport (c_transport r)
                       | None, None => transport_of_socket base_socket NICE_CANDIDATE_TRANSPORT_TCP_PASSIVE
                       end in
      let candidate := candidate <| c_transport := transport |> <| c_stream_id := sid |> <| c_component_id := cid |>
                         <| c_addr := address |> <| c_sockptr := base_socket |> <| c_base_addr := socket_addr base_socket |>
                         <| c_priority := priority |> in
      '(candidate, a) ← priv_assign_foundation a candidate;
      candidate ← match local, remote with
                  | Some l, Some r =>
                      if is_msn_or_oc2007 a then
                        u ← joined_username l r;
                        Ok (candidate <| c_username := Some u |> <| c_password := c_password l |>)
                      else Ok (candidate <| c_username := c_username l |> <| c_password := c_password l |>)
                  | Some l, None => Ok (candidate <| c_username := c_username l |> <| c_password := c_password l |>)
                  | None, _ => Ok candidate
                  end;
      '(result, a) ← priv_add_local_candidate_pruned a sid cid candidate;
      Ok (if result : bool then Some candidate else None, a)
  end.

Definition discovery_learn_remote_peer_reflexive_candidate (a : NiceAgent) (sid cid priority : Z) (remote_address : NiceAddress)
    (nicesock : option Z) (local remote : option NiceCandidate) : res (NiceCandidate * NiceAgent) :=
  let '(candidate, a) := new_candidate a NICE_CANDIDATE_TYPE_PEER_REFLEXIVE in
  let transport := match remote, local with
                   | Some r, _ => c_transport r
                   | None, Some l => conn_check_match_transport (c_transport l)
                   | None, None => transport_of_socket nicesock NICE_CANDIDATE_TRANSPORT_TCP_ACTIVE
                   end in
  let candidate := candidate <| c_addr := remote_address |> <| c_base_addr := remote_address |> <| c_transport := transport |>
                     <| c_sockptr := nicesock |> <| c_stream_id := sid |> <| c_component_id := cid |> in
  priority ← (if negb (priority =? 0) then Ok priority else candidate_priority a candidate false);
  candidate ← priv_assign_remote_foundation a (candidate <| c_priority := priority |>);
  candidate ← match remote, local with
              | Some r, Some l =>
                  if is_msn_or_oc2007 a then
                    u ← joined_username r l;
                    Ok (candidate <| c_username := Some u |> <| c_password := c_password r |>)
                  else Ok (candidate <| c_username := c_username r |> <| c_password := c_password r |>)
              | Some r, None => Ok (candidate <| c_username := c_username r |> <| c_password := c_password r |>)
              | None, _ => Ok candidate
              end;
  let a := upd_component a sid cid (fun c => c <| co_remote_candidates := co_remote_candidates c ++ [candidate] |>) in
  Ok (candidate, log (FxNewRemoteCandidate candidate) a).
End candidates.
