(* ===== verification/CheckTick.v ===== *)
(** * Connectivity checks: sending and the timer (agent/conncheck.c)

    [conn_check_send], which sends the STUN request of a check, and the steps
    of the paced timer. *)
From S2P Require Import Prelude CMem StunTypes StunMessage StunCrc32 StunAgent StunTimer StunIce Address Candidate IceTypes IceEnv CheckList CheckDriver.
Local Open Scope Z_scope.

Definition NICE_STREAM_MAX_UNAME : Z := 256 * 2 + 1 + 1.
Definition STUN_MAX_MESSAGE_SIZE_IPV6 : Z := 1280.

(** [g_slice_new0] of a transaction. *)
Definition zero_timer : StunTimer := mkTimer (mkTimeval 0 0) 0 0 0.
Definition zero_message : StunMessage := mkMessage None [] 0 None [] false.

Definition agent_to_ice_compatibility (a : NiceAgent) : StunUsageIceCompatibility :=
  match a_compatibility a with
  | NICE_COMPATIBILITY_GOOGLE => STUN_USAGE_ICE_COMPATIBILITY_GOOGLE
  | NICE_COMPATIBILITY_MSN | NICE_COMPATIBILITY_OC2007 => STUN_USAGE_ICE_COMPATIBILITY_MSN
  | NICE_COMPATIBILITY_WLM2009 | NICE_COMPATIBILITY_OC2007R2 => STUN_USAGE_ICE_COMPATIBILITY_MSICE2
  | NICE_COMPATIBILITY_RFC5245 => STUN_USAGE_ICE_COMPATIBILITY_RFC5245
  end.

(** Assign to a transaction of a pair. *)
Definition upd_transaction (a : NiceAgent) (p ptr : Z) (f : StunTransaction -> StunTransaction) : res NiceAgent :=
  modify a p (fun x => x <| cp_stun_transactions :=
    (fun t => if stx_ptr t =? ptr then f t else t) <$> cp_stun_transactions x |>).

Section send.
Context {E : CheckEnv} {CL : CryptoLib} {B : Base64} (package_string : list Z).

(** Packets on a reliable socket are framed with RFC 4571. *)
Definition agent_socket_send (a : NiceAgent) (sock : option Z) (addr : NiceAddress) (len : Z) (buf : list Z) : Z * NiceAgent :=
  let bytes := take (Z.to_nat len) buf in
  if nice_socket_is_reliable sock then
    let frame := be_bytes 2 (u16 len) ++ bytes in
    let ret := nice_socket_send_messages_reliable (a_log a) sock addr frame in
    (if ret =? 1 then len else ret, log (FxSend true sock addr frame) a)
  else
    let ret := nice_socket_send_reliable (a_log a) sock addr bytes in
    let a := log (FxSend true sock addr bytes) a in
    if ret <? 0 then (nice_socket_send (a_log a) sock addr bytes, log (FxSend false sock addr bytes) a)
    else (ret, a).

(** [ms_ice2_legacy_conncheck_send]: the packet again, with the fingerprint
    of the misspelt CRC table, when the agent is asked to. *)
Definition ms_ice2_legacy_conncheck_send (a : NiceAgent) (ag : StunAgent) (msg : StunMessage) (sock : option Z) (addr : NiceAddress)
    : res NiceAgent :=
  if negb (ag_ms_ice2_send_legacy_connchecks ag) then Ok a
  else
    fingerprint_attr ← stun_message_find msg STUN_ATTRIBUTE_FINGERPRINT;
    match fingerprint_attr with
    | None => Ok a
    | Some (off, fingerprint_len) =>
        if negb (fingerprint_len =? 4) then Ok a
        else
          buffer_len ← stun_message_length msg;
          fpr ← stun_fingerprint (buffer msg) buffer_len true;
          buf ← wr_bytes (buffer msg) off (le_bytes 4 fpr);
          Ok (snd (agent_socket_send a sock addr buffer_len buf))
    end.

(** Whether the request carries USE-CANDIDATE. *)
Definition cand_use_of (a : NiceAgent) (x : CandidateCheckPair) : bool :=
  if is_compatible_with_rfc5245_or_oc2007r2 a then
    match a_nomination_mode a with
    | NICE_NOMINATION_MODE_REGULAR => cp_use_candidate_on_next_check x
    | NICE_NOMINATION_MODE_AGGRESSIVE => a_controlling_mode a
    end
  else a_controlling_mode a.

(** Start the timer of the transaction. *)
Definition start_transaction_timer (a : NiceAgent) (pair stun : Z) (sock : option Z) : res NiceAgent :=
  '(timeout, timer) ←
    (if nice_socket_is_reliable sock then
       let timeout := a_stun_reliable_timeout a in
       t ← stun_timer_start_reliable (gettimeofday (a_log a)) timeout; Ok (timeout, t)
     else
       timeout ← priv_compute_conncheck_timer a;
       t ← stun_timer_start (gettimeofday (a_log a)) timeout (a_stun_max_retransmissions a); Ok (timeout, t));
  upd_transaction a pair stun (fun t => t <| stx_timer := timer |>
    <| stx_next_tick := g_get_monotonic_time (a_log a) + u32 (timeout * 1000) |>).

(** TCP-ACTIVE candidates connect first; [false] is a failed connection. *)
Definition connect_tcp_active (a : NiceAgent) (pair : Z) : res (bool * NiceAgent) :=
  x ← deref a pair;
  if negb (socket_has_fileno (cp_sockptr x)) && negb (socket_is_udp_turn (cp_sockptr x)) &&
     bool_decide (c_transport (cp_local x) = NICE_CANDIDATE_TRANSPORT_TCP_ACTIVE) then
    match agent_find_component a (cp_stream_id x) (cp_component_id x) with
    | None => Ok (true, a)
    | Some _ =>
        let new_socket := nice_tcp_active_socket_connect (a_log a) (cp_sockptr x) (c_addr (cp_remote x)) in
        let a := log (FxTcpConnect (cp_sockptr x) (c_addr (cp_remote x))) a in
        match new_socket with
        | None => Ok (false, a)
        | Some s =>
            a ← modify a pair (fun x => x <| cp_sockptr := Some s |>);
            Ok (true, log (FxAttachSocket (cp_stream_id x) (cp_component_id x) s) a)
        end
    end
  else Ok (true, a).

(** The transaction [ptr] of a pair. *)
Definition transaction_of (x : CandidateCheckPair) (ptr : Z) : res StunTransaction :=
  match list_find (fun t => stx_ptr t = ptr) (cp_stun_transactions x) with
  | Some (_, t) => Ok t
  | None => Fault OutOfBounds
  end.

(** [return -1] after removing the transaction. *)
Definition cancel_transaction (a : NiceAgent) (pair stun sid cid : Z) : res (Z * NiceAgent) :=
  x ← deref a pair;
  t ← transaction_of x stun;
  a ← priv_remove_stun_transaction a pair t sid cid;
  Ok (-1, a).

(** The request is built and its timer set; connect and send. *)
Definition send_request (a : NiceAgent) (pair stun sid cid buffer_len : Z) : res (Z * NiceAgent) :=
  '(connected, a) ← connect_tcp_active a pair;
  if negb connected then cancel_transaction a pair stun sid cid
  else
    x ← deref a pair;
    t ← transaction_of x stun;
    match stx_message t with
    | None => Fault OutOfBounds
    | Some msg =>
        let '(ret, a) := agent_socket_send a (cp_sockptr x) (c_addr (cp_remote x)) buffer_len (buffer msg) in
        if ret <? 0 then cancel_transaction a pair stun sid cid
        else
          a ← (if bool_decide (a_compatibility a = NICE_COMPATIBILITY_OC2007R2) then
                 c ← the_component a sid cid;
                 ms_ice2_legacy_conncheck_send a (co_stun_agent c) msg (cp_sockptr x) (c_addr (cp_remote x))
               else Ok a);
          Ok (0, a)
    end.

(** Zero on success. *)
Definition conn_check_send (a : NiceAgent) (pair : Z) : res (Z * NiceAgent) :=
  x ← deref a pair;
  let controlling := a_controlling_mode a in
  match agent_find_component a (cp_stream_id x) (cp_component_id x) with
  | None => Ok (-1, a)
  | Some (stream, component) =>
      let sid := str_id stream in
      let cid := co_id component in
      let uname := priv_create_username a (Some stream) (cp_component_id x) (Some (cp_remote x)) (Some (cp_local x))
                     NICE_STREAM_MAX_UNAME false in
      let password := priv_get_password a (Some stream) (Some (cp_remote x)) in
      let password :=
        match password, a_compatibility a with
        | Some p, (NICE_COMPATIBILITY_MSN | NICE_COMPATIBILITY_OC2007) => Some (g_base64_decode p)
        | _, _ => password
        end in
      let cand_use := cand_use_of a x in
      a ← (if negb (is_compatible_with_rfc5245_or_oc2007r2 a) && cand_use then
             modify a pair (fun x => x <| cp_nominated := controlling |>)
           else Ok a);
      if zlen uname =? 0 then Ok (-1, a)
      else
        let stun := a_next_ptr a in
        a ← priv_add_stun_transaction (a <| a_next_ptr := stun + 1 |>) pair stun zero_timer;
        '(buffer_len, ag, msg) ←
          stun_usage_ice_conncheck_create package_string (stun_make_transid stun) (co_stun_agent component) zero_message
            (replicate (Z.to_nat STUN_MAX_MESSAGE_SIZE_IPV6) 0) STUN_MAX_MESSAGE_SIZE_IPV6 (Some uname) password
            cand_use controlling (cp_stun_priority x) (a_tie_breaker a) (Some (c_foundation (cp_local x)))
            (agent_to_ice_compatibility a);
        let a := upd_component a sid cid (fun c => c <| co_stun_agent := ag |>) in
        a ← upd_transaction a pair stun (fun t => t <| stx_message := Some msg |>);
        if buffer_len =? 0 then cancel_transaction a pair stun sid cid
        else
          a ← start_transaction_timer a pair stun (cp_sockptr x);
          send_request a pair stun sid cid buffer_len
  end.

(** ** The paced timer *)

(** TRUE when a request was sent. *)
Definition priv_conn_check_initiate (a : NiceAgent) (pair : Z) : res (bool * NiceAgent) :=
  a ← SET_PAIR_STATE a pair NICE_CHECK_IN_PROGRESS;
  '(failed, a) ← conn_check_send a pair;
  if negb (failed =? 0) then
    x ← deref a pair;
    match agent_find_component a (cp_stream_id x) (cp_component_id x) with
    | None => a ← SET_PAIR_STATE a pair NICE_CHECK_FAILED; Ok (false, a)
    | Some (stream, component) =>
        a ← candidate_check_pair_fail a (str_id stream) pair;
        a ← conn_check_update_check_list_state_for_ready a (str_id stream) (co_id component);
        Ok (false, a)
    end
  else Ok (true, a).

Definition priv_conn_check_ordinary_check (a : NiceAgent) (sid : Z) : res (bool * NiceAgent) :=
  s ← the_stream a sid;
  found ← priv_conn_check_find_next_waiting a (str_conncheck_list s);
  '(found, a) ← match found with
               | Some p => Ok (Some p, a)
               | None =>
                   '(_, a) ← priv_conn_check_unfreeze_next a;
                   s ← the_stream a sid;
                   p ← priv_conn_check_find_next_waiting a (str_conncheck_list s);
                   Ok (p, a)
               end;
  match found with Some p => priv_conn_check_initiate a p | None => Ok (false, a) end.

Definition priv_conn_check_triggered_check (a : NiceAgent) (sid : Z) : res (bool * NiceAgent) :=
  let '(found, a) := priv_get_pair_from_triggered_check_queue a in
  match found with Some p => priv_conn_check_initiate a p | None => Ok (false, a) end.

(** The transactions of one pair: whether a request was retransmitted, which
    ends the function, and how many transactions are left. *)
Fixpoint transactions_loop (a : NiceAgent) (now : Z) (p sid cid : Z) (js : list StunTransaction) (index remaining : Z)
    : res (bool * Z * NiceAgent) :=
  match js with
  | [] => Ok (false, remaining, a)
  | stun :: js =>
      if now <? stx_next_tick stun then transactions_loop a now p sid cid js (index + 1) (remaining + 1)
      else
        let clock := gettimeofday (a_log a) in
        '(r, timer) ← stun_timer_refresh clock (stx_timer stun);
        a ← upd_transaction a p (stx_ptr stun) (fun t => t <| stx_timer := timer |>);
        match r with
        | STUN_USAGE_TIMER_RETURN_TIMEOUT =>
            a ← priv_remove_stun_transaction a p stun sid cid;
            transactions_loop a now p sid cid js (index + 1) remaining
        | STUN_USAGE_TIMER_RETURN_RETRANSMIT =>
            x ← deref a p;
            if negb (cp_retransmit x) || (0 <? index) then
              a ← priv_remove_stun_transaction a p stun sid cid;
              transactions_loop a now p sid cid js (index + 1) remaining
            else
              let timeout := stun_timer_remainder clock timer in
              match stx_message stun with
              | None => Fault OutOfBounds
              | Some msg =>
                  len ← stun_message_length msg;
                  let '(_, a) := agent_socket_send a (cp_sockptr x) (c_addr (cp_remote x)) len (buffer msg) in
                  a ← upd_transaction a p (stx_ptr stun) (fun t => t <| stx_next_tick := now + u32 (timeout * 1000) |>);
                  Ok (true, remaining, a)
              end
        | STUN_USAGE_TIMER_RETURN_SUCCESS =>
            let timeout := stun_timer_remainder clock timer in
            a ← upd_transaction a p (stx_ptr stun) (fun t => t <| stx_next_tick := now + u32 (timeout * 1000) |>);
            transactions_loop a now p sid cid js (index + 1) (remaining + 1)
        end
  end.

(** The loop over the links of the check list; a freed link is a fault. *)
Fixpoint tick_stream_loop (fuel : nat) (a : NiceAgent) (now sid : Z) (i : option Z) : res (bool * NiceAgent) :=
  match i with
  | None => Ok (false, a)
  | Some p =>
      match fuel with
      | O => Fault OutOfFuel
      | S fuel =>
          x ← deref a p;
          '(sent, a) ←
            match cp_stun_transactions x, agent_find_component a (cp_stream_id x) (cp_component_id x) with
            | [], _ | _, None => Ok (false, a)
            | js, Some (s, component) =>
                '(sent, remaining, a) ← transactions_loop a now p (str_id s) (co_id component) js 0 0;
                if sent : bool then Ok (true, a)
                else if remaining =? 0 then
                  a ← candidate_check_pair_fail a sid p;
                  a ← conn_check_update_check_list_state_for_ready a sid (co_id component);
                  Ok (false, a)
                else Ok (false, a)
            end;
          if sent : bool then Ok (true, a)
          else
            s ← the_stream a sid;
            next ← next_link (str_conncheck_list s) p;
            tick_stream_loop fuel a now sid next
      end
  end.

Definition priv_conn_check_tick_stream (a : NiceAgent) (sid : Z) : res (bool * NiceAgent) :=
  let now := g_get_monotonic_time (a_log a) in
  s ← the_stream a sid;
  tick_stream_loop (length (str_conncheck_list s)) a now sid (list.head (str_conncheck_list s)).
End send.
