(* ===== verification/KeepAlive.v ===== *)
(** * Keepalives and consent freshness (agent/conncheck.c, agent.c)

    The timer that keeps selected pairs and host candidates alive (RFC 8445,
    section 11, or the consent checks of RFC 7675), and the timer after which
    the consent of the peer has expired. *)
From S2P Require Import Prelude CMem StunTypes StunMessage StunCrc32 StunAgent StunTimer StunIce Address Candidate IceTypes IceEnv CheckList CheckDriver CheckTick.
Local Open Scope Z_scope.

Definition NICE_AGENT_TIMER_TR_DEFAULT : Z := 25000.
Definition NICE_AGENT_TIMER_CONSENT_DEFAULT : Z := 5000.
Definition NICE_AGENT_TIMER_CONSENT_TIMEOUT : Z := 30000.
Definition NICE_AGENT_TIMER_MIN_CONSENT_INTERVAL : Z := 4000.
Definition NICE_AGENT_TIMER_KEEPALIVE_TIMEOUT : Z := 50000.

Definition NICE_AGENT_DO_KEEPALIVE_CONNCHECKS (a : NiceAgent) : bool :=
  a_consent_freshness a || a_keepalive_conncheck a || bool_decide (a_compatibility a = NICE_COMPATIBILITY_GOOGLE).

(** The flags of the STUN agent of a component. *)
Definition stun_agent_flags (a : NiceAgent) : StunCompatibility * Z :=
  let short := STUN_AGENT_USAGE_SHORT_TERM_CREDENTIALS in
  match a_compatibility a with
  | NICE_COMPATIBILITY_GOOGLE => (STUN_COMPATIBILITY_RFC3489, Z.lor short STUN_AGENT_USAGE_IGNORE_CREDENTIALS)
  | NICE_COMPATIBILITY_MSN => (STUN_COMPATIBILITY_RFC3489, Z.lor short STUN_AGENT_USAGE_FORCE_VALIDATER)
  | NICE_COMPATIBILITY_WLM2009 => (STUN_COMPATIBILITY_MSICE2, Z.lor short STUN_AGENT_USAGE_USE_FINGERPRINT)
  | NICE_COMPATIBILITY_OC2007 =>
      (STUN_COMPATIBILITY_RFC3489,
       Z.lor (Z.lor short STUN_AGENT_USAGE_FORCE_VALIDATER) STUN_AGENT_USAGE_NO_ALIGNED_ATTRIBUTES)
  | NICE_COMPATIBILITY_OC2007R2 =>
      (STUN_COMPATIBILITY_MSICE2,
       Z.lor (Z.lor short STUN_AGENT_USAGE_USE_FINGERPRINT) STUN_AGENT_USAGE_NO_ALIGNED_ATTRIBUTES)
  | NICE_COMPATIBILITY_RFC5245 =>
      (STUN_COMPATIBILITY_RFC5389,
       Z.lor (Z.lor (if a_consent_freshness a then STUN_AGENT_USAGE_CONSENT_FRESHNESS else 0) short) STUN_AGENT_USAGE_USE_FINGERPRINT)
  end.

Definition nice_agent_init_stun_agent (a : NiceAgent) (old : StunAgent) : StunAgent :=
  let '(compat, flags) := stun_agent_flags a in
  stun_agent_set_software (stun_agent_init old STUN_ALL_KNOWN_ATTRIBUTES compat flags) (a_software_attribute a).

(** Storage for a STUN agent; [stun_agent_init] sets all that is read of it. *)
Definition stun_agent_storage : StunAgent :=
  mkAgent (mkAgentInfo STUN_COMPATIBILITY_RFC3489 0)
    (replicate (Z.to_nat STUN_AGENT_MAX_SAVED_IDS) (mkSavedId [] 0 None [] false false)) [] None false.

(** The random delay before the next consent check, in milliseconds:
    [NICE_AGENT_TIMER_CONSENT_DEFAULT * (g_random_double () * 0.4 + 0.8)],
    rounded down. *)
Class ConsentInterval : Type := random_consent_interval : list effect -> Z.

Section keepalive.
Context {E : CheckEnv} {CL : CryptoLib} {B : Base64} {N : NetEnv} {R : ConsentInterval} (package_string : list Z).

(** ** Consent *)

(** Assign to the selected pair of a component. *)
Definition upd_selected (a : NiceAgent) (sid cid : Z) (f : CandidatePair -> CandidatePair) : NiceAgent :=
  upd_component a sid cid (fun c => c <| co_selected_pair := f (co_selected_pair c) |>).

Definition consent_timeout (a : NiceAgent) : Z :=
  if a_consent_freshness a then NICE_AGENT_TIMER_CONSENT_TIMEOUT * 1000 else NICE_AGENT_TIMER_KEEPALIVE_TIMEOUT * 1000.

(** The callback for the selected pair of component [cid] of stream [sid]. *)
Definition priv_conn_remote_consent_tick_agent_locked (a : NiceAgent) (sid cid : Z) : res NiceAgent :=
  c ← the_component a sid cid;
  let pair := co_selected_pair c in
  let a := upd_selected a sid cid (fun p => p <| sp_consent_tick := None |>) in
  let now := g_get_monotonic_time (a_log a) in
  let since := u64 (now - sp_consent_last_received pair) in
  if consent_timeout a <? since then
    let a := upd_selected a sid cid (fun p => p <| sp_remote_consent_have := false |>) in
    agent_signal_component_state_change a (sp_keepalive_stream_id pair) (sp_keepalive_component_id pair) NICE_COMPONENT_STATE_FAILED
  else
    let delay := (consent_timeout a - since) / 1000 in
    Ok (upd_selected a sid cid (fun p => p <| sp_consent_tick := Some (u32 delay) |>)).

(** ** Selected pairs *)

(** One component of the first loop.  Returns the time of the next tick when
    something was sent ([goto done]), the earliest next tick so far and the
    number of errors. *)
Definition keepalive_result : Type := option Z * Z * Z * NiceAgent.

(** A connectivity check on the selected pair. *)
Definition keepalive_conncheck (a : NiceAgent) (now sid cid : Z) (local remote : NiceCandidate) (min_next_tick errors : Z) : res keepalive_result :=
  c ← the_component a sid cid;
  let p := co_selected_pair c in
  let stream := agent_find_stream a sid in
  let uname := priv_create_username a stream cid (Some remote) (Some local) NICE_STREAM_MAX_UNAME false in
  let password := priv_get_password a stream (Some remote) in
  if 0 <? zlen uname then
    let t := a_next_ptr a in
    '(buf_len, ag, msg) ←
      stun_usage_ice_conncheck_create package_string (stun_make_transid t) (co_stun_agent c) zero_message
        (replicate (Z.to_nat STUN_MAX_MESSAGE_SIZE_IPV6) 0) STUN_MAX_MESSAGE_SIZE_IPV6 (Some uname) password
        (a_controlling_mode a) (a_controlling_mode a) (sp_stun_priority p) (a_tie_breaker a) None (agent_to_ice_compatibility a);
    let a := upd_component (a <| a_next_ptr := t + 1 |>) sid cid (fun c => c <| co_stun_agent := ag |>) in
    if 0 <? buf_len then
      let delay := 1000 * Z.max (random_consent_interval (a_log a)) NICE_AGENT_TIMER_MIN_CONSENT_INTERVAL in
      let a := log (FxRandom 0) a in
      let a := upd_selected a sid cid (fun p => p <| sp_keepalive_stream_id := sid |> <| sp_keepalive_component_id := cid |>
                                                  <| sp_keepalive_next_tick := u64 (now + delay) |>) in
      a ← (if sp_remote_consent_have p then
             let a := if sp_consent_last_received p =? 0 then
                        upd_selected a sid cid (fun p => p <| sp_consent_last_received := g_get_monotonic_time (a_log a) |>)
                      else a in
             priv_conn_remote_consent_tick_agent_locked a sid cid
           else Ok a);
      let a := a <| a_media_after_tick := false |> in
      let a := snd (agent_socket_send a (c_sockptr local) (c_addr remote) buf_len (buffer msg)) in
      Ok (Some (u64 (now + a_timer_ta a * 1000)), min_next_tick, errors, a)
    else Ok (None, min_next_tick, errors + 1, a)
  else Ok (None, min_next_tick, errors, a).

(** A Binding indication on the selected pair. *)
Definition keepalive_indication (a : NiceAgent) (now sid cid : Z) (local remote : NiceCandidate) (min_next_tick errors : Z) : res keepalive_result :=
  c ← the_component a sid cid;
  let t := a_next_ptr a in
  '(buf_len, ag, msg) ← stun_usage_bind_keepalive (stun_make_transid t) (co_stun_agent c) zero_message
     (replicate (Z.to_nat STUN_MAX_MESSAGE_SIZE_IPV6) 0) STUN_MAX_MESSAGE_SIZE_IPV6;
  let a := upd_component (a <| a_next_ptr := t + 1 |>) sid cid (fun c => c <| co_stun_agent := ag |>) in
  if 0 <? buf_len then
    let a := snd (agent_socket_send a (c_sockptr local) (c_addr remote) buf_len (buffer msg)) in
    let a := upd_selected a sid cid (fun p => p <| sp_keepalive_next_tick := u64 (now + 1000 * NICE_AGENT_TIMER_TR_DEFAULT) |>) in
    a ← (if bool_decide (a_compatibility a = NICE_COMPATIBILITY_OC2007R2) then
           ms_ice2_legacy_conncheck_send a ag msg (c_sockptr local) (c_addr remote)
         else Ok a);
    Ok (Some (u64 (now + a_timer_ta a * 1000)), min_next_tick, errors, a)
  else Ok (None, min_next_tick, errors + 1, a).

(** What [next_tick] does to [min_next_tick], and whether to wait for it. *)
Definition next_tick_due (now next_tick min_next_tick : Z) : Z * bool :=
  if negb (next_tick =? 0) then (Z.min next_tick min_next_tick, negb (now <? next_tick)) else (min_next_tick, true).

Definition keepalive_component (a : NiceAgent) (now sid cid min_next_tick errors : Z) : res keepalive_result :=
  c ← the_component a sid cid;
  let p := co_selected_pair c in
  match sp_local p with
  | None => Ok (None, min_next_tick, errors, a)
  | Some local =>
      if negb (bool_decide (c_transport local = NICE_CANDIDATE_TRANSPORT_UDP)) && negb (NICE_AGENT_DO_KEEPALIVE_CONNCHECKS a) then
        Ok (None, min_next_tick, errors, a)
      else
        let '(min_next_tick, due) := next_tick_due now (sp_keepalive_next_tick p) min_next_tick in
        if negb due then Ok (None, min_next_tick, errors, a)
        else
          match sp_remote p with
          | None => Fault OutOfBounds
          | Some remote =>
              if NICE_AGENT_DO_KEEPALIVE_CONNCHECKS a then keepalive_conncheck a now sid cid local remote min_next_tick errors
              else keepalive_indication a now sid cid local remote min_next_tick errors
          end
  end.

(** The ids of every component, in the order of the loops. *)
Definition component_ids (a : NiceAgent) : list (Z * Z) :=
  flat_map (fun s => (fun c => (str_id s, co_id c)) <$> str_components s) (a_streams a).

Fixpoint keepalive_pairs (a : NiceAgent) (now min_next_tick errors : Z) (l : list (Z * Z)) : res keepalive_result :=
  match l with
  | [] => Ok (None, min_next_tick, errors, a)
  | (sid, cid) :: l =>
      '(done, min_next_tick, errors, a) ← keepalive_component a now sid cid min_next_tick errors;
      match done with
      | Some next => Ok (Some next, min_next_tick, errors, a)
      | None => keepalive_pairs a now min_next_tick errors l
      end
  end.

(** ** Host candidates *)

(** [keepalive_next_tick] of the local candidate at an address. *)
Definition set_candidate_tick (a : NiceAgent) (sid cid ptr tick : Z) : NiceAgent :=
  upd_component a sid cid (fun c => c <| co_local_candidates :=
    (fun l => if c_ptr l =? ptr then l <| c_keepalive_next_tick := tick |> else l) <$> co_local_candidates c |>).

Fixpoint keepalive_host_loop (a : NiceAgent) (now sid cid min_next_tick errors : Z) (stun_server : NiceAddress) (buffer_len : Z) (buf : list Z)
    (l : list NiceCandidate) : keepalive_result :=
  match l with
  | [] => (None, min_next_tick, errors, a)
  | cand :: l =>
      if bool_decide (c_type cand = NICE_CANDIDATE_TYPE_HOST) && bool_decide (c_transport cand = NICE_CANDIDATE_TRANSPORT_UDP) &&
         (nice_address_ip_version (c_addr cand) =? nice_address_ip_version stun_server) then
        let '(min_next_tick, due) := next_tick_due now (c_keepalive_next_tick cand) min_next_tick in
        if due then
          let a := snd (agent_socket_send a (c_sockptr cand) stun_server buffer_len buf) in
          (Some (u64 (now + a_timer_ta a * 1000)), min_next_tick, errors,
           set_candidate_tick a sid cid (c_ptr cand) (u64 (now + 1000 * NICE_AGENT_TIMER_TR_DEFAULT)))
        else keepalive_host_loop a now sid cid min_next_tick errors stun_server buffer_len buf l
      else keepalive_host_loop a now sid cid min_next_tick errors stun_server buffer_len buf l
  end.

(** [state < NICE_COMPONENT_STATE_CONNECTED]. *)
Definition not_connected (st : NiceComponentState) : bool :=
  match st with
  | NICE_COMPONENT_STATE_DISCONNECTED | NICE_COMPONENT_STATE_GATHERING | NICE_COMPONENT_STATE_CONNECTING => true
  | _ => false
  end.

Definition keepalive_host (a : NiceAgent) (now sid cid min_next_tick errors : Z) : res keepalive_result :=
  c ← the_component a sid cid;
  match a_stun_server_ip a with
  | Some ip =>
      if not_connected (co_state c) then
        let '(ok, stun_server) := nice_address_set_from_string nice_address_init ip in
        if ok : bool then
          let stun_server := nice_address_set_port stun_server (a_stun_server_port a) in
          let t := a_next_ptr a in
          '(buffer_len, _, msg) ← stun_usage_bind_create package_string (stun_make_transid t) (nice_agent_init_stun_agent a stun_agent_storage)
             zero_message (replicate (Z.to_nat STUN_MAX_MESSAGE_SIZE_IPV6) 0) STUN_MAX_MESSAGE_SIZE_IPV6;
          Ok (keepalive_host_loop (a <| a_next_ptr := t + 1 |>) now sid cid min_next_tick errors stun_server buffer_len (buffer msg)
                (co_local_candidates c))
        else Ok (None, min_next_tick, errors, a)
      else Ok (None, min_next_tick, errors, a)
  | None => Ok (None, min_next_tick, errors, a)
  end.

Fixpoint keepalive_hosts (a : NiceAgent) (now min_next_tick errors : Z) (l : list (Z * Z)) : res keepalive_result :=
  match l with
  | [] => Ok (None, min_next_tick, errors, a)
  | (sid, cid) :: l =>
      '(done, min_next_tick, errors, a) ← keepalive_host a now sid cid min_next_tick errors;
      match done with
      | Some next => Ok (Some next, min_next_tick, errors, a)
      | None => keepalive_hosts a now min_next_tick errors l
      end
  end.

(** ** The timer *)

Definition priv_conn_keepalive_tick_unlocked (a : NiceAgent) : res (bool * NiceAgent) :=
  let now := g_get_monotonic_time (a_log a) in
  let min_next_tick := u64 (now + 1000 * (if a_consent_freshness a then NICE_AGENT_TIMER_MIN_CONSENT_INTERVAL
                                            else NICE_AGENT_TIMER_TR_DEFAULT)) in
  '(done, min_next_tick, errors, a) ← keepalive_pairs a now min_next_tick 0 (component_ids a);
  '(done, min_next_tick, errors, a) ←
    match done with
    | Some _ => Ok (done, min_next_tick, errors, a)
    | None => keepalive_hosts a now min_next_tick errors (component_ids a)
    end;
  let next_timer_tick := default min_next_tick done in
  if negb (errors =? 0) then Ok (false, a)
  else Ok (true, a <| a_keepalive_timer := Some (u32 (u64 (next_timer_tick - now) / 1000)) |>).

Definition priv_conn_keepalive_tick_agent_locked (a : NiceAgent) : res (bool * NiceAgent) :=
  '(ret, a) ← priv_conn_keepalive_tick_unlocked a;
  if negb ret then Ok (ret, a <| a_keepalive_timer := None |>) else Ok (ret, a).

(** The keepalives of this agent. *)
Definition agent_keepalive : Keepalive := priv_conn_keepalive_tick_unlocked.
End keepalive.
