(* ===== verification/AgentConfig.v ===== *)
(** * A new agent and its properties (agent/agent.c)

    The state an agent starts in and the GObject properties that configure
    it.  Properties of parts the model leaves out (the main context, the
    proxy, UPnP, byte-stream TCP) are left out with them.  GObject has clamped
    the value of a property to its range before [nice_agent_set_property]
    sees it. *)
From S2P Require Import Prelude CMem StunTypes StunAgent StunTimer Address Candidate IceTypes IceEnv CheckList KeepAlive.
Local Open Scope Z_scope.

Definition DEFAULT_STUN_PORT : Z := 3478.
Definition DEFAULT_IDLE_TIMEOUT : Z := 5000.
Definition NICE_AGENT_TIMER_TA_DEFAULT : Z := 20.
Definition NICE_AGENT_MAX_CONNECTIVITY_CHECKS_DEFAULT : Z := 100.

Inductive property : Set :=
  | PROP_COMPATIBILITY (v : NiceCompatibility)
  | PROP_STUN_SERVER (v : option (list Z))
  | PROP_STUN_SERVER_PORT (v : Z)
  | PROP_CONTROLLING_MODE (v : bool)
  | PROP_FULL_MODE (v : bool)
  | PROP_STUN_PACING_TIMER (v : Z)
  | PROP_MAX_CONNECTIVITY_CHECKS (v : Z)
  | PROP_NOMINATION_MODE (v : NiceNominationMode)
  | PROP_SUPPORT_RENOMINATION (v : bool)
  | PROP_IDLE_TIMEOUT (v : Z)
  | PROP_RELIABLE (v : bool)
  | PROP_ICE_UDP (v : bool)
  | PROP_ICE_TCP (v : bool)
  | PROP_KEEPALIVE_CONNCHECK (v : bool)
  | PROP_FORCE_RELAY (v : bool)
  | PROP_STUN_MAX_RETRANSMISSIONS (v : Z)
  | PROP_STUN_INITIAL_TIMEOUT (v : Z)
  | PROP_STUN_RELIABLE_TIMEOUT (v : Z)
  | PROP_ICE_TRICKLE (v : bool)
  | PROP_CONSENT_FRESHNESS (v : bool)
  | PROP_CLOSE_FORCED (v : bool).

(** The flags of [nice_agent_new_full] that concern the model. *)
Record NiceAgentOption : Set := mkOptions {
  NICE_AGENT_OPTION_REGULAR_NOMINATION : bool;
  NICE_AGENT_OPTION_RELIABLE : bool;
  NICE_AGENT_OPTION_LITE_MODE : bool;
  NICE_AGENT_OPTION_ICE_TRICKLE : bool;
  NICE_AGENT_OPTION_SUPPORT_RENOMINATION : bool;
  NICE_AGENT_OPTION_CONSENT_FRESHNESS : bool;
  NICE_AGENT_OPTION_CLOSE_FORCED : bool
}.

Definition NICE_AGENT_OPTION_NONE : NiceAgentOption := mkOptions false false false false false false false.
Definition only_reliable : NiceAgentOption := mkOptions false true false false false false false.

Definition is_disconnected (c : NiceComponent) : bool := component_state_value (co_state c) <=? 0.

Definition priv_update_controlling_mode (a : NiceAgent) (value : bool) : NiceAgent :=
  let a := a <| a_saved_controlling_mode := value |> in
  if negb (Bool.eqb (a_controlling_mode a) value) then
    if forallb (fun s => forallb is_disconnected (str_components s)) (a_streams a) then a <| a_controlling_mode := value |> else a
  else a.

Definition nice_agent_reset_all_stun_agents (a : NiceAgent) (only_software : bool) : NiceAgent :=
  a <| a_streams :=
    (fun s => s <| str_components :=
       (fun c => c <| co_stun_agent := if only_software then stun_agent_set_software (co_stun_agent c) (a_software_attribute a)
                                        else nice_agent_init_stun_agent a (co_stun_agent c) |>)
       <$> str_components s |>) <$> a_streams a |>.

Definition nice_agent_set_property (a : NiceAgent) (p : property) : NiceAgent :=
  match p with
  | PROP_COMPATIBILITY v =>
      let a := a <| a_compatibility := v |> in
      let a := match v with
               | NICE_COMPATIBILITY_GOOGLE | NICE_COMPATIBILITY_MSN | NICE_COMPATIBILITY_WLM2009 => a <| a_use_ice_tcp := false |>
               | _ => a
               end in
      nice_agent_reset_all_stun_agents a false
  | PROP_STUN_SERVER v => a <| a_stun_server_ip := v |>
  | PROP_STUN_SERVER_PORT v => a <| a_stun_server_port := v |>
  | PROP_CONTROLLING_MODE v => priv_update_controlling_mode a v
  | PROP_FULL_MODE v => a <| a_full_mode := v |>
  | PROP_STUN_PACING_TIMER v => a <| a_timer_ta := v |>
  | PROP_MAX_CONNECTIVITY_CHECKS v => a <| a_max_conn_checks := v |>
  | PROP_NOMINATION_MODE v => a <| a_nomination_mode := v |>
  | PROP_SUPPORT_RENOMINATION v => a <| a_support_renomination := v |>
  | PROP_IDLE_TIMEOUT v => a <| a_idle_timeout := v |>
  | PROP_RELIABLE v => a <| a_reliable := v |>
  | PROP_ICE_UDP v => if a_use_ice_tcp a || v then a <| a_use_ice_udp := v |> else a
  | PROP_ICE_TCP v =>
      match a_compatibility a with
      | NICE_COMPATIBILITY_RFC5245 | NICE_COMPATIBILITY_OC2007 | NICE_COMPATIBILITY_OC2007R2 =>
          if a_use_ice_udp a || v then a <| a_use_ice_tcp := v |> else a
      | _ => a
      end
  | PROP_KEEPALIVE_CONNCHECK v => a <| a_keepalive_conncheck := v |>
  | PROP_FORCE_RELAY v => a <| a_force_relay := v |>
  | PROP_STUN_MAX_RETRANSMISSIONS v => a <| a_stun_max_retransmissions := v |>
  | PROP_STUN_INITIAL_TIMEOUT v => a <| a_stun_initial_timeout := v |>
  | PROP_STUN_RELIABLE_TIMEOUT v => a <| a_stun_reliable_timeout := v |>
  | PROP_ICE_TRICKLE v => a <| a_use_ice_trickle := v |>
  | PROP_CONSENT_FRESHNESS v => a <| a_consent_freshness := v |>
  | PROP_CLOSE_FORCED v => a <| a_close_forced := v |>
  end.

(** The value of the property that [p] names. *)
Definition nice_agent_get_property (a : NiceAgent) (p : property) : property :=
  match p with
  | PROP_COMPATIBILITY _ => PROP_COMPATIBILITY (a_compatibility a)
  | PROP_STUN_SERVER _ => PROP_STUN_SERVER (a_stun_server_ip a)
  | PROP_STUN_SERVER_PORT _ => PROP_STUN_SERVER_PORT (a_stun_server_port a)
  | PROP_CONTROLLING_MODE _ => PROP_CONTROLLING_MODE (a_saved_controlling_mode a)
  | PROP_FULL_MODE _ => PROP_FULL_MODE (a_full_mode a)
  | PROP_STUN_PACING_TIMER _ => PROP_STUN_PACING_TIMER (a_timer_ta a)
  | PROP_MAX_CONNECTIVITY_CHECKS _ => PROP_MAX_CONNECTIVITY_CHECKS (a_max_conn_checks a)
  | PROP_NOMINATION_MODE _ => PROP_NOMINATION_MODE (a_nomination_mode a)
  | PROP_SUPPORT_RENOMINATION _ => PROP_SUPPORT_RENOMINATION (a_support_renomination a)
  | PROP_IDLE_TIMEOUT _ => PROP_IDLE_TIMEOUT (a_idle_timeout a)
  | PROP_RELIABLE _ => PROP_RELIABLE (a_reliable a)
  | PROP_ICE_UDP _ => PROP_ICE_UDP (a_use_ice_udp a)
  | PROP_ICE_TCP _ => PROP_ICE_TCP (a_use_ice_tcp a)
  | PROP_KEEPALIVE_CONNCHECK _ =>
      PROP_KEEPALIVE_CONNCHECK
        (if bool_decide (a_compatibility a = NICE_COMPATIBILITY_GOOGLE) || a_consent_freshness a then true else a_keepalive_conncheck a)
  | PROP_FORCE_RELAY _ => PROP_FORCE_RELAY (a_force_relay a)
  | PROP_STUN_MAX_RETRANSMISSIONS _ => PROP_STUN_MAX_RETRANSMISSIONS (a_stun_max_retransmissions a)
  | PROP_STUN_INITIAL_TIMEOUT _ => PROP_STUN_INITIAL_TIMEOUT (a_stun_initial_timeout a)
  | PROP_STUN_RELIABLE_TIMEOUT _ => PROP_STUN_RELIABLE_TIMEOUT (a_stun_reliable_timeout a)
  | PROP_ICE_TRICKLE _ => PROP_ICE_TRICKLE (a_use_ice_trickle a)
  | PROP_CONSENT_FRESHNESS _ => PROP_CONSENT_FRESHNESS (a_consent_freshness a)
  | PROP_CLOSE_FORCED _ => PROP_CLOSE_FORCED (a_close_forced a)
  end.

Definition nice_agent_set_software (package_string : list Z) (a : NiceAgent) (software : option (list Z)) : NiceAgent :=
  let a := a <| a_software_attribute := (fun s => s ++ [47] ++ package_string) <$> software |> in
  nice_agent_reset_all_stun_agents a true.

(** A 64-bit integer from its bytes in memory. *)
Definition uint64_of_bytes (l : list Z) : Z := foldr (fun b v => b + 256 * v) 0 l.

Section agent.
Context {E : CheckEnv}.

Definition priv_generate_tie_breaker (a : NiceAgent) : Z * NiceAgent :=
  (uint64_of_bytes (nice_rng_generate_bytes (a_log a) 8), log (FxRandom 8) a).

(** The memory is zero before; addresses start anywhere above it. *)
Definition zero_agent (tie_breaker : Z) : NiceAgent :=
  mkAgentState NICE_COMPATIBILITY_RFC5245 NICE_NOMINATION_MODE_AGGRESSIVE true false false NICE_AGENT_MAX_CONNECTIVITY_CHECKS_DEFAULT 0 0 0
    DEFAULT_IDLE_TIMEOUT tie_breaker [] ∅ 1 1 [] [] false None 0 [] 0 false true false false 0 false [] [] [] false false None
    DEFAULT_STUN_PORT None true false false true [] 1 [] 0 [].

Definition nice_agent_init : NiceAgent :=
  let '(tie_breaker, a) := priv_generate_tie_breaker (zero_agent 0) in
  (zero_agent tie_breaker) <| a_log := a_log a |>.

(** [g_object_new] sets the construction properties, those not given to their
    defaults, and then the others. *)
Definition construct_properties (compat : NiceCompatibility) (flags : NiceAgentOption) : list property :=
  [PROP_COMPATIBILITY compat;
   PROP_FULL_MODE (negb (NICE_AGENT_OPTION_LITE_MODE flags));
   PROP_STUN_PACING_TIMER NICE_AGENT_TIMER_TA_DEFAULT;
   PROP_NOMINATION_MODE (if NICE_AGENT_OPTION_REGULAR_NOMINATION flags then NICE_NOMINATION_MODE_REGULAR
                         else NICE_NOMINATION_MODE_AGGRESSIVE);
   PROP_IDLE_TIMEOUT DEFAULT_IDLE_TIMEOUT;
   PROP_RELIABLE (NICE_AGENT_OPTION_RELIABLE flags);
   PROP_STUN_MAX_RETRANSMISSIONS STUN_TIMER_DEFAULT_MAX_RETRANSMISSIONS;
   PROP_STUN_INITIAL_TIMEOUT STUN_TIMER_DEFAULT_TIMEOUT;
   PROP_STUN_RELIABLE_TIMEOUT STUN_TIMER_DEFAULT_RELIABLE_TIMEOUT;
   PROP_CLOSE_FORCED (NICE_AGENT_OPTION_CLOSE_FORCED flags);
   PROP_ICE_TRICKLE (NICE_AGENT_OPTION_ICE_TRICKLE flags);
   PROP_SUPPORT_RENOMINATION (NICE_AGENT_OPTION_SUPPORT_RENOMINATION flags);
   PROP_CONSENT_FRESHNESS (NICE_AGENT_OPTION_CONSENT_FRESHNESS flags)].

Definition set_properties (a : NiceAgent) (l : list property) : NiceAgent := fold_left nice_agent_set_property l a.

Definition nice_agent_new_full (compat : NiceCompatibility) (flags : NiceAgentOption) : NiceAgent :=
  set_properties nice_agent_init (construct_properties compat flags).

Definition nice_agent_new (compat : NiceCompatibility) : NiceAgent := nice_agent_new_full compat NICE_AGENT_OPTION_NONE.
Definition nice_agent_new_reliable (compat : NiceCompatibility) : NiceAgent := nice_agent_new_full compat only_reliable.
End agent.
