(* ===== verification/CheckNominate.v ===== *)
(** * Connectivity checks: nomination and the timer callback (agent/conncheck.c)

    [priv_conn_check_tick_stream_nominate], which chooses the pairs that the
    controlling agent nominates, and [priv_conn_check_tick_agent_locked], the
    callback of the paced timer. *)
From S2P Require Import Prelude CMem StunTypes StunMessage StunAgent StunTimer StunIce Address Candidate IceTypes IceEnv CheckList CheckDriver CheckTick.
Local Open Scope Z_scope.

(** A pair that is nominated, or chosen to be. *)
Definition to_be_nominated (x : CandidateCheckPair) : bool :=
  cp_nominated x || (cp_use_candidate_on_next_check x && negb (bool_decide (cp_state x = NICE_CHECK_FAILED))).

(** The first such pair of a list; pairs of the component [skip] do not
    count. *)
Fixpoint find_nominated (a : NiceAgent) (skip : option Z) (l : list Z) : res (option Z) :=
  match l with
  | [] => Ok None
  | p :: l =>
      x ← deref a p;
      if bool_decide (Some (cp_component_id x) = skip) then find_nominated a skip l
      else if to_be_nominated x then Ok (Some p) else find_nominated a skip l
  end.

(** The same in the other streams. *)
Fixpoint find_other_stream_pair (a : NiceAgent) (sid : Z) (ss : list NiceStream) : res (option Z) :=
  match ss with
  | [] => Ok None
  | s :: ss =>
      if str_id s =? sid then find_other_stream_pair a sid ss
      else
        found ← find_nominated a None (str_conncheck_list s);
        match found with Some p => Ok (Some p) | None => find_other_stream_pair a sid ss end
  end.

(** ** Counters *)

Definition succeeded_or_discovered (x : CandidateCheckPair) : bool :=
  bool_decide (cp_state x = NICE_CHECK_SUCCEEDED) || bool_decide (cp_state x = NICE_CHECK_DISCOVERED).

(** In-progress, nominated and waiting-for-nomination pairs of the stream. *)
Fixpoint stream_counters (a : NiceAgent) (l : list Z) : res (Z * Z * Z) :=
  match l with
  | [] => Ok (0, 0, 0)
  | p :: l =>
      x ← deref a p;
      '(inprogress, nominated, waiting) ← stream_counters a l;
      Ok (if bool_decide (cp_state x = NICE_CHECK_IN_PROGRESS) then inprogress + 1 else inprogress,
          if succeeded_or_discovered x && cp_nominated x then nominated + 1 else nominated,
          if succeeded_or_discovered x && negb (cp_nominated x) then waiting + 1 else waiting)
  end.

Record ComponentCounters : Set := mkCounters {
  already_done : bool;
  p_frozen : Z;
  p_waiting : Z;
  p_inprogress : Z;
  p_valid : Z;
  p_host_host_valid : Z
}.

Definition is_state (x : CandidateCheckPair) (st : NiceCheckState) : Z := if bool_decide (cp_state x = st) then 1 else 0.

Definition host_host (x : CandidateCheckPair) : bool :=
  bool_decide (c_type (cp_local x) = NICE_CANDIDATE_TYPE_HOST) && bool_decide (c_type (cp_remote x) = NICE_CANDIDATE_TYPE_HOST).

Fixpoint component_counters (a : NiceAgent) (cid : Z) (l : list Z) : res ComponentCounters :=
  match l with
  | [] => Ok (mkCounters false 0 0 0 0 0)
  | p :: l =>
      x ← deref a p;
      c ← component_counters a cid l;
      Ok (if cp_component_id x =? cid then
            mkCounters (cp_use_candidate_on_next_check x || already_done c)
              (is_state x NICE_CHECK_FROZEN + p_frozen c) (is_state x NICE_CHECK_WAITING + p_waiting c)
              (is_state x NICE_CHECK_IN_PROGRESS + p_inprogress c)
              (if cp_valid x then 1 + p_valid c else p_valid c)
              (if cp_valid x && host_host x then 1 + p_host_host_valid c else p_host_host_valid c)
          else c)
  end.

(** ** The choice *)

(** Pairs of the same kind: the same transport and addresses. *)
Definition same_kind (x y : CandidateCheckPair) : bool :=
  bool_decide (c_transport (cp_local x) = c_transport (cp_local y)) &&
  nice_address_equal_no_port (c_addr (cp_local x)) (c_addr (cp_local y)) &&
  nice_address_equal_no_port (c_addr (cp_remote x)) (c_addr (cp_remote y)).

(** Whether the pair [other], when there is one, is of the kind of [x]. *)
Definition matches (a : NiceAgent) (x : CandidateCheckPair) (other : option Z) : res bool :=
  match other with
  | None => Ok false
  | Some q => y ← deref a q; Ok (same_kind x y)
  end.

(** The pair of the component to nominate, and whether it matches a pair of
    another component or of another stream. *)
Fixpoint choose_pair (a : NiceAgent) (cid : Z) (other_component other_stream : option Z) (first_nomination : bool)
    (l : list Z) (this : option Z) : res (option Z * bool * bool) :=
  match l with
  | [] => Ok (this, false, false)
  | p :: l =>
      x ← deref a p;
      if (cp_component_id x =? cid) && negb (cp_nominated x) && negb (cp_use_candidate_on_next_check x) && cp_valid x then
        p ← match cp_succeeded_pair x with
            | Some q => _ ← assert_ok (bool_decide (cp_state x = NICE_CHECK_DISCOVERED)); Ok q
            | None => Ok p
            end;
        y ← deref a p;
        _ ← assert_ok (bool_decide (cp_state y = NICE_CHECK_SUCCEEDED));
        let this := match this with None => Some p | Some _ => this end in
        if first_nomination then Ok (this, false, false)
        else
          m ← matches a y other_component;
          if m : bool then Ok (Some p, true, false)
          else
            m ← match other_component with None => matches a y other_stream | Some _ => Ok false end;
            if m : bool then Ok (Some p, false, true)
            else choose_pair a cid other_component other_stream first_nomination l this
      else choose_pair a cid other_component other_stream first_nomination l this
  end.

Definition NICE_MIN_NUMBER_OF_VALID_PAIRS : Z := 2.

Definition stopping_criterion (first_nomination found_other_component found_other_stream : bool) (c : ComponentCounters) : bool :=
  (first_nomination && (0 <? p_host_host_valid c)) ||
  (first_nomination && (NICE_MIN_NUMBER_OF_VALID_PAIRS <=? p_valid c)) ||
  found_other_component || found_other_stream ||
  ((p_waiting c =? 0) && (p_inprogress c =? 0) && (p_frozen c =? 0)).

(** One component of the regular nomination; TRUE when a pair was chosen. *)
Definition nominate_component (a : NiceAgent) (sid cid : Z) (other_stream : option Z) : res (bool * NiceAgent) :=
  s ← the_stream a sid;
  c ← component_counters a cid (str_conncheck_list s);
  if already_done c then Ok (false, a)
  else
    other_component ← find_nominated a (Some cid) (str_conncheck_list s);
    let first_nomination := bool_decide (other_stream = None) && bool_decide (other_component = None) in
    '(this, found_component, found_stream) ←
      choose_pair a cid other_component other_stream first_nomination (str_conncheck_list s) None;
    match this with
    | None => Ok (false, a)
    | Some p =>
        if stopping_criterion first_nomination found_component found_stream c then
          a ← modify a p (fun x => x <| cp_use_candidate_on_next_check := true |>);
          Ok (true, priv_add_pair_to_triggered_check_queue a p)
        else Ok (false, a)
    end.

Fixpoint nominate_components (a : NiceAgent) (sid : Z) (other_stream : option Z) (cs : list NiceComponent) (keep : bool)
    : res (bool * NiceAgent) :=
  match cs with
  | [] => Ok (keep, a)
  | c :: cs => '(b, a) ← nominate_component a sid (co_id c) other_stream; nominate_components a sid other_stream cs (keep || b)
  end.

(** The first pair of the component that succeeded or was discovered. *)
Fixpoint first_succeeded (a : NiceAgent) (cid : Z) (l : list Z) : res (option Z) :=
  match l with
  | [] => Ok None
  | p :: l =>
      x ← deref a p;
      if (cp_component_id x =? cid) && succeeded_or_discovered x then Ok (Some p) else first_succeeded a cid l
  end.

Section legacy.
Context {K : Keepalive}.

(** Nomination in the older compatibility modes. *)
Fixpoint nominate_legacy (a : NiceAgent) (sid : Z) (cs : list NiceComponent) (keep : bool) : res (bool * NiceAgent) :=
  match cs with
  | [] => Ok (keep, a)
  | c :: cs =>
      s ← the_stream a sid;
      found ← first_succeeded a (co_id c) (str_conncheck_list s);
      match found with
      | None => nominate_legacy a sid cs keep
      | Some p =>
          a ← modify a p (fun x => x <| cp_nominated := true |>);
          a ← conn_check_update_selected_pair a sid (co_id c) p;
          nominate_legacy (priv_add_pair_to_triggered_check_queue a p) sid cs true
      end
  end.

Definition priv_conn_check_tick_stream_nominate (a : NiceAgent) (sid : Z) : res (bool * NiceAgent) :=
  other_stream ← find_other_stream_pair a sid (a_streams a);
  s ← the_stream a sid;
  '(inprogress, nominated, waiting) ← stream_counters a (str_conncheck_list s);
  let keep := negb (inprogress =? 0) in
  '(keep, a) ←
    (if (nominated <? str_n_components s) && negb (waiting =? 0) then
       if is_compatible_with_rfc5245_or_oc2007r2 a then
         if bool_decide (a_nomination_mode a = NICE_NOMINATION_MODE_REGULAR) && a_controlling_mode a then
           nominate_components a sid other_stream (str_components s) keep
         else Ok (keep, a)
       else if a_controlling_mode a then nominate_legacy a sid (str_components s) keep
       else Ok (keep, a)
     else Ok (keep, a));
  Ok (keep, upd_stream a sid (fun s => s <| str_tick_counter := u32 (str_tick_counter s + 1) |>)).

End legacy.

(** ** The timer callback *)

Section tick.
Context {E : CheckEnv} {CL : CryptoLib} {B : Base64} {K : Keepalive} (package_string : list Z).

(** [for (i = agent->streams; i && !stun_sent; i = i->next) stun_sent = step (agent, stream)]. *)
Fixpoint until_sent (step : NiceAgent -> Z -> res (bool * NiceAgent)) (a : NiceAgent) (sids : list Z) (stun_sent : bool)
    : res (bool * NiceAgent) :=
  match sids with
  | [] => Ok (stun_sent, a)
  | sid :: sids =>
      if stun_sent then Ok (true, a) else '(sent, a) ← step a sid; until_sent step a sids sent
  end.

Fixpoint nominate_streams (a : NiceAgent) (sids : list Z) (keep : bool) : res (bool * NiceAgent) :=
  match sids with
  | [] => Ok (keep, a)
  | sid :: sids => '(b, a) ← priv_conn_check_tick_stream_nominate a sid; nominate_streams a sids (keep || b)
  end.

Fixpoint fail_streams (a : NiceAgent) (sids : list Z) : res NiceAgent :=
  match sids with
  | [] => Ok a
  | sid :: sids => a ← priv_update_check_list_failed_components a sid; fail_streams a sids
  end.

(** FALSE when the timer stops. *)
Definition priv_conn_check_tick_agent_locked (a : NiceAgent) : res (bool * NiceAgent) :=
  let sids := str_id <$> a_streams a in
  '(sent, a) ← until_sent (priv_conn_check_triggered_check package_string) a sids false;
  '(sent, a) ← until_sent priv_conn_check_tick_stream a sids sent;
  '(sent, a) ← until_sent (priv_conn_check_ordinary_check package_string) a sids sent;
  '(keep, a) ← nominate_streams a sids sent;
  let a := a <| a_conncheck_ongoing_idle_delay :=
                  if keep : bool then 0 else u32 (a_conncheck_ongoing_idle_delay a + a_timer_ta a) |> in
  if negb keep && (a_idle_timeout a <=? a_conncheck_ongoing_idle_delay a) then
    a ← fail_streams a sids;
    Ok (false, conn_check_stop a)
  else Ok (true, a).
End tick.
