(* ===== verification/CheckResponse.v ===== *)
(** * Connectivity checks: processing the answer to a check (agent/conncheck.c)

    [priv_map_reply_to_conn_check_request], which finds the check that a
    response answers and updates the pair, discovers peer-reflexive
    candidates, nominates and selects pairs, or resolves a role conflict. *)
From S2P Require Import Prelude CMem StunTypes StunMessage StunCrc32 StunAgent StunTimer StunIce Address Candidate IceTypes IceEnv CheckList CheckDriver Discovery CheckTick.
Local Open Scope Z_scope.

Section response.
Context {E : CheckEnv} {CL : CryptoLib} {B : Base64} {N : NetEnv} {K : Keepalive}.

Definition local_candidate_and_socket_compatible (lcand : NiceCandidate) (socket : option Z) : bool :=
  match nice_socket_has_compatible_transport socket with
  | Some transport =>
      let ret := bool_decide (c_transport lcand = transport) in
      if ret && bool_decide (transport = NICE_CANDIDATE_TRANSPORT_TCP_ACTIVE) && (0 <? nice_address_get_port (c_addr lcand)) then
        bool_decide (c_sockptr lcand = socket)
      else ret
  | None => if socket_is_udp_turn socket then bool_decide (c_sockptr lcand = socket) else true
  end.

(** ** The valid pair of a successful check *)

(** The local candidate with the mapped address. *)
Definition find_mapped (l : list NiceCandidate) (mapped : NiceAddress) (sockptr : option Z) : option NiceCandidate :=
  List.find (fun cand => nice_address_equal mapped (c_addr cand) && local_candidate_and_socket_compatible cand sockptr) l.

(** The pair of two candidates; a null local candidate is that of no pair. *)
Fixpoint find_pair_of (a : NiceAgent) (local : option NiceCandidate) (remote : NiceCandidate) (l : list Z) : res (option Z) :=
  match l with
  | [] => Ok None
  | p :: l =>
      x ← deref a p;
      if match local with Some c => c_ptr c =? c_ptr (cp_local x) | None => false end && (c_ptr remote =? c_ptr (cp_remote x))
      then Ok (Some p) else find_pair_of a local remote l
  end.

(** The check of [p] succeeded. *)
Definition mark_succeeded (a : NiceAgent) (p sid cid : Z) : res NiceAgent :=
  a ← SET_PAIR_STATE a p NICE_CHECK_SUCCEEDED;
  let a := priv_remove_pair_from_triggered_check_queue a p in
  priv_free_all_stun_transactions a p (Some (sid, cid)).

(** The pair is null when there is no candidate to make it of. *)
Definition priv_process_response_check_for_reflexive (a : NiceAgent) (sid cid p : Z) (sockptr : option Z) (mapped_sockaddr : sockaddr)
    (local_candidate : option NiceCandidate) (remote_candidate : NiceCandidate) : res (option Z * NiceAgent) :=
  let mapped := nice_address_set_from_sockaddr nice_address_init mapped_sockaddr in
  c ← the_component a sid cid;
  s ← the_stream a sid;
  let local_cand := find_mapped (co_local_candidates c) mapped sockptr in
  found ← find_pair_of a local_cand remote_candidate (str_conncheck_list s);
  '(new_pair, a) ←
    match found with
    | Some q =>
        a ← (if q =? p then modify a p (fun x => x <| cp_valid := true |>) else SET_PAIR_STATE a q NICE_CHECK_DISCOVERED);
        a ← mark_succeeded a p sid cid;
        a ← nice_component_add_valid_candidate a sid cid remote_candidate;
        Ok (Some q, a)
    | None =>
        x ← deref a p;
        '(local_cand, a) ←
          match local_cand with
          | None =>
              if negb (a_force_relay a) then
                '(lc, a) ← discovery_add_peer_reflexive_candidate a sid cid (cp_stun_priority x) mapped sockptr local_candidate (Some remote_candidate);
                match lc with
                | Some lc => Ok (Some lc, a)
                | None => Fault OutOfBounds          (** the transport of the null candidate is printed *)
                end
              else Ok (None, a)
          | Some lc => Ok (Some lc, a)
          end;
        '(new_pair, a) ←
          match local_cand with
          | Some lc =>
              '(q, a) ← priv_add_peer_reflexive_pair a sid cid lc p;
              a ← modify a q (fun x => x <| cp_valid := true |>);
              Ok (Some q, a)
          | None => Ok (None, a)
          end;
        a ← mark_succeeded a p sid cid;
        Ok (new_pair, a)
    end;
  match new_pair with
  | Some q =>
      y ← deref a q;
      a ← (if cp_valid y then nice_component_add_valid_candidate a sid cid remote_candidate else Ok a);
      Ok (Some q, a)
  | None => Ok (None, a)
  end.

(** ** Matching responses to checks *)

Fixpoint find_transaction (response_id : list Z) (l : list StunTransaction) : res (option StunTransaction) :=
  match l with
  | [] => Ok None
  | stun :: l =>
      match stx_message stun with
      | None => Fault OutOfBounds
      | Some m =>
          discovery_id ← stun_message_id m;
          if bool_decide (discovery_id = response_id) then Ok (Some stun) else find_transaction response_id l
      end
  end.

Fixpoint find_check (a : NiceAgent) (response_id : list Z) (l : list Z) : res (option (Z * StunTransaction)) :=
  match l with
  | [] => Ok None
  | p :: l =>
      x ← deref a p;
      t ← find_transaction response_id (cp_stun_transactions x);
      match t with
      | Some stun => Ok (Some (p, stun))
      | None => find_check a response_id l
      end
  end.

(** Whether the pair a response validated becomes nominated: [x] is the pair
    the check was sent on. *)
Definition nominated_by_response (a : NiceAgent) (x : CandidateCheckPair) : bool :=
  is_compatible_with_rfc5245_or_oc2007r2 a &&
  (if a_controlling_mode a then
     match a_nomination_mode a with
     | NICE_NOMINATION_MODE_REGULAR => cp_use_candidate_on_next_check x
     | NICE_NOMINATION_MODE_AGGRESSIVE => negb (cp_nominated x)
     end
   else cp_mark_nominated_on_response_arrival x).

Definition fail_and_conclude (a : NiceAgent) (sid cid p : Z) : res NiceAgent :=
  a ← candidate_check_pair_fail a sid p;
  conn_check_update_check_list_state_for_ready a sid cid.

(** A success response from the right address. *)
Definition check_succeeded (a : NiceAgent) (sid cid p : Z) (sockptr : option Z) (mapped : option sockaddr)
    (local_candidate : option NiceCandidate) (remote_candidate : NiceCandidate) : res NiceAgent :=
  '(ok_pair, a) ←
    match mapped with
    | None =>
        a ← SET_PAIR_STATE a p NICE_CHECK_SUCCEEDED;
        a ← modify a p (fun x => x <| cp_valid := true |>);
        x ← deref a p;
        a ← nice_component_add_valid_candidate a sid cid (cp_remote x);
        Ok (None, a)
    | Some mapped => priv_process_response_check_for_reflexive a sid cid p sockptr mapped local_candidate remote_candidate
    end;
  a ← conn_check_unfreeze_related a p;
  let ok_pair := default p ok_pair in
  x ← deref a p;
  a ← (if nominated_by_response a x then modify a ok_pair (fun x => x <| cp_nominated := true |>) else Ok a);
  y ← deref a ok_pair;
  a ← (if cp_nominated y then
         a ← conn_check_update_selected_pair a sid cid ok_pair;
         c ← the_component a sid cid;
         match co_state c with
         | NICE_COMPONENT_STATE_READY => Ok a
         | _ => agent_signal_component_state_change a sid cid NICE_COMPONENT_STATE_CONNECTED
         end
       else Ok a);
  conn_check_update_check_list_state_for_ready a sid cid.

Definition priv_map_reply_to_conn_check_request (a : NiceAgent) (sid cid : Z) (sockptr : option Z) (from : NiceAddress)
    (local_candidate remote_candidate : option NiceCandidate) (resp : StunMessage) : res (bool * NiceAgent) :=
  response_id ← stun_message_id resp;
  s ← the_stream a sid;
  found ← find_check a response_id (str_conncheck_list s);
  match found with
  | None => Ok (false, a)
  | Some (p, stun) =>
      '(ret, addr, _) ← stun_usage_ice_conncheck_process resp (sockaddr_other 0) 128 (agent_to_ice_compatibility a);
      a ← match ret with
          | STUN_USAGE_ICE_RETURN_SUCCESS | STUN_USAGE_ICE_RETURN_NO_MAPPED_ADDRESS =>
              a ← priv_remove_stun_transaction a p stun sid cid;
              x ← deref a p;
              if negb (nice_address_equal from (c_addr (cp_remote x))) then fail_and_conclude a sid cid p
              else
                match remote_candidate with
                | None => fail_and_conclude a sid cid p
                | Some rc =>
                    check_succeeded a sid cid p sockptr
                      (if bool_decide (ret = STUN_USAGE_ICE_RETURN_NO_MAPPED_ADDRESS) then None else Some addr)
                      local_candidate rc
                end
          | STUN_USAGE_ICE_RETURN_ROLE_CONFLICT =>
              x ← deref a p;
              if negb (cp_retransmit x) then Ok a
              else
                match stx_message stun with
                | None => Fault OutOfBounds
                | Some m =>
                    '(val, _) ← stun_message_find64 m STUN_ATTRIBUTE_ICE_CONTROLLED;
                    a ← priv_check_for_role_conflict a (is_success val);
                    a ← priv_remove_stun_transaction a p stun sid cid;
                    Ok (priv_add_pair_to_triggered_check_queue a p)
                end
          | _ => fail_and_conclude a sid cid p
          end;
      Ok (true, a)
  end.
End response.
