(* ===== verification/DiscoveryReply.v ===== *)
(** * Answers of STUN and TURN servers (agent/conncheck.c, component.c)

    Matching a response to a discovery in progress or to the refresh of an
    allocation: new server-reflexive and relayed candidates, alternate
    servers, authentication retries, and the timer of a refresh. *)
From S2P Require Import Prelude CMem StunTypes StunMessage StunCrc32 StunAgent StunTimer StunIce StunTurn Address Candidate IceTypes IceEnv CheckList CheckDriver Discovery CheckTick.
Local Open Scope Z_scope.

Definition STUN_MAX_MESSAGE_SIZE : Z := 65552.

Definition agent_to_turn_compatibility (a : NiceAgent) : StunUsageTurnCompatibility :=
  match a_compatibility a with
  | NICE_COMPATIBILITY_GOOGLE => STUN_USAGE_TURN_COMPATIBILITY_GOOGLE
  | NICE_COMPATIBILITY_MSN | NICE_COMPATIBILITY_WLM2009 => STUN_USAGE_TURN_COMPATIBILITY_MSN
  | NICE_COMPATIBILITY_OC2007 | NICE_COMPATIBILITY_OC2007R2 => STUN_USAGE_TURN_COMPATIBILITY_OC2007
  | NICE_COMPATIBILITY_RFC5245 => STUN_USAGE_TURN_COMPATIBILITY_RFC5766
  end.

Definition is_oc2007_or_r2 (a : NiceAgent) : bool :=
  bool_decide (a_compatibility a = NICE_COMPATIBILITY_OC2007) || bool_decide (a_compatibility a = NICE_COMPATIBILITY_OC2007R2).

(** ** Access by address *)

Definition the_discovery (a : NiceAgent) (ptr : Z) : res CandidateDiscovery :=
  match List.find (fun d => cd_ptr d =? ptr) (a_discovery_list a) with Some d => Ok d | None => Fault OutOfBounds end.
Definition upd_discovery (a : NiceAgent) (ptr : Z) (f : CandidateDiscovery -> CandidateDiscovery) : res NiceAgent :=
  _ ← the_discovery a ptr;
  Ok (a <| a_discovery_list := (fun d => if cd_ptr d =? ptr then f d else d) <$> a_discovery_list a |>).
Definition the_refresh (a : NiceAgent) (ptr : Z) : res CandidateRefresh :=
  match List.find (fun r => cr_ptr r =? ptr) (a_refresh_list a) with Some r => Ok r | None => Fault OutOfBounds end.
Definition the_turn (d : option TurnServer) : res TurnServer :=
  match d with Some t => Ok t | None => Fault OutOfBounds end.

(** The discovery is over. *)
Definition finished (d : CandidateDiscovery) : CandidateDiscovery := d <| cd_stun_message := None |> <| cd_done := true |>.

(** [turn->server = addr]: candidates and discoveries share the object. *)
Definition retarget (ptr : Z) (addr : NiceAddress) (t : TurnServer) : TurnServer :=
  if ts_ptr t =? ptr then mkTurnServer (ts_ptr t) addr (ts_server_address t) (ts_server_port t) (ts_username t) (ts_password t) (ts_type t) (ts_preference t) (ts_resolution_failed t) else t.
Definition retarget_candidate (ptr : Z) (addr : NiceAddress) (c : NiceCandidate) : NiceCandidate :=
  c <| c_turn := retarget ptr addr <$> c_turn c |>.
Definition retarget_component (ptr : Z) (addr : NiceAddress) (c : NiceComponent) : NiceComponent :=
  let f := retarget_candidate ptr addr in
  c <| co_local_candidates := f <$> co_local_candidates c |> <| co_turn_candidate := f <$> co_turn_candidate c |>
    <| co_selected_pair := (co_selected_pair c) <| sp_local := f <$> sp_local (co_selected_pair c) |> |>
    <| co_turn_servers := retarget ptr addr <$> co_turn_servers c |>.
Definition set_turn_server (a : NiceAgent) (ptr : Z) (addr : NiceAddress) : NiceAgent :=
  a <| a_discovery_list := (fun d => d <| cd_turn := retarget ptr addr <$> cd_turn d |>) <$> a_discovery_list a |>
    <| a_refresh_list := (fun r => r <| cr_candidate := retarget_candidate ptr addr (cr_candidate r) |>) <$> a_refresh_list a |>
    <| a_pairs := (fun x => x <| cp_local := retarget_candidate ptr addr (cp_local x) |>) <$> a_pairs a |>
    <| a_streams := (fun s => s <| str_components := retarget_component ptr addr <$> str_components s |>) <$> a_streams a |>.

(** ** Binding discoveries *)

Section replies.
Context {E : CheckEnv} {CL : CryptoLib} {B : Base64} {N : NetEnv} (package_string : list Z).

(** The part for a matching discovery; whether the transaction was found. *)
Definition bind_reply (a : NiceAgent) (ptr : Z) (resp : StunMessage) (server_address : NiceAddress) : res (bool * NiceAgent) :=
  '(ret, addr, _, alternate) ← stun_usage_bind_process resp (sockaddr_other 0) 128 (Some (sockaddr_other 0, 128));
  d ← the_discovery a ptr;
  match ret with
  | STUN_USAGE_BIND_RETURN_ALTERNATE_SERVER =>
      let niceaddr := nice_address_set_from_sockaddr nice_address_init (match alternate with Some (alt, _) => alt | None => sockaddr_other 0 end) in
      a ← upd_discovery a ptr (fun d => d <| cd_server := niceaddr |> <| cd_pending := false |>);
      Ok (false, a <| a_discovery_unsched_items := u32 (a_discovery_unsched_items a + 1) |>)
  | STUN_USAGE_BIND_RETURN_SUCCESS =>
      a ← (if negb (a_force_relay a) then
             let niceaddr := nice_address_set_from_sockaddr nice_address_init addr in
             a ← discovery_add_server_reflexive_candidate a (cd_stream_id d) (cd_component_id d) niceaddr
                   NICE_CANDIDATE_TRANSPORT_UDP (cd_nicesock d) (Some server_address) false;
             if a_use_ice_tcp a then
               discovery_discover_tcp_server_reflexive_candidates a (cd_stream_id d) (cd_component_id d) niceaddr
                 (cd_nicesock d) (Some server_address)
             else Ok a
           else Ok a);
      a ← upd_discovery a ptr finished;
      Ok (true, a)
  | STUN_USAGE_BIND_RETURN_ERROR => a ← upd_discovery a ptr finished; Ok (true, a)
  | _ => Ok (false, a)
  end.

(** The loop over the discoveries of a type, until one is found. *)
Fixpoint discovery_loop (reply : NiceAgent -> Z -> res (bool * NiceAgent)) (type : NiceCandidateType) (response_id : list Z)
    (a : NiceAgent) (ptrs : list Z) : res (bool * NiceAgent) :=
  match ptrs with
  | [] => Ok (false, a)
  | ptr :: ptrs =>
      d ← the_discovery a ptr;
      match cd_stun_message d with
      | Some m =>
          if bool_decide (cd_type d = type) then
            discovery_id ← stun_message_id m;
            if bool_decide (discovery_id = response_id) then
              '(trans_found, a) ← reply a ptr;
              if trans_found : bool then Ok (true, a) else discovery_loop reply type response_id a ptrs
            else discovery_loop reply type response_id a ptrs
          else discovery_loop reply type response_id a ptrs
      | None => discovery_loop reply type response_id a ptrs
      end
  end.

Definition priv_map_reply_to_discovery_request (a : NiceAgent) (resp : StunMessage) (server_address : NiceAddress) : res (bool * NiceAgent) :=
  response_id ← stun_message_id resp;
  discovery_loop (fun a ptr => bind_reply a ptr resp server_address) NICE_CANDIDATE_TYPE_SERVER_REFLEXIVE response_id a
    (cd_ptr <$> a_discovery_list a).

(** ** Allocations *)

Definition priv_calc_turn_timeout (lifetime : Z) : Z := if 120 <? lifetime then lifetime - 60 else lifetime / 2.

Definition nice_component_prune_relay_candidate (a : NiceAgent) (sid cid : Z) (relay_cand : NiceCandidate) : res NiceAgent :=
  let a := discovery_prune_socket a (c_sockptr relay_cand) in
  a ← conn_check_prune_socket a sid cid (c_sockptr relay_cand);
  refresh_prune_candidate_async a relay_cand.

Definition priv_add_new_turn_refresh (a : NiceAgent) (cdisco : CandidateDiscovery) (relay_cand : NiceCandidate) (lifetime : Z) : res NiceAgent :=
  turn ← the_turn (cd_turn cdisco);
  if bool_decide (ts_type turn = NICE_RELAY_TYPE_TURN_TLS) && is_oc2007_or_r2 a then Ok a
  else
    let ptr := a_next_ptr a in
    let resp := (fun m => mkMessage (agent m) (buffer m) (buffer_len m) None (long_term_key m) (long_term_valid m)) <$> cd_stun_resp_msg cdisco in
    let cand := mkRefresh ptr (cd_nicesock cdisco) (cd_server cdisco) relay_cand (cd_stream_id cdisco) (cd_component_id cdisco)
                  (cd_stun_agent cdisco) None None None zero_timer None resp false None in
    let a := a <| a_next_ptr := ptr + 1 |> <| a_refresh_list := a_refresh_list a ++ [cand] |> in
    if 0 <? lifetime then Ok (upd_refresh a ptr (fun r => r <| cr_timer_source := Some (priv_calc_turn_timeout lifetime) |>))
    else
      match agent_find_component a (cd_stream_id cdisco) (cd_component_id cdisco) with
      | Some _ => nice_component_prune_relay_candidate a (cd_stream_id cdisco) (cd_component_id cdisco) relay_cand
      | None => refresh_free a cand
      end.

(** The loop of [priv_handle_turn_alternate_server]. *)
Fixpoint alternate_loop (a : NiceAgent) (type : NiceCandidateType) (sid : Z) (turn_type : NiceRelayType) (server alternate : NiceAddress)
    (ptrs : list Z) : res NiceAgent :=
  match ptrs with
  | [] => Ok a
  | ptr :: ptrs =>
      d ← the_discovery a ptr;
      if negb (cd_done d) && bool_decide (cd_type d = type) && (cd_stream_id d =? sid) then
        turn ← the_turn (cd_turn d);
        if bool_decide (ts_type turn = turn_type) && nice_address_equal (cd_server d) server then
          a ← upd_discovery a ptr (fun d => d <| cd_stun_message := None |> <| cd_server := alternate |> <| cd_pending := false |>);
          let a := set_turn_server a (ts_ptr turn) alternate in
          let a := a <| a_discovery_unsched_items := u32 (a_discovery_unsched_items a + 1) |> in
          a ← match ts_type turn with
              | NICE_RELAY_TYPE_TURN_TCP | NICE_RELAY_TYPE_TURN_TLS =>
                  match agent_find_component a (cd_stream_id d) (cd_component_id d) with
                  | None => Ok a
                  | Some _ =>
                      let nicesock := agent_create_tcp_turn_socket (a_log a) (cd_nicesock d) alternate (ts_type turn)
                                        (nice_socket_is_reliable (cd_nicesock d)) in
                      let a := log (FxCreateSocket (cd_nicesock d) alternate) a in
                      a ← upd_discovery a ptr (fun d => d <| cd_nicesock := nicesock |>);
                      match nicesock with
                      | Some s => Ok (log (FxAttachSocket (cd_stream_id d) (cd_component_id d) s) a)
                      | None => Fault AssertFailed
                      end
                  end
              | NICE_RELAY_TYPE_TURN_UDP => Ok a
              end;
          alternate_loop a type sid turn_type server alternate ptrs
        else alternate_loop a type sid turn_type server alternate ptrs
      else alternate_loop a type sid turn_type server alternate ptrs
  end.

Definition priv_handle_turn_alternate_server (a : NiceAgent) (disco : CandidateDiscovery) (server alternate : NiceAddress) : res NiceAgent :=
  turn ← the_turn (cd_turn disco);
  alternate_loop a (cd_type disco) (cd_stream_id disco) (ts_type turn) server alternate (cd_ptr <$> a_discovery_list a).

(** Candidates from the mapped address that came with an allocation. *)
Definition add_mapped_candidates (a : NiceAgent) (d : CandidateDiscovery) (turn : TurnServer) (niceaddr mapped : NiceAddress) : res NiceAgent :=
  a ← (if bool_decide (ts_type turn = NICE_RELAY_TYPE_TURN_UDP) && negb (a_force_relay a) then
         discovery_add_server_reflexive_candidate a (cd_stream_id d) (cd_component_id d) mapped NICE_CANDIDATE_TRANSPORT_UDP
           (cd_nicesock d) (Some niceaddr) false
       else Ok a);
  if a_use_ice_tcp a then
    if is_oc2007_or_r2 a && negb (nice_address_equal_no_port niceaddr (ts_server turn)) then Ok a
    else discovery_discover_tcp_server_reflexive_candidates a (cd_stream_id d) (cd_component_id d) mapped (cd_nicesock d) (Some niceaddr)
  else Ok a.

(** Microsoft's realm and connection id are kept in the socket. *)
Definition set_ms_data (a : NiceAgent) (relay_cand : NiceCandidate) (d : CandidateDiscovery) (resp : StunMessage) : NiceAgent :=
  if is_oc2007_or_r2 a then
    log (FxTurnSocketConnectionId (c_sockptr relay_cand) (buffer resp))
      (log (FxTurnSocketRealm (c_sockptr relay_cand) (from_option buffer [] (cd_stun_message d))) a)
  else a.

(** [lifetime] is read, so it must have been set. *)
Definition the_lifetime (l : option Z) : res Z := match l with Some l => Ok l | None => Fault Uninitialised end.

(** The first of the two candidates of a reliable socket. *)
Definition add_tcp_active_relay (a : NiceAgent) (d : CandidateDiscovery) (turn : TurnServer) (niceaddr : NiceAddress)
    (lifetime : option Z) (resp : StunMessage) : res (option Z * NiceAgent) :=
  '(relay_cand, lifetime, a) ← discovery_add_relay_candidate a (cd_stream_id d) (cd_component_id d) niceaddr
    NICE_CANDIDATE_TRANSPORT_TCP_ACTIVE (cd_nicesock d) turn lifetime;
  match relay_cand with
  | Some rc =>
      let a := set_ms_data a rc d resp in
      l ← the_lifetime lifetime;
      a ← priv_add_new_turn_refresh a d rc l;
      Ok (lifetime, a)
  | None => Ok (lifetime, a)
  end.

Definition allocate_success (a : NiceAgent) (ptr : Z) (resp : StunMessage) (o : turn_out) (mapped : bool) : res NiceAgent :=
  d ← the_discovery a ptr;
  turn ← the_turn (cd_turn d);
  let niceaddr := nice_address_set_from_sockaddr nice_address_init (to_relay o).1 in
  a ← (if mapped then add_mapped_candidates a d turn niceaddr (nice_address_set_from_sockaddr nice_address_init (to_mapped o).1) else Ok a);
  '(transport, lifetime, a) ←
    (if nice_socket_is_reliable (cd_nicesock d) then
       '(lifetime, a) ← add_tcp_active_relay a d turn niceaddr (to_lifetime o) resp;
       Ok (NICE_CANDIDATE_TRANSPORT_TCP_PASSIVE, lifetime, a)
     else Ok (NICE_CANDIDATE_TRANSPORT_UDP, to_lifetime o, a));
  '(relay_cand, lifetime, a) ← discovery_add_relay_candidate a (cd_stream_id d) (cd_component_id d) niceaddr transport
    (cd_nicesock d) turn lifetime;
  a ← match relay_cand with
      | Some rc =>
          let a := match cd_stun_resp_msg d with
                   | Some m => log (FxTurnSocketCacheNonce (c_sockptr rc) (buffer m)) a
                   | None => a
                   end in
          let a := set_ms_data a rc d resp in
          l ← the_lifetime lifetime;
          priv_add_new_turn_refresh a d rc l
      | None => Ok a
      end;
  upd_discovery a ptr finished.

(** The bytes of an attribute. *)
Definition attribute_value (m : StunMessage) (type : Z) : res (option (list Z)) :=
  r ← stun_message_find m type;
  match r with
  | Some (off, len) => v ← rd_bytes (buffer m) off len; Ok (Some v)
  | None => Ok None
  end.

(** The response is kept for its realm and nonce; the buffer is larger than
    any message. *)
Definition keep_response (resp : StunMessage) : res StunMessage :=
  len ← stun_message_length resp;
  b ← rd_bytes (buffer resp) 0 len;
  Ok (mkMessage (agent resp) b STUN_MAX_MESSAGE_SIZE (key resp) (long_term_key resp) (long_term_valid resp)).

(** Whether to try again with the realm and nonce of the response: [None] when
    the response is not an authentication challenge at all. *)
Definition challenge (sent resp : StunMessage) : res (option bool) :=
  c ← stun_message_get_class resp;
  if negb (bool_decide (c = STUN_ERROR)) then Ok None
  else
    '(val, code) ← stun_message_find_error resp;
    sent_realm ← attribute_value sent STUN_ATTRIBUTE_REALM;
    recv_realm ← attribute_value resp STUN_ATTRIBUTE_REALM;
    match val, code, recv_realm with
    | STUN_MESSAGE_RETURN_SUCCESS, Some code, Some (_ :: _) =>
        Ok (Some ((code =? STUN_ERROR_STALE_NONCE) ||
                  ((code =? STUN_ERROR_UNAUTHORIZED) && negb (bool_decide (sent_realm = recv_realm)))))
    | _, _, _ => Ok None
    end.

Definition allocate_error (a : NiceAgent) (ptr : Z) (resp : StunMessage) (alternate : out_addr) : res NiceAgent :=
  d ← the_discovery a ptr;
  sent ← match cd_stun_message d with Some m => Ok m | None => Fault OutOfBounds end;
  ch ← challenge sent resp;
  a ← (if is_oc2007_or_r2 a && negb (snd alternate =? 128) then
         let addr := nice_address_set_from_sockaddr nice_address_init (fst alternate) in
         if negb (nice_address_equal addr (cd_server d)) then priv_handle_turn_alternate_server a d (cd_server d) addr else Ok a
       else Ok a);
  d ← the_discovery a ptr;
  match (if bool_decide (a_compatibility a = NICE_COMPATIBILITY_RFC5245) || is_oc2007_or_r2 a then ch else None) with
  | Some true =>
      m ← keep_response resp;
      a ← upd_discovery a ptr (fun d => d <| cd_stun_resp_msg := Some m |> <| cd_pending := false |>);
      Ok (a <| a_discovery_unsched_items := u32 (a_discovery_unsched_items a + 1) |>)
  | Some false => upd_discovery a ptr finished
  | None => if cd_pending d then upd_discovery a ptr finished else Ok a
  end.

Definition relay_reply (a : NiceAgent) (ptr : Z) (resp : StunMessage) : res (bool * NiceAgent) :=
  '(ret, o) ← stun_usage_turn_process resp
    (mkTurnOut (sockaddr_other 0, 128) (sockaddr_other 0, 128) (Some (sockaddr_other 0, 128)) None None) (agent_to_turn_compatibility a);
  let alternate := default (sockaddr_other 0, 128) (to_alternate o) in
  match ret with
  | STUN_USAGE_TURN_RETURN_ALTERNATE_SERVER =>
      d ← the_discovery a ptr;
      a ← priv_handle_turn_alternate_server a d (cd_server d) (nice_address_set_from_sockaddr nice_address_init (fst alternate));
      Ok (true, a)
  | STUN_USAGE_TURN_RETURN_RELAY_SUCCESS => a ← allocate_success a ptr resp o false; Ok (true, a)
  | STUN_USAGE_TURN_RETURN_MAPPED_SUCCESS => a ← allocate_success a ptr resp o true; Ok (true, a)
  | STUN_USAGE_TURN_RETURN_ERROR => a ← allocate_error a ptr resp alternate; Ok (true, a)
  | STUN_USAGE_TURN_RETURN_INVALID => Ok (false, a)
  end.

Definition priv_map_reply_to_relay_request (a : NiceAgent) (resp : StunMessage) : res (bool * NiceAgent) :=
  response_id ← stun_message_id resp;
  discovery_loop (fun a ptr => relay_reply a ptr resp) NICE_CANDIDATE_TYPE_RELAYED response_id a (cd_ptr <$> a_discovery_list a).

(** ** Refreshes *)

(** The credentials for the server, decoded in the Microsoft dialects. *)
Definition turn_credentials (a : NiceAgent) (turn : TurnServer) : list Z * list Z :=
  match agent_to_turn_compatibility a with
  | STUN_USAGE_TURN_COMPATIBILITY_MSN | STUN_USAGE_TURN_COMPATIBILITY_OC2007 =>
      (g_base64_decode (ts_username turn), g_base64_decode (ts_password turn))
  | _ => (ts_username turn, ts_password turn)
  end.

(** Builds the refresh request of [cand]; the transaction id is that of a
    fresh address. *)
Definition create_refresh (a : NiceAgent) (cand : CandidateRefresh) (lifetime : Z) : res (Z * CandidateRefresh * NiceAgent) :=
  turn ← the_turn (c_turn (cr_candidate cand));
  let '(username, password) := turn_credentials a turn in
  let t := a_next_ptr a in
  '(buffer_len, ag, m) ← stun_usage_turn_create_refresh package_string (stun_make_transid t) (cr_stun_agent cand) zero_message
     (replicate (Z.to_nat STUN_MAX_MESSAGE_SIZE_IPV6) 0) STUN_MAX_MESSAGE_SIZE_IPV6 (cr_stun_resp_msg cand) lifetime
     (Some username) (Some password) (agent_to_turn_compatibility a);
  Ok (buffer_len, cand <| cr_stun_agent := ag |> <| cr_stun_message := Some m |>, a <| a_next_ptr := t + 1 |>).

Definition send_refresh (a : NiceAgent) (cand : CandidateRefresh) (len : Z) : NiceAgent :=
  snd (agent_socket_send a (cr_nicesock cand) (cr_server cand) len (from_option buffer [] (cr_stun_message cand))).

Definition priv_turn_allocate_refresh_tick_unlocked (a : NiceAgent) (ptr : Z) : res NiceAgent :=
  cand ← the_refresh a ptr;
  '(buffer_len, cand, a) ← create_refresh a cand (if cr_disposing cand then 0 else -1);
  let cand := cand <| cr_tick_source := None |> in
  if 0 <? buffer_len then
    timer ← stun_timer_start (gettimeofday (a_log a)) (a_stun_initial_timeout a) (a_stun_max_retransmissions a);
    let a := send_refresh a cand buffer_len in
    Ok (upd_refresh a ptr (fun _ => cand <| cr_timer := timer |>
          <| cr_tick_source := Some (stun_timer_remainder (gettimeofday (a_log a)) timer) |>))
  else Ok (upd_refresh a ptr (fun _ => cand)).

Definition priv_turn_allocate_refresh_tick_agent_locked (a : NiceAgent) (ptr : Z) : res NiceAgent :=
  priv_turn_allocate_refresh_tick_unlocked a ptr.

(** One refresh, whose request the response answers. *)
Definition refresh_reply (a : NiceAgent) (ptr : Z) (sent resp : StunMessage) : res (bool * NiceAgent) :=
  '(ret, lifetime) ← stun_usage_turn_refresh_process resp None (agent_to_turn_compatibility a);
  cand ← the_refresh a ptr;
  match ret with
  | STUN_USAGE_TURN_RETURN_RELAY_SUCCESS =>
      lifetime ← the_lifetime lifetime;
      Ok (true, upd_refresh a ptr (fun r => r <| cr_timer_source := Some (priv_calc_turn_timeout lifetime) |> <| cr_tick_source := None |>))
  | STUN_USAGE_TURN_RETURN_ERROR =>
      ch ← challenge sent resp;
      a ← match (if bool_decide (a_compatibility a = NICE_COMPATIBILITY_RFC5245) then ch else None) with
          | Some true =>
              m ← keep_response resp;
              priv_turn_allocate_refresh_tick_unlocked (upd_refresh a ptr (fun r => r <| cr_stun_resp_msg := Some m |>)) ptr
          | _ => refresh_free a cand
          end;
      Ok (true, a)
  | _ => Ok (false, a)
  end.

Fixpoint refresh_loop (a : NiceAgent) (resp : StunMessage) (response_id : list Z) (ptrs : list Z) : res (bool * NiceAgent) :=
  match ptrs with
  | [] => Ok (false, a)
  | ptr :: ptrs =>
      cand ← the_refresh a ptr;
      match cr_disposing cand, cr_stun_message cand with
      | false, Some m =>
          refresh_id ← stun_message_id m;
          if bool_decide (refresh_id = response_id) then
            '(trans_found, a) ← refresh_reply a ptr m resp;
            if trans_found : bool then Ok (true, a) else refresh_loop a resp response_id ptrs
          else refresh_loop a resp response_id ptrs
      | _, _ => refresh_loop a resp response_id ptrs
      end
  end.

Definition priv_map_reply_to_relay_refresh (a : NiceAgent) (resp : StunMessage) : res (bool * NiceAgent) :=
  response_id ← stun_message_id resp;
  refresh_loop a resp response_id (cr_ptr <$> a_refresh_list a).

(** The answer to the removal of an allocation. *)
Fixpoint remove_loop (a : NiceAgent) (resp : StunMessage) (response_id : list Z) (ptrs : list Z) : res (bool * NiceAgent) :=
  match ptrs with
  | [] => Ok (false, a)
  | ptr :: ptrs =>
      cand ← the_refresh a ptr;
      match cr_disposing cand, cr_stun_message cand with
      | true, Some m =>
          request_id ← stun_message_id m;
          if bool_decide (request_id = response_id) then
            '(ret, _) ← stun_usage_turn_refresh_process resp None (agent_to_turn_compatibility a);
            if negb (bool_decide (ret = STUN_USAGE_TURN_RETURN_INVALID)) then a ← refresh_free a cand; Ok (true, a)
            else remove_loop a resp response_id ptrs
          else remove_loop a resp response_id ptrs
      | _, _ => remove_loop a resp response_id ptrs
      end
  end.

Definition priv_map_reply_to_relay_remove (a : NiceAgent) (resp : StunMessage) : res (bool * NiceAgent) :=
  response_id ← stun_message_id resp;
  remove_loop a resp response_id (cr_ptr <$> a_refresh_list a).

(** ** Timers of refreshes *)

(** A request was not answered in time: sent again or, in the end, dropped. *)
Definition refresh_retransmission (a : NiceAgent) (ptr : Z) : res NiceAgent :=
  cand ← the_refresh a ptr;
  '(ret, timer) ← stun_timer_refresh (gettimeofday (a_log a)) (cr_timer cand);
  let cand := cand <| cr_timer := timer |> in
  match ret with
  | STUN_USAGE_TIMER_RETURN_TIMEOUT =>
      m ← match cr_stun_message cand with Some m => Ok m | None => Fault OutOfBounds end;
      id ← stun_message_id m;
      let ag := snd (stun_agent_forget_transaction (cr_stun_agent cand) id) in
      refresh_free (upd_refresh a ptr (fun _ => cand <| cr_stun_agent := ag |>)) cand
  | STUN_USAGE_TIMER_RETURN_RETRANSMIT =>
      m ← match cr_stun_message cand with Some m => Ok m | None => Fault OutOfBounds end;
      len ← stun_message_length m;
      let a := send_refresh a cand len in
      Ok (upd_refresh a ptr (fun _ => cand <| cr_tick_source := Some (stun_timer_remainder (gettimeofday (a_log a)) timer) |>))
  | STUN_USAGE_TIMER_RETURN_SUCCESS =>
      Ok (upd_refresh a ptr (fun _ => cand <| cr_tick_source := Some (stun_timer_remainder (gettimeofday (a_log a)) timer) |>))
  end.

Definition priv_turn_allocate_refresh_retransmissions_tick_agent_locked (a : NiceAgent) (ptr : Z) : res NiceAgent :=
  _ ← the_refresh a ptr;
  refresh_retransmission (upd_refresh a ptr (fun r => r <| cr_tick_source := None |>)) ptr.

Definition on_refresh_remove_timeout (a : NiceAgent) (ptr : Z) : res NiceAgent := refresh_retransmission a ptr.

(** Removes the allocation on the server: a refresh with lifetime zero. *)
Definition refresh_remove_async (a : NiceAgent) (ptr : Z) : res NiceAgent :=
  cand ← the_refresh a ptr;
  '(buffer_len, cand, a) ← create_refresh a (cand <| cr_timer_source := None |> <| cr_destroy_source := None |>) 0;
  let a := upd_refresh a ptr (fun _ => cand) in
  if 0 <? buffer_len then
    let a := send_refresh a cand buffer_len in
    if a_close_forced a then
      let a := if negb (nice_socket_is_reliable (cr_nicesock cand)) then send_refresh a cand buffer_len else a in
      m ← match cr_stun_message cand with Some m => Ok m | None => Fault OutOfBounds end;
      id ← stun_message_id m;
      let ag := snd (stun_agent_forget_transaction (cr_stun_agent cand) id) in
      refresh_free (upd_refresh a ptr (fun r => r <| cr_stun_agent := ag |>)) cand
    else
      timer ← stun_timer_start (gettimeofday (a_log a)) (a_stun_initial_timeout a) (a_stun_max_retransmissions a);
      Ok (upd_refresh a ptr (fun r => r <| cr_timer := timer |>
            <| cr_tick_source := Some (stun_timer_remainder (gettimeofday (a_log a)) timer) |>))
  else Ok a.
End replies.

(** * The discovery timer and the end of gathering (agent/discovery.c, agent.c)

    [priv_discovery_tick_unlocked], paced by the timer Ta: starts the
    discoveries that wait, retransmits, gives up, and concludes the gathering
    when nothing is left ([agent_gathering_done]).  Without UPnP. *)

(** ** The end of gathering *)

Section gathering.
Context {N : NetEnv}.

Definition nice_component_resolving_turn (c : NiceComponent) : bool :=
  existsb (fun turn => negb (ts_resolution_failed turn) && negb (nice_address_is_valid (ts_server turn))) (co_turn_servers c).

(** Whether the two candidates have a pair already. *)
Fixpoint has_pair (a : NiceAgent) (local remote : NiceCandidate) (l : list Z) : res bool :=
  match l with
  | [] => Ok false
  | p :: l =>
      x ← deref a p;
      if (c_ptr (cp_local x) =? c_ptr local) && (c_ptr (cp_remote x) =? c_ptr remote) then Ok true else has_pair a local remote l
  end.

Fixpoint pair_with_remotes (a : NiceAgent) (sid cid : Z) (local : NiceCandidate) (remotes : list NiceCandidate) : res NiceAgent :=
  match remotes with
  | [] => Ok a
  | remote :: remotes =>
      s ← the_stream a sid;
      found ← has_pair a local remote (str_conncheck_list s);
      a ← (if found : bool then Ok a else '(_, a) ← conn_check_add_for_candidate_pair a sid cid local remote; Ok a);
      pair_with_remotes a sid cid local remotes
  end.

Fixpoint pair_gathered (a : NiceAgent) (sid cid : Z) (locals : list NiceCandidate) : res NiceAgent :=
  match locals with
  | [] => Ok a
  | local :: locals =>
      a ← (if a_force_relay a && negb (bool_decide (c_type local = NICE_CANDIDATE_TYPE_RELAYED)) then Ok a
           else if bool_decide (a_compatibility a = NICE_COMPATIBILITY_OC2007R2) &&
                   bool_decide (c_type local = NICE_CANDIDATE_TYPE_SERVER_REFLEXIVE) then
             Ok (upd_component a sid cid (fun c => c <| co_local_candidates :=
                   List.filter (fun l => negb (c_ptr l =? c_ptr local)) (co_local_candidates c) |>))
           else
             c ← the_component a sid cid;
             pair_with_remotes a sid cid local (co_remote_candidates c));
      pair_gathered a sid cid locals
  end.

(** The components of one stream; the boolean is [dns_resolution_ongoing]. *)
Fixpoint gathered_components (a : NiceAgent) (sid : Z) (cids : list Z) (dns : bool) : res (bool * NiceAgent) :=
  match cids with
  | [] => Ok (dns, a)
  | cid :: cids =>
      c ← the_component a sid cid;
      if nice_component_resolving_turn c then gathered_components a sid cids true
      else
        a ← pair_gathered a sid cid (co_local_candidates c);
        gathered_components a sid cids dns
  end.

Fixpoint gathered_streams (a : NiceAgent) (sids : list Z) (dns : bool) : res (bool * NiceAgent) :=
  match sids with
  | [] => Ok (dns, a)
  | sid :: sids =>
      s ← the_stream a sid;
      if negb (str_gathering s) then gathered_streams a sids dns
      else
        '(dns, a) ← gathered_components a sid (co_id <$> str_components s) dns;
        gathered_streams a sids dns
  end.

Fixpoint signal_done_loop (a : NiceAgent) (ss : list NiceStream) : NiceAgent :=
  match ss with
  | [] => a
  | s :: ss =>
      signal_done_loop
        (if str_gathering s then log (FxGatheringDone (str_id s)) (upd_stream a (str_id s) (fun s => s <| str_gathering := false |>)) else a)
        ss
  end.

Definition agent_signal_gathering_done (a : NiceAgent) : NiceAgent := signal_done_loop a (a_streams a).

Definition agent_gathering_done (a : NiceAgent) : res NiceAgent :=
  '(dns_resolution_ongoing, a) ← gathered_streams a (str_id <$> a_streams a) false;
  Ok (if negb (a_discovery_timer a) && negb dns_resolution_ongoing then agent_signal_gathering_done a else a).
End gathering.

(** ** The timer *)

Section tick.
Context {E : CheckEnv} {CL : CryptoLib} {B : Base64} {N : NetEnv} (package_string : list Z).

(** The first request of a discovery. *)
Definition create_discovery_request (a : NiceAgent) (d : CandidateDiscovery) : res (Z * StunAgent * StunMessage) :=
  let transid := stun_make_transid (a_next_ptr a) in
  let buf := replicate (Z.to_nat STUN_MAX_MESSAGE_SIZE_IPV6) 0 in
  match cd_type d with
  | NICE_CANDIDATE_TYPE_SERVER_REFLEXIVE =>
      stun_usage_bind_create package_string transid (cd_stun_agent d) zero_message buf STUN_MAX_MESSAGE_SIZE_IPV6
  | NICE_CANDIDATE_TYPE_RELAYED =>
      turn ← the_turn (cd_turn d);
      let '(username, password) := turn_credentials a turn in
      stun_usage_turn_create package_string transid (cd_stun_agent d) zero_message buf STUN_MAX_MESSAGE_SIZE_IPV6 (cd_stun_resp_msg d)
        STUN_USAGE_TURN_REQUEST_PORT_NORMAL (-1) (-1) (Some username) (Some password) (agent_to_turn_compatibility a)
  | _ => Fault AssertFailed
  end.

(** [buffer_len > 0 && agent_socket_send (...) >= 0]. *)
Definition try_send (a : NiceAgent) (d : CandidateDiscovery) (buffer_len : Z) (m : StunMessage) : bool * NiceAgent :=
  if 0 <? buffer_len then
    let '(ret, a) := agent_socket_send a (cd_nicesock d) (cd_server d) buffer_len (buffer m) in (0 <=? ret, a)
  else (false, a).

(** Starts the discovery at [ptr]; TRUE when its request was sent. *)
Definition start_discovery (a : NiceAgent) (ptr : Z) : res (bool * NiceAgent) :=
  d ← the_discovery a ptr;
  a ← upd_discovery a ptr (fun d => d <| cd_pending := true |>);
  let a := if a_discovery_unsched_items a =? 0 then a else a <| a_discovery_unsched_items := a_discovery_unsched_items a - 1 |> in
  _ ← assert_ok (nice_address_is_valid (cd_server d));
  '(buffer_len, ag, m) ← create_discovery_request a d;
  let a := a <| a_next_ptr := a_next_ptr a + 1 |> in
  a ← upd_discovery a ptr (fun d => d <| cd_stun_agent := ag |> <| cd_stun_message := Some m |>);
  let '(sent, a) := try_send a d buffer_len m in
  if sent : bool then
    timer ← (if nice_socket_is_reliable (cd_nicesock d) then stun_timer_start_reliable (gettimeofday (a_log a)) (a_stun_reliable_timeout a)
             else stun_timer_start (gettimeofday (a_log a)) (a_stun_initial_timeout a) (a_stun_max_retransmissions a));
    a ← upd_discovery a ptr (fun d => d <| cd_timer := timer |> <| cd_next_tick := g_get_monotonic_time (a_log a) |>);
    Ok (true, a)
  else
    a ← upd_discovery a ptr finished;
    Ok (false, a).

(** A discovery in progress; whether it goes on, and whether it sent. *)
Definition run_discovery (a : NiceAgent) (ptr : Z) : res (bool * bool * NiceAgent) :=
  d ← the_discovery a ptr;
  let now := g_get_monotonic_time (a_log a) in
  match cd_stun_message d with
  | None => a ← upd_discovery a ptr (fun d => d <| cd_done := true |>); Ok (false, false, a)
  | Some m =>
      if cd_next_tick d <=? now then
        '(ret, timer) ← stun_timer_refresh (gettimeofday (a_log a)) (cd_timer d);
        match ret with
        | STUN_USAGE_TIMER_RETURN_TIMEOUT =>
            id ← stun_message_id m;
            let ag := snd (stun_agent_forget_transaction (cd_stun_agent d) id) in
            a ← upd_discovery a ptr (fun d => finished (d <| cd_timer := timer |> <| cd_stun_agent := ag |>));
            Ok (false, false, a)
        | STUN_USAGE_TIMER_RETURN_RETRANSMIT =>
            let timeout := stun_timer_remainder (gettimeofday (a_log a)) timer in
            len ← stun_message_length m;
            let a := snd (agent_socket_send a (cd_nicesock d) (cd_server d) len (buffer m)) in
            a ← upd_discovery a ptr (fun d => d <| cd_timer := timer |> <| cd_next_tick := now + u32 (timeout * 1000) |>);
            Ok (true, true, a)
        | STUN_USAGE_TIMER_RETURN_SUCCESS =>
            let timeout := stun_timer_remainder (gettimeofday (a_log a)) timer in
            a ← upd_discovery a ptr (fun d => d <| cd_timer := timer |> <| cd_next_tick := now + u32 (timeout * 1000) |>);
            Ok (true, false, a)
        end
      else Ok (true, false, a)
  end.

(** One discovery of the loop; whether it goes on, and whether to pace. *)
Definition discovery_step (a : NiceAgent) (ptr : Z) : res (bool * bool * NiceAgent) :=
  d ← the_discovery a ptr;
  if negb (cd_pending d) then '(sent, a) ← start_discovery a ptr; Ok (sent, sent, a)
  else if negb (cd_done d) then run_discovery a ptr
  else Ok (false, false, a).

Fixpoint discovery_tick_loop (a : NiceAgent) (ptrs : list Z) (not_done : Z) : res (Z * NiceAgent) :=
  match ptrs with
  | [] => Ok (not_done, a)
  | ptr :: ptrs =>
      '(goes_on, need_pacing, a) ← discovery_step a ptr;
      let not_done := if goes_on : bool then not_done + 1 else not_done in
      if need_pacing : bool then Ok (not_done, a) else discovery_tick_loop a ptrs not_done
  end.

Definition priv_discovery_tick_unlocked (a : NiceAgent) : res (bool * NiceAgent) :=
  '(not_done, a) ← discovery_tick_loop a (cd_ptr <$> a_discovery_list a) 0;
  if not_done =? 0 then
    a ← agent_gathering_done (discovery_free a);
    Ok (false, a)
  else Ok (true, a).

Definition priv_discovery_tick_agent_locked (a : NiceAgent) : res (bool * NiceAgent) :=
  '(ret, a) ← priv_discovery_tick_unlocked a;
  Ok (ret, if negb ret then a <| a_discovery_timer := false |> else a).

Definition discovery_schedule (a : NiceAgent) : res NiceAgent :=
  _ ← assert_ok (negb (bool_decide (length (a_discovery_list a) = 0%nat)));
  if (0 <? a_discovery_unsched_items a) && negb (a_discovery_timer a) then
    '(res, a) ← priv_discovery_tick_unlocked a;
    Ok (if res : bool then a <| a_discovery_timer := true |> else a)
  else Ok a.
End tick.
