(* ===== verification/CheckInbound.v ===== *)
(** * Connectivity checks: incoming STUN messages (agent/conncheck.c)

    [conn_check_handle_inbound_stun]: validation of a message that arrived on
    a socket of a component, the answer to a request with its consequences,
    and the dispatch of responses to checks, discoveries and refreshes. *)
From S2P Require Import Prelude CMem StunTypes StunMessage StunCrc32 StunAgent StunTimer StunIce StunTurn Address Candidate IceTypes IceEnv CheckList CheckDriver Discovery CheckTick CheckResponse DiscoveryReply.
Local Open Scope Z_scope.

Definition MAX_STUN_DATAGRAM_PAYLOAD : Z := 1300.

Section inbound.
Context {E : CheckEnv} {CL : CryptoLib} {B : Base64} {N : NetEnv} {K : Keepalive} (package_string : list Z).

Definition remote_candidate_and_socket_compatible (lcand : option NiceCandidate) (rcand : NiceCandidate) (socket : option Z) : bool :=
  let ret := match nice_socket_has_compatible_transport socket with
             | Some transport => bool_decide (conn_check_match_transport (c_transport rcand) = transport)
             | None => true
             end in
  match lcand with
  | Some l => if ret then bool_decide (conn_check_match_transport (c_transport l) = c_transport rcand) else ret
  | None => ret
  end.

(** ** Validation *)

(** The user name has to start with that of a candidate, or of the stream. *)
Definition conncheck_stun_validater (a : NiceAgent) (s : NiceStream) (c : NiceComponent) : StunMessageIntegrityValidate :=
  fun _ message username password =>
    let msn := is_msn_or_oc2007 a in
    let candidates :=
      if bool_decide (a_compatibility a = NICE_COMPATIBILITY_OC2007) && match stun_message_get_class message with Ok STUN_RESPONSE => true | _ => false end
      then co_remote_candidates c else co_local_candidates c in
    let ufrag cand := let u := default (str_local_ufrag s) (c_username cand) in if msn then g_base64_decode u else u in
    match List.find (fun cand => (0 <? zlen (ufrag cand)) && (zlen (ufrag cand) <=? zlen (default [] username)) &&
                                 bool_decide (take (length (ufrag cand)) (default [] username) = ufrag cand)) candidates with
    | Some cand =>
        let pass := match c_password cand with
                    | Some p => Some p
                    | None => match str_local_password s with [] => None | p => Some p end
                    end in
        (true, match pass with Some p => Some (if msn then g_base64_decode p else p) | None => password end)
    | None => (false, password)
    end.

Definition unmatched (valid : StunValidationStatus) : bool :=
  bool_decide (valid = STUN_VALIDATION_BAD_REQUEST) || bool_decide (valid = STUN_VALIDATION_UNMATCHED_RESPONSE).

(** The STUN agents of the discoveries on the socket are tried one after the
    other, until one knows the response. *)
Fixpoint validate_discoveries (a : NiceAgent) (sid cid : Z) (nicesock : option Z) (req : StunMessage) (buf : list Z) (len : Z)
    (validater : StunMessageIntegrityValidate) (valid : StunValidationStatus) (ptrs : list Z)
    : res (StunValidationStatus * bool * StunMessage * NiceAgent) :=
  match ptrs with
  | [] => Ok (valid, false, req, a)
  | ptr :: ptrs =>
      d ← the_discovery a ptr;
      if (cd_stream_id d =? sid) && (cd_component_id d =? cid) && bool_decide (cd_nicesock d = nicesock) then
        '(valid, ag, req) ← stun_agent_validate (cd_stun_agent d) req buf len (Some validater);
        a ← upd_discovery a ptr (fun d => d <| cd_stun_agent := ag |>);
        if bool_decide (valid = STUN_VALIDATION_UNMATCHED_RESPONSE) then
          validate_discoveries a sid cid nicesock req buf len validater valid ptrs
        else Ok (valid, true, req, a)
      else validate_discoveries a sid cid nicesock req buf len validater valid ptrs
  end.

Fixpoint validate_refreshes (a : NiceAgent) (sid cid : Z) (nicesock : option Z) (req : StunMessage) (buf : list Z) (len : Z)
    (validater : StunMessageIntegrityValidate) (valid : StunValidationStatus) (ptrs : list Z)
    : res (StunValidationStatus * bool * StunMessage * NiceAgent) :=
  match ptrs with
  | [] => Ok (valid, false, req, a)
  | ptr :: ptrs =>
      r ← the_refresh a ptr;
      if (cr_stream_id r =? sid) && (cr_component_id r =? cid) &&
         (bool_decide (cr_nicesock r = nicesock) || bool_decide (c_sockptr (cr_candidate r) = nicesock)) then
        '(valid, ag, req) ← stun_agent_validate (cr_stun_agent r) req buf len (Some validater);
        let a := upd_refresh a ptr (fun r => r <| cr_stun_agent := ag |>) in
        if bool_decide (valid = STUN_VALIDATION_UNMATCHED_RESPONSE) then
          validate_refreshes a sid cid nicesock req buf len validater valid ptrs
        else Ok (valid, true, req, a)
      else validate_refreshes a sid cid nicesock req buf len validater valid ptrs
  end.

(** Returns the verdict, [discovery_msg], the message and the agent. *)
Definition validate_inbound (a : NiceAgent) (sid cid : Z) (nicesock : option Z) (buf : list Z) (len : Z)
    : res (StunValidationStatus * bool * StunMessage * NiceAgent) :=
  s ← the_stream a sid;
  c ← the_component a sid cid;
  let validater := conncheck_stun_validater a s c in
  '(valid, ag, req) ← stun_agent_validate (co_stun_agent c) zero_message buf len (Some validater);
  let a := upd_component a sid cid (fun c => c <| co_stun_agent := ag |>) in
  '(valid, dmsg, req, a) ← (if unmatched valid then
      validate_discoveries a sid cid nicesock req buf len validater valid (cd_ptr <$> a_discovery_list a)
    else Ok (valid, false, req, a));
  '(valid, rmsg, req, a) ← (if unmatched valid then
      validate_refreshes a sid cid nicesock req buf len validater valid (cr_ptr <$> a_refresh_list a)
    else Ok (valid, false, req, a));
  Ok (valid, dmsg || rmsg, req, a).

(** ** Error responses *)

Definition zeroed (n : Z) : list Z := replicate (Z.to_nat n) 0.

(** An error response without credentials; the boolean tells whether it could
    be made.  Microsoft's dialects never send it. *)
Definition send_error (a : NiceAgent) (sid cid : Z) (nicesock : option Z) (from : NiceAddress) (req : StunMessage) (code : Z)
    : res (bool * NiceAgent) :=
  c ← the_component a sid cid;
  '(ok, msg) ← stun_agent_init_error package_string (co_stun_agent c) zero_message (zeroed MAX_STUN_DATAGRAM_PAYLOAD)
     MAX_STUN_DATAGRAM_PAYLOAD req code;
  if ok : bool then
    '(rbuf_len, ag, msg) ← stun_agent_finish_message (co_stun_agent c) msg None;
    let a := upd_component a sid cid (fun c => c <| co_stun_agent := ag |>) in
    Ok (true, if (0 <? rbuf_len) && negb (is_msn_or_oc2007 a) then snd (agent_socket_send a nicesock from rbuf_len (buffer msg)) else a)
  else Ok (false, a).

Definition send_unknown_attributes (a : NiceAgent) (sid cid : Z) (nicesock : option Z) (from : NiceAddress) (req : StunMessage) : res NiceAgent :=
  if is_msn_or_oc2007 a then Ok a
  else
    c ← the_component a sid cid;
    '(rbuf_len, ag, msg) ← stun_agent_build_unknown_attributes_error package_string (co_stun_agent c) zero_message
       (zeroed MAX_STUN_DATAGRAM_PAYLOAD) MAX_STUN_DATAGRAM_PAYLOAD req;
    let a := upd_component a sid cid (fun c => c <| co_stun_agent := ag |>) in
    Ok (if negb (rbuf_len =? 0) then snd (agent_socket_send a nicesock from rbuf_len (buffer msg)) else a).

(** The peer has withdrawn its consent. *)
Fixpoint fail_pairs_to (a : NiceAgent) (sid : Z) (from : NiceAddress) (l : list Z) : res NiceAgent :=
  match l with
  | [] => Ok a
  | p :: l =>
      x ← deref a p;
      a ← (if nice_address_equal from (c_addr (cp_remote x)) then candidate_check_pair_fail a sid p else Ok a);
      fail_pairs_to a sid from l
  end.

Definition handle_forbidden (a : NiceAgent) (sid cid : Z) (from : NiceAddress) : res NiceAgent :=
  s ← the_stream a sid;
  a ← fail_pairs_to a sid from (str_conncheck_list s);
  c ← the_component a sid cid;
  match sp_remote (co_selected_pair c) with
  | None => Fault OutOfBounds
  | Some r =>
      if nice_address_equal from (c_addr r) then
        let a := upd_component a sid cid (fun c => c <| co_selected_pair :=
          (co_selected_pair c) <| sp_remote_consent_have := false |> <| sp_consent_tick := None |> |>) in
        agent_signal_component_state_change a sid cid NICE_COMPONENT_STATE_FAILED
      else Ok a
  end.

(** ** The candidates of a message *)

Definition find_local_candidate (c : NiceComponent) (nicesock : option Z) : option NiceCandidate :=
  List.find (fun cand =>
    nice_address_equal (socket_addr nicesock)
      (if bool_decide (c_type cand = NICE_CANDIDATE_TYPE_RELAYED) then c_addr cand else c_base_addr cand) &&
    local_candidate_and_socket_compatible cand nicesock) (co_local_candidates c).

Definition find_remote_candidate (c : NiceComponent) (local : option NiceCandidate) (from : NiceAddress) (nicesock : option Z) : option NiceCandidate :=
  List.find (fun cand => nice_address_equal from (c_addr cand) && remote_candidate_and_socket_compatible local cand nicesock)
    (co_remote_candidates c).

Definition has_candidate_credentials (a : NiceAgent) : bool :=
  bool_decide (a_compatibility a = NICE_COMPATIBILITY_GOOGLE) || is_msn_or_oc2007 a.

(** In the dialects where candidates have credentials, the candidates are
    found by the user name: the first remote and local one that fit. *)
Definition find_by_username (a : NiceAgent) (s : NiceStream) (c : NiceComponent) (class : StunClass) (username : option (list Z))
    : option (NiceCandidate * NiceCandidate) :=
  let inbound := bool_decide (a_compatibility a = NICE_COMPATIBILITY_MSN) || bool_decide (class = STUN_REQUEST) ||
                 bool_decide (class = STUN_INDICATION) in
  List.find (fun rl => bool_decide (username = Some (priv_create_username a (Some s) (co_id c) (Some rl.1) (Some rl.2) NICE_STREAM_MAX_UNAME inbound)))
    (flat_map (fun r => (fun l => (r, l)) <$> co_local_candidates c) (co_remote_candidates c)).

(** ** Requests *)

(** Checks that arrive before the candidates of the peer are kept, up to twice
    the size of the check list; the boolean tells whether the new one was
    dropped at once. *)
Definition priv_store_pending_check (a : NiceAgent) (sid cid : Z) (from : NiceAddress) (sockptr : option Z) (username : option (list Z))
    (priority : Z) (use_candidate : bool) : res (bool * NiceAgent) :=
  c ← the_component a sid cid;
  let max_incoming_checks := u32 (a_max_conn_checks a * 2) in
  let icheck := mkIncoming from sockptr priority use_candidate (match username with Some [] => None | u => u end) in
  let checks := co_incoming_checks c ++ [icheck] in
  let full := max_incoming_checks <=? zlen checks in
  let checks := if full then tail checks else checks in
  Ok (full && bool_decide (checks = []), upd_component a sid cid (fun c => c <| co_incoming_checks := checks |>)).

Definition priv_reply_to_conn_check (a : NiceAgent) (sid cid : Z) (lcand rcand : option NiceCandidate) (toaddr : NiceAddress)
    (sockptr : option Z) (rbuf_len : Z) (msg : StunMessage) (use_candidate : bool) : res NiceAgent :=
  _ ← assert_ok (match rcand with Some r => nice_address_equal (c_addr r) toaddr | None => true end);
  let a := snd (agent_socket_send a sockptr toaddr rbuf_len (buffer msg)) in
  c ← the_component a sid cid;
  a ← (if bool_decide (a_compatibility a = NICE_COMPATIBILITY_OC2007R2) then
         ms_ice2_legacy_conncheck_send a (co_stun_agent c) msg sockptr toaddr
       else Ok a);
  s ← the_stream a sid;
  match rcand, str_remote_ufrag s with
  | Some r, _ :: _ =>
      '(_, a) ← priv_schedule_triggered_check a sid cid sockptr r;
      if use_candidate then
        match lcand with
        | Some l => '(_, a) ← priv_mark_pair_nominated a sid cid l r; Ok a
        | None => Ok a                                (** no pair has a null candidate *)
        end
      else Ok a
  | _, _ => Ok a
  end.

(** In the Microsoft dialects the key comes from the candidate, and MSN swaps
    the user name in place. *)
Definition set_msn_key (a : NiceAgent) (s : NiceStream) (cid : Z) (req : StunMessage) (local remote2 : NiceCandidate) : res StunMessage :=
  let key_from p := match p with
                    | Some p => Ok (mkMessage (agent req) (buffer req) (buffer_len req) (Some (g_base64_decode p)) (long_term_key req) (long_term_valid req))
                    | None => Fault Uninitialised
                    end in
  match a_compatibility a with
  | NICE_COMPATIBILITY_MSN =>
      u ← stun_message_find req STUN_ATTRIBUTE_USERNAME;
      match u with
      | None => Fault OutOfBounds
      | Some (off, username_len) =>
          let uname := priv_create_username a (Some s) cid (Some remote2) (Some local) NICE_STREAM_MAX_UNAME false in
          b ← wr_bytes (buffer req) off (take (Z.to_nat username_len) uname);
          m ← key_from (c_password remote2);
          Ok (set_buffer m b)
      end
  | NICE_COMPATIBILITY_OC2007 => key_from (c_password local)
  | _ => Ok req
  end.

Definition signal_initial_binding_request (a : NiceAgent) (sid : Z) : NiceAgent :=
  log (FxInitialBindingRequest sid) (upd_stream a sid (fun s => s <| str_initial_binding_request_received := true |>)).

(** A remote candidate for the sender of a request that none is known for. *)
Definition learn_remote (a : NiceAgent) (sid cid priority : Z) (from : NiceAddress) (nicesock : option Z)
    (local remote2 : option NiceCandidate) : res (NiceCandidate * NiceAgent) :=
  '(rc, a) ← discovery_learn_remote_peer_reflexive_candidate a sid cid priority from nicesock local remote2;
  s ← the_stream a sid;
  a ← match str_remote_ufrag s with
      | [] => Ok a
      | _ :: _ =>
          match local with
          | Some l =>
              if bool_decide (c_transport l = NICE_CANDIDATE_TRANSPORT_TCP_PASSIVE) then
                '(_, a) ← priv_conn_check_add_for_candidate_pair_matched a sid cid l rc NICE_CHECK_WAITING; Ok a
              else '(_, a) ← conn_check_add_for_candidate a sid cid rc; Ok a
          | None => '(_, a) ← conn_check_add_for_candidate a sid cid rc; Ok a
          end
      end;
  Ok (rc, a).

(** The request is answered and has its effects.  Returns the remote
    candidate and, when the check was stored, whether it was dropped. *)
Definition accept_request (a : NiceAgent) (sid cid : Z) (nicesock : option Z) (from : NiceAddress) (req msg : StunMessage) (rbuf_len : Z)
    (local remote remote2 : option NiceCandidate) (username : option (list Z)) : res (NiceCandidate * option bool * NiceAgent) :=
  use_candidate ← stun_usage_ice_conncheck_use_candidate req;
  priority ← stun_usage_ice_conncheck_priority req;
  let use_candidate := use_candidate || has_candidate_credentials a in
  s ← the_stream a sid;
  let a := if negb (str_initial_binding_request_received s) then signal_initial_binding_request a sid else a in
  '(rc, a) ← match remote with
             | Some rc => Ok (rc, a)
             | None => learn_remote a sid cid priority from nicesock local remote2
             end;
  a ← nice_component_add_valid_candidate a sid cid rc;
  a ← priv_reply_to_conn_check a sid cid local (Some rc) from nicesock rbuf_len msg use_candidate;
  s ← the_stream a sid;
  match str_remote_ufrag s with
  | [] =>
      '(dropped, a) ← priv_store_pending_check a sid cid from nicesock username priority use_candidate;
      Ok (rc, Some dropped, a)
  | _ :: _ => Ok (rc, None, a)
  end.

(** ** Renomination *)

(** The pair gets a priority above that of the selected pair; the check list
    is not sorted again. *)
Definition raise_priority (a : NiceAgent) (sid cid : Z) (local remote : NiceCandidate) : res NiceAgent :=
  s ← the_stream a sid;
  c ← the_component a sid cid;
  let sel := co_selected_pair c in
  match sp_remote sel, sp_local sel with
  | Some r, Some l =>
      if negb (sp_priority sel =? 0) && negb (c_ptr r =? c_ptr remote) && negb (c_ptr l =? c_ptr local) then
        found ← find_pair_of a (Some local) remote (str_conncheck_list s);
        match found with
        | Some p => modify a p (fun x => if cp_valid x then x <| cp_priority := u64 (sp_priority sel + 1) |> else x)
        | None => Ok a
        end
      else Ok a
  | _, _ => Ok a
  end.

(** [pending] is the stored check, and whether it was dropped at once. *)
Definition conn_check_handle_renomination (a : NiceAgent) (sid cid : Z) (req : StunMessage) (remote local : option NiceCandidate)
    (pending : option bool) : res NiceAgent :=
  match remote, local with
  | Some r, Some l =>
      if negb (a_controlling_mode a) && is_compatible_with_rfc5245_or_oc2007r2 a && a_support_renomination a then
        v ← attribute_value req STUN_ATTRIBUTE_NOMINATION;
        if zlen (default [] v) =? 4 then
          a ← raise_priority a sid cid l r;
          '(nominated, a) ← priv_mark_pair_nominated a sid cid l r;
          if nominated : bool then Ok a
          else
            match pending with
            | None => Ok a
            | Some true => Fault OutOfBounds
            | Some false =>
                Ok (upd_component a sid cid (fun c => c <| co_incoming_checks :=
                  match last (co_incoming_checks c) with
                  | Some ic => removelast (co_incoming_checks c) ++
                      [mkIncoming (ic_from ic) (ic_local_socket ic) (ic_priority ic) true (ic_username ic)]
                  | None => []
                  end |>))
            end
        else Ok a
      else Ok a
  | _, _ => Ok a
  end.

(** ** Responses *)

Definition priv_map_reply_to_keepalive_conncheck (a : NiceAgent) (sid cid : Z) : NiceAgent :=
  upd_component a sid cid (fun c => c <| co_selected_pair :=
    (co_selected_pair c) <| sp_consent_last_received := g_get_monotonic_time (a_log a) |> |>).

(** The handlers are asked in turn; the last takes every response. *)
Definition dispatch_response (a : NiceAgent) (sid cid : Z) (nicesock : option Z) (from : NiceAddress)
    (local remote : option NiceCandidate) (resp : StunMessage) : res NiceAgent :=
  '(f, a) ← priv_map_reply_to_conn_check_request a sid cid nicesock from local remote resp;
  if f : bool then Ok a else
  '(f, a) ← priv_map_reply_to_discovery_request a resp from;
  if f : bool then Ok a else
  '(f, a) ← priv_map_reply_to_relay_request a resp;
  if f : bool then Ok a else
  '(f, a) ← priv_map_reply_to_relay_refresh package_string a resp;
  if f : bool then Ok a else
  '(f, a) ← priv_map_reply_to_relay_remove a resp;
  if f : bool then Ok a else Ok (priv_map_reply_to_keepalive_conncheck a sid cid).

(** ** The handler *)

(** A valid request; [None] is the return of FALSE, and the inner [None] that
    the handler is done. *)
Definition handle_request (a : NiceAgent) (sid cid : Z) (nicesock : option Z) (from : NiceAddress) (req : StunMessage)
    (local remote remote2 : option NiceCandidate)
    : res (option (option (NiceCandidate * option bool)) * NiceAgent) :=
  s ← the_stream a sid;
  keyed ← (if is_msn_or_oc2007 a then
             match local, remote2 with
             | Some l, Some r2 => req ← set_msn_key a s cid req l r2; Ok (Some req)
             | _, _ => Ok None
             end
           else Ok (Some req));
  match keyed with
  | None => Ok (Some None, a)
  | Some req =>
      username ← attribute_value req STUN_ATTRIBUTE_USERNAME;          (** as MSN may have swapped it *)
      c ← the_component a sid cid;
      '(refused, a) ← (if negb (co_have_local_consent c) then send_error a sid cid nicesock from req STUN_ERROR_FORBIDDEN else Ok (false, a));
      if refused : bool then Ok (Some None, a)
      else
        c ← the_component a sid cid;
        '(ret, rbuf_len, control, ag, msg) ← stun_usage_ice_conncheck_create_reply package_string (co_stun_agent c) req zero_message
           (zeroed MAX_STUN_DATAGRAM_PAYLOAD) MAX_STUN_DATAGRAM_PAYLOAD (nice_address_copy_to_sockaddr from (sockaddr_other 0)) 128
           (a_controlling_mode a) (a_tie_breaker a) (agent_to_ice_compatibility a);
        let a := upd_component a sid cid (fun c => c <| co_stun_agent := ag |>) in
        match ret with
        | STUN_USAGE_ICE_RETURN_ROLE_CONFLICT =>
            a ← priv_check_for_role_conflict a control;
            '(rc, pending, a) ← accept_request a sid cid nicesock from req msg rbuf_len local remote remote2 username;
            Ok (Some (Some (rc, pending)), a)
        | STUN_USAGE_ICE_RETURN_SUCCESS =>
            '(rc, pending, a) ← accept_request a sid cid nicesock from req msg rbuf_len local remote remote2 username;
            Ok (Some (Some (rc, pending)), a)
        | _ => Ok (None, a)
        end
  end.

(** A message that was not rejected by the validation. *)
Definition handle_valid (a : NiceAgent) (sid cid : Z) (nicesock : option Z) (from : NiceAddress) (valid : StunValidationStatus)
    (discovery_msg : bool) (req : StunMessage) : res (bool * NiceAgent) :=
  s ← the_stream a sid;
  c ← the_component a sid cid;
  username ← attribute_value req STUN_ATTRIBUTE_USERNAME;
  class ← stun_message_get_class req;
  let local := find_local_candidate c nicesock in
  let remote := find_remote_candidate c local from nicesock in
  let by_name := if has_candidate_credentials a then find_by_username a s c class username else None in
  let local := match by_name with Some (_, l) => Some l | None => local end in
  let remote2 := fst <$> by_name in
  if negb (bool_decide (co_remote_candidates c = [])) && bool_decide (a_compatibility a = NICE_COMPATIBILITY_GOOGLE) &&
     bool_decide (local = None) && negb discovery_msg then Ok (true, a)
  else if bool_decide (valid = STUN_VALIDATION_UNMATCHED_RESPONSE) then Ok (true, a)
  else if negb (bool_decide (valid = STUN_VALIDATION_SUCCESS)) then Ok (false, a)
  else
    let a := a <| a_media_after_tick := true |> in
    match class with
    | STUN_REQUEST =>
        '(r, a) ← handle_request a sid cid nicesock from req local remote remote2;
        match r with
        | None => Ok (false, a)
        | Some None => Ok (true, a)
        | Some (Some (rc, pending)) => a ← conn_check_handle_renomination a sid cid req (Some rc) local pending; Ok (true, a)
        end
    | _ =>
        a ← dispatch_response a sid cid nicesock from local remote req;
        a ← conn_check_handle_renomination a sid cid req remote local None;
        Ok (true, a)
    end.

Definition conn_check_handle_inbound_stun (a : NiceAgent) (sid cid : Z) (nicesock : option Z) (from : NiceAddress) (buf : list Z) (len : Z)
    : res (bool * NiceAgent) :=
  '(valid, discovery_msg, req, a) ← validate_inbound a sid cid nicesock buf len;
  match valid with
  | STUN_VALIDATION_NOT_STUN | STUN_VALIDATION_INCOMPLETE_STUN | STUN_VALIDATION_BAD_REQUEST => Ok (false, a)
  | STUN_VALIDATION_UNKNOWN_REQUEST_ATTRIBUTE => a ← send_unknown_attributes a sid cid nicesock from req; Ok (true, a)
  | STUN_VALIDATION_UNAUTHORIZED => '(_, a) ← send_error a sid cid nicesock from req STUN_ERROR_UNAUTHORIZED; Ok (true, a)
  | STUN_VALIDATION_UNAUTHORIZED_BAD_REQUEST => '(_, a) ← send_error a sid cid nicesock from req STUN_ERROR_BAD_REQUEST; Ok (true, a)
  | STUN_VALIDATION_FORBIDDEN => a ← handle_forbidden a sid cid from; Ok (true, a)
  | _ => handle_valid a sid cid nicesock from valid discovery_msg req
  end.
End inbound.
