(* ===== verification/Sdp.v ===== *)
(** * Session descriptions (agent/agent.c)

    The candidates, credentials and default addresses of a stream as SDP
    lines, and the parser of candidate lines and of whole streams.  Strings
    are lists of bytes without the terminating zero. *)
From Stdlib Require Import String Ascii.
From S2P Require Import Prelude CMem StunTypes StunAgent StunTimer Address Candidate IceTypes CheckList CheckDriver Discovery.
Local Open Scope Z_scope.

(** ** Strings *)

(** The bytes of a literal. *)
Definition text (s : string) : list Z := (fun c => Z.of_N (N_of_ascii c)) <$> list_ascii_of_string s.
Arguments text s%_string_scope.

Fixpoint g_str_has_prefix (s prefix : list Z) : bool :=
  match prefix, s with
  | [], _ => true
  | c :: prefix, d :: s => (c =? d) && g_str_has_prefix s prefix
  | _ :: _, [] => false
  end.

(** The pieces between the separators; one more than there are separators. *)
Fixpoint pieces (sep : Z) (s : list Z) : list (list Z) :=
  match s with
  | [] => [[]]
  | c :: s =>
      if c =? sep then [] :: pieces sep s
      else match pieces sep s with
           | w :: ws => (c :: w) :: ws
           | [] => [[c]]
           end
  end.

(** The result for the empty string is empty. *)
Definition g_strsplit (s : list Z) (sep : Z) : list (list Z) :=
  match s with [] => [] | _ => pieces sep s end.

Definition is_space (c : Z) : bool := (c =? 32) || ((9 <=? c) && (c <=? 13)).
Definition is_digit (c : Z) : bool := (48 <=? c) && (c <=? 57).

Fixpoint read_digits (v : Z) (s : list Z) : Z :=
  match s with
  | [] => v
  | d :: s => if is_digit d then read_digits (v * 10 + (d - 48)) s else v
  end.

Fixpoint skip_spaces (s : list Z) : list Z :=
  match s with
  | c :: s' => if is_space c then skip_spaces s' else s
  | [] => []
  end.

Definition strtoull_value (v : Z) (negative : bool) : Z :=
  if v <? 2 ^ 64 then (if negative then u64 (- v) else v) else 2 ^ 64 - 1.

(** Base ten. *)
Definition g_ascii_strtoull (s : list Z) : Z :=
  match skip_spaces s with
  | 45 :: s => strtoull_value (read_digits 0 s) true
  | 43 :: s => strtoull_value (read_digits 0 s) false
  | s => strtoull_value (read_digits 0 s) false
  end.

Definition g_ascii_tolower (c : Z) : Z := if (65 <=? c) && (c <=? 90) then c + 32 else c.

(** [g_ascii_strcasecmp (s, t) == 0]; for a null string GLib warns and returns
    zero. *)
Definition strcasecmp_eq (s : option (list Z)) (t : list Z) : bool :=
  match s with
  | Some s => bool_decide (g_ascii_tolower <$> s = g_ascii_tolower <$> t)
  | None => true
  end.

(** ["%d"] of an unsigned 32-bit value. *)
Definition format_d (n : Z) : list Z :=
  if n <? 2 ^ 31 then decimal n else 45 :: decimal (2 ^ 32 - n).

(** ** The default candidate *)

Definition NICE_COMPONENT_TYPE_RTP : Z := 1.
Definition NICE_COMPONENT_TYPE_RTCP : Z := 2.

(** The candidates the default one is chosen from. *)
Definition default_eligible (a : NiceAgent) (c : NiceCandidate) : bool :=
  negb (a_force_relay a && negb (bool_decide (c_type c = NICE_CANDIDATE_TYPE_RELAYED))) && (nice_address_ip_version (c_addr c) =? 4).

(** The first one of the lowest priority. *)
Fixpoint lowest_priority (a : NiceAgent) (best : option NiceCandidate) (l : list NiceCandidate) : option NiceCandidate :=
  match l with
  | [] => best
  | c :: l =>
      lowest_priority a
        (if default_eligible a c && match best with Some b => c_priority c <? c_priority b | None => true end then Some c else best) l
  end.

Definition _get_default_local_candidate_locked (a : NiceAgent) (s : NiceStream) (c : NiceComponent) : option NiceCandidate :=
  if co_id c =? NICE_COMPONENT_TYPE_RTP then lowest_priority a None (co_local_candidates c)
  else
    match agent_find_component a (str_id s) NICE_COMPONENT_TYPE_RTP with
    | None => None
    | Some (_, rtp) =>
        match lowest_priority a None (co_local_candidates rtp) with
        | None => None
        | Some default_rtp =>
            List.find (fun l => default_eligible a l && strncmp_eq (c_foundation l) (c_foundation default_rtp) NICE_CANDIDATE_MAX_FOUNDATION)
              (co_local_candidates c)
        end
    end.

Definition nice_agent_get_default_local_candidate (a : NiceAgent) (stream_id component_id : Z) : option NiceCandidate :=
  match agent_find_component a stream_id component_id with
  | None => None
  | Some (s, c) => _get_default_local_candidate_locked a s c
  end.

(** ** Generating *)

Definition _cand_type_to_sdp (type : NiceCandidateType) : list Z :=
  match type with
  | NICE_CANDIDATE_TYPE_SERVER_REFLEXIVE => text "srflx"
  | NICE_CANDIDATE_TYPE_PEER_REFLEXIVE => text "prflx"
  | NICE_CANDIDATE_TYPE_RELAYED => text "relay"
  | NICE_CANDIDATE_TYPE_HOST => text "host"
  end.

Definition _transport_to_sdp (type : NiceCandidateTransport) : list Z :=
  match type with
  | NICE_CANDIDATE_TRANSPORT_UDP => text "UDP"
  | _ => text "TCP"
  end.

Definition _transport_to_sdp_tcptype (type : NiceCandidateTransport) : list Z :=
  match type with
  | NICE_CANDIDATE_TRANSPORT_UDP => text ""
  | NICE_CANDIDATE_TRANSPORT_TCP_ACTIVE => text "active"
  | NICE_CANDIDATE_TRANSPORT_TCP_PASSIVE => text "passive"
  | NICE_CANDIDATE_TRANSPORT_TCP_SO => text "so"
  end.

Section sdp.
Context {N : NetEnv}.

(** A port of zero is written as the discard port. *)
Definition sdp_port (a : NiceAddress) : list Z :=
  let port := nice_address_get_port a in decimal (if port =? 0 then 9 else port).

(** The address of an unset candidate is never written to [ip4]. *)
Definition _generate_candidate_sdp (candidate : NiceCandidate) : res (list Z) :=
  _ ← (if nice_address_is_valid (c_addr candidate) then Ok tt else Fault Uninitialised);
  let base := nice_address_is_valid (c_base_addr candidate) && negb (nice_address_equal (c_addr candidate) (c_base_addr candidate)) in
  Ok (text "a=candidate:" ++ take (Z.to_nat NICE_CANDIDATE_MAX_FOUNDATION) (c_foundation candidate) ++
      [32] ++ format_d (c_component_id candidate) ++ [32] ++ _transport_to_sdp (c_transport candidate) ++
      [32] ++ format_d (c_priority candidate) ++ [32] ++ nice_address_to_string (c_addr candidate) [] ++
      [32] ++ sdp_port (c_addr candidate) ++
      text " typ " ++ _cand_type_to_sdp (c_type candidate) ++
      (if base then text " raddr " ++ nice_address_to_string (c_base_addr candidate) [] ++ text " rport " ++ sdp_port (c_base_addr candidate) else []) ++
      (if bool_decide (c_transport candidate = NICE_CANDIDATE_TRANSPORT_UDP) then []
       else text " tcptype " ++ _transport_to_sdp_tcptype (c_transport candidate))).

Fixpoint generate_candidates (a : NiceAgent) (l : list NiceCandidate) : res (list Z) :=
  match l with
  | [] => Ok []
  | c :: l =>
      line ← (if a_force_relay a && negb (bool_decide (c_type c = NICE_CANDIDATE_TYPE_RELAYED)) then Ok []
              else line ← _generate_candidate_sdp c; Ok (line ++ [10]));
      rest ← generate_candidates a l;
      Ok (line ++ rest)
  end.

(** The address of the default candidate of the last component with an id. *)
Fixpoint default_address (a : NiceAgent) (s : NiceStream) (id : Z) (addr : NiceAddress) (l : list NiceComponent) : NiceAddress :=
  match l with
  | [] => addr
  | c :: l =>
      default_address a s id
        (if co_id c =? id then from_option c_addr addr (_get_default_local_candidate_locked a s c) else addr) l
  end.

Definition non_ice_lines (a : NiceAgent) (s : NiceStream) : list Z :=
  let zero := nice_address_set_ipv4 nice_address_init 0 in
  let rtp := default_address a s NICE_COMPONENT_TYPE_RTP zero (str_components s) in
  let rtcp := default_address a s NICE_COMPONENT_TYPE_RTCP zero (str_components s) in
  text "m=" ++ default (text "-") (str_name s) ++ [32] ++ decimal (nice_address_get_port rtp) ++ text " ICE/SDP" ++ [10] ++
  text "c=IN IP4 " ++ nice_address_to_string rtp [] ++ [10] ++
  (if negb (nice_address_get_port rtcp =? 0) then text "a=rtcp:" ++ decimal (nice_address_get_port rtcp) ++ [10] else []).

Definition _generate_stream_sdp (a : NiceAgent) (s : NiceStream) (include_non_ice : bool) : res (list Z) :=
  candidates ← generate_candidates a (flat_map co_local_candidates (str_components s));
  Ok ((if include_non_ice then non_ice_lines a s else []) ++
      text "a=ice-ufrag:" ++ str_local_ufrag s ++ [10] ++
      text "a=ice-pwd:" ++ str_local_password s ++ [10] ++ candidates).

Fixpoint generate_streams (a : NiceAgent) (l : list NiceStream) : res (list Z) :=
  match l with
  | [] => Ok []
  | s :: l => sdp ← _generate_stream_sdp a s true; rest ← generate_streams a l; Ok (sdp ++ rest)
  end.

Definition nice_agent_generate_local_sdp (a : NiceAgent) : res (list Z) := generate_streams a (a_streams a).

(** [None] is the return of NULL. *)
Definition nice_agent_generate_local_stream_sdp (a : NiceAgent) (stream_id : Z) (include_non_ice : bool) : res (option (list Z)) :=
  match agent_find_stream a stream_id with
  | None => Ok None
  | Some s => sdp ← _generate_stream_sdp a s include_non_ice; Ok (Some sdp)
  end.

Definition nice_agent_generate_local_candidate_sdp (candidate : NiceCandidate) : res (list Z) := _generate_candidate_sdp candidate.

(** ** Parsing a candidate *)

(** The variables the token loop sets. *)
Record sdp_fields : Set := mkFields {
  sf_foundation : option (list Z);
  sf_component_id : Z;
  sf_transport : option (list Z);
  sf_priority : Z;
  sf_addr : option (list Z);
  sf_port : Z;
  sf_type : option (list Z);
  sf_tcptype : option (list Z);
  sf_raddr : option (list Z);
  sf_rport : Z
}.

Definition no_fields : sdp_fields := mkFields None 0 None 0 None 0 None None None 0.

(** The named values after the sixth token: [None] when one has no value. *)
Fixpoint named_tokens (f : sdp_fields) (tokens : list (list Z)) : option sdp_fields :=
  match tokens with
  | [] => Some f
  | [_] => None
  | name :: value :: tokens =>
      named_tokens
        (if bool_decide (name = text "typ") then
           mkFields (sf_foundation f) (sf_component_id f) (sf_transport f) (sf_priority f) (sf_addr f) (sf_port f) (Some value)
             (sf_tcptype f) (sf_raddr f) (sf_rport f)
         else if bool_decide (name = text "raddr") then
           mkFields (sf_foundation f) (sf_component_id f) (sf_transport f) (sf_priority f) (sf_addr f) (sf_port f) (sf_type f)
             (sf_tcptype f) (Some value) (sf_rport f)
         else if bool_decide (name = text "rport") then
           mkFields (sf_foundation f) (sf_component_id f) (sf_transport f) (sf_priority f) (sf_addr f) (sf_port f) (sf_type f)
             (sf_tcptype f) (sf_raddr f) (u16 (g_ascii_strtoull value))
         else if bool_decide (name = text "tcptype") then
           mkFields (sf_foundation f) (sf_component_id f) (sf_transport f) (sf_priority f) (sf_addr f) (sf_port f) (sf_type f)
             (Some value) (sf_raddr f) (sf_rport f)
         else f) tokens
  end.

Definition sdp_tokens (tokens : list (list Z)) : option sdp_fields :=
  match tokens with
  | foundation :: component :: transport :: priority :: addr :: port :: rest =>
      named_tokens (mkFields (Some foundation) (u32 (g_ascii_strtoull component)) (Some transport) (u32 (g_ascii_strtoull priority))
                      (Some addr) (u16 (g_ascii_strtoull port)) None None None 0) rest
  | _ => Some no_fields                                   (** too few: there is no type *)
  end.

(** The type by its position in [type_names]. *)
Definition sdp_type (type : list Z) : option NiceCandidateType :=
  if bool_decide (type = text "host") then Some NICE_CANDIDATE_TYPE_HOST
  else if bool_decide (type = text "srflx") then Some NICE_CANDIDATE_TYPE_SERVER_REFLEXIVE
  else if bool_decide (type = text "prflx") then Some NICE_CANDIDATE_TYPE_PEER_REFLEXIVE
  else if bool_decide (type = text "relay") then Some NICE_CANDIDATE_TYPE_RELAYED
  else None.

Definition sdp_transport (transport tcptype : option (list Z)) : option NiceCandidateTransport :=
  if strcasecmp_eq transport (text "UDP") then Some NICE_CANDIDATE_TRANSPORT_UDP
  else if strcasecmp_eq transport (text "TCP-SO") then Some NICE_CANDIDATE_TRANSPORT_TCP_SO
  else if strcasecmp_eq transport (text "TCP-ACT") then Some NICE_CANDIDATE_TRANSPORT_TCP_ACTIVE
  else if strcasecmp_eq transport (text "TCP-PASS") then Some NICE_CANDIDATE_TRANSPORT_TCP_PASSIVE
  else if strcasecmp_eq transport (text "TCP") then
    match tcptype with
    | None => None
    | Some _ =>
        if strcasecmp_eq tcptype (text "so") then Some NICE_CANDIDATE_TRANSPORT_TCP_SO
        else if strcasecmp_eq tcptype (text "active") then Some NICE_CANDIDATE_TRANSPORT_TCP_ACTIVE
        else if strcasecmp_eq tcptype (text "passive") then Some NICE_CANDIDATE_TRANSPORT_TCP_PASSIVE
        else None
    end
  else None.

(** An address field from its text and port. *)
Definition sdp_address (addr : list Z) (port : Z) : option NiceAddress :=
  let '(ok, x) := nice_address_set_from_string nice_address_init addr in
  if ok : bool then Some (nice_address_set_port x port) else None.

(** The candidate is made at [ptr].  A type comes only after the six leading
    tokens, so that with it the foundation, the transport and the address are
    set. *)
Definition build_candidate (ptr stream_id : Z) (f : sdp_fields) : option NiceCandidate :=
  match sf_type f, sf_foundation f, sf_addr f with
  | Some type, Some foundation, Some addr =>
      match sdp_type type, sdp_transport (sf_transport f) (sf_tcptype f), sdp_address addr (sf_port f) with
      | Some ntype, Some ctransport, Some addr =>
          let c := nice_candidate_new ptr ntype in
          let c := c <| c_component_id := sf_component_id f |> <| c_stream_id := stream_id |> <| c_transport := ctransport |>
                     <| c_foundation := foundation_text foundation |> <| c_priority := sf_priority f |> <| c_addr := addr |> in
          match sf_raddr f with
          | Some raddr =>
              if negb (sf_rport f =? 0) then
                match sdp_address raddr (sf_rport f) with
                | Some base => Some (c <| c_base_addr := base |>)
                | None => None
                end
              else Some c
          | None => Some c
          end
      | _, _, _ => None
      end
  | _, _, _ => None
  end.

Definition nice_agent_parse_remote_candidate_sdp (a : NiceAgent) (stream_id : Z) (sdp : list Z) : option NiceCandidate * NiceAgent :=
  if negb (g_str_has_prefix sdp (text "a=candidate:")) then (None, a)
  else
    match sdp_tokens (g_strsplit (drop 12 sdp) 32) with
    | None => (None, a)
    | Some f => (build_candidate (a_next_ptr a) stream_id f, a <| a_next_ptr := a_next_ptr a + 1 |>)
    end.

(** ** Parsing a stream *)

(** [ufrag] and [pwd] are asked for; the candidates come in reverse order. *)
Fixpoint parse_stream_lines (a : NiceAgent) (stream_id : Z) (ufrag pwd : option (list Z)) (candidates : list NiceCandidate) (lines : list (list Z))
    : option (list Z) * option (list Z) * list NiceCandidate * NiceAgent :=
  match lines with
  | [] => (ufrag, pwd, candidates, a)
  | line :: lines =>
      if g_str_has_prefix line (text "a=ice-ufrag:") then parse_stream_lines a stream_id (Some (drop 12 line)) pwd candidates lines
      else if g_str_has_prefix line (text "a=ice-pwd:") then parse_stream_lines a stream_id ufrag (Some (drop 10 line)) candidates lines
      else if g_str_has_prefix line (text "a=candidate:") then
        let '(candidate, a) := nice_agent_parse_remote_candidate_sdp a stream_id line in
        match candidate with
        | None => (ufrag, pwd, [], a)
        | Some c => parse_stream_lines a stream_id ufrag pwd (c :: candidates) lines
        end
      else parse_stream_lines a stream_id ufrag pwd candidates lines
  end.

Definition nice_agent_parse_remote_stream_sdp (a : NiceAgent) (stream_id : Z) (sdp : list Z)
    : option (list Z) * option (list Z) * list NiceCandidate * NiceAgent :=
  match agent_find_stream a stream_id with
  | None => (None, None, [], a)
  | Some s => parse_stream_lines a (str_id s) None None [] (g_strsplit sdp 10)
  end.
End sdp.

Definition nice_agent_set_stream_name (a : NiceAgent) (stream_id : Z) (name : list Z) : bool * NiceAgent :=
  if existsb (fun s => negb (str_id s =? stream_id) && bool_decide (str_name s = Some name)) (a_streams a) then (false, a)
  else
    match agent_find_stream a stream_id with
    | None => (false, a)
    | Some _ => (true, upd_stream a stream_id (fun s => s <| str_name := Some name |>))
    end.

Definition nice_agent_get_stream_name (a : NiceAgent) (stream_id : Z) : option (list Z) :=
  match agent_find_stream a stream_id with
  | None => None
  | Some s => str_name s
  end.
