(* ===== verification/RemoteCandidates.v ===== *)
(** * The candidates and credentials of the peer (agent/agent.c, conncheck.c)

    Adding and updating remote candidates, setting credentials, replaying the
    checks that came before them, and reading a whole session description.

    A candidate is an object shared by the lists, the pairs and the selected
    pair: an update by its address goes to all of them. *)
From Stdlib Require Import String.
From S2P Require Import Prelude CMem StunTypes StunMessage StunCrc32 StunAgent StunTimer StunIce Address Candidate IceTypes IceEnv CheckList CheckDriver Discovery CheckTick CheckResponse DiscoveryReply CheckInbound Sdp.
Local Open Scope Z_scope.

(** ** The shared candidate *)

Definition at_candidate (ptr : Z) (f : NiceCandidate -> NiceCandidate) (c : NiceCandidate) : NiceCandidate :=
  if c_ptr c =? ptr then f c else c.

Definition candidate_in_component (g : NiceCandidate -> NiceCandidate) (c : NiceComponent) : NiceComponent :=
  c <| co_local_candidates := g <$> co_local_candidates c |> <| co_remote_candidates := g <$> co_remote_candidates c |>
    <| co_turn_candidate := g <$> co_turn_candidate c |> <| co_restart_candidate := g <$> co_restart_candidate c |>
    <| co_selected_pair := (co_selected_pair c) <| sp_local := g <$> sp_local (co_selected_pair c) |>
                                                <| sp_remote := g <$> sp_remote (co_selected_pair c) |> |>.

(** Assign through the pointer [ptr]. *)
Definition upd_candidate (a : NiceAgent) (ptr : Z) (f : NiceCandidate -> NiceCandidate) : NiceAgent :=
  let g := at_candidate ptr f in
  a <| a_pairs := (fun x => x <| cp_local := g (cp_local x) |> <| cp_remote := g (cp_remote x) |>) <$> a_pairs a |>
    <| a_streams := (fun s => s <| str_components := candidate_in_component g <$> str_components s |>) <$> a_streams a |>.

Definition nice_component_find_remote_candidate (c : NiceComponent) (addr : NiceAddress) (transport : NiceCandidateTransport) : option NiceCandidate :=
  List.find (fun candidate => nice_address_equal (c_addr candidate) addr && bool_decide (c_transport candidate = transport)) (co_remote_candidates c).

Section remote.
Context {E : CheckEnv} {CL : CryptoLib} {B : Base64} {N : NetEnv} {K : Keepalive}.

(** ** Foundations of pairs *)

Definition has_candidate (o : option NiceCandidate) (c : NiceCandidate) : bool :=
  match o with Some x => c_ptr x =? c_ptr c | None => false end.

(** One pair with the changed remote candidate. *)
Definition update_foundation (a : NiceAgent) (sid cid p : Z) : res NiceAgent :=
  x ← deref a p;
  let foundation := pair_foundation (c_foundation (cp_local x)) (c_foundation (cp_remote x)) in
  if strncmp_eq (cp_foundation x) foundation NICE_CANDIDATE_PAIR_MAX_FOUNDATION then Ok a
  else
    a ← modify a p (fun x => x <| cp_foundation := foundation |>);
    a ← (if bool_decide (cp_state x = NICE_CHECK_SUCCEEDED) then conn_check_unfreeze_related a p else Ok a);
    c ← the_component a sid cid;
    if has_candidate (sp_local (co_selected_pair c)) (cp_local x) && has_candidate (sp_remote (co_selected_pair c)) (cp_remote x) then
      let a := upd_component a sid cid (fun c => c <| co_selected_pair := (co_selected_pair c) <| sp_priority := cp_priority x |> |>) in
      Ok (log (FxNewSelectedPair (cp_stream_id x) cid (cp_local x) (cp_remote x)) a)
    else Ok a.

Fixpoint update_foundations_loop (a : NiceAgent) (sid cid remote : Z) (l : list Z) : res NiceAgent :=
  match l with
  | [] => Ok a
  | p :: l =>
      x ← deref a p;
      a ← (if c_ptr (cp_remote x) =? remote then update_foundation a sid cid p else Ok a);
      update_foundations_loop a sid cid remote l
  end.

Definition priv_update_pair_foundations (a : NiceAgent) (stream_id component_id remote : Z) : res NiceAgent :=
  match agent_find_component a stream_id component_id with
  | None => Ok a
  | Some (s, _) => update_foundations_loop a stream_id component_id remote (str_conncheck_list s)
  end.

Fixpoint first_nominated (a : NiceAgent) (cid : Z) (l : list Z) : res (option Z) :=
  match l with
  | [] => Ok None
  | p :: l =>
      x ← deref a p;
      if (cp_component_id x =? cid) && cp_nominated x then Ok (Some p) else first_nominated a cid l
  end.

Definition priv_get_highest_priority_nominated_pair (a : NiceAgent) (stream_id component_id : Z) : res (option Z) :=
  match agent_find_component a stream_id component_id with
  | None => Ok None
  | Some (s, _) => first_nominated a component_id (str_conncheck_list s)
  end.

(** ** One candidate *)

(** The attributes of the known candidate: credentials are only set once. *)
Definition updated_remote (c : NiceCandidate) (type : NiceCandidateType) (base_addr : NiceAddress) (priority : Z)
    (username password : option (list Z)) (foundation : list Z) : NiceCandidate :=
  let c := if bool_decide (c_type c = NICE_CANDIDATE_TYPE_PEER_REFLEXIVE) then c <| c_type := type |> <| c_sockptr := None |> else c in
  let c := c <| c_base_addr := base_addr |> <| c_priority := priority |> <| c_foundation := foundation_text foundation |> in
  let c := match c_username c with None => c <| c_username := username |> | Some _ => c end in
  match c_password c with None => c <| c_password := password |> | Some _ => c end.

(** Case 1 of [priv_add_remote_candidate]. *)
Definition update_remote_candidate (a : NiceAgent) (sid cid : Z) (candidate : NiceCandidate) (f : NiceCandidate -> NiceCandidate) : res NiceAgent :=
  let a := upd_candidate a (c_ptr candidate) f in
  a ← recalculate_pair_priorities a;
  a ← priv_update_pair_foundations a sid cid (c_ptr candidate);
  pair ← priv_get_highest_priority_nominated_pair a sid cid;
  a ← match pair with
      | None => Ok a
      | Some p =>
          x ← deref a p;
          c ← the_component a sid cid;
          if has_candidate (sp_local (co_selected_pair c)) (cp_local x) && has_candidate (sp_remote (co_selected_pair c)) (cp_remote x) then Ok a
          else
            _ ← assert_ok (match sp_local (co_selected_pair c) with Some _ => true | None => false end);
            _ ← assert_ok (match sp_remote (co_selected_pair c) with Some _ => true | None => false end);
            conn_check_update_selected_pair a sid cid p
      end;
  conn_check_update_check_list_state_for_ready a sid cid.

(** Case 2. *)
Definition add_remote_candidate (a : NiceAgent) (sid cid : Z) (type : NiceCandidateType) (addr base_addr : NiceAddress)
    (transport : NiceCandidateTransport) (priority : Z) (username password : option (list Z)) (foundation : list Z) : res (bool * NiceAgent) :=
  let '(candidate, a) := new_candidate a type in
  let candidate := candidate <| c_stream_id := sid |> <| c_component_id := cid |> <| c_addr := addr |> in
  '(refused, a) ←
    (if is_compatible_with_rfc5245_or_oc2007r2 a && a_controlling_mode a && bool_decide (a_nomination_mode a = NICE_NOMINATION_MODE_AGGRESSIVE) &&
        negb (bool_decide (transport = NICE_CANDIDATE_TRANSPORT_UDP)) then
       n ← conn_check_stun_transactions_count a (all_checks a);
       if 0 <? n then Ok (true, a) else Ok (false, a <| a_nomination_mode := NICE_NOMINATION_MODE_REGULAR |>)
     else Ok (false, a));
  if refused : bool then Ok (false, a)
  else
    let candidate := candidate <| c_base_addr := base_addr |> <| c_transport := transport |> <| c_priority := priority |>
                       <| c_username := username |> <| c_password := password |> <| c_foundation := foundation_text foundation |> in
    '(added, a) ← conn_check_add_for_candidate a sid cid candidate;
    if added <? 0 then Ok (false, a)
    else Ok (true, upd_component a sid cid (fun c => c <| co_remote_candidates := co_remote_candidates c ++ [candidate] |>)).

Definition priv_add_remote_candidate (a : NiceAgent) (stream_id component_id : Z) (type : NiceCandidateType) (addr base_addr : NiceAddress)
    (transport : NiceCandidateTransport) (priority : Z) (username password : option (list Z)) (foundation : list Z) : res (bool * NiceAgent) :=
  let udp := bool_decide (transport = NICE_CANDIDATE_TRANSPORT_UDP) in
  if bool_decide (type = NICE_CANDIDATE_TYPE_PEER_REFLEXIVE) then Ok (false, a)
  else if udp && negb (a_use_ice_udp a) then Ok (false, a)
  else if negb udp && negb (a_use_ice_tcp a) then Ok (false, a)
  else if priority =? 0 then Ok (false, a)
  else
    match agent_find_component a stream_id component_id with
    | None => Ok (false, a)
    | Some (_, c) =>
        match nice_component_find_remote_candidate c addr transport with
        | Some candidate =>
            if bool_decide (c_type candidate = NICE_CANDIDATE_TYPE_PEER_REFLEXIVE) || bool_decide (c_type candidate = type) then
              a ← update_remote_candidate a stream_id component_id candidate
                    (fun c => updated_remote c type base_addr priority username password foundation);
              Ok (true, a)
            else add_remote_candidate a stream_id component_id type addr base_addr transport priority username password foundation
        | None => add_remote_candidate a stream_id component_id type addr base_addr transport priority username password foundation
        end
    end.

(** ** Checks that came early *)

(** The local candidate of a stored check; [lcand] is that of the check
    before, which stays when none is found. *)
Definition early_local (c : NiceComponent) (icheck : IncomingCheck) (lcand : option NiceCandidate) : option NiceCandidate :=
  let lcand := match find_local_candidate c (ic_local_socket icheck) with Some l => Some l | None => lcand end in
  match lcand with
  | Some l => Some l
  | None =>
      List.find (fun cand =>
        nice_address_equal_no_port (socket_addr (ic_local_socket icheck)) (c_base_addr cand) && (nice_address_get_port (c_addr cand) =? 0) &&
        bool_decide (c_transport cand = NICE_CANDIDATE_TRANSPORT_TCP_ACTIVE) &&
        local_candidate_and_socket_compatible cand (ic_local_socket icheck)) (co_local_candidates c)
  end.

Definition early_remote (c : NiceComponent) (icheck : IncomingCheck) (l : NiceCandidate) (rcand : option NiceCandidate) : option NiceCandidate :=
  match List.find (fun cand => nice_address_equal (c_addr cand) (ic_from icheck) &&
                               remote_candidate_and_socket_compatible (Some l) cand (ic_local_socket icheck)) (co_remote_candidates c) with
  | Some r => Some r
  | None => rcand
  end.

(** The effects of one stored check. *)
Definition replay_check (a : NiceAgent) (sid cid : Z) (icheck : IncomingCheck) (l r : NiceCandidate) : res NiceAgent :=
  s ← the_stream a sid;
  a ← (if bool_decide (c_transport l = NICE_CANDIDATE_TRANSPORT_TCP_PASSIVE) then
         found ← find_pair_of a (Some l) r (str_conncheck_list s);
         match found with
         | Some _ => Ok a
         | None => '(_, a) ← priv_conn_check_add_for_candidate_pair_matched a sid cid l r NICE_CHECK_WAITING; Ok a
         end
       else Ok a);
  '(_, a) ← priv_schedule_triggered_check a sid cid (ic_local_socket icheck) r;
  if ic_use_candidate icheck then '(_, a) ← priv_mark_pair_nominated a sid cid l r; Ok a else Ok a.

(** A null remote candidate fails the assertion of the triggered check. *)
Fixpoint replay_checks (a : NiceAgent) (sid cid : Z) (lcand rcand : option NiceCandidate) (checks : list IncomingCheck) : res NiceAgent :=
  match checks with
  | [] => Ok a
  | icheck :: checks =>
      c ← the_component a sid cid;
      match early_local c icheck lcand with
      | None => Fault AssertFailed
      | Some l =>
          match early_remote c icheck l rcand with
          | None => Fault AssertFailed
          | Some r =>
              a ← replay_check a sid cid icheck l r;
              let a := upd_component a sid cid (fun c => c <| co_incoming_checks := checks |>) in
              replay_checks a sid cid (Some l) (Some r) checks
          end
      end
  end.

Definition conn_check_remote_candidates_set (a : NiceAgent) (sid cid : Z) : res NiceAgent :=
  s ← the_stream a sid;
  match str_remote_ufrag s with
  | [] => Ok a
  | _ :: _ => c ← the_component a sid cid; replay_checks a sid cid None None (co_incoming_checks c)
  end.

Fixpoint credentials_set_loop (a : NiceAgent) (sid : Z) (cids : list Z) : res NiceAgent :=
  match cids with
  | [] => Ok a
  | cid :: cids => a ← conn_check_remote_candidates_set a sid cid; credentials_set_loop a sid cids
  end.

Definition conn_check_remote_credentials_set (a : NiceAgent) (sid : Z) : res NiceAgent :=
  s ← the_stream a sid;
  credentials_set_loop a sid (co_id <$> str_components s).

(** ** The interface *)

Definition NICE_STREAM_MAX_UFRAG : Z := 256 + 1.
Definition NICE_STREAM_MAX_PWD : Z := 256 + 1.

(** [g_strlcpy] to a buffer of [n] bytes. *)
Definition strlcpy (n : Z) (s : list Z) : list Z := take (Z.to_nat (n - 1)) s.

(** What is left of a buffer after the string [s] was written over the string
    [old], which [slack] followed. *)
Definition slack_after (s old slack : list Z) : list Z := drop (S (length s)) (old ++ 0 :: slack).

Definition nice_agent_set_remote_credentials (a : NiceAgent) (stream_id : Z) (ufrag pwd : option (list Z)) : res (bool * NiceAgent) :=
  match agent_find_stream a stream_id, ufrag, pwd with
  | Some _, Some ufrag, Some pwd =>
      let a := upd_stream a stream_id (fun s => s <| str_remote_ufrag := strlcpy NICE_STREAM_MAX_UFRAG ufrag |>
                                                  <| str_remote_password := strlcpy NICE_STREAM_MAX_PWD pwd |>) in
      a ← conn_check_remote_credentials_set a stream_id;
      Ok (true, a)
  | _, _, _ => Ok (false, a)
  end.

Definition nice_agent_set_local_credentials (a : NiceAgent) (stream_id : Z) (ufrag pwd : option (list Z)) : bool * NiceAgent :=
  match agent_find_stream a stream_id, ufrag, pwd with
  | Some _, Some ufrag, Some pwd =>
      let ufrag := strlcpy NICE_STREAM_MAX_UFRAG ufrag in
      let pwd := strlcpy NICE_STREAM_MAX_PWD pwd in
      (true, upd_stream a stream_id (fun s =>
         s <| str_local_ufrag_slack := slack_after ufrag (str_local_ufrag s) (str_local_ufrag_slack s) |>
           <| str_local_ufrag := ufrag |>
           <| str_local_password_slack := slack_after pwd (str_local_password s) (str_local_password_slack s) |>
           <| str_local_password := pwd |>))
  | _, _, _ => (false, a)
  end.

(** The value returned, and the credentials when they are written; the caller
    gives the places for both. *)
Definition nice_agent_get_local_credentials (a : NiceAgent) (stream_id : Z) : bool * option (list Z * list Z) :=
  match agent_find_stream a stream_id with
  | None => (true, None)
  | Some s => (true, Some (str_local_ufrag s, str_local_password s))
  end.

Fixpoint set_remote_loop (a : NiceAgent) (sid cid added : Z) (candidates : list NiceCandidate) : res (Z * NiceAgent) :=
  match candidates with
  | [] => Ok (added, a)
  | d :: candidates =>
      if nice_address_is_valid (c_addr d) then
        '(ret, a) ← priv_add_remote_candidate a sid cid (c_type d) (c_addr d) (c_base_addr d) (c_transport d) (c_priority d)
           (c_username d) (c_password d) (c_foundation d);
        set_remote_loop a sid cid (if ret : bool then added + 1 else added) candidates
      else set_remote_loop a sid cid added candidates
  end.

Definition _set_remote_candidates_locked (a : NiceAgent) (sid cid : Z) (candidates : list NiceCandidate) : res (Z * NiceAgent) :=
  '(added, a) ← set_remote_loop a sid cid 0 candidates;
  a ← (if 0 <? added then conn_check_remote_candidates_set a sid cid else Ok a);
  Ok (added, a).

Definition nice_agent_set_remote_candidates (a : NiceAgent) (stream_id component_id : Z) (candidates : list NiceCandidate) : res (Z * NiceAgent) :=
  match agent_find_component a stream_id component_id with
  | None => Ok (-1, a)
  | Some _ => _set_remote_candidates_locked a stream_id component_id candidates
  end.

(** ** Session descriptions *)

(** [current] is the stream of the last media line, and [streams] those that
    follow it. *)
Fixpoint parse_sdp_lines (a : NiceAgent) (current : option Z) (streams : list Z) (ret : Z) (lines : list (list Z)) : res (Z * NiceAgent) :=
  match lines with
  | [] => Ok (ret, a)
  | line :: lines =>
      if g_str_has_prefix line (text "m=") then
        match streams with
        | [] => Ok (-1, a)
        | sid :: streams => parse_sdp_lines a (Some sid) streams ret lines
        end
      else if g_str_has_prefix line (text "a=ice-ufrag:") then
        match current with
        | None => Ok (-1, a)
        | Some sid =>
            parse_sdp_lines (upd_stream a sid (fun s => s <| str_remote_ufrag := strlcpy NICE_STREAM_MAX_UFRAG (drop 12 line) |>)) current streams ret lines
        end
      else if g_str_has_prefix line (text "a=ice-pwd:") then
        match current with
        | None => Ok (-1, a)
        | Some sid =>
            parse_sdp_lines (upd_stream a sid (fun s => s <| str_remote_password := strlcpy NICE_STREAM_MAX_PWD (drop 10 line) |>)) current streams ret lines
        end
      else if g_str_has_prefix line (text "a=candidate:") then
        match current with
        | None => Ok (-1, a)
        | Some sid =>
            let '(candidate, a) := nice_agent_parse_remote_candidate_sdp a sid line in
            match candidate with
            | None => Ok (-1, a)
            | Some d =>
                match agent_find_component a (c_stream_id d) (c_component_id d) with
                | None => Ok (-1, a)
                | Some _ =>
                    '(added, a) ← _set_remote_candidates_locked a sid (c_component_id d) [d];
                    parse_sdp_lines a current streams (if 0 <? added then ret + 1 else ret) lines
                end
            end
        end
      else parse_sdp_lines a current streams ret lines
  end.

Definition nice_agent_parse_remote_sdp (a : NiceAgent) (sdp : list Z) : res (Z * NiceAgent) :=
  parse_sdp_lines a None (str_id <$> a_streams a) 0 (g_strsplit sdp 10).
End remote.
