(* ===== verification/Streams.v ===== *)
(** * Streams and components (agent/stream.c, component.c, agent.c)

    Adding, restarting, closing and removing streams, the choice of a
    selected pair by the application, and the removal of sockets and of TURN
    servers from a component. *)
From S2P Require Import Prelude CMem StunTypes StunAgent StunTimer Address Candidate IceTypes IceEnv CheckList CheckDriver Discovery KeepAlive DiscoveryReply Sdp RemoteCandidates.
Local Open Scope Z_scope.

Definition NICE_STREAM_DEF_UFRAG : Z := 4 + 1.
Definition NICE_STREAM_DEF_PWD : Z := 22 + 1.

(** What a component needs of other parts: whether its pseudo-TCP socket is
    closed, and whether a socket is built on another. *)
Class ComponentEnv : Type := {
  pseudo_tcp_socket_is_closed : list effect -> Z -> Z -> bool;
  nice_socket_is_based_on : option Z -> option Z -> bool
}.

(** ** Sockets of a component *)

(** Whether the component has a source for a socket: it was attached and not
    detached or freed since. *)
Definition source_after (sid cid : Z) (sock : option Z) (attached : bool) (e : effect) : bool :=
  match e with
  | FxAttachSocket s c x => attached || ((s =? sid) && (c =? cid) && bool_decide (sock = Some x))
  | FxDetachSocket s c x => attached && negb ((s =? sid) && (c =? cid) && bool_decide (sock = x))
  | FxFreeSocketSources s c => attached && negb ((s =? sid) && (c =? cid))
  | _ => attached
  end.
Definition has_socket_source (a : NiceAgent) (sid cid : Z) (sock : option Z) : bool :=
  fold_left (source_after sid cid sock) (a_log a) false.

(** The boolean is [*socket_source_freed]. *)
Definition nice_component_detach_socket (a : NiceAgent) (sid cid : Z) (nicesock : option Z) : bool * NiceAgent :=
  let a := upd_component a sid cid (fun c =>
             c <| co_incoming_checks := List.filter (fun i => negb (bool_decide (ic_local_socket i = nicesock))) (co_incoming_checks c) |>) in
  if has_socket_source a sid cid nicesock then (true, log (FxDetachSocket sid cid nicesock) a) else (false, a).

Definition nice_component_free_socket_sources (a : NiceAgent) (sid cid : Z) : NiceAgent :=
  upd_component (log (FxFreeSocketSources sid cid) a) sid cid nice_component_clear_selected_pair.

(** [candidate == *place] *)
Definition is_candidate (place : option NiceCandidate) (c : NiceCandidate) : bool :=
  match place with Some d => c_ptr d =? c_ptr c | None => false end.

Definition remove_candidate (c : NiceCandidate) (l : list NiceCandidate) : list NiceCandidate :=
  List.filter (fun d => negb (c_ptr d =? c_ptr c)) l.

Section streams.
Context {E : CheckEnv} {CL : CryptoLib} {B : Base64} {N : NetEnv} {K : Keepalive} {CE : ComponentEnv}.

(** ** New streams *)

Definition nice_component_new (a : NiceAgent) (id : Z) : NiceComponent :=
  mkComponent id NICE_COMPONENT_STATE_DISCONNECTED [] [] [] no_pair None (nice_agent_init_stun_agent a stun_agent_storage) [] true [] None
    false 0 0.

Definition nice_stream_new (a : NiceAgent) (stream_id n_components : Z) : NiceStream :=
  mkStream stream_id n_components (nice_component_new a <$> seqZ 1 n_components) [] [] [] [] 0 false [] false false
    (negb (a_use_ice_trickle a)) None 0 (replicate (Z.to_nat (NICE_STREAM_MAX_UFRAG - 1)) 0) (replicate (Z.to_nat (NICE_STREAM_MAX_PWD - 1)) 0).

(** The string at the start of a buffer, and what follows its terminator. *)
Fixpoint split_string (buf : list Z) : list Z * list Z :=
  match buf with
  | [] => ([], [])
  | c :: buf => if c =? 0 then ([], buf) else let '(s, rest) := split_string buf in (c :: s, rest)
  end.

(** Bytes written over the start of the buffer that holds [old]. *)
Definition overwrite (bytes old slack : list Z) : list Z * list Z := split_string (bytes ++ drop (length bytes) (old ++ 0 :: slack)).

Definition nice_stream_initialize_credentials (a : NiceAgent) (sid : Z) : NiceAgent :=
  let ufrag := nice_rng_generate_bytes_print (a_log a) (NICE_STREAM_DEF_UFRAG - 1) in
  let a := log (FxRandom (NICE_STREAM_DEF_UFRAG - 1)) a in
  let pwd := nice_rng_generate_bytes_print (a_log a) (NICE_STREAM_DEF_PWD - 1) in
  let a := log (FxRandom (NICE_STREAM_DEF_PWD - 1)) a in
  upd_stream a sid (fun s =>
    let '(ufrag, ufrag_slack) := overwrite ufrag (str_local_ufrag s) (str_local_ufrag_slack s) in
    let '(pwd, pwd_slack) := overwrite pwd (str_local_password s) (str_local_password_slack s) in
    s <| str_local_ufrag := ufrag |> <| str_local_ufrag_slack := ufrag_slack |>
      <| str_local_password := pwd |> <| str_local_password_slack := pwd_slack |>
      <| str_remote_ufrag := [] |> <| str_remote_password := [] |>).

(** A pseudo-TCP socket for each component. *)
Definition create_pseudo_tcp (a : NiceAgent) (sid : Z) (cids : list Z) : NiceAgent :=
  foldl (fun a cid => log (FxCreatePseudoTcp sid cid) a) a cids.

Definition nice_agent_add_stream (a : NiceAgent) (n_components : Z) : Z * NiceAgent :=
  if n_components <? 1 then (0, a)
  else
    let id := a_next_stream_id a in
    let a := a <| a_next_stream_id := u32 (id + 1) |> in
    let stream := nice_stream_new a id n_components in
    let a := a <| a_streams := a_streams a ++ [stream] |> in
    let a := if a_reliable a then create_pseudo_tcp a id (seqZ 1 n_components) else a in
    (id, nice_stream_initialize_credentials a id).

(** ** Restarts *)

Definition restart_candidate_of (c : NiceComponent) : option NiceCandidate :=
  match List.find (is_candidate (sp_remote (co_selected_pair c))) (co_remote_candidates c) with
  | Some r => Some r
  | None => co_restart_candidate c
  end.

Definition nice_component_restart (a : NiceAgent) (sid cid : Z) : NiceAgent :=
  upd_component a sid cid (fun c =>
    c <| co_restart_candidate := restart_candidate_of c |> <| co_remote_candidates := [] |> <| co_incoming_checks := [] |>
      <| co_selected_pair := (co_selected_pair c) <| sp_priority := 0 |> |> <| co_have_local_consent := true |>
      <| co_stun_agent := nice_agent_init_stun_agent a (co_stun_agent c) |>).

Fixpoint restart_components (a : NiceAgent) (sid : Z) (cids : list Z) : res NiceAgent :=
  match cids with
  | [] => Ok a
  | cid :: cids =>
      let a := nice_component_restart a sid cid in
      a ← agent_signal_component_state_change a sid cid NICE_COMPONENT_STATE_GATHERING;
      restart_components a sid cids
  end.

Definition nice_stream_restart (a : NiceAgent) (sid : Z) : res NiceAgent :=
  s ← the_stream a sid;
  a ← conn_check_prune_stream a sid;
  let a := upd_stream a sid (fun s => s <| str_initial_binding_request_received := false |>) in
  let a := nice_stream_initialize_credentials a sid in
  restart_components a sid (co_id <$> str_components s).

Fixpoint restart_streams (a : NiceAgent) (sids : list Z) : res NiceAgent :=
  match sids with
  | [] => Ok a
  | sid :: sids => a ← nice_stream_restart a sid; restart_streams a sids
  end.

Definition nice_agent_restart (a : NiceAgent) : res (bool * NiceAgent) :=
  a ← restart_streams a (str_id <$> a_streams a); Ok (true, a).

Definition nice_agent_restart_stream (a : NiceAgent) (stream_id : Z) : res (bool * NiceAgent) :=
  match agent_find_stream a stream_id with
  | None => Ok (false, a)
  | Some _ => a ← nice_stream_restart a stream_id; Ok (true, a)
  end.

(** ** Pairs the application selects *)

Definition with_foundation (foundation : list Z) (c : NiceCandidate) : bool :=
  strncmp_eq (c_foundation c) foundation NICE_CANDIDATE_MAX_FOUNDATION.

Definition nice_component_find_pair (a : NiceAgent) (c : NiceComponent) (lfoundation rfoundation : list Z) : option CandidatePair :=
  match List.find (with_foundation lfoundation) (co_local_candidates c), List.find (with_foundation rfoundation) (co_remote_candidates c) with
  | Some l, Some r => Some (mkSelected (Some l) (Some r) (agent_candidate_pair_priority (a_controlling_mode a) l r) 0 false None 0 0 0 0)
  | _, _ => None
  end.

(** Through the states that are left to [READY]. *)
Definition advance_to_ready (a : NiceAgent) (sid cid : Z) : res NiceAgent :=
  c ← the_component a sid cid;
  a ← (if (component_state_value (co_state c) <? component_state_value NICE_COMPONENT_STATE_CONNECTING) ||
          bool_decide (co_state c = NICE_COMPONENT_STATE_FAILED)
       then agent_signal_component_state_change a sid cid NICE_COMPONENT_STATE_CONNECTING else Ok a);
  c ← the_component a sid cid;
  a ← (if component_state_value (co_state c) <? component_state_value NICE_COMPONENT_STATE_CONNECTED
       then agent_signal_component_state_change a sid cid NICE_COMPONENT_STATE_CONNECTED else Ok a);
  agent_signal_component_state_change a sid cid NICE_COMPONENT_STATE_READY.

(** A reliable agent needs a reliable socket or pseudo-TCP. *)
Definition no_reliable_transport (a : NiceAgent) (sid cid : Z) (sock : option Z) : bool :=
  a_reliable a && negb (nice_socket_is_reliable sock) && pseudo_tcp_socket_is_closed (a_log a) sid cid.

Definition nice_agent_set_selected_pair (a : NiceAgent) (stream_id component_id : Z) (lfoundation rfoundation : list Z)
    : res (bool * NiceAgent) :=
  match agent_find_component a stream_id component_id with
  | None => Ok (false, a)
  | Some (_, component) =>
      match nice_component_find_pair a component lfoundation rfoundation with
      | None => Ok (false, a)
      | Some selected =>
          a ← conn_check_prune_stream a stream_id;
          match sp_local selected, sp_remote selected with
          | Some l, Some r =>
              if no_reliable_transport a stream_id component_id (c_sockptr l) then Ok (false, a)
              else
                a ← advance_to_ready a stream_id component_id;
                a ← nice_component_update_selected_pair a stream_id component_id (selected <| sp_remote_consent_have := true |>);
                Ok (true, log (FxNewSelectedPair stream_id component_id l r) a)
          | _, _ => Fault OutOfBounds
          end
      end
  end.

(** The host candidate that makes the pair of the highest priority. *)
Fixpoint best_local (a : NiceAgent) (candidate : NiceCandidate) (best : option NiceCandidate) (priority : Z) (l : list NiceCandidate)
    : option NiceCandidate * Z :=
  match l with
  | [] => (best, priority)
  | tmp :: l =>
      if negb (bool_decide (c_transport tmp = conn_check_match_transport (c_transport candidate))) ||
         negb (same_family (c_addr tmp) (c_addr candidate)) || negb (bool_decide (c_type tmp = NICE_CANDIDATE_TYPE_HOST))
      then best_local a candidate best priority l
      else
        let tmp_prio := agent_candidate_pair_priority (a_controlling_mode a) tmp candidate in
        if priority <? tmp_prio then best_local a candidate (Some tmp) tmp_prio l else best_local a candidate best priority l
  end.

Definition nice_component_set_selected_remote_candidate (a : NiceAgent) (sid cid : Z) (candidate : NiceCandidate)
    : res (option NiceCandidate * NiceAgent) :=
  c ← the_component a sid cid;
  match best_local a candidate None 0 (co_local_candidates c) with
  | (None, _) => Ok (None, a)
  | (Some local, priority) =>
      let '(remote, a) :=
        match nice_component_find_remote_candidate c (c_addr candidate) (c_transport candidate) with
        | Some remote => (remote, a)
        | None =>
            let remote := nice_candidate_copy (a_next_ptr a) candidate in
            let a := upd_component a sid cid (fun c => c <| co_remote_candidates := co_remote_candidates c ++ [remote] |>) in
            (remote, log (FxNewRemoteCandidate remote) (a <| a_next_ptr := a_next_ptr a + 1 |>))
        end in
      Ok (Some local, upd_component a sid cid (fun c =>
            (nice_component_clear_selected_pair c)
              <| co_selected_pair := mkSelected (Some local) (Some remote) priority 0 true None 0 0 0 0 |> <| co_fallback_mode := true |>))
  end.

Definition nice_agent_set_selected_remote_candidate (a : NiceAgent) (stream_id component_id : Z) (candidate : NiceCandidate)
    : res (bool * NiceAgent) :=
  match agent_find_component a stream_id component_id with
  | None => Ok (false, a)
  | Some _ =>
      a ← conn_check_prune_stream a stream_id;
      c ← the_component a stream_id component_id;
      let old := co_selected_pair c in
      '(lcandidate, a) ← nice_component_set_selected_remote_candidate a stream_id component_id candidate;
      match lcandidate with
      | None => Ok (false, a)
      | Some lcandidate =>
          if no_reliable_transport a stream_id component_id (c_sockptr lcandidate) then
            Ok (false, upd_selected a stream_id component_id (fun p =>
                  p <| sp_local := sp_local old |> <| sp_remote := sp_remote old |> <| sp_priority := sp_priority old |>))
          else
            a ← advance_to_ready a stream_id component_id;
            Ok (true, log (FxNewSelectedPair stream_id component_id lcandidate candidate) a)
      end
  end.

(** ** Relays *)

Fixpoint prune_relays (a : NiceAgent) (sid cid : Z) (relay_candidates : list NiceCandidate) : res NiceAgent :=
  match relay_candidates with
  | [] => Ok a
  | candidate :: l => a ← nice_component_prune_relay_candidate a sid cid candidate; prune_relays a sid cid l
  end.

(** The relayed candidates to prune, and the component without them; the one
    in use moves to [turn_candidate]. *)
Fixpoint take_relays (c : NiceComponent) (relay_candidates l : list NiceCandidate) : list NiceCandidate * NiceComponent :=
  match l with
  | [] => (relay_candidates, c)
  | candidate :: l =>
      if negb (bool_decide (c_type candidate = NICE_CANDIDATE_TYPE_RELAYED)) then take_relays c relay_candidates l
      else
        let '(relay_candidates, c) :=
          if is_candidate (sp_local (co_selected_pair c)) candidate then
            (relay_candidates ++ option_list (co_turn_candidate c),
             c <| co_selected_pair := (co_selected_pair c) <| sp_priority := 0 |> |> <| co_turn_candidate := Some candidate |>)
          else (relay_candidates ++ [candidate], c) in
        take_relays (c <| co_local_candidates := remove_candidate candidate (co_local_candidates c) |>) relay_candidates l
  end.

Definition nice_component_clean_turn_servers (a : NiceAgent) (sid cid : Z) : res NiceAgent :=
  c ← the_component a sid cid;
  let '(relay_candidates, c) := take_relays (c <| co_turn_servers := [] |>) [] (co_local_candidates c) in
  prune_relays (upd_component a sid cid (fun _ => c)) sid cid relay_candidates.

Definition nice_agent_forget_relays (a : NiceAgent) (stream_id component_id : Z) : res (bool * NiceAgent) :=
  match agent_find_component a stream_id component_id with
  | None => Ok (false, a)
  | Some _ => a ← nice_component_clean_turn_servers a stream_id component_id; Ok (true, a)
  end.

(** When the allocations of a candidate are gone. *)
Definition on_candidate_refreshes_pruned (a : NiceAgent) (candidate : NiceCandidate) : NiceAgent :=
  let '(socket_source_freed, a) :=
    match agent_find_component a (c_stream_id candidate) (c_component_id candidate) with
    | Some _ => nice_component_detach_socket a (c_stream_id candidate) (c_component_id candidate) (c_sockptr candidate)
    | None => (false, a)
    end in
  match c_sockptr candidate with
  | Some sock => if socket_source_freed then a else log (FxFreeSocket sock) a
  | None => a
  end.

(** ** Removing a socket *)

Fixpoint remove_locals (a : NiceAgent) (sid cid : Z) (nsocket : option Z) (l : list NiceCandidate) : res NiceAgent :=
  match l with
  | [] => Ok a
  | candidate :: l =>
      if negb (nice_socket_is_based_on (c_sockptr candidate) nsocket) then remove_locals a sid cid nsocket l
      else
        c ← the_component a sid cid;
        let a := if is_candidate (sp_local (co_selected_pair c)) candidate then upd_component a sid cid nice_component_clear_selected_pair
                 else a in
        a ← refresh_prune_candidate a candidate;
        a ← (if bool_decide (c_sockptr candidate = nsocket) then Ok a
             else
               let a := discovery_prune_socket a (c_sockptr candidate) in
               a ← conn_check_prune_socket a sid cid (c_sockptr candidate);
               Ok (nice_component_detach_socket a sid cid (c_sockptr candidate)).2);
        remove_locals (upd_component a sid cid (fun c => c <| co_local_candidates := remove_candidate candidate (co_local_candidates c) |>))
          sid cid nsocket l
  end.

Fixpoint remove_remotes (a : NiceAgent) (sid cid : Z) (nsocket : option Z) (l : list NiceCandidate) : res NiceAgent :=
  match l with
  | [] => Ok a
  | candidate :: l =>
      if negb (bool_decide (c_sockptr candidate = nsocket)) then remove_remotes a sid cid nsocket l
      else
        c ← the_component a sid cid;
        let a := if is_candidate (sp_remote (co_selected_pair c)) candidate then upd_component a sid cid nice_component_clear_selected_pair
                 else a in
        a ← conn_check_prune_socket a sid cid (c_sockptr candidate);
        remove_remotes (upd_component a sid cid (fun c => c <| co_remote_candidates := remove_candidate candidate (co_remote_candidates c) |>))
          sid cid nsocket l
  end.

Definition nice_component_remove_socket (a : NiceAgent) (sid cid : Z) (nsocket : option Z) : res NiceAgent :=
  let a := discovery_prune_socket a nsocket in
  a ← refresh_prune_socket a nsocket;
  a ← conn_check_prune_socket a sid cid nsocket;
  c ← the_component a sid cid;
  a ← remove_locals a sid cid nsocket (co_local_candidates c);
  c ← the_component a sid cid;
  a ← remove_remotes a sid cid nsocket (co_remote_candidates c);
  Ok (nice_component_detach_socket a sid cid nsocket).2.

(** ** Removing streams *)

Definition nice_agent_remove_stream_internal (a : NiceAgent) (sid : Z) : res NiceAgent :=
  let a := log (FxCancelResolving sid) a in
  a ← conn_check_prune_stream a sid;
  let a := discovery_prune_stream a sid in
  stream ← the_stream a sid;
  let a := a <| a_streams := List.filter (fun s => negb (str_id s =? sid)) (a_streams a) |>
             <| a_pruning_streams := stream :: a_pruning_streams a |> in
  a ← refresh_prune_stream_async a sid;
  let a := match a_streams a with [] => a <| a_keepalive_timer := None |> | _ => a end in
  Ok (log (FxStreamsRemoved sid) a).

Definition nice_agent_remove_stream (a : NiceAgent) (stream_id : Z) : res NiceAgent :=
  match agent_find_stream a stream_id with
  | None => Ok a
  | Some _ => nice_agent_remove_stream_internal a stream_id
  end.

(** Each round removes the first stream. *)
Fixpoint remove_streams_loop (a : NiceAgent) (sids : list Z) : res NiceAgent :=
  match sids with
  | [] => Ok a
  | sid :: sids => a ← nice_agent_remove_stream_internal a sid; remove_streams_loop a sids
  end.
Definition nice_agent_remove_streams (a : NiceAgent) : res NiceAgent := remove_streams_loop a (str_id <$> a_streams a).

(** The local candidates are gone when the TURN servers are cleaned, so that
    no relay is left to prune; the buffers of the component are not modelled. *)
Definition nice_component_close (a : NiceAgent) (sid : Z) (c : NiceComponent) : NiceComponent * NiceAgent :=
  let a := if a_reliable a then log (FxClosePseudoTcp sid (co_id c)) a else a in
  ((nice_component_clear_selected_pair c)
     <| co_restart_candidate := None |> <| co_turn_candidate := None |> <| co_local_candidates := [] |>
     <| co_remote_candidates := [] |> <| co_incoming_checks := [] |> <| co_turn_servers := [] |>,
   log (FxFreeSocketSources sid (co_id c)) a).

Fixpoint close_components (a : NiceAgent) (sid : Z) (l : list NiceComponent) : list NiceComponent * NiceAgent :=
  match l with
  | [] => ([], a)
  | c :: l =>
      let '(c, a) := nice_component_close a sid c in
      let '(l, a) := close_components a sid l in
      (c :: l, a)
  end.
Definition nice_stream_close (a : NiceAgent) (s : NiceStream) : NiceStream * NiceAgent :=
  let '(l, a) := close_components a (str_id s) (str_components s) in (s <| str_components := l |>, a).

(** When the allocations of a removed stream are gone; the stream is freed
    once it is closed. *)
Definition on_stream_refreshes_pruned (a : NiceAgent) (stream_id : Z) : res NiceAgent :=
  match List.find (fun s => str_id s =? stream_id) (a_pruning_streams a) with
  | None => Fault OutOfBounds
  | Some stream =>
      let a := (nice_stream_close a stream).2 in
      Ok (a <| a_pruning_streams := List.filter (fun s => negb (str_id s =? stream_id)) (a_pruning_streams a) |>)
  end.

(** ** Smaller operations *)

Definition nice_agent_set_port_range (a : NiceAgent) (stream_id component_id min_port max_port : Z) : NiceAgent :=
  match agent_find_component a stream_id component_id with
  | Some (stream, _) =>
      if str_gathering_started stream then a
      else upd_component a stream_id component_id (fun c => c <| co_min_port := min_port |> <| co_max_port := max_port |>)
  | None => a
  end.

Definition nice_agent_add_local_address (a : NiceAgent) (addr : NiceAddress) : NiceAgent :=
  a <| a_local_addresses := a_local_addresses a ++ [nice_address_set_port addr 0] |>.

Definition nice_agent_get_component_state (a : NiceAgent) (stream_id component_id : Z) : NiceComponentState :=
  match agent_find_component a stream_id component_id with
  | Some (_, component) => co_state component
  | None => NICE_COMPONENT_STATE_FAILED
  end.

Definition nice_agent_peer_candidate_gathering_done (a : NiceAgent) (stream_id : Z) : bool * NiceAgent :=
  match agent_find_stream a stream_id with
  | Some _ => (true, upd_stream a stream_id (fun s => s <| str_peer_gathering_done := true |>))
  | None => (false, a)
  end.

Definition nice_agent_consent_lost (a : NiceAgent) (stream_id component_id : Z) : bool * NiceAgent :=
  if negb (a_consent_freshness a) then (false, a)
  else
    match agent_find_component a stream_id component_id with
    | Some _ => (true, upd_component a stream_id component_id (fun c => c <| co_have_local_consent := false |>))
    | None => (false, a)
    end.

(** The local candidates the application gets to see. *)
Definition visible_candidates (a : NiceAgent) (c : NiceComponent) : list NiceCandidate :=
  List.filter (fun cand => negb (a_force_relay a && negb (bool_decide (c_type cand = NICE_CANDIDATE_TYPE_RELAYED)))) (co_local_candidates c).

(** The copies have addresses of their own, which nothing here keeps. *)
Definition nice_agent_get_local_candidates (a : NiceAgent) (stream_id component_id : Z) : list NiceCandidate :=
  match agent_find_component a stream_id component_id with
  | Some (_, component) => visible_candidates a component
  | None => []
  end.

Definition nice_agent_get_remote_candidates (a : NiceAgent) (stream_id component_id : Z) : list NiceCandidate :=
  match agent_find_component a stream_id component_id with
  | Some (_, component) => co_remote_candidates component
  | None => []
  end.

Definition nice_agent_get_selected_pair (a : NiceAgent) (stream_id component_id : Z) : option (NiceCandidate * NiceCandidate) :=
  match agent_find_component a stream_id component_id with
  | Some (_, component) =>
      match sp_local (co_selected_pair component), sp_remote (co_selected_pair component) with
      | Some l, Some r => Some (l, r)
      | _, _ => None
      end
  | None => None
  end.
End streams.
