(* ===== verification/Gather.v ===== *)
(** * Gathering candidates (agent/agent.c)

    The discoveries that ask STUN and TURN servers, the ports tried for host
    candidates, [nice_agent_gather_candidates], and what happens when the name
    of a server is resolved. *)
From S2P Require Import Prelude CMem StunTypes StunAgent StunTimer Address Candidate IceTypes IceEnv CheckList CheckDriver Discovery CheckTick KeepAlive DiscoveryReply RemoteCandidates Streams.
Local Open Scope Z_scope.

(** GLib's random integers: from [begin] up to, not including, [end]. *)
Class RandomInt : Type := g_random_int_range : list effect -> Z -> Z -> Z.

(** What GLib documents, and what it returns for an empty range. *)
Class RandomRange {G : RandomInt} : Prop := {
  random_range : forall l begin end', begin < end' -> begin <= g_random_int_range l begin end' < end';
  random_empty : forall l begin end', end' <= begin -> g_random_int_range l begin end' = begin
}.

(** A resolved address. *)
Inductive GInetAddress : Set :=
  | InetIPv4 (b0 b1 b2 b3 : Z)
  | InetIPv6 (bytes : list Z)
  | InetOther.

(** The address of the server, for the families that are not ignored. *)
Definition server_address (old : NiceAddress) (addr : GInetAddress) (port : Z) : option NiceAddress :=
  match addr with
  | InetIPv4 b0 b1 b2 b3 => Some (nice_address_set_port (nice_address_set_ipv4 old (dotted b0 b1 b2 b3)) port)
  | InetIPv6 bytes => Some (nice_address_set_port (nice_address_set_ipv6 old bytes) port)
  | InetOther => None
  end.

(** ** Discoveries *)

Section gather.
Context {E : CheckEnv} {CL : CryptoLib} {B : Base64} {N : NetEnv} {K : Keepalive} {CE : ComponentEnv} {G : RandomInt} (package_string : list Z).

Definition append_discovery (a : NiceAgent) (type : NiceCandidateType) (nicesock : option Z) (server : NiceAddress) (sid cid : Z)
    (turn : option TurnServer) (ag : StunAgent) : NiceAgent :=
  let cdisco := mkDiscovery (a_next_ptr a) type nicesock server 0 false false sid cid turn ag zero_timer None None in
  a <| a_next_ptr := a_next_ptr a + 1 |> <| a_discovery_list := a_discovery_list a ++ [cdisco] |>
    <| a_discovery_unsched_items := u32 (a_discovery_unsched_items a + 1) |>.

Definition is_oc2007 (a : NiceAgent) : bool :=
  match a_compatibility a with NICE_COMPATIBILITY_OC2007 | NICE_COMPATIBILITY_OC2007R2 => true | _ => false end.

Definition priv_add_new_candidate_discovery_stun (a : NiceAgent) (nicesock : option Z) (server : NiceAddress) (sid cid : Z) : NiceAgent :=
  append_discovery a NICE_CANDIDATE_TYPE_SERVER_REFLEXIVE nicesock server sid cid None
    (stun_agent_init stun_agent_storage STUN_ALL_KNOWN_ATTRIBUTES
       (if bool_decide (a_compatibility a = NICE_COMPATIBILITY_RFC5245) then STUN_COMPATIBILITY_RFC5389 else STUN_COMPATIBILITY_RFC3489)
       (if is_oc2007 a then STUN_AGENT_USAGE_NO_ALIGNED_ATTRIBUTES else 0)).

Definition turn_stun_agent (a : NiceAgent) : StunAgent :=
  stun_agent_set_software
    (match a_compatibility a with
     | NICE_COMPATIBILITY_GOOGLE =>
         stun_agent_init stun_agent_storage STUN_ALL_KNOWN_ATTRIBUTES STUN_COMPATIBILITY_RFC3489
           (Z.lor STUN_AGENT_USAGE_SHORT_TERM_CREDENTIALS STUN_AGENT_USAGE_IGNORE_CREDENTIALS)
     | NICE_COMPATIBILITY_MSN | NICE_COMPATIBILITY_WLM2009 =>
         stun_agent_init stun_agent_storage STUN_ALL_KNOWN_ATTRIBUTES STUN_COMPATIBILITY_RFC3489 STUN_AGENT_USAGE_SHORT_TERM_CREDENTIALS
     | NICE_COMPATIBILITY_OC2007 | NICE_COMPATIBILITY_OC2007R2 =>
         stun_agent_init stun_agent_storage STUN_MSOC_KNOWN_ATTRIBUTES STUN_COMPATIBILITY_OC2007
           (Z.lor STUN_AGENT_USAGE_LONG_TERM_CREDENTIALS STUN_AGENT_USAGE_NO_ALIGNED_ATTRIBUTES)
     | NICE_COMPATIBILITY_RFC5245 =>
         stun_agent_init stun_agent_storage STUN_ALL_KNOWN_ATTRIBUTES STUN_COMPATIBILITY_RFC5389
           (Z.lor STUN_AGENT_USAGE_ADD_SOFTWARE STUN_AGENT_USAGE_LONG_TERM_CREDENTIALS)
     end) (a_software_attribute a).

(** The socket the allocation is made over; [None] skips the discovery. *)
Definition turn_discovery_socket (a : NiceAgent) (nicesock : option Z) (turn : TurnServer) (sid cid : Z) (turn_tcp : bool)
    : option (option Z) * NiceAgent :=
  match ts_type turn with
  | NICE_RELAY_TYPE_TURN_UDP =>
      if negb (a_use_ice_udp a) || turn_tcp then (None, a)
      else
        match a_compatibility a with
        | NICE_COMPATIBILITY_GOOGLE =>
            let addr := nice_address_set_port (socket_addr nicesock) 0 in
            let new_socket := nice_udp_bsd_socket_new (a_log a) addr in
            let a := log (FxCreateSocket None addr) a in
            match new_socket with
            | SocketCreated s => (Some (Some s), log (FxAttachSocket sid cid s) a)
            | _ => (Some nicesock, a)
            end
        | _ => (Some nicesock, a)
        end
  | _ =>
      let reliable_tcp := turn_tcp && is_oc2007 a in
      if negb (a_use_ice_tcp a) && reliable_tcp then (None, a)
      else
        let sock := agent_create_tcp_turn_socket (a_log a) nicesock (ts_server turn) (ts_type turn) reliable_tcp in
        let a := log (FxCreateSocket nicesock (ts_server turn)) a in
        match sock with
        | Some s => (Some (Some s), log (FxAttachSocket sid cid s) a)
        | None => (None, a)
        end
  end.

Definition priv_add_new_candidate_discovery_turn (a : NiceAgent) (nicesock : option Z) (turn : TurnServer) (sid cid : Z) (turn_tcp : bool)
    : NiceAgent :=
  match turn_discovery_socket a nicesock turn sid cid turn_tcp with
  | (None, a) => a
  | (Some sock, a) =>
      append_discovery a NICE_CANDIDATE_TYPE_RELAYED sock (ts_server turn) sid cid (Some turn) (turn_stun_agent a)
  end.

(** ** Ports *)

Definition nice_rng_generate_int (a : NiceAgent) (low high : Z) : Z * NiceAgent :=
  (u32 (g_random_int_range (a_log a) (s32 low) (s32 high)), log (FxRandomInt low high) a).

Definition retry (r : HostCandidateResult) : bool :=
  match r with HOST_CANDIDATE_CANT_CREATE_SOCKET | HOST_CANDIDATE_DUPLICATE_PORT => true | _ => false end.

Definition is_duplicate (r : HostCandidateResult) : bool :=
  match r with HOST_CANDIDATE_DUPLICATE_PORT => true | _ => false end.

(** The port after [current] in the range of the component. *)
Definition next_port (min_port max_port current : Z) : Z :=
  let current := if 0 <? current then u32 (current + 1) else current in
  if max_port <? current then min_port else current.

Fixpoint port_loop (fuel : nat) (a : NiceAgent) (sid cid : Z) (addr : NiceAddress) (transport : NiceCandidateTransport)
    (min_port max_port start_port current_port : Z) (accept_duplicate : bool) : res (HostCandidateResult * option NiceCandidate * NiceAgent) :=
  match fuel with
  | O => Fault OutOfFuel
  | S fuel =>
      '(r, host_candidate, a) ← discovery_add_local_host_candidate a sid cid (nice_address_set_port addr current_port) transport accept_duplicate;
      let current_port := next_port min_port max_port current_port in
      if (current_port =? start_port) && accept_duplicate then Ok (r, host_candidate, a)
      else
        let accept_duplicate := accept_duplicate || (current_port =? start_port) in
        if (current_port =? 0) && negb (is_duplicate r) then Ok (r, host_candidate, a)
        else if retry r then port_loop fuel a sid cid addr transport min_port max_port start_port current_port accept_duplicate
        else Ok (r, host_candidate, a)
  end.

(** Twice around the range. *)
Definition port_fuel (min_port max_port : Z) : nat := Z.to_nat (2 * (Z.max 0 (max_port - min_port) + 1)).

Definition try_ports (a : NiceAgent) (sid cid : Z) (addr : NiceAddress) (transport : NiceCandidateTransport)
    : res (HostCandidateResult * option NiceCandidate * NiceAgent) :=
  c ← the_component a sid cid;
  let min_port := co_min_port c in
  let max_port := co_max_port c in
  let '(start_port, a) := if min_port =? 0 then (min_port, a) else nice_rng_generate_int a min_port (u32 (max_port + 1)) in
  port_loop (port_fuel min_port max_port) a sid cid addr transport min_port max_port start_port start_port false.

(** ** Gathering *)

(** The TURN servers of a host candidate; the boolean is [resolving_turn]. *)
Fixpoint host_turn_loop (a : NiceAgent) (sid cid : Z) (host : NiceCandidate) (resolving_turn : bool) (l : list TurnServer) : bool * NiceAgent :=
  match l with
  | [] => (resolving_turn, a)
  | turn :: l =>
      if negb (nice_address_is_valid (ts_server turn)) then
        host_turn_loop a sid cid host (resolving_turn || negb (ts_resolution_failed turn)) l
      else if negb (nice_address_ip_version (c_addr host) =? nice_address_ip_version (ts_server turn)) then
        host_turn_loop a sid cid host resolving_turn l
      else
        host_turn_loop
          (priv_add_new_candidate_discovery_turn a (c_sockptr host) turn sid cid
             (negb (bool_decide (c_transport host = NICE_CANDIDATE_TRANSPORT_UDP))))
          sid cid host resolving_turn l
  end.

(** What was found, a local address and a name being resolved; [None] is the
    jump to the error. *)
Definition gather_host (a : NiceAgent) (sid cid : Z) (addr : NiceAddress) (transport : NiceCandidateTransport) (found resolving_turn : bool)
    : res (option (bool * bool) * NiceAgent) :=
  '(r, host, a) ← try_ports a sid cid addr transport;
  match r with
  | HOST_CANDIDATE_REDUNDANT | HOST_CANDIDATE_FAILED | HOST_CANDIDATE_CANT_CREATE_SOCKET => Ok (Some (found, resolving_turn), a)
  | HOST_CANDIDATE_DUPLICATE_PORT => Ok (None, a)
  | HOST_CANDIDATE_SUCCESS =>
      match host with
      | None => Fault OutOfBounds
      | Some host =>
          linklocal ← (if a_full_mode a then nice_address_is_linklocal addr else Ok true);
          if a_full_mode a && negb linklocal && negb (bool_decide (transport = NICE_CANDIDATE_TRANSPORT_TCP_PASSIVE)) then
            c ← the_component a sid cid;
            let '(resolving_turn, a) := host_turn_loop a sid cid host resolving_turn (co_turn_servers c) in
            Ok (Some (true, resolving_turn), a)
          else Ok (Some (true, resolving_turn), a)
      end
  end.

Definition add_types : list NiceCandidateTransport :=
  [NICE_CANDIDATE_TRANSPORT_UDP; NICE_CANDIDATE_TRANSPORT_TCP_ACTIVE; NICE_CANDIDATE_TRANSPORT_TCP_PASSIVE].

Definition disabled_transport (a : NiceAgent) (transport : NiceCandidateTransport) : bool :=
  match transport with NICE_CANDIDATE_TRANSPORT_UDP => negb (a_use_ice_udp a) | _ => negb (a_use_ice_tcp a) end.

(** The addresses and, for each, the transports. *)
Fixpoint gather_hosts (a : NiceAgent) (sid cid : Z) (found resolving_turn : bool) (l : list (NiceAddress * NiceCandidateTransport))
    : res (option (bool * bool) * NiceAgent) :=
  match l with
  | [] => Ok (Some (found, resolving_turn), a)
  | (addr, transport) :: l =>
      if disabled_transport a transport then gather_hosts a sid cid found resolving_turn l
      else
        '(r, a) ← gather_host a sid cid addr transport found resolving_turn;
        match r with
        | None => Ok (None, a)
        | Some (found, resolving_turn) => gather_hosts a sid cid found resolving_turn l
        end
  end.

(** The components; [None] again is the error, else [resolving_turn]. *)
Fixpoint gather_components (a : NiceAgent) (sid : Z) (addresses : list NiceAddress) (resolving_turn : bool) (cids : list Z)
    : res (option bool * NiceAgent) :=
  match cids with
  | [] => Ok (Some resolving_turn, a)
  | cid :: cids =>
      match agent_find_component a sid cid with
      | None => gather_components a sid addresses resolving_turn cids
      | Some _ =>
          '(r, a) ← gather_hosts a sid cid false resolving_turn
                      (addr ← take (Z.to_nat NICE_CANDIDATE_MAX_LOCAL_ADDRESSES) addresses; transport ← add_types; [(addr, transport)]);
          match r with
          | Some (true, resolving_turn) =>
              c ← the_component a sid cid;
              a ← match co_state c with
                  | NICE_COMPONENT_STATE_DISCONNECTED | NICE_COMPONENT_STATE_FAILED =>
                      agent_signal_component_state_change a sid cid NICE_COMPONENT_STATE_GATHERING
                  | _ => Ok a
                  end;
              gather_components a sid addresses resolving_turn cids
          | _ => Ok (None, a)
          end
      end
  end.

Fixpoint announce_components (a : NiceAgent) (sid : Z) (cids : list Z) : res NiceAgent :=
  match cids with
  | [] => Ok a
  | cid :: cids =>
      c ← the_component a sid cid;
      announce_components (foldl (fun a cand => log (FxNewCandidate cand) a) a (visible_candidates a c)) sid cids
  end.

Fixpoint drop_candidates (a : NiceAgent) (sid : Z) (cids : list Z) : res NiceAgent :=
  match cids with
  | [] => Ok a
  | cid :: cids =>
      _ ← the_component a sid cid;
      let a := nice_component_free_socket_sources a sid cid in
      drop_candidates (upd_component a sid cid (fun c => c <| co_local_candidates := [] |>)) sid cids
  end.

Definition parse_local_ip (ip : list Z) : list NiceAddress :=
  match nice_address_set_from_string nice_address_init ip with (true, addr) => [addr] | (false, _) => [] end.

Definition gather_addresses (a : NiceAgent) : res (list NiceAddress) :=
  match a_local_addresses a with
  | [] =>
      ips ← nice_interfaces_get_local_ips false;
      Ok (flat_map parse_local_ip ips)
  | l => Ok l
  end.

Definition resolve_stun_server (a : NiceAgent) (sid : Z) : NiceAgent :=
  match a_stun_server_ip a with
  | Some _ =>
      if a_full_mode a && negb (a_force_relay a) then
        let rd := a_next_ptr a in
        (log (FxResolveStun sid) a) <| a_next_ptr := rd + 1 |> <| a_stun_resolving_list := rd :: a_stun_resolving_list a |>
      else a
  | None => a
  end.

Definition nice_agent_gather_candidates (a : NiceAgent) (stream_id : Z) : res (bool * NiceAgent) :=
  match agent_find_stream a stream_id with
  | None => Ok (false, a)
  | Some stream =>
      if str_gathering_started stream then Ok (true, a)
      else
        local_addresses ← gather_addresses a;
        let a := resolve_stun_server a stream_id in
        let cids := seqZ 1 (str_n_components stream) in
        '(r, a) ← gather_components a stream_id local_addresses false cids;
        match r with
        | Some resolving_turn =>
            let a := upd_stream a stream_id (fun s => s <| str_gathering := true |> <| str_gathering_started := true |>) in
            a ← announce_components a stream_id cids;
            a ← (if (a_discovery_unsched_items a =? 0) && bool_decide (a_stun_resolving_list a = []) && negb resolving_turn then
                   agent_gathering_done a
                 else if negb (a_discovery_unsched_items a =? 0) then discovery_schedule package_string a
                 else Ok a);
            Ok (true, a)
        | None =>
            a ← drop_candidates a stream_id cids;
            Ok (false, discovery_prune_stream a stream_id)
        end
  end.

(** ** Names that are resolved *)

Definition schedule_or_finish (a : NiceAgent) : res NiceAgent :=
  if negb (a_discovery_unsched_items a =? 0) then discovery_schedule package_string a else agent_gathering_done a.

(** A discovery over each UDP host candidate that can reach the server. *)
Fixpoint stun_candidates_loop (a : NiceAgent) (sid cid : Z) (stun_server : NiceAddress) (l : list NiceCandidate) : res NiceAgent :=
  match l with
  | [] => Ok a
  | host :: l =>
      if negb (bool_decide (c_type host = NICE_CANDIDATE_TYPE_HOST)) then stun_candidates_loop a sid cid stun_server l
      else
        linklocal ← nice_address_is_linklocal (c_addr host);
        if linklocal || negb (bool_decide (c_transport host = NICE_CANDIDATE_TRANSPORT_UDP)) ||
           negb (nice_address_ip_version (c_addr host) =? nice_address_ip_version stun_server)
        then stun_candidates_loop a sid cid stun_server l
        else stun_candidates_loop (priv_add_new_candidate_discovery_stun a (c_sockptr host) stun_server sid cid) sid cid stun_server l
  end.

Fixpoint stun_components_loop (a : NiceAgent) (sid : Z) (stun_server : NiceAddress) (cids : list Z) : res NiceAgent :=
  match cids with
  | [] => Ok a
  | cid :: cids =>
      a ← match agent_find_component a sid cid with
          | None => Ok a
          | Some (_, component) => stun_candidates_loop a sid cid stun_server (co_local_candidates component)
          end;
      stun_components_loop a sid stun_server cids
  end.

(** The stream may have been removed while the name was resolved; the loop
    reads its number of components all the same. *)
Fixpoint stun_addresses_loop (a : NiceAgent) (sid : Z) (addresses : list GInetAddress) : res NiceAgent :=
  match addresses with
  | [] => Ok a
  | addr :: addresses =>
      match server_address nice_address_init addr (a_stun_server_port a) with
      | None => stun_addresses_loop a sid addresses
      | Some stun_server =>
          stream ← the_stream a sid;
          a ← stun_components_loop a sid stun_server (seqZ 1 (str_n_components stream));
          stun_addresses_loop a sid addresses
      end
  end.

(** [data] is the address of the request; [addresses] is [None] when the
    name was not resolved. *)
Definition stun_server_resolved_cb (a : NiceAgent) (data stream_id : Z) (addresses : option (list GInetAddress)) : res NiceAgent :=
  let a := a <| a_stun_resolving_list := List.filter (fun d => negb (d =? data)) (a_stun_resolving_list a) |> in
  match addresses with
  | None => Ok a
  | Some addresses => a ← stun_addresses_loop a stream_id addresses; schedule_or_finish a
  end.

(** ** TURN servers *)

Definition turn_server_new (ptr : Z) (server_ip : list Z) (server_port : Z) (username password : list Z) (type : NiceRelayType) : TurnServer :=
  let '(ok, server) := nice_address_set_from_string nice_address_init server_ip in
  if ok : bool then mkTurnServer ptr (nice_address_set_port server server_port) None server_port username password type 0 false
  else mkTurnServer ptr server (Some server_ip) server_port username password type 0 false.

(** The port is not copied. *)
Definition turn_server_copy (ptr : Z) (turn : TurnServer) : TurnServer :=
  mkTurnServer ptr (ts_server turn) (ts_server_address turn) 0 (ts_username turn) (ts_password turn) (ts_type turn) (ts_preference turn) false.

(** The TURN discoveries over the host candidates of a component. *)
Fixpoint turn_candidates_loop (a : NiceAgent) (sid cid : Z) (skip_linklocal : bool) (turn : TurnServer) (l : list NiceCandidate) : res NiceAgent :=
  match l with
  | [] => Ok a
  | host :: l =>
      if negb (bool_decide (c_type host = NICE_CANDIDATE_TYPE_HOST)) then turn_candidates_loop a sid cid skip_linklocal turn l
      else
        linklocal ← (if skip_linklocal then nice_address_is_linklocal (c_addr host) else Ok false);
        if linklocal || bool_decide (c_transport host = NICE_CANDIDATE_TRANSPORT_TCP_PASSIVE) ||
           negb (nice_address_ip_version (c_addr host) =? nice_address_ip_version (ts_server turn))
        then turn_candidates_loop a sid cid skip_linklocal turn l
        else
          turn_candidates_loop
            (priv_add_new_candidate_discovery_turn a (c_sockptr host) turn sid cid
               (negb (bool_decide (c_transport host = NICE_CANDIDATE_TRANSPORT_UDP))))
            sid cid skip_linklocal turn l
  end.

(** Assign to a TURN server of a component. *)
Definition upd_turn (a : NiceAgent) (sid cid ptr : Z) (f : TurnServer -> TurnServer) : NiceAgent :=
  upd_component a sid cid (fun c => c <| co_turn_servers := (fun t => if ts_ptr t =? ptr then f t else t) <$> co_turn_servers c |>).

(** Each address after the first goes to a copy of the TURN server, which is
    added to the component. *)
Fixpoint turn_addresses_loop (a : NiceAgent) (sid cid : Z) (turn : TurnServer) (first_filled : bool) (addresses : list GInetAddress)
    : res NiceAgent :=
  match addresses with
  | [] => Ok a
  | addr :: addresses =>
      let '(turn, a) :=
        if first_filled then
          let copy := turn_server_copy (a_next_ptr a) turn in
          (copy, upd_component (a <| a_next_ptr := a_next_ptr a + 1 |>) sid cid (fun c => c <| co_turn_servers := co_turn_servers c ++ [copy] |>))
        else (turn, a) in
      match server_address (ts_server turn) addr (ts_server_port turn) with
      | None => turn_addresses_loop a sid cid turn first_filled addresses
      | Some server =>
          let turn := turn <| ts_server := server |> in
          let a := upd_turn a sid cid (ts_ptr turn) (fun t => t <| ts_server := server |>) in
          stream ← the_stream a sid;
          component ← the_component a sid cid;
          a ← (if str_gathering_started stream then turn_candidates_loop a sid cid true turn (co_local_candidates component) else Ok a);
          turn_addresses_loop a sid cid turn true addresses
      end
  end.

(** The component is gone, or the TURN server no longer one of its own, or
    the name has addresses, or none. *)
Definition turn_server_resolved_cb (a : NiceAgent) (sid cid turn_ptr : Z) (addresses : option (list GInetAddress)) : res NiceAgent :=
  let a := a <| a_turn_resolving_count := a_turn_resolving_count a - 1 |> in
  match agent_find_component a sid cid with
  | None => Ok a
  | Some (_, component) =>
      match List.find (fun t => ts_ptr t =? turn_ptr) (co_turn_servers component) with
      | None => Ok a
      | Some turn =>
          match addresses with
          | None => Ok (upd_turn a sid cid turn_ptr (fun t => t <| ts_resolution_failed := true |>))
          | Some addresses => a ← turn_addresses_loop a sid cid turn false addresses; schedule_or_finish a
          end
      end
  end.

(** What starts the resolution of the name of a TURN server. *)
Definition resolve_turn_in_context (a : NiceAgent) (sid cid : Z) : NiceAgent :=
  match agent_find_component a sid cid with
  | None => a <| a_turn_resolving_count := a_turn_resolving_count a - 1 |>
  | Some _ => a
  end.

Definition nice_agent_set_relay_info (a : NiceAgent) (stream_id component_id : Z) (server_ip : list Z) (server_port : Z)
    (username password : list Z) (type : NiceRelayType) : res (bool * NiceAgent) :=
  if server_port =? 0 then Ok (false, a)
  else
    match agent_find_component a stream_id component_id with
    | None => Ok (false, a)
    | Some (stream, component) =>
        let length := zlen (co_turn_servers component) in
        if length =? NICE_CANDIDATE_MAX_TURN_SERVERS then Ok (false, a)
        else
          let turn := (turn_server_new (a_next_ptr a) server_ip server_port username password type) <| ts_preference := length |> in
          let a := upd_component (a <| a_next_ptr := a_next_ptr a + 1 |>) stream_id component_id
                     (fun c => c <| co_turn_servers := co_turn_servers c ++ [turn] |>) in
          let a := if nice_address_is_valid (ts_server turn) then a
                   else log (FxResolveTurn stream_id component_id turn) (a <| a_turn_resolving_count := a_turn_resolving_count a + 1 |>) in
          if str_gathering_started stream then
            let a := upd_stream a stream_id (fun s => s <| str_gathering := true |>) in
            if nice_address_is_valid (ts_server turn) then
              a ← turn_candidates_loop a stream_id component_id false turn (co_local_candidates component);
              a ← (if negb (a_discovery_unsched_items a =? 0) then discovery_schedule package_string a else Ok a);
              Ok (true, a)
            else Ok (true, a)
          else Ok (true, a)
    end.
End gather.
