(* ===== verification/CheckInv.v ===== *)
(** * The invariant of the check lists

    Every pair the agent has allocated is on the check list of its stream,
    once; every check list is sorted by descending priority, and the
    priorities are those of the agent's role; the triggered check queue holds
    pairs of the lists, each once.  The operations of conncheck.c preserve
    this. *)
From stdpp Require Import sorting.
From S2P Require Import Prelude CMem StunTypes StunMessage StunAgent StunTimer Address Candidate IceTypes IceEnv CheckList CheckDriver.
Local Open Scope Z_scope.

(** ** What the invariant looks at *)

Definition lists (a : NiceAgent) : list (Z * list Z) := (fun s => (str_id s, str_conncheck_list s)) <$> a_streams a.

Definition key (x : CandidateCheckPair) : Z * NiceCandidate * NiceCandidate * Z :=
  (cp_stream_id x, cp_local x, cp_remote x, cp_priority x).

Definition prio_at (h : gmap Z CandidateCheckPair) (p : Z) : Z := from_option cp_priority 0 (h !! p).

Definition above (h : gmap Z CandidateCheckPair) (p q : Z) : Prop := prio_at h q <= prio_at h p.

(** A pair of the check list of stream [sid]. *)
Definition pair_ok (a : NiceAgent) (sid p : Z) : Prop :=
  exists x, a_pairs a !! p = Some x /\ cp_stream_id x = sid /\
    cp_priority x = agent_candidate_pair_priority (a_controlling_mode a) (cp_local x) (cp_remote x).

Record wf (a : NiceAgent) : Prop := {
  wf_ids : NoDup (lists a).*1;
  wf_nodup : NoDup (all_checks a);
  wf_listed : forall p x, a_pairs a !! p = Some x -> p ∈ all_checks a;
  wf_pairs : forall sid l p, (sid, l) ∈ lists a -> p ∈ l -> pair_ok a sid p;
  wf_sorted : forall sid l, (sid, l) ∈ lists a -> StronglySorted (above (a_pairs a)) l;
  wf_fresh : forall p x, a_pairs a !! p = Some x -> p < a_next_ptr a;
  wf_queue : forall p, p ∈ a_triggered_check_queue a -> p ∈ all_checks a;
  wf_queue_nodup : NoDup (a_triggered_check_queue a);
  wf_no_renomination : a_support_renomination a = false;
  wf_next_stream : forall i, i ∈ (lists a).*1 -> i < a_next_stream_id a
}.

(** Changes the invariant does not see. *)
Record frame (a a' : NiceAgent) : Prop := {
  fr_lists : lists a' = lists a;
  fr_keys : forall p, key <$> a_pairs a' !! p = key <$> a_pairs a !! p;
  fr_role : a_controlling_mode a' = a_controlling_mode a;
  fr_queue : a_triggered_check_queue a' = a_triggered_check_queue a;
  fr_next : a_next_ptr a <= a_next_ptr a';
  fr_renomination : a_support_renomination a' = a_support_renomination a;
  fr_next_stream : a_next_stream_id a' = a_next_stream_id a
}.

#[global] Instance frame_preorder : PreOrder frame.
Proof.
  split.
  - intros a. by split.
  - intros a b c [] []. split; try congruence; lia.
Qed.

(** What the checks rely on in the keepalives: they leave the lists alone. *)
Class KeepaliveFrame {K : Keepalive} : Prop := keepalive_frame : forall a r a', keepalive_tick a = Ok (r, a') -> frame a a'.

Lemma all_checks_lists a : all_checks a = flat_map snd (lists a).
Proof. unfold all_checks, lists. induction (a_streams a) as [|s l IH]; [done|]. cbn. by rewrite IH. Qed.

Lemma elem_all_checks a p : p ∈ all_checks a <-> exists sid l, (sid, l) ∈ lists a /\ p ∈ l.
Proof.
  rewrite all_checks_lists, list_elem_of_In, in_flat_map. split.
  - intros ((sid & l) & ? & ?). exists sid, l. by rewrite !list_elem_of_In.
  - intros (sid & l & ? & ?). exists (sid, l). by rewrite <-!list_elem_of_In.
Qed.

Lemma key_inv (h h' : gmap Z CandidateCheckPair) p x :
  key <$> h' !! p = key <$> h !! p -> h' !! p = Some x -> exists y, h !! p = Some y /\ key y = key x.
Proof. intros E Hx. rewrite Hx in E. destruct (h !! p) as [y|]; [|done]. exists y. cbn in E. split; congruence. Qed.

Lemma keys_prio (h h' : gmap Z CandidateCheckPair) p :
  key <$> h' !! p = key <$> h !! p -> prio_at h' p = prio_at h p.
Proof. unfold prio_at, key. destruct (h' !! p), (h !! p); cbn; congruence. Qed.

Lemma StronglySorted_weaken {A} (R S : A -> A -> Prop) l :
  (forall x y, x ∈ l -> y ∈ l -> R x y -> S x y) -> StronglySorted R l -> StronglySorted S l.
Proof.
  induction l as [|x l IH]; intros HRS Hs; [constructor|]. inversion Hs as [|? ? Hs' Hx]; subst. constructor.
  - apply IH; [|done]. intros y z ? ?. apply HRS; by right.
  - rewrite Forall_forall in Hx |- *. intros y Hy. apply HRS; [by left|by right|by apply Hx].
Qed.

Lemma pair_ok_key a a' sid p :
  a_controlling_mode a' = a_controlling_mode a -> key <$> a_pairs a' !! p = key <$> a_pairs a !! p ->
  pair_ok a sid p -> pair_ok a' sid p.
Proof.
  intros Hr Hk (x & Hx & Hs & Hp). symmetry in Hk. destruct (key_inv _ _ _ _ Hk Hx) as (y & Hy & E).
  exists y. unfold key in E. injection E as E1 E2 E3 E4. rewrite Hr, E1, E2, E3, E4. done.
Qed.

Lemma wf_frame a a' : frame a a' -> wf a -> wf a'.
Proof.
  intros [Hl Hk Hr Hq Hn Hf Hs] [W1 W2 W3 W4 W5 W6 W7 W8 W9 W10].
  assert (Hc : all_checks a' = all_checks a) by (by rewrite !all_checks_lists, Hl).
  split; rewrite ?Hl, ?Hc, ?Hq; try done.
  - intros p x Hx. destruct (key_inv _ _ _ _ (Hk p) Hx) as (y & ? & _). eauto.
  - intros sid l p Hin Hp. eapply pair_ok_key; eauto.
  - intros sid l Hin. eapply StronglySorted_weaken, W5, Hin. intros p q _ _. unfold above.
    rewrite !(keys_prio _ _ _ (Hk _)). done.
  - intros p x Hx. destruct (key_inv _ _ _ _ (Hk p) Hx) as (y & Hy & _). specialize (W6 _ _ Hy). lia.
  - congruence.
  - intros i Hi. rewrite Hs. auto.
Qed.

(** ** Streams *)

Definition checks_of (a : NiceAgent) (sid : Z) : list Z := from_option str_conncheck_list [] (agent_find_stream a sid).

Lemma the_stream_inv a sid s : the_stream a sid = Ok s -> agent_find_stream a sid = Some s.
Proof. unfold the_stream. destruct (agent_find_stream a sid); congruence. Qed.

Lemma find_stream_lists a sid s :
  agent_find_stream a sid = Some s -> (sid, str_conncheck_list s) ∈ lists a /\ str_id s = sid /\ s ∈ a_streams a.
Proof.
  unfold agent_find_stream. intros ([i s'] & Hx & ->)%fmap_Some. cbn [snd].
  apply list_find_Some in Hx as (Hi & <- & _). apply list_elem_of_lookup_2 in Hi.
  split; [|done]. unfold lists. apply list_elem_of_fmap. by exists s'.
Qed.

Lemma checks_of_lists a sid p : p ∈ checks_of a sid -> (sid, checks_of a sid) ∈ lists a.
Proof.
  unfold checks_of. destruct (agent_find_stream a sid) eqn:E; cbn; [|by intros ?%elem_of_nil].
  intros _. by apply find_stream_lists in E as (? & _).
Qed.

Lemma in_checks_of a sid p : p ∈ checks_of a sid -> p ∈ all_checks a.
Proof. intros H. apply elem_all_checks. exists sid, (checks_of a sid). split; [by eapply checks_of_lists|done]. Qed.

(** The lists after a change to the list of one stream. *)
Fixpoint set_list (f : list Z -> list Z) (sid : Z) (l : list (Z * list Z)) : list (Z * list Z) :=
  match l with
  | [] => []
  | (i, k) :: l => if i =? sid then (i, f k) :: l else (i, k) :: set_list f sid l
  end.

Lemma lists_upd_list a sid f :
  lists (upd_stream a sid (fun s => s <| str_conncheck_list := f (str_conncheck_list s) |>)) = set_list f sid (lists a).
Proof.
  unfold lists, upd_stream. rsimpl. induction (a_streams a) as [|s l IH]; [done|].
  cbn [upd_first]. rewrite fmap_cons. cbn [set_list]. destruct (str_id s =? sid); rewrite fmap_cons; [by rsimpl|by f_equal].
Qed.

Lemma lists_upd_other a sid f :
  (forall s, str_id (f s) = str_id s) -> (forall s, str_conncheck_list (f s) = str_conncheck_list s) ->
  lists (upd_stream a sid f) = lists a.
Proof.
  intros H1 H2. unfold lists, upd_stream. rsimpl. induction (a_streams a) as [|s l IH]; [done|].
  cbn [upd_first]. destruct (str_id s =? sid); cbn; [by rewrite H1, H2|]. f_equal. exact IH.
Qed.

(** ** Operations the invariant does not see *)

Lemma deref_inv a p x : deref a p = Ok x -> a_pairs a !! p = Some x.
Proof. unfold deref. destruct (a_pairs a !! p); congruence. Qed.

Lemma deref_ok a p x : a_pairs a !! p = Some x -> deref a p = Ok x.
Proof. unfold deref. by intros ->. Qed.

Lemma modify_inv a p f a' : modify a p f = Ok a' ->
  exists x, a_pairs a !! p = Some x /\ a' = a <| a_pairs := <[p := f x]> (a_pairs a) |>.
Proof. unfold modify. intros H. inv_res. apply deref_inv in Ha. by exists a0. Qed.

Lemma modify_ok a p f x : a_pairs a !! p = Some x -> modify a p f = Ok (a <| a_pairs := <[p := f x]> (a_pairs a) |>).
Proof. intros H. unfold modify. by rewrite (deref_ok _ _ _ H). Qed.

Lemma frame_insert a p x y : a_pairs a !! p = Some x -> key y = key x ->
  frame a (a <| a_pairs := <[p := y]> (a_pairs a) |>).
Proof.
  intros Hx Hk. split; rsimpl; try done. intros q. destruct (decide (q = p)) as [->|].
  - by rewrite lookup_insert_eq, Hx; cbn; rewrite Hk.
  - by rewrite lookup_insert_ne.
Qed.

Lemma frame_modify a p f a' : (forall x, key (f x) = key x) -> modify a p f = Ok a' -> frame a a'.
Proof. intros Hf (x & Hx & ->)%modify_inv. by eapply frame_insert. Qed.

Lemma frame_upd_component a sid cid f : frame a (upd_component a sid cid f).
Proof. split; try done. by apply lists_upd_other. Qed.

Lemma frame_log e a : frame a (log e a).
Proof. by split. Qed.

Lemma frame_schedule_next a : frame a (priv_schedule_next a).
Proof. unfold priv_schedule_next. destruct (a_conncheck_timer a), (a_keepalive_timer _); by split. Qed.

Lemma frame_signal a sid cid st a' : agent_signal_component_state_change a sid cid st = Ok a' -> frame a a'.
Proof.
  unfold agent_signal_component_state_change. destruct (agent_find_component a sid cid) as [[s c]|]; [|intros; by inv_res].
  destruct (bool_decide _); intros H; inv_res; [done|]. etrans; [apply (frame_upd_component a sid cid)|].
  etrans; [|apply frame_log]. destruct (a_reliable _); [apply frame_log|done].
Qed.

Create HintDb frames.
#[export] Hint Resolve frame_modify frame_upd_component frame_log frame_schedule_next frame_signal : frames.

(** Steps through the code, one binding or test at a time, until the goal is
    a frame between states that are already related. *)
Ltac chain := repeat match goal with H : frame ?a ?b |- frame ?a _ => etrans; [exact H|]; clear H end.

(** Relates the last state of a chain of steps to the first. *)
Ltac frame_solve :=
  repeat match goal with
  | |- frame ?a ?a => reflexivity
  | H : frame ?b ?c |- frame _ ?c => etrans; [|exact H]; clear H
  | |- frame _ (log ?e ?b) => etrans; [|apply (frame_log e b)]
  | |- frame _ (upd_component ?b ?s ?c ?f) => etrans; [|apply (frame_upd_component b s c f)]
  | |- frame _ (priv_schedule_next ?b) => etrans; [|apply (frame_schedule_next b)]
  end.

(** Steps through a computation that returned. *)
Ltac walk_step :=
  match goal with
  | H : (if ?b then _ else _) = Ok _ |- _ => destruct b eqn:?
  | H : match ?x with _ => _ end = Ok _ |- _ => destruct x eqn:?
  | H : modify _ _ _ = Ok _ |- _ => apply frame_modify in H; [|by intros]
  | H : agent_signal_component_state_change _ _ _ _ = Ok _ |- _ => apply frame_signal in H
  end.
Ltac walk := repeat (inv_res; try walk_step).

Lemma frame_SET_PAIR_STATE a p st a' : SET_PAIR_STATE a p st = Ok a' -> frame a a'.
Proof. unfold SET_PAIR_STATE. intros. walk. frame_solve. Qed.

Lemma frame_free_all a p c a' : priv_free_all_stun_transactions a p c = Ok a' -> frame a a'.
Proof. unfold priv_free_all_stun_transactions. intros. walk; frame_solve. Qed.

Lemma frame_pair_fail a sid p a' : candidate_check_pair_fail a sid p = Ok a' -> frame a a'.
Proof.
  unfold candidate_check_pair_fail. intros. inv_res. apply frame_SET_PAIR_STATE in Ha1. apply frame_free_all in Ha2.
  destruct (cp_discovered_pair _); [apply frame_SET_PAIR_STATE in H|inv_res]; frame_solve.
Qed.

Lemma frame_unfreeze_loop l : forall a fs r r' a', unfreeze_loop a l fs r = Ok (r', a') -> frame a a'.
Proof.
  induction l as [|p l IH]; intros a fs r r' a' H; cbn [unfreeze_loop] in H; walk; try by eauto.
  apply frame_SET_PAIR_STATE in Ha0. apply IH in H. frame_solve.
Qed.

Lemma frame_unfreeze_next a r a' : priv_conn_check_unfreeze_next a = Ok (r, a') -> frame a a'.
Proof. unfold priv_conn_check_unfreeze_next. intros. walk; [done|]. by eapply frame_unfreeze_loop. Qed.

Lemma frame_unfreeze_related_loop f l : forall a a', unfreeze_related_loop a f l = Ok a' -> frame a a'.
Proof.
  induction l as [|p l IH]; intros a a' H; cbn [unfreeze_related_loop] in H; walk; [done| |by eauto].
  apply frame_SET_PAIR_STATE in Ha0. apply IH in H. frame_solve.
Qed.

Lemma frame_unfreeze_related a p a' : conn_check_unfreeze_related a p = Ok a' -> frame a a'.
Proof. unfold conn_check_unfreeze_related. intros. walk. by eapply frame_unfreeze_related_loop. Qed.

Lemma frame_unfreeze_maybe_loop q l : forall a a', unfreeze_maybe_loop a q l = Ok a' -> frame a a'.
Proof.
  induction l as [|p l IH]; intros a a' H; cbn [unfreeze_maybe_loop] in H; walk; [done| |by eauto].
  apply frame_SET_PAIR_STATE in Ha1. apply IH in H. frame_solve.
Qed.

Lemma frame_unfreeze_maybe a p a' : priv_conn_check_unfreeze_maybe a p = Ok a' -> frame a a'.
Proof. unfold priv_conn_check_unfreeze_maybe. intros. walk. by eapply frame_unfreeze_maybe_loop. Qed.

Lemma frame_signal_progress a sid cid a' : signal_progress a sid cid = Ok a' -> frame a a'.
Proof. unfold signal_progress. intros. walk; frame_solve. Qed.

Lemma frame_step_down a sid cid a' : signal_step_down a sid cid = Ok a' -> frame a a'.
Proof. unfold signal_step_down. intros. walk; frame_solve. Qed.

(** ** Removing a pair *)

Fixpoint assoc (sid : Z) (l : list (Z * list Z)) : list Z :=
  match l with
  | [] => []
  | (i, k) :: l => if i =? sid then k else assoc sid l
  end.

Lemma checks_of_assoc a sid : checks_of a sid = assoc sid (lists a).
Proof.
  unfold checks_of, agent_find_stream, lists. induction (a_streams a) as [|s l IH]; [done|].
  cbn [list_find fmap list_fmap assoc]. destruct (Z.eqb_spec (str_id s) sid) as [E|E].
  - by rewrite decide_True.
  - rewrite decide_False by done. etrans; [|exact IH]. by destruct (list_find _ l) as [[]|].
Qed.

Lemma frame_checks a a' sid : frame a a' -> checks_of a' sid = checks_of a sid.
Proof. intros F. by rewrite !checks_of_assoc, (fr_lists _ _ F). Qed.

Lemma remove_first_notin p l : p ∉ l -> remove_first p l = l.
Proof.
  induction l as [|x l IH]; [done|]. rewrite not_elem_of_cons. intros [? ?]. cbn.
  destruct (Z.eqb_spec x p); [congruence|]. by rewrite IH.
Qed.

Lemma remove_first_elem p q l : NoDup l -> q ∈ remove_first p l <-> q ∈ l /\ q <> p.
Proof.
  induction 1 as [|x l Hx _ IH]; cbn; [by rewrite elem_of_nil; intuition|]. rewrite elem_of_cons.
  destruct (Z.eqb_spec x p) as [->|]; [|rewrite elem_of_cons, IH]; intuition congruence.
Qed.

Lemma remove_first_sublist p l : remove_first p l `sublist_of` l.
Proof. induction l as [|x l IH]; cbn; [done|]. destruct (x =? p); by constructor. Qed.

Lemma remove_first_nodup p l : NoDup l -> NoDup (remove_first p l).
Proof. intros H. eapply sublist_NoDup; [exact H|apply remove_first_sublist]. Qed.

Lemma StronglySorted_sublist {A} (R : A -> A -> Prop) l k : k `sublist_of` l -> StronglySorted R l -> StronglySorted R k.
Proof.
  induction 1 as [|x l k Hs IH|x l k Hs IH]; [done| |]; inversion 1; subst; [|by apply IH].
  constructor; [by apply IH|]. rewrite Forall_forall in *. intros y Hy. eauto using elem_of_sublist.
Qed.

Lemma set_list_elem f sid l i k : NoDup l.*1 -> (i, k) ∈ set_list f sid l ->
  (i <> sid /\ (i, k) ∈ l) \/ (i = sid /\ exists k', (i, k') ∈ l /\ k = f k').
Proof.
  induction l as [|[j m] l IH]; cbn; [by intros ? ?%elem_of_nil|].
  rewrite NoDup_cons. intros [Hj Hl]. destruct (Z.eqb_spec j sid) as [->|Hne]; rewrite !elem_of_cons.
  - intros [[= -> ->]|Hin]; [right; split; [done|]; exists m; split; [by left|done]|].
    left. split; [|by right]. intros ->. apply Hj, list_elem_of_fmap. by exists (sid, k).
  - intros [[= -> ->]|Hin]; [left; split; [done|by left]|]. destruct (IH Hl Hin) as [[? ?]|(? & k' & ? & ?)]; [left|right].
    + split; [done|by right].
    + split; [done|]. exists k'. split; [by right|done].
Qed.

Lemma set_list_fst f sid l : (set_list f sid l).*1 = l.*1.
Proof. induction l as [|[j m] l IH]; [done|]. cbn. destruct (j =? sid); cbn; by rewrite ?IH. Qed.

Lemma flat_set_sublist f sid l : (forall k, f k `sublist_of` k) ->
  flat_map snd (set_list f sid l) `sublist_of` flat_map snd l.
Proof.
  intros Hf. induction l as [|[j m] l IH]; [done|]. cbn. destruct (j =? sid); cbn; by apply sublist_app.
Qed.

Lemma assoc_elem l i k : NoDup l.*1 -> (i, k) ∈ l -> assoc i l = k.
Proof.
  induction l as [|[j m] l IH]; [by intros ? ?%elem_of_nil|]. cbn. rewrite NoDup_cons, elem_of_cons.
  intros [Hj Hl] [[= -> ->]|Hin]; [by rewrite Z.eqb_refl|]. destruct (Z.eqb_spec j i) as [->|]; [|by auto].
  destruct Hj. apply list_elem_of_fmap. by exists (i, k).
Qed.

Lemma wf_checks_of a sid l : wf a -> (sid, l) ∈ lists a -> checks_of a sid = l.
Proof. intros W H. rewrite checks_of_assoc. by apply assoc_elem; [apply wf_ids|]. Qed.

Lemma flat_set_elem f sid l p : p ∈ assoc sid l -> NoDup (flat_map snd l) -> NoDup l.*1 ->
  (forall k q, NoDup k -> q ∈ f k <-> q ∈ k /\ q <> p) ->
  forall q, q ∈ flat_map snd (set_list f sid l) <-> q ∈ flat_map snd l /\ q <> p.
Proof.
  intros Hp Hnd Hids Hf q. induction l as [|[j m] l IH]; cbn in *; [by apply elem_of_nil in Hp|].
  apply NoDup_app in Hnd as (Hm & Hdis & Hl). rewrite NoDup_cons in Hids. destruct Hids as [Hj Hids].
  destruct (Z.eqb_spec j sid) as [->|]; cbn; rewrite !elem_of_app.
  - rewrite Hf by done. split; [|tauto]. intros [?|Hq]; [tauto|]. split; [tauto|]. intros ->. by destruct (Hdis p).
  - rewrite IH by done. split; [|tauto]. intros [Hq|?]; [|tauto]. split; [tauto|]. intros ->. destruct (Hdis p); [done|].
    clear -Hp. induction l as [|[j m] l IH]; cbn in *; [by apply elem_of_nil in Hp|]. rewrite elem_of_app.
    destruct (j =? sid); [by left|right; auto].
Qed.

(** The state [free_and_delete] leaves. *)
Definition drop_pair (a : NiceAgent) (sid p : Z) : NiceAgent :=
  delete_link (a <| a_triggered_check_queue := remove_first p (a_triggered_check_queue a) |>
                 <| a_pairs := delete p (a_pairs a) |>) sid p.

Lemma candidate_check_pair_free_eq a p : is_Some (a_pairs a !! p) ->
  candidate_check_pair_free a p =
  Ok (a <| a_triggered_check_queue := remove_first p (a_triggered_check_queue a) |> <| a_pairs := delete p (a_pairs a) |>).
Proof.
  intros [x Hx]. unfold candidate_check_pair_free, priv_free_all_stun_transactions.
  set (a1 := priv_remove_pair_from_triggered_check_queue a p). assert (H1 : a_pairs a1 !! p = Some x) by done.
  rewrite (deref_ok _ _ _ H1). cbn [mbind res_bind]. rewrite (modify_ok _ _ _ _ H1). cbn [mbind res_bind].
  rsimpl. by rewrite delete_insert_eq.
Qed.

Lemma free_and_delete_eq a sid p : is_Some (a_pairs a !! p) -> free_and_delete a sid p = Ok (drop_pair a sid p).
Proof. intros H. unfold free_and_delete. by rewrite (candidate_check_pair_free_eq _ _ H). Qed.

Lemma lists_drop a sid p : lists (drop_pair a sid p) = set_list (remove_first p) sid (lists a).
Proof. unfold drop_pair, delete_link. by rewrite lists_upd_list. Qed.

Lemma checks_of_drop a sid p : wf a -> checks_of (drop_pair a sid p) sid = remove_first p (checks_of a sid).
Proof.
  intros W. rewrite !checks_of_assoc, lists_drop. pose proof (wf_ids _ W). induction (lists a) as [|[i k] l IH]; [done|].
  cbn. destruct (i =? sid) eqn:E; cbn; rewrite E; [done|]. apply IH. by inversion H.
Qed.

Lemma drop_listed a sid p q : wf a -> p ∈ checks_of a sid ->
  q ∈ all_checks (drop_pair a sid p) <-> q ∈ all_checks a /\ q <> p.
Proof.
  intros W Hp. rewrite !all_checks_lists, lists_drop. apply flat_set_elem.
  - by rewrite <-checks_of_assoc.
  - rewrite <-all_checks_lists. apply W.
  - apply W.
  - intros. by apply remove_first_elem.
Qed.

Lemma wf_drop a sid p : wf a -> p ∈ checks_of a sid -> wf (drop_pair a sid p).
Proof.
  intros W Hp. pose proof (drop_listed a sid p) as Hl. destruct W as [W1 W2 W3 W4 W5 W6 W7 W8 W9 W10] eqn:EW. clear EW.
  assert (Hin : forall i k, (i, k) ∈ lists (drop_pair a sid p) -> exists k', (i, k') ∈ lists a /\ k `sublist_of` k').
  { intros i k. rewrite lists_drop. intros [[_ ?]|(_ & k' & ? & ->)]%set_list_elem; [by exists k| |done].
    exists k'. split; [done|]. apply remove_first_sublist. }
  split.
  - by rewrite lists_drop, set_list_fst.
  - rewrite all_checks_lists, lists_drop. eapply sublist_NoDup; [exact W2|]. rewrite all_checks_lists.
    apply flat_set_sublist, remove_first_sublist.
  - intros q x. change (a_pairs (drop_pair a sid p)) with (delete p (a_pairs a)).
    intros [? Hx]%lookup_delete_Some. apply Hl; eauto.
  - intros i k q Hk Hq. assert (Hqa : q ∈ all_checks (drop_pair a sid p)) by (apply elem_all_checks; eauto).
    apply Hl in Hqa as [_ Hne]; [|done..]. destruct (Hin _ _ Hk) as (k' & Hk' & Hs).
    destruct (W4 i k' q) as (x & Hx & ?); [done|by eapply elem_of_sublist|]. exists x. split; [|done].
    by apply lookup_delete_Some.
  - intros i k Hk. destruct (Hin _ _ Hk) as (k' & Hk' & Hs). eapply StronglySorted_weaken; [|by eapply StronglySorted_sublist, W5].
    assert (Hne : forall q, q ∈ k -> prio_at (delete p (a_pairs a)) q = prio_at (a_pairs a) q); [|].
    { intros q Hq. unfold prio_at. rewrite lookup_delete_ne; [done|].
      intros <-. assert (p ∈ all_checks (drop_pair a sid p)) as [_ ?]%Hl by (apply elem_all_checks; eauto); done. }
    intros q r Hq Hr. unfold above. change (a_pairs (drop_pair a sid p)) with (delete p (a_pairs a)). by rewrite !Hne.
  - intros q x. change (a_pairs (drop_pair a sid p)) with (delete p (a_pairs a)).
    intros [_ Hx]%lookup_delete_Some. by apply (W6 q x).
  - intros q. change (a_triggered_check_queue (drop_pair a sid p)) with (remove_first p (a_triggered_check_queue a)).
    rewrite remove_first_elem by done. intros [? ?]. apply Hl; auto.
  - by apply remove_first_nodup.
  - done.
  - rewrite lists_drop, set_list_fst. exact W10.
Qed.

Lemma wf_lookup a p : wf a -> p ∈ all_checks a -> is_Some (a_pairs a !! p).
Proof. intros W (sid & l & Hl & Hp)%elem_all_checks. destruct (wf_pairs _ W sid l p Hl Hp) as (x & Hx & _). eauto. Qed.

(** Taking pairs off the queue is not seen either. *)
Lemma wf_unqueue a p : wf a -> wf (priv_remove_pair_from_triggered_check_queue a p).
Proof.
  intros [W1 W2 W3 W4 W5 W6 W7 W8 W9 W10]. split; try done.
  - intros q Hq. apply remove_first_elem in Hq as [? _]; auto.
  - by apply remove_first_nodup.
Qed.

Lemma wf_enqueue a p : wf a -> p ∈ all_checks a -> wf (priv_add_pair_to_triggered_check_queue a p).
Proof.
  intros W Hp. unfold priv_add_pair_to_triggered_check_queue. destruct (bool_decide_reflect (p ∈ a_triggered_check_queue a)); [done|].
  eapply wf_frame; [apply frame_schedule_next|]. destruct W as [W1 W2 W3 W4 W5 W6 W7 W8 W9 W10]. split; try done; rsimpl.
  - intros q. rewrite elem_of_app, list_elem_of_singleton. intros [?| ->]; auto.
  - apply NoDup_app. split; [done|]. split; [|apply NoDup_singleton]. intros q Hq. rewrite list_elem_of_singleton. congruence.
Qed.

(** ** Loops that remove pairs of one list *)

(** [l] is what is left to visit of the list of stream [sid]. *)
Record visiting (a : NiceAgent) (sid : Z) (l : list Z) : Prop := {
  vi_wf : wf a;
  vi_nodup : NoDup l;
  vi_in : forall p, p ∈ l -> p ∈ checks_of a sid
}.

Lemma visiting_start a sid s : wf a -> the_stream a sid = Ok s -> visiting a sid (str_conncheck_list s).
Proof.
  intros W Hs%the_stream_inv. assert (E : checks_of a sid = str_conncheck_list s) by (unfold checks_of; by rewrite Hs).
  rewrite <-E. split; [done| |done]. apply find_stream_lists in Hs as (Hin & _). rewrite E.
  pose proof (wf_nodup _ W) as Hn. rewrite all_checks_lists in Hn. clear E W.
  induction (lists a) as [|y l IH]; [by apply elem_of_nil in Hin|]. cbn in Hn. apply NoDup_app in Hn as (? & _ & ?).
  apply elem_of_cons in Hin as [<-|]; auto.
Qed.

Lemma visiting_frame a a' sid l : frame a a' -> visiting a sid l -> visiting a' sid l.
Proof. intros F [W Hn Hi]. split; [by eapply wf_frame|done|]. by rewrite (frame_checks _ _ sid F). Qed.

Lemma visiting_skip a sid p l : visiting a sid (p :: l) -> visiting a sid l.
Proof. intros [W Hn Hi]. apply NoDup_cons in Hn as [? ?]. split; [done..|]. intros q Hq. apply Hi. by right. Qed.

Lemma visiting_unqueue a sid p l : visiting a sid l -> visiting (priv_remove_pair_from_triggered_check_queue a p) sid l.
Proof. intros [W Hn Hi]. split; [by apply wf_unqueue|done..]. Qed.

Lemma visiting_head a sid p l : visiting a sid (p :: l) -> p ∈ checks_of a sid /\ is_Some (a_pairs a !! p).
Proof.
  intros [W Hn Hi]. assert (p ∈ checks_of a sid) by (apply Hi; by left). split; [done|].
  apply wf_lookup; [done|]. by eapply in_checks_of.
Qed.

Lemma visiting_drop a sid p l : visiting a sid (p :: l) -> visiting (drop_pair a sid p) sid l.
Proof.
  intros V. destruct (visiting_head _ _ _ _ V) as [Hp _]. destruct V as [W Hn Hi]. apply NoDup_cons in Hn as [? ?].
  split; [by apply wf_drop|done|]. intros q Hq. rewrite checks_of_drop by done.
  apply remove_first_elem; [|split; [apply Hi; by right|congruence]].
  unfold checks_of in *. destruct (agent_find_stream a sid) as [s|] eqn:E; [|by apply elem_of_nil in Hp].
  apply (visiting_start a sid s W). unfold the_stream. by rewrite E.
Qed.

Lemma visiting_free a sid p l a' : visiting a sid (p :: l) -> free_and_delete a sid p = Ok a' -> visiting a' sid l.
Proof.
  intros V. destruct (visiting_head _ _ _ _ V) as [_ Hx]. rewrite (free_and_delete_eq _ _ _ Hx). intros. inv_res.
  by apply visiting_drop.
Qed.

Lemma visiting_prune_pending_pair a sid prio p l n a' :
  visiting a sid (p :: l) -> prune_pending_pair a sid prio p = Ok (n, a') -> visiting a' sid l.
Proof.
  intros V H. unfold prune_pending_pair in H. walk; eauto using visiting_skip, visiting_free, visiting_frame, visiting_unqueue.
Qed.

Lemma wf_prune_pending_loop sid cid prio l : forall a n n' a',
  visiting a sid l -> prune_pending_loop a sid cid prio l n = Ok (n', a') -> wf a'.
Proof.
  induction l as [|p l IH]; intros a n n' a' V H; cbn [prune_pending_loop] in H; walk; [apply V| |].
  - eapply IH, H. by eapply visiting_skip.
  - eapply IH, H. by eapply visiting_prune_pending_pair.
Qed.

Lemma wf_prune_pending a sid cid n a' : wf a -> priv_prune_pending_checks a sid cid = Ok (n, a') -> wf a'.
Proof.
  intros W H. unfold priv_prune_pending_checks in H. inv_res. eapply wf_prune_pending_loop, H. by apply visiting_start.
Qed.

Lemma wf_ready a sid cid a' : wf a -> conn_check_update_check_list_state_for_ready a sid cid = Ok a' -> wf a'.
Proof.
  intros W H. unfold conn_check_update_check_list_state_for_ready in H.
  walk; eauto using wf_prune_pending, wf_frame, frame_signal_progress.
Qed.

Lemma visiting_prune_socket_loop sid cid sock l : forall a f1 f2 n m r a',
  visiting a sid l -> prune_socket_loop a sid cid sock l f1 f2 n m = Ok (r, a') -> wf a'.
Proof.
  induction l as [|p l IH]; intros a f1 f2 n m r a' V H; cbn [prune_socket_loop] in H; walk; try apply V;
    (eapply IH; [|exact H]); eauto 6 using visiting_skip, visiting_free, visiting_frame, frame_pair_fail.
Qed.

Lemma wf_prune_socket a sid cid sock a' : wf a -> conn_check_prune_socket a sid cid sock = Ok a' -> wf a'.
Proof.
  intros W H. unfold conn_check_prune_socket in H.
  walk; (assert (wf a1) by eauto using wf_frame, frame_step_down);
    match goal with H : prune_socket_loop _ _ _ _ _ _ _ _ _ = _ |- _ => eapply visiting_prune_socket_loop in H; [|by apply visiting_start] end;
    eauto 6 using wf_ready, wf_frame, frame_step_down.
Qed.

(** ** The selected pair and nomination *)

Lemma frame_bump a n : a_next_ptr a <= n -> frame a (a <| a_next_ptr := n |>).
Proof. by split. Qed.

Lemma frame_add_valid a sid cid c a' : nice_component_add_valid_candidate a sid cid c = Ok a' -> frame a a'.
Proof.
  unfold nice_component_add_valid_candidate. intros. walk; frame_solve.
  etrans; [|apply frame_bump]; [frame_solve|]. change (a_next_ptr (upd_component _ _ _ _)) with (a_next_ptr a). lia.
Qed.

(** The lists of discoveries and refreshes are not the invariant's. *)
Lemma frame_discovery_prune a prune : frame a (discovery_prune a prune).
Proof.
  unfold discovery_prune. destruct (a_discovery_list _); [|by split].
  unfold discovery_free. destruct (a_discovery_timer _); by split.
Qed.

Lemma frame_removed a d a' : on_refresh_removed a d = Ok a' -> frame a a'.
Proof. unfold on_refresh_removed. intros. walk; by split. Qed.

Lemma frame_prune_loop data l : forall a t n n' a', prune_loop a data t n l = (n', a') -> frame a a'.
Proof.
  induction l as [|r l IH]; intros a t n n' a' H; cbn [prune_loop] in H; [by injection H as _ <-|].
  destruct (cr_disposing r); [by eauto|]. apply IH in H. etrans; [|exact H]. by split.
Qed.

Lemma frame_prune_async a l cb a' : refresh_prune_async a l cb = Ok a' -> frame a a'.
Proof.
  unfold refresh_prune_async. destruct (prune_loop _ _ _ _ _) as [n a1] eqn:Hl. apply frame_prune_loop in Hl.
  intros H. transitivity (a <| a_next_ptr := a_next_ptr a + 1 |>); [apply frame_bump; lia|]. etrans; [exact Hl|].
  destruct (n =? 0); [apply frame_removed in H|inv_res]; [etrans; [|exact H]|]; by split.
Qed.

Lemma wf_update_selected a sid cid pair a' : wf a -> nice_component_update_selected_pair a sid cid pair = Ok a' -> wf a'.
Proof.
  intros W H. unfold nice_component_update_selected_pair, discovery_prune_socket, refresh_prune_candidate_async in H.
  walk; eauto 9 using wf_frame, wf_prune_socket, frame_add_valid, frame_upd_component, frame_discovery_prune, frame_prune_async.
Qed.

Section selected.
Context {K : Keepalive} {KF : KeepaliveFrame}.

Lemma wf_selected a sid cid p a' : wf a -> conn_check_update_selected_pair a sid cid p = Ok a' -> wf a'.
Proof.
  intros W H. unfold conn_check_update_selected_pair in H.
  walk; eauto 8 using wf_frame, wf_update_selected, frame_log.
Qed.

Lemma wf_mark_pair a sid cid p r a' : wf a -> mark_pair a sid cid p = Ok (r, a') -> wf a'.
Proof.
  intros W H. unfold mark_pair in H. cbv zeta in H. inv_res. clear Ha0.
  assert (W3 : wf a3) by (clear -KF W Ha2; walk; eauto using wf_frame).
  assert (W4 : wf a4) by (clear -KF W3 Ha3; walk; eauto using wf_frame).
  assert (W5 : wf a5) by (clear -KF W4 Ha4; walk; eauto 8 using wf_frame, wf_selected).
  clear -KF W5 H. walk; eauto using wf_ready.
Qed.

Lemma wf_mark_loop n sid cid lc rc : forall a i r r' a',
  wf a -> mark_loop n a sid cid lc rc i r = Ok (r', a') -> wf a'.
Proof.
  induction n as [|n IH]; intros a i r r' a' W H; cbn [mark_loop] in H; walk; try done.
  - eapply IH, H. by eapply wf_mark_pair.
  - by eapply IH, H.
Qed.

Lemma wf_mark_nominated a sid cid lc rc r a' : wf a -> priv_mark_pair_nominated a sid cid lc rc = Ok (r, a') -> wf a'.
Proof. intros W H. unfold priv_mark_pair_nominated in H. walk; eauto using wf_mark_loop. Qed.

End selected.

Lemma frame_failed_components sid n : forall a c a', failed_components_loop a sid c n = Ok a' -> frame a a'.
Proof.
  induction n as [|n IH]; intros a c a' H; cbn [failed_components_loop] in H; walk; [done|..];
    try (apply IH in H; frame_solve).
Qed.

(** ** New pairs *)

Lemma insert_sorted_ok a p x l : (forall q, q ∈ l -> is_Some (a_pairs a !! q)) -> exists k, insert_sorted a p x l = Ok k.
Proof.
  induction l as [|q l IH]; intros Hl; cbn; [eauto|]. destruct (Hl q) as [y Hy]; [by left|].
  rewrite (deref_ok _ _ _ Hy). cbn [mbind res_bind]. destruct (0 <? _); [|eauto].
  destruct IH as [k ->]; [intros; apply Hl; by right|]. cbn. eauto.
Qed.

Lemma insert_sorted_perm a p x l k : insert_sorted a p x l = Ok k -> k ≡ₚ p :: l.
Proof.
  revert k. induction l as [|q l IH]; intros k H; cbn in H; walk; [done| |done].
  rewrite (IH _ Ha0). apply Permutation_swap.
Qed.

Lemma compare_pos x y : (0 <? conn_check_compare x y) = (cp_priority x <? cp_priority y).
Proof. unfold conn_check_compare. destruct (Z.ltb_spec (cp_priority y) (cp_priority x)), (Z.ltb_spec (cp_priority x) (cp_priority y)); (done || lia). Qed.

(** The list stays sorted in any heap that has the old pairs and the new one. *)
Lemma insert_sorted_sorted (h : gmap Z CandidateCheckPair) a p x l k :
  h !! p = Some x -> (forall q y, q ∈ l -> a_pairs a !! q = Some y -> h !! q = Some y) ->
  StronglySorted (above h) l -> insert_sorted a p x l = Ok k -> StronglySorted (above h) k.
Proof.
  intros Hp. revert k. induction l as [|q l IH]; intros k Hh Hs H; cbn in H; inv_res.
  - by repeat constructor.
  - apply deref_inv in Ha. assert (Hq : h !! q = Some a0) by (apply Hh; [by left|done]).
    inversion Hs as [|? ? Hs' Hql]; subst. rewrite compare_pos in H.
    assert (forall r, r ∈ l -> prio_at h r <= prio_at h q) as Hbelow by (intros r Hr; by eapply Forall_forall in Hql).
    assert (prio_at h p = cp_priority x /\ prio_at h q = cp_priority a0) as [Ep Eq] by (unfold prio_at; by rewrite Hp, Hq).
    destruct (Z.ltb_spec (cp_priority x) (cp_priority a0)); inv_res.
    + pose proof (insert_sorted_perm _ _ _ _ _ Ha0) as Hperm. constructor.
      * apply IH; [|done..]. intros r y Hr. apply Hh. by right.
      * apply Forall_forall. intros r. rewrite Hperm, elem_of_cons. unfold above. intros [->|Hr]; [lia|]. by apply Hbelow.
    + constructor; [done|]. apply Forall_forall. intros r. rewrite elem_of_cons. unfold above.
      intros [->|Hr]; [lia|]. specialize (Hbelow _ Hr). lia.
Qed.

Lemma flat_set_const k sid l p : NoDup l.*1 -> sid ∈ l.*1 -> k ≡ₚ p :: assoc sid l ->
  flat_map snd (set_list (fun _ => k) sid l) ≡ₚ p :: flat_map snd l.
Proof.
  induction l as [|[j m] l IH]; cbn; [by intros _ ?%elem_of_nil|]. rewrite NoDup_cons, elem_of_cons.
  intros [Hj Hl] Hin Hk. destruct (Z.eqb_spec j sid) as [->|]; cbn.
  - by rewrite Hk.
  - rewrite IH; [by rewrite Permutation_middle|done| |done]. destruct Hin as [->|]; done.
Qed.

Lemma wf_add_pair a sid x p a' :
  wf a -> cp_stream_id x = sid ->
  cp_priority x = agent_candidate_pair_priority (a_controlling_mode a) (cp_local x) (cp_remote x) ->
  add_pair a sid x = Ok (p, a') -> wf a' /\ a_pairs a' = <[p := x]> (a_pairs a) /\ p ∈ all_checks a' /\ p = a_next_ptr a.
Proof.
  intros W Hsid Hprio H. unfold add_pair in H. cbv zeta in H. inv_res.
  pose proof Ha as Hs%the_stream_inv%find_stream_lists. destruct Hs as (Hin & Hid & _).
  pose proof (wf_checks_of _ _ _ W Hin) as Hc. rewrite checks_of_assoc in Hc. rename a1 into k.
  pose proof (insert_sorted_perm _ _ _ _ _ Ha0) as Hperm. set (p := a_next_ptr a) in *. set (sid := cp_stream_id x) in *.
  set (a1 := upd_stream _ _ _). assert (Hl : lists a1 = set_list (fun _ => k) sid (lists a)).
  { unfold a1. by rewrite (lists_upd_list _ sid (fun _ => k)). }
  assert (Hflat : all_checks a1 ≡ₚ p :: all_checks a).
  { rewrite !all_checks_lists, Hl. apply flat_set_const; [apply W| |by rewrite Hc]. apply list_elem_of_fmap. by exists (sid, str_conncheck_list a0). }
  assert (Hp : a_pairs a !! p = None).
  { destruct (a_pairs a !! p) eqn:E; [|done]. apply (wf_fresh _ W) in E. unfold p in E. lia. }
  assert (Hnew : p ∉ all_checks a) by (intros [y Hy]%(wf_lookup _ _ W); congruence).
  assert (Hh : a_pairs a1 = <[p := x]> (a_pairs a)) by done.
  assert (Hold : forall q, q ∈ all_checks a -> a_pairs a1 !! q = a_pairs a !! q).
  { intros q Hq. rewrite Hh. apply lookup_insert_ne. congruence. }
  assert (Hlist : forall i l, (i, l) ∈ lists a1 -> (i <> sid /\ (i, l) ∈ lists a) \/ (i = sid /\ l = k)).
  { intros i l. rewrite Hl. intros [?|(-> & k' & _ & ->)]%set_list_elem; [by left|by right|apply W]. }
  split; [|split; [done|split; [rewrite Hflat; by left|done]]]. split.
  - rewrite Hl, set_list_fst. apply W.
  - rewrite Hflat. apply NoDup_cons. split; [done|apply W].
  - intros q y. rewrite Hh, Hflat, elem_of_cons. intros [[-> _]|[_ ?]]%lookup_insert_Some; [by left|]. right. by eapply wf_listed.
  - intros i l q [[_ Hil]|[-> ->]]%Hlist Hq.
    + eapply pair_ok_key, (wf_pairs _ W _ _ _ Hil Hq); [done|]. rewrite Hold; [done|]. apply elem_all_checks. eauto.
    + rewrite Hperm, elem_of_cons in Hq. destruct Hq as [->|Hq].
      * exists x. by rewrite Hh, lookup_insert_eq.
      * eapply pair_ok_key, (wf_pairs _ W _ _ _ Hin Hq); [done|]. rewrite Hold; [done|]. apply elem_all_checks. eauto.
  - assert (Hsort : forall i l, (i, l) ∈ lists a -> StronglySorted (above (a_pairs a1)) l).
    { intros i l Hil. eapply StronglySorted_weaken, (wf_sorted _ W _ _ Hil). intros q r Hq Hr. unfold above, prio_at.
      rewrite !Hold; [done|apply elem_all_checks; eauto..]. }
    intros i l [[_ Hil]|[-> ->]]%Hlist; [eauto|]. eapply insert_sorted_sorted, Ha0.
    + rewrite Hh. apply lookup_insert_eq.
    + intros q y Hq. rewrite Hold; [done|]. apply elem_all_checks. eauto.
    + eauto.
  - intros q y. rewrite Hh. change (a_next_ptr a1) with (p + 1).
    intros [[-> _]|[_ Hy]]%lookup_insert_Some; [lia|]. apply (wf_fresh _ W) in Hy. unfold p. lia.
  - intros q Hq. rewrite Hflat. right. by apply (wf_queue _ W).
  - apply W.
  - apply W.
  - rewrite Hl, set_list_fst. apply W.
Qed.

Lemma wf_limit_loop sid pair l : forall a n d d' a', visiting a sid l -> limit_loop a sid pair l n d = Ok (d', a') -> wf a'.
Proof.
  induction l as [|p l IH]; intros a n d d' a' V H; cbn [limit_loop] in H; cbv zeta in H; walk; [apply V|..];
    (eapply IH; [|exact H]); eauto using visiting_skip, visiting_free.
Qed.

Lemma wf_limit a sid p r a' : wf a -> priv_limit_conn_check_list_size a sid p = Ok (r, a') -> wf a'.
Proof.
  intros W H. unfold priv_limit_conn_check_list_size in H. inv_res. eapply wf_limit_loop, H. by apply visiting_start.
Qed.

(** A pair that the limit did not report as deleted is still there. *)
Lemma limit_loop_keeps sid pair l : forall a n d a',
  visiting a sid l -> limit_loop a sid pair l n d = Ok (false, a') -> pair ∈ all_checks a -> pair ∈ all_checks a' /\ d = false.
Proof.
  induction l as [|p l IH]; intros a n d a' V H Hp; cbn [limit_loop] in H; cbv zeta in H; walk; [done| |eauto using visiting_skip].
  destruct (visiting_head _ _ _ _ V) as [Hin Hx]. rewrite (free_and_delete_eq _ _ _ Hx) in Ha0. inv_res.
  pose proof (IH _ _ _ _ (visiting_drop _ _ _ _ V) H) as Hd. destruct (Z.eqb_spec p pair) as [->|].
  - rewrite orb_true_r in H. exfalso. clear -H. revert H. generalize (drop_pair a sid pair), (n + 1). clear a n.
    induction l as [|q l IH]; intros a n H; cbn in H; walk; [done| |]; eauto.
  - rewrite orb_false_r in Hd. apply Hd. apply drop_listed; [apply V|done|]. split; congruence.
Qed.

Ltac branch H := match type of H with (if ?b then _ else _) = _ => destruct b end.

Section pairs.
Context {N : NetEnv}.

Lemma wf_add_new a sid cid l r st p a' : wf a -> priv_add_new_check_pair a sid cid l r st = Ok (p, a') ->
  wf a' /\ (forall q, p = Some q -> q ∈ all_checks a').
Proof.
  intros W H. unfold priv_add_new_check_pair in H. cbv zeta in H. inv_res.
  destruct (negb _ && _); inv_res; [by split|]. destruct a2 as [q a2]. inv_res.
  apply wf_add_pair in Ha1 as (W2 & _ & Hq & _); [|done..].
  assert (F : frame a2 a3).
  { clear -Ha2. destruct (bool_decide _); inv_res; [apply frame_unfreeze_maybe in Ha2|]; frame_solve. }
  assert (W3 : wf a3) by eauto using wf_frame.
  assert (Hq3 : q ∈ all_checks a3) by (rewrite all_checks_lists, (fr_lists _ _ F), <-all_checks_lists; done).
  clear -W3 Hq3 H. destruct (bool_decide _); inv_res.
  - destruct a as [d a4]. inv_res. split; [by eapply wf_limit|]. intros q'. destruct d; [done|]. intros [= ->].
    unfold priv_limit_conn_check_list_size in Ha. inv_res.
    eapply limit_loop_keeps in Ha as [? _]; [done|by apply visiting_start|done].
  - split; [done|]. by intros q' [= ->].
Qed.

Lemma wf_add_matched a sid cid l r st p a' :
  wf a -> priv_conn_check_add_for_candidate_pair_matched a sid cid l r st = Ok (p, a') ->
  wf a' /\ (forall q, p = Some q -> q ∈ all_checks a').
Proof.
  intros W H. unfold priv_conn_check_add_for_candidate_pair_matched in H. inv_res. destruct a0 as [np a1].
  apply wf_add_new in Ha as [W1 Hq]; [|done]. destruct np as [q|]; inv_res; [|by split].
  assert (F : frame a1 a') by (clear -Ha0; walk; frame_solve). split; [by eapply wf_frame|].
  intros q' [= ->]. rewrite all_checks_lists, (fr_lists _ _ F), <-all_checks_lists. auto.
Qed.

Lemma wf_add_for_pair a sid cid l r b a' : wf a -> conn_check_add_for_candidate_pair a sid cid l r = Ok (b, a') -> wf a'.
Proof.
  intros W H. unfold conn_check_add_for_candidate_pair in H. cbv zeta in H.
  walk; try done. by eapply wf_add_matched in Ha0 as [? _].
Qed.

Lemma wf_add_for_candidate a sid cid r n a' : wf a -> conn_check_add_for_candidate a sid cid r = Ok (n, a') -> wf a'.
Proof.
  intros W H. unfold conn_check_add_for_candidate in H. branch H; inv_res; [done|]. clear Ha. revert a W H. generalize 0.
  induction (co_local_candidates a0) as [|l ls IH]; intros m a W H; cbn in H; [by inv_res|].
  branch H; [by eauto|]. inv_res. destruct a1. eauto using wf_add_for_pair.
Qed.

Lemma wf_add_for_local a sid cid l n a' : wf a -> conn_check_add_for_local_candidate a sid cid l = Ok (n, a') -> wf a'.
Proof.
  intros W H. unfold conn_check_add_for_local_candidate in H. branch H; inv_res; [done|]. clear Ha. revert a W H. generalize 0.
  induction (co_remote_candidates a0) as [|r ls IH]; intros m a W H; cbn in H; [by inv_res|].
  inv_res. destruct a1. eauto using wf_add_for_pair.
Qed.
End pairs.

(** ** Changing the role *)

(** The part of the invariant that does not speak of priorities. *)
Record shaped (a : NiceAgent) : Prop := {
  sh_ids : NoDup (lists a).*1;
  sh_nodup : NoDup (all_checks a);
  sh_listed : forall p x, a_pairs a !! p = Some x -> p ∈ all_checks a;
  sh_pairs : forall sid l p, (sid, l) ∈ lists a -> p ∈ l -> exists x, a_pairs a !! p = Some x /\ cp_stream_id x = sid;
  sh_fresh : forall p x, a_pairs a !! p = Some x -> p < a_next_ptr a;
  sh_queue : forall p, p ∈ a_triggered_check_queue a -> p ∈ all_checks a;
  sh_queue_nodup : NoDup (a_triggered_check_queue a);
  sh_no_renomination : a_support_renomination a = false;
  sh_next_stream : forall i, i ∈ (lists a).*1 -> i < a_next_stream_id a
}.

(** The part that does, for one stream. *)
Definition ordered (a : NiceAgent) (sid : Z) : Prop :=
  forall l, (sid, l) ∈ lists a -> (forall p, p ∈ l -> pair_ok a sid p) /\ StronglySorted (above (a_pairs a)) l.

Lemma wf_split a : wf a <-> shaped a /\ forall sid, ordered a sid.
Proof.
  split.
  - intros W. split; [split; try apply W|].
    + intros sid l p Hl Hp. destruct (wf_pairs _ W _ _ _ Hl Hp) as (x & ? & ? & _). by exists x.
    + intros sid l Hl. split; [intros p Hp; by eapply wf_pairs|by eapply wf_sorted].
  - intros [S O]. split; try apply S.
    + intros sid l p Hl Hp. by apply (O sid l Hl).
    + intros sid l Hl. by apply (O sid l Hl).
Qed.

Definition reprio (control : bool) (x : CandidateCheckPair) : CandidateCheckPair :=
  x <| cp_priority := agent_candidate_pair_priority control (cp_local x) (cp_remote x) |>.

Lemma reprio_idem b x : reprio b (reprio b x) = reprio b x.
Proof. by destruct x. Qed.

Lemma recalculate_loop_spec l : forall a, (forall p, p ∈ l -> is_Some (a_pairs a !! p)) ->
  exists h, recalculate_loop a l = Ok (a <| a_pairs := h |>) /\
    forall p, h !! p = if decide (p ∈ l) then reprio (a_controlling_mode a) <$> a_pairs a !! p else a_pairs a !! p.
Proof.
  induction l as [|q l IH]; intros a Hl; cbn [recalculate_loop].
  - exists (a_pairs a). split; [by destruct a|]. intros p. by rewrite decide_False by apply not_elem_of_nil.
  - destruct (Hl q) as [x Hx]; [by left|]. rewrite (deref_ok _ _ _ Hx). cbn [mbind res_bind].
    rewrite (modify_ok _ _ _ _ Hx). cbn [mbind res_bind]. set (a1 := a <| a_pairs := _ |>).
    destruct (IH a1) as (h & -> & Hh).
    { intros p Hp. change (a_pairs a1) with (<[q := reprio (a_controlling_mode a) x]> (a_pairs a)).
      apply lookup_insert_is_Some. destruct (decide (q = p)); [by left|right; split; [done|apply Hl; by right]]. }
    exists h. split; [done|]. intros p. rewrite Hh.
    change (a_pairs a1) with (<[q := reprio (a_controlling_mode a) x]> (a_pairs a)).
    change (a_controlling_mode a1) with (a_controlling_mode a).
    destruct (decide (p = q)) as [->|Hne].
    + rewrite lookup_insert_eq, Hx, (decide_True (P := q ∈ q :: l)) by (by left). cbn.
      destruct (decide (q ∈ l)); by rewrite ?reprio_idem.
    + rewrite lookup_insert_ne by done. destruct (decide (p ∈ l)).
      * by rewrite decide_True by (by right).
      * by rewrite decide_False by (rewrite elem_of_cons; tauto).
Qed.

Lemma sort_pairs_spec a l : (forall p, p ∈ l -> is_Some (a_pairs a !! p)) ->
  exists k, sort_pairs a l = Ok k /\ k ≡ₚ l /\ StronglySorted (above (a_pairs a)) k.
Proof.
  induction l as [|q l IH]; intros Hl; cbn [sort_pairs]; [eexists; repeat split; constructor|].
  destruct IH as (k & -> & Hk & Hs); [intros; apply Hl; by right|]. destruct (Hl q) as [x Hx]; [by left|].
  cbn [mbind res_bind]. rewrite (deref_ok _ _ _ Hx). cbn [mbind res_bind].
  destruct (insert_sorted_ok a q x k) as [m Hm]; [intros p; rewrite Hk; intros; apply Hl; by right|].
  exists m. split; [done|]. split; [by rewrite (insert_sorted_perm _ _ _ _ _ Hm), Hk|].
  eapply insert_sorted_sorted, Hm; done.
Qed.

Definition permuted : list (Z * list Z) -> list (Z * list Z) -> Prop := Forall2 (fun x y => x.1 = y.1 /\ x.2 ≡ₚ y.2).

#[global] Instance permuted_preorder : PreOrder permuted.
Proof.
  split.
  - intros l. apply Forall_Forall2_diag, Forall_true. by intros [].
  - intros l k m H. revert m. induction H as [|x y l k [E P] _ IH]; intros m Hm; inversion Hm as [|? z ? m' [E' P'] ? ]; subst; constructor; [|by apply IH].
    split; [congruence|by rewrite P].
Qed.

Lemma permuted_flat l k : permuted l k -> flat_map snd k ≡ₚ flat_map snd l.
Proof. induction 1 as [|x y l k [_ P] _ IH]; [done|]. cbn. by rewrite IH, P. Qed.

Lemma permuted_ids l k : permuted l k -> k.*1 = l.*1.
Proof. induction 1 as [|x y l k [E _] _ IH]; [done|]. cbn. congruence. Qed.

Lemma permuted_elem l k i m : permuted l k -> (i, m) ∈ k -> exists m', (i, m') ∈ l /\ m ≡ₚ m'.
Proof.
  induction 1 as [|[j x] [j' y] l k [E P] _ IH]; [by intros ?%elem_of_nil|]. cbn in E, P. subst j'. rewrite elem_of_cons.
  intros [[= -> ->]|?]; [exists x; split; [by left|done]|]. destruct IH as (m' & ? & ?); [done|]. exists m'. split; [by right|done].
Qed.

Lemma permuted_set k sid l : k ≡ₚ assoc sid l -> permuted l (set_list (fun _ => k) sid l).
Proof.
  induction l as [|[j m] l IH]; cbn; intros Hk; [done|]. destruct (j =? sid); apply Forall2_cons; (split; [by split|]).
  - apply (reflexivity (R := permuted)).
  - by apply IH.
Qed.

Lemma shaped_permuted a a' : shaped a -> permuted (lists a) (lists a') ->
  (forall p, cp_stream_id <$> a_pairs a' !! p = cp_stream_id <$> a_pairs a !! p) ->
  a_next_ptr a' = a_next_ptr a -> a_triggered_check_queue a' = a_triggered_check_queue a ->
  a_support_renomination a' = a_support_renomination a -> a_next_stream_id a' = a_next_stream_id a -> shaped a'.
Proof.
  intros S P Hh Hn Hq Hf Hs. assert (Hc : all_checks a' ≡ₚ all_checks a) by (rewrite !all_checks_lists; by apply permuted_flat).
  assert (Hinv : forall p x, a_pairs a' !! p = Some x -> exists y, a_pairs a !! p = Some y /\ cp_stream_id y = cp_stream_id x).
  { intros p x Hx. specialize (Hh p). rewrite Hx in Hh. destruct (a_pairs a !! p) as [y|]; [|done]. cbn in Hh. exists y. split; congruence. }
  split; rewrite ?Hn, ?Hq, ?Hf, ?Hs.
  - rewrite (permuted_ids _ _ P). apply S.
  - rewrite Hc. apply S.
  - intros p x (y & Hy & _)%Hinv. rewrite Hc. by eapply sh_listed.
  - intros sid l p Hl Hp. destruct (permuted_elem _ _ _ _ P Hl) as (l' & Hl' & Hperm). rewrite Hperm in Hp.
    destruct (sh_pairs _ S _ _ _ Hl' Hp) as (x & Hx & E). specialize (Hh p). rewrite Hx in Hh.
    destruct (a_pairs a' !! p) as [y|]; [|done]. cbn in Hh. exists y. split; congruence.
  - intros p x (y & Hy & _)%Hinv. by eapply sh_fresh.
  - intros p Hp. rewrite Hc. by apply S.
  - apply S.
  - apply S.
  - rewrite (permuted_ids _ _ P). apply S.
Qed.

Lemma sh_lookup a sid l p : shaped a -> (sid, l) ∈ lists a -> p ∈ l -> is_Some (a_pairs a !! p).
Proof. intros S Hl Hp. destruct (sh_pairs _ S _ _ _ Hl Hp) as (x & ? & _). eauto. Qed.

(** Pairs of different streams are different. *)
Lemma sh_disjoint a i l j k p : shaped a -> (i, l) ∈ lists a -> (j, k) ∈ lists a -> p ∈ l -> p ∈ k -> i = j.
Proof.
  intros S Hl Hk Hp Hp'. destruct (sh_pairs _ S _ _ _ Hl Hp) as (x & Hx & <-).
  destruct (sh_pairs _ S _ _ _ Hk Hp') as (y & Hy & <-). congruence.
Qed.

(** What recalculating the priorities of the streams [ss] does. *)
Record recalculated (ss : list NiceStream) (a a' : NiceAgent) : Prop := {
  rc_shaped : shaped a';
  rc_role : a_controlling_mode a' = a_controlling_mode a;
  rc_lists : permuted (lists a) (lists a');
  rc_others : forall sid l, sid ∉ str_id <$> ss -> (sid, l) ∈ lists a -> (sid, l) ∈ lists a';
  rc_heap : forall p, a_pairs a' !! p =
    if decide (p ∈ flat_map str_conncheck_list ss) then reprio (a_controlling_mode a) <$> a_pairs a !! p else a_pairs a !! p;
  rc_ordered : forall sid, sid ∈ str_id <$> ss \/ ordered a sid -> ordered a' sid
}.

Lemma set_list_other f sid l i k : i <> sid -> (i, k) ∈ l -> (i, k) ∈ set_list f sid l.
Proof.
  intros Hne. induction l as [|[j m] l IH]; [done|]. cbn. rewrite elem_of_cons. destruct (Z.eqb_spec j sid) as [->|]; rewrite elem_of_cons.
  - intros [[= -> ->]|?]; [done|by right].
  - intros [[= -> ->]|?]; [by left|right; auto].
Qed.

Lemma recalculate_stream_spec a s : shaped a -> (str_id s, str_conncheck_list s) ∈ lists a ->
  exists a', recalculate_stream a s = Ok a' /\ recalculated [s] a a'.
Proof.
  intros S Hin. unfold recalculate_stream. set (sid := str_id s) in *. set (l := str_conncheck_list s) in *.
  destruct (recalculate_loop_spec l a) as (h & -> & Hh); [intros; by eapply sh_lookup|]. cbn [mbind res_bind].
  set (a1 := a <| a_pairs := h |>).
  assert (Hlive : forall p, p ∈ l -> is_Some (a_pairs a1 !! p)).
  { intros p Hp. change (a_pairs a1) with h. rewrite Hh, decide_True by done. apply fmap_is_Some. by eapply sh_lookup. }
  destruct (sort_pairs_spec a1 l Hlive) as (k & -> & Hk & Hs). cbn [mbind res_bind]. eexists. split; [reflexivity|].
  set (a2 := upd_stream _ _ _). assert (Hl : lists a2 = set_list (fun _ => k) sid (lists a)).
  { unfold a2. by rewrite (lists_upd_list a1 sid (fun _ => k)). }
  assert (Hassoc : assoc sid (lists a) = l) by (apply assoc_elem; [apply S|done]).
  assert (Hperm : permuted (lists a) (lists a2)) by (rewrite Hl; apply permuted_set; by rewrite Hassoc).
  assert (Hheap : forall p, a_pairs a2 !! p = if decide (p ∈ l) then reprio (a_controlling_mode a) <$> a_pairs a !! p else a_pairs a !! p) by done.
  split; cbn [flat_map fmap list_fmap]; rewrite ?app_nil_r; try done.
  - eapply shaped_permuted; try done. intros p. rewrite Hheap. destruct (decide _); [|done]. by destruct (a_pairs a !! p).
  - intros i m Hi Him. rewrite Hl. apply set_list_other; [|done]. intros ->. apply Hi. by left.
  - intros i Hi m Him. rewrite Hl in Him. apply set_list_elem in Him as [[Hne Him]|(-> & m' & Hm' & ->)]; [| |apply S].
    + destruct Hi as [Hi|Ho]; [by apply list_elem_of_singleton in Hi|]. destruct (Ho m Him) as [Hp Hsm].
      assert (Hsame : forall p, p ∈ m -> a_pairs a2 !! p = a_pairs a !! p).
      { intros p Hpm. rewrite Hheap, decide_False; [done|]. intros Hpl. by pose proof (sh_disjoint a i m sid l p S Him Hin Hpm Hpl). }
      split; [intros p Hpm; eapply pair_ok_key, Hp, Hpm; [done|]; by rewrite Hsame|].
      eapply StronglySorted_weaken, Hsm. intros p q Hpm Hqm. unfold above, prio_at. by rewrite !Hsame.
    + split; [|done]. intros p. rewrite Hk. intros Hpl. destruct (sh_pairs _ S _ _ _ Hin Hpl) as (x & Hx & E).
      exists (reprio (a_controlling_mode a) x). rewrite Hheap, decide_True, Hx by done. by destruct x.
Qed.
