(* ===== verification/DiscoveryInv.v ===== *)
(** * The local candidates of an agent

    Every way of adding a candidate keeps the candidates of a component free
    of redundant ones, and keeps foundations in correspondence with the
    type, transport and base address of the candidates. *)
From S2P Require Import Prelude CMem StunTypes StunMessage StunAgent StunAgentProps StunTimer Address Candidate IceTypes IceEnv CheckList CheckDriver Discovery CheckInv.
Local Open Scope Z_scope.

(** ** Steps that leave the local candidates alone *)

(** The local candidates by stream and component. *)
Definition locals (a : NiceAgent) : list (Z * list (Z * list NiceCandidate)) :=
  (fun s => (str_id s, (fun c => (co_id c, co_local_candidates c)) <$> str_components s)) <$> a_streams a.

Record quiet (a a' : NiceAgent) : Prop := {
  qu_locals : locals a' = locals a;
  qu_next_id : a_next_candidate_id a' = a_next_candidate_id a;
  qu_compatibility : a_compatibility a' = a_compatibility a;
  qu_next_ptr : a_next_ptr a <= a_next_ptr a'
}.

#[global] Instance quiet_preorder : PreOrder quiet.
Proof.
  split.
  - intros a. by split.
  - intros a b c [] []. split; try congruence; lia.
Qed.

Lemma fmap_upd_first {A B} (g : A -> B) P f l : (forall x, g (f x) = g x) -> g <$> upd_first P f l = g <$> l.
Proof. intros Hf. induction l as [|x l IH]; cbn; [done|]. destruct (P x); cbn; by rewrite ?Hf, ?IH. Qed.

Lemma quiet_upd_component a sid cid f :
  (forall c, co_id (f c) = co_id c /\ co_local_candidates (f c) = co_local_candidates c) -> quiet a (upd_component a sid cid f).
Proof.
  intros Hf. split; [|done..]. unfold locals, upd_component, upd_stream. cbn [a_streams set_field set_a_streams].
  apply fmap_upd_first. intros s. cbn. f_equal. apply fmap_upd_first. intros c. by destruct (Hf c) as [-> ->].
Qed.

Lemma quiet_upd_list a sid l : quiet a (upd_stream a sid (fun s => s <| str_conncheck_list := l s |>)).
Proof. split; [|done..]. unfold locals, upd_stream. cbn [a_streams set_field set_a_streams]. by apply fmap_upd_first. Qed.

Lemma quiet_log e a : quiet a (log e a).
Proof. by split. Qed.

Lemma quiet_schedule_next a : quiet a (priv_schedule_next a).
Proof. unfold priv_schedule_next. destruct a, a_conncheck_timer, a_keepalive_timer; by split. Qed.

Lemma quiet_modify a p f a' : modify a p f = Ok a' -> quiet a a'.
Proof. intros (x & _ & ->)%modify_inv. by split. Qed.

Lemma quiet_signal a sid cid st a' : agent_signal_component_state_change a sid cid st = Ok a' -> quiet a a'.
Proof.
  unfold agent_signal_component_state_change. destruct (agent_find_component _ _ _) as [[? c]|]; [|intros; by inv_res].
  destruct (bool_decide _); intros H; inv_res; [done|].
  etrans; [apply (quiet_upd_component a sid cid (fun c => c <| co_state := st |>)); done|].
  etrans; [|apply quiet_log]. destruct (a_reliable _); [apply quiet_log|done].
Qed.

Ltac quiet_walk :=
  repeat (inv_res; match goal with
  | H : modify _ _ _ = Ok _ |- _ => apply quiet_modify in H
  | H : agent_signal_component_state_change _ _ _ _ = Ok _ |- _ => apply quiet_signal in H
  | H : (if ?b then _ else _) = Ok _ |- _ => destruct b
  | H : match ?x with _ => _ end = Ok _ |- _ => destruct x
  end); inv_res.

Ltac quiet_solve :=
  repeat match goal with
  | |- quiet ?a ?a => reflexivity
  | H : quiet ?b ?c |- quiet _ ?c => etrans; [|exact H]; clear H
  | |- quiet _ (log ?e ?b) => etrans; [|apply (quiet_log e b)]
  | |- quiet _ (priv_schedule_next ?b) => etrans; [|apply (quiet_schedule_next b)]
  end.

Lemma quiet_free_all a p c a' : priv_free_all_stun_transactions a p c = Ok a' -> quiet a a'.
Proof.
  unfold priv_free_all_stun_transactions. intros. quiet_walk; quiet_solve.
  all: try (apply quiet_upd_component; by intros).
Qed.

Lemma quiet_free_and_delete a sid p a' : free_and_delete a sid p = Ok a' -> quiet a a'.
Proof.
  unfold free_and_delete, candidate_check_pair_free, delete_link. intros. inv_res. apply quiet_free_all in Ha0.
  etrans; [|apply quiet_upd_list]. transitivity a1; [|by split]. etrans; [|exact Ha0]. by split.
Qed.

Lemma quiet_limit_loop sid p l : forall a n d d' a', limit_loop a sid p l n d = Ok (d', a') -> quiet a a'.
Proof.
  induction l as [|q l IH]; intros a n d d' a' H; cbn in H; inv_res; [done|].
  destruct (_ || _); inv_res; [|by eauto]. etrans; [by eapply quiet_free_and_delete|]. by eauto.
Qed.

Lemma quiet_unfreeze_maybe a p a' : priv_conn_check_unfreeze_maybe a p = Ok a' -> quiet a a'.
Proof.
  unfold priv_conn_check_unfreeze_maybe. intros H. inv_res. clear Ha Ha0. revert H. generalize (all_checks a). intros k. revert a.
  induction k as [|q k IH]; intros a H; cbn in H; inv_res; [done|]. apply IH in H. clear IH.
  destruct (_ && _); [unfold SET_PAIR_STATE in *|]; quiet_walk; quiet_solve.
Qed.

Lemma quiet_add_pair a sid x p a' : add_pair a sid x = Ok (p, a') -> quiet a a'.
Proof.
  unfold add_pair. intros. inv_res. etrans; [|apply quiet_upd_list]. split; try done. cbn. lia.
Qed.

Section pairs.
Context {N : NetEnv}.

Lemma quiet_add_new a sid cid l r st p a' : priv_add_new_check_pair a sid cid l r st = Ok (p, a') -> quiet a a'.
Proof.
  unfold priv_add_new_check_pair. intros H. inv_res. destruct (_ && _); inv_res; [done|]. destruct a2 as [q a2]. inv_res.
  apply quiet_add_pair in Ha1. etrans; [exact Ha1|]. etrans; [apply quiet_schedule_next|]. clear Ha1.
  assert (Q : quiet (priv_schedule_next a2) a3).
  { destruct (bool_decide (st = _)); [by eapply quiet_unfreeze_maybe|]. by inv_res. }
  etrans; [exact Q|]. clear -H. unfold priv_limit_conn_check_list_size in H. branch H; inv_res; [|done].
  destruct a as [d a4]. inv_res. by eapply quiet_limit_loop.
Qed.

Lemma quiet_add_for_local a sid cid l n a' : conn_check_add_for_local_candidate a sid cid l = Ok (n, a') -> quiet a a'.
Proof.
  unfold conn_check_add_for_local_candidate. intros H. branch H; inv_res; [done|]. clear Ha. revert a H. generalize 0.
  induction (co_remote_candidates a0) as [|r ls IH]; intros m a H; cbn in H; [by inv_res|].
  inv_res. destruct a1 as [b a1]. etrans; [|by eapply IH]. clear -Ha.
  unfold conn_check_add_for_candidate_pair, priv_conn_check_add_for_candidate_pair_matched in Ha. cbv zeta in Ha.
  repeat (branch Ha; [by inv_res|]). branch Ha; [|by inv_res]. inv_res. destruct a0; inv_res; [done|].
  destruct a2 as [np a2], a0 as [np' a3]. inv_res. apply quiet_add_new in Ha2. quiet_walk; quiet_solve.
Qed.
End pairs.

(** ** Numbers in foundations *)

Definition digits_value (l : list Z) : Z := fold_left (fun v d => v * 10 + (d - 48)) l 0.

Lemma digits_value_snoc l d : digits_value (l ++ [d]) = digits_value l * 10 + (d - 48).
Proof. unfold digits_value. by rewrite fold_left_app. Qed.

Lemma decimal_digits_value fuel n : 0 <= n < 10 ^ Z.of_nat fuel -> digits_value (decimal_digits fuel n) = n.
Proof.
  revert n. induction fuel as [|fuel IH]; intros n Hn; [cbn in *; unfold digits_value; cbn; lia|].
  cbn [decimal_digits]. rewrite digits_value_snoc. rewrite Nat2Z.inj_succ, Z.pow_succ_r in Hn by lia.
  destruct (Z.ltb_spec n 10).
  - change (digits_value []) with 0. rewrite Z.mod_small by lia. lia.
  - rewrite IH; [|split; [apply Z.div_pos; lia|apply Z.div_lt_upper_bound; lia]].
    pose proof (Z.div_mod n 10). lia.
Qed.

Lemma decimal_digits_length fuel n k : 0 <= n < 10 ^ Z.of_nat (S k) -> (length (decimal_digits fuel n) <= S k)%nat.
Proof.
  revert fuel n. induction k as [|k IH]; intros [|fuel] n Hn; cbn [decimal_digits length]; try lia; rewrite length_app; cbn [length].
  - destruct (Z.ltb_spec n 10); cbn; [lia|]. change (10 ^ Z.of_nat 1) with 10 in Hn. lia.
  - destruct (Z.ltb_spec n 10); cbn [length]; [lia|].
    assert (length (decimal_digits fuel (n / 10)) <= S k)%nat; [|lia]. apply IH.
    rewrite Nat2Z.inj_succ, Z.pow_succ_r in Hn by lia.
    split; [apply Z.div_pos; lia|apply Z.div_lt_upper_bound; lia].
Qed.

Lemma decimal_short n : 0 <= n < 2 ^ 32 -> (length (decimal n) <= 10)%nat.
Proof. intros. apply decimal_digits_length. change (10 ^ Z.of_nat 10) with 10000000000. lia. Qed.

Lemma decimal_inj n m : 0 <= n < 2 ^ 32 -> 0 <= m < 2 ^ 32 -> decimal n = decimal m -> n = m.
Proof.
  intros Hn Hm E. rewrite <-(decimal_digits_value 20 n), <-(decimal_digits_value 20 m).
  - unfold decimal in E. by rewrite E.
  - change (10 ^ Z.of_nat 20) with 100000000000000000000. lia.
  - change (10 ^ Z.of_nat 20) with 100000000000000000000. lia.
Qed.

Lemma foundation_text_short s : (length s <= 32)%nat -> foundation_text s = s.
Proof. intros. unfold foundation_text. by rewrite take_ge. Qed.

Lemma remote_foundation_eq n : 0 <= n < 2 ^ 32 -> remote_foundation n = [114; 101; 109; 111; 116; 101] ++ decimal n.
Proof. intros H%decimal_short. apply foundation_text_short. rewrite length_app. cbn [length]. lia. Qed.

Lemma remote_foundation_inj n m : 0 <= n < 2 ^ 32 -> 0 <= m < 2 ^ 32 -> remote_foundation n = remote_foundation m -> n = m.
Proof. intros ? ? E. rewrite !remote_foundation_eq in E by done. apply app_inv_head in E. by apply decimal_inj. Qed.

(** ** The next free foundation of a remote candidate *)

(** A remote candidate of [l] has the foundation ["remote%u"] of [n]. *)
Definition taken (l : list NiceCandidate) (n : Z) : Prop := exists cand, cand ∈ l /\ take 33 (c_foundation cand) = remote_foundation n.

Lemma taken_spec l n : existsb (fun cand => strncmp_eq (remote_foundation n) (c_foundation cand) NICE_CANDIDATE_MAX_FOUNDATION) l = true
  <-> taken l n.
Proof.
  rewrite existsb_exists. unfold taken, strncmp_eq. change (Z.to_nat NICE_CANDIDATE_MAX_FOUNDATION) with 33%nat.
  assert (E : take 33 (remote_foundation n) = remote_foundation n).
  { unfold remote_foundation, foundation_text. change (Z.to_nat (NICE_CANDIDATE_MAX_FOUNDATION - 1)) with 32%nat.
    by rewrite take_take. }
  rewrite E. split; intros (c & Hc & H); exists c; (split; [by apply list_elem_of_In|]).
  - by apply bool_decide_eq_true in H.
  - by apply bool_decide_eq_true.
Qed.

Lemma highest_loop_spec l fuel : forall h, 1 <= h -> h + Z.of_nat fuel < 2 ^ 32 ->
  match highest_loop fuel l h with
  | Ok n => h <= n < h + Z.of_nat fuel /\ ~ taken l n /\ forall m, h <= m < n -> taken l m
  | Fault _ => forall m, h <= m < h + Z.of_nat fuel -> taken l m
  end.
Proof.
  induction fuel as [|fuel IH]; intros h Hh Hf; cbn [highest_loop]; [lia|].
  pose proof (taken_spec l h) as T. destruct (existsb _ l).
  - rewrite u32_small by lia. specialize (IH (h + 1) ltac:(lia) ltac:(lia)).
    assert (Ht : taken l h) by by apply T.
    destruct (highest_loop _ _ _) as [n|].
    + destruct IH as (? & ? & Hm). split_and!; try lia; [done|]. intros m ?. destruct (decide (m = h)) as [->|]; [done|].
      apply Hm. lia.
    + intros m ?. destruct (decide (m = h)) as [->|]; [done|]. apply IH. lia.
  - split_and!; try lia. by intros ?%T.
Qed.

Lemma not_all_taken l : (Z.of_nat (length l)) + 2 < 2 ^ 32 -> ~ forall m, 1 <= m < 1 + Z.of_nat (S (length l)) -> taken l m.
Proof.
  intros Hl H. assert (S : (remote_foundation <$> seqZ 1 (Z.of_nat (S (length l)))) ⊆+ ((fun c => take 33 (c_foundation c)) <$> l)).
  { apply NoDup_submseteq.
    - apply NoDup_fmap_2_strong; [|apply NoDup_seqZ]. intros x y ?%elem_of_seqZ ?%elem_of_seqZ. apply remote_foundation_inj; lia.
    - intros f (m & -> & Hm%elem_of_seqZ)%list_elem_of_fmap. destruct (H m) as (c & Hc & <-); [lia|].
      apply list_elem_of_fmap. eauto. }
  apply submseteq_length in S. rewrite !length_fmap, length_seqZ in S. lia.
Qed.

(** The search for a free remote foundation terminates within one round
    more than there are remote candidates, and returns the smallest number
    whose ["remote%u"] no remote candidate of the component has. *)
Theorem remote_foundation_free c : zlen (co_remote_candidates c) + 2 < 2 ^ 32 ->
  exists n, priv_highest_remote_foundation c = Ok n /\ 1 <= n <= zlen (co_remote_candidates c) + 1 /\
    ~ taken (co_remote_candidates c) n /\ forall m, 1 <= m < n -> taken (co_remote_candidates c) m.
Proof.
  intros Hl. unfold priv_highest_remote_foundation, zlen in *. set (l := co_remote_candidates c) in *.
  pose proof (highest_loop_spec l (S (length l)) 1 ltac:(lia) ltac:(lia)) as H.
  destruct (highest_loop _ _ _) as [n|].
  - exists n. destruct H as (? & ? & ?). split_and!; try done; lia.
  - destruct (not_all_taken l); [lia|done].
Qed.

(** ** Bases *)

(** The IP address; an IPv6 address is [plain] when it has no scope. *)
Definition ip (a : NiceAddress) : option (Z + list Z) :=
  match a with
  | sockaddr_in _ x => Some (inl x)
  | sockaddr_in6 _ _ x _ => Some (inr x)
  | sockaddr_other _ => None
  end.
Definition plain (a : NiceAddress) : Prop :=
  match a with
  | sockaddr_in _ _ => True
  | sockaddr_in6 _ _ _ s => s = 0
  | sockaddr_other _ => False
  end.

Lemma equal_no_port_ip a b : plain a -> plain b -> nice_address_equal_no_port a b = true <-> ip a = ip b.
Proof.
  destruct a, b; cbn; intros Ha Hb; try done.
  - rewrite Z.eqb_eq. naive_solver.
  - subst. cbn. rewrite andb_true_r, bool_decide_eq_true. naive_solver.
Qed.

(** RFC 5245, section 4.1.1.3: the candidates whose foundations are to be the
    same.  The address that counts for a relayed candidate is its own, and
    its TURN server counts too. *)
Definition relevant_addr (c : NiceCandidate) : NiceAddress :=
  match c_type c with NICE_CANDIDATE_TYPE_RELAYED => c_addr c | _ => c_base_addr c end.
Definition server_ip (c : NiceCandidate) : option (option (Z + list Z)) := (fun t => ip (ts_server t)) <$> c_turn c.
Definition same_base (c d : NiceCandidate) : Prop :=
  c_type c = c_type d /\ c_transport c = c_transport d /\ ip (relevant_addr c) = ip (relevant_addr d) /\
  (c_type c = NICE_CANDIDATE_TYPE_RELAYED -> server_ip c = server_ip d).

#[global] Instance same_base_equivalence : Equivalence same_base.
Proof.
  split.
  - by intros c.
  - intros c d (? & ? & ? & H). split_and!; try congruence. intros. symmetry. apply H. congruence.
  - intros c d e (? & ? & ? & H) (? & ? & ? & H'). split_and!; try congruence. intros. rewrite H, H'; congruence.
Qed.

Section foundations.
(** The address of the TURN server object at a pointer. *)
Variable servers : Z -> NiceAddress.

Definition server_ok (t : TurnServer) : Prop := ts_server t = servers (ts_ptr t) /\ plain (ts_server t).
Definition cand_plain (c : NiceCandidate) : Prop := plain (relevant_addr c) /\ forall t, c_turn c = Some t -> server_ok t.

Lemma compare_turn_servers_ip t u : server_ok t -> server_ok u ->
  priv_compare_turn_servers (Some t) (Some u) = true <-> ip (ts_server t) = ip (ts_server u).
Proof.
  intros [Ht Pt] [Hu Pu]. cbn. rewrite orb_true_iff, Z.eqb_eq, equal_no_port_ip by done. split; [|auto].
  intros [E|E]; [|done]. by rewrite Ht, Hu, E.
Qed.

Lemma compare_servers c d : cand_plain c -> cand_plain d ->
  priv_compare_turn_servers (c_turn c) (c_turn d) = true <-> server_ip c = server_ip d.
Proof.
  intros [_ Hc] [_ Hd]. unfold server_ip. destruct (c_turn c) as [t|], (c_turn d) as [u|]; cbn [fmap option_fmap option_map].
  - rewrite compare_turn_servers_ip by auto. split; [by intros ->|by intros [=]].
  - by split.
  - by split.
  - by split.
Qed.

Lemma shares_foundation_spec a c d : a_compatibility a <> NICE_COMPATIBILITY_GOOGLE -> cand_plain c -> cand_plain d ->
  shares_foundation a c d = true <-> same_base c d.
Proof.
  intros Hg Hc Hd. unfold shares_foundation, same_base. cbv zeta.
  rewrite !andb_true_iff, !bool_decide_eq_true. rewrite (bool_decide_eq_false_2 _ Hg). cbn [negb].
  pose proof (compare_servers c d Hc Hd) as S. destruct Hc as [Hc _], Hd as [Hd _].
  pose proof (equal_no_port_ip _ _ Hc Hd) as E. unfold relevant_addr in *.
  split.
  - intros [[T Tr] H]. split; [done|]. split; [done|].
    destruct (decide (c_type c = NICE_CANDIDATE_TYPE_RELAYED)) as [R|R].
    + rewrite (bool_decide_eq_true_2 _ R), !andb_true_iff in H. destruct H as [[H1 H2] _]. rewrite <-T, R in *.
      split; [by apply E|by intros; apply S].
    + rewrite (bool_decide_eq_false_2 _ R) in H. split; [|done]. rewrite <-T in *. destruct (c_type c); try done; by apply E.
  - intros (T & Tr & Hip & Hs). split; [done|].
    destruct (decide (c_type c = NICE_CANDIDATE_TYPE_RELAYED)) as [R|R].
    + rewrite (bool_decide_eq_true_2 _ R), !andb_true_iff. rewrite <-T, R in *. split_and!; [by apply E|by apply S, Hs|done].
    + rewrite (bool_decide_eq_false_2 _ R). rewrite <-T in *. destruct (c_type c); try done; by apply E.
Qed.

(** ** The invariant *)

Record candidates_ok (a : NiceAgent) : Prop := {
  ck_google : a_compatibility a <> NICE_COMPATIBILITY_GOOGLE;
  ck_ids : 1 <= a_next_candidate_id a <= a_next_ptr a;
  ck_plain : forall c, c ∈ all_local_candidates a -> cand_plain c;
  ck_numbers : forall c, c ∈ all_local_candidates a -> exists k, 1 <= k < a_next_candidate_id a /\ c_foundation c = decimal k;
  ck_bases : forall c d, c ∈ all_local_candidates a -> d ∈ all_local_candidates a ->
    c_foundation c = c_foundation d <-> same_base c d;
  ck_pruned : forall i l j k, (i, l) ∈ locals a -> (j, k) ∈ l -> ForallOrdPairs (fun c d => redundant c d = false) k
}.

Lemma all_local_locals a : all_local_candidates a = flat_map (fun s => flat_map snd s.2) (locals a).
Proof.
  unfold all_local_candidates, locals. induction (a_streams a) as [|s l IH]; cbn; [done|]. rewrite IH. f_equal.
  clear. induction (str_components s) as [|c k IH]; cbn; [done|]. by rewrite IH.
Qed.

Lemma candidates_ok_quiet a a' : quiet a a' -> candidates_ok a -> candidates_ok a'.
Proof.
  intros Q C. assert (E : all_local_candidates a' = all_local_candidates a) by by rewrite !all_local_locals, (qu_locals _ _ Q).
  destruct Q, C. split; rewrite ?E; try congruence; try done; [lia|..].
  - intros c Hc. destruct (ck_numbers0 c Hc) as (k & ? & ?). exists k. split; [lia|done].
  - intros i l. rewrite qu_locals0. eauto.
Qed.

(** What adding [c] to a component needs. *)
Record fits (a : NiceAgent) (c : NiceCandidate) : Prop := {
  fit_plain : cand_plain c;
  fit_number : exists k, 1 <= k < a_next_candidate_id a /\ c_foundation c = decimal k;
  fit_bases : forall d, d ∈ all_local_candidates a -> c_foundation c = c_foundation d <-> same_base c d
}.

Lemma find_foundation_spec P c l r : find_foundation P c l = Ok r ->
  match r with Some n => n ∈ l /\ P n = true | None => forall n, n ∈ l -> P n = false end.
Proof.
  revert r. induction l as [|n l IH]; intros r H; cbn in H; inv_res; [by intros n Hn%not_elem_of_nil|].
  destruct (P n) eqn:Hn; inv_res; [split; [left|done]|]. apply IH in H. destruct r as [m|].
  - destruct H. split; [by right|done].
  - intros m [->|Hm]%elem_of_cons; auto.
Qed.

(** The fields of a candidate that the foundation is made from. *)
Definition same_origin (c d : NiceCandidate) : Prop :=
  c_type c = c_type d /\ c_transport c = c_transport d /\ c_addr c = c_addr d /\ c_base_addr c = c_base_addr d /\ c_turn c = c_turn d.

Lemma same_origin_base c d : same_origin c d -> same_base c d.
Proof. intros (E & ? & Ha & Hb & Ht). unfold same_base, relevant_addr, server_ip. by rewrite E, Ha, Hb, Ht. Qed.

Lemma same_origin_plain c d : same_origin c d -> cand_plain c -> cand_plain d.
Proof. intros (E & ? & Ha & Hb & Ht) [H1 H2]. unfold cand_plain, relevant_addr in *. by rewrite <-E, <-Ha, <-Hb, <-Ht. Qed.

Lemma copy_foundation_origin c n : same_origin c (copy_foundation c n) /\ c_foundation (copy_foundation c n) = foundation_text (c_foundation n).
Proof. unfold copy_foundation. destruct (c_username n), (c_password n); done. Qed.

Lemma assign_fits a c c' a' : candidates_ok a -> cand_plain c -> a_next_candidate_id a < a_next_ptr a -> a_next_ptr a < 2 ^ 32 ->
  priv_assign_foundation a c = Ok (c', a') ->
  candidates_ok a' /\ fits a' c' /\ same_origin c c' /\ a_next_ptr a' = a_next_ptr a.
Proof.
  intros C P Hid Hptr H. unfold priv_assign_foundation in H. inv_res. apply find_foundation_spec in Ha.
  destruct a0 as [n|]; inv_res.
  - destruct Ha as [Hn Hs]. destruct (copy_foundation_origin c n) as [O F].
    apply shares_foundation_spec in Hs; [|apply C|done|by apply (ck_plain _ C)].
    assert (F' : c_foundation (copy_foundation c n) = c_foundation n).
    { destruct (ck_numbers _ C _ Hn) as (k & Hk & E). rewrite F. apply foundation_text_short. rewrite E.
      pose proof (decimal_short k). lia. }
    split_and!; [done| |done|done]. split.
    + by eapply same_origin_plain.
    + rewrite F'. by apply (ck_numbers _ C).
    + intros d Hd. rewrite F', (ck_bases _ C n d) by done. pose proof (same_origin_base _ _ O) as B.
      split; intros X; [by rewrite <-B, Hs|by rewrite <-Hs, B].
  - set (a' := a <| a_next_candidate_id := u32 (a_next_candidate_id a + 1) |>).
    assert (Hnext : a_next_candidate_id a' = a_next_candidate_id a + 1).
    { unfold a'. cbn. destruct (ck_ids _ C). rewrite u32_small by lia. lia. }
    assert (F : foundation_text (decimal (a_next_candidate_id a)) = decimal (a_next_candidate_id a)).
    { apply foundation_text_short. pose proof (decimal_short (a_next_candidate_id a)). destruct (ck_ids _ C). lia. }
    split_and!; [|split|done|done].
    + destruct C. split; try done; rewrite Hnext.
      * change (a_next_ptr a') with (a_next_ptr a). lia.
      * intros d Hd. destruct (ck_numbers0 d Hd) as (k & ? & ?). exists k. split; [lia|done].
    + done.
    + rewrite Hnext. exists (a_next_candidate_id a). split; [destruct (ck_ids _ C); lia|done].
    + intros d Hd. change (all_local_candidates a') with (all_local_candidates a) in Hd.
      cbn [c_foundation set_field set_c_foundation]. rewrite F. split; intros X.
      * destruct (ck_numbers _ C _ Hd) as (k & Hk & E). rewrite E in X. apply decimal_inj in X; [lia|destruct (ck_ids _ C); lia..].
      * specialize (Ha _ Hd). apply not_true_iff_false in Ha. destruct Ha.
        apply shares_foundation_spec; [apply C|done|by apply (ck_plain _ C)|done].
Qed.

(** ** Adding a candidate *)

Lemma upd_first_elem {A} (P : A -> bool) (Q : A -> Prop) `{!forall x, Decision (Q x)} (f : A -> A) l x :
  (forall x, P x = true <-> Q x) -> x ∈ upd_first P f l ->
  x ∈ l \/ exists y, snd <$> list_find Q l = Some y /\ y ∈ l /\ x = f y.
Proof.
  intros HPQ. induction l as [|y l IH]; cbn; [by left|]. destruct (P y) eqn:Hy.
  - apply HPQ in Hy. rewrite decide_True by done. intros [->|]%elem_of_cons.
    + right. exists y. split_and!; [done|left|done].
    + left. by right.
  - intros [->|Hx]%elem_of_cons; [left; by left|]. apply IH in Hx as [|(z & Hz & ? & ?)]; [left; by right|].
    right. exists z. rewrite decide_False by (intros ?%HPQ; congruence). split_and!; [|by right|done].
    destruct (list_find Q l) as [[]|]; done.
Qed.

Lemma locals_elem a s x : s ∈ a_streams a -> x ∈ str_components s ->
  exists i l, (i, l) ∈ locals a /\ (co_id x, co_local_candidates x) ∈ l.
Proof.
  intros Hs Hx. exists (str_id s), ((fun c => (co_id c, co_local_candidates c)) <$> str_components s).
  split; apply list_elem_of_fmap; [by exists s|by exists x].
Qed.

(** After appending [c] to a component, the list of a component is an old one
    or the one that was extended. *)
Lemma locals_append a sid cid comp c i l j k :
  the_component a sid cid = Ok comp ->
  (i, l) ∈ locals (upd_component a sid cid (fun x => x <| co_local_candidates := co_local_candidates x ++ [c] |>)) -> (j, k) ∈ l ->
  (exists i' l', (i', l') ∈ locals a /\ (j, k) ∈ l') \/
  (k = co_local_candidates comp ++ [c] /\ exists i' l', (i', l') ∈ locals a /\ (j, co_local_candidates comp) ∈ l').
Proof.
  unfold the_component, agent_find_component, agent_find_stream, nice_stream_find_component_by_id. intros Hc Hl Hk.
  unfold locals in *. apply list_elem_of_fmap in Hl as (s & [= -> ->] & Hs).
  apply list_elem_of_fmap in Hk as (x & [= -> ->] & Hx).
  unfold upd_component, upd_stream in Hs. cbn [a_streams set_field set_a_streams] in Hs.
  apply (upd_first_elem _ (fun s => str_id s = sid)) in Hs as [Hs|(s0 & Hf & Hs & ->)]; [|..|by intros; rewrite Z.eqb_eq].
  { left. by eapply locals_elem. }
  rewrite Hf in Hc. cbn in Hc. cbn [str_components set_field set_str_components] in Hx.
  apply (upd_first_elem _ (fun c => co_id c = cid)) in Hx as [Hx|(x0 & Hg & Hx & ->)]; [|..|by intros; rewrite Z.eqb_eq].
  { left. by eapply locals_elem. }
  rewrite Hg in Hc. cbn in Hc. inv_res. right. split; [done|]. by apply (locals_elem a s0 comp).
Qed.

Lemma elem_all_local a c : c ∈ all_local_candidates a <-> exists i l j k, (i, l) ∈ locals a /\ (j, k) ∈ l /\ c ∈ k.
Proof.
  rewrite all_local_locals, list_elem_of_In, in_flat_map. split.
  - intros ([i l] & Hl & ([j k] & Hk & Hc)%in_flat_map). exists i, l, j, k. by rewrite !list_elem_of_In.
  - intros (i & l & j & k & Hl & Hk & Hc). exists (i, l). rewrite !list_elem_of_In in *. split; [done|].
    apply in_flat_map. by exists (j, k).
Qed.

Lemma ForallOrdPairs_snoc {A} (R : A -> A -> Prop) l x : ForallOrdPairs R l -> Forall (fun y => R y x) l -> ForallOrdPairs R (l ++ [x]).
Proof.
  induction 1 as [|y l Hy H IH]; cbn; intros F; [repeat constructor|]. apply Forall_cons in F as [? F]. constructor; [|auto].
  apply Forall_app. split; [done|]. by constructor.
Qed.

Lemma candidates_ok_append a sid cid comp c :
  candidates_ok a -> fits a c -> the_component a sid cid = Ok comp ->
  existsb (fun d => redundant d c) (co_local_candidates comp) = false ->
  candidates_ok (upd_component a sid cid (fun x => x <| co_local_candidates := co_local_candidates x ++ [c] |>)).
Proof.
  intros C F Hcomp Hr. set (a' := upd_component _ _ _ _).
  assert (Hall : forall d, d ∈ all_local_candidates a' -> d ∈ all_local_candidates a \/ d = c).
  { intros d (i & l & j & k & Hl & Hk & Hd)%elem_all_local.
    destruct (locals_append _ _ _ _ _ _ _ _ _ Hcomp Hl Hk) as [(i' & l' & ? & ?)|(-> & i' & l' & ? & ?)].
    - left. apply elem_all_local. eauto 8.
    - apply elem_of_app in Hd as [Hd|Hd%list_elem_of_singleton]; [left; apply elem_all_local; eauto 8|by right]. }
  destruct C, F. split; try done.
  - intros d [Hd| ->]%Hall; auto.
  - intros d [Hd| ->]%Hall; [by apply ck_numbers0|done].
  - intros d e [Hd| ->]%Hall [He| ->]%Hall; auto; [|done].
    split; intros X; symmetry; apply fit_bases0; auto; by symmetry.
  - intros i l j k Hl Hk.
    destruct (locals_append _ _ _ _ _ _ _ _ _ Hcomp Hl Hk) as [(i' & l' & ? & ?)|(-> & i' & l' & ? & ?)]; [by eauto|].
    apply ForallOrdPairs_snoc; [by eauto|]. apply Forall_forall. intros d Hd. apply not_true_iff_false. intros X.
    apply not_true_iff_false in Hr. destruct Hr. apply existsb_exists. exists d. by rewrite <-list_elem_of_In.
Qed.

Section operations.
Context {N : NetEnv}.

Lemma add_pruned_ok a sid cid c b a' : candidates_ok a -> fits a c -> priv_add_local_candidate_pruned a sid cid c = Ok (b, a') ->
  candidates_ok a' /\ a_next_ptr a <= a_next_ptr a'.
Proof.
  intros C F H. unfold priv_add_local_candidate_pruned in H. inv_res. destruct (existsb _ _) eqn:Hr; inv_res; [by split|].
  destruct a1 as [n a1]. inv_res. apply quiet_add_for_local in Ha0. split; [|apply (qu_next_ptr _ _ Ha0)].
  eapply candidates_ok_quiet; [exact Ha0|]. by eapply candidates_ok_append.
Qed.

Context {E : CheckEnv} {B : Base64}.

(** Sockets have addresses without scope, and a socket opened for an address
    is bound to that IP address. *)
Hypothesis sockets_plain : forall s, plain (socket_addr s).
Hypothesis sockets_bound : forall a transport address s a',
  open_host_socket a transport address = (SocketCreated s, a') -> ip (socket_addr (Some s)) = ip address.

Lemma credentials_quiet a c c' a' : priv_generate_candidate_credentials a c = (c', a') ->
  quiet a a' /\ same_origin c c' /\ a_next_ptr a' = a_next_ptr a.
Proof.
  unfold priv_generate_candidate_credentials. destruct (a_compatibility a); intros [= <- <-]; split_and!; try done; by split.
Qed.

Lemma new_candidate_ok a ty c a' : candidates_ok a -> new_candidate a ty = (c, a') ->
  candidates_ok a' /\ a_next_candidate_id a' < a_next_ptr a' /\ a_next_ptr a' = a_next_ptr a + 1 /\ c = nice_candidate_new (a_next_ptr a) ty /\ a_log a' = a_log a.
Proof.
  intros C [= <- <-]. split_and!; try done.
  - eapply candidates_ok_quiet; [|done]. split; try done. cbn. lia.
  - destruct (ck_ids _ C). cbn. lia.
Qed.

Lemma assign_ptr a c c' a' : priv_assign_foundation a c = Ok (c', a') -> a_next_ptr a' = a_next_ptr a.
Proof. unfold priv_assign_foundation. intros. inv_res. destruct a0; by inv_res. Qed.

Lemma assign_origin a c c' a' : priv_assign_foundation a c = Ok (c', a') -> same_origin c c'.
Proof. unfold priv_assign_foundation. intros. inv_res. destruct a0; inv_res; [apply copy_foundation_origin|done]. Qed.

Lemma pruned_ptr a sid cid c b a' : priv_add_local_candidate_pruned a sid cid c = Ok (b, a') -> a_next_ptr a <= a_next_ptr a'.
Proof.
  unfold priv_add_local_candidate_pruned. intros H. inv_res. destruct (existsb _ _); inv_res; [done|].
  destruct a1 as [n a1]. inv_res. apply quiet_add_for_local in Ha0. apply (qu_next_ptr _ _ Ha0).
Qed.

(** The common end of the operations: foundation and pruning, of a candidate
    [c] that was given credentials before and may have been changed in
    irrelevant fields. *)
Lemma finish_candidate a c c1 a1 c2 a2 c3 b a3 sid cid :
  candidates_ok a -> cand_plain c -> a_next_candidate_id a < a_next_ptr a -> a_next_ptr a3 < 2 ^ 32 ->
  quiet a a1 /\ same_origin c c1 /\ a_next_ptr a1 = a_next_ptr a -> priv_assign_foundation a1 c1 = Ok (c2, a2) ->
  same_base c2 c3 -> cand_plain c3 -> c_foundation c2 = c_foundation c3 ->
  priv_add_local_candidate_pruned a2 sid cid c3 = Ok (b, a3) -> candidates_ok a3.
Proof.
  intros C P Hid Hptr (Q & O & Hp) H2 HB P3 F3 H3. pose proof (assign_ptr _ _ _ _ H2). pose proof (pruned_ptr _ _ _ _ _ _ H3).
  apply assign_fits in H2 as (C2 & F2 & O2 & Hp2).
  - apply add_pruned_ok in H3 as [? ?]; [done|done|].
    destruct F2. split; [done|by rewrite <-F3|]. intros d Hd. rewrite <-F3, fit_bases0 by done. by rewrite HB.
  - by eapply candidates_ok_quiet.
  - by eapply same_origin_plain.
  - rewrite (qu_next_id _ _ Q). lia.
  - lia.
Qed.

(** A candidate may leave the operation unused: the next free number is all
    that changed. *)
Lemma unused_candidate a c c1 a1 c2 a2 :
  candidates_ok a -> cand_plain c -> a_next_candidate_id a < a_next_ptr a -> a_next_ptr a2 < 2 ^ 32 ->
  quiet a a1 /\ same_origin c c1 /\ a_next_ptr a1 = a_next_ptr a -> priv_assign_foundation a1 c1 = Ok (c2, a2) -> candidates_ok a2.
Proof.
  intros C P Hid Hptr (Q & O & Hp) H2. pose proof (assign_ptr _ _ _ _ H2).
  eapply assign_fits; [..|exact H2]; [by eapply candidates_ok_quiet|by eapply same_origin_plain|rewrite (qu_next_id _ _ Q); lia|lia].
Qed.

Lemma open_quiet a transport address s a' : open_host_socket a transport address = (s, a') -> quiet a a' /\ a_next_ptr a' = a_next_ptr a.
Proof. intros [= <- <-]. split; [apply quiet_log|done]. Qed.

(** No operation takes back an allocation. *)
Ltac ptr_facts :=
  repeat match goal with
  | H : priv_assign_foundation _ _ = Ok (_, _) |- _ => apply assign_ptr in H
  | H : priv_add_local_candidate_pruned _ _ _ _ = Ok (_, _) |- _ => apply pruned_ptr in H
  | H : priv_generate_candidate_credentials _ _ = (_, _) |- _ => apply credentials_quiet in H as (_ & _ & H)
  | H : new_candidate _ _ = (_, _) |- _ => injection H as <- <-
  | H : open_host_socket _ _ _ = (_, _) |- _ => apply open_quiet in H as [_ H]
  end.
Ltac ptr_walk H :=
  cbv zeta in H; repeat (inv_res; match type of H with
  | (let '(_, _) := ?x in _) = Ok _ => destruct x eqn:?
  | match ?x with _ => _ end = Ok _ => destruct x eqn:?
  | (if ?b then _ else _) = Ok _ => destruct b
  end); inv_res; ptr_facts;
  repeat match goal with |- context [if ?b then _ else _] => destruct b end; cbn in *; lia.

Lemma host_ptr a sid cid address transport dup r c a' :
  discovery_add_local_host_candidate a sid cid address transport dup = Ok (r, c, a') -> a_next_ptr a <= a_next_ptr a'.
Proof. unfold discovery_add_local_host_candidate. intros H. ptr_walk H. Qed.

Lemma host_ok a sid cid address transport dup r c a' : candidates_ok a -> plain address ->
  discovery_add_local_host_candidate a sid cid address transport dup = Ok (r, c, a') -> a_next_ptr a' < 2 ^ 32 -> candidates_ok a'.
Proof.
  intros C P H Hb. unfold discovery_add_local_host_candidate in H.
  destruct (agent_find_component a sid cid) as [p|]; [|by inv_res]. destruct (open_host_socket _ _ _) as [sk a0] eqn:Ho.
  destruct (open_quiet _ _ _ _ _ Ho) as [Q0 Hp0]. pose proof (candidates_ok_quiet _ _ Q0 C) as C0.
  destruct sk as [s| |]; [|by inv_res..]. destruct (new_candidate a0 _) as [c0 a1] eqn:Hn.
  apply new_candidate_ok in Hn as (C1 & Hid & Hp1 & -> & _); [|done]. cbv zeta in H.
  apply bind_Ok_inv in H as (prio & Hprio & H). destruct (priv_generate_candidate_credentials _ _) as [c2 a2] eqn:Q2.
  apply credentials_quiet in Q2. apply bind_Ok_inv in H as ([c3 a3] & H3 & H). pose proof (assign_ptr _ _ _ _ H3) as Hp3.
  assert (P1 : plain address) by done. destruct (priv_local_host_candidate_duplicate_port _ _ _).
  { inv_res. eapply candidates_ok_quiet; [apply quiet_log|]. eapply unused_candidate; [exact C1| |done|done|exact Q2|exact H3]. by split. }
  apply bind_Ok_inv in H as ([b a4] & H4 & H).
  assert (X : a_next_ptr a4 < 2 ^ 32 -> candidates_ok a4).
  { intros Hb4. pose proof (assign_origin _ _ _ _ H3) as (T3 & R3 & A3 & B3 & S3). pose proof Q2 as (_ & (T2 & _ & _ & B2 & S2) & _).
    cbn in T2, B2, S2. eapply finish_candidate; [exact C1| |done|done|exact Q2|exact H3|..|exact H4]; [by split|..|done].
    - unfold same_base, relevant_addr, server_ip. cbn. rewrite <-T3, <-T2, <-B3, <-B2. split_and!; try done.
      symmetry. by eapply sockets_bound.
    - unfold cand_plain, relevant_addr. cbn. rewrite <-T3, <-T2, <-S3, <-S2. split; [apply sockets_plain|done]. }
  destruct b; inv_res; (eapply candidates_ok_quiet; [apply quiet_log|apply X; done]).
Qed.

Lemma reflexive_ptr a sid cid address transport sock server nat a' :
  discovery_add_server_reflexive_candidate a sid cid address transport sock server nat = Ok a' -> a_next_ptr a <= a_next_ptr a'.
Proof. unfold discovery_add_server_reflexive_candidate. intros H. ptr_walk H. Qed.

Lemma reflexive_ok a sid cid address transport sock server nat a' : candidates_ok a ->
  discovery_add_server_reflexive_candidate a sid cid address transport sock server nat = Ok a' ->
  a_next_ptr a' < 2 ^ 32 -> candidates_ok a'.
Proof.
  intros C H Hb. unfold discovery_add_server_reflexive_candidate in H.
  destruct (agent_find_component a sid cid) as [p|]; [|by inv_res]. destruct (new_candidate a _) as [c0 a1] eqn:Hn.
  apply new_candidate_ok in Hn as (C1 & Hid & Hp1 & -> & _); [|done]. cbv zeta in H.
  apply bind_Ok_inv in H as (prio & Hprio & H). destruct (priv_generate_candidate_credentials _ _) as [c2 a2] eqn:Q2.
  apply credentials_quiet in Q2. apply bind_Ok_inv in H as ([c3 a3] & H3 & H). apply bind_Ok_inv in H as ([b a4] & H4 & H).
  assert (X : a_next_ptr a4 < 2 ^ 32 -> candidates_ok a4).
  { intros Hb4. eapply finish_candidate; [exact C1| |done|done|exact Q2|exact H3|done| |done|exact H4].
    - destruct server; (split; [apply sockets_plain|done]).
    - eapply same_origin_plain; [by eapply assign_origin|]. eapply same_origin_plain; [apply Q2|].
      destruct server; (split; [apply sockets_plain|done]). }
  destruct b; inv_res; [eapply candidates_ok_quiet; [apply quiet_log|]|]; apply X; done.
Qed.

Lemma tcp_loop_ptr sid cid base server l : forall a address a',
  tcp_reflexive_loop a sid cid base address server l = Ok a' -> a_next_ptr a <= a_next_ptr a'.
Proof.
  induction l as [|c l IH]; intros a address a' H; cbn [tcp_reflexive_loop] in H; cbv zeta in H; [by inv_res|].
  branch H; [|by eauto]. apply bind_Ok_inv in H as (a1 & H1%reflexive_ptr & H). apply IH in H. lia.
Qed.

Lemma tcp_loop_ok sid cid base server l : forall a address a', candidates_ok a ->
  tcp_reflexive_loop a sid cid base address server l = Ok a' -> a_next_ptr a' < 2 ^ 32 -> candidates_ok a'.
Proof.
  induction l as [|c l IH]; intros a address a' C H Hb; cbn [tcp_reflexive_loop] in H; cbv zeta in H; [by inv_res|].
  branch H; [|by eauto]. apply bind_Ok_inv in H as (a1 & H1 & H). pose proof (tcp_loop_ptr _ _ _ _ _ _ _ _ H).
  eapply IH; [|exact H|done]. eapply reflexive_ok; [done|exact H1|lia].
Qed.

Lemma relay_ptr a sid cid address transport sock turn life r a' :
  discovery_add_relay_candidate a sid cid address transport sock turn life = Ok (r, a') -> a_next_ptr a <= a_next_ptr a'.
Proof. unfold discovery_add_relay_candidate. intros H. ptr_walk H. Qed.

Lemma relay_ok a sid cid address transport sock turn life r a' : candidates_ok a -> plain address -> server_ok turn ->
  discovery_add_relay_candidate a sid cid address transport sock turn life = Ok (r, a') -> a_next_ptr a' < 2 ^ 32 -> candidates_ok a'.
Proof.
  intros C P S H Hb. unfold discovery_add_relay_candidate in H.
  destruct (agent_find_component a sid cid) as [p|]; [|by inv_res]. destruct (new_candidate a _) as [c0 a1] eqn:Hn.
  apply new_candidate_ok in Hn as (C1 & Hid & Hp1 & -> & _); [|done]. cbv zeta in H.
  set (a1' := log _ a1) in H. assert (C1' : candidates_ok a1') by (eapply candidates_ok_quiet; [apply quiet_log|done]).
  destruct (nice_udp_turn_socket_new _ _ _ _) as [sk|]; [|by inv_res].
  apply bind_Ok_inv in H as (prio & Hprio & H). destruct (priv_generate_candidate_credentials _ _) as [c2 a2] eqn:Q2.
  apply credentials_quiet in Q2. rewrite (bool_decide_eq_false_2 (a_compatibility a2 = _)) in H; [|rewrite (qu_compatibility _ _ (proj1 Q2)); apply C1'].
  apply bind_Ok_inv in H as ([c3 a3] & H3 & H). apply bind_Ok_inv in H as ([b a4] & H4 & H).
  assert (P1 : forall t, Some turn = Some t -> server_ok t) by (intros t [= <-]; done).
  assert (X : a_next_ptr a4 < 2 ^ 32 -> candidates_ok a4).
  { intros Hb4. eapply finish_candidate; [exact C1'| |done|done|exact Q2|exact H3|done| |done|exact H4]; [by split|].
    eapply same_origin_plain; [by eapply assign_origin|]. eapply same_origin_plain; [apply Q2|]. by split. }
  destruct b; inv_res; [do 2 (eapply candidates_ok_quiet; [apply quiet_log|])|]; apply X; done.
Qed.

Lemma peer_ptr a sid cid prio address sock l r c a' :
  discovery_add_peer_reflexive_candidate a sid cid prio address sock l r = Ok (c, a') -> a_next_ptr a <= a_next_ptr a'.
Proof. unfold discovery_add_peer_reflexive_candidate. intros H. ptr_walk H. Qed.

Lemma peer_ok a sid cid prio address sock l r c a' : candidates_ok a ->
  discovery_add_peer_reflexive_candidate a sid cid prio address sock l r = Ok (c, a') -> a_next_ptr a' < 2 ^ 32 -> candidates_ok a'.
Proof.
  intros C H Hb. unfold discovery_add_peer_reflexive_candidate in H.
  destruct (agent_find_component a sid cid) as [p|]; [|by inv_res]. destruct (new_candidate a _) as [c0 a1] eqn:Hn.
  apply new_candidate_ok in Hn as (C1 & Hid & Hp1 & -> & _); [|done]. cbv zeta in H.
  apply bind_Ok_inv in H as ([c2 a2] & H2 & H). apply bind_Ok_inv in H as (c3 & H3 & H).
  apply bind_Ok_inv in H as ([b a4] & H4 & H). inv_res.
  assert (O3 : same_origin c2 c3 /\ c_foundation c2 = c_foundation c3).
  { clear -H3. destruct l as [l|], r as [r|]; [destruct (is_msn_or_oc2007 a2)|..]; inv_res; done. }
  eapply finish_candidate; [exact C1| |done|done|split_and!; [reflexivity|split_and!; reflexivity|done]|exact H2|apply same_origin_base, O3| |apply O3|exact H4].
  - split; [apply sockets_plain|done].
  - eapply same_origin_plain; [apply O3|]. eapply same_origin_plain; [by eapply assign_origin|]. split; [apply sockets_plain|done].
Qed.

Lemma learn_ok a sid cid prio address sock l r c a' :
  discovery_learn_remote_peer_reflexive_candidate a sid cid prio address sock l r = Ok (c, a') ->
  a_next_ptr a <= a_next_ptr a' /\ (candidates_ok a -> candidates_ok a').
Proof.
  intros H. unfold discovery_learn_remote_peer_reflexive_candidate in H. destruct (new_candidate a _) as [c0 a1] eqn:Hn.
  injection Hn as <- <-. cbv zeta in H. inv_res. split; [cbn; lia|]. apply candidates_ok_quiet.
  etrans; [|apply quiet_log]. etrans; [|by apply quiet_upd_component]. split; try done. cbn. lia.
Qed.
End operations.
End foundations.

(** * Gathering candidates

    Any sequence of additions of local and remote candidates: local
    candidates stay distinct and their foundations tell their bases apart.
    Also how the foundation of a learned remote candidate is chosen, and a
    case where two of them collide. *)

Inductive cand_op : Set :=
  | AddHost (sid cid : Z) (address : NiceAddress) (transport : NiceCandidateTransport) (accept_duplicate : bool)
  | AddServerReflexive (sid cid : Z) (address : NiceAddress) (transport : NiceCandidateTransport) (base_socket : option Z)
      (server : option NiceAddress) (nat_assisted : bool)
  | AddTcpServerReflexive (sid cid : Z) (address : NiceAddress) (base_socket : option Z) (server : option NiceAddress)
  | AddRelayed (sid cid : Z) (address : NiceAddress) (transport : NiceCandidateTransport) (base_socket : option Z)
      (turn : TurnServer) (lifetime : option Z)
  | AddPeerReflexive (sid cid priority : Z) (address : NiceAddress) (base_socket : option Z) (local remote : option NiceCandidate)
  | LearnRemote (sid cid priority : Z) (address : NiceAddress) (sock : option Z) (local remote : option NiceCandidate).

Section runs.
Context {E : CheckEnv} {B : Base64} {N : NetEnv} (servers : Z -> NiceAddress).

Definition cand_do (a : NiceAgent) (op : cand_op) : res NiceAgent :=
  match op with
  | AddHost sid cid addr tr dup => '(_, a) ← discovery_add_local_host_candidate a sid cid addr tr dup; Ok a
  | AddServerReflexive sid cid addr tr sock srv nat => discovery_add_server_reflexive_candidate a sid cid addr tr sock srv nat
  | AddTcpServerReflexive sid cid addr sock srv => discovery_discover_tcp_server_reflexive_candidates a sid cid addr sock srv
  | AddRelayed sid cid addr tr sock turn life => '(_, a) ← discovery_add_relay_candidate a sid cid addr tr sock turn life; Ok a
  | AddPeerReflexive sid cid prio addr sock l r => '(_, a) ← discovery_add_peer_reflexive_candidate a sid cid prio addr sock l r; Ok a
  | LearnRemote sid cid prio addr sock l r => '(_, a) ← discovery_learn_remote_peer_reflexive_candidate a sid cid prio addr sock l r; Ok a
  end.

Fixpoint cand_run (a : NiceAgent) (ops : list cand_op) : res NiceAgent :=
  match ops with
  | [] => Ok a
  | op :: ops => a ← cand_do a op; cand_run a ops
  end.

(** The addresses have no scope, and a TURN server is the one at its address
    in memory. *)
Definition op_ok (op : cand_op) : Prop :=
  match op with
  | AddHost _ _ addr _ _ => plain addr
  | AddRelayed _ _ addr _ _ turn _ => plain addr /\ server_ok servers turn
  | _ => True
  end.

Definition sockets_plain : Prop := forall s, plain (socket_addr s).
Definition sockets_bound : Prop := forall a transport address s a',
  open_host_socket a transport address = (SocketCreated s, a') -> ip (socket_addr (Some s)) = ip address.

Lemma cand_do_ptr a op a' : cand_do a op = Ok a' -> a_next_ptr a <= a_next_ptr a'.
Proof.
  destruct op; cbn [cand_do]; intros H;
    try match type of H with mbind _ _ = _ => apply bind_Ok_inv in H as ([? ?] & H & Heq); injection Heq as -> end.
  - destruct p. by eapply host_ptr.
  - by eapply reflexive_ptr.
  - unfold discovery_discover_tcp_server_reflexive_candidates in H.
    destruct (agent_find_component _ _ _) as [[? c]|]; [by eapply tcp_loop_ptr|by inv_res].
  - by eapply relay_ptr.
  - by eapply peer_ptr.
  - eapply (learn_ok servers), H.
Qed.

Lemma cand_do_ok a op a' : sockets_plain -> sockets_bound -> op_ok op -> candidates_ok servers a -> cand_do a op = Ok a' ->
  a_next_ptr a' < 2 ^ 32 -> candidates_ok servers a'.
Proof.
  intros SP SB; destruct op; cbn [cand_do op_ok]; intros OK C H Hb;
    try match type of H with mbind _ _ = _ => apply bind_Ok_inv in H as ([? ?] & H & Heq); injection Heq as -> end.
  - destruct p. by eapply host_ok.
  - by eapply reflexive_ok.
  - unfold discovery_discover_tcp_server_reflexive_candidates in H.
    destruct (agent_find_component _ _ _) as [[? c]|]; [by eapply tcp_loop_ok|by inv_res].
  - destruct OK. by eapply relay_ok.
  - by eapply peer_ok.
  - by eapply learn_ok.
Qed.

Lemma cand_run_ok ops : forall a a', sockets_plain -> sockets_bound -> Forall op_ok ops -> candidates_ok servers a ->
  cand_run a ops = Ok a' -> a_next_ptr a' < 2 ^ 32 -> a_next_ptr a <= a_next_ptr a' /\ candidates_ok servers a'.
Proof.
  intros a a' SP SB. revert a. induction ops as [|op ops IH]; intros a F C H Hb; cbn [cand_run] in H; [by inv_res|].
  apply Forall_cons in F as [O F]. apply bind_Ok_inv in H as (a1 & H1 & H).
  pose proof (cand_do_ptr _ _ _ H1).
  assert (Hle : a_next_ptr a1 <= a_next_ptr a').
  { clear -H servers. revert a1 H. induction ops as [|op ops IH]; intros a H; cbn [cand_run] in H; [by inv_res|].
    apply bind_Ok_inv in H as (a1 & H1%cand_do_ptr & H). apply IH in H. lia. }
  split; [lia|]. refine (proj2 (IH a1 F _ H Hb)). refine (cand_do_ok _ _ _ SP SB O C H1 _). lia.
Qed.

(** An agent without local candidates. *)
Definition fresh_agent (a : NiceAgent) : Prop :=
  all_local_candidates a = [] /\ 1 <= a_next_candidate_id a <= a_next_ptr a.

Lemma fresh_ok a : fresh_agent a -> a_compatibility a <> NICE_COMPATIBILITY_GOOGLE -> candidates_ok servers a.
Proof.
  intros [Hl Hid] Hg. split; rewrite ?Hl; try done; try (intros c Hc; by apply not_elem_of_nil in Hc); try (intros c d Hc; by apply not_elem_of_nil in Hc).
  intros i l j k H1 H2. destruct k as [|c k]; [constructor|].
  assert (Hc : c ∈ all_local_candidates a) by (apply elem_all_local; exists i, l, j, (c :: k); split_and!; [done|done|left]).
  rewrite Hl in Hc. by apply not_elem_of_nil in Hc.
Qed.

End runs.

(** ** Examples *)

(** Sockets are numbered by the address they are bound to. *)
Definition bound_socket (addr : NiceAddress) : new_socket :=
  match addr with
  | sockaddr_in p x => if (0 <=? x) && (x <? 2 ^ 32) then SocketCreated (p * 2 ^ 32 + x) else SocketFailed
  | _ => SocketFailed
  end.

Definition ex_net_env : CheckEnv := {|
  g_get_monotonic_time := fun l => 1000000 * zlen l;
  gettimeofday := fun l => mkTimeval (zlen l) 0;
  stun_make_transid := fun p => replicate 16 (p mod 256);
  nice_rng_generate_bytes := fun l n => replicate (Z.to_nat n) (zlen l mod 256);
  nice_rng_generate_bytes_print := fun l n => replicate (Z.to_nat n) (97 + zlen l mod 26);
  nice_socket_is_reliable := fun _ => false;
  socket_has_fileno := fun _ => true;
  socket_type := fun _ => NICE_SOCKET_TYPE_UDP_BSD;
  nice_tcp_bsd_socket_get_passive_parent := fun _ => None;
  socket_addr := fun s => match s with Some s => sockaddr_in (s / 2 ^ 32) (s mod 2 ^ 32) | None => sockaddr_in 0 0 end;
  nice_socket_send_messages_reliable := fun _ _ _ _ => 1;
  nice_socket_send_reliable := fun _ _ _ _ => -1;
  nice_socket_send := fun _ _ _ b => zlen b;
  nice_tcp_active_socket_connect := fun _ _ _ => None;
  nice_udp_bsd_socket_new := fun _ => bound_socket;
  nice_tcp_active_socket_new := fun _ => bound_socket;
  nice_tcp_passive_socket_new := fun _ => bound_socket;
  nice_udp_turn_socket_new := fun l _ _ _ => Some (10 + zlen l);
  agent_create_tcp_turn_socket := fun l _ _ _ _ => Some (10 + zlen l)
|}.

Lemma ex_net_bound : sockets_bound (E := ex_net_env).
Proof.
  intros a transport address s a' H. assert (B : bound_socket address = SocketCreated s).
  { destruct transport; unfold open_host_socket in H; cbn in H; congruence. }
  unfold bound_socket in B. destruct address as [p x| |]; try done. destruct (_ && _) eqn:Hx; [|done]. injection B as <-.
  apply andb_true_iff in Hx as [H0%Z.leb_le H1%Z.ltb_lt]. cbn [socket_addr ex_net_env ip].
  rewrite Z.add_comm, Z.mod_add, Z.mod_small by lia. done.
Qed.

Definition ex_host (n : Z) : NiceAddress := sockaddr_in 4000 (htonl (dotted 192 0 2 n)).
Definition ex_turn : TurnServer := mkTurnServer 5 (ex_host 99) None 3478 [117] [112] NICE_RELAY_TYPE_TURN_UDP 0 false.
Definition ex_empty (cid : Z) : NiceComponent :=
  mkComponent cid NICE_COMPONENT_STATE_GATHERING [] [] [] no_pair None StunAgentProps.ex_agent [] true [] None false 0 0.
Definition ex_gathering (streams : list NiceStream) : NiceAgent :=
  mkAgentState NICE_COMPATIBILITY_RFC5245 NICE_NOMINATION_MODE_REGULAR true false false 100 20 7 7900 5000 42
    streams ∅ 100 1 [] [] false None 0 [] 500 false false false false 0 false [] [] []
    false false None 3478 None true false true true [] 2 [] 0 [].
Definition ex_gatherer : NiceAgent := ex_gathering [mkStream 1 2 [ex_empty 1; ex_empty 2] [] [97; 98] [99; 100] [112; 119] 0 false [112; 113] true true true None 0 [] []].
Definition ex_gather_ops : list cand_op :=
  [AddHost 1 1 (ex_host 1) NICE_CANDIDATE_TRANSPORT_UDP false;
   AddHost 1 2 (ex_host 1) NICE_CANDIDATE_TRANSPORT_UDP true;
   AddHost 1 2 (sockaddr_in 4001 (htonl (dotted 192 0 2 1))) NICE_CANDIDATE_TRANSPORT_UDP true;
   AddServerReflexive 1 1 (sockaddr_in 9 7) NICE_CANDIDATE_TRANSPORT_UDP (Some 10) None false;
   AddServerReflexive 1 1 (sockaddr_in 10 7) NICE_CANDIDATE_TRANSPORT_UDP (Some 10) None false;
   AddRelayed 1 1 (ex_host 50) NICE_CANDIDATE_TRANSPORT_UDP (Some 10) ex_turn (Some 600)].


Definition ex_remote (p : Z) (foundation : list Z) : NiceCandidate :=
  (nice_candidate_new p NICE_CANDIDATE_TYPE_PEER_REFLEXIVE) <| c_foundation := foundation |>.

Lemma remote_foundation_free_witness :
  exists n, priv_highest_remote_foundation
      ((ex_empty 1) <| co_remote_candidates := [ex_remote 1 (remote_foundation 2); ex_remote 2 (remote_foundation 1); ex_remote 3 (remote_foundation 4)] |>) = Ok n /\
    n = 3 /\ ~ taken [ex_remote 1 (remote_foundation 2); ex_remote 2 (remote_foundation 1); ex_remote 3 (remote_foundation 4)] n.
Proof.
  destruct (remote_foundation_free
      ((ex_empty 1) <| co_remote_candidates := [ex_remote 1 (remote_foundation 2); ex_remote 2 (remote_foundation 1); ex_remote 3 (remote_foundation 4)] |>))
    as (n & H & _ & Hn & _); [reflexivity|]. exists n. split; [exact H|]. split; [|exact Hn].
  vm_compute in H. injection H as <-. reflexivity.
Defined.

(** The component that [priv_assign_remote_foundation] looks for free numbers
    in is the last one of the agent with the id of the candidate, whatever
    its stream.  With two streams, two candidates of the first stream learned
    from different hosts get the same foundation. *)
Lemma remote_foundations_collide :
  let learn a n := discovery_learn_remote_peer_reflexive_candidate (E := ex_net_env) (B := {| g_base64_decode := id; g_base64_encode := id |}) (N := ex_net)
                     a 1 1 100 (ex_host n) (Some 1) None None in
  let stream i := mkStream i 1 [ex_empty 1] [] [97; 98] [99; 100] [112; 119] 0 false [112; 113] true true true None 0 [] [] in
  match learn (ex_gathering [stream 1; stream 2]) 7 with
  | Ok (c, a) =>
      match learn a 8 with
      | Ok (c', _) => nice_address_equal_no_port (c_addr c) (c_addr c') = false /\ c_foundation c = c_foundation c'
      | Fault _ => False
      end
  | Fault _ => False
  end.
Proof. vm_compute. split; reflexivity. Qed.
