(* ===== verification/CheckProps.v ===== *)
(** * Correctness of the check lists

    The invariant under every sequence of operations, role changes, the
    frozen-pair algorithm, the size limit and the conclusion of the checks. *)
From stdpp Require Import sorting.
From S2P Require Import Prelude CMem StunTypes StunMessage StunAgent StunTimer Address Candidate IceTypes IceEnv CheckList CheckDriver CheckInv.
Local Open Scope Z_scope.

(** ** Role changes *)

Lemma recalculated_app s ss a b c : recalculated [s] a b -> recalculated ss b c -> NoDup (str_id <$> s :: ss) ->
  recalculated (s :: ss) a c.
Proof.
  intros [S1 R1 L1 O1 H1 G1] [S2 R2 L2 O2 H2 G2] Hnd. split.
  - done.
  - congruence.
  - by etrans.
  - intros sid l Hs Hl. rewrite fmap_cons, not_elem_of_cons in Hs. destruct Hs as [Hs1 Hs2]. apply O2; [done|]. apply O1; [|done].
    cbn. by rewrite list_elem_of_singleton.
  - intros p. rewrite H2, H1, R1. cbn [flat_map]. rewrite app_nil_r.
    destruct (decide (p ∈ flat_map str_conncheck_list ss)) as [Hp|Hp].
    + rewrite (decide_True (P := p ∈ _ ++ _)) by (apply elem_of_app; by right).
      destruct (decide (p ∈ str_conncheck_list s)); [|done]. destruct (a_pairs a !! p); [|done]. cbn. by rewrite reprio_idem.
    + destruct (decide (p ∈ str_conncheck_list s)).
      * by rewrite decide_True by (apply elem_of_app; by left).
      * by rewrite decide_False by (rewrite elem_of_app; tauto).
  - intros sid Hs. apply G2. destruct Hs as [Hs|Ho]; [|right; apply G1; by right].
    cbn in Hs. apply elem_of_cons in Hs as [->|?]; [right; apply G1; left; by apply list_elem_of_singleton|by left].
Qed.

Lemma recalculate_streams_spec ss : forall a, shaped a -> NoDup (str_id <$> ss) ->
  (forall s, s ∈ ss -> (str_id s, str_conncheck_list s) ∈ lists a) ->
  exists a', recalculate_streams a ss = Ok a' /\ recalculated ss a a'.
Proof.
  induction ss as [|s ss IH]; intros a S Hnd Hin; cbn [recalculate_streams].
  - exists a. split; [done|]. split; try done. intros sid [Hs|]; [by apply elem_of_nil in Hs|done].
  - destruct (recalculate_stream_spec a s S) as (b & -> & Hb); [apply Hin; by left|]. cbn [mbind res_bind].
    pose proof Hnd as Hnd'. rewrite fmap_cons, NoDup_cons in Hnd'. destruct Hnd' as [Hs Hnd'].
    destruct (IH b (rc_shaped _ _ _ Hb) Hnd') as (c & -> & Hc).
    { intros s' Hs'. eapply rc_others; [exact Hb| |apply Hin; by right]. cbn. rewrite list_elem_of_singleton. intros E.
      apply Hs. rewrite <-E. apply list_elem_of_fmap. eauto. }
    exists c. split; [done|]. by eapply recalculated_app.
Qed.

Lemma lists_fst a : (lists a).*1 = str_id <$> a_streams a.
Proof. unfold lists. by rewrite <-list_fmap_compose. Qed.

Lemma recalculate_spec a : shaped a ->
  exists a', recalculate_pair_priorities a = Ok a' /\ wf a' /\ a_controlling_mode a' = a_controlling_mode a /\
    permuted (lists a) (lists a') /\
    forall p, a_pairs a' !! p = reprio (a_controlling_mode a) <$> a_pairs a !! p.
Proof.
  intros S. unfold recalculate_pair_priorities.
  destruct (recalculate_streams_spec (a_streams a) a S) as (b & -> & [S' R L _ H G]).
  - rewrite <-lists_fst. apply S.
  - intros s Hs. unfold lists. apply list_elem_of_fmap. eauto.
  - exists b. split; [done|]. split; [apply wf_split; split; [done|]|split; [done|split; [done|]]].
    + intros sid. destruct (decide (sid ∈ str_id <$> a_streams a)) as [|Hn]; [apply G; by left|]. intros l Hl. exfalso. apply Hn.
      rewrite <-lists_fst, <-(permuted_ids _ _ L). apply list_elem_of_fmap. by exists (sid, l).
    + intros p. rewrite H. destruct (decide _) as [|Hn]; [done|]. destruct (a_pairs a !! p) as [x|] eqn:Hx; [|done].
      destruct Hn. by apply (sh_listed _ S _ _ Hx).
Qed.

Lemma reprio_same a p x : wf a -> a_pairs a !! p = Some x -> reprio (a_controlling_mode a) x = x.
Proof.
  intros W Hx. pose proof (wf_listed _ W _ _ Hx) as (sid & l & Hl & Hp)%elem_all_checks.
  destruct (wf_pairs _ W _ _ _ Hl Hp) as (y & Hy & _ & E). rewrite Hx in Hy. injection Hy as <-.
  unfold reprio. rewrite <-E. by destruct x.
Qed.

(** A role conflict never fails and leaves every check list sorted.
    After [priv_check_for_role_conflict] the agent has the role asked for,
    each check list holds the pairs it held before, sorted by the priorities
    of the new role, every pair has the priority of that role and is
    otherwise unchanged, and the invariant of the check lists holds. *)
Theorem role_switch_reorders a control :
  wf a ->
  exists a', priv_check_for_role_conflict a control = Ok a' /\ wf a' /\ a_controlling_mode a' = control /\
    permuted (lists a) (lists a') /\ forall p, a_pairs a' !! p = reprio control <$> a_pairs a !! p.
Proof.
  intros W. unfold priv_check_for_role_conflict. destruct (Bool.eqb control (a_controlling_mode a)) eqn:E; cbn [negb].
  - apply eqb_prop in E. subst control. exists a. do 4 (split; [done|]). intros p.
    destruct (a_pairs a !! p) as [x|] eqn:Hx; [|done]. cbn. f_equal. symmetry. by eapply reprio_same.
  - set (a1 := a <| a_controlling_mode := control |>). apply (recalculate_spec a1). apply wf_split in W as [[? ? ? ? ? ? ?] _]. by split.
Qed.

Lemma wf_role_switch a control a' : wf a -> priv_check_for_role_conflict a control = Ok a' -> wf a'.
Proof.
  intros W H. unfold priv_check_for_role_conflict in H. branch H; [|by inv_res].
  destruct (recalculate_spec (a <| a_controlling_mode := control |>)) as (b & Hb & Wb & _).
  - apply wf_split in W as [[? ? ? ? ? ? ?] _]. by split.
  - rewrite Hb in H. by inv_res.
Qed.

(** ** Tearing down a check list *)

Lemma free_pairs_spec l : forall a, NoDup l -> (forall p, p ∈ l -> is_Some (a_pairs a !! p)) ->
  NoDup (a_triggered_check_queue a) ->
  exists q h, free_pairs a l = Ok (a <| a_triggered_check_queue := q |> <| a_pairs := h |>) /\ NoDup q /\
    (forall p, p ∈ q <-> p ∈ a_triggered_check_queue a /\ p ∉ l) /\
    (forall p, h !! p = if decide (p ∈ l) then None else a_pairs a !! p).
Proof.
  induction l as [|p l IH]; intros a Hnd Hl Hq; cbn [free_pairs].
  - exists (a_triggered_check_queue a), (a_pairs a). split; [by destruct a|]. split; [done|]. split.
    + intros p. pose proof (not_elem_of_nil p). tauto.
    + intros p. by rewrite decide_False by apply not_elem_of_nil.
  - destruct (Hl p) as [x Hx]; [by left|]. apply NoDup_cons in Hnd as [Hp Hnd].
    rewrite candidate_check_pair_free_eq by eauto. cbn [mbind res_bind]. set (a1 := a <| a_triggered_check_queue := _ |> <| a_pairs := _ |>).
    destruct (IH a1) as (q & h & -> & Hnq & Hqq & Hh).
    + done.
    + intros r Hr. change (a_pairs a1) with (delete p (a_pairs a)). rewrite lookup_delete_ne by congruence. apply Hl. by right.
    + by apply remove_first_nodup.
    + exists q, h. split; [done|]. split; [done|]. split.
      * intros r. rewrite Hqq. change (a_triggered_check_queue a1) with (remove_first p (a_triggered_check_queue a)).
        rewrite remove_first_elem by done. rewrite not_elem_of_cons. tauto.
      * intros r. rewrite Hh. change (a_pairs a1) with (delete p (a_pairs a)). destruct (decide (r ∈ l)) as [|Hrl].
        -- by rewrite decide_True by (by right).
        -- destruct (decide (r = p)) as [->|]; [by rewrite lookup_delete_eq, decide_True by (by left)|].
           rewrite lookup_delete_ne by done. by rewrite decide_False by (rewrite elem_of_cons; tauto).
Qed.

Lemma flat_set_nil sid l p : NoDup l.*1 -> NoDup (flat_map snd l) ->
  p ∈ flat_map snd (set_list (fun _ => []) sid l) <-> p ∈ flat_map snd l /\ p ∉ assoc sid l.
Proof.
  induction l as [|[j m] l IH]; cbn; [by rewrite elem_of_nil; intros; tauto|]. rewrite NoDup_cons, NoDup_app.
  intros [Hj Hl] (Hm & Hdis & Hn). destruct (Z.eqb_spec j sid) as [->|]; cbn; rewrite ?elem_of_app.
  - specialize (Hdis p). tauto.
  - rewrite IH by done. split; [|tauto]. intros [Hpm|]; [|tauto]. split; [tauto|]. intros Hpa. apply (Hdis p); [done|].
    clear -Hpa. induction l as [|[j m] l IH]; cbn in *; [done|]. rewrite elem_of_app. destruct (j =? sid); [by left|right; auto].
Qed.

Lemma wf_free_list a sid s : wf a -> the_stream a sid = Ok s -> exists a', free_conncheck_list a sid = Ok a' /\ wf a'.
Proof.
  intros W Hs. pose proof (visiting_start _ _ _ W Hs) as [_ Hnd Hin]. unfold free_conncheck_list. rewrite Hs. cbn [mbind res_bind].
  destruct (free_pairs_spec (str_conncheck_list s) a) as (q & h & -> & Hq & Hqq & Hh); [done| |apply W|].
  { intros p Hp. apply wf_lookup; [done|]. eapply in_checks_of, Hin, Hp. }
  cbn [mbind res_bind]. eexists. split; [reflexivity|].
  set (a1 := a <| a_triggered_check_queue := q |> <| a_pairs := h |>).
  set (a2 := upd_stream _ _ _). assert (Hl : lists a2 = set_list (fun _ => []) sid (lists a)).
  { unfold a2. by rewrite (lists_upd_list a1 sid (fun _ => [])). }
  assert (Hassoc : assoc sid (lists a) = str_conncheck_list s).
  { rewrite <-checks_of_assoc. apply wf_checks_of; [done|]. by apply the_stream_inv, find_stream_lists in Hs as (? & _). }
  assert (Hc : forall p, p ∈ all_checks a2 <-> p ∈ all_checks a /\ p ∉ str_conncheck_list s).
  { intros p. rewrite !all_checks_lists, Hl, <-Hassoc. apply flat_set_nil; [apply W|]. rewrite <-all_checks_lists. apply W. }
  assert (Hsub : forall i l, (i, l) ∈ lists a2 -> l = [] \/ (i, l) ∈ lists a /\ forall p, p ∈ l -> a_pairs a2 !! p = a_pairs a !! p).
  { intros i l Hil. pose proof Hil as Hil'. rewrite Hl in Hil'. apply set_list_elem in Hil' as [[Hne Hi]|(_ & k' & _ & ->)]; [right|by left|apply W].
    split; [done|]. intros p Hp. change (a_pairs a2) with h. rewrite Hh, decide_False; [done|].
    apply Hc, elem_all_checks. eauto. }
  split.
  - rewrite Hl, set_list_fst. apply W.
  - rewrite all_checks_lists, Hl. eapply sublist_NoDup; [apply (wf_nodup _ W)|]. rewrite all_checks_lists.
    apply flat_set_sublist. intros. apply sublist_nil_l.
  - intros p x. change (a_pairs a2) with h. rewrite Hh, Hc. destruct (decide _); [done|]. intros Hx. split; [by eapply wf_listed|done].
  - intros i l p [->|[Hi Hsame]]%Hsub Hp; [by apply elem_of_nil in Hp|].
    eapply pair_ok_key, (wf_pairs _ W _ _ _ Hi Hp); [done|]. by rewrite Hsame.
  - intros i l [->|[Hi Hsame]]%Hsub; [constructor|]. eapply StronglySorted_weaken, (wf_sorted _ W _ _ Hi).
    intros p r Hp Hr. unfold above, prio_at. by rewrite !Hsame.
  - intros p x. change (a_pairs a2) with h. rewrite Hh. destruct (decide _); [done|]. apply (wf_fresh _ W).
  - intros p. change (a_triggered_check_queue a2) with q. rewrite Hqq, Hc. intros [? ?]. split; [by apply (wf_queue _ W)|done].
  - done.
  - apply W.
  - rewrite Hl, set_list_fst. apply W.
Qed.

Lemma wf_conn_check_stop a : wf a -> wf (conn_check_stop a).
Proof. intros W. eapply wf_frame, W. unfold conn_check_stop. destruct (a_conncheck_timer a); by split. Qed.

Lemma wf_free_conncheck_list a sid a' : wf a -> free_conncheck_list a sid = Ok a' -> wf a'.
Proof.
  intros W H. destruct (the_stream a sid) as [s|] eqn:E; [|unfold free_conncheck_list in H; by rewrite E in H].
  destruct (wf_free_list a sid s W E) as (b & Hb & ?). rewrite Hb in H. by inv_res.
Qed.

Lemma wf_conn_check_free a a' : wf a -> conn_check_free a = Ok a' -> wf a'.
Proof.
  intros W H. unfold conn_check_free in H. inv_res. apply wf_conn_check_stop. revert W Ha. generalize (a_streams a) as ss.
  intros ss. revert a. induction ss as [|s ss IH]; intros a W Ha; cbn in Ha; inv_res; [done|]. eauto using wf_free_conncheck_list.
Qed.

Lemma wf_prune_stream a sid a' : wf a -> conn_check_prune_stream a sid = Ok a' -> wf a'.
Proof.
  intros W H. unfold conn_check_prune_stream in H. inv_res. destruct (forallb _ _); eauto using wf_conn_check_stop, wf_free_conncheck_list.
Qed.

(** ** Triggered checks and peer-reflexive pairs *)

Lemma all_checks_frame a a' : frame a a' -> all_checks a' = all_checks a.
Proof. intros F. by rewrite !all_checks_lists, (fr_lists _ _ F). Qed.

Lemma wf_enqueue_live a p x : wf a -> a_pairs a !! p = Some x -> wf (priv_add_pair_to_triggered_check_queue a p).
Proof. intros W Hx. apply wf_enqueue; [done|]. by eapply wf_listed. Qed.

Lemma wf_trigger_pair a sid cid p a' : wf a -> trigger_pair a sid cid p = Ok a' -> wf a'.
Proof.
  intros W H. unfold trigger_pair in H. cbv zeta in H. inv_res. apply deref_inv in Ha. pose proof (wf_enqueue_live _ _ _ W Ha).
  walk; try destruct (_ <? _); eauto using wf_frame.
Qed.

Lemma wf_schedule_triggered `{NetEnv} a sid cid sock r b a' :
  wf a -> priv_schedule_triggered_check a sid cid sock r = Ok (b, a') -> wf a'.
Proof.
  intros W H0. unfold priv_schedule_triggered_check in H0. inv_res. destruct a1 as [p|]; inv_res; [by eapply wf_trigger_pair|].
  destruct (list_find _ _) as [[i l]|]; inv_res; [|done]. destruct a2 as [np a2]. inv_res.
  apply wf_add_matched in Ha2 as [W2 Hq]; [|done]. destruct np as [q|]; [|done]. apply wf_enqueue; auto.
Qed.

Lemma wf_peer_reflexive a sid cid l parent p a' :
  wf a -> priv_add_peer_reflexive_pair a sid cid l parent = Ok (p, a') -> wf a'.
Proof.
  intros W H. unfold priv_add_peer_reflexive_pair in H. cbv zeta in H. inv_res. pose proof Ha0 as F%frame_modify; [|done].
  eapply wf_add_pair in H as [? _]; [done|by eapply wf_frame|done|]. cbn. unfold agent_candidate_pair_priority. by destruct (a_controlling_mode a1).
Qed.
