(* ===== verification/CheckTickInv.v ===== *)
(** * The invariant of the check lists under the timer

    The timer callback, with everything it does on the way, preserves the
    invariant of CheckInv. *)
From stdpp Require Import sorting.
From S2P Require Import Prelude CMem StunTypes StunMessage StunAgent StunTimer StunIce Address Candidate IceTypes IceEnv CheckList CheckDriver CheckTick KeepAlive CheckNominate CheckInv CheckProps.
Local Open Scope Z_scope.

Section tick.
Context {E : CheckEnv} {CL : CryptoLib} {B : Base64} (package_string : list Z).

(** ** Sending *)

Lemma frame_socket_send a sock addr len buf : frame a (snd (agent_socket_send a sock addr len buf)).
Proof.
  unfold agent_socket_send. destruct (nice_socket_is_reliable sock); [apply frame_log|]. cbv zeta.
  destruct (_ <? 0); cbn [snd]; [|apply frame_log]. etrans; apply frame_log.
Qed.

Lemma frame_upd_transaction a p ptr f a' : upd_transaction a p ptr f = Ok a' -> frame a a'.
Proof. unfold upd_transaction. by apply frame_modify. Qed.

Lemma frame_legacy_send a ag msg sock addr a' : ms_ice2_legacy_conncheck_send a ag msg sock addr = Ok a' -> frame a a'.
Proof. unfold ms_ice2_legacy_conncheck_send. intros. walk; try done. apply frame_socket_send. Qed.

Lemma frame_start_timer a p t sock a' : start_transaction_timer a p t sock = Ok a' -> frame a a'.
Proof. unfold start_transaction_timer. intros. inv_res. destruct a0. by apply frame_upd_transaction in H. Qed.

Lemma frame_connect a p b a' : connect_tcp_active a p = Ok (b, a') -> frame a a'.
Proof. unfold connect_tcp_active. intros. walk; frame_solve. Qed.

Lemma frame_remove_transaction a p t sid cid a' : priv_remove_stun_transaction a p t sid cid = Ok a' -> frame a a'.
Proof.
  unfold priv_remove_stun_transaction. intros. inv_res. apply frame_modify in H; [frame_solve|].
  intros x. cbv zeta. by destruct (cp_stun_transactions _).
Qed.

Lemma frame_cancel a p t sid cid r a' : cancel_transaction a p t sid cid = Ok (r, a') -> frame a a'.
Proof. unfold cancel_transaction. intros. inv_res. by apply frame_remove_transaction in Ha1. Qed.

Lemma frame_send_request a p t sid cid n r a' : send_request a p t sid cid n = Ok (r, a') -> frame a a'.
Proof.
  unfold send_request. intros. inv_res. destruct a0 as [b a1]. apply frame_connect in Ha. destruct b; cbn [negb] in H.
  - inv_res. destruct (stx_message a2) as [msg|]; [|done].
    pose proof (frame_socket_send a1 (cp_sockptr a0) (c_addr (cp_remote a0)) n (buffer msg)) as F.
    destruct (agent_socket_send _ _ _ _ _) as [ret a3]. cbn [snd] in F. branch H; [apply frame_cancel in H; frame_solve|].
    inv_res. branch Ha2; inv_res; [apply frame_legacy_send in Ha2|]; frame_solve.
  - apply frame_cancel in H. frame_solve.
Qed.

Lemma frame_add_transaction a p ptr t a' : priv_add_stun_transaction a p ptr t = Ok a' -> frame a a'.
Proof. unfold priv_add_stun_transaction. by apply frame_modify. Qed.

Lemma frame_send a p r a' : conn_check_send package_string a p = Ok (r, a') -> frame a a'.
Proof.
  unfold conn_check_send. intros. inv_res. destruct (agent_find_component _ _ _) as [[s c]|]; inv_res; [|done]. cbv zeta in H.
  inv_res. assert (F1 : frame a a1) by (clear -Ha0; walk; frame_solve). destruct (_ =? 0); inv_res; [frame_solve|].
  apply frame_add_transaction in Ha1. assert (F2 : frame a1 a2) by (etrans; [apply frame_bump|exact Ha1]; lia). clear Ha0 Ha1.
  destruct a3 as [[n ag] msg]. inv_res. apply frame_upd_transaction in Ha0.
  destruct (n =? 0); inv_res; [apply frame_cancel in H|apply frame_start_timer in Ha1; apply frame_send_request in H]; frame_solve.
Qed.

(** ** The steps of the timer *)

Lemma wf_initiate a p b a' : wf a -> priv_conn_check_initiate package_string a p = Ok (b, a') -> wf a'.
Proof.
  intros W H. unfold priv_conn_check_initiate in H. inv_res. apply frame_SET_PAIR_STATE in Ha. destruct a1 as [r a1]. apply frame_send in Ha0.
  assert (W1 : wf a1) by eauto using wf_frame. destruct (r =? 0); cbn [negb] in H; inv_res; [done|].
  destruct (agent_find_component _ _ _) as [[s c]|]; inv_res; eauto using wf_frame, frame_SET_PAIR_STATE, wf_ready, frame_pair_fail.
Qed.

Lemma wf_ordinary a sid b a' : wf a -> priv_conn_check_ordinary_check package_string a sid = Ok (b, a') -> wf a'.
Proof.
  intros W H. unfold priv_conn_check_ordinary_check in H. inv_res. destruct a2 as [found a2].
  assert (W2 : wf a2).
  { destruct a1; inv_res; [done|]. destruct a1 as [r a1]. inv_res. eauto using wf_frame, frame_unfreeze_next. }
  destruct found; [|by inv_res]. eauto using wf_initiate.
Qed.

Lemma wf_triggered a sid b a' : wf a -> priv_conn_check_triggered_check package_string a sid = Ok (b, a') -> wf a'.
Proof.
  intros W H. unfold priv_conn_check_triggered_check, priv_get_pair_from_triggered_check_queue in H.
  destruct (a_triggered_check_queue a); [by inv_res|]. eapply wf_initiate, H. by apply wf_unqueue.
Qed.

Lemma frame_transactions now p sid cid js : forall a n m r a',
  transactions_loop a now p sid cid js n m = Ok (r, a') -> frame a a'.
Proof.
  induction js as [|t js IH]; intros a n m r a' H; cbn [transactions_loop] in H; [by inv_res|].
  branch H; [by eauto|]. cbv zeta in H. inv_res. destruct a0 as [u timer]. inv_res. apply frame_upd_transaction in Ha0. destruct u.
  - inv_res. apply frame_upd_transaction in Ha1. apply IH in H. frame_solve.
  - inv_res. branch H; inv_res; [apply frame_remove_transaction in Ha2; apply IH in H; frame_solve|].
    destruct (stx_message t) as [msg|]; inv_res.
    pose proof (frame_socket_send a0 (cp_sockptr a1) (c_addr (cp_remote a1)) a2 (buffer msg)) as F.
    destruct (agent_socket_send _ _ _ _ _) as [ret a3]. cbn [snd] in F. inv_res. apply frame_upd_transaction in Ha3. frame_solve.
  - inv_res. apply frame_remove_transaction in Ha1. apply IH in H. frame_solve.
Qed.

Lemma wf_tick_stream_loop n now sid : forall a i b a', wf a -> tick_stream_loop n a now sid i = Ok (b, a') -> wf a'.
Proof.
  induction n as [|n IH]; intros a i b a' W H; cbn [tick_stream_loop] in H; (destruct i as [p|]; [|by inv_res]); [done|].
  inv_res. destruct a1 as [sent a1]. assert (W1 : wf a1).
  { clear -W Ha0. destruct (cp_stun_transactions a0) as [|t js]; [by inv_res|].
    destruct (agent_find_component _ _ _) as [[s c]|]; inv_res; [|done]. destruct a2 as [[u m] a2]. apply frame_transactions in Ha.
    assert (wf a2) by eauto using wf_frame. walk; eauto using wf_ready, wf_frame, frame_pair_fail. }
  destruct sent; inv_res; [done|]. eauto.
Qed.

Lemma wf_tick_stream a sid b a' : wf a -> priv_conn_check_tick_stream a sid = Ok (b, a') -> wf a'.
Proof. intros W H. unfold priv_conn_check_tick_stream in H. cbv zeta in H. inv_res. by eapply wf_tick_stream_loop. Qed.
End tick.

(** ** Nomination *)

Lemma wf_nominate_component a sid cid other b a' : wf a -> nominate_component a sid cid other = Ok (b, a') -> wf a'.
Proof.
  intros W H. unfold nominate_component in H. cbv zeta in H. inv_res. destruct (already_done a1); inv_res; [done|].
  destruct a3 as [[this f1] f2]. destruct this as [p|]; inv_res; [|done]. destruct (stopping_criterion _ _ _ _); inv_res; [|done].
  pose proof Ha3 as F%frame_modify; [|done]. apply modify_inv in Ha3 as (x & Hx & _). assert (W3 : wf a3) by eauto using wf_frame.
  apply wf_enqueue; [done|]. rewrite (all_checks_frame _ _ F). by eapply wf_listed.
Qed.

Lemma wf_nominate_components sid other cs : forall a keep b a', wf a -> nominate_components a sid other cs keep = Ok (b, a') -> wf a'.
Proof.
  induction cs as [|c cs IH]; intros a keep b a' W H; cbn [nominate_components] in H; inv_res; [done|]. destruct a0.
  eauto using wf_nominate_component.
Qed.

Section nominate.
Context {K : Keepalive} {KF : KeepaliveFrame}.

(** The pair that was selected is still live: the signal reads it. *)
Lemma selected_live a sid cid p a' : conn_check_update_selected_pair a sid cid p = Ok a' -> is_Some (a_pairs a' !! p).
Proof.
  unfold conn_check_update_selected_pair. intros H. inv_res. apply deref_inv in Ha0. branch H; inv_res; [|eauto].
  destruct a3 as [? ?]. inv_res. apply deref_inv in Ha4. by eexists.
Qed.

Lemma wf_nominate_legacy sid cs : forall a keep b a', wf a -> nominate_legacy a sid cs keep = Ok (b, a') -> wf a'.
Proof.
  induction cs as [|c cs IH]; intros a keep b a' W H; cbn [nominate_legacy] in H; inv_res; [done|]. destruct a1 as [p|]; [|by eauto].
  inv_res. apply frame_modify in Ha1; [|done]. destruct (selected_live _ _ _ _ _ Ha2) as [x Hx].
  eapply IH, H. eapply wf_enqueue_live, Hx. eauto using wf_selected, wf_frame.
Qed.

Lemma wf_nominate a sid b a' : wf a -> priv_conn_check_tick_stream_nominate a sid = Ok (b, a') -> wf a'.
Proof.
  intros W H. unfold priv_conn_check_tick_stream_nominate in H. inv_res. destruct a2 as [[n1 n2] n3]. cbv zeta in H. inv_res.
  destruct a2 as [keep a2]. inv_res. apply (wf_frame a2).
  - split; first [done|by apply lists_upd_other].
  - clear -KF W Ha2. repeat (branch Ha2; inv_res); eauto using wf_nominate_components, wf_nominate_legacy.
Qed.

(** ** The callback *)

Lemma wf_until_sent step sids : (forall a sid b a', wf a -> step a sid = Ok (b, a') -> wf a') ->
  forall a sent b a', wf a -> until_sent step a sids sent = Ok (b, a') -> wf a'.
Proof.
  intros Hs. induction sids as [|sid sids IH]; intros a sent b a' W H; cbn [until_sent] in H; [by inv_res|].
  destruct sent; inv_res; [done|]. destruct a0. eauto.
Qed.

Lemma wf_nominate_streams sids : forall a keep b a', wf a -> nominate_streams a sids keep = Ok (b, a') -> wf a'.
Proof.
  induction sids as [|sid sids IH]; intros a keep b a' W H; cbn [nominate_streams] in H; inv_res; [done|]. destruct a0.
  eauto using wf_nominate.
Qed.

End nominate.

Lemma wf_failed a sid a' : wf a -> priv_update_check_list_failed_components a sid = Ok a' -> wf a'.
Proof.
  intros W H. unfold priv_update_check_list_failed_components in H. inv_res.
  destruct (str_conncheck_list a0); [by inv_res|]. destruct (a_discovery_list a); [|by inv_res].
  eauto using wf_frame, frame_failed_components.
Qed.

Lemma wf_fail_streams sids : forall a a', wf a -> fail_streams a sids = Ok a' -> wf a'.
Proof. induction sids as [|sid sids IH]; intros a a' W H; cbn [fail_streams] in H; inv_res; eauto using wf_failed. Qed.

Section callback.
Context {K : Keepalive} {KF : KeepaliveFrame} {E : CheckEnv} {CL : CryptoLib} {B : Base64} (package_string : list Z).

Lemma wf_tick a b a' : wf a -> priv_conn_check_tick_agent_locked package_string a = Ok (b, a') -> wf a'.
Proof.
  intros W H. unfold priv_conn_check_tick_agent_locked in H. cbv zeta in H. inv_res. destruct a0 as [s1 a1]. inv_res.
  destruct a0 as [s2 a2]. inv_res. destruct a0 as [s3 a3]. inv_res. destruct a0 as [keep a4].
  apply wf_until_sent in Ha; [|eauto using wf_triggered|done]. apply wf_until_sent in Ha0; [|eauto using wf_tick_stream|done].
  apply wf_until_sent in Ha1; [|eauto using wf_ordinary|done]. apply wf_nominate_streams in Ha2; [|done].
  set (a5 := a4 <| a_conncheck_ongoing_idle_delay := _ |>) in H. assert (wf a5) by (eapply wf_frame, Ha2; by split).
  branch H; inv_res; eauto using wf_conn_check_stop, wf_fail_streams.
Qed.
End callback.

(** * Keepalives leave the check lists alone

    The implementation of the interface [Keepalive] keeps its promise, and
    the consent of the peer expires when it should. *)

Section frames.
Context {E : CheckEnv} {CL : CryptoLib} {B : Base64} {N : NetEnv} {R : ConsentInterval} (package_string : list Z).

Lemma frame_upd_selected a sid cid f : frame a (upd_selected a sid cid f).
Proof. apply frame_upd_component. Qed.

Lemma frame_consent_tick a sid cid a' : priv_conn_remote_consent_tick_agent_locked a sid cid = Ok a' -> frame a a'.
Proof.
  unfold priv_conn_remote_consent_tick_agent_locked, upd_selected. intros H. inv_res. cbv zeta in H. branch H; inv_res; walk; frame_solve.
Qed.

Lemma frame_next_ptr a : frame a (a <| a_next_ptr := a_next_ptr a + 1 |>).
Proof. apply frame_bump. lia. Qed.

Lemma frame_keepalive_conncheck a now sid cid l r m e x a' :
  keepalive_conncheck package_string a now sid cid l r m e = Ok (x, a') -> frame a a'.
Proof.
  unfold keepalive_conncheck, upd_selected. intros H. inv_res. cbv zeta in H. branch H; inv_res; [|done].
  destruct a1 as [[len ag] msg]. branch H; inv_res; [|frame_solve; apply frame_next_ptr].
  etrans; [apply frame_next_ptr|]. etrans; [|apply frame_socket_send].
  assert (F : forall b, frame b (b <| a_media_after_tick := false |>)) by by split. etrans; [|apply F]. clear F.
  destruct (sp_remote_consent_have _); inv_res; [|frame_solve]. apply frame_consent_tick in Ha1. frame_solve.
  destruct (_ =? 0); frame_solve.
Qed.

Lemma frame_keepalive_indication a now sid cid l r m e x a' : keepalive_indication a now sid cid l r m e = Ok (x, a') -> frame a a'.
Proof.
  unfold keepalive_indication, upd_selected. intros H. inv_res. cbv zeta in H. inv_res. destruct a1 as [[len ag] msg].
  branch H; inv_res; [|frame_solve; apply frame_next_ptr]. etrans; [apply frame_next_ptr|].
  match type of Ha1 with (if _ then _ ?b _ _ _ _ else _) = _ => trans b end.
  - etrans; [|apply frame_upd_component]. etrans; [|apply frame_socket_send]. frame_solve.
  - destruct (bool_decide _); [by apply frame_legacy_send in Ha1|by inv_res].
Qed.

Lemma frame_keepalive_component a now sid cid m e x a' :
  keepalive_component package_string a now sid cid m e = Ok (x, a') -> frame a a'.
Proof.
  unfold keepalive_component. intros H. inv_res. destruct (sp_local _); [|by inv_res]. branch H; [by inv_res|].
  destruct (next_tick_due _ _ _) as [m' due]. branch H; [by inv_res|]. destruct (sp_remote _); [|done].
  branch H; eauto using frame_keepalive_conncheck, frame_keepalive_indication.
Qed.

Lemma frame_keepalive_pairs now l : forall a m e x a', keepalive_pairs package_string a now m e l = Ok (x, a') -> frame a a'.
Proof.
  induction l as [|[sid cid] l IH]; intros a m e x a' H; cbn [keepalive_pairs] in H; inv_res; [done|].
  destruct a0 as [[[done m1] e1] a1]. apply frame_keepalive_component in Ha. destruct done; inv_res; [done|].
  apply IH in H. by etrans.
Qed.

Lemma frame_keepalive_host_loop now sid cid e server len buf l : forall a m x a',
  keepalive_host_loop a now sid cid m e server len buf l = (x, a') -> frame a a'.
Proof.
  induction l as [|c l IH]; intros a m x a' H; cbn [keepalive_host_loop] in H; [by injection H as <- <-|].
  branch H; [|by eauto]. destruct (next_tick_due _ _ _) as [m' due]. destruct due; [|by eauto]. injection H as <- <-.
  etrans; [apply frame_socket_send|]. apply frame_upd_component.
Qed.

Lemma frame_keepalive_host a now sid cid m e x a' : keepalive_host package_string a now sid cid m e = Ok (x, a') -> frame a a'.
Proof.
  unfold keepalive_host. intros H. inv_res. destruct (a_stun_server_ip a); [|by inv_res]. branch H; [|by inv_res].
  destruct (nice_address_set_from_string _ _) as [ok server]. destruct ok; [|by inv_res]. cbv zeta in H. inv_res.
  destruct a1 as [[len ag] msg]. inv_res. apply frame_keepalive_host_loop in H. etrans; [apply frame_next_ptr|done].
Qed.

Lemma frame_keepalive_hosts now l : forall a m e x a', keepalive_hosts package_string a now m e l = Ok (x, a') -> frame a a'.
Proof.
  induction l as [|[sid cid] l IH]; intros a m e x a' H; cbn [keepalive_hosts] in H; inv_res; [done|].
  destruct a0 as [[[done m1] e1] a1]. apply frame_keepalive_host in Ha. destruct done; inv_res; [done|].
  apply IH in H. by etrans.
Qed.

(** The promise of the interface. *)
#[export] Instance agent_keepalive_frame : KeepaliveFrame (K := agent_keepalive package_string).
Proof.
  intros a r a' H. unfold keepalive_tick, agent_keepalive, priv_conn_keepalive_tick_unlocked in H. cbv zeta in H. inv_res.
  destruct a0 as [[[done m1] e1] a1]. inv_res. destruct a0 as [[[done2 m2] e2] a2].
  apply frame_keepalive_pairs in Ha. assert (frame a1 a2) by (destruct done; [by inv_res|by eapply frame_keepalive_hosts]).
  trans a1; [done|]. trans a2; [done|]. branch H; inv_res; [done|by split].
Qed.

Lemma frame_keepalive_timer a r a' : priv_conn_keepalive_tick_agent_locked package_string a = Ok (r, a') -> frame a a'.
Proof.
  unfold priv_conn_keepalive_tick_agent_locked. intros H. inv_res. destruct a0 as [ret a1].
  apply (keepalive_frame (K := agent_keepalive package_string)) in Ha. destruct ret; cbn [negb] in H; inv_res; [exact Ha|]. etrans; [exact Ha|by split].
Qed.
End frames.
