(* ===== verification/CheckInboundInv.v ===== *)
(** * The invariant of the check lists under incoming messages

    Creating candidates, answers of STUN and TURN servers and every incoming
    message preserve the invariant of CheckInv. *)
From stdpp Require Import sorting.
From S2P Require Import Prelude CMem StunTypes StunMessage StunAgent StunTimer StunIce StunTurn Address Candidate IceTypes IceEnv CheckList CheckDriver Discovery CheckTick CheckNominate CheckResponse DiscoveryReply CheckInbound CheckInv CheckProps CheckTickInv.
Local Open Scope Z_scope.

(** ** Steps the invariant does not see *)

Lemma frame_upd_stream_initial a sid : frame a (upd_stream a sid (fun s => s <| str_initial_binding_request_received := true |>)).
Proof. split; try done. apply lists_upd_other; by intros. Qed.

Lemma frame_upd_refresh a p f : frame a (upd_refresh a p f).
Proof. by split. Qed.

Lemma frame_upd_discovery a p f a' : upd_discovery a p f = Ok a' -> frame a a'.
Proof. unfold upd_discovery. intros. inv_res. by split. Qed.

Lemma frame_refresh_free a r a' : refresh_free a r = Ok a' -> frame a a'.
Proof.
  unfold refresh_free. intros H. destruct (cr_destroy_data r); [apply frame_removed in H|inv_res]; [etrans; [|exact H]|]; by split.
Qed.

Lemma frame_credentials `{CheckEnv} `{Base64} a c c' a' : priv_generate_candidate_credentials a c = (c', a') -> frame a a'.
Proof. unfold priv_generate_candidate_credentials. destruct (a_compatibility a); intros [= <- <-]; by split. Qed.

Lemma frame_new_candidate a ty c a' : new_candidate a ty = (c, a') -> frame a a'.
Proof. intros [= <- <-]. apply frame_bump. lia. Qed.

Lemma frame_assign a c c' a' : priv_assign_foundation a c = Ok (c', a') -> frame a a'.
Proof. unfold priv_assign_foundation. intros. inv_res. destruct a0; inv_res; [done|by split]. Qed.

Lemma frame_open `{CheckEnv} a t addr s a' : open_host_socket a t addr = (s, a') -> frame a a'.
Proof. intros [= <- <-]. apply frame_log. Qed.

(** A change of fields the invariant does not mention, after a step. *)
Lemma wf_then a b : wf a -> frame a b -> wf b.
Proof. eauto using wf_frame. Qed.

(** ** Computations that keep the invariant *)

Definition keeps {A} (out : A -> NiceAgent) (m : res A) : Prop := forall x, m = Ok x -> wf (out x).

Lemma keeps_ok {A} (out : A -> NiceAgent) x : wf (out x) -> keeps out (Ok x).
Proof. intros W y [= <-]. done. Qed.

Lemma keeps_fault {A} (out : A -> NiceAgent) e : keeps out (Fault e).
Proof. intros y [=]. Qed.

Lemma keeps_bind {A B} (out : B -> NiceAgent) (m : res A) f : (forall x, m = Ok x -> keeps out (f x)) -> keeps out (m ≫= f).
Proof. intros H y Hy. apply bind_Ok_inv in Hy as (x & Hx & Hy). by eapply H. Qed.

Lemma keeps_bind_agent {B} (out : B -> NiceAgent) (m : res NiceAgent) f :
  keeps id m -> (forall a, m = Ok a -> wf a -> keeps out (f a)) -> keeps out (m ≫= f).
Proof. intros Hm H. apply keeps_bind. intros a Ha. apply H; [done|]. by apply (Hm a). Qed.

Lemma keeps_bind_pair {A B} (out : B -> NiceAgent) (m : res (A * NiceAgent)) f :
  keeps snd m -> (forall x a, m = Ok (x, a) -> wf a -> keeps out (f (x, a))) -> keeps out (m ≫= f).
Proof. intros Hm H. apply keeps_bind. intros [x a] Ha. apply H; [done|]. by apply (Hm (x, a)). Qed.

Lemma keeps_frame a (m : res NiceAgent) : wf a -> (forall b, m = Ok b -> frame a b) -> keeps id m.
Proof. intros W H b Hb. exact (wf_then _ _ W (H _ Hb)). Qed.

Lemma keeps_frame_pair {A} a (m : res (A * NiceAgent)) : wf a -> (forall x b, m = Ok (x, b) -> frame a b) -> keeps snd m.
Proof. intros W H [x b] Hb. exact (wf_then _ _ W (H _ _ Hb)). Qed.

Create HintDb keeps.

(** A state that differs from one known to be fine in other fields. *)
Ltac wf_near :=
  match goal with
  | W : wf ?a |- wf ?a => exact W
  | W : wf ?a |- wf _ => apply (wf_then a _ W); frame_solve; split; first [done | unfold upd_refresh; rsimpl; lia]
  end.

(** A step that cannot fail; the lemmas about such steps are in [frames]. *)
#[export] Hint Resolve frame_new_candidate frame_open frame_credentials : frames.
Ltac pure_step H :=
  lazymatch type of H with
  | ?m = (?x, ?b) => eassert (frame _ b) as H' by (eauto with frames nocore); clear H; rename H' into H
  end;
  lazymatch type of H with
  | frame ?a ?b => let W := fresh "W" in assert (W : wf b) by (apply (wf_then a); [wf_near|exact H]); clear H
  end.
Ltac keep_step :=
  lazymatch goal with
  | |- keeps _ (Ok _) => apply keeps_ok; cbn [snd id]
  | |- keeps _ (Fault _) => apply keeps_fault
  | |- keeps _ (mbind _ ?m) =>
      lazymatch type of m with
      | res NiceAgent => apply keeps_bind_agent; [|intros ? ? ?]
      | res (_ * NiceAgent) => apply keeps_bind_pair; [|intros ? ? ? ?]
      | _ => apply keeps_bind; intros ? ?
      end
  | |- keeps _ (match ?x with (_, _) => _ end) =>
      let H := fresh "H" in destruct x eqn:H; try pure_step H
  | |- keeps _ (match ?x with _ => _ end) => destruct x eqn:?
  | |- wf (if ?b then _ else _) => destruct b
  | |- wf (match ?x with _ => _ end) => destruct x
  end.
Ltac keep := repeat (cbv zeta; first [keep_step | solve [eauto 9 with keeps] | wf_near]).

Section callees.
Context {E : CheckEnv} {CL : CryptoLib} {B : Base64} {N : NetEnv} {K : Keepalive} {KF : KeepaliveFrame}.

Lemma keeps_modify a p f : wf a -> (forall x, CheckInv.key (f x) = CheckInv.key x) -> keeps id (modify a p f).
Proof. intros W Hf. apply (keeps_frame a); [done|]. intros b Hb. by eapply frame_modify. Qed.

Lemma keeps_state a p st : wf a -> keeps id (SET_PAIR_STATE a p st).
Proof. intros W. apply (keeps_frame a); [done|]. intros b. apply frame_SET_PAIR_STATE. Qed.

Lemma keeps_fail a sid p : wf a -> keeps id (candidate_check_pair_fail a sid p).
Proof. intros W. apply (keeps_frame a); [done|]. intros b. apply frame_pair_fail. Qed.

Lemma keeps_signal a sid cid st : wf a -> keeps id (agent_signal_component_state_change a sid cid st).
Proof. intros W. apply (keeps_frame a); [done|]. intros b. apply frame_signal. Qed.

Lemma keeps_free_all a p c : wf a -> keeps id (priv_free_all_stun_transactions a p c).
Proof. intros W. apply (keeps_frame a); [done|]. intros b. apply frame_free_all. Qed.

Lemma keeps_unfreeze_related a p : wf a -> keeps id (conn_check_unfreeze_related a p).
Proof. intros W. apply (keeps_frame a); [done|]. intros b. apply frame_unfreeze_related. Qed.

Lemma keeps_add_valid a sid cid c : wf a -> keeps id (nice_component_add_valid_candidate a sid cid c).
Proof. intros W. apply (keeps_frame a); [done|]. intros b. apply frame_add_valid. Qed.

Lemma keeps_remove_transaction a p t sid cid : wf a -> keeps id (priv_remove_stun_transaction a p t sid cid).
Proof. intros W. apply (keeps_frame a); [done|]. intros b. apply frame_remove_transaction. Qed.

Lemma keeps_legacy_send a ag msg sock addr : wf a -> keeps id (ms_ice2_legacy_conncheck_send a ag msg sock addr).
Proof. intros W. apply (keeps_frame a); [done|]. intros b. apply frame_legacy_send. Qed.

Lemma keeps_upd_discovery a p f : wf a -> keeps id (upd_discovery a p f).
Proof. intros W. apply (keeps_frame a); [done|]. intros b. apply frame_upd_discovery. Qed.

Lemma keeps_refresh_free a r : wf a -> keeps id (refresh_free a r).
Proof. intros W. apply (keeps_frame a); [done|]. intros b. apply frame_refresh_free. Qed.

Lemma keeps_prune_async a l cb : wf a -> keeps id (refresh_prune_async a l cb).
Proof. intros W. apply (keeps_frame a); [done|]. intros b. apply frame_prune_async. Qed.

Lemma keeps_assign a c : wf a -> keeps snd (priv_assign_foundation a c).
Proof. intros W. apply (keeps_frame_pair a); [done|]. intros x b. apply frame_assign. Qed.

Lemma keeps_selected a sid cid p : wf a -> keeps id (conn_check_update_selected_pair a sid cid p).
Proof. intros W b. by apply wf_selected. Qed.

Lemma keeps_ready a sid cid : wf a -> keeps id (conn_check_update_check_list_state_for_ready a sid cid).
Proof. intros W b. by apply wf_ready. Qed.

Lemma keeps_role a control : wf a -> keeps id (priv_check_for_role_conflict a control).
Proof. intros W b. by apply wf_role_switch. Qed.

Lemma keeps_prune_socket a sid cid sock : wf a -> keeps id (conn_check_prune_socket a sid cid sock).
Proof. intros W b. by apply wf_prune_socket. Qed.

Lemma keeps_peer_pair a sid cid l p : wf a -> keeps snd (priv_add_peer_reflexive_pair a sid cid l p).
Proof. intros W [x b]. by apply wf_peer_reflexive. Qed.

Lemma keeps_triggered a sid cid sock r : wf a -> keeps snd (priv_schedule_triggered_check a sid cid sock r).
Proof. intros W [x b]. by apply wf_schedule_triggered. Qed.

Lemma keeps_nominated a sid cid l r : wf a -> keeps snd (priv_mark_pair_nominated a sid cid l r).
Proof. intros W [x b]. by apply wf_mark_nominated. Qed.

Lemma keeps_matched a sid cid l r st : wf a -> keeps snd (priv_conn_check_add_for_candidate_pair_matched a sid cid l r st).
Proof. intros W [x b] H. by apply wf_add_matched in H as [? _]. Qed.

Lemma keeps_add_remote a sid cid c : wf a -> keeps snd (conn_check_add_for_candidate a sid cid c).
Proof. intros W [x b]. by apply wf_add_for_candidate. Qed.

Lemma keeps_add_local a sid cid c : wf a -> keeps snd (conn_check_add_for_local_candidate a sid cid c).
Proof. intros W [x b]. by apply wf_add_for_local. Qed.

Lemma wf_send a sock addr len buf : wf a -> wf (snd (agent_socket_send a sock addr len buf)).
Proof. intros W. exact (wf_then _ _ W (frame_socket_send _ _ _ _ _)). Qed.

Lemma wf_discovery_prune a f : wf a -> wf (discovery_prune a f).
Proof. intros W. exact (wf_then _ _ W (frame_discovery_prune _ _)). Qed.

Lemma wf_upd_stream_initial a sid : wf a -> wf (upd_stream a sid (fun s => s <| str_initial_binding_request_received := true |>)).
Proof. intros W. exact (wf_then _ _ W (frame_upd_stream_initial _ _)). Qed.
End callees.

#[export] Hint Resolve keeps_modify keeps_state keeps_fail keeps_signal keeps_free_all keeps_unfreeze_related keeps_add_valid keeps_remove_transaction keeps_legacy_send keeps_upd_discovery keeps_refresh_free keeps_prune_async keeps_assign keeps_selected keeps_ready keeps_role keeps_prune_socket keeps_peer_pair keeps_triggered keeps_nominated keeps_matched keeps_add_remote keeps_add_local wf_send wf_discovery_prune wf_upd_stream_initial wf_unqueue : keeps.
#[export] Hint Extern 3 (wf _) => wf_near : keeps.
#[export] Hint Extern 2 (wf (match ?x with _ => _ end)) => destruct x : keeps.
#[export] Hint Extern 1 (forall x, CheckInv.key _ = CheckInv.key _) => by intros : keeps.

(** ** Creating candidates *)

Section creating.
Context {E : CheckEnv} {CL : CryptoLib} {B : Base64} {N : NetEnv}.

Lemma keeps_pruned a sid cid c : wf a -> keeps snd (priv_add_local_candidate_pruned a sid cid c).
Proof. intros W. unfold priv_add_local_candidate_pruned. keep. Qed.
#[local] Hint Resolve keeps_pruned : keeps.

Lemma keeps_host a sid cid addr t dup : wf a -> keeps snd (discovery_add_local_host_candidate a sid cid addr t dup).
Proof.
  intros W. unfold discovery_add_local_host_candidate. keep. Qed.

Lemma keeps_reflexive a sid cid addr t sock server nat :
  wf a -> keeps id (discovery_add_server_reflexive_candidate a sid cid addr t sock server nat).
Proof. intros W. unfold discovery_add_server_reflexive_candidate. keep. Qed.
#[local] Hint Resolve keeps_reflexive : keeps.

Lemma keeps_tcp_loop sid cid base server l : forall a addr, wf a -> keeps id (tcp_reflexive_loop a sid cid base addr server l).
Proof. induction l as [|c l IH]; intros a addr W; cbn [tcp_reflexive_loop]; keep. Qed.
#[local] Hint Resolve keeps_tcp_loop : keeps.

Lemma keeps_tcp a sid cid addr sock server : wf a -> keeps id (discovery_discover_tcp_server_reflexive_candidates a sid cid addr sock server).
Proof. intros W. unfold discovery_discover_tcp_server_reflexive_candidates. keep. Qed.

Lemma keeps_relay a sid cid addr t sock turn life : wf a -> keeps snd (discovery_add_relay_candidate a sid cid addr t sock turn life).
Proof. intros W. unfold discovery_add_relay_candidate. keep. Qed.

Lemma keeps_peer a sid cid prio addr sock l r : wf a -> keeps snd (discovery_add_peer_reflexive_candidate a sid cid prio addr sock l r).
Proof. intros W. unfold discovery_add_peer_reflexive_candidate. keep. Qed.

Lemma keeps_learn a sid cid prio addr sock l r :
  wf a -> keeps snd (discovery_learn_remote_peer_reflexive_candidate a sid cid prio addr sock l r).
Proof. intros W. unfold discovery_learn_remote_peer_reflexive_candidate. keep. Qed.
End creating.

#[export] Hint Resolve keeps_host keeps_reflexive keeps_tcp keeps_relay keeps_peer keeps_learn : keeps.

(** ** Answers to checks *)

Section answers.
Context {E : CheckEnv} {CL : CryptoLib} {B : Base64} {N : NetEnv} {K : Keepalive} {KF : KeepaliveFrame}.

Lemma keeps_mark_succeeded a p sid cid : wf a -> keeps id (mark_succeeded a p sid cid).
Proof. intros W. unfold mark_succeeded. keep. Qed.
#[local] Hint Resolve keeps_mark_succeeded : keeps.

Lemma keeps_process_response a sid cid p sock mapped l r :
  wf a -> keeps snd (priv_process_response_check_for_reflexive a sid cid p sock mapped l r).
Proof. intros W. unfold priv_process_response_check_for_reflexive. keep. Qed.
#[local] Hint Resolve keeps_process_response : keeps.

Lemma keeps_conclude a sid cid p : wf a -> keeps id (fail_and_conclude a sid cid p).
Proof. intros W. unfold fail_and_conclude. keep. Qed.
#[local] Hint Resolve keeps_conclude : keeps.

Lemma keeps_succeeded a sid cid p sock mapped l r : wf a -> keeps id (check_succeeded a sid cid p sock mapped l r).
Proof. intros W. unfold check_succeeded. keep. Qed.
#[local] Hint Resolve keeps_succeeded : keeps.

(** The pair of a transaction is live. *)
Lemma wf_requeue a a' p t sid cid : priv_remove_stun_transaction a p t sid cid = Ok a' -> wf a' -> wf (priv_add_pair_to_triggered_check_queue a' p).
Proof.
  intros H W. unfold priv_remove_stun_transaction in H. inv_res. apply modify_inv in H as (x & Hx & ->).
  eapply wf_enqueue_live; [done|]. apply lookup_insert_eq.
Qed.
#[local] Hint Resolve wf_requeue : keeps.

Lemma keeps_map_reply a sid cid sock from l r resp : wf a -> keeps snd (priv_map_reply_to_conn_check_request a sid cid sock from l r resp).
Proof. intros W. unfold priv_map_reply_to_conn_check_request. keep. Qed.
End answers.

#[export] Hint Resolve keeps_map_reply : keeps.

(** ** Answers of servers *)

(** Another server address changes no priority. *)
Lemma wf_set_turn_server a ptr addr : wf a -> wf (set_turn_server a ptr addr).
Proof.
  intros W. set (f := fun x : CandidateCheckPair => x <| cp_local := retarget_candidate ptr addr (cp_local x) |>).
  assert (Hl : lists (set_turn_server a ptr addr) = lists a).
  { unfold lists, set_turn_server. rsimpl. rewrite <-list_fmap_compose. by apply list_fmap_ext. }
  assert (Hc : all_checks (set_turn_server a ptr addr) = all_checks a) by (by rewrite !all_checks_lists, Hl).
  assert (Hp : forall p, a_pairs (set_turn_server a ptr addr) !! p = f <$> a_pairs a !! p) by (intros; apply lookup_fmap).
  assert (Hq : forall p, prio_at (a_pairs (set_turn_server a ptr addr)) p = prio_at (a_pairs a) p).
  { intros p. unfold prio_at. rewrite Hp. by destruct (a_pairs a !! p). }
  destruct W as [W1 W2 W3 W4 W5 W6 W7 W8 W9 W10]. split; rewrite ?Hl, ?Hc; try done.
  - intros p x. rewrite Hp. intros (y & Hy & _)%fmap_Some. eauto.
  - intros sid l p Hin Hpl. destruct (W4 sid l p Hin Hpl) as (x & Hx & Hs & Hpr). exists (f x). rewrite Hp, Hx. done.
  - intros sid l Hin. eapply StronglySorted_weaken; [|by eapply W5]. intros p q _ _. unfold above. by rewrite !Hq.
  - intros p x. rewrite Hp. intros (y & Hy & _)%fmap_Some. by apply (W6 p y).
Qed.

Lemma wf_unsched a v : wf a -> wf (a <| a_discovery_unsched_items := v |>).
Proof. intros W. wf_near. Qed.

Lemma wf_log e a : wf a -> wf (log e a).
Proof. intros W. wf_near. Qed.

Lemma wf_upd_refresh a p f : wf a -> wf (upd_refresh a p f).
Proof. intros W. wf_near. Qed.

Lemma wf_bump a : wf a -> wf (a <| a_next_ptr := a_next_ptr a + 1 |>).
Proof. intros W. wf_near. Qed.

Lemma wf_upd_component a sid cid f : wf a -> wf (upd_component a sid cid f).
Proof. intros W. wf_near. Qed.
#[export] Hint Resolve wf_set_turn_server wf_unsched wf_log wf_upd_refresh wf_upd_component wf_bump : keeps.

Section servers.
Context {E : CheckEnv} {CL : CryptoLib} {B : Base64} {N : NetEnv} (package_string : list Z).

Lemma keeps_bind_reply a ptr resp server : wf a -> keeps snd (bind_reply a ptr resp server).
Proof. intros W. unfold bind_reply. keep. Qed.

Lemma keeps_discovery_loop reply type id ptrs : (forall a ptr, wf a -> keeps snd (reply a ptr)) ->
  forall a, wf a -> keeps snd (discovery_loop reply type id a ptrs).
Proof. intros Hr. induction ptrs as [|ptr ptrs IH]; intros a W; cbn [discovery_loop]; keep. Qed.

Lemma keeps_map_discovery a resp server : wf a -> keeps snd (priv_map_reply_to_discovery_request a resp server).
Proof. intros W. unfold priv_map_reply_to_discovery_request. keep. apply keeps_discovery_loop; [|done]. intros. by apply keeps_bind_reply. Qed.

Lemma keeps_prune_relay a sid cid c : wf a -> keeps id (nice_component_prune_relay_candidate a sid cid c).
Proof. intros W. unfold nice_component_prune_relay_candidate, refresh_prune_candidate_async, discovery_prune_socket. keep. Qed.
#[local] Hint Resolve keeps_prune_relay : keeps.

Lemma keeps_add_refresh a d c life : wf a -> keeps id (priv_add_new_turn_refresh a d c life).
Proof. intros W. unfold priv_add_new_turn_refresh. keep. Qed.
#[local] Hint Resolve keeps_add_refresh : keeps.

Lemma keeps_alternate_loop type sid tt server alt ptrs : forall a, wf a -> keeps id (alternate_loop a type sid tt server alt ptrs).
Proof. induction ptrs as [|ptr ptrs IH]; intros a W; cbn [alternate_loop]; keep. Qed.
#[local] Hint Resolve keeps_alternate_loop : keeps.

Lemma keeps_alternate a d server alt : wf a -> keeps id (priv_handle_turn_alternate_server a d server alt).
Proof. intros W. unfold priv_handle_turn_alternate_server. keep. Qed.
#[local] Hint Resolve keeps_alternate : keeps.

Lemma keeps_mapped a d turn addr mapped : wf a -> keeps id (add_mapped_candidates a d turn addr mapped).
Proof. intros W. unfold add_mapped_candidates. keep. Qed.
#[local] Hint Resolve keeps_mapped : keeps.

Lemma wf_set_ms_data a c d resp : wf a -> wf (set_ms_data a c d resp).
Proof. intros W. unfold set_ms_data. keep. Qed.
#[local] Hint Resolve wf_set_ms_data : keeps.

Lemma keeps_tcp_relay a d turn addr life resp : wf a -> keeps snd (add_tcp_active_relay a d turn addr life resp).
Proof. intros W. unfold add_tcp_active_relay. keep. Qed.
#[local] Hint Resolve keeps_tcp_relay : keeps.

Lemma keeps_allocated a ptr resp o mapped : wf a -> keeps id (allocate_success a ptr resp o mapped).
Proof. intros W. unfold allocate_success. keep. Qed.

Lemma keeps_refused a ptr resp alt : wf a -> keeps id (allocate_error a ptr resp alt).
Proof. intros W. unfold allocate_error. keep. Qed.
#[local] Hint Resolve keeps_allocated keeps_refused : keeps.

Lemma keeps_relay_reply a ptr resp : wf a -> keeps snd (relay_reply a ptr resp).
Proof. intros W. unfold relay_reply. keep. Qed.

Lemma keeps_map_relay a resp : wf a -> keeps snd (priv_map_reply_to_relay_request a resp).
Proof. intros W. unfold priv_map_reply_to_relay_request. keep. apply keeps_discovery_loop; [|done]. intros. by apply keeps_relay_reply. Qed.

Lemma keeps_create_refresh a r life : wf a -> keeps snd (create_refresh package_string a r life).
Proof. intros W. unfold create_refresh. keep. Qed.
#[local] Hint Resolve keeps_create_refresh : keeps.

Lemma wf_send_refresh a r len : wf a -> wf (send_refresh a r len).
Proof. intros W. by apply wf_send. Qed.
#[local] Hint Resolve wf_send_refresh : keeps.

Lemma keeps_refresh_tick a ptr : wf a -> keeps id (priv_turn_allocate_refresh_tick_unlocked package_string a ptr).
Proof. intros W. unfold priv_turn_allocate_refresh_tick_unlocked. keep. Qed.
#[local] Hint Resolve keeps_refresh_tick : keeps.

Lemma keeps_refresh_reply a ptr m resp : wf a -> keeps snd (refresh_reply package_string a ptr m resp).
Proof. intros W. unfold refresh_reply. keep. Qed.
#[local] Hint Resolve keeps_refresh_reply : keeps.

Lemma keeps_refresh_loop resp id ptrs : forall a, wf a -> keeps snd (refresh_loop package_string a resp id ptrs).
Proof. induction ptrs as [|ptr ptrs IH]; intros a W; cbn [refresh_loop]; keep. Qed.
#[local] Hint Resolve keeps_refresh_loop : keeps.

Lemma keeps_map_refresh a resp : wf a -> keeps snd (priv_map_reply_to_relay_refresh package_string a resp).
Proof. intros W. unfold priv_map_reply_to_relay_refresh. keep. Qed.

Lemma keeps_remove_loop resp id ptrs : forall a, wf a -> keeps snd (remove_loop a resp id ptrs).
Proof. induction ptrs as [|ptr ptrs IH]; intros a W; cbn [remove_loop]; keep. Qed.
#[local] Hint Resolve keeps_remove_loop : keeps.

Lemma keeps_map_remove a resp : wf a -> keeps snd (priv_map_reply_to_relay_remove a resp).
Proof. intros W. unfold priv_map_reply_to_relay_remove. keep. Qed.

Lemma keeps_retransmission a ptr : wf a -> keeps id (refresh_retransmission a ptr).
Proof. intros W. unfold refresh_retransmission. keep. Qed.
#[local] Hint Resolve keeps_retransmission : keeps.

Lemma keeps_refresh_retransmissions a ptr : wf a -> keeps id (priv_turn_allocate_refresh_retransmissions_tick_agent_locked a ptr).
Proof. intros W. unfold priv_turn_allocate_refresh_retransmissions_tick_agent_locked. keep. Qed.

Lemma keeps_refresh_remove a ptr : wf a -> keeps id (refresh_remove_async package_string a ptr).
Proof. intros W. unfold refresh_remove_async. keep. Qed.
End servers.

#[export] Hint Resolve keeps_map_discovery keeps_map_relay keeps_map_refresh keeps_map_remove : keeps.

(** ** Incoming messages *)

Section inbound.
Context {E : CheckEnv} {CL : CryptoLib} {B : Base64} {N : NetEnv} {K : Keepalive} {KF : KeepaliveFrame} (package_string : list Z).

Lemma keeps_validate_discoveries sid cid sock buf len v ptrs : forall a req valid,
  wf a -> keeps snd (validate_discoveries a sid cid sock req buf len v valid ptrs).
Proof. induction ptrs as [|ptr ptrs IH]; intros a req valid W; cbn [validate_discoveries]; keep. Qed.

Lemma keeps_validate_refreshes sid cid sock buf len v ptrs : forall a req valid,
  wf a -> keeps snd (validate_refreshes a sid cid sock req buf len v valid ptrs).
Proof. induction ptrs as [|ptr ptrs IH]; intros a req valid W; cbn [validate_refreshes]; keep. Qed.
#[local] Hint Resolve keeps_validate_discoveries keeps_validate_refreshes : keeps.

Lemma keeps_validate a sid cid sock buf len : wf a -> keeps snd (validate_inbound a sid cid sock buf len).
Proof. intros W. unfold validate_inbound. keep. Qed.

Lemma keeps_send_error a sid cid sock from req code : wf a -> keeps snd (send_error package_string a sid cid sock from req code).
Proof. intros W. unfold send_error. keep. Qed.

Lemma keeps_unknown a sid cid sock from req : wf a -> keeps id (send_unknown_attributes package_string a sid cid sock from req).
Proof. intros W. unfold send_unknown_attributes. keep. Qed.

Lemma keeps_fail_pairs sid from l : forall a, wf a -> keeps id (fail_pairs_to a sid from l).
Proof. induction l as [|p l IH]; intros a W; cbn [fail_pairs_to]; keep. Qed.
#[local] Hint Resolve keeps_validate keeps_send_error keeps_unknown keeps_fail_pairs : keeps.

Lemma keeps_forbidden a sid cid from : wf a -> keeps id (handle_forbidden a sid cid from).
Proof. intros W. unfold handle_forbidden. keep. Qed.

Lemma keeps_store a sid cid from sock u prio use : wf a -> keeps snd (priv_store_pending_check a sid cid from sock u prio use).
Proof. intros W. unfold priv_store_pending_check. keep. Qed.

Lemma keeps_reply a sid cid l r addr sock len msg use : wf a -> keeps id (priv_reply_to_conn_check a sid cid l r addr sock len msg use).
Proof. intros W. unfold priv_reply_to_conn_check. keep. Qed.

Lemma keeps_learn_remote a sid cid prio from sock l r : wf a -> keeps snd (learn_remote a sid cid prio from sock l r).
Proof. intros W. unfold learn_remote. keep. Qed.

Lemma wf_initial_binding a sid : wf a -> wf (signal_initial_binding_request a sid).
Proof. intros W. unfold signal_initial_binding_request. auto with keeps. Qed.
#[local] Hint Resolve keeps_forbidden keeps_store keeps_reply keeps_learn_remote wf_initial_binding : keeps.

Lemma keeps_accept a sid cid sock from req msg len l r r2 u : wf a -> keeps snd (accept_request a sid cid sock from req msg len l r r2 u).
Proof. intros W. unfold accept_request. keep. Qed.

(** Without renomination the nomination attribute has no effect. *)
Lemma keeps_renomination a sid cid req r l pending : wf a -> keeps id (conn_check_handle_renomination a sid cid req r l pending).
Proof. intros W. unfold conn_check_handle_renomination. rewrite (wf_no_renomination _ W), andb_false_r. keep. Qed.

Lemma keeps_dispatch a sid cid sock from l r resp : wf a -> keeps id (dispatch_response package_string a sid cid sock from l r resp).
Proof. intros W. unfold dispatch_response, priv_map_reply_to_keepalive_conncheck. keep. Qed.
#[local] Hint Resolve keeps_accept keeps_renomination keeps_dispatch : keeps.

Lemma keeps_request a sid cid sock from req l r r2 : wf a -> keeps snd (handle_request package_string a sid cid sock from req l r r2).
Proof. intros W. unfold handle_request. keep. Qed.
#[local] Hint Resolve keeps_request : keeps.

Lemma keeps_valid a sid cid sock from valid dmsg req : wf a -> keeps snd (handle_valid package_string a sid cid sock from valid dmsg req).
Proof. intros W. unfold handle_valid. keep. Qed.
#[local] Hint Resolve keeps_valid : keeps.

Lemma keeps_inbound a sid cid sock from buf len : wf a -> keeps snd (conn_check_handle_inbound_stun package_string a sid cid sock from buf len).
Proof. intros W. unfold conn_check_handle_inbound_stun. keep. Qed.
End inbound.
