(* ===== verification/StreamsInv.v ===== *)
(** * The invariant of the check lists under the operations of the application

    Adding, restarting and removing streams, gathering, the answers of the
    resolver and the properties preserve the invariant of CheckInv. *)
From stdpp Require Import sorting.
From S2P Require Import Prelude CMem StunTypes StunMessage StunAgent StunTimer StunIce StunTurn Address Candidate IceTypes IceEnv CheckList CheckDriver Discovery CheckTick KeepAlive AgentConfig CheckNominate CheckResponse DiscoveryReply CheckInbound Sdp RemoteCandidates Streams Gather CheckInv CheckProps CheckTickInv CheckInboundInv.
Local Open Scope Z_scope.

(** * The invariant of the check lists and the candidates of the peer

    Adding and updating remote candidates, setting credentials, replaying
    early checks and reading a session description preserve the invariant. *)

Lemma upd_candidate_lists a ptr f : lists (upd_candidate a ptr f) = lists a.
Proof. unfold lists, upd_candidate. rsimpl. rewrite <-list_fmap_compose. by apply list_fmap_ext. Qed.

(** The update may break the order of the lists, but not their shape. *)
Lemma shaped_upd_candidate a ptr f : wf a -> shaped (upd_candidate a ptr f).
Proof.
  intros W. apply wf_split in W as [S _]. eapply (shaped_permuted a); try done.
  - by rewrite upd_candidate_lists.
  - intros p. change (a_pairs (upd_candidate a ptr f)) with
      ((fun x => x <| cp_local := at_candidate ptr f (cp_local x) |> <| cp_remote := at_candidate ptr f (cp_remote x) |>) <$> a_pairs a).
    rewrite lookup_fmap. by destruct (a_pairs a !! p).
Qed.

Section remote.
Context {E : CheckEnv} {CL : CryptoLib} {B : Base64} {N : NetEnv} {K : Keepalive} {KF : KeepaliveFrame}.

Lemma keeps_recalculate a ptr f : wf a -> keeps id (recalculate_pair_priorities (upd_candidate a ptr f)).
Proof. intros W b Hb. destruct (recalculate_spec _ (shaped_upd_candidate a ptr f W)) as (b' & Hb' & Wb & _). rewrite Hb in Hb'. by injection Hb' as <-. Qed.

Lemma wf_set_selected_priority a sid cid v : wf a ->
  wf (upd_component a sid cid (fun c => c <| co_selected_pair := (co_selected_pair c) <| sp_priority := v |> |>)).
Proof. intros W. by apply wf_upd_component. Qed.
#[local] Hint Resolve keeps_recalculate wf_set_selected_priority : keeps.

Lemma keeps_set_foundation a p v : wf a -> keeps id (modify a p (fun x => x <| cp_foundation := v |>)).
Proof. intros W. by apply keeps_modify. Qed.
#[local] Hint Resolve keeps_set_foundation : keeps.

Lemma keeps_update_foundation a sid cid p : wf a -> keeps id (update_foundation a sid cid p).
Proof. intros W. unfold update_foundation. keep. Qed.
#[local] Hint Resolve keeps_update_foundation : keeps.

Lemma keeps_update_foundations_loop sid cid r l : forall a, wf a -> keeps id (update_foundations_loop a sid cid r l).
Proof. induction l as [|p l IH]; intros a W; cbn [update_foundations_loop]; keep. Qed.
#[local] Hint Resolve keeps_update_foundations_loop : keeps.

Lemma keeps_update_foundations a sid cid r : wf a -> keeps id (priv_update_pair_foundations a sid cid r).
Proof. intros W. unfold priv_update_pair_foundations. keep. Qed.
#[local] Hint Resolve keeps_update_foundations : keeps.

Lemma keeps_update_remote a sid cid c f : wf a -> keeps id (update_remote_candidate a sid cid c f).
Proof. intros W. unfold update_remote_candidate. keep. Qed.
#[local] Hint Resolve keeps_update_remote : keeps.

Lemma keeps_new_remote a sid cid ty addr base tr prio u p fd : wf a -> keeps snd (add_remote_candidate a sid cid ty addr base tr prio u p fd).
Proof. intros W. unfold add_remote_candidate. keep. Qed.
#[local] Hint Resolve keeps_new_remote : keeps.

Lemma keeps_add_remote_candidate a sid cid ty addr base tr prio u p fd : wf a ->
  keeps snd (priv_add_remote_candidate a sid cid ty addr base tr prio u p fd).
Proof. intros W. unfold priv_add_remote_candidate. keep. Qed.
#[local] Hint Resolve keeps_add_remote_candidate : keeps.

Lemma keeps_replay_check a sid cid ic l r : wf a -> keeps id (replay_check a sid cid ic l r).
Proof. intros W. unfold replay_check. keep. Qed.
#[local] Hint Resolve keeps_replay_check : keeps.

Lemma keeps_replay_checks sid cid ics : forall a l r, wf a -> keeps id (replay_checks a sid cid l r ics).
Proof. induction ics as [|ic ics IH]; intros a l r W; cbn [replay_checks]; keep. Qed.
#[local] Hint Resolve keeps_replay_checks : keeps.

Lemma keeps_candidates_set a sid cid : wf a -> keeps id (conn_check_remote_candidates_set a sid cid).
Proof. intros W. unfold conn_check_remote_candidates_set. keep. Qed.
#[local] Hint Resolve keeps_candidates_set : keeps.

Lemma keeps_credentials_loop sid cids : forall a, wf a -> keeps id (credentials_set_loop a sid cids).
Proof. induction cids as [|cid cids IH]; intros a W; cbn [credentials_set_loop]; keep. Qed.
#[local] Hint Resolve keeps_credentials_loop : keeps.

Lemma keeps_credentials_set a sid : wf a -> keeps id (conn_check_remote_credentials_set a sid).
Proof. intros W. unfold conn_check_remote_credentials_set. keep. Qed.
#[local] Hint Resolve keeps_credentials_set : keeps.

Lemma wf_upd_stream a sid f : wf a -> (forall s, str_id (f s) = str_id s) -> (forall s, str_conncheck_list (f s) = str_conncheck_list s) -> wf (upd_stream a sid f).
Proof. intros W H1 H2. apply (wf_then a); [done|]. split; try done. by apply lists_upd_other. Qed.

Lemma keeps_set_remote_credentials a sid u p : wf a -> keeps snd (nice_agent_set_remote_credentials a sid u p).
Proof.
  intros W. unfold nice_agent_set_remote_credentials. destruct (agent_find_stream a sid), u as [u|], p as [p|]; try (by apply keeps_ok).
  cbv zeta. apply keeps_bind_agent; [|intros; keep]. apply keeps_credentials_set. by apply wf_upd_stream.
Qed.

Lemma wf_set_local_credentials a sid u p : wf a -> wf (snd (nice_agent_set_local_credentials a sid u p)).
Proof.
  intros W. unfold nice_agent_set_local_credentials. destruct (agent_find_stream a sid), u, p; cbn [snd]; try done. by apply wf_upd_stream.
Qed.

Lemma keeps_set_remote_loop sid cid cs : forall a n, wf a -> keeps snd (set_remote_loop a sid cid n cs).
Proof. induction cs as [|c cs IH]; intros a n W; cbn [set_remote_loop]; keep. Qed.
#[local] Hint Resolve keeps_set_remote_loop : keeps.

Lemma keeps_set_remote_locked a sid cid cs : wf a -> keeps snd (_set_remote_candidates_locked a sid cid cs).
Proof. intros W. unfold _set_remote_candidates_locked. keep. Qed.
#[local] Hint Resolve keeps_set_remote_locked : keeps.

Lemma keeps_set_remote_candidates a sid cid cs : wf a -> keeps snd (nice_agent_set_remote_candidates a sid cid cs).
Proof. intros W. unfold nice_agent_set_remote_candidates. keep. Qed.

Lemma wf_parse_candidate a sid line c b : wf a -> nice_agent_parse_remote_candidate_sdp a sid line = (c, b) -> wf b.
Proof.
  intros W. unfold nice_agent_parse_remote_candidate_sdp. destruct (negb _); [by intros [= <- <-]|].
  destruct (sdp_tokens _); intros [= <- <-]; [by apply wf_bump|done].
Qed.

Lemma keeps_parse_lines lines : forall a cur ss ret, wf a -> keeps snd (parse_sdp_lines a cur ss ret lines).
Proof.
  induction lines as [|line lines IH]; intros a cur ss ret W; cbn [parse_sdp_lines]; [by apply keeps_ok|].
  destruct (g_str_has_prefix _ _); [destruct ss; [by apply keeps_ok|by apply IH]|].
  destruct (g_str_has_prefix _ _); [destruct cur; [apply IH; by apply wf_upd_stream|by apply keeps_ok]|].
  destruct (g_str_has_prefix _ _); [destruct cur; [apply IH; by apply wf_upd_stream|by apply keeps_ok]|].
  destruct (g_str_has_prefix _ _); [|by apply IH]. destruct cur as [sid|]; [|by apply keeps_ok].
  destruct (nice_agent_parse_remote_candidate_sdp a sid line) as [c b] eqn:Hp. apply wf_parse_candidate in Hp; [|done].
  destruct c as [d|]; [|by apply keeps_ok]. keep.
Qed.

Lemma keeps_parse_remote_sdp a sdp : wf a -> keeps snd (nice_agent_parse_remote_sdp a sdp).
Proof. intros W. by apply keeps_parse_lines. Qed.
End remote.
#[export] Hint Resolve keeps_set_remote_credentials wf_set_local_credentials keeps_set_remote_candidates keeps_parse_remote_sdp : keeps.

(** * The discovery timer stops when, and only when, every discovery is done

    Also: the timer and the end of gathering preserve the invariant of the
    check lists. *)

(** ** The check lists *)

Section gathering.
Context {N : NetEnv}.

Lemma keeps_add_pair a sid cid l r : wf a -> keeps snd (conn_check_add_for_candidate_pair a sid cid l r).
Proof. intros W [x b]. by apply wf_add_for_pair. Qed.
#[local] Hint Resolve keeps_add_pair : keeps.

Lemma keeps_pair_with sid cid l rs : forall a, wf a -> keeps id (pair_with_remotes a sid cid l rs).
Proof. induction rs as [|r rs IH]; intros a W; cbn [pair_with_remotes]; keep. Qed.
#[local] Hint Resolve keeps_pair_with : keeps.

Lemma keeps_pair_gathered sid cid ls : forall a, wf a -> keeps id (pair_gathered a sid cid ls).
Proof. induction ls as [|l ls IH]; intros a W; cbn [pair_gathered]; keep. Qed.
#[local] Hint Resolve keeps_pair_gathered : keeps.

Lemma keeps_gathered_components sid cids : forall a dns, wf a -> keeps snd (gathered_components a sid cids dns).
Proof. induction cids as [|cid cids IH]; intros a dns W; cbn [gathered_components]; keep. Qed.
#[local] Hint Resolve keeps_gathered_components : keeps.

Lemma keeps_gathered_streams sids : forall a dns, wf a -> keeps snd (gathered_streams a sids dns).
Proof. induction sids as [|sid sids IH]; intros a dns W; cbn [gathered_streams]; keep. Qed.
#[local] Hint Resolve keeps_gathered_streams : keeps.

Lemma frame_upd_gathering a sid b : frame a (upd_stream a sid (fun s => s <| str_gathering := b |>)).
Proof. split; try done. apply lists_upd_other; by intros. Qed.

Lemma wf_signal_done ss : forall a, wf a -> wf (signal_done_loop a ss).
Proof.
  induction ss as [|s ss IH]; intros a W; cbn [signal_done_loop]; [done|]. apply IH. destruct (str_gathering s); [|done].
  apply wf_log. exact (wf_then _ _ W (frame_upd_gathering _ _ _)).
Qed.

Lemma keeps_gathering_done a : wf a -> keeps id (agent_gathering_done a).
Proof. intros W. unfold agent_gathering_done, agent_signal_gathering_done. keep; by apply wf_signal_done. Qed.
End gathering.
#[export] Hint Resolve keeps_add_pair keeps_gathering_done : keeps.

Section tick.
Context {E : CheckEnv} {CL : CryptoLib} {B : Base64} {N : NetEnv} (package_string : list Z).

Lemma frame_try_send a d len m x b : try_send a d len m = (x, b) -> frame a b.
Proof.
  unfold try_send. destruct (0 <? len); [|by intros [= <- <-]]. pose proof (frame_socket_send a (cd_nicesock d) (cd_server d) len (buffer m)) as F.
  destruct (agent_socket_send _ _ _ _ _) as [n b']. by intros [= <- <-].
Qed.
#[local] Hint Resolve frame_try_send : frames.

Lemma keeps_start a ptr : wf a -> keeps snd (start_discovery package_string a ptr).
Proof. intros W. unfold start_discovery. keep. Qed.

Lemma keeps_run a ptr : wf a -> keeps snd (run_discovery a ptr).
Proof. intros W. unfold run_discovery. keep. Qed.
#[local] Hint Resolve keeps_start keeps_run : keeps.

Lemma keeps_step a ptr : wf a -> keeps snd (discovery_step package_string a ptr).
Proof. intros W. unfold discovery_step. keep. Qed.
#[local] Hint Resolve keeps_step : keeps.

Lemma keeps_tick_loop ptrs : forall a n, wf a -> keeps snd (discovery_tick_loop package_string a ptrs n).
Proof. induction ptrs as [|ptr ptrs IH]; intros a n W; cbn [discovery_tick_loop]; keep. Qed.
#[local] Hint Resolve keeps_tick_loop : keeps.

Lemma wf_discovery_free a : wf a -> wf (discovery_free a).
Proof. intros W. unfold discovery_free. cbv zeta. destruct (a_discovery_timer _); wf_near. Qed.
#[local] Hint Resolve wf_discovery_free : keeps.

Lemma keeps_discovery_tick a : wf a -> keeps snd (priv_discovery_tick_unlocked package_string a).
Proof. intros W. unfold priv_discovery_tick_unlocked. keep. Qed.
#[local] Hint Resolve keeps_discovery_tick : keeps.

Lemma keeps_discovery_timer a : wf a -> keeps snd (priv_discovery_tick_agent_locked package_string a).
Proof. intros W. unfold priv_discovery_tick_agent_locked. keep. Qed.

Lemma keeps_discovery_schedule a : wf a -> keeps id (discovery_schedule package_string a).
Proof. intros W. unfold discovery_schedule. keep. Qed.
End tick.

#[export] Hint Resolve keeps_discovery_tick keeps_discovery_timer keeps_discovery_schedule : keeps.

(** ** Steps the invariant does not see *)

Lemma frame_upd_stream a sid f : (forall s, str_id (f s) = str_id s) -> (forall s, str_conncheck_list (f s) = str_conncheck_list s) ->
  frame a (upd_stream a sid f).
Proof. intros. split; try done. by apply lists_upd_other. Qed.

Lemma frame_detach a sid cid sock b a' : nice_component_detach_socket a sid cid sock = (b, a') -> frame a a'.
Proof.
  unfold nice_component_detach_socket. destruct (has_socket_source _ _ _ _); intros [= <- <-]; [etrans; [|apply frame_log]|]; apply frame_upd_component.
Qed.

Lemma wf_detach a sid cid sock : wf a -> wf (nice_component_detach_socket a sid cid sock).2.
Proof. intros W. destruct (nice_component_detach_socket a sid cid sock) as [b a'] eqn:H. exact (wf_then _ _ W (frame_detach _ _ _ _ _ _ H)). Qed.

Lemma wf_on_candidate_pruned a c : wf a -> wf (on_candidate_refreshes_pruned a c).
Proof.
  intros W. unfold on_candidate_refreshes_pruned. destruct (agent_find_component _ _ _).
  - destruct (nice_component_detach_socket _ _ _ _) as [b a'] eqn:H. pose proof (wf_then _ _ W (frame_detach _ _ _ _ _ _ H)) as W'.
    destruct (c_sockptr c), b; try done. exact (wf_then _ _ W' (frame_log _ _)).
  - destruct (c_sockptr c); [exact (wf_then _ _ W (frame_log _ _))|done].
Qed.

Lemma wf_free_sources a sid cid : wf a -> wf (nice_component_free_socket_sources a sid cid).
Proof. intros W. apply (wf_then a _ W). unfold nice_component_free_socket_sources. frame_solve. Qed.

Lemma frame_component_restart a sid cid : frame a (nice_component_restart a sid cid).
Proof. apply frame_upd_component. Qed.

Lemma frame_credentials_init `{CheckEnv} a sid : frame a (nice_stream_initialize_credentials a sid).
Proof.
  unfold nice_stream_initialize_credentials. etrans; [|apply frame_upd_stream].
  - frame_solve.
  - intros s. repeat destruct (overwrite _ _ _). done.
  - intros s. repeat destruct (overwrite _ _ _). done.
Qed.

Lemma wf_component_restart a sid cid : wf a -> wf (nice_component_restart a sid cid).
Proof. intros W. exact (wf_then _ _ W (frame_component_restart _ _ _)). Qed.
#[export] Hint Resolve wf_detach wf_free_sources wf_component_restart : keeps.

(** ** Streams *)

Lemma pruned_stream_empty a sid a' : conn_check_prune_stream a sid = Ok a' -> checks_of a' sid = [].
Proof.
  unfold conn_check_prune_stream, free_conncheck_list. intros H. inv_res.
  assert (forall b, checks_of (conn_check_stop b) sid = checks_of b sid) as Hs by (intros b; unfold conn_check_stop; by destruct (a_conncheck_timer b)).
  match goal with |- checks_of (if ?b then _ else ?x) _ = _ => assert (checks_of x sid = []) as Hx; [|destruct b; by rewrite ?Hs] end.
  unfold checks_of. rewrite CheckDriver.find_stream_upd by done. by destruct (agent_find_stream _ _).
Qed.

Lemma in_filter_lists a sid i l :
  (i, l) ∈ (fun s => (str_id s, str_conncheck_list s)) <$> List.filter (fun s => negb (str_id s =? sid)) (a_streams a) <->
  (i, l) ∈ lists a /\ i <> sid.
Proof.
  unfold lists. rewrite !list_elem_of_fmap. split.
  - intros (s & [= -> ->] & [Hs Hne]%list_elem_of_In%filter_In). rewrite <-list_elem_of_In in Hs. apply negb_true_iff, Z.eqb_neq in Hne. eauto.
  - intros [(s & [= -> ->] & Hs) Hne]. exists s. split; [done|]. apply list_elem_of_In, filter_In. rewrite <-list_elem_of_In.
    split; [done|]. by apply negb_true_iff, Z.eqb_neq.
Qed.

Lemma wf_drop_stream a sid l : wf a -> checks_of a sid = [] ->
  wf (a <| a_streams := List.filter (fun s => negb (str_id s =? sid)) (a_streams a) |> <| a_pruning_streams := l |>).
Proof.
  intros W He. set (a' := _ <| a_pruning_streams := _ |>).
  assert (Hl : forall i k, (i, k) ∈ lists a' <-> (i, k) ∈ lists a /\ i <> sid) by (intros; apply in_filter_lists).
  assert (Hsub : sublist (lists a') (lists a)).
  { unfold lists, a'. rsimpl. clear. induction (a_streams a) as [|s ss IH]; [constructor|]. cbn [List.filter].
    destruct (negb _); cbn; [by apply sublist_skip|by apply sublist_cons]. }
  assert (Hc : forall p, p ∈ all_checks a -> p ∈ all_checks a').
  { intros p (i & k & Hi & Hp)%elem_all_checks. apply elem_all_checks. exists i, k. split; [|done]. apply Hl. split; [done|].
    intros ->. rewrite (wf_checks_of _ _ _ W Hi) in He. subst k. by apply elem_of_nil in Hp. }
  destruct W as [W1 W2 W3 W4 W5 W6 W7 W8 W9 W10]. split; try done.
  - eapply sublist_NoDup; [exact W1|]. by apply fmap_sublist.
  - rewrite all_checks_lists in W2 |- *. eapply sublist_NoDup; [exact W2|]. clear -Hsub. induction Hsub; cbn; [constructor|by apply sublist_app|].
    by apply sublist_inserts_l.
  - intros p x Hx. apply Hc. by eapply W3.
  - intros i k p Hi Hp. apply Hl in Hi as [Hi _]. exact (W4 _ _ _ Hi Hp).
  - intros i k Hi. apply Hl in Hi as [Hi _]. exact (W5 _ _ Hi).
  - intros p Hp. by apply Hc, W7.
  - intros i (k & Hk & Hi)%list_elem_of_fmap. apply W10, list_elem_of_fmap. exists k. split; [done|]. destruct k. by apply Hl in Hi as [? _].
Qed.

Lemma wf_add_stream a s n : wf a -> str_id s = a_next_stream_id a -> str_conncheck_list s = [] -> a_next_stream_id a < n ->
  wf (a <| a_next_stream_id := n |> <| a_streams := a_streams a ++ [s] |>).
Proof.
  intros W Hi Hs Hn. set (a' := _ <| a_streams := _ |>).
  assert (Hl : lists a' = lists a ++ [(a_next_stream_id a, [])]) by (unfold lists, a'; rsimpl; rewrite fmap_app; cbn; by rewrite Hi, Hs).
  assert (Hc : all_checks a' = all_checks a) by (rewrite !all_checks_lists, Hl, flat_map_app; cbn; by rewrite app_nil_r).
  assert (He : forall i k, (i, k) ∈ lists a' -> (i, k) ∈ lists a \/ i = a_next_stream_id a /\ k = []).
  { intros i k. rewrite Hl, elem_of_app, list_elem_of_singleton. intros [|[= -> ->]]; auto. }
  destruct W as [W1 W2 W3 W4 W5 W6 W7 W8 W9 W10]. split; rewrite ?Hc; try done.
  - rewrite Hl, fmap_app. apply NoDup_app. split; [done|]. split; [|apply NoDup_singleton].
    intros i Hi' [= ->]%list_elem_of_singleton. specialize (W10 _ Hi'). lia.
  - intros i k p [Hk|[-> ->]]%He Hp; [exact (W4 _ _ _ Hk Hp)|by apply elem_of_nil in Hp].
  - intros i k [Hk|[-> ->]]%He; [exact (W5 _ _ Hk)|constructor].
  - intros i. rewrite Hl, fmap_app, elem_of_app. change (a_next_stream_id a') with n.
    intros [Hi'%W10|[= ->]%list_elem_of_singleton]; lia.
Qed.

Section streams.
Context {E : CheckEnv} {CL : CryptoLib} {B : Base64} {N : NetEnv} {K : Keepalive} {KF : KeepaliveFrame} {CE : ComponentEnv}.

Lemma frame_create_pseudo_tcp sid cids : forall a, frame a (create_pseudo_tcp a sid cids).
Proof. unfold create_pseudo_tcp. induction cids as [|c cids IH]; intros a; cbn; [done|]. etrans; [|apply IH]. apply frame_log. Qed.

Lemma wf_nice_agent_add_stream a n id a' : wf a -> 0 <= a_next_stream_id a < 2 ^ 32 - 1 -> nice_agent_add_stream a n = (id, a') -> wf a'.
Proof.
  intros W Hn. unfold nice_agent_add_stream. destruct (n <? 1); [by intros [= _ <-]|]. intros [= _ <-].
  eapply wf_then, frame_credentials_init. set (b := _ <| a_streams := _ |>).
  assert (wf b).
  { apply wf_add_stream; [done..|]. unfold u32. rewrite Z.mod_small by lia. lia. }
  destruct (a_reliable a); [|done]. eapply wf_then; [done|apply frame_create_pseudo_tcp].
Qed.

Lemma keeps_prune_stream a sid : wf a -> keeps id (conn_check_prune_stream a sid).
Proof. intros W b. by apply wf_prune_stream. Qed.
#[local] Hint Resolve keeps_prune_stream : keeps.

Lemma wf_credentials_init a sid : wf a -> wf (nice_stream_initialize_credentials a sid).
Proof. intros W. exact (wf_then _ _ W (frame_credentials_init _ _)). Qed.

Lemma keeps_restart_components sid cids : forall a, wf a -> keeps id (restart_components a sid cids).
Proof. induction cids as [|c cids IH]; intros a W; cbn [restart_components]; keep. Qed.
#[local] Hint Resolve wf_credentials_init keeps_restart_components : keeps.

Lemma keeps_stream_restart a sid : wf a -> keeps id (nice_stream_restart a sid).
Proof. intros W. unfold nice_stream_restart. keep. apply keeps_restart_components, wf_credentials_init, wf_upd_stream; by keep. Qed.
#[local] Hint Resolve keeps_stream_restart : keeps.

Lemma keeps_restart_streams sids : forall a, wf a -> keeps id (restart_streams a sids).
Proof. induction sids as [|s sids IH]; intros a W; cbn [restart_streams]; keep. Qed.
#[local] Hint Resolve keeps_restart_streams : keeps.

Lemma keeps_restart a : wf a -> keeps snd (nice_agent_restart a).
Proof. intros W. unfold nice_agent_restart. keep. Qed.

Lemma keeps_restart_stream a sid : wf a -> keeps snd (nice_agent_restart_stream a sid).
Proof. intros W. unfold nice_agent_restart_stream. keep. Qed.

Lemma keeps_advance a sid cid : wf a -> keeps id (advance_to_ready a sid cid).
Proof. intros W. unfold advance_to_ready. keep. Qed.
#[local] Hint Resolve keeps_advance : keeps.

Lemma keeps_update_selected a sid cid p : wf a -> keeps id (nice_component_update_selected_pair a sid cid p).
Proof. intros W. unfold nice_component_update_selected_pair. keep. Qed.
#[local] Hint Resolve keeps_update_selected : keeps.

Lemma keeps_set_selected_pair a sid cid l r : wf a -> keeps snd (nice_agent_set_selected_pair a sid cid l r).
Proof. intros W. unfold nice_agent_set_selected_pair. keep. Qed.

Lemma keeps_component_selected_remote a sid cid c : wf a -> keeps snd (nice_component_set_selected_remote_candidate a sid cid c).
Proof.
  intros W. unfold nice_component_set_selected_remote_candidate. apply keeps_bind. intros x _. destruct (best_local _ _ _ _ _) as [[l|] p]; [|keep].
  destruct (nice_component_find_remote_candidate _ _ _); keep.
Qed.
#[local] Hint Resolve keeps_component_selected_remote : keeps.

Lemma keeps_set_selected_remote a sid cid c : wf a -> keeps snd (nice_agent_set_selected_remote_candidate a sid cid c).
Proof. intros W. unfold nice_agent_set_selected_remote_candidate, upd_selected. keep. Qed.

Lemma keeps_prune_one_relay a sid cid c : wf a -> keeps id (nice_component_prune_relay_candidate a sid cid c).
Proof. intros W. unfold nice_component_prune_relay_candidate, refresh_prune_candidate_async, discovery_prune_socket. keep. Qed.
#[local] Hint Resolve keeps_prune_one_relay : keeps.

Lemma keeps_prune_relays sid cid l : forall a, wf a -> keeps id (prune_relays a sid cid l).
Proof. induction l as [|c l IH]; intros a W; cbn [prune_relays]; keep. Qed.
#[local] Hint Resolve keeps_prune_relays : keeps.

Lemma keeps_clean_turn_servers a sid cid : wf a -> keeps id (nice_component_clean_turn_servers a sid cid).
Proof. intros W. unfold nice_component_clean_turn_servers. keep. Qed.
#[local] Hint Resolve keeps_clean_turn_servers : keeps.

Lemma keeps_forget_relays a sid cid : wf a -> keeps snd (nice_agent_forget_relays a sid cid).
Proof. intros W. unfold nice_agent_forget_relays. keep. Qed.

Lemma keeps_refresh_free_all l : forall a, wf a -> keeps id (refresh_free_all a l).
Proof. induction l as [|r l IH]; intros a W; cbn [refresh_free_all]; keep. Qed.
#[local] Hint Resolve keeps_refresh_free_all : keeps.

Lemma keeps_remove_locals sid cid sock l : forall a, wf a -> keeps id (remove_locals a sid cid sock l).
Proof.
  induction l as [|c l IH]; intros a W; cbn [remove_locals]; unfold refresh_prune_candidate, discovery_prune_socket; keep.
Qed.

Lemma keeps_remove_remotes sid cid sock l : forall a, wf a -> keeps id (remove_remotes a sid cid sock l).
Proof. induction l as [|c l IH]; intros a W; cbn [remove_remotes]; keep. Qed.
#[local] Hint Resolve keeps_remove_locals keeps_remove_remotes : keeps.

Lemma keeps_remove_socket a sid cid sock : wf a -> keeps id (nice_component_remove_socket a sid cid sock).
Proof. intros W. unfold nice_component_remove_socket, refresh_prune_socket, discovery_prune_socket. keep. Qed.

Lemma keeps_remove_stream_internal a sid : wf a -> keeps id (nice_agent_remove_stream_internal a sid).
Proof.
  intros W. unfold nice_agent_remove_stream_internal, refresh_prune_stream_async. apply keeps_bind_agent; [keep|]. intros b Hb Wb.
  apply pruned_stream_empty in Hb. cbv zeta. apply keeps_bind. intros s _.
  assert (Wd : wf (discovery_prune_stream b sid)) by (by apply wf_discovery_prune).
  assert (checks_of (discovery_prune_stream b sid) sid = []) as He.
  { unfold discovery_prune_stream, discovery_prune, discovery_free. destruct (a_discovery_list _); [|done]. by destruct (a_discovery_timer _). }
  apply keeps_bind_agent; [by apply keeps_prune_async, wf_drop_stream|]. intros c _ Wc. apply keeps_ok. cbn [id]. eapply wf_then; [|apply frame_log].
  destruct (a_streams c); keep.
Qed.
#[local] Hint Resolve keeps_remove_stream_internal : keeps.

Lemma keeps_remove_stream a sid : wf a -> keeps id (nice_agent_remove_stream a sid).
Proof. intros W. unfold nice_agent_remove_stream. keep. Qed.

Lemma keeps_remove_streams sids : forall a, wf a -> keeps id (remove_streams_loop a sids).
Proof. induction sids as [|s sids IH]; intros a W; cbn [remove_streams_loop]; keep. Qed.

Lemma frame_close_components sid l : forall a l' a', close_components a sid l = (l', a') -> frame a a'.
Proof.
  induction l as [|c l IH]; intros a l' a'; cbn [close_components]; [by intros [= _ <-]|].
  cbn. match goal with |- context [close_components ?x _ _] => destruct (close_components x sid l) as [l0 b] eqn:H end.
  intros [= _ <-]. apply IH in H. etrans; [|exact H]. destruct (a_reliable a); frame_solve.
Qed.

Lemma keeps_stream_refreshes_pruned a sid : wf a -> keeps id (on_stream_refreshes_pruned a sid).
Proof.
  intros W. unfold on_stream_refreshes_pruned, nice_stream_close. destruct (List.find _ _); [|keep].
  destruct (close_components _ _ (str_components n)) as [l b] eqn:H. apply keeps_ok. cbn. apply frame_close_components in H. apply (wf_then b); [by eapply wf_then|by split].
Qed.

Lemma wf_set_port_range a sid cid lo hi : wf a -> wf (nice_agent_set_port_range a sid cid lo hi).
Proof. intros W. unfold nice_agent_set_port_range. keep. Qed.

Lemma wf_add_local_address a addr : wf a -> wf (nice_agent_add_local_address a addr).
Proof. intros W. unfold nice_agent_add_local_address. keep. Qed.

Lemma wf_peer_gathering_done a sid : wf a -> wf (nice_agent_peer_candidate_gathering_done a sid).2.
Proof. intros W. unfold nice_agent_peer_candidate_gathering_done. destruct (agent_find_stream a sid); [|done]. by apply wf_upd_stream. Qed.

Lemma wf_consent_lost a sid cid : wf a -> wf (nice_agent_consent_lost a sid cid).2.
Proof. intros W. unfold nice_agent_consent_lost. destruct (negb _); [done|]. destruct (agent_find_component a sid cid); [|done]. by apply wf_upd_component. Qed.
End streams.

(** ** Gathering *)

Section gathering.
Context {E : CheckEnv} {CL : CryptoLib} {B : Base64} {N : NetEnv} {K : Keepalive} {KF : KeepaliveFrame} {CE : ComponentEnv} {G : RandomInt} (package_string : list Z).

Lemma frame_append_discovery a ty sock server sid cid t ag : frame a (append_discovery a ty sock server sid cid t ag).
Proof. split; try done. unfold append_discovery. rsimpl. lia. Qed.

Lemma frame_turn_socket a sock t sid cid tcp r a' : turn_discovery_socket a sock t sid cid tcp = (r, a') -> frame a a'.
Proof.
  unfold turn_discovery_socket. intros H. repeat (match type of H with match ?x with _ => _ end = _ => destruct x end; cbv zeta in H);
    injection H as <- <-; frame_solve.
Qed.

Lemma frame_discovery_turn a sock t sid cid tcp : frame a (priv_add_new_candidate_discovery_turn a sock t sid cid tcp).
Proof.
  unfold priv_add_new_candidate_discovery_turn. destruct (turn_discovery_socket _ _ _ _ _ _) as [[s|] b] eqn:H; apply frame_turn_socket in H; [|done].
  etrans; [exact H|apply frame_append_discovery].
Qed.

Lemma wf_discovery_turn a sock t sid cid tcp : wf a -> wf (priv_add_new_candidate_discovery_turn a sock t sid cid tcp).
Proof. intros W. exact (wf_then _ _ W (frame_discovery_turn _ _ _ _ _ _)). Qed.

Lemma wf_discovery_stun a sock server sid cid : wf a -> wf (priv_add_new_candidate_discovery_stun a sock server sid cid).
Proof. intros W. exact (wf_then _ _ W (frame_append_discovery _ _ _ _ _ _ _ _)). Qed.
#[local] Hint Resolve wf_discovery_turn wf_discovery_stun : keeps.

Lemma keeps_port_loop fuel sid cid addr tr lo hi st : forall a cur dup, wf a -> keeps snd (port_loop fuel a sid cid addr tr lo hi st cur dup).
Proof. induction fuel as [|fuel IH]; intros a cur dup W; cbn [port_loop]; keep. Qed.
#[local] Hint Resolve keeps_port_loop : keeps.

Lemma keeps_try_ports a sid cid addr tr : wf a -> keeps snd (try_ports a sid cid addr tr).
Proof.
  intros W. unfold try_ports. apply keeps_bind. intros c _. cbv zeta. destruct (co_min_port c =? 0); cbn; keep.
Qed.
#[local] Hint Resolve keeps_try_ports : keeps.

Lemma frame_host_turn_loop sid cid host l : forall a r r' a', host_turn_loop a sid cid host r l = (r', a') -> frame a a'.
Proof.
  induction l as [|t l IH]; intros a r r' a' H; cbn [host_turn_loop] in H; [by injection H as _ <-|].
  destruct (negb _); [by eapply IH|]. destruct (negb _); [by eapply IH|]. apply IH in H. etrans; [apply frame_discovery_turn|exact H].
Qed.
#[local] Hint Resolve frame_host_turn_loop : frames.

Lemma keeps_gather_host a sid cid addr tr f r : wf a -> keeps snd (gather_host a sid cid addr tr f r).
Proof. intros W. unfold gather_host. keep. Qed.
#[local] Hint Resolve keeps_gather_host : keeps.

Lemma keeps_gather_hosts sid cid l : forall a f r, wf a -> keeps snd (gather_hosts a sid cid f r l).
Proof. induction l as [|[addr tr] l IH]; intros a f r W; cbn [gather_hosts]; keep. Qed.
#[local] Hint Resolve keeps_gather_hosts : keeps.

Lemma keeps_gather_components sid addrs cids : forall a r, wf a -> keeps snd (gather_components a sid addrs r cids).
Proof. induction cids as [|cid cids IH]; intros a r W; cbn [gather_components]; keep. Qed.
#[local] Hint Resolve keeps_gather_components : keeps.

Lemma wf_announce a l : wf a -> wf (foldl (fun a cand => log (FxNewCandidate cand) a) a l).
Proof. revert a. induction l as [|c l IH]; intros a W; cbn; [done|]. apply IH. exact (wf_then _ _ W (frame_log _ _)). Qed.
#[local] Hint Resolve wf_announce : keeps.

Lemma keeps_announce sid cids : forall a, wf a -> keeps id (announce_components a sid cids).
Proof. induction cids as [|c cids IH]; intros a W; cbn [announce_components]; keep. Qed.

Lemma keeps_drop_candidates sid cids : forall a, wf a -> keeps id (drop_candidates a sid cids).
Proof. induction cids as [|c cids IH]; intros a W; cbn [drop_candidates]; keep. Qed.

Lemma wf_resolve_stun a sid : wf a -> wf (resolve_stun_server a sid).
Proof.
  intros W. unfold resolve_stun_server. destruct (a_stun_server_ip a); [|done]. destruct (_ && _); [|done]. apply (wf_then a); [done|].
  split; try done. rsimpl. unfold log. rsimpl. lia.
Qed.
#[local] Hint Resolve keeps_announce keeps_drop_candidates wf_resolve_stun : keeps.

Lemma wf_gathering a sid : wf a -> wf (upd_stream a sid (fun s => s <| str_gathering := true |> <| str_gathering_started := true |>)).
Proof. intros W. by apply wf_upd_stream. Qed.
#[local] Hint Resolve wf_gathering : keeps.

Lemma keeps_gather a sid : wf a -> keeps snd (nice_agent_gather_candidates package_string a sid).
Proof. intros W. unfold nice_agent_gather_candidates, discovery_prune_stream. keep. Qed.

Lemma keeps_schedule_or_finish a : wf a -> keeps id (schedule_or_finish package_string a).
Proof. intros W. unfold schedule_or_finish. keep. Qed.

Lemma keeps_stun_candidates sid cid server l : forall a, wf a -> keeps id (stun_candidates_loop a sid cid server l).
Proof. induction l as [|h l IH]; intros a W; cbn [stun_candidates_loop]; keep. Qed.
#[local] Hint Resolve keeps_schedule_or_finish keeps_stun_candidates : keeps.

Lemma keeps_stun_components sid server cids : forall a, wf a -> keeps id (stun_components_loop a sid server cids).
Proof. induction cids as [|c cids IH]; intros a W; cbn [stun_components_loop]; keep. Qed.
#[local] Hint Resolve keeps_stun_components : keeps.

Lemma keeps_stun_addresses sid l : forall a, wf a -> keeps id (stun_addresses_loop a sid l).
Proof. induction l as [|addr l IH]; intros a W; cbn [stun_addresses_loop]; keep. Qed.
#[local] Hint Resolve keeps_stun_addresses : keeps.

Lemma keeps_stun_resolved a data sid l : wf a -> keeps id (stun_server_resolved_cb package_string a data sid l).
Proof. intros W. unfold stun_server_resolved_cb. keep. Qed.

Lemma keeps_turn_candidates sid cid skip t l : forall a, wf a -> keeps id (turn_candidates_loop a sid cid skip t l).
Proof. induction l as [|h l IH]; intros a W; cbn [turn_candidates_loop]; keep. Qed.

Lemma wf_upd_turn a sid cid p f : wf a -> wf (upd_turn a sid cid p f).
Proof. intros W. by apply wf_upd_component. Qed.
#[local] Hint Resolve keeps_turn_candidates wf_upd_turn : keeps.

Lemma keeps_turn_addresses sid cid l : forall a t first, wf a -> keeps id (turn_addresses_loop a sid cid t first l).
Proof.
  induction l as [|addr l IH]; intros a t first W; cbn [turn_addresses_loop]; [keep|].
  assert (Wc : forall f, wf (upd_component (a <| a_next_ptr := a_next_ptr a + 1 |>) sid cid f)) by (intros f; apply wf_upd_component; keep).
  destruct first; destruct (server_address _ _ _); keep.
Qed.
#[local] Hint Resolve keeps_turn_addresses : keeps.

Lemma keeps_turn_resolved a sid cid p l : wf a -> keeps id (turn_server_resolved_cb package_string a sid cid p l).
Proof. intros W. unfold turn_server_resolved_cb. keep. Qed.

Lemma wf_resolve_turn a sid cid : wf a -> wf (resolve_turn_in_context a sid cid).
Proof. intros W. unfold resolve_turn_in_context. keep. Qed.

Lemma wf_set_gathering a sid : wf a -> wf (upd_stream a sid (fun s => s <| str_gathering := true |>)).
Proof. intros W. by apply wf_upd_stream. Qed.

Lemma wf_turn_resolving a n : wf a -> wf (a <| a_turn_resolving_count := n |>).
Proof. intros W. apply (wf_then a); [done|by split]. Qed.
#[local] Hint Resolve wf_set_gathering wf_turn_resolving : keeps.

Lemma keeps_set_relay_info a sid cid ip port u p ty : wf a -> keeps snd (nice_agent_set_relay_info package_string a sid cid ip port u p ty).
Proof. intros W. unfold nice_agent_set_relay_info. keep. Qed.
End gathering.

(** ** Properties *)

Lemma frame_reset_stun_agents a only : frame a (nice_agent_reset_all_stun_agents a only).
Proof. split; try done. unfold lists, nice_agent_reset_all_stun_agents. rsimpl. rewrite <-list_fmap_compose. by apply list_fmap_ext. Qed.

(** The properties that do not change the role or renomination. *)
Definition plain_property (p : property) : bool :=
  match p with PROP_CONTROLLING_MODE _ | PROP_SUPPORT_RENOMINATION true => false | _ => true end.

Lemma wf_set_property a p : wf a -> plain_property p = true -> wf (nice_agent_set_property a p).
Proof.
  intros W Hp. destruct p; try done; cbn [nice_agent_set_property]; try (keep; fail).
  - eapply wf_then; [|apply frame_reset_stun_agents]. destruct v; keep.
  - destruct v; [done|]. pose proof (wf_no_renomination _ W). apply (wf_then a); [done|]. by split.
Qed.

(** The role only changes while no component has left its first state; the
    lists are empty then, since a pair puts its component in [CONNECTING]. *)
Lemma wf_update_controlling a v : wf a -> all_checks a = [] -> wf (priv_update_controlling_mode a v).
Proof.
  intros [W1 W2 W3 W4 W5 W6 W7 W8 W9 W10] Hc. unfold priv_update_controlling_mode.
  assert (forall b, lists b = lists a -> a_pairs b = a_pairs a -> a_triggered_check_queue b = a_triggered_check_queue a ->
    a_next_ptr b = a_next_ptr a -> a_support_renomination b = a_support_renomination a -> a_next_stream_id b = a_next_stream_id a -> wf b) as Hb.
  { intros b Hl Hp Hq Hn Hr Hs. assert (all_checks b = all_checks a) as Hcb by (by rewrite !all_checks_lists, Hl).
    split; rewrite ?Hl, ?Hcb, ?Hq, ?Hp, ?Hn, ?Hr, ?Hs; try done. intros sid l p Hin Hp'.
    assert (p ∈ all_checks a) as Hx by (apply elem_all_checks; eauto). rewrite Hc in Hx. by apply elem_of_nil in Hx. }
  destruct (negb _); [destruct (forallb _ _)|]; by apply Hb.
Qed.

(** ** A new agent *)

Lemma wf_no_streams a : a_streams a = [] -> a_pairs a = ∅ -> a_triggered_check_queue a = [] -> a_support_renomination a = false -> wf a.
Proof.
  intros Hs Hp Hq Hr. assert (lists a = []) as Hl by (unfold lists; by rewrite Hs).
  assert (all_checks a = []) as Hc by (by rewrite all_checks_lists, Hl).
  assert (forall (A : Type) (x : A), x ∈ [] -> False) as Hn by (by intros A x ?%elem_of_nil).
  split; rewrite ?Hl, ?Hc, ?Hp, ?Hq; cbn; try apply NoDup_nil_2; intros; rewrite ?lookup_empty in *; try done; exfalso; eauto.
Qed.

Lemma wf_set_properties l : forall a, wf a -> forallb plain_property l = true -> wf (set_properties a l).
Proof.
  induction l as [|p l IH]; intros a W H; [done|]. cbn in H. apply andb_true_iff in H as [Hp Hl]. cbn. apply IH; [|done]. by apply wf_set_property.
Qed.

Lemma wf_new_agent `{CheckEnv} compat flags : NICE_AGENT_OPTION_SUPPORT_RENOMINATION flags = false -> wf (nice_agent_new_full compat flags).
Proof. intros Hf. apply wf_set_properties; [by apply wf_no_streams|]. cbn. by rewrite Hf. Qed.
