(* ===== verification/CheckMain.v ===== *)
(** * The check lists under any sequence of operations

    An agent starts with empty check lists; the application, the network and
    the timer then do what they like.  Also the algorithms of the check lists
    one by one: which pairs are unfrozen, which pairs the size limit removes,
    how a component becomes ready, and which pair is nominated. *)
From stdpp Require Import sorting.
From S2P Require Import Prelude CMem StunTypes StunMessage StunAgent StunAgentProps StunTimer StunIce Address Candidate IceTypes IceEnv CheckList CheckDriver Discovery CheckTick KeepAlive AgentConfig CheckNominate CheckResponse DiscoveryReply CheckInbound Sdp RemoteCandidates Streams Gather CheckInv CheckProps CheckTickInv CheckInboundInv StreamsInv.
Local Open Scope Z_scope.

(** ** Sequences of operations *)

Inductive check_op : Set :=
  | OpAddForRemote (sid cid : Z) (remote : NiceCandidate)
  | OpAddForLocal (sid cid : Z) (local : NiceCandidate)
  | OpTimer
  | OpTriggered (sid cid : Z) (sock : option Z) (remote : NiceCandidate)
  | OpNominatedByPeer (sid cid : Z) (local remote : NiceCandidate)
  | OpPeerReflexive (sid cid : Z) (local : NiceCandidate) (parent : Z)
  | OpUnfreezeRelated (pair : Z)
  | OpFailPair (sid pair : Z)
  | OpSelect (sid cid pair : Z)
  | OpReady (sid cid : Z)
  | OpRole (control : bool)
  | OpPruneSocket (sid cid : Z) (sock : option Z)
  | OpPruneStream (sid : Z)
  | OpFree
  | OpInbound (sid cid : Z) (sock : option Z) (from : NiceAddress) (buf : list Z) (len : Z)
  | OpHostCandidate (sid cid : Z) (addr : NiceAddress) (transport : NiceCandidateTransport) (dup : bool)
  | OpRefreshTimer (refresh : Z)
  | OpRefreshRetransmit (refresh : Z)
  | OpRefreshRemove (refresh : Z)
  | OpKeepalive
  | OpConsent (sid cid : Z)
  | OpDiscoverySchedule
  | OpDiscoveryTimer
  | OpGatheringDone
  | OpSetRemoteCandidates (sid cid : Z) (candidates : list NiceCandidate)
  | OpSetRemoteCredentials (sid : Z) (ufrag pwd : option (list Z))
  | OpSetLocalCredentials (sid : Z) (ufrag pwd : option (list Z))
  | OpParseRemoteSdp (sdp : list Z)
  | OpAddStream (n_components : Z)
  | OpRemoveStream (sid : Z)
  | OpStreamPruned (sid : Z)
  | OpCandidatePruned (candidate : NiceCandidate)
  | OpRestart
  | OpRestartStream (sid : Z)
  | OpGather (sid : Z)
  | OpStunResolved (data sid : Z) (addresses : option (list GInetAddress))
  | OpTurnResolved (sid cid turn : Z) (addresses : option (list GInetAddress))
  | OpSetRelayInfo (sid cid : Z) (server_ip : list Z) (server_port : Z) (username password : list Z) (type : NiceRelayType)
  | OpForgetRelays (sid cid : Z)
  | OpRemoveSocket (sid cid : Z) (sock : option Z)
  | OpSetSelectedPair (sid cid : Z) (lfoundation rfoundation : list Z)
  | OpSetSelectedRemote (sid cid : Z) (candidate : NiceCandidate)
  | OpSetPortRange (sid cid min_port max_port : Z)
  | OpAddLocalAddress (addr : NiceAddress)
  | OpPeerGatheringDone (sid : Z)
  | OpConsentLost (sid cid : Z)
  | OpSetProperty (p : property).

Section runs.
Context {E : CheckEnv} {CL : CryptoLib} {B : Base64} {N : NetEnv} {R : ConsentInterval} {CE : ComponentEnv} {G : RandomInt} (package_string : list Z).

#[local] Instance keepalive : Keepalive := agent_keepalive package_string.
#[local] Instance keepalive_ok : KeepaliveFrame := agent_keepalive_frame package_string.

(** A run adds streams until the 32-bit counter of ids is used up, and sets the
    properties other than the role and renomination. *)
Definition stream_ids_left (a : NiceAgent) : bool := (0 <=? a_next_stream_id a) && (a_next_stream_id a <? 2 ^ 32 - 1).

Definition check_do (a : NiceAgent) (op : check_op) : res NiceAgent :=
  match op with
  | OpAddForRemote sid cid r => '(_, a) ← conn_check_add_for_candidate a sid cid r; Ok a
  | OpAddForLocal sid cid l => '(_, a) ← conn_check_add_for_local_candidate a sid cid l; Ok a
  | OpTimer => '(_, a) ← priv_conn_check_tick_agent_locked package_string a; Ok a
  | OpTriggered sid cid sock r => '(_, a) ← priv_schedule_triggered_check a sid cid sock r; Ok a
  | OpNominatedByPeer sid cid l r => '(_, a) ← priv_mark_pair_nominated a sid cid l r; Ok a
  | OpPeerReflexive sid cid l p => '(_, a) ← priv_add_peer_reflexive_pair a sid cid l p; Ok a
  | OpUnfreezeRelated p => conn_check_unfreeze_related a p
  | OpFailPair sid p => candidate_check_pair_fail a sid p
  | OpSelect sid cid p => conn_check_update_selected_pair a sid cid p
  | OpReady sid cid => conn_check_update_check_list_state_for_ready a sid cid
  | OpRole control => priv_check_for_role_conflict a control
  | OpPruneSocket sid cid sock => conn_check_prune_socket a sid cid sock
  | OpPruneStream sid => conn_check_prune_stream a sid
  | OpFree => conn_check_free a
  | OpInbound sid cid sock from buf len => '(_, a) ← conn_check_handle_inbound_stun package_string a sid cid sock from buf len; Ok a
  | OpHostCandidate sid cid addr transport dup => '(_, a) ← discovery_add_local_host_candidate a sid cid addr transport dup; Ok a
  | OpRefreshTimer r => priv_turn_allocate_refresh_tick_agent_locked package_string a r
  | OpRefreshRetransmit r => priv_turn_allocate_refresh_retransmissions_tick_agent_locked a r
  | OpRefreshRemove r => refresh_remove_async package_string a r
  | OpKeepalive => '(_, a) ← priv_conn_keepalive_tick_agent_locked package_string a; Ok a
  | OpConsent sid cid => priv_conn_remote_consent_tick_agent_locked a sid cid
  | OpDiscoverySchedule => discovery_schedule package_string a
  | OpDiscoveryTimer => '(_, a) ← priv_discovery_tick_agent_locked package_string a; Ok a
  | OpGatheringDone => agent_gathering_done a
  | OpSetRemoteCandidates sid cid cs => '(_, a) ← nice_agent_set_remote_candidates a sid cid cs; Ok a
  | OpSetRemoteCredentials sid ufrag pwd => '(_, a) ← nice_agent_set_remote_credentials a sid ufrag pwd; Ok a
  | OpSetLocalCredentials sid ufrag pwd => Ok (nice_agent_set_local_credentials a sid ufrag pwd).2
  | OpParseRemoteSdp sdp => '(_, a) ← nice_agent_parse_remote_sdp a sdp; Ok a
  | OpAddStream n => if stream_ids_left a then Ok (nice_agent_add_stream a n).2 else Ok a
  | OpRemoveStream sid => nice_agent_remove_stream a sid
  | OpStreamPruned sid => on_stream_refreshes_pruned a sid
  | OpCandidatePruned c => Ok (on_candidate_refreshes_pruned a c)
  | OpRestart => '(_, a) ← nice_agent_restart a; Ok a
  | OpRestartStream sid => '(_, a) ← nice_agent_restart_stream a sid; Ok a
  | OpGather sid => '(_, a) ← nice_agent_gather_candidates package_string a sid; Ok a
  | OpStunResolved data sid l => stun_server_resolved_cb package_string a data sid l
  | OpTurnResolved sid cid t l => turn_server_resolved_cb package_string a sid cid t l
  | OpSetRelayInfo sid cid ip port u p ty => '(_, a) ← nice_agent_set_relay_info package_string a sid cid ip port u p ty; Ok a
  | OpForgetRelays sid cid => '(_, a) ← nice_agent_forget_relays a sid cid; Ok a
  | OpRemoveSocket sid cid sock => nice_component_remove_socket a sid cid sock
  | OpSetSelectedPair sid cid l r => '(_, a) ← nice_agent_set_selected_pair a sid cid l r; Ok a
  | OpSetSelectedRemote sid cid c => '(_, a) ← nice_agent_set_selected_remote_candidate a sid cid c; Ok a
  | OpSetPortRange sid cid lo hi => Ok (nice_agent_set_port_range a sid cid lo hi)
  | OpAddLocalAddress addr => Ok (nice_agent_add_local_address a addr)
  | OpPeerGatheringDone sid => Ok (nice_agent_peer_candidate_gathering_done a sid).2
  | OpConsentLost sid cid => Ok (nice_agent_consent_lost a sid cid).2
  | OpSetProperty p => if plain_property p then Ok (nice_agent_set_property a p) else Ok a
  end.

Fixpoint check_run (a : NiceAgent) (ops : list check_op) : res NiceAgent :=
  match ops with
  | [] => Ok a
  | op :: ops => a ← check_do a op; check_run a ops
  end.

Lemma wf_check_do a op a' : wf a -> check_do a op = Ok a' -> wf a'.
Proof.
  intros W H. destruct op; cbn [check_do] in H;
    try match type of H with mbind _ _ = _ => apply bind_Ok_inv in H as ([? ?] & H & Heq); injection Heq as <- end.
  - by eapply wf_add_for_candidate.
  - by eapply wf_add_for_local.
  - by eapply wf_tick.
  - by eapply wf_schedule_triggered.
  - by eapply wf_mark_nominated.
  - by eapply wf_peer_reflexive.
  - by eapply wf_frame, W; eapply frame_unfreeze_related.
  - by eapply wf_frame, W; eapply frame_pair_fail.
  - by eapply wf_selected.
  - by eapply wf_ready.
  - by eapply wf_role_switch.
  - by eapply wf_prune_socket.
  - by eapply wf_prune_stream.
  - by eapply wf_conn_check_free.
  - exact (keeps_inbound package_string _ _ _ _ _ _ _ W _ H).
  - exact (keeps_host _ _ _ _ _ _ W _ H).
  - exact (keeps_refresh_tick package_string _ _ W _ H).
  - exact (keeps_refresh_retransmissions _ _ W _ H).
  - exact (keeps_refresh_remove package_string _ _ W _ H).
  - eapply wf_frame, W. by eapply frame_keepalive_timer.
  - eapply wf_frame, W. by eapply frame_consent_tick.
  - exact (keeps_discovery_schedule package_string _ W _ H).
  - exact (keeps_discovery_timer package_string _ W _ H).
  - exact (keeps_gathering_done _ W _ H).
  - exact (keeps_set_remote_candidates _ _ _ _ W _ H).
  - exact (keeps_set_remote_credentials _ _ _ _ W _ H).
  - injection H as <-. by apply wf_set_local_credentials.
  - exact (keeps_parse_remote_sdp _ _ W _ H).
  - destruct (stream_ids_left a) eqn:Hn; injection H as <-; [|done]. apply andb_true_iff in Hn as [?%Z.leb_le ?%Z.ltb_lt].
    destruct (nice_agent_add_stream a n_components) eqn:Ha. by eapply wf_nice_agent_add_stream.
  - exact (keeps_remove_stream _ _ W _ H).
  - exact (keeps_stream_refreshes_pruned _ _ W _ H).
  - injection H as <-. by apply wf_on_candidate_pruned.
  - exact (keeps_restart _ W _ H).
  - exact (keeps_restart_stream _ _ W _ H).
  - exact (keeps_gather package_string _ _ W _ H).
  - exact (keeps_stun_resolved package_string _ _ _ _ W _ H).
  - exact (keeps_turn_resolved package_string _ _ _ _ _ W _ H).
  - exact (keeps_set_relay_info package_string _ _ _ _ _ _ _ _ W _ H).
  - exact (keeps_forget_relays _ _ _ W _ H).
  - exact (keeps_remove_socket _ _ _ _ W _ H).
  - exact (keeps_set_selected_pair _ _ _ _ _ W _ H).
  - exact (keeps_set_selected_remote _ _ _ _ W _ H).
  - injection H as <-. by apply wf_set_port_range.
  - injection H as <-. by apply wf_add_local_address.
  - injection H as <-. by apply wf_peer_gathering_done.
  - injection H as <-. by apply wf_consent_lost.
  - destruct (plain_property p) eqn:Hp; injection H as <-; [by apply wf_set_property|done].
Qed.

Lemma wf_check_run ops : forall a a', wf a -> check_run a ops = Ok a' -> wf a'.
Proof. induction ops as [|op ops IH]; intros a a' W H; cbn [check_run] in H; inv_res; [done|]. eauto using wf_check_do. Qed.

(** The state after a run, or the first one when the run fails. *)
Definition after (a : NiceAgent) (ops : list check_op) : NiceAgent :=
  match check_run a ops with Ok a' => a' | Fault _ => a end.

Lemma wf_after a ops : wf a -> wf (after a ops).
Proof. intros W. unfold after. destruct (check_run a ops) eqn:H; [by eapply wf_check_run|done]. Qed.

End runs.

(** ** An example *)

Definition ex_check_env : CheckEnv := {|
  g_get_monotonic_time := fun l => 1000000 * zlen l;
  gettimeofday := fun l => mkTimeval (zlen l) 0;
  stun_make_transid := fun p => replicate 16 (p mod 256);
  nice_rng_generate_bytes := fun l n => replicate (Z.to_nat n) (zlen l mod 256);
  nice_rng_generate_bytes_print := fun l n => replicate (Z.to_nat n) (97 + zlen l mod 26);
  nice_socket_is_reliable := fun _ => false;
  socket_has_fileno := fun _ => true;
  socket_type := fun _ => NICE_SOCKET_TYPE_UDP_BSD;
  nice_tcp_bsd_socket_get_passive_parent := fun _ => None;
  socket_addr := fun _ => sockaddr_in 0 (htonl (dotted 192 0 2 1));
  nice_socket_send_messages_reliable := fun _ _ _ _ => 1;
  nice_socket_send_reliable := fun _ _ _ _ => -1;
  nice_socket_send := fun _ _ _ b => zlen b;
  nice_tcp_active_socket_connect := fun _ _ _ => None;
  nice_udp_bsd_socket_new := fun l _ => SocketCreated (10 + zlen l);
  nice_tcp_active_socket_new := fun _ _ => SocketFailed;
  nice_tcp_passive_socket_new := fun _ _ => SocketAddressInUse;
  nice_udp_turn_socket_new := fun l _ _ _ => Some (10 + zlen l);
  agent_create_tcp_turn_socket := fun l _ _ _ _ => Some (10 + zlen l)
|}.

Definition ex_consent : ConsentInterval := fun l => 4000 + 400 * (zlen l mod 5).

Definition ex_component_env : ComponentEnv := {| pseudo_tcp_socket_is_closed := fun _ _ _ => false; nice_socket_is_based_on := fun x y => bool_decide (x = y) |}.

Definition ex_random : RandomInt := fun _ low _ => low.

Definition ex_base64 : Base64 := {| g_base64_decode := fun l => l; g_base64_encode := fun l => l |}.

Definition ex_component : NiceComponent :=
  mkComponent 1 NICE_COMPONENT_STATE_GATHERING [ex_cand 1 NICE_CANDIDATE_TYPE_HOST 2015363327 1] [] [] no_pair None StunAgentProps.ex_agent [] true [] None false 0 0.

Definition ex_stream : NiceStream := mkStream 1 1 [ex_component] [] [97; 98] [99; 100] [112; 119] 0 false [112; 113] true true true None 0 [] [].

Definition ex_ice : NiceAgent :=
  mkAgentState NICE_COMPATIBILITY_RFC5245 NICE_NOMINATION_MODE_REGULAR true false false 100 20 7 7900 5000 42
    [ex_stream] ∅ 100 1 [] [] false None 0 [] 500 false false false false 0 false [] [] []
    false false None 3478 None true false true true [] 2 [] 0 [].

Lemma ex_ice_wf : wf ex_ice.
Proof.
  split; cbn.
  - apply NoDup_singleton.
  - constructor.
  - intros p x Hx. by rewrite lookup_empty in Hx.
  - intros sid l p [= -> ->]%list_elem_of_singleton Hp. by apply elem_of_nil in Hp.
  - intros sid l [= -> ->]%list_elem_of_singleton. constructor.
  - intros p x Hx. by rewrite lookup_empty in Hx.
  - intros p ?%elem_of_nil. done.
  - constructor.
  - done.
  - intros i ->%list_elem_of_singleton. lia.
Qed.

Definition ex_options : NiceAgentOption := mkOptions true false false false false false false.

Definition ex_ops : list check_op :=
  [OpSetProperty (PROP_ICE_TCP false); OpAddStream 1; OpAddLocalAddress (sockaddr_in 0 (htonl (dotted 192 0 2 1)));
   OpSetPortRange 1 1 5000 5001; OpGather 1; OpSetRemoteCredentials 1 (Some [99; 100]) (Some [112; 119]);
   OpSetRemoteCandidates 1 1 [ex_cand 2 NICE_CANDIDATE_TYPE_HOST 2015363327 1; ex_cand 3 NICE_CANDIDATE_TYPE_RELAYED 335544319 1];
   OpTimer; OpRole false; OpTimer].


(** ** Unfreezing *)

Definition frozen (x : CandidateCheckPair) : Prop := cp_state x = NICE_CHECK_FROZEN.

(** [p] is the first frozen pair of its foundation on the list [l], and its
    foundation is not one of [fs]. *)
Definition first_frozen (h : gmap Z CandidateCheckPair) (l : list Z) (fs : list (list Z)) (p : Z) (x : CandidateCheckPair) : Prop :=
  exists l1 l2, l = l1 ++ p :: l2 /\ frozen x /\ (cp_foundation x ∉ fs) /\
    forall q y, q ∈ l1 -> h !! q = Some y -> frozen y -> cp_foundation y <> cp_foundation x.

(** What becomes of each pair: the chosen ones wait, nothing else changes. *)
Definition unfrozen (h h' : gmap Z CandidateCheckPair) (chosen : Z -> CandidateCheckPair -> Prop) : Prop :=
  forall p x, h !! p = Some x ->
    (chosen p x /\ h' !! p = Some (x <| cp_state := NICE_CHECK_WAITING |>)) \/ (~ chosen p x /\ h' !! p = Some x).

Lemma first_frozen_skip h q y l fs p x : h !! q = Some y -> ~ (frozen y /\ cp_foundation y ∉ fs) -> p <> q ->
  first_frozen h (q :: l) fs p x <-> first_frozen h l fs p x.
Proof.
  intros Hq Hno Hne. split.
  - intros (l1 & l2 & El & Hf & Hfs & Hl). destruct l1 as [|r l1]; injection El as -> ->; [done|].
    exists l1, l2. split; [done|]. split; [done|]. split; [done|]. intros r' z Hr. apply Hl. by right.
  - intros (l1 & l2 & -> & Hf & Hfs & Hl). exists (q :: l1), l2. split; [done|]. split; [done|]. split; [done|].
    intros r z [->|Hr]%elem_of_cons Hz Hfz; [|by eapply Hl]. rewrite Hq in Hz. injection Hz as <-. intros Heq.
    apply Hno. split; [done|]. by rewrite Heq.
Qed.

Lemma first_frozen_take h q y l fs p x : h !! q = Some y -> frozen y -> p <> q ->
  first_frozen h (q :: l) fs p x <-> first_frozen h l (cp_foundation y :: fs) p x.
Proof.
  intros Hq Hy Hne. split.
  - intros (l1 & l2 & El & Hf & Hfs & Hl). destruct l1 as [|r l1]; injection El as -> ->; [done|].
    exists l1, l2. split; [done|]. split; [done|]. split.
    + rewrite not_elem_of_cons. split; [|done]. intros Heq. eapply (Hl r y); [by left|done|done|by rewrite Heq].
    + intros r' z Hr. apply Hl. by right.
  - intros (l1 & l2 & -> & Hf & Hfs & Hl). rewrite not_elem_of_cons in Hfs. destruct Hfs as [Hfy Hfs].
    exists (q :: l1), l2. split; [done|]. split; [done|]. split; [done|].
    intros r z [->|Hr]%elem_of_cons Hz Hfz; [|by eapply Hl]. rewrite Hq in Hz. injection Hz as <-. congruence.
Qed.

Lemma first_frozen_heap h h' l fs p x : (forall q, q ∈ l -> h' !! q = h !! q) -> first_frozen h' l fs p x <-> first_frozen h l fs p x.
Proof.
  intros Hh. split; intros (l1 & l2 & -> & Hf & Hfs & Hl); exists l1, l2; (split; [done|]; split; [done|]; split; [done|]);
    intros q y Hq Hy; eapply Hl; try done; rewrite ?Hh in *; try done; apply elem_of_app; by left.
Qed.

Lemma first_frozen_in h l fs p x : first_frozen h l fs p x -> p ∈ l.
Proof. intros (l1 & l2 & -> & _). apply elem_of_app. right. by left. Qed.

Lemma unfreeze_loop_spec l : forall a fs r, NoDup l -> (forall p, p ∈ l -> is_Some (a_pairs a !! p)) ->
  exists r' h', unfreeze_loop a l fs r = Ok (r', a <| a_pairs := h' |>) /\
    unfrozen (a_pairs a) h' (first_frozen (a_pairs a) l fs) /\
    (r' = true <-> r = true \/ exists p x, a_pairs a !! p = Some x /\ first_frozen (a_pairs a) l fs p x).
Proof.
  induction l as [|q l IH]; intros a fs r Hnd Hl; cbn [unfreeze_loop].
  - exists r, (a_pairs a). split; [by destruct a|]. split.
    + intros p x Hx. right. split; [|done]. by intros ?%first_frozen_in%elem_of_nil.
    + split; [by left|]. intros [|(p & x & _ & H)]; [done|]. by apply first_frozen_in, elem_of_nil in H.
  - apply NoDup_cons in Hnd as [Hq Hnd]. destruct (Hl q) as [y Hy]; [by left|]. rewrite (deref_ok _ _ _ Hy). cbn [mbind res_bind].
    assert (Hskip : ~ (frozen y /\ cp_foundation y ∉ fs) ->
      exists r' h', unfreeze_loop a l fs r = Ok (r', a <| a_pairs := h' |>) /\
        unfrozen (a_pairs a) h' (first_frozen (a_pairs a) (q :: l) fs) /\
        (r' = true <-> r = true \/ exists p x, a_pairs a !! p = Some x /\ first_frozen (a_pairs a) (q :: l) fs p x)).
    { intros Hno. destruct (IH a fs r Hnd) as (r' & h' & Hrun & Hu & Hr); [intros; apply Hl; by right|].
      assert (Heq : forall p x, a_pairs a !! p = Some x -> first_frozen (a_pairs a) (q :: l) fs p x <-> first_frozen (a_pairs a) l fs p x).
      { intros p x Hx. destruct (decide (p = q)) as [->|]; [|by eapply first_frozen_skip]. rewrite Hy in Hx. injection Hx as <-.
        split; [|by intros ?%first_frozen_in]. intros (? & ? & _ & ? & ? & _). by destruct Hno. }
      exists r', h'. split; [done|]. split.
      - intros p x Hx. specialize (Hu p x Hx). by rewrite (Heq p x Hx).
      - rewrite Hr. split; (intros [|(p & x & Hx & ?)]; [by left|right; exists p, x; split; [done|]; by apply (Heq p x Hx)]). }
    destruct (bool_decide_reflect (cp_foundation y ∈ fs)); [apply Hskip; tauto|].
    destruct (bool_decide_reflect (cp_state y = NICE_CHECK_FROZEN)) as [Hf|]; [|apply Hskip; unfold frozen; tauto]. clear Hskip.
    unfold SET_PAIR_STATE. rewrite (modify_ok _ _ _ _ Hy). cbn [mbind res_bind]. set (a1 := a <| a_pairs := _ |>).
    assert (Hh : forall p, p <> q -> a_pairs a1 !! p = a_pairs a !! p) by (intros; by apply lookup_insert_ne).
    destruct (IH a1 (cp_foundation y :: fs) true Hnd) as (r' & h' & Hrun & Hu & Hr).
    { intros p Hp. rewrite Hh by congruence. apply Hl. by right. }
    assert (Heq : forall p x, p <> q -> first_frozen (a_pairs a1) l (cp_foundation y :: fs) p x <-> first_frozen (a_pairs a) (q :: l) fs p x).
    { intros p x Hne. rewrite (first_frozen_heap (a_pairs a)) by (intros; apply Hh; congruence). symmetry. by apply first_frozen_take. }
    assert (Hsel : first_frozen (a_pairs a) (q :: l) fs q y).
    { exists [], l. split; [done|]. split; [done|]. split; [done|]. by intros ? ? ?%elem_of_nil. }
    exists r', h'. split; [done|]. split.
    + intros p x Hx. destruct (decide (p = q)) as [->|Hne].
      * rewrite Hy in Hx. injection Hx as <-. left. split; [done|].
        destruct (Hu q (y <| cp_state := NICE_CHECK_WAITING |>)) as [[Hff _]|[_ ->]]; [apply lookup_insert_eq| |done].
        by apply first_frozen_in in Hff.
      * specialize (Hu p x). rewrite Hh in Hu by done. specialize (Hu Hx). by rewrite (Heq p x Hne) in Hu.
    + split; [|rewrite Hr; by left]. intros _. right. by exists q, y.
Qed.

Lemma find_next_waiting_spec a l : (forall p, p ∈ l -> is_Some (a_pairs a !! p)) ->
  (exists p x, priv_conn_check_find_next_waiting a l = Ok (Some p) /\ p ∈ l /\ a_pairs a !! p = Some x /\ cp_state x = NICE_CHECK_WAITING) \/
  (priv_conn_check_find_next_waiting a l = Ok None /\ forall p x, p ∈ l -> a_pairs a !! p = Some x -> cp_state x <> NICE_CHECK_WAITING).
Proof.
  induction l as [|q l IH]; intros Hl; cbn [priv_conn_check_find_next_waiting].
  - right. split; [done|]. by intros p x ?%elem_of_nil.
  - destruct (Hl q) as [y Hy]; [by left|]. rewrite (deref_ok _ _ _ Hy). cbn [mbind res_bind].
    destruct (bool_decide_reflect (cp_state y = NICE_CHECK_WAITING)) as [Hw|Hw].
    + left. exists q, y. split; [done|]. split; [by left|done].
    + destruct IH as [(p & x & ? & ? & ?)|[-> Hno]]; [intros; apply Hl; by right| |].
      * left. exists p, x. split; [done|]. split; [by right|done].
      * right. split; [done|]. intros p x [->|Hp]%elem_of_cons Hx; [congruence|by eapply Hno].
Qed.

Lemma exists_first_frozen h l p x : (forall q, q ∈ l -> is_Some (h !! q)) -> p ∈ l -> h !! p = Some x -> frozen x ->
  exists q y, h !! q = Some y /\ first_frozen h l [] q y.
Proof.
  induction l as [|r l IH]; intros Hl Hp Hx Hf; [by apply elem_of_nil in Hp|]. destruct (Hl r) as [z Hz]; [by left|].
  destruct (decide (cp_state z = NICE_CHECK_FROZEN)) as [Hz'|Hz'].
  - exists r, z. split; [done|]. exists [], l. split; [done|]. split; [done|]. split; [apply not_elem_of_nil|]. by intros ? ? ?%elem_of_nil.
  - apply elem_of_cons in Hp as [->|Hp]; [congruence|]. destruct IH as (q & y & Hy & Hq); [intros; apply Hl; by right|done..|].
    exists q, y. split; [done|]. apply first_frozen_skip with z; [done|by intros [? _]| |done].
    intros ->. destruct Hq as (_ & _ & _ & Hfy & _). congruence.
Qed.

(** [priv_conn_check_unfreeze_next] never fails, does nothing while a
    pair waits, and otherwise makes the first frozen pair of every foundation
    (in the order of the streams and of their check lists) wait, leaves every
    other pair and all else as it was, and returns TRUE exactly when there
    was a frozen pair. *)
Theorem unfreeze_one_per_foundation a :
  wf a ->
  exists r h', priv_conn_check_unfreeze_next a = Ok (r, a <| a_pairs := h' |>) /\
    ((exists p x, a_pairs a !! p = Some x /\ cp_state x = NICE_CHECK_WAITING) -> r = true /\ h' = a_pairs a) /\
    (~ (exists p x, a_pairs a !! p = Some x /\ cp_state x = NICE_CHECK_WAITING) ->
       unfrozen (a_pairs a) h' (first_frozen (a_pairs a) (all_checks a) []) /\
       (r = true <-> exists p x, a_pairs a !! p = Some x /\ frozen x)).
Proof.
  intros W. assert (Hl : forall p, p ∈ all_checks a -> is_Some (a_pairs a !! p)) by (intros; by apply wf_lookup).
  unfold priv_conn_check_unfreeze_next. destruct (find_next_waiting_spec a (all_checks a) Hl) as [(p & x & -> & _ & Hx & Hw)|[-> Hno]]; cbn [mbind res_bind].
  - exists true, (a_pairs a). split; [by destruct a|]. split; [done|]. intros []. by exists p, x.
  - destruct (unfreeze_loop_spec (all_checks a) a [] false (wf_nodup _ W) Hl) as (r & h' & -> & Hu & Hr).
    exists r, h'. split; [done|]. split.
    + intros (p & x & Hx & Hw). destruct (Hno p x); [by eapply wf_listed|done..].
    + intros _. split; [done|]. rewrite Hr. split.
      * intros [|(p & x & Hx & (_ & _ & _ & Hf & _))]; [done|]. by exists p, x.
      * intros (p & x & Hx & Hf). right. eapply exists_first_frozen; [done|by eapply wf_listed|done..].
Qed.

Definition ex_additions : list check_op :=
  [OpAddForRemote 1 1 (ex_cand 2 NICE_CANDIDATE_TYPE_HOST 2015363327 1);
   OpAddForRemote 1 1 (ex_cand 3 NICE_CANDIDATE_TYPE_RELAYED 335544319 1)].

(** The agent of the example with two pairs. *)
Definition ex_paired : NiceAgent := after (E := ex_check_env) (B := ex_base64) (N := ex_net) (R := ex_consent) (CE := ex_component_env) (G := ex_random) [] ex_ice ex_additions.

Lemma ex_paired_wf : wf ex_paired.
Proof. apply wf_after, ex_ice_wf. Qed.

Lemma unfreeze_one_per_foundation_witness :
  exists r h', priv_conn_check_unfreeze_next ex_paired = Ok (r, ex_paired <| a_pairs := h' |>) /\
    (cp_state <$> h' !! 100 = Some NICE_CHECK_WAITING) /\ (cp_state <$> h' !! 101 = Some NICE_CHECK_FROZEN).
Proof.
  destruct (unfreeze_one_per_foundation ex_paired ex_paired_wf) as (r & h' & H & _ & _). exists r, h'. split; [done|].
  revert H. vm_compute. by intros [= <- <-].
Defined.

(** ** The size limit *)

(** The pair at position [i] (from 1) may go: it failed, or it is frozen and
    the list is full before it. *)
Definition discarded (a : NiceAgent) (i : Z) (x : CandidateCheckPair) : Prop :=
  cp_state x = NICE_CHECK_FAILED \/ cp_state x = NICE_CHECK_FROZEN /\ a_max_conn_checks a < i.

Lemma discarded_dec a i x : (a_max_conn_checks a <? i) && bool_decide (cp_state x = NICE_CHECK_FROZEN)
         || bool_decide (cp_state x = NICE_CHECK_FAILED) = true <-> discarded a i x.
Proof. unfold discarded. rewrite orb_true_iff, andb_true_iff, !bool_decide_eq_true, Z.ltb_lt. tauto. Qed.

Lemma limit_loop_spec sid pair l : forall a n d, visiting a sid l ->
  exists d' a', limit_loop a sid pair l n d = Ok (d', a') /\ wf a' /\
    (forall q, q ∉ l -> a_pairs a' !! q = a_pairs a !! q) /\
    (forall i p x, l !! i = Some p -> a_pairs a !! p = Some x ->
       (discarded a (n + 1 + Z.of_nat i) x /\ a_pairs a' !! p = None) \/
       (~ discarded a (n + 1 + Z.of_nat i) x /\ a_pairs a' !! p = Some x)) /\
    (d' = true <-> d = true \/ (pair ∈ l /\ a_pairs a' !! pair = None)).
Proof.
  induction l as [|p l IH]; intros a n d V; cbn [limit_loop].
  - exists d, a. split; [done|]. split; [apply V|]. split; [done|]. split; [done|]. split; [by left|].
    by intros [|[?%elem_of_nil _]].
  - destruct (visiting_head _ _ _ _ V) as [Hp [x Hx]]. rewrite (deref_ok _ _ _ Hx). cbn [mbind res_bind]. cbv zeta.
    pose proof (vi_nodup _ _ _ V) as [Hpl _]%NoDup_cons. destruct ((_ && _) || _) eqn:Ed.
    + apply discarded_dec in Ed. rewrite (free_and_delete_eq _ _ _ (mk_is_Some _ _ Hx)). cbn [mbind res_bind].
      destruct (IH _ (n + 1) (d || (p =? pair)) (visiting_drop _ _ _ _ V)) as (d' & a' & -> & W' & Ho & Hi & Hd).
      change (a_pairs (drop_pair a sid p)) with (delete p (a_pairs a)) in Ho, Hi.
      assert (Hnone : a_pairs a' !! p = None) by (rewrite Ho by done; apply lookup_delete_eq).
      exists d', a'. split; [done|]. split; [done|]. split; [|split].
      * intros q Hq. apply not_elem_of_cons in Hq as [? ?]. rewrite Ho by done. by apply lookup_delete_ne.
      * intros [|i] q y Hq Hy; cbn in Hq.
        -- injection Hq as <-. left. rewrite Hx in Hy. injection Hy as <-. rewrite Z.add_0_r. by split.
        -- replace (n + 1 + Z.of_nat (S i)) with (n + 1 + 1 + Z.of_nat i) by lia. apply (Hi i q y Hq).
           rewrite lookup_delete_ne; [done|]. intros ->. by apply list_elem_of_lookup_2 in Hq.
      * rewrite Hd, orb_true_iff, Z.eqb_eq, elem_of_cons. split.
        -- intros [[?|<-]|[? ?]]; [by left|right; split; [by left|done]|right; tauto].
        -- intros [?|[[->|?] ?]]; [by left; left|by left; right|by right].
    + assert (Hnd : ~ discarded a (n + 1) x) by (intros H%discarded_dec; congruence).
      destruct (IH _ (n + 1) d (visiting_skip _ _ _ _ V)) as (d' & a' & -> & W' & Ho & Hi & Hd).
      exists d', a'. split; [done|]. split; [done|]. split; [|split].
      * intros q Hq. apply not_elem_of_cons in Hq as [? ?]. by apply Ho.
      * intros [|i] q y Hq Hy; cbn in Hq.
        -- injection Hq as <-. right. rewrite Hx in Hy. injection Hy as <-. rewrite Z.add_0_r. split; [done|]. by rewrite Ho.
        -- replace (n + 1 + Z.of_nat (S i)) with (n + 1 + 1 + Z.of_nat i) by lia. apply (Hi i q y Hq Hy).
      * rewrite Hd, elem_of_cons. split; [tauto|]. intros [?|[[->|?] Hnone]]; [by left| |by right].
        rewrite Ho in Hnone by done. congruence.
Qed.

(** The size limit removes only pairs that are not in use.  On a well
    formed agent [priv_limit_conn_check_list_size] never fails; it frees
    exactly the failed pairs of the stream and its frozen pairs beyond the
    maximum, in the order of priority, keeps every other pair unchanged,
    leaves a well formed agent, and returns TRUE exactly when the pair asked
    about is one of the freed ones. *)
Theorem limit_keeps_pairs_in_use a sid s pair :
  wf a -> the_stream a sid = Ok s -> pair ∈ str_conncheck_list s ->
  exists deleted a', priv_limit_conn_check_list_size a sid pair = Ok (deleted, a') /\ wf a' /\
    (forall q, q ∉ str_conncheck_list s -> a_pairs a' !! q = a_pairs a !! q) /\
    (forall i p x, str_conncheck_list s !! i = Some p -> a_pairs a !! p = Some x ->
       (discarded a (1 + Z.of_nat i) x /\ a_pairs a' !! p = None) \/
       (~ discarded a (1 + Z.of_nat i) x /\ a_pairs a' !! p = Some x)) /\
    (deleted = true <-> a_pairs a' !! pair = None).
Proof.
  intros W Hs Hp. unfold priv_limit_conn_check_list_size. rewrite Hs. cbn [mbind res_bind].
  destruct (limit_loop_spec sid pair _ a 0 false (visiting_start _ _ _ W Hs)) as (d & a' & -> & W' & Ho & Hi & Hd).
  exists d, a'. split; [done|]. split; [done|]. split; [done|]. split; [exact Hi|]. rewrite Hd. split; [by intros [?|[_ ?]]|by right].
Qed.

Lemma limit_keeps_pairs_in_use_witness :
  exists deleted a', priv_limit_conn_check_list_size ex_paired 1 101 = Ok (deleted, a') /\ deleted = false /\ wf a'.
Proof.
  destruct (the_stream ex_paired 1) as [s|] eqn:Hs; [|exfalso; revert Hs; vm_compute; discriminate].
  assert (H101 : 101 ∈ str_conncheck_list s).
  { revert Hs. vm_compute. intros [= <-]. right. by left. }
  destruct (limit_keeps_pairs_in_use ex_paired 1 s 101 ex_paired_wf Hs H101) as (d & a' & H & W' & _).
  exists d, a'. split; [done|]. split; [|done]. revert H. vm_compute. by intros [= <- _].
Defined.

(** The role change at the agent with two pairs. *)
Lemma role_switch_reorders_witness :
  exists a', priv_check_for_role_conflict ex_paired false = Ok a' /\ wf a' /\ a_controlling_mode a' = false.
Proof.
  destruct (role_switch_reorders ex_paired false ex_paired_wf) as (a' & H & W & Hm & _). exists a'. split; [exact H|]. split; [exact W|exact Hm].
Defined.
