(* ===== verification/TimerProps.v ===== *)
(** * The discovery timer stops when, and only when, every discovery is done *)
From S2P Require Import Prelude CMem StunTypes StunMessage StunAgent StunAgentProps StunTimer StunIce StunTurn Address Candidate IceTypes IceEnv CheckList CheckDriver Discovery CheckTick KeepAlive DiscoveryReply CheckInv CheckInboundInv StreamsInv CheckMain.
Local Open Scope Z_scope.

(** ** Changes to one discovery *)

Definition upd_at (ptr : Z) (f : CandidateDiscovery -> CandidateDiscovery) (l : list CandidateDiscovery) : list CandidateDiscovery :=
  (fun d => if cd_ptr d =? ptr then f d else d) <$> l.

Record touched (a : NiceAgent) (ptr : Z) (f : CandidateDiscovery -> CandidateDiscovery) (a' : NiceAgent) : Prop := {
  to_list : a_discovery_list a' = upd_at ptr f (a_discovery_list a);
  to_ptr : forall d, cd_ptr (f d) = cd_ptr d
}.

Lemma touched_same a ptr a' : a_discovery_list a' = a_discovery_list a -> touched a ptr (fun d => d) a'.
Proof.
  intros H. split; [|done]. rewrite H. unfold upd_at. clear H. induction (a_discovery_list a) as [|d l IH]; [done|]. rewrite fmap_cons, <-IH. by destruct (_ =? _).
Qed.

Lemma touched_upd a ptr f a' : (forall d, cd_ptr (f d) = cd_ptr d) -> upd_discovery a ptr f = Ok a' -> touched a ptr f a'.
Proof. unfold upd_discovery. intros Hf H. inv_res. by split. Qed.

Lemma touched_trans a b c ptr f g : touched a ptr f b -> touched b ptr g c -> touched a ptr (fun d => g (f d)) c.
Proof.
  intros [H1 P1] [H2 P2]. split; [|intros; by rewrite P2, P1]. rewrite H2, H1. unfold upd_at. rewrite <-list_fmap_compose.
  apply list_fmap_ext. intros i d _. cbn. destruct (Z.eqb_spec (cd_ptr d) ptr) as [E|E].
  - by rewrite P1, (proj2 (Z.eqb_eq _ _) E).
  - by rewrite (proj2 (Z.eqb_neq _ _) E).
Qed.

Section tick.
Context {E : CheckEnv} {CL : CryptoLib} {B : Base64} {N : NetEnv} (package_string : list Z).

Lemma send_discoveries a sock addr len buf : a_discovery_list (snd (agent_socket_send a sock addr len buf)) = a_discovery_list a.
Proof. unfold agent_socket_send. destruct (nice_socket_is_reliable sock); [done|]. cbv zeta. by destruct (_ <? 0). Qed.

Lemma try_send_discoveries a d len m x b : try_send a d len m = (x, b) -> a_discovery_list b = a_discovery_list a.
Proof.
  unfold try_send. destruct (0 <? len); [|by intros [= <- <-]]. pose proof (send_discoveries a (cd_nicesock d) (cd_server d) len (buffer m)) as F.
  destruct (agent_socket_send _ _ _ _ _) as [n b']. by intros [= <- <-].
Qed.

Lemma start_touches a ptr sent a' : start_discovery package_string a ptr = Ok (sent, a') ->
  exists f, touched a ptr f a' /\ forall d, cd_done (f d) = if sent then cd_done d else true.
Proof.
  unfold start_discovery. intros H. inv_res. apply touched_upd in Ha0; [|done]. cbv zeta in H. inv_res. destruct a3 as [[len ag] m]. inv_res.
  set (b := if a_discovery_unsched_items a1 =? 0 then a1 else _) in *.
  assert (T1 : touched a ptr (fun d => d <| cd_pending := true |>) b).
  { eapply (touched_trans _ _ _ _ _ (fun d => d)); [exact Ha0|]. apply touched_same. unfold b. by destruct (_ =? 0). }
  apply touched_upd in Ha3; [|done]. assert (Tp : touched b ptr (fun d => d) (b <| a_next_ptr := a_next_ptr b + 1 |>)) by by apply touched_same.
  assert (T2 := touched_trans _ _ _ _ _ _ T1 (touched_trans _ _ _ _ _ _ Tp Ha3)). clearbody b.
  destruct (try_send a2 a0 len m) as [s c] eqn:Hs. apply try_send_discoveries in Hs. assert (T3 := touched_trans _ _ _ _ _ _ T2 (touched_same _ ptr _ Hs)).
  destruct s; inv_res.
  - apply touched_upd in Ha5; [|done]. eexists. split; [exact (touched_trans _ _ _ _ _ _ T3 Ha5)|]. done.
  - apply touched_upd in Ha4; [|done]. eexists. split; [exact (touched_trans _ _ _ _ _ _ T3 Ha4)|]. done.
Qed.

Lemma run_touches a ptr d g pace a' : the_discovery a ptr = Ok d -> cd_done d = false -> run_discovery a ptr = Ok (g, pace, a') ->
  (pace = true -> g = true) /\ exists f, touched a ptr f a' /\ cd_done (f d) = negb g.
Proof.
  unfold run_discovery. intros -> Hd H. cbn [mbind res_bind] in H. cbv zeta in H. destruct (cd_stun_message d) as [m|].
  - destruct (_ <=? _); inv_res; [|split; [done|]; eexists; split; [by apply touched_same|exact Hd]]. destruct a0 as [ret timer]. destruct ret; inv_res.
    + apply touched_upd in Ha0; [|done]. split; [done|]. eexists. split; [exact Ha0|]. exact Hd.
    + apply touched_upd in Ha1; [|done]. split; [done|]. eexists.
      split; [exact (touched_trans _ _ _ _ _ _ (touched_same _ ptr _ (send_discoveries _ _ _ _ _)) Ha1)|]. exact Hd.
    + apply touched_upd in Ha1; [|done]. split; [done|]. eexists. split; [exact Ha1|]. done.
  - inv_res. apply touched_upd in Ha; [|done]. split; [done|]. eexists. split; [exact Ha|]. done.
Qed.

(** ** The loop *)

(** The discoveries at [ptrs] that were never started are not done. *)
Definition startable (a : NiceAgent) (ptrs : list Z) : Prop :=
  forall d, d ∈ a_discovery_list a -> cd_ptr d ∈ ptrs -> cd_pending d = false -> cd_done d = false.

Definition all_done (ds : list CandidateDiscovery) (ptrs : list Z) : Prop :=
  forall d, d ∈ ds -> cd_ptr d ∈ ptrs -> cd_done d = true.

Lemma the_discovery_in a ptr d : the_discovery a ptr = Ok d -> d ∈ a_discovery_list a /\ cd_ptr d = ptr.
Proof.
  unfold the_discovery. destruct (List.find _ _) as [x|] eqn:Hf; [|done]. intros [= <-]. apply List.find_some in Hf as [Hi Hp].
  split; [by apply list_elem_of_In|]. by apply Z.eqb_eq.
Qed.

Lemma NoDup_fmap_same {X Y} (f : X -> Y) l x y : NoDup (f <$> l) -> x ∈ l -> y ∈ l -> f x = f y -> x = y.
Proof.
  induction l as [|z l IH]; [by intros _ ?%not_elem_of_nil|]. rewrite fmap_cons, NoDup_cons. intros [Hn Hd] Hx Hy Eq.
  apply elem_of_cons in Hx as [->|Hx]; apply elem_of_cons in Hy as [->|Hy]; [done|..].
  - exfalso. apply Hn. rewrite Eq. by apply list_elem_of_fmap_2.
  - exfalso. apply Hn. rewrite <-Eq. by apply list_elem_of_fmap_2.
  - by apply IH.
Qed.

(** What a step leaves: its own discovery, done or not, and the others. *)
Record stepped (a : NiceAgent) (ptr : Z) (goes_on : bool) (a' : NiceAgent) : Prop := {
  sp_ptrs : cd_ptr <$> a_discovery_list a' = cd_ptr <$> a_discovery_list a;
  sp_others : forall d, cd_ptr d <> ptr -> d ∈ a_discovery_list a' <-> d ∈ a_discovery_list a;
  sp_own : exists d, d ∈ a_discovery_list a' /\ cd_ptr d = ptr /\ cd_done d = negb goes_on
}.

Lemma touched_stepped a ptr f a' d g : touched a ptr f a' -> d ∈ a_discovery_list a -> cd_ptr d = ptr -> cd_done (f d) = negb g -> stepped a ptr g a'.
Proof.
  intros [HL Hp] Hi Hd Hg. split.
  - rewrite HL. unfold upd_at. rewrite <-list_fmap_compose. apply list_fmap_ext. intros i x _. cbn. destruct (_ =? _); [apply Hp|done].
  - intros x Hx. rewrite HL. unfold upd_at. rewrite list_elem_of_fmap. split.
    + intros (y & -> & Hy). destruct (Z.eqb_spec (cd_ptr y) ptr) as [E'|]; [|done]. by rewrite Hp in Hx.
    + intros Hxi. exists x. by rewrite (proj2 (Z.eqb_neq _ _) Hx).
  - exists (f d). split_and!; [|by rewrite Hp|done]. rewrite HL. unfold upd_at. apply list_elem_of_fmap. exists d.
    by rewrite (proj2 (Z.eqb_eq _ _) Hd).
Qed.

Lemma step_stepped a ptr g pace a' : startable a [ptr] -> discovery_step package_string a ptr = Ok (g, pace, a') ->
  (pace = true -> g = true) /\ stepped a ptr g a'.
Proof.
  intros Hs H. unfold discovery_step in H. inv_res. pose proof (the_discovery_in _ _ _ Ha) as [Hi Hp].
  destruct (cd_pending a0) eqn:Hpend; cbn [negb] in H.
  - destruct (cd_done a0) eqn:Hd; cbn [negb] in H.
    + inv_res. split; [done|]. by apply (touched_stepped _ _ (fun d => d) _ a0); [apply touched_same|..].
    + destruct (run_touches _ _ _ _ _ _ Ha Hd H) as (Hpg & f & Ht & Hf). split; [done|]. by apply (touched_stepped _ _ f _ a0).
  - inv_res. destruct a1 as [sent b]. inv_res. apply start_touches in Ha0 as (f & Ht & Hf). split; [done|]. apply (touched_stepped _ _ f _ a0); [done..|].
    rewrite Hf, (Hs a0); [by destruct g|done|set_solver|done].
Qed.

Lemma loop_counts ptrs : forall a n m a', NoDup (cd_ptr <$> a_discovery_list a) -> NoDup ptrs -> startable a ptrs ->
  discovery_tick_loop package_string a ptrs n = Ok (m, a') ->
  n <= m /\ (m = n <-> all_done (a_discovery_list a') ptrs) /\
  cd_ptr <$> a_discovery_list a' = cd_ptr <$> a_discovery_list a /\
  (forall d, cd_ptr d ∉ ptrs -> d ∈ a_discovery_list a' <-> d ∈ a_discovery_list a).
Proof.
  induction ptrs as [|ptr ptrs IH]; intros a n m a' Hnd Hp Hs H; cbn [discovery_tick_loop] in H.
  { inv_res. split_and!; [lia| |done|done]. split; [|done]. intros _ d _ Hd. by apply not_elem_of_nil in Hd. }
  inv_res. destruct a0 as [[g pace] b]. apply NoDup_cons in Hp as [Hn Hp].
  apply step_stepped in Ha as [Hpg [S1 S2 (d & Hd & Hdp & Hdone)]]; [|intros x Hx Hxp; apply Hs; [done|by apply list_elem_of_singleton in Hxp as ->; left]].
  assert (Hn' : forall x, cd_ptr x ∈ ptrs -> cd_ptr x <> ptr) by (by intros x Hx E0; rewrite E0 in Hx). cbv zeta in H. destruct pace.
  - inv_res. rewrite (Hpg eq_refl) in *. split_and!; [lia| |done|]; [|intros x Hx; apply S2; intros E0; apply Hx; rewrite E0; left].
    split; [lia|]. intros HA. rewrite HA in Hdone; [done..|left].
  - apply IH in H as (I1 & I2 & I3 & I4); [|by rewrite S1|done|intros x Hx Hxp; apply Hs; [apply S2; auto|by right]].
    assert (Hd' : d ∈ a_discovery_list a') by (apply I4; [by rewrite Hdp|done]).
    assert (HU : NoDup (cd_ptr <$> a_discovery_list a')) by (by rewrite I3, S1).
    split_and!; [destruct g; lia| |by rewrite I3|intros x [Hx1 Hx2]%not_elem_of_cons; rewrite I4 by done; by apply S2].
    split.
    + intros ->. destruct g; [lia|]. intros x Hx Hxp. apply elem_of_cons in Hxp as [Hxp|Hxp]; [|by apply I2].
      assert (x = d) as -> by (apply (NoDup_fmap_same cd_ptr (a_discovery_list a')); congruence). by rewrite Hdone.
    + intros HA. rewrite HA in Hdone; [|done|rewrite Hdp; left]. destruct g; [done|].
      apply I2. intros x Hx Hxp. apply HA; [done|by right].
Qed.
End tick.

(** ** The end of gathering leaves the discoveries alone *)

Definition disco (a : NiceAgent) : list CandidateDiscovery * bool := (a_discovery_list a, a_discovery_timer a).

Section calm.
Context {N : NetEnv}.

Lemma calm_modify a p f a' : modify a p f = Ok a' -> disco a' = disco a.
Proof. unfold modify. intros. by inv_res. Qed.

Lemma calm_unfreeze_maybe p l : forall a a', unfreeze_maybe_loop a p l = Ok a' -> disco a' = disco a.
Proof.
  induction l as [|q l IH]; intros a a' H; cbn [unfreeze_maybe_loop] in H; inv_res; [done|]. rewrite (IH _ _ H).
  destruct (_ && _); [by apply calm_modify in Ha1|by inv_res].
Qed.

Lemma calm_free a sid p a' : free_and_delete a sid p = Ok a' -> disco a' = disco a.
Proof.
  unfold free_and_delete, candidate_check_pair_free, priv_free_all_stun_transactions. intros H. inv_res.
  match goal with H : modify _ _ _ = Ok _ |- _ => apply calm_modify in H; exact H end.
Qed.

Lemma calm_limit sid p l : forall a v d x a', limit_loop a sid p l v d = Ok (x, a') -> disco a' = disco a.
Proof.
  induction l as [|q l IH]; intros a v d x a' H; cbn [limit_loop] in H; inv_res; [done|]. cbv zeta in H.
  destruct (_ || _); inv_res; rewrite (IH _ _ _ _ _ H); [by eapply calm_free|done].
Qed.

Lemma calm_state a sid cid st a' : agent_signal_component_state_change a sid cid st = Ok a' -> disco a' = disco a.
Proof.
  unfold agent_signal_component_state_change. destruct (agent_find_component _ _ _) as [[s c]|]; [|intros; by inv_res].
  destruct (bool_decide _); intros; inv_res; [done|]. cbv zeta. by destruct (a_reliable _).
Qed.

Lemma calm_new_pair a sid cid l r st x a' : priv_add_new_check_pair a sid cid l r st = Ok (x, a') -> disco a' = disco a.
Proof.
  unfold priv_add_new_check_pair. cbv zeta. intros H. inv_res. destruct (_ && _); inv_res; [done|]. destruct a2 as [p b].
  assert (Hb : disco (priv_schedule_next b) = disco a).
  { unfold add_pair in Ha1. inv_res. unfold priv_schedule_next. cbn. destruct (a_conncheck_timer a); cbn; by destruct (a_keepalive_timer a). }
  inv_res. assert (Hc : disco a2 = disco a).
  { rewrite <-Hb. destruct (bool_decide (st = _)); [|by inv_res]. unfold priv_conn_check_unfreeze_maybe in Ha2. inv_res. by eapply calm_unfreeze_maybe. }
  destruct (bool_decide (_ = NICE_COMPATIBILITY_RFC5245)); inv_res; [|done]. destruct a3 as [del c]. inv_res. unfold priv_limit_conn_check_list_size in Ha3. inv_res.
  rewrite <-Hc. by eapply calm_limit.
Qed.

Lemma calm_matched a sid cid l r st x a' : priv_conn_check_add_for_candidate_pair_matched a sid cid l r st = Ok (x, a') -> disco a' = disco a.
Proof.
  unfold priv_conn_check_add_for_candidate_pair_matched. intros H. inv_res. destruct a0 as [np b]. apply calm_new_pair in Ha. rewrite <-Ha.
  destruct np; inv_res; [|done]. by destruct (co_state a0); apply calm_state in Ha1.
Qed.

Lemma calm_pair a sid cid l r x a' : conn_check_add_for_candidate_pair a sid cid l r = Ok (x, a') -> disco a' = disco a.
Proof.
  unfold conn_check_add_for_candidate_pair. cbv zeta. intros H. destruct (_ && _); [by inv_res|]. destruct (bool_decide _); [by inv_res|].
  destruct (_ && _); [|by inv_res]. inv_res. destruct a0; inv_res; [done|]. destruct a0 as [np b]. inv_res. by eapply calm_matched.
Qed.

Lemma calm_pair_with sid cid l rs : forall a a', pair_with_remotes a sid cid l rs = Ok a' -> disco a' = disco a.
Proof.
  induction rs as [|r rs IH]; intros a a' H; cbn [pair_with_remotes] in H; inv_res; [done|]. rewrite (IH _ _ H).
  destruct a1; inv_res; [done|]. destruct a1 as [x b]. inv_res. by eapply calm_pair.
Qed.

Lemma calm_pair_gathered sid cid ls : forall a a', pair_gathered a sid cid ls = Ok a' -> disco a' = disco a.
Proof.
  induction ls as [|l ls IH]; intros a a' H; cbn [pair_gathered] in H; inv_res; [done|]. rewrite (IH _ _ H).
  destruct (_ && _); [by inv_res|]. destruct (_ && _); inv_res; [done|]. by eapply calm_pair_with.
Qed.

Lemma calm_components sid cids : forall a dns x a', gathered_components a sid cids dns = Ok (x, a') -> disco a' = disco a.
Proof.
  induction cids as [|cid cids IH]; intros a dns x a' H; cbn [gathered_components] in H; inv_res; [done|].
  destruct (nice_component_resolving_turn _); [by eapply IH|]. inv_res. rewrite (IH _ _ _ _ H). by eapply calm_pair_gathered.
Qed.

Lemma calm_streams sids : forall a dns x a', gathered_streams a sids dns = Ok (x, a') -> disco a' = disco a.
Proof.
  induction sids as [|sid sids IH]; intros a dns x a' H; cbn [gathered_streams] in H; inv_res; [done|].
  destruct (negb _); [by eapply IH|]. inv_res. destruct a1 as [d b]. rewrite (IH _ _ _ _ H). by eapply calm_components.
Qed.
End calm.

(** ** Every stream is told that its gathering is done *)

Lemma upd_gathering_streams a sid : forall s, s ∈ a_streams (upd_stream a sid (fun s => s <| str_gathering := false |>)) ->
  (str_id s = sid /\ str_gathering s = false) \/ s ∈ a_streams a.
Proof.
  cbn. induction (a_streams a) as [|x l IH]; intros s Hs; [by right|]. cbn in Hs. destruct (Z.eqb_spec (str_id x) sid) as [E|E].
  - apply elem_of_cons in Hs as [->|Hs]; [by left|]. right. by right.
  - apply elem_of_cons in Hs as [->|Hs]; [right; by left|]. destruct (IH s Hs) as [?|?]; [by left|right; by right].
Qed.

Lemma upd_gathering_off a sid s x : NoDup (str_id <$> a_streams a) -> x ∈ a_streams a -> str_id x = sid ->
  s ∈ a_streams (upd_stream a sid (fun s => s <| str_gathering := false |>)) -> str_id s = sid -> str_gathering s = false.
Proof.
  cbn. induction (a_streams a) as [|y l IH]; intros Hn Hx Hxi Hs Hsi; [by apply not_elem_of_nil in Hx|].
  rewrite fmap_cons, NoDup_cons in Hn. destruct Hn as [Hny Hn]. cbn in Hs. destruct (Z.eqb_spec (str_id y) sid) as [E|E].
  - apply elem_of_cons in Hs as [->|Hs]; [done|]. exfalso. apply Hny. rewrite E, <-Hsi. by apply list_elem_of_fmap_2.
  - apply elem_of_cons in Hx as [->|Hx]; [done|]. apply elem_of_cons in Hs as [->|Hs]; [done|]. by apply IH.
Qed.

Lemma upd_gathering_ids a sid : str_id <$> a_streams (upd_stream a sid (fun s => s <| str_gathering := false |>)) = str_id <$> a_streams a.
Proof.
  cbn. induction (a_streams a) as [|x l IH]; [done|]. cbn. destruct (_ =? _); [done|]. rewrite fmap_cons. f_equal. exact IH.
Qed.

Lemma signal_done_off ss : forall a, NoDup (str_id <$> a_streams a) ->
  (forall s, s ∈ a_streams a -> str_gathering s = true -> s ∈ ss) ->
  forall s, s ∈ a_streams (signal_done_loop a ss) -> str_gathering s = false.
Proof.
  induction ss as [|x ss IH]; intros a Hn Hall s Hs; cbn [signal_done_loop] in Hs.
  { destruct (str_gathering s) eqn:Hg; [|done]. by apply Hall, not_elem_of_nil in Hg. }
  destruct (str_gathering x) eqn:Hg.
  - apply IH in Hs; [done| |]. { change (NoDup (str_id <$> a_streams (upd_stream a (str_id x) (fun s => s <| str_gathering := false |>)))). by rewrite upd_gathering_ids. }
    intros y Hy Hgy. change (y ∈ a_streams (upd_stream a (str_id x) (fun s => s <| str_gathering := false |>))) in Hy.
    destruct (upd_gathering_streams _ _ _ Hy) as [[_ ?]|Hin]; [congruence|]. specialize (Hall y Hin Hgy) as [->|]%elem_of_cons; [|done].
    by rewrite (upd_gathering_off a (str_id x) x x Hn Hin eq_refl Hy eq_refl) in Hg.
  - apply IH in Hs; [done..|]. intros y Hy Hgy. specialize (Hall y Hy Hgy) as [->|]%elem_of_cons; [congruence|done].
Qed.

Lemma signal_done_discoveries ss : forall a, a_discovery_list (signal_done_loop a ss) = a_discovery_list a.
Proof. induction ss as [|s ss IH]; intros a; cbn [signal_done_loop]; [done|]. rewrite IH. by destruct (str_gathering s). Qed.

Lemma discovery_freed a : a_streams (discovery_free a) = a_streams a /\ disco (discovery_free a) = ([], false).
Proof. unfold discovery_free, disco. cbv zeta. destruct (a_discovery_timer (a <| a_discovery_list := [] |> <| a_discovery_unsched_items := 0 |>)) eqn:Ht; [done|]. by rewrite Ht. Qed.

Lemma lists_ids a : (lists a).*1 = str_id <$> a_streams a.
Proof. unfold lists. by rewrite <-list_fmap_compose. Qed.

Lemma not_all_done (ds : list CandidateDiscovery) : ~ (forall d, d ∈ ds -> cd_done d = true) -> exists d, d ∈ ds /\ cd_done d = false.
Proof.
  induction ds as [|d ds IH]; intros H. { exfalso. apply H. by intros d ?%not_elem_of_nil. }
  destruct (cd_done d) eqn:E; [|exists d; split; [by left|done]]. destruct IH as (x & ? & ?); [|exists x; split; [by right|done]].
  intros HA. apply H. intros x [->|Hx]%elem_of_cons; [done|by apply HA].
Qed.

Section ends.
Context {E : CheckEnv} {CL : CryptoLib} {B : Base64} {N : NetEnv} (package_string : list Z).

(** The discovery timer stops exactly when the last discovery is over.
    On an agent with a well-formed check list, whose discoveries are distinct
    and not done before they were started, a call of the timer that returns
    goes on exactly when some discovery is left that is not done, and then
    keeps all of them; when it stops, every discovery was done, the discovery
    list is empty, the timer is gone and, unless the address of a TURN server
    is still being resolved, no stream is left gathering. *)
Theorem discovery_timer_stops a r a' : wf a -> NoDup (cd_ptr <$> a_discovery_list a) -> startable a (cd_ptr <$> a_discovery_list a) ->
  priv_discovery_tick_agent_locked package_string a = Ok (r, a') ->
  exists n b, discovery_tick_loop package_string a (cd_ptr <$> a_discovery_list a) 0 = Ok (n, b) /\
    cd_ptr <$> a_discovery_list b = cd_ptr <$> a_discovery_list a /\
    if r then a' = b /\ exists d, d ∈ a_discovery_list b /\ cd_done d = false
    else (forall d, d ∈ a_discovery_list b -> cd_done d = true) /\ a_discovery_list a' = [] /\ a_discovery_timer a' = false /\
      exists dns c, gathered_streams (discovery_free b) (str_id <$> a_streams b) false = Ok (dns, c) /\
        (dns = false -> forall s, s ∈ a_streams a' -> str_gathering s = false).
Proof.
  intros W Hn Hs H. unfold priv_discovery_tick_agent_locked, priv_discovery_tick_unlocked in H. inv_res. destruct a0 as [ret a0], a1 as [n b]. inv_res.
  exists n, b. pose proof (keeps_tick_loop package_string _ _ _ W _ Ha0 : wf b) as Wb.
  split; [done|]. apply loop_counts in Ha0 as (Hle & Hex & Hptr & _); [|done..]. split; [done|].
  assert (HA : n = 0 <-> forall d, d ∈ a_discovery_list b -> cd_done d = true).
  { rewrite Hex. split; intros HA d Hd; [apply HA; [done|]|by intros _; apply HA]. rewrite <-Hptr. by apply list_elem_of_fmap_2. }
  destruct (Z.eqb_spec n 0) as [Hz|Hne]; inv_res.
  - cbn [negb]. split; [by apply HA|]. unfold agent_gathering_done in Ha0. inv_res. destruct a1 as [dns c].
    pose proof (discovery_freed b) as Hfree.
    assert (Wc : wf c) by exact (keeps_gathered_streams _ _ false (wf_discovery_free _ Wb) _ Ha).
    apply calm_streams in Ha as Hd. rewrite (proj2 Hfree) in Hd. injection Hd as Hd1 Hd2. rewrite (proj1 Hfree) in Ha. inv_res. rewrite Hd2.
    destruct dns; cbn [negb andb]; split_and!; try done.
    + exists true, c. split; [done|]. discriminate.
    + etrans; [exact (signal_done_discoveries _ _)|done].
    + exists false, c. split; [done|]. intros _ s Hsi. eapply signal_done_off; [|by intros|exact Hsi].
      pose proof (wf_ids _ Wc) as Hi. by rewrite lists_ids in Hi.
  - split; [done|]. apply not_all_done. intros Hall. by apply Hne, HA.
Qed.
End ends.

(** A discovery that waits, and one that is done. *)
Definition ex_discovery (pending finished : bool) : CandidateDiscovery :=
  mkDiscovery 7 NICE_CANDIDATE_TYPE_SERVER_REFLEXIVE (Some 1) (sockaddr_in (htons 3478) (htonl (dotted 192 0 2 9))) 0 pending finished 1 1 None
    StunAgentProps.ex_agent zero_timer None None.
Definition ex_gathering (pending finished : bool) : NiceAgent := ex_ice <| a_discovery_list := [ex_discovery pending finished] |> <| a_discovery_timer := true |>.

Lemma ex_gathering_wf p f : wf (ex_gathering p f).
Proof. eapply (wf_then ex_ice); [apply ex_ice_wf|]. by split. Qed.

Lemma ex_gathering_startable p f : (p = false -> f = false) ->
  NoDup (cd_ptr <$> a_discovery_list (ex_gathering p f)) /\ startable (ex_gathering p f) (cd_ptr <$> a_discovery_list (ex_gathering p f)).
Proof. intros H. split; [apply NoDup_singleton|]. by intros d ->%list_elem_of_singleton _. Qed.

Abbreviation ex_discovery_tick := (priv_discovery_tick_agent_locked (E := ex_check_env) (B := ex_base64) (N := ex_net) []).

(** The value of a computation that returns, with a default. *)
Definition ok_or {A} (d : A) (m : res A) : A := match m with Ok x => x | Fault _ => d end.

Lemma discovery_timer_stops_witness :
  (exists a' d, ex_discovery_tick (ex_gathering false false) = Ok (true, a') /\ d ∈ a_discovery_list a' /\ cd_done d = false) /\
  (exists a', ex_discovery_tick (ex_gathering true true) = Ok (false, a') /\ a_discovery_list a' = [] /\
     str_gathering <$> a_streams a' = [false]).
Proof.
  split.
  - set (x := ok_or (true, ex_ice) (ex_discovery_tick (ex_gathering false false))).
    assert (H : ex_discovery_tick (ex_gathering false false) = Ok (true, snd x)) by (vm_compute; reflexivity). clearbody x.
    destruct (discovery_timer_stops (E := ex_check_env) (B := ex_base64) (N := ex_net) [] (ex_gathering false false) true (snd x) (ex_gathering_wf false false)
      (proj1 (ex_gathering_startable false false (fun H => H))) (proj2 (ex_gathering_startable false false (fun H => H))) H)
      as (n & b & _ & _ & Hb & d & Hd & Hf).
    exists (snd x), d. split; [exact H|]. rewrite Hb. split; [exact Hd|exact Hf].
  - set (x := ok_or (true, ex_ice) (ex_discovery_tick (ex_gathering true true))).
    assert (H : ex_discovery_tick (ex_gathering true true) = Ok (false, snd x)) by (vm_compute; reflexivity).
    destruct (discovery_timer_stops (E := ex_check_env) (B := ex_base64) (N := ex_net) [] (ex_gathering true true) false (snd x) (ex_gathering_wf true true)
      (proj1 (ex_gathering_startable true true (fun H => H))) (proj2 (ex_gathering_startable true true (fun H => H))) H)
      as (n & b & _ & _ & _ & Hl & _).
    exists (snd x). split; [exact H|]. split; [exact Hl|]. vm_compute in x. reflexivity.
Defined.

(** * The consent of the peer expires

    The timer of [priv_conn_remote_consent_tick_agent_locked] fails the
    component exactly when nothing was heard of the peer for too long. *)

Section consent.
Context {E : CheckEnv}.

Lemma selected_upd a sid cid f c : the_component a sid cid = Ok c ->
  the_component (upd_selected a sid cid f) sid cid = Ok (c <| co_selected_pair := f (co_selected_pair c) |>).
Proof. intros Hc. by apply (the_component_upd a sid cid (fun c => c <| co_selected_pair := f (co_selected_pair c) |>)). Qed.

Lemma signal_failed a sid cid c : the_component a sid cid = Ok c ->
  exists a', agent_signal_component_state_change a sid cid NICE_COMPONENT_STATE_FAILED = Ok a' /\
    the_component a' sid cid = Ok (c <| co_state := NICE_COMPONENT_STATE_FAILED |>).
Proof.
  intros Hc. pose proof Hc as (s & Hs & Hc')%the_component_inv. unfold agent_signal_component_state_change, agent_find_component.
  rewrite Hs. cbn. rewrite Hc'. cbn. destruct (bool_decide_reflect (NICE_COMPONENT_STATE_FAILED = co_state c)) as [Hst|Hst].
  - exists a. split; [done|]. rewrite Hc. f_equal. destruct c. cbn in Hst |- *. by subst.
  - assert (valid_state_change (co_state c) NICE_COMPONENT_STATE_FAILED = true) as -> by by destruct (co_state c).
    cbn. eexists. split; [done|]. rewrite the_component_log.
    destruct (a_reliable _); rewrite ?the_component_log; by rewrite (the_component_upd _ _ _ _ c).
Qed.

(** What the timer leaves in the component. *)
Definition consent_checked (now timeout : Z) (c c' : NiceComponent) : Prop :=
  let p := co_selected_pair c in
  let p' := co_selected_pair c' in
  if timeout <? now - sp_consent_last_received p then
    co_state c' = NICE_COMPONENT_STATE_FAILED /\ sp_remote_consent_have p' = false /\ sp_consent_tick p' = None
  else
    co_state c' = co_state c /\ sp_remote_consent_have p' = sp_remote_consent_have p /\
    exists delay, sp_consent_tick p' = Some delay /\
      now + 1000 * delay <= sp_consent_last_received p + timeout < now + 1000 * (delay + 1).

(** C22: Consent expires.  The consent timer of a selected pair never
    fails: when the last answer of the peer is older than the timeout (30
    seconds with consent freshness, 50 seconds without), the pair loses its
    consent and the component goes to FAILED; otherwise the component is left
    alone and the timer is set again, not after the moment of expiry and less
    than a millisecond before it. *)
Theorem consent_expires a sid cid c :
  the_component a sid cid = Ok c ->
  sp_keepalive_stream_id (co_selected_pair c) = sid -> sp_keepalive_component_id (co_selected_pair c) = cid ->
  0 <= sp_consent_last_received (co_selected_pair c) <= g_get_monotonic_time (a_log a) -> g_get_monotonic_time (a_log a) < 2 ^ 63 ->
  exists a' c', priv_conn_remote_consent_tick_agent_locked a sid cid = Ok a' /\ the_component a' sid cid = Ok c' /\
    consent_checked (g_get_monotonic_time (a_log a)) (consent_timeout a) c c'.
Proof.
  intros Hc Hsid Hcid Ht Hm. unfold priv_conn_remote_consent_tick_agent_locked. rewrite Hc. cbn [mbind res_bind]. cbv zeta.
  set (a1 := upd_selected a sid cid _). set (now := g_get_monotonic_time (a_log a)) in *.
  change (g_get_monotonic_time (a_log a1)) with now. change (consent_timeout a1) with (consent_timeout a).
  set (last := sp_consent_last_received (co_selected_pair c)) in *.
  assert (Hu : u64 (now - last) = now - last) by (apply Z.mod_small; lia). rewrite Hu. unfold consent_checked. fold last.
  pose proof (selected_upd a sid cid _ c Hc : the_component a1 sid cid = Ok _) as H1.
  destruct (consent_timeout a <? now - last) eqn:Hlt.
  - rewrite Hsid, Hcid. set (a2 := upd_selected a1 sid cid _).
    pose proof (selected_upd a1 sid cid _ _ H1 : the_component a2 sid cid = Ok _) as H2.
    destruct (signal_failed a2 sid cid _ H2) as (a' & -> & H3). eexists a', _. by split_and!.
  - set (a2 := upd_selected a1 sid cid _).
    pose proof (selected_upd a1 sid cid _ _ H1 : the_component a2 sid cid = Ok _) as H2.
    eexists a2, _. split; [done|]. split; [exact H2|]. split; [done|]. split; [done|]. eexists. split; [done|].
    apply Z.ltb_ge in Hlt. assert (0 < consent_timeout a < 2 ^ 31) by (unfold consent_timeout; destruct (a_consent_freshness a); done).
    assert (consent_timeout a - (now - last) <= consent_timeout a) by lia.
    pose proof (Z.mul_div_le (consent_timeout a - (now - last)) 1000 ltac:(lia)).
    pose proof (Z.mul_succ_div_gt (consent_timeout a - (now - last)) 1000 ltac:(lia)).
    assert (Hd : u32 ((consent_timeout a - (now - last)) / 1000) = (consent_timeout a - (now - last)) / 1000) by (apply Z.mod_small; lia).
    rewrite Hd. lia.
Qed.
End consent.

(** A component whose peer was last heard 31 seconds ago, and one whose peer
    was heard just now. *)
Definition ex_selected (t : Z) : CandidatePair :=
  mkSelected (Some (ex_cand 1 NICE_CANDIDATE_TYPE_HOST 2015363327 1)) (Some (ex_cand 2 NICE_CANDIDATE_TYPE_HOST 2015363327 1))
    1 1 true (Some 5) t 0 1 1.
Definition ex_consenting (t : Z) : NiceAgent := upd_component ex_ice 1 1 (fun c => c <| co_selected_pair := ex_selected t |>).
Definition ex_late_env : CheckEnv := {|
  g_get_monotonic_time := fun _ => 60000000;
  gettimeofday := gettimeofday (CheckEnv := ex_check_env); stun_make_transid := stun_make_transid (CheckEnv := ex_check_env);
  nice_rng_generate_bytes := nice_rng_generate_bytes (CheckEnv := ex_check_env);
  nice_rng_generate_bytes_print := nice_rng_generate_bytes_print (CheckEnv := ex_check_env);
  nice_socket_is_reliable := fun _ => false; socket_has_fileno := fun _ => true; socket_type := fun _ => NICE_SOCKET_TYPE_UDP_BSD;
  nice_tcp_bsd_socket_get_passive_parent := fun _ => None; socket_addr := socket_addr (CheckEnv := ex_check_env);
  nice_socket_send_messages_reliable := fun _ _ _ _ => 1; nice_socket_send_reliable := fun _ _ _ _ => -1;
  nice_socket_send := fun _ _ _ b => zlen b; nice_tcp_active_socket_connect := fun _ _ _ => None;
  nice_udp_bsd_socket_new := fun _ _ => SocketFailed; nice_tcp_active_socket_new := fun _ _ => SocketFailed;
  nice_tcp_passive_socket_new := fun _ _ => SocketFailed; nice_udp_turn_socket_new := fun _ _ _ _ => None;
  agent_create_tcp_turn_socket := fun _ _ _ _ _ => None
|}.

Definition ex_consenting_component (t : Z) : NiceComponent := ex_component <| co_selected_pair := ex_selected t |>.

Lemma ex_consenting_found t : the_component (ex_consenting t) 1 1 = Ok (ex_consenting_component t).
Proof. reflexivity. Qed.

Lemma consent_expires_witness :
  (exists a' c', priv_conn_remote_consent_tick_agent_locked (E := ex_late_env) (ex_consenting 9000000) 1 1 = Ok a' /\
     the_component a' 1 1 = Ok c' /\ co_state c' = NICE_COMPONENT_STATE_FAILED) /\
  (exists a' c' d, priv_conn_remote_consent_tick_agent_locked (E := ex_late_env) (ex_consenting 59000000) 1 1 = Ok a' /\
     the_component a' 1 1 = Ok c' /\ sp_consent_tick (co_selected_pair c') = Some d /\ d <= 49000).
Proof.
  split.
  - destruct (consent_expires (E := ex_late_env) (ex_consenting 9000000) 1 1 _ (ex_consenting_found _)) as (a' & c' & H & Hc' & Hk);
      [reflexivity|reflexivity|split; discriminate|reflexivity|].
    exists a', c'. split; [exact H|]. split; [exact Hc'|]. exact (proj1 Hk).
  - destruct (consent_expires (E := ex_late_env) (ex_consenting 59000000) 1 1 _ (ex_consenting_found _)) as (a' & c' & H & Hc' & Hk);
      [reflexivity|reflexivity|split; discriminate|reflexivity|].
    destruct Hk as (_ & _ & d & Hd & Hle & _). exists a', c', d. split; [exact H|]. split; [exact Hc'|]. split; [exact Hd|].
    change (60000000 + 1000 * d <= 59000000 + 50000000) in Hle. lia.
Defined.
