(* ===== verification/SdpProps.v ===== *)
(** * What the peer reads is what the agent wrote

    The round trip of a candidate line and of the description of a stream,
    for any resolver that reads the numeric addresses it prints. *)
From Stdlib Require Import String.
From S2P Require Import Prelude CMem StunTypes StunAgent StunTimer Address Candidate IceTypes CheckList CheckDriver Discovery DiscoveryInv StunAccess CheckMain Sdp.
Local Open Scope Z_scope.

(** ** Words *)

(** [l] does not contain the separator. *)
Definition free_of (sep : Z) (l : list Z) : Prop := sep ∉ l.

Fixpoint join (sep : Z) (ws : list (list Z)) : list Z :=
  match ws with
  | [] => []
  | [w] => w
  | w :: ws => w ++ sep :: join sep ws
  end.

Lemma pieces_app sep w s : free_of sep w -> pieces sep (w ++ sep :: s) = w :: pieces sep s.
Proof.
  induction w as [|c w IH]; intros H; cbn [app pieces].
  - by rewrite Z.eqb_refl.
  - apply not_elem_of_cons in H as [Hc Hw]. rewrite (proj2 (Z.eqb_neq c sep)) by done. by rewrite IH.
Qed.

Lemma pieces_last sep w : free_of sep w -> pieces sep w = [w].
Proof.
  induction w as [|c w IH]; intros H; cbn [pieces]; [done|].
  apply not_elem_of_cons in H as [Hc Hw]. rewrite (proj2 (Z.eqb_neq c sep)) by done. by rewrite IH.
Qed.

Lemma pieces_join sep ws : ws <> [] -> Forall (free_of sep) ws -> pieces sep (join sep ws) = ws.
Proof.
  induction ws as [|w ws IH]; intros Hne H; [done|]. apply Forall_cons in H as [Hw H]. destruct ws as [|w' ws]; [by apply pieces_last|].
  change (join sep (w :: w' :: ws)) with (w ++ sep :: join sep (w' :: ws)). rewrite pieces_app by done. by rewrite IH.
Qed.

Lemma free_app sep l k : free_of sep (l ++ k) <-> free_of sep l /\ free_of sep k.
Proof. apply not_elem_of_app. Qed.

Lemma free_cons sep c l : free_of sep (c :: l) <-> sep <> c /\ free_of sep l.
Proof. apply not_elem_of_cons. Qed.

(** ** Numbers *)

Lemma decimal_digits_all fuel n : 0 <= n -> Forall (fun d => 48 <= d <= 57) (decimal_digits fuel n).
Proof.
  revert n. induction fuel as [|fuel IH]; intros n Hn; cbn [decimal_digits]; [done|]. apply Forall_app. split.
  - destruct (n <? 10); [done|]. apply IH. apply Z.div_pos; lia.
  - apply Forall_singleton. pose proof (Z.mod_pos_bound n 10). lia.
Qed.

Lemma read_digits_all l : forall v, Forall (fun d => 48 <= d <= 57) l -> read_digits v l = fold_left (fun v d => v * 10 + (d - 48)) l v.
Proof.
  induction l as [|d l IH]; intros v H; [done|]. apply Forall_cons in H as [Hd H]. cbn. unfold is_digit.
  rewrite (proj2 (Z.leb_le 48 d)), (proj2 (Z.leb_le d 57)) by lia. cbn. by apply IH.
Qed.

Lemma strtoull_digits l : Forall (fun d => 48 <= d <= 57) l -> g_ascii_strtoull l = strtoull_value (digits_value l) false.
Proof.
  intros H. unfold digits_value. rewrite <-read_digits_all by done. destruct l as [|d l]; [done|].
  apply Forall_cons in H as [Hd _]. unfold g_ascii_strtoull. cbn [skip_spaces]. unfold is_space.
  rewrite (proj2 (Z.eqb_neq d 32)), (proj2 (Z.leb_le 9 d)), (proj2 (Z.leb_gt d 13)) by lia. cbn [orb andb].
  assert (Hcase : d = 48 \/ d = 49 \/ d = 50 \/ d = 51 \/ d = 52 \/ d = 53 \/ d = 54 \/ d = 55 \/ d = 56 \/ d = 57) by lia.
  by repeat (destruct Hcase as [->|Hcase]); [..|subst d].
Qed.

Lemma strtoull_decimal n : 0 <= n < 2 ^ 32 -> g_ascii_strtoull (decimal n) = n.
Proof.
  intros Hn. unfold decimal. rewrite strtoull_digits by (apply decimal_digits_all; lia).
  rewrite decimal_digits_value by (change (10 ^ Z.of_nat 20) with 100000000000000000000; lia).
  unfold strtoull_value. by rewrite (proj2 (Z.ltb_lt _ _)) by lia.
Qed.

Lemma strtoull_format n : 0 <= n < 2 ^ 32 -> u32 (g_ascii_strtoull (format_d n)) = n.
Proof.
  intros Hn. unfold format_d. destruct (Z.ltb_spec n (2 ^ 31)).
  - rewrite strtoull_decimal by lia. apply Z.mod_small. lia.
  - change (g_ascii_strtoull (45 :: decimal (2 ^ 32 - n))) with (strtoull_value (read_digits 0 (decimal (2 ^ 32 - n))) true).
    unfold decimal. rewrite read_digits_all by (apply decimal_digits_all; lia).
    change (fold_left _ _ 0) with (digits_value (decimal_digits 20 (2 ^ 32 - n))).
    rewrite decimal_digits_value by (change (10 ^ Z.of_nat 20) with 100000000000000000000; lia).
    unfold strtoull_value. rewrite (proj2 (Z.ltb_lt _ _)) by lia. unfold u32, u64.
    rewrite Z.mod_mod_divide by (by exists 4294967296).
    replace (- (2 ^ 32 - n)) with (n + (-1) * 4294967296) by lia. rewrite Z.mod_add by lia. apply Z.mod_small. lia.
Qed.

Lemma digits_free sep l : Forall (fun d => 48 <= d <= 57) l -> sep < 48 \/ 57 < sep -> free_of sep l.
Proof. intros H Hs Hin. apply list_elem_of_lookup in Hin as [i Hi]. eapply Forall_lookup_1 in H; [|exact Hi]. cbn in H. lia. Qed.

Lemma decimal_free sep n : 0 <= n -> sep < 48 \/ 57 < sep -> free_of sep (decimal n).
Proof. intros. apply digits_free; [|done]. by apply decimal_digits_all. Qed.

Lemma format_free sep n : 0 <= n < 2 ^ 32 -> sep < 45 -> free_of sep (format_d n).
Proof.
  intros Hn Hs. unfold format_d. destruct (_ <? _); [apply decimal_free; lia|]. apply free_cons. split; [lia|]. apply decimal_free; lia.
Qed.

(** ** Addresses *)

(** What the library relies on in the functions of the C library that print
    and read numeric addresses: the text has no separators and is read back;
    the port and the scope are not part of it. *)
Class NumericHost {N : NetEnv} : Prop := {
  ntop_free : forall a sep, sep = 32 \/ sep = 10 -> free_of sep (inet_ntop a);
  ntop_read : forall p x, 0 <= x < 2 ^ 32 -> getaddrinfo (inet_ntop (sockaddr_in p x)) = Some (sockaddr_in 0 x);
  ntop_read6 : forall p f x s, length x = 16%nat -> CMem.bytes x -> getaddrinfo (inet_ntop (sockaddr_in6 p f x s)) = Some (sockaddr_in6 0 0 x 0)
}.

(** An address with fields of their widths. *)
Definition address_ok (a : NiceAddress) : Prop :=
  match a with
  | sockaddr_in _ x => 0 <= x < 2 ^ 32
  | sockaddr_in6 _ _ x _ => length x = 16%nat /\ CMem.bytes x
  | sockaddr_other _ => False
  end.

(** The port on the wire, and what the peer gets of an address. *)
Definition wire_port (a : NiceAddress) : Z := if nice_address_get_port a =? 0 then 9 else nice_address_get_port a.

Definition transmitted (a : NiceAddress) : NiceAddress :=
  match a with
  | sockaddr_in _ x => sockaddr_in (htons (wire_port a)) x
  | sockaddr_in6 _ _ x _ => sockaddr_in6 (htons (wire_port a)) 0 x 0
  | sockaddr_other _ => a
  end.

Lemma wire_port_range a : 0 < wire_port a < 2 ^ 16.
Proof.
  assert (H : 0 <= nice_address_get_port a < 2 ^ 16) by (destruct a; cbn; [apply htons_range..|lia]).
  unfold wire_port. destruct (Z.eqb_spec (nice_address_get_port a) 0); lia.
Qed.

Section roundtrip.
Context {N : NetEnv} {NH : NumericHost}.

Lemma address_free a sep : sep = 32 \/ sep = 10 -> free_of sep (nice_address_to_string a []).
Proof. intros H. destruct a; cbn [nice_address_to_string]; [by apply ntop_free..|]. apply not_elem_of_nil. Qed.

Lemma port_free a sep : sep = 32 \/ sep = 10 -> free_of sep (sdp_port a).
Proof. intros Hs. pose proof (wire_port_range a). apply (decimal_free sep (wire_port a)); lia. Qed.

Lemma address_read a : address_ok a ->
  sdp_address (nice_address_to_string a []) (u16 (g_ascii_strtoull (sdp_port a))) = Some (transmitted a).
Proof.
  intros H. pose proof (wire_port_range a) as Hp. unfold sdp_port. cbv zeta. change (if _ =? 0 then 9 else _) with (wire_port a).
  rewrite strtoull_decimal by lia. unfold u16. rewrite Z.mod_small by lia. unfold sdp_address, nice_address_set_from_string.
  destruct a as [p x|p f x s|f]; cbn [nice_address_to_string address_ok] in *; [|..|done].
  - by rewrite ntop_read by apply H.
  - by rewrite ntop_read6 by apply H.
Qed.

(** ** Candidates *)

(** The base address is written when it is set and differs. *)
Definition base_sent (c : NiceCandidate) : bool := nice_address_is_valid (c_base_addr c) && negb (nice_address_equal (c_addr c) (c_base_addr c)).

Definition words (c : NiceCandidate) : list (list Z) :=
  [c_foundation c; format_d (c_component_id c); _transport_to_sdp (c_transport c); format_d (c_priority c);
   nice_address_to_string (c_addr c) []; sdp_port (c_addr c); text "typ"; _cand_type_to_sdp (c_type c)] ++
  (if base_sent c then [text "raddr"; nice_address_to_string (c_base_addr c) []; text "rport"; sdp_port (c_base_addr c)] else []) ++
  (if bool_decide (c_transport c = NICE_CANDIDATE_TRANSPORT_UDP) then [] else [text "tcptype"; _transport_to_sdp_tcptype (c_transport c)]).

(** A candidate that can be written: its fields have their widths. *)
Record printable (c : NiceCandidate) : Prop := {
  pr_addr : address_ok (c_addr c);
  pr_base : base_sent c = true -> address_ok (c_base_addr c);
  pr_foundation : (length (c_foundation c) <= 32)%nat;
  pr_space : free_of 32 (c_foundation c);
  pr_newline : free_of 10 (c_foundation c);
  pr_component : 0 <= c_component_id c < 2 ^ 32;
  pr_priority : 0 <= c_priority c < 2 ^ 32
}.

Lemma address_ok_valid a : address_ok a -> nice_address_is_valid a = true.
Proof. by destruct a. Qed.

Lemma candidate_line c : printable c -> _generate_candidate_sdp c = Ok (text "a=candidate:" ++ join 32 (words c)).
Proof.
  intros []. unfold _generate_candidate_sdp. rewrite (address_ok_valid (c_addr c)) by done. cbn [mbind res_bind]. fold (base_sent c).
  rewrite take_ge by (change (Z.to_nat NICE_CANDIDATE_MAX_FOUNDATION) with 33%nat; lia). f_equal. f_equal. unfold words.
  destruct (base_sent c), (bool_decide _); cbn [app join]; change (text " typ ") with (32 :: text "typ" ++ [32]);
    change (text " raddr ") with (32 :: text "raddr" ++ [32]); change (text " rport ") with (32 :: text "rport" ++ [32]);
    change (text " tcptype ") with (32 :: text "tcptype" ++ [32]); cbn [app]; by rewrite <-?app_assoc; cbn [app]; rewrite ?app_nil_r; repeat (rewrite <-app_assoc; cbn [app]).
Qed.

Lemma words_free c sep : printable c -> sep = 32 \/ sep = 10 -> Forall (free_of sep) (words c).
Proof.
  intros [] Hs. assert (Hc : forall l, forallb (fun x => 48 <=? x) l = true -> free_of sep l).
  { intros l Hl Hin. rewrite forallb_forall in Hl. apply list_elem_of_In, Hl, Z.leb_le in Hin. lia. }
  assert (Ht : forall t, free_of sep (_transport_to_sdp t)) by (intros []; by apply Hc).
  assert (Hty : forall t, free_of sep (_cand_type_to_sdp t)) by (intros []; by apply Hc).
  assert (Htt : forall t, free_of sep (_transport_to_sdp_tcptype t)) by (intros []; by apply Hc).
  unfold words. repeat first [apply Forall_app; split|apply Forall_cons; split|apply Forall_nil; exact I]; auto using address_free, port_free, format_free.
  - by destruct Hs as [->| ->].
  - apply format_free; lia.
  - apply format_free; lia.
  - destruct (base_sent c); repeat constructor; auto using address_free, port_free; by apply Hc.
  - destruct (bool_decide _); repeat constructor; auto; by apply Hc.
Qed.

(** What the peer makes of a candidate. *)
Definition received (ptr stream_id : Z) (c : NiceCandidate) : NiceCandidate :=
  (nice_candidate_new ptr (c_type c))
    <| c_transport := c_transport c |> <| c_foundation := c_foundation c |> <| c_component_id := c_component_id c |>
    <| c_priority := c_priority c |> <| c_stream_id := stream_id |> <| c_addr := transmitted (c_addr c) |>
    <| c_base_addr := if base_sent c then transmitted (c_base_addr c) else nice_address_init |>.

Lemma sdp_type_read t : sdp_type (_cand_type_to_sdp t) = Some t.
Proof. by destruct t. Qed.

Lemma words_fields c : printable c ->
  sdp_tokens (words c) =
    Some (mkFields (Some (c_foundation c)) (c_component_id c) (Some (_transport_to_sdp (c_transport c))) (c_priority c)
      (Some (nice_address_to_string (c_addr c) [])) (u16 (g_ascii_strtoull (sdp_port (c_addr c)))) (Some (_cand_type_to_sdp (c_type c)))
      (if bool_decide (c_transport c = NICE_CANDIDATE_TRANSPORT_UDP) then None else Some (_transport_to_sdp_tcptype (c_transport c)))
      (if base_sent c then Some (nice_address_to_string (c_base_addr c) []) else None)
      (if base_sent c then u16 (g_ascii_strtoull (sdp_port (c_base_addr c))) else 0)).
Proof.
  intros []. unfold words. cbn [app sdp_tokens]. rewrite !strtoull_format by done.
  destruct (base_sent c), (bool_decide _); reflexivity.
Qed.

Lemma sdp_transport_read t :
  sdp_transport (Some (_transport_to_sdp t)) (if bool_decide (t = NICE_CANDIDATE_TRANSPORT_UDP) then None else Some (_transport_to_sdp_tcptype t)) = Some t.
Proof. by destruct t. Qed.

Lemma wire_port_read a : u16 (g_ascii_strtoull (sdp_port a)) = wire_port a.
Proof.
  pose proof (wire_port_range a). unfold sdp_port. cbv zeta. change (if _ =? 0 then 9 else _) with (wire_port a).
  rewrite strtoull_decimal by lia. apply Z.mod_small. lia.
Qed.

Lemma fields_build ptr sid c : printable c ->
  (f ← sdp_tokens (words c); build_candidate ptr sid f) = Some (received ptr sid c).
Proof.
  intros H. rewrite words_fields by done. destruct H. cbn [mbind option_bind]. unfold build_candidate.
  cbn [sf_type sf_foundation sf_addr sf_transport sf_tcptype sf_port sf_raddr sf_rport sf_component_id sf_priority].
  rewrite sdp_type_read, sdp_transport_read, address_read by done. cbv zeta. unfold foundation_text.
  rewrite take_ge by (change (Z.to_nat (NICE_CANDIDATE_MAX_FOUNDATION - 1)) with 32%nat; lia). unfold received.
  destruct (base_sent c) eqn:Hb; [|done]. rewrite (address_read (c_base_addr c)) by auto. pose proof (wire_port_range (c_base_addr c)).
  rewrite wire_port_read. by rewrite (proj2 (Z.eqb_neq _ 0)) by lia.
Qed.

Lemma prefix_app p s : g_str_has_prefix (p ++ s) p = true.
Proof. induction p as [|c p IH]; cbn; [by destruct s|]. by rewrite Z.eqb_refl. Qed.

Lemma parse_line a sid c : printable c ->
  nice_agent_parse_remote_candidate_sdp a sid (text "a=candidate:" ++ join 32 (words c)) =
    (Some (received (a_next_ptr a) sid c), a <| a_next_ptr := a_next_ptr a + 1 |>).
Proof.
  intros H. unfold nice_agent_parse_remote_candidate_sdp. rewrite prefix_app. cbn [negb].
  change (drop 12 (text "a=candidate:" ++ join 32 (words c))) with (join 32 (words c)).
  assert (Hs : g_strsplit (join 32 (words c)) 32 = words c).
  { assert (Hne : join 32 (words c) <> []) by (unfold words; cbn; by destruct (c_foundation c)).
    unfold g_strsplit. destruct (join 32 (words c)) eqn:E; [done|]. rewrite <-E. apply pieces_join; [done|]. apply words_free; auto. }
  rewrite Hs. pose proof (fields_build (a_next_ptr a) sid c H) as F. destruct (sdp_tokens (words c)); [|done]. cbn in F. by rewrite F.
Qed.

(** ** Streams *)

Definition unlines (ls : list (list Z)) : list Z := concat ((fun l => l ++ [10]) <$> ls).

Lemma pieces_unlines ls : Forall (free_of 10) ls -> pieces 10 (unlines ls) = ls ++ [[]].
Proof.
  induction ls as [|l ls IH]; intros H; [done|]. apply Forall_cons in H as [Hl H]. unfold unlines. cbn.
  rewrite <-app_assoc. cbn [app]. rewrite pieces_app by done. by rewrite <-IH.
Qed.

Lemma unlines_app l k : unlines (l ++ k) = unlines l ++ unlines k.
Proof. unfold unlines. by rewrite fmap_app, concat_app. Qed.

(** The candidates that are announced. *)
Definition announced (a : NiceAgent) (l : list NiceCandidate) : list NiceCandidate :=
  List.filter (fun c => negb (a_force_relay a && negb (bool_decide (c_type c = NICE_CANDIDATE_TYPE_RELAYED)))) l.

Definition candidate_sdp (c : NiceCandidate) : list Z := text "a=candidate:" ++ join 32 (words c).

Lemma generate_lines a l : Forall printable (announced a l) -> generate_candidates a l = Ok (unlines (candidate_sdp <$> announced a l)).
Proof.
  unfold announced. induction l as [|c l IH]; [done|]. cbn [List.filter generate_candidates]. destruct (_ && _) eqn:E; cbn [negb]; intros H.
  - by rewrite IH.
  - apply Forall_cons in H as [Hc H]. rewrite candidate_line by done. cbn [mbind res_bind]. rewrite IH by done. cbn [mbind res_bind].
    by rewrite fmap_cons.
Qed.

(** The lines that are not about ICE. *)
Definition media_lines (a : NiceAgent) (s : NiceStream) : list (list Z) :=
  let zero := nice_address_set_ipv4 nice_address_init 0 in
  let rtp := default_address a s NICE_COMPONENT_TYPE_RTP zero (str_components s) in
  let rtcp := default_address a s NICE_COMPONENT_TYPE_RTCP zero (str_components s) in
  [text "m=" ++ default (text "-") (str_name s) ++ [32] ++ decimal (nice_address_get_port rtp) ++ text " ICE/SDP";
   text "c=IN IP4 " ++ nice_address_to_string rtp []] ++
  (if negb (nice_address_get_port rtcp =? 0) then [text "a=rtcp:" ++ decimal (nice_address_get_port rtcp)] else []).

Lemma media_unlines a s : non_ice_lines a s = unlines (media_lines a s).
Proof.
  unfold non_ice_lines, media_lines, unlines. cbv zeta. set (rtp := default_address a s NICE_COMPONENT_TYPE_RTP (nice_address_set_ipv4 nice_address_init 0) (str_components s)). set (rtcp := default_address a s NICE_COMPONENT_TYPE_RTCP (nice_address_set_ipv4 nice_address_init 0) (str_components s)).
  destruct (negb _); cbn [fmap list_fmap app concat]; rewrite ?app_nil_r; repeat (rewrite <-app_assoc; cbn [app]); done.
Qed.

Lemma port_nonneg a : 0 <= nice_address_get_port a.
Proof. destruct a; cbn; [apply htons_range..|lia]. Qed.

Lemma media_free a s : free_of 10 (default (text "-") (str_name s)) -> Forall (free_of 10) (media_lines a s).
Proof.
  intros Hn. assert (Hc : forall l, forallb (fun x => 32 <=? x) l = true -> free_of 10 l).
  { intros l Hl Hin. rewrite forallb_forall in Hl. apply list_elem_of_In, Hl, Z.leb_le in Hin. lia. }
  unfold media_lines. cbv zeta. set (rtp := default_address a s NICE_COMPONENT_TYPE_RTP (nice_address_set_ipv4 nice_address_init 0) (str_components s)). set (rtcp := default_address a s NICE_COMPONENT_TYPE_RTCP (nice_address_set_ipv4 nice_address_init 0) (str_components s)).
  pose proof (port_nonneg rtp). pose proof (port_nonneg rtcp).
  assert (Hl : Forall (free_of 10) [text "a=rtcp:" ++ decimal (nice_address_get_port rtcp)]).
  { apply Forall_singleton, free_app. split; [by apply Hc|]. apply decimal_free; lia. }
  apply Forall_app. split; [|by destruct (negb _)]. repeat (apply Forall_cons; split); [..|done].
  - rewrite !free_app. split_and!; [by apply Hc|done|by apply Hc|apply decimal_free; lia|by apply Hc].
  - rewrite free_app. split; [by apply Hc|]. apply address_free. auto.
Qed.

Definition ice_lines (a : NiceAgent) (s : NiceStream) : list (list Z) :=
  [text "a=ice-ufrag:" ++ str_local_ufrag s; text "a=ice-pwd:" ++ str_local_password s] ++
  (candidate_sdp <$> announced a (flat_map co_local_candidates (str_components s))).

(** A stream that can be written. *)
Record stream_printable (a : NiceAgent) (s : NiceStream) : Prop := {
  sp_candidates : Forall printable (announced a (flat_map co_local_candidates (str_components s)));
  sp_ufrag : free_of 10 (str_local_ufrag s);
  sp_password : free_of 10 (str_local_password s);
  sp_name : free_of 10 (default (text "-") (str_name s))
}.

Lemma stream_lines a s media : stream_printable a s ->
  _generate_stream_sdp a s media = Ok (unlines ((if media then media_lines a s else []) ++ ice_lines a s)).
Proof.
  intros []. unfold _generate_stream_sdp. rewrite generate_lines by done. cbn [mbind res_bind]. rewrite media_unlines, unlines_app.
  f_equal. f_equal; [by destruct media|]. unfold ice_lines. rewrite unlines_app. unfold unlines at 2. cbn [fmap list_fmap concat].
  by rewrite app_nil_r; repeat (rewrite <-app_assoc; cbn [app]).
Qed.

Lemma candidate_sdp_free c : printable c -> free_of 10 (candidate_sdp c).
Proof.
  intros H. unfold candidate_sdp. rewrite free_app. split. { intros Hin. vm_compute in Hin. by repeat (apply elem_of_cons in Hin as [Hin|Hin]; [discriminate Hin|]); apply not_elem_of_nil in Hin. }
  pose proof (words_free c 10 H (or_intror eq_refl)) as Hw. revert Hw. generalize (words c). induction l as [|w ws IH]; intros Hw; [apply not_elem_of_nil|].
  apply Forall_cons in Hw as [Hw1 Hw]. destruct ws as [|w' ws]; [done|]. cbn [join]. apply free_app. split; [done|]. apply free_cons. split; [done|]. by apply IH.
Qed.

Fixpoint received_all (ptr stream_id : Z) (cs : list NiceCandidate) : list NiceCandidate :=
  match cs with
  | [] => []
  | c :: cs => received ptr stream_id c :: received_all (ptr + 1) stream_id cs
  end.

Lemma parse_candidates sid u p cs : forall b acc, Forall printable cs ->
  exists b', parse_stream_lines b sid u p acc ((candidate_sdp <$> cs) ++ [[]]) = (u, p, rev (received_all (a_next_ptr b) sid cs) ++ acc, b').
Proof.
  induction cs as [|c cs IH]; intros b acc H; [by exists b|]. apply Forall_cons in H as [Hc H]. rewrite fmap_cons. cbn [app parse_stream_lines].
  assert (E1 : g_str_has_prefix (candidate_sdp c) (text "a=ice-ufrag:") = false) by reflexivity.
  assert (E2 : g_str_has_prefix (candidate_sdp c) (text "a=ice-pwd:") = false) by reflexivity.
  assert (E3 : g_str_has_prefix (candidate_sdp c) (text "a=candidate:") = true) by apply prefix_app. rewrite E1, E2, E3.
  change (nice_agent_parse_remote_candidate_sdp b sid (candidate_sdp c)) with (nice_agent_parse_remote_candidate_sdp b sid (text "a=candidate:" ++ join 32 (words c))).
  rewrite parse_line by done. destruct (IH (b <| a_next_ptr := a_next_ptr b + 1 |>) (received (a_next_ptr b) sid c :: acc) H) as [b' ->].
  exists b'. cbn [received_all rev]. rewrite <-app_assoc. done.
Qed.

Lemma parse_media a s sid ls : forall b, parse_stream_lines b sid None None [] (media_lines a s ++ ls) = parse_stream_lines b sid None None [] ls.
Proof. intros b. unfold media_lines. cbv zeta. by destruct (negb _). Qed.

(** C18: The description of a stream is read back.  An agent that describes
    a stream, with the lines for the media or without, writes text from which
    the other agent reads exactly the user fragment and the password of the
    stream, and its announced candidates in reverse order: type, transport,
    foundation, component, priority, address and, when it was written, base
    address of each; a port of zero becomes the discard port 9, and IPv6
    scopes are local.  It is required that foundations have at most 32 bytes
    without spaces, and that no string has a newline. *)
Theorem stream_sdp_roundtrip a s media b peer_id peer :
  agent_find_stream a (str_id s) = Some s -> stream_printable a s -> agent_find_stream b peer_id = Some peer ->
  exists sdp b',
    nice_agent_generate_local_stream_sdp a (str_id s) media = Ok (Some sdp) /\
    nice_agent_parse_remote_stream_sdp b peer_id sdp =
      (Some (str_local_ufrag s), Some (str_local_password s),
       rev (received_all (a_next_ptr b) (str_id peer) (announced a (flat_map co_local_candidates (str_components s)))), b').
Proof.
  intros Ha H Hb. unfold nice_agent_generate_local_stream_sdp, nice_agent_parse_remote_stream_sdp. rewrite Ha, Hb, stream_lines by done.
  cbn [mbind res_bind]. set (ls := (if media then media_lines a s else []) ++ ice_lines a s).
  assert (Hs : g_strsplit (unlines ls) 10 = ls ++ [[]]).
  { assert (Hne : unlines ls <> []) by (unfold ls, unlines, ice_lines, media_lines; by destruct media).
    unfold g_strsplit. destruct (unlines ls) eqn:E; [done|]. rewrite <-E. apply pieces_unlines. destruct H. unfold ls.
    apply Forall_app. split; [destruct media; [by apply media_free|done]|]. unfold ice_lines. apply Forall_app. split.
    - repeat (apply Forall_cons; split); [..|done]; apply free_app; (split; [|done]); intros Hin; vm_compute in Hin;
        by repeat (apply elem_of_cons in Hin as [Hin|Hin]; [discriminate Hin|]); apply not_elem_of_nil in Hin.
    - apply Forall_fmap. eapply Forall_impl; [exact sp_candidates0|]. exact candidate_sdp_free. }
  destruct (parse_candidates (str_id peer) (Some (str_local_ufrag s)) (Some (str_local_password s))
    (announced a (flat_map co_local_candidates (str_components s))) b [] (sp_candidates _ _ H)) as [b' Hp].
  exists (unlines ls), b'. split; [done|]. rewrite Hs. unfold ls. rewrite <-app_assoc.
  assert (Hm : forall k, parse_stream_lines b (str_id peer) None None [] ((if media then media_lines a s else []) ++ k) =
                         parse_stream_lines b (str_id peer) None None [] k) by (intros k; destruct media; [apply parse_media|done]).
  rewrite Hm. unfold ice_lines. rewrite <-app_assoc. cbn [app parse_stream_lines]. rewrite prefix_app.
  change (drop 12 (text "a=ice-ufrag:" ++ str_local_ufrag s)) with (str_local_ufrag s).
  assert (E1 : g_str_has_prefix (text "a=ice-pwd:" ++ str_local_password s) (text "a=ice-ufrag:") = false) by reflexivity.
  rewrite E1, prefix_app. change (drop 10 (text "a=ice-pwd:" ++ str_local_password s)) with (str_local_password s).
  rewrite Hp. by rewrite app_nil_r.
Qed.
End roundtrip.

(** ** An example *)

(** Dotted decimals, and the sixteen bytes of IPv6 as letters after a colon. *)
Definition ntop4 (x : Z) : list Z := join 46 (decimal <$> [x mod 256; x / 256 mod 256; x / 65536 mod 256; x / 16777216 mod 256]).
Definition letters (b : Z) : list Z := [97 + b mod 256 / 16; 97 + b mod 16].
Fixpoint unletters (l : list Z) : list Z :=
  match l with
  | h :: k :: l => (h - 97) * 16 + (k - 97) :: unletters l
  | _ => []
  end.

Definition numeric_net : NetEnv := {|
  inet_ntop := fun a => match a with
                        | sockaddr_in _ x => ntop4 x
                        | sockaddr_in6 _ _ x _ => 58 :: flat_map letters x
                        | sockaddr_other _ => []
                        end;
  getaddrinfo := fun s =>
    if g_str_has_prefix s [58] then Some (sockaddr_in6 0 0 (unletters (tail s)) 0)
    else match g_ascii_strtoull <$> pieces 46 s with
         | [a; b; c; d] => Some (sockaddr_in 0 (a + 256 * b + 65536 * c + 16777216 * d))
         | _ => None
         end;
  getnameinfo := fun _ => None; getifaddrs := []; if_nametoindex := fun _ => 0; ignored_iface_prefix_list := []
|}.

Lemma byte_value x : 0 <= x < 2 ^ 32 ->
  x mod 256 + 256 * (x / 256 mod 256) + 65536 * (x / 65536 mod 256) + 16777216 * (x / 16777216 mod 256) = x.
Proof. intros H. change (2 ^ 32) with 4294967296 in H. Z.div_mod_to_equations. lia. Qed.

Lemma ntop4_free x sep : sep < 46 \/ 57 < sep -> free_of sep (ntop4 x).
Proof.
  intros Hs. unfold ntop4. cbn [fmap list_fmap join].
  repeat (apply free_app; split; [apply decimal_free; [apply Z.mod_pos_bound|]; lia|apply free_cons; split; [lia|]]).
  apply decimal_free; [apply Z.mod_pos_bound|]; lia.
Qed.

Lemma letters_free x sep : sep = 32 \/ sep = 10 -> free_of sep (flat_map letters x).
Proof.
  intros Hs. induction x as [|b x IH]; [apply not_elem_of_nil|]. cbn [flat_map letters app].
  pose proof (Z.mod_pos_bound b 256 ltac:(lia)). pose proof (Z.mod_pos_bound b 16 ltac:(lia)).
  pose proof (Z.div_pos (b mod 256) 16 ltac:(lia) ltac:(lia)).
  apply free_cons. split; [lia|]. apply free_cons. split; [lia|]. exact IH.
Qed.

Lemma unletters_letters x : CMem.bytes x -> unletters (flat_map letters x) = x.
Proof.
  induction x as [|b x IH]; intros H; [done|]. apply Forall_cons in H as [Hb H]. cbn [flat_map letters app unletters]. rewrite IH by done.
  f_equal. unfold is_byte in Hb. rewrite (Z.mod_small b 256) by lia. pose proof (Z.div_mod b 16). lia.
Qed.

#[local] Instance numeric_net_laws : NumericHost (N := numeric_net).
Proof.
  split.
  - intros a sep Hs. destruct a as [p x|p f x s|f]; cbn [inet_ntop numeric_net].
    + apply ntop4_free. lia.
    + apply free_cons. split; [lia|]. by apply letters_free.
    + apply not_elem_of_nil.
  - intros p x Hx. cbn [inet_ntop getaddrinfo numeric_net]. unfold ntop4.
    assert (Hr : forall n, 0 <= n mod 256 < 2 ^ 32) by (intros n; pose proof (Z.mod_pos_bound n 256); lia).
    assert (Hd : forall n, free_of 46 (decimal (n mod 256))) by (intros n; apply decimal_free; [apply Z.mod_pos_bound|]; lia).
    set (l := decimal <$> _). assert (Hp : pieces 46 (join 46 l) = l).
    { apply pieces_join; [done|]. unfold l. repeat constructor; apply Hd. }
    rewrite Hp. unfold l at 2 3. cbn [fmap list_fmap]. rewrite !strtoull_decimal by apply Hr. rewrite byte_value by done.
    assert (H58 : g_str_has_prefix (join 46 l) [58] = false); [|by rewrite H58].
    pose proof (ntop4_free x 58 ltac:(lia)) as Hf. fold l in Hf. change (ntop4 x) with (join 46 l) in Hf. destruct (join 46 l) as [|c k]; [done|].
    apply free_cons in Hf as [Hf _]. cbn [g_str_has_prefix]. by rewrite (proj2 (Z.eqb_neq 58 c)).
  - intros p f x s Hl Hx. cbn [inet_ntop getaddrinfo numeric_net]. cbn [tail]. rewrite unletters_letters by done. by destruct (flat_map letters x).
Qed.

(** A stream with a host candidate, a relayed one and a TCP-active one. *)
Definition ex_sdp_candidates : list NiceCandidate :=
  let host := sockaddr_in (htons 4500) (htonl (dotted 192 0 2 1)) in
  [mkCandidate 1 NICE_CANDIDATE_TYPE_HOST NICE_CANDIDATE_TRANSPORT_UDP host host 2015363327 1 1 (text "1") None None None (Some 1) 0 None;
   mkCandidate 2 NICE_CANDIDATE_TYPE_RELAYED NICE_CANDIDATE_TRANSPORT_UDP (sockaddr_in6 (htons 3479) 0 (replicate 16 7) 0) host 4000000000 1 1
     (text "2") None None None (Some 2) 0 None;
   mkCandidate 3 NICE_CANDIDATE_TYPE_HOST NICE_CANDIDATE_TRANSPORT_TCP_ACTIVE (sockaddr_in 0 (htonl (dotted 192 0 2 1))) nice_address_init 1015022079 1 1
     (text "3") None None None (Some 3) 0 None].
Definition ex_sdp_agent : NiceAgent :=
  upd_stream (upd_component ex_ice 1 1 (fun c => c <| co_local_candidates := ex_sdp_candidates |>)) 1 (fun s => s <| str_name := Some (text "audio") |>).
Definition ex_sdp_stream : NiceStream :=
  ex_stream <| str_components := [ex_component <| co_local_candidates := ex_sdp_candidates |>] |> <| str_name := Some (text "audio") |>.

Lemma ex_sdp_printable : stream_printable ex_sdp_agent ex_sdp_stream.
Proof.
  assert (Hf : forall sep l, forallb (fun x => negb (x =? sep)) l = true -> free_of sep l).
  { intros sep l Hl Hin. rewrite forallb_forall in Hl. apply list_elem_of_In, Hl in Hin. by rewrite Z.eqb_refl in Hin. }
  split; try (by apply Hf). change (Forall printable ex_sdp_candidates). repeat constructor; try (by apply Hf); try (vm_compute; lia); try (by vm_compute).
Qed.

Lemma stream_sdp_roundtrip_witness :
  exists sdp b',
    nice_agent_generate_local_stream_sdp (N := numeric_net) ex_sdp_agent 1 true = Ok (Some sdp) /\
    nice_agent_parse_remote_stream_sdp (N := numeric_net) ex_ice 1 sdp =
      (Some [97; 98], Some [112; 113], rev (received_all 100 1 ex_sdp_candidates), b').
Proof.
  exact (stream_sdp_roundtrip (N := numeric_net) ex_sdp_agent ex_sdp_stream true ex_ice 1 ex_stream eq_refl ex_sdp_printable eq_refl).
Defined.
