(* ===== verification/GatherProps.v ===== *)
(** * Gathering: ports and servers

    The search for a port ends and tries every port of the range; what a
    resolved name does to the TURN servers; the credentials of a restart; and
    a run in which an agent that must only use relays sends a check without
    one. *)
From S2P Require Import Prelude CMem StunTypes StunMessage StunAgent StunTimer Address Candidate IceTypes IceEnv CheckList CheckDriver Discovery KeepAlive AgentConfig DiscoveryReply RemoteCandidates Streams Gather CheckInv CheckMain.
Local Open Scope Z_scope.

(** ** Computations without loops on fuel *)

Definition ample {A} (m : res A) : Prop := m <> Fault OutOfFuel.

Lemma ample_ok {A} (x : A) : ample (Ok x).
Proof. done. Qed.

Lemma ample_bind {A B} (m : res A) (f : A -> res B) : ample m -> (forall x, ample (f x)) -> ample (m ≫= f).
Proof. intros Hm Hf. destruct m; [apply Hf|]. intros H. apply Hm. by injection H as ->. Qed.

Lemma ample_assert b : ample (assert_ok b).
Proof. by destruct b. Qed.

Lemma ample_rd l i : ample (rd l i).
Proof. unfold rd, ample. by repeat case_match. Qed.

Lemma ample_deref a p : ample (deref a p).
Proof. unfold deref, ample. by case_match. Qed.

Lemma ample_stream a sid : ample (the_stream a sid).
Proof. unfold the_stream, ample. by case_match. Qed.

Lemma ample_component a sid cid : ample (the_component a sid cid).
Proof. unfold the_component, ample. by repeat case_match. Qed.

Create HintDb ample.
#[local] Hint Resolve ample_assert ample_rd ample_deref ample_stream ample_component : ample.

Ltac ample :=
  repeat (cbv zeta; match goal with
  | |- ample (Ok _) => apply ample_ok
  | |- ample (Fault _) => intros ?; discriminate
  | |- ample (mbind _ _) => apply ample_bind; [|intros ?]
  | |- ample (match ?x with _ => _ end) => destruct x
  | |- ample _ => solve [eauto with ample nocore]
  end).

Lemma ample_linklocal x : ample (nice_address_is_linklocal x).
Proof. unfold nice_address_is_linklocal, ipv6_address_is_linklocal. ample. Qed.

Lemma ample_modify a p f : ample (modify a p f).
Proof. unfold modify. ample. Qed.
#[local] Hint Resolve ample_linklocal ample_modify : ample.

Section callees.
Context {E : CheckEnv} {B : Base64} {N : NetEnv}.

Lemma ample_signal a sid cid st : ample (agent_signal_component_state_change a sid cid st).
Proof. unfold agent_signal_component_state_change. ample. Qed.

#[local] Hint Resolve ample_signal : ample.

Lemma ample_free_and_delete a sid p : ample (free_and_delete a sid p).
Proof. unfold free_and_delete, candidate_check_pair_free, priv_free_all_stun_transactions. ample. Qed.
#[local] Hint Resolve ample_free_and_delete : ample.

Lemma ample_limit_loop sid p l : forall a v d, ample (limit_loop a sid p l v d).
Proof. induction l as [|q l IH]; intros a v d; cbn [limit_loop]; ample. Qed.

Lemma ample_unfreeze_maybe p l : forall a, ample (unfreeze_maybe_loop a p l).
Proof. induction l as [|q l IH]; intros a; cbn [unfreeze_maybe_loop]; unfold SET_PAIR_STATE; ample. Qed.

Lemma ample_insert_sorted a p x l : ample (insert_sorted a p x l).
Proof. induction l as [|q l IH]; cbn [insert_sorted]; ample. Qed.
#[local] Hint Resolve ample_limit_loop ample_unfreeze_maybe ample_insert_sorted : ample.

Lemma ample_private x : ample (nice_address_is_private x).
Proof. unfold nice_address_is_private, ipv6_address_is_private. ample. Qed.
#[local] Hint Resolve ample_private : ample.

Lemma ample_interfaces b l : forall acc, ample (interfaces_loop b l acc).
Proof. induction l as [|i l IH]; intros acc; cbn [interfaces_loop]; unfold add_interface; ample. Qed.
#[local] Hint Resolve ample_interfaces : ample.

Lemma ample_local_ips b : ample (nice_interfaces_get_local_ips b).
Proof. unfold nice_interfaces_get_local_ips. ample. Qed.
#[local] Hint Resolve ample_local_ips : ample.

Lemma ample_type_preference c r nat : ample (nice_candidate_ice_type_preference c r nat).
Proof. unfold nice_candidate_ice_type_preference. ample. Qed.

Lemma ample_turn_preference c : ample (turn_preference_of c).
Proof. unfold turn_preference_of. ample. Qed.
#[local] Hint Resolve ample_type_preference ample_turn_preference : ample.

Lemma ample_ice_priority c r nat : ample (nice_candidate_ice_priority c r nat).
Proof.
  unfold nice_candidate_ice_priority, nice_candidate_ice_local_preference, nice_candidate_ip_local_preference, nice_candidate_ice_local_preference_full. ample.
Qed.

Lemma ample_ms_ice_priority c r nat : ample (nice_candidate_ms_ice_priority c r nat).
Proof.
  unfold nice_candidate_ms_ice_priority, nice_candidate_ms_ice_local_preference, nice_candidate_ip_local_preference, nice_candidate_ms_ice_local_preference_full.
  ample.
Qed.
#[local] Hint Resolve ample_ice_priority ample_ms_ice_priority : ample.

Lemma ample_new_pair a sid cid l r st : ample (priv_add_new_check_pair a sid cid l r st).
Proof.
  unfold priv_add_new_check_pair, stun_request_priority, peer_reflexive_candidate_priority, add_pair, priv_conn_check_unfreeze_maybe,
    priv_limit_conn_check_list_size, SET_PAIR_STATE. ample.
Qed.
#[local] Hint Resolve ample_new_pair : ample.

Lemma ample_add_for_pair a sid cid l r : ample (conn_check_add_for_candidate_pair a sid cid l r).
Proof.
  unfold conn_check_add_for_candidate_pair, priv_conn_check_add_for_candidate_pair_matched, is_linklocal_to_non_linklocal. ample.
Qed.
#[local] Hint Resolve ample_add_for_pair : ample.

Lemma ample_add_for_local sid cid c l : forall a n, ample (add_for_local_loop a sid cid l c n).
Proof. induction l as [|r l IH]; intros a n; cbn [add_for_local_loop]; ample. Qed.

Lemma ample_find_foundation P c l : ample (find_foundation P c l).
Proof. induction l as [|x l IH]; cbn [find_foundation]; ample. Qed.
#[local] Hint Resolve ample_add_for_local ample_find_foundation : ample.

Lemma ample_host_candidate a sid cid addr tr dup : ample (discovery_add_local_host_candidate a sid cid addr tr dup).
Proof.
  unfold discovery_add_local_host_candidate, candidate_priority, priv_assign_foundation, priv_add_local_candidate_pruned,
    conn_check_add_for_local_candidate. ample.
Qed.
End callees.
#[local] Hint Resolve ample_host_candidate : ample.

(** ** Ports *)

Section ports.
Context {E : CheckEnv} {B : Base64} {N : NetEnv} {G : RandomInt} {GL : RandomRange}.

(** The last port of the range; a range without ports is its first port. *)
Definition last_port (min_port max_port : Z) : Z := Z.max min_port max_port.

Lemma next_port_cycle lo hi cur : 1 <= lo -> lo <= cur <= last_port lo hi -> last_port lo hi < 2 ^ 32 - 1 ->
  next_port lo hi cur = if cur <? last_port lo hi then cur + 1 else lo.
Proof.
  unfold last_port, next_port. intros Hlo Hcur Hhi. rewrite (proj2 (Z.ltb_lt 0 cur)) by lia. unfold u32. rewrite Z.mod_small by lia.
  destruct (Z.ltb_spec cur (Z.max lo hi)), (Z.ltb_spec hi (cur + 1)); lia.
Qed.

Lemma next_port_any hi : 0 <= hi -> next_port 0 hi 0 = 0.
Proof. intros H. unfold next_port. cbn. by destruct (hi <? 0). Qed.

(** Rounds until the loop is back at the port it started from. *)
Definition rounds (lo last start cur : Z) : Z := if cur <? start then start - cur else last - cur + 1 + (start - lo).

Lemma rounds_next lo last start cur : lo <= start <= last -> lo <= cur <= last ->
  let next := if cur <? last then cur + 1 else lo in
  lo <= next <= last /\ 1 <= rounds lo last start cur /\
  if next =? start then rounds lo last start cur = 1 /\ rounds lo last start next = last - lo + 1
  else rounds lo last start next = rounds lo last start cur - 1.
Proof.
  intros Hs Hc. unfold rounds. cbv zeta. destruct (Z.ltb_spec cur last), (Z.ltb_spec cur start);
    match goal with |- context [?x =? start] => destruct (Z.eqb_spec x start) end;
    repeat match goal with |- context [?x <? ?y] => destruct (Z.ltb_spec x y) end; lia.
Qed.

Lemma port_loop_ample sid cid addr tr lo hi start : 1 <= lo -> lo <= start <= last_port lo hi -> last_port lo hi < 2 ^ 32 - 1 ->
  forall fuel a cur dup, lo <= cur <= last_port lo hi ->
    rounds lo (last_port lo hi) start cur + (if dup : bool then 0 else last_port lo hi - lo + 1) <= Z.of_nat fuel ->
    ample (port_loop fuel a sid cid addr tr lo hi start cur dup).
Proof.
  intros Hlo Hs Hhi. induction fuel as [|fuel IH]; intros a cur dup Hc Hf; cbn [port_loop].
  { pose proof (rounds_next lo _ start cur Hs Hc) as (_ & Hr & _). destruct dup; lia. }
  apply ample_bind; [apply ample_host_candidate|]. intros [[r h] b]. cbv zeta. rewrite next_port_cycle by done.
  pose proof (rounds_next lo _ start cur Hs Hc) as (Hn & Hr & Hnext). cbv zeta in Hn, Hnext. set (next := if cur <? _ then _ else _) in *.
  destruct (Z.eqb_spec next start) as [En|En].
  - destruct dup; cbn [andb orb]; [ample|]. destruct (_ && _); [ample|]. destruct (retry r); [|ample]. apply IH; [done|]. lia.
  - cbn [andb]. rewrite orb_false_r. destruct (_ && _); [ample|]. destruct (retry r); [|ample]. apply IH; [done|]. destruct dup; lia.
Qed.

Lemma port_loop_any_ample a sid cid addr tr hi : 0 <= hi -> forall fuel, (2 <= fuel)%nat ->
  ample (port_loop fuel a sid cid addr tr 0 hi 0 0 false).
Proof.
  intros Hhi [|[|fuel]] Hf; [lia..|]. cbn [port_loop]. apply ample_bind; [apply ample_host_candidate|]. intros [[r h] b]. cbv zeta.
  rewrite next_port_any by done. cbn. destruct (negb _); [ample|]. destruct (retry r); [|ample].
  apply ample_bind; [apply ample_host_candidate|]. intros [[r' h'] b']. rewrite next_port_any by done. cbn. ample.
Qed.

Lemma start_port_range a lo hi p b : 1 <= lo < 2 ^ 31 -> 0 <= hi < 2 ^ 31 - 1 ->
  nice_rng_generate_int a lo (u32 (hi + 1)) = (p, b) -> lo <= p <= last_port lo hi.
Proof.
  intros Hlo Hhi. unfold nice_rng_generate_int, last_port, u32. rewrite (Z.mod_small (hi + 1)), !s32_small by lia. intros [= <- <-].
  assert (lo <= g_random_int_range (a_log a) lo (hi + 1) <= Z.max lo hi).
  { destruct (Z.lt_ge_cases lo (hi + 1)) as [Hl|Hl]; [pose proof (random_range (a_log a) _ _ Hl)|rewrite (random_empty (a_log a) _ _ Hl)]; lia. }
  rewrite Z.mod_small; lia.
Qed.

(** The search for a port of a host candidate ends.  Whatever the sockets
    answer, for every port range below 2^31, empty ranges and the range from
    zero (any port) included, [nice_agent_gather_candidates] goes around the
    range at most twice: the loop does not run out of the rounds
    [2 * (max_port - min_port + 1)] that the model allows it. *)
Theorem gather_ports_terminate a sid cid addr transport :
  (forall c, the_component a sid cid = Ok c -> 0 <= co_min_port c < 2 ^ 31 /\ 0 <= co_max_port c < 2 ^ 31 - 1) ->
  try_ports a sid cid addr transport <> Fault OutOfFuel.
Proof.
  intros Hc. change (ample (try_ports a sid cid addr transport)). unfold try_ports.
  destruct (the_component a sid cid) as [c|f] eqn:Hcomp; cbn; [|by intros [= ->]; apply (ample_component a sid cid)].
  destruct (Hc c eq_refl) as [Hlo Hhi]. unfold port_fuel. destruct (Z.eqb_spec (co_min_port c) 0) as [->|Hne].
  - apply port_loop_any_ample; lia.
  - destruct (nice_rng_generate_int _ _ _) as [p b] eqn:Hp. apply start_port_range in Hp; [|lia..].
    apply port_loop_ample; [lia|done|unfold last_port; lia|done|].
    unfold rounds, last_port in *. rewrite Z.ltb_irrefl. lia.
Qed.

(** A result that makes the loop go on comes after the socket was asked for,
    and nothing but its removal follows. *)
Lemma retry_log a sid cid addr tr dup r h b : discovery_add_local_host_candidate a sid cid addr tr dup = Ok (r, h, b) -> retry r = true ->
  exists l, a_log b = a_log a ++ FxCreateSocket None addr :: l.
Proof.
  unfold discovery_add_local_host_candidate. destruct (agent_find_component a sid cid); [|by intros [= <- <- <-]].
  destruct (open_host_socket a tr addr) as [ans a1] eqn:Ho. injection Ho as _ <-. unfold new_candidate. destruct ans as [s| |].
  - intros H Hr. apply bind_Ok_inv in H as (prio & _ & H). destruct (priv_generate_candidate_credentials _ _) as [c1 b1] eqn:Hcr.
    apply bind_Ok_inv in H as ([c2 b2] & Ha & H). destruct (priv_local_host_candidate_duplicate_port _ _ _).
    + injection H as <- <- <-. assert (a_log b2 = a_log b1) as Hb2.
      { unfold priv_assign_foundation in Ha. apply bind_Ok_inv in Ha as ([n|] & _ & Ha); by injection Ha as <- <-. }
      assert (exists l, a_log b1 = a_log a ++ FxCreateSocket None addr :: l) as [l Hl].
      { unfold priv_generate_candidate_credentials in Hcr. destruct (a_compatibility _); injection Hcr as <- <-; unfold log; rsimpl;
          rewrite <-?app_assoc; cbn; eauto. }
      unfold log. rsimpl. rewrite Hb2, Hl, <-app_assoc. cbn. eauto.
    + apply bind_Ok_inv in H as ([added b3] & _ & H). destruct added; injection H as <- <- <-; done.
  - intros [= <- <- <-] _. unfold log. rsimpl. eauto.
  - intros [= <- <- <-] _. unfold log. rsimpl. eauto.
Qed.

(** The ports from [cur] on, around the range, before [start]. *)
Definition ahead (start cur p : Z) : Prop := if cur <? start then cur <= p < start else cur <= p \/ p < start.

Lemma port_loop_tries sid cid addr tr lo hi start : 1 <= lo -> lo <= start <= last_port lo hi -> last_port lo hi < 2 ^ 32 - 1 ->
  forall fuel a cur dup r h b, lo <= cur <= last_port lo hi ->
    port_loop fuel a sid cid addr tr lo hi start cur dup = Ok (r, h, b) -> retry r = true ->
    (exists l, a_log b = a_log a ++ l) /\
    forall p, lo <= p <= last_port lo hi -> ahead start cur p -> FxCreateSocket None (nice_address_set_port addr p) ∈ a_log b.
Proof.
  intros Hlo Hs Hhi. induction fuel as [|fuel IH]; intros a cur dup r h b Hc H Hr; [done|]. cbn [port_loop] in H.
  apply bind_Ok_inv in H as ([[r1 h1] b1] & H1 & H). cbv zeta in H. rewrite next_port_cycle in H by done.
  pose proof (rounds_next lo _ start cur Hs Hc) as (Hn & _ & _). cbv zeta in Hn. set (next := if cur <? _ then _ else _) in *.
  assert (Hnext : next <> 0) by lia. apply Z.eqb_neq in Hnext. rewrite Hnext in H. cbn [andb] in H.
  assert (forall b', (exists l, a_log b' = a_log b1 ++ l) -> retry r1 = true ->
    (exists l, a_log b' = a_log a ++ l) /\ FxCreateSocket None (nice_address_set_port addr cur) ∈ a_log b') as Hhere.
  { intros b' [l Hl] Hr1. destruct (retry_log _ _ _ _ _ _ _ _ _ H1 Hr1) as [l1 Hl1]. rewrite Hl, Hl1, <-app_assoc. cbn. split; [eauto|].
    rewrite elem_of_app. right. left. }
  assert (Hlast : next = start -> forall p, lo <= p <= last_port lo hi -> ahead start cur p -> p = cur).
  { unfold next, ahead. intros Hst p Hp. destruct (Z.ltb_spec cur (last_port lo hi)), (Z.ltb_spec cur start); lia. }
  assert (Hmore : next <> start -> forall p, lo <= p <= last_port lo hi -> ahead start cur p -> p = cur \/ ahead start next p).
  { unfold next, ahead. intros Hst p Hp. destruct (Z.ltb_spec cur (last_port lo hi)), (Z.ltb_spec cur start);
      repeat match goal with |- context [?x <? ?y] => destruct (Z.ltb_spec x y) end; lia. }
  assert (Hrec : forall d, port_loop fuel b1 sid cid addr tr lo hi start next d = Ok (r, h, b) -> retry r1 = true ->
    (exists l, a_log b = a_log a ++ l) /\
    forall p, lo <= p <= last_port lo hi -> ahead start cur p -> FxCreateSocket None (nice_address_set_port addr p) ∈ a_log b).
  { intros d Hd Hr1. destruct (IH _ _ _ _ _ _ Hn Hd Hr) as [Hlog Hp]. destruct (Hhere b Hlog Hr1) as [Hl Hcur]. split; [done|].
    intros p Hrange Hah. destruct (Z.eq_dec next start) as [En|En]; [by rewrite (Hlast En p)|]. destruct (Hmore En p) as [->|]; auto. }
  destruct (Z.eqb_spec next start) as [En|En]; [destruct dup|]; cbn [andb orb] in H.
  - injection H as <- <- <-. destruct (Hhere b1) as [Hl Hcur]; [exists []; by rewrite app_nil_r|done|]. split; [done|].
    intros p Hrange Hah. by rewrite (Hlast En p).
  - destruct (retry r1) eqn:Hr1; [by eapply Hrec|]. injection H as -> -> ->. congruence.
  - destruct (retry r1) eqn:Hr1; [by eapply Hrec|]. injection H as -> -> ->. congruence.
Qed.

(** A host candidate is given up only when every port failed.  When the
    search over a port range ends without a socket or with a port already
    taken, a socket was asked for on every port of the range. *)
Theorem gather_tries_every_port a sid cid addr transport c r h b :
  the_component a sid cid = Ok c -> 1 <= co_min_port c <= co_max_port c -> co_max_port c < 2 ^ 31 - 1 ->
  try_ports a sid cid addr transport = Ok (r, h, b) -> retry r = true ->
  forall p, co_min_port c <= p <= co_max_port c -> FxCreateSocket None (nice_address_set_port addr p) ∈ a_log b.
Proof.
  intros Hc Hlo Hhi H Hr p Hp. unfold try_ports in H. rewrite Hc in H. cbn [mbind res_bind] in H.
  rewrite (proj2 (Z.eqb_neq (co_min_port c) 0)) in H by lia. destruct (nice_rng_generate_int _ _ _) as [s a1] eqn:Hs.
  apply start_port_range in Hs; [|lia..]. eapply port_loop_tries in H as [_ H]; [|lia|done|unfold last_port; lia|done|done].
  apply H; unfold last_port, ahead; [lia|]. rewrite Z.ltb_irrefl. lia.
Qed.
End ports.

Definition ex_random_range : RandomRange (G := ex_random).
Proof. split; [unfold g_random_int_range, ex_random; lia|done]. Qed.

(** An agent whose one component may use the ports 5000 to 5002. *)
Definition ex_ranged : NiceAgent :=
  upd_component ex_ice 1 1 (fun c => c <| co_min_port := 5000 |> <| co_max_port := 5002 |>).

Lemma gather_ports_terminate_witness :
  try_ports (E := ex_check_env) (B := ex_base64) (N := ex_net) (G := ex_random) ex_ranged 1 1 (sockaddr_in 0 0) NICE_CANDIDATE_TRANSPORT_UDP
    <> Fault OutOfFuel.
Proof.
  apply (gather_ports_terminate (E := ex_check_env) (B := ex_base64) (N := ex_net) (G := ex_random) (GL := ex_random_range)).
  intros c [= <-]. cbn. lia.
Defined.

(** Every passive TCP socket of the example is refused: three ports, twice. *)
Lemma gather_tries_every_port_witness : exists h b,
  try_ports (E := ex_check_env) (B := ex_base64) (N := ex_net) (G := ex_random) ex_ranged 1 1 (sockaddr_in 0 0) NICE_CANDIDATE_TRANSPORT_TCP_PASSIVE
    = Ok (HOST_CANDIDATE_DUPLICATE_PORT, h, b) /\ length (a_log b) = 7%nat /\ FxCreateSocket None (sockaddr_in (htons 5001) 0) ∈ a_log b.
Proof.
  destruct (try_ports (E := ex_check_env) (B := ex_base64) (N := ex_net) (G := ex_random) ex_ranged 1 1 (sockaddr_in 0 0)
    NICE_CANDIDATE_TRANSPORT_TCP_PASSIVE) as [[[r h] b]|] eqn:H; [|exfalso; revert H; vm_compute; discriminate].
  assert (r = HOST_CANDIDATE_DUPLICATE_PORT /\ length (a_log b) = 7%nat) as [-> Hl] by (revert H; vm_compute; intros [= <- <- <-]; split; reflexivity).
  exists h, b. split; [reflexivity|]. split; [exact Hl|].
  assert (Hc : the_component ex_ranged 1 1 = Ok (ex_component <| co_min_port := 5000 |> <| co_max_port := 5002 |>)) by reflexivity.
  apply (gather_tries_every_port (E := ex_check_env) (B := ex_base64) (N := ex_net) (G := ex_random) (GL := ex_random_range)
           ex_ranged 1 1 (sockaddr_in 0 0) NICE_CANDIDATE_TRANSPORT_TCP_PASSIVE _ _ _ _ Hc) with (p := 5001) in H; [exact H|cbn; lia|cbn; lia|reflexivity|cbn; lia].
Defined.

(** ** Transports *)

(** The property that is only set when the agent is built. *)
Definition after_construction (p : property) : bool := match p with PROP_COMPATIBILITY _ => false | _ => true end.

Lemma set_property_transports a p : after_construction p = true -> a_use_ice_udp a || a_use_ice_tcp a = true ->
  a_use_ice_udp (nice_agent_set_property a p) || a_use_ice_tcp (nice_agent_set_property a p) = true.
Proof.
  intros Hp Ha. destruct p; cbn [nice_agent_set_property]; try done.
  - unfold priv_update_controlling_mode. destruct (negb _); [destruct (forallb _ _)|]; done.
  - destruct (a_use_ice_tcp a || v) eqn:Hv; [|done]. rsimpl. by rewrite orb_comm.
  - destruct (a_compatibility a), (a_use_ice_udp a || v) eqn:Hv; done.
Qed.

Lemma set_properties_transports l : forall a, forallb after_construction l = true -> a_use_ice_udp a || a_use_ice_tcp a = true ->
  a_use_ice_udp (set_properties a l) || a_use_ice_tcp (set_properties a l) = true.
Proof.
  induction l as [|p l IH]; intros a Hl Ha; [done|]. cbn in Hl. apply andb_true_iff in Hl as [Hp Hl]. cbn. apply IH; [done|].
  by apply set_property_transports.
Qed.

(** An agent always has a transport to gather with.  Whatever its
    compatibility and options, and whatever properties are set once it is
    built, ICE over UDP and ICE over TCP are never both disabled. *)
Theorem a_transport_is_enabled {E : CheckEnv} compat flags l : forallb after_construction l = true ->
  let a := set_properties (nice_agent_new_full compat flags) l in a_use_ice_udp a || a_use_ice_tcp a = true.
Proof. intros Hl. apply set_properties_transports; [done|]. by destruct compat. Qed.

Lemma a_transport_is_enabled_witness :
  let a := set_properties (nice_agent_new_full (E := ex_check_env) NICE_COMPATIBILITY_RFC5245 ex_options)
             [PROP_ICE_TCP false; PROP_ICE_UDP false] in
  a_use_ice_udp a = true /\ a_use_ice_udp a || a_use_ice_tcp a = true.
Proof.
  split; [reflexivity|].
  exact (a_transport_is_enabled (E := ex_check_env) NICE_COMPATIBILITY_RFC5245 ex_options [PROP_ICE_TCP false; PROP_ICE_UDP false] eq_refl).
Defined.

(** ** Restarts *)

Lemma split_string_app s t : Forall (fun c => c <> 0) s -> split_string (s ++ t) = let '(u, rest) := split_string t in (s ++ u, rest).
Proof.
  induction 1 as [|c s Hc _ IH]; cbn; [by destruct (split_string t)|]. rewrite (proj2 (Z.eqb_neq c 0) Hc), IH. by destruct (split_string t).
Qed.

Lemma overwrite_long bytes old slack : Forall (fun c => c <> 0) bytes -> Forall (fun c => c <> 0) old -> (length bytes <= length old)%nat ->
  (overwrite bytes old slack).1 = bytes ++ drop (length bytes) old.
Proof.
  intros Hb Ho Hl. unfold overwrite. rewrite drop_app_le by done. rewrite app_assoc, split_string_app; [by cbn; rewrite app_nil_r|].
  apply Forall_app. split; [done|by apply Forall_drop].
Qed.

(** What the generator of printable characters promises. *)
Class PrintableBytes {E : CheckEnv} : Prop :=
  printable : forall l n, 0 <= n -> length (nice_rng_generate_bytes_print l n) = Z.to_nat n /\ Forall (fun c => c <> 0) (nice_rng_generate_bytes_print l n).

(** New local credentials keep the end of the old ones.  When the
    application has set a username fragment and a password, the random ones
    that a restart makes replace only their first 4 and 22 characters; what
    is longer stays, because the new string is written without its end. *)
Theorem restart_keeps_old_tail {E : CheckEnv} {PB : PrintableBytes} a sid ufrag pwd b s :
  (4 <= length ufrag <= 256)%nat -> (22 <= length pwd <= 256)%nat -> Forall (fun c => c <> 0) ufrag -> Forall (fun c => c <> 0) pwd ->
  nice_agent_set_local_credentials a sid (Some ufrag) (Some pwd) = (true, b) ->
  agent_find_stream (nice_stream_initialize_credentials b sid) sid = Some s ->
  drop 4 (str_local_ufrag s) = drop 4 ufrag /\ drop 22 (str_local_password s) = drop 22 pwd.
Proof.
  intros Hu Hp Fu Fp Hset Hs. unfold nice_agent_set_local_credentials in Hset. destruct (agent_find_stream a sid) as [s0|] eqn:Hs0; [|done].
  injection Hset as <-. unfold nice_stream_initialize_credentials in Hs. cbv zeta in Hs. rewrite find_stream_upd in Hs.
  2: { intros x. by repeat destruct (overwrite _ _ _). }
  set (rnd := nice_rng_generate_bytes_print _ _) in Hs at 1. set (rnd2 := nice_rng_generate_bytes_print _ _) in Hs.
  destruct (printable (a_log a) (NICE_STREAM_DEF_UFRAG - 1)) as [Hl1 Hf1]; [done|].
  destruct (printable (a_log (log (FxRandom (NICE_STREAM_DEF_UFRAG - 1)) a)) (NICE_STREAM_DEF_PWD - 1)) as [Hl2 Hf2]; [done|].
  change (nice_rng_generate_bytes_print (a_log a) (NICE_STREAM_DEF_UFRAG - 1)) with rnd in Hl1, Hf1.
  change (nice_rng_generate_bytes_print (a_log (log (FxRandom (NICE_STREAM_DEF_UFRAG - 1)) a)) (NICE_STREAM_DEF_PWD - 1)) with rnd2 in Hl2, Hf2.
  change (agent_find_stream (log ?e (log ?f ?x)) sid) with (agent_find_stream x sid) in Hs. rewrite find_stream_upd in Hs by done.
  rewrite Hs0 in Hs. cbn [fmap option_fmap option_map] in Hs. injection Hs as <-. rsimpl.
  unfold strlcpy. rewrite !take_ge by (change (Z.to_nat (NICE_STREAM_MAX_UFRAG - 1)) with 256%nat; change (Z.to_nat (NICE_STREAM_MAX_PWD - 1)) with 256%nat; lia).
  change (Z.to_nat (NICE_STREAM_DEF_UFRAG - 1)) with 4%nat in Hl1. change (Z.to_nat (NICE_STREAM_DEF_PWD - 1)) with 22%nat in Hl2.
  pose proof (overwrite_long rnd ufrag (slack_after ufrag (str_local_ufrag s0) (str_local_ufrag_slack s0)) Hf1 Fu ltac:(lia)) as O1.
  pose proof (overwrite_long rnd2 pwd (slack_after pwd (str_local_password s0) (str_local_password_slack s0)) Hf2 Fp ltac:(lia)) as O2.
  destruct (overwrite rnd _ _) as [u1 w1]. destruct (overwrite rnd2 _ _) as [u2 w2]. cbn in O1, O2. subst. rsimpl. rewrite Hl1, Hl2.
  split; apply drop_app_length'; lia.
Qed.

Lemma ex_printable : PrintableBytes (E := ex_check_env).
Proof.
  intros l n Hn. cbn. rewrite length_replicate. split; [done|]. apply Forall_replicate. pose proof (Z.mod_pos_bound (zlen l) 26). lia.
Qed.

Definition ex_ufrag : list Z := [65; 66; 67; 68; 69; 70].
Definition ex_pwd : list Z := replicate 22 80 ++ [81; 82].

Lemma restart_keeps_old_tail_witness :
  let b := (nice_agent_set_local_credentials ex_ice 1 (Some ex_ufrag) (Some ex_pwd)).2 in
  exists s, agent_find_stream (nice_stream_initialize_credentials (E := ex_check_env) b 1) 1 = Some s /\
    drop 4 (str_local_ufrag s) = [69; 70] /\ drop 22 (str_local_password s) = [81; 82].
Proof.
  cbv zeta. destruct (agent_find_stream (nice_stream_initialize_credentials (E := ex_check_env)
    (nice_agent_set_local_credentials ex_ice 1 (Some ex_ufrag) (Some ex_pwd)).2 1) 1) as [s|] eqn:H; [|exfalso; revert H; vm_compute; discriminate].
  exists s. split; [reflexivity|].
  apply (restart_keeps_old_tail (E := ex_check_env) (PB := ex_printable) ex_ice 1 ex_ufrag ex_pwd
           (nice_agent_set_local_credentials ex_ice 1 (Some ex_ufrag) (Some ex_pwd)).2 s).
  - cbn. lia.
  - cbn. lia.
  - repeat constructor; lia.
  - repeat constructor; lia.
  - reflexivity.
  - exact H.
Defined.

(** ** Resolved TURN servers *)

Section resolved.
Context {E : CheckEnv} {CL : CryptoLib} {B : Base64} {N : NetEnv} {K : Keepalive}.

Lemma the_stream_component a sid cid f s : agent_find_stream a sid = Some s ->
  exists s', the_stream (upd_component a sid cid f) sid = Ok s' /\ agent_find_stream (upd_component a sid cid f) sid = Some s' /\
    str_gathering_started s' = str_gathering_started s.
Proof. intros Hs. unfold the_stream, upd_component. rewrite find_stream_upd by done. rewrite Hs. cbn. eauto. Qed.

(** The next address before gathering: it goes to [turn], or to a copy. *)
Definition next_turn (a : NiceAgent) (sid cid : Z) (turn : TurnServer) (first_filled : bool) : TurnServer * NiceAgent :=
  if first_filled then
    let copy := turn_server_copy (a_next_ptr a) turn in
    (copy, upd_component (a <| a_next_ptr := a_next_ptr a + 1 |>) sid cid (fun c => c <| co_turn_servers := co_turn_servers c ++ [copy] |>))
  else (turn, a).

Lemma turn_address_step a sid cid turn first addr rest turn1 a1 s c server :
  next_turn a sid cid turn first = (turn1, a1) -> agent_find_stream a1 sid = Some s -> str_gathering_started s = false ->
  the_component a1 sid cid = Ok c -> server_address (ts_server turn1) addr (ts_server_port turn1) = Some server ->
  turn_addresses_loop a sid cid turn first (addr :: rest) =
  turn_addresses_loop (upd_turn a1 sid cid (ts_ptr turn1) (fun t => t <| ts_server := server |>)) sid cid (turn1 <| ts_server := server |>) true rest.
Proof.
  intros Hn Hs Hg Hc Hserver. unfold upd_turn. set (f := fun c : NiceComponent => _).
  destruct (the_stream_component a1 sid cid f s Hs) as (s1 & Hs1 & _ & Hg1). pose proof (the_component_upd a1 sid cid f c ltac:(done) Hc) as Hc1.
  rewrite Hg in Hg1. destruct first; injection Hn as <- <-; cbn [turn_addresses_loop]; cbv zeta; rewrite Hserver; unfold upd_turn; rsimpl;
    fold f; rewrite Hs1; cbn [mbind res_bind]; rewrite Hc1; cbn [mbind res_bind]; by rewrite Hg1.
Qed.

(** Only the first address of a TURN server keeps the port.  When the
    name of a TURN server has two IPv4 addresses and gathering has not
    started, the component gets a copy of the server for the second address,
    and the copy has port 0, because [turn_server_copy] leaves out
    [server_port]. *)
Theorem resolved_turn_copy_has_no_port a sid cid s c turn x0 x1 x2 x3 y0 y1 y2 y3 :
  agent_find_stream a sid = Some s -> str_gathering_started s = false -> the_component a sid cid = Ok c -> co_turn_servers c = [turn] ->
  ts_ptr turn <> a_next_ptr a ->
  exists b c', turn_addresses_loop a sid cid turn false [InetIPv4 x0 x1 x2 x3; InetIPv4 y0 y1 y2 y3] = Ok b /\ the_component b sid cid = Ok c' /\
    (ts_server <$> co_turn_servers c') =
      [nice_address_set_port (nice_address_set_ipv4 (ts_server turn) (dotted x0 x1 x2 x3)) (ts_server_port turn);
       nice_address_set_port (nice_address_set_ipv4 (ts_server turn) (dotted y0 y1 y2 y3)) 0].
Proof.
  intros Hs Hg Hc Ht Hne. set (x := nice_address_set_port _ (ts_server_port turn)). set (y := nice_address_set_port _ 0).
  erewrite turn_address_step by (reflexivity || eassumption). change (nice_address_set_port _ (ts_server_port turn)) with x.
  set (f1 := fun t : TurnServer => t <| ts_server := x |>). set (t1 := turn <| ts_server := x |>). set (a1 := upd_turn a sid cid (ts_ptr turn) f1).
  assert (Hc1 : the_component a1 sid cid = Ok (c <| co_turn_servers := [t1] |>)).
  { unfold a1, upd_turn. erewrite the_component_upd by done. rewrite Ht. cbn. by rewrite Z.eqb_refl. }
  destruct (the_stream_component a sid cid (fun c => c <| co_turn_servers := (fun t => if ts_ptr t =? ts_ptr turn then f1 t else t) <$> co_turn_servers c |>) s Hs)
    as (s1 & _ & Hs1 & Hg1). change (agent_find_stream a1 sid = Some s1) in Hs1.
  destruct (next_turn a1 sid cid t1 true) as [t2 a2] eqn:Hn. assert (Hc2 : the_component a2 sid cid = Ok (c <| co_turn_servers := [t1; t2] |>)).
  { injection Hn as <- <-. erewrite the_component_upd by (done || exact Hc1). done. }
  assert (exists s2, agent_find_stream a2 sid = Some s2 /\ str_gathering_started s2 = false) as (s2 & Hs2 & Hg2).
  { injection Hn as _ <-. match goal with |- context [upd_component ?b sid cid ?f] => destruct (the_stream_component b sid cid f s1 Hs1) as (s2 & _ & ? & ?) end.
    exists s2. split; [done|congruence]. }
  assert (t2 = turn_server_copy (a_next_ptr a) t1) as Et by (by injection Hn as <- _).
  rewrite (turn_address_step a1 sid cid t1 true (InetIPv4 y0 y1 y2 y3) [] t2 a2 s2 _ y Hn Hs2 Hg2 Hc2) by (by rewrite Et).
  cbn [turn_addresses_loop]. eexists _, _. split; [reflexivity|]. split; [unfold upd_turn; apply the_component_upd; [done|exact Hc2]|].
  rsimpl. cbn. rewrite Z.eqb_refl, Et. cbn. by rewrite (proj2 (Z.eqb_neq (ts_ptr turn) (a_next_ptr a))) by done.
Qed.
End resolved.

(** A component that waits for the address of a TURN server at port 3478. *)
Definition ex_unresolved : TurnServer := mkTurnServer 7 (sockaddr_other 0) (Some [116; 46; 110]) 3478 [117] [112] NICE_RELAY_TYPE_TURN_UDP 0 false.
Definition ex_waiting : NiceAgent :=
  upd_component (upd_stream ex_ice 1 (fun s => s <| str_gathering_started := false |>)) 1 1 (fun c => c <| co_turn_servers := [ex_unresolved] |>).

Lemma resolved_turn_copy_has_no_port_witness : exists b c',
  turn_addresses_loop (E := ex_check_env) ex_waiting 1 1 ex_unresolved false [InetIPv4 192 0 2 7; InetIPv4 192 0 2 8] = Ok b /\
  the_component b 1 1 = Ok c' /\
  (ts_server <$> co_turn_servers c') = [sockaddr_in (htons 3478) (htonl (dotted 192 0 2 7)); sockaddr_in (htons 0) (htonl (dotted 192 0 2 8))].
Proof.
  apply (resolved_turn_copy_has_no_port (E := ex_check_env) ex_waiting 1 1 (ex_stream <| str_gathering_started := false |>
           <| str_components := [ex_component <| co_turn_servers := [ex_unresolved] |>] |>)
           (ex_component <| co_turn_servers := [ex_unresolved] |>) ex_unresolved 192 0 2 7 192 0 2 8).
  - reflexivity.
  - reflexivity.
  - reflexivity.
  - reflexivity.
  - cbn. lia.
Defined.

(** ** Relays only *)

(** The candidate of the peer is known before the agent gathers. *)
Definition ex_private_ops : list check_op :=
  [OpSetProperty (PROP_FORCE_RELAY true); OpSetProperty (PROP_ICE_TCP false); OpAddStream 1;
   OpSetRemoteCredentials 1 (Some [99; 100]) (Some [112; 119]);
   OpSetRemoteCandidates 1 1 [ex_cand 2 NICE_CANDIDATE_TYPE_HOST 2015363327 1];
   OpAddLocalAddress (sockaddr_in 0 (htonl (dotted 192 0 2 1))); OpGather 1; OpTimer].

Definition sends_from (sock : Z) (e : effect) : bool :=
  match e with FxSend _ (Some s) _ _ => s =? sock | _ => false end.

