(* ===== verification/CheckReady.v ===== *)
(** * Concluding the checks of a component

    [conn_check_update_check_list_state_for_ready]: what is pruned when a
    pair has been nominated, and the states a component goes through on its
    way to READY. *)
From stdpp Require Import sorting.
From S2P Require Import Prelude CMem StunTypes StunMessage StunAgent StunAgentProps StunTimer StunIce Address Candidate IceTypes IceEnv CheckList CheckDriver CheckTick CheckNominate CheckInv CheckProps CheckTickInv CheckMain.
Local Open Scope Z_scope.

(** ** Streams and components *)

(** What the components of an agent see of a change. *)
Definition same_components (a a' : NiceAgent) : Prop :=
  a_log a' = a_log a /\ a_reliable a' = a_reliable a /\
  (fun s => (str_id s, str_components s)) <$> a_streams a' = (fun s => (str_id s, str_components s)) <$> a_streams a.

#[global] Instance same_components_preorder : PreOrder same_components.
Proof. split; [by split|]. intros a b c (? & ? & ?) (? & ? & ?). split; [congruence|split; congruence]. Qed.

Lemma same_component a a' sid cid : same_components a a' -> the_component a' sid cid = the_component a sid cid.
Proof.
  intros (_ & _ & H). unfold the_component, agent_find_component, agent_find_stream. revert H.
  generalize (a_streams a). induction (a_streams a') as [|s ss IH]; intros [|t ts] H; try done.
  injection H as Hid Hc H. cbn [list_find]. rewrite Hid. destruct (decide (str_id t = sid)).
  - cbn. unfold nice_stream_find_component_by_id. rewrite Hc. by destruct (snd <$> list_find _ (str_components t)).
  - specialize (IH ts H). destruct (list_find _ ss) as [[]|], (list_find _ ts) as [[]|]; cbn in *; try done;
      repeat match goal with |- context [nice_stream_find_component_by_id ?s cid] => destruct (nice_stream_find_component_by_id s cid) end; done.
Qed.

Lemma same_modify a p f a' : modify a p f = Ok a' -> same_components a a'.
Proof. intros (x & _ & ->)%modify_inv. by split. Qed.

Lemma same_drop a sid p : same_components a (drop_pair a sid p).
Proof.
  split; [done|]. split; [done|]. unfold drop_pair, delete_link, upd_stream. rsimpl.
  induction (a_streams a) as [|s l IH]; [done|]. cbn [upd_first]. destruct (str_id s =? sid); [done|]. rewrite !fmap_cons. by f_equal.
Qed.

(** ** Component states *)

(** The states signalled for a component, oldest first. *)
Definition signalled (sid cid : Z) (l : list effect) : list NiceComponentState :=
  omap (fun e => match e with
                 | FxComponentState s c st => if (s =? sid) && (c =? cid) then Some st else None
                 | _ => None
                 end) l.

(** From [a], where the component is [c], to [a'], where it is [c'], with the
    states [path] signalled on the way. *)
Record climbed (sid cid : Z) (a : NiceAgent) (c : NiceComponent) (path : list NiceComponentState) (a' : NiceAgent) (c' : NiceComponent)
    : Prop := {
  cl_component : the_component a' sid cid = Ok c';
  cl_frame : frame a a';
  cl_pairs : a_pairs a' = a_pairs a;
  cl_queue : a_triggered_check_queue a' = a_triggered_check_queue a;
  cl_signalled : signalled sid cid (a_log a') = signalled sid cid (a_log a) ++ path
}.

Lemma climbed_refl sid cid a c : the_component a sid cid = Ok c -> climbed sid cid a c [] a c.
Proof. intros Hc. split; try done. by rewrite app_nil_r. Qed.

Lemma climbed_trans sid cid a b d c c1 c2 p q : climbed sid cid a c p b c1 -> climbed sid cid b c1 q d c2 -> climbed sid cid a c (p ++ q) d c2.
Proof. intros [H1 F1 P1 Q1 S1] [H2 F2 P2 Q2 S2]. split; try congruence; [by etrans|]. by rewrite S2, S1, app_assoc. Qed.

Lemma signal_same a sid cid c : the_component a sid cid = Ok c -> agent_signal_component_state_change a sid cid (co_state c) = Ok a.
Proof.
  intros (s & Hs & Hcs)%the_component_inv. unfold agent_signal_component_state_change, agent_find_component.
  rewrite Hs. cbn [mbind option_bind]. rewrite Hcs. cbn [mbind option_bind]. by rewrite bool_decide_true.
Qed.

Lemma signal_ok a sid cid c st : the_component a sid cid = Ok c -> valid_state_change (co_state c) st = true -> st <> co_state c ->
  exists a', agent_signal_component_state_change a sid cid st = Ok a' /\ climbed sid cid a c [st] a' (c <| co_state := st |>).
Proof.
  intros Hc Hv Hne. assert (Hsig : exists e, agent_signal_component_state_change a sid cid st =
      Ok (log (FxComponentState sid cid st) (foldr log (upd_component a sid cid (fun c => c <| co_state := st |>)) e)) /\
      (e = [] \/ e = [FxProcessQueuedTcp sid cid])).
  { destruct (the_component_inv _ _ _ _ Hc) as (s & Hs & Hcs). unfold agent_signal_component_state_change, agent_find_component.
    rewrite Hs. cbn [mbind option_bind]. rewrite Hcs. cbn [mbind option_bind]. rewrite bool_decide_false by done. rewrite Hv. cbn [assert_ok mbind res_bind].
    destruct (a_reliable _); [exists [FxProcessQueuedTcp sid cid]|exists []]; auto. }
  destruct Hsig as (e & Hsig & He). eexists. split; [exact Hsig|].
  split; [|by eapply frame_signal|by destruct He as [-> | ->]..|].
  - destruct He as [-> | ->]; by apply (the_component_upd a sid cid (fun c => c <| co_state := st |>)).
  - destruct He as [-> | ->]; unfold log; rsimpl; unfold signalled; rewrite !omap_app; cbn; rewrite !Z.eqb_refl, ?omap_app; cbn; by rewrite ?app_nil_r.
Qed.

(** The states a component is led through. *)
Definition climb (st : NiceComponentState) : list NiceComponentState :=
  match st with
  | NICE_COMPONENT_STATE_READY => []
  | NICE_COMPONENT_STATE_CONNECTED => [NICE_COMPONENT_STATE_READY]
  | NICE_COMPONENT_STATE_CONNECTING => [NICE_COMPONENT_STATE_CONNECTED; NICE_COMPONENT_STATE_READY]
  | NICE_COMPONENT_STATE_DISCONNECTED | NICE_COMPONENT_STATE_GATHERING | NICE_COMPONENT_STATE_FAILED =>
      [NICE_COMPONENT_STATE_CONNECTING; NICE_COMPONENT_STATE_CONNECTED; NICE_COMPONENT_STATE_READY]
  end.

(** The last two signals. *)
Lemma signal_connected_ready a sid cid c : the_component a sid cid = Ok c ->
  co_state c = NICE_COMPONENT_STATE_CONNECTING \/ co_state c = NICE_COMPONENT_STATE_CONNECTED \/ co_state c = NICE_COMPONENT_STATE_READY ->
  exists a', (a ← (if component_state_value (co_state c) <? component_state_value NICE_COMPONENT_STATE_CONNECTED then
                     agent_signal_component_state_change a sid cid NICE_COMPONENT_STATE_CONNECTED else Ok a);
              agent_signal_component_state_change a sid cid NICE_COMPONENT_STATE_READY) = Ok a' /\
    climbed sid cid a c (climb (co_state c)) a' (c <| co_state := NICE_COMPONENT_STATE_READY |>).
Proof.
  intros Hc [Ec|[Ec|Ec]]; rewrite Ec; cbn [component_state_value Z.ltb Z.compare Pos.compare Pos.compare_cont mbind res_bind climb].
  - destruct (signal_ok a sid cid c NICE_COMPONENT_STATE_CONNECTED Hc) as (a2 & -> & C2); [by rewrite Ec..|].
    destruct (signal_ok a2 sid cid _ NICE_COMPONENT_STATE_READY (cl_component _ _ _ _ _ _ _ C2)) as (a3 & Hs3 & C3); [done..|].
    exists a3. split; [exact Hs3|]. by apply (climbed_trans _ _ _ _ _ _ _ _ _ _ C2).
  - destruct (signal_ok a sid cid c NICE_COMPONENT_STATE_READY Hc) as (a2 & Hs & C2); [by rewrite Ec..|]. by exists a2.
  - exists a. rewrite <-Ec. split; [by apply signal_same|]. replace (c <| co_state := co_state c |>) with c by (by destruct c). by apply climbed_refl.
Qed.

Lemma signal_progress_ok a sid cid c : the_component a sid cid = Ok c ->
  exists a', signal_progress a sid cid = Ok a' /\
    climbed sid cid a c (climb (co_state c)) a' (c <| co_state := NICE_COMPONENT_STATE_READY |>).
Proof.
  intros Hc. unfold signal_progress. rewrite Hc. cbn [mbind res_bind].
  destruct ((_ <? _) || _) eqn:Elow.
  - assert (Hlow : valid_state_change (co_state c) NICE_COMPONENT_STATE_CONNECTING = true /\ NICE_COMPONENT_STATE_CONNECTING <> co_state c /\
        climb (co_state c) = [NICE_COMPONENT_STATE_CONNECTING] ++ climb NICE_COMPONENT_STATE_CONNECTING) by (by destruct (co_state c)).
    destruct Hlow as (Hv & Hne & ->). destruct (signal_ok a sid cid c _ Hc Hv Hne) as (a1 & -> & C1). cbn [mbind res_bind].
    set (c1 := c <| co_state := NICE_COMPONENT_STATE_CONNECTING |>) in *. pose proof (cl_component _ _ _ _ _ _ _ C1) as Hc1.
    rewrite Hc1. cbn [mbind res_bind]. destruct (signal_connected_ready a1 sid cid c1 Hc1) as (a2 & Hs & C2); [by left|].
    exists a2. split; [exact Hs|]. by apply (climbed_trans _ _ _ _ _ _ _ _ _ _ C1).
  - cbn [mbind res_bind]. rewrite Hc. cbn [mbind res_bind]. apply signal_connected_ready; [done|]. destruct (co_state c); auto; done.
Qed.

(** ** Pruning *)

(** What pruning makes of a pair of the component: what is left of it,
    whether it is queued afterwards, and whether it is still pending. *)
Definition prune_outcome (queued : bool) (prio : Z) (x : CandidateCheckPair) : option CandidateCheckPair * bool * bool :=
  match cp_state x with
  | NICE_CHECK_IN_PROGRESS =>
      if cp_priority x <? prio then (Some (x <| cp_retransmit := false |>), false, false)
      else (Some (x <| cp_retransmit := cp_retransmit x || negb (bool_decide (cp_stun_transactions x = [])) |>), queued, true)
  | NICE_CHECK_FROZEN | NICE_CHECK_WAITING =>
      if queued && negb (cp_priority x <? prio) then (Some x, true, true) else (None, false, false)
  | NICE_CHECK_SUCCEEDED | NICE_CHECK_FAILED | NICE_CHECK_DISCOVERED =>
      if queued then if cp_priority x <? prio then (None, false, false) else (Some x, true, true) else (Some x, false, false)
  end.

Definition queued (a : NiceAgent) (p : Z) : bool := bool_decide (p ∈ a_triggered_check_queue a).

(** [p] went from [x] in [a] to what [prune_outcome] says in [a']. *)
Definition settled (a : NiceAgent) (prio p : Z) (x : CandidateCheckPair) (a' : NiceAgent) : Prop :=
  a_pairs a' !! p = (prune_outcome (queued a p) prio x).1.1 /\ queued a' p = (prune_outcome (queued a p) prio x).1.2.

(** A change that touches the pair [p] only. *)
Definition only (p : Z) (a a' : NiceAgent) : Prop :=
  same_components a a' /\ forall q, q <> p -> a_pairs a' !! q = a_pairs a !! q /\ queued a' q = queued a q.

Lemma only_drop a sid p : wf a -> p ∈ checks_of a sid ->
  only p a (drop_pair a sid p) /\ a_pairs (drop_pair a sid p) !! p = None /\ queued (drop_pair a sid p) p = false.
Proof.
  intros W Hp. change (a_pairs (drop_pair a sid p)) with (delete p (a_pairs a)).
  assert (Hq : forall q, queued (drop_pair a sid p) q = bool_decide (q ∈ a_triggered_check_queue a /\ q <> p)).
  { intros q. apply bool_decide_ext, remove_first_elem, W. }
  split; [split; [apply same_drop|]|split].
  - intros q Hne. rewrite Hq. split; [by apply lookup_delete_ne|]. apply bool_decide_ext. tauto.
  - apply lookup_delete_eq.
  - rewrite Hq. apply bool_decide_eq_false. tauto.
Qed.

Lemma only_modify a p f x a' : a_pairs a !! p = Some x -> modify a p f = Ok a' ->
  only p a a' /\ a_pairs a' !! p = Some (f x) /\ queued a' p = queued a p.
Proof.
  intros Hx H. split; [split; [by eapply same_modify|]|]; apply modify_inv in H as (y & Hy & ->).
  - intros q Hne. split; [|done]. by apply lookup_insert_ne.
  - rewrite Hx in Hy. injection Hy as <-. split; [apply lookup_insert_eq|done].
Qed.

Lemma only_unqueue a p : wf a ->
  only p a (priv_remove_pair_from_triggered_check_queue a p) /\ queued (priv_remove_pair_from_triggered_check_queue a p) p = false.
Proof.
  intros W. assert (Hq : forall q, queued (priv_remove_pair_from_triggered_check_queue a p) q = bool_decide (q ∈ a_triggered_check_queue a /\ q <> p)).
  { intros q. apply bool_decide_ext, remove_first_elem, W. }
  split; [split; [done|]|rewrite Hq; apply bool_decide_eq_false; tauto].
  intros q Hne. rewrite Hq. split; [done|]. apply bool_decide_ext. tauto.
Qed.

Lemma only_trans p a b c : only p a b -> only p b c -> only p a c.
Proof.
  intros [S1 H1] [S2 H2]. split; [by etrans|]. intros q Hne. destruct (H1 q Hne), (H2 q Hne). split; congruence.
Qed.

Lemma only_refl p a : only p a a.
Proof. by split. Qed.

Lemma prune_drop a sid p l x : visiting a sid (p :: l) -> a_pairs a !! p = Some x ->
  exists a', free_and_delete a sid p = Ok a' /\ only p a a' /\ a_pairs a' !! p = None /\ queued a' p = false.
Proof.
  intros V Hx. rewrite (free_and_delete_eq _ _ _ (mk_is_Some _ _ Hx)). eexists. split; [done|].
  apply only_drop; [apply V|]. by eapply visiting_head.
Qed.

(** The branch for a check in progress that the selected pair outranks. *)
Lemma prune_outranked a p x : wf a -> a_pairs a !! p = Some x ->
  exists a', (a ← (if cp_retransmit x then modify (priv_remove_pair_from_triggered_check_queue a p) p (fun x => x <| cp_retransmit := false |>)
                   else Ok (priv_remove_pair_from_triggered_check_queue a p)); Ok (0, a)) = Ok (0, a') /\
    only p a a' /\ a_pairs a' !! p = Some (x <| cp_retransmit := false |>) /\ queued a' p = false.
Proof.
  intros W Hx. destruct (only_unqueue a p W) as [O1 Q1]. set (a1 := priv_remove_pair_from_triggered_check_queue a p) in *.
  assert (Hx1 : a_pairs a1 !! p = Some x) by done. destruct (cp_retransmit x) eqn:Er.
  - rewrite (modify_ok _ _ _ _ Hx1). eexists. split; [reflexivity|].
    edestruct (only_modify a1 p (fun x => x <| cp_retransmit := false |>) x) as (O2 & P2 & Q2); [done|by apply modify_ok|].
    split; [by eapply only_trans|]. split; [done|]. etrans; [exact Q2|done].
  - exists a1. split; [done|]. split; [done|]. split; [|done]. rewrite Hx1. f_equal. destruct x. cbn in Er. by subst.
Qed.

(** The branch for a check in progress that is kept. *)
Lemma prune_kept a p x : a_pairs a !! p = Some x ->
  exists a', (a ← (if negb (cp_retransmit x) && negb (bool_decide (cp_stun_transactions x = [])) then
                     modify a p (fun x => x <| cp_retransmit := true |>) else Ok a); Ok (1, a)) = Ok (1, a') /\
    only p a a' /\ a_pairs a' !! p = Some (x <| cp_retransmit := cp_retransmit x || negb (bool_decide (cp_stun_transactions x = [])) |>) /\
    queued a' p = queued a p.
Proof.
  intros Hx. destruct (cp_retransmit x) eqn:Er; cbn [negb andb orb].
  - exists a. split; [done|]. split; [apply only_refl|]. split; [|done]. rewrite Hx. f_equal. destruct x. cbn in Er. by subst.
  - destruct (negb (bool_decide _)) eqn:Et.
    + rewrite (modify_ok _ _ _ _ Hx). eexists. split; [reflexivity|].
      by apply (only_modify a p (fun x => x <| cp_retransmit := true |>) x); [|apply modify_ok].
    + exists a. split; [done|]. split; [apply only_refl|]. split; [|done]. rewrite Hx. f_equal. destruct x. cbn in Er. by subst.
Qed.

Lemma prune_pending_pair_spec a sid prio p l x : visiting a sid (p :: l) -> a_pairs a !! p = Some x ->
  exists a', prune_pending_pair a sid prio p = Ok (if (prune_outcome (queued a p) prio x).2 then 1 else 0, a') /\
    visiting a' sid l /\ only p a a' /\ settled a prio p x a'.
Proof.
  intros V Hx. enough (exists a', prune_pending_pair a sid prio p = Ok (if (prune_outcome (queued a p) prio x).2 then 1 else 0, a') /\
    only p a a' /\ settled a prio p x a') as (a' & H & ? & ?).
  { exists a'. split; [done|]. split; [by eapply visiting_prune_pending_pair|done]. }
  destruct (prune_drop a sid p l x V Hx) as (b & Hb & Ob & Pb & Qb).
  destruct (prune_outranked a p x (vi_wf _ _ _ V) Hx) as (d & Hd & Od & Pd & Qd). destruct (prune_kept a p x Hx) as (e & He & Oe & Pe & Qe).
  unfold prune_pending_pair, settled, prune_outcome. rewrite (deref_ok _ _ _ Hx). cbn [mbind res_bind]. fold (queued a p).
  destruct (cp_state x) eqn:Est; (rewrite bool_decide_true by done) || (rewrite bool_decide_false by done);
    (destruct (queued a p) eqn:Eq; destruct (cp_priority x <? prio) eqn:Elt); cbn [andb negb]; rewrite ?Hb; cbn [mbind res_bind fst snd];
    first [by exists b|by exists d|by exists e|exists a; split; [reflexivity|split; [apply only_refl|done]]].
Qed.

(** A pair of the component that keeps it from READY. *)
Definition pending (a : NiceAgent) (cid prio p : Z) (x : CandidateCheckPair) : Prop :=
  cp_component_id x = cid /\ (prune_outcome (queued a p) prio x).2 = true.

(** What pruning the pairs [l] of a component leaves of each pair. *)
Definition pruned (a : NiceAgent) (cid prio : Z) (l : list Z) (a' : NiceAgent) : Prop :=
  (forall q, q ∉ l -> a_pairs a' !! q = a_pairs a !! q /\ queued a' q = queued a q) /\
  (forall p x, p ∈ l -> a_pairs a !! p = Some x ->
     if cp_component_id x =? cid then settled a prio p x a' else a_pairs a' !! p = Some x /\ queued a' p = queued a p).

Lemma prune_pending_loop_spec sid cid prio l : forall a n, visiting a sid l ->
  exists n' a', prune_pending_loop a sid cid prio l n = Ok (n', a') /\ wf a' /\ same_components a a' /\ pruned a cid prio l a' /\
    n <= n' /\ (n' = n <-> forall p x, p ∈ l -> a_pairs a !! p = Some x -> ~ pending a cid prio p x).
Proof.
  induction l as [|p l IH]; intros a n V; cbn [prune_pending_loop].
  - exists n, a. split; [done|]. split; [apply V|]. split; [done|]. split; [by split; [|intros ? ? ?%elem_of_nil]|].
    split; [done|]. split; [by intros _ ? ? ?%elem_of_nil|done].
  - destruct (visiting_head _ _ _ _ V) as [_ [x Hx]]. rewrite (deref_ok _ _ _ Hx). cbn [mbind res_bind].
    pose proof (vi_nodup _ _ _ V) as [Hpl _]%NoDup_cons.
    (* one step: [b] is the state after it, [m] what it counts *)
    assert (Hstep : exists m b, (if negb (cp_component_id x =? cid) then prune_pending_loop a sid cid prio l n
         else '(n', a) ← prune_pending_pair a sid prio p; prune_pending_loop a sid cid prio l (n + n')) = prune_pending_loop b sid cid prio l (n + m) /\
        visiting b sid l /\ only p a b /\ 0 <= m /\ (m = 0 <-> ~ pending a cid prio p x) /\
        (if cp_component_id x =? cid then settled a prio p x b else a_pairs b !! p = Some x /\ queued b p = queued a p)).
    { unfold pending. destruct (Z.eqb_spec (cp_component_id x) cid) as [Ec|Ec]; cbn [negb].
      - destruct (prune_pending_pair_spec a sid prio p l x V Hx) as (b & -> & Vb & Ob & Sb). cbn [mbind res_bind].
        eexists _, b. split; [reflexivity|]. split; [done|]. split; [done|]. destruct (_.2); (split; [lia|]; split; [split; [by intros ? [_ ?] || lia|tauto || (intros []; tauto)]|done]).
      - exists 0, a. rewrite Z.add_0_r. split; [done|]. split; [by eapply visiting_skip|]. split; [apply only_refl|]. split; [done|]. split; [tauto|done]. }
    destruct Hstep as (m & b & -> & Vb & [Sb Ob] & Hm & Hmp & Hset). destruct (IH b (n + m) Vb) as (n' & a' & -> & W' & S' & [Ho Hi] & Hle & Hn).
    assert (Hsame : forall q, q ∈ l -> a_pairs b !! q = a_pairs a !! q /\ queued b q = queued a q) by (intros q Hq; apply Ob; congruence).
    destruct (Ho p Hpl) as [Hop1 Hop2]. exists n', a'. split; [done|]. split; [done|]. split; [by etrans|]. split; [split|split; [lia|]].
    + intros q [Hqp Hq]%not_elem_of_cons. destruct (Ho q Hq) as [-> ->]. by apply Ob.
    + intros q y [->|Hq]%elem_of_cons Hy.
      * rewrite Hx in Hy. injection Hy as <-. unfold settled in *. by rewrite Hop1, Hop2.
      * destruct (Hsame q Hq) as [E1 E2]. specialize (Hi q y Hq). unfold settled in *. rewrite E1, E2 in Hi. exact (Hi Hy).
    + split.
      * intros ->. assert (m = 0) as Hm0 by lia. assert (n = n + m) as Hn0 by lia. pose proof (proj1 Hn Hn0) as Hnp.
        intros q y [->|Hq]%elem_of_cons Hy; [rewrite Hx in Hy; injection Hy as <-; tauto|].
        destruct (Hsame q Hq) as [E1 E2]. specialize (Hnp q y Hq). unfold pending in *. rewrite E1, E2 in Hnp. exact (Hnp Hy).
      * intros Hnp. assert (m = 0) as -> by (apply Hmp, (Hnp p x); [by left|done]). rewrite Z.add_0_r in Hn. apply Hn.
        intros q y Hq Hy. destruct (Hsame q Hq) as [E1 E2]. rewrite E1 in Hy. unfold pending. rewrite E2. apply (Hnp q y); [by right|done].
Qed.

Lemma count_nominated_spec a cid l : (forall p, p ∈ l -> is_Some (a_pairs a !! p)) ->
  exists n, count_nominated a cid l = Ok n /\ 0 <= n /\
    (forall p x, p ∈ l -> a_pairs a !! p = Some x -> cp_component_id x = cid -> cp_valid x = true -> cp_nominated x = true -> 0 < n).
Proof.
  induction l as [|q l IH]; intros Hl; cbn [count_nominated]; [exists 0; split; [done|split; [done|by intros ? ? ?%elem_of_nil]]|].
  destruct (Hl q) as [y Hy]; [by left|]. rewrite (deref_ok _ _ _ Hy). cbn [mbind res_bind].
  destruct IH as (n & -> & Hn & Hex); [intros; apply Hl; by right|]. cbn [mbind res_bind]. eexists. split; [reflexivity|].
  split; [destruct (_ && _); lia|]. intros p x [->|Hp]%elem_of_cons Hx Hc Hv Hm.
  - rewrite Hy in Hx. injection Hx as <-. rewrite Hv, Hm, (proj2 (Z.eqb_eq _ _) Hc). cbn. lia.
  - specialize (Hex p x Hp Hx Hc Hv Hm). destruct (_ && _); lia.
Qed.

(** C19: concluding the checks of a component.  When a valid pair of the
    component is nominated and a pair is selected,
    [conn_check_update_check_list_state_for_ready] never fails, whatever
    state the component is in.  It leaves of every pair of the component what
    the pruning rules say, touches no pair of another component, and keeps
    the check lists well formed; the component moves to READY, through every
    state in between, exactly when no check is pending that could still beat
    the selected pair, and otherwise keeps its state without a signal. *)
Theorem component_concludes a sid cid c p x :
  wf a -> the_component a sid cid = Ok c -> 0 < sp_priority (co_selected_pair c) ->
  p ∈ checks_of a sid -> a_pairs a !! p = Some x -> cp_component_id x = cid -> cp_valid x = true -> cp_nominated x = true ->
  exists a', conn_check_update_check_list_state_for_ready a sid cid = Ok a' /\ wf a' /\
    pruned a cid (sp_priority (co_selected_pair c)) (checks_of a sid) a' /\
    ((forall q y, q ∈ checks_of a sid -> a_pairs a !! q = Some y -> ~ pending a cid (sp_priority (co_selected_pair c)) q y) ->
       the_component a' sid cid = Ok (c <| co_state := NICE_COMPONENT_STATE_READY |>) /\
       signalled sid cid (a_log a') = signalled sid cid (a_log a) ++ climb (co_state c)) /\
    (~ (forall q y, q ∈ checks_of a sid -> a_pairs a !! q = Some y -> ~ pending a cid (sp_priority (co_selected_pair c)) q y) ->
       the_component a' sid cid = Ok c /\ a_log a' = a_log a).
Proof.
  intros W Hc Hsel Hp Hx Hxc Hxv Hxn. destruct (the_component_inv _ _ _ _ Hc) as (s & Hs & _).
  assert (Hts : the_stream a sid = Ok s) by (unfold the_stream; by rewrite Hs).
  assert (Hl : checks_of a sid = str_conncheck_list s) by (unfold checks_of; by rewrite Hs). rewrite Hl in *.
  pose proof (visiting_start _ _ _ W Hts) as V. unfold conn_check_update_check_list_state_for_ready. rewrite Hts. cbn [mbind res_bind].
  destruct (count_nominated_spec a cid (str_conncheck_list s)) as (n & -> & Hn & Hex).
  { intros q Hq. apply wf_lookup; [done|]. eapply in_checks_of, V, Hq. }
  cbn [mbind res_bind]. rewrite (proj2 (Z.ltb_lt 0 n)) by eauto. unfold priv_prune_pending_checks. rewrite Hts, Hc. cbn [mbind res_bind].
  rewrite (proj2 (Z.ltb_lt 0 _) Hsel). cbn [assert_ok mbind res_bind].
  destruct (prune_pending_loop_spec sid cid (sp_priority (co_selected_pair c)) _ a 0 V) as (m & b & -> & Wb & Sb & Pb & Hm & Hpend). cbn [mbind res_bind].
  pose proof (same_component _ _ sid cid Sb) as Hcb. rewrite Hc in Hcb. destruct Sb as (Hlog & _). destruct (Z.eqb_spec m 0) as [->|Hne].
  - destruct (signal_progress_ok b sid cid c Hcb) as (d & Hd & [Hcd F Pd Qd Sd]). exists d. split; [done|]. split; [by eapply wf_frame|].
    split; [by unfold pruned, settled, queued; rewrite Pd, Qd|]. split; [intros _; split; [done|by rewrite Sd, Hlog]|]. tauto.
  - exists b. split; [done|]. split; [done|]. split; [done|]. split; [tauto|]. done.
Qed.

(** The example with its first pair nominated and selected. *)
Definition ex_nominated : NiceAgent :=
  match modify ex_paired 100 (fun x => x <| cp_state := NICE_CHECK_SUCCEEDED |> <| cp_valid := true |> <| cp_nominated := true |>) with
  | Ok a => upd_component a 1 1 (fun c => c <| co_selected_pair := mkSelected None None 8655919610208583679 0 true None 0 0 0 0 |>)
  | Fault _ => ex_paired
  end.

Lemma ex_nominated_wf : wf ex_nominated.
Proof.
  unfold ex_nominated. destruct (modify _ _ _) as [a|] eqn:H; [|apply ex_paired_wf]. apply frame_modify in H; [|done].
  eapply wf_frame; [apply frame_upd_component|]. by eapply wf_frame, ex_paired_wf.
Qed.

(** The other pair is frozen: it goes, and the component climbs from
    CONNECTING to READY. *)
Lemma component_concludes_witness :
  exists a', conn_check_update_check_list_state_for_ready ex_nominated 1 1 = Ok a' /\ wf a' /\ all_checks a' = [100] /\
    signalled 1 1 (a_log a') = [NICE_COMPONENT_STATE_CONNECTING; NICE_COMPONENT_STATE_CONNECTED; NICE_COMPONENT_STATE_READY].
Proof.
  assert (Hc : match the_component ex_nominated 1 1 with Ok c => 0 <? sp_priority (co_selected_pair c) | Fault _ => false end = true)
    by (vm_compute; reflexivity).
  assert (Hx : match a_pairs ex_nominated !! 100 with
               | Some x => (cp_component_id x =? 1) && cp_valid x && cp_nominated x | None => false end = true) by (vm_compute; reflexivity).
  assert (Hrun : match conn_check_update_check_list_state_for_ready ex_nominated 1 1 with
                 | Ok a' => (all_checks a', signalled 1 1 (a_log a')) | Fault _ => ([], []) end =
                 ([100], [NICE_COMPONENT_STATE_CONNECTING; NICE_COMPONENT_STATE_CONNECTED; NICE_COMPONENT_STATE_READY])) by (vm_compute; reflexivity).
  assert (Hin : 100 ∈ checks_of ex_nominated 1) by (vm_compute; by left).
  destruct (the_component ex_nominated 1 1) as [c|] eqn:Ec; [|discriminate Hc]. destruct (a_pairs ex_nominated !! 100) as [x|] eqn:Ex; [|discriminate Hx].
  apply Z.ltb_lt in Hc. apply andb_true_iff in Hx as [[Hx1 Hx2]%andb_true_iff Hx3]. apply Z.eqb_eq in Hx1.
  destruct (component_concludes ex_nominated 1 1 c 100 x ex_nominated_wf Ec Hc Hin Ex Hx1 Hx2 Hx3) as (a' & H & W & _).
  rewrite H in Hrun. injection Hrun as Hall Hsig. exists a'. split; [exact H|]. split; [exact W|]. split; [exact Hall|exact Hsig].
Defined.

(** * Regular nomination

    Which pair [priv_conn_check_tick_stream_nominate] chooses for a
    component. *)

(** A pair of the component that may be nominated. *)
Definition eligible (cid : Z) (x : CandidateCheckPair) : bool :=
  (cp_component_id x =? cid) && negb (cp_nominated x) && negb (cp_use_candidate_on_next_check x) && cp_valid x.

(** The pair whose check is repeated: the parent of a discovered pair. *)
Definition checked_pair (p : Z) (x : CandidateCheckPair) : Z := default p (cp_succeeded_pair x).

(** Without another nomination to match, the first eligible pair is taken. *)
Lemma choose_first a cid l t r1 r2 : choose_pair a cid None None true l None = Ok (Some t, r1, r2) ->
  exists l1 p l2 x, l = l1 ++ p :: l2 /\ a_pairs a !! p = Some x /\ eligible cid x = true /\ t = checked_pair p x /\
    (forall q y, q ∈ l1 -> a_pairs a !! q = Some y -> eligible cid y = false) /\
    exists z, a_pairs a !! t = Some z /\ cp_state z = NICE_CHECK_SUCCEEDED.
Proof.
  induction l as [|q l IH]; cbn [choose_pair]; intros H; [done|]. inv_res. apply deref_inv in Ha. fold (eligible cid a0) in H.
  destruct (eligible cid a0) eqn:Ee.
  - inv_res. exists [], q, l, a0. split; [done|]. split; [done|]. split; [done|]. split.
    + unfold checked_pair. destruct (cp_succeeded_pair a0); by inv_res.
    + split; [by intros ? ? ?%elem_of_nil|]. eexists. split; [by apply deref_inv|]. by eapply bool_decide_eq_true.
  - destruct (IH H) as (l1 & p & l2 & x & -> & Hx & He & Ht & Hl & Hz). exists (q :: l1), p, l2, x. split; [done|].
    split; [done|]. split; [done|]. split; [done|]. split; [|done]. intros q' y [->|Hq]%elem_of_cons Hy; [congruence|by eapply Hl].
Qed.

Lemma enqueued a p : p ∈ a_triggered_check_queue (priv_add_pair_to_triggered_check_queue a p) /\
  a_pairs (priv_add_pair_to_triggered_check_queue a p) = a_pairs a.
Proof.
  unfold priv_add_pair_to_triggered_check_queue. destruct (bool_decide_reflect (p ∈ a_triggered_check_queue a)); [done|].
  rewrite (fr_queue _ _ (frame_schedule_next _)). rsimpl. split; [apply elem_of_app; right; by left|].
  unfold priv_schedule_next. by repeat (destruct (a_conncheck_timer _) || destruct (a_keepalive_timer _)).
Qed.


(** The first pair of the example is valid, the second has failed. *)
Definition ex_valid : NiceAgent :=
  match modify ex_paired 100 (fun x => x <| cp_state := NICE_CHECK_SUCCEEDED |> <| cp_valid := true |>) with
  | Ok a => a
  | Fault _ => ex_paired
  end.

Lemma ex_valid_wf : wf ex_valid.
Proof.
  unfold ex_valid. destruct (modify _ _ _) as [a|] eqn:H; [|apply ex_paired_wf]. apply frame_modify in H; [|done]. by eapply wf_frame, ex_paired_wf.
Qed.

