(* ===== verification/IoMessage.v ===== *)
(** * Scattered messages (agent.c, agent-priv.h)

    The application and the socket layer exchange messages as arrays of
    vectors; [n_buffers] is the number of vectors, or negative when the array
    ends with a NULL buffer.  This file models the vectors, the helpers of
    agent.c that walk over them (the sizes, the compaction into one buffer, the
    copy of a buffer into a message) and the iterator with which a receiver
    fills an array of messages.  The contents of a fresh [g_malloc] block are
    not specified: they are the class [GMalloc]. *)
From stdpp Require Import gmap.
From S2P Require Import Prelude CMem StunTypes Address IceTypes.
Local Open Scope Z_scope.

Record GVector : Set := mkVector { gv_buffer : option (list Z); gv_size : Z }.

Record NiceOutputMessage : Set := mkOutput { om_buffers : list GVector; om_n_buffers : Z }.

Record NiceInputMessage : Type := mkInput {
  im_buffers : list GVector;
  im_n_buffers : Z;
  im_from : option NiceAddress;   (** the address object, or NULL *)
  im_length : Z
}.

(** ** The allocator *)

Class GMalloc := g_malloc : Z -> list Z.
Class GMallocLaws `{GMalloc} : Prop := {
  g_malloc_length n : 0 <= n -> zlen (g_malloc n) = n;
  g_malloc_bytes n : bytes (g_malloc n)
}.

(** ** Walking over the vectors *)

(** The condition of the loops over the vectors of a message, at index [i];
    [bufs] is the array from that index on. *)
Definition has_vector (n_buffers i : Z) (bufs : list GVector) : res bool :=
  if 0 <=? n_buffers then Ok (i <? n_buffers)
  else match bufs with
       | [] => Fault OutOfBounds
       | v :: _ => Ok (if gv_buffer v is Some _ then true else false)
       end.

(** [memcpy] from and to a vector. *)
Definition vector_read (v : GVector) (off len : Z) : res (list Z) :=
  match gv_buffer v with
  | Some b => rd_bytes b off len
  | None => if len =? 0 then Ok [] else Fault OutOfBounds
  end.

Definition vector_write (v : GVector) (off : Z) (data : list Z) : res GVector :=
  match gv_buffer v with
  | Some b => b' ← wr_bytes b off data; Ok (mkVector (Some b') (gv_size v))
  | None => if zlen data =? 0 then Ok v else Fault OutOfBounds
  end.

Fixpoint size_loop (n_buffers i : Z) (bufs : list GVector) (message_len : Z) : res Z :=
  more ← has_vector n_buffers i bufs;
  if more : bool then
    match bufs with
    | [] => Fault OutOfBounds
    | v :: rest => size_loop n_buffers (i + 1) rest (u64 (message_len + gv_size v))
    end
  else Ok message_len.

Definition output_message_get_size (message : NiceOutputMessage) : res Z :=
  size_loop (om_n_buffers message) 0 (om_buffers message) 0.

Definition input_message_get_size (message : NiceInputMessage) : res Z :=
  size_loop (im_n_buffers message) 0 (im_buffers message) 0.

Fixpoint compact_loop (n_buffers i : Z) (bufs : list GVector) (buffer_length offset : Z)
    (buffer : list Z) : res (list Z) :=
  more ← has_vector n_buffers i bufs;
  if more : bool then
    match bufs with
    | [] => Fault OutOfBounds
    | v :: rest =>
        let len := Z.min (buffer_length - offset) (gv_size v) in
        data ← vector_read v 0 len;
        buffer ← wr_bytes buffer offset data;
        compact_loop n_buffers (i + 1) rest buffer_length (offset + len) buffer
    end
  else Ok buffer.

(** What [sendmsg] reads from the vectors: their bytes, in order. *)
Fixpoint gather_loop (n_buffers i : Z) (bufs : list GVector) : res (list Z) :=
  more ← has_vector n_buffers i bufs;
  if more : bool then
    match bufs with
    | [] => Fault OutOfBounds
    | v :: rest =>
        data ← vector_read v 0 (gv_size v);
        others ← gather_loop n_buffers (i + 1) rest;
        Ok (data ++ others)
    end
  else Ok [].

Section malloc.
Context {M : GMalloc}.

Definition compact_message (message : NiceOutputMessage) (buffer_length : Z) : res (list Z) :=
  compact_loop (om_n_buffers message) 0 (om_buffers message) buffer_length 0
    (g_malloc buffer_length).

(** Result: the buffer and its length. *)
Definition compact_input_message (message : NiceInputMessage) : res (list Z * Z) :=
  let buffer_length := im_length message in
  buffer ← compact_message (mkOutput (im_buffers message) (im_n_buffers message)) buffer_length;
  Ok (buffer, buffer_length).

Definition compact_output_message (message : NiceOutputMessage) : res (list Z * Z) :=
  buffer_length ← output_message_get_size message;
  buffer ← compact_message message buffer_length;
  Ok (buffer, buffer_length).
End malloc.

(** The copy loop: the vectors already passed are rebuilt around the rest. *)
Fixpoint memcpy_loop (n_buffers i : Z) (bufs : list GVector) (buffer : list Z)
    (buffer_length length : Z) : res (list GVector * Z) :=
  if 0 <? buffer_length then
    more ← has_vector n_buffers i bufs;
    if more : bool then
      match bufs with
      | [] => Fault OutOfBounds
      | v :: rest =>
          let len := Z.min (gv_size v) buffer_length in
          data ← rd_bytes buffer 0 len;
          v ← vector_write v 0 data;
          '(rest, length) ← memcpy_loop n_buffers (i + 1) rest
             (drop (Z.to_nat len) buffer) (buffer_length - len) (length + len);
          Ok (v :: rest, length)
      end
    else Ok (bufs, length)
  else Ok (bufs, length).

(** Returns the number of bytes copied, and the message. *)
Definition memcpy_buffer_to_input_message (message : NiceInputMessage) (buffer : list Z)
    (buffer_length : Z) : res (Z * NiceInputMessage) :=
  '(bufs, length) ← memcpy_loop (im_n_buffers message) 0 (im_buffers message) buffer
     buffer_length 0;
  Ok (length, mkInput bufs (im_n_buffers message) (im_from message) length).

(** ** The iterator over an array of messages *)

Record NiceInputMessageIter : Set := mkIter {
  it_message : Z; it_buffer : Z; it_offset : Z
}.

Definition nice_input_message_iter_reset : NiceInputMessageIter := mkIter 0 0 0.

Definition nice_input_message_iter_is_at_end (iter : NiceInputMessageIter) (n_messages : Z) : bool :=
  (it_message iter =? n_messages) && (it_buffer iter =? 0) && (it_offset iter =? 0).

Definition nice_input_message_iter_get_n_valid_messages (iter : NiceInputMessageIter) : Z :=
  if (it_buffer iter =? 0) && (it_offset iter =? 0) then it_message iter
  else u32 (it_message iter + 1).

Definition nice_input_message_iter_compare (a b : NiceInputMessageIter) : bool :=
  (it_message a =? it_message b) && (it_buffer a =? it_buffer b) && (it_offset a =? it_offset b).

Definition message_at (messages : list NiceInputMessage) (i : Z) : res NiceInputMessage :=
  match messages !! Z.to_nat i with
  | Some m => if 0 <=? i then Ok m else Fault OutOfBounds
  | None => Fault OutOfBounds
  end.

Definition nice_input_message_iter_get_message_capacity (iter : NiceInputMessageIter)
    (messages : list NiceInputMessage) (n_messages : Z) : res Z :=
  if it_message iter =? n_messages then Ok 0 else
  message ← message_at messages (it_message iter);
  total ← size_loop (im_n_buffers message) (it_buffer iter)
            (drop (Z.to_nat (it_buffer iter)) (im_buffers message)) 0;
  Ok (u64 (total - it_offset iter)).

(** The loop of [append_buffer_to_input_messages]; [bufs] is the array from
    [iter->buffer] on.  Result: the rest of the array, the message length, the
    iterator's buffer and offset, and [buffer_offset]. *)
Fixpoint append_loop (n_buffers : Z) (bufs : list GVector) (length buffer_i offset : Z)
    (buffer : list Z) (buffer_length buffer_offset : Z)
    : res (list GVector * Z * Z * Z * Z) :=
  more ← has_vector n_buffers buffer_i bufs;
  if more : bool then
    match bufs with
    | [] => Fault OutOfBounds
    | v :: rest =>
        let len := Z.min (buffer_length - buffer_offset) (u64 (gv_size v - offset)) in
        data ← rd_bytes buffer buffer_offset len;
        v ← vector_write v offset data;
        let length := length + len in
        let offset := offset + len in
        let buffer_offset := buffer_offset + len in
        if buffer_offset =? buffer_length then
          Ok (v :: rest, length, buffer_i, offset, buffer_offset)
        else
          '(rest, length, buffer_i, offset, buffer_offset) ←
             append_loop n_buffers rest length (buffer_i + 1) 0 buffer buffer_length buffer_offset;
          Ok (v :: rest, length, buffer_i, offset, buffer_offset)
    end
  else Ok (bufs, length, buffer_i, offset, buffer_offset).

(** Result: the number of bytes copied, the messages and the iterator. *)
Definition append_buffer_to_input_messages (bytestream_tcp : bool)
    (messages : list NiceInputMessage) (n_messages : Z) (iter : NiceInputMessageIter)
    (buffer : list Z) (buffer_length : Z)
    : res (Z * list NiceInputMessage * NiceInputMessageIter) :=
  message ← message_at messages (it_message iter);
  let length := if (it_buffer iter =? 0) && (it_offset iter =? 0) then 0 else im_length message in
  '(bufs, length, buffer_i, offset, buffer_offset) ←
     append_loop (im_n_buffers message) (drop (Z.to_nat (it_buffer iter)) (im_buffers message))
       length (it_buffer iter) (it_offset iter) buffer buffer_length 0;
  let message := mkInput (take (Z.to_nat (it_buffer iter)) (im_buffers message) ++ bufs)
                   (im_n_buffers message) (im_from message) length in
  let messages := <[Z.to_nat (it_message iter) := message]> messages in
  let iter := mkIter (it_message iter) buffer_i offset in
  capacity ← (if bytestream_tcp
              then nice_input_message_iter_get_message_capacity iter messages n_messages
              else Ok 0);
  let iter := if negb bytestream_tcp || (capacity =? 0)
              then mkIter (it_message iter + 1) 0 0 else iter in
  Ok (buffer_offset, messages, iter).

(** ** The bytes of a message *)

(** [vectors n i bufs bss]: the loops over the array [bufs], at index [i],
    visit vectors that hold the bytes [bss]. *)
Inductive vectors (n_buffers : Z) : Z -> list GVector -> list (list Z) -> Prop :=
  | vectors_end i bufs :
      has_vector n_buffers i bufs = Ok false -> vectors n_buffers i bufs []
  | vectors_next i v rest b bs bss :
      has_vector n_buffers i (v :: rest) = Ok true ->
      gv_buffer v = Some (b ++ bs) -> gv_size v = zlen b ->
      vectors n_buffers (i + 1) rest bss ->
      vectors n_buffers i (v :: rest) (b :: bss).

(** The output message holds the bytes [data]. *)
Definition holds (message : NiceOutputMessage) (data : list Z) : Prop :=
  exists bss, vectors (om_n_buffers message) 0 (om_buffers message) bss /\
    data = concat bss /\ zlen data < 2 ^ 64.

(** A message of one vector. *)
Definition one_vector (b : list Z) : NiceOutputMessage := mkOutput [mkVector (Some b) (zlen b)] 1.

Lemma holds_one_vector b : zlen b < 2 ^ 64 -> holds (one_vector b) b.
Proof.
  intros H. exists [b]. split; [|simpl; rewrite app_nil_r; auto].
  apply (vectors_next 1 0 _ [] b []); simpl; try rewrite app_nil_r; auto.
  by apply vectors_end.
Qed.

Lemma size_loop_vectors n i bufs bss acc :
  vectors n i bufs bss -> 0 <= acc -> acc + zlen (concat bss) < 2 ^ 64 ->
  size_loop n i bufs acc = Ok (acc + zlen (concat bss)).
Proof.
  intros Hv. revert acc. induction Hv as [i bufs H|i v rest b bs bss H Hb Hs Hv IH];
    intros acc Ha Hl; simpl concat in *.
  - destruct bufs; simpl; rewrite H; simpl; f_equal; zlia.
  - simpl. rewrite H. simpl. rewrite Hs. rewrite zlen_app in *.
    zlen_pos. rewrite u64_small by lia. rewrite IH by lia. f_equal. lia.
Qed.

Lemma output_message_get_size_holds m data :
  holds m data -> output_message_get_size m = Ok (zlen data).
Proof.
  intros (bss & Hv & -> & Hl). unfold output_message_get_size.
  rewrite (size_loop_vectors _ _ _ bss) by (auto; lia). done.
Qed.

Lemma vector_read_app v b bs off len :
  gv_buffer v = Some (b ++ bs) -> 0 <= off -> 0 <= len -> off + len <= zlen b ->
  vector_read v off len = Ok (slice b off len).
Proof.
  intros Hb ???. unfold vector_read. rewrite Hb.
  rewrite rd_bytes_Ok by zlia. by rewrite slice_app_l.
Qed.

Lemma gather_loop_vectors n i bufs bss :
  vectors n i bufs bss -> gather_loop n i bufs = Ok (concat bss).
Proof.
  induction 1 as [i bufs H|i v rest b bs bss H Hb Hs Hv IH].
  - destruct bufs; simpl; by rewrite H.
  - cbn [gather_loop]. rewrite H. cbn [mbind res_bind]. rewrite Hs.
    rewrite (vector_read_app v b bs) by (auto; zlia). cbn [mbind res_bind].
    rewrite IH, slice_all. done.
Qed.

Lemma compact_loop_vectors n i bufs bss len off buffer pre :
  vectors n i bufs bss -> zlen buffer = len -> off = zlen pre ->
  take (length pre) buffer = pre -> zlen pre <= len <= zlen pre + zlen (concat bss) ->
  compact_loop n i bufs len off buffer = Ok (pre ++ take (Z.to_nat (len - zlen pre)) (concat bss)).
Proof.
  intros Hv. revert off buffer pre.
  induction Hv as [i bufs H|i v rest b bs bss H Hb Hs Hv IH];
    intros off buffer pre Hl -> Ht Hc; simpl concat in *.
  - assert (buffer = pre) as ->.
    { rewrite firstn_all2 in Ht; [done|]. unfold zlen in *. simpl in *. lia. }
    rewrite take_nil, app_nil_r. destruct bufs; simpl; by rewrite H.
  - cbn [compact_loop]. rewrite H. cbn [mbind res_bind]. rewrite Hs.
    rewrite zlen_app in Hc. zlen_pos. set (k := Z.min (len - zlen pre) (zlen b)).
    assert (Hk : zlen (slice b 0 k) = k) by (apply zlen_slice; lia).
    rewrite (vector_read_app v b bs) by (auto; lia). cbn [mbind res_bind].
    rewrite wr_bytes_Ok by lia. cbn [mbind res_bind].
    rewrite (IH _ _ (pre ++ slice b 0 k)).
    + rewrite zlen_app, Hk, <- app_assoc. f_equal. f_equal. unfold slice.
      change (drop (Z.to_nat 0) b) with b.
      assert (Et : take (Z.to_nat k) b = take (Z.to_nat (len - zlen pre)) b).
      { destruct (Z.min_spec (len - zlen pre) (zlen b)) as [[? E]|[? E]]; unfold k; rewrite E.
        - done.
        - rewrite to_nat_zlen, firstn_all, firstn_all2; [done|]. unfold zlen in *. lia. }
      rewrite Et, take_app. f_equal. f_equal. unfold k, zlen in *. lia.
    + rewrite zlen_splice; lia.
    + rewrite zlen_app. lia.
    + unfold splice. rewrite to_nat_zlen, Ht. by rewrite app_assoc, take_app_length.
    + rewrite zlen_app. lia.
Qed.

Section compact_lemmas.
Context {M : GMalloc} {ML : GMallocLaws}.

(** Compacting an output message gives its bytes. *)
Lemma compact_output_message_holds m data :
  holds m data -> compact_output_message m = Ok (data, zlen data).
Proof.
  intros Hh. unfold compact_output_message.
  rewrite (output_message_get_size_holds m data) by done. cbn [mbind res_bind].
  destruct Hh as (bss & Hv & -> & Hl). unfold compact_message.
  rewrite (compact_loop_vectors _ _ _ bss _ _ _ []); auto.
  - simpl. rewrite zlen_nil, Z.sub_0_r, to_nat_zlen, firstn_all. done.
  - apply g_malloc_length. zlia.
  - zlia.
Qed.

(** Compacting an input message gives the first [length] bytes of its
    vectors. *)
Lemma compact_input_message_vectors m bss :
  vectors (im_n_buffers m) 0 (im_buffers m) bss -> 0 <= im_length m <= zlen (concat bss) ->
  compact_input_message m = Ok (take (Z.to_nat (im_length m)) (concat bss), im_length m).
Proof.
  intros Hv Hl. unfold compact_input_message, compact_message. simpl.
  rewrite (compact_loop_vectors _ _ _ bss _ _ _ []); auto.
  - simpl. rewrite zlen_nil, Z.sub_0_r. done.
  - apply g_malloc_length. lia.
Qed.
End compact_lemmas.

(** The copy of a buffer into a message with enough room fills the vectors in
    order: read back as an output message cut at the copied length, they give
    the buffer. *)
Lemma vector_write_app v b bs data :
  gv_buffer v = Some (b ++ bs) -> zlen data <= zlen b ->
  vector_write v 0 data = Ok (mkVector (Some (data ++ drop (length data) (b ++ bs))) (gv_size v)).
Proof.
  intros Hb ?. unfold vector_write. rewrite Hb, wr_bytes_Ok by zlia. cbn [mbind res_bind].
  unfold splice. simpl take. rewrite Z.add_0_l, to_nat_zlen. done.
Qed.

Lemma has_vector_write n i v v' rest rest' :
  (gv_buffer v' = None <-> gv_buffer v = None) ->
  has_vector n i (v' :: rest') = has_vector n i (v :: rest).
Proof.
  intros H. unfold has_vector. destruct (0 <=? n); [done|].
  destruct (gv_buffer v'), (gv_buffer v); try done.
  - destruct H as [_ H]. by specialize (H eq_refl).
  - destruct H as [H _]. by specialize (H eq_refl).
Qed.

Lemma memcpy_loop_vectors n i bufs bss data acc :
  vectors n i bufs bss -> zlen data <= zlen (concat bss) ->
  exists bufs' bss', memcpy_loop n i bufs data (zlen data) acc = Ok (bufs', acc + zlen data) /\
    vectors n i bufs' bss' /\ zlen (concat bss') = zlen (concat bss) /\
    take (length data) (concat bss') = data.
Proof.
  intros Hv. revert data acc.
  induction Hv as [i bufs H|i v rest b bs bss H Hb Hs Hv IH]; intros data acc Hl.
  - simpl in Hl. assert (data = []) as -> by (apply zlen_0_nil; zlia).
    exists bufs, []. rewrite Z.add_0_r. split; [by destruct bufs|]. split; [|done]. by constructor.
  - simpl concat in *. rewrite zlen_app in Hl. zlen_pos. cbn [memcpy_loop].
    destruct (Z.ltb_spec 0 (zlen data)) as [Hp|Hp].
    + rewrite H. cbn [mbind res_bind]. rewrite Hs.
      set (k := Z.min (zlen b) (zlen data)).
      rewrite rd_bytes_Ok by lia. cbn [mbind res_bind].
      assert (Hk : zlen (slice data 0 k) = k) by (apply zlen_slice; lia).
      rewrite (vector_write_app v b bs) by (auto; lia). cbn [mbind res_bind].
      assert (Hd : zlen data - k = zlen (drop (Z.to_nat k) data)) by (rewrite zlen_drop; lia).
      rewrite Hd. destruct (IH (drop (Z.to_nat k) data) (acc + k)) as (bufs' & bss' & E & Hv' & Hc & Ht).
      { lia. }
      rewrite E. cbn [mbind res_bind].
      set (d := slice data 0 k) in *.
      exists (mkVector (Some (d ++ drop (length d) (b ++ bs))) (zlen b) :: bufs'),
             ((d ++ drop (length d) b) :: bss').
      assert (Hdl : length d = Z.to_nat k) by (unfold zlen in Hk; lia).
      assert (Hdb : (length d <= length b)%nat) by (unfold zlen in *; lia).
      split; [rewrite Hs; f_equal; f_equal; lia|]. split; [|split].
      * eapply vectors_next with (bs := bs); try done.
        -- erewrite has_vector_write; [done|]. rewrite Hb. done.
        -- simpl. rewrite drop_app_le by done. by rewrite app_assoc.
        -- simpl. rewrite zlen_app. unfold zlen. rewrite length_drop. lia.
      * simpl concat. rewrite !zlen_app, Hc. unfold zlen. rewrite length_drop. lia.
      * simpl concat. rewrite <- app_assoc, take_app, Hdl.
        rewrite (take_app (drop _ b)), length_drop.
        assert (Ek : d = take (Z.to_nat k) data) by done.
        destruct (Z.min_spec (zlen b) (zlen data)) as [[? Ez]|[? Ez]].
        -- assert (Hkb : Z.to_nat k = length b) by (unfold k; rewrite Ez; apply to_nat_zlen).
           rewrite Hkb, Nat.sub_diag. rewrite drop_ge by done. rewrite take_nil, Nat.sub_0_r. simpl.
           rewrite length_drop, Hkb in Ht. rewrite Ht, Ek, Hkb.
           rewrite take_ge; [apply take_drop|]. rewrite length_take. lia.
        -- assert (Hkd : Z.to_nat k = length data) by (unfold k; rewrite Ez; apply to_nat_zlen).
           rewrite Hkd, Nat.sub_diag. simpl. rewrite app_nil_r, Ek, Hkd, firstn_all.
           rewrite firstn_all. done.
    + assert (data = []) as -> by (apply zlen_0_nil; lia).
      exists (v :: rest), (b :: bss). rewrite Z.add_0_r. split; [done|].
      split; [by eapply vectors_next|done].
Qed.

(** ** Copying into a message and reading it back *)
Lemma memcpy_buffer_to_input_message_vectors `{GMallocLaws} m bss data :
  vectors (im_n_buffers m) 0 (im_buffers m) bss -> zlen data <= zlen (concat bss) ->
  exists m', memcpy_buffer_to_input_message m data (zlen data) = Ok (zlen data, m') /\
    im_length m' = zlen data /\ compact_input_message m' = Ok (data, zlen data).
Proof.
  intros Hv Hl. unfold memcpy_buffer_to_input_message.
  destruct (memcpy_loop_vectors _ _ _ _ data 0 Hv Hl) as (bufs' & bss' & E & Hv' & Hc & Ht).
  rewrite E. cbn [mbind res_bind]. eexists. split; [done|]. split; [done|].
  rewrite (compact_input_message_vectors _ bss'); simpl; auto.
  - rewrite Z.add_0_l, to_nat_zlen, Ht. done.
  - zlia.
Qed.
