(* ===== verification/NiceSock.v ===== *)
(** * The socket interface (socket.h, socket.c)

    A [NiceSocket] is a table of functions over a private state.  The class
    [NiceSocket] is that table (the functions that receive and send; [close]
    frees the object), with the wrappers of socket.c.  [StreamSocket] is what
    a socket layered over a byte stream (TURN over TCP, the proxies) relies on:
    reading gives the next bytes of the stream, sending appends to it. *)
From stdpp Require Import gmap.
From S2P Require Import Prelude CMem StunTypes Address IceTypes IoMessage.
Local Open Scope Z_scope.

Class NiceSocket (S : Type) := {
  nice_socket_recv_messages : S -> list NiceInputMessage -> res (Z * list NiceInputMessage * S);
  nice_socket_send_messages : S -> option NiceAddress -> list NiceOutputMessage -> res (Z * S);
  nice_socket_send_messages_reliable :
    S -> option NiceAddress -> list NiceOutputMessage -> res (Z * S);
  nice_socket_is_reliable : S -> bool;
  nice_socket_can_send : S -> option NiceAddress -> bool;
  (** whether a callback is set *)
  nice_socket_set_writable_callback : S -> bool -> S
}.

(** The contents of an automatic array of [n] bytes before it is written are
    not specified. *)
Class AutoArray := auto_array : Z -> list Z.
Class AutoArrayLaws `{AutoArray} : Prop :=
  auto_array_length n : 0 <= n -> zlen (auto_array n) = n.

(** ** Wrappers *)
Section wrappers.
Context {S : Type} {NS : NiceSocket S}.

(** Result: the return value, the buffer and the socket. *)
Definition nice_socket_recv (sock : S) (from : option NiceAddress) (len : Z) (buf : list Z)
    : res (Z * list NiceInputMessage * S) :=
  '(ret, messages, sock) ← nice_socket_recv_messages sock
     [mkInput [mkVector (Some buf) len] 1 from 0];
  if ret =? 1 then
    m ← message_at messages 0; Ok (im_length m, messages, sock)
  else Ok (ret, messages, sock).

Definition nice_socket_send (sock : S) (to : option NiceAddress) (len : Z) (buf : list Z)
    : res (Z * S) :=
  '(ret, sock) ← nice_socket_send_messages sock to [mkOutput [mkVector (Some buf) len] 1];
  Ok (if ret =? 1 then len else ret, sock).

Definition nice_socket_send_reliable (sock : S) (to : option NiceAddress) (len : Z) (buf : list Z)
    : res (Z * S) :=
  '(ret, sock) ← nice_socket_send_messages_reliable sock to [mkOutput [mkVector (Some buf) len] 1];
  Ok (if ret =? 1 then len else ret, sock).
End wrappers.

(** ** A socket over a byte stream *)

(** The answers to a read of at most [size] bytes into the buffer [b]. *)
Inductive stream_answer {S : Type} (unread : S -> list Z) (s : S) (b : list Z) (size : Z)
    : res (Z * list NiceInputMessage * S) -> Prop :=
  | answer_data d s' b' from :
      0 < zlen d <= size -> unread s = d ++ unread s' -> wr_bytes b 0 d = Ok b' ->
      stream_answer unread s b size
        (Ok (1, [mkInput [mkVector (Some b') size] 1 from (zlen d)], s'))
  | answer_overflow d s' :
      0 < zlen d <= size -> unread s = d ++ unread s' -> zlen b < zlen d ->
      stream_answer unread s b size (Fault OutOfBounds)
  | answer_blocked s' from :
      unread s' = unread s ->
      stream_answer unread s b size (Ok (0, [mkInput [mkVector (Some b) size] 1 from 0], s'))
  | answer_error s' from len :
      unread s' = unread s ->
      stream_answer unread s b size
        (Ok (-1, [mkInput [mkVector (Some b) size] 1 from len], s')).

Class StreamSocket (S : Type) `{NiceSocket S} := {
  ss_unread : S -> list Z;
  ss_recv s b size from : 0 <= size < 2 ^ 64 ->
    stream_answer ss_unread s b size
      (nice_socket_recv_messages s [mkInput [mkVector (Some b) size] 1 from 0])
}.
