(* ===== verification/TcpSocket.v ===== *)
(** * The send queue and the TCP socket (socket.c, tcp-bsd.c)

    Bytes a TCP connection cannot take at once wait in a queue of
    [NiceSocketQueuedSend].  The GSocket underneath is a parameter: the class
    [GSocket] has its two operations on a vector of bytes, and [GSocketLaws]
    says what they promise in terms of the bytes the socket took so far
    ([gs_sent]) and the bytes it has still to deliver ([gs_unread]). *)
From stdpp Require Import gmap.
From S2P Require Import Prelude CMem StunTypes Address IceTypes IoMessage NiceSock.
Local Open Scope Z_scope.

(** ** GSocket *)

Inductive gio_error : Set :=
  | G_IO_ERROR_WOULD_BLOCK | G_IO_ERROR_NOT_CONNECTED | G_IO_ERROR_FAILED | G_IO_ERROR_OTHER.

#[global] Instance gio_error_eq_dec : EqDecision gio_error.
Proof. solve_decision. Defined.

Class GSocket (G : Type) := {
  (** the vectors of the message, concatenated: bytes taken, or an error *)
  g_socket_send_message : G -> list Z -> G * (gio_error + Z);
  (** room for that many bytes: the bytes received, or an error *)
  g_socket_receive_message : G -> Z -> G * (gio_error + list Z)
}.

Class GSocketLaws (G : Type) `{GSocket G} := {
  gs_sent : G -> list Z;
  gs_unread : G -> list Z;
  gs_send_ok g data g' n : g_socket_send_message g data = (g', inr n) ->
    0 <= n <= zlen data /\ gs_sent g' = gs_sent g ++ take (Z.to_nat n) data /\
    gs_unread g' = gs_unread g;
  gs_send_error g data g' e : g_socket_send_message g data = (g', inl e) ->
    gs_sent g' = gs_sent g /\ gs_unread g' = gs_unread g;
  gs_receive_ok g size g' d : g_socket_receive_message g size = (g', inr d) ->
    zlen d <= Z.max 0 size /\ gs_unread g = d ++ gs_unread g' /\ gs_sent g' = gs_sent g;
  gs_receive_error g size g' e : g_socket_receive_message g size = (g', inl e) ->
    gs_unread g' = gs_unread g /\ gs_sent g' = gs_sent g
}.

(** ** The send queue (socket.c) *)

Record NiceSocketQueuedSend : Type := mkQueued {
  tbs_buf : list Z; tbs_length : Z; tbs_to : NiceAddress
}.

Section send_queue.
Context {M : GMalloc}.

(** The inner loop of [nice_socket_queue_send]: [remaining] is
    [message_len_remaining].  Result: the buffer and [offset]. *)
Fixpoint queue_copy_loop (n_buffers i : Z) (bufs : list GVector) (remaining offset : Z)
    (buf : list Z) : res (list Z * Z) :=
  more ← has_vector n_buffers i bufs;
  if more : bool then
    match bufs with
    | [] => Fault OutOfBounds
    | v :: rest =>
        let len := Z.min (gv_size v) remaining in
        data ← vector_read v 0 len;
        buf ← wr_bytes buf offset data;
        queue_copy_loop n_buffers (i + 1) rest (remaining - len) (offset + len) buf
    end
  else Ok (buf, offset).

Fixpoint nice_socket_queue_send (send_queue : list NiceSocketQueuedSend) (to : option NiceAddress)
    (messages : list NiceOutputMessage) : res (list NiceSocketQueuedSend) :=
  match messages with
  | [] => Ok send_queue
  | message :: messages =>
      message_len_remaining ← output_message_get_size message;
      if message_len_remaining =? 0 then nice_socket_queue_send send_queue to messages else
      '(buf, offset) ← queue_copy_loop (om_n_buffers message) 0 (om_buffers message)
         message_len_remaining 0 (g_malloc message_len_remaining);
      _ ← assert_ok (offset =? message_len_remaining);
      nice_socket_queue_send
        (send_queue ++ [mkQueued buf message_len_remaining (default nice_address_init to)])
        to messages
  end.

(** The loop that moves the rest of a message into the queued buffer. *)
Fixpoint queue_rest_loop (n_buffers j : Z) (bufs : list GVector) (message_offset length offset : Z)
    (buf : list Z) : res (list Z) :=
  more ← has_vector n_buffers j bufs;
  if more : bool then
    match bufs with
    | [] => Fault OutOfBounds
    | v :: rest =>
        if gv_size v <=? message_offset then
          queue_rest_loop n_buffers (j + 1) rest (message_offset - gv_size v) length offset buf
        else
          let len := Z.min (length - offset) (gv_size v - message_offset) in
          data ← vector_read v message_offset len;
          buf ← wr_bytes buf offset data;
          let offset := offset + len in
          let message_offset := if len <=? message_offset then message_offset - len else 0 in
          queue_rest_loop n_buffers (j + 1) rest message_offset length offset buf
    end
  else Ok buf.

(** [io_source] is [Some b] when the caller passes a socket, a context, a
    callback and a source pointer, [b] saying whether the source exists; the
    result has the queue and the pointer after the call. *)
Definition nice_socket_queue_send_with_callback (send_queue : list NiceSocketQueuedSend)
    (message : NiceOutputMessage) (message_offset message_len : Z) (head : bool)
    (io_source : option bool) : res (list NiceSocketQueuedSend * option bool) :=
  if message_len <=? message_offset then Ok (send_queue, io_source) else
  let length := message_len - message_offset in
  buf ← queue_rest_loop (om_n_buffers message) 0 (om_buffers message) message_offset length 0
          (g_malloc length);
  let tbs := mkQueued buf length nice_address_init in
  Ok (if head then tbs :: send_queue else send_queue ++ [tbs],
      match io_source with Some _ => Some true | None => None end).

Definition nice_socket_flush_send_queue {S : Type} {NS : NiceSocket S} (base_socket : S)
    (send_queue : list NiceSocketQueuedSend) : res S :=
  foldl (fun base tbs =>
    base ← base;
    let to := if nice_address_is_valid (tbs_to tbs) then Some (tbs_to tbs) else None in
    '(_, base) ← nice_socket_send_reliable base to (tbs_length tbs) (tbs_buf tbs);
    Ok base) (Ok base_socket) send_queue.

Section gsocket.
Context {G : Type} {GS : GSocket G}.

(** Result: whether the queue was emptied, the socket and the queue. *)
Fixpoint nice_socket_flush_send_queue_to_socket (gsock : G)
    (send_queue : list NiceSocketQueuedSend) : res (bool * G * list NiceSocketQueuedSend) :=
  match send_queue with
  | [] => Ok (true, gsock, [])
  | tbs :: rest =>
      data ← rd_bytes (tbs_buf tbs) 0 (tbs_length tbs);
      let '(gsock, ret) := g_socket_send_message gsock data in
      match ret with
      | inl G_IO_ERROR_WOULD_BLOCK =>
          '(queue, _) ← nice_socket_queue_send_with_callback rest
             (mkOutput [mkVector (Some (tbs_buf tbs)) (tbs_length tbs)] 1)
             0 (tbs_length tbs) true None;
          Ok (false, gsock, queue)
      | inl _ => nice_socket_flush_send_queue_to_socket gsock rest
      | inr ret =>
          let ret := s32 ret in
          if ret <? s32 (tbs_length tbs) then
            let size := tbs_length tbs - ret in
            '(queue, _) ← nice_socket_queue_send_with_callback rest
               (mkOutput [mkVector (Some (drop (Z.to_nat ret) (tbs_buf tbs))) size] 1)
               0 size true None;
            Ok (false, gsock, queue)
          else nice_socket_flush_send_queue_to_socket gsock rest
      end
  end.

(** ** The TCP socket (tcp-bsd.c) *)

Record TcpPriv : Type := mkTcp {
  tcp_fileno : G;
  tcp_remote_addr : NiceAddress;
  tcp_send_queue : list NiceSocketQueuedSend;
  tcp_io_source : bool;      (** the source that waits for the socket to be writable exists *)
  tcp_error : bool;
  tcp_reliable : bool;
  tcp_writable_cb : bool     (** a writable callback is set *)
}.

Definition nice_tcp_bsd_socket_new_from_gsock (gsock : G) (remote_addr : NiceAddress)
    (reliable : bool) : TcpPriv :=
  mkTcp gsock remote_addr [] false false reliable false.

(** The receive loop from index [i] on. *)
Fixpoint tcp_recv_loop (p : TcpPriv) (i : Z) (messages : list NiceInputMessage)
    : res (Z * list NiceInputMessage * TcpPriv) :=
  match messages with
  | [] => Ok (i, [], p)
  | m :: rest =>
      size ← input_message_get_size m;
      let '(g, answer) := g_socket_receive_message (tcp_fileno p) size in
      let p := mkTcp g (tcp_remote_addr p) (tcp_send_queue p) (tcp_io_source p) (tcp_error p)
                 (tcp_reliable p) (tcp_writable_cb p) in
      match answer with
      | inl e =>
          let m := mkInput (im_buffers m) (im_n_buffers m) (im_from m) 0 in
          Ok (if decide (e = G_IO_ERROR_WOULD_BLOCK) then 0 else -1, m :: rest, p)
      | inr data =>
          '(bufs, length) ← memcpy_loop (im_n_buffers m) 0 (im_buffers m) data (zlen data) 0;
          if zlen data =? 0 then
            let p := mkTcp g (tcp_remote_addr p) (tcp_send_queue p) (tcp_io_source p) true
                       (tcp_reliable p) (tcp_writable_cb p) in
            Ok (if i =? 0 then -1 else i, mkInput bufs (im_n_buffers m) (im_from m) 0 :: rest, p)
          else
            let from := match im_from m with Some _ => Some (tcp_remote_addr p) | None => None end in
            '(ret, rest, p) ← tcp_recv_loop p (i + 1) rest;
            Ok (ret, mkInput bufs (im_n_buffers m) from length :: rest, p)
      end
  end.

Definition tcp_socket_recv_messages (p : TcpPriv) (recv_messages : list NiceInputMessage)
    : res (Z * list NiceInputMessage * TcpPriv) :=
  if tcp_error p then Ok (-1, recv_messages, p) else
  tcp_recv_loop p 0 recv_messages.

Definition tcp_queue (p : TcpPriv) (g : G) (message : NiceOutputMessage)
    (message_offset message_len : Z) (head : bool) : res TcpPriv :=
  '(queue, source) ← nice_socket_queue_send_with_callback (tcp_send_queue p) message
     message_offset message_len head (Some (tcp_io_source p));
  Ok (mkTcp g (tcp_remote_addr p) queue (default false source) (tcp_error p) (tcp_reliable p)
        (tcp_writable_cb p)).

Definition tcp_socket_send_message (p : TcpPriv) (message : NiceOutputMessage) (reliable : bool)
    : res (Z * TcpPriv) :=
  if tcp_error p then Ok (-1, p) else
  message_len ← output_message_get_size message;
  match tcp_send_queue p with
  | [] =>
      data ← gather_loop (om_n_buffers message) 0 (om_buffers message);
      let '(g, answer) := g_socket_send_message (tcp_fileno p) data in
      let sent := mkTcp g (tcp_remote_addr p) [] (tcp_io_source p) (tcp_error p)
                    (tcp_reliable p) (tcp_writable_cb p) in
      match answer with
      | inl (G_IO_ERROR_WOULD_BLOCK | G_IO_ERROR_NOT_CONNECTED | G_IO_ERROR_FAILED) =>
          p ← tcp_queue p g message 0 message_len false; Ok (message_len, p)
      | inl G_IO_ERROR_OTHER => Ok (-1, sent)
      | inr ret =>
          if ret <? message_len then
            p ← tcp_queue p g message ret message_len true; Ok (message_len, p)
          else Ok (ret, sent)
      end
  | _ :: _ =>
      if reliable then
        p ← tcp_queue p (tcp_fileno p) message 0 message_len false; Ok (message_len, p)
      else Ok (0, p)
  end.

Fixpoint tcp_send_loop (p : TcpPriv) (i : Z) (messages : list NiceOutputMessage)
    : res (Z * TcpPriv) :=
  match messages with
  | [] => Ok (i, p)
  | message :: rest =>
      '(len, p) ← tcp_socket_send_message p message false;
      if len <? 0 then Ok (if 0 <? i then i else len, p)
      else if len =? 0 then Ok (i, p)
      else tcp_send_loop p (i + 1) rest
  end.

Definition tcp_socket_send_messages (p : TcpPriv) (messages : list NiceOutputMessage)
    : res (Z * TcpPriv) := tcp_send_loop p 0 messages.

Fixpoint tcp_send_reliable_loop (p : TcpPriv) (i : Z) (messages : list NiceOutputMessage)
    : res (Z * TcpPriv) :=
  match messages with
  | [] => Ok (i, p)
  | message :: rest =>
      '(len, p) ← tcp_socket_send_message p message true;
      if len <? 0 then Ok (-1, p) else tcp_send_reliable_loop p (i + 1) rest
  end.

Definition tcp_socket_send_messages_reliable (p : TcpPriv) (messages : list NiceOutputMessage)
    : res (Z * TcpPriv) := tcp_send_reliable_loop p 0 messages.

Definition tcp_socket_is_reliable (p : TcpPriv) : bool := tcp_reliable p.
Definition tcp_socket_can_send (p : TcpPriv) : bool :=
  match tcp_send_queue p with [] => true | _ :: _ => false end.
Definition tcp_socket_set_writable_callback (p : TcpPriv) (callback : bool) : TcpPriv :=
  mkTcp (tcp_fileno p) (tcp_remote_addr p) (tcp_send_queue p) (tcp_io_source p) (tcp_error p)
    (tcp_reliable p) callback.

(** [destroyed]: the source was destroyed; [hup]: the condition has G_IO_HUP.
    Result: whether the source stays, whether the writable callback runs, and
    the socket. *)
Definition tcp_socket_send_more (p : TcpPriv) (destroyed hup : bool) : res (bool * bool * TcpPriv) :=
  if destroyed then Ok (false, false, p) else
  '(emptied, g, queue) ← (if hup then Ok (true, tcp_fileno p, tcp_send_queue p)
                          else nice_socket_flush_send_queue_to_socket (tcp_fileno p) (tcp_send_queue p));
  let p := mkTcp g (tcp_remote_addr p) queue (if emptied : bool then false else tcp_io_source p)
             (tcp_error p) (tcp_reliable p) (tcp_writable_cb p) in
  if emptied then Ok (false, tcp_writable_cb p, p) else Ok (true, false, p).
End gsocket.
End send_queue.
Arguments TcpPriv G : clear implicits.

(** ** The TCP socket as a stream socket *)

#[global] Instance tcp_nice_socket {M : GMalloc} {G : Type} {GS : GSocket G} : NiceSocket (TcpPriv G) := {
  nice_socket_recv_messages := tcp_socket_recv_messages;
  nice_socket_send_messages p _ := tcp_socket_send_messages p;
  nice_socket_send_messages_reliable p _ := tcp_socket_send_messages_reliable p;
  nice_socket_is_reliable := tcp_socket_is_reliable;
  nice_socket_can_send p _ := tcp_socket_can_send p;
  nice_socket_set_writable_callback := tcp_socket_set_writable_callback
}.

Lemma memcpy_loop_one b size d :
  zlen d <= size ->
  memcpy_loop 1 0 [mkVector (Some b) size] d (zlen d) 0 =
    if 0 <? zlen d then b' ← wr_bytes b 0 d; Ok ([mkVector (Some b') size], zlen d)
    else Ok ([mkVector (Some b) size], 0).
Proof.
  intros Hs. cbn [memcpy_loop]. destruct (Z.ltb_spec 0 (zlen d)) as [Hp|Hp].
  - cbn [has_vector mbind res_bind gv_size]. rewrite Z.min_r by lia.
    rewrite rd_bytes_Ok by lia. cbn [mbind res_bind]. rewrite slice_all.
    unfold vector_write. cbn [gv_buffer]. destruct (wr_bytes b 0 d) as [b'|]; [|done].
    cbn [mbind res_bind]. rewrite Z.sub_diag. done.
  - done.
Qed.

Lemma input_message_get_size_one v from len :
  0 <= gv_size v < 2 ^ 64 -> input_message_get_size (mkInput [v] 1 from len) = Ok (gv_size v).
Proof. intros. unfold input_message_get_size. simpl. by rewrite u64_small by lia. Qed.

#[global] Instance tcp_stream_socket {M : GMalloc} {G : Type} {GS : GSocket G} {GL : GSocketLaws G} :
  StreamSocket (TcpPriv G).
Proof.
  refine {| ss_unread p := gs_unread (tcp_fileno p) |}.
  intros p b size from Hs. simpl. unfold tcp_socket_recv_messages.
  destruct (tcp_error p); [by apply answer_error|]. cbn [tcp_recv_loop].
  rewrite input_message_get_size_one by (simpl; lia). cbn [gv_size]. cbn [mbind res_bind].
  destruct (g_socket_receive_message (tcp_fileno p) size) as [g [e|d]] eqn:E.
  - apply gs_receive_error in E as [E _].
    destruct (decide _); [by apply answer_blocked|by apply answer_error].
  - apply gs_receive_ok in E as (Hd & E & _). cbn [im_n_buffers im_buffers].
    rewrite memcpy_loop_one by lia.
    destruct (Z.ltb_spec 0 (zlen d)) as [Hp|Hp].
    + destruct (wr_bytes b 0 d) as [b'|f] eqn:Hw; cbn.
      * destruct (Z.eqb_spec (zlen d) 0); [lia|]. cbn. by eapply answer_data; [lia|..].
      * unfold wr_bytes in Hw. destruct (_ && _) eqn:Hb; [done|]. injection Hw as <-.
        eapply (answer_overflow _ _ _ _ d (mkTcp g (tcp_remote_addr p) [] false false false false));
          [lia|done|]. apply andb_false_iff in Hb as [Hb|Hb]; bool_prop; lia.
    + cbn. destruct (Z.eqb_spec (zlen d) 0) as [Hz|]; [|zlia].
      apply zlen_0_nil in Hz as ->. by apply answer_error.
Defined.
