(* ===== verification/TcpSocketProps.v ===== *)
(** * The byte stream of a TCP socket

    What leaves a TCP socket is what was given to it, in order: the bytes the
    kernel took followed by the send queue are the accepted messages, whatever
    the kernel takes of each attempt, provided that a message is never cut
    behind the middle of a vector with other vectors after it.  A cut behind
    the middle loses bytes and sends uninitialised ones, and a read of several
    messages that blocks half-way loses the first ones: two theorems show it. *)
From stdpp Require Import gmap.
From S2P Require Import Prelude CMem StunTypes Address IceTypes IoMessage NiceSock TcpSocket.
Local Open Scope Z_scope.

(** ** Cuts of a message *)

(** The cut [off] leaves [nice_socket_queue_send_with_callback] at a vector
    boundary: it is in the first half of its vector, or nothing follows. *)
Fixpoint clean_cut (bss : list (list Z)) (off : Z) : bool :=
  match bss with
  | [] => true
  | b :: rest =>
      if zlen b <=? off then clean_cut rest (off - zlen b)
      else (2 * off <=? zlen b) || (zlen (concat rest) =? 0)
  end.

(** A message with the bytes [data] every cut of which is clean. *)
Definition whole (m : NiceOutputMessage) (data : list Z) : Prop :=
  exists bss, vectors (om_n_buffers m) 0 (om_buffers m) bss /\ data = concat bss /\
    zlen data < 2 ^ 31 /\ forall off, 0 <= off < zlen data -> clean_cut bss off = true.

Lemma whole_one_vector b : zlen b < 2 ^ 31 -> whole (one_vector b) b.
Proof.
  intros H. exists [b]. split; [|split; [simpl; by rewrite app_nil_r|]].
  - apply (vectors_next 1 0 _ [] b []); simpl; try rewrite app_nil_r; auto. by apply vectors_end.
  - split; [done|]. intros off _. simpl. destruct (zlen b <=? off); [done|].
    by rewrite orb_true_r.
Qed.

Lemma whole_holds m data : whole m data -> holds m data.
Proof. intros (bss & ? & ? & ? & _). exists bss. split; [done|]. split; [done|lia]. Qed.

Section stream.
Context {M : GMalloc} {ML : GMallocLaws}.

Lemma queue_rest_empty n j bufs bss off length o buf :
  vectors n j bufs bss -> zlen (concat bss) = 0 -> 0 <= off ->
  queue_rest_loop n j bufs off length o buf = Ok buf.
Proof.
  intros Hv. revert off. induction Hv as [j bufs H|j v rest b bs bss H Hb Hs Hv IH];
    intros off Hz Ho.
  - destruct bufs; simpl; by rewrite H.
  - simpl concat in Hz. rewrite zlen_app in Hz. zlen_pos. cbn [queue_rest_loop]. rewrite H.
    cbn [mbind res_bind]. rewrite Hs. destruct (Z.leb_spec (zlen b) off); [|lia].
    apply IH; lia.
Qed.

Lemma queue_rest_start n j bufs bss length buf pre :
  vectors n j bufs bss -> zlen buf = length -> take (List.length pre) buf = pre ->
  zlen pre + zlen (concat bss) = length ->
  queue_rest_loop n j bufs 0 length (zlen pre) buf = Ok (pre ++ concat bss).
Proof.
  intros Hv. revert buf pre. induction Hv as [j bufs H|j v rest b bs bss H Hb Hs Hv IH];
    intros buf pre Hl Ht Hc.
  - assert (buf = pre) as ->.
    { rewrite firstn_all2 in Ht; [done|]. simpl in *. unfold zlen in *. simpl in *. lia. }
    simpl. rewrite app_nil_r. destruct bufs; simpl; by rewrite H.
  - simpl concat in *. rewrite zlen_app in Hc. zlen_pos. cbn [queue_rest_loop]. rewrite H.
    cbn [mbind res_bind]. rewrite Hs. destruct (Z.leb_spec (zlen b) 0).
    + assert (b = []) as -> by (apply zlen_0_nil; lia). simpl. apply IH; auto.
    + rewrite Z.sub_0_r, Z.min_r by lia.
      rewrite (vector_read_app v b bs) by (auto; lia). cbn [mbind res_bind].
      rewrite slice_all, wr_bytes_Ok by lia. cbn [mbind res_bind].
      destruct (Z.leb_spec (zlen b) 0); [lia|]. rewrite <- zlen_app.
      rewrite IH; [by rewrite app_assoc|rewrite zlen_splice; lia| |rewrite zlen_app; lia].
      unfold splice. by rewrite to_nat_zlen, Ht, app_assoc, take_app_length.
Qed.

Lemma queue_rest_clean n j bufs bss off buf :
  vectors n j bufs bss -> 0 <= off < zlen (concat bss) -> clean_cut bss off = true ->
  zlen buf = zlen (concat bss) - off ->
  queue_rest_loop n j bufs off (zlen (concat bss) - off) 0 buf = Ok (drop (Z.to_nat off) (concat bss)).
Proof.
  intros Hv. revert off. induction Hv as [j bufs H|j v rest b bs bss H Hb Hs Hv IH];
    intros off Ho Hcl Hbuf; [simpl in Ho; zlia|].
  simpl concat in *. rewrite zlen_app in *. zlen_pos. cbn [queue_rest_loop clean_cut] in *.
  rewrite H. cbn [mbind res_bind]. rewrite Hs. destruct (Z.leb_spec (zlen b) off).
  - replace (zlen b + zlen (concat bss) - off) with (zlen (concat bss) - (off - zlen b)) by lia.
    rewrite IH; [|lia|done|lia]. rewrite drop_app.
    rewrite (drop_ge b) by (unfold zlen in *; lia). simpl. do 2 f_equal. unfold zlen in *. lia.
  - rewrite Z.sub_0_r, Z.min_r by lia. rewrite (vector_read_app v b bs) by (auto; lia).
    assert (Hl : zlen (slice b off (zlen b - off)) = zlen b - off) by (apply zlen_slice; lia).
    cbn [mbind res_bind]. rewrite wr_bytes_Ok by lia. cbn [mbind res_bind]. rewrite Z.add_0_l.
    assert (Es : slice b off (zlen b - off) = drop (Z.to_nat off) b).
    { unfold slice. apply firstn_all2. rewrite length_drop. unfold zlen in *. lia. }
    rewrite Es in *.
    assert (Ed : drop (Z.to_nat off) (b ++ concat bss) = drop (Z.to_nat off) b ++ concat bss).
    { apply drop_app_le. unfold zlen in *. lia. }
    rewrite Ed. unfold splice. rewrite Z.add_0_l, to_nat_zlen.
    change (take (Z.to_nat 0) buf) with (@nil Z). rewrite app_nil_l.
    apply orb_true_iff in Hcl as [Hcl|Hcl]; bool_prop.
    + replace (if zlen b - off <=? off then off - (zlen b - off) else 0) with 0
        by (destruct (Z.leb_spec (zlen b - off) off); lia).
      rewrite <- Hl. apply queue_rest_start; auto.
      * unfold zlen in *. rewrite length_app, !length_drop in *. lia.
      * by rewrite take_app_length.
      * lia.
    + apply zlen_0_nil in Hcl as Hn. rewrite Hn, app_nil_r.
      rewrite (queue_rest_empty _ _ _ bss); auto.
      * rewrite (drop_ge buf); [by rewrite app_nil_r|]. unfold zlen in *. lia.
      * destruct (Z.leb_spec (zlen b - off) off); lia.
Qed.

(** Queueing a message cut at [off] queues the rest of its bytes. *)
Lemma queue_send_whole q m data off head src :
  whole m data -> 0 <= off < zlen data ->
  nice_socket_queue_send_with_callback q m off (zlen data) head src =
    let tbs := mkQueued (drop (Z.to_nat off) data) (zlen data - off) nice_address_init in
    Ok (if head then tbs :: q else q ++ [tbs],
        match src with Some _ => Some true | None => None end).
Proof.
  intros (bss & Hv & -> & _ & Hcl) Ho. unfold nice_socket_queue_send_with_callback.
  destruct (Z.leb_spec (zlen (concat bss)) off); [lia|].
  rewrite (queue_rest_clean _ _ _ bss); auto. apply g_malloc_length. lia.
Qed.

Context {G : Type} {GS : GSocket G} {GL : GSocketLaws G}.

(** The connection stays up: a send that takes nothing would block. *)
Hypothesis healthy : forall g data g' e,
  g_socket_send_message g data = (g', inl e) -> e = G_IO_ERROR_WOULD_BLOCK.

(** ** The stream *)

Definition queued (q : list NiceSocketQueuedSend) : list Z := concat (map tbs_buf q).

(** What has left, or will leave, the socket. *)
Definition tcp_stream (p : TcpPriv G) : list Z :=
  gs_sent (tcp_fileno p) ++ queued (tcp_send_queue p).

Definition queue_wf (q : list NiceSocketQueuedSend) : Prop :=
  Forall (fun t => zlen (tbs_buf t) = tbs_length t /\ 0 < tbs_length t < 2 ^ 31) q.

Definition tcp_wf (p : TcpPriv G) : Prop := queue_wf (tcp_send_queue p) /\ tcp_error p = false.

Lemma queued_cons t q : queued (t :: q) = tbs_buf t ++ queued q.
Proof. done. Qed.
Lemma queued_snoc t q : queued (q ++ [t]) = queued q ++ tbs_buf t.
Proof. unfold queued. rewrite map_app, concat_app. simpl. by rewrite app_nil_r. Qed.

(** A flush moves bytes from the head of the queue to the socket. *)
Lemma flush_stream g q :
  queue_wf q -> exists emptied g' q',
    nice_socket_flush_send_queue_to_socket g q = Ok (emptied, g', q') /\ queue_wf q' /\
    gs_sent g' ++ queued q' = gs_sent g ++ queued q /\ (emptied = true -> q' = []).
Proof.
  revert g. induction q as [|t q IH]; intros g Hq.
  - exists true, g, []. done.
  - apply Forall_cons in Hq as [[Hb Hl] Hq]. destruct t as [buf len to]. simpl in Hb, Hl.
    cbn [nice_socket_flush_send_queue_to_socket tbs_buf tbs_length].
    rewrite rd_bytes_Ok by lia. cbn [mbind res_bind]. rewrite <- Hb, slice_all.
    destruct (g_socket_send_message g buf) as [g' [e|n]] eqn:E.
    + pose proof (healthy _ _ _ _ E) as ->. apply gs_send_error in E as [E _].
      fold (one_vector buf). rewrite (queue_send_whole _ _ buf) by (try apply whole_one_vector; lia).
      cbn. rewrite drop_0. eexists _, _, _. split; [done|]. split; [|split; [|done]].
      * constructor; [simpl; lia|done].
      * rewrite E. done.
    + apply gs_send_ok in E as (Hn & E & _). rewrite !s32_small by lia.
      destruct (Z.ltb_spec n (zlen buf)) as [Hlt|Hge].
      * assert (Hz : zlen (drop (Z.to_nat n) buf) = zlen buf - n) by (apply zlen_drop; lia).
        rewrite <- Hz. fold (one_vector (drop (Z.to_nat n) buf)).
        rewrite (queue_send_whole _ _ (drop (Z.to_nat n) buf))
          by (try apply whole_one_vector; lia).
        cbn. rewrite drop_0. eexists _, _, _. split; [done|]. split; [|split; [|done]].
        -- constructor; [simpl; lia|done].
        -- rewrite E, !queued_cons. simpl. rewrite <- app_assoc, (app_assoc (take _ _)).
           by rewrite take_drop.
      * destruct (IH g' Hq) as (em & g2 & q2 & E2 & Hw & Hs & He). exists em, g2, q2.
        split; [done|]. split; [done|]. split; [|done]. rewrite Hs, E, queued_cons. simpl.
        rewrite firstn_all2 by (unfold zlen in *; lia). by rewrite app_assoc.
Qed.

Lemma send_more_stream p destroyed hup :
  tcp_wf p -> exists stay cb p', tcp_socket_send_more p destroyed hup = Ok (stay, cb, p') /\
    tcp_wf p' /\ tcp_stream p' = tcp_stream p.
Proof.
  intros [Hq He]. unfold tcp_socket_send_more. destruct destroyed; [by eexists _, _, _|].
  destruct hup; cbn [mbind res_bind].
  - eexists _, _, _. done.
  - destruct (flush_stream (tcp_fileno p) _ Hq) as (em & g & q & E & Hw & Hs & _).
    rewrite E. cbn. destruct em; eexists _, _, _; done.
Qed.

(** A message is taken whole, or (unreliable, with a queue) not at all. *)
Lemma send_message_stream p m data reliable :
  tcp_wf p -> whole m data -> exists ret p', tcp_socket_send_message p m reliable = Ok (ret, p') /\
    tcp_wf p' /\ ((ret = zlen data /\ tcp_stream p' = tcp_stream p ++ data) \/
                  (ret = 0 /\ reliable = false /\ tcp_stream p' = tcp_stream p)).
Proof.
  intros [Hq He] Hm. pose proof (whole_holds _ _ Hm) as Hh. pose proof (zlen_nonneg data) as Hp.
  assert (Hl : zlen data < 2 ^ 31) by (destruct Hm as (? & _ & _ & ? & _); done).
  unfold tcp_socket_send_message. rewrite He, (output_message_get_size_holds m data) by done.
  cbn [mbind res_bind].
  assert (Hadd : forall g, gs_sent g = gs_sent (tcp_fileno p) -> exists p',
    tcp_queue p g m 0 (zlen data) false = Ok p' /\ tcp_wf p' /\
    tcp_stream p' = tcp_stream p ++ data).
  { intros g Hg. unfold tcp_queue. destruct (Z.eq_dec (zlen data) 0) as [Hz|Hz].
    - unfold nice_socket_queue_send_with_callback. rewrite Hz. simpl. eexists. split; [done|].
      split; [done|]. apply zlen_0_nil in Hz as ->. unfold tcp_stream. simpl.
      by rewrite Hg, app_nil_r.
    - rewrite (queue_send_whole _ _ data) by (auto; lia). cbn. rewrite drop_0, Z.sub_0_r.
      eexists. split; [done|]. split; [split; [|done]|].
      + simpl. apply Forall_app. split; [done|]. by repeat constructor; simpl; try lia.
      + unfold tcp_stream. simpl. by rewrite Hg, queued_snoc, app_assoc. }
  destruct (tcp_send_queue p) as [|t q] eqn:Eq.
  - assert (Eg : gather_loop (om_n_buffers m) 0 (om_buffers m) = Ok data).
    { destruct Hm as (bss & Hv & -> & _). by apply gather_loop_vectors. }
    rewrite Eg. cbn [mbind res_bind].
    destruct (g_socket_send_message (tcp_fileno p) data) as [g [e|n]] eqn:E.
    + pose proof (healthy _ _ _ _ E) as ->. apply gs_send_error in E as [E _].
      destruct (Hadd g E) as (p' & -> & Hw & Hs). cbn. eexists _, _. split; [done|].
      split; [done|]. by left.
    + apply gs_send_ok in E as (Hn & E & _). destruct (Z.ltb_spec n (zlen data)).
      * unfold tcp_queue. rewrite (queue_send_whole _ _ data) by (auto; lia). cbn.
        eexists _, _. split; [done|]. split; [split; [|done]|left; split; [done|]].
        -- simpl. constructor; [|by rewrite Eq]. simpl. rewrite zlen_drop; lia.
        -- unfold tcp_stream. simpl. rewrite Eq, E, <- !app_assoc. f_equal.
           unfold queued. simpl. by rewrite app_nil_r, take_drop.
      * eexists _, _. split; [done|]. split; [split; [constructor|done]|left].
        split; [lia|]. unfold tcp_stream. simpl. rewrite E, Eq, <- !app_assoc. f_equal. simpl.
        rewrite app_nil_r. apply firstn_all2. unfold zlen in *. lia.
  - destruct reliable.
    + destruct (Hadd (tcp_fileno p) eq_refl) as (p' & -> & Hw & Hs). cbn. eexists _, _.
      split; [done|]. split; [done|]. by left.
    + eexists _, _. split; [done|]. split; [split; [by rewrite Eq|done]|by right].
Qed.

Lemma send_loop_stream p i messages datas :
  tcp_wf p -> Forall2 whole messages datas -> 0 <= i ->
  exists n p', tcp_send_loop p i messages = Ok (i + n, p') /\ 0 <= n <= zlen messages /\
    tcp_wf p' /\ tcp_stream p' = tcp_stream p ++ concat (take (Z.to_nat n) datas).
Proof.
  intros Hw Hm. revert p i Hw. induction Hm as [|m data ms ds Hd Hm IH]; intros p i Hw Hi.
  - exists 0, p. rewrite Z.add_0_r, app_nil_r. by split_and!.
  - cbn [tcp_send_loop]. pose proof (zlen_nonneg data).
    destruct (send_message_stream p m data false Hw Hd) as (ret & p' & -> & Hw' & Hr).
    cbn [mbind res_bind].
    destruct (Z.ltb_spec ret 0); [lia|]. destruct (Z.eqb_spec ret 0) as [->|Hz].
    + exists 0, p'. rewrite Z.add_0_r. split_and!; try done; try zlia.
      simpl. rewrite app_nil_r. destruct Hr as [[Hz Hs]|(_ & _ & Hs)]; [|done].
      symmetry in Hz. apply zlen_0_nil in Hz as ->. by rewrite app_nil_r in Hs.
    + destruct Hr as [[-> Hs]|(? & _)]; [|lia].
      destruct (IH p' (i + 1) Hw') as (n & p2 & -> & Hn & Hw2 & Hs2); [lia|].
      exists (n + 1), p2. split_and!; try done; try zlia; [f_equal; f_equal; lia|].
      rewrite Hs2, Hs, <- app_assoc. f_equal.
      replace (Z.to_nat (n + 1)) with (S (Z.to_nat n)) by lia. done.
Qed.

Lemma send_reliable_loop_stream p i messages datas :
  tcp_wf p -> Forall2 whole messages datas ->
  exists p', tcp_send_reliable_loop p i messages = Ok (i + zlen messages, p') /\
    tcp_wf p' /\ tcp_stream p' = tcp_stream p ++ concat datas.
Proof.
  intros Hw Hm. revert p i Hw. induction Hm as [|m data ms ds Hd Hm IH]; intros p i Hw.
  - exists p. rewrite Z.add_0_r, app_nil_r. by split_and!.
  - cbn [tcp_send_reliable_loop]. pose proof (zlen_nonneg data).
    destruct (send_message_stream p m data true Hw Hd) as (ret & p' & -> & Hw' & Hr).
    cbn [mbind res_bind]. destruct Hr as [[-> Hs]|(_ & ? & _)]; [|done].
    destruct (Z.ltb_spec (zlen data) 0); [lia|].
    destruct (IH p' (i + 1) Hw') as (p2 & -> & Hw2 & Hs2). exists p2. split_and!; try done.
    + f_equal. f_equal. zlia.
    + simpl. by rewrite Hs2, Hs, app_assoc.
Qed.

(** ** Runs *)

Inductive tcp_op : Set :=
  | TcpSend (reliable : bool) (messages : list NiceOutputMessage)
  | TcpSendMore (destroyed hup : bool).

Definition tcp_messages (op : tcp_op) : list NiceOutputMessage :=
  match op with TcpSend _ ms => ms | TcpSendMore _ _ => [] end.

(** The messages the run accepted, and the socket after it. *)
Fixpoint tcp_run (p : TcpPriv G) (ops : list tcp_op) : res (list NiceOutputMessage * TcpPriv G) :=
  match ops with
  | [] => Ok ([], p)
  | op :: ops =>
      '(accepted, p) ← match op with
        | TcpSend reliable ms =>
            '(ret, p) ← (if reliable then tcp_socket_send_messages_reliable p ms
                         else tcp_socket_send_messages p ms);
            Ok (take (Z.to_nat ret) ms, p)
        | TcpSendMore destroyed hup =>
            '(_, _, p) ← tcp_socket_send_more p destroyed hup; Ok ([], p)
        end;
      '(more, p) ← tcp_run p ops;
      Ok (accepted ++ more, p)
  end.

Lemma tcp_run_stream p ops :
  tcp_wf p -> Forall (fun op => Forall (fun m => exists data, whole m data) (tcp_messages op)) ops ->
  exists accepted p' datas, tcp_run p ops = Ok (accepted, p') /\ tcp_wf p' /\
    Forall2 whole accepted datas /\ tcp_stream p' = tcp_stream p ++ concat datas.
Proof.
  revert p. induction ops as [|op ops IH]; intros p Hw Hall.
  - exists [], p, []. rewrite app_nil_r. by split_and!.
  - apply Forall_cons in Hall as [Hop Hall].
    assert (Hstep : exists acc p' ds,
      match op with
        | TcpSend reliable ms =>
            '(ret, p) ← (if reliable then tcp_socket_send_messages_reliable p ms
                         else tcp_socket_send_messages p ms);
            Ok (take (Z.to_nat ret) ms, p)
        | TcpSendMore destroyed hup =>
            '(_, _, p) ← tcp_socket_send_more p destroyed hup; Ok ([], p)
        end = Ok (acc, p') /\ tcp_wf p' /\ Forall2 whole acc ds /\
        tcp_stream p' = tcp_stream p ++ concat ds).
    { destruct op as [[] ms|d h]; simpl in Hop.
      1,2: apply Forall_exists_Forall2_l in Hop as [ds Hds].
      - destruct (send_reliable_loop_stream p 0 ms ds Hw Hds) as (p' & E & Hw' & Hs).
        unfold tcp_socket_send_messages_reliable. rewrite E, Z.add_0_l. cbn [mbind res_bind].
        exists ms, p', ds. rewrite to_nat_zlen, firstn_all. by split_and!.
      - destruct (send_loop_stream p 0 ms ds Hw Hds) as (n & p' & E & Hn & Hw' & Hs); [lia|].
        unfold tcp_socket_send_messages. rewrite E, Z.add_0_l. cbn [mbind res_bind].
        exists (take (Z.to_nat n) ms), p', (take (Z.to_nat n) ds).
        split_and!; try done. by apply Forall2_take.
      - destruct (send_more_stream p d h Hw) as (st & cb & p' & -> & Hw' & Hs). cbn.
        exists [], p', []. rewrite app_nil_r. by split_and!. }
    destruct Hstep as (acc & p1 & ds & E & Hw1 & Hds & Hs). cbn [tcp_run]. rewrite E.
    cbn [mbind res_bind]. destruct (IH p1 Hw1 Hall) as (acc2 & p2 & ds2 & -> & Hw2 & Hds2 & Hs2).
    cbn. exists (acc ++ acc2), p2, (ds ++ ds2). split_and!; try done.
    + by apply Forall2_app.
    + by rewrite Hs2, Hs, concat_app, app_assoc.
Qed.
End stream.

(** One vector of the message, read from [off] on. *)
Lemma queue_rest_step n j b rest off length o buf :
  has_vector n j (mkVector (Some b) (zlen b) :: rest) = Ok true ->
  0 <= off < zlen b -> zlen b - off <= length - o -> 0 <= o -> zlen buf = length ->
  queue_rest_loop n j (mkVector (Some b) (zlen b) :: rest) off length o buf =
    queue_rest_loop n (j + 1) rest (if zlen b - off <=? off then off - (zlen b - off) else 0) length
      (o + (zlen b - off)) (splice buf o (drop (Z.to_nat off) b)).
Proof.
  intros H Ho Hl Hp Hb. cbn [queue_rest_loop]. rewrite H. cbn [mbind res_bind gv_size].
  destruct (Z.leb_spec (zlen b) off); [lia|]. rewrite Z.min_r by lia.
  unfold vector_read. cbn [gv_buffer]. rewrite rd_bytes_Ok by lia. cbn [mbind res_bind].
  assert (E : slice b off (zlen b - off) = drop (Z.to_nat off) b).
  { unfold slice. apply firstn_all2. rewrite length_drop. unfold zlen. lia. }
  rewrite E, wr_bytes_Ok by (rewrite ?zlen_drop; lia). done.
Qed.

(** ** A concrete socket *)

(** The kernel answers each send from a script: the number of bytes it takes
    at most, or nothing for a send that blocks; without a script it takes all.
    Received bytes come in segments; without one a read blocks. *)
Record ScriptSocket : Set := mkScript {
  sc_sent : list Z; sc_takes : list (option Z); sc_segments : list (list Z)
}.

#[global] Instance script_gsocket : GSocket ScriptSocket := {
  g_socket_send_message g data :=
    match sc_takes g with
    | [] => (mkScript (sc_sent g ++ data) [] (sc_segments g), inr (zlen data))
    | None :: takes => (mkScript (sc_sent g) takes (sc_segments g), inl G_IO_ERROR_WOULD_BLOCK)
    | Some k :: takes =>
        let n := Z.min (Z.max 0 k) (zlen data) in
        (mkScript (sc_sent g ++ take (Z.to_nat n) data) takes (sc_segments g), inr n)
    end;
  g_socket_receive_message g size :=
    match sc_segments g with
    | [] => (g, inl G_IO_ERROR_WOULD_BLOCK)
    | d :: rest =>
        let now := take (Z.to_nat size) d in
        let later := drop (Z.to_nat size) d in
        (mkScript (sc_sent g) (sc_takes g) (match later with [] => rest | _ :: _ => later :: rest end),
         inr now)
    end
}.

#[global] Instance script_gsocket_laws : GSocketLaws ScriptSocket.
Proof.
  refine {| gs_sent := sc_sent; gs_unread g := concat (sc_segments g) |}.
  - intros g data g' n. simpl. destruct (sc_takes g) as [|[k|] takes]; intros [= <- <-]; simpl.
    + rewrite to_nat_zlen, firstn_all. split_and!; try done; zlia.
    + split_and!; try done; zlia.
  - intros g data g' e. simpl. destruct (sc_takes g) as [|[k|] takes]; by intros [= <- <-].
  - intros g size g' d. simpl. destruct (sc_segments g) as [|s rest]; [done|]. intros [= <- <-].
    split; [unfold zlen; rewrite length_take; lia|]. split; [|done]. simpl.
    rewrite <- (take_drop (Z.to_nat size) s) at 1. rewrite <- app_assoc. f_equal.
    by destruct (drop (Z.to_nat size) s).
  - intros g size g' e. simpl. destruct (sc_segments g) eqn:E; intros [=]; subst; by rewrite ?E.
Defined.

#[global] Instance zero_malloc : GMalloc := fun n => replicate (Z.to_nat n) 0.
#[global] Instance zero_malloc_laws : GMallocLaws.
Proof.
  split; unfold g_malloc, zero_malloc.
  - intros n ?. rewrite zlen_replicate. lia.
  - intros n. apply bytes_replicate. done.
Qed.

Lemma script_healthy (g : ScriptSocket) data g' e :
  g_socket_send_message g data = (g', inl e) -> e = G_IO_ERROR_WOULD_BLOCK.
Proof. simpl. destruct (sc_takes g) as [|[k|] takes]; intros [=]; done. Qed.

(** A read of a TCP socket that gets the bytes [d]. *)
Lemma tcp_recv_data {M : GMalloc} {G : Type} {GS : GSocket G} (p : TcpPriv G) b size from g d :
  tcp_error p = false -> 0 <= size < 2 ^ 64 -> 0 < zlen d <= size ->
  g_socket_receive_message (tcp_fileno p) size = (g, inr d) ->
  nice_socket_recv_messages p [mkInput [mkVector (Some b) size] 1 from 0] =
    b' ← wr_bytes b 0 d;
    Ok (1, [mkInput [mkVector (Some b') size] 1
              (match from with Some _ => Some (tcp_remote_addr p) | None => None end) (zlen d)],
        mkTcp g (tcp_remote_addr p) (tcp_send_queue p) (tcp_io_source p) (tcp_error p)
          (tcp_reliable p) (tcp_writable_cb p)).
Proof.
  intros He Hs Hd Hg. cbn [nice_socket_recv_messages tcp_nice_socket].
  unfold tcp_socket_recv_messages. rewrite He. cbn [tcp_recv_loop].
  rewrite input_message_get_size_one by (simpl; lia). cbn [gv_size mbind res_bind].
  rewrite Hg. cbn [im_n_buffers im_buffers]. rewrite memcpy_loop_one by lia.
  destruct (Z.ltb_spec 0 (zlen d)); [|lia]. destruct (wr_bytes b 0 d); [|done].
  cbn [mbind res_bind]. destruct (Z.eqb_spec (zlen d) 0); [lia|]. by rewrite He.
Qed.

Lemma script_receive sent takes d rest size :
  zlen d <= size -> g_socket_receive_message (mkScript sent takes (d :: rest)) size =
    (mkScript sent takes rest, inr d).
Proof.
  intros Hd. simpl. unfold zlen in Hd. rewrite firstn_all2 by lia. rewrite drop_ge by lia. done.
Qed.

(** ** Theorems *)

(** C14: A TCP socket keeps the order of the stream: for every run of sends
    (reliable or not) and of writable callbacks, whatever number of bytes the
    kernel takes at each attempt, the bytes handed to the kernel followed by
    the send queue are the bytes before the run followed by exactly the
    messages the socket accepted, in order and without a byte lost or
    duplicated, as long as the connection is up and every cut of a message is
    clean (always so for messages of one vector). *)
Theorem tcp_stream_order {M : GMalloc} {ML : GMallocLaws} {G : Type} {GS : GSocket G}
    {GL : GSocketLaws G} (p : TcpPriv G) (ops : list tcp_op) :
  (forall g data g' e, g_socket_send_message g data = (g', inl e) -> e = G_IO_ERROR_WOULD_BLOCK) ->
  tcp_wf p -> Forall (fun op => Forall (fun m => exists data, whole m data) (tcp_messages op)) ops ->
  exists accepted p' datas, tcp_run p ops = Ok (accepted, p') /\
    Forall2 whole accepted datas /\ tcp_stream p' = tcp_stream p ++ concat datas.
Proof.
  intros Hh Hw Hops. destruct (tcp_run_stream Hh p ops Hw Hops) as (acc & p' & ds & E & _ & Hf & Hs).
  by exists acc, p', ds.
Qed.

Definition ex_tcp : TcpPriv ScriptSocket :=
  nice_tcp_bsd_socket_new_from_gsock (mkScript [] [Some 2; None; Some 1; Some 9] []) nice_address_init true.
Definition ex_tcp_ops : list tcp_op :=
  [TcpSend true [one_vector [1; 2; 3]; one_vector [4; 5]]; TcpSendMore false false;
   TcpSend false [one_vector [6]]; TcpSendMore false false; TcpSendMore false false;
   TcpSend false [one_vector [7]; one_vector [8]]].

Lemma tcp_stream_order_witness :
  tcp_wf ex_tcp /\
  exists accepted p' datas, tcp_run ex_tcp ex_tcp_ops = Ok (accepted, p') /\
    Forall2 whole accepted datas /\ tcp_stream p' = tcp_stream ex_tcp ++ concat datas.
Proof.
  split; [by repeat constructor|].
  refine (tcp_stream_order ex_tcp ex_tcp_ops script_healthy _ _).
  - by repeat constructor.
  - repeat constructor; eexists; apply whole_one_vector; vm_compute; done.
Defined.

Example ex_tcp_stream :
  match tcp_run ex_tcp ex_tcp_ops with
  | Ok (acc, p) => (length acc, tcp_stream p, tcp_send_queue p)
  | Fault _ => (O, [], [])
  end = (4%nat, [1; 2; 3; 4; 5; 7; 8], []).
Proof. vm_compute. reflexivity. Qed.

(** C36: A message whose first vector is cut behind its middle is queued
    wrongly: after the rest of that vector, [2 * off - |b1|] bytes of the
    second vector are left out, and the queued block, whose length counts
    them, ends with as many bytes of the fresh allocation. *)
Theorem partial_send_loses_bytes {M : GMalloc} {ML : GMallocLaws} (q : list NiceSocketQueuedSend)
    (b1 b2 : list Z) (off : Z) (src : option bool) :
  off < zlen b1 < 2 * off -> 2 * off - zlen b1 < zlen b2 ->
  let skip := 2 * off - zlen b1 in
  let length := zlen b1 + zlen b2 - off in
  exists src', nice_socket_queue_send_with_callback q
    (mkOutput [mkVector (Some b1) (zlen b1); mkVector (Some b2) (zlen b2)] 2) off
    (zlen b1 + zlen b2) true src =
  Ok (mkQueued (drop (Z.to_nat off) b1 ++ drop (Z.to_nat skip) b2 ++
                drop (Z.to_nat (length - skip)) (g_malloc length)) length nice_address_init :: q, src').
Proof.
  intros Ho Hs skip length. pose proof (zlen_nonneg b2).
  unfold nice_socket_queue_send_with_callback.
  destruct (Z.leb_spec (zlen b1 + zlen b2) off); [lia|]. fold length.
  assert (Hm : zlen (g_malloc length) = length) by (apply g_malloc_length; lia).
  set (buf := g_malloc length) in *. cbn [om_n_buffers om_buffers].
  rewrite queue_rest_step by (auto; lia). rewrite Z.add_0_l.
  destruct (Z.leb_spec (zlen b1 - off) off); [|lia].
  replace (off - (zlen b1 - off)) with skip by (unfold skip; lia).
  assert (L1 : zlen (drop (Z.to_nat off) b1) = zlen b1 - off) by (apply zlen_drop; lia).
  assert (L2 : zlen (drop (Z.to_nat skip) b2) = zlen b2 - skip) by (apply zlen_drop; lia).
  rewrite queue_rest_step by (rewrite ?zlen_splice; auto; lia).
  eexists. cbn [queue_rest_loop has_vector Z.leb Z.compare Z.add Z.ltb Pos.compare Pos.compare_cont
                Pos.add Pos.succ mbind res_bind].
  do 3 f_equal. f_equal. rewrite <- L1, splice_splice by lia.
  unfold splice. rewrite zlen_app, L1, L2, <- app_assoc. simpl.
  replace (0 + (zlen b1 - off + (zlen b2 - skip))) with (length - skip)
    by (unfold length; lia). done.
Qed.

Lemma partial_send_loses_bytes_witness :
  8 < zlen (seqZ 0 10) < 2 * 8 /\ exists src', nice_socket_queue_send_with_callback []
    (mkOutput [mkVector (Some (seqZ 0 10)) 10; mkVector (Some (seqZ 10 10)) 10] 2) 8 20 true None =
  Ok ([mkQueued ([8; 9] ++ [16; 17; 18; 19] ++ [0; 0; 0; 0; 0; 0]) 12 nice_address_init], src').
Proof.
  split; [done|].
  destruct (partial_send_loses_bytes [] (seqZ 0 10) (seqZ 10 10) 8 None) as [src' E]; [done|done|].
  exists src'. vm_compute in E. vm_compute. exact E.
Defined.

(** A read of two messages from a TCP socket, the second of which would
    block, returns 0, as a read that received nothing, although the bytes of
    the first message have been taken from the stream. *)
Theorem tcp_recv_drops_message {M : GMalloc} {G : Type} {GS : GSocket G} {GL : GSocketLaws G}
    (p : TcpPriv G) (b1 b2 : list Z) (d : list Z) (g1 g2 : G) :
  tcp_error p = false -> 0 < zlen d -> zlen b1 < 2 ^ 64 -> zlen b2 < 2 ^ 64 ->
  g_socket_receive_message (tcp_fileno p) (zlen b1) = (g1, inr d) ->
  g_socket_receive_message g1 (zlen b2) = (g2, inl G_IO_ERROR_WOULD_BLOCK) ->
  exists messages p', tcp_socket_recv_messages p
      [mkInput [mkVector (Some b1) (zlen b1)] 1 None 0; mkInput [mkVector (Some b2) (zlen b2)] 1 None 0]
    = Ok (0, messages, p') /\
    gs_unread (tcp_fileno p) = d ++ gs_unread (tcp_fileno p').
Proof.
  intros He Hd H1 H2 E1 E2. pose proof (zlen_nonneg b1). pose proof (zlen_nonneg b2).
  unfold tcp_socket_recv_messages. rewrite He. cbn [tcp_recv_loop].
  rewrite (input_message_get_size_one (mkVector (Some b1) (zlen b1))) by (simpl; lia). cbn [mbind res_bind gv_size].
  rewrite E1.
  apply gs_receive_ok in E1 as (Hz & Hu & _). cbn [im_n_buffers im_buffers].
  rewrite memcpy_loop_one by lia. destruct (Z.ltb_spec 0 (zlen d)); [|lia].
  rewrite wr_bytes_Ok by lia. cbn [mbind res_bind]. destruct (Z.eqb_spec (zlen d) 0); [lia|].
  rewrite (input_message_get_size_one (mkVector (Some b2) (zlen b2))) by (simpl; lia). cbn [mbind res_bind gv_size tcp_fileno].
  rewrite E2. apply gs_receive_error in E2 as [E2 _]. cbn. eexists _, _. split; [done|].
  simpl. by rewrite E2.
Qed.

Definition ex_tcp_reader : TcpPriv ScriptSocket :=
  nice_tcp_bsd_socket_new_from_gsock (mkScript [] [] [[1; 2; 3]]) nice_address_init true.

Lemma tcp_recv_drops_message_witness :
  exists messages p', tcp_socket_recv_messages ex_tcp_reader
      [mkInput [mkVector (Some [0; 0; 0; 0]) 4] 1 None 0; mkInput [mkVector (Some [0; 0; 0; 0]) 4] 1 None 0]
    = Ok (0, messages, p') /\
    gs_unread (tcp_fileno ex_tcp_reader) = [1; 2; 3] ++ gs_unread (tcp_fileno p').
Proof.
  apply (tcp_recv_drops_message ex_tcp_reader [0; 0; 0; 0] [0; 0; 0; 0] [1; 2; 3]
           (mkScript [] [] []) (mkScript [] [] [])); done.
Defined.
