(* ===== verification/TurnTcp.v ===== *)
(** * TURN over TCP (socket/udp-turn-over-tcp.c)

    The socket that cuts the byte stream of a TCP connection to a TURN server
    into messages, and adds the framing when it sends.  It is layered over any
    [NiceSocket]. *)
From stdpp Require Import gmap.
From S2P Require Import Prelude CMem StunTypes Address IceTypes IoMessage NiceSock.
Local Open Scope Z_scope.

Inductive NiceTurnSocketCompatibility : Set :=
  | NICE_TURN_SOCKET_COMPATIBILITY_DRAFT9
  | NICE_TURN_SOCKET_COMPATIBILITY_GOOGLE
  | NICE_TURN_SOCKET_COMPATIBILITY_MSN
  | NICE_TURN_SOCKET_COMPATIBILITY_OC2007
  | NICE_TURN_SOCKET_COMPATIBILITY_RFC5766.

Definition MS_TURN_CONTROL_MESSAGE : Z := 2.
Definition MS_TURN_END_TO_END_DATA : Z := 3.
Definition MAGIC_COOKIE_OFFSET : Z :=
  STUN_MESSAGE_HEADER_LENGTH + STUN_MESSAGE_TYPE_LEN + STUN_MESSAGE_LENGTH_LEN + 2.
Definition RECV_BUF_SIZE : Z := 65536.

Record TurnTcpPriv {S : Type} : Type := mkTurnTcp {
  tt_compatibility : NiceTurnSocketCompatibility;
  tt_recv_buf : list Z;
  tt_recv_buf_len : Z;
  tt_expecting_len : Z;
  tt_base_socket : S
}.
Arguments TurnTcpPriv S : clear implicits.

(** The compatibilities with STUN framing and padding. *)
Definition padded_compat (c : NiceTurnSocketCompatibility) : bool :=
  match c with
  | NICE_TURN_SOCKET_COMPATIBILITY_DRAFT9 | NICE_TURN_SOCKET_COMPATIBILITY_RFC5766 => true
  | _ => false
  end.

(** A [guint16] of the receive buffer, in host order. *)
Definition rd_u16 (b : list Z) (off : Z) : res Z := l ← rd_bytes b off 2; Ok (le_value l).

Section turn_tcp.
Context {S : Type} {NS : NiceSocket S}.

Definition nice_udp_turn_over_tcp_socket_new (base_socket : S)
    (compatibility : NiceTurnSocketCompatibility) : TurnTcpPriv S :=
  mkTurnTcp S compatibility (replicate (Z.to_nat RECV_BUF_SIZE) 0) 0 0 base_socket.

(** ** Receiving *)

(** [nice_socket_recv_messages] on the base socket with [size] bytes of room
    behind the [recv_buf_len] bytes already received.  Result: the return
    value, the address, and the socket with the new bytes. *)
Definition recv_into (p : TurnTcpPriv S) (size : Z) (from : option NiceAddress)
    : res (Z * option NiceAddress * TurnTcpPriv S) :=
  let at_ := Z.to_nat (tt_recv_buf_len p) in
  '(ret, messages, base) ← nice_socket_recv_messages (tt_base_socket p)
     [mkInput [mkVector (Some (drop at_ (tt_recv_buf p))) size] 1 from 0];
  m ← message_at messages 0;
  let buf := match im_buffers m with
             | v :: _ => take at_ (tt_recv_buf p) ++ default [] (gv_buffer v)
             | [] => tt_recv_buf p
             end in
  Ok (ret, im_from m,
      mkTurnTcp S (tt_compatibility p) buf
        (if ret <? 0 then tt_recv_buf_len p else tt_recv_buf_len p + im_length m)
        (tt_expecting_len p) base).

(** The lengths the header announces: [None] for an error in the stream;
    otherwise the socket with [expecting_len] set. *)
Definition parse_header (p : TurnTcpPriv S) : res (option (TurnTcpPriv S)) :=
  match tt_compatibility p with
  | NICE_TURN_SOCKET_COMPATIBILITY_DRAFT9 | NICE_TURN_SOCKET_COMPATIBILITY_RFC5766 =>
      magic ← rd_u16 (tt_recv_buf p) 0;
      packetlen ← rd_u16 (tt_recv_buf p) 2;
      let expecting := if ntohs magic <? 0x4000 then 20 + ntohs packetlen else 4 + ntohs packetlen in
      Ok (Some (mkTurnTcp S (tt_compatibility p) (tt_recv_buf p) (tt_recv_buf_len p) expecting
                  (tt_base_socket p)))
  | NICE_TURN_SOCKET_COMPATIBILITY_GOOGLE =>
      compat_len ← rd_u16 (tt_recv_buf p) 0;
      Ok (Some (mkTurnTcp S (tt_compatibility p) (tt_recv_buf p) 0 (ntohs compat_len)
                  (tt_base_socket p)))
  | NICE_TURN_SOCKET_COMPATIBILITY_OC2007 =>
      pt ← rd (tt_recv_buf p) 0;
      packetlen ← rd_u16 (tt_recv_buf p) 2;
      if negb (pt =? MS_TURN_CONTROL_MESSAGE) && negb (pt =? MS_TURN_END_TO_END_DATA) then Ok None
      else
        buf ← wr_bytes (tt_recv_buf p) 0 (slice (tt_recv_buf p) 2 2);
        Ok (Some (mkTurnTcp S (tt_compatibility p) buf 2 (ntohs packetlen + 2) (tt_base_socket p)))
  | NICE_TURN_SOCKET_COMPATIBILITY_MSN => Ok None
  end.

Definition header_len (c : NiceTurnSocketCompatibility) : Z :=
  match c with
  | NICE_TURN_SOCKET_COMPATIBILITY_DRAFT9 | NICE_TURN_SOCKET_COMPATIBILITY_RFC5766
  | NICE_TURN_SOCKET_COMPATIBILITY_OC2007 => 4
  | NICE_TURN_SOCKET_COMPATIBILITY_GOOGLE => 2
  | NICE_TURN_SOCKET_COMPATIBILITY_MSN => 0
  end.

Definition pad_len (n : Z) : Z := if n mod 4 =? 0 then 0 else 4 - n mod 4.

(** The second half of [socket_recv_message]: the body of the message. *)
Definition recv_body (p : TurnTcpPriv S) (recv_message : NiceInputMessage)
    : res (Z * NiceInputMessage * TurnTcpPriv S) :=
  let padlen := if padded_compat (tt_compatibility p) then pad_len (tt_expecting_len p) else 0 in
  let size := u64 (u32 (tt_expecting_len p + padlen) - tt_recv_buf_len p) in
  '(ret, from, p) ← recv_into p size (im_from recv_message);
  let recv_message := mkInput (im_buffers recv_message) (im_n_buffers recv_message) from
                        (im_length recv_message) in
  if ret <? 0 then Ok (ret, recv_message, p)
  else if tt_recv_buf_len p =? u32 (tt_expecting_len p + padlen) then
    '(ret, recv_message) ← memcpy_buffer_to_input_message recv_message (tt_recv_buf p)
       (tt_recv_buf_len p);
    Ok (ret, recv_message,
        mkTurnTcp S (tt_compatibility p) (tt_recv_buf p) 0 0 (tt_base_socket p))
  else Ok (0, recv_message, p).

Definition turn_tcp_recv_message (p : TurnTcpPriv S) (recv_message : NiceInputMessage)
    : res (Z * NiceInputMessage * TurnTcpPriv S) :=
  if tt_expecting_len p =? 0 then
    match tt_compatibility p with
    | NICE_TURN_SOCKET_COMPATIBILITY_MSN => Ok (-1, recv_message, p)
    | _ =>
        let headerlen := header_len (tt_compatibility p) in
        '(ret, from, p) ← recv_into p (u64 (headerlen - tt_recv_buf_len p)) (im_from recv_message);
        let recv_message := mkInput (im_buffers recv_message) (im_n_buffers recv_message) from
                              (im_length recv_message) in
        if ret <? 0 then Ok (ret, recv_message, p)
        else if tt_recv_buf_len p <? headerlen then Ok (0, recv_message, p)
        else
          parsed ← parse_header p;
          match parsed with
          | None => Ok (-1, recv_message, p)
          | Some p => recv_body p recv_message
          end
    end
  else recv_body p recv_message.

Definition set_length (m : NiceInputMessage) (len : Z) : NiceInputMessage :=
  mkInput (im_buffers m) (im_n_buffers m) (im_from m) len.

Fixpoint turn_tcp_recv_loop (p : TurnTcpPriv S) (i : Z) (recv_messages : list NiceInputMessage)
    : res (Z * list NiceInputMessage * TurnTcpPriv S) :=
  match recv_messages with
  | [] => Ok (i, [], p)
  | m :: rest =>
      '(len, m, p) ← turn_tcp_recv_message p m;
      let m := set_length m (Z.max len 0) in
      if len <=? 0 then Ok (if (len <? 0) && (i =? 0) then -1 else i, m :: rest, p)
      else
        '(ret, rest, p) ← turn_tcp_recv_loop p (i + 1) rest;
        Ok (ret, m :: rest, p)
  end.

Definition turn_tcp_recv_messages (p : TurnTcpPriv S) (recv_messages : list NiceInputMessage)
    : res (Z * list NiceInputMessage * TurnTcpPriv S) := turn_tcp_recv_loop p 0 recv_messages.

(** ** Sending *)

(** [for (j = 0; message->buffers\[j\].buffer != NULL; j++) n_bufs++;] *)
Fixpoint count_buffers (bufs : list GVector) : res Z :=
  match bufs with
  | [] => Fault OutOfBounds
  | v :: rest =>
      match gv_buffer v with
      | None => Ok 0
      | Some _ => n ← count_buffers rest; Ok (1 + n)
      end
  end.

(** The search for the cookie in the vectors; [None]: it was not copied. *)
Fixpoint cookie_loop (bufs : list GVector) (buf_offset : Z) : res (option (list Z)) :=
  match bufs with
  | [] => Ok None
  | v :: rest =>
      if MAGIC_COOKIE_OFFSET - buf_offset <? gv_size v then
        if 4 + MAGIC_COOKIE_OFFSET - buf_offset <? gv_size v then
          bs ← vector_read v (MAGIC_COOKIE_OFFSET - buf_offset) 4; Ok (Some bs)
        else Ok None
      else cookie_loop rest (u16 (buf_offset + gv_size v))
  end.

(** The vectors handed to the base socket. *)
Definition turn_tcp_frame (c : NiceTurnSocketCompatibility) (message : NiceOutputMessage)
    : res NiceOutputMessage :=
  n_bufs ← (if om_n_buffers message =? -1 then count_buffers (om_buffers message)
            else Ok (u32 (om_n_buffers message)));
  if zlen (om_buffers message) <? n_bufs then Fault OutOfBounds else
  let bufs := take (Z.to_nat n_bufs) (om_buffers message) in
  match c with
  | NICE_TURN_SOCKET_COMPATIBILITY_GOOGLE =>
      size ← output_message_get_size message;
      let header := le_bytes 2 (htons (u16 size)) in
      Ok (mkOutput (mkVector (Some header) 2 :: bufs) (n_bufs + 1))
  | NICE_TURN_SOCKET_COMPATIBILITY_DRAFT9 | NICE_TURN_SOCKET_COMPATIBILITY_RFC5766 =>
      message_len ← output_message_get_size message;
      Ok (mkOutput (bufs ++ [mkVector (Some [0; 0; 0]) (pad_len message_len)]) (n_bufs + 1))
  | NICE_TURN_SOCKET_COMPATIBILITY_OC2007 =>
      size ← output_message_get_size message;
      let len := u16 size in
      found ← (if 4 + MAGIC_COOKIE_OFFSET <? len then cookie_loop bufs 0 else Ok None);
      let cookie := match found with Some bs => ntohl (le_value bs) | None => 0 end in
      let pt := if cookie =? TURN_MAGIC_COOKIE then MS_TURN_CONTROL_MESSAGE
                else MS_TURN_END_TO_END_DATA in
      Ok (mkOutput (mkVector (Some [pt; 0]) 2 :: bufs) (n_bufs + 1))
  | NICE_TURN_SOCKET_COMPATIBILITY_MSN => Ok (mkOutput bufs n_bufs)
  end.

Definition turn_tcp_send_message (p : TurnTcpPriv S) (to : option NiceAddress)
    (message : NiceOutputMessage) (reliable : bool) : res (Z * TurnTcpPriv S) :=
  local_message ← turn_tcp_frame (tt_compatibility p) message;
  '(ret, base) ← (if reliable
                  then nice_socket_send_messages_reliable (tt_base_socket p) to [local_message]
                  else nice_socket_send_messages (tt_base_socket p) to [local_message]);
  ret ← (if ret =? 1 then output_message_get_size local_message else Ok ret);
  Ok (ret, mkTurnTcp S (tt_compatibility p) (tt_recv_buf p) (tt_recv_buf_len p)
             (tt_expecting_len p) base).

Fixpoint turn_tcp_send_loop (p : TurnTcpPriv S) (to : option NiceAddress) (i : Z)
    (messages : list NiceOutputMessage) : res (Z * TurnTcpPriv S) :=
  match messages with
  | [] => Ok (i, p)
  | message :: rest =>
      '(len, p) ← turn_tcp_send_message p to message false;
      if len <? 0 then Ok (if 0 <? i then i else len, p)
      else if len =? 0 then Ok (i, p)
      else turn_tcp_send_loop p to (i + 1) rest
  end.

Definition turn_tcp_send_messages (p : TurnTcpPriv S) (to : option NiceAddress)
    (messages : list NiceOutputMessage) : res (Z * TurnTcpPriv S) :=
  turn_tcp_send_loop p to 0 messages.

Fixpoint turn_tcp_send_reliable_loop (p : TurnTcpPriv S) (to : option NiceAddress) (i : Z)
    (messages : list NiceOutputMessage) : res (Z * TurnTcpPriv S) :=
  match messages with
  | [] => Ok (i, p)
  | message :: rest =>
      '(len, p) ← turn_tcp_send_message p to message true;
      if len <? 0 then Ok (len, p) else turn_tcp_send_reliable_loop p to (i + 1) rest
  end.

Definition turn_tcp_send_messages_reliable (p : TurnTcpPriv S) (to : option NiceAddress)
    (messages : list NiceOutputMessage) : res (Z * TurnTcpPriv S) :=
  turn_tcp_send_reliable_loop p to 0 messages.

Definition turn_tcp_is_reliable (p : TurnTcpPriv S) : bool :=
  nice_socket_is_reliable (tt_base_socket p).
Definition turn_tcp_can_send (p : TurnTcpPriv S) (addr : option NiceAddress) : bool :=
  nice_socket_can_send (tt_base_socket p) addr.
Definition turn_tcp_set_writable_callback (p : TurnTcpPriv S) (callback : bool) : TurnTcpPriv S :=
  mkTurnTcp S (tt_compatibility p) (tt_recv_buf p) (tt_recv_buf_len p) (tt_expecting_len p)
    (nice_socket_set_writable_callback (tt_base_socket p) callback).
End turn_tcp.

#[global] Instance turn_tcp_nice_socket {S : Type} {NS : NiceSocket S} : NiceSocket (TurnTcpPriv S) := {
  nice_socket_recv_messages := turn_tcp_recv_messages;
  nice_socket_send_messages := turn_tcp_send_messages;
  nice_socket_send_messages_reliable := turn_tcp_send_messages_reliable;
  nice_socket_is_reliable := turn_tcp_is_reliable;
  nice_socket_can_send := turn_tcp_can_send;
  nice_socket_set_writable_callback := turn_tcp_set_writable_callback
}.
