(* ===== verification/TurnTcpProps.v ===== *)
(** * Framing of TURN over TCP

    The specification is the cut of a byte stream into frames; the socket
    implements it whatever the segmentation of the stream, and the frames the
    sender writes are the ones the receiver cuts.  A frame longer than the
    receive buffer overflows it. *)
From stdpp Require Import gmap.
From S2P Require Import Prelude CMem StunTypes Address IceTypes IoMessage NiceSock TcpSocket TcpSocketProps TurnTcp.
Local Open Scope Z_scope.

(** ** Specification *)

(** The body length a header announces (without padding). *)
Definition announced (c : NiceTurnSocketCompatibility) (hdr : list Z) : option (Z * Z) :=
  match c, hdr with
  | (NICE_TURN_SOCKET_COMPATIBILITY_DRAFT9 | NICE_TURN_SOCKET_COMPATIBILITY_RFC5766), [a; b; x; y] =>
      Some (0, (if be_value [a; b] <? 0x4000 then 20 else 4) + be_value [x; y])
  | NICE_TURN_SOCKET_COMPATIBILITY_GOOGLE, [x; y] => Some (2, be_value [x; y])
  | NICE_TURN_SOCKET_COMPATIBILITY_OC2007, [a; b; x; y] =>
      if (a =? MS_TURN_CONTROL_MESSAGE) || (a =? MS_TURN_END_TO_END_DATA)
      then Some (2, be_value [x; y] + 2) else None
  | _, _ => None
  end.

Definition padding (c : NiceTurnSocketCompatibility) (n : Z) : Z :=
  if padded_compat c then pad_len n else 0.

(** [fr] is a frame that delivers [msg]: the header tells how many bytes are
    dropped from its front and how many follow, at least one after the header
    and no more than the receive buffer holds. *)
Definition valid_frame (c : NiceTurnSocketCompatibility) (fr msg : list Z) : Prop :=
  exists skip e, announced c (take (Z.to_nat (header_len c)) fr) = Some (skip, e) /\
    zlen fr = skip + (e + padding c e) /\ header_len c < zlen fr /\
    e + padding c e <= RECV_BUF_SIZE /\ msg = drop (Z.to_nat skip) fr /\ bytes fr.

Lemma tcp_pad_range n : 0 <= pad_len n < 4.
Proof. unfold pad_len. pose proof (Z.mod_pos_bound n 4 ltac:(lia)). destruct (Z.eqb_spec (n mod 4) 0); lia. Qed.
Lemma padding_range c n : 0 <= padding c n < 4.
Proof. unfold padding. pose proof (tcp_pad_range n). destruct (padded_compat c); lia. Qed.

Lemma announced_range c hdr skip e :
  bytes hdr -> announced c hdr = Some (skip, e) -> 0 <= skip <= header_len c /\ 0 <= e < 65600 /\
  (skip = 0 \/ skip = 2) /\ c <> NICE_TURN_SOCKET_COMPATIBILITY_MSN /\ header_len c - skip <= e + 2.
Proof.
  assert (Hp : forall x y, is_byte x -> is_byte y -> 0 <= be_value [x; y] < 65536).
  { intros x y Hx Hy. apply (be_value_range [x; y]). rewrite !bytes_cons. auto using bytes_nil. }
  intros Hb. destruct c; simpl; try done;
    destruct hdr as [|a [|b [|x [|y [|]]]]]; try done;
    rewrite ?bytes_cons in Hb; destruct_and?.
  all: try (pose proof (Hp a b ltac:(done) ltac:(done))).
  all: try (pose proof (Hp x y ltac:(done) ltac:(done))).
  - destruct (_ <? _); intros [= <- <-]; repeat split; try lia; done.
  - intros [= <- <-]; repeat split; try lia; done.
  - destruct (_ || _); [|done]. intros [= <- <-]; repeat split; try lia; done.
  - destruct (_ <? _); intros [= <- <-]; repeat split; try lia; done.
Qed.

Lemma announced_header c hdr r : announced c hdr = Some r -> 0 < header_len c.
Proof. by destruct c. Qed.

Section receive.
Context {S : Type} {NS : NiceSocket S} {SS : StreamSocket S}.
Implicit Types p : TurnTcpPriv S.

(** ** Reading from the base socket *)

Definition unread p : list Z := ss_unread (tt_base_socket p).
Definition buffered p : list Z := take (Z.to_nat (tt_recv_buf_len p)) (tt_recv_buf p).

(** The socket after [d] arrived. *)
Definition arrived p (d : list Z) p' : Prop :=
  tt_compatibility p' = tt_compatibility p /\ tt_expecting_len p' = tt_expecting_len p /\
  zlen (tt_recv_buf p') = RECV_BUF_SIZE /\ tt_recv_buf_len p' = tt_recv_buf_len p + zlen d /\
  buffered p' = buffered p ++ d /\ unread p = d ++ unread p'.

Lemma recv_into_spec p size from :
  zlen (tt_recv_buf p) = RECV_BUF_SIZE -> 0 <= tt_recv_buf_len p -> 0 <= size ->
  tt_recv_buf_len p + size <= RECV_BUF_SIZE ->
  exists ret from' p' d, recv_into p size from = Ok (ret, from', p') /\ arrived p d p' /\
    zlen d <= size /\ (ret = 1 \/ (ret = 0 \/ ret = -1) /\ d = []).
Proof.
  intros Hb Hl Hs Hfit. unfold recv_into, RECV_BUF_SIZE in *.
  set (at_ := Z.to_nat (tt_recv_buf_len p)).
  assert (Hd : zlen (drop at_ (tt_recv_buf p)) = 65536 - tt_recv_buf_len p)
    by (unfold at_; rewrite zlen_drop; lia).
  assert (Hsize : 0 <= size < 2 ^ 64) by lia.
  destruct (ss_recv (tt_base_socket p) (drop at_ (tt_recv_buf p)) size from Hsize)
    as [d s' b' f Hz Hu Hw|d s' Hz Hu Ho|s' f Hu|s' f len Hu].
  - apply wr_bytes_inv in Hw as (_ & Hw & ->). cbn -[zlen splice take drop].
    eexists _, _, _, d. split; [done|]. split; [|split; [lia|by left]].
    unfold arrived, unread, buffered, RECV_BUF_SIZE. cbn [tt_compatibility tt_expecting_len
      tt_recv_buf tt_recv_buf_len tt_base_socket].
    assert (Ht : length (take at_ (tt_recv_buf p)) = at_)
      by (rewrite length_take; unfold at_, zlen in *; lia).
    cbn [im_buffers gv_buffer default from_option im_length id].
    split_and!; try done.
    + rewrite zlen_app, zlen_splice by lia. rewrite Hd. unfold zlen. rewrite Ht. lia.
    + unfold splice. rewrite Z.add_0_l, to_nat_zlen.
      change (take (Z.to_nat 0) (drop at_ (tt_recv_buf p))) with (@nil Z). rewrite app_nil_l.
      rewrite app_assoc, take_app_le.
      * rewrite firstn_all2; [done|]. rewrite length_app, Ht. unfold at_, zlen. lia.
      * rewrite length_app, Ht. unfold at_, zlen. lia.
  - exfalso. lia.
  - cbn -[zlen take drop]. eexists _, _, _, []. split; [done|]. split; [|split; [done|by auto]].
    unfold arrived, unread, buffered. cbn [tt_compatibility tt_expecting_len
      tt_recv_buf tt_recv_buf_len tt_base_socket].
    cbn [im_buffers gv_buffer default from_option im_length id].
    rewrite (take_drop at_ (tt_recv_buf p)). change (zlen (@nil Z)) with 0.
    rewrite (Z.add_0_r (tt_recv_buf_len p)), app_nil_r. by split_and!.
  - cbn -[zlen take drop]. eexists _, _, _, []. split; [done|]. split; [|split; [done|by auto]].
    unfold arrived, unread, buffered. cbn [tt_compatibility tt_expecting_len
      tt_recv_buf tt_recv_buf_len tt_base_socket].
    cbn [im_buffers gv_buffer default from_option im_length id].
    rewrite (take_drop at_ (tt_recv_buf p)). change (zlen (@nil Z)) with 0.
    rewrite (Z.add_0_r (tt_recv_buf_len p)), app_nil_r. by split_and!.
Qed.

(** ** The state between two calls *)

(** [pending p pend]: the bytes of the stream the socket has taken but not
    delivered yet are [pend]. *)
Inductive pending p : list Z -> Prop :=
  | pending_header :
      zlen (tt_recv_buf p) = RECV_BUF_SIZE -> tt_expecting_len p = 0 ->
      0 <= tt_recv_buf_len p < header_len (tt_compatibility p) ->
      pending p (buffered p)
  | pending_body pre e :
      zlen (tt_recv_buf p) = RECV_BUF_SIZE -> tt_expecting_len p = e -> e <> 0 ->
      0 <= tt_recv_buf_len p < e + padding (tt_compatibility p) e ->
      header_len (tt_compatibility p) <= zlen (pre ++ buffered p) ->
      announced (tt_compatibility p)
        (take (Z.to_nat (header_len (tt_compatibility p))) (pre ++ buffered p)) = Some (zlen pre, e) ->
      pending p (pre ++ buffered p).

(** A message that can hold every frame. *)
Definition room (m : NiceInputMessage) : Prop :=
  exists bss, vectors (im_n_buffers m) 0 (im_buffers m) bss /\ RECV_BUF_SIZE <= zlen (concat bss).

(** The part of the last frames that never arrives. *)
Variable tail : list Z.

(** The socket still owes the messages [msgs]: what it has taken, what is
    unread and [tail] are their frames. *)
Definition owes p (msgs : list (list Z)) : Prop :=
  exists pend frs, pending p pend /\ pend ++ unread p ++ tail = concat frs /\
    Forall2 (valid_frame (tt_compatibility p)) frs msgs.

Lemma memcpy_loop_prefix n i bufs data junk acc :
  memcpy_loop n i bufs (data ++ junk) (zlen data) acc = memcpy_loop n i bufs data (zlen data) acc.
Proof.
  revert i data acc. induction bufs as [|v bufs IH]; intros i data acc; [done|].
  cbn [memcpy_loop]. destruct (Z.ltb_spec 0 (zlen data)) as [Hp|]; [|done].
  destruct (has_vector n i (v :: bufs)) as [[]|]; try done. cbn [mbind res_bind].
  set (len := Z.min (gv_size v) (zlen data)).
  unfold rd_bytes. rewrite zlen_app. pose proof (zlen_nonneg junk).
  destruct (Z.leb_spec 0 len); cbn [andb]; [|done].
  destruct (Z.leb_spec (0 + len) (zlen data + zlen junk)); [|lia].
  destruct (Z.leb_spec (0 + len) (zlen data)); [|lia]. cbn [andb Z.leb Z.compare mbind res_bind].
  rewrite slice_app_l by lia. destruct (vector_write v 0 _); [|done]. cbn [mbind res_bind].
  rewrite drop_app_le by (unfold zlen in *; lia).
  assert (E : zlen data - len = zlen (drop (Z.to_nat len) data)) by (rewrite zlen_drop; lia).
  rewrite E. by rewrite IH.
Qed.

Lemma deliver_spec `{GMallocLaws} m buf n :
  room m -> 0 <= n <= RECV_BUF_SIZE -> n <= zlen buf ->
  exists m', memcpy_buffer_to_input_message m buf n = Ok (n, m') /\ im_length m' = n /\
    compact_input_message m' = Ok (take (Z.to_nat n) buf, n).
Proof.
  intros (bss & Hv & Hc) Hn Hb.
  assert (Hl : zlen (take (Z.to_nat n) buf) = n) by (apply zlen_take; lia).
  destruct (memcpy_buffer_to_input_message_vectors m bss (take (Z.to_nat n) buf)) as (m' & E & Hi & Hd);
    [done|lia|]. rewrite Hl in *. exists m'. split; [|done]. rewrite <- E.
  unfold memcpy_buffer_to_input_message.
  rewrite <- (take_drop (Z.to_nat n) buf) at 1.
  pose proof (memcpy_loop_prefix (im_n_buffers m) 0 (im_buffers m) (take (Z.to_nat n) buf)
    (drop (Z.to_nat n) buf) 0) as Hp. rewrite Hl in Hp. by rewrite Hp.
Qed.

(** What one call does. *)
Inductive received `{GMalloc} p (msgs : list (list Z)) : Z * NiceInputMessage * TurnTcpPriv S -> Prop :=
  | received_message m' p' msg rest :
      msgs = msg :: rest -> compact_input_message m' = Ok (msg, zlen msg) -> im_length m' = zlen msg ->
      0 < zlen msg -> tt_compatibility p' = tt_compatibility p -> owes p' rest ->
      received p msgs (zlen msg, m', p')
  | received_nothing ret m' p' :
      ret <= 0 -> tt_compatibility p' = tt_compatibility p -> owes p' msgs ->
      received p msgs (ret, m', p').

Lemma u32_body e pad : 0 <= e < 65600 -> 0 <= pad < 4 -> u32 (e + pad) = e + pad.
Proof. intros. apply u32_small. lia. Qed.

Lemma head_frame c (pend rest fr frs : list Z) :
  header_len c <= zlen pend -> header_len c < zlen fr -> pend ++ rest = fr ++ frs ->
  take (Z.to_nat (header_len c)) pend = take (Z.to_nat (header_len c)) fr.
Proof.
  intros H1 H2 E. assert (Ht : take (Z.to_nat (header_len c)) (pend ++ rest) =
    take (Z.to_nat (header_len c)) (fr ++ frs)) by by rewrite E.
  rewrite !take_app_le in Ht by (unfold zlen in *; lia). done.
Qed.

(** The frame a body state is in. *)
Lemma body_frame p pre e rest frs msgs :
  header_len (tt_compatibility p) <= zlen (pre ++ buffered p) ->
  announced (tt_compatibility p)
    (take (Z.to_nat (header_len (tt_compatibility p))) (pre ++ buffered p)) = Some (zlen pre, e) ->
  0 < zlen (pre ++ buffered p) ->
  (pre ++ buffered p) ++ rest = concat frs -> Forall2 (valid_frame (tt_compatibility p)) frs msgs ->
  exists fr frs' msgs', frs = fr :: frs' /\ msgs = drop (length pre) fr :: msgs' /\
    Forall2 (valid_frame (tt_compatibility p)) frs' msgs' /\
    zlen fr = zlen pre + (e + padding (tt_compatibility p) e) /\ 0 <= e < 65600 /\
    e + padding (tt_compatibility p) e <= RECV_BUF_SIZE /\ header_len (tt_compatibility p) < zlen fr.
Proof.
  intros Hh Ha Hp E Hf. destruct Hf as [|fr msg frs msgs Hv Hf].
  { simpl in E. apply app_eq_nil in E as [E _]. rewrite E in Hp. done. }
  destruct Hv as (skip & e' & Ha' & Hz & Hlt & Hmax & -> & Hby). simpl in E.
  rewrite (head_frame _ _ _ _ _ Hh Hlt E), Ha' in Ha. injection Ha as -> ->.
  exists fr, frs, msgs. rewrite to_nat_zlen. split_and!; try done.
  all: apply announced_range in Ha' as (_ & ? & _); [lia|].
  all: by apply Forall_take.
Qed.

Lemma recv_body_spec `{GMallocLaws} p m pre frs msgs :
  zlen (tt_recv_buf p) = RECV_BUF_SIZE -> room m ->
  let e := tt_expecting_len p in
  e <> 0 -> 0 <= tt_recv_buf_len p < e + padding (tt_compatibility p) e ->
  header_len (tt_compatibility p) <= zlen (pre ++ buffered p) -> 0 < zlen (pre ++ buffered p) ->
  announced (tt_compatibility p)
    (take (Z.to_nat (header_len (tt_compatibility p))) (pre ++ buffered p)) = Some (zlen pre, e) ->
  (pre ++ buffered p) ++ unread p ++ tail = concat frs ->
  Forall2 (valid_frame (tt_compatibility p)) frs msgs ->
  exists r, recv_body p m = Ok r /\ received p msgs r.
Proof.
  intros Hb Hm e He Hl Hh Hp Ha E Hf.
  destruct (body_frame p pre e (unread p ++ tail) frs msgs) as
    (fr & frs' & msgs' & -> & -> & Hf' & Hz & Hr & Hmax & Hlt); try done.
  pose proof (padding_range (tt_compatibility p) e) as Hpad.
  unfold recv_body. fold e. fold (padding (tt_compatibility p) e).
  rewrite u32_body by lia. rewrite u64_small by lia.
  destruct (recv_into_spec p (e + padding (tt_compatibility p) e - tt_recv_buf_len p) (im_from m))
    as (ret & from & p' & d & -> & (Hc & Hx & Hb' & Hl' & Hbuf & Hu) & Hd & Hret); [done|lia..|].
  cbn [mbind res_bind]. set (m1 := mkInput _ _ from _).
  pose proof (zlen_nonneg d) as Hdn.
  assert (E' : (pre ++ buffered p') ++ unread p' ++ tail = fr ++ concat frs').
  { rewrite Hbuf. change (fr ++ concat frs') with (concat (fr :: frs')). rewrite <- E, Hu.
    by rewrite <- !app_assoc. }
  assert (Hbl : zlen (buffered p') = tt_recv_buf_len p').
  { unfold buffered. apply zlen_take. lia. }
  assert (Howe : tt_recv_buf_len p' < e + padding (tt_compatibility p) e ->
    owes p' (drop (length pre) fr :: msgs')).
  { intros Hlt'. exists (pre ++ buffered p'), (fr :: frs'). rewrite Hc.
    assert (Hh' : header_len (tt_compatibility p) <= zlen (pre ++ buffered p')).
    { rewrite Hbuf. rewrite !zlen_app in *. lia. }
    split; [|split; [done|constructor; [|done]]].
    - apply (pending_body p' pre e); rewrite ?Hc; try done; try lia.
      rewrite (head_frame _ _ _ _ _ Hh' Hlt E'). rewrite <- Ha. symmetry. f_equal.
      apply (head_frame _ _ (unread p ++ tail) _ (concat frs')); done.
    - inversion Hf; by subst. }
  destruct (Z.ltb_spec ret 0) as [Hneg|Hpos].
  { eexists. split; [done|]. apply received_nothing; [lia|done|]. apply Howe.
    destruct Hret as [->|[_ ->]]; [lia|]. rewrite Hl', zlen_nil. lia. }
  rewrite Hc, Hx. fold e. rewrite u32_body by lia.
  destruct (Z.eqb_spec (tt_recv_buf_len p') (e + padding (tt_compatibility p) e)) as [Heq|Hne].
  - destruct (deliver_spec m1 (tt_recv_buf p') (tt_recv_buf_len p')) as (m2 & -> & Hm2 & Hm2d).
    { by destruct Hm as (bss & ? & ?); exists bss. } { lia. } { lia. }
    fold (buffered p') in Hm2d. cbn [mbind res_bind].
    assert (Hfull : pre ++ buffered p' = fr /\ unread p' ++ tail = concat frs').
    { apply app_inj_1; [|done]. apply Nat2Z.inj. fold (zlen (pre ++ buffered p')) (zlen fr).
      rewrite zlen_app. lia. }
    destruct Hfull as [<- Hrest]. rewrite drop_app_length in *. 
    eexists. split; [done|].
    rewrite <- Hbl in Hm2, Hm2d. rewrite <- Hbl at 1.
    eapply received_message; try done.
    + rewrite Hbl, Heq. lia.
    + exists [], frs'. cbn. split; [|by split].
      apply (pending_header (mkTurnTcp S (tt_compatibility p) (tt_recv_buf p') 0 0 (tt_base_socket p')));
        cbn; try done.
      split; [done|]. by eapply announced_header.
  - eexists. split; [done|]. apply received_nothing; [lia|done|]. apply Howe. lia.
Qed.

(** ** The header *)

Lemma rd_u16_eq buf l a b r off :
  buf = l ++ [a; b] ++ r -> off = zlen l -> rd_u16 buf off = Ok (le_value [a; b]).
Proof. intros -> ->. unfold rd_u16. by rewrite (rd_bytes_eq _ l [a; b] r). Qed.

Lemma parse_header_spec p skip e :
  zlen (tt_recv_buf p) = RECV_BUF_SIZE ->
  tt_recv_buf_len p = header_len (tt_compatibility p) -> bytes (buffered p) ->
  announced (tt_compatibility p) (buffered p) = Some (skip, e) ->
  exists p' pre, parse_header p = Ok (Some p') /\ pre ++ buffered p' = buffered p /\
    zlen pre = skip /\ tt_expecting_len p' = e /\ tt_compatibility p' = tt_compatibility p /\
    zlen (tt_recv_buf p') = RECV_BUF_SIZE /\ tt_recv_buf_len p' = header_len (tt_compatibility p) - skip /\
    unread p' = unread p.
Proof.
  intros Hz Hl Hb Ha. unfold parse_header, unread, RECV_BUF_SIZE in *.
  assert (Ebuf : tt_recv_buf p = buffered p ++ drop (Z.to_nat (tt_recv_buf_len p)) (tt_recv_buf p))
    by (unfold buffered; by rewrite take_drop).
  set (t := drop _ (tt_recv_buf p)) in Ebuf.
  unfold buffered in *. rewrite Hl in *. 
  destruct (tt_compatibility p) eqn:Ec; cbn [header_len announced] in *; try done;
    set (hdr := take _ (tt_recv_buf p)) in *;
    destruct hdr as [|a [|b [|x [|y [|]]]]] eqn:Eh; try done;
    rewrite ?bytes_cons in Hb; destruct_and?; rewrite Ebuf in Hz |- *.
  all: cbn [tt_compatibility tt_recv_buf tt_recv_buf_len tt_expecting_len tt_base_socket].
  1,4: rewrite (rd_u16_eq ([a; b; x; y] ++ t) [] a b ([x; y] ++ t) 0),
         (rd_u16_eq ([a; b; x; y] ++ t) [a; b] x y t 2) by done;
    cbn [mbind res_bind]; rewrite !ntohs_le_value by done;
    injection Ha as <- <-; eexists _, []; split; [done|]; cbn [app];
    cbn [tt_compatibility tt_recv_buf tt_recv_buf_len tt_expecting_len tt_base_socket];
    split_and!; try done; by destruct (_ <? _).
  - rewrite (rd_u16_eq ([a; b] ++ t) [] a b t 0) by done. cbn [mbind res_bind]. rewrite ntohs_le_value by done.
    injection Ha as <- <-. eexists _, [a; b]. split; [done|]. by split_and!.
  - destruct ((a =? _) || _) eqn:Ho; [|done]. injection Ha as <- <-.
    assert (R : rd ([a; b; x; y] ++ t) 0 = Ok a) by apply rd_hd. rewrite R.
    rewrite (rd_u16_eq ([a; b; x; y] ++ t) [a; b] x y t 2) by done. cbn [mbind res_bind].
    rewrite ntohs_le_value by done.
    rewrite <- negb_orb, Ho. cbn [negb].
    change (slice ([a; b; x; y] ++ t) 2 2) with [x; y].
    rewrite (wr_bytes_eq _ [] [a; b] [x; y] ([x; y] ++ t)) by done. cbn [mbind res_bind].
    eexists _, [a; b]. split; [done|]. by split_and!.
Qed.

Context {M : GMalloc} {ML : GMallocLaws}.

Lemma received_compat p p' msgs r :
  tt_compatibility p' = tt_compatibility p -> received p' msgs r -> received p msgs r.
Proof.
  intros Hc Hr. destruct Hr as [m q msg rest ? ? ? ? Hq ?|ret m q ? Hq ?].
  - eapply received_message; try done. by rewrite Hq.
  - apply received_nothing; try done. by rewrite Hq.
Qed.

(** One call, from any state between calls: no fault, and either the next
    message is delivered or nothing is. *)
Lemma recv_message_spec p m msgs :
  owes p msgs -> room m -> exists r, turn_tcp_recv_message p m = Ok r /\ received p msgs r.
Proof.
  intros (pend & frs & Hpend & E & Hf) Hm. unfold turn_tcp_recv_message.
  destruct Hpend as [Hb He Hl|pre e Hb He Hne Hl Hh Ha].
  2: { rewrite He. destruct (Z.eqb_spec e 0); [done|]. subst e.
       eapply recv_body_spec; try done. pose proof (announced_header _ _ _ Ha). lia. }
  rewrite He. cbn [Z.eqb]. set (c := tt_compatibility p) in *.
  assert (Hc : forall (A : Type) (a b : A),
    match c with NICE_TURN_SOCKET_COMPATIBILITY_MSN => a | _ => b end = b).
  { intros. destruct c; try done. simpl in Hl. lia. }
  rewrite Hc. clear Hc.
  assert (Hhl : header_len c <= 4) by (by destruct c).
  rewrite u64_small by lia.
  destruct (recv_into_spec p (header_len c - tt_recv_buf_len p) (im_from m))
    as (ret & from & p' & d & -> & (Hc & Hx & Hb' & Hl' & Hbuf & Hu) & Hd & Hret);
    [done|unfold RECV_BUF_SIZE; lia..|].
  cbn [mbind res_bind]. set (m1 := mkInput _ _ from _). pose proof (zlen_nonneg d) as Hdn.
  assert (E' : buffered p' ++ unread p' ++ tail = concat frs)
    by (rewrite Hbuf, <- E, Hu; by rewrite <- !app_assoc).
  assert (Howe : tt_recv_buf_len p' < header_len c -> owes p' msgs).
  { intros. exists (buffered p'), frs. rewrite Hc. split; [|done].
    apply pending_header; rewrite ?Hc, ?Hx; try done.
    fold c. lia. }
  destruct (Z.ltb_spec ret 0).
  { eexists. split; [done|]. apply received_nothing; [lia|done|]. apply Howe.
    destruct Hret as [->|[_ ->]]; [lia|]. rewrite Hl', zlen_nil. lia. }
  destruct (Z.ltb_spec (tt_recv_buf_len p') (header_len c)) as [Hlt|Hge].
  { eexists. split; [done|]. apply received_nothing; [lia|done|]. by apply Howe. }
  assert (Hlen : tt_recv_buf_len p' = header_len c) by lia.
  assert (Hz : zlen (buffered p') = header_len c)
    by (unfold buffered; rewrite zlen_take; unfold RECV_BUF_SIZE in *; lia).
  destruct Hf as [|fr msg frs msgs Hv Hf].
  { simpl in E'. apply app_eq_nil in E' as [E' _]. rewrite E', zlen_nil in Hz. lia. }
  assert (Hv' := Hv). destruct Hv' as (skip & e & Ha & Hfz & Hflt & Hmax & -> & Hby).
  assert (Eh : buffered p' = take (Z.to_nat (header_len c)) fr).
  { rewrite <- (head_frame c (buffered p') (unread p' ++ tail) fr (concat frs)); [|lia|lia|done].
    rewrite firstn_all2; [done|]. unfold zlen in *. lia. }
  rewrite <- Eh in Ha.
  assert (Hbb : bytes (buffered p')) by (rewrite Eh; by apply Forall_take).
  destruct (parse_header_spec p' skip e) as (p2 & pre & -> & Epre & Hskip & He2 & Hc2 & Hb2 & Hl2 & Hu2);
    rewrite ?Hc; try done.
  cbn [mbind res_bind].
  destruct (announced_range _ _ _ _ Hbb Ha) as (Hsk & Her & _).
  assert (Hc2' : tt_compatibility p2 = c) by (by rewrite Hc2).
  assert (Hpad : e = 0 -> padding c e = 0).
  { intros ->. unfold padding. by destruct (padded_compat c). }
  destruct (recv_body_spec p2 m1 pre (fr :: frs) (drop (Z.to_nat skip) fr :: msgs))
    as (r & Er & Hr); rewrite ?Hc2', ?Epre, ?He2; try done.
  - intros ->. rewrite Hpad in Hfz by done. lia.
  - rewrite Hl2, Hc. fold c. lia.
  - lia.
  - lia.
  - rewrite firstn_all2 by (unfold zlen in *; lia). by rewrite Hskip.
  - by rewrite Hu2.
  - by constructor.
  - exists r. split; [done|]. by apply (received_compat _ p2).
Qed.

(** ** Sequences of calls *)

Fixpoint messages_data (ms : list NiceInputMessage) : res (list (list Z)) :=
  match ms with
  | [] => Ok []
  | m :: ms => '(d, _) ← compact_input_message m; ds ← messages_data ms; Ok (d :: ds)
  end.

Lemma recv_loop_spec p i ms msgs :
  owes p msgs -> Forall room ms -> 0 <= i ->
  exists k ret ms' p', turn_tcp_recv_loop p i ms = Ok (ret, ms', p') /\
    (ret = i + Z.of_nat k \/ ret = -1 /\ k = O /\ i = 0) /\ (k <= length msgs)%nat /\
    messages_data (take k ms') = Ok (take k msgs) /\ owes p' (drop k msgs) /\
    tt_compatibility p' = tt_compatibility p.
Proof.
  revert p i msgs. induction ms as [|m ms IH]; intros p i msgs Ho Hr Hi.
  - exists O, i, [], p. split; [done|]. split; [left; lia|]. split_and!; try done. lia.
  - apply Forall_cons in Hr as [Hm Hr]. cbn [turn_tcp_recv_loop].
    destruct (recv_message_spec p m msgs Ho Hm) as (r & -> & Hrec). cbn [mbind res_bind].
    destruct Hrec as [m' p' msg rest -> Hd Hl Hp Hc Ho'|ret m' p' Hret Hc Ho'].
    + destruct (Z.leb_spec (zlen msg) 0); [lia|]. rewrite Z.max_l by lia.
      assert (Em : set_length m' (zlen msg) = m') by (destruct m'; simpl in *; by subst).
      rewrite Em. destruct (IH p' (i + 1) rest Ho' Hr) as (k & ret & ms' & p2 & -> & Hret & Hk & Hds & Ho2 & Hc2);
        [lia|]. cbn [mbind res_bind]. exists (Datatypes.S k), ret, (m' :: ms'), p2. split; [done|].
      split; [left; lia|]. split; [simpl; lia|]. split_and!; try done.
      * cbn [take messages_data]. by rewrite Hd, Hds.
      * by rewrite Hc2.
    + destruct (Z.leb_spec ret 0); [|lia]. eexists O, _, _, _. split; [done|].
      split_and!; try done; [|lia].
      destruct (Z.ltb_spec ret 0); cbn; [|left; lia]. destruct (Z.eqb_spec i 0); [by right|left; lia].
Qed.

(** The calls of a run, with arrays of messages; what they delivered. *)
Fixpoint turn_tcp_run p (calls : list (list NiceInputMessage)) : res (list (list Z) * TurnTcpPriv S) :=
  match calls with
  | [] => Ok ([], p)
  | ms :: calls =>
      '(ret, ms, p) ← turn_tcp_recv_messages p ms;
      ds ← messages_data (take (Z.to_nat ret) ms);
      '(more, p) ← turn_tcp_run p calls;
      Ok (ds ++ more, p)
  end.

Lemma run_spec p calls msgs :
  owes p msgs -> Forall (Forall room) calls ->
  exists k p', turn_tcp_run p calls = Ok (take k msgs, p') /\ owes p' (drop k msgs) /\
    tt_compatibility p' = tt_compatibility p.
Proof.
  revert p msgs. induction calls as [|ms calls IH]; intros p msgs Ho Hc.
  - exists O, p. done.
  - apply Forall_cons in Hc as [Hr Hc]. cbn [turn_tcp_run]. unfold turn_tcp_recv_messages.
    destruct (recv_loop_spec p 0 ms msgs Ho Hr) as (k & ret & ms' & p' & -> & Hret & Hk & Hd & Ho' & Hcc);
      [lia|]. cbn [mbind res_bind].
    assert (Ek : Z.to_nat ret = k) by lia. rewrite Ek, Hd. cbn [mbind res_bind].
    destruct (IH p' (drop k msgs) Ho' Hc) as (k2 & p2 & -> & Ho2 & Hcc2). cbn [mbind res_bind].
    exists (k + k2)%nat, p2. split_and!.
    + do 2 f_equal. rewrite take_take_drop. done.
    + by rewrite <- drop_drop.
    + by rewrite Hcc2.
Qed.

(** When everything was read, nothing is owed. *)
Lemma owes_end p frs msgs pend :
  pending p pend -> pend = concat frs -> Forall2 (valid_frame (tt_compatibility p)) frs msgs -> msgs = [].
Proof.
  intros Hp -> Hf. destruct Hf as [|fr msg frs msgs Hv Hf]; [done|]. exfalso.
  assert (Hv' := Hv). destruct Hv' as (skip & e & Ha & Hz & Hlt & _). simpl in Hp.
  pose proof (zlen_nonneg (concat frs)) as Hc.
  inversion Hp as [Hb He Hl E|pre e' Hb He Hne Hl Hh Ha' E].
  - assert (Hbz : zlen (buffered p) = tt_recv_buf_len p) by (unfold buffered; apply zlen_take; unfold zlen in *;
      pose proof (announced_header _ _ _ Ha); destruct (tt_compatibility p); simpl in *; unfold RECV_BUF_SIZE in *; lia).
    rewrite E, zlen_app in Hbz. lia.
  - destruct (body_frame p pre e' [] (fr :: frs) (msg :: msgs)) as
      (fr' & frs' & msgs' & [= <- <-] & _ & _ & Hz' & _ & Hmax & _); try done.
    + pose proof (announced_header _ _ _ Ha'). lia.
    + rewrite app_nil_r. by rewrite E.
    + by constructor.
    + assert (Hbz : zlen (buffered p) = tt_recv_buf_len p)
        by (unfold buffered; apply zlen_take; lia).
      assert (Hl2 : zlen (pre ++ buffered p) = zlen (fr ++ concat frs)) by by rewrite E.
      rewrite !zlen_app in Hl2. lia.
Qed.
End receive.

(** ** The frames the sender writes *)

Definition vector_holds (v : GVector) (b : list Z) : Prop :=
  exists bs, gv_buffer v = Some (b ++ bs) /\ gv_size v = zlen b.

Lemma vectors_split n i bufs bss :
  vectors n i bufs bss -> exists vs rest, bufs = vs ++ rest /\ Forall2 vector_holds vs bss /\
    has_vector n (i + zlen bss) rest = Ok false /\ (0 <= n -> i <= n -> i + zlen bss = n).
Proof.
  induction 1 as [i bufs H|i v rest b bs bss H Hb Hs Hv (vs & r & -> & Hf & Hh & Hn)].
  - exists [], bufs. rewrite Z.add_0_r. split_and!; try done. intros H0 H1.
    unfold has_vector in H. destruct (Z.leb_spec 0 n); [|lia]. injection H as H.
    bool_prop. lia.
  - exists (v :: vs), r. split; [done|]. split; [constructor; [by exists bs|done]|].
    rewrite zlen_cons, Z.add_assoc. split; [done|]. intros H0 H1. apply Hn; [done|].
    unfold has_vector in H. destruct (Z.leb_spec 0 n); [|lia]. injection H as H. bool_prop. lia.
Qed.

Lemma vectors_exact vs bss rest i :
  Forall2 vector_holds vs bss -> 0 <= i -> vectors (i + zlen vs) i (vs ++ rest) bss.
Proof.
  intros Hf. revert i. induction Hf as [|v b vs bss (bs & Hb & Hs) Hf IH]; intros i Hi.
  - apply vectors_end. rewrite zlen_nil, Z.add_0_r. unfold has_vector.
    destruct (Z.leb_spec 0 i); [|lia]. by rewrite Z.ltb_irrefl.
  - pose proof (zlen_nonneg vs). rewrite zlen_cons, Z.add_assoc. eapply vectors_next; try done.
    + unfold has_vector. destruct (Z.leb_spec 0 (i + 1 + zlen vs)); [|lia].
      destruct (Z.ltb_spec i (i + 1 + zlen vs)); [done|lia].
    + apply IH. lia.
Qed.

Lemma count_buffers_holds vs bss rest :
  Forall2 vector_holds vs bss -> has_vector (-1) (zlen bss) rest = Ok false ->
  count_buffers (vs ++ rest) = Ok (zlen vs).
Proof.
  intros Hf Hr. assert (Hr' : has_vector (-1) 0 rest = Ok false) by done. clear Hr.
  induction Hf as [|v b vs bss (bs & Hb & Hs) Hf IH].
  - destruct rest as [|v rest]; [done|]. cbn in Hr' |- *. destruct (gv_buffer v); done.
  - cbn [count_buffers app]. rewrite Hb, IH. cbn [mbind res_bind]. by rewrite zlen_cons.
Qed.

Lemma cookie_loop_ok vs bss off :
  Forall2 vector_holds vs bss -> 0 <= off <= MAGIC_COOKIE_OFFSET ->
  exists r, cookie_loop vs off = Ok r.
Proof.
  intros Hf. revert off. change MAGIC_COOKIE_OFFSET with 26.
  induction Hf as [|v b vs bss (bs & Hb & Hs) Hf IH]; intros off Ho; [by eexists|].
  cbn [cookie_loop]. change MAGIC_COOKIE_OFFSET with 26. rewrite Hs. pose proof (zlen_nonneg b).
  destruct (Z.ltb_spec (26 - off) (zlen b)).
  - destruct (Z.ltb_spec (4 + 26 - off) (zlen b)); [|by eexists].
    rewrite (vector_read_app v b bs) by (auto; lia). by eexists.
  - apply IH. rewrite u16_small; lia.
Qed.

(** The bytes on the wire for the message [data]. *)
Definition is_frame (c : NiceTurnSocketCompatibility) (data fr : list Z) : Prop :=
  match c with
  | NICE_TURN_SOCKET_COMPATIBILITY_DRAFT9 | NICE_TURN_SOCKET_COMPATIBILITY_RFC5766 =>
      fr = data ++ replicate (Z.to_nat (pad_len (zlen data))) 0
  | NICE_TURN_SOCKET_COMPATIBILITY_GOOGLE => fr = be_bytes 2 (zlen data) ++ data
  | NICE_TURN_SOCKET_COMPATIBILITY_OC2007 =>
      fr = [MS_TURN_CONTROL_MESSAGE; 0] ++ data \/ fr = [MS_TURN_END_TO_END_DATA; 0] ++ data
  | NICE_TURN_SOCKET_COMPATIBILITY_MSN => fr = data
  end.

Lemma holds_vectors vs bss data n :
  Forall2 vector_holds vs bss -> data = concat bss -> zlen data < 2 ^ 64 -> n = zlen vs ->
  holds (mkOutput vs n) data.
Proof.
  intros Hf -> Hl ->. exists bss. split; [|done]. simpl.
  rewrite <- (app_nil_r vs) at 2. by apply (vectors_exact vs bss [] 0).
Qed.

Lemma turn_tcp_frame_holds c m data :
  holds m data -> -1 <= om_n_buffers m < 2 ^ 32 -> zlen data + 4 < 2 ^ 64 ->
  exists m' fr, turn_tcp_frame c m = Ok m' /\ holds m' fr /\ is_frame c data fr.
Proof.
  intros Hh Hn Hl. pose proof (output_message_get_size_holds m data Hh) as Hsize.
  destruct Hh as (bss & Hv & Hdata & _). apply vectors_split in Hv as (vs & rest & Hbufs & Hf & Hend & Hnum).
  pose proof (Forall2_length _ _ _ Hf) as Hlen.
  assert (Hz : zlen bss = zlen vs) by (unfold zlen; lia). rewrite Z.add_0_l in Hend.
  assert (Hcount : (if om_n_buffers m =? -1 then count_buffers (om_buffers m)
            else Ok (u32 (om_n_buffers m))) = Ok (zlen vs)).
  { destruct (Z.eqb_spec (om_n_buffers m) (-1)) as [E|E].
    - rewrite E in Hend. rewrite Hbufs. by apply (count_buffers_holds vs bss rest).
    - rewrite u32_small by lia. f_equal. rewrite <- Hz. symmetry. rewrite <- (Z.add_0_l (zlen bss)).
      apply Hnum; lia. }
  assert (Htake : take (Z.to_nat (zlen vs)) (om_buffers m) = vs)
    by (rewrite Hbufs, to_nat_zlen; apply take_app_length).
  unfold turn_tcp_frame. rewrite Hcount. cbn [mbind res_bind]. rewrite Htake, Hsize.
  destruct (Z.ltb_spec (zlen (om_buffers m)) (zlen vs)) as [Hbad|_].
  { rewrite Hbufs in Hbad. zlia. }
  pose proof (tcp_pad_range (zlen data)) as Hpad. pose proof (zlen_nonneg data) as Hdn.
  assert (Hpadded : exists fr, holds (mkOutput (vs ++ [mkVector (Some [0; 0; 0]) (pad_len (zlen data))])
      (zlen vs + 1)) fr /\ fr = data ++ replicate (Z.to_nat (pad_len (zlen data))) 0).
  { eexists. split; [|done].
    apply (holds_vectors _ (bss ++ [replicate (Z.to_nat (pad_len (zlen data))) 0])).
    - apply Forall2_app; [done|]. constructor; [|constructor].
      exists (replicate (3 - Z.to_nat (pad_len (zlen data))) 0). split.
      + simpl. rewrite <- replicate_add. by replace (_ + _)%nat with 3%nat by lia.
      + rewrite zlen_replicate. simpl. lia.
    - rewrite concat_app. simpl. by rewrite app_nil_r, Hdata.
    - rewrite zlen_app, zlen_replicate. lia.
    - zlia. }
  assert (Hfront : forall h, zlen h = 2 -> holds (mkOutput (mkVector (Some h) 2 :: vs) (zlen vs + 1)) (h ++ data)).
  { intros h H2. apply (holds_vectors _ (h :: bss)).
    - constructor; [|done]. exists []. by rewrite app_nil_r.
    - by rewrite Hdata.
    - rewrite zlen_app. lia.
    - zlia. }
  destruct c; cbn [mbind res_bind].
  - destruct Hpadded as (fr & Hfr & E). by eexists _, fr.
  - eexists _, _. split; [done|]. split; [apply Hfront; apply zlen_le_bytes|].
    cbn [is_frame]. rewrite <- le_bytes_htons. unfold htons, u16. by rewrite Zmod_mod.
  - eexists _, data. split; [done|]. split; [|done]. apply (holds_vectors _ bss); auto. lia.
  - assert (Hcl : exists r, (if 4 + MAGIC_COOKIE_OFFSET <? u16 (zlen data) then cookie_loop vs 0 else Ok None) = Ok r).
    { destruct (_ <? _); [|by eexists]. apply (cookie_loop_ok vs bss); [done|].
      change MAGIC_COOKIE_OFFSET with 26. lia. }
    destruct Hcl as [r ->]. cbn [mbind res_bind]. eexists _, _. split; [done|].
    split; [apply Hfront; reflexivity|]. cbn [is_frame].
    match goal with |- context [if ?b then _ else _] => destruct b end; [by left|by right].
  - destruct Hpadded as (fr & Hfr & E). by eexists _, fr.
Qed.

(** The messages that can be framed: with STUN framing, a STUN message or
    channel data whose header tells its length; with OC2007, a message with
    the RFC 4571 length in front. *)
Definition sendable (c : NiceTurnSocketCompatibility) (data : list Z) : Prop :=
  bytes data /\
  match c, data with
  | (NICE_TURN_SOCKET_COMPATIBILITY_DRAFT9 | NICE_TURN_SOCKET_COMPATIBILITY_RFC5766), a :: b :: x :: y :: _ =>
      zlen data = (if be_value [a; b] <? 0x4000 then 20 else 4) + be_value [x; y] /\
      4 < zlen data <= RECV_BUF_SIZE
  | NICE_TURN_SOCKET_COMPATIBILITY_GOOGLE, _ => 0 < zlen data < 65536
  | NICE_TURN_SOCKET_COMPATIBILITY_OC2007, x :: y :: _ =>
      zlen data = be_value [x; y] + 2 /\ 2 < zlen data <= RECV_BUF_SIZE
  | _, _ => False
  end.

(** What the receiver delivers for it: with STUN framing, the padding stays. *)
Definition delivered (c : NiceTurnSocketCompatibility) (data : list Z) : list Z :=
  if padded_compat c then data ++ replicate (Z.to_nat (pad_len (zlen data))) 0 else data.

Lemma pad_len_fits n : n <= RECV_BUF_SIZE -> n + pad_len n <= RECV_BUF_SIZE.
Proof.
  unfold pad_len, RECV_BUF_SIZE. intros H. destruct (Z.eqb_spec (n mod 4) 0); [lia|].
  Z.to_euclidean_division_equations. lia.
Qed.

Lemma sendable_valid c data fr :
  sendable c data -> is_frame c data fr -> valid_frame c fr (delivered c data).
Proof.
  intros [Hb Hs] Hf. pose proof (tcp_pad_range (zlen data)) as Hp.
  unfold valid_frame, delivered, padding.
  assert (Hpb : bytes (replicate (Z.to_nat (pad_len (zlen data))) 0)) by (by apply bytes_replicate).
  destruct c; cbn [padded_compat header_len is_frame] in *; try done.
  1,4: destruct data as [|a [|b [|x [|y data]]]]; try done;
    destruct Hs as [Hlen Hmax]; pose proof (pad_len_fits _ (proj2 Hmax));
    exists 0, (zlen (a :: b :: x :: y :: data)); rewrite Hf;
    split; [cbn [announced take app]; by rewrite Hlen|];
    rewrite zlen_app, zlen_replicate, Z2Nat.id by lia;
    split_and!; try done; try lia; by apply bytes_app.
  - exists 2, (zlen data). rewrite Hf.
    destruct (be_bytes 2 (zlen data)) as [|x [|y [|]]] eqn:E;
      try (pose proof (zlen_be_bytes 2 (zlen data)) as Hz; rewrite E in Hz; done).
    assert (Hv : be_value [x; y] = zlen data).
    { rewrite <- E, be_value_bytes. apply Z.mod_small. simpl. lia. }
    split; [transitivity (Some (2, be_value [x; y])); [done|by rewrite Hv]|].
    pose proof (bytes_be_bytes 2 (zlen data)) as Hbb. rewrite E in Hbb.
    unfold RECV_BUF_SIZE. rewrite zlen_app. change (zlen [x; y]) with 2.
    split_and!; try done; try lia. by apply bytes_app.
  - destruct data as [|x [|y data]]; try done. destruct Hs as [Hlen Hmax].
    set (d := x :: y :: data) in *.
    assert (exists pt, fr = [pt; 0] ++ d /\ (pt = 2 \/ pt = 3)) as (pt & -> & Hpt).
    { destruct Hf as [->| ->]; eexists; (split; [done|]); auto. }
    exists 2, (zlen d). rewrite zlen_app. change (zlen [pt; 0]) with 2.
    split; [rewrite Hlen; by destruct Hpt as [-> | ->]|].
    unfold RECV_BUF_SIZE in *. split_and!; try done; try lia.
    apply bytes_app. split; [|done]. rewrite !bytes_cons. unfold is_byte.
    split_and!; try lia. apply bytes_nil.
Qed.

Lemma holds_unique m d1 d2 : holds m d1 -> holds m d2 -> d1 = d2.
Proof.
  intros (b1 & H1 & -> & _) (b2 & H2 & -> & _).
  apply gather_loop_vectors in H1, H2. congruence.
Qed.

Lemma new_buffered {S : Type} {NS : NiceSocket S} (base : S) c :
  buffered (nice_udp_turn_over_tcp_socket_new base c) = [].
Proof.
  unfold buffered, nice_udp_turn_over_tcp_socket_new. cbn [tt_recv_buf_len tt_recv_buf].
  change (Z.to_nat 0) with O. apply take_0.
Qed.

Lemma new_pending {S : Type} {NS : NiceSocket S} (base : S) c :
  0 < header_len c ->
  let p := nice_udp_turn_over_tcp_socket_new base c in pending p (buffered p).
Proof.
  intros Hc p. apply pending_header; unfold p, nice_udp_turn_over_tcp_socket_new;
    cbn [tt_recv_buf tt_expecting_len tt_recv_buf_len tt_compatibility].
  - rewrite zlen_replicate, Z2Nat.id; [done|]. unfold RECV_BUF_SIZE. lia.
  - done.
  - lia.
Qed.

(** ** Theorems *)

(** C5: TURN over TCP delivers what was sent.  Whatever sequence of vectored
    messages is framed with [socket_send_message], and whatever way the bytes
    of the frames then arrive at the other end (cut into any segments, with
    reads that block or fail in between, and possibly cut off before the end),
    the calls of [socket_recv_messages] never fault and deliver the messages in
    order, each once and whole (padded to four bytes with STUN framing); when
    all the bytes were read, all messages have been delivered. *)
Theorem turn_tcp_roundtrip {S : Type} {NS : NiceSocket S} {SS : StreamSocket S} {M : GMalloc}
    {ML : GMallocLaws} (c : NiceTurnSocketCompatibility) (sends : list NiceOutputMessage)
    (datas frames : list (list Z)) (base : S) (missing : list Z) (calls : list (list NiceInputMessage)) :
  c <> NICE_TURN_SOCKET_COMPATIBILITY_MSN ->
  Forall2 (fun m data => holds m data /\ -1 <= om_n_buffers m < 2 ^ 32 /\ sendable c data) sends datas ->
  Forall2 (fun m fr => exists m', turn_tcp_frame c m = Ok m' /\ holds m' fr) sends frames ->
  ss_unread base ++ missing = concat frames ->
  Forall (Forall room) calls ->
  exists k p', turn_tcp_run (nice_udp_turn_over_tcp_socket_new base c) calls =
      Ok (take k (map (delivered c) datas), p') /\
    (ss_unread (tt_base_socket p') = [] -> missing = [] -> (length datas <= k)%nat).
Proof.
  intros Hc Hsends Hframes Hun Hcalls.
  assert (Hvalid : Forall2 (valid_frame c) frames (map (delivered c) datas)).
  { clear Hun. revert frames Hframes.
    induction Hsends as [|m data sends datas (Hh & Hn & Hs) Hsends IH]; intros frames Hframes.
    - inversion Hframes. constructor.
    - inversion Hframes as [|? fr ? frames' (m' & Hm' & Hfr) Hframes']; subst.
      constructor; [|by apply IH]. apply sendable_valid; [done|].
      destruct (turn_tcp_frame_holds c m data) as (m2 & fr2 & E2 & Hfr2 & Hf2); [done|done| |].
      { destruct Hs as [_ Hs]. destruct c; try done.
        2: lia.
        1,3: destruct data as [|? [|? [|? [|? ?]]]]; try done; unfold RECV_BUF_SIZE in *; lia.
        destruct data as [|? [|? ?]]; try done; unfold RECV_BUF_SIZE in *; lia. }
      rewrite Hm' in E2. injection E2 as <-. by rewrite (holds_unique m' fr fr2). }
  assert (Hh : 0 < header_len c) by (by destruct c).
  set (p := nice_udp_turn_over_tcp_socket_new base c).
  assert (Ho : owes missing p (map (delivered c) datas)).
  { exists (buffered p), frames. split; [apply new_pending; done|].
    unfold p. rewrite new_buffered. by split. }
  destruct (run_spec missing p calls _ Ho Hcalls) as (k & p' & E & Ho' & Hcc).
  exists k, p'. split; [done|]. intros Hu Hm.
  destruct Ho' as (pend & frs & Hp & Ep & Hf). unfold unread in Ep.
  rewrite Hu, Hm, !app_nil_r in Ep. apply (owes_end p' frs _ pend) in Hf; [|done|done].
  apply (f_equal length) in Hf. rewrite length_drop, length_map in Hf. simpl in Hf. lia.
Qed.

Definition big_message : NiceInputMessage :=
  mkInput [mkVector (Some (replicate (Z.to_nat RECV_BUF_SIZE) 0)) RECV_BUF_SIZE] 1 None 0.

Lemma big_message_room : room big_message.
Proof.
  exists [replicate (Z.to_nat RECV_BUF_SIZE) 0].
  assert (Hz : zlen (replicate (Z.to_nat RECV_BUF_SIZE) 0) = RECV_BUF_SIZE)
    by (rewrite zlen_replicate, Z2Nat.id; [done|]; unfold RECV_BUF_SIZE; lia).
  split.
  - unfold big_message. cbn [im_n_buffers im_buffers].
    apply (vectors_next 1 0 _ [] _ []); [done| | |by apply vectors_end].
    + cbn [gv_buffer]. by rewrite app_nil_r.
    + by rewrite Hz.
  - cbn [concat]. rewrite app_nil_r, Hz. lia.
Qed.

(** Two messages in channel 0x4000, of one and two vectors. *)
Definition ex_turn_sends : list NiceOutputMessage :=
  [one_vector [0x40; 0; 0; 5; 1; 2; 3; 4; 5];
   mkOutput [mkVector (Some [0x40; 0; 0; 1]) 4; mkVector (Some [7]) 1] 2].
Definition ex_turn_datas : list (list Z) := [[0x40; 0; 0; 5; 1; 2; 3; 4; 5]; [0x40; 0; 0; 1; 7]].
Definition ex_turn_frames : list (list Z) :=
  [[0x40; 0; 0; 5; 1; 2; 3; 4; 5; 0; 0; 0]; [0x40; 0; 0; 1; 7; 0; 0; 0]].
Definition ex_turn_base : TcpPriv ScriptSocket :=
  nice_tcp_bsd_socket_new_from_gsock
    (mkScript [] [] [[0x40; 0; 0]; [5; 1]; [2; 3; 4; 5; 0; 0; 0; 0x40]; [0; 0; 1; 7]; [0; 0; 0]])
    nice_address_init true.

Lemma turn_tcp_roundtrip_witness :
  ss_unread ex_turn_base ++ [] = concat ex_turn_frames /\
  exists k p', turn_tcp_run (nice_udp_turn_over_tcp_socket_new ex_turn_base
      NICE_TURN_SOCKET_COMPATIBILITY_RFC5766) (replicate 8 [big_message]) =
      Ok (take k (map (delivered NICE_TURN_SOCKET_COMPATIBILITY_RFC5766) ex_turn_datas), p') /\
    (ss_unread (tt_base_socket p') = [] -> @nil Z = [] -> (length ex_turn_datas <= k)%nat).
Proof.
  split; [reflexivity|].
  refine (turn_tcp_roundtrip NICE_TURN_SOCKET_COMPATIBILITY_RFC5766 ex_turn_sends ex_turn_datas
    ex_turn_frames ex_turn_base [] (replicate 8 [big_message]) _ _ _ _ _).
  - done.
  - repeat constructor; simpl; try lia; try done.
    + by apply holds_one_vector.
    + unfold holds; simpl. exists [[0x40; 0; 0; 1]; [7]]. split; [|done].
      repeat (eapply vectors_next with (bs := []); [done|done|done|]). by apply vectors_end.
  - constructor; [|constructor; [|constructor]]; (eexists; split; [vm_compute; reflexivity|]).
    + apply (holds_vectors _ [[0x40; 0; 0; 5; 1; 2; 3; 4; 5]; [0; 0; 0]]); try reflexivity.
      repeat (constructor; [by exists []|]). constructor.
    + apply (holds_vectors _ [[0x40; 0; 0; 1]; [7]; [0; 0; 0]]); try reflexivity.
      repeat (constructor; [by exists []|]). constructor.
  - reflexivity.
  - repeat constructor; apply big_message_room.
Defined.

Example ex_turn_run :
  match turn_tcp_run (nice_udp_turn_over_tcp_socket_new ex_turn_base
      NICE_TURN_SOCKET_COMPATIBILITY_RFC5766) (replicate 8 [big_message]) with
  | Ok (ds, _) => ds
  | Fault _ => []
  end = [[0x40; 0; 0; 5; 1; 2; 3; 4; 5; 0; 0; 0]; [0x40; 0; 0; 1; 7; 0; 0; 0]].
Proof. vm_compute. reflexivity. Qed.

(** C35: The receive buffer of 65536 bytes is too small for the longest
    frame: a STUN header with the length 65535 makes the socket ask for 65556
    bytes, and when the peer sends them the read stores bytes behind the end
    of the buffer. *)
Theorem turn_tcp_recv_overflow {M : GMalloc} (a b : Z) (body : list Z) (addr : NiceAddress) (m : NiceInputMessage) :
  0 <= a < 0x40 -> is_byte b -> 65532 < zlen body ->
  turn_tcp_recv_message
    (nice_udp_turn_over_tcp_socket_new
       (nice_tcp_bsd_socket_new_from_gsock (mkScript [] [] [[a; b; 255; 255]; body]) addr true)
       NICE_TURN_SOCKET_COMPATIBILITY_RFC5766) m = Fault OutOfBounds.
Proof.
  intros Ha Hb Hl. unfold turn_tcp_recv_message, nice_udp_turn_over_tcp_socket_new.
  assert (Hz : zlen (replicate (Z.to_nat RECV_BUF_SIZE) 0) = 65536)
    by (rewrite zlen_replicate, Z2Nat.id; [done|]; unfold RECV_BUF_SIZE; lia).
  revert Hz. generalize (replicate (Z.to_nat RECV_BUF_SIZE) 0). intros buf Hz.
  cbn [tt_expecting_len tt_compatibility tt_recv_buf_len header_len Z.eqb].
  change (u64 (4 - 0)) with 4. set (buf1 := [a; b; 255; 255] ++ drop 4 buf).
  set (tcp := fun segments => nice_tcp_bsd_socket_new_from_gsock (mkScript [] [] segments) addr true).
  change (nice_tcp_bsd_socket_new_from_gsock (mkScript [] [] [[a; b; 255; 255]; body]) addr true)
    with (tcp [[a; b; 255; 255]; body]).
  assert (Hz1 : zlen buf1 = 65536)
    by (unfold buf1; rewrite zlen_app; unfold zlen in *; rewrite length_drop; simpl length; lia).
  assert (E1 : exists from, recv_into
      (mkTurnTcp _ NICE_TURN_SOCKET_COMPATIBILITY_RFC5766 buf 0 0 (tcp [[a; b; 255; 255]; body])) 4
      (im_from m) = Ok (1, from, mkTurnTcp _ NICE_TURN_SOCKET_COMPATIBILITY_RFC5766 buf1 4 0 (tcp [body]))).
  { unfold recv_into. cbn [tt_expecting_len tt_compatibility tt_recv_buf_len tt_recv_buf tt_base_socket].
    rewrite (tcp_recv_data _ _ 4 _ (mkScript [] [] [body]) [a; b; 255; 255]) by done.
    change (drop (Z.to_nat 0) buf) with buf. change (take (Z.to_nat 0) buf) with (@nil Z).
    rewrite wr_bytes_Ok by (rewrite ?Hz; done). by eexists. }
  destruct E1 as [from ->]. cbn [mbind res_bind Z.ltb Z.compare tt_recv_buf_len Pos.compare Pos.compare_cont].
  assert (E2 : parse_header (mkTurnTcp _ NICE_TURN_SOCKET_COMPATIBILITY_RFC5766 buf1 4 0 (tcp [body])) =
    Ok (Some (mkTurnTcp _ NICE_TURN_SOCKET_COMPATIBILITY_RFC5766 buf1 4 65555 (tcp [body])))).
  { unfold parse_header. cbn [tt_expecting_len tt_compatibility tt_recv_buf_len tt_recv_buf tt_base_socket].
    rewrite (rd_u16_eq buf1 [] a b ([255; 255] ++ drop 4 buf) 0),
      (rd_u16_eq buf1 [a; b] 255 255 (drop 4 buf) 2) by done.
    cbn [mbind res_bind]. rewrite !ntohs_le_value by (unfold is_byte in *; lia).
    change (be_value [255; 255]) with 65535.
    assert (Hab : be_value [a; b] < 16384).
    { unfold be_value. cbn [rev app le_value]. unfold is_byte in Hb. lia. }
    destruct (Z.ltb_spec (be_value [a; b]) 16384); [done|lia]. }
  rewrite E2. cbn [mbind res_bind]. unfold recv_body.
  cbn [tt_expecting_len tt_compatibility tt_recv_buf_len tt_recv_buf tt_base_socket padded_compat].
  change (u64 (u32 (65555 + pad_len 65555) - 4)) with 65552. unfold recv_into.
  cbn [tt_expecting_len tt_compatibility tt_recv_buf_len tt_recv_buf tt_base_socket im_from].
  set (d := take (Z.to_nat 65552) body).
  assert (Hd : 65532 < zlen d <= 65552) by (unfold d, zlen in *; rewrite length_take; lia).
  rewrite (tcp_recv_data _ _ 65552 _
    (mkScript [] [] (match drop (Z.to_nat 65552) body with [] => [] | _ :: _ => [drop (Z.to_nat 65552) body] end)) d)
    by (try done; lia).
  unfold wr_bytes. rewrite zlen_drop by lia. rewrite Hz1.
  destruct (Z.leb_spec (0 + zlen d) (65536 - 4)); [lia|]. done.
Qed.

Lemma turn_tcp_recv_overflow_witness :
  turn_tcp_recv_message
    (nice_udp_turn_over_tcp_socket_new
       (nice_tcp_bsd_socket_new_from_gsock
          (mkScript [] [] [[0; 1; 255; 255]; replicate (Z.to_nat 65536) 0]) nice_address_init true)
       NICE_TURN_SOCKET_COMPATIBILITY_RFC5766) big_message = Fault OutOfBounds.
Proof.
  apply (turn_tcp_recv_overflow 0 1); [lia|unfold is_byte; lia|].
  rewrite zlen_replicate, Z2Nat.id; lia.
Defined.
