(* ===== verification/PseudoSsl.v ===== *)
(** * The pseudo-SSL socket (socket/pseudossl.c)

    The socket pretends to open an SSL connection: it sends a fixed client
    hello, waits for the server hello, and queues what is to be sent reliably
    until then.  Afterwards it passes everything to the base socket. *)
From stdpp Require Import gmap.
From S2P Require Import Prelude CMem StunTypes Address IceTypes IoMessage NiceSock TcpSocket.
Local Open Scope Z_scope.

Inductive NicePseudoSSLSocketCompatibility : Set :=
  | NICE_PSEUDOSSL_SOCKET_COMPATIBILITY_GOOGLE
  | NICE_PSEUDOSSL_SOCKET_COMPATIBILITY_MSOC.

Definition SSL_SERVER_GOOGLE_HANDSHAKE : list Z :=
  [0x16; 0x03; 0x01; 0x00; 0x4a; 0x02; 0x00; 0x00; 0x46; 0x03; 0x01; 0x42;
   0x85; 0x45; 0xa7; 0x27; 0xa9; 0x5d; 0xa0; 0xb3; 0xc5; 0xe7; 0x53; 0xda;
   0x48; 0x2b; 0x3f; 0xc6; 0x5a; 0xca; 0x89; 0xc1; 0x58; 0x52; 0xa1; 0x78;
   0x3c; 0x5b; 0x17; 0x46; 0x00; 0x85; 0x3f; 0x20; 0x0e; 0xd3; 0x06; 0x72;
   0x5b; 0x5b; 0x1b; 0x5f; 0x15; 0xac; 0x13; 0xf9; 0x88; 0x53; 0x9d; 0x9b;
   0xe8; 0x3d; 0x7b; 0x0c; 0x30; 0x32; 0x6e; 0x38; 0x4d; 0xa2; 0x75; 0x57;
   0x41; 0x6c; 0x34; 0x5c; 0x00; 0x04; 0x00].

Definition SSL_CLIENT_GOOGLE_HANDSHAKE : list Z :=
  [0x80; 0x46; 0x01; 0x03; 0x01; 0x00; 0x2d; 0x00; 0x00; 0x00; 0x10; 0x01;
   0x00; 0x80; 0x03; 0x00; 0x80; 0x07; 0x00; 0xc0; 0x06; 0x00; 0x40; 0x02;
   0x00; 0x80; 0x04; 0x00; 0x80; 0x00; 0x00; 0x04; 0x00; 0xfe; 0xff; 0x00;
   0x00; 0x0a; 0x00; 0xfe; 0xfe; 0x00; 0x00; 0x09; 0x00; 0x00; 0x64; 0x00;
   0x00; 0x62; 0x00; 0x00; 0x03; 0x00; 0x00; 0x06; 0x1f; 0x17; 0x0c; 0xa6;
   0x2f; 0x00; 0x78; 0xfc; 0x46; 0x55; 0x2e; 0xb1; 0x83; 0x39; 0xf1; 0xea].

Definition SSL_SERVER_MSOC_HANDSHAKE : list Z :=
  [0x16; 0x03; 0x01; 0x00; 0x4e; 0x02; 0x00; 0x00; 0x46; 0x03; 0x01] ++ replicate 32 0 ++
  [0x20] ++ replicate 32 0 ++ [0x00; 0x18; 0x00; 0x0e; 0x00; 0x00; 0x00].

Definition SSL_CLIENT_MSOC_HANDSHAKE : list Z :=
  [0x16; 0x03; 0x01; 0x00; 0x2d; 0x01; 0x00; 0x00; 0x29; 0x03; 0x01; 0xc1;
   0xfc; 0xd5; 0xa3; 0x6d; 0x93; 0xdd; 0x7e; 0x0b; 0x45; 0x67; 0x3f; 0xec;
   0x79; 0x85; 0xfb; 0xbc; 0x3f; 0xd6; 0x60; 0xc2; 0xce; 0x84; 0x85; 0x08;
   0x1b; 0x81; 0x21; 0xbc; 0xaa; 0x10; 0xfb; 0x00; 0x00; 0x02; 0x00; 0x18;
   0x01; 0x00].

Section pseudossl.
Context {M : GMalloc} {AA : AutoArray} {S : Type} {NS : NiceSocket S}.

Record PseudoSSLPriv : Type := mkPseudoSSL {
  ssl_handshaken : bool;
  ssl_base_socket : option S;
  ssl_send_queue : list NiceSocketQueuedSend;
  ssl_compatibility : NicePseudoSSLSocketCompatibility
}.

Definition client_handshake (c : NicePseudoSSLSocketCompatibility) : list Z :=
  match c with
  | NICE_PSEUDOSSL_SOCKET_COMPATIBILITY_MSOC => SSL_CLIENT_MSOC_HANDSHAKE
  | NICE_PSEUDOSSL_SOCKET_COMPATIBILITY_GOOGLE => SSL_CLIENT_GOOGLE_HANDSHAKE
  end.

Definition server_handshake (c : NicePseudoSSLSocketCompatibility) : list Z :=
  match c with
  | NICE_PSEUDOSSL_SOCKET_COMPATIBILITY_MSOC => SSL_SERVER_MSOC_HANDSHAKE
  | NICE_PSEUDOSSL_SOCKET_COMPATIBILITY_GOOGLE => SSL_SERVER_GOOGLE_HANDSHAKE
  end.

Definition nice_pseudossl_socket_new (base_socket : S)
    (compatibility : NicePseudoSSLSocketCompatibility) : res PseudoSSLPriv :=
  let buf := client_handshake compatibility in
  '(_, base_socket) ← nice_socket_send_reliable base_socket None (zlen buf) buf;
  Ok (mkPseudoSSL false (Some base_socket) [] compatibility).

(** The check clears the random fields of the received hello first. *)
Definition server_handshake_valid (c : NicePseudoSSLSocketCompatibility) (data : list Z)
    (length : Z) : res bool :=
  match c with
  | NICE_PSEUDOSSL_SOCKET_COMPATIBILITY_MSOC =>
      if length =? zlen SSL_SERVER_MSOC_HANDSHAKE then
        buf ← memset data 11 0 32;
        buf ← memset buf 44 0 32;
        bs ← rd_bytes buf 0 (zlen SSL_SERVER_MSOC_HANDSHAKE);
        Ok (bool_decide (SSL_SERVER_MSOC_HANDSHAKE = bs))
      else Ok false
  | NICE_PSEUDOSSL_SOCKET_COMPATIBILITY_GOOGLE =>
      if length =? zlen SSL_SERVER_GOOGLE_HANDSHAKE then
        bs ← rd_bytes data 0 (zlen SSL_SERVER_GOOGLE_HANDSHAKE);
        Ok (bool_decide (SSL_SERVER_GOOGLE_HANDSHAKE = bs))
      else Ok false
  end.

Definition pseudossl_recv_messages (p : PseudoSSLPriv) (recv_messages : list NiceInputMessage)
    : res (Z * list NiceInputMessage * PseudoSSLPriv) :=
  if ssl_handshaken p then
    match ssl_base_socket p with
    | Some base =>
        '(ret, messages, base) ← nice_socket_recv_messages base recv_messages;
        Ok (ret, messages, mkPseudoSSL true (Some base) (ssl_send_queue p) (ssl_compatibility p))
    | None => Ok (0, recv_messages, p)
    end
  else
    match ssl_base_socket p with
    | None => Ok (-1, recv_messages, p)
    | Some base =>
        let data := auto_array (Z.max (zlen SSL_SERVER_GOOGLE_HANDSHAKE) (zlen SSL_SERVER_MSOC_HANDSHAKE)) in
        let size := zlen (server_handshake (ssl_compatibility p)) in
        '(ret, messages, base) ← nice_socket_recv_messages base
           [mkInput [mkVector (Some data) size] 1 None 0];
        if ret <=? 0 then
          Ok (ret, recv_messages,
              mkPseudoSSL false (Some base) (ssl_send_queue p) (ssl_compatibility p))
        else
          m ← message_at messages 0;
          valid ← (if ret =? 1 then
                     match im_buffers m with
                     | v :: _ => server_handshake_valid (ssl_compatibility p)
                                   (default [] (gv_buffer v)) (im_length m)
                     | [] => Fault OutOfBounds
                     end
                   else Ok false);
          if valid : bool then
            base ← nice_socket_flush_send_queue base (ssl_send_queue p);
            Ok (0, recv_messages, mkPseudoSSL true (Some base) [] (ssl_compatibility p))
          else
            Ok (-1, recv_messages,
                mkPseudoSSL false None (ssl_send_queue p) (ssl_compatibility p))
    end.

Definition pseudossl_send_messages (p : PseudoSSLPriv) (to : option NiceAddress)
    (messages : list NiceOutputMessage) : res (Z * PseudoSSLPriv) :=
  if ssl_handshaken p then
    match ssl_base_socket p with
    | None => Ok (-1, p)
    | Some base =>
        '(ret, base) ← nice_socket_send_messages base to messages;
        Ok (ret, mkPseudoSSL true (Some base) (ssl_send_queue p) (ssl_compatibility p))
    end
  else Ok (0, p).

Definition pseudossl_send_messages_reliable (p : PseudoSSLPriv) (to : option NiceAddress)
    (messages : list NiceOutputMessage) : res (Z * PseudoSSLPriv) :=
  if ssl_handshaken p then
    match ssl_base_socket p with
    | None => Ok (-1, p)
    | Some base =>
        '(ret, base) ← nice_socket_send_messages_reliable base to messages;
        Ok (ret, mkPseudoSSL true (Some base) (ssl_send_queue p) (ssl_compatibility p))
    end
  else
    queue ← nice_socket_queue_send (ssl_send_queue p) to messages;
    Ok (zlen messages, mkPseudoSSL false (ssl_base_socket p) queue (ssl_compatibility p)).

(** The base socket is dereferenced without a test. *)
Definition pseudossl_is_reliable (p : PseudoSSLPriv) : res bool :=
  match ssl_base_socket p with
  | Some base => Ok (nice_socket_is_reliable base)
  | None => Fault OutOfBounds
  end.

Definition pseudossl_can_send (p : PseudoSSLPriv) (addr : option NiceAddress) : res bool :=
  match ssl_base_socket p with
  | Some base => Ok (nice_socket_can_send base addr)
  | None => Fault OutOfBounds
  end.

Definition pseudossl_set_writable_callback (p : PseudoSSLPriv) (callback : bool) : res PseudoSSLPriv :=
  match ssl_base_socket p with
  | Some base => Ok (mkPseudoSSL (ssl_handshaken p) (Some (nice_socket_set_writable_callback base callback))
                       (ssl_send_queue p) (ssl_compatibility p))
  | None => Fault OutOfBounds
  end.
End pseudossl.
Arguments PseudoSSLPriv S : clear implicits.
