(* ===== verification/Socks5.v ===== *)
(** * The SOCKS 5 proxy socket (socket/socks5.c)

    A client of RFC 1928 (and RFC 1929 for the user name and password) over a
    TCP socket: a state machine driven by the replies of the proxy.  Until the
    connection is established, messages to be sent reliably wait in a queue. *)
From stdpp Require Import gmap.
From S2P Require Import Prelude CMem StunTypes Address IceTypes IoMessage NiceSock TcpSocket.
Local Open Scope Z_scope.

Inductive SocksState : Set :=
  | SOCKS_STATE_INIT | SOCKS_STATE_AUTH | SOCKS_STATE_CONNECT | SOCKS_STATE_CONNECTED
  | SOCKS_STATE_ERROR.

#[global] Instance SocksState_eq_dec : EqDecision SocksState.
Proof. solve_decision. Defined.

Section socks5.
Context {M : GMalloc} {AA : AutoArray} {S : Type} {NS : NiceSocket S}.

Record Socks5Priv : Type := mkSocks5 {
  socks_state : SocksState;
  socks_base_socket : option S;
  socks_addr : NiceAddress;
  socks_username : option (list Z);
  socks_password : option (list Z);
  socks_send_queue : list NiceSocketQueuedSend
}.

(** The greeting: the methods offered. *)
Definition socks_greeting (username password : option (list Z)) : list Z :=
  match username, password with
  | None, None => [0x05; 0x01; 0x00]
  | _, _ => [0x05; 0x02; 0x00; 0x02]
  end.

Definition nice_socks5_socket_new (base_socket : S) (addr : option NiceAddress)
    (username password : option (list Z)) : res (option Socks5Priv) :=
  match addr with
  | None => Ok None
  | Some addr =>
      let msg := socks_greeting username password in
      '(_, base) ← nice_socket_send_reliable base_socket None (zlen msg) msg;
      Ok (Some (mkSocks5 SOCKS_STATE_INIT (Some base) addr username password []))
  end.

(** The RFC 1929 request, written into [msg\[515\]]; [None]: a string is too
    long. *)
Definition socks_auth_request (username password : option (list Z)) : res (option (list Z)) :=
  let user := default [] username in
  let pass := default [] password in
  let ulen := zlen user in
  let plen := zlen pass in
  if 255 <? ulen then Ok None else
  if 255 <? plen then Ok None else
  msg ← wr_bytes (auto_array 515) 0 [0x01; ulen];
  msg ← wr_bytes msg 2 user;
  msg ← wr_bytes msg (2 + ulen) [plen];
  msg ← wr_bytes msg (3 + ulen) pass;
  req ← rd_bytes msg 0 (3 + ulen + plen);
  Ok (Some req).

(** The connect request, written into [msg\[22\]]. *)
Definition socks_connect_request (addr : NiceAddress) : res (list Z) :=
  msg ← wr_bytes (auto_array 22) 0 [0x05; 0x01; 0x00];
  match addr with
  | sockaddr_in sin_port s_addr =>
      msg ← wr_bytes msg 3 [0x01];
      msg ← wr_bytes msg 4 (le_bytes 4 s_addr);
      msg ← wr_bytes msg 8 (le_bytes 2 sin_port);
      rd_bytes msg 0 10
  | sockaddr_in6 sin6_port _ s6_addr _ =>
      msg ← wr_bytes msg 3 [0x04];
      msg ← wr_bytes msg 4 s6_addr;
      msg ← wr_bytes msg 20 (le_bytes 2 sin6_port);
      rd_bytes msg 0 22
  | sockaddr_other _ => Fault Uninitialised
  end.

(** The label [error]. *)
Definition socks_error (p : Socks5Priv) (messages : list NiceInputMessage)
    : res (Z * list NiceInputMessage * Socks5Priv) :=
  Ok (-1, messages, mkSocks5 SOCKS_STATE_ERROR None (socks_addr p) (socks_username p)
                      (socks_password p) (socks_send_queue p)).

(** The label [send_connect]. *)
Definition socks_send_connect (p : Socks5Priv) (base : S) (messages : list NiceInputMessage)
    : res (Z * list NiceInputMessage * Socks5Priv) :=
  msg ← socks_connect_request (socks_addr p);
  '(_, base) ← nice_socket_send_reliable base None (zlen msg) msg;
  Ok (0, messages, mkSocks5 SOCKS_STATE_CONNECT (Some base) (socks_addr p) (socks_username p)
                     (socks_password p) (socks_send_queue p)).

(** A read of [size] bytes into the array [data]: the return value, the array
    and the base socket. *)
Definition socks_read (base : S) (data : list Z) (size : Z) : res (Z * list Z * S) :=
  '(ret, messages, base) ← nice_socket_recv_messages base
     [mkInput [mkVector (Some data) size] 1 None 0];
  m ← message_at messages 0;
  match im_buffers m with
  | v :: _ => Ok (ret, default [] (gv_buffer v), base)
  | [] => Fault OutOfBounds
  end.

Definition with_base (p : Socks5Priv) (state : SocksState) (base : S) : Socks5Priv :=
  mkSocks5 state (Some base) (socks_addr p) (socks_username p) (socks_password p)
    (socks_send_queue p).

Definition socks_recv_init (p : Socks5Priv) (base : S) (messages : list NiceInputMessage)
    : res (Z * list NiceInputMessage * Socks5Priv) :=
  '(ret, data, base) ← socks_read base (auto_array 2) 2;
  if ret <=? 0 then Ok (ret, messages, with_base p SOCKS_STATE_INIT base)
  else if ret =? 1 then
    d0 ← rd data 0;
    if d0 =? 0x05 then
      d1 ← rd data 1;
      if d1 =? 0x02 then
        match socks_username p, socks_password p with
        | None, None => socks_error p messages
        | _, _ =>
            request ← socks_auth_request (socks_username p) (socks_password p);
            match request with
            | None => socks_error p messages
            | Some msg =>
                '(_, base) ← nice_socket_send_reliable base None (zlen msg) msg;
                Ok (0, messages, with_base p SOCKS_STATE_AUTH base)
            end
        end
      else if d1 =? 0x00 then socks_send_connect p base messages
      else socks_error p messages
    else socks_error p messages
  else socks_error p messages.

Definition socks_recv_auth (p : Socks5Priv) (base : S) (messages : list NiceInputMessage)
    : res (Z * list NiceInputMessage * Socks5Priv) :=
  '(ret, data, base) ← socks_read base (auto_array 2) 2;
  if ret <=? 0 then Ok (ret, messages, with_base p SOCKS_STATE_AUTH base)
  else if ret =? 1 then
    d0 ← rd data 0;
    d1 ← rd data 1;
    if (d0 =? 0x01) && (d1 =? 0x00) then socks_send_connect p base messages
    else socks_error p messages
  else Ok (0, messages, with_base p SOCKS_STATE_AUTH base).

(** The read of the bound address, then the queue is flushed. *)
Definition socks_finish (p : Socks5Priv) (base : S) (data : list Z) (size : Z)
    (messages : list NiceInputMessage) : res (Z * list NiceInputMessage * Socks5Priv) :=
  '(ret, _, base) ← socks_read base data size;
  if negb (ret =? 1) then socks_error p messages
  else
    base ← nice_socket_flush_send_queue base (socks_send_queue p);
    Ok (0, messages, mkSocks5 SOCKS_STATE_CONNECTED (Some base) (socks_addr p) (socks_username p)
                       (socks_password p) []).

Definition socks_recv_connect (p : Socks5Priv) (base : S) (messages : list NiceInputMessage)
    : res (Z * list NiceInputMessage * Socks5Priv) :=
  '(ret, data, base) ← socks_read base (auto_array 22) 4;
  if ret <=? 0 then Ok (ret, messages, with_base p SOCKS_STATE_CONNECT base)
  else if ret =? 1 then
    d0 ← rd data 0; d1 ← rd data 1; d2 ← rd data 2; d3 ← rd data 3;
    if d0 =? 0x05 then
      if d1 =? 0x00 then
        if d2 =? 0x00 then
          if d3 =? 0x01 then socks_finish p base data 6 messages
          else if d3 =? 0x04 then socks_finish p base data 18 messages
          else socks_error p messages
        else socks_error p messages
      else socks_error p messages
    else socks_error p messages
  else socks_error p messages.

(** [*recv_messages\[i\].from = priv->addr] for the first [n] messages. *)
Fixpoint set_from (n : nat) (addr : NiceAddress) (ms : list NiceInputMessage)
    : list NiceInputMessage :=
  match n, ms with
  | Datatypes.S n, m :: ms =>
      mkInput (im_buffers m) (im_n_buffers m)
        (match im_from m with Some _ => Some addr | None => None end) (im_length m)
      :: set_from n addr ms
  | _, _ => ms
  end.

Definition socks5_recv_messages (p : Socks5Priv) (recv_messages : list NiceInputMessage)
    : res (Z * list NiceInputMessage * Socks5Priv) :=
  match socks_state p, socks_base_socket p with
  | SOCKS_STATE_CONNECTED, Some base =>
      '(ret, messages, base) ← nice_socket_recv_messages base recv_messages;
      let messages := if ret <=? 0 then messages
                      else set_from (Z.to_nat ret) (socks_addr p) messages in
      Ok (ret, messages, with_base p SOCKS_STATE_CONNECTED base)
  | SOCKS_STATE_CONNECTED, None => Ok (-1, recv_messages, p)
  | SOCKS_STATE_INIT, Some base => socks_recv_init p base recv_messages
  | SOCKS_STATE_AUTH, Some base => socks_recv_auth p base recv_messages
  | SOCKS_STATE_CONNECT, Some base => socks_recv_connect p base recv_messages
  | (SOCKS_STATE_INIT | SOCKS_STATE_AUTH | SOCKS_STATE_CONNECT), None => Ok (-1, recv_messages, p)
  | SOCKS_STATE_ERROR, _ => socks_error p recv_messages
  end.

Definition socks5_send_messages (p : Socks5Priv) (to : option NiceAddress)
    (messages : list NiceOutputMessage) : res (Z * Socks5Priv) :=
  match socks_state p with
  | SOCKS_STATE_CONNECTED =>
      match socks_base_socket p with
      | None => Ok (-1, p)
      | Some base =>
          '(ret, base) ← nice_socket_send_messages base to messages;
          Ok (ret, with_base p SOCKS_STATE_CONNECTED base)
      end
  | SOCKS_STATE_ERROR => Ok (-1, p)
  | _ => Ok (0, p)
  end.

Definition socks5_send_messages_reliable (p : Socks5Priv) (to : option NiceAddress)
    (messages : list NiceOutputMessage) : res (Z * Socks5Priv) :=
  match socks_state p with
  | SOCKS_STATE_CONNECTED =>
      match socks_base_socket p with
      | None => Ok (-1, p)
      | Some base =>
          '(ret, base) ← nice_socket_send_messages_reliable base to messages;
          Ok (ret, with_base p SOCKS_STATE_CONNECTED base)
      end
  | SOCKS_STATE_ERROR => Ok (-1, p)
  | _ =>
      queue ← nice_socket_queue_send (socks_send_queue p) to messages;
      Ok (zlen messages, mkSocks5 (socks_state p) (socks_base_socket p) (socks_addr p)
                           (socks_username p) (socks_password p) queue)
  end.

(** The base socket is dereferenced without a test. *)
Definition socks5_is_reliable (p : Socks5Priv) : res bool :=
  match socks_base_socket p with
  | Some base => Ok (nice_socket_is_reliable base)
  | None => Fault OutOfBounds
  end.

Definition socks5_can_send (p : Socks5Priv) (addr : option NiceAddress) : res bool :=
  match socks_base_socket p with
  | Some base => Ok (nice_socket_can_send base addr)
  | None => Fault OutOfBounds
  end.

Definition socks5_set_writable_callback (p : Socks5Priv) (callback : bool) : res Socks5Priv :=
  match socks_base_socket p with
  | Some base => Ok (with_base p (socks_state p) (nice_socket_set_writable_callback base callback))
  | None => Fault OutOfBounds
  end.
End socks5.
Arguments Socks5Priv S : clear implicits.
