(* ===== verification/ProxyProps.v ===== *)
(** * The sockets that wait for a handshake

    The pseudo-SSL and SOCKS 5 sockets hold back what is sent until the
    handshake with the server is over.  Both implement the interface [Gated];
    the theorem on the order of the bytes on the wire is proved once against
    the interface. *)
From stdpp Require Import gmap.
From S2P Require Import Prelude CMem StunTypes Address IceTypes IoMessage NiceSock TcpSocket TcpSocketProps PseudoSsl Socks5.
Local Open Scope Z_scope.

(** A message to receive into: its vectors are objects of their size. *)
Definition readable (m : NiceInputMessage) : Prop :=
  exists bss, vectors (im_n_buffers m) 0 (im_buffers m) bss /\ zlen (concat bss) < 2 ^ 64.

Lemma message_at_0 m ms : message_at (m :: ms) 0 = Ok m.
Proof. done. Qed.

Section gated.
Context {M : GMalloc} {ML : GMallocLaws} {G : Type} {GS : GSocket G} {GL : GSocketLaws G}.
Hypothesis healthy : forall g data g' e,
  g_socket_send_message g data = (g', inl e) -> e = G_IO_ERROR_WOULD_BLOCK.

(** ** The TCP socket underneath *)

Definition tcp_ok (p : TcpPriv G) : Prop := queue_wf (tcp_send_queue p).

(** Reading does not touch the stream that is sent. *)
Lemma tcp_recv_loop_keeps p i ms :
  Forall readable ms -> exists ret ms' p', tcp_recv_loop p i ms = Ok (ret, ms', p') /\
    tcp_send_queue p' = tcp_send_queue p /\ gs_sent (tcp_fileno p') = gs_sent (tcp_fileno p) /\
    (0 < ret -> i = 0 -> length ms = 1%nat -> tcp_error p' = tcp_error p).
Proof.
  revert p i. induction ms as [|m ms IH]; intros p i Hr.
  - eexists _, _, _. split; [done|]. by split_and!.
  - apply Forall_cons in Hr as [(bss & Hv & Hl) Hr]. cbn [tcp_recv_loop].
    unfold input_message_get_size.
    rewrite (size_loop_vectors _ _ _ bss) by (auto; zlia). cbn [mbind res_bind].
    rewrite Z.add_0_l. pose proof (zlen_nonneg (concat bss)) as Hn.
    destruct (g_socket_receive_message (tcp_fileno p) (zlen (concat bss))) as [g [e|d]] eqn:E.
    + apply gs_receive_error in E as [_ E]. eexists _, _, _. split; [done|]. by split_and!.
    + apply gs_receive_ok in E as (Hd & _ & E).
      destruct (memcpy_loop_vectors _ _ _ _ d 0 Hv) as (bufs' & bss' & -> & _); [lia|].
      cbn [mbind res_bind]. destruct (Z.eqb_spec (zlen d) 0) as [Hz|Hz].
      * eexists _, _, _. split; [done|]. split_and!; try done. intros Hp -> _. simpl in Hp. lia.
      * match goal with |- context [tcp_recv_loop ?q (i + 1) ms] =>
          destruct (IH q (i + 1) Hr) as (ret & ms' & p' & E' & Hq & Hs & _) end.
        rewrite E'. cbn [mbind res_bind]. eexists _, _, _. split; [done|].
        split_and!; [by rewrite Hq|by rewrite Hs|]. intros _ _ Hlen.
        destruct ms; [|done]. cbn in E'. by injection E' as <- <- <-.
Qed.

Lemma tcp_recv_keeps p ms :
  Forall readable ms -> exists ret ms' p', nice_socket_recv_messages p ms = Ok (ret, ms', p') /\
    tcp_send_queue p' = tcp_send_queue p /\ tcp_stream p' = tcp_stream p /\
    (0 < ret -> length ms = 1%nat -> tcp_error p' = false).
Proof.
  intros Hr. cbn [nice_socket_recv_messages tcp_nice_socket]. unfold tcp_socket_recv_messages.
  destruct (tcp_error p) eqn:He.
  - eexists _, _, _. split; [done|]. split_and!; try done; lia.
  - destruct (tcp_recv_loop_keeps p 0 ms Hr) as (ret & ms' & p' & -> & Hq & Hs & Hx).
    eexists _, _, _. split; [done|]. split_and!; try done.
    + unfold tcp_stream. by rewrite Hq, Hs.
    + intros Hp Hl. rewrite <- He. by apply Hx.
Qed.

(** A reliable send of one buffer appends it to the stream. *)
Lemma tcp_send_reliable_stream p to buf :
  tcp_ok p -> tcp_error p = false -> zlen buf < 2 ^ 31 ->
  exists ret p', nice_socket_send_reliable p to (zlen buf) buf = Ok (ret, p') /\ tcp_ok p' /\
    tcp_error p' = false /\ tcp_stream p' = tcp_stream p ++ buf.
Proof.
  intros Hq He Hl. unfold nice_socket_send_reliable.
  cbn [nice_socket_send_messages_reliable tcp_nice_socket]. unfold tcp_socket_send_messages_reliable.
  destruct (send_reliable_loop_stream healthy p 0 [one_vector buf] [buf]) as (p' & E & [Hw He'] & Hs).
  - by split.
  - constructor; [by apply whole_one_vector|constructor].
  - unfold one_vector in E. rewrite E. eexists _, _. split; [done|]. split_and!; try done.
    rewrite Hs. simpl. by rewrite app_nil_r.
Qed.

Lemma flush_queue_stream p q :
  tcp_ok p -> tcp_error p = false -> queue_wf q ->
  exists p', nice_socket_flush_send_queue p q = Ok p' /\ tcp_ok p' /\ tcp_error p' = false /\
    tcp_stream p' = tcp_stream p ++ queued q.
Proof.
  unfold nice_socket_flush_send_queue. revert p. induction q as [|t q IH]; intros p Hw He Hq.
  - exists p. split_and!; try done. by rewrite app_nil_r.
  - apply Forall_cons in Hq as [[Hb Hl] Hq]. cbn [foldl mbind res_bind].
    rewrite <- Hb in Hl |- *.
    destruct (tcp_send_reliable_stream p
      (if nice_address_is_valid (tbs_to t) then Some (tbs_to t) else None) (tbs_buf t) Hw He)
      as (ret & p1 & -> & Hw1 & He1 & Hs1); [lia|]. cbn [mbind res_bind].
    destruct (IH p1 Hw1 He1 Hq) as (p2 & -> & Hw2 & He2 & Hs2). exists p2. split_and!; try done.
    by rewrite Hs2, Hs1, queued_cons, app_assoc.
Qed.

(** Queueing messages appends their bytes to the queue. *)
Lemma queue_copy_vectors n i bufs bss pre buf :
  vectors n i bufs bss -> take (length pre) buf = pre -> zlen buf = zlen pre + zlen (concat bss) ->
  queue_copy_loop n i bufs (zlen (concat bss)) (zlen pre) buf =
    Ok (pre ++ concat bss, zlen pre + zlen (concat bss)).
Proof.
  intros Hv. revert pre buf. induction Hv as [i bufs H|i v rest b bs bss H Hb Hs Hv IH];
    intros pre buf Ht Hl; simpl concat in *.
  - assert (buf = pre) as ->.
    { rewrite firstn_all2 in Ht; [done|]. unfold zlen in *. simpl in *. lia. }
    rewrite app_nil_r, Z.add_0_r. destruct bufs; simpl; by rewrite H.
  - cbn [queue_copy_loop]. rewrite H. cbn [mbind res_bind]. rewrite Hs, zlen_app in *. zlen_pos.
    rewrite Z.min_l by lia. rewrite (vector_read_app v b bs) by (auto; lia). cbn [mbind res_bind].
    rewrite slice_all, wr_bytes_Ok by lia. cbn [mbind res_bind].
    replace (zlen b + zlen (concat bss) - zlen b) with (zlen (concat bss)) by lia.
    rewrite <- zlen_app. rewrite IH.
    + by rewrite !zlen_app, <- app_assoc, Z.add_assoc.
    + unfold splice. by rewrite to_nat_zlen, Ht, app_assoc, take_app_length.
    + rewrite zlen_splice by lia. rewrite zlen_app. lia.
Qed.

Lemma queue_send_stream q to ms datas :
  queue_wf q -> Forall2 whole ms datas ->
  exists q', nice_socket_queue_send q to ms = Ok q' /\ queue_wf q' /\ queued q' = queued q ++ concat datas.
Proof.
  intros Hq Hm. revert q Hq. induction Hm as [|m data ms ds Hd Hm IH]; intros q Hq.
  - exists q. by rewrite app_nil_r.
  - cbn [nice_socket_queue_send].
    rewrite (output_message_get_size_holds m data) by (by apply whole_holds). cbn [mbind res_bind].
    destruct Hd as (bss & Hv & -> & Hl & _). pose proof (zlen_nonneg (concat bss)).
    destruct (Z.eqb_spec (zlen (concat bss)) 0) as [Hz|Hz].
    + apply zlen_0_nil in Hz. simpl. rewrite Hz. by apply IH.
    + pose proof (queue_copy_vectors _ _ _ _ [] (g_malloc (zlen (concat bss))) Hv) as E.
      rewrite !zlen_nil, !Z.add_0_l in E. rewrite E; [|done|by apply g_malloc_length].
      cbn [mbind res_bind app]. rewrite Z.eqb_refl. cbn [assert_ok mbind res_bind].
      destruct (IH (q ++ [mkQueued (concat bss) (zlen (concat bss)) (default nice_address_init to)]))
        as (q' & -> & Hq' & Hs).
      { apply Forall_app. split; [done|]. constructor; [simpl; lia|constructor]. }
      exists q'. split_and!; try done. rewrite Hs, queued_snoc. simpl. by rewrite app_assoc.
Qed.

(** ** The interface *)

Class Gated (P : Type) := {
  gt_base : P -> option (TcpPriv G);
  gt_queue : P -> list NiceSocketQueuedSend;
  gt_open : P -> bool;
  gt_handshake : P -> list Z -> Prop;   (** what was sent of the handshake so far *)
  gt_recv : P -> list NiceInputMessage -> res (Z * list NiceInputMessage * P);
  gt_send : bool -> P -> option NiceAddress -> list NiceOutputMessage -> res (Z * P)
}.

Section interface.
Context {P : Type} {GT : Gated P}.

(** What a read may do: close the base socket, send bytes of the handshake, or
    end the handshake and flush the queue. *)
Inductive recv_step (p : P) (b : TcpPriv G) (p' : P) : Prop :=
  | step_closes : gt_base p' = None -> recv_step p b p'
  | step_stays b' ctl :
      gt_base p' = Some b' -> gt_open p' = gt_open p -> gt_queue p' = gt_queue p -> tcp_ok b' ->
      tcp_stream b' = tcp_stream b ++ ctl -> (gt_open p = true -> ctl = []) ->
      (forall hs, gt_handshake p hs -> gt_handshake p' (hs ++ ctl)) -> recv_step p b p'
  | step_opens b' :
      gt_base p' = Some b' -> gt_open p = false -> gt_open p' = true -> gt_queue p' = [] -> tcp_ok b' ->
      tcp_stream b' = tcp_stream b ++ queued (gt_queue p) ->
      (forall hs, gt_handshake p hs -> gt_handshake p' hs) -> recv_step p b p'.

(** What a send does: accepted messages go to the base socket when the gate is
    open, to the queue before. *)
Definition send_step (p : P) (b : TcpPriv G) (datas : list (list Z)) (p' : P) : Prop :=
  exists b', gt_base p' = Some b' /\ gt_open p' = gt_open p /\ tcp_ok b' /\
  (forall hs, gt_handshake p hs -> gt_handshake p' hs) /\
  if gt_open p then gt_queue p' = gt_queue p /\ tcp_stream b' = tcp_stream b ++ concat datas
  else tcp_stream b' = tcp_stream b /\ queued (gt_queue p') = queued (gt_queue p) ++ concat datas.

Class GatedLaws (wf : P -> Prop) : Prop := {
  gt_recv_law p b ms : wf p -> gt_base p = Some b -> tcp_ok b -> Forall readable ms ->
    exists ret ms' p', gt_recv p ms = Ok (ret, ms', p') /\ wf p' /\ recv_step p b p';
  gt_send_law reliable p b to ms datas :
    wf p -> gt_base p = Some b -> tcp_ok b -> Forall2 whole ms datas ->
    exists ret p', gt_send reliable p to ms = Ok (ret, p') /\ wf p' /\
      send_step p b (take (Z.to_nat ret) datas) p';
  gt_recv_closed p ms : wf p -> gt_base p = None ->
    exists ret ms' p', gt_recv p ms = Ok (ret, ms', p') /\ wf p' /\ gt_base p' = None;
  gt_send_closed reliable p to ms datas :
    wf p -> gt_base p = None -> Forall2 whole ms datas ->
    exists ret p', gt_send reliable p to ms = Ok (ret, p') /\ wf p' /\ gt_base p' = None
}.

(** ** Runs *)

Inductive gated_op : Type :=
  | GatedRecv (ms : list NiceInputMessage)
  | GatedSend (reliable : bool) (to : option NiceAddress) (ms : list NiceOutputMessage).

Definition op_ok (op : gated_op) : Prop :=
  match op with
  | GatedRecv ms => Forall readable ms
  | GatedSend _ _ ms => Forall (fun m => exists data, whole m data) ms
  end.

(** The accepted messages, and the socket after the run. *)
Fixpoint gated_run (p : P) (ops : list gated_op) : res (list NiceOutputMessage * P) :=
  match ops with
  | [] => Ok ([], p)
  | GatedRecv ms :: ops => '(_, _, p) ← gt_recv p ms; gated_run p ops
  | GatedSend reliable to ms :: ops =>
      '(ret, p) ← gt_send reliable p to ms;
      '(more, p) ← gated_run p ops;
      Ok (take (Z.to_nat ret) ms ++ more, p)
  end.

(** [s0] went out before; of the accepted messages [acc] nothing is on the wire
    before the handshake is over, and all of it, after the handshake, when it
    is. *)
Definition gated_inv (s0 : list Z) (acc : list (list Z)) (p : P) : Prop :=
  match gt_base p with
  | None => True
  | Some b => tcp_ok b /\ exists handshake, gt_handshake p handshake /\
      if gt_open p then gt_queue p = [] /\ tcp_stream b = s0 ++ handshake ++ concat acc
      else tcp_stream b = s0 ++ handshake /\ queued (gt_queue p) = concat acc
  end.

Context {wf : P -> Prop} {GTL : GatedLaws wf}.

Lemma gated_recv_inv s0 acc p ms :
  wf p -> gated_inv s0 acc p -> Forall readable ms ->
  exists ret ms' p', gt_recv p ms = Ok (ret, ms', p') /\ wf p' /\ gated_inv s0 acc p'.
Proof.
  unfold gated_inv. intros Hw Hi Hr. destruct (gt_base p) as [b|] eqn:Eb.
  - destruct Hi as (Hb & hs & Hg & Hi).
    destruct (gt_recv_law p b ms Hw Eb Hb Hr) as (ret & ms' & p' & E & Hw' & Hs).
    exists ret, ms', p'. split; [done|]. split; [done|].
    destruct Hs as [Hc|b' ctl Hb' Ho Hq Hok Hst Hctl Hgs|b' Hb' Ho Ho' Hq Hok Hst Hgs].
    + by rewrite Hc.
    + rewrite Hb', Ho, Hq. split; [done|]. destruct (gt_open p).
      * specialize (Hgs hs Hg). rewrite Hctl, app_nil_r in Hst, Hgs by done. exists hs. by rewrite Hst.
      * destruct Hi as [Hi Hqd]. exists (hs ++ ctl). rewrite Hst, Hi, app_assoc. auto.
    + rewrite Hb', Ho', Hq. rewrite Ho in Hi. destruct Hi as [Hi Hqd]. split; [done|].
      exists hs. split; [auto|]. split; [done|]. by rewrite Hst, Hi, Hqd, app_assoc.
  - destruct (gt_recv_closed p ms Hw Eb) as (ret & ms' & p' & E & Hw' & Hc).
    exists ret, ms', p'. by rewrite Hc.
Qed.

Lemma gated_send_inv s0 acc p reliable to ms datas :
  wf p -> gated_inv s0 acc p -> Forall2 whole ms datas ->
  exists ret p', gt_send reliable p to ms = Ok (ret, p') /\ wf p' /\
    gated_inv s0 (acc ++ take (Z.to_nat ret) datas) p'.
Proof.
  unfold gated_inv. intros Hw Hi Hr. destruct (gt_base p) as [b|] eqn:Eb.
  - destruct Hi as (Hb & hs & Hg & Hi).
    destruct (gt_send_law reliable p b to ms datas Hw Eb Hb Hr) as (ret & p' & E & Hw' & b' & Hb' & Ho & Hok & Hgs & Hs).
    exists ret, p'. split; [done|]. split; [done|]. rewrite Hb', Ho, concat_app. split; [done|].
    exists hs. split; [auto|]. destruct (gt_open p); destruct Hi as [Hi1 Hi2], Hs as [Hs1 Hs2].
    + rewrite Hs1, Hs2, Hi2. by rewrite <- !app_assoc.
    + by rewrite Hs1, Hs2, Hi2.
  - destruct (gt_send_closed reliable p to ms datas Hw Eb Hr) as (ret & p' & E & Hw' & Hc).
    exists ret, p'. by rewrite Hc.
Qed.

Lemma gated_run_inv s0 acc p ops :
  wf p -> gated_inv s0 acc p -> Forall op_ok ops ->
  exists accepted p' datas, gated_run p ops = Ok (accepted, p') /\ wf p' /\
    Forall2 whole accepted datas /\ gated_inv s0 (acc ++ datas) p'.
Proof.
  revert acc p. induction ops as [|op ops IH]; intros acc p Hw Hi Hops.
  - exists [], p, []. rewrite app_nil_r. by split_and!.
  - apply Forall_cons in Hops as [Hop Hops]. destruct op as [ms|reliable to ms]; cbn [gated_run op_ok] in *.
    + destruct (gated_recv_inv s0 acc p ms Hw Hi Hop) as (ret & ms' & p1 & -> & Hw1 & Hi1).
      cbn [mbind res_bind]. by apply IH.
    + apply Forall_exists_Forall2_l in Hop as [ds Hds].
      destruct (gated_send_inv s0 acc p reliable to ms ds Hw Hi Hds) as (ret & p1 & -> & Hw1 & Hi1).
      cbn [mbind res_bind].
      destruct (IH _ p1 Hw1 Hi1 Hops) as (acc2 & p2 & ds2 & -> & Hw2 & Hd2 & Hi2). cbn [mbind res_bind].
      exists (take (Z.to_nat ret) ms ++ acc2), p2, (take (Z.to_nat ret) ds ++ ds2).
      split_and!; try done.
      * apply Forall2_app; [by apply Forall2_take|done].
      * by rewrite app_assoc.
Qed.
End interface.

(** ** Sends through the gate *)

(** A send on a TCP socket, in error or not. *)
Lemma tcp_send_any reliable p to ms datas :
  tcp_ok p -> Forall2 whole ms datas ->
  exists ret p', (if reliable : bool then nice_socket_send_messages_reliable p to ms
                  else nice_socket_send_messages p to ms) = Ok (ret, p') /\ tcp_ok p' /\
    tcp_stream p' = tcp_stream p ++ concat (take (Z.to_nat ret) datas).
Proof.
  intros Hq Hm. cbn [nice_socket_send_messages_reliable nice_socket_send_messages tcp_nice_socket].
  unfold tcp_socket_send_messages_reliable, tcp_socket_send_messages.
  destruct (tcp_error p) eqn:He.
  - assert (E : forall m r, tcp_socket_send_message p m r = Ok (-1, p))
      by (intros; unfold tcp_socket_send_message; by rewrite He).
    destruct Hm as [|m data ms datas Hd Hm]; cbn [tcp_send_reliable_loop tcp_send_loop].
    + exists 0, p. rewrite app_nil_r. destruct reliable; by split_and!.
    + rewrite !E. cbn. exists (-1), p. rewrite app_nil_r. destruct reliable; by split_and!.
  - destruct reliable.
    + destruct (send_reliable_loop_stream healthy p 0 ms datas) as (p' & -> & [Hw _] & Hs); [by split|done|].
      eexists _, _. split; [done|]. split; [done|]. rewrite Hs, Z.add_0_l.
      rewrite firstn_all2; [done|]. rewrite to_nat_zlen. by rewrite (Forall2_length _ _ _ Hm).
    + destruct (send_loop_stream healthy p 0 ms datas) as (n & p' & -> & Hn & [Hw _] & Hs); [by split|done|done|].
      eexists _, _. split; [done|]. split; [done|]. by rewrite Hs, Z.add_0_l.
Qed.
End gated.

(** ** Implementations *)
Section implementations.
Context {M : GMalloc} {ML : GMallocLaws} {AA : AutoArray} {AL : AutoArrayLaws}.
Context {G : Type} {GS : GSocket G} {GL : GSocketLaws G}.
Hypothesis healthy : forall g data g' e,
  g_socket_send_message g data = (g', inl e) -> e = G_IO_ERROR_WOULD_BLOCK.

Lemma readable_one b size from len :
  0 <= size <= zlen b -> size < 2 ^ 64 -> readable (mkInput [mkVector (Some b) size] 1 from len).
Proof.
  intros Hs Hl. exists [take (Z.to_nat size) b]. split.
  - apply (vectors_next 1 0 _ [] _ (drop (Z.to_nat size) b)); cbn.
    + done.
    + by rewrite take_drop.
    + by rewrite zlen_take by lia.
    + by apply vectors_end.
  - simpl. rewrite app_nil_r, zlen_take by lia. done.
Qed.

(** A read into one local array. *)
Lemma tcp_read_one (p : TcpPriv G) b size from :
  0 <= size <= zlen b -> zlen b < 2 ^ 64 ->
  exists ret b' from' len p',
    nice_socket_recv_messages p [mkInput [mkVector (Some b) size] 1 from 0] =
      Ok (ret, [mkInput [mkVector (Some b') size] 1 from' len], p') /\
    zlen b' = zlen b /\ tcp_send_queue p' = tcp_send_queue p /\ tcp_stream p' = tcp_stream p /\
    (0 < ret -> ret = 1 /\ tcp_error p' = false).
Proof.
  intros Hs Hb. destruct (tcp_recv_keeps p [mkInput [mkVector (Some b) size] 1 from 0])
    as (ret & ms' & p' & E & Hq & Hst & He).
  { constructor; [apply readable_one; lia|constructor]. }
  pose proof (ss_recv p b size from ltac:(lia)) as Ha. rewrite E in Ha.
  inversion Ha as [d s' b' f Hz Hu Hw Heq|d s' Hz Hu Ho|s' f Hu|s' f len Hu]; subst.
  - apply wr_bytes_len in Hw. eexists _, _, _, _, _. split; [exact E|]. split_and!; try done.
    intros _. split; [done|]. by apply He.
  - eexists _, _, _, _, _. split; [exact E|]. by split_and!.
  - eexists _, _, _, _, _. split; [exact E|]. by split_and!.
Qed.

(** *** Pseudo-SSL *)

#[export] Instance pseudossl_gated : Gated (G := G) (PseudoSSLPriv (TcpPriv G)) := {
  gt_base := ssl_base_socket;
  gt_queue := ssl_send_queue;
  gt_open := ssl_handshaken;
  gt_handshake p hs := hs = client_handshake (ssl_compatibility p);
  gt_recv := pseudossl_recv_messages;
  gt_send reliable := if reliable : bool then pseudossl_send_messages_reliable else pseudossl_send_messages
}.

Definition pseudossl_wf (c : NicePseudoSSLSocketCompatibility) (p : PseudoSSLPriv (TcpPriv G)) : Prop :=
  queue_wf (ssl_send_queue p) /\ ssl_compatibility p = c.

Lemma server_handshake_valid_ok c data length :
  zlen data = 83 -> exists r, server_handshake_valid c data length = Ok r.
Proof.
  intros Hd. destruct c; unfold server_handshake_valid.
  - destruct (length =? _); [|by eexists]. rewrite rd_bytes_Ok; [by eexists|done|done|]. by rewrite Hd.
  - destruct (length =? _); [|by eexists]. unfold memset.
    rewrite wr_bytes_Ok; [|done|by rewrite zlen_replicate, Hd]. cbn [mbind res_bind].
    rewrite wr_bytes_Ok; [|done|rewrite zlen_replicate, zlen_splice; rewrite ?Hd, ?zlen_replicate; done].
    cbn [mbind res_bind]. rewrite rd_bytes_Ok; [by eexists|done|done|].
    rewrite !zlen_splice; rewrite ?zlen_splice; rewrite ?Hd, ?zlen_replicate; done.
Qed.

#[export] Instance pseudossl_gated_laws c : GatedLaws (pseudossl_wf c).
Proof.
  split; unfold pseudossl_wf; simpl.
  - intros p b ms [Hw Hc] Eb Hb Hr. unfold pseudossl_recv_messages. rewrite Eb.
    destruct (ssl_handshaken p) eqn:Ho.
    + destruct (tcp_recv_keeps b ms Hr) as (ret & ms' & b' & -> & Hq & Hs & _). cbn [mbind res_bind].
      eexists _, _, _. split; [done|]. split; [done|].
      apply (step_stays _ _ _ b' []); simpl; try done; try by rewrite app_nil_r.
      * unfold tcp_ok. by rewrite Hq.
      * intros hs ->. by rewrite app_nil_r.
    + set (data := auto_array _). set (size := zlen (server_handshake _)).
      assert (Hd : zlen data = 83) by (unfold data; by rewrite auto_array_length).
      assert (Hsz : 0 <= size <= 83) by (unfold size; destruct (ssl_compatibility p); by vm_compute).
      destruct (tcp_read_one b data size None) as (ret & d' & f & len & b' & -> & Hd' & Hq & Hs & He); [lia..|].
      assert (Hb' : tcp_ok b') by (unfold tcp_ok; by rewrite Hq).
      cbn [mbind res_bind]. destruct (Z.leb_spec ret 0).
      * eexists _, _, _. split; [done|]. split; [done|].
        apply (step_stays _ _ _ b' []); simpl; try done; [by rewrite app_nil_r|].
        intros hs ->. by rewrite app_nil_r.
      * destruct He as [-> He]; [lia|]. rewrite message_at_0.
        cbn [mbind res_bind Z.eqb Pos.eqb im_buffers gv_buffer default from_option id im_length].
        destruct (server_handshake_valid_ok (ssl_compatibility p) d' len) as [[] ->]; [lia| |]; cbn [mbind res_bind].
        -- destruct (flush_queue_stream healthy b' (ssl_send_queue p) Hb' He Hw) as (b2 & -> & Hok & _ & Hs2).
           cbn. eexists _, _, _. split; [done|]. split; [by split; [constructor|]|].
           apply (step_opens _ _ _ b2); simpl; try done. by rewrite Hs2, Hs.
        -- eexists _, _, _. split; [done|]. split; [done|]. by apply step_closes.
  - intros reliable p b to ms datas [Hw Hc] Eb Hb Hm.
    destruct (ssl_handshaken p) eqn:Ho.
    + destruct (tcp_send_any healthy reliable b to ms datas Hb Hm) as (ret & b' & E & Hok & Hs).
      exists ret, (mkPseudoSSL true (Some b') (ssl_send_queue p) (ssl_compatibility p)).
      split.
      { destruct reliable; unfold pseudossl_send_messages_reliable, pseudossl_send_messages;
          rewrite Ho, Eb, E; done. }
      split; [done|]. exists b'. simpl. rewrite Ho. by split_and!.
    + destruct reliable.
      * unfold pseudossl_send_messages_reliable. rewrite Ho.
        destruct (queue_send_stream (ssl_send_queue p) to ms datas Hw Hm) as (q & -> & Hq & Hs). cbn.
        eexists _, _. split; [done|]. split; [done|]. exists b. simpl. rewrite Ho. split_and!; try done.
        rewrite Hs, firstn_all2; [done|]. rewrite to_nat_zlen. by rewrite (Forall2_length _ _ _ Hm).
      * unfold pseudossl_send_messages. rewrite Ho. eexists _, _. split; [done|]. split; [done|].
        exists b. simpl. rewrite Ho. split_and!; try done. by rewrite app_nil_r.
  - intros p ms [Hw Hc] Eb. unfold pseudossl_recv_messages. rewrite Eb.
    destruct (ssl_handshaken p); by eexists _, _, _.
  - intros reliable p to ms datas [Hw Hc] Eb Hm.
    destruct (queue_send_stream (ssl_send_queue p) to ms datas Hw Hm) as (q & E & Hq & Hs).
    destruct reliable; unfold pseudossl_send_messages_reliable, pseudossl_send_messages; rewrite Eb;
      destruct (ssl_handshaken p); try by eexists _, _.
    rewrite E. by eexists _, _.
Qed.

(** *** SOCKS 5 *)

(** The requests of RFC 1929 and RFC 1928. *)
Definition auth_bytes (username password : option (list Z)) : list Z :=
  [0x01; zlen (default [] username)] ++ default [] username ++
  [zlen (default [] password)] ++ default [] password.

Definition connect_bytes (addr : NiceAddress) : list Z :=
  match addr with
  | sockaddr_in sin_port s_addr => [0x05; 0x01; 0x00; 0x01] ++ le_bytes 4 s_addr ++ le_bytes 2 sin_port
  | sockaddr_in6 sin6_port _ s6_addr _ => [0x05; 0x01; 0x00; 0x04] ++ s6_addr ++ le_bytes 2 sin6_port
  | sockaddr_other _ => []
  end.

(** What has been sent in each state: the greeting, the user name and password
    if the proxy asked for them, then the connect request. *)
Definition socks_handshake {S} (p : Socks5Priv S) (hs : list Z) : Prop :=
  let greeting := socks_greeting (socks_username p) (socks_password p) in
  let auth := auth_bytes (socks_username p) (socks_password p) in
  let connect := connect_bytes (socks_addr p) in
  match socks_state p with
  | SOCKS_STATE_INIT => hs = greeting
  | SOCKS_STATE_AUTH => hs = greeting ++ auth
  | SOCKS_STATE_CONNECT | SOCKS_STATE_CONNECTED =>
      hs = greeting ++ connect \/ hs = greeting ++ auth ++ connect
  | SOCKS_STATE_ERROR => True
  end.

#[export] Instance socks5_gated : Gated (G := G) (Socks5Priv (TcpPriv G)) := {
  gt_base := socks_base_socket;
  gt_queue := socks_send_queue;
  gt_open p := bool_decide (socks_state p = SOCKS_STATE_CONNECTED);
  gt_handshake := socks_handshake;
  gt_recv := socks5_recv_messages;
  gt_send reliable := if reliable : bool then socks5_send_messages_reliable else socks5_send_messages
}.

(** The address of the peer is an IPv4 or IPv6 address. *)
Definition inet_address (a : NiceAddress) : Prop :=
  match a with
  | sockaddr_in _ _ => True
  | sockaddr_in6 _ _ s6_addr _ => zlen s6_addr = 16
  | sockaddr_other _ => False
  end.

Definition socks5_wf (p : Socks5Priv (TcpPriv G)) : Prop :=
  queue_wf (socks_send_queue p) /\ inet_address (socks_addr p).

(** Writing at the end of what is written so far. *)
Lemma wr_append buf pre r bs :
  buf = pre ++ r -> zlen bs <= zlen r ->
  exists r', wr_bytes buf (zlen pre) bs = Ok ((pre ++ bs) ++ r') /\ zlen r' = zlen r - zlen bs.
Proof.
  intros -> Hl. pose proof (zlen_nonneg bs). exists (drop (Z.to_nat (zlen bs)) r).
  split; [|apply zlen_drop; lia].
  rewrite <- (take_drop (Z.to_nat (zlen bs)) r) at 1.
  rewrite (wr_bytes_eq _ pre (take (Z.to_nat (zlen bs)) r) bs (drop (Z.to_nat (zlen bs)) r)); try done.
  - by rewrite app_assoc.
  - apply zlen_take. lia.
Qed.

Lemma rd_prefix pre (r : list Z) n : n = zlen pre -> rd_bytes (pre ++ r) 0 n = Ok pre.
Proof. intros ->. by rewrite (rd_bytes_eq _ [] pre r). Qed.

Lemma socks_connect_request_ok addr :
  inet_address addr ->
  socks_connect_request addr = Ok (connect_bytes addr) /\ zlen (connect_bytes addr) < 2 ^ 31.
Proof.
  intros Ha. unfold socks_connect_request.
  assert (H22 : zlen (auto_array 22) = 22) by (by apply auto_array_length).
  destruct (wr_append (auto_array 22) [] (auto_array 22) [5; 1; 0]) as (r1 & E1 & L1);
    [done|by rewrite H22|].
  change (zlen (@nil Z)) with 0 in E1. rewrite E1. cbn [mbind res_bind]. clear E1.
  change (zlen [5; 1; 0]) with 3 in L1. rewrite H22 in L1.
  destruct addr as [port a|port fl a sc|]; simpl in Ha; [| |done].
  - destruct (wr_append _ ([] ++ [5; 1; 0]) r1 [1] eq_refl) as (r2 & E2 & L2); [by rewrite L1|].
    change (zlen ([] ++ [5; 1; 0])) with 3 in E2. rewrite E2. cbn [mbind res_bind]. clear E2.
    change (zlen [1]) with 1 in L2.
    destruct (wr_append _ (([] ++ [5; 1; 0]) ++ [1]) r2 (le_bytes 4 a) eq_refl) as (r3 & E3 & L3);
      [rewrite zlen_le_bytes; lia|].
    change (zlen (([] ++ [5; 1; 0]) ++ [1])) with 4 in E3. rewrite E3. cbn [mbind res_bind]. clear E3.
    rewrite zlen_le_bytes in L3.
    destruct (wr_append _ ((([] ++ [5; 1; 0]) ++ [1]) ++ le_bytes 4 a) r3 (le_bytes 2 port) eq_refl)
      as (r4 & E4 & _); [rewrite zlen_le_bytes; lia|].
    change (zlen ((([] ++ [5; 1; 0]) ++ [1]) ++ le_bytes 4 a)) with 8 in E4.
    rewrite E4. cbn [mbind res_bind].
    rewrite rd_prefix by done. by split.
  - destruct (wr_append _ ([] ++ [5; 1; 0]) r1 [4] eq_refl) as (r2 & E2 & L2); [by rewrite L1|].
    change (zlen ([] ++ [5; 1; 0])) with 3 in E2. rewrite E2. cbn [mbind res_bind]. clear E2.
    change (zlen [4]) with 1 in L2.
    destruct (wr_append _ (([] ++ [5; 1; 0]) ++ [4]) r2 a eq_refl) as (r3 & E3 & L3); [lia|].
    change (zlen (([] ++ [5; 1; 0]) ++ [4])) with 4 in E3. rewrite E3. cbn [mbind res_bind]. clear E3.
    destruct (wr_append _ ((([] ++ [5; 1; 0]) ++ [4]) ++ a) r3 (le_bytes 2 port) eq_refl)
      as (r4 & E4 & _); [rewrite zlen_le_bytes; lia|].
    assert (Hz : zlen ((([] ++ [5; 1; 0]) ++ [4]) ++ a) = 20) by (rewrite zlen_app, Ha; done).
    rewrite Hz in E4. rewrite E4. cbn [mbind res_bind].
    assert (Hz2 : zlen (((([] ++ [5; 1; 0]) ++ [4]) ++ a) ++ le_bytes 2 port) = 22)
      by (rewrite zlen_app, Hz; done).
    rewrite rd_prefix by done. split; [by rewrite <- !app_assoc|].
    unfold connect_bytes. rewrite !zlen_app, Ha. done.
Qed.

(** The request fits the array of 515 bytes. *)
Lemma socks_auth_request_ok username password :
  let r := if (255 <? zlen (default [] username)) || (255 <? zlen (default [] password))
           then None else Some (auth_bytes username password) in
  socks_auth_request username password = Ok r /\
    match r with Some msg => zlen msg < 2 ^ 31 | None => True end.
Proof.
  unfold socks_auth_request, auth_bytes. set (u := default [] username). set (w := default [] password).
  destruct (Z.ltb_spec 255 (zlen u)); [done|]. destruct (Z.ltb_spec 255 (zlen w)); [done|].
  pose proof (zlen_nonneg u). pose proof (zlen_nonneg w). cbn [orb].
  assert (H515 : zlen (auto_array 515) = 515) by (by apply auto_array_length).
  destruct (wr_append (auto_array 515) [] (auto_array 515) [1; zlen u]) as (r1 & E1 & L1);
    [done|by rewrite H515|].
  change (zlen (@nil Z)) with 0 in E1. rewrite E1, app_nil_l. cbn [mbind res_bind]. clear E1.
  change (zlen [1; zlen u]) with 2 in L1.
  destruct (wr_append _ [1; zlen u] r1 u eq_refl) as (r2 & E2 & L2); [lia|].
  change (zlen [1; zlen u]) with 2 in E2. rewrite E2. cbn [mbind res_bind]. clear E2.
  assert (Z2 : zlen ([1; zlen u] ++ u) = 2 + zlen u) by (by rewrite zlen_app).
  destruct (wr_append _ ([1; zlen u] ++ u) r2 [zlen w] eq_refl) as (r3 & E3 & L3);
    [change (zlen [zlen w]) with 1; lia|].
  rewrite Z2 in E3. rewrite E3. cbn [mbind res_bind]. clear E3. change (zlen [zlen w]) with 1 in L3.
  assert (Z3 : zlen (([1; zlen u] ++ u) ++ [zlen w]) = 3 + zlen u)
    by (rewrite zlen_app, Z2; change (zlen [zlen w]) with 1; lia).
  destruct (wr_append _ (([1; zlen u] ++ u) ++ [zlen w]) r3 w eq_refl) as (r4 & E4 & _); [lia|].
  rewrite Z3 in E4. rewrite E4. cbn [mbind res_bind].
  rewrite rd_prefix by (rewrite zlen_app, Z3; lia). cbn [mbind res_bind].
  split; [by rewrite <- !app_assoc|]. rewrite app_assoc, zlen_app, Z2, zlen_app.
  change (zlen [zlen w]) with 1. lia.
Qed.

Lemma socks_read_ok base data size :
  0 <= size <= zlen data -> zlen data < 2 ^ 64 ->
  exists ret data' base', socks_read base data size = Ok (ret, data', base') /\
    zlen data' = zlen data /\ tcp_send_queue base' = tcp_send_queue base /\
    tcp_stream base' = tcp_stream base /\ (0 < ret -> ret = 1 /\ tcp_error base' = false).
Proof.
  intros Hs Hd. unfold socks_read.
  destruct (tcp_read_one base data size None) as (ret & d' & f & len & b' & -> & H1 & H2 & H3 & H4); [done|done|].
  eexists _, _, _. split; [done|]. by split_and!.
Qed.

(** The outcomes of a step of the state machine. *)
Definition socks_step (p : Socks5Priv (TcpPriv G)) (base : TcpPriv G)
    (r : res (Z * list NiceInputMessage * Socks5Priv (TcpPriv G))) : Prop :=
  exists ret ms' p', r = Ok (ret, ms', p') /\ socks5_wf p' /\ recv_step p base p'.

Lemma socks_error_step p base ms : socks5_wf p -> socks_step p base (socks_error p ms).
Proof. intros [Hw Ha]. eexists _, _, _. split; [done|]. split; [done|]. by apply step_closes. Qed.

Lemma socks_stays_step p base base' ret ms st :
  socks5_wf p -> tcp_ok base' -> socks_state p <> SOCKS_STATE_CONNECTED -> st <> SOCKS_STATE_CONNECTED ->
  (exists ctl, tcp_stream base' = tcp_stream base ++ ctl /\
     forall hs, socks_handshake p hs -> socks_handshake (with_base p st base') (hs ++ ctl)) ->
  socks_step p base (Ok (ret, ms, with_base p st base')).
Proof.
  intros [Hw Ha] Hb Hp Hst (ctl & Hctl & Hhs). eexists _, _, _. split; [done|]. split; [done|].
  apply (step_stays _ _ _ base' ctl); simpl; try done.
  - by rewrite !bool_decide_false.
  - by rewrite bool_decide_false.
Qed.

(** A read that changes nothing. *)
Lemma socks_blocked_step p base base' ret ms :
  socks5_wf p -> tcp_ok base' -> socks_state p <> SOCKS_STATE_CONNECTED ->
  tcp_stream base' = tcp_stream base -> socks_step p base (Ok (ret, ms, with_base p (socks_state p) base')).
Proof.
  intros Hw Hb Hp Hs. apply socks_stays_step; try done. exists []. rewrite app_nil_r. split; [done|].
  intros hs. by rewrite app_nil_r.
Qed.

Lemma socks_connect_step p base base' ms :
  socks5_wf p -> tcp_ok base' -> tcp_error base' = false -> tcp_stream base' = tcp_stream base ->
  socks_state p = SOCKS_STATE_INIT \/ socks_state p = SOCKS_STATE_AUTH ->
  socks_step p base (socks_send_connect p base' ms).
Proof.
  intros Hw Hb He Hs Hp. unfold socks_send_connect.
  destruct (socks_connect_request_ok (socks_addr p)) as [-> Hl]; [apply Hw|]. cbn [mbind res_bind].
  destruct (tcp_send_reliable_stream healthy base' None _ Hb He Hl) as (ret & b2 & -> & Hok & _ & Hst).
  cbn [mbind res_bind]. apply socks_stays_step; try done; [by destruct Hp as [-> | ->]|].
  exists (connect_bytes (socks_addr p)). rewrite Hst, Hs. split; [done|]. intros hs.
  unfold socks_handshake. simpl.
  destruct Hp as [-> | ->]; intros ->; [by left|right; by rewrite <- app_assoc].
Qed.

Lemma socks_finish_step p base base' data size ms :
  socks5_wf p -> tcp_ok base' -> tcp_stream base' = tcp_stream base -> zlen data = 22 -> 0 <= size <= 22 ->
  socks_state p = SOCKS_STATE_CONNECT -> socks_step p base (socks_finish p base' data size ms).
Proof.
  intros Hw Hb Hs Hd Hsz Hp. unfold socks_finish.
  destruct (socks_read_ok base' data size) as (ret & d' & b2 & -> & Hd' & Hq & Hs2 & He2); [lia|lia|].
  cbn [mbind res_bind]. destruct (Z.eqb_spec ret 1) as [->|]; cbn [negb]; [|by apply socks_error_step].
  destruct (flush_queue_stream healthy b2 (socks_send_queue p)) as (b3 & -> & Hok & _ & Hs3).
  { unfold tcp_ok. by rewrite Hq. } { by apply He2. } { apply Hw. }
  cbn [mbind res_bind]. eexists _, _, _. split; [done|]. split; [split; [constructor|apply Hw]|].
  apply (step_opens _ _ _ b3); simpl; try done.
  - by rewrite Hp.
  - by rewrite Hs3, Hs2, Hs.
  - intros hs. unfold socks_handshake. simpl. by rewrite Hp.
Qed.

Lemma rd_ok data i : 0 <= i < zlen data -> exists v, rd data i = Ok v.
Proof. intros. rewrite rd_Ok by done. by eexists. Qed.

Ltac socks_split :=
  repeat match goal with
  | |- socks_step _ _ (if ?b then _ else _) => lazymatch type of b with bool => destruct b end
  | |- socks_step _ _ (socks_error _ _) => by apply socks_error_step
  end.

Lemma tcp_ok_queue (base base' : TcpPriv G) :
  tcp_ok base -> tcp_send_queue base' = tcp_send_queue base -> tcp_ok base'.
Proof. unfold tcp_ok. by intros ? ->. Qed.

Lemma socks_init_step p base ms :
  socks5_wf p -> tcp_ok base -> socks_state p = SOCKS_STATE_INIT ->
  socks_step p base (socks_recv_init p base ms).
Proof.
  intros Hw Hb Es. assert (Hlen : zlen (auto_array 2) = 2) by (by apply auto_array_length).
  assert (Hkeep := fun base' => tcp_ok_queue base base' Hb).
  unfold socks_recv_init.
  destruct (socks_read_ok base (auto_array 2) 2) as (ret & data & b' & -> & Hd & Hq & Hs & He); [lia|lia|].
  cbn [mbind res_bind]. destruct (Z.leb_spec ret 0).
  { rewrite <- Es. apply socks_blocked_step; try done; [by apply Hkeep|by rewrite Es]. }
  destruct He as [-> He]; [lia|]. cbn [Z.eqb Pos.eqb].
  destruct (rd_ok data 0) as [d0 ->]; [lia|]. destruct (rd_ok data 1) as [d1 E1]; [lia|]. rewrite E1.
  cbn [mbind res_bind].
  assert (Hauth : socks_step p base (request ← socks_auth_request (socks_username p) (socks_password p);
    match request with
    | None => socks_error p ms
    | Some msg => '(_, base) ← nice_socket_send_reliable b' None (zlen msg) msg;
        Ok (0, ms, with_base p SOCKS_STATE_AUTH base)
    end)).
  { destruct (socks_auth_request_ok (socks_username p) (socks_password p)) as [-> Hl].
    destruct ((_ <? _) || _); cbn [mbind res_bind]; [by apply socks_error_step|].
    destruct (tcp_send_reliable_stream healthy b' None _ (Hkeep _ Hq) He Hl) as (r & b2 & -> & Hok & _ & Hst).
    cbn [mbind res_bind]. apply socks_stays_step; try done; [by rewrite Es|].
    eexists. rewrite Hst, Hs. split; [done|]. unfold socks_handshake. simpl. rewrite Es. by intros hs ->. }
  socks_split.
  + revert Hauth. destruct (socks_username p), (socks_password p); intros Hauth;
      first [exact Hauth|by apply socks_error_step].
  + apply socks_connect_step; try done; [by apply Hkeep|auto].
Qed.

Lemma socks_auth_step p base ms :
  socks5_wf p -> tcp_ok base -> socks_state p = SOCKS_STATE_AUTH ->
  socks_step p base (socks_recv_auth p base ms).
Proof.
  intros Hw Hb Es. assert (Hlen : zlen (auto_array 2) = 2) by (by apply auto_array_length).
  assert (Hkeep := fun base' => tcp_ok_queue base base' Hb).
  unfold socks_recv_auth.
  destruct (socks_read_ok base (auto_array 2) 2) as (ret & data & b' & -> & Hd & Hq & Hs & He); [lia|lia|].
  cbn [mbind res_bind]. destruct (Z.leb_spec ret 0).
  { rewrite <- Es. apply socks_blocked_step; try done; [by apply Hkeep|by rewrite Es]. }
  destruct He as [-> He]; [lia|]. cbn [Z.eqb Pos.eqb].
  destruct (rd_ok data 0) as [d0 ->]; [lia|]. destruct (rd_ok data 1) as [d1 E1]; [lia|]. rewrite E1.
  cbn [mbind res_bind]. socks_split.
  apply socks_connect_step; try done; [by apply Hkeep|auto].
Qed.

Lemma socks_connected_step p base ms :
  socks5_wf p -> tcp_ok base -> socks_state p = SOCKS_STATE_CONNECT ->
  socks_step p base (socks_recv_connect p base ms).
Proof.
  intros Hw Hb Es. assert (Hlen : zlen (auto_array 22) = 22) by (by apply auto_array_length).
  assert (Hkeep := fun base' => tcp_ok_queue base base' Hb).
  unfold socks_recv_connect.
  destruct (socks_read_ok base (auto_array 22) 4) as (ret & data & b' & -> & Hd & Hq & Hs & He); [lia|lia|].
  cbn [mbind res_bind]. destruct (Z.leb_spec ret 0).
  { rewrite <- Es. apply socks_blocked_step; try done; [by apply Hkeep|by rewrite Es]. }
  destruct He as [-> He]; [lia|]. cbn [Z.eqb Pos.eqb].
  destruct (rd_ok data 0) as [d0 ->]; [lia|]. destruct (rd_ok data 1) as [d1 ->]; [lia|].
  destruct (rd_ok data 2) as [d2 ->]; [lia|]. destruct (rd_ok data 3) as [d3 ->]; [lia|].
  cbn [mbind res_bind]. socks_split; (apply socks_finish_step; try done; [by apply Hkeep|lia]).
Qed.

Lemma socks_recv_step p base ms :
  socks5_wf p -> socks_base_socket p = Some base -> tcp_ok base -> Forall readable ms ->
  socks_step p base (socks5_recv_messages p ms).
Proof.
  intros Hw Eb Hb Hr. unfold socks5_recv_messages. rewrite Eb. destruct (socks_state p) eqn:Es.
  - by apply socks_init_step.
  - by apply socks_auth_step.
  - by apply socks_connected_step.
  - destruct (tcp_recv_keeps base ms Hr) as (ret & ms' & b' & -> & Hq & Hs & _). cbn [mbind res_bind].
    eexists _, _, _. split; [done|]. split; [done|].
    apply (step_stays _ _ _ b' []); simpl; try done;
      [by rewrite Es|by apply (tcp_ok_queue base)|by rewrite app_nil_r|].
    intros hs. rewrite app_nil_r. unfold socks_handshake. simpl. by rewrite Es.
  - by apply socks_error_step.
Qed.

#[export] Instance socks5_gated_laws : GatedLaws socks5_wf.
Proof.
  split; simpl.
  - intros p b ms Hw Eb Hb Hr. by apply socks_recv_step.
  - intros reliable p b to ms datas Hw Eb Hb Hm.
    destruct (decide (socks_state p = SOCKS_STATE_CONNECTED)) as [Es|Es].
    + destruct (tcp_send_any healthy reliable b to ms datas Hb Hm) as (ret & b' & E & Hok & Hs).
      exists ret, (with_base p SOCKS_STATE_CONNECTED b'). split.
      { destruct reliable; unfold socks5_send_messages_reliable, socks5_send_messages;
          rewrite Es, Eb, E; done. }
      split; [done|]. exists b'. simpl. rewrite Es.
      split_and!; try done. intros hs. unfold socks_handshake. simpl. by rewrite Es.
    + assert (Hno : forall q, socks_base_socket q = Some b -> socks_send_queue q = socks_send_queue p ->
        socks_state q = socks_state p -> (forall hs, socks_handshake p hs -> socks_handshake q hs) ->
        send_step p b [] q).
      { intros q H1 H2 H3 H4. exists b. simpl. rewrite H3, bool_decide_false by done.
        rewrite H2, app_nil_r. by split_and!. }
      destruct (queue_send_stream (socks_send_queue p) to ms datas (proj1 Hw) Hm) as (q & E & Hq & Hs).
      destruct reliable.
      * unfold socks5_send_messages_reliable.
        assert (Hyes : exists ret p', (queue ← nice_socket_queue_send (socks_send_queue p) to ms;
            Ok (zlen ms, mkSocks5 (socks_state p) (socks_base_socket p) (socks_addr p)
              (socks_username p) (socks_password p) queue)) = Ok (ret, p') /\ socks5_wf p' /\
            send_step p b (take (Z.to_nat ret) datas) p').
        { rewrite E. cbn [mbind res_bind]. eexists _, _. split; [done|]. split; [split; [done|apply Hw]|].
          exists b. simpl. rewrite bool_decide_false by done. split_and!; try done.
          rewrite Hs, firstn_all2; [done|]. rewrite to_nat_zlen. by rewrite (Forall2_length _ _ _ Hm). }
        destruct (decide (socks_state p = SOCKS_STATE_ERROR)) as [Er|Er].
        { rewrite Er. eexists _, _. split; [reflexivity|]. split; [exact Hw|]. apply Hno; try congruence; done. }
        assert (Hmatch : forall (A : Type) (x y z : A), match socks_state p with
          | SOCKS_STATE_CONNECTED => x | SOCKS_STATE_ERROR => y | _ => z end = z)
          by (intros; destruct (socks_state p); congruence).
        rewrite Hmatch. exact Hyes.
      * unfold socks5_send_messages.
        destruct (socks_state p) eqn:Est; try congruence;
          (eexists _, _; split; [reflexivity|]; split; [exact Hw|]; apply Hno; try congruence; done).
  - intros p ms Hw Eb. unfold socks5_recv_messages. rewrite Eb.
    destruct (socks_state p); by eexists _, _, _.
  - intros reliable p to ms datas Hw Eb Hm.
    destruct (queue_send_stream (socks_send_queue p) to ms datas (proj1 Hw) Hm) as (q & E & Hq & Hs).
    destruct reliable; unfold socks5_send_messages_reliable, socks5_send_messages; rewrite ?E, Eb;
      destruct (socks_state p); cbn [mbind res_bind];
      (eexists _, _; split; [done|]; split; [|done]; first [exact Hw|by split; [|apply Hw]]).
Qed.
End implementations.

(** ** Theorems *)


(** The pseudo-SSL socket holds back what is sent until the server hello
    has arrived: for every run the bytes written to the open connection are the
    client hello followed, once the handshake is over, by exactly the accepted
    messages in order; before that the accepted messages are in the queue. *)
Theorem pseudossl_holds_back {M : GMalloc} {ML : GMallocLaws} {AA : AutoArray} {AL : AutoArrayLaws}
    {G : Type} {GS : GSocket G} {GL : GSocketLaws G} (base : TcpPriv G)
    (c : NicePseudoSSLSocketCompatibility) (ops : list gated_op) :
  (forall g data g' e, g_socket_send_message g data = (g', inl e) -> e = G_IO_ERROR_WOULD_BLOCK) ->
  tcp_wf base -> Forall op_ok ops ->
  exists p, nice_pseudossl_socket_new base c = Ok p /\
  exists accepted p' datas, gated_run p ops = Ok (accepted, p') /\ Forall2 whole accepted datas /\
    forall b, ssl_base_socket p' = Some b -> let handshake := client_handshake c in
      if ssl_handshaken p'
      then tcp_stream b = tcp_stream base ++ handshake ++ concat datas
      else tcp_stream b = tcp_stream base ++ handshake /\ queued (ssl_send_queue p') = concat datas.
Proof.
  intros Hh [Hq He] Hops. unfold nice_pseudossl_socket_new.
  destruct (tcp_send_reliable_stream Hh base None (client_handshake c))
    as (ret & b & -> & Hok & _ & Hs); [done|done|by destruct c|].
  cbn [mbind res_bind]. eexists. split; [done|].
  pose proof (pseudossl_gated_laws Hh c) as Hl.
  destruct (gated_run_inv (wf := pseudossl_wf c) (tcp_stream base) [] (mkPseudoSSL false (Some b) [] c) ops)
    as (acc & p' & ds & E & [_ Hc] & Hd & Hi);
    [by split; [constructor|]|by split; [|exists (client_handshake c)]|done|].
  exists acc, p', ds. split; [done|]. split; [done|]. intros b' Hb'. unfold gated_inv in Hi.
  cbn [gt_base pseudossl_gated] in Hi. rewrite Hb' in Hi. destruct Hi as (_ & hs & Hg & Hi).
  cbn [gt_open pseudossl_gated gt_queue gt_handshake] in Hi, Hg. rewrite Hc in Hg. subst hs. destruct (ssl_handshaken p'); [|done]. by destruct Hi.
Qed.

(** *** Concrete runs *)

#[global] Instance zero_array : AutoArray := fun n => replicate (Z.to_nat n) 0.
#[global] Instance zero_array_laws : AutoArrayLaws.
Proof. intros n Hn. unfold auto_array, zero_array. rewrite zlen_replicate. lia. Qed.

Definition small_message : NiceInputMessage := mkInput [mkVector (Some (replicate 8 0)) 8] 1 None 0.

Lemma small_message_readable : readable small_message.
Proof. apply readable_one; by vm_compute. Qed.

(** The proxy accepts without authentication, then the connection is made. *)
Definition ex_proxy (segments : list (list Z)) : TcpPriv ScriptSocket :=
  nice_tcp_bsd_socket_new_from_gsock (mkScript [] [] segments) nice_address_init true.
Definition ex_proxy_replies : list (list Z) := [[5; 0]; [5; 0; 0; 1]; [10; 0; 0; 1; 0; 80]].
Definition ex_peer : NiceAddress := sockaddr_in 0x5000 0x0100000a.
Definition ex_proxy_ops : list gated_op :=
  [GatedSend true None [one_vector [1; 2; 3]]; GatedSend false None [one_vector [9]];
   GatedRecv [small_message]; GatedRecv [small_message]; GatedSend true None [one_vector [4; 5]]].

Lemma ex_proxy_ops_ok : Forall op_ok ex_proxy_ops.
Proof.
  assert (Hr : op_ok (GatedRecv [small_message])) by (constructor; [apply small_message_readable|constructor]).
  assert (Hs : forall r b, zlen b < 2 ^ 31 -> op_ok (GatedSend r None [one_vector b]))
    by (intros r b Hb; constructor; [exists b; by apply whole_one_vector|constructor]).
  unfold ex_proxy_ops. repeat (constructor; [first [exact Hr|apply Hs; done]|]). constructor.
Qed.


Example ex_socks_run :
  match nice_socks5_socket_new (ex_proxy ex_proxy_replies) (Some ex_peer) None None with
  | Ok (Some p) =>
      match gated_run p ex_proxy_ops with
      | Ok (acc, p') => (length acc, socks_state p', tcp_stream <$> socks_base_socket p')
      | Fault _ => (O, SOCKS_STATE_ERROR, None)
      end
  | _ => (O, SOCKS_STATE_ERROR, None)
  end = (2%nat, SOCKS_STATE_CONNECTED,
         Some ([5; 1; 0] ++ [5; 1; 0; 1; 10; 0; 0; 1; 0; 80] ++ [1; 2; 3] ++ [4; 5])).
Proof. vm_compute. reflexivity. Qed.

Lemma pseudossl_holds_back_witness :
  tcp_wf (ex_proxy [SSL_SERVER_GOOGLE_HANDSHAKE]) /\
  exists p, nice_pseudossl_socket_new (ex_proxy [SSL_SERVER_GOOGLE_HANDSHAKE])
              NICE_PSEUDOSSL_SOCKET_COMPATIBILITY_GOOGLE = Ok p /\
  exists accepted p' datas, gated_run p ex_proxy_ops = Ok (accepted, p') /\ Forall2 whole accepted datas /\
    forall b, ssl_base_socket p' = Some b -> let handshake := client_handshake NICE_PSEUDOSSL_SOCKET_COMPATIBILITY_GOOGLE in
      if ssl_handshaken p'
      then tcp_stream b = tcp_stream (ex_proxy [SSL_SERVER_GOOGLE_HANDSHAKE]) ++ handshake ++ concat datas
      else tcp_stream b = tcp_stream (ex_proxy [SSL_SERVER_GOOGLE_HANDSHAKE]) ++ handshake /\
           queued (ssl_send_queue p') = concat datas.
Proof.
  split; [by repeat constructor|].
  refine (pseudossl_holds_back (ex_proxy [SSL_SERVER_GOOGLE_HANDSHAKE])
            NICE_PSEUDOSSL_SOCKET_COMPATIBILITY_GOOGLE ex_proxy_ops script_healthy _ ex_proxy_ops_ok).
  by repeat constructor.
Defined.

Example ex_pseudossl_run :
  match nice_pseudossl_socket_new (ex_proxy [SSL_SERVER_GOOGLE_HANDSHAKE])
          NICE_PSEUDOSSL_SOCKET_COMPATIBILITY_GOOGLE with
  | Ok p =>
      match gated_run p ex_proxy_ops with
      | Ok (acc, p') => (length acc, ssl_handshaken p', tcp_stream <$> ssl_base_socket p')
      | Fault _ => (O, false, None)
      end
  | Fault _ => (O, false, None)
  end = (2%nat, true, Some (SSL_CLIENT_GOOGLE_HANDSHAKE ++ [1; 2; 3] ++ [4; 5])).
Proof. vm_compute. reflexivity. Qed.

(** The SOCKS 5 client does not notice a short read: when only the first
    byte of the two byte method reply has arrived, it takes the second one from
    the array it never wrote, and goes on or gives up depending on what is
    there. *)
Theorem socks5_short_read_uninitialised {M : GMalloc} {ML : GMallocLaws} {AA : AutoArray}
    {AL : AutoArrayLaws} (junk0 junk1 : Z) (messages : list NiceInputMessage)
    (queue : list NiceSocketQueuedSend) :
  auto_array 2 = [junk0; junk1] -> junk1 <> 2 ->
  exists ret ms' p', socks5_recv_messages
      (mkSocks5 SOCKS_STATE_INIT (Some (ex_proxy [[5]])) ex_peer None None queue) messages
    = Ok (ret, ms', p') /\
    socks_state p' = if junk1 =? 0 then SOCKS_STATE_CONNECT else SOCKS_STATE_ERROR.
Proof.
  intros Hj Hn. unfold socks5_recv_messages. cbn [socks_state socks_base_socket].
  unfold socks_recv_init. rewrite Hj.
  assert (Er : socks_read (ex_proxy [[5]]) [junk0; junk1] 2 = Ok (1, [5; junk1], ex_proxy [])) by reflexivity.
  rewrite Er. cbn [mbind res_bind Z.leb Z.compare Z.eqb Pos.eqb]. rewrite rd_hd, rd_1.
  cbn [mbind res_bind Z.eqb Pos.eqb]. rewrite (proj2 (Z.eqb_neq junk1 2) Hn).
  destruct (Z.eqb_spec junk1 0); [|by eexists _, _, _].
  unfold socks_send_connect. cbn [socks_addr].
  destruct (socks_connect_request_ok ex_peer) as [-> Hl]; [done|]. cbn [mbind res_bind].
  destruct (tcp_send_reliable_stream script_healthy (ex_proxy []) None (connect_bytes ex_peer)) as (ret & b & -> & _);
    [constructor|done|done|].
  by eexists _, _, _.
Qed.

Lemma socks5_short_read_uninitialised_witness :
  exists ret ms' p', socks5_recv_messages
      (mkSocks5 SOCKS_STATE_INIT (Some (ex_proxy [[5]])) ex_peer None None []) []
    = Ok (ret, ms', p') /\ socks_state p' = SOCKS_STATE_CONNECT.
Proof. apply (socks5_short_read_uninitialised 0 0 [] []); done. Defined.

(** The server hello of the pseudo-SSL handshake is only accepted in one
    piece: when it arrives in two segments, the first read already closes the
    connection. *)
Theorem pseudossl_rejects_segments {M : GMalloc} {AA : AutoArray} {AL : AutoArrayLaws}
    (c : NicePseudoSSLSocketCompatibility) (k : Z) (messages : list NiceInputMessage)
    (queue : list NiceSocketQueuedSend) :
  0 < k < zlen (server_handshake c) ->
  pseudossl_recv_messages
    (mkPseudoSSL false (Some (ex_proxy [take (Z.to_nat k) (server_handshake c);
                                        drop (Z.to_nat k) (server_handshake c)])) queue c) messages
  = Ok (-1, messages, mkPseudoSSL false None queue c).
Proof.
  intros Hk. unfold pseudossl_recv_messages.
  cbn [ssl_handshaken ssl_base_socket ssl_compatibility ssl_send_queue].
  set (hello := server_handshake c) in *. set (data := auto_array _).
  assert (Hd : zlen data = 83) by (unfold data; by rewrite auto_array_length).
  assert (Hh : zlen hello <= 83) by (unfold hello; destruct c; by vm_compute).
  set (d := take (Z.to_nat k) hello).
  assert (Hz : zlen d = k) by (apply zlen_take; lia).
  rewrite (tcp_recv_data _ data (zlen hello) None (mkScript [] [] [drop (Z.to_nat k) hello]) d);
    [|done|lia|lia|apply script_receive; lia].
  rewrite wr_bytes_Ok by lia. cbn [mbind res_bind Z.leb Z.compare]. rewrite message_at_0.
  cbn [mbind res_bind Z.eqb Pos.eqb im_buffers gv_buffer default from_option id im_length].
  assert (Ev : forall b, server_handshake_valid c b (zlen d) = Ok false).
  { intros b. unfold server_handshake_valid. rewrite Hz. unfold hello, server_handshake in Hk.
    destruct c; [destruct (Z.eqb_spec k (zlen SSL_SERVER_GOOGLE_HANDSHAKE))|
                 destruct (Z.eqb_spec k (zlen SSL_SERVER_MSOC_HANDSHAKE))]; (done || lia). }
  rewrite Ev. done.
Qed.

Lemma pseudossl_rejects_segments_witness :
  pseudossl_recv_messages
    (mkPseudoSSL false (Some (ex_proxy [take 5 SSL_SERVER_MSOC_HANDSHAKE; drop 5 SSL_SERVER_MSOC_HANDSHAKE]))
       [] NICE_PSEUDOSSL_SOCKET_COMPATIBILITY_MSOC) []
  = Ok (-1, [], mkPseudoSSL false None [] NICE_PSEUDOSSL_SOCKET_COMPATIBILITY_MSOC).
Proof.
  apply (pseudossl_rejects_segments NICE_PSEUDOSSL_SOCKET_COMPATIBILITY_MSOC 5 [] []). by vm_compute.
Defined.
