(* ===== verification/Http.v ===== *)
(** * The HTTP proxy socket (socket/http.c)

    A client of the CONNECT method over a TCP socket.  The reply of the proxy
    is read into a ring buffer and parsed in place: the status line, the header
    lines, the body.  Until the connection is established, messages to be sent
    reliably wait in a queue.  The four members of the ring buffer are the
    record [HttpRing]; a parser's position is below the number of bytes in it,
    so the width of the position does not matter. *)
From stdpp Require Import gmap strings.
From S2P Require Import Prelude CMem StunTypes Address IceTypes IceEnv Discovery Sdp IoMessage NiceSock TcpSocket Socks5.
Local Open Scope Z_scope.

Inductive HttpState : Set :=
  | HTTP_STATE_INIT | HTTP_STATE_HEADERS | HTTP_STATE_BODY | HTTP_STATE_CONNECTED
  | HTTP_STATE_ERROR.

#[global] Instance HttpState_eq_dec : EqDecision HttpState.
Proof. solve_decision. Defined.

Definition HTTP_USER_AGENT : list Z := text "libnice".
Definition G_MAXSIZE : Z := 18446744073709551615.

(** ** The ring buffer *)

Record HttpRing : Set := mkRing {
  recv_buf : list Z;
  recv_buf_length : Z;
  recv_buf_pos : Z;
  recv_buf_fill : Z
}.

Definition assert_ring_buffer_valid (r : HttpRing) : res unit :=
  _ ← assert_ok (recv_buf_fill r <=? recv_buf_length r);
  assert_ok ((recv_buf_pos r =? 0) || (recv_buf_pos r <? recv_buf_length r)).

Definition has_wrapped (r : HttpRing) : bool :=
  recv_buf_length r <? recv_buf_pos r + recv_buf_fill r.

Definition GET_BYTE (r : HttpRing) (pos : Z) : res Z :=
  if recv_buf_length r =? 0 then Fault DivByZero
  else rd (recv_buf r) ((pos + recv_buf_pos r) mod recv_buf_length r).

(** Drop the first [n] bytes. *)
Definition consume (r : HttpRing) (n : Z) : res HttpRing :=
  if recv_buf_length r =? 0 then Fault DivByZero
  else Ok (mkRing (recv_buf r) (recv_buf_length r) ((recv_buf_pos r + n) mod recv_buf_length r) (recv_buf_fill r - n)).

(** Result: the number of bytes copied, the vector's object and the ring. *)
Definition memcpy_ring_buffer_to_buffer (r : HttpRing) (v : GVector) : res (Z * GVector * HttpRing) :=
  let buffer_length := gv_size v in
  '(v, consumed) ←
    (if has_wrapped r then
       let len := Z.min (recv_buf_length r - recv_buf_pos r) buffer_length in
       head ← rd_bytes (recv_buf r) (recv_buf_pos r) len;
       v ← vector_write v 0 head;
       let len' := Z.min (recv_buf_fill r - len) (buffer_length - len) in
       rest ← rd_bytes (recv_buf r) 0 len';
       v ← vector_write v len rest;
       Ok (v, len + len')
     else
       let len := Z.min (recv_buf_fill r) buffer_length in
       data ← rd_bytes (recv_buf r) (recv_buf_pos r) len;
       v ← vector_write v 0 data;
       Ok (v, len));
  r ← consume r consumed;
  Ok (consumed, v, r).

(** The vectors of one message: each gets the number of bytes copied as its
    size. *)
Fixpoint ring_vectors_loop (n_buffers j : Z) (bufs : list GVector) (r : HttpRing) : res (list GVector * HttpRing) :=
  if 0 <? recv_buf_fill r then
    more ← has_vector n_buffers j bufs;
    if more : bool then
      match bufs with
      | [] => Fault OutOfBounds
      | v :: rest =>
          '(n, v, r) ← memcpy_ring_buffer_to_buffer r v;
          '(rest, r) ← ring_vectors_loop n_buffers (j + 1) rest r;
          Ok (mkVector (gv_buffer v) n :: rest, r)
      end
    else Ok (bufs, r)
  else Ok (bufs, r).

(** Result: the number of messages touched, the messages and the ring. *)
Fixpoint memcpy_ring_buffer_to_input_messages (r : HttpRing) (messages : list NiceInputMessage)
    : res (Z * list NiceInputMessage * HttpRing) :=
  match messages with
  | [] => Ok (0, [], r)
  | m :: rest =>
      if 0 <? recv_buf_fill r then
        '(bufs, r) ← ring_vectors_loop (im_n_buffers m) 0 (im_buffers m) r;
        '(i, rest, r) ← memcpy_ring_buffer_to_input_messages r rest;
        Ok (i + 1, mkInput bufs (im_n_buffers m) (im_from m) (im_length m) :: rest, r)
      else Ok (0, messages, r)
  end.

(** ** Parsing the reply *)

(** Where a parser ends: the labels [not_enough_data] and [error], or with a
    value. *)
Inductive parsing (A : Type) : Type :=
  | NotEnoughData
  | HttpError
  | Parsed (a : A).
Arguments NotEnoughData {A}.
Arguments HttpError {A}.
Arguments Parsed {A} a.

Definition parse_bind {A B} (x : res (parsing A)) (f : A -> res (parsing B)) : res (parsing B) :=
  x ← x;
  match x with
  | NotEnoughData => Ok NotEnoughData
  | HttpError => Ok HttpError
  | Parsed a => f a
  end.
Notation "x ←? e ; f" := (parse_bind e (fun x => f)) (at level 20, e at level 100, f at level 200, only parsing).
Notation "'need' c ; f" := (if c then f else Ok NotEnoughData) (at level 20, c at level 100, f at level 200, only parsing).
Notation "'expect' c ; f" := (if c then f else Ok HttpError) (at level 20, c at level 100, f at level 200, only parsing).

Fixpoint whitespace_loop (fuel : nat) (r : HttpRing) (pos : Z) : res Z :=
  if pos <? recv_buf_fill r then
    c ← GET_BYTE r pos;
    if c =? 32 then
      match fuel with
      | O => Fault OutOfFuel
      | S fuel => whitespace_loop fuel r (pos + 1)
      end
    else Ok pos
  else Ok pos.

(** Enough fuel to walk over the whole ring. *)
Definition ring_fuel (r : HttpRing) (pos : Z) : nat := Z.to_nat (recv_buf_fill r - pos).

Definition EAT_WHITESPACE (r : HttpRing) (pos : Z) : res (parsing Z) :=
  pos ← whitespace_loop (ring_fuel r pos) r pos;
  need pos <? recv_buf_fill r;
  Ok (Parsed pos).

(** The bytes from [pos] on are the ones given, in either spelling. *)
Fixpoint bytes_at (r : HttpRing) (pos : Z) (l : list (Z * Z)) : res bool :=
  match l with
  | [] => Ok true
  | (x, y) :: l =>
      c ← GET_BYTE r pos;
      if (c =? x) || (c =? y) then bytes_at r (pos + 1) l else Ok false
  end.

Definition spelt (a b : list Z) : list (Z * Z) := zip a b.
Definition http_version : list (Z * Z) := spelt (text "HTTP/1.") (text "HTTP/1.").
Definition content_length_header : list (Z * Z) := spelt (text "Content-Length:") (text "cONTENT-lENGTH:").

(** The loop that clears a line: it ends before the line feed. *)
Fixpoint line_loop (fuel : nat) (r : HttpRing) (pos : Z) : res Z :=
  if pos + 1 <? recv_buf_fill r then
    c ← GET_BYTE r pos;
    if c =? 13 then Ok pos
    else
      d ← GET_BYTE r (pos + 1);
      if d =? 10 then Ok pos
      else
        match fuel with
        | O => Fault OutOfFuel
        | S fuel => line_loop fuel r (pos + 1)
        end
  else Ok pos.

(** The position behind the line. *)
Definition skip_line (r : HttpRing) (pos : Z) : res (parsing Z) :=
  pos ← line_loop (ring_fuel r pos) r pos;
  need pos + 1 <? recv_buf_fill r;
  Ok (Parsed (pos + 2)).

Definition is_ascii_digit (c : Z) : bool := (48 <=? c) && (c <=? 57).

(** HTTP_STATE_INIT. *)
Definition parse_status (r : HttpRing) : res (parsing Z) :=
  let fill := recv_buf_fill r in
  pos ←? EAT_WHITESPACE r 0;
  need pos + 7 <=? fill;
  version ← bytes_at r pos http_version;
  expect version : bool;
  let pos := pos + 7 in
  need pos <? fill;
  minor ← GET_BYTE r pos;
  expect (minor =? 48) || (minor =? 49);
  let pos := pos + 1 in
  need pos <? fill;
  space ← GET_BYTE r pos;
  expect space =? 32;
  pos ←? EAT_WHITESPACE r pos;
  need pos + 3 <=? fill;
  c0 ← GET_BYTE r pos;
  c1 ← GET_BYTE r (pos + 1);
  c2 ← GET_BYTE r (pos + 2);
  expect (c0 =? 50) && is_ascii_digit c1 && is_ascii_digit c2;
  skip_line r pos.

Definition g_ascii_digit_value (c : Z) : Z := if is_ascii_digit c then c - 48 else -1.

(** The value of a Content-Length header: the position of the CR and the
    value; the member [content_length] is updated on every path. *)
Fixpoint content_length_loop (fuel : nat) (r : HttpRing) (pos content_length : Z) : res (parsing Z * Z) :=
  byte ← GET_BYTE r pos;
  let val := g_ascii_digit_value byte in
  if byte =? 13 then Ok (Parsed pos, content_length)
  else if val =? -1 then Ok (HttpError, 0)
  else if (G_MAXSIZE / 10 <? content_length) || (G_MAXSIZE - val <? content_length * 10) then Ok (Parsed pos, 0)
  else
    let content_length := content_length * 10 + val in
    if recv_buf_fill r <? pos + 1 then Ok (NotEnoughData, content_length)
    else
      match fuel with
      | O => Fault OutOfFuel
      | S fuel => content_length_loop fuel r (pos + 1) content_length
      end.

(** HTTP_STATE_HEADERS: one line; the position behind it and
    [content_length]. *)
Definition parse_header_line (r : HttpRing) (content_length : Z) : res (parsing Z * Z) :=
  let fill := recv_buf_fill r in
  found ← (if 15 <? fill then bytes_at r 0 content_length_header else Ok false);
  '(pos, content_length) ←
    (if found : bool then
       pos ← EAT_WHITESPACE r 15;
       match pos with
       | Parsed pos => content_length_loop (ring_fuel r pos + 1) r pos 0
       | NotEnoughData => Ok (NotEnoughData, content_length)
       | HttpError => Ok (HttpError, content_length)
       end
     else Ok (Parsed 0, content_length));
  pos ← parse_bind (Ok pos) (skip_line r);
  Ok (pos, content_length).

(** ** The socket *)

Record HttpPriv {S : Type} : Type := mkHttp {
  http_state : HttpState;
  http_base_socket : option S;
  http_addr : NiceAddress;
  http_username : option (list Z);
  http_password : option (list Z);
  http_send_queue : list NiceSocketQueuedSend;
  http_ring : HttpRing;
  http_content_length : Z
}.
Arguments HttpPriv S : clear implicits.
Arguments mkHttp {S}.

Section http.
Context {M : GMalloc} {N : NetEnv} {B64 : Base64} {S : Type} {NS : NiceSocket S}.
Implicit Types p : HttpPriv S.

Definition with_parser p (state : HttpState) (ring : HttpRing) (content_length : Z) : HttpPriv S :=
  mkHttp state (http_base_socket p) (http_addr p) (http_username p) (http_password p) (http_send_queue p) ring
    content_length.

Definition with_http_base p (base : option S) (queue : list NiceSocketQueuedSend) : HttpPriv S :=
  mkHttp (http_state p) base (http_addr p) (http_username p) (http_password p) queue (http_ring p)
    (http_content_length p).

Definition crlf : list Z := [13; 10].

Definition _append_extra_header (h : list Z * list Z) : list Z := fst h ++ text ": " ++ snd h ++ crlf.

(** The request; [extra_headers] are the entries of the hash table in the order
    in which GLib visits them. *)
Definition connect_request (addr : NiceAddress) (username password : option (list Z))
    (extra_headers : list (list Z * list Z)) : res (list Z) :=
  host ← (match addr with sockaddr_other _ => Fault Uninitialised | _ => Ok (nice_address_to_string addr []) end);
  let port := decimal (nice_address_get_port addr) in
  Ok (text "CONNECT " ++ host ++ text ":" ++ port ++ text " HTTP/1.0" ++ crlf ++
      text "Host: " ++ host ++ crlf ++
      text "User-Agent: " ++ HTTP_USER_AGENT ++ crlf ++
      text "Content-Length: 0" ++ crlf ++
      text "Proxy-Connection: Keep-Alive" ++ crlf ++
      text "Connection: Keep-Alive" ++ crlf ++
      text "Cache-Control: no-cache" ++ crlf ++
      text "Pragma: no-cache" ++ crlf ++
      concat (_append_extra_header <$> extra_headers) ++
      (match username with
       | Some username =>
           text "Proxy-Authorization: Basic " ++ g_base64_encode (username ++ text ":" ++ default [] password) ++ crlf
       | None => []
       end) ++ crlf).

Definition nice_http_socket_new (base_socket : S) (addr : option NiceAddress) (username password : option (list Z))
    (extra_headers : list (list Z * list Z)) : res (option (HttpPriv S)) :=
  match addr with
  | None => Ok None
  | Some addr =>
      msg ← connect_request addr username password extra_headers;
      '(_, base) ← nice_socket_send_messages_reliable base_socket None [mkOutput [mkVector (Some msg) (zlen msg)] 1];
      Ok (Some (mkHttp HTTP_STATE_INIT (Some base) addr username password [] (mkRing [] 0 0 0) 0))
  end.

(** The label [error]. *)
Definition http_error p (messages : list NiceInputMessage) : res (Z * list NiceInputMessage * HttpPriv S) :=
  Ok (-1, messages, with_http_base (with_parser p HTTP_STATE_ERROR (http_ring p) (http_content_length p)) None
                      (http_send_queue p)).

(** The label [retry]. *)
Fixpoint http_retry (fuel : nat) p (messages : list NiceInputMessage)
    : res (Z * list NiceInputMessage * HttpPriv S) :=
  match fuel with
  | O => Fault OutOfFuel
  | Datatypes.S fuel =>
      let r := http_ring p in
      match http_state p with
      | HTTP_STATE_INIT =>
          pos ← parse_status r;
          match pos with
          | Parsed pos => r ← consume r pos; http_retry fuel (with_parser p HTTP_STATE_HEADERS r 0) messages
          | NotEnoughData => Ok (0, messages, p)
          | HttpError => http_error p messages
          end
      | HTTP_STATE_HEADERS =>
          '(pos, content_length) ← parse_header_line r (http_content_length p);
          match pos with
          | Parsed pos =>
              r ← consume r pos;
              http_retry fuel
                (with_parser p (if pos =? 2 then HTTP_STATE_BODY else HTTP_STATE_HEADERS) r content_length) messages
          | NotEnoughData => Ok (0, messages, with_parser p HTTP_STATE_HEADERS r content_length)
          | HttpError => http_error (with_parser p HTTP_STATE_HEADERS r content_length) messages
          end
      | HTTP_STATE_BODY =>
          if http_content_length p =? 0 then http_retry fuel (with_parser p HTTP_STATE_CONNECTED r 0) messages
          else if recv_buf_fill r =? 0 then Ok (0, messages, p)
          else
            let consumed := Z.min (http_content_length p) (recv_buf_fill r) in
            r ← consume r consumed;
            http_retry fuel (with_parser p HTTP_STATE_BODY r (http_content_length p - consumed)) messages
      | HTTP_STATE_CONNECTED =>
          '(len, messages, r) ← memcpy_ring_buffer_to_input_messages r messages;
          match http_base_socket p with
          | None => Fault OutOfBounds
          | Some base =>
              base ← nice_socket_flush_send_queue base (http_send_queue p);
              Ok (len, messages,
                  with_http_base (with_parser p HTTP_STATE_CONNECTED r (http_content_length p)) (Some base) [])
          end
      | HTTP_STATE_ERROR => http_error p messages
      end
  end.

(** Each round but two consumes a byte. *)
Definition retry_fuel (r : HttpRing) : nat := Z.to_nat (recv_buf_fill r) + 3.

(** The buffer is doubled when it is full. *)
Definition grow (r : HttpRing) : HttpRing :=
  if recv_buf_fill r =? recv_buf_length r then
    let length := Z.max (u64 (recv_buf_length r * 2)) 1024 in
    mkRing (recv_buf r ++ drop (Datatypes.length (recv_buf r)) (g_malloc length)) length (recv_buf_pos r) (recv_buf_fill r)
  else r.

(** The free parts of the buffer: offset and size of the first and of the
    second vector; the second one is NULL when the data wraps around. *)
Definition free_parts (r : HttpRing) : Z * Z * option Z :=
  if has_wrapped r then
    ((recv_buf_pos r + recv_buf_fill r) mod recv_buf_length r, recv_buf_length r - recv_buf_fill r, None)
  else
    (recv_buf_pos r + recv_buf_fill r, recv_buf_length r - (recv_buf_pos r + recv_buf_fill r), Some (recv_buf_pos r)).

(** One read of the base socket into the free parts: the return value, the
    number of bytes, the ring and the socket. *)
Definition fill_ring (base : S) (r : HttpRing) : res (Z * Z * HttpRing * S) :=
  let '(off, size, second) := free_parts r in
  first ← rd_bytes (recv_buf r) off size;
  second' ← (match second with Some n => b ← rd_bytes (recv_buf r) 0 n; Ok (mkVector (Some b) n) | None => Ok (mkVector None 0) end);
  '(ret, messages, base) ← nice_socket_recv_messages base [mkInput [mkVector (Some first) size; second'] 2 None 0];
  m ← message_at messages 0;
  match im_buffers m with
  | [v0; v1] =>
      buf ← wr_bytes (recv_buf r) off (default [] (gv_buffer v0));
      buf ← wr_bytes buf 0 (default [] (gv_buffer v1));
      Ok (ret, im_length m, mkRing buf (recv_buf_length r) (recv_buf_pos r) (recv_buf_fill r), base)
  | _ => Fault OutOfBounds
  end.

Definition http_recv_messages p (recv_messages : list NiceInputMessage)
    : res (Z * list NiceInputMessage * HttpPriv S) :=
  match http_state p with
  | HTTP_STATE_CONNECTED =>
      match http_base_socket p with
      | None => Ok (-1, recv_messages, p)
      | Some base =>
          '(ret, messages, base) ← nice_socket_recv_messages base recv_messages;
          let messages := if ret <=? 0 then messages else set_from (Z.to_nat ret) (http_addr p) messages in
          Ok (ret, messages, with_http_base p (Some base) (http_send_queue p))
      end
  | _ =>
      let r := grow (http_ring p) in
      _ ← assert_ring_buffer_valid r;
      match http_base_socket p with
      | None => Ok (-1, recv_messages, with_parser p (http_state p) r (http_content_length p))
      | Some base =>
          '(ret, length, r, base) ← fill_ring base r;
          let p := with_http_base (with_parser p (http_state p) r (http_content_length p)) (Some base) (http_send_queue p) in
          if ret <=? 0 then Ok (ret, recv_messages, p)
          else
            let r := mkRing (recv_buf r) (recv_buf_length r) (recv_buf_pos r) (recv_buf_fill r + length) in
            _ ← assert_ring_buffer_valid r;
            http_retry (retry_fuel r) (with_parser p (http_state p) r (http_content_length p)) recv_messages
      end
  end.

Definition http_send_messages p (to : option NiceAddress) (messages : list NiceOutputMessage) : res (Z * HttpPriv S) :=
  match http_state p with
  | HTTP_STATE_CONNECTED =>
      match http_base_socket p with
      | None => Ok (-1, p)
      | Some base =>
          '(ret, base) ← nice_socket_send_messages base to messages;
          Ok (ret, with_http_base p (Some base) (http_send_queue p))
      end
  | HTTP_STATE_ERROR => Ok (-1, p)
  | _ => Ok (0, p)
  end.

Definition http_send_messages_reliable p (to : option NiceAddress) (messages : list NiceOutputMessage)
    : res (Z * HttpPriv S) :=
  match http_state p with
  | HTTP_STATE_CONNECTED =>
      match http_base_socket p with
      | None => Ok (-1, p)
      | Some base =>
          '(ret, base) ← nice_socket_send_messages_reliable base to messages;
          Ok (ret, with_http_base p (Some base) (http_send_queue p))
      end
  | HTTP_STATE_ERROR => Ok (-1, p)
  | _ =>
      queue ← nice_socket_queue_send (http_send_queue p) to messages;
      Ok (zlen messages, with_http_base p (http_base_socket p) queue)
  end.

(** The base socket is dereferenced without a test. *)
Definition http_is_reliable p : res bool :=
  match http_base_socket p with
  | Some base => Ok (nice_socket_is_reliable base)
  | None => Fault OutOfBounds
  end.

Definition http_can_send p (addr : option NiceAddress) : res bool :=
  match http_base_socket p with
  | Some base => Ok (nice_socket_can_send base addr)
  | None => Fault OutOfBounds
  end.

Definition http_set_writable_callback p (callback : bool) : res (HttpPriv S) :=
  match http_base_socket p with
  | Some base => Ok (with_http_base p (Some (nice_socket_set_writable_callback base callback)) (http_send_queue p))
  | None => Fault OutOfBounds
  end.
End http.
