(* ===== verification/HttpProps.v ===== *)
(** * The HTTP proxy socket: the parser, and what goes out before the reply

    The parser of the reply never leaves its ring buffer and always ends; the
    socket implements the interface [Gated] of ProxyProps, so nothing of the
    application is on the wire before the proxy has accepted. *)
From stdpp Require Import gmap strings.
From S2P Require Import Prelude CMem StunTypes Address Candidate IceTypes IceEnv Discovery Sdp IoMessage NiceSock TcpSocket TcpSocketProps PseudoSsl Socks5 ProxyProps Http.
Local Open Scope Z_scope.

(** ** The ring buffer *)

Record ring_wf (r : HttpRing) : Prop := {
  rw_buf : zlen (recv_buf r) = recv_buf_length r;
  rw_pos : 0 <= recv_buf_pos r /\ (recv_buf_pos r = 0 \/ recv_buf_pos r < recv_buf_length r);
  rw_fill : 0 <= recv_buf_fill r <= recv_buf_length r
}.

Lemma ring_valid r : ring_wf r -> assert_ring_buffer_valid r = Ok tt.
Proof.
  intros [_ [_ Hp] Hf]. unfold assert_ring_buffer_valid. rewrite (proj2 (Z.leb_le _ _)) by lia. cbn [assert_ok mbind res_bind].
  destruct Hp as [-> | Hp]; [done|]. by rewrite (proj2 (Z.ltb_lt _ _) Hp), orb_true_r.
Qed.

Lemma get_byte_ok r pos : ring_wf r -> 0 < recv_buf_length r -> exists c, GET_BYTE r pos = Ok c.
Proof.
  intros Hr Hl. unfold GET_BYTE. rewrite (proj2 (Z.eqb_neq _ _)) by lia. apply rd_ok. rewrite (rw_buf _ Hr).
  apply Z.mod_pos_bound. lia.
Qed.

(** Dropping bytes: the ring stays a ring and loses exactly these. *)
Lemma consume_ok r n : ring_wf r -> 0 < recv_buf_length r -> 0 <= n <= recv_buf_fill r ->
  exists r', consume r n = Ok r' /\ ring_wf r' /\ recv_buf_length r' = recv_buf_length r /\
    recv_buf_fill r' = recv_buf_fill r - n.
Proof.
  intros [Hb Hp Hf] Hl Hn. unfold consume. rewrite (proj2 (Z.eqb_neq _ _)) by lia. eexists. split; [done|]. split; [|done].
  pose proof (Z.mod_pos_bound (recv_buf_pos r + n) (recv_buf_length r) ltac:(lia)). constructor; simpl; lia.
Qed.

(** ** Parsers that end *)

(** The parser returns; a value satisfies [Q]. *)
Definition yields {A} (x : res (parsing A)) (Q : A -> Prop) : Prop :=
  exists v, x = Ok v /\ match v with Parsed a => Q a | _ => True end.

Lemma yields_bind {A B} (x : res (parsing A)) (f : A -> res (parsing B)) Q Q' :
  yields x Q -> (forall a, Q a -> yields (f a) Q') -> yields (parse_bind x f) Q'.
Proof. intros (v & -> & Hv) Hf. destruct v; [by eexists|by eexists|]. by apply Hf. Qed.

Lemma yields_need {A} (c : bool) (f : res (parsing A)) Q : (c = true -> yields f Q) -> yields (if c then f else Ok NotEnoughData) Q.
Proof. intros Hf. destruct c; [by apply Hf|by eexists]. Qed.
Lemma yields_expect {A} (c : bool) (f : res (parsing A)) Q : (c = true -> yields f Q) -> yields (if c then f else Ok HttpError) Q.
Proof. intros Hf. destruct c; [by apply Hf|by eexists]. Qed.

Section parsers.
Variable r : HttpRing.
Hypothesis wf : ring_wf r.
Hypothesis allocated : 0 < recv_buf_length r.
Let fill := recv_buf_fill r.

Lemma yields_byte {A} pos (f : Z -> res (parsing A)) Q : (forall c, yields (f c) Q) -> yields (c ← GET_BYTE r pos; f c) Q.
Proof. intros Hf. destruct (get_byte_ok r pos wf allocated) as [c ->]. apply Hf. Qed.

Lemma whitespace_loop_ok fuel pos : 0 <= pos <= fill -> (Z.to_nat (fill - pos) <= fuel)%nat ->
  exists pos', whitespace_loop fuel r pos = Ok pos' /\ pos <= pos' <= fill.
Proof.
  revert pos. induction fuel as [|fuel IH]; intros pos Hp Hf; cbn [whitespace_loop]; fold fill;
    (destruct (Z.ltb_spec pos fill); [|by exists pos; split; [|lia]]); [lia|].
  destruct (get_byte_ok r pos wf allocated) as [c ->]. cbn [mbind res_bind]. destruct (c =? 32); [|by exists pos; split; [|lia]].
  destruct (IH (pos + 1)) as (pos' & -> & ?); [lia|lia|]. exists pos'. split; [done|lia].
Qed.

Lemma whitespace_yields pos : 0 <= pos <= fill -> yields (EAT_WHITESPACE r pos) (fun p => pos <= p < fill).
Proof.
  intros Hp. unfold EAT_WHITESPACE. destruct (whitespace_loop_ok (ring_fuel r pos) pos) as (p & -> & ?); [done|unfold ring_fuel, fill; lia|].
  cbn [mbind res_bind]. apply yields_need. intros ?%Z.ltb_lt. eexists. split; [done|]. unfold fill in *. lia.
Qed.

Lemma bytes_at_ok l pos : exists b, bytes_at r pos l = Ok b.
Proof.
  revert pos. induction l as [|[x y] l IH]; intros pos; cbn [bytes_at]; [by eexists|].
  destruct (get_byte_ok r pos wf allocated) as [c ->]. cbn [mbind res_bind]. destruct (_ || _); [apply IH|by eexists].
Qed.

Lemma line_loop_ok fuel pos : 0 <= pos -> (Z.to_nat (fill - pos) <= fuel)%nat ->
  exists pos', line_loop fuel r pos = Ok pos' /\ pos <= pos'.
Proof.
  revert pos. induction fuel as [|fuel IH]; intros pos Hp Hf; cbn [line_loop]; fold fill;
    (destruct (Z.ltb_spec (pos + 1) fill); [|by exists pos; split; [|lia]]); [lia|].
  destruct (get_byte_ok r pos wf allocated) as [c ->]. cbn [mbind res_bind]. destruct (c =? 13); [by exists pos; split; [|lia]|].
  destruct (get_byte_ok r (pos + 1) wf allocated) as [d ->]. cbn [mbind res_bind]. destruct (d =? 10); [by exists pos; split; [|lia]|].
  destruct (IH (pos + 1)) as (pos' & -> & ?); [lia|lia|]. exists pos'. split; [done|lia].
Qed.

(** A line that was read has at least two bytes. *)
Lemma skip_line_yields pos : 0 <= pos -> yields (skip_line r pos) (fun p => pos + 2 <= p <= fill).
Proof.
  intros Hp. unfold skip_line. destruct (line_loop_ok (ring_fuel r pos) pos) as (p & -> & ?); [done|unfold ring_fuel, fill; lia|].
  cbn [mbind res_bind]. apply yields_need. intros ?%Z.ltb_lt. eexists. split; [done|]. unfold fill in *. lia.
Qed.

Lemma parse_status_yields : yields (parse_status r) (fun pos => 2 <= pos <= fill).
Proof.
  unfold parse_status. cbv zeta. eapply yields_bind; [apply whitespace_yields; split; [done|apply wf]|]. intros pos Hp. cbn beta in Hp.
  apply yields_need. intros ?%Z.leb_le. destruct (bytes_at_ok http_version pos) as [b ->]. cbn [mbind res_bind].
  apply yields_expect. intros _. apply yields_need. intros ?%Z.ltb_lt. apply yields_byte. intros minor. apply yields_expect. intros _.
  apply yields_need. intros ?%Z.ltb_lt. apply yields_byte. intros sp. apply yields_expect. intros _.
  eapply yields_bind; [apply whitespace_yields; unfold fill; lia|]. intros pos' Hp'. cbn beta in Hp'. apply yields_need. intros ?%Z.leb_le.
  apply yields_byte. intros c0. apply yields_byte. intros c1. apply yields_byte. intros c2. apply yields_expect. intros _.
  destruct (skip_line_yields pos') as (v & E & Hv); [lia|]. exists v. split; [done|]. destruct v; try done. lia.
Qed.

Lemma content_length_loop_ok fuel pos cl : 0 <= pos <= fill + 1 -> (Z.to_nat (fill + 1 - pos) <= fuel)%nat -> 0 <= cl ->
  exists v cl', content_length_loop fuel r pos cl = Ok (v, cl') /\ 0 <= cl' /\ match v with Parsed p => 0 <= p | _ => True end.
Proof.
  revert pos cl. induction fuel as [|fuel IH]; intros pos cl Hp Hf Hc; cbn [content_length_loop];
    destruct (get_byte_ok r pos wf allocated) as [c ->]; cbn [mbind res_bind];
    (destruct (c =? 13); [by eexists _, _; split_and!; [done|lia|simpl; lia]|]);
    unfold g_ascii_digit_value; (destruct (is_ascii_digit c) eqn:Hd; [|by eexists _, _; split_and!; [done|lia|simpl; lia]]);
    unfold is_ascii_digit in Hd; bool_prop; (destruct (Z.eqb_spec (c - 48) (-1)); [lia|]);
    (destruct (_ || _); [by eexists _, _; split_and!; [done|lia|simpl; lia]|]); fold fill;
    (destruct (Z.ltb_spec fill (pos + 1)); [by eexists _, _; split_and!; [done|lia|done]|]); [lia|].
  apply IH; lia.
Qed.

Lemma parse_header_line_ok cl : 0 <= cl -> exists v cl', parse_header_line r cl = Ok (v, cl') /\ 0 <= cl' /\
  match v with Parsed p => 2 <= p <= fill | _ => True end.
Proof.
  intros Hc. unfold parse_header_line. fold fill.
  assert (Hfound : exists b, (if 15 <? fill then bytes_at r 0 content_length_header else Ok false) = Ok b /\ (b = true -> 15 < fill)).
  { destruct (Z.ltb_spec 15 fill); [|by exists false]. destruct (bytes_at_ok content_length_header 0) as [b ->]. by exists b. }
  destruct Hfound as (b & -> & Hb). cbn [mbind res_bind].
  assert (Hval : exists v cl', (if b then
       pos ← EAT_WHITESPACE r 15;
       match pos with
       | Parsed pos => content_length_loop (ring_fuel r pos + 1) r pos 0
       | NotEnoughData => Ok (NotEnoughData, cl)
       | HttpError => Ok (HttpError, cl)
       end else Ok (Parsed 0, cl)) = Ok (v, cl') /\ 0 <= cl' /\ match v with Parsed p => 0 <= p | _ => True end).
  { destruct b; [|by eexists _, _]. destruct (whitespace_yields 15) as (v & -> & Hv); [unfold fill in *; lia|]. cbn [mbind res_bind].
    destruct v as [| |pos]; [by eexists _, _..|]. apply content_length_loop_ok; unfold ring_fuel; fold fill; lia. }
  destruct Hval as (v & cl' & -> & Hcl & Hv). cbn [mbind res_bind].
  destruct (yields_bind (Ok v) (skip_line r) (fun p => 0 <= p) (fun p => 2 <= p <= fill)) as (w & -> & Hw).
  - exists v. split; [done|]. by destruct v.
  - intros p Hp. destruct (skip_line_yields p Hp) as (w & E & Hw). exists w. split; [done|]. destruct w; try done. lia.
  - by eexists _, _.
Qed.
End parsers.

(** ** Copying out of the ring *)

Lemma vector_write_ok v b off data : gv_buffer v = Some b -> 0 <= off -> off + zlen data <= zlen b ->
  exists b', vector_write v off data = Ok (mkVector (Some b') (gv_size v)) /\ zlen b' = zlen b.
Proof.
  intros Hb Ho Hd. unfold vector_write. rewrite Hb, wr_bytes_Ok by done. eexists. split; [done|]. by apply zlen_splice.
Qed.

Lemma ring_to_buffer_ok r v b : ring_wf r -> 0 < recv_buf_length r -> gv_buffer v = Some b -> 0 <= gv_size v <= zlen b ->
  exists n b' r', memcpy_ring_buffer_to_buffer r v = Ok (n, mkVector (Some b') (gv_size v), r') /\ ring_wf r' /\
    recv_buf_length r' = recv_buf_length r /\ recv_buf_fill r' <= recv_buf_fill r.
Proof.
  intros Hr Hl Hb Hs. pose proof Hr as [Hz [Hp Hp'] Hf]. unfold memcpy_ring_buffer_to_buffer, has_wrapped. cbv zeta.
  assert (Hc : forall n b', 0 <= n <= recv_buf_fill r -> exists m b2 r',
    (r0 ← consume r n; Ok (n, mkVector (Some b') (gv_size v), r0)) = Ok (m, mkVector (Some b2) (gv_size v), r') /\ ring_wf r' /\
    recv_buf_length r' = recv_buf_length r /\ recv_buf_fill r' <= recv_buf_fill r).
  { intros n b' Hn. destruct (consume_ok r n Hr Hl Hn) as (r' & -> & ? & ? & ?). eexists _, _, _. split_and!; try done. lia. }
  destruct (Z.ltb_spec (recv_buf_length r) (recv_buf_pos r + recv_buf_fill r)).
  - set (k := Z.min (recv_buf_length r - recv_buf_pos r) (gv_size v)). rewrite (rd_bytes_Ok _ (recv_buf_pos r) k) by lia. cbn [mbind res_bind].
    destruct (vector_write_ok v b 0 (slice (recv_buf r) (recv_buf_pos r) k)) as (b1 & -> & H1); [done|done|rewrite zlen_slice; lia|].
    cbn [mbind res_bind]. rewrite rd_bytes_Ok by lia. cbn [mbind res_bind].
    destruct (vector_write_ok (mkVector (Some b1) (gv_size v)) b1 k (slice (recv_buf r) 0 (Z.min (recv_buf_fill r - k) (gv_size v - k))))
      as (b2 & -> & H2); [done|lia|rewrite zlen_slice; lia|]. cbn [mbind res_bind gv_size]. apply Hc. lia.
  - rewrite rd_bytes_Ok by lia. cbn [mbind res_bind].
    destruct (vector_write_ok v b 0 (slice (recv_buf r) (recv_buf_pos r) (Z.min (recv_buf_fill r) (gv_size v)))) as (b1 & -> & H1);
      [done|done|rewrite zlen_slice; lia|]. cbn [mbind res_bind]. apply Hc. lia.
Qed.

Lemma ring_vectors_ok n j bufs bss r : vectors n j bufs bss -> ring_wf r -> 0 < recv_buf_length r ->
  exists bufs' r', ring_vectors_loop n j bufs r = Ok (bufs', r') /\ ring_wf r' /\
    recv_buf_length r' = recv_buf_length r /\ recv_buf_fill r' <= recv_buf_fill r.
Proof.
  intros Hv. revert r. induction Hv as [i bufs H|i v rest b bs bss H Hb Hs Hv IH]; intros r Hr Hl.
  - destruct bufs; cbn [ring_vectors_loop]; rewrite H; cbn [mbind res_bind]; destruct (0 <? recv_buf_fill r); by eexists _, _.
  - cbn [ring_vectors_loop]. rewrite H. cbn [mbind res_bind]. destruct (0 <? recv_buf_fill r); [|by eexists _, _].
    destruct (ring_to_buffer_ok r v (b ++ bs) Hr Hl Hb) as (k & b' & r1 & -> & Hr1 & Hl1 & Hf1); [zlia|]. cbn [mbind res_bind].
    destruct (IH r1 Hr1) as (rest' & r2 & -> & Hr2 & Hl2 & Hf2); [lia|]. cbn [mbind res_bind]. eexists _, _. split_and!; try done; lia.
Qed.

Lemma ring_messages_ok ms r : Forall readable ms -> ring_wf r -> 0 < recv_buf_length r ->
  exists i ms' r', memcpy_ring_buffer_to_input_messages r ms = Ok (i, ms', r') /\ ring_wf r' /\
    recv_buf_length r' = recv_buf_length r /\ recv_buf_fill r' <= recv_buf_fill r.
Proof.
  revert r. induction ms as [|m ms IH]; intros r Hm Hr Hl; cbn [memcpy_ring_buffer_to_input_messages]; [by eexists _, _, _|].
  apply Forall_cons in Hm as [(bss & Hv & _) Hm]. destruct (0 <? recv_buf_fill r); [|by eexists _, _, _].
  destruct (ring_vectors_ok _ _ _ _ r Hv Hr Hl) as (bufs' & r1 & -> & Hr1 & Hl1 & Hf1). cbn [mbind res_bind].
  destruct (IH r1 Hm Hr1) as (i & ms' & r2 & -> & Hr2 & Hl2 & Hf2); [lia|]. cbn [mbind res_bind]. eexists _, _, _. split_and!; try done; lia.
Qed.

(** ** Reading into the ring *)

(** A vector that is an object of its size, or NULL. *)
Definition contents (v : GVector) : list Z := default [] (gv_buffer v).
Definition slot (v : GVector) (n : Z) : Prop := gv_size v = n /\ zlen (contents v) = n.

Lemma slot_write v n data : slot v n -> zlen data <= n ->
  exists v', vector_write v 0 data = Ok v' /\ slot v' n /\ contents v' = data ++ drop (length data) (contents v).
Proof.
  intros [Hs Hz] Hd. unfold vector_write, slot, contents in *. destruct (gv_buffer v) as [b|] eqn:Eb; simpl in Hz.
  - rewrite wr_bytes_Ok by lia. eexists. split; [done|]. simpl. rewrite zlen_splice by lia. split; [done|].
    unfold splice. rewrite Z.add_0_l, to_nat_zlen. done.
  - assert (data = []) as -> by (apply zlen_0_nil; zlia). exists v. rewrite Eb. done.
Qed.

Lemma memcpy_two v0 v1 n0 n1 d : slot v0 n0 -> slot v1 n1 -> zlen d <= n0 + n1 ->
  exists v0' v1', memcpy_loop 2 0 [v0; v1] d (zlen d) 0 = Ok ([v0'; v1'], zlen d) /\ slot v0' n0 /\ slot v1' n1 /\
    contents v0' ++ contents v1' = d ++ drop (length d) (contents v0 ++ contents v1).
Proof.
  intros H0 H1 Hd. pose proof H0 as [S0 Z0]. pose proof H1 as [S1 Z1].
  assert (N0 : 0 <= n0) by (rewrite <- Z0; apply zlen_nonneg). assert (N1 : 0 <= n1) by (rewrite <- Z1; apply zlen_nonneg).
  cbn [memcpy_loop]. pose proof (zlen_nonneg d). destruct (Z.ltb_spec 0 (zlen d)) as [Hp|Hp].
  2:{ assert (d = []) as -> by (apply zlen_0_nil; lia). by exists v0, v1. }
  cbn [has_vector Z.leb Z.compare Z.ltb mbind res_bind]. rewrite S0. set (k := Z.min n0 (zlen d)).
  rewrite (rd_bytes_Ok d 0 k) by lia. cbn [mbind res_bind].
  assert (Hk : zlen (slice d 0 k) = k) by (apply zlen_slice; lia).
  destruct (slot_write v0 n0 (slice d 0 k) H0) as (v0' & -> & H0' & E0); [lia|]. cbn [mbind res_bind].
  assert (Ek : slice d 0 k = take (Z.to_nat k) d) by done. rewrite Ek in E0.
  destruct (Z.ltb_spec 0 (zlen d - k)) as [Hr|Hr].
  - change (0 + 1 <? 2) with true. rewrite S1. cbv iota.
    assert (Kn : k = n0) by lia. rewrite Z.min_r by lia.
    assert (Hdl : zlen (drop (Z.to_nat k) d) = zlen d - k) by (apply zlen_drop; lia).
    assert (Er : rd_bytes (drop (Z.to_nat k) d) 0 (zlen d - k) = Ok (drop (Z.to_nat k) d))
      by (rewrite rd_bytes_Ok, <- Hdl, slice_all by lia; done).
    rewrite Er. cbn [mbind res_bind].
    destruct (slot_write v1 n1 (drop (Z.to_nat k) d) H1) as (v1' & -> & H1' & E1); [lia|]. cbn [mbind res_bind].
    rewrite Z.sub_diag. cbn [Z.ltb Z.compare mbind res_bind]. exists v0', v1'. split; [f_equal; f_equal; lia|]. split; [done|]. split; [done|].
    rewrite E0, E1. rewrite drop_ge by (unfold zlen in *; rewrite length_take; lia). rewrite app_nil_r.
    rewrite drop_app_ge by (unfold zlen in *; lia). rewrite length_drop, app_assoc, take_drop. do 2 f_equal. unfold zlen in *. lia.
  - assert (Kd : k = zlen d) by lia. exists v0', v1. split; [cbn [mbind res_bind]; do 2 f_equal; lia|]. split; [done|]. split; [done|].
    rewrite E0, Kd, to_nat_zlen, firstn_all, <- app_assoc. f_equal. rewrite drop_app_le; [done|]. unfold zlen in *. lia.
Qed.

Section http.
Context {M : GMalloc} {ML : GMallocLaws} {N : NetEnv} {B64 : Base64}.
Context {G : Type} {GS : GSocket G} {GL : GSocketLaws G}.

(** What the kernel still has to deliver. *)
Definition tcp_unread (p : TcpPriv G) : list Z := gs_unread (tcp_fileno p).

(** One read of a TCP socket into two vectors. *)
Lemma tcp_read_two (p : TcpPriv G) v0 v1 n0 n1 from : slot v0 n0 -> slot v1 n1 -> n0 + n1 < 2 ^ 64 ->
  exists ret v0' v1' from' len p' d,
    nice_socket_recv_messages p [mkInput [v0; v1] 2 from 0] = Ok (ret, [mkInput [v0'; v1'] 2 from' len], p') /\
    slot v0' n0 /\ slot v1' n1 /\ tcp_send_queue p' = tcp_send_queue p /\ tcp_stream p' = tcp_stream p /\
    tcp_unread p = d ++ tcp_unread p' /\
    (ret <= 0 \/ ret = 1 /\ tcp_error p' = false /\ len = zlen d /\ zlen d <= n0 + n1 /\
       contents v0' ++ contents v1' = d ++ drop (length d) (contents v0 ++ contents v1)).
Proof.
  intros H0 H1 Hl. pose proof H0 as [S0 Z0]. pose proof H1 as [S1 Z1].
  assert (N0 : 0 <= n0) by (rewrite <- Z0; apply zlen_nonneg). assert (N1 : 0 <= n1) by (rewrite <- Z1; apply zlen_nonneg).
  cbn [nice_socket_recv_messages tcp_nice_socket]. unfold tcp_socket_recv_messages.
  destruct (tcp_error p) eqn:He.
  { eexists _, _, _, _, _, _, []. split; [done|]. split_and!; try done. by left. }
  cbn [tcp_recv_loop]. unfold input_message_get_size. cbn [im_n_buffers im_buffers].
  assert (Es : size_loop 2 0 [v0; v1] 0 = Ok (n0 + n1)) by (cbn [size_loop has_vector mbind res_bind Z.leb Z.compare]; change (0 <? 2) with true; change (0 + 1 <? 2) with true; change (0 + 1 + 1 <? 2) with false; cbv iota; rewrite S0, S1, Z.add_0_l, (u64_small n0), u64_small by lia; done).
  rewrite Es. cbn [mbind res_bind].
  destruct (g_socket_receive_message (tcp_fileno p) (n0 + n1)) as [g [e|d]] eqn:E.
  - apply gs_receive_error in E as [E1 E2]. eexists _, _, _, _, _, _, []. split; [done|]. unfold tcp_stream, tcp_unread. cbn.
    rewrite E1, E2. split_and!; try done. left. destruct (decide _); lia.
  - apply gs_receive_ok in E as (Hd & E1 & E2).
    destruct (memcpy_two v0 v1 n0 n1 d H0 H1) as (v0' & v1' & -> & H0' & H1' & Ec); [lia|]. cbn [mbind res_bind].
    unfold tcp_stream, tcp_unread. destruct (Z.eqb_spec (zlen d) 0) as [Hz|Hz].
    + eexists _, _, _, _, _, _, d. split; [done|]. cbn. rewrite E2. split_and!; try done. left. lia.
    + eexists _, _, _, _, _, _, d. split; [done|]. cbn. rewrite E2. split_and!; try done. right. split_and!; try done. lia.
Qed.

(** The ring keeps its shape when it is grown or written to. *)
Lemma grow_ok r : ring_wf r -> recv_buf_length r < 2 ^ 63 ->
  let r' := grow r in ring_wf r' /\ recv_buf_fill r' = recv_buf_fill r /\ recv_buf_fill r' < recv_buf_length r' /\
    recv_buf_length r' <= Z.max (Z.max (2 * recv_buf_fill r) 1024) (recv_buf_length r).
Proof.
  intros [Hb Hp Hf] Hl. cbv zeta. unfold grow. destruct (Z.eqb_spec (recv_buf_fill r) (recv_buf_length r)) as [E|E].
  - cbv zeta. rewrite u64_small by lia. set (n := Z.max (recv_buf_length r * 2) 1024). split; [|simpl; lia].
    constructor; simpl; [|lia..]. rewrite zlen_app. unfold zlen at 2. rewrite length_drop.
    pose proof (g_malloc_length n ltac:(lia)). unfold zlen in *. lia.
  - split; [done|]. lia.
Qed.

Lemma fill_ring_ok (b : TcpPriv G) r : ring_wf r -> recv_buf_fill r < recv_buf_length r < 2 ^ 64 ->
  exists ret n r' b' d, fill_ring b r = Ok (ret, n, r', b') /\ zlen (recv_buf r') = recv_buf_length r /\
    recv_buf_length r' = recv_buf_length r /\ recv_buf_pos r' = recv_buf_pos r /\ recv_buf_fill r' = recv_buf_fill r /\
    tcp_send_queue b' = tcp_send_queue b /\ tcp_stream b' = tcp_stream b /\ tcp_unread b = d ++ tcp_unread b' /\
    (ret <= 0 \/ ret = 1 /\ tcp_error b' = false /\ n = zlen d /\ zlen d <= recv_buf_length r - recv_buf_fill r).
Proof.
  intros [Hz Hp Hf] Hl. unfold fill_ring, free_parts, has_wrapped.
  set (L := recv_buf_length r) in *. set (P := recv_buf_pos r) in *. set (F := recv_buf_fill r) in *.
  assert (Hmain : forall off size v1 n1, 0 <= off -> 0 <= size -> off + size <= L -> 0 <= n1 <= L -> slot v1 n1 -> size + n1 = L - F ->
    exists ret n r' b' d, (first ← rd_bytes (recv_buf r) off size;
      '(ret, messages, base) ← nice_socket_recv_messages b [mkInput [mkVector (Some first) size; v1] 2 None 0];
      m ← message_at messages 0;
      match im_buffers m with
      | [v0; v1] =>
          buf ← wr_bytes (recv_buf r) off (default [] (gv_buffer v0));
          buf ← wr_bytes buf 0 (default [] (gv_buffer v1));
          Ok (ret, im_length m, mkRing buf L P F, base)
      | _ => Fault OutOfBounds
      end) = Ok (ret, n, r', b') /\ zlen (recv_buf r') = L /\ recv_buf_length r' = L /\ recv_buf_pos r' = P /\ recv_buf_fill r' = F /\
      tcp_send_queue b' = tcp_send_queue b /\ tcp_stream b' = tcp_stream b /\ tcp_unread b = d ++ tcp_unread b' /\
      (ret <= 0 \/ ret = 1 /\ tcp_error b' = false /\ n = zlen d /\ zlen d <= L - F)).
  { intros off size v1 n1 Ho Hs Hos Hn1 H1 Hsum. rewrite rd_bytes_Ok by lia. cbn [mbind res_bind].
    assert (H0 : slot (mkVector (Some (slice (recv_buf r) off size)) size) size) by (split; [done|apply zlen_slice; lia]).
    destruct (tcp_read_two b _ v1 size n1 None H0 H1) as (ret & v0' & v1' & f & n & b' & d & -> & [_ Z0] & [_ Z1] & Hq & Hst & Hu & Hr); [lia|].
    cbn [mbind res_bind]. rewrite message_at_0. cbn [mbind res_bind im_buffers]. fold (contents v0') (contents v1').
    rewrite wr_bytes_Ok by lia. cbn [mbind res_bind]. rewrite wr_bytes_Ok by (rewrite ?zlen_splice; lia). cbn [mbind res_bind im_length].
    eexists _, _, _, _, d. split; [done|]. cbn. rewrite !zlen_splice by (rewrite ?zlen_splice; lia). split_and!; try done.
    destruct Hr as [?|(? & ? & ? & ? & _)]; [by left|right]. split_and!; try done. lia. }
  destruct (Z.ltb_spec L (P + F)).
  - assert (Hm : (P + F) mod L = P + F - L) by (symmetry; apply Z.mod_unique with 1; lia).
    rewrite Hm. cbn [mbind res_bind]. apply (Hmain _ _ _ 0); try lia. by split.
  - pose proof (Hmain (P + F) (L - (P + F)) (mkVector (Some (slice (recv_buf r) 0 P)) P) P) as Hm.
    rewrite (rd_bytes_Ok (recv_buf r) 0 P) by lia. cbn [mbind res_bind]. apply Hm; try lia. split; [done|]. apply zlen_slice; lia.
Qed.

(** ** Sending does not read *)

Lemma tcp_send_message_unread (p : TcpPriv G) m reliable ret p' :
  tcp_socket_send_message p m reliable = Ok (ret, p') -> tcp_unread p' = tcp_unread p.
Proof.
  unfold tcp_socket_send_message, tcp_unread. destruct (tcp_error p); [by intros [= _ <-]|]. intros H. inv_res.
  assert (Hq : forall g off len head q, tcp_queue p g m off len head = Ok q -> tcp_fileno q = g).
  { intros g off len head q Hq. unfold tcp_queue in Hq. inv_res. case_match. by inv_res. }
  destruct (tcp_send_queue p).
  - inv_res. destruct (g_socket_send_message _ _) as [g [e|n]] eqn:E.
    + apply gs_send_error in E as [_ E]. destruct e; inv_res; rewrite ?(Hq _ _ _ _ _ Ha1); done.
    + apply gs_send_ok in E as (_ & _ & E). destruct (_ <? _); inv_res; [by rewrite (Hq _ _ _ _ _ Ha1)|done].
  - destruct reliable; inv_res; [by rewrite (Hq _ _ _ _ _ Ha0)|done].
Qed.

Lemma tcp_send_unread reliable (p : TcpPriv G) to ms ret p' :
  (if reliable : bool then nice_socket_send_messages_reliable p to ms else nice_socket_send_messages p to ms) = Ok (ret, p') ->
  tcp_unread p' = tcp_unread p.
Proof.
  cbn [nice_socket_send_messages_reliable nice_socket_send_messages tcp_nice_socket].
  unfold tcp_socket_send_messages_reliable, tcp_socket_send_messages. generalize 0 at 1 2 as i. revert p ret p'.
  induction ms as [|m ms IH]; intros p ret p' i H; cbn [tcp_send_reliable_loop tcp_send_loop] in H;
    [by destruct reliable; inv_res|].
  destruct reliable; inv_res; destruct a as [len q]; apply tcp_send_message_unread in Ha;
    repeat (destruct (_ <? _) || destruct (_ =? _)); inv_res; try done; (etrans; [by eapply IH|done]).
Qed.

Lemma flush_queue_unread (p : TcpPriv G) q p' : nice_socket_flush_send_queue p q = Ok p' -> tcp_unread p' = tcp_unread p.
Proof.
  unfold nice_socket_flush_send_queue. revert p. induction q as [|t q IH]; intros p H; cbn [foldl mbind res_bind] in H; [by inv_res|].
  set (x := nice_socket_send_reliable p _ _ _) in H. destruct x as [[n p1]|f] eqn:Ex.
  - cbn [mbind res_bind] in H. etrans; [by apply IH|]. unfold x, nice_socket_send_reliable in Ex. inv_res. destruct a. inv_res.
    by eapply (tcp_send_unread true).
  - exfalso. clear -H. cbn [mbind res_bind] in H. induction q as [|t' q IHq]; [done|]. by apply IHq.
Qed.

(** ** The state machine *)

Hypothesis healthy : forall g data g' e,
  g_socket_send_message g data = (g', inl e) -> e = G_IO_ERROR_WOULD_BLOCK.

Abbreviation http_socket := (HttpPriv (TcpPriv G)).
Implicit Types p : http_socket.

(** Rounds of the loop [retry] that are left. *)
Definition retry_cost p : Z :=
  match http_state p with
  | HTTP_STATE_CONNECTED | HTTP_STATE_ERROR => 1
  | _ => recv_buf_fill (http_ring p) + 2
  end.

(** Where the loop may end: with an error, still waiting, or connected, with
    the queue flushed. *)
Definition http_next p (b : TcpPriv G) p' : Prop :=
  (http_base_socket p' = None /\ queue_wf (http_send_queue p')) \/
  (http_base_socket p' = Some b /\ http_state p' <> HTTP_STATE_CONNECTED /\ http_send_queue p' = http_send_queue p) \/
  (exists b', http_base_socket p' = Some b' /\ http_state p' = HTTP_STATE_CONNECTED /\ http_send_queue p' = [] /\
     tcp_ok b' /\ tcp_stream b' = tcp_stream b ++ queued (http_send_queue p) /\ tcp_unread b' = tcp_unread b).

Definition parser_ok p : Prop := ring_wf (http_ring p) /\ 0 <= http_content_length p.

(** The data of the ring only shrinks. *)
Definition shrinks p p' : Prop :=
  parser_ok p' /\ recv_buf_length (http_ring p') = recv_buf_length (http_ring p) /\
  recv_buf_fill (http_ring p') <= recv_buf_fill (http_ring p).

Lemma http_retry_ok fuel p ms b :
  http_base_socket p = Some b -> tcp_ok b -> tcp_error b = false -> queue_wf (http_send_queue p) ->
  parser_ok p -> 0 < recv_buf_length (http_ring p) -> Forall readable ms -> retry_cost p < Z.of_nat fuel ->
  exists ret ms' p', http_retry fuel p ms = Ok (ret, ms', p') /\ http_next p b p' /\ shrinks p p'.
Proof.
  intros Eb Hb He Hq. revert p Eb Hq. induction fuel as [|fuel IH]; intros p Eb Hq [Hr Hc] Hl Hm Hf;
    [unfold retry_cost in Hf; pose proof (rw_fill _ Hr); destruct (http_state p); lia|].
  assert (Hnext : forall st r cl, ring_wf r -> recv_buf_length r = recv_buf_length (http_ring p) ->
    recv_buf_fill r <= recv_buf_fill (http_ring p) -> 0 <= cl -> retry_cost (with_parser p st r cl) < Z.of_nat fuel ->
    exists ret ms' p', http_retry fuel (with_parser p st r cl) ms = Ok (ret, ms', p') /\ http_next p b p' /\ shrinks p p').
  { intros st r cl Hr' El Ef Hcl Hcost.
    destruct (IH (with_parser p st r cl)) as (ret & ms' & p' & E & Hn & Hok & El' & Ef'); simpl in *; try done; [by rewrite El|].
    exists ret, ms', p'. split; [done|]. split; [done|]. split; [done|]. lia. }
  assert (Hstay : forall cl, http_state p <> HTTP_STATE_CONNECTED -> 0 <= cl ->
    http_next p b (with_parser p (http_state p) (http_ring p) cl) /\ shrinks p (with_parser p (http_state p) (http_ring p) cl)).
  { intros cl Hst Hcl. split; [by right; left|]. by split; [|simpl]. }
  assert (Herr : forall q, http_ring q = http_ring p -> http_send_queue q = http_send_queue p -> 0 <= http_content_length q ->
    exists ret ms' p', http_error q ms = Ok (ret, ms', p') /\ http_next p b p' /\ shrinks p p').
  { intros q E1 E2 E3. eexists _, _, _. split; [done|]. split; [left; simpl; by rewrite E2|]. split; [split|]; simpl; rewrite ?E1; done. }
  cbn [http_retry]. pose proof (rw_fill _ Hr) as Hfill. unfold retry_cost in *. destruct (http_state p) eqn:Es.
  - destruct (parse_status_yields _ Hr Hl) as (v & -> & Hv). cbn [mbind res_bind].
    destruct v as [| |pos]; [exists 0, ms, p; split; [done|]; split; [right; left; by rewrite Es|by split; [|simpl]]|by apply Herr|].
    destruct (consume_ok _ pos Hr Hl) as (r & -> & Hr' & El & Ef); [lia|]. cbn [mbind res_bind].
    apply Hnext; try done; simpl; lia.
  - destruct (parse_header_line_ok _ Hr Hl _ Hc) as (v & cl & -> & Hcl & Hv). cbn [mbind res_bind].
    destruct v as [| |pos]; [eexists _, _, _; split; [done|]; by apply Hstay|by apply Herr|].
    destruct (consume_ok _ pos Hr Hl) as (r & -> & Hr' & El & Ef); [lia|]. cbn [mbind res_bind].
    apply Hnext; try done; [lia|]. simpl. destruct (pos =? 2); lia.
  - destruct (Z.eqb_spec (http_content_length p) 0) as [E0|E0]; [apply Hnext; try done; simpl; lia|].
    destruct (Z.eqb_spec (recv_buf_fill (http_ring p)) 0) as [Ef|Ef];
      [exists 0, ms, p; split; [done|]; split; [right; left; by rewrite Es|by split; [|simpl]]|].
    destruct (consume_ok _ (Z.min (http_content_length p) (recv_buf_fill (http_ring p))) Hr Hl) as (r & -> & Hr' & El & Ef'); [lia|].
    cbn [mbind res_bind]. apply Hnext; try done; simpl; lia.
  - destruct (ring_messages_ok ms _ Hm Hr Hl) as (i & ms' & r & -> & Hr' & El & Ef). cbn [mbind res_bind]. rewrite Eb.
    destruct (flush_queue_stream healthy b (http_send_queue p) Hb He Hq) as (b' & E & Hb' & _ & Hs). rewrite E. cbn [mbind res_bind].
    eexists _, _, _. split; [done|]. split; [|split; [split|]; simpl; done].
    right. right. exists b'. simpl. split_and!; try done. by eapply flush_queue_unread.
  - by apply Herr.
Qed.

Lemma tcp_recv_unread (p p' : TcpPriv G) ms ret ms' :
  nice_socket_recv_messages p ms = Ok (ret, ms', p') -> zlen (tcp_unread p') <= zlen (tcp_unread p).
Proof.
  cbn [nice_socket_recv_messages tcp_nice_socket]. unfold tcp_socket_recv_messages. destruct (tcp_error p); [intros H; inv_res; lia|].
  generalize 0 as i. revert p p' ret ms'. induction ms as [|m ms IH]; intros p p' ret ms' i H; cbn [tcp_recv_loop] in H; [inv_res; lia|].
  inv_res. destruct (g_socket_receive_message _ _) as [g [e|d]] eqn:E.
  - apply gs_receive_error in E as [E _]. inv_res. unfold tcp_unread. cbn. by rewrite E.
  - apply gs_receive_ok in E as (_ & E & _). inv_res. destruct a0 as [bufs len]. unfold tcp_unread at 2. rewrite E, zlen_app.
    pose proof (zlen_nonneg d). destruct (zlen d =? 0); inv_res; [unfold tcp_unread; cbn; lia|].
    destruct a0 as [[ret' rest'] q]. inv_res. apply IH in Ha1. unfold tcp_unread in *. cbn in *. lia.
Qed.

(** ** The socket holds back *)
Section gate.
Variables (request : list Z) (total : Z).
Hypothesis total_bound : total < 2 ^ 62.

#[local] Instance http_gated : Gated (G := G) http_socket := {
  gt_base := http_base_socket;
  gt_queue := http_send_queue;
  gt_open p := bool_decide (http_state p = HTTP_STATE_CONNECTED);
  gt_handshake p hs := hs = request;
  gt_recv := http_recv_messages;
  gt_send reliable := if reliable : bool then http_send_messages_reliable else http_send_messages
}.

(** The ring has never held more than what the proxy sent, [total] bytes at
    most, and its size is at most twice that. *)
Definition http_wf p : Prop :=
  queue_wf (http_send_queue p) /\ parser_ok p /\ recv_buf_length (http_ring p) <= Z.max 1024 (2 * total) /\
  recv_buf_fill (http_ring p) + match http_base_socket p with Some b => zlen (tcp_unread b) | None => 0 end <= total.

Lemma http_base_wf p b q : http_wf p -> http_base_socket p = Some b -> forall b', queue_wf q -> zlen (tcp_unread b') <= zlen (tcp_unread b) ->
  http_wf (with_http_base p (Some b') q).
Proof. intros (_ & Hp & Hl & Hf) Eb b' Hq Hu. rewrite Eb in Hf. split; [done|]. split; [done|]. split; [done|]. simpl in *. lia. Qed.

Lemma http_connected_step p b ms : http_wf p -> http_base_socket p = Some b -> tcp_ok b -> Forall readable ms ->
  http_state p = HTTP_STATE_CONNECTED ->
  exists ret ms' p', http_recv_messages p ms = Ok (ret, ms', p') /\ http_wf p' /\ recv_step p b p'.
Proof.
  intros Hw Eb Hb Hm Es. unfold http_recv_messages. rewrite Es, Eb.
  destruct (tcp_recv_keeps b ms Hm) as (ret & ms' & b' & E & Hq & Hs & _). rewrite E. cbn [mbind res_bind].
  eexists _, _, _. split; [done|]. split; [eapply http_base_wf; [done|done|apply Hw|by eapply tcp_recv_unread]|].
  apply (step_stays _ _ _ b' []); simpl; try done; [by apply (tcp_ok_queue b)|by rewrite app_nil_r|].
  intros hs ->. by rewrite app_nil_r.
Qed.

Lemma http_handshake_step p b ms : http_wf p -> http_base_socket p = Some b -> tcp_ok b -> Forall readable ms ->
  http_state p <> HTTP_STATE_CONNECTED ->
  exists ret ms' p', http_recv_messages p ms = Ok (ret, ms', p') /\ http_wf p' /\ recv_step p b p'.
Proof.
  intros (Hq & [Hr Hc] & Hl & Hf) Eb Hb Hm Es. pose proof (rw_fill _ Hr) as Hfill.
  pose proof (zlen_nonneg (tcp_unread b)). rewrite Eb in Hf.
  destruct (grow_ok (http_ring p) Hr) as (Hg & Eg & Hlt & Hgl); [lia|]. unfold http_recv_messages.
  set (r := grow (http_ring p)) in *.
  replace (match http_state p with HTTP_STATE_CONNECTED => _ | _ => _ end) with
    (_ ← assert_ring_buffer_valid r;
      '(ret, length, r, base) ← fill_ring b r;
      let p := with_http_base (with_parser p (http_state p) r (http_content_length p)) (Some base) (http_send_queue p) in
      if ret <=? 0 then Ok (ret, ms, p)
      else
        let r := mkRing (recv_buf r) (recv_buf_length r) (recv_buf_pos r) (recv_buf_fill r + length) in
        _ ← assert_ring_buffer_valid r;
        http_retry (retry_fuel r) (with_parser p (http_state p) r (http_content_length p)) ms)
    by (rewrite Eb; by destruct (http_state p)).
  rewrite (ring_valid _ Hg). cbn [mbind res_bind].
  destruct (fill_ring_ok b r Hg) as (ret & n & r1 & b1 & d & -> & Z1 & L1 & P1 & F1 & Hq1 & Hs1 & Hu1 & Hret); [lia|].
  cbn [mbind res_bind]. cbv zeta. pose proof (rw_pos _ Hg). pose proof (rw_fill _ Hg).
  assert (Hb1 : tcp_ok b1) by (by apply (tcp_ok_queue b)). rewrite Hu1, zlen_app in Hf. pose proof (zlen_nonneg d). pose proof (zlen_nonneg (tcp_unread b1)).
  assert (Hr1 : ring_wf r1) by (constructor; rewrite ?Z1, ?L1, ?P1, ?F1; done).
  destruct (Z.leb_spec ret 0) as [Hle|Hle].
  - eexists _, _, _. split; [done|]. split.
    + split; [done|]. split; [by split|]. simpl. rewrite L1, F1, Eg. split; [lia|]. lia.
    + apply (step_stays _ _ _ b1 []); simpl; try done; [by rewrite app_nil_r|intros hs ->; by rewrite app_nil_r].
  - destruct Hret as [?|(_ & He1 & -> & Hd)]; [lia|].
    set (r2 := mkRing (recv_buf r1) (recv_buf_length r1) (recv_buf_pos r1) (recv_buf_fill r1 + zlen d)).
    assert (Hr2 : ring_wf r2) by (constructor; simpl; rewrite ?Z1, ?L1, ?P1, ?F1; lia).
    rewrite (ring_valid _ Hr2). cbn [mbind res_bind].
    match goal with |- context [http_retry _ ?q _] => set (p2 := q) end.
    destruct (http_retry_ok (retry_fuel r2) p2 ms b1) as (ret2 & ms2 & p3 & -> & Hn & [Hp3 [L3 F3]]); try done.
    { simpl. lia. }
    { unfold retry_cost, retry_fuel. pose proof (rw_fill _ Hr2). change (http_ring p2) with r2. destruct (http_state p2); lia. }
    eexists _, _, _. split; [done|]. simpl in L3, F3. destruct Hn as [[E3 Q3]|[(E3 & S3 & Q3)|(b3 & E3 & S3 & Q3 & O3 & T3 & U3)]].
    + split; [|by apply step_closes]. split; [done|]. split; [done|]. rewrite E3. lia.
    + split.
      * split; [by rewrite Q3|]. split; [done|]. rewrite E3. lia.
      * apply (step_stays _ _ _ b1 []); simpl; try done; [by rewrite !bool_decide_false|by rewrite app_nil_r|].
        intros hs ->. by rewrite app_nil_r.
    + split.
      * split; [rewrite Q3; constructor|]. split; [done|]. rewrite E3, U3. lia.
      * apply (step_opens _ _ _ b3); simpl; try done; [by rewrite bool_decide_false|by rewrite bool_decide_true|by rewrite T3, Hs1].
Qed.

(** A send: to the base socket when connected, to the queue before. *)
Lemma http_send_step reliable p b to ms datas : http_wf p -> http_base_socket p = Some b -> tcp_ok b -> Forall2 whole ms datas ->
  exists ret p', gt_send reliable p to ms = Ok (ret, p') /\ http_wf p' /\ send_step p b (take (Z.to_nat ret) datas) p'.
Proof.
  intros Hw Eb Hb Hm. simpl. destruct (decide (http_state p = HTTP_STATE_CONNECTED)) as [Es|Es].
  - destruct (tcp_send_any healthy reliable b to ms datas Hb Hm) as (ret & b' & E & Hok & Hs).
    exists ret, (with_http_base p (Some b') (http_send_queue p)). split.
    { destruct reliable; unfold http_send_messages_reliable, http_send_messages; rewrite Es, Eb, E; done. }
    split; [eapply http_base_wf; [done|done|apply Hw|by rewrite (tcp_send_unread _ _ _ _ _ _ E)]|].
    exists b'. simpl. rewrite bool_decide_true by done. by split_and!.
  - assert (Hno : send_step p b [] p).
    { exists b. simpl. rewrite bool_decide_false, app_nil_r by done. by split_and!. }
    destruct (queue_send_stream (http_send_queue p) to ms datas (proj1 Hw) Hm) as (q & E & Hq & Hs).
    assert (Hyes : send_step p b (take (Z.to_nat (zlen ms)) datas) (with_http_base p (http_base_socket p) q)).
    { exists b. simpl. rewrite bool_decide_false by done. split_and!; try done.
      rewrite Hs, firstn_all2; [done|]. rewrite to_nat_zlen. by rewrite (Forall2_length _ _ _ Hm). }
    destruct reliable; unfold http_send_messages_reliable, http_send_messages.
    + destruct (http_state p) eqn:Est; try congruence; rewrite ?E; cbn [mbind res_bind];
        try (eexists _, _; split; [reflexivity|]; split; [|exact Hyes]; rewrite Eb; by eapply http_base_wf).
      by eexists _, _.
    + destruct (http_state p); try congruence; by eexists _, _.
Qed.

#[local] Instance http_gated_laws : GatedLaws http_wf.
Proof.
  split.
  - intros p b ms Hw Eb Hb Hm. destruct (decide (http_state p = HTTP_STATE_CONNECTED));
      [by apply http_connected_step|by apply http_handshake_step].
  - intros reliable p b to ms datas. apply http_send_step.
  - intros p ms Hw Eb. simpl. unfold http_recv_messages. cbn [gt_base http_gated] in Eb. rewrite Eb.
    pose proof Hw as (Hq & [Hr Hc] & Hl & Hf). rewrite Eb in Hf. pose proof (rw_fill _ Hr).
    destruct (grow_ok (http_ring p) Hr) as (Hg & Eg & _ & Hgl); [lia|].
    destruct (http_state p) eqn:Es; try (by eexists _, _, _); rewrite (ring_valid _ Hg); cbn [mbind res_bind];
      (eexists _, _, _; split; [reflexivity|]; split; [|done]; split; [done|]; split; [by split|]; simpl; rewrite Eb; lia).
  - intros reliable p to ms datas Hw Eb Hm. cbn [gt_base http_gated] in *.
    destruct (queue_send_stream (http_send_queue p) to ms datas (proj1 Hw) Hm) as (q & E & Hq & _).
    pose proof Hw as (_ & Hp & Hl & Hf).
    destruct reliable; simpl; unfold http_send_messages_reliable, http_send_messages; rewrite ?E, Eb;
      destruct (http_state p); cbn [mbind res_bind]; try (by eexists _, _);
      (eexists _, _; split; [reflexivity|]; split; [|done]; split; [done|]; split; [done|]; simpl; by rewrite Eb in Hf).
Qed.
End gate.
End http.

(** ** Theorems *)


(** A proxy that sends half of the length of the body in one segment and the
    rest in the next: the parser reads the byte behind the data it has, and
    when that is neither a digit nor a CR the reply is an error. *)

(** The bytes in the ring, oldest first. *)
Definition ring_view (r : HttpRing) (data : list Z) : Prop :=
  zlen data = recv_buf_fill r /\ forall i c, data !! i = Some c -> GET_BYTE r (Z.of_nat i) = Ok c.

Lemma ring_view_byte r data i c : ring_view r data -> 0 <= i -> data !! Z.to_nat i = Some c -> GET_BYTE r i = Ok c.
Proof. intros [_ H] Hi Hc. rewrite <- (Z2Nat.id i) by done. by apply H. Qed.

Lemma bytes_at_view r data l pos : ring_view r data -> 0 <= pos -> take (length l) (drop (Z.to_nat pos) data) = (fst <$> l) ->
  bytes_at r pos l = Ok true.
Proof.
  intros Hv. revert pos. induction l as [|[x y] l IH]; intros pos Hp Hl; cbn [bytes_at]; [done|].
  cbn [length fmap list_fmap fst] in Hl. destruct (drop (Z.to_nat pos) data) as [|c rest] eqn:Ed; [done|]. cbn [take] in Hl.
  injection Hl as -> Hl.
  assert (Hc : data !! Z.to_nat pos = Some x) by (rewrite <- (Nat.add_0_r (Z.to_nat pos)), <- lookup_drop, Ed; done).
  rewrite (ring_view_byte _ _ _ _ Hv Hp Hc). cbn [mbind res_bind]. rewrite Z.eqb_refl. cbn [orb]. apply IH; [lia|].
  replace (Z.to_nat (pos + 1)) with (S (Z.to_nat pos)) by lia. rewrite <- Hl.
  replace (S (Z.to_nat pos)) with (Z.to_nat pos + 1)%nat by lia. by rewrite <- drop_drop, Ed.
Qed.

(** The digits are consumed up to the end of the data, then the byte behind
    them is looked at. *)
Lemma content_length_behind r digits junk fuel pos cl : (length digits <= fuel)%nat -> 0 <= pos ->
  recv_buf_fill r = pos + zlen digits -> (forall i c, digits !! i = Some c -> GET_BYTE r (pos + Z.of_nat i) = Ok c) ->
  Forall (fun c => is_ascii_digit c = true) digits -> 0 <= cl -> (cl + 1) * 10 ^ zlen digits <= G_MAXSIZE ->
  GET_BYTE r (pos + zlen digits) = Ok junk -> is_ascii_digit junk = false -> junk <> 13 ->
  content_length_loop fuel r pos cl = Ok (HttpError, 0).
Proof.
  revert fuel pos cl. induction digits as [|c digits IH]; intros fuel pos cl Hf Hp Hfill Hv Hd Hc Hm Hj Hnd Hcr.
  - rewrite zlen_nil, Z.add_0_r in Hj. destruct fuel; cbn [content_length_loop]; rewrite Hj; cbn [mbind res_bind];
      rewrite (proj2 (Z.eqb_neq _ _) Hcr); unfold g_ascii_digit_value; by rewrite Hnd.
  - destruct fuel as [|fuel]; [cbn in Hf; lia|]. cbn [content_length_loop]. pose proof (Hv 0%nat c eq_refl) as Hc0. rewrite Z.add_0_r in Hc0.
    rewrite Hc0. cbn [mbind res_bind]. apply Forall_cons in Hd as [Hd Hds]. unfold g_ascii_digit_value. rewrite Hd.
    pose proof Hd as Hd'. unfold is_ascii_digit in Hd'. bool_prop. destruct (Z.eqb_spec c 13); [lia|]. destruct (Z.eqb_spec (c - 48) (-1)); [lia|].
    rewrite zlen_cons in *. pose proof (zlen_nonneg digits) as Hz. rewrite Z.pow_add_r in Hm by lia. change (10 ^ 1) with 10 in Hm.
    assert (Hpow : 1 <= 10 ^ zlen digits) by (pose proof (Z.pow_pos_nonneg 10 (zlen digits)); lia).
    assert (Hcl : (cl + 1) * 10 <= G_MAXSIZE) by nia.
    assert (Hdiv : cl <= G_MAXSIZE / 10) by (apply Z.div_le_lower_bound; lia).
    rewrite (proj2 (Z.ltb_ge _ _)) by lia. cbn [orb]. rewrite (proj2 (Z.ltb_ge _ _)) by lia. rewrite (proj2 (Z.ltb_ge _ _)) by lia.
    apply IH; try done; try lia.
    + cbn in Hf. lia.
    + intros i x Hx. replace (pos + 1 + Z.of_nat i) with (pos + Z.of_nat (S i)) by lia. by apply Hv.
    + nia.
    + by replace (pos + 1 + zlen digits) with (pos + (1 + zlen digits)) by lia.
Qed.

(** C40: a Content-Length header cut between its digits by the segmentation of
    the stream makes the proxy's reply an error.  When the ring holds the name
    of the header and digits up to its last byte, the loop over the digits goes
    on to the byte behind the data, which was never received; unless that
    happens to be a digit or a CR, the connection is given up. *)
Theorem http_split_length_fails r digits junk content_length :
  ring_view r (text "Content-Length: " ++ digits) -> digits <> [] -> (length digits <= 19)%nat ->
  Forall (fun c => is_ascii_digit c = true) digits -> GET_BYTE r (recv_buf_fill r) = Ok junk -> is_ascii_digit junk = false -> junk <> 13 ->
  parse_header_line r content_length = Ok (HttpError, 0).
Proof.
  intros Hv Hne Hl Hd Hj Hnd Hcr. pose proof Hv as [Hf _]. rewrite zlen_app in Hf. change (zlen (text "Content-Length: ")) with 16 in Hf.
  assert (Hz : 1 <= zlen digits <= 19) by (destruct digits; [done|]; unfold zlen; cbn in *; lia).
  unfold parse_header_line. rewrite (proj2 (Z.ltb_lt _ _)) by lia.
  rewrite (bytes_at_view r _ content_length_header 0 Hv) by done. cbn [mbind res_bind].
  assert (Hw : EAT_WHITESPACE r 15 = Ok (Parsed 16)).
  { unfold EAT_WHITESPACE. replace (ring_fuel r 15) with (S (ring_fuel r 16)) by (unfold ring_fuel; lia). cbn [whitespace_loop].
    rewrite (proj2 (Z.ltb_lt _ _)) by lia. rewrite (ring_view_byte _ _ 15 32 Hv) by done. cbn [mbind res_bind Z.eqb Pos.eqb].
    destruct digits as [|c digits]; [done|]. apply Forall_cons in Hd as [Hc _]. unfold is_ascii_digit in Hc. bool_prop.
    assert (Hloop : whitespace_loop (ring_fuel r 16) r 16 = Ok 16).
    { destruct (ring_fuel r 16); cbn [whitespace_loop]; rewrite (proj2 (Z.ltb_lt _ _)) by lia;
        rewrite (ring_view_byte _ _ 16 c Hv) by done; cbn [mbind res_bind]; destruct (Z.eqb_spec c 32); (lia || done). }
    change (15 + 1) with 16. rewrite Hloop. cbn [mbind res_bind]. by rewrite (proj2 (Z.ltb_lt _ _)) by lia. }
  rewrite Hw. cbn [mbind res_bind].
  rewrite (content_length_behind r digits junk); try done; unfold ring_fuel.
  - unfold zlen in Hf. lia.
  - intros i c Hi. replace (16 + Z.of_nat i) with (Z.of_nat (16 + i)) by lia. apply Hv. rewrite lookup_app_r by (cbn; lia). rewrite <- Hi. f_equal. cbn. lia.
  - change (0 + 1) with 1. rewrite Z.mul_1_l. transitivity (10 ^ 19); [apply Z.pow_le_mono_r; lia|by vm_compute].
  - by rewrite Hf.
Qed.

(** *** Concrete runs *)

#[local] Instance ex_http_net : NetEnv := ex_net.
#[local] Instance ex_http_base64 : Base64 := {| g_base64_decode l := l; g_base64_encode l := l |}.

Definition ex_http_replies : list (list Z) :=
  [text "HTTP/1.1 2"; text "00 OK" ++ crlf ++ text "Content-Length: 3" ++ [13]; [10] ++ crlf ++ text "abc" ++ [7; 8]].
Definition ex_http_ops : list gated_op :=
  [GatedSend true None [one_vector [1; 2; 3]]; GatedRecv [small_message]; GatedSend false None [one_vector [9]];
   GatedRecv [small_message]; GatedRecv [small_message]; GatedSend true None [one_vector [4; 5]]].

Lemma ex_http_ops_ok : Forall op_ok ex_http_ops.
Proof.
  assert (Hr : op_ok (GatedRecv [small_message])) by (constructor; [apply small_message_readable|constructor]).
  assert (Hs : forall r b, zlen b < 2 ^ 31 -> op_ok (GatedSend r None [one_vector b]))
    by (intros r b Hb; constructor; [exists b; by apply whole_one_vector|constructor]).
  unfold ex_http_ops. repeat (constructor; [first [exact Hr|apply Hs; done]|]). constructor.
Qed.

Definition ex_http_request : list Z :=
  match connect_request ex_peer (Some (text "u")) None [] with Ok request => request | Fault _ => [] end.


(** The reply arrives in three segments; the body is skipped and what follows
    it is delivered. *)
Example ex_http_run :
  match nice_http_socket_new (ex_proxy ex_http_replies) (Some ex_peer) (Some (text "u")) None [] with
  | Ok (Some p) =>
      match gated_run (GT := http_gated ex_http_request) p ex_http_ops with
      | Ok (acc, p') => (length acc, http_state p', tcp_stream <$> http_base_socket p')
      | Fault _ => (O, HTTP_STATE_ERROR, None)
      end
  | _ => (O, HTTP_STATE_ERROR, None)
  end = (2%nat, HTTP_STATE_CONNECTED, Some (ex_http_request ++ [1; 2; 3] ++ [4; 5])).
Proof. vm_compute. reflexivity. Qed.

(** A ring that holds the first half of a length in fresh memory. *)
Definition ex_split_ring : HttpRing :=
  mkRing (text "Content-Length: 1" ++ replicate 1007 0) 1024 0 17.

Lemma http_split_length_fails_witness :
  ring_view ex_split_ring (text "Content-Length: " ++ text "1") /\ parse_header_line ex_split_ring 0 = Ok (HttpError, 0).
Proof.
  assert (Hv : ring_view ex_split_ring (text "Content-Length: " ++ text "1")).
  { split; [reflexivity|]. intros i c Hi.
    do 17 (destruct i as [|i]; [cbn in Hi; injection Hi as <-; vm_compute; reflexivity|]). done. }
  split; [exact Hv|].
  refine (http_split_length_fails ex_split_ring (text "1") 0 0 Hv _ _ _ _ _ _);
    [done|cbn; lia|by repeat constructor|vm_compute; reflexivity|done|done].
Defined.
