(* ===== verification/TurnSocket.v ===== *)
(** * The TURN socket (socket/udp-turn.c): state, timers and requests

    The socket relays datagrams through a TURN server: it wraps what the
    application sends into channel data, Send indications or Send requests,
    installs permissions and channel bindings, and unwraps what the server
    forwards.  It is layered over any [NiceSocket].

    The timers are GLib sources: [ut_sources] are the ones attached to the
    main context, each with its callback; TurnEvents dispatches them.  The
    clock, [ut_now], does not advance during an operation.
    [priv_schedule_tick] and the functions it calls are mutually recursive:
    they are written over the class [ScheduleTick], the recursive call. *)
From stdpp Require Import gmap.
From S2P Require Import Prelude CMem StunTypes StunMessage StunCrc32 StunAgent StunTimer StunIce StunTurn Address Candidate IceTypes IceEnv CheckTick IoMessage NiceSock TurnTcp.
Local Open Scope Z_scope.

Definition STUN_MAX_MESSAGE_SIZE : Z := 65552.
Definition STUN_END_TIMEOUT : Z := 8000.
Definition STUN_MAX_MS_REALM_LEN : Z := 128.
Definition STUN_EXPIRE_TIMEOUT : Z := 60.
Definition STUN_PERMISSION_TIMEOUT : Z := 300 - STUN_EXPIRE_TIMEOUT.
Definition STUN_BINDING_TIMEOUT : Z := 600 - STUN_EXPIRE_TIMEOUT.
Definition G_MAXUINT : Z := 4294967295.
Definition G_MAXUINT16 : Z := 65535.

#[global] Instance turn_compatibility_eq_dec : EqDecision NiceTurnSocketCompatibility.
Proof. solve_decision. Defined.

(** ** State *)

(** The member [buffer] is the object [message.buffer] points to. *)
Record TURNMessage : Set := mkTURNMessage { tmg_message : StunMessage; tmg_timer : StunTimer }.

Record ChannelBinding : Set := mkBinding {
  cb_peer : NiceAddress;
  cb_channel : Z;
  cb_renew : bool;
  cb_timeout_source : option Z
}.

(** A request sent to the server is named by its timer, which it owns. *)
Record SendRequest : Set := mkSendRequest { sr_id : list Z; sr_source : Z }.

Record SendData : Set := mkSendData { sd_data : list Z; sd_data_len : Z; sd_reliable : bool }.

Inductive turn_callback : Set :=
  | PrivForgetSendRequestTimeout
  | PrivPermissionTimeout
  | PrivBindingExpiredTimeout
  | PrivBindingTimeout
  | PrivRetransmissionsTick
  | PrivRetransmissionsCreatePermissionTick.

(** A source attached to the main context; the interval is in milliseconds. *)
Record GSource : Set := mkSource { gs_id : Z; gs_interval : Z; gs_callback : turn_callback }.

Record UdpTurnPriv {B : Type} : Type := mkUdpTurn {
  ut_agent : StunAgent;
  ut_channels : list ChannelBinding;
  ut_pending_bindings : list NiceAddress;
  ut_current_binding : option ChannelBinding;
  ut_current_binding_msg : option TURNMessage;
  ut_pending_permissions : list TURNMessage;
  ut_tick_source_channel_bind : option Z;
  ut_tick_source_create_permission : option Z;
  ut_base_socket : B;
  ut_base_is_udp_bsd : bool;       (** the type of the base socket *)
  ut_server_addr : NiceAddress;
  ut_username : list Z;
  ut_password : option (list Z);
  ut_compatibility : NiceTurnSocketCompatibility;
  ut_send_requests : list SendRequest;
  ut_ms_realm : list Z;
  ut_ms_connection_id : list Z;
  ut_ms_sequence_num : Z;
  ut_ms_connection_id_valid : bool;
  ut_permissions : list NiceAddress;
  ut_sent_permissions : list NiceAddress;
  ut_send_data_queues : list (NiceAddress * list SendData);
  ut_permission_timeout_source : option Z;
  ut_cached_realm : option (list Z);
  ut_cached_realm_len : Z;
  ut_cached_nonce : option (list Z);
  ut_cached_nonce_len : Z;
  ut_fragment_buffer : option (list Z);
  ut_from : NiceAddress;
  ut_send_buffer : list Z;
  (** the main context, the clock and the random numbers *)
  ut_sources : list GSource;
  ut_next_source : Z;
  ut_now : timeval;
  ut_transactions : Z
}.
Arguments UdpTurnPriv B : clear implicits.

(** The random transaction ids, by the number of requests made before. *)
Class TurnRandom : Type := turn_make_transid : Z -> list Z.

(** The recursive call of [priv_schedule_tick]. *)
Class ScheduleTick (B : Type) : Type := schedule_tick : UdpTurnPriv B -> res (UdpTurnPriv B).

(** ** Updates *)

Definition eta_turn_priv {B} (r : UdpTurnPriv B) : UdpTurnPriv B :=
  mkUdpTurn B (ut_agent r) (ut_channels r) (ut_pending_bindings r) (ut_current_binding r) (ut_current_binding_msg
    r) (ut_pending_permissions r) (ut_tick_source_channel_bind r) (ut_tick_source_create_permission r)
    (ut_base_socket r) (ut_base_is_udp_bsd r) (ut_server_addr r) (ut_username r) (ut_password r)
    (ut_compatibility r) (ut_send_requests r) (ut_ms_realm r) (ut_ms_connection_id r)
    (ut_ms_sequence_num r) (ut_ms_connection_id_valid r) (ut_permissions r) (ut_sent_permissions r)
    (ut_send_data_queues r) (ut_permission_timeout_source r) (ut_cached_realm r) (ut_cached_realm_len r)
    (ut_cached_nonce r) (ut_cached_nonce_len r) (ut_fragment_buffer r) (ut_from r) (ut_send_buffer r)
    (ut_sources r) (ut_next_source r) (ut_now r) (ut_transactions r).
Definition eta_binding (r : ChannelBinding) : ChannelBinding :=
  mkBinding (cb_peer r) (cb_channel r) (cb_renew r) (cb_timeout_source r).

Ltac turn_setter :=
  lazymatch goal with |- Setter ?f =>
    let g := fresh "g" in let s := fresh "s" in
    intros g s;
    let e := eval cbv beta delta [eta_turn_priv] in (eta_turn_priv s) in
    let e := eval pattern (f s) in e in
    lazymatch e with ?h _ => let t := eval cbv beta in (h (g (f s))) in exact t end
  end.

#[global] Instance set_ut_agent {B} : Setter (@ut_agent B) := ltac:(turn_setter).
#[global] Instance set_ut_channels {B} : Setter (@ut_channels B) := ltac:(turn_setter).
#[global] Instance set_ut_pending_bindings {B} : Setter (@ut_pending_bindings B) := ltac:(turn_setter).
#[global] Instance set_ut_current_binding {B} : Setter (@ut_current_binding B) := ltac:(turn_setter).
#[global] Instance set_ut_current_binding_msg {B} : Setter (@ut_current_binding_msg B) := ltac:(turn_setter).
#[global] Instance set_ut_pending_permissions {B} : Setter (@ut_pending_permissions B) := ltac:(turn_setter).
#[global] Instance set_ut_tick_source_channel_bind {B} : Setter (@ut_tick_source_channel_bind B) := ltac:(turn_setter).
#[global] Instance set_ut_tick_source_create_permission {B} : Setter (@ut_tick_source_create_permission B) := ltac:(turn_setter).
#[global] Instance set_ut_base_socket {B} : Setter (@ut_base_socket B) := ltac:(turn_setter).
#[global] Instance set_ut_send_requests {B} : Setter (@ut_send_requests B) := ltac:(turn_setter).
#[global] Instance set_ut_ms_realm {B} : Setter (@ut_ms_realm B) := ltac:(turn_setter).
#[global] Instance set_ut_ms_connection_id {B} : Setter (@ut_ms_connection_id B) := ltac:(turn_setter).
#[global] Instance set_ut_ms_sequence_num {B} : Setter (@ut_ms_sequence_num B) := ltac:(turn_setter).
#[global] Instance set_ut_ms_connection_id_valid {B} : Setter (@ut_ms_connection_id_valid B) := ltac:(turn_setter).
#[global] Instance set_ut_permissions {B} : Setter (@ut_permissions B) := ltac:(turn_setter).
#[global] Instance set_ut_sent_permissions {B} : Setter (@ut_sent_permissions B) := ltac:(turn_setter).
#[global] Instance set_ut_send_data_queues {B} : Setter (@ut_send_data_queues B) := ltac:(turn_setter).
#[global] Instance set_ut_permission_timeout_source {B} : Setter (@ut_permission_timeout_source B) := ltac:(turn_setter).
#[global] Instance set_ut_cached_realm {B} : Setter (@ut_cached_realm B) := ltac:(turn_setter).
#[global] Instance set_ut_cached_realm_len {B} : Setter (@ut_cached_realm_len B) := ltac:(turn_setter).
#[global] Instance set_ut_cached_nonce {B} : Setter (@ut_cached_nonce B) := ltac:(turn_setter).
#[global] Instance set_ut_cached_nonce_len {B} : Setter (@ut_cached_nonce_len B) := ltac:(turn_setter).
#[global] Instance set_ut_fragment_buffer {B} : Setter (@ut_fragment_buffer B) := ltac:(turn_setter).
#[global] Instance set_ut_from {B} : Setter (@ut_from B) := ltac:(turn_setter).
#[global] Instance set_ut_send_buffer {B} : Setter (@ut_send_buffer B) := ltac:(turn_setter).
#[global] Instance set_ut_sources {B} : Setter (@ut_sources B) := ltac:(turn_setter).
#[global] Instance set_ut_next_source {B} : Setter (@ut_next_source B) := ltac:(turn_setter).
#[global] Instance set_ut_now {B} : Setter (@ut_now B) := ltac:(turn_setter).
#[global] Instance set_ut_transactions {B} : Setter (@ut_transactions B) := ltac:(turn_setter).
#[global] Instance set_cb_renew : Setter cb_renew := ltac:(setter eta_binding).
#[global] Instance set_cb_timeout_source : Setter cb_timeout_source := ltac:(setter eta_binding).

(** ** Sources *)
Section turn.
Context {B : Type} {NS : NiceSocket B}.
Implicit Types s : UdpTurnPriv B.

(** Both functions that add a timeout, with the interval in milliseconds. *)
Definition priv_timeout_add_with_context s (interval : Z) (function : turn_callback) : Z * UdpTurnPriv B :=
  let id := ut_next_source s in
  (id, s <| ut_sources := ut_sources s ++ [mkSource id interval function] |> <| ut_next_source := id + 1 |>).

Definition priv_timeout_add_seconds_with_context s (interval : Z) (function : turn_callback) : Z * UdpTurnPriv B :=
  priv_timeout_add_with_context s (interval * 1000) function.

Definition g_source_destroy s (id : Z) : UdpTurnPriv B :=
  s <| ut_sources := List.filter (fun src => negb (gs_id src =? id)) (ut_sources s) |>.

Definition destroy_if_set s (source : option Z) : UdpTurnPriv B :=
  match source with Some id => g_source_destroy s id | None => s end.

Definition send_request_free s (r : SendRequest) : UdpTurnPriv B :=
  let s := g_source_destroy s (sr_source r) in
  s <| ut_agent := snd (stun_agent_forget_transaction (ut_agent s) (sr_id r)) |>.

Definition remove_request s (r : SendRequest) : UdpTurnPriv B :=
  send_request_free (s <| ut_send_requests := List.filter (fun x => negb (sr_source x =? sr_source r)) (ut_send_requests s) |>) r.

(** ** Lists of peers *)

Definition priv_is_peer_in_list (l : list NiceAddress) (peer : NiceAddress) : bool :=
  existsb (fun address => nice_address_equal address peer) l.

Definition priv_has_permission_for_peer s (peer : NiceAddress) : bool := priv_is_peer_in_list (ut_permissions s) peer.
Definition priv_has_sent_permission_for_peer s (peer : NiceAddress) : bool := priv_is_peer_in_list (ut_sent_permissions s) peer.
Definition priv_add_permission_for_peer s (peer : NiceAddress) : UdpTurnPriv B :=
  s <| ut_permissions := ut_permissions s ++ [nice_address_dup peer] |>.
Definition priv_add_sent_permission_for_peer s (peer : NiceAddress) : UdpTurnPriv B :=
  s <| ut_sent_permissions := ut_sent_permissions s ++ [nice_address_dup peer] |>.

(** When the first link is removed [iter] is NULL and the loop ends; after any
    other removal it goes on from the second link, so every later match goes. *)
Definition priv_remove_peer_from_list (l : list NiceAddress) (peer : NiceAddress) : list NiceAddress :=
  match l with
  | [] => []
  | address :: rest =>
      if nice_address_equal address peer then rest
      else address :: List.filter (fun a => negb (nice_address_equal a peer)) rest
  end.

Definition priv_remove_sent_permission_for_peer s (peer : NiceAddress) : UdpTurnPriv B :=
  s <| ut_sent_permissions := priv_remove_peer_from_list (ut_sent_permissions s) peer |>.
Definition priv_clear_permissions s : UdpTurnPriv B := s <| ut_permissions := [] |>.

(** ** Sending over the base socket *)

Definition send_to_base s (to : NiceAddress) (message : NiceOutputMessage) (reliable : bool) : res (Z * UdpTurnPriv B) :=
  '(ret, base) ← (if reliable then nice_socket_send_messages_reliable (ut_base_socket s) (Some to) [message]
                  else nice_socket_send_messages (ut_base_socket s) (Some to) [message]);
  Ok (ret, s <| ut_base_socket := base |>).

Definition base_is_reliable s : bool := nice_socket_is_reliable (ut_base_socket s).

(** The callers pass one message. *)
Definition _socket_send_messages_wrapped s (to : NiceAddress) (message : NiceOutputMessage) (reliable : bool)
    : res (Z * UdpTurnPriv B) :=
  if negb (base_is_reliable s) then send_to_base s to message reliable
  else
    message_len ← output_message_get_size message;
    _ ← assert_ok (message_len <=? G_MAXUINT16);
    n_bufs ← (if om_n_buffers message =? -1 then count_buffers (om_buffers message)
              else Ok (u32 (om_n_buffers message)));
    if zlen (om_buffers message) <? n_bufs then Fault OutOfBounds else
    let rfc4571_frame := le_bytes 2 (htons message_len) in
    let local_message := mkOutput (mkVector (Some rfc4571_frame) 2 :: take (Z.to_nat n_bufs) (om_buffers message)) (n_bufs + 1) in
    '(ret, s) ← send_to_base s to local_message reliable;
    Ok (if ret =? 1 then message_len else ret, s).

Definition _socket_send_wrapped s (to : NiceAddress) (len : Z) (buf : list Z) (reliable : bool)
    : res (Z * UdpTurnPriv B) :=
  '(ret, s) ←
    (if negb (base_is_reliable s) then
       _socket_send_messages_wrapped s to (mkOutput [mkVector (Some buf) len] 1) reliable
     else
       send_to_base s to (mkOutput [mkVector (Some (le_bytes 2 (htons len))) 2; mkVector (Some buf) len] 2) reliable);
  Ok (if ret =? 1 then len else ret, s).

(** ** Data that waits for a permission

    The hash table compares addresses with [nice_address_equal]; a list of
    entries, the oldest first, stands for it. *)

Definition lookup_queue (queues : list (NiceAddress * list SendData)) (to : NiceAddress) : option (list SendData) :=
  snd <$> List.find (fun e => nice_address_equal (fst e) to) queues.

Fixpoint push_queue (queues : list (NiceAddress * list SendData)) (to : NiceAddress) (data : SendData)
    : list (NiceAddress * list SendData) :=
  match queues with
  | [] => [(nice_address_dup to, [data])]
  | e :: rest =>
      if nice_address_equal (fst e) to then (fst e, snd e ++ [data]) :: rest else e :: push_queue rest to data
  end.

Fixpoint remove_queue (queues : list (NiceAddress * list SendData)) (to : NiceAddress) : list (NiceAddress * list SendData) :=
  match queues with
  | [] => []
  | e :: rest => if nice_address_equal (fst e) to then rest else e :: remove_queue rest to
  end.

Definition socket_enqueue_data s (to : NiceAddress) (len : Z) (buf : list Z) (reliable : bool) : res (UdpTurnPriv B) :=
  data ← rd_bytes buf 0 len;
  Ok (s <| ut_send_data_queues := push_queue (ut_send_data_queues s) to (mkSendData data len reliable) |>).

Fixpoint dequeue_loop s (l : list SendData) : res (UdpTurnPriv B) :=
  match l with
  | [] => Ok s
  | data :: l =>
      '(_, s) ← _socket_send_wrapped s (ut_server_addr s) (sd_data_len data) (sd_data data) (sd_reliable data);
      dequeue_loop s l
  end.

Definition socket_dequeue_all_data s (to : NiceAddress) : res (UdpTurnPriv B) :=
  match lookup_queue (ut_send_data_queues s) to with
  | None => Ok s
  | Some send_queue =>
      s ← dequeue_loop s send_queue;
      Ok (s <| ut_send_data_queues := remove_queue (ut_send_data_queues s) to |>)
  end.

(** ** Messages to the server *)

Context {CL : CryptoLib} {R : TurnRandom} (package_string : list Z).

Definition modern (c : NiceTurnSocketCompatibility) : bool := padded_compat c.

Definition zeroed_buffer : list Z := replicate (Z.to_nat STUN_MAX_MESSAGE_SIZE) 0.

(** The peer's address as a [sockaddr_storage]; the union is not initialised. *)
Definition peer_sockaddr (peer : NiceAddress) : sockaddr := nice_address_copy_to_sockaddr peer (sockaddr_other 0).

(** A request in [buf], with a fresh transaction id. *)
Definition init_request s (buf : list Z) (method : Z) : res (bool * StunMessage * UdpTurnPriv B) :=
  '(ok, msg) ← stun_agent_init_request package_string (turn_make_transid (ut_transactions s)) (ut_agent s)
                 zero_message buf STUN_MAX_MESSAGE_SIZE method;
  Ok (ok, msg, s <| ut_transactions := ut_transactions s + 1 |>).

(** The bytes of a C string in an array. *)
Fixpoint c_string (b : list Z) : list Z :=
  match b with
  | [] => []
  | x :: b => if x =? 0 then [] else x :: c_string b
  end.

Definition stun_message_append_ms_connection_id (msg : StunMessage) (ms_connection_id : list Z) (ms_sequence_num : Z)
    : res (StunMessageReturn * StunMessage) :=
  id ← rd_bytes ms_connection_id 0 20;
  stun_message_append_bytes msg STUN_ATTRIBUTE_MS_SEQUENCE_NUMBER (id ++ le_bytes 4 (htonl ms_sequence_num)).

Definition stun_message_ensure_ms_realm (msg : StunMessage) (realm : list Z) : res StunMessage :=
  m ← stun_message_get_method msg;
  if (m =? STUN_SEND) || (m =? STUN_OLD_SET_ACTIVE_DST) then
    '(_, msg) ← stun_message_append_bytes msg STUN_ATTRIBUTE_REALM (c_string realm);
    Ok msg
  else Ok msg.

(** [XOR-PEER-ADDRESS] of a request the socket sent. *)
Definition peer_of_request (msg : StunMessage) : res NiceAddress :=
  '(_, sa, _) ← stun_message_find_xor_addr msg STUN_ATTRIBUTE_XOR_PEER_ADDRESS (sockaddr_other 0) sizeof_sockaddr_storage;
  Ok (nice_address_set_from_sockaddr nice_address_init sa).

(** ** The mutually recursive functions *)
Section tick.
Context {Tick : ScheduleTick B}.

Definition priv_send_turn_message s (msg : StunMessage) : res (UdpTurnPriv B) :=
  stun_len ← stun_message_length msg;
  let s := s <| ut_current_binding_msg := None |> in
  '(timer, s) ←
    (if base_is_reliable s then
       '(_, s) ← _socket_send_wrapped s (ut_server_addr s) stun_len (buffer msg) true;
       timer ← stun_timer_start_reliable (ut_now s) STUN_TIMER_DEFAULT_RELIABLE_TIMEOUT;
       Ok (timer, s)
     else
       '(ret, s) ← _socket_send_wrapped s (ut_server_addr s) stun_len (buffer msg) true;
       '(_, s) ← (if ret <? 0 then _socket_send_wrapped s (ut_server_addr s) stun_len (buffer msg) false
                  else Ok (ret, s));
       timer ← stun_timer_start (ut_now s) STUN_TIMER_DEFAULT_TIMEOUT STUN_TIMER_DEFAULT_MAX_RETRANSMISSIONS;
       Ok (timer, s));
  schedule_tick (s <| ut_current_binding_msg := Some (mkTURNMessage msg timer) |>).

Definition priv_send_create_permission s (peer : NiceAddress) : res (bool * UdpTurnPriv B) :=
  let s := if negb (priv_has_sent_permission_for_peer s peer) then priv_add_sent_permission_for_peer s peer else s in
  '(msg_buf_len, ag, msg) ← stun_usage_turn_create_permission package_string
     (turn_make_transid (ut_transactions s)) (ut_agent s) zero_message zeroed_buffer STUN_MAX_MESSAGE_SIZE
     (Some (ut_username s)) (ut_password s) (ut_cached_realm s) (ut_cached_nonce s) (Some (peer_sockaddr peer));
  let s := s <| ut_transactions := ut_transactions s + 1 |> <| ut_agent := ag |> in
  if 0 <? msg_buf_len then
    '(res, s) ← _socket_send_wrapped s (ut_server_addr s) msg_buf_len (buffer msg) true;
    '(res, s) ← (if negb (base_is_reliable s) && (res <? 0)
                 then _socket_send_wrapped s (ut_server_addr s) msg_buf_len (buffer msg) false
                 else Ok (res, s));
    if res <? 0 then Ok (false, s)
    else
      timer ← (if base_is_reliable s
               then stun_timer_start_reliable (ut_now s) STUN_TIMER_DEFAULT_RELIABLE_TIMEOUT
               else stun_timer_start (ut_now s) STUN_TIMER_DEFAULT_TIMEOUT STUN_TIMER_DEFAULT_MAX_RETRANSMISSIONS);
      s ← schedule_tick (s <| ut_pending_permissions := ut_pending_permissions s ++ [mkTURNMessage msg timer] |>);
      Ok (0 <? res, s)
  else Ok (false, s).

(** The ChannelBind request before it is finished. *)
Definition channel_bind_request s (channel : Z) (peer : NiceAddress) : res (bool * StunMessage * UdpTurnPriv B) :=
  let channel_attr := u32 (Z.shiftl channel 16) in
  '(ok, msg, s) ← init_request s zeroed_buffer STUN_CHANNELBIND;
  st ← step_append (fun m => stun_message_append32 m STUN_ATTRIBUTE_CHANNEL_NUMBER channel_attr) (ok, msg);
  st ← step_append (fun m => stun_message_append_xor_addr m STUN_ATTRIBUTE_PEER_ADDRESS (peer_sockaddr peer)
                               sizeof_sockaddr_storage) st;
  '(ok, msg) ←
    (match ut_cached_realm s, ut_cached_nonce s with
     | Some realm, Some nonce =>
         if (0 <? zlen (ut_username s)) && (0 <? ut_cached_realm_len s) && (0 <? ut_cached_nonce_len s) then
           st ← step_append (fun m => stun_message_append_bytes m STUN_ATTRIBUTE_USERNAME (ut_username s)) st;
           st ← step_append (fun m => stun_message_append_bytes m STUN_ATTRIBUTE_REALM realm) st;
           step_append (fun m => stun_message_append_bytes m STUN_ATTRIBUTE_NONCE nonce) st
         else Ok st
     | _, _ => Ok st
     end);
  Ok (ok, msg, s).

Definition priv_send_channel_bind s (channel : Z) (peer : NiceAddress) : res (bool * UdpTurnPriv B) :=
  '(ok, msg, s) ← channel_bind_request s channel peer;
  if negb ok then Ok (false, s)
  else
    '(stun_len, ag, msg) ← stun_agent_finish_message (ut_agent s) msg (ut_password s);
    let s := s <| ut_agent := ag |> in
    if 0 <? stun_len then s ← priv_send_turn_message s msg; Ok (true, s)
    else Ok (false, s).

(** The search for a channel number: on a match the loop continues behind the
    first link of the list, with the next number.  [links] are the links from
    the current one on. *)
Fixpoint channel_loop (fuel : nat) (channels links : list ChannelBinding) (channel : Z) : res Z :=
  match links with
  | [] => Ok channel
  | b :: rest =>
      match fuel with
      | O => Fault OutOfFuel
      | S fuel =>
          if channel =? cb_channel b then channel_loop fuel channels (tail channels) (u16 (channel + 1))
          else channel_loop fuel channels rest channel
      end
  end.

Definition channel_fuel (channels : list ChannelBinding) : nat := (length channels + 1) * (length channels + 1).

(** The SET-ACTIVE-DESTINATION request of MSN and OC2007. *)
Definition send_set_active_dst s (peer : NiceAddress) : res (bool * UdpTurnPriv B) :=
  '(ok, msg, s) ← init_request s zeroed_buffer STUN_OLD_SET_ACTIVE_DST;
  st ← step_append (fun m => stun_message_append32 m STUN_ATTRIBUTE_MAGIC_COOKIE TURN_MAGIC_COOKIE) (ok, msg);
  '(ok, msg) ← skip_append (0 <? zlen (ut_username s))
     (fun m => stun_message_append_bytes m STUN_ATTRIBUTE_USERNAME (ut_username s)) st;
  if negb ok then Ok (false, s)
  else
    '(msg, s) ←
      (match ut_compatibility s with
       | NICE_TURN_SOCKET_COMPATIBILITY_OC2007 =>
           '(msg, s) ← (if ut_ms_connection_id_valid s then
                          let num := u32 (ut_ms_sequence_num s + 1) in
                          '(_, msg) ← stun_message_append_ms_connection_id msg (ut_ms_connection_id s) num;
                          Ok (msg, s <| ut_ms_sequence_num := num |>)
                        else Ok (msg, s));
           msg ← stun_message_ensure_ms_realm msg (ut_ms_realm s);
           Ok (msg, s)
       | _ => Ok (msg, s)
       end);
    '(ret, msg) ← stun_message_append_addr msg STUN_ATTRIBUTE_DESTINATION_ADDRESS (peer_sockaddr peer) sizeof_sockaddr_storage;
    if negb (is_success ret) then Ok (false, s)
    else
      '(stun_len, ag, msg) ← stun_agent_finish_message (ut_agent s) msg (ut_password s);
      let s := s <| ut_agent := ag |> in
      if 0 <? stun_len then
        s ← priv_send_turn_message (s <| ut_current_binding := Some (mkBinding peer 0 false None) |>) msg;
        Ok (true, s)
      else Ok (false, s).

Definition priv_add_channel_binding s (peer : NiceAddress) : res (bool * UdpTurnPriv B) :=
  match ut_current_binding s with
  | Some _ => Ok (false, s <| ut_pending_bindings := ut_pending_bindings s ++ [peer] |>)
  | None =>
      match ut_compatibility s with
      | NICE_TURN_SOCKET_COMPATIBILITY_DRAFT9 | NICE_TURN_SOCKET_COMPATIBILITY_RFC5766 =>
          channel ← channel_loop (channel_fuel (ut_channels s)) (ut_channels s) (ut_channels s) 0x4000;
          if (0x4000 <=? channel) && (channel <? 0xffff) then
            '(ret, s) ← priv_send_channel_bind s channel peer;
            Ok (ret, if ret : bool then s <| ut_current_binding := Some (mkBinding peer channel false None) |> else s)
          else Ok (false, s)
      | NICE_TURN_SOCKET_COMPATIBILITY_MSN | NICE_TURN_SOCKET_COMPATIBILITY_OC2007 => send_set_active_dst s peer
      | NICE_TURN_SOCKET_COMPATIBILITY_GOOGLE =>
          Ok (true, s <| ut_current_binding := Some (mkBinding peer 0 false None) |>)
      end
  end.

(** [while (priv->pending_bindings != NULL && ret == FALSE)]; [out] is the
    answer when the fuel is used up. *)
Fixpoint pending_bindings_loop (out : res (UdpTurnPriv B)) (fuel : nat) s (ret : bool) : res (UdpTurnPriv B) :=
  if ret then Ok s
  else
    match ut_pending_bindings s with
    | [] => Ok s
    | peer :: _ =>
        match fuel with
        | O => out
        | S fuel =>
            '(ret, s) ← priv_add_channel_binding s peer;
            pending_bindings_loop out fuel (s <| ut_pending_bindings := tail (ut_pending_bindings s) |>) ret
        end
    end.

Definition priv_process_pending_bindings s : res (UdpTurnPriv B) :=
  s ← pending_bindings_loop (Fault OutOfFuel) (length (ut_pending_bindings s)) s false;
  match ut_pending_bindings s, ut_current_binding_msg s with
  | [], None =>
      match List.find cb_renew (ut_channels s) with
      | Some b => '(_, s) ← priv_send_channel_bind s (cb_channel b) (cb_peer b); Ok s
      | None => Ok s
      end
  | _, _ => Ok s
  end.

Definition priv_retransmissions_tick_unlocked s : res (bool * UdpTurnPriv B) :=
  match ut_current_binding_msg s with
  | None => Ok (false, s)
  | Some m =>
      '(r, timer) ← stun_timer_refresh (ut_now s) (tmg_timer m);
      let s := s <| ut_current_binding_msg := Some (mkTURNMessage (tmg_message m) timer) |> in
      '(ret, s) ←
        (match r with
         | STUN_USAGE_TIMER_RETURN_TIMEOUT =>
             id ← stun_message_id (tmg_message m);
             let s := s <| ut_agent := snd (stun_agent_forget_transaction (ut_agent s) id) |>
                        <| ut_current_binding := None |> <| ut_current_binding_msg := None |> in
             s ← priv_process_pending_bindings s;
             Ok (false, s)
         | STUN_USAGE_TIMER_RETURN_RETRANSMIT =>
             stun_len ← stun_message_length (tmg_message m);
             '(_, s) ← _socket_send_wrapped s (ut_server_addr s) stun_len (buffer (tmg_message m)) false;
             Ok (true, s)
         | STUN_USAGE_TIMER_RETURN_SUCCESS => Ok (true, s)
         end);
      if ret : bool then s ← schedule_tick s; Ok (ret, s) else Ok (ret, s)
  end.

(** The pending permission at position [k]. *)
Definition priv_retransmissions_create_permission_tick_unlocked s (k : nat) : res (bool * UdpTurnPriv B) :=
  match ut_pending_permissions s !! k with
  | None => Fault OutOfBounds
  | Some m =>
      '(r, timer) ← stun_timer_refresh (ut_now s) (tmg_timer m);
      let s := s <| ut_pending_permissions := <[k := mkTURNMessage (tmg_message m) timer]> (ut_pending_permissions s) |> in
      match r with
      | STUN_USAGE_TIMER_RETURN_TIMEOUT =>
          id ← stun_message_id (tmg_message m);
          let s := s <| ut_agent := snd (stun_agent_forget_transaction (ut_agent s) id) |> in
          to ← peer_of_request (tmg_message m);
          let s := priv_remove_sent_permission_for_peer s to in
          let s := s <| ut_pending_permissions := delete k (ut_pending_permissions s) |> in
          let s := priv_add_permission_for_peer s to in
          s ← socket_dequeue_all_data s to;
          Ok (false, s)
      | STUN_USAGE_TIMER_RETURN_RETRANSMIT =>
          stun_len ← stun_message_length (tmg_message m);
          '(_, s) ← _socket_send_wrapped s (ut_server_addr s) stun_len (buffer (tmg_message m)) false;
          Ok (true, s)
      | STUN_USAGE_TIMER_RETURN_SUCCESS => Ok (true, s)
      end
  end.

(** The loop over the pending permissions: the links before position [k] are
    done; after a callback the link at [k] is looked at again.  [out] is the
    answer when the fuel is used up. *)
Fixpoint pending_permissions_loop (out : res (Z * UdpTurnPriv B)) (fuel : nat) s (k : nat) (min_timeout : Z)
    : res (Z * UdpTurnPriv B) :=
  match ut_pending_permissions s !! k with
  | None => Ok (min_timeout, s)
  | Some m =>
      match fuel with
      | O => out
      | S fuel =>
          let timeout := stun_timer_remainder (ut_now s) (tmg_timer m) in
          if 0 <? timeout then pending_permissions_loop out fuel s (k + 1)%nat (Z.min min_timeout timeout)
          else
            '(_, s) ← priv_retransmissions_create_permission_tick_unlocked s k;
            pending_permissions_loop out fuel s k min_timeout
      end
  end.

Definition schedule_channel_bind s : res (UdpTurnPriv B) :=
  let s := (destroy_if_set s (ut_tick_source_channel_bind s)) <| ut_tick_source_channel_bind := None |> in
  match ut_current_binding_msg s with
  | None => Ok s
  | Some m =>
      let timeout := stun_timer_remainder (ut_now s) (tmg_timer m) in
      if 0 <? timeout then
        let '(id, s) := priv_timeout_add_with_context s timeout PrivRetransmissionsTick in
        Ok (s <| ut_tick_source_channel_bind := Some id |>)
      else '(_, s) ← priv_retransmissions_tick_unlocked s; Ok s
  end.

Definition schedule_create_permission s : res (UdpTurnPriv B) :=
  let s := (destroy_if_set s (ut_tick_source_create_permission s)) <| ut_tick_source_create_permission := None |> in
  '(min_timeout, s) ← pending_permissions_loop (Fault OutOfFuel) (2 * length (ut_pending_permissions s)) s 0 G_MAXUINT;
  if negb (min_timeout =? G_MAXUINT) then
    let '(id, s) := priv_timeout_add_with_context s min_timeout PrivRetransmissionsCreatePermissionTick in
    Ok (s <| ut_tick_source_create_permission := Some id |>)
  else Ok s.

(** One call of [priv_schedule_tick]. *)
Definition schedule_tick_step s : res (UdpTurnPriv B) :=
  s ← schedule_channel_bind s; schedule_create_permission s.
End tick.

(** The recursion is at most two deep: a timer that was just started or
    refreshed does not expire at once (theorem turn_tick_terminates). *)
Fixpoint priv_schedule_tick (depth : nat) : ScheduleTick B := fun s =>
  match depth with
  | O => Fault OutOfFuel
  | S depth => schedule_tick_step (Tick := priv_schedule_tick depth) s
  end.

Definition TICK_DEPTH : nat := 2.
End turn.
