(* ===== verification/TurnEvents.v ===== *)
(** * The TURN socket (socket/udp-turn.c): operations

    Creation and destruction, sending, the timer callbacks, and the parsing
    of what the server sends.  The state and the requests are in TurnSocket. *)
From stdpp Require Import gmap.
From S2P Require Import Prelude CMem StunTypes StunMessage StunCrc32 StunAgent StunTimer StunIce StunTurn Address Candidate IceTypes IceEnv CheckTick IoMessage NiceSock TurnTcp TurnSocket.
Local Open Scope Z_scope.

Section turn.
Context {B : Type} {NS : NiceSocket B} {M : GMalloc} {CL : CryptoLib} {R : TurnRandom} (package_string : list Z).
Implicit Types s : UdpTurnPriv B.

#[local] Instance tick : ScheduleTick B := priv_schedule_tick package_string TICK_DEPTH.

(** ** Creation *)

(** The agent and its flags; [zero_stun_agent] is the zeroed structure. *)
Definition udp_turn_stun_agent (zero_stun_agent : StunAgent) (compatibility : NiceTurnSocketCompatibility) : StunAgent :=
  match compatibility with
  | NICE_TURN_SOCKET_COMPATIBILITY_DRAFT9 | NICE_TURN_SOCKET_COMPATIBILITY_RFC5766 =>
      stun_agent_init zero_stun_agent STUN_ALL_KNOWN_ATTRIBUTES STUN_COMPATIBILITY_RFC5389
        STUN_AGENT_USAGE_LONG_TERM_CREDENTIALS
  | NICE_TURN_SOCKET_COMPATIBILITY_MSN =>
      stun_agent_init zero_stun_agent STUN_ALL_KNOWN_ATTRIBUTES STUN_COMPATIBILITY_RFC3489
        (Z.lor STUN_AGENT_USAGE_SHORT_TERM_CREDENTIALS STUN_AGENT_USAGE_NO_INDICATION_AUTH)
  | NICE_TURN_SOCKET_COMPATIBILITY_GOOGLE =>
      stun_agent_init zero_stun_agent STUN_ALL_KNOWN_ATTRIBUTES STUN_COMPATIBILITY_RFC3489
        (Z.lor STUN_AGENT_USAGE_SHORT_TERM_CREDENTIALS STUN_AGENT_USAGE_IGNORE_CREDENTIALS)
  | NICE_TURN_SOCKET_COMPATIBILITY_OC2007 =>
      stun_agent_init zero_stun_agent STUN_ALL_KNOWN_ATTRIBUTES STUN_COMPATIBILITY_OC2007
        (Z.lor STUN_AGENT_USAGE_LONG_TERM_CREDENTIALS STUN_AGENT_USAGE_NO_ALIGNED_ATTRIBUTES)
  end.

Definition zero_saved_id : StunAgentSavedIds := mkSavedId (replicate 16 0) 0 None (replicate 16 0) false false.
Definition zero_stun_agent : StunAgent :=
  mkAgent (mkAgentInfo STUN_COMPATIBILITY_RFC3489 0)
    (replicate (Z.to_nat STUN_AGENT_MAX_SAVED_IDS) zero_saved_id) [] None false.

Definition nice_udp_turn_socket_new {B64 : Base64} (base_socket : B) (base_is_udp_bsd : bool)
    (server_addr : NiceAddress) (username password : list Z) (compatibility : NiceTurnSocketCompatibility)
    (now : timeval) : UdpTurnPriv B :=
  let '(user, pass) :=
    match compatibility with
    | NICE_TURN_SOCKET_COMPATIBILITY_MSN | NICE_TURN_SOCKET_COMPATIBILITY_OC2007 =>
        (g_base64_decode username, Some (g_base64_decode password))
    | NICE_TURN_SOCKET_COMPATIBILITY_GOOGLE => (username, None)
    | _ => (username, Some password)
    end in
  mkUdpTurn B (udp_turn_stun_agent zero_stun_agent compatibility) [] [] None None [] None None base_socket base_is_udp_bsd
    server_addr user pass compatibility [] (replicate (Z.to_nat (STUN_MAX_MS_REALM_LEN + 1)) 0) (replicate 20 0) 0 false
    [] [] [] None None 0 None 0 None nice_address_init (g_malloc STUN_MAX_MESSAGE_SIZE) [] 0 now 0.

(** ** Destruction: the sources it destroys, in order *)

Definition socket_close s : UdpTurnPriv B :=
  let s := fold_left (fun s b => destroy_if_set s (cb_timeout_source b)) (ut_channels s) s in
  let s := (destroy_if_set s (ut_tick_source_channel_bind s)) <| ut_tick_source_channel_bind := None |> in
  let s := (destroy_if_set s (ut_tick_source_create_permission s)) <| ut_tick_source_create_permission := None |> in
  let s := fold_left send_request_free (ut_send_requests s) s in
  let s := priv_clear_permissions s in
  (destroy_if_set s (ut_permission_timeout_source s)) <| ut_permission_timeout_source := None |>.

(** ** Sending *)

(** The loop that copies the vectors behind the header of channel data. *)
Fixpoint channel_data_loop (n_buffers j : Z) (bufs : list GVector) (message_len message_offset : Z) (buf : list Z) : res (list Z) :=
  more ← has_vector n_buffers j bufs;
  if more : bool then
    match bufs with
    | [] => Fault OutOfBounds
    | v :: rest =>
        let out_len := Z.min (message_len - message_offset) (gv_size v) in
        data ← vector_read v 0 out_len;
        buf ← wr_bytes buf (4 + message_offset) data;
        channel_data_loop n_buffers (j + 1) rest message_len (message_offset + out_len) buf
    end
  else Ok buf.

(** The message over a channel: its length, or [None] when it does not fit. *)
Definition channel_data s (channel : Z) (message : NiceOutputMessage) : res (option Z * UdpTurnPriv B) :=
  message_len ← output_message_get_size message;
  if message_len + 4 <=? STUN_MAX_MESSAGE_SIZE then
    buf ← wr_bytes (ut_send_buffer s) 0 (le_bytes 2 (htons channel));
    buf ← wr_bytes buf 2 (le_bytes 2 (htons (u16 message_len)));
    buf ← channel_data_loop (om_n_buffers message) 0 (om_buffers message) message_len 0 buf;
    Ok (Some (message_len + 4), s <| ut_send_buffer := buf |>)
  else Ok (None, s).

(** The Send indication or request before the data is appended. *)
Definition init_send s (to : NiceAddress) : res (bool * StunMessage * UdpTurnPriv B) :=
  if modern (ut_compatibility s) then
    '(ok, msg) ← stun_agent_init_indication (turn_make_transid (ut_transactions s)) (ut_agent s) zero_message
       (ut_send_buffer s) STUN_MAX_MESSAGE_SIZE STUN_IND_SEND;
    let s := s <| ut_transactions := ut_transactions s + 1 |> in
    '(ok, msg) ← step_append (fun m => stun_message_append_xor_addr m STUN_ATTRIBUTE_PEER_ADDRESS (peer_sockaddr to)
                                sizeof_sockaddr_storage) (ok, msg);
    Ok (ok, msg, s)
  else
    '(ok, msg, s) ← init_request package_string s (ut_send_buffer s) STUN_SEND;
    st ← step_append (fun m => stun_message_append32 m STUN_ATTRIBUTE_MAGIC_COOKIE TURN_MAGIC_COOKIE) (ok, msg);
    st ← skip_append (0 <? zlen (ut_username s))
           (fun m => stun_message_append_bytes m STUN_ATTRIBUTE_USERNAME (ut_username s)) st;
    st ← step_append (fun m => stun_message_append_addr m STUN_ATTRIBUTE_DESTINATION_ADDRESS (peer_sockaddr to)
                                 sizeof_sockaddr_storage) st;
    '(ok, msg) ←
      (match ut_compatibility s, ut_current_binding s with
       | NICE_TURN_SOCKET_COMPATIBILITY_GOOGLE, Some b =>
           skip_append (nice_address_equal (cb_peer b) to) (fun m => stun_message_append32 m STUN_ATTRIBUTE_OPTIONS 1) st
       | _, _ => Ok st
       end);
    Ok (ok, msg, s).

Definition oc2007_attributes s (ok : bool) (msg : StunMessage) : res (bool * StunMessage * UdpTurnPriv B) :=
  match ut_compatibility s with
  | NICE_TURN_SOCKET_COMPATIBILITY_OC2007 =>
      '(ok, msg) ← step_append (fun m => stun_message_append32 m STUN_ATTRIBUTE_MS_VERSION 1) (ok, msg);
      if negb ok then Ok (false, msg, s)
      else
        '(ok, msg, s) ←
          (if ut_ms_connection_id_valid s then
             let num := u32 (ut_ms_sequence_num s + 1) in
             '(ret, msg) ← stun_message_append_ms_connection_id msg (ut_ms_connection_id s) num;
             Ok (is_success ret, msg, s <| ut_ms_sequence_num := num |>)
           else Ok (true, msg, s));
        if negb ok then Ok (false, msg, s)
        else msg ← stun_message_ensure_ms_realm msg (ut_ms_realm s); Ok (true, msg, s)
  | _ => Ok (ok, msg, s)
  end.

(** The wrapped message: its length, or [None] for an error. *)
Definition wrap_message s (to : NiceAddress) (message : NiceOutputMessage) : res (option Z * UdpTurnPriv B) :=
  '(ok, msg, s) ← init_send s to;
  '(ok, msg, s) ← (if ok : bool then oc2007_attributes s ok msg else Ok (ok, msg, s));
  let s := s <| ut_send_buffer := buffer msg |> in
  if negb ok then Ok (None, s)
  else
    '(compacted_buf, _) ← compact_output_message message;
    '(ret, msg) ← stun_message_append_bytes msg STUN_ATTRIBUTE_DATA compacted_buf;
    let s := s <| ut_send_buffer := buffer msg |> in
    if negb (is_success ret) then Ok (None, s)
    else
      '(msg_len, ag, msg) ← stun_agent_finish_message (ut_agent s) msg (ut_password s);
      let s := s <| ut_agent := ag |> <| ut_send_buffer := buffer msg |> in
      c ← stun_message_get_class msg;
      if (0 <? msg_len) && bool_decide (c = STUN_REQUEST) &&
         negb (bool_decide (ut_compatibility s = NICE_TURN_SOCKET_COMPATIBILITY_OC2007)) then
        id ← stun_message_id msg;
        let '(source, s) := priv_timeout_add_with_context s STUN_END_TIMEOUT PrivForgetSendRequestTimeout in
        Ok (Some msg_len, s <| ut_send_requests := ut_send_requests s ++ [mkSendRequest id source] |>)
      else Ok (Some msg_len, s).

(** [msg_len] bytes of the send buffer are ready. *)
Definition send_wrapped s (to : NiceAddress) (message : NiceOutputMessage) (msg_len : Z) (reliable : bool)
    : res (Z * UdpTurnPriv B) :=
  if 0 <? msg_len then
    if bool_decide (ut_compatibility s = NICE_TURN_SOCKET_COMPATIBILITY_RFC5766) && negb (priv_has_permission_for_peer s to) then
      '(ok, s) ← (if negb (priv_has_sent_permission_for_peer s to) then priv_send_create_permission package_string s to
                  else Ok (true, s));
      if negb ok then Ok (-1, s)
      else s ← socket_enqueue_data s to msg_len (ut_send_buffer s) reliable; Ok (msg_len, s)
    else
      '(ret, s) ← _socket_send_messages_wrapped s (ut_server_addr s) (mkOutput [mkVector (Some (ut_send_buffer s)) msg_len] 1) reliable;
      Ok (if ret =? 1 then msg_len else ret, s)
  else
    '(ret, s) ← _socket_send_messages_wrapped s to message reliable;
    ret ← (if ret =? 1 then output_message_get_size message else Ok ret);
    Ok (ret, s).

Definition socket_send_message s (to : NiceAddress) (message : NiceOutputMessage) (reliable : bool)
    : res (Z * UdpTurnPriv B) :=
  match List.find (fun b => nice_address_equal (cb_peer b) to) (ut_channels s) with
  | Some binding =>
      if modern (ut_compatibility s) then
        '(len, s) ← channel_data s (cb_channel binding) message;
        match len with
        | None => Ok (-1, s)
        | Some msg_len => send_wrapped s to message msg_len reliable
        end
      else
        '(ret, s) ← _socket_send_messages_wrapped s (ut_server_addr s) message reliable;
        ret ← (if ret =? 1 then output_message_get_size message else Ok ret);
        Ok (ret, s)
  | None =>
      '(len, s) ← wrap_message s to message;
      match len with
      | None => Ok (-1, s)
      | Some msg_len => send_wrapped s to message msg_len reliable
      end
  end.

Fixpoint turn_send_loop s (to : NiceAddress) (i : Z) (messages : list NiceOutputMessage) : res (Z * UdpTurnPriv B) :=
  match messages with
  | [] => Ok (i, s)
  | message :: rest =>
      '(len, s) ← socket_send_message s to message false;
      if len <? 0 then Ok (if 0 <? i then i else len, s)
      else if len =? 0 then Ok (i, s)
      else turn_send_loop s to (i + 1) rest
  end.

Fixpoint turn_send_reliable_loop s (to : NiceAddress) (i : Z) (messages : list NiceOutputMessage) : res (Z * UdpTurnPriv B) :=
  match messages with
  | [] => Ok (i, s)
  | message :: rest =>
      '(len, s) ← socket_send_message s to message true;
      if len <? 0 then Ok (len, s)
      else if len =? 0 then Ok (i, s)
      else turn_send_reliable_loop s to (i + 1) rest
  end.

(** The address is a pointer the code follows. *)
Definition the_address (to : option NiceAddress) : res NiceAddress :=
  match to with Some to => Ok to | None => Fault OutOfBounds end.

Definition turn_send_messages s (to : option NiceAddress) (messages : list NiceOutputMessage) : res (Z * UdpTurnPriv B) :=
  match messages with
  | [] => Ok (0, s)
  | _ => to ← the_address to; turn_send_loop s to 0 messages
  end.

Definition turn_send_messages_reliable s (to : option NiceAddress) (messages : list NiceOutputMessage) : res (Z * UdpTurnPriv B) :=
  if ut_base_is_udp_bsd s then Ok (-1, s)
  else match messages with
       | [] => Ok (0, s)
       | _ => to ← the_address to; turn_send_reliable_loop s to 0 messages
       end.

Definition turn_is_reliable s : bool := base_is_reliable s.
Definition turn_can_send s (addr : option NiceAddress) : bool := nice_socket_can_send (ut_base_socket s) addr.
Definition turn_set_writable_callback s (callback : bool) : UdpTurnPriv B :=
  s <| ut_base_socket := nice_socket_set_writable_callback (ut_base_socket s) callback |>.

(** ** Timer callbacks

    Each gets the source that runs it and returns whether that source stays. *)

Definition priv_forget_send_request_timeout s (source : Z) : res (bool * UdpTurnPriv B) :=
  match List.find (fun r => sr_source r =? source) (ut_send_requests s) with
  | Some req => Ok (false, remove_request s req)
  | None => Fault OutOfBounds
  end.

Definition priv_permission_timeout s : res (bool * UdpTurnPriv B) := Ok (true, priv_clear_permissions s).

(** The variable [source] is NULL when the loop compares with it. *)
Definition priv_binding_expired_timeout s : res (bool * UdpTurnPriv B) :=
  match list_find (fun b => cb_timeout_source b = None) (ut_channels s) with
  | None => Ok (false, s)
  | Some (k, b) =>
      let s := s <| ut_channels := delete k (ut_channels s) |> in
      refreshed ← (match ut_current_binding_msg s, ut_current_binding s with
                   | Some m, None => to ← peer_of_request (tmg_message m); Ok (nice_address_equal (cb_peer b) to)
                   | _, _ => Ok false
                   end);
      if refreshed : bool then Ok (false, s <| ut_current_binding := Some b |>)
      else '(_, s) ← priv_add_channel_binding package_string s (cb_peer b); Ok (false, s)
  end.

Definition priv_binding_timeout s (source : Z) : res (bool * UdpTurnPriv B) :=
  match list_find (fun b => cb_timeout_source b = Some source) (ut_channels s) with
  | None => Ok (false, s)
  | Some (k, b) =>
      let s := g_source_destroy s source in
      let '(id, s) := priv_timeout_add_seconds_with_context s STUN_EXPIRE_TIMEOUT PrivBindingExpiredTimeout in
      let s := s <| ut_channels := <[k := mkBinding (cb_peer b) (cb_channel b) true (Some id)]> (ut_channels s) |> in
      match ut_current_binding_msg s with
      | Some _ => Ok (false, s)
      | None => '(_, s) ← priv_send_channel_bind package_string s (cb_channel b) (cb_peer b); Ok (false, s)
      end
  end.

Definition priv_retransmissions_tick s : res (bool * UdpTurnPriv B) :=
  '(ret, s) ← priv_retransmissions_tick_unlocked package_string s;
  Ok (false, if negb ret then (destroy_if_set s (ut_tick_source_channel_bind s)) <| ut_tick_source_channel_bind := None |>
             else s).

Definition priv_retransmissions_create_permission_tick s : res (bool * UdpTurnPriv B) :=
  s ← schedule_tick s; Ok (false, s).

(** The main loop runs the callback of a source and drops the source when the
    callback says so. *)
Definition dispatch s (source : GSource) : res (UdpTurnPriv B) :=
  '(stays, s) ←
    (match gs_callback source with
     | PrivForgetSendRequestTimeout => priv_forget_send_request_timeout s (gs_id source)
     | PrivPermissionTimeout => priv_permission_timeout s
     | PrivBindingExpiredTimeout => priv_binding_expired_timeout s
     | PrivBindingTimeout => priv_binding_timeout s (gs_id source)
     | PrivRetransmissionsTick => priv_retransmissions_tick s
     | PrivRetransmissionsCreatePermissionTick => priv_retransmissions_create_permission_tick s
     end);
  Ok (if stays : bool then s else g_source_destroy s (gs_id source)).

(** ** Realm, nonce and the Microsoft extensions *)

(** [g_memdup] of no bytes returns NULL. *)
Definition cached_attribute (msg : StunMessage) (type : Z) : res (option (list Z) * Z) :=
  r ← stun_message_find msg type;
  match r with
  | None => Ok (None, 0)
  | Some (ptr, len) =>
      if (0 <? len) && (len <? 764) then v ← rd_bytes (buffer msg) ptr len; Ok (Some v, len) else Ok (None, len)
  end.

Definition nice_udp_turn_socket_cache_realm_nonce s (msg : StunMessage) : res (UdpTurnPriv B) :=
  '(realm, realm_len) ← cached_attribute msg STUN_ATTRIBUTE_REALM;
  '(nonce, nonce_len) ← cached_attribute msg STUN_ATTRIBUTE_NONCE;
  Ok (s <| ut_cached_realm := realm |> <| ut_cached_realm_len := realm_len |>
        <| ut_cached_nonce := nonce |> <| ut_cached_nonce_len := nonce_len |>).

Definition nice_udp_turn_socket_set_ms_realm s (msg : StunMessage) : res (UdpTurnPriv B) :=
  r ← stun_message_find msg STUN_ATTRIBUTE_REALM;
  match r with
  | Some (ptr, alen) =>
      if alen <=? STUN_MAX_MS_REALM_LEN then
        realm ← rd_bytes (buffer msg) ptr alen;
        b ← wr_bytes (ut_ms_realm s) 0 realm;
        b ← wr b alen 0;
        Ok (s <| ut_ms_realm := b |>)
      else Ok s
  | None => Ok s
  end.

(** [ntohl ((uint32_t) *(ms_seq_num + 20))] reads one byte. *)
Definition nice_udp_turn_socket_set_ms_connection_id s (msg : StunMessage) : res (UdpTurnPriv B) :=
  r ← stun_message_find msg STUN_ATTRIBUTE_MS_SEQUENCE_NUMBER;
  match r with
  | Some (ptr, alen) =>
      if alen =? 24 then
        id ← rd_bytes (buffer msg) ptr 20;
        b ← wr_bytes (ut_ms_connection_id s) 0 id;
        x ← rd (buffer msg) (ptr + 20);
        Ok (s <| ut_ms_connection_id := b |> <| ut_ms_sequence_num := ntohl x |> <| ut_ms_connection_id_valid := true |>)
      else Ok s
  | None => Ok s
  end.

Definition nice_udp_turn_socket_set_peer s (peer : NiceAddress) : res (bool * UdpTurnPriv B) :=
  priv_add_channel_binding package_string s peer.

(** ** Messages from the server *)

(** Where the parser goes next. *)
Inductive turn_goto : Type :=
  | GotoRecv
  | GotoDone
  | GotoMsnGoogleLock
  | ReturnData (from : NiceAddress) (ptr data_len : Z).

Definition realm_of (msg : StunMessage) : res (option (list Z)) :=
  r ← stun_message_find msg STUN_ATTRIBUTE_REALM;
  match r with
  | Some (ptr, len) => v ← rd_bytes (buffer msg) ptr len; Ok (Some v)
  | None => Ok None
  end.

(** The answer asks for credentials: a stale nonce, or "unauthorized" with
    another realm than the request had. *)
Definition wants_credentials (request msg : StunMessage) : res bool :=
  sent_realm ← realm_of request;
  recv_realm ← realm_of msg;
  '(ret, code) ← stun_message_find_error msg;
  let same_realm := match sent_realm, recv_realm with
                    | Some a, Some b => (0 <? zlen b) && bool_decide (b = a)
                    | _, _ => false
                    end in
  match ret, code with
  | STUN_MESSAGE_RETURN_SUCCESS, Some code =>
      Ok ((code =? STUN_ERROR_STALE_NONCE) || ((code =? STUN_ERROR_UNAUTHORIZED) && negb same_realm))
  | _, _ => Ok false
  end.

Definition handle_send s (msg : StunMessage) : res (turn_goto * UdpTurnPriv B) :=
  c ← stun_message_get_class msg;
  match c with
  | STUN_RESPONSE =>
      msg_id ← stun_message_id msg;
      let s := match List.find (fun r => bool_decide (sr_id r = msg_id)) (ut_send_requests s) with
               | Some req => remove_request s req
               | None => s
               end in
      match ut_compatibility s with
      | NICE_TURN_SOCKET_COMPATIBILITY_GOOGLE =>
          '(ret, opts) ← stun_message_find32 msg STUN_ATTRIBUTE_OPTIONS;
          Ok (if is_success ret && flag (default 0 opts) 1 then GotoMsnGoogleLock else GotoDone, s)
      | _ => Ok (GotoDone, s)
      end
  | _ => Ok (GotoDone, s)
  end.

Definition handle_set_active_dst s (msg : StunMessage) : res (turn_goto * UdpTurnPriv B) :=
  match ut_current_binding s, ut_current_binding_msg s with
  | Some _, Some m =>
      response_id ← stun_message_id msg;
      request_id ← stun_message_id (tmg_message m);
      if bool_decide (request_id = response_id) then
        let s := s <| ut_current_binding_msg := None |> in
        c ← stun_message_get_class msg;
        match c, ut_compatibility s with
        | STUN_RESPONSE, NICE_TURN_SOCKET_COMPATIBILITY_OC2007
        | STUN_RESPONSE, NICE_TURN_SOCKET_COMPATIBILITY_MSN => Ok (GotoMsnGoogleLock, s)
        | _, _ => Ok (GotoDone, s <| ut_current_binding := None |>)
        end
      else Ok (GotoDone, s)
  | _, _ => Ok (GotoDone, s)
  end.

(** The binding a ChannelBind answer is about: the new one, or the place of
    one in the list. *)
Inductive binding_match : Type := BoundNew (b : ChannelBinding) | BoundAt (k : nat) (b : ChannelBinding) | Unbound.

Definition answered_binding s (m : TURNMessage) : res binding_match :=
  match ut_current_binding s with
  | Some b => Ok (BoundNew b)
  | None =>
      to ← peer_of_request (tmg_message m);
      Ok (match list_find (fun b => nice_address_equal (cb_peer b) to = true) (ut_channels s) with
          | Some (k, b) => BoundAt k b
          | None => Unbound
          end)
  end.

(** A granted binding: in the list, with a timer for its renewal. *)
Definition channel_bound s (binding : binding_match) : UdpTurnPriv B :=
  let s := s <| ut_current_binding_msg := None |> in
  let s := match ut_current_binding s with
           | Some b => s <| ut_channels := ut_channels s ++ [b] |>
           | None => s
           end <| ut_current_binding := None |> in
  match binding with
  | Unbound => s
  | BoundNew b =>
      let s := destroy_if_set s (cb_timeout_source b) in
      let '(id, s) := priv_timeout_add_seconds_with_context s STUN_BINDING_TIMEOUT PrivBindingTimeout in
      s <| ut_channels := <[(length (ut_channels s) - 1)%nat := mkBinding (cb_peer b) (cb_channel b) false (Some id)]> (ut_channels s) |>
  | BoundAt k b =>
      let s := destroy_if_set s (cb_timeout_source b) in
      let '(id, s) := priv_timeout_add_seconds_with_context s STUN_BINDING_TIMEOUT PrivBindingTimeout in
      s <| ut_channels := <[k := mkBinding (cb_peer b) (cb_channel b) false (Some id)]> (ut_channels s) |>
  end.

Definition handle_channel_bind s (msg : StunMessage) : res (UdpTurnPriv B) :=
  match ut_current_binding_msg s with
  | None => Ok s
  | Some m =>
      response_id ← stun_message_id msg;
      request_id ← stun_message_id (tmg_message m);
      if negb (bool_decide (request_id = response_id)) then Ok s
      else
        binding ← answered_binding s m;
        c ← stun_message_get_class msg;
        match c with
        | STUN_ERROR =>
            again ← wants_credentials (tmg_message m) msg;
            if again : bool then
              s ← nice_udp_turn_socket_cache_realm_nonce (s <| ut_current_binding_msg := None |>) msg;
              match binding with
              | BoundNew b | BoundAt _ b => '(_, s) ← priv_send_channel_bind package_string s (cb_channel b) (cb_peer b); Ok s
              | Unbound => Ok s
              end
            else
              priv_process_pending_bindings package_string
                (s <| ut_current_binding := None |> <| ut_current_binding_msg := None |>)
        | STUN_RESPONSE => priv_process_pending_bindings package_string (channel_bound s binding)
        | _ => Ok s
        end
  end.

(** The pending permission at [k] was answered. *)
Definition permission_answered s (k : nat) (m : TURNMessage) (msg : StunMessage) : res (UdpTurnPriv B) :=
  to ← peer_of_request (tmg_message m);
  c ← stun_message_get_class msg;
  again ← (match c with STUN_ERROR => wants_credentials (tmg_message m) msg | _ => Ok false end);
  if again : bool then
    s ← nice_udp_turn_socket_cache_realm_nonce
          (s <| ut_pending_permissions := delete k (ut_pending_permissions s) |>) msg;
    '(_, s) ← priv_send_create_permission package_string s to;
    Ok s
  else
    let s := priv_remove_sent_permission_for_peer s to in
    let s := priv_add_permission_for_peer s to in
    let s := match c, ut_permission_timeout_source s with
             | STUN_RESPONSE, None =>
                 let '(id, s) := priv_timeout_add_seconds_with_context s STUN_PERMISSION_TIMEOUT PrivPermissionTimeout in
                 s <| ut_permission_timeout_source := Some id |>
             | _, _ => s
             end in
    s ← socket_dequeue_all_data s to;
    Ok (s <| ut_pending_permissions := delete k (ut_pending_permissions s) |>).

Fixpoint find_pending (k : nat) (l : list TURNMessage) (response_id : list Z) : res (option (nat * TURNMessage)) :=
  match l with
  | [] => Ok None
  | m :: l =>
      request_id ← stun_message_id (tmg_message m);
      if bool_decide (request_id = response_id) then Ok (Some (k, m)) else find_pending (k + 1)%nat l response_id
  end.

Definition handle_create_permission s (msg : StunMessage) : res (UdpTurnPriv B) :=
  response_id ← stun_message_id msg;
  found ← find_pending 0 (ut_pending_permissions s) response_id;
  match found with
  | Some (k, m) => permission_answered s k m msg
  | None => Ok s
  end.

Definition handle_data_indication s (msg : StunMessage) : res (turn_goto * UdpTurnPriv B) :=
  '(ret, sa, _) ← (if modern (ut_compatibility s)
                   then stun_message_find_xor_addr msg STUN_ATTRIBUTE_REMOTE_ADDRESS (sockaddr_other 0) sizeof_sockaddr_storage
                   else stun_message_find_addr msg STUN_ATTRIBUTE_REMOTE_ADDRESS (sockaddr_other 0) sizeof_sockaddr_storage);
  if negb (is_success ret) then Ok (GotoRecv, s)
  else
    data ← stun_message_find msg STUN_ATTRIBUTE_DATA;
    match data with
    | None => Ok (GotoRecv, s)
    | Some (ptr, data_len) =>
        let from := nice_address_set_from_sockaddr nice_address_init sa in
        s ← (if bool_decide (ut_compatibility s = NICE_TURN_SOCKET_COMPATIBILITY_RFC5766) &&
                negb (priv_has_permission_for_peer s from) && negb (priv_has_sent_permission_for_peer s from)
             then '(_, s) ← priv_send_create_permission package_string s from; Ok s
             else Ok s);
        Ok (ReturnData from ptr data_len, s)
    end.

(** A message of the server that passed validation. *)
Definition handle_server_message s (msg : StunMessage) : res (turn_goto * UdpTurnPriv B) :=
  known ← (if modern (ut_compatibility s) then Ok true
           else
             '(ret, cookie) ← stun_message_find32 msg STUN_ATTRIBUTE_MAGIC_COOKIE;
             Ok (is_success ret && bool_decide (cookie = Some TURN_MAGIC_COOKIE)));
  if negb known then Ok (GotoRecv, s)
  else
    m ← stun_message_get_method msg;
    c ← stun_message_get_class msg;
    if m =? STUN_SEND then handle_send s msg
    else if m =? STUN_OLD_SET_ACTIVE_DST then handle_set_active_dst s msg
    else if m =? STUN_CHANNELBIND then s ← handle_channel_bind s msg; Ok (GotoDone, s)
    else if m =? STUN_CREATEPERMISSION then s ← handle_create_permission s msg; Ok (GotoDone, s)
    else if bool_decide (c = STUN_INDICATION) && (m =? STUN_IND_DATA) then handle_data_indication s msg
    else Ok (GotoRecv, s).

(** The label [msn_google_lock]: the current binding replaces all channels. *)
Definition msn_google_lock s : res (UdpTurnPriv B) :=
  match ut_current_binding s with
  | Some b => priv_process_pending_bindings package_string (s <| ut_channels := [b] |> <| ut_current_binding := None |>)
  | None => Ok s
  end.

(** The channel of a packet, if any: the binding and the header length. *)
Fixpoint find_channel (c : NiceTurnSocketCompatibility) (channels : list ChannelBinding) (buf : list Z) (off : Z)
    : res (option ChannelBinding) :=
  match channels with
  | [] => Ok None
  | b :: channels =>
      if modern c then
        number ← rd_u16 buf off;
        if cb_channel b =? ntohs number then Ok (Some b) else find_channel c channels buf off
      else Ok (Some b)
  end.

Record parsed : Type := mkParsed {
  pr_len : Z;
  pr_from : NiceAddress;
  pr_buf : list Z;
  pr_from_sock : bool      (** [*from_sock = sock] was executed *)
}.

(** [memmove (buf, buf + ptr, MIN (len, n))]. *)
Definition move_data (buf : list Z) (ptr len n : Z) (from : NiceAddress) (from_sock : bool) : res parsed :=
  let n := if n <? len then n else len in
  data ← rd_bytes buf ptr n;
  buf ← wr_bytes buf 0 data;
  Ok (mkParsed n from buf from_sock).

(** The label [recv]: channel data, or a packet that is not TURN's. *)
Definition parse_channel s (len : Z) (buf : list Z) (off recv_len : Z) (recv_from : NiceAddress) : res parsed :=
  binding ← find_channel (ut_compatibility s) (ut_channels s) buf off;
  match binding with
  | Some b =>
      if modern (ut_compatibility s) then
        n ← rd_u16 buf (off + 2);
        move_data buf (off + 4) len (ntohs n) (cb_peer b) true
      else move_data buf off len recv_len (cb_peer b) true
  | None => move_data buf off len recv_len recv_from false
  end.

(** Both callers parse in place: [buf] is [_recv_buf].  [from] is the
    contents of the output address. *)
Definition nice_udp_turn_socket_parse_recv s (from : NiceAddress) (len : Z) (buf : list Z) (recv_from : NiceAddress)
    (recv_len : Z) : res (parsed * UdpTurnPriv B) :=
  let '(off, recv_len) := if base_is_reliable s then (2, u64 (recv_len - 2)) else (0, recv_len) in
  '(goto, s) ←
    (if nice_address_equal (ut_server_addr s) recv_from then
       '(valid, ag, msg) ← stun_agent_validate (ut_agent s) zero_message (drop (Z.to_nat off) buf) recv_len None;
       let s := s <| ut_agent := ag |> in
       if bool_decide (valid = STUN_VALIDATION_SUCCESS) then handle_server_message s msg
       else Ok (GotoRecv, s)
     else Ok (GotoRecv, s));
  match goto with
  | GotoRecv => r ← parse_channel s len buf off recv_len recv_from; Ok (r, s)
  | GotoDone => Ok (mkParsed 0 from buf false, s)
  | GotoMsnGoogleLock => s ← msn_google_lock s; Ok (mkParsed 0 from buf false, s)
  | ReturnData from ptr data_len => r ← move_data buf (off + ptr) len data_len from true; Ok (r, s)
  end.

(** ** Receiving *)

(** One buffer, or an array of one that ends with NULL. *)
Definition single_buffer (m : NiceInputMessage) : res bool :=
  if im_n_buffers m =? 1 then Ok true
  else if im_n_buffers m =? -1 then
    match im_buffers m with
    | v :: rest =>
        match gv_buffer v with
        | None => Ok false
        | Some _ => match rest with [] => Fault OutOfBounds | w :: _ => Ok (match gv_buffer w with None => true | Some _ => false end) end
        end
    | [] => Fault OutOfBounds
    end
  else Ok false.

Definition first_buffer (m : NiceInputMessage) : res (list Z) :=
  match im_buffers m with
  | v :: _ => match gv_buffer v with Some b => Ok b | None => Fault OutOfBounds end
  | [] => Fault OutOfBounds
  end.

Definition set_first_buffer (m : NiceInputMessage) (b : list Z) : NiceInputMessage :=
  match im_buffers m with
  | v :: rest => mkInput (mkVector (Some b) (gv_size v) :: rest) (im_n_buffers m) (im_from m) (im_length m)
  | [] => m
  end.

(** Returns 0 or 1, the message and whether [*from_sock] was set. *)
Definition nice_udp_turn_socket_parse_recv_message s (message : NiceInputMessage)
    : res (Z * NiceInputMessage * bool * UdpTurnPriv B) :=
  from ← the_address (im_from message);
  single ← single_buffer message;
  if single : bool then
    buf ← first_buffer message;
    '(r, s) ← nice_udp_turn_socket_parse_recv s from (im_length message) buf from (im_length message);
    _ ← assert_ok (pr_len r <=? im_length message);
    let message := set_first_buffer message (pr_buf r) in
    let message := mkInput (im_buffers message) (im_n_buffers message) (Some (pr_from r)) (pr_len r) in
    Ok (if 0 <? pr_len r then 1 else 0, message, pr_from_sock r, s)
  else
    '(buf, buf_len) ← compact_input_message message;
    '(r, s) ← nice_udp_turn_socket_parse_recv s from buf_len buf from buf_len;
    let message := mkInput (im_buffers message) (im_n_buffers message) (Some (pr_from r)) (im_length message) in
    '(len, message) ← memcpy_buffer_to_input_message message (pr_buf r) (pr_len r);
    Ok (if 0 <? len then 1 else 0, message, pr_from_sock r, s).

(** The length of the RFC 4571 frame at the start of [b], header included. *)
Definition rfc4571_len (b : list Z) : res Z :=
  x ← rd b 0; y ← rd b 1; Ok (Z.lor (Z.shiftl x 8) y + 2).

(** Messages out of the fragment buffer: those filled, the others, and the
    rest of the buffer. *)
Fixpoint fragments_loop s (messages : list NiceInputMessage) (f_buffer : list Z)
    : res (list NiceInputMessage * list NiceInputMessage * list Z) :=
  match messages with
  | [] => Ok ([], [], f_buffer)
  | m :: rest =>
      if zlen f_buffer <? 2 then Ok ([], messages, f_buffer)
      else
        msg_len ← rfc4571_len f_buffer;
        if zlen f_buffer <? msg_len then Ok ([], messages, f_buffer)
        else
          '(_, m) ← memcpy_buffer_to_input_message m f_buffer msg_len;
          _ ← the_address (im_from m);
          let m := mkInput (im_buffers m) (im_n_buffers m) (Some (ut_from s)) (im_length m) in
          '(filled, rest, f_buffer) ← fragments_loop s rest (drop (Z.to_nat msg_len) f_buffer);
          Ok (m :: filled, rest, f_buffer)
  end.

(** The parsed data [buffer] of a reliable socket: what is returned now, and
    the fragment buffer. *)
Definition reassemble s (buffer : list Z) (parsed_len : Z) (from : NiceAddress) : res (Z * UdpTurnPriv B) :=
  msg_len ← (match ut_fragment_buffer s with
             | Some _ => Ok 0
             | None =>
                 msg_len ← rfc4571_len buffer;
                 Ok (if parsed_len <? msg_len then 0 else msg_len)
             end);
  let fragment := match ut_fragment_buffer s with
                  | Some f => Some f
                  | None => if negb (msg_len =? parsed_len) then Some [] else None
                  end in
  match fragment with
  | None => Ok (parsed_len, s <| ut_fragment_buffer := None |>)
  | Some f =>
      rest ← rd_bytes buffer msg_len (parsed_len - msg_len);
      Ok (msg_len, s <| ut_fragment_buffer := Some (f ++ rest) |> <| ut_from := from |>)
  end.

(** One received message: its new contents and whether there was an error.
    The compacted copy of a message with several buffers is split up again. *)
Definition turn_recv_message s (message : NiceInputMessage) : res (NiceInputMessage * bool * UdpTurnPriv B) :=
  single ← single_buffer message;
  '(buffer, buffer_length) ← (if single : bool then b ← first_buffer message; Ok (b, im_length message)
                              else compact_input_message message);
  recv_from ← the_address (im_from message);
  '(r, s) ← nice_udp_turn_socket_parse_recv s nice_address_init buffer_length buffer recv_from buffer_length;
  let parsed_len := s32 (pr_len r) in
  let from := if 0 <? parsed_len then pr_from r else recv_from in
  let message := if single : bool then set_first_buffer message (pr_buf r) else message in
  let message := mkInput (im_buffers message) (im_n_buffers message) (Some from) (Z.max parsed_len 0) in
  '(parsed_len, s) ← (if turn_is_reliable s && (0 <? parsed_len) then reassemble s (pr_buf r) parsed_len (pr_from r)
                      else Ok (parsed_len, s));
  let message := mkInput (im_buffers message) (im_n_buffers message) (im_from message) (Z.max parsed_len 0) in
  message ← (if (0 <? parsed_len) && negb single
             then '(_, m) ← memcpy_buffer_to_input_message message (pr_buf r) parsed_len; Ok m
             else Ok message);
  Ok (message, parsed_len <? 0, s).

(** The loop over the [n_messages] messages of the base socket. *)
Fixpoint turn_recv_loop s (i n_output_messages : Z) (messages : list NiceInputMessage)
    : res (Z * list NiceInputMessage * UdpTurnPriv B) :=
  match messages with
  | [] => Ok (n_output_messages, [], s)
  | m :: rest =>
      if im_length m =? 0 then
        '(ret, rest, s) ← turn_recv_loop s (i + 1) n_output_messages rest; Ok (ret, m :: rest, s)
      else
        '(m, error, s) ← turn_recv_message s m;
        if error : bool then Ok (if i =? 0 then -1 else n_output_messages, m :: rest, s)
        else '(ret, rest, s) ← turn_recv_loop s (i + 1) (n_output_messages + 1) rest; Ok (ret, m :: rest, s)
  end.

Definition turn_recv_messages s (recv_messages : list NiceInputMessage)
    : res (Z * list NiceInputMessage * UdpTurnPriv B) :=
  '(filled, recv_messages, s) ←
    (match ut_fragment_buffer s with
     | None => Ok ([], recv_messages, s)
     | Some f =>
         '(filled, rest, f) ← fragments_loop s recv_messages f;
         Ok (filled, rest, s <| ut_fragment_buffer := if zlen f =? 0 then None else Some f |>)
     end);
  '(n_messages, recv_messages, base) ← nice_socket_recv_messages (ut_base_socket s) recv_messages;
  let s := s <| ut_base_socket := base |> in
  if n_messages <? 0 then Ok (n_messages, filled ++ recv_messages, s)
  else
    let n := Z.to_nat n_messages in
    '(ret, received, s) ← turn_recv_loop s 0 (zlen filled) (take n recv_messages);
    Ok (ret, filled ++ received ++ drop n recv_messages, s).
End turn.

#[global] Instance udp_turn_nice_socket {B : Type} {NS : NiceSocket B} {M : GMalloc} {CL : CryptoLib} {R : TurnRandom}
    (package_string : list Z) : NiceSocket (UdpTurnPriv B) := {
  nice_socket_recv_messages := turn_recv_messages package_string;
  nice_socket_send_messages := turn_send_messages package_string;
  nice_socket_send_messages_reliable := turn_send_messages_reliable package_string;
  nice_socket_is_reliable := turn_is_reliable;
  nice_socket_can_send := turn_can_send;
  nice_socket_set_writable_callback := turn_set_writable_callback
}.
