(* ===== verification/TurnWire.v ===== *)
(** * The messages of the TURN socket on the wire

    What the requests and indications of TurnSocket and TurnEvents look like
    to a decoder, for the modern compatibilities (draft 9 and RFC 5766): a
    request names its peer, a Send indication carries the peer and the data,
    channel data carries the channel and the data. *)
From stdpp Require Import gmap.
From S2P Require Import Prelude CMem StunTypes StunMessage StunWire StunAppend StunAccess StunCrc32 StunAgent StunIntegrity StunAgentSpec StunTimer StunIce StunTurn Address Candidate IceTypes IceEnv CheckTick IoMessage NiceSock TurnTcp TurnSocket TurnEvents.
Local Open Scope Z_scope.

Definition turn_info : StunAgentInfo := mkAgentInfo STUN_COMPATIBILITY_RFC5389 STUN_AGENT_USAGE_LONG_TERM_CREDENTIALS.

(** The agent of a modern socket. *)
Definition modern_agent (a : StunAgent) : Prop := ag_info a = turn_info /\ ag_software_attribute a = None.

(** A message of such an agent, under construction. *)
Record building (m : StunMessage) (ty id : list Z) (attrs : list wattr) : Prop := {
  bd_ok : msg_ok m ty id attrs;
  bd_agent : agent m = Some turn_info;
  bd_key : key m = None;
  bd_plain : long_term_valid m = false;
  bd_size : buffer_len m = STUN_MAX_MESSAGE_SIZE
}.

Lemma spec_find_app t l k v : spec_find t l = Some v -> spec_find t (l ++ k) = Some v.
Proof. induction l as [|x l IH]; [done|]. cbn. repeat case_match; auto. Qed.

Lemma building_aligned m ty id attrs : building m ty id attrs -> no_aligned m = false.
Proof. intros [_ Ha _ _ _]. unfold no_aligned. by rewrite Ha. Qed.

Lemma building_swap m ty id attrs t : building m ty id attrs -> swap_realm_nonce m t = t.
Proof. intros [_ Ha _ _ _]. unfold swap_realm_nonce, is_oc2007. by rewrite Ha. Qed.

Lemma zlen_new_attr m ty id attrs t v : building m ty id attrs -> zlen v < 65536 ->
  zlen (enc_all [new_attr m id t v]) <= zlen v + 8.
Proof.
  intros Hb Hv. rewrite enc_all_cons, zlen_app, zlen_enc_new_attr by done. unfold attr_size, StunWire.pad_len.
  rewrite (building_aligned _ _ _ _ Hb). cbn [negb]. change (zlen (enc_all [])) with 0.
  pose proof (stun_padding_range (zlen v)). lia.
Qed.

(** ** Appending *)

Lemma append_grows m ty id attrs t v ret m' :
  building m ty id attrs -> bytes v -> zlen (enc_all attrs) + zlen v + 28 < 65536 ->
  stun_message_append_bytes m t v = Ok (ret, m') ->
  exists more, building m' ty id (attrs ++ more) /\ zlen (enc_all more) <= zlen v + 8 /\
    (is_success ret = true -> more = [new_attr m id t v]).
Proof.
  intros Hb Hv Hs. pose proof (building_aligned _ _ _ _ Hb) as Hal. zlen_pos.
  pose proof (zlen_new_attr _ _ _ _ t v Hb ltac:(lia)) as Hz. destruct Hb as [Hok Ha Hk Hp].
  assert (Hsz : attr_size m (zlen v) <= zlen v + 8).
  { unfold attr_size, StunWire.pad_len. rewrite Hal. cbn [negb]. pose proof (stun_padding_range (zlen v)). lia. }
  pose proof (append_bytes_spec m ty id attrs t v Hok Hv) as Hspec.
  destruct (buffer_len m <? _).
  - rewrite Hspec by lia. intros [= <- <-]. exists []. rewrite app_nil_r. split; [by constructor|].
    split; [change (zlen (enc_all [])) with 0; lia|done].
  - destruct Hspec as (m2 & -> & Hok2 & (E1 & E2 & E3 & E4 & E5)); [lia|]. intros [= <- <-].
    exists [new_attr m id t v]. split; [|done]. constructor; [done|congruence..].
Qed.

(** A chain of appends that started with [attrs]. *)
Definition grown (ty id : list Z) (attrs : list wattr) (ok : bool) (n : Z) (st : bool * StunMessage) : Prop :=
  (fst st = true -> ok = true) /\
  exists more, building (snd st) ty id (attrs ++ more) /\ zlen (enc_all more) <= n.

Lemma step_grows ty id attrs ok n t v st st' :
  grown ty id attrs ok n st -> bytes v -> zlen (enc_all attrs) + n + zlen v + 28 < 65536 ->
  step_append (fun m => stun_message_append_bytes m t v) st = Ok st' -> grown ty id attrs ok (n + zlen v + 8) st'.
Proof.
  intros (Hmono & more & Hb & Hn) Hv Hs. destruct st as [ok' m]. cbn [fst snd] in *. zlen_pos.
  unfold step_append. destruct ok'.
  - destruct (stun_message_append_bytes m t v) as [[ret m']|] eqn:E; [|discriminate].
    cbn [mbind res_bind]. intros [= <-].
    destruct (append_grows m ty id (attrs ++ more) t v ret m' Hb Hv) as (more' & Hb' & Hn' & _); [|done|].
    { rewrite enc_all_app, zlen_app. lia. }
    split; [intros _; by apply Hmono|]. exists (more ++ more'). cbn [snd]. rewrite app_assoc. split; [done|]. rewrite enc_all_app, zlen_app. lia.
  - intros [= <-]. split; [done|]. exists more. cbn. split; [done|]. lia.
Qed.

Lemma opt_grows ty id attrs ok n t v st st' :
  grown ty id attrs ok n st -> (forall x, v = Some x -> bytes x /\ zlen x < 764) ->
  zlen (enc_all attrs) + n + 800 < 65536 -> 0 <= n ->
  opt_append t v st = Ok st' -> grown ty id attrs ok (n + 772) st'.
Proof.
  intros Hg Hv Hs Hn. unfold opt_append. destruct v as [v|].
  - destruct (Hv v eq_refl) as [Hb Hl]. zlen_pos. intros E. pose proof (step_grows _ _ _ _ _ _ _ _ _ Hg Hb ltac:(lia) E) as Hg'.
    destruct Hg' as (? & more & ? & ?). split; [done|]. exists more. split; [done|lia].
  - intros [= <-]. destruct Hg as (? & more & ? & ?). split; [done|]. exists more. split; [done|lia].
Qed.

(** ** Finishing *)

Section finish.
Context {CL : CryptoLib}.

Lemma finish_sha1_len a m k sha : finish_sha1 a m k = Ok sha -> zlen sha = 20 /\ bytes sha.
Proof.
  unfold finish_sha1, stun_sha1. intros H. repeat case_match; inv_res; subst; (split; [apply hmac_sha1_len|apply hmac_sha1_bytes]).
Qed.

Lemma msg_ok_same m m' ty id attrs :
  msg_ok m ty id attrs -> agent m' = agent m -> buffer m' = buffer m -> buffer_len m' = buffer_len m ->
  msg_ok m' ty id attrs.
Proof.
  intros [[rest [? ? ? ? Hwf ?]] Hs Hal] Ea Eb El.
  assert (En : no_aligned m' = no_aligned m) by (unfold no_aligned; by rewrite Ea).
  split; rewrite ?El, ?Eb, ?En; try done. exists rest. constructor; rewrite ?Eb, ?En; done.
Qed.

Lemma integrity_grows a m ty id attrs k ok m' :
  building m ty id attrs -> zlen (enc_all attrs) + 60 < 65536 -> add_integrity a m k = Ok (ok, m') ->
  exists more, msg_ok m' ty id (attrs ++ more) /\ agent m' = agent m /\ zlen (enc_all more) <= 28.
Proof.
  intros Hb Hs. unfold add_integrity. rewrite (bd_plain _ _ _ _ Hb). intros H. inv_res. destruct a0 as [[skip md] m1].
  assert (Hm1 : agent m1 = agent m /\ buffer m1 = buffer m /\ buffer_len m1 = buffer_len m).
  { clear H. repeat case_match; inv_res; subst; by repeat case_match; inv_res; subst. }
  destruct Hm1 as (Ea & Eb & El). pose proof (msg_ok_same _ _ _ _ _ (bd_ok _ _ _ _ Hb) Ea Eb El) as Hok.
  assert (Hal : no_aligned m1 = false).
  { unfold no_aligned. rewrite Ea. apply (building_aligned _ _ _ _ Hb). }
  assert (Hsz : attr_size m1 20 = 24) by (unfold attr_size, StunWire.pad_len; by rewrite Hal).
  destruct skip. { inv_res. subst. exists []. rewrite app_nil_r. split; [done|]. by split; [|]. }
  inv_res. pose proof (append_spec m1 ty id attrs STUN_ATTRIBUTE_MESSAGE_INTEGRITY 20 Hok) as Hspec. zlen_pos.
  destruct (buffer_len m1 <? _).
  - rewrite Hspec in Ha0 by lia. inv_res. subst. inv_res. subst. exists []. rewrite app_nil_r. split; [done|]. by split; [|].
  - destruct Hspec as (b' & Ea' & Hsb & _ & Hv); [lia|lia|]. rewrite Ea' in Ha0. inv_res. subst. inv_res. subst.
    apply finish_sha1_len in Ha1 as [Hl Hby].
    cbn [buffer set_buffer] in Ha2. rewrite wr_bytes_Ok in Ha2 by lia. inv_res. subst.
    eexists. split; [apply (Hv a1); done|]. split; [done|].
    rewrite enc_all_cons, zlen_app, zlen_enc_new_attr, Hl, Hsz by lia. done.
Qed.

Lemma modern_flags a : modern_agent a -> is_rfc5389 a = true /\ agent_flag a STUN_AGENT_USAGE_USE_FINGERPRINT = false.
Proof. intros [Hi _]. unfold is_rfc5389, agent_flag. by rewrite Hi. Qed.

(** A finished message: nothing, or the message with an attribute or two more. *)
Lemma finish_grows a m ty id attrs k l a' m' :
  modern_agent a -> building m ty id attrs -> zlen (enc_all attrs) + 60 < 65536 ->
  stun_agent_finish_message a m k = Ok (l, a', m') ->
  modern_agent a' /\ (0 < l -> exists more, msg_ok m' ty id (attrs ++ more) /\ agent m' = Some turn_info /\
    l = 20 + zlen (enc_all (attrs ++ more)) /\ zlen (enc_all more) <= 28).
Proof.
  intros Ha Hb Hs. unfold stun_agent_finish_message. intros H. inv_res.
  case_match; [inv_res; subst; split; [done|lia]|]. inv_res. destruct a1 as [ok m1].
  assert (Hm1 : exists more, msg_ok m1 ty id (attrs ++ more) /\ agent m1 = agent m /\ zlen (enc_all more) <= 28).
  { destruct (match key m with Some _ => key m | None => k end) as [kv|].
    - eapply integrity_grows; eauto.
    - inv_res. subst. exists []. rewrite app_nil_r. split; [apply Hb|]. by split; [|]. }
  destruct Hm1 as (more & Hok & Hag & Hmore). destruct ok; cbn [negb] in H; [|inv_res; subst; split; [done|lia]].
  unfold add_fingerprint in H. destruct (modern_flags a Ha) as [Hr Hf]. rewrite Hr, Hf in H. cbn [andb negb mbind res_bind] in H.
  inv_res. split.
  - destruct a0; inv_res; subst; try done.
  - intros _. exists more. split; [by eapply msg_ok_same|].
    split; [cbn; rewrite Hag; apply Hb|]. split; [|done].
    destruct Hok as [[rest Hr1] _ _]. pose proof (repr_length Hr1) as E. unfold stun_message_length in *. cbn in Ha3, E.
    congruence.
Qed.
End finish.

(** ** New messages *)

(** The transaction id with the magic cookie in front. *)
Definition cookied (tid : list Z) : list Z := be_bytes 4 STUN_MAGIC_COOKIE ++ drop 4 tid.

Definition transid_ok (tid : list Z) : Prop := bytes tid /\ zlen tid = 16.

Lemma cookied_ok tid : transid_ok tid -> transid_ok (cookied tid) /\ cookie_id (cookied tid) = true.
Proof.
  intros [Hb Hl]. unfold cookied. split.
  - split; [|rewrite zlen_app; change (drop 4 tid) with (drop (Z.to_nat 4) tid); rewrite zlen_drop by lia; rewrite Hl; done].
    apply bytes_app. split; [apply bytes_be_bytes|]. by apply Forall_drop.
  - done.
Qed.

Lemma set_cookie_modern a m ty id :
  modern_agent a -> building m ty id [] -> transid_ok id ->
  exists m', set_cookie a m = Ok m' /\ building m' ty (cookied id) [].
Proof.
  intros Ha [[[rest [Hb Hty Hid Hl Hwf Hbs]] Hs Hal] Hag Hk Hp] [Hib Hil].
  unfold set_cookie. destruct (modern_flags a Ha) as [-> _].
  destruct id as [|i0 [|i1 [|i2 [|i3 r]]]]; try (cbv in Hil; discriminate).
  rewrite (wr_bytes_eq _ (ty ++ be_bytes 2 (zlen (enc_all []))) [i0; i1; i2; i3] (le_bytes 4 (htonl STUN_MAGIC_COOKIE)) (r ++ enc_all [] ++ rest));
    [|by rewrite Hb, <-!app_assoc|layout; zlen_norm; change (zlen (be_bytes 2 _)) with 2; lia|done].
  cbn [mbind res_bind]. eexists. split; [done|]. rewrite le_bytes_htonl. unfold cookied.
  change (drop 4 (i0 :: i1 :: i2 :: i3 :: r)) with r. set (C := be_bytes 4 STUN_MAGIC_COOKIE).
  assert (HC : zlen C = 4 /\ bytes C) by (split; [done|apply bytes_be_bytes]). destruct HC as [HC HCb]. clearbody C.
  change (i0 :: i1 :: i2 :: i3 :: r) with ([i0; i1; i2; i3] ++ r) in *. zlen_norm.
  constructor; [split|done..]; cbn [buffer set_buffer buffer_len].
  - exists rest. rewrite Hb, !bytes_app in Hbs. constructor; cbn [buffer set_buffer]; try done.
    + by rewrite <-!app_assoc.
    + zlen_norm. lia.
    + rewrite !bytes_app. tauto.
  - rewrite Hs, Hb. zlen_norm. lia.
  - exact Hal.
Qed.

Definition buffer_ok (b : list Z) : Prop := bytes b /\ zlen b = STUN_MAX_MESSAGE_SIZE.

Lemma zeroed_buffer_ok : buffer_ok zeroed_buffer.
Proof. unfold zeroed_buffer. split; [by apply bytes_replicate|]. rewrite zlen_replicate. done. Qed.

Lemma init_modern c meth tid a buf :
  modern_agent a -> buffer_ok buf -> transid_ok tid ->
  exists m, stun_message_init (mkMessage (Some (ag_info a)) buf STUN_MAX_MESSAGE_SIZE None (long_term_key zero_message) false)
              c meth tid = Ok (true, m) /\
    exists m', set_cookie a m = Ok m' /\ building m' (type_bytes c meth) (cookied tid) [].
Proof.
  intros Ha [Hb Hl] Ht. set (m0 := mkMessage _ _ _ _ _ _).
  pose proof (init_spec m0 c meth tid Hb (proj1 Ht) (proj2 Ht)) as Hi. cbn [buffer_len buffer m0] in Hi.
  destruct (Z.ltb_spec STUN_MAX_MESSAGE_SIZE 20) as [H|H]; [by exfalso; revert H|].
  destruct Hi as (m & E & Hok & (E1 & E2 & E3 & E4 & E5)); [by rewrite Hl|done|].
  exists m. split; [done|]. apply set_cookie_modern; [done| |done]. destruct Ha as [Hi _].
  constructor; [done|rewrite E1; cbn; by rewrite Hi|by rewrite E3|by rewrite E5|by rewrite E2].
Qed.

Lemma init_request_modern pk tid a buf meth :
  modern_agent a -> buffer_ok buf -> transid_ok tid ->
  exists m, stun_agent_init_request pk tid a zero_message buf STUN_MAX_MESSAGE_SIZE meth = Ok (true, m) /\
    building m (type_bytes STUN_REQUEST meth) (cookied tid) [].
Proof.
  intros Ha Hb Ht. unfold stun_agent_init_request.
  destruct (init_modern STUN_REQUEST meth tid a buf Ha Hb Ht) as (m & -> & m' & E & Hbd). cbn [mbind res_bind].
  rewrite E. cbn [mbind res_bind]. exists m'. split; [|done]. unfold add_software. destruct Ha as [Hi ->].
  unfold is_rfc5389, agent_flag. by rewrite Hi.
Qed.

Lemma init_indication_modern tid a buf meth :
  modern_agent a -> buffer_ok buf -> transid_ok tid ->
  exists m, stun_agent_init_indication tid a zero_message buf STUN_MAX_MESSAGE_SIZE meth = Ok (true, m) /\
    building m (type_bytes STUN_INDICATION meth) (cookied tid) [].
Proof.
  intros Ha Hb Ht. unfold stun_agent_init_indication.
  destruct (init_modern STUN_INDICATION meth tid a buf Ha Hb Ht) as (m & -> & m' & E & Hbd). cbn [mbind res_bind].
  rewrite E. by exists m'.
Qed.

(** ** The peer in a message *)

Definition xor_peer (id : list Z) (p : NiceAddress) : list Z := addr_bytes (mask_addr id STUN_MAGIC_COOKIE p).

Lemma xor_peer_ok id p : transid_ok id -> wf_sockaddr p ->
  bytes (xor_peer id p) /\ zlen (xor_peer id p) mod 4 = 0 /\ 8 <= zlen (xor_peer id p) <= 20.
Proof. intros [Hb Hl] Hp. apply addr_bytes_spec. by apply wf_mask_addr. Qed.

Lemma peer_sockaddr_wf p : wf_sockaddr p -> peer_sockaddr p = p.
Proof. by destruct p. Qed.

Lemma sizeof_addr_storage p : sizeof_addr p <= sizeof_sockaddr_storage.
Proof. destruct p; sizes; lia. Qed.

(** Appending the peer's address to a message with few attributes. *)
Lemma append_peer m ty id attrs p ret m' :
  building m ty id attrs -> transid_ok id -> wf_sockaddr p -> zlen (enc_all attrs) < 100 ->
  stun_message_append_xor_addr m STUN_ATTRIBUTE_XOR_PEER_ADDRESS p sizeof_sockaddr_storage = Ok (ret, m') ->
  exists more, building m' ty id (attrs ++ more) /\ zlen (enc_all more) <= 28 /\
    (is_success ret = true -> more = [new_attr m id STUN_ATTRIBUTE_XOR_PEER_ADDRESS (xor_peer id p)]).
Proof.
  intros Hb Hid Hp Hs E. destruct (xor_peer_ok id p Hid Hp) as (Hbv & _ & Hlv).
  assert (E' : stun_message_append_xor_addr_full m STUN_ATTRIBUTE_XOR_PEER_ADDRESS p sizeof_sockaddr_storage STUN_MAGIC_COOKIE
               = Ok (ret, m')) by exact E.
  rewrite (append_xor_value _ _ _ _ _ _ _ _ (bd_ok _ _ _ _ Hb)) in E'; [|lia|done|apply sizeof_addr_storage].
  fold (xor_peer id p) in E'.
  destruct (append_grows _ _ _ _ _ _ _ _ Hb Hbv ltac:(lia) E') as (more & Hb' & Hn & Hok).
  exists more. split; [done|]. split; [lia|done].
Qed.

Lemma peer_attr m ty id attrs p : building m ty id attrs -> transid_ok id -> wf_sockaddr p ->
  let x := new_attr m id STUN_ATTRIBUTE_XOR_PEER_ADDRESS (xor_peer id p) in
  w_type x = STUN_ATTRIBUTE_XOR_PEER_ADDRESS /\ w_val x = xor_peer id p.
Proof.
  intros Hb Hid Hp. cbv zeta. rewrite w_type_new_attr, (building_swap _ _ _ _ _ Hb). split; [done|].
  apply w_val_new_attr. right. right. by apply xor_peer_ok.
Qed.

Lemma step_grown_peer m ty id attrs p st st' :
  building m ty id attrs -> transid_ok id -> wf_sockaddr p -> zlen (enc_all attrs) < 100 -> snd st = m ->
  step_append (fun m => stun_message_append_xor_addr m STUN_ATTRIBUTE_PEER_ADDRESS p sizeof_sockaddr_storage) st = Ok st' ->
  exists more, building (snd st') ty id (attrs ++ more) /\ zlen (enc_all more) <= 28 /\
    (fst st' = true -> fst st = true /\ spec_find STUN_ATTRIBUTE_XOR_PEER_ADDRESS more = Some (xor_peer id p)).
Proof.
  intros Hb Hid Hp Hs <-. destruct st as [ok m0]. cbn [fst snd] in *. unfold step_append. destruct ok.
  - intros E. inv_res. destruct a as [ret m']. inv_res. subst.
    destruct (append_peer _ _ _ _ _ _ _ Hb Hid Hp Hs Ha) as (more & Hb' & Hn & Hok). exists more. cbn [fst snd].
    split; [done|]. split; [done|]. intros Hr. split; [done|]. rewrite (Hok Hr).
    destruct (peer_attr _ _ _ _ p Hb Hid Hp) as [Ht Hv]. cbn [spec_find]. by rewrite Ht, Z.eqb_refl, Hv.
  - intros [= <-]. exists []. rewrite app_nil_r. split; [done|]. split; [done|]. discriminate.
Qed.

(** A complete message to the server with the peer's address. *)
Definition names_peer (m : StunMessage) (ty : list Z) (p : NiceAddress) : Prop :=
  exists id attrs rest, msg_repr m ty id attrs rest /\ transid_ok id /\ agent m = Some turn_info /\
    spec_find STUN_ATTRIBUTE_XOR_PEER_ADDRESS attrs = Some (xor_peer id p).

Lemma peer_of_request_names m ty p : names_peer m ty p -> wf_sockaddr p -> peer_of_request m = Ok p.
Proof.
  intros (id & attrs & rest & Hr & Hid & Ha & Hf) Hp. unfold peer_of_request.
  assert (E : stun_message_find_xor_addr m STUN_ATTRIBUTE_XOR_PEER_ADDRESS (sockaddr_other 0) sizeof_sockaddr_storage
    = stun_message_find_xor_addr_full m STUN_ATTRIBUTE_XOR_PEER_ADDRESS (sockaddr_other 0) sizeof_sockaddr_storage STUN_MAGIC_COOKIE)
    by done.
  rewrite E, (find_xor_value m ty id attrs rest _ p); [|done|apply Hid| |done|split; [apply sizeof_addr_storage|done]].
  - cbn. by destruct p.
  - unfold swap_realm_nonce, is_oc2007. rewrite Ha. exact Hf.
Qed.

(** ** The requests *)

(** A finished request of method [meth] about the peer, [l] bytes long. *)
Record request_ok (m : StunMessage) (meth : Z) (p : NiceAddress) (l : Z) : Prop := {
  rq_peer : names_peer m (type_bytes STUN_REQUEST meth) p;
  rq_length : stun_message_length m = Ok l;
  rq_fits : 0 < l <= zlen (buffer m);
  rq_type : take 2 (buffer m) = type_bytes STUN_REQUEST meth;
  rq_small : l < 65536
}.

Lemma names_found m meth id attrs more p l :
  msg_ok m (type_bytes STUN_REQUEST meth) id (attrs ++ more) -> agent m = Some turn_info -> transid_ok id ->
  spec_find STUN_ATTRIBUTE_XOR_PEER_ADDRESS attrs = Some (xor_peer id p) ->
  l = 20 + zlen (enc_all (attrs ++ more)) -> request_ok m meth p l.
Proof.
  intros [[rest Hr] _ _] Ha Hid Hf ->. pose proof (repr_length Hr) as Hl. pose proof (bytes_meta_size _ _ _ _ _ Hr). zlen_pos.
  constructor; [|done|lia| |by destruct Hr].
  - exists id, (attrs ++ more), rest. split; [done|]. split; [done|]. split; [done|]. by apply spec_find_app.
  - destruct Hr as [Hb _ _ _ _ _]. by rewrite Hb.
Qed.

Definition cached_ok (v : option (list Z)) : Prop := forall x, v = Some x -> bytes x /\ zlen x < 764.

Section requests.
Context {CL : CryptoLib} (package_string : list Z).

Lemma finish_names a m meth id attrs k pw p l a' m' :
  modern_agent a -> building m (type_bytes STUN_REQUEST meth) id (attrs ++ k) -> transid_ok id ->
  zlen (enc_all (attrs ++ k)) + 60 < 65536 ->
  spec_find STUN_ATTRIBUTE_XOR_PEER_ADDRESS attrs = Some (xor_peer id p) ->
  stun_agent_finish_message a m pw = Ok (l, a', m') ->
  modern_agent a' /\ (0 < l -> request_ok m' meth p l).
Proof.
  intros Ha Hb Hid Hs Hf E. destruct (finish_grows _ _ _ _ _ _ _ _ _ Ha Hb Hs E) as [Ha' Hfin]. split; [done|].
  intros Hpos. destruct (Hfin Hpos) as (more & Hok & Hag & Hl & _). rewrite <-app_assoc in *. by eapply names_found.
Qed.

Lemma create_permission_spec tid a u pw realm nonce p l a' m :
  modern_agent a -> transid_ok tid -> wf_sockaddr p -> bytes u -> zlen u < 764 -> cached_ok realm -> cached_ok nonce ->
  stun_usage_turn_create_permission package_string tid a zero_message zeroed_buffer STUN_MAX_MESSAGE_SIZE
    (Some u) pw realm nonce (Some (peer_sockaddr p)) = Ok (l, a', m) ->
  modern_agent a' /\ (0 < l -> request_ok m STUN_CREATEPERMISSION p l).
Proof.
  intros Ha Ht Hp Hu Hul Hre Hno. unfold stun_usage_turn_create_permission. rewrite peer_sockaddr_wf by done.
  destruct (init_request_modern package_string tid a zeroed_buffer STUN_CREATEPERMISSION Ha zeroed_buffer_ok Ht) as (m0 & -> & Hb0).
  destruct (cookied_ok tid Ht) as [Hid _]. set (id := cookied tid) in *. clearbody id. set (ty := type_bytes STUN_REQUEST STUN_CREATEPERMISSION) in *.
  cbn [mbind res_bind]. intros H. unfold step_append in H at 1.
  destruct (stun_message_append_xor_addr m0 _ p _) as [[ret m1]|] eqn:E1; [|discriminate]. cbn [mbind res_bind] in H.
  destruct (append_peer _ _ _ _ _ _ _ Hb0 Hid Hp ltac:(done) E1) as (more & Hb1 & Hn1 & Hsucc). cbn [app] in Hb1.
  pose proof (peer_attr _ _ _ _ p Hb0 Hid Hp) as [Ht1 Hv1].
  assert (Hg0 : grown ty id more (is_success ret) 0 (is_success ret, m1))
    by (split; [done|]; exists []; rewrite app_nil_r; by split; [|]).
  inv_res. assert (Hmb : 0 <= zlen (enc_all more)) by apply zlen_nonneg.
  pose proof (opt_grows _ _ _ _ _ _ _ _ _ Hg0 Hno ltac:(lia) ltac:(lia) Ha0) as Hg1.
  pose proof (opt_grows _ _ _ _ _ _ _ _ _ Hg1 Hre ltac:(lia) ltac:(lia) Ha1) as Hg2.
  assert (Hg3 : grown ty id more (is_success ret) (0 + 772 + 772 + 772) a2).
  { destruct (_ || _).
    - apply (opt_grows _ _ _ _ _ _ _ _ _ Hg2) in Ha2; [done| |lia|lia]. intros x [= <-]. done.
    - inv_res. subst. destruct Hg2 as (? & k & ? & ?). split; [done|]. exists k. split; [done|lia]. }
  unfold turn_finish in H. destruct a2 as [ok m2]. destruct Hg3 as (Hok2 & k & Hb2 & Hk). cbn [fst snd] in *.
  destruct ok; cbn [negb] in H; [|inv_res; subst; split; [done|lia]].
  eapply finish_names; try done; [rewrite enc_all_app, zlen_app; lia|].
  rewrite (Hsucc (Hok2 eq_refl)). cbn [spec_find]. by rewrite Ht1, Z.eqb_refl, Hv1.
Qed.

Class TurnRandomLaws `{TurnRandom} : Prop := turn_transid_ok n : transid_ok (turn_make_transid n).

Context {B : Type} {NS : NiceSocket B} {R : TurnRandom} {RL : TurnRandomLaws}.
Implicit Types s : UdpTurnPriv B.

(** What the socket puts into its messages. *)
Record modern_config s : Prop := {
  mc_agent : modern_agent (ut_agent s);
  mc_username : bytes (ut_username s) /\ zlen (ut_username s) < 764;
  mc_realm : cached_ok (ut_cached_realm s);
  mc_nonce : cached_ok (ut_cached_nonce s);
  mc_buffer : buffer_ok (ut_send_buffer s);
  mc_compat : modern (ut_compatibility s) = true
}.

Lemma channel_bind_request_spec s ch p ok m s' :
  modern_config s -> wf_sockaddr p -> channel_bind_request package_string s ch p = Ok (ok, m, s') ->
  s' = s <| ut_transactions := ut_transactions s + 1 |> /\
  (ok = true -> exists id attrs k, building m (type_bytes STUN_REQUEST STUN_CHANNELBIND) id (attrs ++ k) /\ transid_ok id /\
     zlen (enc_all (attrs ++ k)) + 60 < 65536 /\ spec_find STUN_ATTRIBUTE_XOR_PEER_ADDRESS attrs = Some (xor_peer id p)).
Proof.
  intros [Ha [Hu Hul] Hre Hno _ _] Hp. unfold channel_bind_request, init_request. rewrite peer_sockaddr_wf by done.
  set (tid := turn_make_transid _). assert (Ht : transid_ok tid) by apply turn_transid_ok. clearbody tid.
  destruct (init_request_modern package_string tid _ zeroed_buffer STUN_CHANNELBIND Ha zeroed_buffer_ok Ht) as (m0 & -> & Hb0).
  destruct (cookied_ok tid Ht) as [Hid _]. set (id := cookied tid) in *. clearbody id.
  set (ty := type_bytes STUN_REQUEST STUN_CHANNELBIND) in *. cbn [mbind res_bind].
  intros H. inv_res. destruct a1 as [ok' m']. inv_res. subst. split; [done|].
  unfold step_append, stun_message_append32 in Ha0. set (v := le_bytes 4 _) in Ha0.
  assert (Hv : bytes v /\ zlen v = 4) by (split; [apply bytes_le_bytes|done]). destruct Hv as [Hvb Hvl]. clearbody v.
  inv_res. destruct a1 as [ret1 m1]. inv_res. subst.
  destruct (append_grows _ _ _ _ _ _ _ _ Hb0 Hvb ltac:(rewrite Hvl; done) Ha3) as (more & Hb1 & Hn1 & Hs1). cbn [app] in Hb1.
  pose proof (step_grown_peer _ _ _ _ _ (is_success ret1, m1) _ Hb1 Hid Hp ltac:(lia) eq_refl Ha1) as (more2 & Hb2 & Hn2 & Hs2).
  set (attrs := more ++ more2) in *.
  assert (Hz : 0 <= zlen (enc_all attrs) <= 40) by (unfold attrs; rewrite enc_all_app, zlen_app; zlen_pos; lia).
  assert (Hg0 : grown ty id attrs (fst a0) 0 a0)
    by (split; [done|]; exists []; rewrite app_nil_r; by split; [|]).
  assert (Hw : forall k, grown ty id attrs (fst a0) k (true, m) -> k <= 2400 -> grown ty id attrs (fst a0) 2400 (true, m)).
  { intros n (? & k & ? & ?) ?. split; [done|]. exists k. split; [done|lia]. }
  assert (Hg : grown ty id attrs (fst a0) 2400 (true, m)).
  { destruct (ut_cached_realm _) as [realm|] eqn:Er; [|inv_res; subst; by apply (Hw 0)].
    destruct (ut_cached_nonce _) as [nonce|] eqn:En; [|inv_res; subst; by apply (Hw 0)].
    destruct (_ && _); [|inv_res; subst; by apply (Hw 0)].
    destruct (Hre _ eq_refl) as [Hrb Hrl]. destruct (Hno _ eq_refl) as [Hnb Hnl]. inv_res. zlen_pos.
    pose proof (step_grows _ _ _ _ _ _ _ _ _ Hg0 Hu ltac:(lia) Ha0) as Hg1.
    pose proof (step_grows _ _ _ _ _ _ _ _ _ Hg1 Hrb ltac:(lia) Ha4) as Hg2.
    pose proof (step_grows _ _ _ _ _ _ _ _ _ Hg2 Hnb ltac:(lia) Ha2) as Hg3. eapply Hw; [exact Hg3|]. lia. }
  destruct Hg as (Hok & k & Hb3 & Hk). cbn [fst snd] in *. exists id, attrs, k.
  split; [done|]. split; [done|]. split; [rewrite enc_all_app, zlen_app; lia|].
  destruct (Hs2 (Hok eq_refl)) as [Hs1' Hf]. unfold attrs. rewrite (Hs1 Hs1') in *. cbn [app spec_find].
  rewrite w_type_new_attr, (building_swap _ _ _ _ _ Hb0). exact Hf.
Qed.
End requests.
