(* ===== verification/TurnSound.v ===== *)
(** * The TURN socket implements the relay: state and steps

    [sound] is the invariant of a socket of RFC 5766: its requests name their
    peers, the channels are numbered from 0x4000 on, every timer of the main
    context is the one a field of the socket records.  [refines] relates the
    socket to the abstract machine [relay]: what the layer below took is
    what the machine relayed, wrapped, besides requests to the server.  The
    lemmas of this file cover the updates of TurnSocket one by one. *)
From stdpp Require Import gmap sorting.
From S2P Require Import Prelude CMem StunTypes StunMessage StunWire StunAppend StunAccess StunCrc32 StunAgent StunIntegrity StunAgentSpec StunTimer StunIce StunTurn Address Candidate IceTypes IceEnv CheckTick IoMessage NiceSock TurnTcp TurnSocket TurnEvents TurnWire.
Local Open Scope Z_scope.

(** * What the TURN socket promises: an ordered relay with permissions

    The abstract machine of the TURN socket.  A message the application hands
    over for a peer is relayed at once when the server has a permission for
    the peer, and held otherwise; a grant relays what was held, in order, and
    the permissions expire together.  What the layer below refuses is lost.
    TurnSound shows that the code of udp-turn.c implements this machine. *)

(** A payload and whether it was sent reliably. *)
Definition item : Set := bool * list Z.

Record relay : Type := mkRelay {
  rl_allowed : list NiceAddress;
  rl_held : NiceAddress -> list item;
  rl_relayed : list (NiceAddress * item)
}.

Definition fresh_relay : relay := mkRelay [] (fun _ => []) [].

Definition hold (h : NiceAddress -> list item) (p : NiceAddress) (l : list item) : NiceAddress -> list item :=
  fun q => if decide (q = p) then l else h q.

Section machine.
(** The kinds of item the layer below never refuses. *)
Variable takes : bool -> Prop.

(** A step and the item it accepts, if any. *)
Inductive relay_step (a : relay) : list (NiceAddress * item) -> relay -> Prop :=
  | relay_now p i : p ∈ rl_allowed a ->
      relay_step a [(p, i)] (mkRelay (rl_allowed a) (rl_held a) (rl_relayed a ++ [(p, i)]))
  | relay_hold p i : p ∉ rl_allowed a ->
      relay_step a [(p, i)] (mkRelay (rl_allowed a) (hold (rl_held a) p (rl_held a p ++ [i])) (rl_relayed a))
  | relay_grant p l : sublist l (rl_held a p) -> (Forall (fun i => takes (fst i)) (rl_held a p) -> l = rl_held a p) ->
      relay_step a [] (mkRelay (rl_allowed a ++ [p]) (hold (rl_held a) p []) (rl_relayed a ++ map (pair p) l))
  | relay_expire : relay_step a [] (mkRelay [] (rl_held a) (rl_relayed a)).

Inductive relay_steps (a : relay) : list (NiceAddress * item) -> relay -> Prop :=
  | relay_refl : relay_steps a [] a
  | relay_more l b k c : relay_steps a l b -> relay_step b k c -> relay_steps a (l ++ k) c.

Lemma relay_steps_one a k b : relay_step a k b -> relay_steps a k b.
Proof. intros H. by apply (relay_more a [] a k b (relay_refl a)). Qed.

Lemma relay_steps_trans a l b k c : relay_steps a l b -> relay_steps b k c -> relay_steps a (l ++ k) c.
Proof.
  intros H1 H2. induction H2 as [|k b' k' c H2 IH Hs]; [by rewrite app_nil_r|].
  rewrite app_assoc. by eapply relay_more.
Qed.

(** The items for a peer, in order. *)
Definition items_for (p : NiceAddress) (l : list (NiceAddress * item)) : list item :=
  snd <$> filter (fun x => fst x = p) l.

Lemma items_for_app p l k : items_for p (l ++ k) = items_for p l ++ items_for p k.
Proof. unfold items_for. by rewrite list.filter_app, fmap_app. Qed.

Lemma items_for_here p i : items_for p [(p, i)] = [i].
Proof. unfold items_for. by rewrite list.filter_cons_True. Qed.

Lemma items_for_other p q i : q <> p -> items_for p [(q, i)] = [].
Proof. intros. unfold items_for. by rewrite list.filter_cons_False. Qed.

Lemma items_for_all p l : items_for p (map (pair p) l) = l.
Proof. induction l as [|i l IH]; [done|]. change (map (pair p) (i :: l)) with ([(p, i)] ++ map (pair p) l). by rewrite items_for_app, items_for_here, IH. Qed.

Lemma items_for_none p q l : q <> p -> items_for p (map (pair q) l) = [].
Proof.
  intros H. induction l as [|i l IH]; [done|]. change (map (pair q) (i :: l)) with ([(q, i)] ++ map (pair q) l).
  by rewrite items_for_app, items_for_other.
Qed.

(** What the machine keeps for each peer, with the items accepted so far. *)
Definition ordered (accepted : list (NiceAddress * item)) (a : relay) (p : NiceAddress) : Prop :=
  (p ∈ rl_allowed a -> rl_held a p = []) /\
  sublist (items_for p (rl_relayed a) ++ rl_held a p) (items_for p accepted) /\
  (Forall (fun i => takes (fst i)) (items_for p accepted) ->
   items_for p (rl_relayed a) ++ rl_held a p = items_for p accepted).

Lemma ordered_fresh p : ordered [] fresh_relay p.
Proof. by split. Qed.

Lemma ordered_step acc a k b p : ordered acc a p -> relay_step a k b -> ordered (acc ++ k) b p.
Proof.
  intros (He & Hs & Hf) Hst. unfold ordered. rewrite !items_for_app. destruct Hst as [q i Hq|q i Hq|q l Hl Ht|]; cbn [rl_allowed rl_held rl_relayed].
  - split; [done|]. rewrite items_for_app. destruct (decide (q = p)) as [->|Hne].
    + rewrite items_for_here. rewrite (He Hq), app_nil_r in *. split; [by apply sublist_app|].
      intros [Hp _]%Forall_app. by rewrite (Hf Hp).
    + by rewrite items_for_other, !app_nil_r by done.
  - unfold hold. destruct (decide (p = q)) as [->|Hne].
    + rewrite items_for_here, app_assoc. split; [done|]. split; [by apply sublist_app|].
      intros [Hp _]%Forall_app. by rewrite (Hf Hp).
    + by rewrite items_for_other, app_nil_r by congruence.
  - rewrite items_for_app, app_nil_r. unfold hold. destruct (decide (p = q)) as [->|Hne].
    + rewrite items_for_all, app_nil_r. split; [done|]. split.
      * etrans; [|exact Hs]. by apply sublist_app.
      * intros Hp. rewrite <-(Hf Hp), Ht; [done|]. rewrite <-(Hf Hp) in Hp. by apply Forall_app in Hp as [_ ?].
    + rewrite items_for_none, app_nil_r by congruence. split; [|done]. intros [Hin|Hin%list_elem_of_singleton]%elem_of_app; [by apply He|done].
  - rewrite app_nil_r. split; [|done]. intros H%not_elem_of_nil. done.
Qed.

(** In every run the items relayed to a peer and those still held for it are,
    in this order, a subsequence of those accepted for it; nothing is held for
    a peer that has a permission, and nothing is lost that the layer below
    takes. *)
Lemma ordered_steps acc a k b p : ordered acc a p -> relay_steps a k b -> ordered (acc ++ k) b p.
Proof.
  intros Ho Hs. induction Hs as [|l b k c Hs IH Hst]; [by rewrite app_nil_r|]. rewrite app_assoc. by eapply ordered_step.
Qed.
End machine.

(** ** Partial correctness *)

Definition ensures {A} (x : res A) (Q : A -> Prop) : Prop := forall a, x = Ok a -> Q a.

Lemma ensures_ret {A} (a : A) Q : Q a -> ensures (Ok a) Q.
Proof. by intros H ? [= <-]. Qed.

Lemma ensures_fault {A} f (Q : A -> Prop) : ensures (Fault f) Q.
Proof. by intros ? [=]. Qed.

Lemma ensures_bind {A C} (x : res A) (f : A -> res C) Q Q' :
  ensures x Q -> (forall a, Q a -> ensures (f a) Q') -> ensures (x ≫= f) Q'.
Proof. intros Hx Hf c H. destruct x as [a|]; [|discriminate]. by apply (Hf a); [apply Hx|]. Qed.

Lemma ensures_mono {A} (x : res A) (Q Q' : A -> Prop) : ensures x Q -> (forall a, Q a -> Q' a) -> ensures x Q'.
Proof. intros H HQ a E. by apply HQ, H. Qed.

Lemma ensures_any {A} (x : res A) : ensures x (fun _ => True).
Proof. done. Qed.

Lemma ensures_eq {A} (x : res A) : ensures x (fun a => x = Ok a).
Proof. by intros a. Qed.

Lemma bind_ext {A C} (x : res A) (f g : A -> res C) Q : ensures x Q -> (forall a, Q a -> f a = g a) -> x ≫= f = x ≫= g.
Proof. intros Hx Hfg. destruct x as [a|]; [|done]. by apply Hfg, Hx. Qed.

Lemma bind_assoc {A C D} (x : res A) (f : A -> res C) (g : C -> res D) : (x ≫= f) ≫= g = x ≫= (fun a => f a ≫= g).
Proof. by destruct x. Qed.

(** ** The layer below *)

(** What one call of a send function did with the message. *)
Definition handed_over {B} (log : B -> list (NiceAddress * list Z)) (b : B) (to : NiceAddress) (m : NiceOutputMessage)
    (ret : Z) (b' : B) : Prop :=
  (ret = 1 /\ exists data, gather_loop (om_n_buffers m) 0 (om_buffers m) = Ok data /\ log b' = log b ++ [(to, data)]) \/
  (ret <= 0 /\ log b' = log b).

Definition message_bytes (m : NiceInputMessage) : Prop :=
  Forall (fun v => forall b, gv_buffer v = Some b -> bytes b) (im_buffers m).

Class RelayBase (B : Type) {NS : NiceSocket B} := {
  (** the datagrams, or frames, the socket took so far *)
  rb_log : B -> list (NiceAddress * list Z);
  rb_send b to m ret b' : nice_socket_send_messages b (Some to) [m] = Ok (ret, b') ->
    handed_over rb_log b to m ret b' /\ nice_socket_is_reliable b' = nice_socket_is_reliable b;
  rb_send_reliable b to m ret b' : nice_socket_send_messages_reliable b (Some to) [m] = Ok (ret, b') ->
    handed_over rb_log b to m ret b' /\ nice_socket_is_reliable b' = nice_socket_is_reliable b;
  rb_recv b ms ret ms' b' : nice_socket_recv_messages b ms = Ok (ret, ms', b') ->
    rb_log b' = rb_log b /\ nice_socket_is_reliable b' = nice_socket_is_reliable b /\
    (Forall message_bytes ms -> Forall message_bytes ms');
  rb_callback b c : rb_log (nice_socket_set_writable_callback b c) = rb_log b /\
    nice_socket_is_reliable (nice_socket_set_writable_callback b c) = nice_socket_is_reliable b
}.

(** The socket below never refuses a message sent this way. *)
Definition base_takes {B} {NS : NiceSocket B} (reliable : bool) : Prop :=
  forall b to m ret b',
    (if reliable then nice_socket_send_messages_reliable b (Some to) [m] else nice_socket_send_messages b (Some to) [m])
      = Ok (ret, b') -> ret = 1.

(** ** On the wire *)

(** A frame of RFC 4571 over a reliable socket. *)
Definition framed (reliable : bool) (w : list Z) : list Z := if reliable then be_bytes 2 (zlen w) ++ w else w.

(** A complete message about a peer. *)
Definition about_peer (c : StunClass) (meth : Z) (p : NiceAddress) (w : list Z) (attrs : list wattr) : Prop :=
  exists id, w = wire (type_bytes c meth) id attrs /\ transid_ok id /\
    spec_find STUN_ATTRIBUTE_XOR_PEER_ADDRESS attrs = Some (xor_peer id p).

(** [w] carries the payload to the peer: as channel data or as a Send
    indication. *)
Definition carries (channels : list ChannelBinding) (p : NiceAddress) (d w : list Z) : Prop :=
  (exists b, b ∈ channels /\ cb_peer b = p /\ w = be_bytes 2 (cb_channel b) ++ be_bytes 2 (zlen d) ++ d) \/
  (exists attrs, about_peer STUN_INDICATION STUN_IND_SEND p w attrs /\ spec_find STUN_ATTRIBUTE_DATA attrs = Some d).

(** A request to install a permission or to bind a channel. *)
Definition control (w : list Z) : Prop :=
  exists meth p attrs, (meth = STUN_CREATEPERMISSION \/ meth = STUN_CHANNELBIND) /\ wf_sockaddr p /\ about_peer STUN_REQUEST meth p w attrs.

Inductive logged (server : NiceAddress) (reliable : bool) (channels : list ChannelBinding)
    : list (NiceAddress * list Z) -> list (NiceAddress * item) -> Prop :=
  | logged_nil : logged server reliable channels [] []
  | logged_control log l w : logged server reliable channels log l -> control w ->
      logged server reliable channels (log ++ [(server, framed reliable w)]) l
  | logged_data log l p r d w : logged server reliable channels log l -> carries channels p d w ->
      logged server reliable channels (log ++ [(server, framed reliable w)]) (l ++ [(p, (r, d))]).

(** Bindings are kept; only their timers change. *)
Definition extends (channels channels' : list ChannelBinding) : Prop :=
  forall b, b ∈ channels -> exists b', b' ∈ channels' /\ cb_peer b' = cb_peer b /\ cb_channel b' = cb_channel b.

Lemma extends_refl channels : extends channels channels.
Proof. intros b Hb. by exists b. Qed.
#[global] Hint Resolve extends_refl : core.

Lemma extends_trans c1 c2 c3 : extends c1 c2 -> extends c2 c3 -> extends c1 c3.
Proof. intros H1 H2 b Hb. destruct (H1 b Hb) as (b' & Hb' & ? & ?). destruct (H2 b' Hb') as (b'' & ? & ? & ?). exists b''. split; [done|]. split; congruence. Qed.

Lemma carries_mono c c' p d w : extends c c' -> carries c p d w -> carries c' p d w.
Proof.
  intros He [(b & Hb & Hp & ->)|H]; [|by right]. left. destruct (He b Hb) as (b' & ? & Ep & Ec).
  exists b'. split; [done|]. split; congruence.
Qed.

Lemma logged_mono srv r c c' log l : extends c c' -> logged srv r c log l -> logged srv r c' log l.
Proof. intros He H. induction H; [constructor|by apply logged_control|apply logged_data; [done|by eapply carries_mono]]. Qed.

(** Queued data and the item it holds. *)
Definition carried (channels : list ChannelBinding) (p : NiceAddress) (sd : SendData) (i : item) : Prop :=
  sd_reliable sd = fst i /\ sd_data_len sd = zlen (sd_data sd) /\ 0 < sd_data_len sd < 65536 /\ carries channels p (snd i) (sd_data sd).

Lemma carried_mono c c' p sd i : extends c c' -> carried c p sd i -> carried c' p sd i.
Proof. intros He (? & ? & ? & ?). split; [done|]. split; [done|]. split; [done|]. by eapply carries_mono. Qed.

(** ** Peers *)

Lemma nice_address_equal_wf p q : wf_sockaddr p -> wf_sockaddr q -> nice_address_equal p q = bool_decide (p = q).
Proof.
  destruct p as [p x|p f x sc|], q as [q y|q g y tc|]; cbn; try done.
  - intros _ _. destruct (Z.eqb_spec x y), (Z.eqb_spec p q); cbn; symmetry; (apply bool_decide_eq_true || apply bool_decide_eq_false); congruence.
  - intros (_ & _ & _ & -> & ->) (_ & _ & _ & -> & ->). case_bool_decide; destruct (Z.eqb_spec p q); cbn; symmetry;
      (apply bool_decide_eq_true || apply bool_decide_eq_false); congruence.
Qed.

Lemma peer_in_list l p : Forall wf_sockaddr l -> wf_sockaddr p -> priv_is_peer_in_list l p = bool_decide (p ∈ l).
Proof.
  intros Hl Hp. induction Hl as [|q l Hq Hl IH]; [done|]. cbn. rewrite nice_address_equal_wf by done.
  fold (priv_is_peer_in_list l p). rewrite IH. destruct (decide (q = p)) as [->|Hne].
  - rewrite (bool_decide_eq_true_2 (p = p)) by done. cbn. symmetry. apply bool_decide_eq_true_2. constructor.
  - rewrite (bool_decide_eq_false_2 (q = p)) by done. cbn. apply bool_decide_ext. rewrite elem_of_cons.
    split; [by right|]. intros [->|]; done.
Qed.

Lemma peer_kept l p q : Forall wf_sockaddr l -> wf_sockaddr p -> q <> p -> q ∈ l -> q ∈ priv_remove_peer_from_list l p.
Proof.
  intros Hl Hp Hne Hq. destruct l as [|x l]; [done|]. cbn. apply Forall_cons in Hl as [Hx Hl].
  rewrite nice_address_equal_wf by done. apply elem_of_cons in Hq as [->|Hq].
  - rewrite bool_decide_eq_false_2 by congruence. by constructor.
  - assert (Hf : q ∈ List.filter (fun a => negb (nice_address_equal a p)) l).
    { apply list_elem_of_In, filter_In. split; [by apply list_elem_of_In|].
      rewrite nice_address_equal_wf, bool_decide_eq_false_2; try done. by eapply Forall_forall in Hl. }
    case_bool_decide; [done|]. by constructor.
Qed.

Lemma wf_peer_removed l p : Forall wf_sockaddr l -> Forall wf_sockaddr (priv_remove_peer_from_list l p).
Proof.
  intros Hl. destruct Hl as [|x l Hx Hl]; [done|]. cbn. case_match; [done|]. constructor; [done|].
  apply Forall_forall. intros y [Hy _]%list_elem_of_In%filter_In. apply (proj1 (Forall_forall _ l) Hl). by apply list_elem_of_In.
Qed.

(** ** Queues *)

Lemma lookup_push qs p q d : Forall (fun e => wf_sockaddr (fst e)) qs -> wf_sockaddr p -> wf_sockaddr q ->
  lookup_queue (push_queue qs p d) q =
  if decide (q = p) then Some (default [] (lookup_queue qs p) ++ [d]) else lookup_queue qs q.
Proof.
  intros Hqs Hp Hq. induction Hqs as [|[k l] qs Hk Hqs IH]; unfold lookup_queue in *; cbn.
  - rewrite nice_address_equal_wf by done. unfold nice_address_dup. case_bool_decide; destruct (decide (q = p)); subst; try done.
  - cbn in Hk. rewrite !nice_address_equal_wf by done. case_bool_decide as H1; cbn.
    + rewrite nice_address_equal_wf by done. subst. case_bool_decide; destruct (decide (q = p)); subst; done.
    + rewrite nice_address_equal_wf by done. case_bool_decide as H2.
      * subst. destruct (decide (q = p)); [congruence|done].
      * rewrite IH. by destruct (decide (q = p)).
Qed.

Lemma lookup_absent qs p : Forall (fun e => wf_sockaddr (fst e)) qs -> wf_sockaddr p -> p ∉ fst <$> qs -> lookup_queue qs p = None.
Proof.
  intros Hqs Hp. induction Hqs as [|[k l] qs Hk Hqs IH]; unfold lookup_queue in *; cbn; [done|]. cbn in Hk.
  intros [Hne Hn]%not_elem_of_cons. rewrite nice_address_equal_wf, bool_decide_eq_false_2 by (done || congruence). by apply IH.
Qed.

Lemma lookup_remove qs p q : Forall (fun e => wf_sockaddr (fst e)) qs -> NoDup (fst <$> qs) -> wf_sockaddr p -> wf_sockaddr q ->
  lookup_queue (remove_queue qs p) q = if decide (q = p) then None else lookup_queue qs q.
Proof.
  intros Hqs Hn Hp Hq. induction Hqs as [|[k l] qs Hk Hqs IH]; cbn in *; [unfold lookup_queue; cbn; by case_match|].
  apply NoDup_cons in Hn as [Hn Hnd]. rewrite nice_address_equal_wf by done. case_bool_decide as H1.
  - subst. destruct (decide (q = p)) as [->|Hne]; [by apply lookup_absent|].
    unfold lookup_queue. cbn. by rewrite nice_address_equal_wf, bool_decide_eq_false_2 by (done || congruence).
  - unfold lookup_queue in *. cbn. rewrite nice_address_equal_wf by done. case_bool_decide; [|by apply IH].
    subst. destruct (decide (q = p)); [congruence|done].
Qed.

Lemma push_keys qs p d : Forall (fun e => wf_sockaddr (fst e)) qs -> wf_sockaddr p -> NoDup (fst <$> qs) ->
  Forall (fun e => wf_sockaddr (fst e)) (push_queue qs p d) /\ NoDup (fst <$> push_queue qs p d) /\
  (forall q, q ∈ fst <$> push_queue qs p d -> q = p \/ q ∈ fst <$> qs).
Proof.
  intros Hqs Hp. induction Hqs as [|[k l] qs Hk Hqs IH]; cbn in *.
  - intros _. split; [by constructor|]. split; [apply NoDup_singleton|]. intros q Hq%list_elem_of_singleton. by left.
  - intros [Hn Hnd]%NoDup_cons. destruct (IH Hnd) as (H1 & H2 & H3). rewrite nice_address_equal_wf by done. case_bool_decide as He; cbn.
    + split; [by constructor|]. split; [by constructor|]. by right.
    + split; [by constructor|]. split; [constructor; [|done]; intros [?|?]%H3; congruence|].
      intros q [->|[?|?]%H3]%elem_of_cons; [right; constructor|by left|right; by constructor].
Qed.

Lemma remove_keys qs p : Forall (fun e => wf_sockaddr (fst e)) qs -> NoDup (fst <$> qs) ->
  Forall (fun e => wf_sockaddr (fst e)) (remove_queue qs p) /\ NoDup (fst <$> remove_queue qs p) /\
  (forall q, q ∈ fst <$> remove_queue qs p -> q ∈ fst <$> qs).
Proof.
  intros Hqs. induction Hqs as [|[k l] qs Hk Hqs IH]; cbn in *; [done|]. intros [Hn Hnd]%NoDup_cons.
  destruct (IH Hnd) as (H1 & H2 & H3). case_match; cbn.
  - split; [done|]. split; [done|]. intros q Hq. by constructor.
  - split; [by constructor|]. split; [constructor; [|done]; by intros ?%H3|].
    intros q [->|?%H3]%elem_of_cons; by constructor.
Qed.

(** ** Timers *)

(** A timer of the socket: started by [stun_timer_start] with the default
    values, or by [stun_timer_start_reliable], and refreshed. *)
Definition timer_ok (t : StunTimer) : Prop :=
  tm_max_retransmissions t = 0 /\ tm_retransmissions t = 1 \/
  tm_max_retransmissions t = 3 /\
    (tm_retransmissions t = 1 /\ tm_delay t = 500 \/ tm_retransmissions t = 2 /\ tm_delay t = 1000 \/ tm_retransmissions t = 3).

Definition running (now : timeval) (t : StunTimer) : Prop := 0 < stun_timer_remainder now t.

Lemma set_delay_running now d t n m : clock_ok now -> 2 <= d <= 2000 -> set_delay now d = Ok t -> running now (mkTimer t d n m).
Proof.
  intros Hc Hd E. destruct (set_delay_spec now d Hc ltac:(lia)) as (t' & E' & Hu & Hok). rewrite E in E'. injection E' as <-.
  destruct (remainder_spec now (mkTimer t d n m) Hc Hok) as [_ Hr].
  - cbn [tm_deadline]. unfold clock_ok, deadline_ok, usecs in *. lia.
  - cbn [tm_deadline] in Hr. rewrite Hu in Hr. unfold running. lia.
Qed.

Lemma timer_started now : clock_ok now ->
  ensures (stun_timer_start now STUN_TIMER_DEFAULT_TIMEOUT STUN_TIMER_DEFAULT_MAX_RETRANSMISSIONS)
    (fun t => timer_ok t /\ running now t).
Proof.
  intros Hc. unfold stun_timer_start. eapply ensures_bind; [apply ensures_eq|]. intros d E. apply ensures_ret.
  split; [right; cbn; split; [done|]; by left|]. by apply set_delay_running.
Qed.

Lemma timer_started_reliable now : clock_ok now ->
  ensures (stun_timer_start_reliable now STUN_TIMER_DEFAULT_RELIABLE_TIMEOUT) (fun t => timer_ok t /\ running now t).
Proof.
  intros Hc. unfold stun_timer_start_reliable, stun_timer_start. eapply ensures_bind; [apply ensures_eq|]. intros d E. apply ensures_ret.
  split; [by left|]. by apply set_delay_running.
Qed.

Lemma remainder_nonneg now t : 0 <= stun_timer_remainder now t.
Proof. unfold stun_timer_remainder. repeat case_match; try lia. apply u32_range. Qed.

(** A timer that is not running times out, or runs again. *)
Lemma timer_refreshed now t : clock_ok now -> timer_ok t ->
  ensures (stun_timer_refresh now t) (fun '(r, t') => timer_ok t' /\ (r = STUN_USAGE_TIMER_RETURN_TIMEOUT \/ running now t') /\
    (running now t -> r = STUN_USAGE_TIMER_RETURN_SUCCESS)).
Proof.
  intros Hc Ht. unfold stun_timer_refresh. pose proof (remainder_nonneg now t). unfold running.
  destruct (Z.eqb_spec (stun_timer_remainder now t) 0) as [Hz|Hz];
    [|apply ensures_ret; split; [done|]; split; [right; lia|done]].
  rewrite Hz. destruct (Z.leb_spec (tm_max_retransmissions t) (tm_retransmissions t)) as [Hl|Hl].
  { apply ensures_ret. split; [done|]. split; [by left|lia]. }
  destruct Ht as [[? ?]|[Hm [[Hn Hd]|[[Hn Hd]|?]]]]; [lia| | |lia]; rewrite Hm, Hn, Hd.
  - change (1 =? u32 (3 - 1)) with false. cbv iota. change (u32 (500 * 2)) with 1000. eapply ensures_bind; [apply ensures_eq|].
    intros d E. apply ensures_ret. split; [right; split; [done|]; right; by left|]. split; [|lia]. right. by apply set_delay_running.
  - change (2 =? u32 (3 - 1)) with true. cbv iota. change (1000 / 2) with 500. eapply ensures_bind; [apply ensures_eq|].
    intros d E. apply ensures_ret. split; [right; split; [done|]; right; by right|]. split; [|lia]. right. by apply set_delay_running.
Qed.

(** ** The invariant *)

Section sound.
Context {B : Type} {NS : NiceSocket B} {RB : RelayBase B}.
Implicit Types s : UdpTurnPriv B.

(** A request that waits for its answer. *)
Definition waiting (meth : Z) (m : TURNMessage) (p : NiceAddress) : Prop :=
  wf_sockaddr p /\ timer_ok (tmg_timer m) /\ exists l, request_ok (tmg_message m) meth p l.

(** The field that records a timer. *)
Definition recorded s (src : GSource) : Prop :=
  match gs_callback src with
  | PrivForgetSendRequestTimeout => False
  | PrivPermissionTimeout => ut_permission_timeout_source s = Some (gs_id src)
  | PrivBindingExpiredTimeout | PrivBindingTimeout => exists b, b ∈ ut_channels s /\ cb_timeout_source b = Some (gs_id src)
  | PrivRetransmissionsTick => ut_tick_source_channel_bind s = Some (gs_id src)
  | PrivRetransmissionsCreatePermissionTick => ut_tick_source_create_permission s = Some (gs_id src)
  end.

(** The binding at position [k]. *)
Definition numbered (k : nat) (b : ChannelBinding) : Prop :=
  cb_channel b = 0x4000 + Z.of_nat k /\ wf_sockaddr (cb_peer b).

Record sound s : Prop := {
  so_config : modern_config s;
  so_compat : ut_compatibility s = NICE_TURN_SOCKET_COMPATIBILITY_RFC5766;
  so_clock : clock_ok (ut_now s);
  so_binding_msg m : ut_current_binding_msg s = Some m -> exists p, waiting STUN_CHANNELBIND m p;
  so_pending m : m ∈ ut_pending_permissions s ->
    exists p, waiting STUN_CREATEPERMISSION m p /\ p ∈ ut_sent_permissions s;
  so_distinct i j m n p : ut_pending_permissions s !! i = Some m -> ut_pending_permissions s !! j = Some n ->
    peer_of_request (tmg_message m) = Ok p -> peer_of_request (tmg_message n) = Ok p -> i = j;
  so_peers : Forall wf_sockaddr (ut_permissions s) /\ Forall wf_sockaddr (ut_sent_permissions s) /\
    Forall wf_sockaddr (ut_pending_bindings s) /\ Forall (fun q => wf_sockaddr (fst q)) (ut_send_data_queues s);
  so_queues : NoDup (fst <$> ut_send_data_queues s);
  so_channels k b : ut_channels s !! k = Some b -> numbered k b /\ is_Some (cb_timeout_source b);
  so_numbers : Z.of_nat (length (ut_channels s)) <= 0xbfff;
  so_current b : ut_current_binding s = Some b ->
    numbered (length (ut_channels s)) b /\ cb_channel b < 0xffff /\ cb_timeout_source b = None;
  so_requests : ut_send_requests s = [];
  so_sources : Forall (recorded s) (ut_sources s)
}.

(** The socket and the abstract relay. *)
Record refines s (a : relay) : Prop := {
  rf_allowed : rl_allowed a = ut_permissions s;
  rf_log : logged (ut_server_addr s) (base_is_reliable s) (ut_channels s) (rb_log (ut_base_socket s)) (rl_relayed a);
  rf_held p : wf_sockaddr p ->
    Forall2 (carried (ut_channels s) p) (default [] (lookup_queue (ut_send_data_queues s) p)) (rl_held a p)
}.

(** [s'] is sound, and the machine follows with the items [l] accepted. *)
Definition evolves s (l : list (NiceAddress * item)) s' : Prop :=
  sound s' /\ forall a, refines s a -> exists a', relay_steps base_takes a l a' /\ refines s' a'.

Lemma evolves_refl s : sound s -> evolves s [] s.
Proof. intros H. split; [done|]. intros a Ha. exists a. split; [constructor|done]. Qed.

Lemma evolves_trans s1 l1 s2 l2 s3 : evolves s1 l1 s2 -> evolves s2 l2 s3 -> evolves s1 (l1 ++ l2) s3.
Proof.
  intros [_ H1] [H2 H3]. split; [done|]. intros a Ha. destruct (H1 a Ha) as (b & Hb & Rb). destruct (H3 b Rb) as (c & Hc & Rc).
  exists c. split; [by eapply relay_steps_trans|done].
Qed.

Lemma evolves_nil s1 s2 s3 : evolves s1 [] s2 -> evolves s2 [] s3 -> evolves s1 [] s3.
Proof. apply (evolves_trans s1 [] s2 []). Qed.

(** Updates the machine does not see. *)
Record quiet s s' : Prop := {
  qu_permissions : ut_permissions s' = ut_permissions s;
  qu_queues : ut_send_data_queues s' = ut_send_data_queues s;
  qu_base : ut_base_socket s' = ut_base_socket s;
  qu_server : ut_server_addr s' = ut_server_addr s;
  qu_channels : extends (ut_channels s) (ut_channels s')
}.

Lemma quiet_refines s s' a : quiet s s' -> refines s a -> refines s' a.
Proof.
  intros [Ep Eq Eb Es He] [Ha Hl Hh]. constructor.
  - by rewrite Ep.
  - unfold base_is_reliable in *. rewrite Eb, Es. by eapply logged_mono.
  - intros p Hp. rewrite Eq. eapply Forall2_impl; [by apply Hh|]. intros. by eapply carried_mono.
Qed.

Lemma quiet_evolves s s' : sound s' -> quiet s s' -> evolves s [] s'.
Proof. intros Hs Hq. split; [done|]. intros a Ha. exists a. split; [constructor|]. by eapply quiet_refines. Qed.

Lemma quiet_trans s1 s2 s3 : quiet s1 s2 -> quiet s2 s3 -> quiet s1 s3.
Proof. intros [] []. constructor; try congruence. by eapply extends_trans. Qed.

(** ** Timers of the main context *)

Lemma elem_destroyed s o src : src ∈ ut_sources (destroy_if_set s o) -> src ∈ ut_sources s /\ o <> Some (gs_id src).
Proof.
  destruct o as [id|]; cbn; [|done]. intros [Hin Hne]%list_elem_of_In%filter_In. split; [by apply list_elem_of_In|].
  intros [= ->]. by rewrite Z.eqb_refl in Hne.
Qed.

(** A change of the fields that record timers, given what it does to them. *)
Lemma sound_timers s s' :
  sound s -> Forall (recorded s') (ut_sources s') ->
  s' = s <| ut_tick_source_channel_bind := ut_tick_source_channel_bind s' |>
         <| ut_tick_source_create_permission := ut_tick_source_create_permission s' |>
         <| ut_permission_timeout_source := ut_permission_timeout_source s' |>
         <| ut_sources := ut_sources s' |> <| ut_next_source := ut_next_source s' |> ->
  evolves s [] s'.
Proof.
  intros [[] ] Hr E. rewrite E in *. clear E. apply quiet_evolves; [|by constructor]. by constructor.
Qed.

Lemma sound_destroy s o : sound s -> evolves s [] (destroy_if_set s o).
Proof.
  intros Hs. pose proof (so_sources s Hs) as Hr. rewrite Forall_forall in Hr.
  apply sound_timers; [done| |].
  - apply Forall_forall. intros src [Hin _]%elem_destroyed. specialize (Hr src Hin). destruct o; exact Hr.
  - destruct o as [id|]; cbn; destruct s; reflexivity.
Qed.

Ltac clear_timer Hs field :=
  pose proof (so_sources _ Hs) as Hr; rewrite Forall_forall in Hr;
  apply sound_timers; [done| |];
  [ apply Forall_forall; intros src [Hin Hne]%elem_destroyed; specialize (Hr src Hin); unfold recorded in *;
    destruct (gs_callback src); try done; by destruct field
  | destruct field as [id|]; cbn; match goal with |- context [ut_sources ?s] => is_var s; destruct s; reflexivity end ].

Lemma tick_bind_cleared s : sound s ->
  evolves s [] ((destroy_if_set s (ut_tick_source_channel_bind s)) <| ut_tick_source_channel_bind := None |>).
Proof.
  intros Hs. clear_timer Hs (ut_tick_source_channel_bind s).
Qed.

Lemma tick_permission_cleared s : sound s ->
  evolves s [] ((destroy_if_set s (ut_tick_source_create_permission s)) <| ut_tick_source_create_permission := None |>).
Proof.
  intros Hs. clear_timer Hs (ut_tick_source_create_permission s).
Qed.

(** A new timer and the field that records it. *)
Ltac set_timer Hs Ht :=
  pose proof (so_sources _ Hs) as Hr; rewrite Forall_forall in Hr; cbn;
  apply sound_timers; [done| |match goal with |- context [ut_sources ?s] => is_var s; destruct s; reflexivity end];
  cbn; apply Forall_app; split; [|by constructor];
  apply Forall_forall; intros src Hin; specialize (Hr src Hin); unfold recorded in *;
  destruct (gs_callback src); try done; by rewrite Ht in Hr.

Lemma tick_bind_set s iv : sound s -> ut_tick_source_channel_bind s = None ->
  let '(id, s') := priv_timeout_add_with_context s iv PrivRetransmissionsTick in
  evolves s [] (s' <| ut_tick_source_channel_bind := Some id |>).
Proof.
  intros Hs Ht. set_timer Hs Ht.
Qed.

Lemma tick_permission_set s iv : sound s -> ut_tick_source_create_permission s = None ->
  let '(id, s') := priv_timeout_add_with_context s iv PrivRetransmissionsCreatePermissionTick in
  evolves s [] (s' <| ut_tick_source_create_permission := Some id |>).
Proof.
  intros Hs Ht. set_timer Hs Ht.
Qed.

Lemma permission_timer_set s iv : sound s -> ut_permission_timeout_source s = None ->
  let '(id, s') := priv_timeout_add_seconds_with_context s iv PrivPermissionTimeout in
  evolves s [] (s' <| ut_permission_timeout_source := Some id |>).
Proof.
  intros Hs Ht. set_timer Hs Ht.
Qed.

(** ** Sending over the layer below *)

(** The result of sending the bytes [w] to [to]. *)
Record sent (to : NiceAddress) (w : list Z) (reliable : bool) s (ret : Z) s' : Prop := {
  se_state : s' = s <| ut_base_socket := ut_base_socket s' |>;
  se_reliable : base_is_reliable s' = base_is_reliable s;
  se_log : 0 < ret /\ rb_log (ut_base_socket s') = rb_log (ut_base_socket s) ++ [(to, framed (base_is_reliable s) w)] \/
           ret <= 0 /\ rb_log (ut_base_socket s') = rb_log (ut_base_socket s);
  se_takes : base_takes reliable -> 0 < ret
}.

Lemma send_to_base_spec s to m reliable w : 
  gather_loop (om_n_buffers m) 0 (om_buffers m) = Ok w ->
  ensures (send_to_base s to m reliable) (fun '(ret, s') =>
    s' = s <| ut_base_socket := ut_base_socket s' |> /\ base_is_reliable s' = base_is_reliable s /\
    (ret = 1 /\ rb_log (ut_base_socket s') = rb_log (ut_base_socket s) ++ [(to, w)] \/
     ret <= 0 /\ rb_log (ut_base_socket s') = rb_log (ut_base_socket s)) /\ (base_takes reliable -> ret = 1)).
Proof.
  intros Hg. unfold send_to_base. eapply ensures_bind; [apply ensures_eq|]. intros [ret b'] E. apply ensures_ret.
  assert (Hh : handed_over rb_log (ut_base_socket s) to m ret b' /\ nice_socket_is_reliable b' = nice_socket_is_reliable (ut_base_socket s))
    by (destruct reliable; [by apply rb_send_reliable|by apply rb_send]).
  destruct Hh as [Hh Hr]. split; [by destruct s|]. split; [done|]. cbn. split; [|intros Ht; by eapply Ht].
  destruct Hh as [(-> & data & Hd & Hl)|Hh]; [|by right]. left. split; [done|]. rewrite Hl. congruence.
Qed.

Lemma rd_first buf len : 0 <= len <= zlen buf -> rd_bytes buf 0 len = Ok (take (Z.to_nat len) buf).
Proof. intros H. rewrite rd_bytes_Ok by lia. done. Qed.

Ltac gather :=
  cbn [gather_loop]; unfold has_vector, vector_read; cbn [gv_buffer gv_size];
  change (0 + 1) with 1; change (1 + 1) with 2; change (0 <=? 1) with true; change (0 <=? 2) with true;
  change (0 <? 1) with true; change (0 <? 2) with true; change (1 <? 1) with false; change (1 <? 2) with true;
  change (2 <? 2) with false; cbn [mbind res_bind].

Lemma gather_one buf len : 0 <= len <= zlen buf ->
  gather_loop 1 0 [mkVector (Some buf) len] = Ok (take (Z.to_nat len) buf).
Proof. intros H. gather. rewrite rd_first by done. gather. by rewrite app_nil_r. Qed.

Lemma gather_framed buf len : 0 <= len <= zlen buf -> len < 65536 ->
  gather_loop 2 0 [mkVector (Some (le_bytes 2 (htons len))) 2; mkVector (Some buf) len] =
  Ok (framed true (take (Z.to_nat len) buf)).
Proof.
  intros H Hl. gather.
  rewrite le_bytes_htons. rewrite (rd_bytes_Ok (be_bytes 2 len)) by (change (zlen (be_bytes 2 len)) with 2; lia). cbn [mbind res_bind].
  rewrite rd_first by done. cbn [mbind res_bind]. rewrite app_nil_r. unfold framed. rewrite zlen_take by lia. done.
Qed.

Lemma wrapped_one s to len buf reliable : 0 < len <= zlen buf -> len < 65536 ->
  ensures (_socket_send_messages_wrapped s to (mkOutput [mkVector (Some buf) len] 1) reliable)
    (fun '(ret, s') => sent to (take (Z.to_nat len) buf) reliable s ret s').
Proof.
  intros H Hl. unfold _socket_send_messages_wrapped. destruct (base_is_reliable s) eqn:Er; cbn [negb].
  - assert (Es : output_message_get_size (mkOutput [mkVector (Some buf) len] 1) = Ok len)
      by (cbn; rewrite u64_small by lia; done).
    rewrite Es. cbn [mbind res_bind om_n_buffers om_buffers]. unfold assert_ok, G_MAXUINT16.
    rewrite (proj2 (Z.leb_le len 65535)) by lia. cbn [mbind res_bind Z.eqb].
    change (u32 1) with 1. change (zlen [mkVector (Some buf) len] <? 1) with false. cbv iota zeta.
    eapply ensures_bind; [apply send_to_base_spec; cbn [om_n_buffers om_buffers take app Z.to_nat]; by apply gather_framed; [lia|]|].
    intros [ret s'] (E & E2 & Hlog & Ht). apply ensures_ret. constructor; try done; [rewrite Er|].
    + destruct Hlog as [[-> Hlog]|[Hr Hlog]]; [left; cbn; split; [lia|done]|right]. destruct (Z.eqb_spec ret 1); [lia|]. done.
    + intros Hb. rewrite (Ht Hb). cbn. lia.
  - eapply ensures_mono; [apply send_to_base_spec; apply gather_one; lia|].
    intros [ret s'] (E & E2 & Hlog & Ht). constructor; try done; [rewrite Er|intros Hb; rewrite (Ht Hb); lia].
    destruct Hlog as [[-> Hlog]|[Hr Hlog]]; [left; split; [lia|done]|by right].
Qed.

Lemma wrapped_bytes s to len buf reliable : 0 < len <= zlen buf -> len < 65536 ->
  ensures (_socket_send_wrapped s to len buf reliable)
    (fun '(ret, s') => sent to (take (Z.to_nat len) buf) reliable s ret s').
Proof.
  intros H Hl. unfold _socket_send_wrapped. destruct (base_is_reliable s) eqn:Er; cbn [negb].
  - eapply ensures_bind; [apply send_to_base_spec, gather_framed; lia|].
    intros [ret s'] (E & E2 & Hlog & Ht). apply ensures_ret. constructor; try done; [rewrite Er|].
    + destruct Hlog as [[-> Hlog]|[Hr Hlog]]; [left; cbn; split; [lia|done]|right]. destruct (Z.eqb_spec ret 1); [lia|]. done.
    + intros Hb. rewrite (Ht Hb). cbn. lia.
  - eapply ensures_bind; [by apply wrapped_one|]. intros [ret s'] [E1 E2 Hlog Ht]. apply ensures_ret.
    destruct (Z.eqb_spec ret 1) as [->|Hne]; constructor; try done; [|intros; lia].
    destruct Hlog as [[_ Hlog]|[? _]]; [left; split; [lia|done]|lia].
Qed.

Lemma sound_base s b : sound s -> sound (s <| ut_base_socket := b |>).
Proof. intros [[] ]. by constructor. Qed.

Lemma sent_sound to w r s ret s' : sound s -> sent to w r s ret s' -> sound s'.
Proof. intros Hs [E _ _ _]. rewrite E. by apply sound_base. Qed.

(** The machine does not see requests to the server. *)
Lemma sent_control s w r ret s' : sound s -> control w -> sent (ut_server_addr s) w r s ret s' -> evolves s [] s'.
Proof.
  intros Hs Hw Hse. split; [by eapply sent_sound|]. intros a [Ha Hl Hh]. exists a. split; [constructor|].
  destruct Hse as [E Er Hlog _]. unfold base_is_reliable in *.
  constructor; rewrite E; cbn -[carried]; [done| |done]. unfold base_is_reliable. cbn. rewrite Er.
  destruct Hlog as [[_ ->]|[_ ->]]; [by apply logged_control|done].
Qed.

Lemma request_control m meth p l :
  request_ok m meth p l -> wf_sockaddr p -> meth = STUN_CREATEPERMISSION \/ meth = STUN_CHANNELBIND ->
  stun_message_length m = Ok l /\ 0 < l <= zlen (buffer m) /\ l < 65536 /\ control (take (Z.to_nat l) (buffer m)).
Proof.
  intros [(id & attrs & rest & Hr & Hid & Ha & Hf) Hl Hfit Hty Hsm] Hp Hm. split; [done|]. split; [done|]. split; [done|].
  exists meth, p, attrs. split; [done|]. split; [done|]. exists id. split; [|done].
  pose proof (repr_length Hr) as E. rewrite Hl in E. injection E as ->. destruct Hr as [Hb Ht Hi _ _ _].
  rewrite <-(zlen_wire (type_bytes STUN_REQUEST meth) id attrs), to_nat_zlen by done.
  replace (buffer m) with (wire (type_bytes STUN_REQUEST meth) id attrs ++ rest) by (rewrite Hb; unfold wire; lassoc).
  apply take_app_length.
Qed.

(** Sending a request, or a retransmission of it. *)
Lemma request_sent s m meth p l reliable :
  sound s -> request_ok m meth p l -> wf_sockaddr p -> meth = STUN_CREATEPERMISSION \/ meth = STUN_CHANNELBIND ->
  ensures (_socket_send_wrapped s (ut_server_addr s) l (buffer m) reliable)
    (fun '(ret, s') => evolves s [] s' /\ s' = s <| ut_base_socket := ut_base_socket s' |> /\ base_is_reliable s' = base_is_reliable s).
Proof.
  intros Hs Hm Hp Hmeth. destruct (request_control _ _ _ _ Hm Hp Hmeth) as (_ & Hl & Hsm & Hc).
  eapply ensures_mono; [by apply wrapped_bytes|]. intros [ret s'] Hse. split; [by eapply sent_control|].
  by destruct Hse.
Qed.

(** ** Data *)

Lemma send_to_base_state s to m r : ensures (send_to_base s to m r) (fun '(_, s') => s' = s <| ut_base_socket := ut_base_socket s' |>).
Proof. unfold send_to_base. eapply ensures_bind; [apply ensures_any|]. intros [ret b] _. apply ensures_ret. by destruct s. Qed.

Lemma wrapped_state s to len buf r :
  ensures (_socket_send_wrapped s to len buf r) (fun '(_, s') => s' = s <| ut_base_socket := ut_base_socket s' |>).
Proof.
  unfold _socket_send_wrapped, _socket_send_messages_wrapped.
  eapply (ensures_bind _ _ (fun '(_, s') => s' = s <| ut_base_socket := ut_base_socket s' |>)).
  - destruct (base_is_reliable s); cbn [negb]; apply send_to_base_state.
  - intros [ret s'] H. by apply ensures_ret.
Qed.

Lemma dequeue_state q s : ensures (dequeue_loop s q) (fun s' => s' = s <| ut_base_socket := ut_base_socket s' |>).
Proof.
  revert s. induction q as [|sd q IH]; intros s; cbn [dequeue_loop]; [apply ensures_ret; by destruct s|].
  eapply ensures_bind; [apply wrapped_state|]. intros [ret s1] E1. eapply ensures_mono; [apply IH|].
  intros s2 E2. rewrite E2, E1. by destruct s.
Qed.

Lemma dequeue_sends p its q s : Forall2 (carried (ut_channels s) p) q its ->
  ensures (dequeue_loop s q) (fun s' => base_is_reliable s' = base_is_reliable s /\
    exists l, sublist l its /\ (Forall (fun i => base_takes (fst i)) its -> l = its) /\
      forall ls, logged (ut_server_addr s) (base_is_reliable s) (ut_channels s) (rb_log (ut_base_socket s)) ls ->
        logged (ut_server_addr s) (base_is_reliable s) (ut_channels s) (rb_log (ut_base_socket s')) (ls ++ map (pair p) l)).
Proof.
  revert s its. induction q as [|sd q IH]; intros s its H; cbn [dequeue_loop].
  - apply Forall2_nil_inv_l in H as ->. apply ensures_ret. split; [done|]. exists []. split; [done|]. split; [done|].
    intros ls. by rewrite app_nil_r.
  - apply Forall2_cons_inv_l in H as ([r d] & its' & (Er & El & Hl & Hc) & Hq & ->).
    eapply ensures_bind; [apply wrapped_bytes; rewrite ?El in *; lia|]. intros [ret s1] [E1 R1 L1 T1].
    assert (Hw : take (Z.to_nat (sd_data_len sd)) (sd_data sd) = sd_data sd) by (by rewrite El, to_nat_zlen, firstn_all).
    rewrite Hw in L1. assert (Ec : ut_channels s1 = ut_channels s) by (by rewrite E1).
    assert (Es : ut_server_addr s1 = ut_server_addr s) by (by rewrite E1).
    eapply ensures_mono; [apply IH; rewrite Ec; exact Hq|]. intros s2 (R2 & l & Hsub & Hall & Hlog).
    rewrite Ec, Es, R1 in Hlog. split; [congruence|].
    destruct L1 as [[Hp L1]|[Hn L1]].
    + exists ((r, d) :: l). split; [by constructor|]. split; [intros [_ Ht]%Forall_cons; by rewrite Hall|].
      intros ls Hls. cbn [map]. rewrite cons_middle, app_assoc. apply Hlog. rewrite L1. by apply logged_data.
    + exists l. split; [by constructor|]. split; [|intros ls Hls; apply Hlog; by rewrite L1].
      intros [Ht _]%Forall_cons. cbn in Ht, Er. rewrite Er in T1. specialize (T1 Ht). lia.
Qed.

Lemma sound_dequeued s p : sound s -> sound (s <| ut_send_data_queues := remove_queue (ut_send_data_queues s) p |>).
Proof.
  intros [[] ]. destruct so_peers0 as (? & ? & ? & Hq). destruct (remove_keys _ p Hq so_queues0) as (? & ? & _).
  by constructor.
Qed.

(** A permission for the peer and the data that waited for it. *)
Lemma released s s1 p : sound s1 -> wf_sockaddr p -> quiet (s <| ut_permissions := ut_permissions s ++ [p] |>) s1 ->
  ensures (socket_dequeue_all_data s1 p) (fun s2 => evolves s [] s2 /\
    s2 = s1 <| ut_base_socket := ut_base_socket s2 |> <| ut_send_data_queues := ut_send_data_queues s2 |>).
Proof.
  intros Hs Hp [Ep Eq Eb Ev He]. cbn in Ep, Eq, Eb, Ev, He. unfold socket_dequeue_all_data.
  pose proof (so_peers _ Hs) as (_ & _ & _ & Hwq). pose proof (so_queues _ Hs) as Hnd.
  assert (Hh1 : forall a q, refines s a -> wf_sockaddr q ->
    Forall2 (carried (ut_channels s1) q) (default [] (lookup_queue (ut_send_data_queues s1) q)) (rl_held a q)).
  { intros a q Ha Hq. rewrite Eq. eapply Forall2_impl; [by apply Ha|]. intros. by eapply carried_mono. }
  assert (Hl1 : forall a, refines s a -> logged (ut_server_addr s1) (base_is_reliable s1) (ut_channels s1) (rb_log (ut_base_socket s1)) (rl_relayed a)).
  { intros a Ha. unfold base_is_reliable. rewrite Eb, Ev. eapply logged_mono; [done|]. apply Ha. }
  destruct (lookup_queue (ut_send_data_queues s1) p) as [q|] eqn:Elk.
  - intros s2 H. apply bind_Ok_inv in H as (s3 & Hd & [= <-]). pose proof (dequeue_state _ _ _ Hd) as E3.
    split; [|rewrite E3; by destruct s1].
    split; [apply sound_dequeued; rewrite E3; by apply sound_base|]. intros a Ha.
    pose proof (Hh1 a p Ha Hp) as Hq. rewrite Elk in Hq. cbn in Hq.
    destruct (dequeue_sends p _ _ _ Hq _ Hd) as (R3 & l & Hsub & Hall & Hlog).
    eexists. split; [apply relay_steps_one; by apply (relay_grant _ a p l)|].
    constructor; cbn [rl_allowed rl_held rl_relayed].
    + rewrite E3. cbn. by rewrite Ep, (rf_allowed _ _ Ha).
    + specialize (Hlog _ (Hl1 a Ha)). rewrite <-R3 in Hlog. rewrite E3 in *. exact Hlog.
    + intros q' Hq'. assert (E4 : ut_send_data_queues s3 = ut_send_data_queues s1 /\ ut_channels s3 = ut_channels s1) by (by rewrite E3).
      destruct E4 as [E4 E5]. change (ut_channels _) with (ut_channels s3).
      change (ut_send_data_queues _) with (remove_queue (ut_send_data_queues s3) p).
      rewrite E5, E4, lookup_remove by done. unfold hold.
      destruct (decide (q' = p)) as [->|Hne]; [rewrite decide_True by done; constructor|]. rewrite decide_False by done. by apply Hh1.
  - apply ensures_ret. split; [|by destruct s1]. split; [done|]. intros a Ha. pose proof (Hh1 a p Ha Hp) as Hq. rewrite Elk in Hq.
    apply Forall2_nil_inv_l in Hq. eexists. split; [apply relay_steps_one; by apply (relay_grant _ a p []); rewrite Hq|].
    constructor; cbn [rl_allowed rl_held rl_relayed map]; rewrite ?app_nil_r.
    + by rewrite Ep, (rf_allowed _ _ Ha).
    + by apply Hl1.
    + intros q' Hq'. unfold hold. destruct (decide (q' = p)) as [->|Hne]; [rewrite Elk, decide_True by done; constructor|]. rewrite ?decide_False by done. by apply Hh1.
Qed.

Lemma sound_enqueued s p d : sound s -> wf_sockaddr p ->
  sound (s <| ut_send_data_queues := push_queue (ut_send_data_queues s) p d |>).
Proof.
  intros [[] ] Hp. destruct so_peers0 as (? & ? & ? & Hq). destruct (push_keys _ p d Hq Hp so_queues0) as (? & ? & _).
  by constructor.
Qed.

(** Data for a peer without a permission waits. *)
Lemma data_enqueued s p len buf r d : sound s -> wf_sockaddr p -> p ∉ ut_permissions s -> 0 < len <= zlen buf -> len < 65536 ->
  carries (ut_channels s) p d (take (Z.to_nat len) buf) ->
  ensures (socket_enqueue_data s p len buf r) (fun s' => evolves s [(p, (r, d))] s').
Proof.
  intros Hs Hp Hn Hl Hlt Hc. unfold socket_enqueue_data. rewrite rd_first by lia. cbn [mbind res_bind]. apply ensures_ret.
  split; [by apply sound_enqueued|]. intros a [Ha Hlog Hh].
  eexists. split; [apply relay_steps_one; apply (relay_hold _ a p (r, d)); by rewrite Ha|].
  constructor; cbn [rl_allowed rl_held rl_relayed]; [done|done|]. intros q Hq.
  change (ut_channels _) with (ut_channels s).
  change (ut_send_data_queues _) with (push_queue (ut_send_data_queues s) p (mkSendData (take (Z.to_nat len) buf) len r)).
  pose proof (so_peers _ Hs) as (_ & _ & _ & Hwq). rewrite lookup_push by done. unfold hold.
  destruct (decide (q = p)) as [->|Hne]; [rewrite decide_True by done|rewrite ?decide_False by done; by apply Hh].
  cbn [default]. apply Forall2_app; [by apply Hh|]. constructor; [|constructor]. split; [done|]. cbn [sd_data sd_data_len].
  split; [rewrite zlen_take; lia|]. split; [lia|done].
Qed.

(** Data for a peer with a permission is relayed. *)
Lemma sent_data s p w r d ret s' : sound s -> p ∈ ut_permissions s -> carries (ut_channels s) p d w ->
  sent (ut_server_addr s) w r s ret s' -> evolves s (if 0 <? ret then [(p, (r, d))] else []) s'.
Proof.
  intros Hs Hin Hc Hse. split; [by eapply sent_sound|]. intros a [Ha Hl Hh].
  destruct Hse as [E Er Hlog _].
  assert (Hr : forall a', rl_allowed a' = rl_allowed a -> rl_held a' = rl_held a ->
    logged (ut_server_addr s) (base_is_reliable s) (ut_channels s) (rb_log (ut_base_socket s')) (rl_relayed a') -> refines s' a').
  { intros a' Ea Eh Hlg. constructor; [by rewrite Ea, E, Ha|rewrite Er; by rewrite E|]. intros q Hq. rewrite Eh, E. by apply Hh. }
  destruct Hlog as [[Hp Hlog]|[Hn Hlog]].
  - rewrite (proj2 (Z.ltb_lt 0 ret) Hp). eexists. split; [apply relay_steps_one, (relay_now _ a p (r, d)); by rewrite Ha|].
    apply Hr; [done|done|]. rewrite Hlog. by apply logged_data.
  - rewrite (proj2 (Z.ltb_ge 0 ret) Hn). exists a. split; [constructor|]. apply Hr; [done|done|]. by rewrite Hlog.
Qed.
End sound.
