(* ===== verification/TurnTick.v ===== *)
(** * The TURN socket implements the relay: timers and requests

    The mutually recursive functions of udp-turn.c that send requests, renew
    bindings and retransmit keep the invariant of TurnSound and are steps of
    the abstract relay; [priv_schedule_tick] recurses at most once. *)
From stdpp Require Import gmap sorting.
From S2P Require Import Prelude CMem StunTypes StunMessage StunWire StunAppend StunAccess StunCrc32 StunAgent StunIntegrity StunAgentSpec StunTimer StunIce StunTurn Address Candidate IceTypes IceEnv CheckTick IoMessage NiceSock TurnTcp TurnSocket TurnEvents TurnWire TurnSound.
Local Open Scope Z_scope.

Section tick.
Context {B : Type} {NS : NiceSocket B} {RB : RelayBase B}.
Implicit Types s : UdpTurnPriv B.

(** ** What a tick may change *)

Definition expired_peer s (p : NiceAddress) : Prop :=
  exists m, m ∈ ut_pending_permissions s /\ peer_of_request (tmg_message m) = Ok p /\ ~ running (ut_now s) (tmg_timer m).

(** Permissions are only added for peers whose request timed out. *)
Record ticks s s' : Prop := {
  tk_evolves : evolves s [] s';
  tk_channels : ut_channels s' = ut_channels s;
  tk_buffer : ut_send_buffer s' = ut_send_buffer s;
  tk_now : ut_now s' = ut_now s;
  tk_expired p : expired_peer s' p -> expired_peer s p;
  tk_permissions p : p ∈ ut_permissions s' -> p ∈ ut_permissions s \/ expired_peer s p
}.

Lemma ticks_refl s : sound s -> ticks s s.
Proof. intros H. constructor; auto using evolves_refl. Qed.

Lemma ticks_trans s1 s2 s3 : ticks s1 s2 -> ticks s2 s3 -> ticks s1 s3.
Proof.
  intros [E1 C1 B1 N1 X1 P1] [E2 C2 B2 N2 X2 P2]. constructor; try congruence; [by eapply evolves_nil|by auto|].
  intros p [H|H]%P2; [by apply P1|right; by apply X1].
Qed.

Lemma ticks_sound s s' : ticks s s' -> sound s'.
Proof. by intros [[H _] _ _ _ _ _]. Qed.

(** Steps that leave the pending permissions alone. *)
Lemma ticks_same s s' : evolves s [] s' -> ut_channels s' = ut_channels s -> ut_send_buffer s' = ut_send_buffer s ->
  ut_now s' = ut_now s -> ut_pending_permissions s' = ut_pending_permissions s -> ut_permissions s' = ut_permissions s -> ticks s s'.
Proof.
  intros He Hc Hb Hn Hp Hpm. constructor; try done.
  - intros p (m & Hm & ?). exists m. rewrite Hp, Hn in *. by split.
  - intros p. rewrite Hpm. by left.
Qed.

(** ** Updates *)

Lemma quiet_ticks s s' : sound s' -> quiet s s' -> ut_channels s' = ut_channels s -> ut_send_buffer s' = ut_send_buffer s ->
  ut_now s' = ut_now s -> ut_pending_permissions s' = ut_pending_permissions s -> ticks s s'.
Proof. intros Hs Hq ? ? ? ?. apply ticks_same; try done; [by apply quiet_evolves|by apply qu_permissions]. Qed.

Ltac quietly := apply quiet_ticks; [|by constructor|done..].

Lemma agent_ticks s ag n : sound s -> modern_agent ag -> ticks s (s <| ut_agent := ag |> <| ut_transactions := n |>).
Proof. intros [[] ] Ha. quietly. by constructor. Qed.

Lemma set_agent_ticks s ag : sound s -> modern_agent ag -> ticks s (s <| ut_agent := ag |>).
Proof. intros [[] ] Ha. quietly. by constructor. Qed.

Lemma transactions_ticks s n : sound s -> ticks s (s <| ut_transactions := n |>).
Proof. intros [[] ]. quietly. by constructor. Qed.

Lemma forget_modern a id : modern_agent a -> modern_agent (snd (stun_agent_forget_transaction a id)).
Proof. unfold stun_agent_forget_transaction. by case_match. Qed.

Lemma no_message_ticks s : sound s -> ticks s (s <| ut_current_binding_msg := None |>).
Proof. intros [[] ]. quietly. by constructor. Qed.

Lemma message_ticks s m p : sound s -> waiting STUN_CHANNELBIND m p -> ticks s (s <| ut_current_binding_msg := Some m |>).
Proof. intros [[] ] Hm. quietly. constructor; try done. intros m' [= <-]. by exists p. Qed.

Lemma no_binding_ticks s : sound s -> ticks s (s <| ut_current_binding := None |>).
Proof. intros [[] ]. quietly. by constructor. Qed.

Lemma binding_ticks s p n : sound s -> wf_sockaddr p -> n = 0x4000 + Z.of_nat (length (ut_channels s)) -> n < 0xffff ->
  ticks s (s <| ut_current_binding := Some (mkBinding p n false None) |>).
Proof. intros [[] ] Hp Hn Hlt. quietly. constructor; try done. intros b [= <-]. by split. Qed.

Lemma waiting_bindings_ticks s l : sound s -> Forall wf_sockaddr l -> ticks s (s <| ut_pending_bindings := l |>).
Proof. intros [[] ] Hl. quietly. destruct so_peers as (? & ? & ? & ?). by constructor. Qed.

Lemma base_ticks s s' : evolves s [] s' -> s' = s <| ut_base_socket := ut_base_socket s' |> -> ticks s s'.
Proof. intros He E. apply ticks_same; try (by rewrite E). done. Qed.

(** A request was sent, perhaps twice. *)
Lemma request_ticks s m meth p l reliable :
  sound s -> request_ok m meth p l -> wf_sockaddr p -> meth = STUN_CREATEPERMISSION \/ meth = STUN_CHANNELBIND ->
  ensures (_socket_send_wrapped s (ut_server_addr s) l (buffer m) reliable)
    (fun '(ret, s') => ticks s s' /\ s' = s <| ut_base_socket := ut_base_socket s' |> /\ base_is_reliable s' = base_is_reliable s).
Proof.
  intros. eapply ensures_mono; [by eapply request_sent|]. intros [ret s'] (? & ? & ?). split; [by apply base_ticks|done].
Qed.

(** ** Channel numbers *)

(** The bindings are numbered from 0x4000 on: the search finds the next
    number, whatever links it skips. *)
Lemma channel_search channels fuel i j :
  (forall k b, channels !! k = Some b -> cb_channel b = 0x4000 + Z.of_nat k) -> Z.of_nat (length channels) <= 0xbfff ->
  (j <= i <= length channels)%nat -> (1 <= j \/ i = 0)%nat ->
  ((length channels - i) * (length channels + 1) + (length channels - j) <= fuel)%nat ->
  channel_loop fuel channels (drop j channels) (0x4000 + Z.of_nat i) = Ok (0x4000 + Z.of_nat (length channels)).
Proof.
  intros Hn Hlen. revert i j. induction fuel as [|fuel IH]; intros i j Hij Hj Hf.
  - assert (j = length channels) as -> by lia. assert (i = length channels) as -> by lia. by rewrite drop_all.
  - destruct (channels !! j) as [b|] eqn:Eb.
    + rewrite (drop_S _ _ _ Eb). cbn [channel_loop]. rewrite (Hn _ _ Eb). apply lookup_lt_Some in Eb.
      destruct (Z.eqb_spec (0x4000 + Z.of_nat i) (0x4000 + Z.of_nat j)) as [E|E].
      * assert (i = j) as -> by lia. rewrite u16_small by lia. replace (0x4000 + Z.of_nat j + 1) with (0x4000 + Z.of_nat (S j)) by lia.
        change (tail channels) with (drop 1 channels). apply IH; [lia|by left|]. nia.
      * apply IH; [lia|lia|]. nia.
    + apply lookup_ge_None in Eb. rewrite drop_ge by done. assert (i = length channels) as -> by lia. done.
Qed.

Lemma channel_found s : sound s ->
  channel_loop (channel_fuel (ut_channels s)) (ut_channels s) (ut_channels s) 0x4000 =
  Ok (0x4000 + Z.of_nat (length (ut_channels s))).
Proof.
  intros Hs. apply (channel_search _ _ 0 0); [|by apply so_numbers|lia|by right|unfold channel_fuel; lia].
  intros k b Hb. by apply (so_channels _ Hs).
Qed.

(** The message of a waiting request after a refresh of its timer. *)
Lemma waiting_timer meth m p t : waiting meth m p -> timer_ok t -> waiting meth (mkTURNMessage (tmg_message m) t) p.
Proof. intros (Hp & _ & Hl) Ht. by split. Qed.

(** ** Pending permissions *)

Lemma delete_lookup {A} (l : list A) k i : delete k l !! i = l !! (if decide (i < k)%nat then i else S i).
Proof.
  revert k i. induction l as [|x l IH]; intros k i; [by destruct k|]. destruct k as [|k]; [done|].
  destruct i as [|i]; [done|]. cbn. rewrite IH. destruct (decide (i < k)%nat), (decide (S i < S k)%nat); try lia; done.
Qed.

Lemma elem_delete {A} (l : list A) k x : x ∈ delete k l -> exists i, i <> k /\ l !! i = Some x.
Proof.
  intros [i Hi]%list_elem_of_lookup. rewrite delete_lookup in Hi. eexists. split; [|exact Hi]. case_decide; lia.
Qed.

Lemma waiting_peer meth m p : waiting meth m p -> peer_of_request (tmg_message m) = Ok p.
Proof. intros (Hp & _ & l & Hm). eapply peer_of_request_names; [by apply Hm|done]. Qed.

Lemma pending_at s k m : sound s -> ut_pending_permissions s !! k = Some m ->
  exists p, waiting STUN_CREATEPERMISSION m p /\ p ∈ ut_sent_permissions s.
Proof. intros Hs Hk. apply (so_pending _ Hs). by eapply list_elem_of_lookup_2. Qed.

(** The answer, or the last timeout, of the request at [k]. *)
Definition settled s (k : nat) (p : NiceAddress) : UdpTurnPriv B :=
  (priv_remove_sent_permission_for_peer s p) <| ut_pending_permissions := delete k (ut_pending_permissions s) |>.

Lemma settled_sound s k m p : sound s -> ut_pending_permissions s !! k = Some m -> waiting STUN_CREATEPERMISSION m p -> sound (settled s k p).
Proof.
  intros Hs Hk Hw. pose proof (waiting_peer _ _ _ Hw) as Hpk. pose proof (so_pending _ Hs) as Hpend. pose proof (so_distinct _ Hs) as Hdist.
  destruct Hs as [[] ]. destruct so_peers as (? & Hsent & ? & ?). constructor; try done.
  - intros m' (i & Hne & Hi)%elem_delete. destruct (Hpend m') as (p' & Hw' & Hin); [by eapply list_elem_of_lookup_2|].
    exists p'. split; [done|]. cbn. apply peer_kept; [done|by apply Hw| |done]. intros ->. apply Hne. eapply Hdist; eauto using waiting_peer.
  - cbn. intros i j mi mj q Hi Hj Ei Ej. rewrite delete_lookup in Hi, Hj. pose proof (Hdist _ _ _ _ _ Hi Hj Ei Ej). repeat case_decide; lia.
  - cbn. split; [done|]. split; [by apply wf_peer_removed|done].
Qed.

Lemma settled_quiet s k p : quiet s (settled s k p).
Proof. by constructor. Qed.

Lemma settled_expired s k p q : expired_peer (settled s k p) q -> expired_peer s q.
Proof.
  intros (m & (i & _ & Hi)%elem_delete & ?). exists m. split; [by eapply list_elem_of_lookup_2|done].
Qed.

Lemma granted_sound s p : sound s -> wf_sockaddr p -> sound (priv_add_permission_for_peer s p).
Proof.
  intros [[] ] Hp. destruct so_peers as (? & ? & ? & ?). constructor; try done. cbn. split; [|done].
  apply Forall_app. by split; [|constructor].
Qed.

Lemma refreshed_ticks s k m p t : sound s -> ut_pending_permissions s !! k = Some m -> waiting STUN_CREATEPERMISSION m p ->
  timer_ok t -> ~ running (ut_now s) (tmg_timer m) ->
  ticks s (s <| ut_pending_permissions := <[k := mkTURNMessage (tmg_message m) t]> (ut_pending_permissions s) |>).
Proof.
  intros Hs Hk Hw Ht Hrun. set (s' := s <| ut_pending_permissions := _ |>).
  assert (Hback : forall i n, ut_pending_permissions s' !! i = Some n ->
    exists n', ut_pending_permissions s !! i = Some n' /\ tmg_message n' = tmg_message n /\ (n = n' \/ i = k)).
  { intros i n Hi. cbn in Hi. apply list_lookup_insert_Some in Hi as [(-> & <- & _)|[Hne Hi]]; [exists m|exists n]; eauto. }
  assert (Hs' : sound s').
  { pose proof (so_pending _ Hs) as Hpend. pose proof (so_distinct _ Hs) as Hdist. destruct Hs as [[] ]. constructor; try done.
    - intros n Hn. apply list_elem_of_lookup in Hn as [i Hi]. destruct (Hback i n Hi) as (n' & Hi' & _ & [->| ->]).
      + apply Hpend. by eapply list_elem_of_lookup_2.
      + cbn in Hi. rewrite list_lookup_insert_eq in Hi by (by eapply lookup_lt_Some). injection Hi as <-.
        destruct (Hpend m) as (q & Hq & ?); [by eapply list_elem_of_lookup_2|]. exists q. by split; [apply waiting_timer|].
    - intros i j mi mj q Hi Hj. destruct (Hback _ _ Hi) as (? & Hi' & <- & _). destruct (Hback _ _ Hj) as (? & Hj' & <- & _). by apply Hdist. }
  constructor; try done; [by apply quiet_evolves; [|by constructor]| |by left].
  intros q (n & Hn & Hq & Hr). apply list_elem_of_lookup in Hn as [i Hi]. destruct (Hback i n Hi) as (n' & Hi' & Em & [->| ->]).
  - exists n'. split; [by eapply list_elem_of_lookup_2|done].
  - rewrite Hk in Hi'. injection Hi' as <-. exists m. split; [by eapply list_elem_of_lookup_2|]. split; [congruence|done].
Qed.

(** A permission that is granted by a timeout. *)
Lemma timed_out_ticks s s1 k m p : ticks s s1 -> expired_peer s p -> ut_pending_permissions s1 !! k = Some m ->
  waiting STUN_CREATEPERMISSION m p ->
  ensures (socket_dequeue_all_data (priv_add_permission_for_peer (settled s1 k p) p) p) (ticks s).
Proof.
  intros H1 Hex Hk Hw. pose proof (ticks_sound _ _ H1) as Hs1. pose proof (settled_sound _ _ _ _ Hs1 Hk Hw) as Hs2.
  eapply ensures_mono; [apply (released (settled s1 k p)); [by apply granted_sound; [|apply Hw]|by apply Hw|by constructor]|].
  intros s3 [He E]. destruct H1 as [E1 C1 B1 N1 X1 P1]. constructor.
  - eapply evolves_nil; [exact E1|]. eapply evolves_nil; [|exact He]. by apply quiet_evolves, settled_quiet.
  - by rewrite E.
  - by rewrite E.
  - by rewrite E.
  - intros q Hq. apply X1, (settled_expired s1 k p). rewrite E in Hq. exact Hq.
  - intros q Hq. rewrite E in Hq. cbn in Hq. apply elem_of_app in Hq as [Hq|Hq%list_elem_of_singleton]; [by apply P1|right; by subst].
Qed.

Lemma create_permission_tick_ticks s k m : sound s -> ut_pending_permissions s !! k = Some m -> ~ running (ut_now s) (tmg_timer m) ->
  ensures (priv_retransmissions_create_permission_tick_unlocked s k) (fun '(_, s') => ticks s s').
Proof.
  intros Hs Hk Hrun. unfold priv_retransmissions_create_permission_tick_unlocked. rewrite Hk.
  destruct (pending_at _ _ _ Hs Hk) as (p & Hw & _). pose proof Hw as (Hp & Ht & l & Hm).
  eapply ensures_bind; [apply timer_refreshed; [by apply so_clock|done]|]. intros [r t] (Ht' & _ & _).
  pose proof (refreshed_ticks _ _ _ _ t Hs Hk Hw Ht' Hrun) as H0. set (s0 := s <| ut_pending_permissions := _ |>) in *.
  pose proof (ticks_sound _ _ H0) as Hs0. destruct r.
  - by apply ensures_ret.
  - rewrite (rq_length _ _ _ _ Hm). cbn [mbind res_bind]. eapply ensures_bind; [eapply request_ticks; [done|done|done|by left]|].
    intros [ret s1] (H1 & _). apply ensures_ret. by eapply ticks_trans.
  - eapply ensures_bind; [apply ensures_any|]. intros id _. rewrite (waiting_peer _ _ _ Hw). cbn [mbind res_bind].
    pose proof (set_agent_ticks s0 _ Hs0 (forget_modern (ut_agent s0) id (mc_agent _ (so_config _ Hs0)))) as H1.
    set (s1 := s0 <| ut_agent := _ |>) in *.
    eapply ensures_bind; [eapply (timed_out_ticks s s1 k)|intros s2 H2; by apply ensures_ret].
    + by eapply ticks_trans.
    + exists m. split; [by eapply list_elem_of_lookup_2|]. split; [by eapply waiting_peer|done].
    + cbn. by rewrite list_lookup_insert_eq by (by eapply lookup_lt_Some).
    + by apply waiting_timer.
Qed.

Lemma pending_permissions_ticks fuel s k t : sound s -> ensures (pending_permissions_loop (Fault OutOfFuel) fuel s k t) (fun '(_, s') => ticks s s').
Proof.
  revert s k t. induction fuel as [|fuel IH]; intros s k t Hs; cbn [pending_permissions_loop];
    (destruct (ut_pending_permissions s !! k) as [m|] eqn:Ek; [|apply ensures_ret; by apply ticks_refl]); [apply ensures_fault|].
  destruct (Z.ltb_spec 0 (stun_timer_remainder (ut_now s) (tmg_timer m))) as [Hr|Hr]; [by apply IH|].
  eapply ensures_bind; [eapply create_permission_tick_ticks; [done|done|unfold running; lia]|]. intros [ret s1] H1.
  eapply ensures_mono; [apply IH; by eapply ticks_sound|]. intros [t' s2] H2. by eapply ticks_trans.
Qed.

(** These functions leave the timers alone. *)
Lemma dequeue_all_state s p : ensures (socket_dequeue_all_data s p) (fun s' =>
  ut_tick_source_create_permission s' = ut_tick_source_create_permission s).
Proof.
  unfold socket_dequeue_all_data. case_match; [|by apply ensures_ret].
  eapply ensures_bind; [apply dequeue_state|]. intros s1 E. apply ensures_ret. by rewrite E.
Qed.

Lemma dequeue_all_pending s p : ensures (socket_dequeue_all_data s p) (fun s' =>
  ut_pending_permissions s' = ut_pending_permissions s /\ ut_now s' = ut_now s).
Proof.
  unfold socket_dequeue_all_data. case_match; [|by apply ensures_ret].
  eapply ensures_bind; [apply dequeue_state|]. intros s1 E. apply ensures_ret. by rewrite E.
Qed.

Lemma create_permission_tick_state s k : ensures (priv_retransmissions_create_permission_tick_unlocked s k) (fun '(_, s') =>
  ut_tick_source_create_permission s' = ut_tick_source_create_permission s).
Proof.
  unfold priv_retransmissions_create_permission_tick_unlocked. case_match; [|apply ensures_fault].
  eapply ensures_bind; [apply ensures_any|]. intros [r t'] _. destruct r.
  - by apply ensures_ret.
  - eapply ensures_bind; [apply ensures_any|]. intros l _. eapply ensures_bind; [apply wrapped_state|].
    intros [ret s1] E. apply ensures_ret. by rewrite E.
  - eapply ensures_bind; [apply ensures_any|]. intros id _. eapply ensures_bind; [apply ensures_any|]. intros p _.
    eapply ensures_bind; [apply dequeue_all_state|]. intros s1 E. by apply ensures_ret.
Qed.

Lemma pending_permissions_state fuel s k t : ensures (pending_permissions_loop (Fault OutOfFuel) fuel s k t) (fun '(_, s') =>
  ut_tick_source_create_permission s' = ut_tick_source_create_permission s).
Proof.
  revert s k t. induction fuel as [|fuel IH]; intros s k t; cbn [pending_permissions_loop]; (case_match; [|by apply ensures_ret]);
    [apply ensures_fault|]. case_match; [by apply IH|].
  eapply ensures_bind; [apply create_permission_tick_state|]. intros [ret s1] E1. eapply ensures_mono; [apply IH|].
  intros [t' s2] E2. congruence.
Qed.

Lemma schedule_create_permission_ticks s : sound s -> ensures (schedule_create_permission s) (ticks s).
Proof.
  intros Hs. unfold schedule_create_permission. pose proof (tick_permission_cleared s Hs) as H0.
  set (s0 := (destroy_if_set s _) <| ut_tick_source_create_permission := None |>) in *.
  assert (T0 : ticks s s0) by (apply ticks_same; try done; unfold s0; by destruct (ut_tick_source_create_permission s)).
  intros s2 H. apply bind_Ok_inv in H as ([t s1] & Hl & H).
  pose proof (pending_permissions_ticks _ _ _ _ (ticks_sound _ _ T0) _ Hl) as H1. pose proof (pending_permissions_state _ _ _ _ _ Hl) as En.
  cbn beta iota in H1, En, H. assert (T1 : ticks s s1) by (by eapply ticks_trans). destruct (negb _); [|by injection H as <-].
  pose proof (tick_permission_set s1 t (ticks_sound _ _ T1) En) as H2. cbn [priv_timeout_add_with_context] in *. injection H as <-.
  eapply ticks_trans; [exact T1|]. by apply ticks_same.
Qed.

(** ** The functions *)
Section body.
Context {CL : CryptoLib} {R : TurnRandom} {RL : TurnRandomLaws} (package_string : list Z) {Tick : ScheduleTick B}.

(** The retransmission timer of the binding request runs. *)
Definition fresh s : Prop := forall m, ut_current_binding_msg s = Some m -> running (ut_now s) (tmg_timer m).

Hypothesis tick_spec : forall s, sound s -> fresh s -> ensures (schedule_tick s) (ticks s).

(** The request is on its way, with its timer. *)
Definition turn_message_sent s (m : StunMessage) (l : Z) : res (StunTimer * UdpTurnPriv B) :=
  if base_is_reliable s then
    '(_, s) ← _socket_send_wrapped s (ut_server_addr s) l (buffer m) true;
    timer ← stun_timer_start_reliable (ut_now s) STUN_TIMER_DEFAULT_RELIABLE_TIMEOUT;
    Ok (timer, s)
  else
    '(ret, s) ← _socket_send_wrapped s (ut_server_addr s) l (buffer m) true;
    '(_, s) ← (if ret <? 0 then _socket_send_wrapped s (ut_server_addr s) l (buffer m) false else Ok (ret, s));
    timer ← stun_timer_start (ut_now s) STUN_TIMER_DEFAULT_TIMEOUT STUN_TIMER_DEFAULT_MAX_RETRANSMISSIONS;
    Ok (timer, s).

Lemma turn_message_sent_ticks s m p l : sound s -> request_ok m STUN_CHANNELBIND p l -> wf_sockaddr p ->
  ensures (turn_message_sent s m l) (fun '(t, s') => ticks s s' /\ timer_ok t /\ running (ut_now s') t).
Proof.
  intros Hs Hm Hp. unfold turn_message_sent. destruct (base_is_reliable s).
  - eapply ensures_bind; [by eapply request_ticks; [..|right]|]. intros [ret s1] (H1 & _ & _).
    pose proof (so_clock _ (ticks_sound _ _ H1)).
    eapply ensures_bind; [by apply timer_started_reliable|]. intros t Ht. apply ensures_ret. by split.
  - eapply ensures_bind; [by eapply request_ticks; [..|right]|]. intros [ret s1] (H1 & E1 & _).
    eapply (ensures_bind _ _ (fun '(_, s') => ticks s s')).
    + destruct (ret <? 0); [|by apply ensures_ret].
      eapply ensures_mono; [eapply request_ticks; [by eapply ticks_sound|done..|by right]|].
      intros [? s2] (H2 & _). by eapply ticks_trans.
    + intros [_ s2] H2. pose proof (so_clock _ (ticks_sound _ _ H2)).
      eapply ensures_bind; [by apply timer_started|]. intros t Ht. by apply ensures_ret.
Qed.

(** It is recorded. *)
Lemma turn_message_recorded s m p l : sound s -> request_ok m STUN_CHANNELBIND p l -> wf_sockaddr p ->
  ensures (turn_message_sent (s <| ut_current_binding_msg := None |>) m l) (fun '(t, s') =>
    let s' := s' <| ut_current_binding_msg := Some (mkTURNMessage m t) |> in ticks s s' /\ fresh s').
Proof.
  intros Hs Hm Hp. pose proof (no_message_ticks s Hs) as H0.
  eapply ensures_mono; [eapply turn_message_sent_ticks; [by eapply ticks_sound|done..]|]. intros [t s1] (H1 & Ht & Hrun).
  assert (Hw : waiting STUN_CHANNELBIND (mkTURNMessage m t) p) by (split; [done|]; split; [done|]; by exists l).
  pose proof (message_ticks _ _ _ (ticks_sound _ _ H1) Hw) as H2. split; [|intros m' [= <-]; done].
  eapply ticks_trans; [done|]. by eapply ticks_trans.
Qed.

Lemma send_turn_message_ticks s m p l : sound s -> request_ok m STUN_CHANNELBIND p l -> wf_sockaddr p ->
  ensures (priv_send_turn_message s m) (ticks s).
Proof.
  intros Hs Hm Hp. unfold priv_send_turn_message. rewrite (rq_length _ _ _ _ Hm). cbn [mbind res_bind].
  eapply ensures_bind; [by eapply turn_message_recorded|]. intros [t s1] [H1 Hf].
  eapply ensures_mono; [apply tick_spec; [by eapply ticks_sound|done]|]. intros s2 H2. by eapply ticks_trans.
Qed.

Lemma send_channel_bind_ticks s ch p : sound s -> wf_sockaddr p ->
  ensures (priv_send_channel_bind package_string s ch p) (fun '(_, s') => ticks s s').
Proof.
  intros Hs Hp. unfold priv_send_channel_bind. eapply ensures_bind; [apply ensures_eq|]. intros [[ok m] s0] E.
  destruct (channel_bind_request_spec _ _ _ _ _ _ _ (so_config _ Hs) Hp E) as [-> Hok].
  pose proof (transactions_ticks s (ut_transactions s + 1) Hs) as H0. set (s0 := s <| ut_transactions := _ |>) in *.
  destruct ok; cbn [negb]; [|by apply ensures_ret]. destruct (Hok eq_refl) as (id & attrs & k & Hb & Hid & Hsz & Hf).
  pose proof (ticks_sound _ _ H0) as Hs0.
  eapply ensures_bind; [apply ensures_eq|]. intros [[l ag] m'] Ef.
  destruct (finish_names _ _ _ _ _ _ _ _ _ _ _ (mc_agent _ (so_config _ Hs0)) Hb Hid Hsz Hf Ef) as [Ha Hreq].
  pose proof (set_agent_ticks s0 ag Hs0 Ha) as H1.
  destruct (Z.ltb_spec 0 l) as [Hl|Hl]; [|apply ensures_ret; by eapply ticks_trans].
  eapply ensures_bind; [eapply send_turn_message_ticks; [by eapply ticks_sound|by apply Hreq|done]|].
  intros s2 H2. apply ensures_ret. eapply ticks_trans; [done|]. by eapply ticks_trans.
Qed.

Lemma add_channel_binding_ticks s p : sound s -> wf_sockaddr p ->
  ensures (priv_add_channel_binding package_string s p) (fun '(_, s') => ticks s s').
Proof.
  intros Hs Hp. unfold priv_add_channel_binding. rewrite (so_compat _ Hs). destruct (so_peers _ Hs) as (_ & _ & Hw & _).
  destruct (ut_current_binding s) as [b|].
  - apply ensures_ret. apply waiting_bindings_ticks; [done|]. apply Forall_app. by split; [|constructor].
  - rewrite channel_found by done. cbn [mbind res_bind]. destruct (_ && _) eqn:Eg; [|apply ensures_ret; by apply ticks_refl].
    apply andb_true_iff in Eg as [_ Hlt%Z.ltb_lt]. eapply ensures_bind; [by apply send_channel_bind_ticks|].
    intros [ret s1] H1. apply ensures_ret. destruct ret; [|done]. eapply ticks_trans; [done|].
    apply binding_ticks; [by eapply ticks_sound|done| |done]. by rewrite (tk_channels _ _ H1).
Qed.

Lemma pending_bindings_ticks fuel s ret : sound s -> ensures (pending_bindings_loop package_string (Fault OutOfFuel) fuel s ret) (ticks s).
Proof.
  revert s ret. induction fuel as [|fuel IH]; intros s ret Hs; cbn [pending_bindings_loop];
    (destruct ret; [apply ensures_ret; by apply ticks_refl|]); destruct (so_peers _ Hs) as (_ & _ & Hw & _);
    destruct (ut_pending_bindings s) as [|p l] eqn:El; try (apply ensures_ret; by apply ticks_refl); [apply ensures_fault|].
  apply Forall_cons in Hw as [Hp _]. eapply ensures_bind; [by apply add_channel_binding_ticks|]. intros [ret s1] H1.
  pose proof (ticks_sound _ _ H1) as Hs1. destruct (so_peers _ Hs1) as (_ & _ & Hw1 & _).
  assert (H2 : ticks s1 (s1 <| ut_pending_bindings := tail (ut_pending_bindings s1) |>)).
  { apply waiting_bindings_ticks; [done|]. by destruct Hw1. }
  eapply ensures_mono; [apply IH; by eapply ticks_sound|]. intros s3 H3. eapply ticks_trans; [done|]. by eapply ticks_trans.
Qed.

Lemma process_pending_bindings_ticks s : sound s -> ensures (priv_process_pending_bindings package_string s) (ticks s).
Proof.
  intros Hs. unfold priv_process_pending_bindings. eapply ensures_bind; [by apply pending_bindings_ticks|]. intros s1 H1.
  pose proof (ticks_sound _ _ H1) as Hs1.
  destruct (ut_pending_bindings s1); [|by apply ensures_ret]. destruct (ut_current_binding_msg s1); [by apply ensures_ret|].
  destruct (List.find cb_renew (ut_channels s1)) as [b|] eqn:Ef; [|by apply ensures_ret].
  apply find_some in Ef as [Hin _]. apply list_elem_of_In, list_elem_of_lookup in Hin as [k Hk].
  eapply ensures_bind; [apply send_channel_bind_ticks; [done|by apply (so_channels _ Hs1 k b)]|].
  intros [ret s2] H2. apply ensures_ret. by eapply ticks_trans.
Qed.

Lemma retransmissions_tick_ticks s : sound s ->
  ensures (priv_retransmissions_tick_unlocked package_string s) (fun '(_, s') => ticks s s').
Proof.
  intros Hs. unfold priv_retransmissions_tick_unlocked. destruct (ut_current_binding_msg s) as [m|] eqn:Em; [|apply ensures_ret; by apply ticks_refl].
  destruct (so_binding_msg _ Hs m Em) as (p & Hw). pose proof Hw as (Hp & Ht & l & Hm).
  eapply ensures_bind; [apply timer_refreshed; [by apply so_clock|done]|]. intros [r t] (Ht' & Hrun & _).
  pose proof (message_ticks _ _ _ Hs (waiting_timer _ _ _ t Hw Ht')) as H0. set (s0 := s <| ut_current_binding_msg := _ |>) in *.
  pose proof (ticks_sound _ _ H0) as Hs0.
  assert (Hf : r <> STUN_USAGE_TIMER_RETURN_TIMEOUT -> fresh s0) by (intros Hne m' [= <-]; destruct Hrun; done).
  eapply (ensures_bind _ _ (fun '(ret, s') => ticks s s' /\ (ret = true -> fresh s'))).
  - destruct r.
    + apply ensures_ret. split; [done|]. intros _. by apply Hf.
    + rewrite (rq_length _ _ _ _ Hm). cbn [mbind res_bind]. eapply ensures_bind; [eapply request_ticks; [done|done|done|by right]|].
      intros [ret s1] (H1 & E1 & _). apply ensures_ret. split; [by eapply ticks_trans|]. intros _. rewrite E1. by apply Hf.
    + eapply ensures_bind; [apply ensures_any|]. intros id _.
      pose proof (set_agent_ticks s0 _ Hs0 (forget_modern (ut_agent s0) id (mc_agent _ (so_config _ Hs0)))) as H1.
      pose proof (no_binding_ticks _ (ticks_sound _ _ H1)) as H2.
      pose proof (no_message_ticks _ (ticks_sound _ _ H2)) as H3.
      eapply ensures_bind; [eapply process_pending_bindings_ticks; by eapply ticks_sound|].
      intros s4 H4. apply ensures_ret. split; [|done]. do 4 (eapply ticks_trans; [done|]). done.
  - intros [ret s1] [H1 Hf1]. destruct ret; [|by apply ensures_ret].
    eapply ensures_bind; [apply tick_spec; [by eapply ticks_sound|by apply Hf1]|]. intros s2 H2. apply ensures_ret. by eapply ticks_trans.
Qed.

Lemma schedule_channel_bind_ticks s : sound s -> ensures (schedule_channel_bind package_string s) (ticks s).
Proof.
  intros Hs. unfold schedule_channel_bind. pose proof (tick_bind_cleared s Hs) as H0.
  set (s0 := (destroy_if_set s _) <| ut_tick_source_channel_bind := None |>) in *.
  assert (T0 : ticks s s0) by (apply ticks_same; try done; unfold s0; by destruct (ut_tick_source_channel_bind s)).
  pose proof (ticks_sound _ _ T0) as Hs0. destruct (ut_current_binding_msg s0) as [m|] eqn:Em; [|by apply ensures_ret].
  case_match.
  - pose proof (tick_bind_set s0 (stun_timer_remainder (ut_now s0) (tmg_timer m)) Hs0 eq_refl) as H2.
    cbn [priv_timeout_add_with_context] in *. apply ensures_ret. eapply ticks_trans; [exact T0|]. by apply ticks_same.
  - eapply ensures_bind; [by apply retransmissions_tick_ticks|]. intros [ret s1] H1. apply ensures_ret. by eapply ticks_trans.
Qed.

Lemma schedule_tick_step_ticks s : sound s -> ensures (schedule_tick_step package_string s) (ticks s).
Proof.
  intros Hs. unfold schedule_tick_step. eapply ensures_bind; [by apply schedule_channel_bind_ticks|]. intros s1 H1.
  eapply ensures_mono; [apply schedule_create_permission_ticks; by eapply ticks_sound|]. intros s2 H2. by eapply ticks_trans.
Qed.
End body.

(** ** The whole tick *)
Section whole.
Context {CL : CryptoLib} {R : TurnRandom} {RL : TurnRandomLaws} (package_string : list Z).

Lemma schedule_tick_ticks depth s : sound s -> ensures (priv_schedule_tick package_string depth s) (ticks s).
Proof.
  revert s. induction depth as [|depth IH]; intros s Hs; [apply ensures_fault|].
  cbn [priv_schedule_tick]. apply schedule_tick_step_ticks; [|done].
  intros s' Hs' _. by apply IH.
Qed.
End whole.
End tick.

(** * The TURN socket: the recursion of the timers ends

    [priv_schedule_tick] calls the retransmission functions for timers that
    have expired, and these call it again.  A timer that was just started or
    refreshed runs, so the inner call never gets there: the recursion is two
    deep.  The loops over the pending permissions and bindings end as well. *)

Section termination.
Context {B : Type} {NS : NiceSocket B} {RB : RelayBase B}.
Context {CL : CryptoLib} {R : TurnRandom} {RL : TurnRandomLaws} (package_string : list Z).
Implicit Types s : UdpTurnPriv B.

(** ** Independence of the recursive call *)
Section recursive_call.
Variables T T' : ScheduleTick B.
Hypothesis same : forall s, sound s -> fresh s -> @schedule_tick B T s = @schedule_tick B T' s.
Hypothesis tick_spec : forall s, sound s -> fresh s -> ensures (T' s) (ticks s).

Lemma send_turn_message_same s m p l : sound s -> request_ok m STUN_CHANNELBIND p l -> wf_sockaddr p ->
  priv_send_turn_message (Tick := T) s m = priv_send_turn_message (Tick := T') s m.
Proof.
  intros Hs Hm Hp. unfold priv_send_turn_message. rewrite (rq_length _ _ _ _ Hm). cbn [mbind res_bind].
  eapply bind_ext; [by eapply turn_message_recorded|]. intros [t s1] [H1 Hf]. apply same; [by eapply ticks_sound|done].
Qed.

Lemma send_channel_bind_same s ch p : sound s -> wf_sockaddr p ->
  priv_send_channel_bind package_string (Tick := T) s ch p = priv_send_channel_bind package_string (Tick := T') s ch p.
Proof.
  intros Hs Hp. unfold priv_send_channel_bind. eapply bind_ext; [apply ensures_eq|]. intros [[ok m] s0] E.
  destruct (channel_bind_request_spec _ _ _ _ _ _ _ (so_config _ Hs) Hp E) as [-> Hok].
  pose proof (transactions_ticks s (ut_transactions s + 1) Hs) as H0. set (s0 := s <| ut_transactions := _ |>) in *.
  destruct ok; cbn [negb]; [|done]. destruct (Hok eq_refl) as (id & attrs & k & Hb & Hid & Hsz & Hf).
  pose proof (ticks_sound _ _ H0) as Hs0.
  eapply bind_ext; [apply ensures_eq|]. intros [[l ag] m'] Ef.
  destruct (finish_names _ _ _ _ _ _ _ _ _ _ _ (mc_agent _ (so_config _ Hs0)) Hb Hid Hsz Hf Ef) as [Ha Hreq].
  pose proof (set_agent_ticks s0 ag Hs0 Ha) as H1.
  destruct (Z.ltb_spec 0 l) as [Hl|Hl]; [|done].
  by rewrite (send_turn_message_same _ m' p l (ticks_sound _ _ H1) (Hreq Hl) Hp).
Qed.

Lemma add_channel_binding_same s p : sound s -> wf_sockaddr p ->
  priv_add_channel_binding package_string (Tick := T) s p = priv_add_channel_binding package_string (Tick := T') s p.
Proof.
  intros Hs Hp. unfold priv_add_channel_binding. rewrite (so_compat _ Hs). destruct (ut_current_binding s); [done|].
  eapply bind_ext; [apply ensures_any|]. intros ch _. destruct (_ && _); [|done]. by rewrite send_channel_bind_same.
Qed.

Lemma pending_bindings_same fuel s ret : sound s ->
  pending_bindings_loop package_string (Tick := T) (Fault OutOfFuel) fuel s ret =
  pending_bindings_loop package_string (Tick := T') (Fault OutOfFuel) fuel s ret.
Proof.
  revert s ret. induction fuel as [|fuel IH]; intros s ret Hs; cbn [pending_bindings_loop];
    (destruct ret; [reflexivity|]); [reflexivity|].
  destruct (so_peers _ Hs) as (_ & _ & Hw & _). destruct (ut_pending_bindings s) as [|p l] eqn:El; [done|].
  apply Forall_cons in Hw as [Hp _]. rewrite add_channel_binding_same by done.
  eapply bind_ext; [by apply add_channel_binding_ticks|]. intros [ret s1] H1. pose proof (ticks_sound _ _ H1) as Hs1.
  destruct (so_peers _ Hs1) as (_ & _ & Hw1 & _).
  apply IH. eapply ticks_sound, waiting_bindings_ticks; [done|]. by destruct Hw1.
Qed.

Lemma process_pending_bindings_same s : sound s ->
  priv_process_pending_bindings package_string (Tick := T) s = priv_process_pending_bindings package_string (Tick := T') s.
Proof.
  intros Hs. unfold priv_process_pending_bindings. rewrite pending_bindings_same by done.
  eapply bind_ext; [by apply pending_bindings_ticks|]. intros s1 H1. pose proof (ticks_sound _ _ H1) as Hs1.
  destruct (ut_pending_bindings s1); [|done]. destruct (ut_current_binding_msg s1); [done|].
  destruct (List.find cb_renew (ut_channels s1)) as [b|] eqn:Ef; [|done].
  apply find_some in Ef as [Hin _]. apply list_elem_of_In, list_elem_of_lookup in Hin as [k Hk].
  by rewrite send_channel_bind_same by (done || by apply (so_channels _ Hs1 k b)).
Qed.

Lemma retransmissions_tick_same s : sound s ->
  priv_retransmissions_tick_unlocked package_string (Tick := T) s = priv_retransmissions_tick_unlocked package_string (Tick := T') s.
Proof.
  intros Hs. unfold priv_retransmissions_tick_unlocked. destruct (ut_current_binding_msg s) as [m|] eqn:Em; [|done].
  destruct (so_binding_msg _ Hs m Em) as (p & Hw). pose proof Hw as (Hp & Ht & l & Hm).
  eapply bind_ext; [apply timer_refreshed; [by apply so_clock|done]|]. intros [r t] (Ht' & Hrun & _).
  pose proof (message_ticks _ _ _ Hs (waiting_timer _ _ _ t Hw Ht')) as H0. set (s0 := s <| ut_current_binding_msg := _ |>) in *.
  pose proof (ticks_sound _ _ H0) as Hs0.
  assert (Hf : r <> STUN_USAGE_TIMER_RETURN_TIMEOUT -> fresh s0) by (intros Hne m' [= <-]; destruct Hrun; done).
  destruct r.
  - cbn [mbind res_bind]. by rewrite (same s0 Hs0 (Hf ltac:(done))).
  - rewrite (rq_length _ _ _ _ Hm). cbn [mbind res_bind]. rewrite !bind_assoc.
    eapply bind_ext; [eapply request_ticks; [done|done|done|by right]|]. intros [ret s1] (H1 & E1 & _). cbn [mbind res_bind].
    rewrite same; [done|by eapply ticks_sound|]. rewrite E1. by apply Hf.
  - rewrite !bind_assoc. eapply bind_ext; [apply ensures_any|]. intros id _.
    pose proof (set_agent_ticks s0 _ Hs0 (forget_modern (ut_agent s0) id (mc_agent _ (so_config _ Hs0)))) as H1.
    pose proof (no_binding_ticks _ (ticks_sound _ _ H1)) as H2.
    pose proof (no_message_ticks _ (ticks_sound _ _ H2)) as H3. cbv zeta.
    rewrite (process_pending_bindings_same _ (ticks_sound _ _ H3)), !bind_assoc. by eapply bind_ext; [apply ensures_any|].
Qed.

Lemma schedule_channel_bind_same s : sound s ->
  schedule_channel_bind package_string (Tick := T) s = schedule_channel_bind package_string (Tick := T') s.
Proof.
  intros Hs. unfold schedule_channel_bind. pose proof (tick_bind_cleared s Hs) as [Hs0 _].
  set (s0 := (destroy_if_set s _) <| ut_tick_source_channel_bind := None |>) in *. case_match; [|done]. case_match; [done|].
  by rewrite retransmissions_tick_same.
Qed.

Lemma schedule_tick_step_same s : sound s ->
  schedule_tick_step package_string (Tick := T) s = schedule_tick_step package_string (Tick := T') s.
Proof. intros Hs. unfold schedule_tick_step. by rewrite schedule_channel_bind_same. Qed.
End recursive_call.

(** While the timer of the binding request runs, there is no recursive call. *)
Lemma schedule_channel_bind_fresh (T T' : ScheduleTick B) s : fresh s ->
  schedule_channel_bind package_string (Tick := T) s = schedule_channel_bind package_string (Tick := T') s.
Proof.
  intros Hf. unfold schedule_channel_bind.
  set (s0 := (destroy_if_set s _) <| ut_tick_source_channel_bind := None |>).
  assert (E : ut_current_binding_msg s0 = ut_current_binding_msg s /\ ut_now s0 = ut_now s)
    by (unfold s0; by destruct (ut_tick_source_channel_bind s)).
  destruct E as [-> ->]. destruct (ut_current_binding_msg s) as [m|] eqn:Em; [|done].
  specialize (Hf m Em). unfold running in Hf. by rewrite (proj2 (Z.ltb_lt _ _) Hf).
Qed.

Lemma schedule_tick_step_fresh (T T' : ScheduleTick B) s : fresh s ->
  schedule_tick_step package_string (Tick := T) s = schedule_tick_step package_string (Tick := T') s.
Proof. intros Hf. unfold schedule_tick_step. by rewrite (schedule_channel_bind_fresh T T'). Qed.

Lemma schedule_tick_two_deep (T : ScheduleTick B) s : sound s ->
  schedule_tick_step package_string (Tick := fun s => schedule_tick_step package_string (Tick := T) s) s =
  priv_schedule_tick package_string TICK_DEPTH s.
Proof.
  intros Hs. unfold TICK_DEPTH. cbn [priv_schedule_tick]. apply schedule_tick_step_same; [| |done].
  - intros s' _ Hf. by apply schedule_tick_step_fresh.
  - intros s' Hs' _. apply (schedule_tick_ticks package_string 1). done.
Qed.

(** ** The loops *)

Definition stopped (now : timeval) (m : TURNMessage) : bool := negb (0 <? stun_timer_remainder now (tmg_timer m)).

(** A link that was refreshed is looked at twice. *)
Definition permission_cost s (k : nat) : nat :=
  (length (drop k (ut_pending_permissions s)) + length (List.filter (stopped (ut_now s)) (drop k (ut_pending_permissions s))))%nat.

Lemma permission_cost_bound s : (permission_cost s 0 <= 2 * length (ut_pending_permissions s))%nat.
Proof. unfold permission_cost. rewrite drop_0. pose proof (filter_length_le (stopped (ut_now s)) (ut_pending_permissions s)). lia. Qed.

Lemma permission_tick_cost s k m : sound s -> ut_pending_permissions s !! k = Some m -> stopped (ut_now s) m = true ->
  ensures (priv_retransmissions_create_permission_tick_unlocked s k) (fun '(_, s') => (permission_cost s' k < permission_cost s k)%nat).
Proof.
  intros Hs Hk Hst. destruct (pending_at _ _ _ Hs Hk) as (p & (_ & Ht & l & Hm) & _).
  unfold priv_retransmissions_create_permission_tick_unlocked. rewrite Hk.
  assert (Hc : permission_cost s k = (2 + length (drop (S k) (ut_pending_permissions s))
      + length (List.filter (stopped (ut_now s)) (drop (S k) (ut_pending_permissions s))))%nat)
    by (unfold permission_cost; rewrite (drop_S _ _ _ Hk); cbn; rewrite Hst; cbn; lia).
  eapply ensures_bind; [apply timer_refreshed; [by apply so_clock|done]|]. intros [r t] (_ & Hrun & _).
  set (l' := <[k := mkTURNMessage (tmg_message m) t]> (ut_pending_permissions s)).
  assert (Hlt : (k < length (ut_pending_permissions s))%nat) by (by eapply lookup_lt_Some).
  assert (Ed : drop (S k) l' = drop (S k) (ut_pending_permissions s)) by (apply drop_insert_lt; lia).
  assert (El : l' !! k = Some (mkTURNMessage (tmg_message m) t)) by (unfold l'; by rewrite list_lookup_insert_eq).
  assert (Hkeep : r <> STUN_USAGE_TIMER_RETURN_TIMEOUT -> forall s', ut_pending_permissions s' = l' -> ut_now s' = ut_now s ->
    (permission_cost s' k < permission_cost s k)%nat).
  { intros Hne s' E En. rewrite Hc. unfold permission_cost. rewrite E, En, (drop_S _ _ _ El), Ed. cbn [List.filter length].
    destruct Hrun as [|Hrun]; [done|]. unfold stopped at 1. cbn [tmg_timer]. unfold running in Hrun.
    rewrite (proj2 (Z.ltb_lt _ _) Hrun). cbn. lia. }
  destruct r.
  - apply ensures_ret. by apply Hkeep.
  - eapply ensures_bind; [apply ensures_any|]. intros sl _. eapply ensures_bind; [apply wrapped_state|]. intros [ret s1] E1.
    apply ensures_ret. apply Hkeep; [done|by rewrite E1..].
  - eapply ensures_bind; [apply ensures_any|]. intros id _. eapply ensures_bind; [apply ensures_any|]. intros q _.
    eapply ensures_bind; [apply dequeue_all_pending|]. intros s1 [E1 E2]. apply ensures_ret. rewrite Hc. unfold permission_cost.
    cbn in E1, E2. rewrite E1, E2. fold l'. rewrite delete_take_drop, drop_app_ge by (rewrite length_take; lia).
    rewrite length_take, Nat.min_l, Nat.sub_diag, drop_0, Ed; unfold l'; rewrite ?length_insert; lia.
Qed.

Lemma pending_permissions_fuel out out' n n' s k t : sound s -> (permission_cost s k <= n)%nat -> (permission_cost s k <= n')%nat ->
  pending_permissions_loop out n s k t = pending_permissions_loop out' n' s k t.
Proof.
  revert n' s k t. induction n as [|n IH]; intros n' s k t Hs Hn Hn';
    destruct (ut_pending_permissions s !! k) as [m|] eqn:Ek;
    try (destruct n'; cbn [pending_permissions_loop]; rewrite Ek; reflexivity);
    pose proof (drop_S _ _ _ Ek) as Ed; assert (Hpos : (1 <= permission_cost s k)%nat) by (unfold permission_cost; rewrite Ed; cbn; lia);
    [lia|]. destruct n' as [|n']; [lia|]. cbn [pending_permissions_loop]. rewrite Ek.
  destruct (0 <? stun_timer_remainder (ut_now s) (tmg_timer m)) eqn:Er.
  - assert (Hc : (permission_cost s (k + 1) < permission_cost s k)%nat).
    { unfold permission_cost. rewrite Ed, Nat.add_1_r. cbn [List.filter]. unfold stopped at 2. rewrite Er. cbn. lia. }
    apply IH; [done|lia..].
  - eapply bind_ext with (Q := fun '(_, s') => ticks s s' /\ (permission_cost s' k < permission_cost s k)%nat).
    + intros [ret s1] E. split.
      * refine (create_permission_tick_ticks s k m Hs Ek _ _ E). unfold running. by apply Z.ltb_ge in Er as ?; lia.
      * refine (permission_tick_cost s k m Hs Ek _ _ E). unfold stopped. by rewrite Er.
    + intros [ret s1] [H1 Hc]. apply IH; [by eapply ticks_sound|lia..].
Qed.

(** A binding that cannot be requested leaves the list of those that wait. *)
Lemma add_refused (T : ScheduleTick B) s p : sound s -> ut_current_binding s = None ->
  ensures (priv_add_channel_binding package_string (Tick := T) s p) (fun '(ret, s') =>
    ret = false -> ut_pending_bindings s' = ut_pending_bindings s /\ ut_current_binding s' = None).
Proof.
  intros Hs Hn. unfold priv_add_channel_binding. rewrite Hn, (so_compat _ Hs), channel_found by done. cbn [mbind res_bind].
  destruct (_ && _); [|by apply ensures_ret].
  eapply (ensures_bind _ _ (fun '(ret, s') => ret = false -> ut_pending_bindings s' = ut_pending_bindings s /\ ut_current_binding s' = None)).
  - unfold priv_send_channel_bind, channel_bind_request, init_request. rewrite !bind_assoc. eapply ensures_bind; [apply ensures_any|].
    intros [ok m] _. cbn [mbind res_bind]. rewrite !bind_assoc. eapply ensures_bind; [apply ensures_any|]. intros st _.
    rewrite !bind_assoc. eapply ensures_bind; [apply ensures_any|]. intros st' _. rewrite !bind_assoc. eapply ensures_bind; [apply ensures_any|].
    intros [ok' m'] _. cbn [mbind res_bind]. destruct ok'; cbn [negb]; [|by apply ensures_ret].
    eapply ensures_bind; [apply ensures_any|]. intros [[l ag] m2] _. destruct (0 <? l); [|by apply ensures_ret].
    eapply ensures_bind; [apply ensures_any|]. intros s2 _. by apply ensures_ret.
  - intros [ret s1] H. apply ensures_ret. by destruct ret.
Qed.

Lemma pending_bindings_fuel (T : ScheduleTick B) out out' n n' s :
  (forall s, sound s -> fresh s -> ensures (T s) (ticks s)) -> sound s -> ut_current_binding s = None ->
  (length (ut_pending_bindings s) <= n)%nat -> (length (ut_pending_bindings s) <= n')%nat ->
  pending_bindings_loop package_string (Tick := T) out n s false = pending_bindings_loop package_string (Tick := T) out' n' s false.
Proof.
  intros HT. revert n' s. induction n as [|n IH]; intros n' s Hs Hc Hn Hn'; destruct (ut_pending_bindings s) as [|p l] eqn:El;
    try (destruct n'; cbn [pending_bindings_loop]; rewrite El; reflexivity); [cbn in Hn; lia|].
  destruct n' as [|n']; [cbn in Hn'; lia|]. cbn [pending_bindings_loop]. rewrite El.
  destruct (so_peers _ Hs) as (_ & _ & Hw & _). rewrite El in Hw. apply Forall_cons in Hw as [Hp _].
  eapply bind_ext with (Q := fun '(ret, s') => ticks s s' /\
    (ret = false -> ut_pending_bindings s' = ut_pending_bindings s /\ ut_current_binding s' = None)).
  - intros [ret s1] E. split; [exact (add_channel_binding_ticks package_string (Tick := T) HT s p Hs Hp _ E)|exact (add_refused T s p Hs Hc _ E)].
  - intros [ret s1] [H1 Hf]. destruct ret; [destruct n, n'; reflexivity|]. destruct (Hf eq_refl) as [E1 E2].
    pose proof (ticks_sound _ _ H1) as Hs1. destruct (so_peers _ Hs1) as (_ & _ & Hw1 & _).
    assert (H2 : ticks s1 (s1 <| ut_pending_bindings := tail (ut_pending_bindings s1) |>))
      by (apply waiting_bindings_ticks; [done|by destruct Hw1]).
    apply IH; [by eapply ticks_sound|done|..]; cbn; rewrite E1, El; cbn in *; lia.
Qed.
End termination.
