(* ===== verification/TurnOps.v ===== *)
(** * The TURN socket implements the relay: operations

    Sending, the timer callbacks and the messages of the server, as steps of
    the abstract relay of TurnSound. *)
From stdpp Require Import gmap sorting.
From S2P Require Import Prelude CMem StunTypes StunMessage StunWire StunAppend StunAccess StunCrc32 StunAgent StunIntegrity StunAgentSpec StunTimer StunIce StunTurn Address Candidate IceTypes IceEnv CheckTick IoMessage NiceSock TurnTcp TurnSocket TurnEvents TurnWire TurnSound TurnTick.
Local Open Scope Z_scope.

(** The largest payload. *)
Definition MAX_PAYLOAD : Z := 65000.

(** ** Send indications *)

Lemma finish_indication {CL : CryptoLib} a m id attrs k :
  modern_agent a -> building m (type_bytes STUN_INDICATION STUN_IND_SEND) id attrs ->
  spec_find STUN_ATTRIBUTE_REALM attrs = None ->
  ensures (stun_agent_finish_message a m k) (fun '(l, a', m') => l = 20 + zlen (enc_all attrs) /\ a' = a /\ buffer m' = buffer m /\
    stun_message_get_class m' = Ok STUN_INDICATION).
Proof.
  intros Ha Hb Hr. pose proof (bd_ok _ _ _ _ Hb) as [[rest Hrep] _ _].
  pose proof (repr_class m _ id attrs rest _ _ Hrep eq_refl) as [Hc _]. change (class_of_type _) with STUN_INDICATION in Hc.
  pose proof (repr_length Hrep) as Hl. unfold stun_agent_finish_message, remember_transaction. rewrite Hc. cbn [mbind res_bind].
  rewrite bool_decide_eq_false_2 by done.
  pose proof (modern_flags a Ha) as [Hf1 Hf2]. destruct Ha as [Hi Hsw]. rewrite Hi. cbn [compatibility turn_info].
  rewrite bool_decide_eq_false_2 by done. cbn [mbind res_bind andb]. change (Z.of_nat 0 =? STUN_AGENT_MAX_SAVED_IDS) with false. cbv iota.
  rewrite (bd_key _ _ _ _ Hb).
  assert (Hint : forall kv, add_integrity a m kv = Ok (true, m) \/ exists f, add_integrity a m kv = Fault f).
  { intros kv. unfold add_integrity. rewrite (bd_plain _ _ _ _ Hb). unfold agent_flag. rewrite Hi.
    change (flag _ _) with true. cbv iota. pose proof (find_cases _ _ _ _ _ STUN_ATTRIBUTE_REALM Hrep) as Hfr.
    rewrite (building_swap _ _ _ _ _ Hb), Hr in Hfr. rewrite Hfr. cbn [mbind res_bind].
    destruct (stun_message_find m STUN_ATTRIBUTE_USERNAME) as [u|f]; [left; by destruct u|right; by exists f]. }
  eapply (ensures_bind _ _ (fun r => r = (true, m))).
  { destruct k as [kv|]; [|by apply ensures_ret]. destruct (Hint kv) as [->|[f ->]]; [by apply ensures_ret|apply ensures_fault]. }
  intros ? ->. cbn [negb]. unfold add_fingerprint. rewrite Hf1, Hf2. cbn [andb negb mbind res_bind].
  eapply ensures_bind; [apply ensures_eq|]. intros l El. apply ensures_ret. split; [|done].
  unfold stun_message_length in *. cbn in El, Hl. congruence.
Qed.

(** A Send indication in the send buffer. *)
Definition send_indication (p : NiceAddress) (d w : list Z) : Prop :=
  exists attrs, about_peer STUN_INDICATION STUN_IND_SEND p w attrs /\ spec_find STUN_ATTRIBUTE_DATA attrs = Some d.

Lemma data_attrs m m' ty id p d : building m ty id [] -> building m' ty id [new_attr m id STUN_ATTRIBUTE_XOR_PEER_ADDRESS (xor_peer id p)] ->
  transid_ok id -> cookie_id id = true -> wf_sockaddr p ->
  let attrs := [new_attr m id STUN_ATTRIBUTE_XOR_PEER_ADDRESS (xor_peer id p); new_attr m' id STUN_ATTRIBUTE_DATA d] in
  spec_find STUN_ATTRIBUTE_XOR_PEER_ADDRESS attrs = Some (xor_peer id p) /\ spec_find STUN_ATTRIBUTE_DATA attrs = Some d /\
  spec_find STUN_ATTRIBUTE_REALM attrs = None.
Proof.
  intros Hb Hb' Hid Hck Hp. cbv zeta. cbn [spec_find].
  rewrite !w_type_new_attr, (building_swap _ _ _ _ _ Hb), (building_swap _ _ _ _ _ Hb').
  rewrite !w_val_new_attr by (right; by left). done.
Qed.

Lemma building_buffer m ty id attrs : building m ty id attrs -> buffer_ok (buffer m).
Proof.
  intros [[[rest Hr] Hs _] _ _ _ Hz]. split; [by apply (mr_bytes _ _ _ _ _ Hr)|]. by rewrite <-Hs.
Qed.

Section ops.
Context {B : Type} {NS : NiceSocket B} {RB : RelayBase B}.
Context {M : GMalloc} {ML : GMallocLaws} {CL : CryptoLib} {R : TurnRandom} {RL : TurnRandomLaws} (package_string : list Z).
Implicit Types s : UdpTurnPriv B.

(** A step that only prepares the send buffer. *)
Record prepares s s' : Prop := {
  pp_state : s' = s <| ut_transactions := ut_transactions s' |> <| ut_send_buffer := ut_send_buffer s' |>;
  pp_buffer : buffer_ok (ut_send_buffer s')
}.

Lemma prepares_evolves s s' : sound s -> prepares s s' -> evolves s [] s'.
Proof.
  intros [[] ] [E Hb]. rewrite E. apply quiet_evolves; [|by constructor]. by constructor.
Qed.

Lemma wrap_message_spec s p d message : sound s -> wf_sockaddr p -> bytes d -> zlen d <= MAX_PAYLOAD -> holds message d ->
  ensures (wrap_message package_string s p message) (fun '(len, s') => prepares s s' /\
    forall l, len = Some l -> 0 < l < 65536 /\ l <= zlen (ut_send_buffer s') /\ send_indication p d (take (Z.to_nat l) (ut_send_buffer s'))).
Proof.
  intros Hs Hp Hd Hl Hh. unfold MAX_PAYLOAD in Hl. pose proof (so_config _ Hs) as [Ha _ _ _ Hbuf _].
  unfold wrap_message, init_send. rewrite (so_compat _ Hs). change (modern _) with true. cbv iota.
  rewrite peer_sockaddr_wf by done. set (tid := turn_make_transid _). assert (Ht : transid_ok tid) by apply turn_transid_ok. clearbody tid.
  destruct (init_indication_modern tid _ _ STUN_IND_SEND Ha Hbuf Ht) as (m0 & -> & Hb0).
  destruct (cookied_ok tid Ht) as [Hid Hck]. set (id := cookied tid) in *. clearbody id. cbn [mbind res_bind].
  unfold step_append. rewrite !bind_assoc.
  eapply ensures_bind; [apply ensures_eq|]. intros [ret m1] E1. cbn [mbind res_bind].
  destruct (append_peer _ _ _ _ _ _ _ Hb0 Hid Hp ltac:(done) E1) as (more & Hb1 & Hn1 & Hs1). cbn [app] in Hb1.
  assert (Hprep : forall b m, building m (type_bytes STUN_INDICATION STUN_IND_SEND) id b ->
    prepares s (s <| ut_transactions := ut_transactions s + 1 |> <| ut_send_buffer := buffer m |>))
    by (intros b m Hb; split; [by destruct s|by eapply building_buffer]).
  destruct (is_success ret) eqn:Er; cbn [mbind res_bind negb]; [|apply ensures_ret; split; [by eapply Hprep|done]].
  unfold oc2007_attributes. change (ut_compatibility (s <| ut_transactions := _ |>)) with (ut_compatibility s). rewrite (so_compat _ Hs).
  cbn [mbind res_bind negb]. rewrite (compact_output_message_holds _ d Hh). cbn [mbind res_bind].
  specialize (Hs1 eq_refl). subst more. zlen_pos.
  eapply ensures_bind; [apply ensures_eq|]. intros [ret2 m2] E2.
  destruct (append_grows _ _ _ _ _ _ _ _ Hb1 Hd ltac:(lia) E2) as (more2 & Hb2 & Hn2 & Hs2).
  destruct (is_success ret2) eqn:Er2; cbn [negb]; [|apply ensures_ret; split; [by eapply (Hprep _ m2)|done]].
  rewrite (Hs2 eq_refl) in Hb2, Hn2. destruct (data_attrs m0 m1 _ id p d Hb0 Hb1 Hid Hck Hp) as (F1 & F2 & F3).
  match type of Hb2 with building _ _ _ ?A => set (attrs := A) in *; change (spec_find STUN_ATTRIBUTE_REALM attrs = None) in F3;
    change (spec_find STUN_ATTRIBUTE_XOR_PEER_ADDRESS attrs = Some (xor_peer id p)) in F1;
    change (spec_find STUN_ATTRIBUTE_DATA attrs = Some d) in F2 end.
  assert (HL : zlen (enc_all attrs) <= zlen d + 36) by (unfold attrs; rewrite enc_all_app, zlen_app; lia). clearbody attrs.
  eapply ensures_bind; [by eapply finish_indication|]. intros [[l ag] m3] (-> & -> & Eb3 & Ec3).
  rewrite Ec3. cbn [mbind res_bind]. rewrite (bool_decide_eq_false_2 (STUN_INDICATION = STUN_REQUEST)) by done.
  rewrite andb_false_r. cbv iota. apply ensures_ret. split.
  - split; [destruct s; by rewrite Eb3|cbn; rewrite Eb3; by eapply building_buffer].
  - intros l [= <-]. pose proof (bd_ok _ _ _ _ Hb2) as Hok. pose proof Hok as [[rest Hr] Hbl Hal].
    pose proof (bytes_meta_size _ _ _ _ _ Hr) as Hsz. zlen_pos.
    split; [lia|]. change (ut_send_buffer _) with (buffer m3). rewrite Eb3. split; [lia|].
    exists attrs. split; [|done]. exists id. by rewrite (take_wire m2 _ id attrs Hok).
Qed.

(** ** Channel data *)

(** Writing behind what was written before. *)
Lemma wr_behind buf pre data : take (length pre) buf = pre -> zlen pre + zlen data <= zlen buf -> bytes buf -> bytes data ->
  exists buf', wr_bytes buf (zlen pre) data = Ok buf' /\ zlen buf' = zlen buf /\ bytes buf' /\
    take (length (pre ++ data)) buf' = pre ++ data.
Proof.
  intros Ht Hz Hb Hd. zlen_pos. rewrite wr_bytes_Ok by lia. eexists. split; [done|]. split; [apply zlen_splice; lia|]. split.
  - unfold splice. rewrite !bytes_app. split; [by apply Forall_take|]. split; [done|by apply Forall_drop].
  - unfold splice. rewrite to_nat_zlen, Ht, app_assoc. by rewrite take_app_length.
Qed.

Lemma channel_data_vectors n j bufs bss off buf pre :
  vectors n j bufs bss -> zlen pre = 4 + off -> 0 <= off -> take (length pre) buf = pre -> zlen pre + zlen (concat bss) <= zlen buf ->
  bytes buf -> bytes (concat bss) ->
  exists buf', channel_data_loop n j bufs (off + zlen (concat bss)) off buf = Ok buf' /\ zlen buf' = zlen buf /\ bytes buf' /\
    take (length (pre ++ concat bss)) buf' = pre ++ concat bss.
Proof.
  intros Hv. revert off buf pre. induction Hv as [j bufs H|j v rest b bs bss H Hb Hs Hv IH]; intros off buf pre Hp Ho Ht Hz Hbb Hbc; cbn [concat] in *.
  - exists buf. rewrite app_nil_r. split; [|done]. destruct bufs; cbn [channel_data_loop]; by rewrite H.
  - rewrite zlen_app in *. apply bytes_app in Hbc as [Hb1 Hb2]. zlen_pos. cbn [channel_data_loop]. rewrite H. cbn [mbind res_bind].
    rewrite Hs, Z.min_r by lia. rewrite (vector_read_app v b bs) by (auto; lia). cbn [mbind res_bind]. rewrite slice_all.
    destruct (wr_behind buf pre b Ht ltac:(lia) Hbb Hb1) as (buf1 & E1 & Z1 & B1 & T1). rewrite <-Hp, E1. cbn [mbind res_bind].
    destruct (IH (off + zlen b) buf1 (pre ++ b)) as (buf2 & E2 & Z2 & B2 & T2); try done; [rewrite zlen_app; lia|lia|rewrite zlen_app; lia|].
    exists buf2. rewrite Z.add_assoc, E2. split; [done|]. split; [lia|]. split; [done|]. by rewrite app_assoc.
Qed.

Lemma channel_data_spec s ch d message : sound s -> bytes d -> zlen d <= MAX_PAYLOAD -> holds message d ->
  exists s', channel_data s ch message = Ok (Some (zlen d + 4), s') /\ prepares s s' /\ zlen d + 4 <= zlen (ut_send_buffer s') /\
    take (Z.to_nat (zlen d + 4)) (ut_send_buffer s') = be_bytes 2 ch ++ be_bytes 2 (zlen d) ++ d.
Proof.
  intros Hs Hd Hl Hh. unfold MAX_PAYLOAD in Hl. destruct (mc_buffer _ (so_config _ Hs)) as [Hb Hz].
  change STUN_MAX_MESSAGE_SIZE with 65552 in Hz. zlen_pos.
  unfold channel_data. rewrite (output_message_get_size_holds _ _ Hh). cbn [mbind res_bind].
  rewrite (proj2 (Z.leb_le _ STUN_MAX_MESSAGE_SIZE)) by (change STUN_MAX_MESSAGE_SIZE with 65552; lia).
  rewrite !le_bytes_htons, u16_small by lia.
  destruct (wr_behind (ut_send_buffer s) [] (be_bytes 2 ch)) as (b1 & E1 & Z1 & B1 & T1); [done|change (zlen [] + zlen (be_bytes 2 ch)) with 2; lia|done|apply bytes_be_bytes|].
  change (zlen []) with 0 in E1. rewrite E1. cbn [mbind res_bind app] in *.
  destruct (wr_behind b1 (be_bytes 2 ch) (be_bytes 2 (zlen d))) as (b2 & E2 & Z2 & B2 & T2);
    [done|change (zlen (be_bytes 2 ch) + zlen (be_bytes 2 (zlen d))) with 4; lia|done|apply bytes_be_bytes|].
  change (zlen (be_bytes 2 ch)) with 2 in E2. rewrite E2. cbn [mbind res_bind].
  destruct Hh as (bss & Hv & -> & _).
  destruct (channel_data_vectors _ _ _ _ 0 b2 (be_bytes 2 ch ++ be_bytes 2 (zlen (concat bss))) Hv) as (b3 & E3 & Z3 & B3 & T3);
    try done; [change (zlen (be_bytes 2 ch ++ be_bytes 2 (zlen (concat bss)))) with 4; lia|].
  rewrite Z.add_0_l in E3. rewrite E3. cbn [mbind res_bind]. eexists. split; [done|].
  assert (Hb3 : zlen b3 = 65552) by lia. split; [split; [by destruct s|by split]|].
  change (ut_send_buffer _) with b3. split; [lia|]. rewrite <-app_assoc in T3. rewrite <-T3. f_equal.
  rewrite !length_app. unfold zlen. change (length (be_bytes 2 ch)) with 2%nat.
  change (length (be_bytes 2 (Z.of_nat (length (concat bss))))) with 2%nat. lia.
Qed.

(** ** Permissions *)

#[local] Instance tick : ScheduleTick B := priv_schedule_tick package_string TICK_DEPTH.

Lemma schedule_ticks s : sound s -> ensures (schedule_tick s) (ticks s).
Proof. apply schedule_tick_ticks. Qed.

Definition not_pending s (p : NiceAddress) : Prop :=
  forall m, m ∈ ut_pending_permissions s -> peer_of_request (tmg_message m) <> Ok p.

Lemma not_sent_not_pending s p : sound s -> p ∉ ut_sent_permissions s -> not_pending s p.
Proof.
  intros Hs Hn m Hm E. destruct (so_pending _ Hs m Hm) as (q & Hw & Hin). rewrite (waiting_peer _ _ _ Hw) in E. congruence.
Qed.

Lemma not_pending_not_expired s p : not_pending s p -> ~ expired_peer s p.
Proof. intros Hn (m & Hm & E & _). by apply (Hn m). Qed.

Lemma sent_permission_ticks s p : sound s -> wf_sockaddr p -> ticks s (priv_add_sent_permission_for_peer s p).
Proof.
  intros Hs Hp. apply quiet_ticks; [|by constructor|done..]. pose proof (so_pending _ Hs) as Hpend.
  destruct Hs as [[] ]. destruct so_peers as (? & ? & ? & ?). constructor; try done.
  - intros m Hm. destruct (Hpend m Hm) as (q & ? & ?). exists q. split; [done|]. apply elem_of_app. by left.
  - cbn. split; [done|]. split; [|done]. apply Forall_app. by split; [|constructor].
Qed.

Lemma pending_ticks s m p : sound s -> waiting STUN_CREATEPERMISSION m p -> p ∈ ut_sent_permissions s -> not_pending s p ->
  running (ut_now s) (tmg_timer m) -> ticks s (s <| ut_pending_permissions := ut_pending_permissions s ++ [m] |>).
Proof.
  intros Hs Hw Hin Hn Hr. constructor; try done.
  - apply quiet_evolves; [|by constructor]. pose proof (so_pending _ Hs) as Hpend. pose proof (so_distinct _ Hs) as Hdist.
    destruct Hs as [[] ]. constructor; try done.
    + cbn. intros m' [Hm'|Hm'%list_elem_of_singleton]%elem_of_app; [by apply Hpend|]. subst. by exists p.
    + cbn. assert (Hnew : forall i n q, ut_pending_permissions s !! i = Some n -> peer_of_request (tmg_message n) = Ok q ->
        peer_of_request (tmg_message m) = Ok q -> False).
      { intros i n q Hi E1 E2. rewrite (waiting_peer _ _ _ Hw) in E2. injection E2 as <-. apply (Hn n); [by eapply list_elem_of_lookup_2|done]. }
      intros i j mi mj q Hi Hj Ei Ej. apply lookup_app_Some in Hi, Hj.
      destruct Hi as [Hi|[Hi Hi']], Hj as [Hj|[Hj Hj']].
      * by eapply Hdist.
      * apply list_lookup_singleton_Some in Hj' as [_ <-]. by destruct (Hnew _ _ _ Hi Ei Ej).
      * apply list_lookup_singleton_Some in Hi' as [_ <-]. by destruct (Hnew _ _ _ Hj Ej Ei).
      * apply list_lookup_singleton_Some in Hi' as [? _], Hj' as [? _]. lia.
  - intros q (n & Hn' & E & Hr'). cbn in *. apply elem_of_app in Hn' as [Hn'|Hn'%list_elem_of_singleton]; [by exists n|by subst].
  - by left.
Qed.

Lemma create_permission_ticks s p : sound s -> wf_sockaddr p -> not_pending s p ->
  ensures (priv_send_create_permission package_string s p) (fun '(_, s') => ticks s s').
Proof.
  intros Hs Hp Hnp. unfold priv_send_create_permission, priv_has_sent_permission_for_peer.
  destruct (so_peers _ Hs) as (_ & Hsent & _). rewrite peer_in_list by done.
  set (s0 := if negb _ then _ else s).
  assert (H0 : ticks s s0 /\ p ∈ ut_sent_permissions s0 /\ not_pending s0 p).
  { unfold s0. case_bool_decide; cbn [negb]; [split; [by apply ticks_refl|done]|]. split; [by apply sent_permission_ticks|].
    split; [apply elem_of_app; right; by apply list_elem_of_singleton|done]. }
  clearbody s0. destruct H0 as (H0 & Hin & Hnp0). pose proof (ticks_sound _ _ H0) as Hs0.
  eapply ensures_bind; [apply ensures_eq|]. intros [[l ag] m] E. destruct (so_config _ Hs0) as [Ha [Hu Hul] Hre Hno _ _].
  destruct (create_permission_spec _ _ _ _ _ _ _ _ _ _ _ Ha (turn_transid_ok _) Hp Hu Hul Hre Hno E) as [Hag Hreq].
  pose proof (agent_ticks s0 ag (ut_transactions s0 + 1) Hs0 Hag) as H1. set (s1 := s0 <| ut_agent := _ |> <| ut_transactions := _ |>) in *.
  change (s0 <| ut_transactions := _ |> <| ut_agent := _ |>) with s1. cbv zeta.
  assert (T1 : ticks s s1) by (by eapply ticks_trans). pose proof (ticks_sound _ _ T1) as Hs1.
  destruct (Z.ltb_spec 0 l) as [Hl|Hl]; [|by apply ensures_ret]. specialize (Hreq Hl).
  eapply ensures_bind; [eapply request_ticks; [done|done|done|by left]|]. intros [r2 s2] (H2 & E2 & _).
  eapply (ensures_bind _ _ (fun '(_, s') => ticks s s' /\ s' = s1 <| ut_base_socket := ut_base_socket s' |>)).
  { destruct (_ && _); [|apply ensures_ret; split; [by eapply ticks_trans|done]].
    eapply ensures_mono; [eapply request_ticks; [by eapply ticks_sound|done|done|by left]|]. intros [r3 s3] (H3 & E3 & _).
    split; [eapply ticks_trans; [done|]; by eapply ticks_trans|]. rewrite E3, E2. by destruct s1. }
  intros [r3 s3] [H3 E3]. destruct (r3 <? 0); [by apply ensures_ret|]. pose proof (ticks_sound _ _ H3) as Hs3.
  eapply (ensures_bind _ _ (fun t => timer_ok t /\ running (ut_now s3) t)).
  { pose proof (so_clock _ Hs3). destruct (base_is_reliable s3); [by apply timer_started_reliable|by apply timer_started]. }
  intros t [Ht Hrun]. assert (H4 : ticks s3 (s3 <| ut_pending_permissions := ut_pending_permissions s3 ++ [mkTURNMessage m t] |>)).
  { eapply (pending_ticks s3 _ p); [done|split; [done|]; split; [done|]; by exists l|by rewrite E3|by rewrite E3|done]. }
  eapply ensures_bind; [apply schedule_ticks; by eapply ticks_sound|]. intros s5 H5. apply ensures_ret.
  do 2 (eapply ticks_trans; [done|]). done.
Qed.

(** ** Sending *)

Definition accepted (p : NiceAddress) (r : bool) (d : list Z) (ret : Z) : list (NiceAddress * item) :=
  if 0 <? ret then [(p, (r, d))] else [].

Lemma evolves_start s1 s2 l s3 : evolves s1 [] s2 -> evolves s2 l s3 -> evolves s1 l s3.
Proof. intros H1 H2. apply (evolves_trans s1 [] s2 l s3 H1 H2). Qed.

Lemma send_wrapped_evolves s p d message l r : sound s -> wf_sockaddr p ->
  0 < l < 65536 -> l <= zlen (ut_send_buffer s) -> carries (ut_channels s) p d (take (Z.to_nat l) (ut_send_buffer s)) ->
  ensures (send_wrapped package_string s p message l r) (fun '(ret, s') => evolves s (accepted p r d ret) s').
Proof.
  intros Hs Hp Hl Hlb Hc. unfold send_wrapped, priv_has_permission_for_peer, priv_has_sent_permission_for_peer.
  rewrite (proj2 (Z.ltb_lt 0 l)) by lia. rewrite (bool_decide_eq_true_2 _ (so_compat _ Hs)). cbn [andb].
  destruct (so_peers _ Hs) as (Hperm & Hsent & _). rewrite !peer_in_list by done.
  case_bool_decide as Hin; cbn [negb].
  - eapply ensures_bind; [apply wrapped_one; lia|]. intros [ret s1] Hse. apply ensures_ret. unfold accepted.
    pose proof (sent_data s p _ r d ret s1 Hs Hin Hc Hse) as He.
    destruct (Z.eqb_spec ret 1) as [->|Hne]; [|done]. by rewrite (proj2 (Z.ltb_lt 0 l)) by lia.
  - eapply (ensures_bind _ _ (fun '(_, s') => ticks s s' /\ p ∉ ut_permissions s')).
    { case_bool_decide as Hsp; cbn [negb]; [apply ensures_ret; split; [by apply ticks_refl|done]|].
      pose proof (not_sent_not_pending _ _ Hs Hsp) as Hnp.
      eapply ensures_mono; [by apply create_permission_ticks|]. intros [ok s1] H1. split; [done|].
      intros [?|?]%(tk_permissions _ _ H1); [done|]. by apply (not_pending_not_expired s p). }
    intros [ok s1] [H1 Hn1]. destruct ok; cbn [negb]; [|apply ensures_ret; apply H1].
    eapply ensures_bind; [apply (data_enqueued s1 p l (ut_send_buffer s1) r d); try done|].
    + by eapply ticks_sound.
    + rewrite (tk_buffer _ _ H1). lia.
    + lia.
    + by rewrite (tk_buffer _ _ H1), (tk_channels _ _ H1).
    + intros s2 He. apply ensures_ret. unfold accepted. rewrite (proj2 (Z.ltb_lt 0 l)) by lia.
      eapply evolves_start; [apply H1|done].
Qed.

Lemma prepares_wraps s s' p d l message r : sound s -> wf_sockaddr p -> prepares s s' -> 0 < l < 65536 -> l <= zlen (ut_send_buffer s') ->
  carries (ut_channels s) p d (take (Z.to_nat l) (ut_send_buffer s')) ->
  ensures (send_wrapped package_string s' p message l r) (fun '(ret, s2) => evolves s (accepted p r d ret) s2).
Proof.
  intros Hs Hp Hpr Hl Hlb Hc. pose proof (prepares_evolves _ _ Hs Hpr) as He.
  assert (Ec : ut_channels s' = ut_channels s) by (by rewrite (pp_state _ _ Hpr)).
  eapply ensures_mono; [apply (send_wrapped_evolves s' p d); [apply He|done|done|done|by rewrite Ec]|].
  intros [ret s2] H2. by eapply evolves_start.
Qed.

Lemma socket_send_message_evolves s p d message r : sound s -> wf_sockaddr p -> bytes d -> zlen d <= MAX_PAYLOAD -> holds message d ->
  ensures (socket_send_message package_string s p message r) (fun '(ret, s') => evolves s (accepted p r d ret) s').
Proof.
  intros Hs Hp Hd Hl Hh. unfold socket_send_message.
  destruct (List.find _ (ut_channels s)) as [b|] eqn:Ef.
  - apply find_some in Ef as [Hin Heq]. apply list_elem_of_In in Hin. pose proof Hin as [k Hk]%list_elem_of_lookup.
    destruct (so_channels _ Hs k b Hk) as [[Hnum Hwf] _].
    rewrite nice_address_equal_wf in Heq by done. apply bool_decide_eq_true in Heq.
    rewrite (so_compat _ Hs). change (modern _) with true. cbv iota.
    destruct (channel_data_spec s (cb_channel b) d message Hs Hd Hl Hh) as (s1 & -> & Hpr & Hlb & Ht). cbn [mbind res_bind].
    unfold MAX_PAYLOAD in Hl. zlen_pos. eapply (prepares_wraps s s1); try done; [lia|]. left. by exists b.
  - eapply ensures_bind; [by apply (wrap_message_spec s p d)|]. intros [len s1] [Hpr Hlen].
    destruct len as [l|]; [|apply ensures_ret; by apply prepares_evolves].
    destruct (Hlen l eq_refl) as (Hl1 & Hl2 & Hi). eapply (prepares_wraps s s1); try done. by right.
Qed.

(** The items of the first [k] messages. *)
Definition items (p : NiceAddress) (r : bool) (datas : list (list Z)) : list (NiceAddress * item) := (fun d => (p, (r, d))) <$> datas.

(** A call with the messages [datas]: the first of them were accepted. *)
Definition call_evolves s (p : NiceAddress) (r : bool) (datas : list (list Z)) (i ret : Z) s' : Prop :=
  exists k, (k <= length datas)%nat /\ evolves s (items p r (take k datas)) s' /\
    (0 <= ret -> ret = i + Z.of_nat k) /\ (r = false -> ret < 0 -> i = 0 /\ k = 0%nat).

Definition payload (message : NiceOutputMessage) (d : list Z) : Prop := holds message d /\ bytes d /\ zlen d <= MAX_PAYLOAD.

Lemma send_loop_evolves p (r : bool) messages datas s i : Forall2 payload messages datas -> wf_sockaddr p -> sound s -> 0 <= i ->
  ensures ((if r then turn_send_reliable_loop package_string else turn_send_loop package_string) s p i messages)
    (fun '(ret, s') => call_evolves s p r datas i ret s').
Proof.
  intros Hm Hp. revert s i. induction Hm as [|m d ms ds (Hh & Hb & Hl) Hm IH]; intros s i Hs Hi.
  - assert (E : call_evolves s p r [] i i s).
    { exists 0%nat. split; [done|]. split; [by apply evolves_refl|]. split; lia. }
    by destruct r; apply ensures_ret.
  - assert (Hstop : forall len s1, evolves s (accepted p r d len) s1 -> len <= 0 -> forall ret, (0 <= ret -> ret = i) ->
      (r = false -> ret < 0 -> i = 0) -> call_evolves s p r (d :: ds) i ret s1).
    { intros len s1 He Hn ret H1 H2. unfold accepted in He. rewrite (proj2 (Z.ltb_ge 0 len)) in He by lia.
      exists 0%nat. split; [lia|]. split; [done|]. split; [intros H; rewrite (H1 H); lia|]. intros Hr H. split; [by apply H2|done]. }
    assert (Hgo : forall len s1, evolves s (accepted p r d len) s1 -> 0 < len -> forall ret s2, call_evolves s1 p r ds (i + 1) ret s2 ->
      call_evolves s p r (d :: ds) i ret s2).
    { intros len s1 He Hn ret s2 (k & Hk & He2 & Hr & Hf). unfold accepted in He. rewrite (proj2 (Z.ltb_lt 0 len)) in He by lia.
      exists (S k). split; [cbn; lia|]. split; [by apply (evolves_trans s _ s1 _ s2 He He2)|]. split; [lia|]. intros E H.
      destruct (Hf E H). lia. }
    destruct r; cbn [turn_send_loop turn_send_reliable_loop]; (eapply ensures_bind; [by apply (socket_send_message_evolves s p d)|]);
      intros [len s1] He; (destruct (Z.ltb_spec len 0) as [H1|H1];
        [apply ensures_ret; eapply Hstop; [done|lia|..]; try done; try (destruct (Z.ltb_spec 0 i)); intros; lia|]);
      (destruct (Z.eqb_spec len 0) as [->|H2]; [apply ensures_ret; eapply Hstop; [done|lia|..]; intros; lia|]);
      (eapply ensures_mono; [apply (IH s1 (i + 1)); [apply He|lia]|]); intros [ret s2] Hc; exact (Hgo len s1 He ltac:(lia) ret s2 Hc).
Qed.

Lemma send_messages_evolves s p (r : bool) messages datas : Forall2 payload messages datas -> wf_sockaddr p -> sound s ->
  ensures ((if r then turn_send_messages_reliable package_string else turn_send_messages package_string) s (Some p) messages)
    (fun '(ret, s') => call_evolves s p r datas 0 ret s').
Proof.
  intros Hm Hp Hs. pose proof (send_loop_evolves p r messages datas s 0 Hm Hp Hs ltac:(lia)) as Hloop.
  assert (Hnone : forall ret, ret <= 0 -> call_evolves s p r datas 0 ret s).
  { intros ret Hr. exists 0%nat. split; [lia|]. split; [by apply evolves_refl|]. split; lia. }
  destruct r; unfold turn_send_messages_reliable, turn_send_messages.
  - destruct (ut_base_is_udp_bsd s); [apply ensures_ret; apply Hnone; lia|]. destruct messages; [apply ensures_ret; by apply Hnone|exact Hloop].
  - destruct messages; [apply ensures_ret; by apply Hnone|exact Hloop].
Qed.
End ops.

(** * The TURN socket implements the relay: timers and messages of the server

    The timer callbacks, the answers to the socket's requests and the
    received packets, as steps of the abstract relay of TurnSound. *)

Section receive.
Context {B : Type} {NS : NiceSocket B} {RB : RelayBase B}.
Context {M : GMalloc} {ML : GMallocLaws} {CL : CryptoLib} {R : TurnRandom} {RL : TurnRandomLaws} (package_string : list Z).
Implicit Types s : UdpTurnPriv B.

#[local] Instance tick_received : ScheduleTick B := priv_schedule_tick package_string TICK_DEPTH.

Lemma tick_fresh s : sound s -> fresh s -> ensures (schedule_tick s) (ticks s).
Proof. intros Hs _. by apply schedule_tick_ticks. Qed.

(** ** Bindings *)

Lemma insert_keeps (l : list ChannelBinding) k b b' x : l !! k = Some b -> x ∈ l -> x = b \/ x ∈ <[k := b']> l.
Proof.
  intros Hk [i Hi]%list_elem_of_lookup. destruct (decide (i = k)) as [->|Hne]; [left; congruence|].
  right. apply list_elem_of_lookup. exists i. by rewrite list_lookup_insert_ne.
Qed.

Lemma insert_extends l k b b' : l !! k = Some b -> cb_peer b' = cb_peer b -> cb_channel b' = cb_channel b -> extends l (<[k := b']> l).
Proof.
  intros Hk Hp Hc x Hx. destruct (insert_keeps l k b b' x Hk Hx) as [->|Hin]; [|by exists x].
  exists b'. split; [|done]. apply list_elem_of_lookup. exists k. apply list_lookup_insert_eq. by eapply lookup_lt_Some.
Qed.

(** The timer of the binding at [k] is replaced. *)
Definition retimed s (k : nat) (b : ChannelBinding) (renew : bool) (interval : Z) (callback : turn_callback) : UdpTurnPriv B :=
  let s := destroy_if_set s (cb_timeout_source b) in
  let '(id, s) := priv_timeout_add_seconds_with_context s interval callback in
  s <| ut_channels := <[k := mkBinding (cb_peer b) (cb_channel b) renew (Some id)]> (ut_channels s) |>.

Lemma retimed_evolves s k b renew iv cb : sound s -> ut_channels s !! k = Some b -> cb = PrivBindingTimeout \/ cb = PrivBindingExpiredTimeout ->
  evolves s [] (retimed s k b renew iv cb).
Proof.
  intros Hs Hk Hcb. pose proof (so_sources s Hs) as Hr. rewrite Forall_forall in Hr.
  pose proof (so_channels s Hs) as Hch. pose proof (so_current s Hs) as Hcur.
  set (b' := mkBinding (cb_peer b) (cb_channel b) renew (Some (ut_next_source s))).
  assert (E : retimed s k b renew iv cb = s <| ut_channels := <[k := b']> (ut_channels s) |>
      <| ut_sources := ut_sources (destroy_if_set s (cb_timeout_source b)) ++ [mkSource (ut_next_source s) (iv * 1000) cb] |>
      <| ut_next_source := ut_next_source s + 1 |>) by (unfold retimed; destruct (cb_timeout_source b); done).
  rewrite E. clear E. apply quiet_evolves; [|constructor; try done; by apply (insert_extends _ k b)].
  assert (Hnew : Forall (recorded (s <| ut_channels := <[k := b']> (ut_channels s) |>))
    (ut_sources (destroy_if_set s (cb_timeout_source b)) ++ [mkSource (ut_next_source s) (iv * 1000) cb])).
  { apply Forall_app. split.
    - apply Forall_forall. intros src [Hin Hne]%elem_destroyed. specialize (Hr src Hin). unfold recorded in *.
      destruct (gs_callback src); try done; destruct Hr as (x & Hx & Ex); (destruct (insert_keeps _ k b b' x Hk Hx) as [->|Hx'];
        [by rewrite Ex in Hne|by exists x]).
    - constructor; [|done]. unfold recorded. assert (Hb' : exists x, x ∈ <[k := b']> (ut_channels s) /\ cb_timeout_source x = Some (ut_next_source s)).
      { exists b'. split; [|done]. apply list_elem_of_lookup. exists k. apply list_lookup_insert_eq. by eapply lookup_lt_Some. }
      by destruct Hcb as [->| ->]. }
  destruct (Hch k b Hk) as [Hnum _]. destruct Hs as [[] ]. constructor; try done; cbn.
  - intros j x Hj. apply list_lookup_insert_Some in Hj as [(-> & <- & _)|[_ Hj]]; [|by apply Hch]. by split.
  - by rewrite length_insert.
  - intros x Hx. rewrite length_insert. by apply Hcur.
Qed.

(** A granted new binding. *)
Lemma bound_new_evolves s b : sound s -> ut_current_binding s = Some b -> evolves s [] (channel_bound s (BoundNew b)).
Proof.
  intros Hs Hb. pose proof (so_sources s Hs) as Hr. rewrite Forall_forall in Hr.
  pose proof (so_channels s Hs) as Hch. destruct (so_current s Hs b Hb) as ([Hnum Hwf] & Hlt & Hnone).
  set (b' := mkBinding (cb_peer b) (cb_channel b) false (Some (ut_next_source s))).
  assert (E : channel_bound s (BoundNew b) = s <| ut_current_binding_msg := None |> <| ut_current_binding := None |>
      <| ut_channels := ut_channels s ++ [b'] |>
      <| ut_sources := ut_sources s ++ [mkSource (ut_next_source s) (STUN_BINDING_TIMEOUT * 1000) PrivBindingTimeout] |>
      <| ut_next_source := ut_next_source s + 1 |>).
  { unfold channel_bound. cbn. rewrite Hb. cbn. rewrite Hnone. cbn. rewrite length_app, Nat.add_sub, insert_app_r_alt, Nat.sub_diag by lia. done. }
  rewrite E. clear E. apply quiet_evolves; [|constructor; try done; intros x Hx; exists x; split; [|done]; apply elem_of_app; by left].
  destruct Hs as [[] ]. constructor; try done; cbn.
  - intros j x [Hj|[Hj Hx]]%lookup_app_Some; [by apply Hch|]. apply list_lookup_singleton_Some in Hx as [Hj' <-].
    split; [|done]. split; [|done]. cbn. lia.
  - rewrite length_app. cbn. lia.
  - apply Forall_app. split.
    + apply Forall_forall. intros src Hin. specialize (Hr src Hin). unfold recorded in *. destruct (gs_callback src); try done;
        destruct Hr as (x & Hx & ?); exists x; (split; [apply elem_of_app; by left|done]).
    + constructor; [|done]. exists b'. split; [|done]. apply elem_of_app. right. by apply list_elem_of_singleton.
Qed.

(** ** Timer callbacks *)

Lemma permission_timeout_evolves s : sound s -> evolves s [] (priv_clear_permissions s).
Proof.
  intros Hs. split.
  - destruct Hs as [[] ]. destruct so_peers as (? & ? & ? & ?). constructor; try done.
  - intros a [Ha Hl Hh]. eexists. split; [apply relay_steps_one, relay_expire|]. by constructor.
Qed.

(** Every binding has a timer, so none is taken for the expired one. *)
Lemma binding_expired_none s : sound s -> priv_binding_expired_timeout package_string s = Ok (false, s).
Proof.
  intros Hs. unfold priv_binding_expired_timeout. destruct (list_find _ (ut_channels s)) as [[k b]|] eqn:E; [|done].
  apply list_find_Some in E as (Hk & Hnone & _). destruct (so_channels _ Hs k b Hk) as [_ [id Hid]]. congruence.
Qed.

Lemma binding_timeout_evolves s source : sound s ->
  ensures (priv_binding_timeout package_string s source) (fun '(_, s') => evolves s [] s').
Proof.
  intros Hs. unfold priv_binding_timeout. destruct (list_find _ (ut_channels s)) as [[k b]|] eqn:E; [|apply ensures_ret; by apply evolves_refl].
  apply list_find_Some in E as (Hk & Hsrc & _). destruct (so_channels _ Hs k b Hk) as [[_ Hp] _].
  pose proof (retimed_evolves s k b true STUN_EXPIRE_TIMEOUT PrivBindingExpiredTimeout Hs Hk (or_intror eq_refl)) as He.
  unfold retimed in He. rewrite Hsrc in He. cbn [destroy_if_set priv_timeout_add_seconds_with_context priv_timeout_add_with_context] in *.
  set (s1 := (g_source_destroy s source) <| ut_sources := _ |> <| ut_next_source := _ |> <| ut_channels := _ |>) in *.
  case_match; [by apply ensures_ret|].
  eapply ensures_bind; [apply send_channel_bind_ticks; [by apply tick_fresh|apply He|done]|]. intros [ret s2] H2.
  apply ensures_ret. eapply evolves_nil; [exact He|apply H2].
Qed.

Lemma retransmissions_tick_evolves s : sound s ->
  ensures (priv_retransmissions_tick package_string s) (fun '(_, s') => evolves s [] s').
Proof.
  intros Hs. unfold priv_retransmissions_tick. eapply ensures_bind; [apply retransmissions_tick_ticks; [by apply tick_fresh|done]|].
  intros [ret s1] H1. apply ensures_ret. destruct ret; [apply H1|]. eapply evolves_nil; [apply H1|].
  apply tick_bind_cleared. by eapply ticks_sound.
Qed.

Lemma dispatch_evolves s src : sound s -> ensures (dispatch package_string s src) (evolves s []).
Proof.
  intros Hs. unfold dispatch. eapply (ensures_bind _ _ (fun '(_, s') => evolves s [] s')).
  - destruct (gs_callback src).
    + unfold priv_forget_send_request_timeout. rewrite (so_requests _ Hs). apply ensures_fault.
    + apply ensures_ret. by apply permission_timeout_evolves.
    + rewrite binding_expired_none by done. apply ensures_ret. by apply evolves_refl.
    + by apply binding_timeout_evolves.
    + by apply retransmissions_tick_evolves.
    + unfold priv_retransmissions_create_permission_tick. eapply ensures_bind; [by apply schedule_ticks|].
      intros s1 H1. apply ensures_ret. apply H1.
  - intros [stays s1] H1. apply ensures_ret. destruct stays; [done|]. eapply evolves_nil; [exact H1|].
    apply (sound_destroy s1 (Some (gs_id src))). apply H1.
Qed.

(** ** Messages from the server *)

Lemma rd_bytes_bytes b off n : bytes b -> ensures (rd_bytes b off n) bytes.
Proof.
  intros Hb v. unfold rd_bytes. case_match; [|done]. intros [= <-]. unfold slice. by apply Forall_take, Forall_drop.
Qed.

Lemma cached_attribute_ok m t : bytes (buffer m) -> ensures (cached_attribute m t) (fun '(v, _) => cached_ok v).
Proof.
  intros Hb. unfold cached_attribute. eapply ensures_bind; [apply ensures_any|]. intros [[ptr len]|] _; [|by apply ensures_ret].
  destruct (_ && _) eqn:E; [|by apply ensures_ret]. apply andb_true_iff in E as [H1%Z.ltb_lt H2%Z.ltb_lt].
  intros [v l] E. apply bind_Ok_inv in E as (w & Ew & [= <- <-]). intros x [= <-]. split; [by eapply rd_bytes_bytes|].
  unfold rd_bytes in Ew. case_match; [|done]. injection Ew as <-. rewrite zlen_slice; lia.
Qed.

Lemma cache_realm_nonce_evolves s m : sound s -> bytes (buffer m) ->
  ensures (nice_udp_turn_socket_cache_realm_nonce s m) (fun s' => evolves s [] s' /\ ut_pending_permissions s' = ut_pending_permissions s).
Proof.
  intros [[] ] Hb. unfold nice_udp_turn_socket_cache_realm_nonce. eapply ensures_bind; [by apply cached_attribute_ok|]. intros [r rl] Hr.
  eapply ensures_bind; [by apply cached_attribute_ok|]. intros [n nl] Hn. apply ensures_ret. split; [|done].
  apply quiet_evolves; [|by constructor]. by constructor.
Qed.

Definition bound_in s (binding : binding_match) : Prop :=
  match binding with
  | BoundNew b => ut_current_binding s = Some b
  | BoundAt k b => ut_current_binding s = None /\ ut_channels s !! k = Some b
  | Unbound => ut_current_binding s = None
  end.

Lemma answered_binding_bound s m : ensures (answered_binding s m) (bound_in s).
Proof.
  unfold answered_binding. destruct (ut_current_binding s) as [b|] eqn:Eb; [by apply ensures_ret|].
  eapply ensures_bind; [apply ensures_any|]. intros p _. apply ensures_ret.
  destruct (list_find _ (ut_channels s)) as [[k b]|] eqn:E; [|done]. by apply list_find_Some in E as (? & _).
Qed.

Lemma bound_peer s binding b : sound s -> bound_in s binding -> binding = BoundNew b \/ (exists k, binding = BoundAt k b) -> wf_sockaddr (cb_peer b).
Proof.
  intros Hs Hb [->|[k ->]]; cbn in Hb.
  - by destruct (so_current _ Hs b Hb) as ([_ ?] & _).
  - destruct Hb as [_ Hb]. by destruct (so_channels _ Hs k b Hb) as [[_ ?] _].
Qed.

Lemma channel_bound_evolves s binding : sound s -> bound_in s binding -> evolves s [] (channel_bound s binding).
Proof.
  intros Hs Hb. destruct binding as [b|k b|]; cbn in Hb; [by apply bound_new_evolves| |].
  - destruct Hb as [Hn Hk]. pose proof (no_message_ticks s Hs) as H0. pose proof (no_binding_ticks _ (ticks_sound _ _ H0)) as H1.
    set (s1 := s <| ut_current_binding_msg := None |> <| ut_current_binding := None |>) in *.
    pose proof (retimed_evolves s1 k b false STUN_BINDING_TIMEOUT PrivBindingTimeout (ticks_sound _ _ H1) Hk (or_introl eq_refl)) as He.
    assert (E : channel_bound s (BoundAt k b) = retimed s1 k b false STUN_BINDING_TIMEOUT PrivBindingTimeout)
      by (unfold channel_bound, retimed; cbn; rewrite Hn; done).
    rewrite E. eapply evolves_nil; [apply H0|]. eapply evolves_nil; [apply H1|done].
  - pose proof (no_message_ticks s Hs) as H0. pose proof (no_binding_ticks _ (ticks_sound _ _ H0)) as H1.
    assert (E : channel_bound s Unbound = s <| ut_current_binding_msg := None |> <| ut_current_binding := None |>)
      by (unfold channel_bound; cbn; rewrite Hb; done).
    rewrite E. eapply evolves_nil; [apply H0|apply H1].
Qed.

Lemma handle_channel_bind_evolves s msg : sound s -> bytes (buffer msg) ->
  ensures (handle_channel_bind package_string s msg) (evolves s []).
Proof.
  intros Hs Hb. unfold handle_channel_bind. destruct (ut_current_binding_msg s) as [m|]; [|apply ensures_ret; by apply evolves_refl].
  eapply ensures_bind; [apply ensures_any|]. intros rid _. eapply ensures_bind; [apply ensures_any|]. intros qid _.
  destruct (negb _); [apply ensures_ret; by apply evolves_refl|].
  eapply ensures_bind; [apply answered_binding_bound|]. intros binding Hbd. eapply ensures_bind; [apply ensures_any|]. intros c _.
  assert (Hpend : forall s', evolves s [] s' -> ensures (priv_process_pending_bindings package_string s') (evolves s [])).
  { intros s' He. eapply ensures_mono; [apply process_pending_bindings_ticks; [by apply tick_fresh|apply He]|].
    intros s2 H2. eapply evolves_nil; [exact He|apply H2]. }
  destruct c; try (apply ensures_ret; by apply evolves_refl); [by apply Hpend, channel_bound_evolves|].
  eapply ensures_bind; [apply ensures_any|]. intros again _. destruct again.
  - pose proof (no_message_ticks s Hs) as H0.
    eapply ensures_bind; [by apply cache_realm_nonce_evolves; [eapply ticks_sound|]|]. intros s1 [H1 _].
    assert (T1 : evolves s [] s1) by (eapply evolves_nil; [apply H0|done]).
    assert (Hsend : forall b, wf_sockaddr (cb_peer b) -> ensures ('(_, s) ← priv_send_channel_bind package_string s1 (cb_channel b) (cb_peer b); Ok s) (evolves s [])).
    { intros b Hp. eapply ensures_bind; [apply send_channel_bind_ticks; [by apply tick_fresh|apply T1|done]|].
      intros [ret s2] H2. apply ensures_ret. eapply evolves_nil; [exact T1|apply H2]. }
    destruct binding as [b|k b|]; [apply Hsend; by eapply bound_peer; eauto|apply Hsend; by eapply bound_peer; eauto|by apply ensures_ret].
  - pose proof (no_binding_ticks s Hs) as H0. pose proof (no_message_ticks _ (ticks_sound _ _ H0)) as H1.
    apply Hpend. eapply evolves_nil; [apply H0|apply H1].
Qed.

Lemma handle_set_active_dst_evolves s msg : sound s ->
  ensures (handle_set_active_dst s msg) (fun '(goto, s') => goto = GotoDone /\ evolves s [] s').
Proof.
  intros Hs. unfold handle_set_active_dst.
  destruct (ut_current_binding s); [|apply ensures_ret; split; [done|by apply evolves_refl]].
  destruct (ut_current_binding_msg s); [|apply ensures_ret; split; [done|by apply evolves_refl]].
  eapply ensures_bind; [apply ensures_any|]. intros rid _. eapply ensures_bind; [apply ensures_any|]. intros qid _.
  case_match; [|apply ensures_ret; split; [done|by apply evolves_refl]].
  eapply ensures_bind; [apply ensures_any|]. intros c' _. change (ut_compatibility (s <| ut_current_binding_msg := None |>)) with (ut_compatibility s).
  rewrite (so_compat _ Hs). pose proof (no_message_ticks s Hs) as H0. pose proof (no_binding_ticks _ (ticks_sound _ _ H0)) as H1.
  destruct c'; apply ensures_ret; (split; [done|]); (eapply evolves_nil; [apply H0|apply H1]).
Qed.

Lemma handle_send_evolves s msg : sound s -> ensures (handle_send s msg) (fun '(goto, s') => goto = GotoDone /\ evolves s [] s').
Proof.
  intros Hs. unfold handle_send. eapply ensures_bind; [apply ensures_any|]. intros c _.
  assert (Hd : ensures (Ok (GotoDone, s)) (fun '(goto, s') => goto = GotoDone /\ evolves s [] s'))
    by (apply ensures_ret; split; [done|by apply evolves_refl]).
  destruct c; try exact Hd. eapply ensures_bind; [apply ensures_any|]. intros id _. rewrite (so_requests _ Hs). cbn [List.find].
  rewrite (so_compat _ Hs). exact Hd.
Qed.

(** ** Answered permissions *)

(** The data is sent without a look at the pending permissions. *)
Lemma send_to_base_pending s l to m r :
  send_to_base (s <| ut_pending_permissions := l |>) to m r =
  ('(ret, s) ← send_to_base s to m r; Ok (ret, s <| ut_pending_permissions := l |>)).
Proof. unfold send_to_base. rewrite bind_assoc. eapply bind_ext; [apply ensures_any|]. by intros [ret b] _. Qed.

Lemma wrapped_pending s l to len buf r :
  _socket_send_wrapped (s <| ut_pending_permissions := l |>) to len buf r =
  ('(ret, s) ← _socket_send_wrapped s to len buf r; Ok (ret, s <| ut_pending_permissions := l |>)).
Proof.
  unfold _socket_send_wrapped, _socket_send_messages_wrapped. change (base_is_reliable (s <| ut_pending_permissions := l |>)) with (base_is_reliable s).
  destruct (base_is_reliable s); cbn [negb]; rewrite send_to_base_pending, !bind_assoc; (eapply bind_ext; [apply ensures_any|]); by intros [ret s'] _.
Qed.

Lemma dequeue_pending s l q :
  dequeue_loop (s <| ut_pending_permissions := l |>) q = (s ← dequeue_loop s q; Ok (s <| ut_pending_permissions := l |>)).
Proof.
  revert s. induction q as [|d q IH]; intros s; cbn [dequeue_loop]; [done|].
  change (ut_server_addr (s <| ut_pending_permissions := l |>)) with (ut_server_addr s).
  rewrite wrapped_pending, !bind_assoc. eapply bind_ext; [apply ensures_any|]. intros [ret s'] _. cbn [mbind res_bind]. apply IH.
Qed.

Lemma dequeue_all_commutes s l p :
  socket_dequeue_all_data (s <| ut_pending_permissions := l |>) p =
  (s ← socket_dequeue_all_data s p; Ok (s <| ut_pending_permissions := l |>)).
Proof.
  unfold socket_dequeue_all_data. change (ut_send_data_queues (s <| ut_pending_permissions := l |>)) with (ut_send_data_queues s).
  destruct (lookup_queue (ut_send_data_queues s) p); [|done]. rewrite dequeue_pending, !bind_assoc.
  eapply bind_ext; [apply ensures_any|]. by intros s' _.
Qed.

(** The permission timer, started with the first permission. *)
Definition permission_timer s (c : StunClass) : UdpTurnPriv B :=
  match c, ut_permission_timeout_source s with
  | STUN_RESPONSE, None =>
      let '(id, s) := priv_timeout_add_seconds_with_context s STUN_PERMISSION_TIMEOUT PrivPermissionTimeout in
      s <| ut_permission_timeout_source := Some id |>
  | _, _ => s
  end.

Lemma permission_timer_sound s c : sound s -> sound (permission_timer s c) /\ quiet s (permission_timer s c).
Proof.
  intros Hs. unfold permission_timer. destruct c; try (split; [done|by constructor]).
  destruct (ut_permission_timeout_source s) eqn:E; [split; [done|by constructor]|].
  pose proof (permission_timer_set s STUN_PERMISSION_TIMEOUT Hs E) as [H _]. split; [exact H|by constructor].
Qed.

Lemma permission_answered_evolves s k m msg : sound s -> bytes (buffer msg) -> ut_pending_permissions s !! k = Some m ->
  ensures (permission_answered package_string s k m msg) (evolves s []).
Proof.
  intros Hs Hb Hk. destruct (pending_at _ _ _ Hs Hk) as (p & Hw & Hin). pose proof Hw as (Hp & _).
  unfold permission_answered. rewrite (waiting_peer _ _ _ Hw). cbn [mbind res_bind].
  eapply ensures_bind; [apply ensures_any|]. intros c _. eapply ensures_bind; [apply ensures_any|]. intros again _.
  set (l := delete k (ut_pending_permissions s)). destruct again.
  - assert (Hs0 : sound (s <| ut_pending_permissions := l |>) /\ not_pending (s <| ut_pending_permissions := l |>) p).
    { pose proof (so_pending _ Hs) as Hpend. pose proof (so_distinct _ Hs) as Hdist. split.
      - destruct Hs as [[] ]. constructor; try done.
        + cbn. intros m' (i & _ & Hi)%elem_delete. apply Hpend. by eapply list_elem_of_lookup_2.
        + cbn. intros i j mi mj q Hi Hj Ei Ej. unfold l in *. rewrite delete_lookup in Hi, Hj.
          pose proof (Hdist _ _ _ _ _ Hi Hj Ei Ej). repeat case_decide; lia.
      - intros m' (i & Hne & Hi)%elem_delete E. apply Hne. eapply Hdist; [exact Hi|exact Hk|exact E|by eapply waiting_peer]. }
    destruct Hs0 as [Hs0 Hnp]. assert (H0 : evolves s [] (s <| ut_pending_permissions := l |>)) by (by apply quiet_evolves; [|by constructor]).
    eapply ensures_bind; [by apply cache_realm_nonce_evolves|]. intros s1 [H1 E1]. pose proof H1 as [Hs1 _].
    eapply ensures_bind; [apply (create_permission_ticks package_string s1 p Hs1 Hp)|].
    { intros m' Hm'. rewrite E1 in Hm'. by apply Hnp. }
    intros [ret s2] H2. apply ensures_ret. eapply evolves_nil; [exact H0|]. eapply evolves_nil; [exact H1|apply H2].
  - pose proof (settled_sound _ _ _ _ Hs Hk Hw) as Hs1. pose proof (granted_sound _ p Hs1 Hp) as Hs2.
    set (s2 := priv_add_permission_for_peer (settled s k p) p) in *. destruct (permission_timer_sound s2 c Hs2) as [Hs3 Hq].
    assert (E : permission_timer s2 c = (permission_timer (priv_add_permission_for_peer (priv_remove_sent_permission_for_peer s p) p) c)
        <| ut_pending_permissions := l |>).
    { unfold permission_timer. change (ut_permission_timeout_source (priv_add_permission_for_peer (priv_remove_sent_permission_for_peer s p) p))
        with (ut_permission_timeout_source s2). destruct c; try done. by destruct (ut_permission_timeout_source s2). }
    pose proof (released (settled s k p) _ p Hs3 Hp Hq) as Hrel. rewrite E, dequeue_all_commutes in Hrel.
    fold (permission_timer (priv_add_permission_for_peer (priv_remove_sent_permission_for_peer s p) p) c).
    set (s3 := permission_timer (priv_add_permission_for_peer (priv_remove_sent_permission_for_peer s p) p) c) in *.
    assert (El : ut_pending_permissions s3 = ut_pending_permissions s).
    { unfold s3, permission_timer. destruct c; try done. by destruct (ut_permission_timeout_source _). }
    intros s5 H5. apply bind_Ok_inv in H5 as (s4 & H4 & [= <-]).
    destruct (Hrel (s4 <| ut_pending_permissions := l |>)) as [He _]; [by rewrite H4|].
    destruct (dequeue_all_pending _ _ _ H4) as [E4 _]. rewrite E4, El.
    eapply evolves_nil; [|exact He]. by apply quiet_evolves, settled_quiet.
Qed.

(** ** Received addresses *)

Lemma rd_bytes_exact b off n : bytes b -> 0 <= n -> ensures (rd_bytes b off n) (fun v => bytes v /\ zlen v = n).
Proof.
  intros Hb Hn v E. split; [by eapply rd_bytes_bytes|]. unfold rd_bytes in E. case_match eqn:Eg; [|done]. injection E as <-.
  apply zlen_slice; lia.
Qed.

Lemma find_addr_wf m t sa n : bytes (buffer m) ->
  ensures (stun_message_find_addr m t sa n) (fun '(ret, a, _) => ret = STUN_MESSAGE_RETURN_SUCCESS -> wf_sockaddr a).
Proof.
  intros Hb. unfold stun_message_find_addr. eapply ensures_bind; [apply ensures_any|]. intros [[ptr len]|] _; [|by apply ensures_ret].
  case_match; [by apply ensures_ret|]. eapply ensures_bind; [apply ensures_any|]. intros f _.
  case_match; [|case_match; [|by apply ensures_ret]]; (case_match; [by apply ensures_ret|]); (case_match; [apply ensures_fault|]).
  - eapply ensures_bind; [by apply rd_bytes_exact|]. intros p [Hp Hpl]. eapply ensures_bind; [by apply rd_bytes_exact|]. intros x [Hx Hxl].
    apply ensures_ret. intros _. pose proof (le_value_range p Hp) as Hpr. pose proof (le_value_range x Hx) as Hxr.
    rewrite Hpl in Hpr. rewrite Hxl in Hxr. cbn [wf_sockaddr]. lia.
  - eapply ensures_bind; [by apply rd_bytes_exact|]. intros p [Hp Hpl]. eapply ensures_bind; [by apply rd_bytes_exact|]. intros x [Hx Hxl].
    apply ensures_ret. intros _. pose proof (le_value_range p Hp) as Hpr. rewrite Hpl in Hpr. cbn [wf_sockaddr]. split; [lia|done].
Qed.

Lemma find_xor_addr_wf m t n : bytes (buffer m) ->
  ensures (stun_message_find_xor_addr m t (sockaddr_other 0) n) (fun '(ret, a, _) => ret = STUN_MESSAGE_RETURN_SUCCESS -> wf_sockaddr a).
Proof.
  intros Hb. unfold stun_message_find_xor_addr. eapply ensures_bind; [by apply find_addr_wf|]. intros [[v a] len] Ha.
  destruct v; try by apply ensures_ret. specialize (Ha eq_refl).
  assert (Hmask : forall id, bytes id -> zlen id = 16 -> wf_sockaddr (mask_addr id STUN_MAGIC_COOKIE a))
    by (intros id Hi Hil; by apply wf_mask_addr).
  eapply (ensures_bind _ _ (fun '(ret, a') => ret = STUN_MESSAGE_RETURN_SUCCESS -> wf_sockaddr a')); [|by intros [v a'] H; apply ensures_ret].
  destruct a as [port x|port flow x scope|]; cbn [stun_xor_address]; [| |done].
  - case_match; apply ensures_ret; [done|]. intros _. apply (Hmask (replicate 16 0)); [by apply bytes_replicate|done].
  - case_match; [by apply ensures_ret|]. eapply ensures_bind; [by apply rd_bytes_exact|]. intros id [Hi Hil]. apply ensures_ret.
    intros _. by apply (Hmask id).
Qed.

Lemma handle_data_indication_evolves s msg : sound s -> bytes (buffer msg) ->
  ensures (handle_data_indication package_string s msg) (fun '(goto, s') => goto <> GotoMsnGoogleLock /\ evolves s [] s').
Proof.
  intros Hs Hb. unfold handle_data_indication. rewrite (so_compat _ Hs). change (modern _) with true. cbv iota.
  assert (Hd : ensures (Ok (GotoRecv, s)) (fun '(goto, s') => goto <> GotoMsnGoogleLock /\ evolves s [] s'))
    by (apply ensures_ret; split; [done|by apply evolves_refl]).
  eapply ensures_bind; [by apply find_xor_addr_wf|]. intros [[ret a] n] Ha.
  destruct ret; try exact Hd. specialize (Ha eq_refl). cbn [is_success negb].
  eapply ensures_bind; [apply ensures_any|]. intros [[ptr len]|] _; [|exact Hd].
  assert (Ef : nice_address_set_from_sockaddr nice_address_init a = a) by (by destruct a).
  rewrite Ef. eapply (ensures_bind _ _ (evolves s [])); [|intros s1 H1; apply ensures_ret; by split].
  rewrite bool_decide_eq_true_2 by done. cbn [andb]. unfold priv_has_permission_for_peer, priv_has_sent_permission_for_peer.
  destruct (so_peers _ Hs) as (Hperm & Hsent & _). rewrite !peer_in_list by done.
  destruct (_ && _) eqn:Eg; [|apply ensures_ret; by apply evolves_refl].
  apply andb_true_iff in Eg as [_ Eg]. rewrite negb_true_iff, bool_decide_eq_false in Eg.
  eapply ensures_bind; [apply (create_permission_ticks package_string s a Hs Ha); by apply not_sent_not_pending|].
  intros [r s1] H1. apply ensures_ret. apply H1.
Qed.

Lemma find_pending_at l id : forall k, ensures (find_pending k l id) (fun r => forall i m, r = Some (i, m) -> exists j, (i = k + j)%nat /\ l !! j = Some m).
Proof.
  induction l as [|x l IH]; intros k; cbn [find_pending]; [by apply ensures_ret|].
  eapply ensures_bind; [apply ensures_any|]. intros rid _. case_bool_decide.
  - apply ensures_ret. intros i m [= <- <-]. exists 0%nat. split; [lia|done].
  - eapply ensures_mono; [apply IH|]. intros r Hr i m E. destruct (Hr i m E) as (j & -> & Hj). exists (S j). split; [lia|done].
Qed.

Lemma handle_server_message_evolves s msg : sound s -> bytes (buffer msg) ->
  ensures (handle_server_message package_string s msg) (fun '(goto, s') => goto <> GotoMsnGoogleLock /\ evolves s [] s').
Proof.
  intros Hs Hb. unfold handle_server_message. rewrite (so_compat _ Hs). change (modern _) with true. cbn [mbind res_bind negb].
  eapply ensures_bind; [apply ensures_any|]. intros m _. eapply ensures_bind; [apply ensures_any|]. intros c _.
  case_match; [eapply ensures_mono; [by apply handle_send_evolves|]; intros [g s1] [-> Hev]; by split|].
  case_match; [eapply ensures_mono; [by apply handle_set_active_dst_evolves|]; intros [g s1] [-> Hev]; by split|].
  case_match; [eapply ensures_bind; [by apply handle_channel_bind_evolves|]; intros s1 Hev; apply ensures_ret; by split|].
  case_match.
  - eapply (ensures_bind _ _ (evolves s [])); [|intros s1 Hev; apply ensures_ret; by split].
    unfold handle_create_permission. eapply ensures_bind; [apply ensures_any|]. intros rid _.
    eapply ensures_bind; [apply find_pending_at|]. intros [[k x]|] Hf; [|apply ensures_ret; by apply evolves_refl].
    destruct (Hf k x eq_refl) as (j & -> & Hj). by apply permission_answered_evolves.
  - case_match; [by apply handle_data_indication_evolves|]. apply ensures_ret. split; [done|by apply evolves_refl].
Qed.

(** ** Received packets *)

(** Validation keeps the buffer and the agent's configuration. *)
Lemma validate_keeps a m buf n : modern_agent a ->
  ensures (stun_agent_validate a m buf n None) (fun '(v, a', m') => modern_agent a' /\ (v = STUN_VALIDATION_SUCCESS -> buffer m' = buf)).
Proof.
  intros Ha. unfold stun_agent_validate. eapply ensures_bind; [apply ensures_any|]. intros len _.
  do 3 (case_match; [by apply ensures_ret|]). eapply ensures_bind; [apply ensures_any|]. intros bad _.
  destruct bad; [by apply ensures_ret|]. eapply ensures_bind; [apply ensures_any|]. intros bad _. destruct bad; [by apply ensures_ret|].
  set (m0 := mkMessage _ _ _ _ _ _). unfold validate_framed. eapply ensures_bind; [apply ensures_any|]. intros c _.
  eapply ensures_bind; [apply ensures_any|]. intros [slot|] _; [|by apply ensures_ret]. eapply ensures_bind; [apply ensures_any|]. intros [ig ec] _.
  eapply ensures_bind; [apply ensures_any|]. intros mi _. destruct mi; [by apply ensures_ret|].
  eapply ensures_bind; [apply ensures_any|]. intros [k|] _; [|by apply ensures_ret].
  eapply (ensures_bind _ _ (fun '(_, m', _) => buffer m' = buf)).
  { unfold check_integrity. destruct k as [kv|]; [|by apply ensures_ret]. case_match; [|by apply ensures_ret].
    eapply ensures_bind; [apply ensures_any|]. intros [[hash hl]|] _.
    - eapply ensures_bind; [apply ensures_any|]. intros [md5|] _; [|by apply ensures_ret].
      eapply ensures_bind; [apply ensures_any|]. intros sha _. eapply ensures_bind; [apply ensures_any|]. intros rcv _.
      case_bool_decide; apply ensures_ret; by destruct md5.
    - eapply ensures_bind; [apply ensures_any|]. intros [e ec'] _. by apply ensures_ret. }
  intros [[ok m'] ec'] Hm'. destruct ok; cbn [negb]; [|by apply ensures_ret]. eapply ensures_bind; [apply ensures_any|]. intros fb _.
  destruct fb; [by apply ensures_ret|]. unfold accept_message. eapply ensures_bind; [apply ensures_any|]. intros [r x] _.
  eapply ensures_bind; [apply ensures_any|]. intros u _. apply ensures_ret. split; [|done]. by destruct slot, (bool_decide (r = STUN_MESSAGE_RETURN_SUCCESS)).
Qed.

Lemma parse_recv_evolves s from len buf recv_from recv_len : sound s -> bytes buf ->
  ensures (nice_udp_turn_socket_parse_recv package_string s from len buf recv_from recv_len) (fun '(_, s') => evolves s [] s').
Proof.
  intros Hs Hb. unfold nice_udp_turn_socket_parse_recv. destruct (if base_is_reliable s then _ else _) as [off rl].
  eapply (ensures_bind _ _ (fun '(goto, s') => goto <> GotoMsnGoogleLock /\ evolves s [] s')).
  - case_match; [|apply ensures_ret; split; [done|by apply evolves_refl]].
    eapply ensures_bind; [apply validate_keeps; by apply so_config|]. intros [[v ag] m] [Ha Hbuf].
    pose proof (set_agent_ticks s ag Hs Ha) as H0. case_bool_decide as Hv; [|apply ensures_ret; split; [done|apply H0]].
    eapply ensures_mono; [apply handle_server_message_evolves; [by eapply ticks_sound|]|].
    + rewrite (Hbuf Hv). by apply Forall_drop.
    + intros [g s1] [Hg H1]. split; [done|]. eapply evolves_nil; [apply H0|done].
  - intros [g s1] [Hg H1]. destruct g; [|by apply ensures_ret|done|].
    + eapply ensures_bind; [apply ensures_any|]. intros r _. by apply ensures_ret.
    + eapply ensures_bind; [apply ensures_any|]. intros r _. by apply ensures_ret.
Qed.

Definition vector_bytes (v : GVector) : Prop := forall b, gv_buffer v = Some b -> bytes b.

Lemma wr_bytes_ensures b off d : bytes b -> bytes d -> ensures (wr_bytes b off d) bytes.
Proof.
  intros Hb Hd v. unfold wr_bytes. case_match; [|done]. intros [= <-]. unfold splice. rewrite !bytes_app.
  split; [by apply Forall_take|]. split; [done|by apply Forall_drop].
Qed.

Lemma compact_bytes n i bufs len off buf : Forall vector_bytes bufs -> bytes buf -> ensures (compact_loop n i bufs len off buf) bytes.
Proof.
  intros Hv. revert i off buf. induction Hv as [|v bufs Hv Hvs IH]; intros i off buf Hb; cbn [compact_loop];
    (eapply ensures_bind; [apply ensures_any|]); intros more _; (destruct more; [|by apply ensures_ret]); [apply ensures_fault|].
  eapply (ensures_bind _ _ bytes).
  - unfold vector_read. destruct (gv_buffer v) as [b|] eqn:E; [by apply rd_bytes_bytes, Hv|]. case_match; [|apply ensures_fault]. apply ensures_ret. constructor.
  - intros d Hd. eapply ensures_bind; [by apply wr_bytes_ensures|]. intros buf' Hb'. by apply IH.
Qed.

Lemma message_buffer_bytes m single : message_bytes m ->
  ensures (if single : bool then b ← first_buffer m; Ok (b, im_length m) else compact_input_message m) (fun '(b, _) => bytes b).
Proof.
  intros Hm. destruct single.
  - unfold first_buffer. unfold message_bytes in Hm. destruct (im_buffers m) as [|v rest]; [apply ensures_fault|].
    apply Forall_cons in Hm as [Hv _]. destruct (gv_buffer v) as [b|] eqn:E; [|apply ensures_fault]. apply ensures_ret. by apply Hv.
  - unfold compact_input_message, compact_message. eapply ensures_bind; [apply compact_bytes; [exact Hm|apply g_malloc_bytes]|].
    intros b Hb. by apply ensures_ret.
Qed.

Lemma fragment_evolves s f a : sound s -> evolves s [] (s <| ut_fragment_buffer := f |> <| ut_from := a |>).
Proof. intros [[] ]. apply quiet_evolves; by constructor. Qed.

Lemma fragment_buffer_evolves s f : sound s -> evolves s [] (s <| ut_fragment_buffer := f |>).
Proof. intros [[] ]. apply quiet_evolves; by constructor. Qed.

Lemma recv_message_evolves s m : sound s -> message_bytes m ->
  ensures (turn_recv_message package_string s m) (fun '(_, _, s') => evolves s [] s').
Proof.
  intros Hs Hm. unfold turn_recv_message. eapply ensures_bind; [apply ensures_any|]. intros single _.
  eapply ensures_bind; [by apply message_buffer_bytes|]. intros [b bl] Hb. eapply ensures_bind; [apply ensures_any|]. intros rf _.
  eapply ensures_bind; [by apply parse_recv_evolves|]. intros [r s1] H1. pose proof H1 as [Hs1 _].
  eapply (ensures_bind _ _ (fun '(_, s') => evolves s [] s')).
  - case_match; [|by apply ensures_ret]. unfold reassemble. eapply ensures_bind; [apply ensures_any|]. intros ml _.
    case_match.
    + eapply ensures_bind; [apply ensures_any|]. intros rest _. apply ensures_ret. eapply evolves_nil; [exact H1|]. by apply fragment_evolves.
    + apply ensures_ret. eapply evolves_nil; [exact H1|]. by apply fragment_buffer_evolves.
  - intros [pl s2] H2. eapply ensures_bind; [apply ensures_any|]. intros m' _. by apply ensures_ret.
Qed.

Lemma recv_loop_evolves s i n ms : sound s -> Forall message_bytes ms ->
  ensures (turn_recv_loop package_string s i n ms) (fun '(_, _, s') => evolves s [] s').
Proof.
  intros Hs Hm. revert s i n Hs. induction Hm as [|m ms Hm Hms IH]; intros s i n Hs; cbn [turn_recv_loop].
  - apply ensures_ret. by apply evolves_refl.
  - case_match.
    + eapply ensures_bind; [by apply IH|]. intros [[ret rest] s1] H1. by apply ensures_ret.
    + eapply ensures_bind; [by apply recv_message_evolves|]. intros [[m' error] s1] H1. destruct error; [by apply ensures_ret|].
      eapply ensures_bind; [apply IH; apply H1|]. intros [[ret rest] s2] H2. apply ensures_ret. by eapply evolves_nil.
Qed.

Lemma fragments_rest s ms f : ensures (fragments_loop s ms f) (fun '(_, rest, _) => Forall message_bytes ms -> Forall message_bytes rest).
Proof.
  revert f. induction ms as [|m ms IH]; intros f; cbn [fragments_loop]; [by apply ensures_ret|].
  case_match; [by apply ensures_ret|]. eapply ensures_bind; [apply ensures_any|]. intros ml _. case_match; [by apply ensures_ret|].
  eapply ensures_bind; [apply ensures_any|]. intros [x m'] _. eapply ensures_bind; [apply ensures_any|]. intros y _.
  eapply ensures_bind; [apply IH|]. intros [[filled rest] f'] Hr. apply ensures_ret. intros [_ Hm]%Forall_cons. by apply Hr.
Qed.

Lemma recv_base_evolves s b : sound s -> rb_log b = rb_log (ut_base_socket s) ->
  nice_socket_is_reliable b = nice_socket_is_reliable (ut_base_socket s) -> evolves s [] (s <| ut_base_socket := b |>).
Proof.
  intros Hs El Er. split; [by apply sound_base|]. intros a [Ha Hl Hh]. exists a. split; [constructor|]. constructor; try done.
  unfold base_is_reliable in *. cbn. by rewrite El, Er.
Qed.

Lemma recv_messages_evolves s ms : sound s -> Forall message_bytes ms ->
  ensures (turn_recv_messages package_string s ms) (fun '(_, _, s') => evolves s [] s').
Proof.
  intros Hs Hm. unfold turn_recv_messages.
  eapply (ensures_bind _ _ (fun '(_, rest, s') => evolves s [] s' /\ Forall message_bytes rest)).
  - destruct (ut_fragment_buffer s) as [f|]; [|apply ensures_ret; split; [by apply evolves_refl|done]].
    eapply ensures_bind; [apply fragments_rest|]. intros [[filled rest] f'] Hr. apply ensures_ret.
    split; [by apply fragment_buffer_evolves|by apply Hr].
  - intros [[filled rest] s1] [H1 Hr]. pose proof H1 as [Hs1 _]. eapply ensures_bind; [apply ensures_eq|]. intros [[n ms'] b] E.
    destruct (rb_recv _ _ _ _ _ E) as (El & Er & Hb). pose proof (recv_base_evolves s1 b Hs1 El Er) as H2.
    assert (T2 : evolves s [] (s1 <| ut_base_socket := b |>)) by (by eapply evolves_nil). pose proof T2 as [Hs2 _].
    case_match; [by apply ensures_ret|].
    eapply ensures_bind; [apply recv_loop_evolves; [done|by apply Forall_take, Hb]|]. intros [[ret rcv] s3] H3. apply ensures_ret.
    by eapply evolves_nil.
Qed.
End receive.
