(* ===== verification/TurnRelayProps.v ===== *)
(** * The TURN socket: properties

    Runs of the socket from its creation, under arbitrary sequences of calls,
    timers and packets: the data is relayed in order, to peers with a
    permission; channel numbers are unique; no timer outlives the socket; and
    channel data of the server reaches the application. *)
From stdpp Require Import gmap sorting.
From S2P Require Import Prelude CMem StunTypes StunMessage StunWire StunAppend StunAccess StunCrc32 StunAgent StunIntegrity StunAgentSpec StunAgentProps StunTimer StunIce StunTurn Address Candidate IceTypes IceEnv CheckTick IoMessage NiceSock TcpSocketProps TurnTcp TurnSocket TurnEvents TurnWire TurnSound TurnTick TurnOps.
Local Open Scope Z_scope.

(** ** Runs *)

Inductive turn_op : Type :=
  | TurnSend (to : NiceAddress) (reliable : bool) (messages : list NiceOutputMessage)
  | TurnRecv (messages : list NiceInputMessage)
  | TurnFire (k : nat)          (** the timer at this place of the main context fires *)
  | TurnSetPeer (peer : NiceAddress)
  | TurnRealmNonce (msg : StunMessage)
  | TurnWritable (callback : bool)
  | TurnClock (now : timeval).

(** A payload of a sent message is a datagram's; addresses are IPv4 or IPv6
    addresses without a scope, as they are on the wire. *)
Definition turn_op_ok (op : turn_op) : Prop :=
  match op with
  | TurnSend to _ messages => wf_sockaddr to /\ exists datas, Forall2 payload messages datas
  | TurnRecv messages => Forall message_bytes messages
  | TurnFire _ | TurnWritable _ => True
  | TurnSetPeer peer => wf_sockaddr peer
  | TurnRealmNonce msg => bytes (buffer msg)
  | TurnClock now => clock_ok now
  end.

Section runs.
Context {B : Type} {NS : NiceSocket B}.
Context {M : GMalloc} {CL : CryptoLib} {R : TurnRandom} (package_string : list Z).
Implicit Types s : UdpTurnPriv B.

Definition turn_exec s (op : turn_op) : res (Z * UdpTurnPriv B) :=
  match op with
  | TurnSend to reliable messages =>
      (if reliable then turn_send_messages_reliable package_string else turn_send_messages package_string) s (Some to) messages
  | TurnRecv messages => '(ret, _, s) ← turn_recv_messages package_string s messages; Ok (ret, s)
  | TurnFire k =>
      match ut_sources s !! k with
      | Some source => s ← dispatch package_string s source; Ok (0, s)
      | None => Ok (0, s)
      end
  | TurnSetPeer peer => '(_, s) ← nice_udp_turn_socket_set_peer package_string s peer; Ok (0, s)
  | TurnRealmNonce msg => s ← nice_udp_turn_socket_cache_realm_nonce s msg; Ok (0, s)
  | TurnWritable callback => Ok (0, turn_set_writable_callback s callback)
  | TurnClock now => Ok (0, s <| ut_now := now |>)
  end.

Fixpoint turn_run s (ops : list turn_op) : res (list Z * UdpTurnPriv B) :=
  match ops with
  | [] => Ok ([], s)
  | op :: ops => '(ret, s) ← turn_exec s op; '(rets, s) ← turn_run s ops; Ok (ret :: rets, s)
  end.
End runs.

(** What the calls of a run accepted: a call that returns a count accepted
    that many of its messages, a failed unreliable call none. *)
Inductive accepts : list turn_op -> list Z -> list (NiceAddress * item) -> Prop :=
  | accepts_nil : accepts [] [] []
  | accepts_send to r messages datas k ret ops rets acc :
      Forall2 payload messages datas -> (k <= length datas)%nat -> (0 <= ret -> ret = Z.of_nat k) ->
      (r = false -> ret < 0 -> k = 0%nat) -> accepts ops rets acc ->
      accepts (TurnSend to r messages :: ops) (ret :: rets) (items to r (take k datas) ++ acc)
  | accepts_other op ret ops rets acc :
      (match op with TurnSend _ _ _ => False | _ => True end) -> accepts ops rets acc -> accepts (op :: ops) (ret :: rets) acc.

Section laws.
Context {B : Type} {NS : NiceSocket B} {RB : RelayBase B}.
Context {M : GMalloc} {ML : GMallocLaws} {CL : CryptoLib} {R : TurnRandom} {RL : TurnRandomLaws} (package_string : list Z).
Implicit Types s : UdpTurnPriv B.

Lemma exec_evolves s op : sound s -> turn_op_ok op ->
  ensures (turn_exec package_string s op) (fun '(ret, s') => exists l, evolves s l s' /\
    forall ops rets acc, accepts ops rets acc -> accepts (op :: ops) (ret :: rets) (l ++ acc)).
Proof.
  intros Hs Hok.
  assert (Hother : forall ret s', evolves s [] s' -> (match op with TurnSend _ _ _ => False | _ => True end) ->
    exists l, evolves s l s' /\ forall ops rets acc, accepts ops rets acc -> accepts (op :: ops) (ret :: rets) (l ++ acc)).
  { intros ret s' He Hn. exists []. split; [done|]. intros. by apply accepts_other. }
  destruct op as [to r ms|ms|k|p|m|c|now]; cbn [turn_exec turn_op_ok] in *.
  - destruct Hok as (Hto & datas & Hd). eapply ensures_mono; [by apply (send_messages_evolves package_string s to r ms datas)|].
    intros [ret s'] (k & Hk & He & H1 & H2). exists (items to r (take k datas)). split; [done|]. intros ops rets acc Ha.
    eapply accepts_send; try done. intros Hr Hn. by destruct (H2 Hr Hn).
  - eapply ensures_bind; [by apply recv_messages_evolves|]. intros [[ret ms'] s'] He. apply ensures_ret. by apply Hother.
  - destruct (ut_sources s !! k) as [src|]; [|apply ensures_ret; by apply Hother; [apply evolves_refl|]].
    eapply ensures_bind; [by apply dispatch_evolves|]. intros s' He. apply ensures_ret. by apply Hother.
  - eapply ensures_bind; [apply add_channel_binding_ticks; [by apply tick_fresh|done|done]|]. intros [ret s'] H. apply ensures_ret. apply Hother; [apply H|done].
  - eapply ensures_bind; [by apply cache_realm_nonce_evolves|]. intros s' [He _]. apply ensures_ret. by apply Hother.
  - apply ensures_ret. apply Hother; [|done]. destruct (rb_callback (ut_base_socket s) c). by apply recv_base_evolves.
  - apply ensures_ret. apply Hother; [|done]. destruct Hs as [[] ]. apply quiet_evolves; by constructor.
Qed.

Lemma run_evolves ops : forall s, sound s -> Forall turn_op_ok ops ->
  ensures (turn_run package_string s ops) (fun '(rets, s') => exists acc, accepts ops rets acc /\ evolves s acc s').
Proof.
  induction ops as [|op ops IH]; intros s Hs Hok; cbn [turn_run].
  - apply ensures_ret. exists []. split; [constructor|by apply evolves_refl].
  - apply Forall_cons in Hok as [Ho Hok]. eapply ensures_bind; [by apply exec_evolves|]. intros [ret s1] (l & He & Hacc). pose proof He as [Hs1 _].
    eapply ensures_bind; [by apply IH|]. intros [rets s2] (acc & Ha & He2). apply ensures_ret. exists (l ++ acc).
    split; [by apply Hacc|by eapply evolves_trans].
Qed.

(** ** A new socket *)
Lemma new_sound {B64 : Base64} (base : B) udp server username password now :
  bytes username -> zlen username < 764 -> clock_ok now ->
  sound (nice_udp_turn_socket_new base udp server username password NICE_TURN_SOCKET_COMPATIBILITY_RFC5766 now).
Proof.
  intros Hu Hl Hn. assert (Hb : buffer_ok (g_malloc STUN_MAX_MESSAGE_SIZE)) by (split; [apply g_malloc_bytes|by apply g_malloc_length]).
  constructor; try done.
  - intros m Hm. by apply not_elem_of_nil in Hm.
  - cbn. constructor.
Qed.

Lemma new_refines {B64 : Base64} (base : B) udp server username password now :
  rb_log base = [] ->
  refines (nice_udp_turn_socket_new base udp server username password NICE_TURN_SOCKET_COMPATIBILITY_RFC5766 now) fresh_relay.
Proof. intros Hl. constructor; [done|cbn; rewrite Hl; constructor|]. intros p Hp. constructor. Qed.

(** ** No timer survives the socket *)

Lemma destroyed_all (l : list ChannelBinding) : forall s src,
  src ∈ ut_sources (fold_left (fun s b => destroy_if_set s (cb_timeout_source b)) l s) ->
  src ∈ ut_sources s /\ Forall (fun b => cb_timeout_source b <> Some (gs_id src)) l.
Proof.
  induction l as [|b l IH]; intros s src Hin; cbn in Hin; [done|]. apply IH in Hin as [[Hin Hne]%elem_destroyed Hl]. by split; [|constructor].
Qed.

Lemma fold_destroy_fields (l : list ChannelBinding) : forall s,
  let s' := fold_left (fun s b => destroy_if_set s (cb_timeout_source b)) l s in
  ut_tick_source_channel_bind s' = ut_tick_source_channel_bind s /\
  ut_tick_source_create_permission s' = ut_tick_source_create_permission s /\
  ut_permission_timeout_source s' = ut_permission_timeout_source s /\ ut_send_requests s' = ut_send_requests s.
Proof.
  induction l as [|b l IH]; intros s; cbn; [done|]. destruct (IH (destroy_if_set s (cb_timeout_source b))) as (-> & -> & -> & ->).
  by destruct (cb_timeout_source b).
Qed.

Lemma close_stops s : sound s -> ut_sources (socket_close s) = [].
Proof.
  intros Hs. destruct (ut_sources (socket_close s)) as [|src rest] eqn:E; [done|]. exfalso.
  assert (Hin : src ∈ ut_sources (socket_close s)) by (rewrite E; constructor). clear E rest.
  unfold socket_close in Hin. set (s1 := fold_left _ (ut_channels s) s) in Hin.
  destruct (fold_destroy_fields (ut_channels s) s) as (F1 & F2 & F3 & F4). fold s1 in F1, F2, F3, F4.
  set (s2 := (destroy_if_set s1 _) <| ut_tick_source_channel_bind := None |>) in Hin.
  assert (G2 : ut_tick_source_create_permission s2 = ut_tick_source_create_permission s1 /\
    ut_permission_timeout_source s2 = ut_permission_timeout_source s1 /\ ut_send_requests s2 = ut_send_requests s1)
    by (unfold s2; by destruct (ut_tick_source_channel_bind s1)). destruct G2 as (G2 & G3 & G4).
  set (s3 := (destroy_if_set s2 _) <| ut_tick_source_create_permission := None |>) in Hin.
  assert (K3 : ut_permission_timeout_source s3 = ut_permission_timeout_source s2 /\ ut_send_requests s3 = ut_send_requests s2)
    by (unfold s3; by destruct (ut_tick_source_create_permission s2)). destruct K3 as (K3 & K4).
  rewrite K4, G4, F4, (so_requests _ Hs) in Hin. cbn [fold_left] in Hin.
  change (src ∈ ut_sources (destroy_if_set (priv_clear_permissions s3) (ut_permission_timeout_source s3))) in Hin.
  apply elem_destroyed in Hin as [Hin N3]. rewrite K3, G3, F3 in N3.
  apply (elem_destroyed s2) in Hin as [Hin N2]. rewrite G2, F2 in N2.
  apply (elem_destroyed s1) in Hin as [Hin N1]. rewrite F1 in N1.
  apply destroyed_all in Hin as [Hin N0]. rewrite Forall_forall in N0.
  pose proof (proj1 (Forall_forall _ _) (so_sources _ Hs) src Hin) as Hr. unfold recorded in Hr.
  destruct (gs_callback src); try done; destruct Hr as (b & Hb & Eb); by apply (N0 b).
Qed.

(** ** Channel data of the server *)

Lemma ntohs_be x : 0 <= x < 65536 -> ntohs (le_value (be_bytes 2 x)) = x.
Proof.
  intros Hx. rewrite <-le_bytes_htons, le_value_bytes. change (256 ^ Z.of_nat 2) with 65536.
  rewrite Z.mod_small by apply htons_range. unfold ntohs. rewrite u16_small by apply htons_range. unfold htons. rewrite u16_small by done.
  rewrite !bswap16_arith. Z.to_euclidean_division_equations. lia.
Qed.

Lemma rd_be2 pre x rest : rd_u16 (pre ++ be_bytes 2 x ++ rest) (zlen pre) = Ok (le_value (be_bytes 2 x)).
Proof. unfold rd_u16. by rewrite (rd_bytes_eq _ pre (be_bytes 2 x) rest). Qed.

Lemma find_channel_at c channels buf b k : modern c = true ->
  (forall j x, channels !! j = Some x -> cb_channel x = cb_channel b -> j = k) -> channels !! k = Some b ->
  rd_u16 buf 0 = Ok (le_value (be_bytes 2 (cb_channel b))) -> 0 <= cb_channel b < 65536 -> find_channel c channels buf 0 = Ok (Some b).
Proof.
  intros Hc Huniq Hk Hrd Hr. pose proof (ntohs_be _ Hr) as En.
  revert k Huniq Hk. induction channels as [|x l IH]; intros k Huniq Hk; [done|]. cbn [find_channel]. rewrite Hc, Hrd. cbn [mbind res_bind].
  rewrite En. destruct (Z.eqb_spec (cb_channel x) (cb_channel b)) as [E|E].
  - pose proof (Huniq 0%nat x eq_refl E) as <-. cbn in Hk. congruence.
  - destruct k as [|k]; [cbn in Hk; congruence|]. apply (IH k); [|done]. intros j y Hj Ey. pose proof (Huniq (S j) y Hj Ey). lia.
Qed.

(** Channel data is not STUN. *)
Lemma validate_channel_data a m x buf n : 64 <= x < 256 -> 0 < n ->
  stun_agent_validate a m (x :: buf) n None = Ok (STUN_VALIDATION_NOT_STUN, a, m).
Proof.
  intros Hx Hn. unfold stun_agent_validate, stun_message_validate_buffer_length, stun_message_validate_buffer_length_fast.
  rewrite (proj2 (Z.ltb_ge n 1)) by lia. cbn [orb Z.eqb]. cbn [vec_at lookup list_lookup mbind res_bind iv_buffer].
  change (rd (x :: buf) 0) with (Ok x). cbn [mbind res_bind].
  assert (Hs : (Z.shiftr x 6 =? 0) = false).
  { apply Z.eqb_neq. rewrite Z.shiftr_div_pow2 by lia. change (2 ^ 6) with 64. Z.to_euclidean_division_equations. lia. }
  rewrite Hs. cbn [negb mbind res_bind]. reflexivity.
Qed.

Lemma channel_data_delivered s k b data rest from recv_from :
  sound s -> base_is_reliable s = false -> ut_channels s !! k = Some b -> zlen data < 65536 ->
  let buf := be_bytes 2 (cb_channel b) ++ be_bytes 2 (zlen data) ++ data ++ rest in
  exists buf', nice_udp_turn_socket_parse_recv package_string s from (4 + zlen data) buf recv_from (4 + zlen data) =
      Ok (mkParsed (zlen data) (cb_peer b) buf' true, s) /\ take (length data) buf' = data /\ zlen buf' = zlen buf.
Proof.
  intros Hs Hrel Hk Hl buf. destruct (so_channels _ Hs k b Hk) as [[Hnum Hwf] _]. pose proof (so_numbers _ Hs) as Hnn.
  pose proof (lookup_lt_Some _ _ _ Hk) as Hlt. zlen_pos. assert (Hc : 0x4000 <= cb_channel b < 65536) by lia.
  assert (Hlabel : exists buf', (r ← parse_channel s (4 + zlen data) buf 0 (4 + zlen data) recv_from; Ok (r, s)) =
    Ok (mkParsed (zlen data) (cb_peer b) buf' true, s) /\ take (length data) buf' = data /\ zlen buf' = zlen buf).
  2: { unfold nice_udp_turn_socket_parse_recv. rewrite Hrel. change (drop (Z.to_nat 0) buf) with buf.
    destruct (nice_address_equal _ _); [|exact Hlabel].
    assert (Ev : stun_agent_validate (ut_agent s) zero_message buf (4 + zlen data) None = Ok (STUN_VALIDATION_NOT_STUN, ut_agent s, zero_message)).
    { unfold buf. rewrite (be_bytes_2 (cb_channel b)). cbn [app]. apply validate_channel_data; Z.to_euclidean_division_equations; lia. }
    rewrite Ev. cbn [mbind res_bind]. rewrite bool_decide_eq_false_2 by done. cbn [mbind res_bind].
    replace (s <| ut_agent := ut_agent s |>) with s by (by destruct s). exact Hlabel. }
  unfold parse_channel. rewrite (so_compat _ Hs).
  rewrite (find_channel_at _ (ut_channels s) buf b k); [|done| |done|apply (rd_be2 [])|lia].
  2: { intros j x Hj Ex. destruct (so_channels _ Hs j x Hj) as [[Hx _] _]. lia. }
  cbn [mbind res_bind]. change (modern _) with true. cbv iota. rewrite !Z.add_0_l.
  pose proof (rd_be2 (be_bytes 2 (cb_channel b)) (zlen data) (data ++ rest)) as Hrd.
  change (zlen (be_bytes 2 (cb_channel b))) with 2 in Hrd. fold buf in Hrd. rewrite Hrd. cbn [mbind res_bind]. rewrite ntohs_be by lia.
  unfold move_data. rewrite (proj2 (Z.ltb_lt (zlen data) (4 + zlen data))) by lia.
  rewrite (rd_bytes_eq buf (be_bytes 2 (cb_channel b) ++ be_bytes 2 (zlen data)) data rest); [|unfold buf; by rewrite <-!app_assoc|done|done].
  cbn [mbind res_bind]. rewrite wr_bytes_Ok by (unfold buf; zlia). cbn [mbind res_bind]. eexists. split; [done|]. split.
  - unfold splice. change (take (Z.to_nat 0) buf) with (@nil Z). cbn [app]. by rewrite take_app_length.
  - apply zlen_splice; unfold buf; zlia.
Qed.
End laws.

(** ** A socket that keeps a log *)

(** It takes every datagram, has no reliable mode, and receives the packets of
    a script, one for each call. *)
Record LogSocket : Set := mkLogSocket { lg_log : list (NiceAddress * list Z); lg_packets : list (NiceAddress * list Z) }.

Definition log_send (l : LogSocket) (to : option NiceAddress) (messages : list NiceOutputMessage) : res (Z * LogSocket) :=
  match messages, to with
  | [m], Some to =>
      d ← gather_loop (om_n_buffers m) 0 (om_buffers m);
      Ok (1, mkLogSocket (lg_log l ++ [(to, d)]) (lg_packets l))
  | _, _ => Ok (-1, l)
  end.

Definition log_recv (l : LogSocket) (messages : list NiceInputMessage) : res (Z * list NiceInputMessage * LogSocket) :=
  match lg_packets l, messages with
  | (from, d) :: rest, m :: ms =>
      let d := (fun x => x mod 256) <$> d in
      '(_, m) ← memcpy_buffer_to_input_message m d (zlen d);
      Ok (1, mkInput (im_buffers m) (im_n_buffers m) (Some from) (im_length m) :: ms, mkLogSocket (lg_log l) rest)
  | _, _ => Ok (0, messages, l)
  end.

#[export] Instance log_socket : NiceSocket LogSocket := {|
  nice_socket_recv_messages := log_recv;
  nice_socket_send_messages := log_send;
  nice_socket_send_messages_reliable l _ _ := Ok (-1, l);
  nice_socket_is_reliable _ := false;
  nice_socket_can_send _ _ := true;
  nice_socket_set_writable_callback l _ := l
|}.

Lemma memcpy_keeps_bytes n i bufs d len acc : Forall vector_bytes bufs -> bytes d ->
  ensures (memcpy_loop n i bufs d len acc) (fun '(bufs', _) => Forall vector_bytes bufs').
Proof.
  intros Hv. revert i d len acc. induction Hv as [|v bufs Hv Hvs IH]; intros i d len acc Hd; cbn [memcpy_loop];
    (case_match; [|apply ensures_ret; by try constructor]); (eapply ensures_bind; [apply ensures_any|]); intros more _;
    (destruct more; [|apply ensures_ret; by try constructor]); [apply ensures_fault|].
  eapply ensures_bind; [by apply rd_bytes_bytes|]. intros x Hx. eapply (ensures_bind _ _ vector_bytes).
  - unfold vector_write. destruct (gv_buffer v) as [b|] eqn:E; [|case_match; [by apply ensures_ret|apply ensures_fault]].
    eapply ensures_bind; [apply wr_bytes_ensures; [by apply Hv|done]|]. intros b' Hb'. apply ensures_ret. by intros ? [= <-].
  - intros v' Hv'. eapply ensures_bind; [apply IH; by apply Forall_drop|]. intros [rest l'] Hr. apply ensures_ret. by constructor.
Qed.

#[export] Instance log_relay_base : RelayBase LogSocket.
Proof.
  refine {| rb_log := lg_log |}.
  - intros b to m ret b' E. cbn in E. apply bind_Ok_inv in E as (d & Hd & [= <- <-]). split; [|done]. left. split; [done|]. by exists d.
  - intros b to m ret b' [= <- <-]. split; [|done]. right. split; [lia|done].
  - intros b ms ret ms' b' E. cbn in E. unfold log_recv in E.
    assert (Hid : Ok (0, ms, b) = Ok (ret, ms', b') -> lg_log b' = lg_log b /\ false = false /\ (Forall message_bytes ms -> Forall message_bytes ms'))
      by (by intros [= <- <- <-]).
    destruct (lg_packets b) as [|[from d] rest]; [by apply Hid|]. destruct ms as [|m ms]; [by apply Hid|].
    apply bind_Ok_inv in E as ([len m'] & Em & [= <- <- <-]). split; [done|]. split; [done|]. intros [Hm Hms]%Forall_cons.
    constructor; [|done]. unfold memcpy_buffer_to_input_message in Em. apply bind_Ok_inv in Em as ([bufs l] & El & [= <- <-]).
    refine (memcpy_keeps_bytes _ _ _ _ _ _ Hm _ _ El). apply Forall_forall. intros x (y & -> & _)%list_elem_of_fmap.
    apply Z.mod_pos_bound. lia.
  - done.
Defined.

(** ** Theorems *)

(** A socket of RFC 5766 and the states it gets into. *)
Definition turn_reachable {B} {NS : NiceSocket B} {M : GMalloc} {CL : CryptoLib} {R : TurnRandom} {B64 : Base64}
    (package_string : list Z) (s : UdpTurnPriv B) : Prop :=
  exists base udp server username password now ops rets,
    bytes username /\ zlen username < 764 /\ clock_ok now /\ Forall turn_op_ok ops /\
    turn_run package_string (nice_udp_turn_socket_new base udp server username password NICE_TURN_SOCKET_COMPATIBILITY_RFC5766 now) ops
      = Ok (rets, s).

Section theorems.
Context {B : Type} {NS : NiceSocket B} {RB : RelayBase B}.
Context {M : GMalloc} {ML : GMallocLaws} {CL : CryptoLib} {R : TurnRandom} {RL : TurnRandomLaws} {B64 : Base64}.

Lemma reachable_sound package_string (s : UdpTurnPriv B) : turn_reachable package_string s -> sound s.
Proof.
  intros (base & udp & server & u & pw & now & ops & rets & Hu & Hul & Hn & Hops & E).
  destruct (run_evolves package_string ops _ (new_sound base udp server u pw now Hu Hul Hn) Hops _ E) as (acc & _ & [Hs _]). done.
Qed.

(** C1: the TURN socket is an ordered relay with permissions.  Take a new
    socket of RFC 5766 over any layer that reports what it took, and any run
    of sends, receives, firing timers, peers, clock readings and packets of
    the server.  Everything the layer below was given is a frame to the server
    that carries either a CreatePermission or ChannelBind request or, as
    channel data or in a Send indication, the payload of an accepted message
    together with its peer; for each peer, the payloads relayed and those that
    still wait are, in this order, a subsequence of those accepted, and all of
    them if the layer below refuses none; nothing waits for a peer that has a
    permission. *)
Theorem turn_relays_in_order package_string (base : B) udp server username password now ops rets s :
  bytes username -> zlen username < 764 -> clock_ok now -> rb_log base = [] -> Forall turn_op_ok ops ->
  turn_run package_string (nice_udp_turn_socket_new base udp server username password NICE_TURN_SOCKET_COMPATIBILITY_RFC5766 now) ops
    = Ok (rets, s) ->
  exists acc a, accepts ops rets acc /\ refines s a /\ forall p, ordered base_takes acc a p.
Proof.
  intros Hu Hul Hn Hlog Hops E.
  destruct (run_evolves package_string ops _ (new_sound base udp server username password now Hu Hul Hn) Hops _ E) as (acc & Ha & [_ He]).
  destruct (He fresh_relay) as (a & Hst & Hr); [by apply new_refines|]. exists acc, a. split; [done|]. split; [done|].
  intros p. apply (ordered_steps base_takes [] fresh_relay acc a p); [apply ordered_fresh|done].
Qed.

(** C26: the timers of the TURN socket come to rest.  The recursive call of
    [priv_schedule_tick] two levels down is not made, and the loops over the
    pending permissions and bindings end before their fuel is used up: the
    result does not depend on what the call or the end of the fuel would
    answer, nor on how much more fuel there is. *)
Theorem turn_tick_terminates package_string (s : UdpTurnPriv B) :
  turn_reachable package_string s ->
  (forall T : ScheduleTick B,
     schedule_tick_step package_string (Tick := fun s => schedule_tick_step package_string (Tick := T) s) s =
     priv_schedule_tick package_string TICK_DEPTH s) /\
  (forall out n t, (2 * length (ut_pending_permissions s) <= n)%nat ->
     pending_permissions_loop out n s 0 t =
     pending_permissions_loop (Fault OutOfFuel) (2 * length (ut_pending_permissions s)) s 0 t) /\
  (ut_current_binding s = None -> forall out n, (length (ut_pending_bindings s) <= n)%nat ->
     pending_bindings_loop package_string (Tick := priv_schedule_tick package_string TICK_DEPTH) out n s false =
     pending_bindings_loop package_string (Tick := priv_schedule_tick package_string TICK_DEPTH)
       (Fault OutOfFuel) (length (ut_pending_bindings s)) s false).
Proof.
  intros Hs%reachable_sound. pose proof (permission_cost_bound s). split; [|split].
  - intros T. by apply schedule_tick_two_deep.
  - intros out n t Hn. apply pending_permissions_fuel; [done|lia..].
  - intros Hc out n Hn. apply pending_bindings_fuel; try done. intros s' Hs' _. by apply schedule_tick_ticks.
Qed.

(** C27: channel numbers are never shared.  In every state the socket gets
    into, the bindings have the numbers 0x4000, 0x4001, ... in the order in
    which they were granted, each has a timer, and the search for the number
    of a new binding ends with the next of them, which no binding has. *)
Theorem turn_channels_numbered package_string (s : UdpTurnPriv B) :
  turn_reachable package_string s ->
  (forall k b, ut_channels s !! k = Some b -> cb_channel b = 0x4000 + Z.of_nat k /\ is_Some (cb_timeout_source b)) /\
  exists n, channel_loop (channel_fuel (ut_channels s)) (ut_channels s) (ut_channels s) 0x4000 = Ok n /\ n <= 0xffff /\
    forall b, b ∈ ut_channels s -> cb_channel b <> n.
Proof.
  intros Hs%reachable_sound. split; [intros k b Hk; by destruct (so_channels _ Hs k b Hk) as [[? _] ?]|].
  eexists. split; [by apply channel_found|]. pose proof (so_numbers _ Hs). split; [lia|].
  intros b [k Hk]%list_elem_of_lookup. destruct (so_channels _ Hs k b Hk) as [[-> _] _]. apply lookup_lt_Some in Hk. lia.
Qed.

(** Closing the socket leaves no timer behind.  In every state the socket
    gets into, each source of the main context that calls back into it is
    destroyed by [socket_close]. *)
Theorem turn_close_stops_timers package_string (s : UdpTurnPriv B) :
  turn_reachable package_string s -> ut_sources (socket_close s) = [].
Proof. intros Hs%reachable_sound. by apply close_stops. Qed.

(** C28: channel data of the server reaches the application.  In every state
    the socket gets into, over a datagram socket, a packet with the number of
    a granted binding, the length of the data and the data is parsed into
    exactly the data, with the peer of the binding as its source, and changes
    nothing. *)
Theorem turn_channel_data_received package_string (s : UdpTurnPriv B) k b data rest from recv_from :
  turn_reachable package_string s -> base_is_reliable s = false -> ut_channels s !! k = Some b -> zlen data < 65536 ->
  let buf := be_bytes 2 (cb_channel b) ++ be_bytes 2 (zlen data) ++ data ++ rest in
  exists buf', nice_udp_turn_socket_parse_recv package_string s from (4 + zlen data) buf recv_from (4 + zlen data) =
      Ok (mkParsed (zlen data) (cb_peer b) buf' true, s) /\ take (length data) buf' = data /\ zlen buf' = zlen buf.
Proof. intros Hs%reachable_sound Hrel Hk Hl. by apply (channel_data_delivered package_string s k b data rest from recv_from). Qed.

(** C38: an expired binding is never dropped.  The callback that runs when a
    binding was not renewed in time compares the bindings' timers with NULL
    instead of the timer that fired, so in every state the socket gets into it
    finds none and changes nothing: the peer's data goes on over a channel the
    server has forgotten. *)
Theorem turn_binding_never_expires package_string (s : UdpTurnPriv B) :
  turn_reachable package_string s -> priv_binding_expired_timeout package_string s = Ok (false, s).
Proof. intros Hs%reachable_sound. by apply binding_expired_none. Qed.
End theorems.

(** ** Examples *)

#[export] Instance ex_turn_random : TurnRandom := fun n => replicate 15 7 ++ [n mod 256].
#[export] Instance ex_turn_random_laws : TurnRandomLaws.
Proof.
  intros n. unfold turn_make_transid, ex_turn_random. split.
  - apply bytes_app. split; [by apply bytes_replicate|]. constructor; [apply Z.mod_pos_bound; lia|constructor].
  - done.
Qed.
#[export] Instance ex_base64 : Base64 := {| g_base64_decode x := x; g_base64_encode x := x |}.

Definition ex_server : NiceAddress := sockaddr_in (htons 3478) (htonl 0x01020304).
Definition ex_peer1 : NiceAddress := sockaddr_in (htons 5000) (htonl 0x05060708).

(** The transaction id with this number, and the answer of the server to it. *)
Definition ex_id (k : Z) : list Z := be_bytes 4 STUN_MAGIC_COOKIE ++ replicate 11 7 ++ [k].
Definition ex_answer (meth k : Z) : list Z := type_bytes STUN_RESPONSE meth ++ be_bytes 2 0 ++ ex_id k.
Definition ex_peer_attr : list Z := [0; 18; 0; 8; 0; 1; 50; 154; 36; 20; 163; 74].

(** Data waits for its permission, a channel is bound, data goes over it. *)
Definition ex_relay_base : LogSocket :=
  mkLogSocket [] [(ex_server, ex_answer STUN_CREATEPERMISSION 1); (ex_server, ex_answer STUN_CHANNELBIND 2)].
Definition ex_turn : UdpTurnPriv LogSocket :=
  nice_udp_turn_socket_new ex_relay_base true ex_server [117] [] NICE_TURN_SOCKET_COMPATIBILITY_RFC5766 (mkTimeval 1 0).
Definition ex_read : turn_op := TurnRecv [mkInput [mkVector (Some (replicate 64 0)) 64] 1 (Some nice_address_init) 0].
Definition ex_turn_ops : list turn_op :=
  [TurnSend ex_peer1 false [one_vector [1; 2; 3]]; ex_read; TurnSetPeer ex_peer1; ex_read; TurnSend ex_peer1 false [one_vector [4; 5]]].

Lemma ex_peer1_wf : wf_sockaddr ex_peer1.
Proof. cbn. by vm_compute. Qed.

Lemma payload_one d : bytes d -> zlen d <= MAX_PAYLOAD -> payload (one_vector d) d.
Proof. intros Hb Hl. split; [|by split]. apply holds_one_vector. unfold MAX_PAYLOAD in Hl. lia. Qed.

Lemma ex_turn_ops_ok : Forall turn_op_ok ex_turn_ops.
Proof.
  assert (Hs : forall d, bytes d -> zlen d <= MAX_PAYLOAD -> turn_op_ok (TurnSend ex_peer1 false [one_vector d])).
  { intros d Hb Hl. split; [apply ex_peer1_wf|]. exists [d]. constructor; [by apply payload_one|constructor]. }
  assert (Hr : turn_op_ok ex_read).
  { apply Forall_singleton, Forall_singleton. intros b E. assert (Hb : bytes (replicate 64 0)) by (by apply bytes_replicate).
    cbn [gv_buffer] in E. congruence. }
  assert (Hd : forall d, forallb (fun x => (0 <=? x) && (x <? 256)) d = true -> bytes d).
  { intros d H. apply Forall_forall. intros x Hx%list_elem_of_In. rewrite forallb_forall in H. specialize (H x Hx). unfold is_byte. lia. }
  unfold ex_turn_ops. rewrite !Forall_cons. split; [by apply Hs; [apply Hd|]|]. split; [exact Hr|]. split; [apply ex_peer1_wf|].
  split; [exact Hr|]. split; [by apply Hs; [apply Hd|]|done].
Qed.

(** The result of a run that does not fault. *)
Definition result_of {A} (d : A) (x : res A) : A := match x with Ok a => a | Fault _ => d end.

Definition ex_turn_end : list Z * UdpTurnPriv LogSocket := result_of ([], ex_turn) (turn_run [] ex_turn ex_turn_ops).

(** What the example shows of it. *)
Record turn_view : Type := mkView {
  vw_rets : list Z;
  vw_queues : list (NiceAddress * list SendData);
  vw_log : list (list Z);
  vw_channels : list (NiceAddress * Z);
  vw_timers : list turn_callback
}.

Definition view (r : list Z * UdpTurnPriv LogSocket) : turn_view :=
  mkView (fst r) (ut_send_data_queues (snd r)) (snd <$> lg_log (ut_base_socket (snd r)))
    ((fun b => (cb_peer b, cb_channel b)) <$> ut_channels (snd r)) (gs_callback <$> ut_sources (snd r)).

Lemma view_fields r v : view r = v ->
  fst r = vw_rets v /\ (fun b => (cb_peer b, cb_channel b)) <$> ut_channels (snd r) = vw_channels v /\ gs_callback <$> ut_sources (snd r) = vw_timers v.
Proof. by intros <-. Qed.

(** The requests, the data that waited, and the channel data. *)
Definition ex_turn_log : list (list Z) :=
  [[0; 8; 0; 12] ++ ex_id 1 ++ ex_peer_attr; [0; 22; 0; 20] ++ ex_id 0 ++ ex_peer_attr ++ [0; 19; 0; 3; 1; 2; 3; 0];
   [0; 9; 0; 20] ++ ex_id 2 ++ [0; 12; 0; 4; 64; 0; 0; 0] ++ ex_peer_attr; [64; 0; 0; 2; 4; 5]].

Definition ex_turn_view : turn_view :=
  mkView [1; 1; 0; 1; 1] [] ex_turn_log [(ex_peer1, 0x4000)] [PrivPermissionTimeout; PrivRetransmissionsTick; PrivBindingTimeout].

Lemma ex_turn_evaluates : (fun r => Some (view r)) <$> turn_run [] ex_turn ex_turn_ops = Ok (Some ex_turn_view).
Proof. vm_compute. reflexivity. Qed.

Lemma viewed (x : res (list Z * UdpTurnPriv LogSocket)) d v : (fun r => Some (view r)) <$> x = Ok (Some v) -> x = Ok (result_of d x) /\ view (result_of d x) = v.
Proof. destruct x as [r|]; [|done]. intros [= <-]. done. Qed.

Lemma ex_turn_runs : turn_run [] ex_turn ex_turn_ops = Ok ex_turn_end.
Proof. exact (proj1 (viewed _ ([], ex_turn) _ ex_turn_evaluates)). Qed.

Lemma ex_turn_viewed : view ex_turn_end = ex_turn_view.
Proof. exact (proj2 (viewed _ ([], ex_turn) _ ex_turn_evaluates)). Qed.

Lemma ex_username_ok : bytes [117] /\ zlen [117] < 764 /\ clock_ok (mkTimeval 1 0).
Proof. split; [repeat constructor; lia|]. by split. Qed.

Lemma ex_turn_reachable : turn_reachable [] (snd ex_turn_end).
Proof.
  destruct ex_username_ok as (Hu & Hl & Hn).
  exists ex_relay_base, true, ex_server, [117], [], (mkTimeval 1 0), ex_turn_ops, (fst ex_turn_end).
  split; [exact Hu|]. split; [exact Hl|]. split; [exact Hn|]. split; [exact ex_turn_ops_ok|].
  rewrite <-surjective_pairing. exact ex_turn_runs.
Qed.

Lemma turn_relays_in_order_witness :
  fst ex_turn_end = [1; 1; 0; 1; 1] /\
  exists acc a, accepts ex_turn_ops (fst ex_turn_end) acc /\ refines (snd ex_turn_end) a /\ forall p, ordered base_takes acc a p.
Proof.
  destruct ex_username_ok as (Hu & Hl & Hn). split; [exact (proj1 (view_fields _ _ ex_turn_viewed))|].
  apply (turn_relays_in_order (RB := log_relay_base) [] ex_relay_base true ex_server [117] [] (mkTimeval 1 0) ex_turn_ops _ _ Hu Hl Hn eq_refl ex_turn_ops_ok).
  rewrite <-surjective_pairing. exact ex_turn_runs.
Defined.

Lemma turn_tick_terminates_witness :
  (forall T : ScheduleTick LogSocket,
    schedule_tick_step [] (Tick := fun s => schedule_tick_step [] (Tick := T) s) (snd ex_turn_end) =
    priv_schedule_tick [] TICK_DEPTH (snd ex_turn_end)) /\
  (forall out n t, (2 * length (ut_pending_permissions (snd ex_turn_end)) <= n)%nat ->
     pending_permissions_loop out n (snd ex_turn_end) 0 t =
     pending_permissions_loop (Fault OutOfFuel) (2 * length (ut_pending_permissions (snd ex_turn_end))) (snd ex_turn_end) 0 t).
Proof.
  pose proof (turn_tick_terminates [] (snd ex_turn_end) ex_turn_reachable) as H.
  split; [exact (proj1 H)|exact (proj1 (proj2 H))].
Defined.

Lemma turn_channels_numbered_witness :
  (fun b => (cb_peer b, cb_channel b)) <$> ut_channels (snd ex_turn_end) = [(ex_peer1, 0x4000)] /\
  exists n, channel_loop (channel_fuel (ut_channels (snd ex_turn_end))) (ut_channels (snd ex_turn_end)) (ut_channels (snd ex_turn_end)) 0x4000 = Ok n /\
    n <= 0xffff /\ forall b, b ∈ ut_channels (snd ex_turn_end) -> cb_channel b <> n.
Proof. split; [exact (proj1 (proj2 (view_fields _ _ ex_turn_viewed)))|]. exact (proj2 (turn_channels_numbered [] (snd ex_turn_end) ex_turn_reachable)). Defined.

Lemma turn_close_stops_timers_witness :
  gs_callback <$> ut_sources (snd ex_turn_end) =
    [PrivPermissionTimeout; PrivRetransmissionsTick; PrivBindingTimeout] /\
  ut_sources (socket_close (snd ex_turn_end)) = [].
Proof. split; [exact (proj2 (proj2 (view_fields _ _ ex_turn_viewed)))|]. exact (turn_close_stops_timers [] (snd ex_turn_end) ex_turn_reachable). Defined.

Lemma ex_turn_channel : exists b, ut_channels (snd ex_turn_end) !! 0%nat = Some b /\ cb_peer b = ex_peer1 /\ cb_channel b = 0x4000.
Proof.
  pose proof (proj1 (proj2 (view_fields _ _ ex_turn_viewed))) as H. cbn [vw_channels ex_turn_view] in H.
  destruct (ut_channels (snd ex_turn_end)) as [|b l]; [done|]. injection H as H1 H2 _. by exists b.
Qed.

Lemma turn_channel_data_received_witness :
  exists buf', nice_udp_turn_socket_parse_recv [] (snd ex_turn_end) nice_address_init 7 [64; 0; 0; 3; 9; 8; 7; 0] ex_server 7 =
      Ok (mkParsed 3 ex_peer1 buf' true, snd ex_turn_end) /\ take 3 buf' = [9; 8; 7] /\ zlen buf' = 8.
Proof.
  destruct ex_turn_channel as (b & Hb & Hp & Hc). assert (Hr : base_is_reliable (snd ex_turn_end) = false) by reflexivity.
  pose proof (turn_channel_data_received [] (snd ex_turn_end) 0 b [9; 8; 7] [0] nice_address_init ex_server ex_turn_reachable Hr Hb eq_refl) as H.
  rewrite Hc, Hp in H. exact H.
Defined.

Lemma turn_binding_never_expires_witness :
  priv_binding_expired_timeout [] (snd ex_turn_end) = Ok (false, snd ex_turn_end).
Proof. exact (turn_binding_never_expires [] (snd ex_turn_end) ex_turn_reachable). Defined.
