(* ===== verification/AgentIo.v ===== *)
(** * Application data (agent/agent.c, agent/component.c)

    What the agent does with the packets of its sockets and with the messages
    of the application: [agent_recv_message_unlocked], which separates STUN and
    TURN messages from data, with the framing of RFC 4571 for ICE-TCP, and
    [nice_agent_send_messages_nonblocking_internal].

    The sockets of the agent are handles, as everywhere in the model of the
    agent; the class [IoWorld] has what is asked of the objects behind them,
    and [PseudoTcpPort] what is asked of the pseudo-TCP socket of the
    component. *)
From stdpp Require Import gmap.
From S2P Require Import Prelude CMem StunTypes StunMessage StunCrc32 StunAgent StunTimer StunIce StunTurn Address Candidate IceTypes IceEnv CheckList CheckDriver Discovery CheckTick CheckInbound IoMessage.
Local Open Scope Z_scope.

Class IoWorld (W : Type) : Type := {
  (** [nice_socket_recv_messages (sock, &message, 1)] *)
  io_recv : W -> option Z -> NiceInputMessage -> res (Z * NiceInputMessage * W);
  (** [nice_socket_send_messages], [nice_socket_send_messages_reliable] *)
  io_send : W -> option Z -> NiceAddress -> list NiceOutputMessage -> res (Z * W);
  io_send_reliable : W -> option Z -> NiceAddress -> list NiceOutputMessage -> res (Z * W);
  io_can_send : W -> option Z -> NiceAddress -> bool;
  (** [nice_socket_is_based_on] *)
  io_is_based_on : W -> option Z -> option Z -> bool;
  (** the GSocket: available bytes, whether it is connected, the result of a peek *)
  io_available : W -> option Z -> Z;
  io_connected : W -> option Z -> bool;
  io_peek : W -> option Z -> Z;
  (** accepts on a passive socket; the new socket is attached *)
  io_accept : W -> option Z -> W;
  (** [nice_udp_turn_socket_parse_recv_message (turn, &nicesock, message)] *)
  io_turn_parse : W -> option Z -> option Z -> NiceInputMessage -> res (Z * option Z * NiceInputMessage * W)
}.

(** The errno of the pseudo-TCP socket. *)
Inductive ptcp_errno : Set := PtcpWouldBlock | PtcpNotConnected | PtcpPipe | PtcpOther.

Class PseudoTcpPort (W : Type) : Type := {
  ptcp_is_closed : W -> bool;
  ptcp_can_send : W -> bool;
  ptcp_get_error : W -> ptcp_errno;
  ptcp_get_available_send_space : W -> Z;
  ptcp_send : W -> list Z -> res (Z * W);
  (** up to so many bytes: the return value and the bytes *)
  ptcp_recv : W -> Z -> res (Z * list Z * W);
  (** their callbacks may call into the agent *)
  ptcp_notify_message : NiceAgent -> W -> NiceInputMessage -> res (NiceAgent * W);
  ptcp_notify_packet : NiceAgent -> W -> list Z -> res (bool * NiceAgent * W);
  (** [adjust_tcp_clock] and [priv_pseudo_tcp_error] *)
  ptcp_adjust_clock : NiceAgent -> W -> res (NiceAgent * W);
  ptcp_fail : NiceAgent -> W -> res (NiceAgent * W)
}.

(** ** The receive buffer of ICE-TCP (component.h) *)

Record Rfc4571 : Type := mkRfc4571 {
  rfc4571_buffer : list Z;
  rfc4571_buffer_offset : Z;
  rfc4571_buffer_size : Z;
  rfc4571_frame_offset : Z;
  rfc4571_frame_size : Z;
  rfc4571_consumed_size : Z;
  rfc4571_remote_addr : NiceAddress;
  rfc4571_wakeup_needed : bool
}.

Definition RFC4571_BUFFER_SIZE : Z := 2 + 65535.

(** The members in [nice_component_init]; the others are zero. *)
Definition rfc4571_init {M : GMalloc} : Rfc4571 :=
  mkRfc4571 (g_malloc RFC4571_BUFFER_SIZE) 0 RFC4571_BUFFER_SIZE 0 0 0 nice_address_init false.

Definition nice_component_compute_rfc4571_headroom (r : Rfc4571) : Z :=
  u32 (rfc4571_buffer_offset r - rfc4571_frame_offset r).

(** The size of the frame at [frame_offset], with its header. *)
Definition frame_size_at (r : Rfc4571) : res Z :=
  header ← rd_bytes (rfc4571_buffer r) (rfc4571_frame_offset r) 2;
  Ok (2 + ntohs (le_value header)).

(** [next_frame r]: the frame is done; is the next one complete? *)
Definition next_frame (r : Rfc4571) : res Rfc4571 :=
  let r := mkRfc4571 (rfc4571_buffer r) (rfc4571_buffer_offset r) (rfc4571_buffer_size r)
             (u32 (rfc4571_frame_offset r + rfc4571_frame_size r)) 0 0 (rfc4571_remote_addr r) (rfc4571_wakeup_needed r) in
  let headroom := nice_component_compute_rfc4571_headroom r in
  '(size, whole) ← (if 2 <=? headroom then size ← frame_size_at r; Ok (size, size <=? headroom) else Ok (0, false));
  Ok (mkRfc4571 (rfc4571_buffer r) (rfc4571_buffer_offset r) (rfc4571_buffer_size r) (rfc4571_frame_offset r) size 0
        (rfc4571_remote_addr r) whole).

(** [messages]: the messages to copy into and the iterator, or NULL. *)
Definition agent_consume_next_rfc4571_chunk (bytestream_tcp : bool) (r : Rfc4571)
    (messages : option (list NiceInputMessage * NiceInputMessageIter))
    : res (option (list NiceInputMessage * NiceInputMessageIter) * Rfc4571) :=
  match messages with
  | None => r ← next_frame r; Ok (None, r)
  | Some (messages, iter) =>
      let bytes_unconsumed := u32 (rfc4571_frame_size r - 2 - rfc4571_consumed_size r) in
      let off := rfc4571_frame_offset r + rfc4571_frame_size r - bytes_unconsumed in
      chunk ← rd_bytes (rfc4571_buffer r) off bytes_unconsumed;
      '(bytes_copied, messages, iter) ← append_buffer_to_input_messages bytestream_tcp messages (zlen messages) iter chunk bytes_unconsumed;
      let r := mkRfc4571 (rfc4571_buffer r) (rfc4571_buffer_offset r) (rfc4571_buffer_size r) (rfc4571_frame_offset r)
                 (rfc4571_frame_size r) (u32 (rfc4571_consumed_size r + bytes_copied)) (rfc4571_remote_addr r) (rfc4571_wakeup_needed r) in
      r ← (if (bytes_copied =? bytes_unconsumed) || negb bytestream_tcp then next_frame r
           else Ok (mkRfc4571 (rfc4571_buffer r) (rfc4571_buffer_offset r) (rfc4571_buffer_size r) (rfc4571_frame_offset r)
                      (rfc4571_frame_size r) (rfc4571_consumed_size r) (rfc4571_remote_addr r) true));
      Ok (Some (messages, iter), r)
  end.

(** [Some]: a chunk was consumed. *)
Definition agent_try_consume_next_rfc4571_chunk (bytestream_tcp : bool) (r : Rfc4571) (messages : list NiceInputMessage)
    (iter : NiceInputMessageIter) : res (option (list NiceInputMessage * NiceInputMessageIter) * Rfc4571) :=
  if rfc4571_frame_size r =? 0 then Ok (None, r)
  else if nice_component_compute_rfc4571_headroom r <? rfc4571_frame_size r then Ok (None, r)
  else agent_consume_next_rfc4571_chunk bytestream_tcp r (Some (messages, iter)).

(** The number of vectors of an array that ends with a NULL buffer. *)
Fixpoint count_vectors (bufs : list GVector) : res Z :=
  match bufs with
  | [] => Fault OutOfBounds
  | v :: bufs => if gv_buffer v is Some _ then n ← count_vectors bufs; Ok (n + 1) else Ok 0
  end.

Section io.
Context {W : Type} {IO : IoWorld W}.

(** The read of a real ICE-TCP connection: the return value and the room. *)
Definition rfc4571_fill (r : Rfc4571) (w : W) (nicesock : option Z) (headroom : Z) : res (Z * Z * Rfc4571 * W) :=
  buffer ← (if 0 <? headroom then
              data ← rd_bytes (rfc4571_buffer r) (rfc4571_frame_offset r) headroom;
              wr_bytes (rfc4571_buffer r) 0 data
            else Ok (rfc4571_buffer r));
  let size := rfc4571_buffer_size r - headroom in
  room ← rd_bytes buffer headroom size;
  '(sockret, m, w) ← io_recv w nicesock (mkInput [mkVector (Some room) size] 1 (Some (rfc4571_remote_addr r)) 0);
  match im_buffers m with
  | v :: _ =>
      buffer ← wr_bytes buffer headroom (default [] (gv_buffer v));
      let length := if sockret =? 1 then im_length m else 0 in
      Ok (sockret, u32 (headroom + length),
          mkRfc4571 buffer (u32 (headroom + length)) (rfc4571_buffer_size r) 0 (rfc4571_frame_size r) (rfc4571_consumed_size r)
            (default (rfc4571_remote_addr r) (im_from m)) (rfc4571_wakeup_needed r), w)
  | [] => Fault OutOfBounds
  end.

(** Result: [sockret], and [Some] frame when a whole one is there. *)
Definition rfc4571_read (r : Rfc4571) (w : W) (nicesock : option Z) : res (Z * option (list Z) * Rfc4571 * W) :=
  let headroom := nice_component_compute_rfc4571_headroom r in
  '(sockret, headroom, r, w) ←
    (if (rfc4571_frame_size r =? 0) || (headroom <? rfc4571_frame_size r) then
       let available := io_available w nicesock in
       '(sockret, headroom, r, w) ←
         (if available <=? 0 then
            Ok (if negb (io_connected w nicesock) then -1 else if io_peek w nicesock =? 0 then -1 else available, headroom, r, w)
          else rfc4571_fill r w nicesock headroom);
       size ← (if (rfc4571_frame_size r =? 0) && (2 <=? headroom) then frame_size_at r else Ok (rfc4571_frame_size r));
       Ok (sockret, headroom,
           mkRfc4571 (rfc4571_buffer r) (rfc4571_buffer_offset r) (rfc4571_buffer_size r) (rfc4571_frame_offset r) size
             (rfc4571_consumed_size r) (rfc4571_remote_addr r) (rfc4571_wakeup_needed r), w)
     else Ok (0, headroom, r, w));
  if negb (rfc4571_frame_size r =? 0) && (rfc4571_frame_size r <=? headroom) then
    frame ← rd_bytes (rfc4571_buffer r) (rfc4571_frame_offset r + 2) (rfc4571_frame_size r - 2);
    Ok (1, Some frame, r, w)
  else Ok (if sockret =? 1 then 0 else sockret, None, r, w).

(** ** Receiving (agent.c) *)

Inductive RecvStatus : Set := RECV_ERROR | RECV_WOULD_BLOCK | RECV_OOB | RECV_SUCCESS.

#[global] Instance RecvStatus_eq_dec : EqDecision RecvStatus.
Proof. solve_decision. Defined.

(** The component's part that is not in [NiceComponent], and the sockets.
    [rs_tcp_writable] is [None] when [tcp_writable_cancellable] is NULL. *)
Record IoState : Type := mkIo {
  rs_agent : NiceAgent;
  rs_bytestream_tcp : bool;
  rs_rfc4571 : Rfc4571;
  rs_queued_tcp_packets : list (list Z);
  rs_tcp_writable : option bool;
  rs_world : W
}.

Definition with_world (st : IoState) (w : W) : IoState :=
  mkIo (rs_agent st) (rs_bytestream_tcp st) (rs_rfc4571 st) (rs_queued_tcp_packets st) (rs_tcp_writable st) w.
Definition with_agent (st : IoState) (a : NiceAgent) (w : W) : IoState :=
  mkIo a (rs_bytestream_tcp st) (rs_rfc4571 st) (rs_queued_tcp_packets st) (rs_tcp_writable st) w.
Definition with_rfc4571 (st : IoState) (r : Rfc4571) : IoState :=
  mkIo (rs_agent st) (rs_bytestream_tcp st) r (rs_queued_tcp_packets st) (rs_tcp_writable st) (rs_world st).
Definition with_queued (st : IoState) (q : list (list Z)) : IoState :=
  mkIo (rs_agent st) (rs_bytestream_tcp st) (rs_rfc4571 st) q (rs_tcp_writable st) (rs_world st).

Definition with_from (m : NiceInputMessage) (from : option NiceAddress) : NiceInputMessage :=
  mkInput (im_buffers m) (im_n_buffers m) from (im_length m).

(** Whether a candidate of the valid list confirms the source. *)
Definition confirms {E : CheckEnv} (nicesock : option Z) (address : NiceAddress) (cand : NiceCandidate) : bool :=
  (((match socket_type nicesock with NICE_SOCKET_TYPE_TCP_BSD | NICE_SOCKET_TYPE_UDP_TURN => true | _ => false end) &&
    (match c_transport cand with
     | NICE_CANDIDATE_TRANSPORT_TCP_ACTIVE | NICE_CANDIDATE_TRANSPORT_TCP_PASSIVE | NICE_CANDIDATE_TRANSPORT_TCP_SO => true
     | NICE_CANDIDATE_TRANSPORT_UDP => false
     end)) ||
   (match c_transport cand with NICE_CANDIDATE_TRANSPORT_UDP => true | _ => false end)) &&
  nice_address_equal address (c_addr cand).

(** The confirming candidate is moved to the front. *)
Definition nice_component_verify_remote_candidate {E : CheckEnv} (c : NiceComponent) (address : NiceAddress)
    (nicesock : option Z) : bool * NiceComponent :=
  if co_fallback_mode c then (true, c)
  else
    match list_find (fun cand => confirms nicesock address cand = true) (co_valid_candidates c) with
    | Some (k, cand) => (true, c <| co_valid_candidates := cand :: delete k (co_valid_candidates c) |>)
    | None => (false, c)
    end.

Section recv.
Context {PT : PseudoTcpPort W} {M : GMalloc}.
Context {E : CheckEnv} {CL : CryptoLib} {B : Base64} {N : NetEnv} {K : Keepalive} (package_string : list Z).

Definition status_of (ret : Z) : RecvStatus := if ret =? 0 then RECV_OOB else RECV_SUCCESS.

(** The search for a relayed candidate of the server the packet came from. *)
Fixpoint find_relayed (w : W) (sid : Z) (turn : TurnServer) (nicesock : option Z) (l : list NiceCandidate) : option NiceCandidate :=
  match l with
  | [] => None
  | cand :: l =>
      if bool_decide (c_type cand = NICE_CANDIDATE_TYPE_RELAYED) &&
         (match c_turn cand with Some t => ts_ptr t =? ts_ptr turn | None => false end) &&
         (c_stream_id cand =? sid) && io_is_based_on w (c_sockptr cand) nicesock
      then Some cand else find_relayed w sid turn nicesock l
  end.

(** Result: whether the packet is from a TURN server, the socket, the message,
    the status and the sockets. *)
Fixpoint turn_servers_loop (w : W) (sid : Z) (locals : list NiceCandidate) (nicesock : option Z) (message : NiceInputMessage)
    (from : NiceAddress) (is_turn : bool) (status : RecvStatus) (servers : list TurnServer)
    : res (bool * option Z * NiceInputMessage * RecvStatus * W) :=
  match servers with
  | [] => Ok (is_turn, nicesock, message, status, w)
  | turn :: servers =>
      if negb (nice_address_equal from (ts_server turn)) then turn_servers_loop w sid locals nicesock message from is_turn status servers
      else
        match find_relayed w sid turn nicesock locals with
        | Some cand =>
            '(ret, nicesock, message, w) ← io_turn_parse w (c_sockptr cand) nicesock message;
            Ok (true, nicesock, message, status_of ret, w)
        | None => turn_servers_loop w sid locals nicesock message from true status servers
        end
  end.

Definition _agent_recv_turn_message_unlocked (w : W) (sid : Z) (c : NiceComponent) (nicesock : option Z) (message : NiceInputMessage)
    (from : NiceAddress) (status : RecvStatus) : res (bool * option Z * NiceInputMessage * RecvStatus * W) :=
  if bool_decide (socket_type nicesock = NICE_SOCKET_TYPE_UDP_TURN) then Ok (true, nicesock, message, status, w)
  else
    match co_turn_candidate c with
    | Some cand =>
        relayed ← (if io_is_based_on w (c_sockptr cand) nicesock then
                     match c_turn cand with Some turn => Ok (nice_address_equal from (ts_server turn)) | None => Fault OutOfBounds end
                   else Ok false);
        if relayed : bool then
          '(ret, nicesock, message, w) ← io_turn_parse w (c_sockptr cand) nicesock message;
          Ok (true, nicesock, message, status_of ret, w)
        else turn_servers_loop w sid (co_local_candidates c) nicesock message from false status (co_turn_servers c)
    | None => turn_servers_loop w sid (co_local_candidates c) nicesock message from false status (co_turn_servers c)
    end.

(** Where the first message came from: the socket it was really read on, the
    message to go on with, whether that is a frame of the ICE-TCP buffer, and
    [sockret]. *)
Definition topmost_socket (w : W) (sid cid : Z) (nicesock : option Z) (locals : list NiceCandidate) : option Z :=
  match List.find (fun cand => bool_decide (c_type cand = NICE_CANDIDATE_TYPE_RELAYED) && (c_stream_id cand =? sid) &&
                    (c_component_id cand =? cid) && io_is_based_on w (c_sockptr cand) nicesock) locals with
  | Some cand => c_sockptr cand
  | None => nicesock
  end.

(** A packet of TURN for ICE-TCP: the frame header is read into a vector of its
    own. *)
Definition recv_packetized (w : W) (nicesock : option Z) (message : NiceInputMessage) : res (Z * NiceInputMessage * W) :=
  n_bufs ← (if im_n_buffers message =? -1 then count_vectors (im_buffers message) else Ok (u32 (im_n_buffers message)));
  if zlen (im_buffers message) <? n_bufs then Fault OutOfBounds else
  let frame := mkVector (Some (g_malloc 2)) 2 in
  '(sockret, local, w) ← io_recv w nicesock
     (mkInput (frame :: take (Z.to_nat n_bufs) (im_buffers message)) (n_bufs + 1) (im_from message) 0);
  match im_buffers local with
  | [] => Fault OutOfBounds
  | v :: bufs =>
      header ← rd_bytes (default [] (gv_buffer v)) 0 2;
      let length := if (sockret =? 1) && (2 <=? im_length local) then ntohs (le_value header) else im_length message in
      Ok (sockret, mkInput (bufs ++ drop (Z.to_nat n_bufs) (im_buffers message)) (im_n_buffers message) (im_from local) length, w)
  end.

Definition recv_first (st : IoState) (sid cid : Z) (c : NiceComponent) (nicesock : option Z) (message : NiceInputMessage)
    : res (Z * option Z * NiceInputMessage * bool * IoState) :=
  if nice_socket_is_reliable nicesock then
    match socket_type nicesock with
    | NICE_SOCKET_TYPE_UDP_TURN_OVER_TCP | NICE_SOCKET_TYPE_UDP_TURN =>
        let nicesock := topmost_socket (rs_world st) sid cid nicesock (co_local_candidates c) in
        '(sockret, message, w) ← recv_packetized (rs_world st) nicesock message;
        Ok (sockret, nicesock, message, false, with_world st w)
    | NICE_SOCKET_TYPE_TCP_PASSIVE =>
        Ok (0, nicesock, message, false, with_world st (io_accept (rs_world st) nicesock))
    | _ =>
        '(sockret, frame, r, w) ← rfc4571_read (rs_rfc4571 st) (rs_world st) nicesock;
        let st := with_rfc4571 (with_world st w) r in
        match frame with
        | Some frame =>
            Ok (sockret, nicesock,
                mkInput [mkVector (Some frame) (zlen frame)] 1 (Some (rfc4571_remote_addr r)) (zlen frame), true, st)
        | None => Ok (sockret, nicesock, mkInput (im_buffers message) (im_n_buffers message) (im_from message) 0, false, st)
        end
    end
  else
    '(sockret, message, w) ← io_recv (rs_world st) nicesock message;
    Ok (sockret, nicesock, message, false, with_world st w).

Definition stun_vectors (m : NiceInputMessage) : list StunInputVector :=
  (fun v => mkInputVector (gv_buffer v) (gv_size v)) <$> im_buffers m.

(** Whether the message was handled as STUN. *)
Definition recv_stun (st : IoState) (sid cid : Z) (nicesock : option Z) (message : NiceInputMessage) (from : NiceAddress)
    : res (bool * IoState) :=
  let a := rs_agent st in
  let has_padding := match a_compatibility a with NICE_COMPATIBILITY_OC2007 | NICE_COMPATIBILITY_OC2007R2 => false | _ => true end in
  fast ← stun_message_validate_buffer_length_fast (stun_vectors message) (im_n_buffers message) (im_length message) has_padding;
  if fast =? im_length message then
    '(big_buf, big_buf_len) ← compact_input_message message;
    validated_len ← stun_message_validate_buffer_length big_buf big_buf_len has_padding;
    if validated_len =? big_buf_len then
      '(handled, a) ← conn_check_handle_inbound_stun package_string a sid cid nicesock from big_buf big_buf_len;
      Ok (handled, with_agent st a (rs_world st))
    else Ok (false, st)
  else Ok (false, st).

(** Data queued before a pair was selected goes to the pseudo-TCP socket. *)
Fixpoint queued_packets_loop (st : IoState) (sid cid : Z) (q : list (list Z)) : res IoState :=
  match q with
  | [] => Ok (with_queued st [])
  | vec :: rest =>
      '(retval, a, w) ← ptcp_notify_packet (rs_agent st) (rs_world st) vec;
      match agent_find_component a sid cid with
      | None => Ok (with_queued (with_agent st a w) q)
      | Some _ =>
          if ptcp_is_closed w then Ok (with_queued (with_agent st a w) q)
          else
            '(a, w) ← ptcp_adjust_clock a w;
            let st := with_agent st a w in
            if retval : bool then queued_packets_loop st sid cid rest else Ok (with_queued st q)
      end
  end.

Definition process_queued_tcp_packets (st : IoState) (sid cid : Z) : res IoState :=
  _ ← assert_ok (a_reliable (rs_agent st));
  c ← the_component (rs_agent st) sid cid;
  match sp_local (co_selected_pair c) with
  | None => Ok st
  | Some local =>
      if ptcp_is_closed (rs_world st) || nice_socket_is_reliable (c_sockptr local) then Ok st
      else queued_packets_loop st sid cid (rs_queued_tcp_packets st)
  end.

(** Data for the application: the status, and whether the function returns at
    once, past its clean-up. *)
Definition recv_data (st : IoState) (sid cid : Z) (nicesock : option Z) (message : NiceInputMessage)
    : res (RecvStatus * bool * IoState) :=
  let a := rs_agent st in
  if (0 <? im_length message) && a_reliable a then
    if negb (nice_socket_is_reliable nicesock) && negb (ptcp_is_closed (rs_world st)) then
      c ← the_component a sid cid;
      match sp_local (co_selected_pair c) with
      | None =>
          '(vec, _) ← compact_input_message message;
          Ok (RECV_OOB, true, with_queued st (rs_queued_tcp_packets st ++ [vec]))
      | Some _ =>
          st ← process_queued_tcp_packets st sid cid;
          '(a, w) ← ptcp_notify_message (rs_agent st) (rs_world st) message;
          '(a, w) ← ptcp_adjust_clock a w;
          Ok (RECV_OOB, false, with_agent st a w)
      end
    else if ptcp_is_closed (rs_world st) then Ok (RECV_OOB, false, st)
    else Ok (RECV_SUCCESS, false, st)
  else Ok (RECV_SUCCESS, false, st).

(** From the first packet on: the status, the message, the early return. *)
Definition recv_classify (st : IoState) (sid cid : Z) (nicesock : option Z) (message : NiceInputMessage) (status : RecvStatus)
    : res (RecvStatus * NiceInputMessage * bool * IoState) :=
  if im_length message =? 0 then Ok (RECV_OOB, message, false, st)
  else
    from ← (match im_from message with Some from => Ok from | None => Fault OutOfBounds end);
    c ← the_component (rs_agent st) sid cid;
    '(is_turn, nicesock, message, status, w) ← _agent_recv_turn_message_unlocked (rs_world st) sid c nicesock message from status;
    let st := with_world st w in
    if a_force_relay (rs_agent st) && negb is_turn then Ok (RECV_WOULD_BLOCK, message, false, st)
    else if decide (status = RECV_OOB) then Ok (RECV_OOB, message, false, st)
    else
      from ← (match im_from message with Some from => Ok from | None => Fault OutOfBounds end);
      '(handled, st) ← recv_stun st sid cid nicesock message from;
      if handled : bool then Ok (RECV_OOB, message, false, st)
      else
        c ← the_component (rs_agent st) sid cid;
        let '(verified, c') := nice_component_verify_remote_candidate c from nicesock in
        if negb verified then Ok (RECV_OOB, message, false, st)
        else
          let a := upd_component (rs_agent st) sid cid (fun c => c <| co_valid_candidates := co_valid_candidates c' |>) in
          let st := with_agent st (a <| a_media_after_tick := true |>) (rs_world st) in
          '(status', returned, st) ← recv_data st sid cid nicesock message;
          Ok (status', message, returned, st).

(** The message of a frame points into the buffer: what was stored into it. *)
Definition frame_written (r : Rfc4571) (message : NiceInputMessage) : res Rfc4571 :=
  match im_buffers message with
  | v :: _ =>
      buffer ← wr_bytes (rfc4571_buffer r) (rfc4571_frame_offset r + 2) (default [] (gv_buffer v));
      Ok (mkRfc4571 buffer (rfc4571_buffer_offset r) (rfc4571_buffer_size r) (rfc4571_frame_offset r) (rfc4571_frame_size r)
            (rfc4571_consumed_size r) (rfc4571_remote_addr r) (rfc4571_wakeup_needed r))
  | [] => Fault OutOfBounds
  end.

(** The clean-up: a frame of the ICE-TCP buffer is consumed. *)
Definition recv_done (st : IoState) (status : RecvStatus) (is_frame : bool) (provided : NiceInputMessage)
    : res (NiceInputMessage * IoState) :=
  if is_frame then
    '(out, r) ← agent_consume_next_rfc4571_chunk (rs_bytestream_tcp st) (rs_rfc4571 st)
       (if decide (status = RECV_SUCCESS) then Some ([provided], nice_input_message_iter_reset) else None);
    provided ← (match out with Some (ms, _) => message_at ms 0 | None => Ok provided end);
    Ok (provided, with_rfc4571 st r)
  else Ok (provided, st).

Definition agent_recv_message_unlocked (st : IoState) (sid cid : Z) (nicesock : option Z) (provided : NiceInputMessage)
    : res (RecvStatus * NiceInputMessage * IoState) :=
  let message := with_from provided (Some (default nice_address_init (im_from provided))) in
  let clear (m : NiceInputMessage) := match im_from provided with Some _ => m | None => with_from m None end in
  c ← the_component (rs_agent st) sid cid;
  '(sockret, nicesock, message, is_frame, st) ← recv_first st sid cid c nicesock message;
  '(status, message, returned, st) ←
    (if sockret =? 0 then Ok (RECV_WOULD_BLOCK, message, false, st)
     else if sockret <? 0 then Ok (RECV_ERROR, message, false, st)
     else recv_classify st sid cid nicesock message RECV_SUCCESS);
  st ← (if is_frame : bool then r ← frame_written (rs_rfc4571 st) message; Ok (with_rfc4571 st r) else Ok st);
  let provided' := if is_frame : bool then mkInput (im_buffers provided) (im_n_buffers provided) (im_from message) 0 else message in
  if returned : bool then Ok (status, provided', st)
  else
    '(provided', st) ← recv_done st status is_frame provided';
    Ok (status, clear provided', st).
End recv.

(** ** Sending (agent.c) *)

Inductive io_error : Set := SendBrokenPipe | SendPermissionDenied | SendFailed | SendWouldBlock | SendCancelled.

#[global] Instance io_error_eq_dec : EqDecision io_error.
Proof. solve_decision. Defined.

Section send.
Context {PT : PseudoTcpPort W} {E : CheckEnv}.

(** The vectors of one message: [inl] when the loop is left, with the return
    value or, for [None], through the label [out]. *)
Fixpoint ptcp_vectors_loop (w : W) (n_buffers j : Z) (bufs : list GVector) (bytes_sent : Z)
    : res (option (option io_error) * Z * W) :=
  more ← has_vector n_buffers j bufs;
  if more : bool then
    match bufs with
    | [] => Fault OutOfBounds
    | v :: rest =>
        data ← vector_read v 0 (gv_size v);
        '(ret, w) ← ptcp_send w data;
        if ret <? 0 then
          match ptcp_get_error w with
          | PtcpWouldBlock => Ok (Some None, bytes_sent, w)
          | PtcpNotConnected | PtcpPipe => Ok (Some (Some SendWouldBlock), bytes_sent, w)
          | PtcpOther => Ok (Some (Some SendFailed), bytes_sent, w)
          end
        else ptcp_vectors_loop w n_buffers (j + 1) rest (bytes_sent + ret)
    end
  else Ok (None, bytes_sent, w).

(** Result: the return value, the error and the socket. *)
Fixpoint ptcp_messages_loop (w : W) (i bytes_sent : Z) (messages : list NiceOutputMessage) (allow_partial : bool)
    : res (Z * option io_error * W) :=
  match messages with
  | [] => Ok (if allow_partial then bytes_sent else i, None, w)
  | message :: messages =>
      size ← output_message_get_size message;
      if negb allow_partial && (ptcp_get_available_send_space w <? size) then Ok (i, None, w)
      else
        '(leaves, bytes_sent, w) ← ptcp_vectors_loop w (om_n_buffers message) 0 (om_buffers message) bytes_sent;
        match leaves with
        | None => ptcp_messages_loop w (i + 1) bytes_sent messages allow_partial
        | Some None => Ok (if allow_partial then bytes_sent else i, None, w)
        | Some (Some e) => Ok (-1, Some e, w)
        end
  end.

Definition pseudo_tcp_socket_send_messages (w : W) (messages : list NiceOutputMessage) (allow_partial : bool)
    : res (Z * option io_error * W) := ptcp_messages_loop w 0 0 messages allow_partial.

(** The frame of RFC 4571: the largest packet of a message. *)
Definition FRAME_MAX : Z := 0xF800.

(** The first vector to copy from, the offset in it, and [current_offset]. *)
Fixpoint find_start (bufs : list GVector) (offset current_offset : Z) : list GVector * Z * Z :=
  match bufs with
  | [] => ([], 0, current_offset)
  | v :: rest =>
      if gv_size v <? offset - current_offset then find_start rest offset (current_offset + gv_size v)
      else (bufs, offset - current_offset, offset)
  end.

(** The vectors of a packet, and the number of bytes in them. *)
Fixpoint packet_vectors (bufs : list GVector) (offset_in_buffer packet_len : Z) : list GVector * Z :=
  match bufs with
  | [] => ([], 0)
  | v :: rest =>
      let size := Z.min (gv_size v) packet_len in
      let '(vs, n) := packet_vectors rest 0 (packet_len - size) in
      (mkVector (drop (Z.to_nat offset_in_buffer) <$> gv_buffer v) size :: vs, size + n)
  end.

(** One packet: the message for the socket, the offset behind it and
    [current_offset]. *)
Definition frame_packet (bufs : list GVector) (offset packet_len : Z) : NiceOutputMessage * Z * Z :=
  let '(start, offset_in_buffer, current_offset) := find_start bufs offset 0 in
  let '(vs, n) := packet_vectors start offset_in_buffer packet_len in
  (mkOutput (mkVector (Some (le_bytes 2 (htons packet_len))) 2 :: vs) (zlen vs + 1), offset + n, current_offset).

(** Result: [n_sent] after the packets of one message. *)
Fixpoint packets_loop (fuel : nat) (st : IoState) (sock : option Z) (addr : NiceAddress) (bufs : list GVector)
    (message_len offset n_sent : Z) : res (Z * IoState) :=
  if 0 <? message_len then
    match fuel with
    | O => Fault OutOfFuel
    | S fuel =>
        let packet_len := Z.min message_len FRAME_MAX in
        let message_len := message_len - packet_len in
        let '(local_message, offset, current_offset) := frame_packet bufs offset packet_len in
        '(n_sent_framed, w) ←
          (if (current_offset =? 0) && negb (a_reliable (rs_agent st)) then io_send (rs_world st) sock addr [local_message]
           else io_send_reliable (rs_world st) sock addr [local_message]);
        let writable := match rs_tcp_writable st with
                        | Some c => Some (if io_can_send w sock addr then c else false)
                        | None => None
                        end in
        let st := mkIo (rs_agent st) (rs_bytestream_tcp st) (rs_rfc4571 st) (rs_queued_tcp_packets st) writable w in
        let n_sent := if (n_sent_framed <? 0) && (n_sent =? 0) then n_sent_framed else n_sent in
        if negb (n_sent_framed =? 1) then Ok (n_sent, st)
        else packets_loop fuel st sock addr bufs message_len offset (if message_len =? 0 then n_sent + 1 else n_sent)
    end
  else Ok (n_sent, st).

Fixpoint framed_messages_loop (st : IoState) (sock : option Z) (addr : NiceAddress) (n_sent : Z) (messages : list NiceOutputMessage)
    : res (Z * IoState) :=
  match messages with
  | [] => Ok (n_sent, st)
  | message :: messages =>
      message_len ← output_message_get_size message;
      n_bufs ← (if om_n_buffers message =? -1 then count_vectors (om_buffers message) else Ok (u32 (om_n_buffers message)));
      if zlen (om_buffers message) <? n_bufs then Fault OutOfBounds else
      '(n_sent, st) ← packets_loop (Z.to_nat (message_len / FRAME_MAX) + 1) st sock addr
         (take (Z.to_nat n_bufs) (om_buffers message)) message_len 0 n_sent;
      framed_messages_loop st sock addr n_sent messages
  end.

(** Over the pseudo-TCP socket. *)
Definition send_pseudo_tcp (st : IoState) (messages : list NiceOutputMessage) (allow_partial : bool)
    : res (Z * option io_error * IoState) :=
  if ptcp_is_closed (rs_world st) then Ok (-1, Some SendFailed, st)
  else
    '(n_sent, e, w) ← pseudo_tcp_socket_send_messages (rs_world st) messages allow_partial;
    '(a, w) ← ptcp_adjust_clock (rs_agent st) w;
    let writable := match rs_tcp_writable st with
                    | Some c => Some (if ptcp_can_send w then c else false)
                    | None => None
                    end in
    let st := mkIo a (rs_bytestream_tcp st) (rs_rfc4571 st) (rs_queued_tcp_packets st) writable w in
    if (n_sent <? 0) && negb (bool_decide (e = Some SendWouldBlock)) then
      '(a, w) ← ptcp_fail (rs_agent st) (rs_world st); Ok (n_sent, e, with_agent st a w)
    else Ok (n_sent, e, st).

(** Over the socket of the selected pair. *)
Definition send_selected (st : IoState) (sock : option Z) (addr : NiceAddress) (messages : list NiceOutputMessage)
    (allow_partial : bool) : res (Z * option io_error * IoState) :=
  '(n_sent, st) ←
    (if nice_socket_is_reliable sock then framed_messages_loop st sock addr 0 messages
     else '(n, w) ← io_send (rs_world st) sock addr messages; Ok (n, with_world st w));
  if n_sent <? 0 then Ok (n_sent, Some SendFailed, st)
  else if (0 <? n_sent) && allow_partial then
    match messages with
    | message :: _ => size ← output_message_get_size message; Ok (s32 size, None, st)
    | [] => Fault OutOfBounds
    end
  else Ok (n_sent, None, st).

(** Result: the return value, the error and the state. *)
Definition nice_agent_send_messages_nonblocking_internal (st : IoState) (stream_id component_id : Z)
    (messages : list NiceOutputMessage) (allow_partial : bool) : res (Z * option io_error * IoState) :=
  _ ← assert_ok ((zlen messages =? 1) || negb allow_partial);
  '(n_sent, e, st) ←
    (match agent_find_component (rs_agent st) stream_id component_id with
     | None => Ok (-1, Some SendBrokenPipe, st)
     | Some (_, component) =>
         match sp_local (co_selected_pair component), sp_remote (co_selected_pair component) with
         | None, _ => Ok (-1, Some SendWouldBlock, st)
         | Some local, remote =>
             if negb (sp_remote_consent_have (co_selected_pair component)) then Ok (-1, Some SendPermissionDenied, st)
             else
               '(n_sent, e, st) ←
                 (if a_reliable (rs_agent st) && negb (nice_socket_is_reliable (c_sockptr local))
                  then send_pseudo_tcp st messages allow_partial
                  else
                    match remote with
                    | Some remote => send_selected st (c_sockptr local) (c_addr remote) messages allow_partial
                    | None => Fault OutOfBounds
                    end);
               if n_sent =? 0 then Ok (-1, Some SendWouldBlock, st) else Ok (n_sent, e, st)
         end
     end);
  _ ← assert_ok (eqb (if e is Some _ then true else false) (n_sent =? -1));
  _ ← assert_ok (negb (n_sent =? 0));
  bound ← (if allow_partial then match messages with m :: _ => output_message_get_size m | [] => Fault OutOfBounds end
           else Ok (zlen messages));
  _ ← assert_ok ((n_sent <? 0) || (n_sent <=? bound));
  Ok (n_sent, e, st).

(** The public functions; [cancelled] is the state of the cancellable. *)
Definition nice_agent_send_messages_nonblocking (st : IoState) (stream_id component_id : Z) (messages : list NiceOutputMessage)
    (cancelled : bool) : res (Z * option io_error * IoState) :=
  if negb (1 <=? stream_id) || negb (1 <=? component_id) then Ok (-1, None, st)
  else if cancelled then Ok (-1, Some SendCancelled, st)
  else nice_agent_send_messages_nonblocking_internal st stream_id component_id messages false.

(** [None] for a NULL [buf]. *)
Definition nice_agent_send (st : IoState) (stream_id component_id len : Z) (buf : option (list Z)) : res (Z * IoState) :=
  if negb (1 <=? stream_id) || negb (1 <=? component_id) then Ok (-1, st)
  else
    match buf with
    | None => Ok (-1, st)
    | Some buf =>
        '(n_sent, _, st) ← nice_agent_send_messages_nonblocking_internal st stream_id component_id
           [mkOutput [mkVector (Some buf) len] 1] true;
        Ok (n_sent, st)
    end.
End send.
End io.
