(* ===== verification/AgentFrame.v ===== *)
(** * ICE-TCP framing (agent/agent.c)

    The frames of RFC 4571 on both sides of a connection: the receive buffer
    represents the bytes that were read and not yet delivered, a read returns
    the frame at their front, and the packets of a message are the frames of
    its chunks. *)
From stdpp Require Import gmap.
From S2P Require Import Prelude CMem StunTypes StunMessage StunAgent StunTimer Address Candidate IceTypes IceEnv CheckList CheckDriver Discovery CheckTick CheckInbound IoMessage AgentIo.
Local Open Scope Z_scope.

(** The frame of a message. *)
Definition rfc4571_frame (m : list Z) : list Z := be_bytes 2 (zlen m) ++ m.

(** The frame at the front of a stream. *)
Definition first_frame (p : list Z) : option (list Z) :=
  match p with
  | a :: b :: rest => if be_value [a; b] <=? zlen rest then Some (take (Z.to_nat (be_value [a; b])) rest) else None
  | _ => None
  end.

(** The stream behind its first frame. *)
Definition after_frame (f p : list Z) : list Z := drop (2 + length f) p.

Lemma be_value_2 a b : is_byte a -> is_byte b -> 0 <= be_value [a; b] < 65536.
Proof. unfold is_byte, be_value. simpl. lia. Qed.

Lemma frame_header a b : is_byte a -> is_byte b -> be_bytes 2 (be_value [a; b]) = [a; b].
Proof. intros Ha Hb. apply (be_bytes_value [a; b]). by repeat apply Forall_cons_2. Qed.

(** A first frame is the frame of a message, and of no other. *)
Lemma first_frame_Some p f : bytes p -> first_frame p = Some f -> p = rfc4571_frame f ++ after_frame f p.
Proof.
  intros Hb. destruct p as [|a [|b rest]]; [done..|]. unfold first_frame. apply bytes_cons in Hb as [Ha Hb]. apply bytes_cons in Hb as [Hb Hr].
  pose proof (be_value_2 a b Ha Hb). case_match eqn:Hle; [|done]. bool_prop. intros [= <-].
  unfold rfc4571_frame. rewrite zlen_take by lia. rewrite frame_header by done. unfold after_frame. cbn [app drop Nat.add].
  do 2 f_equal. rewrite length_take, Nat.min_l by (unfold zlen in *; lia). by rewrite take_drop.
Qed.

Lemma first_frame_app m p : zlen m < 65536 -> first_frame (rfc4571_frame m ++ p) = Some m.
Proof.
  intros Hm. unfold rfc4571_frame. zlen_pos.
  assert (Hv : be_value (be_bytes 2 (zlen m)) = zlen m) by (rewrite be_value_bytes; apply Z.mod_small; simpl; lia).
  pose proof (zlen_be_bytes 2 (zlen m)) as Hl. destruct (be_bytes 2 (zlen m)) as [|a [|b [|]]]; try (exfalso; zlia).
  cbn [app first_frame]. rewrite Hv. rewrite (proj2 (Z.leb_le _ _)) by zlia.
  by rewrite to_nat_zlen, take_app_length.
Qed.

Lemma after_frame_app m p : after_frame m (rfc4571_frame m ++ p) = p.
Proof.
  unfold after_frame, rfc4571_frame. rewrite <- app_assoc, drop_app_ge; rewrite ?length_app; pose proof (zlen_be_bytes 2 (zlen m)); unfold zlen in *; [|lia].
  rewrite drop_app_ge by lia. replace (_ - _ - _)%nat with 0%nat by lia. done.
Qed.

(** More bytes do not change the first frame. *)
Lemma first_frame_mono p q f : bytes p -> bytes q -> first_frame p = Some f ->
  first_frame (p ++ q) = Some f /\ after_frame f (p ++ q) = after_frame f p ++ q.
Proof.
  intros Hb Hq Hf. pose proof (first_frame_Some _ _ Hb Hf) as E1. assert (zlen f < 65536).
  { destruct p as [|a [|b rest]]; [done..|]. apply bytes_cons in Hb as [Ha Hb]. apply bytes_cons in Hb as [Hb _]. pose proof (be_value_2 a b Ha Hb).
    unfold first_frame in Hf. destruct (Z.leb_spec (be_value [a; b]) (zlen rest)); [|done]. injection Hf as <-. rewrite zlen_take by lia. lia. }
  rewrite E1 at 1 2. rewrite <- app_assoc. by rewrite first_frame_app, after_frame_app.
Qed.

(** ** The receive buffer *)

(** [rfc_buf peer r p]: the buffer holds the undelivered bytes [p]. *)
Record rfc_buf (peer : NiceAddress) (r : Rfc4571) (p : list Z) : Prop := {
  rfc_size : zlen (rfc4571_buffer r) = RFC4571_BUFFER_SIZE /\ rfc4571_buffer_size r = RFC4571_BUFFER_SIZE;
  rfc_bytes : bytes (rfc4571_buffer r);
  rfc_window : exists pre post, rfc4571_buffer r = pre ++ p ++ post /\ zlen pre = rfc4571_frame_offset r;
  rfc_end : rfc4571_buffer_offset r = rfc4571_frame_offset r + zlen p;
  rfc_consumed : rfc4571_consumed_size r = 0;
  rfc_peer : p = [] \/ rfc4571_remote_addr r = peer
}.

(** It knows the size of the first frame exactly when it has its header. *)
Definition rfc_ok (peer : NiceAddress) (r : Rfc4571) (p : list Z) : Prop :=
  rfc_buf peer r p /\
  (rfc4571_frame_size r = 0 /\ zlen p < 2 \/
   exists a b rest, p = a :: b :: rest /\ rfc4571_frame_size r = 2 + be_value [a; b]).

Lemma rfc_buf_bytes peer r p : rfc_buf peer r p -> bytes p.
Proof. intros [_ Hb (pre & post & E & _) _ _ _]. rewrite E in Hb. apply bytes_app in Hb as [_ Hb]. by apply bytes_app in Hb as [Hb _]. Qed.

Lemma rfc_buf_room peer r p : rfc_buf peer r p -> 0 <= rfc4571_frame_offset r /\ rfc4571_frame_offset r + zlen p <= 65537.
Proof.
  intros [[Hl _] _ (pre & post & E & <-) _ _ _]. rewrite E in Hl. unfold RFC4571_BUFFER_SIZE in Hl. zlia.
Qed.

Lemma rfc_buf_headroom peer r p : rfc_buf peer r p -> nice_component_compute_rfc4571_headroom r = zlen p.
Proof.
  intros H. pose proof (rfc_buf_room _ _ _ H). unfold nice_component_compute_rfc4571_headroom. rewrite (rfc_end _ _ _ H).
  zlen_pos. rewrite u32_small by lia. lia.
Qed.

Lemma frame_size_at_ok peer r a b rest : rfc_buf peer r (a :: b :: rest) -> frame_size_at r = Ok (2 + be_value [a; b]).
Proof.
  intros H. pose proof (rfc_buf_bytes _ _ _ H) as Hb. apply bytes_cons in Hb as [Ha Hb]. apply bytes_cons in Hb as [Hb _].
  destruct H as [_ _ (pre & post & E & Hp) _ _ _]. unfold frame_size_at.
  rewrite (rd_bytes_eq _ pre [a; b] (rest ++ post)) by (simpl; auto). cbn [mbind res_bind].
  by rewrite ntohs_le_value.
Qed.

(** With the size of the frame known, it is whole exactly when [first_frame]
    finds it. *)
Lemma first_frame_whole a b rest : is_byte a -> is_byte b ->
  first_frame (a :: b :: rest) =
    (if 2 + be_value [a; b] <=? zlen (a :: b :: rest) then Some (take (Z.to_nat (be_value [a; b])) rest) else None).
Proof.
  intros. cbn [first_frame]. rewrite !zlen_cons. destruct (Z.leb_spec (be_value [a; b]) (zlen rest)), (Z.leb_spec (2 + be_value [a; b]) (1 + (1 + zlen rest))); try lia; done.
Qed.

(** What the code does when the size is not known: it looks at the header. *)
Definition with_frame_size (r : Rfc4571) (size : Z) : Rfc4571 :=
  mkRfc4571 (rfc4571_buffer r) (rfc4571_buffer_offset r) (rfc4571_buffer_size r) (rfc4571_frame_offset r) size
    (rfc4571_consumed_size r) (rfc4571_remote_addr r) (rfc4571_wakeup_needed r).

Lemma known_size peer r p : rfc_buf peer r p ->
  exists size, (if 2 <=? zlen p then frame_size_at r else Ok 0) = Ok size /\ rfc_ok peer (with_frame_size r size) p.
Proof.
  intros H. assert (Hw : forall size, rfc_buf peer (with_frame_size r size) p) by (intros size; destruct H; by split).
  destruct p as [|a [|b rest]].
  - exists 0. split; [done|]. split; [done|]. left. done.
  - exists 0. split; [done|]. split; [done|]. left. done.
  - exists (2 + be_value [a; b]). rewrite (proj2 (Z.leb_le _ _)) by zlia. rewrite (frame_size_at_ok _ _ _ _ _ H).
    split; [done|]. split; [done|]. right. eauto 10.
Qed.

(** A whole frame is one of the known size. *)
Lemma rfc_ok_whole peer r p : rfc_ok peer r p ->
  match first_frame p with
  | Some f => rfc4571_frame_size r = 2 + zlen f /\ zlen f < 65536 /\ 2 + zlen f <= zlen p
  | None => rfc4571_frame_size r = 0 /\ zlen p < 2 \/ zlen p < rfc4571_frame_size r <= 65537
  end.
Proof.
  intros [H Hs]. pose proof (rfc_buf_bytes _ _ _ H) as Hb.
  destruct Hs as [[Hs Hl]|(a & b & rest & -> & ->)].
  - destruct p as [|? [|]]; [by left..|exfalso; zlia].
  - apply bytes_cons in Hb as [Ha Hb]. apply bytes_cons in Hb as [Hb _]. pose proof (be_value_2 a b Ha Hb).
    rewrite first_frame_whole by done. destruct (Z.leb_spec (2 + be_value [a; b]) (zlen (a :: b :: rest))); zlen_norm; [|lia].
    rewrite zlen_take by lia. lia.
Qed.

(** The frame is where the message of the buffer points to. *)
Lemma rd_frame peer r p f : rfc_buf peer r p -> first_frame p = Some f ->
  rd_bytes (rfc4571_buffer r) (rfc4571_frame_offset r + 2) (zlen f) = Ok f.
Proof.
  intros H Hf. pose proof (rfc_buf_bytes _ _ _ H) as Hb. apply first_frame_Some in Hf; [|done].
  destruct (rfc_window _ _ _ H) as (pre & post & E & Hp). unfold rfc4571_frame in Hf.
  apply (rd_bytes_eq _ (pre ++ be_bytes 2 (zlen f)) f (after_frame f p ++ post)); [|rewrite zlen_app, zlen_be_bytes; lia|done].
  rewrite E, Hf at 1. by rewrite <- !app_assoc.
Qed.

Lemma next_frame_ok peer r p f : rfc_ok peer r p -> first_frame p = Some f ->
  exists r', next_frame r = Ok r' /\ rfc_ok peer r' (after_frame f p) /\
    rfc4571_wakeup_needed r' = bool_decide (is_Some (first_frame (after_frame f p))).
Proof.
  intros H Hf. pose proof (rfc_ok_whole _ _ _ H) as Hs. rewrite Hf in Hs. destruct Hs as (Hs & Hf16 & Hfl).
  destruct H as [H _]. pose proof (rfc_buf_bytes _ _ _ H) as Hb. pose proof (rfc_buf_room _ _ _ H) as Hroom.
  pose proof (first_frame_Some _ _ Hb Hf) as Ep. set (q := after_frame f p) in *. unfold next_frame.
  set (r0 := mkRfc4571 _ _ _ _ _ _ _ _).
  assert (Hq : rfc_buf peer r0 q).
  { destruct H as [Hl Hby (pre & post & E & Hp) He Hc Hpe]. unfold r0. rewrite u32_small by (zlen_pos; lia).
    assert (Hpl : zlen p = 2 + zlen f + zlen q) by (rewrite Ep; unfold rfc4571_frame; rewrite !zlen_app, zlen_be_bytes; lia).
    split; simpl; auto; [|lia|].
    - exists (pre ++ rfc4571_frame f), post. rewrite zlen_app. unfold rfc4571_frame at 2. rewrite zlen_app, zlen_be_bytes.
      split; [|lia]. rewrite E, Ep at 1. by rewrite <- !app_assoc.
    - destruct Hpe as [->|]; [done|by right]. }
  rewrite (rfc_buf_headroom _ _ _ Hq). destruct (known_size _ _ _ Hq) as (size & Hsz & Hok).
  pose proof (rfc_ok_whole _ _ _ Hok) as Hw. simpl in Hw.
  destruct (Z.leb_spec 2 (zlen q)).
  - rewrite Hsz. cbn [mbind res_bind]. eexists. split; [done|]. split; [by destruct Hok as [[] ?]; split|].
    simpl. destruct (first_frame q); symmetry; [rewrite bool_decide_true by eauto|rewrite bool_decide_false by (intros [? ?]; done)].
    + symmetry. apply Z.leb_le. lia.
    + symmetry. apply Z.leb_gt. lia.
  - injection Hsz as <-. cbn [mbind res_bind]. eexists. split; [done|]. split; [by destruct Hok as [[] ?]; split|].
    simpl. destruct (first_frame q); [zlen_pos; lia|]. by rewrite bool_decide_false by (intros [? ?]; done).
Qed.

(** ** Reading from a connection *)

(** What a connected stream socket promises: a read takes bytes from the front
    of what the peer sends, at most as many as there is room for. *)
Class StreamSource (W : Type) {IO : IoWorld W} (incoming : W -> list Z) (sock : option Z) (peer : NiceAddress) : Prop :=
  stream_recv : forall w room n from, 0 < n -> zlen room = n -> bytes room ->
    exists ret data rest from' len w',
      io_recv w sock (mkInput [mkVector (Some room) n] 1 (Some from) 0) =
        Ok (ret, mkInput [mkVector (Some (data ++ rest)) n] 1 (Some from') len, w') /\
      ret <= 1 /\ zlen (data ++ rest) = n /\ bytes (data ++ rest) /\ incoming w = data ++ incoming w' /\
      (ret = 1 -> len = zlen data /\ from' = peer) /\ (ret <> 1 -> data = [] /\ from' = from).

Section read.
Context {W : Type} {IO : IoWorld W} {incoming : W -> list Z} {sock : option Z} {peer : NiceAddress}.
Context {S : StreamSource W incoming sock peer}.

(** The socket has bytes of the peer at once. *)
Definition prompt : Prop := forall w room n from, 0 < n -> zlen room = n -> incoming w <> [] ->
  0 < io_available w sock /\
  exists m w', io_recv w sock (mkInput [mkVector (Some room) n] 1 (Some from) 0) = Ok (1, m, w') /\ 0 < im_length m.

Lemma rfc4571_fill_ok r w p : rfc_buf peer r p -> zlen p < 65537 ->
  exists ret got r' w', rfc4571_fill r w sock (zlen p) = Ok (ret, zlen (p ++ got), r', w') /\ ret <= 1 /\
    incoming w = got ++ incoming w' /\ rfc_buf peer r' (p ++ got) /\ rfc4571_frame_size r' = rfc4571_frame_size r /\
    (prompt -> incoming w <> [] -> got <> []).
Proof.
  intros H Hp. pose proof (rfc_buf_bytes _ _ _ H) as Hpb. destruct H as [[Hl Hs] Hb (pre & post & E & Hpre) He Hc Hpe].
  unfold RFC4571_BUFFER_SIZE in *. change (2 + 65535) with 65537 in *. zlen_pos.
  assert (exists room, (if 0 <? zlen p then data ← rd_bytes (rfc4571_buffer r) (rfc4571_frame_offset r) (zlen p); wr_bytes (rfc4571_buffer r) 0 data
    else Ok (rfc4571_buffer r)) = Ok (p ++ room) /\ zlen (p ++ room) = 65537 /\ bytes room) as (room & Hmove & Hroom & Hrb).
  { destruct (Z.ltb_spec 0 (zlen p)).
    - rewrite (rd_bytes_eq _ pre p post) by done. cbn [mbind res_bind].
      destruct (split_at (rfc4571_buffer r) 0 (zlen p)) as (l & m & k & E' & Hl0 & Hm); [lia..|].
      apply zlen_0_nil in Hl0 as ->. rewrite (wr_bytes_eq _ [] m p k) by done. exists k. split; [done|].
      rewrite E' in Hl, Hb. simpl in Hl, Hb. apply bytes_app in Hb as [_ Hb]. split; [zlia|done].
    - assert (p = []) as -> by (apply zlen_0_nil; lia). exists (rfc4571_buffer r). done. }
  unfold rfc4571_fill. rewrite Hmove, Hs. cbn [mbind res_bind].
  rewrite (rd_bytes_eq _ p room []) by (rewrite ?app_nil_r; zlia || done). cbn [mbind res_bind].
  destruct (stream_recv w room (65537 - zlen p) (rfc4571_remote_addr r)) as (ret & data & rest & from' & len & w' & Hrecv & Hr & Hdl & Hdb & Hin & Hone & Hnone);
    [zlia..|done|].
  rewrite Hrecv. cbn [mbind res_bind im_buffers gv_buffer default].
  rewrite (wr_bytes_eq _ p room (data ++ rest) []) by (rewrite ?app_nil_r; zlia || done). cbn [mbind res_bind im_length im_from default].
  assert (Hlen : u32 (zlen p + (if ret =? 1 then len else 0)) = zlen (p ++ data)).
  { destruct (Z.eqb_spec ret 1) as [->|n]; [destruct Hone as [-> _]; [done|]|destruct (Hnone n) as [-> _]]; rewrite u32_small; zlia. }
  rewrite Hlen. eexists ret, data, _, w'. split; [done|]. split; [done|]. split; [done|]. split; [|split; [done|]]; cycle 1.
  { intros Hpr Hne. destruct (Hpr w room (65537 - zlen p) (rfc4571_remote_addr r)) as (_ & m & w1 & E1 & Hm); [zlia..|done|].
    rewrite Hrecv in E1. injection E1 as -> <- <-. simpl in Hm. destruct Hone as [-> _]; [done|]. intros ->. done. }
  rewrite app_nil_r. split; simpl.
  - unfold RFC4571_BUFFER_SIZE. split; [zlia|done].
  - apply bytes_app. done.
  - exists [], rest. rewrite <- app_assoc. done.
  - done.
  - done.
  - destruct (Z.eq_dec ret 1) as [->|n]; [right; by apply Hone|]. destruct (Hnone n) as [-> ->]. by rewrite app_nil_r.
Qed.
(** The size of the first frame after more bytes came. *)
Lemma grown_size r r' p got : rfc_ok peer r p -> rfc_buf peer r' (p ++ got) -> rfc4571_frame_size r' = rfc4571_frame_size r ->
  exists size, (if (rfc4571_frame_size r' =? 0) && (2 <=? zlen (p ++ got)) then frame_size_at r' else Ok (rfc4571_frame_size r')) = Ok size /\
    rfc_ok peer (with_frame_size r' size) (p ++ got).
Proof.
  intros [H [[Hs Hl]|(a & b & rest & -> & Hs)]] H' E; rewrite E, Hs.
  - simpl andb. by apply known_size.
  - pose proof (rfc_buf_bytes _ _ _ H) as Hb. apply bytes_cons in Hb as [Ha Hb]. apply bytes_cons in Hb as [Hb _].
    pose proof (be_value_2 a b Ha Hb). rewrite (proj2 (Z.eqb_neq _ _)) by lia. simpl andb. eexists. split; [done|].
    split; [by destruct H'; split|]. right. exists a, b, (rest ++ got). done.
Qed.

(** The end of the read: the frame, if it is whole. *)
Lemma read_result r (w : W) p sockret : rfc_ok peer r p -> sockret <= 1 ->
  exists ret, (if negb (rfc4571_frame_size r =? 0) && (rfc4571_frame_size r <=? zlen p) then
      frame ← rd_bytes (rfc4571_buffer r) (rfc4571_frame_offset r + 2) (rfc4571_frame_size r - 2); Ok (1, Some frame, r, w)
    else Ok (if sockret =? 1 then 0 else sockret, None, r, w)) = Ok (ret, first_frame p, r, w) /\
    (if first_frame p is Some _ then ret = 1 else ret <= 0).
Proof.
  intros H Hr. pose proof (rfc_ok_whole _ _ _ H) as Hs. destruct (first_frame p) as [f|] eqn:Hf.
  - destruct Hs as (Hs & Hf16 & Hfl). zlen_pos. rewrite (proj2 (Z.eqb_neq _ _)), (proj2 (Z.leb_le _ _)) by lia. simpl andb. cbn [mbind res_bind].
    rewrite Hs. replace (2 + zlen f - 2) with (zlen f) by lia. rewrite (rd_frame peer r p f) by (done || apply H). cbn [mbind res_bind]. eauto.
  - replace (negb _ && _) with false by (destruct Hs; symmetry; apply andb_false_iff; [left; apply negb_false_iff, Z.eqb_eq|right; apply Z.leb_gt]; lia).
    eexists. split; [done|]. destruct (Z.eqb_spec sockret 1); lia.
Qed.

(** A read returns the first frame of what is there after it. *)
Lemma rfc4571_read_ok r w p : rfc_ok peer r p ->
  exists sockret got r' w', rfc4571_read r w sock = Ok (sockret, first_frame (p ++ got), r', w') /\
    incoming w = got ++ incoming w' /\ rfc_ok peer r' (p ++ got) /\
    (if first_frame (p ++ got) is Some _ then sockret = 1 else sockret <= 0) /\
    (prompt -> first_frame p = None -> incoming w <> [] -> got <> []).
Proof.
  intros H. pose proof (rfc_ok_whole _ _ _ H) as Hs. unfold rfc4571_read. rewrite (rfc_buf_headroom peer r p) by apply H. zlen_pos.
  destruct (first_frame p) as [f|] eqn:Hf.
  - zlen_pos. rewrite (proj2 (Z.eqb_neq _ _)), (proj2 (Z.ltb_ge _ _)) by lia. simpl orb. cbn [mbind res_bind].
    destruct (read_result r w p 0 H) as (ret & -> & Hret); [lia|]. exists ret, [], r, w. rewrite app_nil_r, Hf in *. done.
  - replace (_ || _) with true by (destruct Hs; symmetry; apply orb_true_iff; [left; apply Z.eqb_eq|right; apply Z.ltb_lt]; lia).
    match goal with |- context [ (if io_available w sock <=? 0 then ?x else ?y) ] => set (inner := if io_available w sock <=? 0 then x else y) end.
    assert (exists ret got r1 w1, inner = Ok (ret, zlen (p ++ got), r1, w1) /\ ret <= 1 /\ incoming w = got ++ incoming w1 /\
      rfc_buf peer r1 (p ++ got) /\ rfc4571_frame_size r1 = rfc4571_frame_size r /\ (prompt -> incoming w <> [] -> got <> []))
      as (ret & got & r1 & w1 & -> & Hret & Hin & H1 & E1 & Hpr).
    { unfold inner. destruct (Z.leb_spec (io_available w sock) 0).
      - eexists _, [], r, w. rewrite app_nil_r. split; [done|]. split; [repeat case_match; lia|]. split_and!; try done; [apply H|].
        intros Hpr Hne. destruct (Hpr w [0] 1 peer) as [Ha _]; [done..|lia].
      - apply rfc4571_fill_ok; [apply H|lia]. }
    cbn [mbind res_bind]. destruct (grown_size r r1 p got H H1 E1) as (size & -> & Hok). cbn [mbind res_bind].
    destruct (read_result _ w1 _ ret Hok Hret) as (ret' & Hr & Hret'). unfold with_frame_size in Hr. cbn [rfc4571_frame_size rfc4571_buffer rfc4571_frame_offset] in Hr |- *.
    rewrite Hr. eauto 10.
Qed.
End read.

(** ** The packets of a message *)

(** The chunks of at most 62 KB a message is split into. *)
Fixpoint chunks (fuel : nat) (data : list Z) : list (list Z) :=
  match fuel, data with
  | S fuel, _ :: _ => take (Z.to_nat FRAME_MAX) data :: chunks fuel (drop (Z.to_nat FRAME_MAX) data)
  | _, _ => []
  end.

Definition packets (data : list Z) : list (list Z) := chunks (Z.to_nat (zlen data / FRAME_MAX) + 1) data.

Lemma chunks_concat fuel data : zlen data < Z.of_nat fuel * FRAME_MAX \/ data = [] -> concat (chunks fuel data) = data.
Proof.
  revert data. induction fuel as [|fuel IH]; intros data Hf.
  - destruct Hf as [Hf| ->]; [exfalso; zlia|done].
  - destruct data as [|x data]; [done|]. cbn [chunks concat]. rewrite IH, take_drop; [done|].
    destruct Hf as [Hf|]; [|done]. unfold FRAME_MAX in *. destruct (Z.le_gt_cases (zlen (x :: data)) 0xF800).
    + right. apply nil_length_inv. rewrite length_drop. unfold zlen in *. lia.
    + left. rewrite zlen_drop by lia. lia.
Qed.

Lemma packets_fuel (data : list Z) : zlen data < Z.of_nat (Z.to_nat (zlen data / FRAME_MAX) + 1) * FRAME_MAX.
Proof.
  zlen_pos. unfold FRAME_MAX. pose proof (Z.div_mod (zlen data) 0xF800 ltac:(lia)).
  pose proof (Z.mod_pos_bound (zlen data) 0xF800 ltac:(lia)). pose proof (Z.div_pos (zlen data) 0xF800 ltac:(lia) ltac:(lia)). lia.
Qed.

Lemma packets_concat data : concat (packets data) = data.
Proof. apply chunks_concat. left. apply packets_fuel. Qed.

Lemma packets_small data : 0 < zlen data <= FRAME_MAX -> packets data = [data].
Proof.
  intros H. unfold packets. replace (Z.to_nat (zlen data / FRAME_MAX) + 1)%nat with (S (Z.to_nat (zlen data / FRAME_MAX))) by lia.
  destruct data as [|x data]; [zlia|]. cbn [chunks]. rewrite firstn_all2, skipn_all2 by (unfold zlen in *; lia).
  by destruct (Z.to_nat _).
Qed.

(** What a connected socket promises a sender: a message is taken whole, behind
    what it took before, or not at all. *)
Class StreamSink (W : Type) {IO : IoWorld W} (outgoing : W -> list Z) (sock : option Z) (addr : NiceAddress) : Prop := {
  sink_send w m data : gather_loop (om_n_buffers m) 0 (om_buffers m) = Ok data ->
    exists ret w', io_send w sock addr [m] = Ok (ret, w') /\ -1 <= ret <= 1 /\ outgoing w' = outgoing w ++ (if ret =? 1 then data else []);
  sink_send_reliable w m data : gather_loop (om_n_buffers m) 0 (om_buffers m) = Ok data ->
    exists ret w', io_send_reliable w sock addr [m] = Ok (ret, w') /\ -1 <= ret <= 1 /\ outgoing w' = outgoing w ++ (if ret =? 1 then data else [])
}.

(** The packet of a one-vector message at an offset is the frame of its chunk. *)
Lemma frame_packet_one buf off len : 0 <= off -> 0 < len -> off + len <= zlen buf ->
  exists m, frame_packet [mkVector (Some buf) (zlen buf)] off len = (m, off + len, off) /\
    (len < 65536 -> gather_loop (om_n_buffers m) 0 (om_buffers m) = Ok (rfc4571_frame (slice buf off len))).
Proof.
  intros Ho Hl Hz. unfold frame_packet. cbn [find_start gv_size]. rewrite (proj2 (Z.ltb_ge _ _)) by lia. rewrite Z.sub_0_r.
  cbn [packet_vectors gv_size gv_buffer]. rewrite Z.min_r by lia. eexists. split; [rewrite Z.add_0_r; reflexivity|].
  intros H16. cbn [om_n_buffers om_buffers]. change (zlen [_] + 1) with 2. cbn [gather_loop]. change (has_vector 2 0 _) with (Ok true).
  change (has_vector 2 (0 + 1) _) with (Ok true). cbn [mbind res_bind gv_size]. unfold vector_read. cbn [gv_buffer fmap option_fmap option_map].
  pose proof (zlen_le_bytes 2 (htons len)). rewrite (rd_bytes_Ok (le_bytes 2 (htons len))) by lia. cbn [mbind res_bind].
  rewrite rd_bytes_Ok by (rewrite ?zlen_drop; lia). cbn [mbind res_bind gather_loop]. change (has_vector 2 (0 + 1 + 1) _) with (Ok false).
  cbn [mbind res_bind]. rewrite app_nil_r. unfold rfc4571_frame. rewrite zlen_slice by lia.
  rewrite le_bytes_htons in *. do 2 f_equal.
Qed.

Definition tcp_wire (msgs : list (list Z)) : list Z := concat (rfc4571_frame <$> msgs).

Lemma tcp_wire_app l k : tcp_wire (l ++ k) = tcp_wire l ++ tcp_wire k.
Proof. unfold tcp_wire. by rewrite fmap_app, concat_app. Qed.

Lemma chunks_step fuel buf off len : 0 <= off < zlen buf -> len = Z.min (zlen buf - off) FRAME_MAX ->
  chunks (S fuel) (drop (Z.to_nat off) buf) = slice buf off len :: chunks fuel (drop (Z.to_nat (off + len)) buf).
Proof.
  intros Ho ->. pose proof (zlen_drop off buf ltac:(lia)) as Hd. set (d := drop (Z.to_nat off) buf) in *. unfold slice. fold d.
  assert (Hs : chunks (S fuel) d = take (Z.to_nat FRAME_MAX) d :: chunks fuel (drop (Z.to_nat FRAME_MAX) d)) by (destruct d; [zlia|done]).
  rewrite Hs. unfold FRAME_MAX in *. destruct (Z.min_spec (zlen buf - off) 0xF800) as [[H ->]|[H ->]].
  - f_equal; [rewrite !firstn_all2 by (unfold zlen in *; lia); done|]. f_equal. rewrite !skipn_all2 by (unfold zlen in *; lia). done.
  - f_equal. f_equal. unfold d. rewrite drop_drop. f_equal. lia.
Qed.

Section sink.
Context {W : Type} {IO : IoWorld W} {outgoing : W -> list Z} {sock : option Z} {addr : NiceAddress} {S : StreamSink W outgoing sock addr}.
Context {E : CheckEnv} (buf : list Z).

(** The packets of the rest of a message: the socket takes the frames of a
    first part of them, and of all exactly when the message counts as sent. *)
Lemma packets_loop_ok fuel (st : IoState (W := W)) off : 0 <= off <= zlen buf ->
  zlen (drop (Z.to_nat off) buf) < Z.of_nat fuel * FRAME_MAX \/ off = zlen buf ->
  exists ret st' l l', packets_loop fuel st sock addr [mkVector (Some buf) (zlen buf)] (zlen buf - off) off 0 = Ok (ret, st') /\
    chunks fuel (drop (Z.to_nat off) buf) = l ++ l' /\ outgoing (rs_world st') = outgoing (rs_world st) ++ tcp_wire l /\
    rs_agent st' = rs_agent st /\ (l' = [] /\ ret = (if off =? zlen buf then 0 else 1) \/ l' <> [] /\ -1 <= ret <= 0).
Proof.
  revert st off. induction fuel as [|fuel IH]; intros st off Ho Hf.
  { destruct Hf as [Hf| ->]; [exfalso; zlia|]. exists 0, st, [], []. rewrite Z.sub_diag, Z.eqb_refl. split_and!; auto. symmetry. apply app_nil_r. }
  cbn [packets_loop]. destruct (Z.eqb_spec off (zlen buf)) as [->|Hne].
  { rewrite Z.sub_diag, to_nat_zlen, drop_all. exists 0, st, [], []. split_and!; auto. symmetry. apply app_nil_r. }
  rewrite (proj2 (Z.ltb_lt _ _)) by lia. set (len := Z.min (zlen buf - off) FRAME_MAX).
  assert (Hlen : 0 < len <= FRAME_MAX /\ off + len <= zlen buf) by (unfold len, FRAME_MAX; lia).
  destruct (frame_packet_one buf off len) as (m & Hm & Hg); [lia..|]. rewrite Hm. specialize (Hg ltac:(unfold FRAME_MAX in *; lia)).
  assert (exists ret w', (if (off =? 0) && negb (a_reliable (rs_agent st)) then io_send (rs_world st) sock addr [m]
      else io_send_reliable (rs_world st) sock addr [m]) = Ok (ret, w') /\ -1 <= ret <= 1 /\
      outgoing w' = outgoing (rs_world st) ++ (if ret =? 1 then rfc4571_frame (slice buf off len) else [])) as (ret & w' & -> & Hr & Hout).
  { destruct (_ && _); [by apply sink_send|by apply sink_send_reliable]. }
  cbn [mbind res_bind]. set (st1 := mkIo _ _ _ _ _ w').
  assert (Hch : chunks (Datatypes.S fuel) (drop (Z.to_nat off) buf) = slice buf off len :: chunks fuel (drop (Z.to_nat (off + len)) buf)).
  { apply chunks_step; [lia|done]. }
  rewrite Hch. destruct (Z.eqb_spec ret 1) as [->|Hn1].
  - cbn [Z.ltb Z.compare andb negb]. replace (zlen buf - off - len) with (zlen buf - (off + len)) by lia.
    destruct (Z.eqb_spec (zlen buf - (off + len)) 0) as [Hend|Hmore].
    + exists 1, st1, [slice buf off len], []. rewrite Hend. split; [by destruct fuel|]. split; [|split; [|by auto]].
      * replace (off + len) with (zlen buf) by lia. rewrite to_nat_zlen, drop_all. by destruct fuel.
      * unfold st1. cbn [rs_world]. rewrite Hout. unfold tcp_wire. cbn. by rewrite app_nil_r.
    + destruct (IH st1 (off + len)) as (ret & st' & l & l' & Hrun & Hl & Hw & Ha & Hcase); [lia| |].
      { left. rewrite zlen_drop in * by lia. destruct Hf as [Hf|]; [|lia]. unfold len, FRAME_MAX in *. lia. }
      exists ret, st', (slice buf off len :: l), l'. rewrite Hrun, Hl, Hw, Ha. split_and!; try done.
      * unfold st1. cbn [rs_world]. rewrite Hout. unfold tcp_wire. cbn. by rewrite <- app_assoc.
      * by rewrite (proj2 (Z.eqb_neq _ _)) in Hcase by lia.
  - cbn [negb]. eexists _, st1, [], _. split; [done|]. split; [done|]. split; [|split; [done|]].
    + unfold st1. cbn [rs_world]. by rewrite Hout.
    + right. split; [by rewrite Hch|]. destruct ((ret <? 0) && (0 =? 0)); lia.
Qed.
End sink.
