(* ===== verification/AgentIoProps.v ===== *)
(** * Correctness of the application data path (agent/agent.c)

    The data of a connection reaches the application in order and whole, only
    from verified sources; what is sent is framed, and only under consent. *)
From stdpp Require Import gmap.
From S2P Require Import Prelude CMem StunTypes StunMessage StunCrc32 StunAgent StunTimer StunIce StunTurn Address Candidate IceTypes IceEnv CheckList CheckDriver Discovery CheckTick CheckInbound IoMessage TcpSocketProps StunAgentProps CheckMain AgentIo AgentFrame.
Local Open Scope Z_scope.

Section recv.
Context {W : Type} {IO : IoWorld W} {PT : PseudoTcpPort W} {M : GMalloc}.
Context {E : CheckEnv} {CL : CryptoLib} {B : Base64} {N : NetEnv} {K : Keepalive} (package_string : list Z).

(** ** Delivering a frame *)

(** Application data: the first byte is outside the range of STUN. *)
Definition app_data (m : list Z) : Prop := exists x m', m = x :: m' /\ 64 <= x < 256 /\ bytes m /\ zlen m < 65536.

Implicit Type st : IoState (W := W).

Lemma app_data_not_stun st sid cid sock m from addr : app_data m ->
  recv_stun package_string st sid cid sock (mkInput [mkVector (Some m) (zlen m)] 1 from (zlen m)) addr = Ok (false, st).
Proof.
  intros (x & m' & -> & Hx & _ & _). unfold recv_stun. unfold stun_message_validate_buffer_length_fast. cbn [im_length im_n_buffers].
  rewrite (proj2 (Z.ltb_ge _ 1)) by zlia. cbn [orb Z.eqb stun_vectors im_buffers fmap list_fmap vec_at lookup list_lookup]. cbn.
  rewrite rd_hd. cbn [mbind res_bind].
  assert (1 <= Z.shiftr x 6) by (rewrite Z.shiftr_div_pow2 by lia; apply Z.div_le_lower_bound; lia).
  rewrite (proj2 (Z.eqb_neq _ _)) by lia. cbn [negb mbind res_bind]. unfold STUN_MESSAGE_BUFFER_INVALID.
  by rewrite (proj2 (Z.eqb_neq _ _)) by zlia.
Qed.

(** The message of the application: one buffer, large enough for every frame. *)
Definition large_message (provided : NiceInputMessage) (b : list Z) (n : Z) : Prop :=
  im_buffers provided = [mkVector (Some b) n] /\ im_n_buffers provided = 1 /\ 65535 <= n <= zlen b /\ n < 2 ^ 64.

Lemma append_frame bytestream_tcp b n from f : 0 < zlen f <= n -> n <= zlen b -> n < 2 ^ 64 ->
  exists iter, append_buffer_to_input_messages bytestream_tcp [mkInput [mkVector (Some b) n] 1 from 0] 1 nice_input_message_iter_reset f (zlen f) =
    Ok (zlen f, [mkInput [mkVector (Some (splice b 0 f)) n] 1 from (zlen f)], iter).
Proof.
  intros Hf Hn H64. unfold append_buffer_to_input_messages. cbn [nice_input_message_iter_reset it_message it_buffer it_offset]. change (message_at [?m] 0) with (Ok m).
  cbn [mbind res_bind im_n_buffers im_buffers]. change (Z.to_nat 0) with 0%nat. cbn [drop append_loop].
  change (has_vector 1 0 _) with (Ok true). cbn [mbind res_bind it_buffer it_offset nice_input_message_iter_reset gv_size].
  rewrite (u64_small (n - 0)) by lia. rewrite Z.min_l by lia. rewrite rd_bytes_Ok by lia. cbn [mbind res_bind].
  replace (zlen f - 0) with (zlen f) by lia. rewrite slice_all. unfold vector_write. cbn [gv_buffer]. rewrite wr_bytes_Ok by lia.
  cbn [mbind res_bind gv_size]. rewrite !Z.add_0_l, Z.eqb_refl. cbn [mbind res_bind].
  destruct bytestream_tcp; eexists; reflexivity.
Qed.

(** The frame is consumed: it is copied to the message of the application. *)
Lemma chunk_consumed bytestream_tcp peer r p f b n from : rfc_ok peer r p -> first_frame p = Some f -> 0 < zlen f ->
  65535 <= n <= zlen b -> n < 2 ^ 64 ->
  exists iter r', agent_consume_next_rfc4571_chunk bytestream_tcp r (Some ([mkInput [mkVector (Some b) n] 1 from 0], nice_input_message_iter_reset)) =
    Ok (Some ([mkInput [mkVector (Some (splice b 0 f)) n] 1 from (zlen f)], iter), r') /\ rfc_ok peer r' (after_frame f p).
Proof.
  intros H Hf Hpos Hn H64. pose proof (rfc_ok_whole _ _ _ H) as Hs. rewrite Hf in Hs. destruct Hs as (Hs & Hf16 & Hfl).
  unfold agent_consume_next_rfc4571_chunk. rewrite Hs, (rfc_consumed _ _ _ (proj1 H)).
  replace (2 + zlen f - 2 - 0) with (zlen f) by lia. rewrite u32_small by lia.
  replace (rfc4571_frame_offset r + (2 + zlen f) - zlen f) with (rfc4571_frame_offset r + 2) by lia.
  rewrite (rd_frame peer r p f) by (done || apply H). cbn [mbind res_bind].
  destruct (append_frame bytestream_tcp b n from f) as [iter Hi]; [lia..|]. change (zlen [mkInput _ _ _ _]) with 1. rewrite Hi. cbn [mbind res_bind].
  rewrite Z.eqb_refl. cbn [orb]. destruct (next_frame_ok peer r p f H Hf) as (r' & Hn' & Hr' & _).
  unfold next_frame in Hn' |- *. cbn [rfc4571_buffer rfc4571_buffer_offset rfc4571_buffer_size rfc4571_frame_offset rfc4571_frame_size
    rfc4571_consumed_size rfc4571_remote_addr rfc4571_wakeup_needed] in Hn' |- *. rewrite Hs in Hn'. rewrite Hn'. cbn [mbind res_bind]. eauto.
Qed.

(** What the data path stores into the frame, it took from there. *)
Lemma frame_written_same peer r p f from len : rfc_buf peer r p -> first_frame p = Some f ->
  frame_written r (mkInput [mkVector (Some f) (zlen f)] 1 from len) = Ok r.
Proof.
  intros H Hf. pose proof (rd_frame peer r p f H Hf) as Hr. apply rd_bytes_inv in Hr as (H0 & _ & Hl & Hs).
  destruct (split_at (rfc4571_buffer r) (rfc4571_frame_offset r + 2) (zlen f)) as (l & m & k & E1 & Hl1 & Hm); [zlen_pos; lia..|].
  unfold frame_written. cbn [im_buffers gv_buffer default]. rewrite E1, <- Hl1, <- Hm, slice_app in Hs. subst m.
  rewrite (wr_bytes_eq _ l f f k) by done. cbn [mbind res_bind]. rewrite <- E1. by destruct r.
Qed.

(** A verified source stays one, and the component changes nothing else. *)
Lemma verify_ok c peer sock : co_fallback_mode c = true \/ (exists cand, cand ∈ co_valid_candidates c /\ confirms sock peer cand = true) ->
  exists l, nice_component_verify_remote_candidate c peer sock = (true, c <| co_valid_candidates := l |>) /\
    (co_fallback_mode c = true \/ exists cand, cand ∈ l /\ confirms sock peer cand = true).
Proof.
  unfold nice_component_verify_remote_candidate. intros H. destruct (co_fallback_mode c) eqn:Hf.
  - exists (co_valid_candidates c). split; [by destruct c|by left].
  - destruct H as [|(cand & Hin & Hc)]; [done|].
    destruct (list_find _ _) as [[k x]|] eqn:Hl.
    + apply list_find_Some in Hl as (Hk & Hx & _). eexists. split; [done|]. right. exists x. split; [by left|done].
    + apply list_find_None in Hl. rewrite Forall_forall in Hl. by destruct (Hl cand).
Qed.

Section connection.
Context {incoming : W -> list Z} {sock : option Z} {peer : NiceAddress} {SS : StreamSource W incoming sock peer}.
Context (sid cid : Z) (Hreliable : nice_socket_is_reliable sock = true) (Htype : socket_type sock = NICE_SOCKET_TYPE_TCP_BSD).
Context (provided : NiceInputMessage) (b : list Z) (n : Z) (Hprovided : large_message provided b n).

(** A component that takes data from the peer of the connection: an agent that
    is not reliable and does not insist on relays, no TURN server, and the
    peer is verified. *)
Definition connected (st : IoState (W := W)) : Prop :=
  a_force_relay (rs_agent st) = false /\ a_reliable (rs_agent st) = false /\
  exists c, the_component (rs_agent st) sid cid = Ok c /\ co_turn_candidate c = None /\ co_turn_servers c = [] /\
    (co_fallback_mode c = true \/ exists cand, cand ∈ co_valid_candidates c /\ confirms sock peer cand = true).

Lemma classify_ok st f : connected st -> app_data f ->
  exists st', recv_classify package_string st sid cid sock (mkInput [mkVector (Some f) (zlen f)] 1 (Some peer) (zlen f)) RECV_SUCCESS =
    Ok (RECV_SUCCESS, mkInput [mkVector (Some f) (zlen f)] 1 (Some peer) (zlen f), false, st') /\ connected st' /\
    rs_rfc4571 st' = rs_rfc4571 st /\ rs_world st' = rs_world st /\ rs_bytestream_tcp st' = rs_bytestream_tcp st.
Proof.
  intros (Hforce & Hrel & c & Hc & Htc & Hts & Hv) Hf. unfold recv_classify. cbn [im_length im_from].
  assert (0 < zlen f) by (destruct Hf as (? & ? & -> & _); zlia). rewrite (proj2 (Z.eqb_neq _ _)) by lia.
  cbn [mbind res_bind]. rewrite Hc. cbn [mbind res_bind]. unfold _agent_recv_turn_message_unlocked.
  rewrite Htype, Htc, Hts, bool_decide_false by done. cbn [turn_servers_loop mbind res_bind with_world rs_agent rs_world].
  rewrite Hforce. cbn [andb]. destruct (decide _) as [|_]; [done|]. cbn [im_from mbind res_bind].
  rewrite app_data_not_stun by done. cbn [mbind res_bind with_world rs_agent rs_world]. rewrite Hc. cbn [mbind res_bind].
  destruct (verify_ok c peer sock Hv) as (l & -> & Hl). cbn [negb]. unfold recv_data. cbn [rs_agent with_agent im_length].
  change (a_reliable _) with (a_reliable (rs_agent st)). rewrite Hrel, andb_false_r. cbn [mbind res_bind]. eexists. split; [done|]. split; [|done].
  split; [done|]. split; [done|]. exists (c <| co_valid_candidates := l |>).
  split; [by apply (the_component_upd _ sid cid (fun c => c <| co_valid_candidates := l |>))|done].
Qed.

(** One call: it delivers the frame that is there after it, or nothing. *)
Lemma recv_once st p : connected st -> rfc_ok peer (rs_rfc4571 st) p ->
  (forall got more f, incoming (rs_world st) = got ++ more -> first_frame (p ++ got) = Some f -> app_data f) ->
  exists got status m st', agent_recv_message_unlocked package_string st sid cid sock provided = Ok (status, m, st') /\
    incoming (rs_world st) = got ++ incoming (rs_world st') /\ connected st' /\
    match first_frame (p ++ got) with
    | Some f => status = RECV_SUCCESS /\ im_buffers m = [mkVector (Some (splice b 0 f)) n] /\ im_length m = zlen f /\
                rfc_ok peer (rs_rfc4571 st') (after_frame f (p ++ got))
    | None => status <> RECV_SUCCESS /\ rfc_ok peer (rs_rfc4571 st') (p ++ got)
    end /\
    (prompt (incoming := incoming) (sock := sock) -> first_frame p = None -> incoming (rs_world st) <> [] -> got <> []).
Proof.
  intros Hst Hr Hdata. destruct Hprovided as (Hb & Hnb & Hn & H64). unfold agent_recv_message_unlocked.
  pose proof Hst as (_ & _ & c & Hc & _). rewrite Hc. cbn [mbind res_bind]. unfold recv_first. rewrite Hreliable, Htype.
  destruct (rfc4571_read_ok (rs_rfc4571 st) (rs_world st) p Hr) as (sockret & got & r' & w' & -> & Hin & Hok & Hret & Hpr).
  cbn [mbind res_bind]. exists got. destruct (first_frame (p ++ got)) as [f|] eqn:Hf.
  - subst sockret. cbn [mbind res_bind Z.eqb Z.ltb Z.compare]. assert (Happ : app_data f) by eauto.
    assert (rfc4571_remote_addr r' = peer) as ->. { destruct (rfc_peer _ _ _ (proj1 Hok)) as [E1|]; [|done]. by rewrite E1 in Hf. }
    destruct (classify_ok (with_rfc4571 (with_world st w') r') f Hst Happ) as (st2 & -> & Hst2 & E2 & Ew & Eb).
    cbn [mbind res_bind]. rewrite E2. cbn [with_rfc4571 rs_rfc4571]. rewrite (frame_written_same peer r' (p ++ got) f) by (done || apply Hok).
    cbn [mbind res_bind im_from]. unfold recv_done. destruct (decide _) as [_|]; [|done]. rewrite Hb, Hnb.
    destruct (chunk_consumed (rs_bytestream_tcp st) peer r' (p ++ got) f b n (Some peer)) as (iter & r2 & Hcons & Hr2); [done..| |lia|done|].
    { destruct Happ as (? & ? & -> & _). zlia. }
    cbn [with_rfc4571 rs_rfc4571 rs_bytestream_tcp]. rewrite Eb. cbn [with_rfc4571 with_world rs_bytestream_tcp]. rewrite Hcons.
    cbn [mbind res_bind]. change (message_at [?m] 0) with (Ok m). cbn [mbind res_bind].
    eexists _, _, _. split; [done|]. cbn [rs_world with_rfc4571 rs_rfc4571]. rewrite Ew. split; [done|]. split; [done|].
    split; [by destruct (im_from provided)|done].
  - exists (if sockret =? 0 then RECV_WOULD_BLOCK else RECV_ERROR). cbn [mbind res_bind].
    destruct (Z.eqb_spec sockret 0); [|rewrite (proj2 (Z.ltb_lt sockret 0)) by lia]; (eexists _, _; split; [reflexivity|done]).
Qed.

(** ** Delivering a stream *)

(** The application reads [k] times: the data of the successful reads. *)
Fixpoint recv_run (k : nat) (st : IoState (W := W)) : res (list (list Z) * IoState (W := W)) :=
  match k with
  | O => Ok ([], st)
  | S k =>
      '(status, m, st) ← agent_recv_message_unlocked package_string st sid cid sock provided;
      '(l, st) ← recv_run k st;
      Ok (match status, im_buffers m with
          | RECV_SUCCESS, v :: _ => take (Z.to_nat (im_length m)) (default [] (gv_buffer v)) :: l
          | _, _ => l
          end, st)
  end.

Lemma tcp_wire_bytes msgs : Forall app_data msgs -> bytes (tcp_wire msgs).
Proof.
  induction 1 as [|m msgs (x & m' & _ & _ & Hb & _) _ IH]; [apply bytes_nil|]. unfold tcp_wire, rfc4571_frame. cbn [fmap list_fmap concat].
  apply bytes_app. split; [|done]. apply bytes_app. split; [apply bytes_be_bytes|done].
Qed.

Lemma tcp_wire_cons m msgs : app_data m -> first_frame (tcp_wire (m :: msgs)) = Some m /\ after_frame m (tcp_wire (m :: msgs)) = tcp_wire msgs.
Proof.
  intros (x & m' & _ & _ & _ & Hl). unfold tcp_wire. cbn [fmap list_fmap concat].
  by rewrite first_frame_app, after_frame_app.
Qed.

Lemma tcp_wire_first msgs p rest f : tcp_wire msgs = p ++ rest -> Forall app_data msgs -> first_frame p = Some f ->
  exists msgs', msgs = f :: msgs' /\ tcp_wire msgs' = after_frame f p ++ rest.
Proof.
  intros Hw Hm Hf. pose proof (tcp_wire_bytes _ Hm) as Hb. rewrite Hw in Hb. apply bytes_app in Hb as [Hbp Hbr].
  destruct (first_frame_mono p rest f Hbp Hbr Hf) as [Hf1 Ha]. destruct msgs as [|m msgs].
  - symmetry in Hw. apply app_eq_nil in Hw as [-> _]. done.
  - inversion Hm as [|? ? Hd Hm']; subst. destruct (tcp_wire_cons m msgs Hd) as [Hw1 Hw2]. rewrite Hw in Hw1, Hw2.
    rewrite Hf1 in Hw1. injection Hw1 as ->. exists msgs. by rewrite <- Ha.
Qed.

Lemma recv_run_ok k st p msgs : connected st -> rfc_ok peer (rs_rfc4571 st) p -> Forall app_data msgs ->
  tcp_wire msgs = p ++ incoming (rs_world st) ->
  exists l l' st', recv_run k st = Ok (l, st') /\ msgs = l ++ l' /\
    (prompt (incoming := incoming) (sock := sock) -> (length (incoming (rs_world st)) + length msgs <= k)%nat -> l' = []).
Proof.
  revert st p msgs. induction k as [|k IH]; intros st p msgs Hst Hr Hm Hw.
  { exists [], msgs, st. split; [done|]. split; [done|]. intros _ Hk. by destruct msgs; simpl in Hk; [|lia]. }
  destruct (recv_once st p Hst Hr) as (got & status & m & st1 & Hcall & Hin & Hst1 & Hcase & Hpr).
  { intros got more f Hg Hf. rewrite Hg, app_assoc in Hw. destruct (tcp_wire_first _ _ _ _ Hw Hm Hf) as (msgs' & -> & _). by inversion Hm. }
  cbn [recv_run]. rewrite Hcall. cbn [mbind res_bind]. rewrite Hin, app_assoc in Hw.
  destruct (first_frame (p ++ got)) as [f|] eqn:Hf.
  - destruct Hcase as (-> & Hbufs & Hlen & Hr1). destruct (tcp_wire_first _ _ _ _ Hw Hm Hf) as (msgs' & -> & Hw'). inversion Hm as [|? ? Hd Hm']; subst.
    destruct (IH st1 _ msgs' Hst1 Hr1 Hm' Hw') as (l & l' & st' & -> & -> & Hdone). cbn [mbind res_bind].
    rewrite Hbufs, Hlen. cbn [gv_buffer default]. exists (f :: l), l', st'. split; [|split; [done|]].
    + do 3 f_equal. unfold splice, id. change (take (Z.to_nat 0) b) with (@nil Z). cbn [app]. by rewrite to_nat_zlen, take_app_length.
    + intros Hp Hk. apply Hdone; [done|]. rewrite Hin in Hk. rewrite length_app in Hk. simpl in Hk. lia.
  - destruct Hcase as [Hns Hr1]. destruct (IH st1 _ msgs Hst1 Hr1 Hm Hw) as (l & l' & st' & -> & Hl & Hdone). cbn [mbind res_bind].
    exists l, l', st'. split; [by destruct status|]. split; [done|]. intros Hp Hk. destruct (decide (msgs = [])) as [->|Hne].
    { symmetry in Hl. by apply app_eq_nil in Hl as [_ ->]. }
    apply Hdone; [done|]. rewrite Hin, length_app in Hk. assert (got <> []); [|destruct got; [done|simpl in Hk; lia]].
    assert (Hnone : first_frame p = None).
    { destruct (first_frame p) as [g|] eqn:Hg; [|done]. pose proof (rfc_buf_bytes _ _ _ (proj1 Hr1)) as Hb. apply bytes_app in Hb as [Hb1 Hb2].
      destruct (first_frame_mono p got g Hb1 Hb2 Hg) as [E1 _]. by rewrite Hf in E1. }
    apply Hpr; [done|done|]. intros Hnil. rewrite Hnil in Hin. symmetry in Hin. apply app_eq_nil in Hin as [-> Hw1].
    rewrite Hw1, !app_nil_r in Hw. destruct msgs as [|m0 msgs]; [done|]. inversion Hm as [|? ? Hd _]; subst.
    destruct (tcp_wire_cons m0 msgs Hd) as [E1 _]. by rewrite E1 in Hnone.
Qed.
End connection.

Lemma rfc4571_init_ok {ML : GMallocLaws} peer : rfc_ok peer rfc4571_init [].
Proof.
  split; [split; cbn [rfc4571_init rfc4571_buffer rfc4571_buffer_size rfc4571_buffer_offset rfc4571_frame_offset rfc4571_consumed_size]|].
  - split; [|done]. by apply g_malloc_length.
  - apply g_malloc_bytes.
  - by exists [], (g_malloc RFC4571_BUFFER_SIZE).
  - done.
  - done.
  - by left.
  - left. done.
Qed.

(** C3: messages framed for ICE-TCP are delivered to the application in order,
    each once and whole, whatever the segmentation of the stream: [k] calls of
    [agent_recv_message_unlocked] on the connection, starting with the empty
    buffer of a new component, end without a fault and return a first part of
    the messages; and all of them when the socket hands out the bytes it has
    and there are as many calls as bytes and messages. *)
Theorem ice_tcp_delivers {ML : GMallocLaws} (incoming : W -> list Z) sock peer (SS : StreamSource W incoming sock peer)
    sid cid provided b n st k msgs :
  nice_socket_is_reliable sock = true -> socket_type sock = NICE_SOCKET_TYPE_TCP_BSD -> large_message provided b n ->
  connected (sock := sock) (peer := peer) sid cid st -> rs_rfc4571 st = rfc4571_init ->
  Forall app_data msgs -> incoming (rs_world st) = tcp_wire msgs ->
  exists delivered rest st', recv_run (sock := sock) sid cid provided k st = Ok (delivered, st') /\ msgs = delivered ++ rest /\
    (prompt (incoming := incoming) (sock := sock) -> (length (tcp_wire msgs) + length msgs <= k)%nat -> rest = []).
Proof.
  intros Hrel Htype Hlarge Hst Hinit Hm Hin. rewrite <- Hin.
  apply (recv_run_ok sid cid Hrel Htype provided b n Hlarge k st []); [done| |done|by rewrite Hin].
  rewrite Hinit. apply rfc4571_init_ok.
Qed.

(** ** Whose data is delivered *)

(** The packet is one of a TURN server of the component. *)
Definition from_turn (c : NiceComponent) (sock : option Z) (from : NiceAddress) : Prop :=
  socket_type sock = NICE_SOCKET_TYPE_UDP_TURN \/
  (exists cand turn, co_turn_candidate c = Some cand /\ c_turn cand = Some turn /\ nice_address_equal from (ts_server turn) = true) \/
  (exists turn, turn ∈ co_turn_servers c /\ nice_address_equal from (ts_server turn) = true).

Lemma turn_servers_from w sid locals sock message from is_turn status servers sock' message' status' w' :
  turn_servers_loop w sid locals sock message from is_turn status servers = Ok (true, sock', message', status', w') ->
  is_turn = true \/ exists turn, turn ∈ servers /\ nice_address_equal from (ts_server turn) = true.
Proof.
  revert is_turn. induction servers as [|turn servers IH]; intros is_turn; cbn [turn_servers_loop]; [intros [= ->]; auto|].
  destruct (nice_address_equal from (ts_server turn)) eqn:Heq; cbn [negb].
  - intros _. right. exists turn. split; [by left|done].
  - intros [|(t & Ht & ?)]%IH; [by left|]. right. exists t. split; [by right|done].
Qed.

Lemma recv_turn_from w sid c sock message from status sock' message' status' w' :
  _agent_recv_turn_message_unlocked w sid c sock message from status = Ok (true, sock', message', status', w') -> from_turn c sock from.
Proof.
  unfold _agent_recv_turn_message_unlocked, from_turn. case_bool_decide; [by left|].
  assert (forall sock' message' status' w', turn_servers_loop w sid (co_local_candidates c) sock message from false status (co_turn_servers c) =
    Ok (true, sock', message', status', w') -> exists turn, turn ∈ co_turn_servers c /\ nice_address_equal from (ts_server turn) = true) as Hs.
  { intros ???? [|]%turn_servers_from; done. }
  destruct (co_turn_candidate c) as [cand|] eqn:Hc; [|intros ?%Hs; auto]. intros H0. inv_res.
  destruct a; [|right; right; by eapply Hs]. destruct (io_is_based_on _ _ _); [|done]. destruct (c_turn cand) as [turn|] eqn:Ht; [|done].
  injection Ha as Ha. eauto 10.
Qed.

Lemma append_keeps_from bytestream_tcp m chunk len n ms iter : 
  append_buffer_to_input_messages bytestream_tcp [m] 1 nice_input_message_iter_reset chunk len = Ok (n, ms, iter) ->
  exists m', ms = [m'] /\ im_from m' = im_from m.
Proof.
  unfold append_buffer_to_input_messages. cbn [nice_input_message_iter_reset it_message it_buffer it_offset].
  change (message_at [m] 0) with (Ok m). cbn [mbind res_bind]. intros H. apply bind_Ok_inv in H as (a & _ & H).
  repeat match type of H with context [match ?x with (_, _) => _ end] => destruct x end.
  apply bind_Ok_inv in H as (cap & _ & H). injection H as <- <- <-. by eexists.
Qed.

Lemma turn_servers_not w sid locals sock message from is_turn status servers sock' message' status' w' :
  turn_servers_loop w sid locals sock message from is_turn status servers = Ok (false, sock', message', status', w') ->
  sock' = sock /\ message' = message.
Proof.
  revert is_turn. induction servers as [|turn servers IH]; intros is_turn; cbn [turn_servers_loop]; [by intros [= -> -> -> -> ->]|].
  destruct (negb _); [apply IH|]. destruct (find_relayed _ _ _ _ _); [|apply IH]. intros H. inv_res. by repeat case_match; inv_res.
Qed.

Lemma recv_turn_not w sid c sock message from status sock' message' status' w' :
  _agent_recv_turn_message_unlocked w sid c sock message from status = Ok (false, sock', message', status', w') ->
  sock' = sock /\ message' = message.
Proof.
  unfold _agent_recv_turn_message_unlocked. case_bool_decide; [done|].
  destruct (co_turn_candidate c); [|apply turn_servers_not]. intros H0. apply bind_Ok_inv in H0 as ([] & _ & H0); [|by apply turn_servers_not in H0].
  inv_res. by repeat case_match; inv_res.
Qed.

(** The component has confirmed the source: by its first valid candidate, or it
    is in fallback mode. *)
Definition trusted (c : NiceComponent) (sock : option Z) (from : NiceAddress) : Prop :=
  co_fallback_mode c = true \/ exists cand rest, co_valid_candidates c = cand :: rest /\ confirms sock from cand = true.

Lemma verify_trusted c from sock c' : nice_component_verify_remote_candidate c from sock = (true, c') ->
  trusted (c <| co_valid_candidates := co_valid_candidates c' |>) sock from.
Proof.
  unfold nice_component_verify_remote_candidate, trusted. destruct (co_fallback_mode c) eqn:Hf; [by left|].
  destruct (list_find _ _) as [[k x]|] eqn:Hl; [|done]. intros [= <-]. apply list_find_Some in Hl as (_ & Hx & _). right. by eexists _, _.
Qed.

Lemma recv_data_success st sid cid sock m returned st' : recv_data st sid cid sock m = Ok (RECV_SUCCESS, returned, st') ->
  st' = st /\ returned = false.
Proof.
  unfold recv_data. intros H. repeat (case_match; inv_res; try done). 
Qed.

Lemma classify_trusted st sid cid sock m m' returned st' :
  recv_classify package_string st sid cid sock m RECV_SUCCESS = Ok (RECV_SUCCESS, m', returned, st') ->
  exists c from c' sock' from', the_component (rs_agent st) sid cid = Ok c /\ im_from m = Some from /\
    (a_force_relay (rs_agent st) = true -> from_turn c sock from) /\ returned = false /\
    (from_turn c sock from \/ sock' = sock /\ from' = from) /\
    im_from m' = Some from' /\ the_component (rs_agent st') sid cid = Ok c' /\ trusted c' sock' from'.
Proof.
  unfold recv_classify. destruct (im_length m =? 0); [done|]. intros H. apply bind_Ok_inv in H as (from & Hfrom & H).
  destruct (im_from m) as [from0|] eqn:Hm; [injection Hfrom as ->|done]. apply bind_Ok_inv in H as (c & Hc & H).
  apply bind_Ok_inv in H as ([[[[is_turn sock'] m1] status] w] & Hturn & H). cbn [with_world rs_agent] in H.
  destruct (a_force_relay (rs_agent st) && negb is_turn) eqn:Hforce; [done|]. destruct (decide (status = RECV_OOB)); [done|].
  apply bind_Ok_inv in H as (from' & Hfrom' & H). destruct (im_from m1) as [from1|] eqn:Hm1; [injection Hfrom' as ->|done].
  apply bind_Ok_inv in H as ([handled st1] & _ & H). destruct handled; [done|].
  apply bind_Ok_inv in H as (c1 & Hc1 & H). destruct (nice_component_verify_remote_candidate c1 from' sock') as [verified c2] eqn:Hv.
  destruct verified; [|done]. cbn [negb] in H. apply bind_Ok_inv in H as ([[status' ret'] st2] & Hdata & H). injection H as -> <- <- <-.
  apply recv_data_success in Hdata as [-> ->].
  exists c, from, (c1 <| co_valid_candidates := co_valid_candidates c2 |>), sock', from'.
  split; [done|]. split; [done|]. split; [|split; [done|split; [|split; [done|split]]]].
  - intros Hfr. rewrite Hfr in Hforce. destruct is_turn; [|done]. by eapply recv_turn_from.
  - destruct is_turn; [left; by eapply recv_turn_from|]. right. apply recv_turn_not in Hturn as [-> ->]. by rewrite Hm in Hm1; injection Hm1 as ->.
  - by apply (the_component_upd _ sid cid (fun c => c <| co_valid_candidates := co_valid_candidates c2 |>)).
  - by apply verify_trusted.
Qed.

Lemma recv_first_agent st sid cid c sock m sockret sock0 m0 is_frame st0 :
  recv_first st sid cid c sock m = Ok (sockret, sock0, m0, is_frame, st0) -> rs_agent st0 = rs_agent st.
Proof. unfold recv_first. intros H. by repeat (case_match; inv_res). Qed.

Lemma recv_done_from st is_frame provided m st' : recv_done st RECV_SUCCESS is_frame provided = Ok (m, st') ->
  im_from m = im_from provided /\ rs_agent st' = rs_agent st.
Proof.
  unfold recv_done. destruct is_frame; [|by intros [= -> ->]]. destruct (decide _); [|done].
  intros H. apply bind_Ok_inv in H as ([out r] & Hc & H). apply bind_Ok_inv in H as (m1 & Hm & H). injection H as <- <-. split; [|done].
  unfold agent_consume_next_rfc4571_chunk in Hc. apply bind_Ok_inv in Hc as (chunk & _ & Hc).
  apply bind_Ok_inv in Hc as ([[copied ms] iter] & Happ & Hc). apply append_keeps_from in Happ as (m' & -> & <-).
  apply bind_Ok_inv in Hc as (r1 & _ & Hc). injection Hc as <- _. by injection Hm as <-.
Qed.

(** C4: the application is only handed data of a source the component trusts:
    when [agent_recv_message_unlocked] succeeds, the packet came from an
    address that a candidate of the valid list confirms, which is now the first
    of the list (or the component is in fallback mode); it is the address the
    application is given, and the one the socket reported unless the packet
    came through a TURN server; and with force-relay set it did. *)
Theorem recv_trusted st sid cid sock provided m st' :
  agent_recv_message_unlocked package_string st sid cid sock provided = Ok (RECV_SUCCESS, m, st') ->
  exists c sockret sock0 m0 is_frame st0 from0 c' sock' from',
    the_component (rs_agent st) sid cid = Ok c /\
    recv_first st sid cid c sock (with_from provided (Some (default nice_address_init (im_from provided)))) = Ok (sockret, sock0, m0, is_frame, st0) /\
    0 < sockret /\ im_from m0 = Some from0 /\
    (a_force_relay (rs_agent st) = true -> from_turn c sock0 from0) /\
    (from_turn c sock0 from0 \/ sock' = sock0 /\ from' = from0) /\
    the_component (rs_agent st') sid cid = Ok c' /\ trusted c' sock' from' /\
    im_from m = (_ ← im_from provided; Some from').
Proof.
  unfold agent_recv_message_unlocked. intros H. apply bind_Ok_inv in H as (c & Hc & H).
  apply bind_Ok_inv in H as ([[[[sockret sock0] m0] is_frame] st0] & Hfirst & H). pose proof (recv_first_agent _ _ _ _ _ _ _ _ _ _ _ Hfirst) as Hag.
  apply bind_Ok_inv in H as ([[[status m1] returned] st1] & Hclass & H). apply bind_Ok_inv in H as (st2 & Hwr & H).
  assert (Ha2 : rs_agent st2 = rs_agent st1) by (destruct is_frame; [apply bind_Ok_inv in Hwr as (? & _ & [= <-])|injection Hwr as <-]; done).
  assert (Hs : status = RECV_SUCCESS).
  { destruct returned; [by injection H|]. apply bind_Ok_inv in H as ([p1 s1] & _ & H). by injection H. }
  subst status. destruct (Z.eqb_spec sockret 0); [done|]. destruct (Z.ltb_spec sockret 0); [done|].
  apply classify_trusted in Hclass as (c0 & from & c' & sock' & from' & Hc0 & Hfrom & Hforce & -> & Hturn & Hm1 & Hc' & Htr).
  rewrite Hag, Hc in Hc0. injection Hc0 as <-. rewrite Hag in Hforce.
  apply bind_Ok_inv in H as ([p1 s1] & Hdone & H). injection H as <- <-. apply recv_done_from in Hdone as [Hp Hs1].
  exists c, sockret, sock0, m0, is_frame, st0, from, c', sock', from'. split_and!; try done; [lia|by rewrite Hs1, Ha2|].
  assert (im_from p1 = Some from') by (rewrite Hp; by destruct is_frame). by destruct (im_from provided).
Qed.
End recv.

(** ** Sending *)

Section send.
Context {W : Type} {IO : IoWorld W} {PT : PseudoTcpPort W} {E : CheckEnv}.
Implicit Type st : IoState (W := W).

(** The selected pair of a component is an ICE-TCP connection with consent. *)
Definition selected_tcp st (sid cid : Z) (sock : option Z) (addr : NiceAddress) : Prop :=
  exists s c local remote, agent_find_component (rs_agent st) sid cid = Some (s, c) /\
    sp_local (co_selected_pair c) = Some local /\ sp_remote (co_selected_pair c) = Some remote /\
    sp_remote_consent_have (co_selected_pair c) = true /\ c_sockptr local = sock /\ c_addr remote = addr /\
    nice_socket_is_reliable sock = true.

Lemma framed_one {outgoing : W -> list Z} {sock addr} {SK : StreamSink W outgoing sock addr} st buf : 0 < zlen buf < 2 ^ 31 ->
  exists ret st' l l', framed_messages_loop st sock addr 0 [one_vector buf] = Ok (ret, st') /\ packets buf = l ++ l' /\
    outgoing (rs_world st') = outgoing (rs_world st) ++ tcp_wire l /\ rs_agent st' = rs_agent st /\
    (l' = [] /\ ret = 1 \/ l' <> [] /\ -1 <= ret <= 0).
Proof.
  intros Hb. cbn [framed_messages_loop]. rewrite (output_message_get_size_holds _ buf) by (apply holds_one_vector; lia).
  cbn [mbind res_bind one_vector om_n_buffers om_buffers]. change (1 =? -1) with false. change (u32 1) with 1. cbn [mbind res_bind].
  change (zlen [_] <? 1) with false. change (take (Z.to_nat 1) [?v]) with [v]. cbn [mbind res_bind].
  destruct (packets_loop_ok buf (Z.to_nat (zlen buf / FRAME_MAX) + 1) st 0) as (ret & st' & l & l' & Hrun & Hl & Hw & Ha & Hcase); [lia| |].
  { left. apply packets_fuel. }
  rewrite Z.sub_0_r in Hrun. rewrite Hrun. cbn [mbind res_bind]. exists ret, st', l, l'. split_and!; try done.
  rewrite (proj2 (Z.eqb_neq _ _)) in Hcase by lia. done.
Qed.

(** C17: over ICE-TCP, sending a buffer of any size hands the socket the frames
    of RFC 4571 of its packets, in order: of all of them, and then the number
    of bytes is returned, or of a first part of them, and then -1.  The packets
    make up the buffer. *)
Theorem ice_tcp_send_frames (outgoing : W -> list Z) sock addr (SK : StreamSink W outgoing sock addr) st sid cid buf :
  1 <= sid -> 1 <= cid -> selected_tcp st sid cid sock addr -> 0 < zlen buf < 2 ^ 31 ->
  exists ret st' sent unsent, nice_agent_send st sid cid (zlen buf) (Some buf) = Ok (ret, st') /\
    packets buf = sent ++ unsent /\ concat (sent ++ unsent) = buf /\
    outgoing (rs_world st') = outgoing (rs_world st) ++ tcp_wire sent /\
    (unsent = [] /\ ret = zlen buf \/ unsent <> [] /\ ret = -1).
Proof.
  intros Hsid Hcid (s & c & local & remote & Hfind & Hl & Hr & Hcons & Hs & Ha & Hrel) Hb.
  unfold nice_agent_send. rewrite !(proj2 (Z.leb_le _ _)) by lia. cbn [negb orb].
  unfold nice_agent_send_messages_nonblocking_internal. change (zlen [_] =? 1) with true. cbn [orb assert_ok mbind res_bind].
  rewrite Hfind, Hl, Hr, Hcons, Hs, Ha, Hrel. cbn [negb andb]. rewrite andb_false_r. unfold send_selected. rewrite Hrel.
  destruct (framed_one st buf Hb) as (n & st' & l & l' & Hrun & Hp & Hw & Hag & Hcase). unfold one_vector in Hrun. rewrite Hrun. cbn [mbind res_bind].
  pose proof (output_message_get_size_holds (one_vector buf) buf (holds_one_vector buf ltac:(lia))) as Hsz. unfold one_vector in Hsz.
  assert (Hcat : concat (l ++ l') = buf) by (rewrite <- Hp; apply packets_concat).
  destruct Hcase as [[-> ->]|[Hne Hn]].
  - exists (zlen buf), st', l, []. split; [|split_and!; auto]. cbn [Z.ltb Z.compare andb]. rewrite Hsz. cbn [mbind res_bind].
    rewrite s32_small by lia. rewrite (proj2 (Z.eqb_neq (zlen buf) 0)) by lia. cbn [mbind res_bind].
    rewrite (proj2 (Z.eqb_neq (zlen buf) (-1))), (proj2 (Z.eqb_neq (zlen buf) 0)) by lia. cbn [eqb negb assert_ok mbind res_bind].
    by rewrite Z.leb_refl, orb_true_r.
  - exists (-1), st', l, l'. split; [|split_and!; auto]. assert (n = 0 \/ n = -1) as [-> | ->] by lia;
      cbn [Z.ltb Z.compare andb Z.eqb mbind res_bind negb eqb assert_ok]; rewrite Hsz; reflexivity.
Qed.

Lemma rd_bytes_Fault (b : list Z) off n : zlen b < off + n -> rd_bytes b off n = Fault OutOfBounds.
Proof. intros H. unfold rd_bytes. by rewrite (proj2 (Z.leb_gt _ _) H), andb_false_r. Qed.

(** A message that is split within its first vector, with more bytes behind it. *)
Lemma split_packets (a b : list Z) : FRAME_MAX < zlen a -> 0 < zlen b -> zlen a + zlen b <= 2 * FRAME_MAX ->
  let bufs := [mkVector (Some a) (zlen a); mkVector (Some b) (zlen b)] in
  (exists m, frame_packet bufs 0 FRAME_MAX = (m, FRAME_MAX, 0) /\
     gather_loop (om_n_buffers m) 0 (om_buffers m) = Ok (rfc4571_frame (slice a 0 FRAME_MAX))) /\
  (exists m off, frame_packet bufs FRAME_MAX (zlen a + zlen b - FRAME_MAX) = (m, off, FRAME_MAX) /\
     gather_loop (om_n_buffers m) 0 (om_buffers m) = Fault OutOfBounds).
Proof.
  intros Ha Hb Hab bufs. assert (H16 : FRAME_MAX = 63488) by done. split.
  - unfold frame_packet, bufs. cbn [find_start gv_size]. rewrite (proj2 (Z.ltb_ge _ _)) by lia. cbn [packet_vectors gv_size gv_buffer].
    rewrite (Z.min_r (zlen a)), (Z.min_r (zlen b)) by lia. rewrite Z.sub_diag. eexists. split; [done|].
    cbn [om_n_buffers om_buffers gather_loop]. change (zlen [_; _] + 1) with 3.
    change (has_vector 3 0 _) with (Ok true). change (has_vector 3 (0 + 1) _) with (Ok true). change (has_vector 3 (0 + 1 + 1) _) with (Ok true).
    change (has_vector 3 (0 + 1 + 1 + 1) _) with (Ok false). cbn [mbind res_bind gv_size vector_read gv_buffer fmap option_fmap option_map].
    pose proof (zlen_le_bytes 2 (htons FRAME_MAX)). rewrite (rd_bytes_Ok (le_bytes 2 _)) by lia. cbn [mbind res_bind].
    rewrite (rd_bytes_Ok (drop _ a)) by (rewrite ?zlen_drop; lia). cbn [mbind res_bind].
    rewrite (rd_bytes_Ok (drop _ b)) by (rewrite ?zlen_drop; lia). cbn [mbind res_bind].
    change (drop (Z.to_nat 0) a) with a. rewrite Z.sub_diag. unfold rfc4571_frame. rewrite zlen_slice by lia. rewrite <- le_bytes_htons.
    replace (slice (le_bytes 2 (htons FRAME_MAX)) 0 2) with (le_bytes 2 (htons FRAME_MAX)) by (symmetry; apply slice_all).
    change (slice (drop _ b) 0 0) with (@nil Z). by rewrite !app_nil_r.
  - unfold frame_packet, bufs. cbn [find_start gv_size]. rewrite (proj2 (Z.ltb_ge _ _)) by lia. cbn [packet_vectors gv_size gv_buffer].
    rewrite (Z.min_r (zlen a)) by lia. eexists _, _. split; [rewrite Z.sub_0_r; reflexivity|].
    cbn [om_n_buffers om_buffers gather_loop]. change (zlen [_; _] + 1) with 3.
    change (has_vector 3 0 _) with (Ok true). change (has_vector 3 (0 + 1) _) with (Ok true).
    cbn [mbind res_bind gv_size vector_read gv_buffer fmap option_fmap option_map].
    pose proof (zlen_le_bytes 2 (htons (zlen a + zlen b - FRAME_MAX))). rewrite (rd_bytes_Ok (le_bytes 2 _)) by lia. cbn [mbind res_bind].
    by rewrite (rd_bytes_Fault (drop (Z.to_nat FRAME_MAX) a)) by (rewrite zlen_drop; lia).
Qed.

(** C39: a message of two vectors is split wrongly when its first vector is
    longer than a packet: the second packet takes all its bytes from the rest of
    the first vector, reads behind its end and leaves the second vector out. *)
Theorem split_message_over_read sock addr st sid cid (a b : list Z) :
  (forall w m data, gather_loop (om_n_buffers m) 0 (om_buffers m) = Ok data -> exists w', io_send w sock addr [m] = Ok (1, w')) ->
  (forall w m data, gather_loop (om_n_buffers m) 0 (om_buffers m) = Ok data -> exists w', io_send_reliable w sock addr [m] = Ok (1, w')) ->
  (forall w m e, gather_loop (om_n_buffers m) 0 (om_buffers m) = Fault e -> io_send_reliable w sock addr [m] = Fault e) ->
  selected_tcp st sid cid sock addr -> FRAME_MAX < zlen a -> 0 < zlen b -> zlen a + zlen b <= 2 * FRAME_MAX ->
  nice_agent_send_messages_nonblocking_internal st sid cid
    [mkOutput [mkVector (Some a) (zlen a); mkVector (Some b) (zlen b)] 2] false = Fault OutOfBounds.
Proof.
  intros Hs1 Hs2 Hf (s & c & local & remote & Hfind & Hl & Hr & Hcons & Hs & Hadr & Hrel) Ha Hb Hab.
  unfold nice_agent_send_messages_nonblocking_internal. cbn [negb orb]. rewrite orb_true_r. cbn [assert_ok mbind res_bind].
  rewrite Hfind, Hl, Hr, Hcons, Hs, Hadr, Hrel. cbn [negb]. rewrite andb_false_r. unfold send_selected. rewrite Hrel. cbn [framed_messages_loop].
  destruct (split_packets a b Ha Hb Hab) as [(m1 & Hm1 & Hg1) (m2 & off & Hm2 & Hg2)].
  assert (Hsz : output_message_get_size (mkOutput [mkVector (Some a) (zlen a); mkVector (Some b) (zlen b)] 2) = Ok (zlen a + zlen b)).
  { unfold output_message_get_size. rewrite (size_loop_vectors _ _ _ [a; b]); [by rewrite Z.add_0_l; cbn [concat]; autorewrite with zlen; rewrite Z.add_0_r| |lia|].
    - apply (vectors_next 2 0 _ _ a [] [b]); simpl; rewrite ?app_nil_r; auto. apply (vectors_next 2 1 _ _ b [] []); simpl; rewrite ?app_nil_r; auto.
      by apply vectors_end.
    - cbn [concat]. unfold FRAME_MAX in *. zlia. }
  rewrite Hsz. cbn [mbind res_bind om_n_buffers om_buffers].
  change (2 =? -1) with false. change (u32 2) with 2. cbn [mbind res_bind].
  change (zlen [_; _] <? 2) with false. change (take (Z.to_nat 2) [?v; ?v']) with [v; v']. cbn [mbind res_bind].
  assert (exists k, (Z.to_nat ((zlen a + zlen b) / FRAME_MAX) + 1 = S (S k))%nat) as [k ->].
  { assert (1 <= (zlen a + zlen b) / FRAME_MAX) by (apply Z.div_le_lower_bound; unfold FRAME_MAX in *; lia).
    exists (Z.to_nat ((zlen a + zlen b) / FRAME_MAX) - 1)%nat. lia. }
  cbn [packets_loop]. assert (H16 : FRAME_MAX = 63488) by done. rewrite (proj2 (Z.ltb_lt 0 (zlen a + zlen b))) by lia.
  rewrite (Z.min_r (zlen a + zlen b)) by lia. rewrite Hm1.
  assert (exists w', (if (0 =? 0) && negb (a_reliable (rs_agent st)) then io_send (rs_world st) sock addr [m1]
      else io_send_reliable (rs_world st) sock addr [m1]) = Ok (1, w')) as [w' ->] by (destruct (_ && _); eauto).
  cbn [mbind res_bind]. change (negb (1 =? 1)) with false. change ((1 <? 0) && (0 =? 0)) with false. cbn [andb].
  rewrite (proj2 (Z.ltb_lt 0 (zlen a + zlen b - FRAME_MAX))) by lia. rewrite (Z.min_l (zlen a + zlen b - FRAME_MAX)) by lia.
  rewrite Hm2. cbn [mbind res_bind]. rewrite (proj2 (Z.eqb_neq FRAME_MAX 0)) by lia. cbn [andb]. by rewrite (Hf _ _ _ Hg2).
Qed.
End send.

(** ** An example *)

(** A connection that hands out three bytes at a time and takes every message. *)
Record ex_connection : Set := mkConnection { cn_in : list Z; cn_out : list Z }.

Definition ex_tcp_peer : NiceAddress := c_addr (ex_cand 2 NICE_CANDIDATE_TYPE_HOST 2015363327 1).
Definition ex_incoming (w : ex_connection) : list Z := u8 <$> cn_in w.

Definition ex_recv (w : ex_connection) (m : NiceInputMessage) : res (Z * NiceInputMessage * ex_connection) :=
  match im_buffers m with
  | [mkVector (Some room) n] =>
      let data := take (Z.to_nat (Z.min n 3)) (ex_incoming w) in
      Ok (if bool_decide (data = []) then 0 else 1,
          mkInput [mkVector (Some (data ++ drop (length data) room)) n] (im_n_buffers m)
            (if bool_decide (data = []) then im_from m else Some ex_tcp_peer) (zlen data),
          mkConnection (drop (length data) (cn_in w)) (cn_out w))
  | _ => Ok (0, m, w)
  end.

Definition ex_send (w : ex_connection) (ms : list NiceOutputMessage) : res (Z * ex_connection) :=
  match ms with
  | [m] => data ← gather_loop (om_n_buffers m) 0 (om_buffers m); Ok (1, mkConnection (cn_in w) (cn_out w ++ data))
  | _ => Ok (0, w)
  end.

#[export] Instance ex_io : IoWorld ex_connection := {|
  io_recv w _ m := ex_recv w m;
  io_send w _ _ ms := ex_send w ms;
  io_send_reliable w _ _ ms := ex_send w ms;
  io_can_send _ _ _ := true;
  io_is_based_on _ x y := bool_decide (x = y);
  io_available w _ := zlen (cn_in w);
  io_connected _ _ := true;
  io_peek _ _ := -1;
  io_accept w _ := w;
  io_turn_parse w _ s m := Ok (1, s, m, w)
|}.

#[export] Instance ex_pseudo_tcp : PseudoTcpPort ex_connection := {|
  ptcp_is_closed _ := false; ptcp_can_send _ := true; ptcp_get_error _ := PtcpOther; ptcp_get_available_send_space _ := 0;
  ptcp_send w _ := Ok (-1, w); ptcp_recv w _ := Ok (-1, [], w); ptcp_notify_message a w _ := Ok (a, w); ptcp_notify_packet a w _ := Ok (true, a, w);
  ptcp_adjust_clock a w := Ok (a, w); ptcp_fail a w := Ok (a, w)
|}.

#[export] Instance ex_stream_source sock : StreamSource ex_connection ex_incoming sock ex_tcp_peer.
Proof.
  intros w room n from Hn Hroom Hb. cbn [io_recv ex_io ex_recv im_buffers im_n_buffers im_from].
  set (data := take (Z.to_nat (Z.min n 3)) (ex_incoming w)).
  assert (Hd : zlen data <= n) by (unfold data, zlen; rewrite length_take; lia).
  assert (Hdb : bytes (ex_incoming w)) by (apply Forall_fmap, Forall_true; intros x; apply u8_range).
  eexists (if bool_decide (data = []) then 0 else 1), data, (drop (length data) room), (if bool_decide (data = []) then from else ex_tcp_peer), (zlen data), _.
  split; [destruct (bool_decide (data = [])); reflexivity|].
  assert (Hrest : zlen (drop (length data) room) = n - zlen data) by (rewrite <- (to_nat_zlen data), zlen_drop; zlia).
  split; [by case_bool_decide|]. split; [zlia|]. split; [apply bytes_app; split; [by apply Forall_take|by apply Forall_drop]|].
  split; [|split].
  - unfold ex_incoming at 2. cbn [cn_in]. rewrite fmap_drop. fold (ex_incoming w). unfold data at 1 2. rewrite length_take.
    destruct (Nat.min_spec (Z.to_nat (Z.min n 3)) (length (ex_incoming w))) as [[? ->]|[? ->]]; [by rewrite take_drop|].
    rewrite firstn_all2, skipn_all2 by lia. by rewrite app_nil_r.
  - by case_bool_decide.
  - by case_bool_decide.
Qed.

Lemma ex_prompt sock : prompt (incoming := ex_incoming) (sock := sock).
Proof.
  intros w room n from Hn _ Hne. cbn [io_available io_recv ex_io ex_recv im_buffers im_n_buffers im_from].
  unfold ex_incoming in *. destruct (cn_in w) as [|x l]; [done|]. split; [zlia|].
  assert (exists k, Z.to_nat (Z.min n 3) = S k) as [k ->] by (exists (Z.to_nat (Z.min n 3) - 1)%nat; lia).
  cbn [fmap list_fmap take]. rewrite bool_decide_false by done. eexists _, _. split; [reflexivity|]. cbn [im_length]. zlia.
Qed.

#[export] Instance ex_stream_sink sock addr : StreamSink ex_connection cn_out sock addr.
Proof. split; intros w m data Hg; cbn [io_send io_send_reliable ex_io ex_send]; rewrite Hg; by eexists 1, _. Qed.

Definition ex_tcp_env : CheckEnv := {|
  g_get_monotonic_time := g_get_monotonic_time (CheckEnv := ex_check_env);
  gettimeofday := gettimeofday (CheckEnv := ex_check_env); stun_make_transid := stun_make_transid (CheckEnv := ex_check_env);
  nice_rng_generate_bytes := nice_rng_generate_bytes (CheckEnv := ex_check_env);
  nice_rng_generate_bytes_print := nice_rng_generate_bytes_print (CheckEnv := ex_check_env);
  nice_socket_is_reliable := fun _ => true; socket_has_fileno := fun _ => true; socket_type := fun _ => NICE_SOCKET_TYPE_TCP_BSD;
  nice_tcp_bsd_socket_get_passive_parent := fun _ => None; socket_addr := socket_addr (CheckEnv := ex_check_env);
  nice_socket_send_messages_reliable := fun _ _ _ _ => 1; nice_socket_send_reliable := fun _ _ _ _ => -1;
  nice_socket_send := fun _ _ _ b => zlen b; nice_tcp_active_socket_connect := fun _ _ _ => None;
  nice_udp_bsd_socket_new := fun _ _ => SocketFailed; nice_tcp_active_socket_new := fun _ _ => SocketFailed;
  nice_tcp_passive_socket_new := fun _ _ => SocketFailed; nice_udp_turn_socket_new := fun _ _ _ _ => None;
  agent_create_tcp_turn_socket := fun _ _ _ _ _ => None
|}.

#[local] Instance ex_keepalive : Keepalive := fun a => Ok (true, a).
#[local] Instance ex_agent_base64 : Base64 := ex_base64.
#[local] Instance ex_agent_net : NetEnv := ex_net.

(** An agent whose selected pair has been checked. *)
Definition ex_io_agent : NiceAgent :=
  upd_component ex_ice 1 1 (fun c => c
    <| co_valid_candidates := [ex_cand 2 NICE_CANDIDATE_TYPE_HOST 2015363327 1] |>
    <| co_selected_pair := mkSelected (Some (ex_cand 1 NICE_CANDIDATE_TYPE_HOST 2015363327 1)) (Some (ex_cand 2 NICE_CANDIDATE_TYPE_HOST 2015363327 1))
                             1 1 true (Some 5) 0 0 1 1 |>).

Definition ex_io_state (l : list Z) : IoState := mkIo ex_io_agent false rfc4571_init [] None (mkConnection l []).
Definition ex_room : list Z := replicate (Z.to_nat 65535) 0.
Definition ex_provided : NiceInputMessage := mkInput [mkVector (Some ex_room) 65535] 1 None 0.
Definition ex_messages : list (list Z) := [[200; 1]; [100; 2; 3; 4; 5]].

Lemma ice_tcp_delivers_witness :
  exists st', recv_run (E := ex_tcp_env) (sock := Some 1) [] 1 1 ex_provided 20 (ex_io_state (tcp_wire ex_messages)) = Ok (ex_messages, st').
Proof.
  destruct (ice_tcp_delivers (E := ex_tcp_env) [] ex_incoming (Some 1) ex_tcp_peer _ 1 1 ex_provided ex_room 65535
    (ex_io_state (tcp_wire ex_messages)) 20 ex_messages) as (l & rest & st' & Hrun & Hl & Hall).
  - reflexivity.
  - reflexivity.
  - split; [reflexivity|]. split; [reflexivity|]. split; [|lia]. unfold ex_room. rewrite zlen_replicate. lia.
  - split; [reflexivity|]. split; [reflexivity|]. eexists. split; [reflexivity|]. split; [reflexivity|]. split; [reflexivity|]. right.
    exists (ex_cand 2 NICE_CANDIDATE_TYPE_HOST 2015363327 1). split; [by left|reflexivity].
  - reflexivity.
  - repeat constructor; eexists _, _; (split; [reflexivity|]); (split; [lia|]); split; try (repeat constructor; lia); reflexivity.
  - reflexivity.
  - exists st'. rewrite Hrun. rewrite Hl, (Hall (ex_prompt (Some 1))), app_nil_r; [reflexivity|]. vm_compute. lia.
Defined.

Lemma recv_trusted_witness :
  exists m st' c' sock', agent_recv_message_unlocked (E := ex_check_env) [] (ex_io_state [200; 1; 2]) 1 1 (Some 1)
      (mkInput [mkVector (Some [0; 0; 0; 0; 0]) 5] 1 (Some nice_address_init) 0) = Ok (RECV_SUCCESS, m, st') /\
    the_component (rs_agent st') 1 1 = Ok c' /\ trusted (E := ex_check_env) c' sock' ex_tcp_peer.
Proof.
  assert (exists m st', agent_recv_message_unlocked (E := ex_check_env) [] (ex_io_state [200; 1; 2]) 1 1 (Some 1)
      (mkInput [mkVector (Some [0; 0; 0; 0; 0]) 5] 1 (Some nice_address_init) 0) = Ok (RECV_SUCCESS, m, st') /\ im_from m = Some ex_tcp_peer)
    as (m & st' & Hrun & Hm) by (eexists _, _; split; reflexivity).
  exists m, st'. pose proof (recv_trusted (E := ex_check_env) _ _ _ _ _ _ _ _ Hrun) as
    (c & sockret & sock0 & m0 & is_frame & st0 & from0 & c' & sock' & from' & Hc & Hfirst & _ & Hfrom & _ & Hturn & Hc' & Ht & Hm').
  exists c', sock'. split; [exact Hrun|]. split; [exact Hc'|]. rewrite Hm in Hm'. injection Hm' as ->. exact Ht.
Defined.

Lemma ex_selected_tcp l : selected_tcp (E := ex_tcp_env) (ex_io_state l) 1 1 (Some 1) ex_tcp_peer.
Proof. eexists _, _, _, _. repeat split; reflexivity. Qed.

Lemma ice_tcp_send_frames_witness :
  exists ret st' sent unsent, nice_agent_send (E := ex_tcp_env) (ex_io_state []) 1 1 3 (Some [200; 1; 2]) = Ok (ret, st') /\
    packets [200; 1; 2] = sent ++ unsent /\ cn_out (rs_world st') = tcp_wire sent.
Proof.
  destruct (ice_tcp_send_frames (E := ex_tcp_env) cn_out (Some 1) ex_tcp_peer _ (ex_io_state []) 1 1 [200; 1; 2])
    as (ret & st' & sent & unsent & Hs & Hp & _ & Ho & _); [lia|lia|apply ex_selected_tcp|unfold zlen; simpl; lia|].
  exists ret, st', sent, unsent. split; [exact Hs|]. split; [exact Hp|exact Ho].
Defined.

(** Sixty-two kilobytes and a hundred bytes, and another thousand. *)
Definition ex_long (n : Z) : list Z := replicate (Z.to_nat n) 200.

Lemma ex_long_zlen n : 0 <= n -> zlen (ex_long n) = n.
Proof. intros H. unfold ex_long. rewrite zlen_replicate. lia. Qed.

Lemma split_message_over_read_witness :
  nice_agent_send_messages_nonblocking_internal (E := ex_tcp_env) (ex_io_state []) 1 1
    [mkOutput [mkVector (Some (ex_long 63588)) (zlen (ex_long 63588)); mkVector (Some (ex_long 1000)) (zlen (ex_long 1000))] 2] false =
    Fault OutOfBounds.
Proof.
  apply (split_message_over_read (E := ex_tcp_env) (Some 1) ex_tcp_peer).
  - intros w m data Hg. cbn [io_send ex_io ex_send]. rewrite Hg. by eexists.
  - intros w m data Hg. cbn [io_send_reliable ex_io ex_send]. rewrite Hg. by eexists.
  - intros w m e Hg. cbn [io_send_reliable ex_io ex_send]. by rewrite Hg.
  - apply ex_selected_tcp.
  - rewrite ex_long_zlen by lia. unfold FRAME_MAX. lia.
  - rewrite ex_long_zlen by lia. lia.
  - rewrite !ex_long_zlen by lia. unfold FRAME_MAX. lia.
Defined.
